(* ===== verification/_CoqProject ===== *)
-Q . S2P
Prelude.v
GoStrings.v
FileSys.v
CryptoPrims.v
CryptoStream.v
CryptoStreamFacts.v
CryptoStreamProps.v
CryptoVault.v
CAS.v
CASProps.v
PoW.v
UploadSession.v
UploadSessionProps.v
VaultTree.v
Auth.v
UploadCtrl.v
UploadFacts.v
UploadProps.v
Merkle.v
Reconcile.v
ReconcileProps.v
Bitset.v
Pieces.v
PiecesFacts.v
PiecesProps.v
Bencode.v
FileDownload.v
FileDownloadProps.v
DownloadTasks.v
DownloadTasksProps.v
FileTable.v
FileOps.v
FileOpsFacts.v
FileOpsInv.v
FileTrash.v
FileVault.v
FileOpsProps.v
PanicPurge.v
PanicPurgeProps.v
NetGuard.v
ZipStream.v
ZipStreamProps.v
FileInfo.v
Listing.v
ListingProps.v
Regex.v
GoURL.v
Links.v
LinksProps.v
Resolver.v
StartDownload.v
ResolverProps.v
StartDownloadProps.v
Preview.v
Svg.v
Thumbnail.v
ThumbnailProps.v
Accelerated.v
AcceleratedProps.v
Torrent.v
TorrentProps.v
GoData.v
Tokens.v
TokensProps.v
WebSession.v
WebSessionProps.v
Pattern.v
Waf.v
Realtime.v
RealtimeProps.v
Tx.v
Paging.v
PagingProps.v
GoReflect.v
Secrets.v
SecretsProps.v
Repository.v
RepositoryProps.v
Uploads.v
UploadsProps.v
