(* ===== verification/Prelude.v ===== *)
(** * Hornetz Drive: a verification development

    Hornetz Drive (src/internal and src/cmd/hornetz) is a self-hosted file
    store: files are uploaded in chunks or fetched from links, encrypted as
    they stream, kept once per content in a store on disk, and shown, moved,
    shared into archives and erased by HTTP handlers over an SQL database.
    Folders below the root [f2] form a vault whose files are encrypted under a
    key that only a session unlocked with the master password holds.

    ** The parts and the files that model them

    Shared ground.  Prelude (this file): integers of a machine's width, lists
    with integer indices, results, big-endian numbers, tactics and hints.
    GoStrings: package strings, path, hex and strconv.  FileSys: a file
    system as a finite map, with the failures an operating system may report
    as an argument.  CryptoPrims: AES-GCM, SHA-256, HMAC and Argon2id as a
    class of functions with their documented laws, and a toy instance that
    shows the laws can hold.  Regex: the leftmost-first matching of package
    regexp.  GoURL: package net/url and the base32 and base64 encodings.

    Encryption (internal/crypto).  CryptoStream is stream.go: the framed
    writer, the reader and its seeking; CryptoStreamFacts and
    CryptoStreamProps prove that what is read is what was written, from any
    interior offset, that only authentic data is read, that the reader refines
    a specification as a list of chunks with an offset, and what happens at
    the two places where this fails (a seek to a chunk boundary over a
    ReaderAt, and a truncation after a frame header).  CryptoVault is vault.go
    and storage_key.go.

    The store (internal/storage, internal/upload).  CAS is cas.go and
    shuffler.go, PoW is pow.go, UploadSession is session.go.  CASProps and
    UploadSessionProps give the invariants: a blob's name is the hash of its
    contents; the metadata files on disk say what the table of sessions says,
    so a restart restores it.  What the code ignores - the results of Sync,
    Close and of removing a copy that broke off - is in the model, and the
    theorem on moves says what is left of the invariant then.

    Access (internal/auth).  Auth is session.go and middleware.go; keys are
    buffers that are overwritten in place.  VaultTree is the set of vault
    folders, computed by the breadth-first search of file_controller.go and by
    the upward walk of the other controllers.

    Uploads (internal/controllers/upload_controller.go).  UploadCtrl has one
    definition per handler over one state; UploadFacts and UploadProps compose
    them with the stream, the store and the sessions: an upload in any number
    of chunks ends with one row and one blob that decrypts to the sent bytes,
    a failed chunk is rolled back (if the file can be truncated), a locked
    vault is not touched.

    Reconciliation (internal/reconcile, reconcile_controller.go).  Merkle and
    Reconcile compare a client's tree with the rows, whose queries may fail,
    end early or deliver rows that cannot be scanned ([remote_reads]).
    ReconcileProps: equal hashes mean equal trees for names without
    separators, the plan accounts for each file once, and what it skips is in
    the rows, at the path where the client has it.

    Downloads from links (internal/download, download_controller.go).  Links
    cleans links and expands batches; Resolver reads magnet links, rewrites
    the links of known sites and opens direct downloads; StartDownload probes
    links and starts tasks; DownloadTasks is the table of tasks and the
    goroutine of one download, with the operations other goroutines perform
    meanwhile as explicit events; Bitset, Pieces and Bencode are the journal,
    the piece coordinator with its workers as a transition system, and the
    decoder of torrents; Accelerated is the goroutine of a task around that
    pool, and AcceleratedProps that it stores the remote file or nothing;
    Torrent announces to trackers and talks to peers, and TorrentProps shows
    what a peer can and cannot do; NetGuard is the guard against private
    addresses; FileInfo the names, sizes and types.

    Files and folders (file_controller.go, zip_stream.go,
    security_controller.go).  FileTable has the rows and the SQL statements as
    functions on them; FileOps, FileTrash and FileVault the
    handlers that change them, with FileOpsInv the invariant between rows,
    blobs and the cache of vault folders, each part of it under the condition
    it needs ([fm_inv], [run_env]); FileDownload serves contents and
    ranges, Preview shows them in the browser, Thumbnail makes, keeps and
    serves small pictures and Svg draws those that cannot be made, ZipStream
    serves folders, Listing the lists; PanicPurge erases all.

    The framework's sign-in (security/token, security/session,
    security/crypto).  GoData has values of type any and base64; Tokens the
    claims, the two engines, the refresh store, the manager and the guards;
    TokensProps when a token is accepted and how refresh tokens rotate.
    WebSession has the sessions, the three stores and the middleware;
    WebSessionProps that a session carries its contents on, which requests
    that leave one shut it for good, and that none outlives its ceiling.

    The framework in front of the handlers (security/web, realtime).  Pattern
    is the matching of the regular expressions that the firewall uses; Waf its
    patterns, the repeated decoding before them, the two middlewares and the
    security headers.  Realtime has the broker of messages, whose publishing
    also runs as separate steps beside those of other goroutines, and the
    loops that write to open pages; RealtimeProps what a listener receives.

    The framework's data access (data, security/privacy).  Tx has transactions
    with savepoints over a database that is an argument and may refuse to go
    back, Paging the builder of
    selections, pages and cursors.  GoReflect is the universe of Go types and
    values that package reflect walks; Secrets encrypts, hides and hashes by
    walking it, and Repository maps structures to rows and back.  PagingProps,
    SecretsProps and RepositoryProps: a walk by cursor sees each row once, an
    entity that is stored is read back, and what is logged holds no secret.

    The framework's uploads (upload/).  Uploads has the names and keys, a
    class of storages with the one in memory and the one on disk as its
    instances, the validation, the scanners with the client of a daemon, and
    the manager over any storage.  UploadsProps states what a storage promises
    as a class of laws, discharges it for both, and proves the manager against
    the laws; paths stay below the root and files of different keys apart.

    ** What the theorems show

    The properties are numbered C1, C2, ... in the comments before them.
    They are of these groups: composition from request to stored bytes and
    back (uploads, downloads, archives, moves across the border of the vault);
    invariants of the store, of the sessions, of the tasks and of the tables;
    safety of the vault and of the address guard; codecs (frames, journals,
    bencoding, Content-Range, magnet links, rows); equivalence of listings, of
    searches and of batches with reference definitions; termination; and
    theorems that exhibit a defect by computation.

    ** Fuel and bounds

    A loop over a finite structure recurses on it.  The others take fuel, and
    a theorem says how much is enough: [seek_fuel] and [copy_fuel] the length
    of the stream, [bfs_fuel], [collect_fuel] and [zip_fuel] the number of
    rows, the decoder of bencoded data the length of its input with the
    nesting budget of the code, [exchange_fuel] the bytes a peer sends,
    [send_chunks] the size of the file, as each round sends a byte or ends,
    [scale_fuel] the number of units.  [follow]
    and [open_direct] follow answers of servers: the former stops at the
    limit of redirects, the latter need not stop: a theorem says exactly when
    it does not.  The
    breadth of integers is written out with [i64], [u32] and [u64] where the
    code can overflow.

    ** What is not modelled

    The vendored web framework, the generated templates and the command line
    tool; of the framework: configuration, the shape of errors and responses,
    logging and tracing, validation, the audit log, the generic controllers,
    migrations and helpers for tests.  Of the drive
    itself: the statistics of disks.  Decoding and encoding of
    images, the converter of documents and the reader of archives are
    arguments of Thumbnail.  Unicode beyond ASCII in case
    mapping and character classes, and the scheduling inside Go's libraries,
    are left out. *)

From stdpp Require Export base tactics list gmap strings fin_maps sorting relations.
From Stdlib Require Export Ascii ZArith Lia.

(** ** Hint databases of the development *)

Create HintDb hornetz discriminated.
Create Rewrite HintDb zlist.

Declare Scope go_scope.
Delimit Scope go_scope with go.

#[local] Open Scope Z_scope.

(** ** Machine integers *)

(** Go's [int64] (and [int] on the 64-bit targets): the wrapped value. *)
Definition i64 (x : Z) : Z := (x + 2 ^ 63) mod 2 ^ 64 - 2 ^ 63.

(** Go's [uint32] and [uint64] conversions. *)
Definition u32 (x : Z) : Z := x mod 2 ^ 32.
Definition u64 (x : Z) : Z := x mod 2 ^ 64.

Definition max_int64 : Z := 2 ^ 63 - 1.

Definition in_i64 (x : Z) : Prop := - 2 ^ 63 <= x < 2 ^ 63.

(** ** Byte sequences

    Both Go's [[]byte] and the contents of files are lists of integers; the
    range [0, 256) is stated where a proof needs it. *)
Abbreviation bytes := (list Z).

Definition is_byte (b : Z) : Prop := 0 <= b < 256.

#[export] Instance is_byte_dec b : Decision (is_byte b).
Proof. unfold is_byte. apply _. Defined.

(** Go's [len], and slicing [s[:n]], [s[n:]] with an integer bound. *)
Definition zlen {A} (l : list A) : Z := Z.of_nat (length l).
Definition ztake {A} (n : Z) (l : list A) : list A := take (Z.to_nat n) l.
Definition zdrop {A} (n : Z) (l : list A) : list A := drop (Z.to_nat n) l.

(** [string(b)] and [[]byte(s)]. *)
Definition byte_of_ascii (a : Ascii.ascii) : Z := Z.of_N (Ascii.N_of_ascii a).
Definition ascii_of_byte (b : Z) : Ascii.ascii := Ascii.ascii_of_N (Z.to_N b).

Definition bytes_of_string (s : string) : bytes :=
  byte_of_ascii <$> String.list_ascii_of_string s.
Definition string_of_bytes (b : bytes) : string :=
  String.string_of_list_ascii (ascii_of_byte <$> b).

(** ** Errors

    Go errors are values; the two sentinels the readers compare with are kept
    apart from the errors that only carry a message. *)
Inductive gerror :=
| EOF
| ErrUnexpectedEOF
| ErrMsg (msg : string).

#[export] Instance gerror_eq_dec : EqDecision gerror.
Proof. solve_decision. Defined.

Inductive result (A : Type) : Type :=
| Ok (a : A)
| Err (e : gerror).
Arguments Ok {A} a.
Arguments Err {A} e.

#[export] Instance result_eq_dec {A} `{EqDecision A} : EqDecision (result A).
Proof. solve_decision. Defined.

Definition rbind {A B} (m : result A) (f : A -> result B) : result B :=
  match m with Ok a => f a | Err e => Err e end.

Notation "'let?' x := m 'in' k" := (rbind m (fun x => k))
  (at level 10, x pattern, m at level 100, k at level 200) : go_scope.

(** ** Arithmetic lemmas *)

Lemma i64_id x : in_i64 x -> i64 x = x.
Proof. unfold in_i64, i64. intros H. rewrite Z.mod_small; lia. Qed.

Lemma i64_range x : in_i64 (i64 x).
Proof.
  unfold in_i64, i64.
  pose proof (Z.mod_pos_bound (x + 2 ^ 63) (2 ^ 64) ltac:(lia)). lia.
Qed.

Lemma u32_id x : 0 <= x < 2 ^ 32 -> u32 x = x.
Proof. intros. unfold u32. by rewrite Z.mod_small. Qed.

#[export] Hint Resolve i64_range : hornetz.

(** A boolean property of the integers below a bound, by computation. *)
Lemma below_forallb (k : nat) (f : Z -> bool) n :
  forallb (fun i => f (Z.of_nat i)) (seq 0 k) = true -> 0 <= n < Z.of_nat k -> f n = true.
Proof.
  rewrite List.forallb_forall. intros Hf Hn.
  rewrite <- (Z2Nat.id n) by lia. apply Hf, in_seq. lia.
Qed.

(** ** Lists indexed by integers *)

Section zlist.
Context {A : Type}.
Implicit Types l k : list A.

Lemma zlen_nonneg l : 0 <= zlen l.
Proof. unfold zlen. lia. Qed.

Lemma zlen_nil : zlen (@nil A) = 0.
Proof. done. Qed.

Lemma zlen_cons x l : zlen (x :: l) = 1 + zlen l.
Proof. unfold zlen. simpl. lia. Qed.

Lemma zlen_app l k : zlen (l ++ k) = zlen l + zlen k.
Proof. unfold zlen. rewrite length_app. lia. Qed.

Lemma zlen_nil_inv l : zlen l <= 0 -> l = [].
Proof. destruct l; unfold zlen; simpl; [done | lia]. Qed.

Lemma zlen_pos l : l <> [] -> 0 < zlen l.
Proof. destruct l; unfold zlen; simpl; [done | lia]. Qed.

Lemma zlen_ztake n l : zlen (ztake n l) = Z.min (Z.max 0 n) (zlen l).
Proof. unfold zlen, ztake. rewrite length_take. lia. Qed.

Lemma zlen_zdrop n l : zlen (zdrop n l) = Z.max 0 (zlen l - Z.max 0 n).
Proof. unfold zlen, zdrop. rewrite length_drop. lia. Qed.

Lemma ztake_zdrop n l : ztake n l ++ zdrop n l = l.
Proof. unfold ztake, zdrop. apply take_drop. Qed.

Lemma ztake_all n l : zlen l <= n -> ztake n l = l.
Proof. unfold zlen, ztake. intros. apply take_ge. lia. Qed.

Lemma zdrop_all n l : zlen l <= n -> zdrop n l = [].
Proof. unfold zlen, zdrop. intros. apply drop_ge. lia. Qed.

Lemma zdrop_0 l : zdrop 0 l = l.
Proof. done. Qed.

Lemma ztake_0 l : ztake 0 l = [].
Proof. done. Qed.

Lemma ztake_app_le n l k : n <= zlen l -> ztake n (l ++ k) = ztake n l.
Proof. unfold zlen, ztake. intros. apply take_app_le. lia. Qed.

Lemma ztake_app_len l k : ztake (zlen l) (l ++ k) = l.
Proof. unfold zlen, ztake. rewrite Nat2Z.id. apply take_app_length. Qed.

Lemma zdrop_app_len l k : zdrop (zlen l) (l ++ k) = k.
Proof. unfold zlen, zdrop. rewrite Nat2Z.id. apply drop_app_length. Qed.

Lemma zdrop_app_le n l k : n <= zlen l -> zdrop n (l ++ k) = zdrop n l ++ k.
Proof. unfold zlen, zdrop. intros. apply drop_app_le. lia. Qed.

Lemma zdrop_app_ge n l k :
  zlen l <= n -> zdrop n (l ++ k) = zdrop (n - zlen l) k.
Proof.
  unfold zlen, zdrop. intros.
  rewrite drop_app_ge by lia. f_equal. lia.
Qed.

Lemma zdrop_zdrop n m l : 0 <= n -> 0 <= m -> zdrop n (zdrop m l) = zdrop (m + n) l.
Proof.
  unfold zdrop. intros. rewrite drop_drop. f_equal. lia.
Qed.

Lemma ztake_app_eq n l k : n = zlen l -> ztake n (l ++ k) = l.
Proof. intros ->. apply ztake_app_len. Qed.

Lemma zdrop_app_eq n l k : n = zlen l -> zdrop n (l ++ k) = k.
Proof. intros ->. apply zdrop_app_len. Qed.

End zlist.

#[export] Hint Rewrite @zlen_nil @zlen_cons @zlen_app @zlen_ztake @zlen_zdrop
  @zdrop_0 @ztake_0 : zlist.

(** An association list without duplicate keys is functional. *)
Lemma NoDup_fst_fun {A B} (l : list (A * B)) a b c :
  NoDup l.*1 -> (a, b) ∈ l -> (a, c) ∈ l -> b = c.
Proof.
  induction l as [|[x y] l IH]; [by intros _ ?%not_elem_of_nil|]. cbn.
  intros [Hx Hnd]%NoDup_cons [[= <- <-]|Hb]%elem_of_cons [[= <-]|Hc]%elem_of_cons.
  - done.
  - destruct Hx. apply list_elem_of_fmap. by exists (a, c).
  - subst. destruct Hx. apply list_elem_of_fmap. by exists (a, b).
  - by apply IH.
Qed.

(** Solves arithmetic side conditions about lengths. *)
Ltac zlen_pose l :=
  lazymatch goal with
  | _ : 0 <= zlen l |- _ => fail
  | _ => pose proof (zlen_nonneg l)
  end.

Ltac zlen_solve :=
  autorewrite with zlist in *;
  repeat match goal with
  | |- context [zlen ?l] => zlen_pose l
  | _ : context [zlen ?l] |- _ => zlen_pose l
  end; try lia.

(** Splits on the innermost boolean or [decide] test of a hypothesis. *)
Ltac case_test_in H :=
  match type of H with
  | context [if ?b then _ else _] => destruct b eqn:?; simpl in H
  | context [match ?x with Some _ => _ | None => _ end] => destruct x eqn:?; simpl in H
  end.

Ltac case_test :=
  match goal with
  | |- context [if ?b then _ else _] => destruct b eqn:?; simpl
  | |- context [match ?x with Some _ => _ | None => _ end] => destruct x eqn:?; simpl
  end.

(** ** Strings and bytes *)

Lemma byte_of_ascii_range a : is_byte (byte_of_ascii a).
Proof.
  unfold is_byte, byte_of_ascii.
  pose proof (Ascii.N_ascii_bounded a). lia.
Qed.

Lemma ascii_byte_id a : ascii_of_byte (byte_of_ascii a) = a.
Proof.
  unfold ascii_of_byte, byte_of_ascii. rewrite N2Z.id. apply Ascii.ascii_N_embedding.
Qed.

Lemma byte_ascii_id b : is_byte b -> byte_of_ascii (ascii_of_byte b) = b.
Proof.
  unfold is_byte, ascii_of_byte, byte_of_ascii. intros.
  rewrite Ascii.N_ascii_embedding; lia.
Qed.

Lemma bytes_of_string_range s : Forall is_byte (bytes_of_string s).
Proof.
  unfold bytes_of_string. apply Forall_fmap, Forall_true.
  intros a. apply byte_of_ascii_range.
Qed.

Lemma string_bytes_id s : string_of_bytes (bytes_of_string s) = s.
Proof.
  unfold string_of_bytes, bytes_of_string.
  rewrite <- list_fmap_compose.
  rewrite (list_fmap_ext _ id).
  - rewrite list_fmap_id. apply String.string_of_list_ascii_of_string.
  - intros i a _. simpl. apply ascii_byte_id.
Qed.

(** The computed test, for concrete sequences. *)
Definition all_bytes (l : bytes) : bool := forallb (fun b => (0 <=? b) && (b <? 256)) l.

Lemma all_bytes_ok l : all_bytes l = true -> Forall is_byte l.
Proof.
  unfold all_bytes. rewrite List.forallb_forall. intros Hl.
  apply Forall_forall. intros x Hx. rewrite list_elem_of_In in Hx. apply Hl in Hx.
  unfold is_byte. lia.
Qed.

Lemma bytes_string_id b : Forall is_byte b -> bytes_of_string (string_of_bytes b) = b.
Proof.
  intros H. unfold string_of_bytes, bytes_of_string.
  rewrite String.list_ascii_of_string_of_list_ascii, <- list_fmap_compose.
  induction H as [|x l Hx _ IH]; [done|]. simpl.
  f_equal; [by apply byte_ascii_id | exact IH].
Qed.

Lemma bytes_of_string_inj s t : bytes_of_string s = bytes_of_string t -> s = t.
Proof. intros H. by rewrite <- (string_bytes_id s), H, string_bytes_id. Qed.

#[export] Hint Resolve bytes_of_string_range byte_of_ascii_range : hornetz.

(** ** Big-endian integers ([binary.BigEndian]) *)

Fixpoint be_put (n : nat) (x : Z) : bytes :=
  match n with
  | O => []
  | S m => (x / 256 ^ Z.of_nat m) mod 256 :: be_put m x
  end.

Definition be_get (b : bytes) : Z := foldl (fun acc x => acc * 256 + x) 0 b.

Lemma length_be_put n x : length (be_put n x) = n.
Proof. induction n; simpl; congruence. Qed.

Lemma zlen_be_put n x : zlen (be_put n x) = Z.of_nat n.
Proof. unfold zlen. by rewrite length_be_put. Qed.
#[export] Hint Rewrite zlen_be_put : zlist.

Lemma be_put_range n x : Forall is_byte (be_put n x).
Proof.
  induction n as [|n IH]; simpl; constructor; [|done].
  unfold is_byte. apply Z.mod_pos_bound. lia.
Qed.

Lemma be_get_foldl b acc :
  foldl (fun a x => a * 256 + x) acc b = acc * 256 ^ zlen b + be_get b.
Proof.
  unfold be_get. revert acc. induction b as [|x b IH]; intros acc; simpl.
  - rewrite zlen_nil. lia.
  - rewrite IH, (IH (0 * 256 + x)), zlen_cons, Z.pow_add_r by (pose proof (zlen_nonneg b); lia).
    lia.
Qed.

Lemma be_get_cons x b : be_get (x :: b) = x * 256 ^ zlen b + be_get b.
Proof.
  unfold be_get at 1. simpl. rewrite be_get_foldl. lia.
Qed.

Lemma be_get_put n x : be_get (be_put n x) = x mod 256 ^ Z.of_nat n.
Proof.
  induction n as [|n IH]; [by rewrite Z.mod_1_r|].
  simpl be_put. rewrite be_get_cons, IH, zlen_be_put.
  rewrite Nat2Z.inj_succ, Z.pow_succ_r by lia.
  rewrite (Z.mul_comm 256).
  rewrite (Z.rem_mul_r x (256 ^ Z.of_nat n) 256) by (try apply Z.pow_nonzero; lia).
  lia.
Qed.

Lemma be_get_bound b : Forall is_byte b -> 0 <= be_get b < 256 ^ zlen b.
Proof.
  induction 1 as [|x b Hx _ IH]; [done|].
  rewrite be_get_cons, zlen_cons, Z.pow_add_r by (pose proof (zlen_nonneg b); lia).
  unfold is_byte in Hx. nia.
Qed.

Lemma be_put_get b : Forall is_byte b -> be_put (length b) (be_get b) = b.
Proof.
  induction 1 as [|x b Hx Hb IH]; [done|].
  pose proof (be_get_bound b Hb) as Hbd. unfold is_byte in Hx.
  assert (be_put (length b) (x * 256 ^ zlen b + be_get b)
          = be_put (length b) (be_get b)) as Htl.
  { unfold zlen. generalize (be_get b) as y. intros y.
    assert (forall m k, (m <= k)%nat ->
      be_put m (x * 256 ^ Z.of_nat k + y) = be_put m y) as Hgen.
    { induction m as [|m IHm]; intros k Hk; [done|]. simpl. rewrite IHm by lia. f_equal.
      replace (Z.of_nat k) with (Z.of_nat (k - S m) + 1 + Z.of_nat m) by lia.
      rewrite !Z.pow_add_r by lia.
      replace (x * (256 ^ Z.of_nat (k - S m) * 256 ^ 1 * 256 ^ Z.of_nat m) + y)
        with (y + (x * 256 ^ Z.of_nat (k - S m) * 256) * 256 ^ Z.of_nat m) by ring.
      rewrite Z.div_add by (apply Z.pow_nonzero; lia).
      by rewrite Z.mod_add. }
    by apply Hgen. }
  simpl length. simpl be_put. rewrite be_get_cons, Htl, IH. f_equal.
  unfold zlen in *.
  rewrite Z.div_add_l by (apply Z.pow_nonzero; lia).
  rewrite (Z.div_small (be_get b)), Z.add_0_r by done.
  by apply Z.mod_small.
Qed.
