(* ===== verification/GoStrings.v ===== *)
(** * Go's strings, strconv and path/filepath functions

    The functions of the standard library the program applies to names, paths
    and header values, over byte strings.  [Clean] follows its documented
    rules by processing the '/'-separated elements with a stack. *)

From S2P Require Import Prelude.

#[local] Open Scope string_scope.
#[local] Open Scope list_scope.
#[local] Open Scope Z_scope.

(** ** Characters and lengths *)

Definition slen (s : string) : Z := Z.of_nat (String.length s).

Definition ascii_in (lo hi c : Ascii.ascii) : bool :=
  (byte_of_ascii lo <=? byte_of_ascii c) && (byte_of_ascii c <=? byte_of_ascii hi).

Fixpoint string_forallb (p : Ascii.ascii -> bool) (s : string) : bool :=
  match s with
  | EmptyString => true
  | String c s' => p c && string_forallb p s'
  end.

(** [s[i:j]] for indices in range. *)
Definition slice (s : string) (i j : nat) : string := String.substring i (j - i) s.

(** ** Prefixes and suffixes *)

Fixpoint HasPrefix (s p : string) : bool :=
  match p, s with
  | EmptyString, _ => true
  | String a p', String b s' => Ascii.eqb a b && HasPrefix s' p'
  | _, EmptyString => false
  end.

Definition drop_str (n : nat) (s : string) : string :=
  String.substring n (String.length s - n) s.

Definition HasSuffix (s p : string) : bool :=
  (String.length p <=? String.length s)%nat
  && String.eqb (drop_str (String.length s - String.length p) s) p.

Definition TrimPrefix (s p : string) : string :=
  if HasPrefix s p then drop_str (String.length p) s else s.

Definition TrimSuffix (s p : string) : string :=
  if HasSuffix s p then String.substring 0 (String.length s - String.length p) s else s.

(** ** Splitting and joining *)

Fixpoint split_on (sep : Ascii.ascii) (s : string) : list string :=
  match s with
  | EmptyString => [EmptyString]
  | String c s' =>
      let r := split_on sep s' in
      if Ascii.eqb c sep then EmptyString :: r
      else match r with
           | w :: r' => String c w :: r'
           | [] => [String c EmptyString]
           end
  end.

Definition join_with (sep : string) (l : list string) : string := String.concat sep l.

(** ** path/filepath on a '/'-separated system *)

Definition slash : Ascii.ascii := "/"%char.

(** One element against the stack of elements kept so far (top first). *)
Definition clean_step (rooted : bool) (st : list string) (e : string) : list string :=
  if String.eqb e "" || String.eqb e "." then st
  else if String.eqb e ".." then
    match st with
    | [] => if rooted then [] else [".."]
    | t :: st' => if String.eqb t ".." then ".." :: st else st'
    end
  else e :: st.

Definition clean_elems (rooted : bool) (es : list string) : list string :=
  rev (foldl (clean_step rooted) [] es).

Definition Clean (p : string) : string :=
  let rooted := HasPrefix p "/" in
  let body := join_with "/" (clean_elems rooted (split_on slash p)) in
  if rooted then "/" +:+ body
  else if String.eqb body "" then "." else body.

Definition Join (elems : list string) : string :=
  match List.filter (fun e => negb (String.eqb e "")) elems with
  | [] => ""
  | es => Clean (join_with "/" es)
  end.

Definition last_elem (p : string) : string :=
  List.last (split_on slash p) "".

(** [filepath.Base]: trailing slashes are removed first. *)
Definition Base (p : string) : string :=
  if String.eqb p "" then "."
  else
    match List.filter (fun e => negb (String.eqb e "")) (split_on slash p) with
    | [] => "/"
    | es => List.last es ""
    end.

(** [filepath.Ext]: from the last dot of the last element. *)
Definition Ext (p : string) : string :=
  match rev (split_on "."%char (last_elem p)) with
  | e :: _ :: _ => "." +:+ e
  | _ => ""
  end.

(** ** Lower case (ASCII letters) *)

Definition lower_ascii (c : Ascii.ascii) : Ascii.ascii :=
  if ascii_in "A" "Z" c then ascii_of_byte (byte_of_ascii c + 32) else c.

Fixpoint ToLower (s : string) : string :=
  match s with
  | EmptyString => EmptyString
  | String c s' => String (lower_ascii c) (ToLower s')
  end.

(** ** Space ([strings.TrimSpace], [strings.Fields])

    The six ASCII spaces; the other Unicode spaces are not recognised. *)

Definition is_space (c : Ascii.ascii) : bool :=
  ascii_in (ascii_of_byte 9) (ascii_of_byte 13) c || Ascii.eqb c (ascii_of_byte 32).

Fixpoint trim_left (s : string) : string :=
  match s with
  | EmptyString => EmptyString
  | String c s' => if is_space c then trim_left s' else s
  end.

(** A string ends where only spaces follow. *)
Fixpoint trim_right (s : string) : string :=
  match s with
  | EmptyString => EmptyString
  | String c s' =>
      match trim_right s' with
      | EmptyString => if is_space c then EmptyString else String c EmptyString
      | r => String c r
      end
  end.

Definition TrimSpace (s : string) : string := trim_right (trim_left s).

(** ** Replacing and searching *)

(** [strings.ReplaceAll(s, c, by_)] for one ASCII character. *)
Definition replace_char (c : Ascii.ascii) (by_ : string) (s : string) : string :=
  (fix go (s : string) : string :=
     match s with
     | EmptyString => EmptyString
     | String a s' => if Ascii.eqb a c then by_ +:+ go s' else String a (go s')
     end) s.

(** Membership in a set of ASCII characters. *)
Definition char_in (cs : string) (a : Ascii.ascii) : bool :=
  existsb (Ascii.eqb a) (String.list_ascii_of_string cs).

(** [strings.Trim(s, cs)] *)
Fixpoint trim_left_of (cs s : string) : string :=
  match s with
  | EmptyString => EmptyString
  | String c s' => if char_in cs c then trim_left_of cs s' else s
  end.
Fixpoint trim_right_of (cs s : string) : string :=
  match s with
  | EmptyString => EmptyString
  | String c s' =>
      match trim_right_of cs s' with
      | EmptyString => if char_in cs c then EmptyString else String c EmptyString
      | r => String c r
      end
  end.
Definition Trim (s cs : string) : string := trim_right_of cs (trim_left_of cs s).

(** [strings.Fields] *)
Fixpoint fields_from (s : string) : string * list string :=
  match s with
  | EmptyString => ("", [])
  | String c s' =>
      let '(w, ws) := fields_from s' in
      if is_space c then ("", if String.eqb w "" then ws else w :: ws) else (String c w, ws)
  end.
Definition Fields (s : string) : list string :=
  let '(w, ws) := fields_from s in if String.eqb w "" then ws else w :: ws.

Definition carriage_return : Ascii.ascii := ascii_of_byte 13.
Definition newline : Ascii.ascii := ascii_of_byte 10.
(** [strings.Contains(s, sub)] *)
Fixpoint str_contains (s sub : string) : bool :=
  HasPrefix s sub ||
  match s with
  | EmptyString => false
  | String _ s' => str_contains s' sub
  end.

(** ** Hexadecimal ([hex.EncodeToString]) *)

Definition hex_digit (n : Z) : Ascii.ascii :=
  ascii_of_byte (if n <? 10 then 48 + n else 87 + n).

Definition hex_byte (b : Z) : string :=
  String (hex_digit (b / 16)) (String (hex_digit (b mod 16)) EmptyString).

Fixpoint EncodeToString (b : bytes) : string :=
  match b with
  | [] => EmptyString
  | x :: b' => hex_byte x +:+ EncodeToString b'
  end.

Definition hex_val (c : Ascii.ascii) : option Z :=
  let x := byte_of_ascii c in
  if (48 <=? x) && (x <=? 57) then Some (x - 48)
  else if (97 <=? x) && (x <=? 102) then Some (x - 87)
  else if (65 <=? x) && (x <=? 70) then Some (x - 55)
  else None.

(** [hex.DecodeString]; [None] is the error. *)
Fixpoint DecodeString (s : string) : option bytes :=
  match s with
  | EmptyString => Some []
  | String a (String b s') =>
      match hex_val a, hex_val b, DecodeString s' with
      | Some x, Some y, Some r => Some (x * 16 + y :: r)
      | _, _, _ => None
      end
  | String _ EmptyString => None
  end.

(** ** Decimal integers *)

Definition is_digit (c : Ascii.ascii) : bool := ascii_in "0" "9" c.

Fixpoint digits_val (acc : Z) (s : string) : option Z :=
  match s with
  | EmptyString => Some acc
  | String c s' =>
      if is_digit c then digits_val (acc * 10 + (byte_of_ascii c - 48)) s' else None
  end.

(** [strconv.ParseUint(s, 10, _)] without its range check. *)
Definition parse_nat (s : string) : option Z :=
  match s with EmptyString => None | _ => digits_val 0 s end.

(** The integer a decimal string denotes, sign included; [None] on a syntax
    error. *)
Definition parse_int (s : string) : option Z :=
  match s with
  | String "-" s' => Z.opp <$> parse_nat s'
  | String "+" s' => parse_nat s'
  | _ => parse_nat s
  end.

Definition fits_int64 (v : Z) : bool := (- 2 ^ 63 <=? v) && (v <? 2 ^ 63).

(** [strconv.ParseInt(s, 10, 64)]: [None] on a syntax or range error. *)
Definition ParseInt (s : string) : option Z :=
  match parse_int s with
  | Some v => if fits_int64 v then Some v else None
  | None => None
  end.

(** The value ParseInt returns when its error is ignored: 0 after a syntax
    error, the nearest int64 after a range error. *)
Definition ParseInt_value (s : string) : Z :=
  match parse_int s with
  | Some v => Z.max (- 2 ^ 63) (Z.min (2 ^ 63 - 1) v)
  | None => 0
  end.

(** [strconv.FormatInt(n, 10)] of a non-negative integer, by repeated division. *)
Fixpoint dec_digits (fuel : nat) (n : Z) (acc : string) : string :=
  match fuel with
  | O => acc
  | S f =>
      let acc' := String (ascii_of_byte (48 + n mod 10)) acc in
      if n <? 10 then acc' else dec_digits f (n / 10) acc'
  end.

Definition FormatNat (n : Z) : string := dec_digits (S (Z.to_nat (Z.log2 n))) n "".

Definition FormatInt (n : Z) : string :=
  if n <? 0 then "-" +:+ FormatNat (- n) else FormatNat n.

(** ** Lemmas *)

Lemma string_app_nil s : "" +:+ s = s.
Proof. done. Qed.

Lemma string_app_cons c s t : String c s +:+ t = String c (s +:+ t).
Proof. done. Qed.

Lemma length_str_app s t : String.length (s +:+ t) = (String.length s + String.length t)%nat.
Proof. induction s as [|c s IH]; [done|]. rewrite string_app_cons. simpl. by f_equal. Qed.

Lemma slen_app s t : slen (s +:+ t) = slen s + slen t.
Proof. unfold slen. rewrite length_str_app. lia. Qed.

Lemma slen_nonneg s : 0 <= slen s.
Proof. unfold slen. lia. Qed.

Lemma string_forallb_app p s t :
  string_forallb p (s +:+ t) = string_forallb p s && string_forallb p t.
Proof. induction s as [|c s IH]; [done|]. rewrite string_app_cons. simpl. by rewrite IH, andb_assoc. Qed.

Lemma zlen_bytes_of_string s : zlen (bytes_of_string s) = slen s.
Proof.
  unfold slen, zlen, bytes_of_string. rewrite length_fmap. f_equal.
  induction s; simpl; congruence.
Qed.

Lemma app_inj_r s t u : s +:+ t = s +:+ u -> t = u.
Proof. induction s as [|c s IH]; [done|]. intros [= H]. by apply IH. Qed.

Lemma EncodeToString_len b : String.length (EncodeToString b) = (2 * length b)%nat.
Proof. induction b as [|x b IH]; [done|]. simpl. rewrite string_app_nil, IH. lia. Qed.

Lemma hex_val_digit n : 0 <= n < 16 -> hex_val (hex_digit n) = Some n.
Proof.
  intros Hn. assert (match hex_val (hex_digit n) with Some m => m =? n | None => false end = true) as Hb
    by by apply (below_forallb 16
         (fun n => match hex_val (hex_digit n) with Some m => m =? n | None => false end)).
  destruct (hex_val (hex_digit n)) as [m|]; [|done]. apply Z.eqb_eq in Hb. by subst.
Qed.

Lemma hex_decode_encode b : Forall is_byte b -> DecodeString (EncodeToString b) = Some b.
Proof.
  induction 1 as [|x b Hx _ IH]; [done|]. unfold is_byte in Hx.
  change (EncodeToString (x :: b)) with
    (String (hex_digit (x / 16)) (String (hex_digit (x mod 16)) (EncodeToString b))).
  cbn [DecodeString].
  pose proof (Z.mod_pos_bound x 16 ltac:(lia)).
  assert (0 <= x / 16 < 16) by (split; [apply Z.div_pos; lia|apply Z.div_lt_upper_bound; lia]).
  rewrite !hex_val_digit by done. simpl. rewrite IH. do 2 f_equal.
  pose proof (Z.div_mod x 16 ltac:(lia)). lia.
Qed.

Lemma EncodeToString_inj a b :
  Forall is_byte a -> Forall is_byte b -> EncodeToString a = EncodeToString b -> a = b.
Proof.
  intros Ha Hb He. apply hex_decode_encode in Ha, Hb. congruence.
Qed.

(** ** Path lemmas *)

Lemma str_app_assoc s t u : (s +:+ t) +:+ u = s +:+ (t +:+ u).
Proof. induction s as [|c s IH]; [done|]. rewrite !string_app_cons. by rewrite IH. Qed.

Lemma str_app_nil_r s : s +:+ "" = s.
Proof. induction s as [|c s IH]; [done|]. by rewrite string_app_cons, IH. Qed.

Lemma str_app_inj_l s t u : s +:+ u = t +:+ u -> s = t.
Proof.
  revert t. induction s as [|c s IH]; intros [|d t]; try done.
  - intros He%(f_equal String.length). rewrite string_app_cons, string_app_nil in He.
    simpl in He. rewrite length_str_app in He. lia.
  - intros He%(f_equal String.length). rewrite string_app_cons, string_app_nil in He.
    simpl in He. rewrite length_str_app in He. lia.
  - rewrite !string_app_cons. intros [= -> He]. f_equal. by apply IH.
Qed.

Definition without (sep : Ascii.ascii) (s : string) : bool :=
  string_forallb (fun c => negb (Ascii.eqb c sep)) s.

Definition no_slash (s : string) : bool := without slash s.

Lemma split_without sep s : without sep s = true -> split_on sep s = [s].
Proof.
  unfold without. induction s as [|c s IH]; [done|]. cbn. intros [Hc Hs]%andb_true_iff.
  rewrite IH by done. by destruct (Ascii.eqb c sep).
Qed.

Lemma split_no_slash s : no_slash s = true -> split_on slash s = [s].
Proof. apply split_without. Qed.

Lemma split_on_ne sep s : split_on sep s <> [].
Proof.
  destruct s as [|c s]; [done|]. cbn. destruct (Ascii.eqb c sep); [done|].
  by destruct (split_on sep s).
Qed.

Lemma split_app sep s t : split_on sep (s +:+ String sep t) = split_on sep s ++ split_on sep t.
Proof.
  induction s as [|c s IH]; [rewrite string_app_nil; cbn; by rewrite Ascii.eqb_refl|].
  rewrite string_app_cons. cbn [split_on].
  rewrite IH. destruct (Ascii.eqb c sep); [done|].
  destruct (split_on sep s) eqn:He; [by apply split_on_ne in He|done].
Qed.

(** A file name as the program builds them. *)
Definition simple_name (n : string) : bool :=
  no_slash n && negb (String.eqb n "") && negb (String.eqb n ".") && negb (String.eqb n "..").

Lemma clean_elems_snoc rooted es n :
  simple_name n = true -> clean_elems rooted (es ++ [n]) = clean_elems rooted es ++ [n].
Proof.
  intros [[[_ H1]%andb_true_iff H2]%andb_true_iff H3]%andb_true_iff.
  apply negb_true_iff in H1, H2, H3. unfold clean_elems. rewrite foldl_app. cbn [foldl].
  unfold clean_step at 1. rewrite H1, H2, H3. cbn. done.
Qed.

Lemma concat_snoc (l : list string) n :
  l <> [] -> String.concat "/" (l ++ [n]) = String.concat "/" l +:+ String slash n.
Proof.
  induction l as [|x l IH]; [done|]. intros _. destruct l as [|y l]; [done|].
  change (String.concat "/" ((x :: y :: l) ++ [n]))
    with (x +:+ "/" +:+ String.concat "/" ((y :: l) ++ [n])).
  rewrite IH by done. change (String.concat "/" (x :: y :: l))
    with (x +:+ "/" +:+ String.concat "/" (y :: l)). rewrite !str_app_assoc. done.
Qed.

(** A directory path in clean form, other than the root and ".". *)
Definition plain_dir (d : string) : Prop := Clean d = d /\ d <> "/" /\ d <> "." /\ d <> "".

#[export] Instance plain_dir_dec d : Decision (plain_dir d).
Proof. unfold plain_dir. apply _. Defined.

Lemma HasPrefix_app p s : HasPrefix (p +:+ s) p = true.
Proof.
  induction p as [|c p IH]; [by destruct s|]. rewrite string_app_cons. cbn.
  by rewrite Ascii.eqb_refl, IH.
Qed.

Lemma HasPrefix_inv s p : HasPrefix s p = true -> exists r, s = p +:+ r.
Proof.
  revert s. induction p as [|c p IH]; intros s; [by exists s|].
  destruct s as [|d s]; [done|]. cbn. intros [->%Ascii.eqb_eq Hs]%andb_true_iff.
  apply IH in Hs as [r ->]. by exists r.
Qed.

Lemma drop_str_app p s : drop_str (String.length p) (p +:+ s) = s.
Proof.
  unfold drop_str. rewrite length_str_app.
  replace (_ - String.length p)%nat with (String.length s) by lia.
  induction p as [|c p IH]; [|by rewrite string_app_cons].
  rewrite string_app_nil. simpl. induction s as [|c s IH]; [done|]. simpl. by rewrite IH.
Qed.

Lemma HasSuffix_app s p : HasSuffix (s +:+ p) p = true.
Proof.
  unfold HasSuffix. rewrite length_str_app.
  replace (String.length s + String.length p - String.length p)%nat
    with (String.length s) by lia.
  rewrite drop_str_app, String.eqb_refl, andb_true_r. apply Nat.leb_le. lia.
Qed.

Lemma prefix_slash_app d n : d <> "" -> HasPrefix (d +:+ n) "/" = HasPrefix d "/".
Proof.
  destruct d as [|c d]; [done|]. intros _. rewrite string_app_cons.
  cbn. by destruct (d +:+ n), d.
Qed.

Lemma Join_plain d n : plain_dir d -> simple_name n = true -> Join [d; n] = d +:+ String slash n.
Proof.
  intros (Hc & H1 & H2 & H3) Hn. unfold Join. cbn [List.filter].
  destruct (String.eqb_spec d ""); [done|].
  assert (String.eqb n "" = false) as ->
    by (unfold simple_name in Hn; destruct (String.eqb n ""); [by rewrite andb_false_r in Hn|done]).
  cbn [negb]. change (join_with "/" [d; n]) with (d +:+ String slash n).
  unfold Clean in *. rewrite prefix_slash_app by done.
  rewrite split_app, (split_no_slash n), clean_elems_snoc by
    (try done; unfold simple_name in Hn; by destruct (no_slash n)).
  destruct (decide (clean_elems (HasPrefix d "/") (split_on slash d) = [])) as [He|He].
  { exfalso. rewrite He in Hc. cbn in Hc. destruct (HasPrefix d "/"); [|done]. by subst. }
  unfold join_with in *. rewrite concat_snoc by done.
  destruct (HasPrefix d "/") eqn:Hp; rewrite ?Hp in Hc.
  - rewrite <- str_app_assoc. by rewrite Hc.
  - destruct (String.eqb_spec (String.concat "/" (clean_elems false (split_on slash d))) "") as [Hz|Hz].
    + by rewrite <- Hc in H2.
    + rewrite Hc. destruct (String.eqb_spec (d +:+ String slash n) ""); [|done].
      by destruct d.
Qed.

Lemma without_app sep s t : without sep (s +:+ t) = without sep s && without sep t.
Proof. apply string_forallb_app. Qed.

Lemma no_slash_app s t : no_slash (s +:+ t) = no_slash s && no_slash t.
Proof. apply string_forallb_app. Qed.

Lemma bytes_of_string_app s t : bytes_of_string (s +:+ t) = bytes_of_string s ++ bytes_of_string t.
Proof. unfold bytes_of_string. induction s as [|c s IH]; [done|]. rewrite string_app_cons. simpl. by f_equal. Qed.

(** Strings that end in different characters differ. *)
Lemma suffix_ne s t a b x y :
  last (bytes_of_string a) = Some x -> last (bytes_of_string b) = Some y -> x <> y ->
  s +:+ a <> t +:+ b.
Proof.
  intros Ha Hb Hne He. apply (f_equal bytes_of_string), (f_equal last) in He.
  rewrite !bytes_of_string_app, !last_app, Ha, Hb in He. congruence.
Qed.

Lemma substring_all s : String.substring 0 (String.length s) s = s.
Proof. induction s as [|c s IH]; [done|]. simpl. by rewrite IH. Qed.

Lemma take_drop_str n s :
  (n <= String.length s)%nat -> String.substring 0 n s +:+ drop_str n s = s.
Proof.
  unfold drop_str. revert n. induction s as [|c s IH]; intros n Hn.
  - simpl in Hn. by replace n with 0%nat by lia.
  - destruct n as [|n].
    + rewrite Nat.sub_0_r, substring_all. done.
    + simpl. rewrite string_app_cons. f_equal. apply IH. simpl in Hn. lia.
Qed.

Lemma HasSuffix_inv s p : HasSuffix s p = true -> exists r, s = r +:+ p.
Proof.
  unfold HasSuffix. intros [Hl%Nat.leb_le He%String.eqb_eq]%andb_true_iff.
  exists (String.substring 0 (String.length s - String.length p) s).
  rewrite <- He at 2. symmetry. apply take_drop_str. lia.
Qed.

Lemma TrimSuffix_app s x : TrimSuffix (s +:+ x) x = s.
Proof.
  unfold TrimSuffix. rewrite HasSuffix_app, length_str_app.
  replace (_ - String.length x)%nat with (String.length s) by lia.
  induction s as [|a s IH]; [by destruct x|]. rewrite string_app_cons. cbn. by rewrite IH.
Qed.

(** ** Decimal integers read back *)

Lemma digit_byte d : 0 <= d < 10 ->
  is_digit (ascii_of_byte (48 + d)) = true /\ byte_of_ascii (ascii_of_byte (48 + d)) = 48 + d.
Proof.
  intros Hd. assert (byte_of_ascii (ascii_of_byte (48 + d)) = 48 + d) as Hb
    by (apply byte_ascii_id; unfold is_byte; lia).
  split; [|done]. unfold is_digit, ascii_in. rewrite Hb.
  change (byte_of_ascii "0") with 48. change (byte_of_ascii "9") with 57. lia.
Qed.

Lemma dec_digits_val fuel n acc :
  0 <= n < 10 ^ Z.of_nat fuel ->
  exists k, 0 <= k /\ forall a, digits_val a (dec_digits fuel n acc) = digits_val (a * 10 ^ k + n) acc.
Proof.
  revert n acc. induction fuel as [|f IH]; intros n acc Hn.
  { exists 0. split; [done|]. intros a. cbn [dec_digits]. f_equal. cbn in Hn. lia. }
  cbn [dec_digits]. pose proof (Z.mod_pos_bound n 10 ltac:(lia)) as Hm.
  destruct (digit_byte (n mod 10) Hm) as [Hd Hb].
  assert (forall a, digits_val a (String (ascii_of_byte (48 + n mod 10)) acc)
    = digits_val (a * 10 + n mod 10) acc) as Hstep.
  { intros a. cbn [digits_val]. rewrite Hd, Hb. f_equal. lia. }
  destruct (Z.ltb_spec n 10).
  - exists 1. split; [lia|]. intros a. rewrite Hstep. f_equal. rewrite Z.mod_small by lia. lia.
  - destruct (IH (n / 10) (String (ascii_of_byte (48 + n mod 10)) acc)) as (k & Hk & Hval).
    { split; [apply Z.div_pos; lia|]. apply Z.div_lt_upper_bound; [lia|].
      rewrite Nat2Z.inj_succ, Z.pow_succ_r in Hn by lia. lia. }
    exists (k + 1). split; [lia|]. intros a. rewrite Hval, Hstep. f_equal.
    rewrite Z.pow_add_r by lia. pose proof (Z.div_mod n 10 ltac:(lia)). lia.
Qed.

Lemma dec_digits_digits fuel n acc :
  0 <= n -> string_forallb is_digit (dec_digits fuel n acc) = string_forallb is_digit acc.
Proof.
  revert n acc. induction fuel as [|f IH]; intros n acc Hn; [done|]. cbn [dec_digits].
  pose proof (Z.mod_pos_bound n 10 ltac:(lia)) as Hm. destruct (digit_byte (n mod 10) Hm) as [Hd _].
  destruct (n <? 10); [cbn [string_forallb]; by rewrite Hd|].
  rewrite IH by (apply Z.div_pos; lia). cbn [string_forallb]. by rewrite Hd.
Qed.

Lemma FormatNat_digits n : 0 <= n -> string_forallb is_digit (FormatNat n) = true.
Proof. intros Hn. unfold FormatNat. by rewrite dec_digits_digits. Qed.

Lemma dec_digits_nonempty fuel n acc : acc <> "" -> dec_digits fuel n acc <> "".
Proof.
  revert n acc. induction fuel as [|f IH]; intros n acc Ha; [done|]. cbn [dec_digits].
  destruct (n <? 10); [done|]. by apply IH.
Qed.

Lemma FormatNat_nonempty n : FormatNat n <> "".
Proof.
  unfold FormatNat. cbn [dec_digits]. destruct (n <? 10); [done|]. by apply dec_digits_nonempty.
Qed.

Lemma parse_nat_FormatNat n : 0 <= n -> parse_nat (FormatNat n) = Some n.
Proof.
  intros Hn. assert (digits_val 0 (FormatNat n) = Some n) as Hv.
  { unfold FormatNat. destruct (dec_digits_val (S (Z.to_nat (Z.log2 n))) n "") as (k & _ & ->).
    - split; [done|]. rewrite Nat2Z.inj_succ, Z2Nat.id by apply Z.log2_nonneg.
      destruct (Z.eq_dec n 0) as [->|Hne]; [done|].
      pose proof (Z.log2_spec n ltac:(lia)) as [_ Hlt]. etrans; [exact Hlt|].
      apply Z.pow_lt_mono_l; [|lia]. pose proof (Z.log2_nonneg n). lia.
    - cbn [digits_val]. by rewrite Z.mul_0_l. }
  unfold parse_nat. pose proof (FormatNat_nonempty n). by destruct (FormatNat n).
Qed.

(** A string of digits is read the same with and without a sign. *)
Lemma parse_int_digits s : string_forallb is_digit s = true -> parse_int s = parse_nat s.
Proof.
  destruct s as [|c s]; [done|]. cbn [string_forallb]. intros [Hc _]%andb_true_iff.
  unfold parse_int. destruct c as [[] [] [] [] [] [] [] []]; try done.
Qed.

Lemma ParseInt_FormatNat n : 0 <= n < 2 ^ 63 -> ParseInt (FormatNat n) = Some n.
Proof.
  intros Hn. unfold ParseInt. rewrite parse_int_digits by (apply FormatNat_digits; lia).
  rewrite parse_nat_FormatNat by lia. unfold fits_int64.
  assert ((- 2 ^ 63 <=? n) && (n <? 2 ^ 63) = true) as -> by lia. done.
Qed.

Lemma digits_without sep s :
  is_digit sep = false -> string_forallb is_digit s = true -> without sep s = true.
Proof.
  intros Hsep. unfold without. induction s as [|c s IH]; [done|]. cbn. intros [Hc Hs]%andb_true_iff.
  rewrite IH by done. rewrite andb_true_r. apply negb_true_iff. apply Ascii.eqb_neq. intros ->. congruence.
Qed.

Lemma without_FormatInt sep n :
  is_digit sep = false -> Ascii.eqb "-" sep = false -> without sep (FormatInt n) = true.
Proof.
  intros Hd Hm. unfold FormatInt. destruct (Z.ltb_spec n 0).
  - change ("-" +:+ FormatNat (- n)) with (String "-" (FormatNat (- n))). unfold without.
    cbn [string_forallb]. rewrite Hm. cbn [negb andb]. apply digits_without; [done|].
    apply FormatNat_digits. lia.
  - apply digits_without; [done|]. apply FormatNat_digits. lia.
Qed.

Lemma parse_FormatInt n : parse_int (FormatInt n) = Some n.
Proof.
  unfold FormatInt. destruct (Z.ltb_spec n 0).
  - change ("-" +:+ FormatNat (- n)) with (String "-" (FormatNat (- n))). cbn [parse_int].
    rewrite parse_nat_FormatNat by lia. cbn. f_equal. lia.
  - rewrite parse_int_digits by (apply FormatNat_digits; lia). apply parse_nat_FormatNat. lia.
Qed.

Lemma ParseInt_FormatInt n : in_i64 n -> ParseInt (FormatInt n) = Some n.
Proof.
  intros Hn. unfold ParseInt. rewrite parse_FormatInt. unfold fits_int64, in_i64 in *.
  assert ((- 2 ^ 63 <=? n) && (n <? 2 ^ 63) = true) as -> by lia. done.
Qed.

Lemma dec_digits_length d fuel n acc :
  0 <= n < 10 ^ Z.of_nat (S d) -> (String.length (dec_digits fuel n acc) <= S d + String.length acc)%nat.
Proof.
  revert fuel n acc. induction d as [|d IH]; intros fuel n acc Hn; (destruct fuel as [|f]; cbn [dec_digits]; [lia|]).
  - change (10 ^ Z.of_nat 1) with 10 in Hn. destruct (Z.ltb_spec n 10); [cbn; lia|lia].
  - destruct (Z.ltb_spec n 10); [cbn; lia|].
    assert (0 <= n / 10 < 10 ^ Z.of_nat (S d)) as Hq.
    { rewrite Nat2Z.inj_succ, Z.pow_succ_r in Hn by lia. split; [apply Z.div_pos; lia|].
      apply Z.div_lt_upper_bound; lia. }
    etrans; [apply IH, Hq|cbn; lia].
Qed.

(** An int64 is written in at most twenty characters. *)
Lemma FormatInt_length n : in_i64 n -> (String.length (FormatInt n) <= 20)%nat.
Proof.
  intros Hn. unfold in_i64 in Hn. unfold FormatInt, FormatNat. destruct (Z.ltb_spec n 0).
  - rewrite length_str_app. etrans; [apply Nat.add_le_mono_l, (dec_digits_length 18); lia|cbn; lia].
  - etrans; [apply (dec_digits_length 18); lia|cbn; lia].
Qed.

(** ** Characters kept by the string functions *)

Lemma forallb_replace p c by_ s :
  (forall a, p a = true \/ a = c) -> string_forallb p by_ = true -> string_forallb p (replace_char c by_ s) = true.
Proof.
  intros Hp Hb. unfold replace_char. induction s as [|a s IH]; [done|].
  destruct (Ascii.eqb_spec a c) as [->|Ha]; [by rewrite string_forallb_app, Hb|].
  cbn. rewrite IH, andb_true_r. by destruct (Hp a).
Qed.

Lemma forallb_replace_keep p c by_ s :
  string_forallb p by_ = true -> string_forallb p s = true -> string_forallb p (replace_char c by_ s) = true.
Proof.
  intros Hb. unfold replace_char. induction s as [|a s IH]; [done|]. cbn. intros [Ha Hs]%andb_true_iff.
  destruct (Ascii.eqb a c); [by rewrite string_forallb_app, Hb, IH|]. cbn. by rewrite Ha, IH.
Qed.

Lemma forallb_trim_left p s : string_forallb p s = true -> string_forallb p (trim_left s) = true.
Proof.
  induction s as [|a s IH]; [done|]. cbn. intros Hs. pose proof Hs as [Ha Hs']%andb_true_iff.
  destruct (is_space a); [by apply IH|done].
Qed.

Lemma forallb_trim_right p s : string_forallb p s = true -> string_forallb p (trim_right s) = true.
Proof.
  induction s as [|a s IH]; [done|]. cbn. intros [Ha Hs]%andb_true_iff. specialize (IH Hs).
  destruct (trim_right s) as [|b r]; [|cbn [string_forallb] in *; by rewrite Ha, IH].
  destruct (is_space a); [done|]. cbn. by rewrite Ha.
Qed.

Lemma forallb_split p sep s : string_forallb p s = true -> Forall (fun x => string_forallb p x = true) (split_on sep s).
Proof.
  induction s as [|a s IH]; [by repeat constructor|]. cbn. intros [Ha Hs]%andb_true_iff. specialize (IH Hs).
  destruct (Ascii.eqb a sep); [by constructor|]. destruct IH as [|x l Hx Hl]; [repeat constructor; cbn; by rewrite Ha|].
  constructor; [|done]. cbn. by rewrite Ha, Hx.
Qed.

Lemma forallb_last p s : string_forallb p s = true -> string_forallb p (last_elem s) = true.
Proof.
  intros Hs. unfold last_elem. pose proof (forallb_split p slash s Hs) as Hf.
  destruct (exists_last (split_on_ne slash s)) as (l & x & He). rewrite He in Hf |- *. rewrite last_last.
  by apply Forall_app in Hf as [_ [Hx _]%Forall_cons].
Qed.

Lemma forallb_ext_str p s : p "."%char = true -> string_forallb p s = true -> string_forallb p (Ext s) = true.
Proof.
  intros Hp Hs. unfold Ext. pose proof (forallb_split p "." _ (forallb_last p s Hs)) as Hf.
  apply Forall_rev in Hf. destruct (rev _) as [|x [|y l]]; [done..|].
  apply Forall_cons in Hf as [Hx _]. rewrite string_forallb_app, Hx, andb_true_r. cbn [string_forallb]. by rewrite Hp.
Qed.

Lemma forallb_trim_suffix p s x : string_forallb p s = true -> string_forallb p (TrimSuffix s x) = true.
Proof.
  intros Hs. unfold TrimSuffix. destruct (HasSuffix s x) eqn:He; [|done].
  apply HasSuffix_inv in He as [r ->]. rewrite string_forallb_app in Hs. apply andb_true_iff in Hs as [Hr _].
  rewrite length_str_app. replace (_ - String.length x)%nat with (String.length r) by lia.
  replace (String.substring 0 (String.length r) (r +:+ x)) with r; [done|].
  clear. induction r as [|a r IH]; [by destruct x|]. rewrite string_app_cons. cbn. by rewrite <- IH.
Qed.

(** Text without spaces. *)
Definition spaceless (s : string) : bool := string_forallb (fun a => negb (is_space a)) s.

Lemma TrimSpace_spaceless s : spaceless s = true -> TrimSpace s = s.
Proof.
  intros Hs. assert (trim_right s = s) as Hr.
  { induction s as [|a s IH]; [done|]. simpl in *. apply andb_true_iff in Hs as [Ha Hs].
    rewrite IH by done. destruct s; [|done]. by destruct (is_space a). }
  unfold TrimSpace. destruct s as [|a s]; [done|]. simpl in Hs. apply andb_true_iff in Hs as [Ha Hs].
  simpl trim_left. by destruct (is_space a).
Qed.
