(* ===== verification/FileSys.v ===== *)
(** * The file system the program runs on

    A file system is a finite map from paths to files; directories are
    implicit (a path's parents exist once [os.MkdirAll] succeeded) and every
    way an operation can fail is a field of [os_env], so that a theorem
    quantified over environments covers each failure. *)

From S2P Require Import Prelude GoStrings.

#[local] Open Scope Z_scope.

Record file := mkFile { f_data : bytes; f_mtime : Z }.

#[export] Instance file_eq_dec : EqDecision file.
Proof. solve_decision. Defined.

Abbreviation FS := (gmap string file).

(** Which of the operations of one call succeed, and the clock (ns). *)
Record os_env := mkEnv {
  env_now : Z;
  mkdir_ok : bool;
  rename_ok : bool;
  create_ok : bool;
  read_ok : bool;
  (** [Some n]: the copy or write fails after [n] bytes *)
  copy_fails : option Z;
  remove_ok : bool;
  chmod_ok : bool;
  (** [Some n]: a write that the operating system took is lost after [n]
      bytes when the file is synced and closed *)
  flush_fails : option Z;
  truncate_ok : bool
}.

Definition env_fine (now : Z) : os_env := mkEnv now true true true true None true true None true.

Definition err_os (op : string) : gerror := ErrMsg op.

Definition fs_data (fs : FS) (p : string) : option bytes := f_data <$> fs !! p.

(** [os.Stat(p)] succeeds. *)
Definition fs_exists (fs : FS) (p : string) : bool := bool_decide (is_Some (fs !! p)).

(** [os.ReadFile], or [os.Open] followed by a copy of the whole file. *)
Definition fs_read (env : os_env) (fs : FS) (p : string) : result bytes :=
  match fs !! p with
  | Some f => if read_ok env then Ok (f_data f) else Err (err_os "read")
  | None => Err (err_os "open")
  end.

(** [os.WriteFile]: truncates or creates, then writes. *)
Definition fs_write (env : os_env) (fs : FS) (p : string) (b : bytes) : FS * option gerror :=
  if create_ok env then
    match copy_fails env with
    | None => (<[p := mkFile b (env_now env)]> fs, None)
    | Some n => (<[p := mkFile (ztake n b) (env_now env)]> fs, Some (err_os "write"))
    end
  else (fs, Some (err_os "create")).

(** [os.Remove]; the callers ignore its error. *)
Definition fs_remove (env : os_env) (fs : FS) (p : string) : FS :=
  if remove_ok env then delete p fs else fs.

(** [os.Rename(src, dst)]. *)
Definition fs_rename (env : os_env) (fs : FS) (src dst : string) : option FS :=
  match fs !! src with
  | Some f => if rename_ok env then Some (<[dst := f]> (delete src fs)) else None
  | None => None
  end.

Lemma fs_exists_spec fs p : fs_exists fs p = true <-> is_Some (fs !! p).
Proof. unfold fs_exists. by rewrite bool_decide_eq_true. Qed.

Lemma fs_read_ok fs p env b :
  fs_read env fs p = Ok b -> exists f, fs !! p = Some f /\ f_data f = b.
Proof.
  unfold fs_read. destruct (fs !! p) as [f|]; [|done].
  destruct (read_ok env); [|done]. intros [= <-]. by exists f.
Qed.

Lemma fs_remove_ne env fs p q : p <> q -> fs_remove env fs p !! q = fs !! q.
Proof. intros Hne. unfold fs_remove. destruct (remove_ok env); [|done]. by apply lookup_delete_ne. Qed.

Lemma fs_remove_sub env fs p q f : fs_remove env fs p !! q = Some f -> fs !! q = Some f.
Proof.
  unfold fs_remove. destruct (remove_ok env); [|done].
  by intros [_ H]%lookup_delete_Some.
Qed.

(** ** Directory listings *)

Definition str_le (a b : string) : Prop := String.leb a b = true.

#[export] Instance str_le_dec : RelDecision str_le.
Proof. intros a b. unfold str_le. apply _. Defined.

(** The name of [p] in directory [dir], when it lies directly in it. *)
Definition child_name (dir p : string) : option string :=
  let pre := dir +:+ String slash "" in
  if HasPrefix p pre then
    let n := drop_str (String.length pre) p in
    if no_slash n then Some n else None
  else None.

(** [os.ReadDir(dir)]: the names of the files of [dir], sorted. *)
Definition ReadDir (fs : FS) (dir : string) : list string :=
  merge_sort str_le (omap (child_name dir) (map_to_list fs).*1).

Lemma child_name_app dir n : no_slash n = true -> child_name dir (dir +:+ String slash n) = Some n.
Proof.
  intros Hn. unfold child_name.
  change (dir +:+ String slash n) with (dir +:+ (String slash "" +:+ n)).
  rewrite <- str_app_assoc, HasPrefix_app, drop_str_app. by rewrite Hn.
Qed.

Lemma child_name_inv dir p n :
  child_name dir p = Some n -> p = dir +:+ String slash n /\ no_slash n = true.
Proof.
  unfold child_name. destruct (HasPrefix p _) eqn:Hp; [|done].
  apply HasPrefix_inv in Hp as [r ->]. rewrite drop_str_app.
  destruct (no_slash r) eqn:Hn; [|done]. intros [= ->]. split; [|done].
  by rewrite str_app_assoc.
Qed.

Lemma ReadDir_spec fs dir n :
  n ∈ ReadDir fs dir <-> no_slash n = true /\ is_Some (fs !! (dir +:+ String slash n)).
Proof.
  unfold ReadDir. rewrite merge_sort_Permutation, list_elem_of_omap. split.
  - intros (p & Hp & Hc). apply child_name_inv in Hc as [-> Hn]. split; [done|].
    apply list_elem_of_fmap in Hp as ([q f] & -> & Hq). apply elem_of_map_to_list in Hq.
    by exists f.
  - intros [Hn [f Hf]]. exists (dir +:+ String slash n).
    split; [|by apply child_name_app]. apply list_elem_of_fmap. exists (dir +:+ String slash n, f).
    split; [done|]. by apply elem_of_map_to_list.
Qed.
