(* ===== verification/CryptoPrims.v ===== *)
(** * Cryptographic primitives the program calls

    The program uses AES-GCM, HMAC-SHA256, SHA-256 and Argon2id from Go's
    standard library and golang.org/x/crypto.  None of that code is under
    src/, so the primitives are the fields of the class [CryptoPrims] and the
    documented behaviour the program relies on is the class [CryptoLaws].
    [ToyCrypto] is a concrete instance that satisfies the laws: it shows they
    are consistent and lets the witnesses compute. *)

From S2P Require Import Prelude.

#[local] Open Scope Z_scope.

(** internal/crypto/vault.go, constants. *)
Definition SaltSize : Z := 32.
Definition NonceSize : Z := 12.
Definition TagSize : Z := 16.
Definition KeySize : Z := 32.

(** [aes.NewCipher] accepts 16-, 24- and 32-byte keys. *)
Definition aes_key_ok (key : bytes) : bool :=
  (zlen key =? 16) || (zlen key =? 24) || (zlen key =? 32).

Class CryptoPrims := {
  (** [aesgcm.Seal(nil, nonce, plaintext, nil)] under a key *)
  gcm_seal : bytes -> bytes -> bytes -> bytes;
  (** [aesgcm.Open(nil, nonce, ciphertext, nil)]; [None] is the error *)
  gcm_open : bytes -> bytes -> bytes -> option bytes;
  hmac_sha256 : bytes -> bytes -> bytes;
  sha256 : bytes -> bytes;
  argon2_idkey : bytes -> bytes -> bytes
}.

(** AES-GCM with its 16-byte tag decrypts what it sealed and accepts nothing
    else under the same key and nonce (the tag is a function of them and the
    ciphertext); the hashes have their documented sizes. *)
Class CryptoLaws `{CryptoPrims} : Prop := {
  gcm_seal_len k n p :
    aes_key_ok k = true -> zlen n = NonceSize ->
    zlen (gcm_seal k n p) = zlen p + TagSize;
  gcm_open_seal k n p :
    aes_key_ok k = true -> zlen n = NonceSize ->
    gcm_open k n (gcm_seal k n p) = Some p;
  gcm_open_inv k n c p :
    aes_key_ok k = true -> zlen n = NonceSize ->
    gcm_open k n c = Some p -> c = gcm_seal k n p;
  hmac_len k m : zlen (hmac_sha256 k m) = 32;
  sha256_len m : zlen (sha256 m) = 32;
  sha256_byte m : Forall is_byte (sha256 m);
  argon2_len p s : zlen (argon2_idkey p s) = KeySize;
  argon2_byte p s : Forall is_byte (argon2_idkey p s)
}.

(** ** A toy instance *)
Module ToyCrypto.

Definition checksum (l : bytes) : Z := foldl (fun a x => (a * 31 + x + 7) mod 256) 1 l.

Definition toy_hash (l : bytes) : bytes :=
  map (fun i => checksum (Z.of_nat i :: l)) (seq 0 32).

Definition toy_tag (k n p : bytes) : bytes := replicate 16 (checksum (k ++ n ++ p)).

Definition toy_seal (k n p : bytes) : bytes := p ++ toy_tag k n p.

Definition toy_open (k n c : bytes) : option bytes :=
  let p := take (length c - 16) c in
  if decide (c = toy_seal k n p) then Some p else None.

#[export] Instance toy_prims : CryptoPrims := {
  gcm_seal := toy_seal;
  gcm_open := toy_open;
  hmac_sha256 := fun k m => toy_hash (k ++ m);
  sha256 := toy_hash;
  argon2_idkey := fun p s => toy_hash (p ++ s)
}.

Lemma checksum_range l : is_byte (checksum l).
Proof.
  unfold checksum. assert (forall a, is_byte a ->
    is_byte (foldl (fun a x => (a * 31 + x + 7) mod 256) a l)) as Hg.
  { induction l as [|x l IH]; intros a Ha; simpl; [done|].
    apply IH. unfold is_byte. apply Z.mod_pos_bound. lia. }
  apply Hg. unfold is_byte. lia.
Qed.

Lemma toy_hash_len l : zlen (toy_hash l) = 32.
Proof. done. Qed.

Lemma toy_open_seal k n p : toy_open k n (toy_seal k n p) = Some p.
Proof.
  unfold toy_open.
  assert (take (length (toy_seal k n p) - 16) (toy_seal k n p) = p) as ->.
  { unfold toy_seal, toy_tag. rewrite length_app, length_replicate.
    replace (_ - 16)%nat with (length p) by lia. apply take_app_length. }
  by rewrite decide_True.
Qed.

Lemma toy_hash_byte l : Forall is_byte (toy_hash l).
Proof.
  unfold toy_hash. apply Forall_forall. intros x Hx.
  rewrite list_elem_of_In, in_map_iff in Hx. destruct Hx as (i & <- & _). apply checksum_range.
Qed.

#[export] Instance toy_laws : CryptoLaws.
Proof.
  split; cbn [gcm_seal gcm_open hmac_sha256 sha256 argon2_idkey toy_prims].
  - intros k n p _ _. unfold toy_seal. rewrite zlen_app. done.
  - intros k n p _ _. apply toy_open_seal.
  - intros k n c p _ _. unfold toy_open. case_decide as Hd; [|done].
    intros [= <-]. exact Hd.
  - intros. apply toy_hash_len.
  - intros. apply toy_hash_len.
  - intros. apply toy_hash_byte.
  - intros. apply toy_hash_len.
  - intros. apply toy_hash_byte.
Qed.

End ToyCrypto.
