(* ===== verification/CryptoStream.v ===== *)
(** * Chunked encryption streams (internal/crypto/stream.go)

    [EncryptStream.Write] frames each call's payload as
    [4-byte length][12-byte nonce][ciphertext + tag]; [DecryptStream] reads
    the frames back through an [io.Reader] and can seek by plaintext offset.
    The scratch buffers the Go structs reuse (packetBuf, hdrBuf, cipherBuf,
    plainBuf) hold nothing across calls and have no counterpart: [ds_buf] is
    emptied before plainBuf is written again. *)

From S2P Require Import Prelude CryptoPrims.

#[local] Open Scope Z_scope.

(** 50 * 1024 * 1024, the reader's limit on the length field. *)
Definition MaxChunkSize : Z := 50 * 1024 * 1024.

(** ** Readers

    An [io.Reader] over a fixed byte sequence.  Its kind says which of the
    optional interfaces the value implements: SeekTo tests for them. *)
Inductive rkind := PlainReader | SeekReader | SeekAtReader.

Record reader := mkReader { rd_kind : rkind; rd_data : bytes; rd_pos : Z }.

Definition rd_avail (r : reader) : bytes := zdrop r.(rd_pos) r.(rd_data).

Definition rd_seek (r : reader) (pos : Z) : reader :=
  mkReader r.(rd_kind) r.(rd_data) pos.

(** [io.ReadFull(r, buf)] with [len(buf) = n]. *)
Definition ReadFull (r : reader) (n : Z) : reader * result bytes :=
  let a := rd_avail r in
  if zlen a <? n
  then (rd_seek r (r.(rd_pos) + zlen a),
        Err (if zlen a =? 0 then EOF else ErrUnexpectedEOF))
  else (rd_seek r (r.(rd_pos) + n), Ok (ztake n a)).

(** [r.ReadAt(buf, off)] with [len(buf) = n]: a short read is io.EOF. *)
Definition ReadAt (r : reader) (n off : Z) : result bytes :=
  let a := zdrop off r.(rd_data) in
  if zlen a <? n then Err EOF else Ok (ztake n a).

Section Stream.
Context `{CryptoPrims}.

(** ** EncryptStream *)

Section Encrypt.
(** The wrapped [io.Writer]: any type of writers with a write operation. *)
Context {W : Type} (w_write : W -> bytes -> W * option gerror).

Record EncryptStream := mkEnc { es_w : W; es_key : bytes }.

Definition NewEncryptStream (w : W) (key : bytes) : result EncryptStream :=
  if aes_key_ok key then Ok (mkEnc w key)
  else Err (ErrMsg "crypto/aes: invalid key size").

(** The nonce and the packet [Write] builds for a payload. *)
Definition chunk_nonce (key p : bytes) : bytes := ztake NonceSize (hmac_sha256 key p).

Definition packet (key p : bytes) : bytes :=
  let nonce := chunk_nonce key p in
  let chunkLen := u32 (zlen p + TagSize) in
  be_put 4 chunkLen ++ nonce ++ gcm_seal key nonce p.

Definition enc_write (s : EncryptStream) (p : bytes) : EncryptStream * (Z * option gerror) :=
  if zlen p =? 0 then (s, (0, None))
  else
    let '(w', err) := w_write s.(es_w) (packet s.(es_key) p) in
    match err with
    | Some e => (mkEnc w' s.(es_key), (0, Some e))
    | None => (mkEnc w' s.(es_key), (zlen p, None))
    end.

(** Successive calls of [Write], stopping at the first error. *)
Fixpoint enc_writes (s : EncryptStream) (ps : list bytes) : EncryptStream * option gerror :=
  match ps with
  | [] => (s, None)
  | p :: ps' =>
      match enc_write s p with
      | (s', (_, None)) => enc_writes s' ps'
      | (s', (_, Some e)) => (s', Some e)
      end
  end.

End Encrypt.

(** ** DecryptStream *)

Record DecryptStream := mkDec { ds_r : reader; ds_key : bytes; ds_buf : bytes }.

Definition NewDecryptStream (r : reader) (key : bytes) : result DecryptStream :=
  if aes_key_ok key then Ok (mkDec r key [])
  else Err (ErrMsg "crypto/aes: invalid key size").

Definition with_reader (s : DecryptStream) (r : reader) : DecryptStream :=
  mkDec r s.(ds_key) s.(ds_buf).
Definition with_buf (s : DecryptStream) (b : bytes) : DecryptStream :=
  mkDec s.(ds_r) s.(ds_key) b.

Definition chunk_len_ok (chunkLen : Z) : bool :=
  negb ((chunkLen <? TagSize) || (MaxChunkSize <? chunkLen)).

Definition err_chunk_len : gerror := ErrMsg "invalid or excessive chunk length".
Definition err_auth : gerror := ErrMsg "authentication failed".
Definition err_negative : gerror := ErrMsg "negative offset not supported".

(** Steps 2 to 4 of [Read]: header, ciphertext, authenticated decryption. *)
Definition next_chunk (s : DecryptStream) : DecryptStream * result bytes :=
  match ReadFull s.(ds_r) (4 + NonceSize) with
  | (r1, Err e) => (with_reader s r1, Err e)
  | (r1, Ok hdr) =>
      let chunkLen := be_get (ztake 4 hdr) in
      if negb (chunk_len_ok chunkLen) then (with_reader s r1, Err err_chunk_len)
      else
        let nonce := zdrop 4 hdr in
        match ReadFull r1 chunkLen with
        | (r2, Err e) => (with_reader s r2, Err e)
        | (r2, Ok cipher) =>
            match gcm_open s.(ds_key) nonce cipher with
            | None => (with_reader s r2, Err err_auth)
            | Some plaintext => (with_reader s r2, Ok plaintext)
            end
        end
  end.

(** [Read(p)] with [len(p) = n]: the bytes copied into p and the error. *)
Definition dec_read (s : DecryptStream) (n : Z) : DecryptStream * (bytes * option gerror) :=
  if n =? 0 then (s, ([], None))
  else if 0 <? zlen s.(ds_buf) then
    (with_buf s (zdrop n s.(ds_buf)), (ztake n s.(ds_buf), None))
  else
    match next_chunk s with
    | (s1, Err e) => (s1, ([], Some e))
    | (s1, Ok plaintext) =>
        (with_buf s1 (if n <? zlen plaintext then zdrop n plaintext else s1.(ds_buf)),
         (ztake n plaintext, None))
    end.

Definition PreloadFirstChunk (s : DecryptStream) : DecryptStream * option gerror :=
  if 0 <? zlen s.(ds_buf) then (s, None)
  else
    match next_chunk s with
    | (s1, Err e) => (s1, Some e)
    | (s1, Ok plaintext) => (with_buf s1 plaintext, None)
    end.

(** [io.CopyN(io.Discard, s, remaining)]: reads through an 8 KiB buffer; an
    end of the stream before [remaining] bytes is io.EOF. *)
Fixpoint copyn_discard (fuel : nat) (s : DecryptStream) (remaining : Z)
  : option (DecryptStream * option gerror) :=
  match fuel with
  | O => None
  | S f =>
      if remaining <=? 0 then Some (s, None)
      else
        match dec_read s (Z.min 8192 remaining) with
        | (s1, (_, Some e)) => Some (s1, Some e)
        | (s1, (b, None)) => copyn_discard f s1 (remaining - zlen b)
        end
  end.

(** The loop of SeekTo over an io.ReaderAt (lines 217-261). *)
Fixpoint seek_at_loop (fuel : nat) (s : DecryptStream) (offset currentOffset diskPos : Z)
  : option (DecryptStream * option gerror) :=
  match fuel with
  | O => None
  | S f =>
      if negb (currentOffset <? offset) then Some (s, None)
      else
        match ReadAt s.(ds_r) 4 diskPos with
        | Err e => Some (s, Some e)
        | Ok lenBuf =>
            let chunkLen := be_get lenBuf in
            if negb (chunk_len_ok chunkLen) then Some (s, Some err_chunk_len)
            else
              let plainLen := chunkLen - TagSize in
              if currentOffset + plainLen <=? offset then
                seek_at_loop f s offset (currentOffset + plainLen)
                             (diskPos + (4 + NonceSize + chunkLen))
              else
                match ReadFull (rd_seek s.(ds_r) diskPos) (4 + NonceSize) with
                | (r1, Err e) => Some (with_reader s r1, Some e)
                | (r1, Ok hdr) =>
                    match ReadFull r1 chunkLen with
                    | (r2, Err e) => Some (with_reader s r2, Some e)
                    | (r2, Ok cipher) =>
                        match gcm_open s.(ds_key) (zdrop 4 hdr) cipher with
                        | None => Some (with_reader s r2, Some err_auth)
                        | Some plaintext =>
                            Some (mkDec r2 s.(ds_key)
                                        (zdrop (offset - currentOffset) plaintext), None)
                        end
                    end
                end
        end
  end.

(** The loop of SeekTo over a plain io.ReadSeeker (lines 267-309). *)
Fixpoint seek_loop (fuel : nat) (s : DecryptStream) (offset currentOffset : Z)
  : option (DecryptStream * option gerror) :=
  match fuel with
  | O => None
  | S f =>
      if negb (currentOffset <? offset) then Some (s, None)
      else
        match ReadFull s.(ds_r) 4 with
        | (r1, Err e) => Some (with_reader s r1, Some e)
        | (r1, Ok lenBuf) =>
            let chunkLen := be_get lenBuf in
            if negb (chunk_len_ok chunkLen) then Some (with_reader s r1, Some err_chunk_len)
            else
              let plainLen := chunkLen - TagSize in
              if currentOffset + plainLen <=? offset then
                seek_loop f (with_reader s (rd_seek r1 (r1.(rd_pos) + (NonceSize + chunkLen))))
                          offset (currentOffset + plainLen)
              else
                match ReadFull r1 NonceSize with
                | (r2, Err e) => Some (with_reader s r2, Some e)
                | (r2, Ok nonce) =>
                    match ReadFull r2 chunkLen with
                    | (r3, Err e) => Some (with_reader s r3, Some e)
                    | (r3, Ok cipher) =>
                        match gcm_open s.(ds_key) nonce cipher with
                        | None => Some (with_reader s r3, Some err_auth)
                        | Some plaintext =>
                            Some (mkDec r3 s.(ds_key)
                                        (zdrop (offset - currentOffset) plaintext), None)
                        end
                    end
                end
        end
  end.

(** Fuel for the loops: every iteration advances over at least one byte. *)
Definition seek_fuel (s : DecryptStream) : nat :=
  S (length s.(ds_r).(rd_data) + length s.(ds_buf)).

Definition SeekTo (s : DecryptStream) (offset : Z) : option (DecryptStream * option gerror) :=
  if offset <? 0 then Some (s, Some err_negative)
  else
    let s0 := with_buf s [] in
    match s.(ds_r).(rd_kind) with
    | PlainReader =>
        if offset =? 0 then Some (s0, None)
        else copyn_discard (seek_fuel s0) s0 offset
    | k =>
        let s1 := with_reader s0 (rd_seek s0.(ds_r) 0) in
        if offset =? 0 then Some (s1, None)
        else
          match k with
          | SeekAtReader => seek_at_loop (seek_fuel s1) s1 offset 0 0
          | _ => seek_loop (seek_fuel s1) s1 offset 0
          end
    end.

(** ** Clients of the streams *)

(** [io.Copy(dst, s)] with an [n]-byte buffer: what arrives at dst, and the
    error ([None] when the stream ends with io.EOF). *)
Fixpoint copy_all (fuel : nat) (s : DecryptStream) (n : Z) (acc : bytes)
  : option (bytes * option gerror) :=
  match fuel with
  | O => None
  | S f =>
      match dec_read s n with
      | (_, (b, Some EOF)) => Some (acc ++ b, None)
      | (_, (b, Some e)) => Some (acc ++ b, Some e)
      | (s1, (b, None)) => copy_all f s1 n (acc ++ b)
      end
  end.

(** An append-only writer that never fails: a file, a bytes.Buffer. *)
Definition append_write (w b : bytes) : bytes * option gerror := (w ++ b, None).

(** The file a sequence of non-empty writes produces. *)
Definition encode (key : bytes) (cs : list bytes) : bytes := concat (packet key <$> cs).

(** A payload the reader's limit admits. *)
Definition good_chunk (c : bytes) : Prop := c <> [] /\ zlen c + TagSize <= MaxChunkSize.

(** [s] stands before the plaintext [rest] of an encoded sequence of chunks. *)
Definition stream_at (s : DecryptStream) (rest : bytes) : Prop :=
  aes_key_ok s.(ds_key) = true /\ 0 <= s.(ds_r).(rd_pos) /\
  exists cs, Forall good_chunk cs /\
    rd_avail s.(ds_r) = encode s.(ds_key) cs /\ rest = s.(ds_buf) ++ concat cs.

End Stream.
