(* ===== verification/CryptoStreamFacts.v ===== *)
(** * Correctness of the encryption streams

    Frame-level lemmas (what one read of an encoded frame returns), the
    refinement of [DecryptStream] to a reader of the plaintext, SeekTo on the
    three kinds of readers, authenticity of everything that is returned, and
    termination of the loops. *)

From S2P Require Import Prelude CryptoPrims CryptoStream.

#[local] Open Scope Z_scope.

(** ** Frames *)

Section Facts.
Context `{CryptoLaws}.

Lemma chunk_nonce_len key p : zlen (chunk_nonce key p) = NonceSize.
Proof. unfold chunk_nonce. rewrite zlen_ztake, hmac_len. done. Qed.

Lemma packet_len key p :
  aes_key_ok key = true -> zlen (packet key p) = zlen p + 32.
Proof.
  intros Hk. unfold packet.
  rewrite !zlen_app, zlen_be_put, chunk_nonce_len, gcm_seal_len
    by (auto using chunk_nonce_len).
  unfold NonceSize, TagSize. lia.
Qed.

Lemma good_chunk_len c : good_chunk c -> 0 < zlen c <= MaxChunkSize - TagSize.
Proof. intros [Hne Hle]. pose proof (zlen_pos c Hne). lia. Qed.

Lemma good_chunk_u32 c : good_chunk c -> u32 (zlen c + TagSize) = zlen c + TagSize.
Proof.
  intros Hc%good_chunk_len. apply u32_id. unfold MaxChunkSize, TagSize in *. lia.
Qed.

Lemma good_chunk_len_ok c : good_chunk c -> chunk_len_ok (zlen c + TagSize) = true.
Proof.
  intros Hc%good_chunk_len. unfold chunk_len_ok, MaxChunkSize, TagSize in *.
  apply negb_true_iff, orb_false_iff. split; apply Z.ltb_ge; lia.
Qed.

Lemma chunk_len_ok_inv n : chunk_len_ok n = true -> TagSize <= n <= MaxChunkSize.
Proof.
  unfold chunk_len_ok. intros [H1 H2]%negb_true_iff%orb_false_iff.
  apply Z.ltb_ge in H1, H2. lia.
Qed.

Lemma encode_cons key c cs : encode key (c :: cs) = packet key c ++ encode key cs.
Proof. done. Qed.

Lemma encode_app key cs ds : encode key (cs ++ ds) = encode key cs ++ encode key ds.
Proof. unfold encode. by rewrite fmap_app, concat_app. Qed.

Lemma zlen_encode key cs :
  aes_key_ok key = true ->
  zlen (encode key cs) = zlen (concat cs) + 32 * zlen cs.
Proof.
  intros Hk. induction cs as [|c cs IH]; [done|].
  rewrite encode_cons, zlen_cons. simpl concat.
  rewrite !zlen_app, packet_len, IH by done. lia.
Qed.

Lemma rd_avail_seek r n :
  0 <= n -> 0 <= rd_pos r -> rd_avail (rd_seek r (rd_pos r + n)) = zdrop n (rd_avail r).
Proof. intros. unfold rd_avail, rd_seek. simpl. by rewrite zdrop_zdrop. Qed.

(** A full read succeeds exactly when enough bytes are left. *)
Lemma ReadFull_app r a b n :
  rd_avail r = a ++ b -> n = zlen a ->
  ReadFull r n = (rd_seek r (rd_pos r + n), Ok a).
Proof.
  intros Ha ->. unfold ReadFull. rewrite Ha, zlen_app.
  destruct (Z.ltb_spec (zlen a + zlen b) (zlen a)); [zlen_solve|].
  by rewrite ztake_app_len.
Qed.

Lemma ReadFull_ok_inv r n r' x :
  0 <= n -> 0 <= rd_pos r ->
  ReadFull r n = (r', Ok x) ->
  zlen x = n /\ rd_avail r = x ++ rd_avail r' /\ r' = rd_seek r (rd_pos r + n).
Proof.
  intros Hn Hp. unfold ReadFull.
  destruct (Z.ltb_spec (zlen (rd_avail r)) n); intros [= <- <-].
  rewrite zlen_ztake, rd_avail_seek by done.
  split; [lia|]. by rewrite ztake_zdrop.
Qed.

Lemma ReadFull_empty r n : rd_avail r = [] -> 0 < n -> ReadFull r n = (rd_seek r (rd_pos r + 0), Err EOF).
Proof.
  intros Ha Hn. unfold ReadFull. rewrite Ha. rewrite zlen_nil.
  by destruct (Z.ltb_spec 0 n); [|lia].
Qed.

(** The header [Write] emits, as the reader splits it. *)
Lemma header_split key c :
  good_chunk c ->
  let hdr := be_put 4 (zlen c + TagSize) ++ chunk_nonce key c in
  zlen hdr = 4 + NonceSize /\ be_get (ztake 4 hdr) = zlen c + TagSize /\
  zdrop 4 hdr = chunk_nonce key c.
Proof.
  intros Hc hdr. subst hdr. rewrite zlen_app, zlen_be_put, chunk_nonce_len.
  rewrite ztake_app_eq, zdrop_app_eq by (by rewrite zlen_be_put).
  split; [done|]. split; [|done].
  rewrite be_get_put. apply Z.mod_small.
  apply good_chunk_len in Hc. unfold MaxChunkSize, TagSize in *. lia.
Qed.

Lemma packet_good key c :
  good_chunk c ->
  packet key c = (be_put 4 (zlen c + TagSize) ++ chunk_nonce key c)
                 ++ gcm_seal key (chunk_nonce key c) c.
Proof. intros Hc. unfold packet. by rewrite good_chunk_u32, <- app_assoc. Qed.

(** Reading one encoded frame returns its payload and stands after it. *)
Lemma next_chunk_packet s c tl :
  aes_key_ok (ds_key s) = true -> 0 <= rd_pos (ds_r s) -> good_chunk c ->
  rd_avail (ds_r s) = packet (ds_key s) c ++ tl ->
  exists r', next_chunk s = (with_reader s r', Ok c) /\
    rd_avail r' = tl /\ 0 <= rd_pos r' /\
    rd_kind r' = rd_kind (ds_r s) /\ rd_data r' = rd_data (ds_r s).
Proof.
  intros Hk Hp Hc Hav. destruct (header_split (ds_key s) c Hc) as (Hlen & Hget & Hdrop).
  pose proof (good_chunk_len c Hc) as Hcl.
  rewrite packet_good, <- app_assoc in Hav by done.
  unfold next_chunk. rewrite (ReadFull_app _ _ _ _ Hav) by done.
  rewrite Hget, good_chunk_len_ok, Hdrop by done. simpl.
  set (r1 := rd_seek _ _).
  assert (rd_avail r1 = gcm_seal (ds_key s) (chunk_nonce (ds_key s) c) c ++ tl) as Hav1.
  { subst r1. rewrite rd_avail_seek, Hav by (unfold NonceSize; lia). by apply zdrop_app_eq. }
  assert (zlen c + TagSize = zlen (gcm_seal (ds_key s) (chunk_nonce (ds_key s) c) c)) as Hgl.
  { rewrite gcm_seal_len; auto using chunk_nonce_len. }
  rewrite (ReadFull_app _ _ _ _ Hav1) by done.
  rewrite gcm_open_seal by (auto using chunk_nonce_len).
  eexists. split; [done|].
  assert (0 <= rd_pos r1) by (subst r1; simpl; unfold NonceSize; lia).
  assert (0 <= zlen c + TagSize) by (unfold TagSize; lia).
  rewrite rd_avail_seek, Hav1, zdrop_app_eq by done.
  split; [done|]. split; [by apply Z.add_nonneg_nonneg|]. done.
Qed.

Lemma next_chunk_end s :
  rd_avail (ds_r s) = [] ->
  next_chunk s = (with_reader s (rd_seek (ds_r s) (rd_pos (ds_r s) + 0)), Err EOF).
Proof. intros Ha. unfold next_chunk. by rewrite ReadFull_empty. Qed.

(** ** EncryptStream *)

Lemma enc_write_append w key p :
  enc_write append_write (mkEnc w key) p
  = (mkEnc (if zlen p =? 0 then w else w ++ packet key p) key, (zlen p, None)).
Proof.
  unfold enc_write. simpl. destruct (Z.eqb_spec (zlen p) 0) as [->|]; done.
Qed.

Lemma enc_writes_append ps w key :
  enc_writes append_write (mkEnc w key) ps
  = (mkEnc (w ++ encode key (filter (.≠ []) ps)) key, None).
Proof.
  revert w. induction ps as [|p ps IH]; intros w; [by rewrite app_nil_r|].
  cbn [enc_writes]. rewrite enc_write_append, IH.
  destruct (Z.eqb_spec (zlen p) 0) as [Hp|Hp].
  - rewrite (zlen_nil_inv p) by lia. rewrite filter_cons_False by (by intros Hn). done.
  - rewrite filter_cons_True by (by intros ->). by rewrite encode_cons, app_assoc.
Qed.

(** ** Reading *)

Lemma stream_at_encode key kind cs :
  aes_key_ok key = true -> Forall good_chunk cs ->
  stream_at (mkDec (mkReader kind (encode key cs) 0) key []) (concat cs).
Proof. intros. split; [done|]. split; [done|]. by exists cs. Qed.

(** A stream standing before the plaintext [rest] and then the raw bytes
    [tl], which a reader takes for the end of the stream. *)
Definition stream_before (tl : bytes) (s : DecryptStream) (rest : bytes) : Prop :=
  aes_key_ok (ds_key s) = true /\ 0 <= rd_pos (ds_r s) /\
  exists cs, Forall good_chunk cs /\
    rd_avail (ds_r s) = encode (ds_key s) cs ++ tl /\ rest = ds_buf s ++ concat cs.

Definition tail_eof (tl : bytes) : Prop :=
  tl = [] \/ (zlen tl = 4 + NonceSize /\ chunk_len_ok (be_get (ztake 4 tl)) = true).

Lemma stream_at_before s rest : stream_at s rest <-> stream_before [] s rest.
Proof.
  unfold stream_at, stream_before. by setoid_rewrite app_nil_r.
Qed.

Lemma next_chunk_tail s :
  0 <= rd_pos (ds_r s) -> tail_eof (rd_avail (ds_r s)) ->
  exists r', next_chunk s = (with_reader s r', Err EOF) /\ rd_avail r' = [] /\ 0 <= rd_pos r'.
Proof.
  intros Hp [Ha|[Hl Hok]].
  - rewrite next_chunk_end by done. eexists. split; [done|].
    rewrite rd_avail_seek, Ha by done. split; [done|]. simpl. lia.
  - unfold next_chunk. rewrite (ReadFull_app _ (rd_avail (ds_r s)) []) by
      (by rewrite ?app_nil_r). rewrite Hok. cbn [negb].
    set (r1 := rd_seek _ _). assert (rd_avail r1 = []) as Ha1.
    { subst r1. rewrite rd_avail_seek by (unfold NonceSize; lia). apply zdrop_all. lia. }
    assert (0 <= rd_pos r1) by (subst r1; simpl; unfold NonceSize; lia). clearbody r1.
    apply chunk_len_ok_inv in Hok.
    rewrite ReadFull_empty by (done || unfold TagSize in *; lia). eexists. split; [done|].
    rewrite rd_avail_seek, Ha1 by done. split; [done|]. simpl. lia.
Qed.

Lemma dec_read_before tl s rest n :
  tail_eof tl -> stream_before tl s rest -> 0 < n ->
  match dec_read s n with
  | (s', (b, None)) =>
      b <> [] /\ zlen b <= n /\ rest = b ++ zdrop (zlen b) rest /\
      stream_before tl s' (zdrop (zlen b) rest)
  | (s', (b, Some e)) => e = EOF /\ b = [] /\ rest = [] /\ stream_before [] s' []
  end.
Proof.
  intros Htl (Hk & Hp & cs & Hcs & Hav & ->) Hn. unfold dec_read.
  destruct (Z.eqb_spec n 0) as [|_]; [lia|].
  destruct (Z.ltb_spec 0 (zlen (ds_buf s))) as [Hb|Hb].
  - assert (zlen (ztake n (ds_buf s)) = Z.min n (zlen (ds_buf s))) as Hl
      by (rewrite zlen_ztake; lia).
    assert (zdrop (zlen (ztake n (ds_buf s))) (ds_buf s) = zdrop n (ds_buf s)) as Hd.
    { rewrite Hl. destruct (Z.le_ge_cases n (zlen (ds_buf s))).
      - by rewrite Z.min_l.
      - rewrite Z.min_r by done. by rewrite !zdrop_all by lia. }
    split; [intros Hnil; rewrite Hnil, zlen_nil in Hl; lia|]. split; [lia|].
    rewrite zdrop_app_le, Hd by lia.
    split; [by rewrite app_assoc, ztake_zdrop|].
    split; [done|]. split; [done|]. by exists cs.
  - rewrite (zlen_nil_inv _ Hb). simpl app.
    destruct cs as [|c cs].
    + destruct (next_chunk_tail s Hp) as (r' & -> & Ha' & Hp'); [by rewrite Hav|].
      repeat split; try done. exists []. split; [done|]. simpl.
      by rewrite (zlen_nil_inv _ Hb).
    + apply Forall_cons in Hcs as [Hc Hcs]. rewrite encode_cons, <- app_assoc in Hav.
      destruct (next_chunk_packet s c _ Hk Hp Hc Hav) as (r' & -> & Hav' & Hp' & _).
      pose proof (good_chunk_len c Hc) as Hcl.
      assert (zlen (ztake n c) = Z.min n (zlen c)) as Hl by (rewrite zlen_ztake; lia).
      split; [intros Hnil; rewrite Hnil, zlen_nil in Hl; lia|]. split; [lia|].
      simpl concat.
      assert (zdrop (zlen (ztake n c)) (c ++ concat cs)
              = (if n <? zlen c then zdrop n c else []) ++ concat cs) as Hz.
      { rewrite Hl. destruct (Z.ltb_spec n (zlen c)).
        - rewrite Z.min_l by lia. by rewrite zdrop_app_le by lia.
        - rewrite Z.min_r by lia. by rewrite zdrop_app_len. }
      rewrite Hz. split.
      * rewrite app_assoc. f_equal. destruct (Z.ltb_spec n (zlen c)).
        -- by rewrite ztake_zdrop.
        -- by rewrite ztake_all, app_nil_r by lia.
      * split; [done|]. split; [done|]. exists cs. simpl.
        split; [done|]. split; [done|]. by rewrite (zlen_nil_inv _ Hb).
Qed.

(** One [Read] from a stream standing before [rest] returns a non-empty prefix
    of it, of at most [n] bytes, and then stands before the remainder; at the
    end it returns io.EOF and stays there. *)
Lemma dec_read_stream s rest n :
  stream_at s rest -> 0 < n ->
  match dec_read s n with
  | (s', (b, None)) =>
      b <> [] /\ zlen b <= n /\ rest = b ++ zdrop (zlen b) rest /\
      stream_at s' (zdrop (zlen b) rest)
  | (s', (b, Some e)) => e = EOF /\ b = [] /\ rest = [] /\ stream_at s' []
  end.
Proof.
  intros Hs%stream_at_before Hn.
  pose proof (dec_read_before [] s rest n (or_introl eq_refl) Hs Hn) as Hd.
  destruct (dec_read s n) as [s' [b [e|]]]; by rewrite stream_at_before.
Qed.

Lemma copy_all_before tl fuel s rest n acc :
  tail_eof tl -> stream_before tl s rest -> 0 < n -> (length rest < fuel)%nat ->
  copy_all fuel s n acc = Some (acc ++ rest, None).
Proof.
  intros Htl. revert s rest acc.
  induction fuel as [|f IH]; intros s rest acc Hs Hn Hf; [lia|].
  cbn [copy_all]. pose proof (dec_read_before tl s rest n Htl Hs Hn) as Hr.
  destruct (dec_read s n) as [s1 [b [e|]]].
  - destruct Hr as (-> & -> & -> & _). done.
  - destruct Hr as (Hb & Hle & Hrest & Hs1).
    rewrite (IH s1 _ (acc ++ b) Hs1 Hn).
    + by rewrite <- app_assoc, <- Hrest.
    + apply zlen_pos in Hb. rewrite Hrest, length_app in Hf. unfold zlen in *. lia.
Qed.

Lemma copy_all_stream fuel s rest n acc :
  stream_at s rest -> 0 < n -> (length rest < fuel)%nat ->
  copy_all fuel s n acc = Some (acc ++ rest, None).
Proof.
  intros Hs%stream_at_before. apply (copy_all_before [] fuel s rest n acc); [by left|done].
Qed.

(** ** Seeking *)

Lemma copyn_discard_stream fuel s rest k :
  stream_at s rest -> 0 <= k -> (Z.to_nat k < fuel)%nat ->
  exists s', copyn_discard fuel s k = Some (s', if zlen rest <? k then Some EOF else None) /\
    stream_at s' (zdrop k rest).
Proof.
  revert s rest k. induction fuel as [|f IH]; intros s rest k Hs Hk0 Hf; [lia|].
  cbn [copyn_discard]. destruct (Z.leb_spec k 0) as [Hle|Hgt].
  { assert (k = 0) as -> by lia. exists s. split; [|done].
    destruct (Z.ltb_spec (zlen rest) 0); [zlen_solve|done]. }
  pose proof (dec_read_stream s rest (Z.min 8192 k) Hs ltac:(lia)) as Hr.
  destruct (dec_read s _) as [s1 [b [e|]]].
  - destruct Hr as (-> & -> & -> & Hs1). exists s1. rewrite zlen_nil.
    destruct (Z.ltb_spec 0 k); [|lia]. split; [done|]. by rewrite zdrop_all by (rewrite zlen_nil; lia).
  - destruct Hr as (Hb & Hle & Hrest & Hs1). apply zlen_pos in Hb.
    destruct (IH s1 _ (k - zlen b) Hs1 ltac:(lia) ltac:(lia)) as (s' & -> & Hs').
    exists s'. rewrite zdrop_zdrop in Hs' by lia.
    replace (zlen b + (k - zlen b)) with k in Hs' by lia.
    split; [|done]. rewrite Hrest at 2. rewrite zlen_app.
    destruct (Z.ltb_spec (zlen (zdrop (zlen b) rest)) (k - zlen b));
      destruct (Z.ltb_spec (zlen b + zlen (zdrop (zlen b) rest)) k); (done || lia).
Qed.

(** [d] is the total length of some of the leading chunks. *)
Fixpoint at_boundary (cs : list bytes) (d : Z) : bool :=
  (d =? 0) ||
  match cs with
  | [] => false
  | c :: cs' => if d <? zlen c then false else at_boundary cs' (d - zlen c)
  end.

Lemma be_get_length c : good_chunk c -> be_get (be_put 4 (zlen c + TagSize)) = zlen c + TagSize.
Proof.
  intros Hc%good_chunk_len. rewrite be_get_put. apply Z.mod_small.
  unfold MaxChunkSize, TagSize in *. lia.
Qed.

Lemma zlen_concat_nonneg (cs : list bytes) : 0 <= zlen (concat cs).
Proof. apply zlen_nonneg. Qed.

Lemma stream_at_interior s r' c cs k :
  aes_key_ok (ds_key s) = true -> 0 <= rd_pos r' -> Forall good_chunk cs ->
  rd_avail r' = encode (ds_key s) cs -> 0 <= k <= zlen c ->
  stream_at (mkDec r' (ds_key s) (zdrop k c)) (zdrop k (c ++ concat cs)).
Proof.
  intros. split; [done|]. split; [done|]. exists cs. simpl.
  split; [done|]. split; [done|]. by rewrite zdrop_app_le by lia.
Qed.

(** The loop over a plain io.ReadSeeker stands at the requested offset. *)
Lemma seek_loop_stream cs fuel s offset cur :
  aes_key_ok (ds_key s) = true -> 0 <= rd_pos (ds_r s) -> Forall good_chunk cs ->
  ds_buf s = [] -> rd_avail (ds_r s) = encode (ds_key s) cs ->
  cur <= offset -> (length cs < fuel)%nat ->
  exists s', seek_loop fuel s offset cur
      = Some (s', if zlen (concat cs) <? offset - cur then Some EOF else None) /\
    stream_at s' (zdrop (offset - cur) (concat cs)).
Proof.
  revert fuel s cur. induction cs as [|c cs IH]; intros fuel s cur Hk Hp Hcs Hb Hav Hle Hf;
    (destruct fuel as [|f]; [simpl in Hf; lia|]); cbn [seek_loop];
    (destruct (Z.ltb_spec cur offset) as [Hlt|Hge]; cbn [negb];
     [|exists s; replace (offset - cur) with 0 by lia; split;
       [match goal with |- context [?a <? 0] => destruct (Z.ltb_spec a 0); [zlen_solve|done] end
       |split; [done|]; split; [done|]; eexists; split; [exact Hcs|]; split; [exact Hav|];
        by rewrite Hb]]).
  - rewrite ReadFull_empty by done. eexists.
    cbn [concat]. rewrite (zlen_nil (A:=Z)). destruct (Z.ltb_spec 0 (offset - cur)); [|lia].
    split; [done|]. rewrite zdrop_all by (rewrite zlen_nil; lia).
    split; [done|]. split; [simpl; lia|]. exists []. simpl. rewrite Hb.
    split; [done|]. split; [|done]. unfold rd_avail in *. simpl. by rewrite Z.add_0_r.
  - apply Forall_cons in Hcs as [Hc Hcs]. pose proof (good_chunk_len c Hc) as Hcl.
    rewrite encode_cons, packet_good, <- !app_assoc in Hav by done.
    rewrite (ReadFull_app _ _ _ _ Hav) by done.
    rewrite be_get_length, good_chunk_len_ok by done. cbn [negb].
    replace (zlen c + TagSize - TagSize) with (zlen c) by lia.
    set (r1 := rd_seek (ds_r s) (_ + 4)).
    assert (rd_avail r1 = chunk_nonce (ds_key s) c
              ++ gcm_seal (ds_key s) (chunk_nonce (ds_key s) c) c ++ encode (ds_key s) cs) as Hav1.
    { subst r1. rewrite rd_avail_seek, Hav by (done || lia). by apply zdrop_app_eq. }
    assert (zlen c + TagSize = zlen (gcm_seal (ds_key s) (chunk_nonce (ds_key s) c) c)) as Hgl.
    { rewrite gcm_seal_len; auto using chunk_nonce_len. }
    assert (0 <= rd_pos r1) as Hp1 by (subst r1; simpl; lia). clearbody r1.
    destruct (Z.leb_spec (cur + zlen c) offset) as [Hin|Hout].
    + set (s2 := with_reader s _).
      assert (rd_avail (ds_r s2) = encode (ds_key s) cs) as Hav2.
      { subst s2. simpl. rewrite rd_avail_seek, Hav1 by (unfold NonceSize, TagSize; lia).
        rewrite app_assoc. apply zdrop_app_eq. rewrite zlen_app, chunk_nonce_len. lia. }
      destruct (IH f s2 (cur + zlen c)) as (s' & -> & Hs'); try done.
      { subst s2. simpl. unfold NonceSize, TagSize. lia. }
      { simpl in Hf. lia. }
      exists s'. simpl concat. rewrite zlen_app, zdrop_app_ge by lia.
      replace (offset - cur - zlen c) with (offset - (cur + zlen c)) by lia.
      split; [|done].
      destruct (Z.ltb_spec (zlen (concat cs)) (offset - (cur + zlen c)));
        destruct (Z.ltb_spec (zlen c + zlen (concat cs)) (offset - cur)); (done || lia).
    + rewrite (ReadFull_app _ _ _ _ Hav1) by (by rewrite chunk_nonce_len).
      set (r2 := rd_seek r1 _).
      assert (rd_avail r2 = gcm_seal (ds_key s) (chunk_nonce (ds_key s) c) c
                ++ encode (ds_key s) cs) as Hav2.
      { subst r2. rewrite rd_avail_seek, Hav1 by (unfold NonceSize; lia).
        apply zdrop_app_eq. by rewrite chunk_nonce_len. }
      assert (0 <= rd_pos r2) as Hp2 by (subst r2; simpl; unfold NonceSize; lia).
      clearbody r2.
      rewrite (ReadFull_app _ _ _ _ Hav2) by done.
      rewrite gcm_open_seal by (auto using chunk_nonce_len).
      eexists. simpl concat. rewrite zlen_app.
      pose proof (zlen_concat_nonneg cs).
      destruct (Z.ltb_spec (zlen c + zlen (concat cs)) (offset - cur)); [lia|].
      split; [done|]. apply stream_at_interior; try done; try lia.
      * simpl. unfold TagSize. lia.
      * rewrite rd_avail_seek, Hav2 by (unfold TagSize; lia). by apply zdrop_app_eq.
Qed.

(** The loop over an io.ReaderAt: inside a chunk it stands at the requested
    offset; on a chunk boundary it returns without having moved the reader. *)
Lemma seek_at_loop_stream cs pre fuel s offset cur :
  aes_key_ok (ds_key s) = true -> Forall good_chunk cs ->
  rd_data (ds_r s) = pre ++ encode (ds_key s) cs ->
  cur <= offset -> (length cs < fuel)%nat ->
  exists s', seek_at_loop fuel s offset cur (zlen pre)
      = Some (s', if zlen (concat cs) <? offset - cur then Some EOF else None) /\
    (at_boundary cs (offset - cur) = true -> s' = s) /\
    (offset - cur <= zlen (concat cs) -> at_boundary cs (offset - cur) = false ->
     stream_at s' (zdrop (offset - cur) (concat cs))).
Proof.
  revert pre fuel cur. induction cs as [|c cs IH]; intros pre fuel cur Hk Hcs Hd Hle Hf;
    (destruct fuel as [|f]; [simpl in Hf; lia|]); cbn [seek_at_loop at_boundary];
    (destruct (Z.ltb_spec cur offset) as [Hlt|Hge]; cbn [negb];
     [|exists s; replace (offset - cur) with 0 by lia; split;
       [match goal with |- context [?a <? 0] => destruct (Z.ltb_spec a 0); [zlen_solve|done] end
       |done]]);
    (destruct (Z.eqb_spec (offset - cur) 0) as [|_]; [lia|]; cbn [orb]);
    unfold ReadAt; rewrite Hd, zdrop_app_len.
  - simpl. rewrite zlen_nil. destruct (Z.ltb_spec 0 4); [|lia]. eexists.
    destruct (Z.ltb_spec 0 (offset - cur)); [|lia]. split; [done|].
    split; [done|]. lia.
  - apply Forall_cons in Hcs as [Hc Hcs]. pose proof (good_chunk_len c Hc) as Hcl.
    pose proof (zlen_concat_nonneg cs).
    assert (zlen c + TagSize = zlen (gcm_seal (ds_key s) (chunk_nonce (ds_key s) c) c)) as Hgl.
    { rewrite gcm_seal_len; auto using chunk_nonce_len. }
    rewrite encode_cons, packet_good by done.
    rewrite !zlen_app, zlen_be_put, chunk_nonce_len, <- Hgl.
    pose proof (zlen_nonneg (encode (ds_key s) cs)).
    match goal with |- context [?a <? 4] => destruct (Z.ltb_spec a 4);
      [unfold NonceSize, TagSize in *; lia|] end.
    rewrite <- !app_assoc, (ztake_app_eq 4) by (by rewrite zlen_be_put).
    rewrite be_get_length, good_chunk_len_ok by done. cbn [negb].
    replace (zlen c + TagSize - TagSize) with (zlen c) by lia.
    destruct (Z.leb_spec (cur + zlen c) offset) as [Hin|Hout].
    + destruct (Z.ltb_spec (offset - cur) (zlen c)); [lia|].
      destruct (IH (pre ++ packet (ds_key s) c) f (cur + zlen c)) as (s' & Hrun & Hb & Hi); try done.
      { by rewrite Hd, encode_cons, app_assoc. }
      { simpl in Hf. lia. }
      replace (zlen pre + (4 + NonceSize + (zlen c + TagSize)))
        with (zlen (pre ++ packet (ds_key s) c))
        by (rewrite zlen_app, packet_len by done; unfold NonceSize, TagSize; lia).
      rewrite Hrun. exists s'. simpl concat. rewrite zlen_app, zdrop_app_ge by lia.
      replace (offset - cur - zlen c) with (offset - (cur + zlen c)) by lia.
      split; [|split; [done|intros; apply Hi; [lia|done]]].
      destruct (Z.ltb_spec (zlen (concat cs)) (offset - (cur + zlen c)));
        destruct (Z.ltb_spec (zlen c + zlen (concat cs)) (offset - cur)); (done || lia).
    + destruct (Z.ltb_spec (offset - cur) (zlen c)); [|lia].
      pose proof (header_split (ds_key s) c Hc) as (Hlen & _ & Hdrop).
      assert (rd_avail (rd_seek (ds_r s) (zlen pre))
        = (be_put 4 (zlen c + TagSize) ++ chunk_nonce (ds_key s) c)
          ++ gcm_seal (ds_key s) (chunk_nonce (ds_key s) c) c ++ encode (ds_key s) cs) as Hav.
      { unfold rd_avail, rd_seek. simpl. rewrite Hd, zdrop_app_len, encode_cons, packet_good by done.
        by rewrite <- !app_assoc. }
      rewrite (ReadFull_app _ _ _ _ Hav) by done.
      set (r1 := rd_seek (rd_seek (ds_r s) (zlen pre)) _).
      assert (rd_avail r1 = gcm_seal (ds_key s) (chunk_nonce (ds_key s) c) c
                ++ encode (ds_key s) cs) as Hav1.
      { subst r1. rewrite rd_avail_seek, Hav by (apply zlen_nonneg || (unfold NonceSize; lia)).
        by apply zdrop_app_eq. }
      assert (0 <= rd_pos r1) as Hp1
        by (subst r1; simpl; pose proof (zlen_nonneg pre); unfold NonceSize; lia).
      clearbody r1. rewrite (ReadFull_app _ _ _ _ Hav1) by done.
      rewrite Hdrop, gcm_open_seal by (auto using chunk_nonce_len).
      eexists. simpl concat. rewrite zlen_app.
      destruct (Z.ltb_spec (zlen c + zlen (concat cs)) (offset - cur)); [lia|].
      split; [done|]. split; [done|]. intros _ _.
      apply stream_at_interior; try done; try lia.
      * simpl. unfold TagSize. lia.
      * rewrite rd_avail_seek, Hav1 by (unfold TagSize; lia). by apply zdrop_app_eq.
Qed.

Lemma length_encode_ge key cs :
  aes_key_ok key = true -> (length cs <= length (encode key cs))%nat.
Proof.
  intros Hk. pose proof (zlen_encode key cs Hk). pose proof (zlen_concat_nonneg cs).
  unfold zlen in *. lia.
Qed.

(** ** Authenticity and progress on arbitrary data *)

(** A frame with an explicit nonce, as a reader accepts it. *)
Definition frame (key : bytes) (np : bytes * bytes) : bytes :=
  be_put 4 (zlen np.2 + TagSize) ++ np.1 ++ gcm_seal key np.1 np.2.

Definition frame_ok (np : bytes * bytes) : Prop :=
  zlen np.1 = NonceSize /\ zlen np.2 + TagSize <= MaxChunkSize.

(** What a successful step has consumed, without any assumption on the data. *)
Lemma next_chunk_ok_inv s s' p :
  aes_key_ok (ds_key s) = true -> 0 <= rd_pos (ds_r s) ->
  next_chunk s = (s', Ok p) ->
  exists hdr, zlen hdr = 4 + NonceSize /\ be_get (ztake 4 hdr) = zlen p + TagSize /\
    zlen p + TagSize <= MaxChunkSize /\
    rd_avail (ds_r s) = hdr ++ gcm_seal (ds_key s) (zdrop 4 hdr) p ++ rd_avail (ds_r s') /\
    ds_key s' = ds_key s /\ ds_buf s' = ds_buf s /\ 0 <= rd_pos (ds_r s').
Proof.
  intros Hk Hp. unfold next_chunk.
  destruct (ReadFull (ds_r s) _) as [r1 [hdr|e]] eqn:H1; [|done].
  apply ReadFull_ok_inv in H1 as (Hlen & Hav & ->); [|unfold NonceSize; lia|done].
  destruct (chunk_len_ok (be_get (ztake 4 hdr))) eqn:Hok; [|done]. cbn [negb].
  apply chunk_len_ok_inv in Hok. set (r1 := rd_seek _ _) in *.
  assert (0 <= rd_pos r1) as Hp1 by (subst r1; simpl; unfold NonceSize; lia).
  destruct (ReadFull r1 _) as [r2 [cipher|e]] eqn:H2; [|done].
  apply ReadFull_ok_inv in H2 as (Hclen & Hav1 & ->); [|unfold TagSize in *; lia|done].
  destruct (gcm_open _ _ _) as [q|] eqn:Ho; [|done]. intros [= <- ->].
  assert (zlen (zdrop 4 hdr) = NonceSize) as Hn.
  { rewrite zlen_zdrop, Hlen. unfold NonceSize. lia. }
  apply gcm_open_inv in Ho; [|done|done]. subst cipher.
  rewrite gcm_seal_len in Hclen by done.
  exists hdr. split; [done|]. split; [lia|]. split; [lia|].
  split; [by rewrite Hav, Hav1|]. split; [done|]. split; [done|].
  apply Z.add_nonneg_nonneg; [exact Hp1|]. unfold TagSize in Hok. lia.
Qed.

Lemma next_chunk_frame s s' p :
  aes_key_ok (ds_key s) = true -> 0 <= rd_pos (ds_r s) ->
  Forall is_byte (rd_avail (ds_r s)) ->
  next_chunk s = (s', Ok p) ->
  exists nonce, frame_ok (nonce, p) /\
    rd_avail (ds_r s) = frame (ds_key s) (nonce, p) ++ rd_avail (ds_r s').
Proof.
  intros Hk Hp Hby Hn.
  destruct (next_chunk_ok_inv _ _ _ Hk Hp Hn) as (hdr & Hlen & Hget & Hmax & Hav & _).
  exists (zdrop 4 hdr). split.
  { split; [|done]. simpl. rewrite zlen_zdrop, Hlen. unfold NonceSize. lia. }
  rewrite Hav. unfold frame. cbn [fst snd]. rewrite <- Hget.
  assert (be_put 4 (be_get (ztake 4 hdr)) = ztake 4 hdr) as ->.
  { replace 4%nat with (length (ztake 4 hdr)).
    - apply be_put_get. rewrite Hav in Hby. apply Forall_app in Hby as [Hby _].
      by apply Forall_take.
    - assert (zlen (ztake 4 hdr) = 4) as Hz.
      { rewrite zlen_ztake, Hlen. unfold NonceSize. lia. }
      unfold zlen in Hz. lia. }
  by rewrite <- !app_assoc, (app_assoc (ztake 4 hdr)), ztake_zdrop.
Qed.

(** The bytes a stream can still release. *)
Definition stream_measure (s : DecryptStream) : Z :=
  zlen (rd_avail (ds_r s)) + zlen (ds_buf s).

Lemma next_chunk_measure s s' p :
  aes_key_ok (ds_key s) = true -> 0 <= rd_pos (ds_r s) ->
  next_chunk s = (s', Ok p) ->
  zlen (rd_avail (ds_r s)) = 32 + zlen p + zlen (rd_avail (ds_r s')).
Proof.
  intros Hk Hp Hn.
  destruct (next_chunk_ok_inv _ _ _ Hk Hp Hn) as (hdr & Hlen & _ & _ & -> & _).
  rewrite !zlen_app, gcm_seal_len, Hlen; [unfold NonceSize, TagSize; lia|done|].
  rewrite zlen_zdrop, Hlen. unfold NonceSize. lia.
Qed.

(** Every error-free [Read] consumes input or buffered plaintext. *)
Lemma dec_read_progress s s' n b :
  aes_key_ok (ds_key s) = true -> 0 <= rd_pos (ds_r s) -> 0 < n ->
  dec_read s n = (s', (b, None)) ->
  aes_key_ok (ds_key s') = true /\ 0 <= rd_pos (ds_r s') /\
  stream_measure s' + zlen b + 1 <= stream_measure s + (if 0 <? zlen (ds_buf s) then 1 else 0) /\
  ((0 <? zlen (ds_buf s)) = true -> 0 < zlen b).
Proof.
  intros Hk Hp Hn. unfold dec_read, stream_measure.
  destruct (Z.eqb_spec n 0); [lia|].
  destruct (Z.ltb_spec 0 (zlen (ds_buf s))) as [Hb|Hb].
  - intros [= <- <-]. simpl. rewrite zlen_ztake, zlen_zdrop.
    split; [done|]. split; [done|]. unfold rd_avail. simpl. lia.
  - destruct (next_chunk s) as [s1 [p|e]] eqn:Hnc; [|done]. intros [= <- <-].
    pose proof (next_chunk_measure _ _ _ Hk Hp Hnc) as Hm.
    destruct (next_chunk_ok_inv _ _ _ Hk Hp Hnc) as (_ & _ & _ & _ & _ & Hk1 & Hb1 & Hp1).
    rewrite (zlen_nil_inv _ Hb) in *. cbn [with_buf ds_key ds_r ds_buf]. rewrite Hk1.
    split; [done|]. split; [done|]. split; [|done].
    rewrite Hb1, zlen_ztake. pose proof (zlen_nonneg p).
    destruct (Z.ltb_spec n (zlen p)); zlen_solve.
Qed.

(** ** Termination *)

Lemma copyn_discard_total fuel s k :
  aes_key_ok (ds_key s) = true -> 0 <= rd_pos (ds_r s) ->
  stream_measure s < Z.of_nat fuel -> is_Some (copyn_discard fuel s k).
Proof.
  revert s k. induction fuel as [|f IH]; intros s k Hk Hp Hf.
  { unfold stream_measure in Hf. zlen_solve. }
  cbn [copyn_discard]. destruct (Z.leb_spec k 0); [done|].
  destruct (dec_read s _) as [s1 [b [e|]]] eqn:Hr; [done|].
  assert (0 < Z.min 8192 k) as Hmin by lia.
  destruct (dec_read_progress _ _ _ _ Hk Hp Hmin Hr) as (Hk1 & Hp1 & Hm & Hb).
  apply IH; try done.
  destruct (0 <? zlen (ds_buf s)); [specialize (Hb eq_refl)|clear Hb]; zlen_solve.
Qed.

Lemma copy_all_total fuel s n acc :
  aes_key_ok (ds_key s) = true -> 0 <= rd_pos (ds_r s) -> 0 < n ->
  stream_measure s < Z.of_nat fuel -> is_Some (copy_all fuel s n acc).
Proof.
  revert s acc. induction fuel as [|f IH]; intros s acc Hk Hp Hn Hf.
  { unfold stream_measure in Hf. zlen_solve. }
  cbn [copy_all].
  destruct (dec_read s _) as [s1 [b [[]|]]] eqn:Hr; try done.
  destruct (dec_read_progress _ _ _ _ Hk Hp Hn Hr) as (Hk1 & Hp1 & Hm & Hb).
  apply IH; try done.
  destruct (0 <? zlen (ds_buf s)); [specialize (Hb eq_refl)|clear Hb]; zlen_solve.
Qed.

Lemma ReadAt_ok_len r n off x : 0 <= n -> ReadAt r n off = Ok x -> n <= zlen (zdrop off (rd_data r)).
Proof.
  unfold ReadAt. destruct (Z.ltb_spec (zlen (zdrop off (rd_data r))) n); [done|]. lia.
Qed.

Lemma seek_at_loop_total fuel s offset cur pos :
  0 <= pos -> zlen (zdrop pos (rd_data (ds_r s))) < Z.of_nat fuel ->
  is_Some (seek_at_loop fuel s offset cur pos).
Proof.
  revert cur pos. induction fuel as [|f IH]; intros cur pos Hp Hf; [zlen_solve|].
  cbn [seek_at_loop]. destruct (cur <? offset); [|done]. cbn [negb].
  destruct (ReadAt _ _ _) as [lb|] eqn:Hr; [|done]. apply ReadAt_ok_len in Hr; [|done].
  destruct (chunk_len_ok (be_get lb)) eqn:Hok; [|done]. cbn [negb].
  apply chunk_len_ok_inv in Hok. unfold TagSize, NonceSize in *.
  destruct (_ <=? offset).
  - apply IH; [lia|]. rewrite zlen_zdrop in *. lia.
  - destruct (ReadFull _ _) as [r1 [hdr|]]; [|done].
    destruct (ReadFull _ _) as [r2 [c|]]; [|done].
    destruct (gcm_open _ _ _); done.
Qed.

Lemma seek_loop_total fuel s offset cur :
  0 <= rd_pos (ds_r s) -> zlen (rd_avail (ds_r s)) < Z.of_nat fuel ->
  is_Some (seek_loop fuel s offset cur).
Proof.
  revert s cur. induction fuel as [|f IH]; intros s cur Hp Hf; [zlen_solve|].
  cbn [seek_loop]. destruct (cur <? offset); [|done]. cbn [negb].
  destruct (ReadFull _ 4) as [r1 [lb|]] eqn:Hr; [|done].
  apply ReadFull_ok_inv in Hr as (Hl & Hav & ->); [|done|done].
  destruct (chunk_len_ok (be_get lb)) eqn:Hok; [|done]. cbn [negb].
  apply chunk_len_ok_inv in Hok. unfold TagSize, NonceSize in *.
  destruct (_ <=? offset).
  - apply IH; cbn [ds_r with_reader]; [apply Z.add_nonneg_nonneg; [simpl; lia|lia]|].
    rewrite rd_avail_seek by (simpl; lia).
    rewrite Hav, zlen_app in Hf. rewrite zlen_zdrop. zlen_solve.
  - destruct (ReadFull _ _) as [r2 [nc|]]; [|done].
    destruct (ReadFull _ _) as [r3 [c|]]; [|done].
    destruct (gcm_open _ _ _); done.
Qed.

Lemma zlen_zdrop_le {A} n (l : list A) : zlen (zdrop n l) <= zlen l.
Proof. rewrite zlen_zdrop. zlen_solve. Qed.

Lemma seek_fuel_enough s : zlen (rd_data (ds_r s)) + zlen (ds_buf s) < Z.of_nat (seek_fuel s).
Proof. unfold seek_fuel, zlen. lia. Qed.

(** A stream that ends with io.EOF has nothing left but, at most, a header. *)
Lemma next_chunk_eof s s' :
  0 <= rd_pos (ds_r s) -> next_chunk s = (s', Err EOF) ->
  rd_avail (ds_r s) = [] \/ zlen (rd_avail (ds_r s)) = 4 + NonceSize.
Proof.
  intros Hp. unfold next_chunk. destruct (ReadFull (ds_r s) _) as [r1 [hdr|e]] eqn:H1.
  - apply ReadFull_ok_inv in H1 as (Hl & Hav & ->); [|unfold NonceSize; lia|done].
    destruct (chunk_len_ok _) eqn:Hok; [|done]. cbn [negb].
    apply chunk_len_ok_inv in Hok.
    destruct (ReadFull _ (be_get _)) as [r2 [c|e]] eqn:H2; [by destruct (gcm_open _ _ _)|].
    intros [= <- ->]. right. rewrite Hav, zlen_app, Hl. revert H2. unfold ReadFull.
    destruct (_ <? be_get _); [|done]. destruct (Z.eqb_spec (zlen (rd_avail
      (rd_seek (ds_r s) (rd_pos (ds_r s) + (4 + NonceSize))))) 0) as [->|]; [lia|done].
  - intros [= <- ->]. left. revert H1. unfold ReadFull. destruct (_ <? _); [|done].
    destruct (Z.eqb_spec (zlen (rd_avail (ds_r s))) 0) as [Hz|]; [|done].
    intros _. apply zlen_nil_inv. lia.
Qed.

Lemma copy_all_authentic fuel s n acc out err :
  aes_key_ok (ds_key s) = true -> 0 <= rd_pos (ds_r s) -> 0 < n ->
  Forall is_byte (rd_avail (ds_r s)) ->
  copy_all fuel s n acc = Some (out, err) ->
  exists fs tl, rd_avail (ds_r s) = concat (frame (ds_key s) <$> fs) ++ tl /\
    Forall frame_ok fs /\ out = acc ++ ds_buf s ++ concat (snd <$> fs) /\
    (err = None -> tl = [] \/ zlen tl = 4 + NonceSize).
Proof.
  revert s acc. induction fuel as [|f IH]; intros s acc Hk Hp Hn Hby; [done|].
  cbn [copy_all]. unfold dec_read. destruct (Z.eqb_spec n 0); [lia|].
  destruct (Z.ltb_spec 0 (zlen (ds_buf s))) as [Hb|Hb].
  - intros Hc. destruct (IH (with_buf s (zdrop n (ds_buf s))) _ Hk Hp Hn Hby Hc)
      as (fs & tl & Hav & Hfs & -> & He).
    exists fs, tl. split; [done|]. split; [done|]. split; [|done]. cbn [with_buf ds_buf].
    by rewrite <- app_assoc, (app_assoc (ztake n (ds_buf s))), ztake_zdrop.
  - rewrite (zlen_nil_inv _ Hb). destruct (next_chunk s) as [s1 [p|e]] eqn:Hnc.
    + destruct (next_chunk_frame _ _ _ Hk Hp Hby Hnc) as (nonce & Hok & Hav).
      destruct (next_chunk_ok_inv _ _ _ Hk Hp Hnc) as (_ & _ & _ & _ & _ & Hk1 & Hb1 & Hp1).
      assert (Forall is_byte (rd_avail (ds_r s1))) as Hby1
        by (rewrite Hav in Hby; by apply Forall_app in Hby as [_ ?]).
      rewrite Hb1, (zlen_nil_inv _ Hb). intros Hc.
      edestruct (fun b => IH (with_buf s1 b) (acc ++ ztake n p)) as (fs & tl & Hav1 & Hfs & -> & He);
        [by cbn; rewrite Hk1|exact Hp1|done|exact Hby1|exact Hc|].
      exists ((nonce, p) :: fs), tl. cbn [with_buf ds_buf ds_key ds_r] in *.
      rewrite Hk1 in Hav1. split.
      { rewrite Hav, Hav1. cbn [fmap list_fmap concat]. by rewrite app_assoc. }
      split; [by constructor|]. split; [|done].
      cbn [fmap list_fmap concat snd app]. rewrite <- app_assoc. f_equal.
      destruct (Z.ltb_spec n (zlen p)).
      * by rewrite app_assoc, ztake_zdrop.
      * by rewrite ztake_all by lia.
    + intros Hc. exists [], (rd_avail (ds_r s)). split; [done|]. split; [done|].
      destruct e; injection Hc as <- <-; (split; [done|]); [|done..].
      intros _. by apply next_chunk_eof in Hnc.
Qed.

End Facts.
