(* ===== verification/CryptoStreamProps.v ===== *)
(** * What the encryption streams guarantee

    The properties of internal/crypto/stream.go, with witnesses computed over
    the toy cryptographic primitives. *)

From S2P Require Import Prelude CryptoPrims CryptoStream CryptoStreamFacts.

#[local] Open Scope Z_scope.

Section Props.
Context `{CryptoLaws}.

(** ** The abstract reader

    What an [io.Reader] over a byte sequence promises: a read of [n] bytes
    returns a non-empty prefix of what is left, of at most [n] bytes, and
    io.EOF once nothing is left. *)
Inductive abs_read : bytes -> Z -> bytes * option gerror -> bytes -> Prop :=
| abs_read_some b rest n :
    b <> [] -> zlen b <= n -> abs_read (b ++ rest) n (b, None) rest
| abs_read_eof n : abs_read [] n ([], Some EOF) [].

Inductive abs_reads : bytes -> list Z -> list (bytes * option gerror) -> bytes -> Prop :=
| abs_reads_nil rest : abs_reads rest [] [] rest
| abs_reads_cons rest n o rest1 ns os rest2 :
    abs_read rest n o rest1 -> abs_reads rest1 ns os rest2 ->
    abs_reads rest (n :: ns) (o :: os) rest2.

(** Successive reads of a decrypting stream, with the sizes the caller asks. *)
Fixpoint dec_reads (s : DecryptStream) (ns : list Z)
  : DecryptStream * list (bytes * option gerror) :=
  match ns with
  | [] => (s, [])
  | n :: ns' =>
      let '(s1, o) := dec_read s n in
      let '(s2, os) := dec_reads s1 ns' in (s2, o :: os)
  end.

Lemma dec_read_refines s rest n s' o :
  stream_at s rest -> 0 < n -> dec_read s n = (s', o) ->
  exists rest', abs_read rest n o rest' /\ stream_at s' rest'.
Proof.
  intros Hs Hn Hr. pose proof (dec_read_stream s rest n Hs Hn) as Hd.
  rewrite Hr in Hd. destruct o as [b [e|]].
  - destruct Hd as (-> & -> & -> & Hs'). exists []. split; [constructor|done].
  - destruct Hd as (Hb & Hle & Hrest & Hs'). eexists. split; [|exact Hs'].
    rewrite Hrest at 1. by constructor.
Qed.

(** C3: [DecryptStream] over the output of [EncryptStream] is an
    [io.Reader] of the plaintext: whatever sizes a caller reads with, each
    result is one the abstract reader over the concatenated payloads allows. *)
Theorem decrypt_stream_refines_reader s rest ns s' os :
  stream_at s rest -> Forall (fun n => 0 < n) ns ->
  dec_reads s ns = (s', os) ->
  exists rest', abs_reads rest ns os rest' /\ stream_at s' rest'.
Proof.
  intros Hs Hns. revert s rest os Hs. induction Hns as [|n ns Hn _ IH]; intros s rest os Hs.
  { intros [= <- <-]. exists rest. split; [constructor|done]. }
  cbn [dec_reads]. destruct (dec_read s n) as [s1 o] eqn:Hr.
  destruct (dec_reads s1 ns) as [s2 os2] eqn:Hrs. intros [= <- <-].
  destruct (dec_read_refines _ _ _ _ _ Hs Hn Hr) as (rest1 & Ho & Hs1).
  destruct (IH _ _ _ Hs1 Hrs) as (rest2 & Hos & Hs2).
  exists rest2. split; [by econstructor|done].
Qed.

(** round trip.  Whatever non-empty or empty payloads are written (each
    within the reader's 50 MiB limit) and whatever the buffer size of the
    copy, decrypting the produced file returns their concatenation and ends
    without an error, on all three kinds of readers. *)
Theorem stream_roundtrip key ps kind n fuel :
  aes_key_ok key = true ->
  Forall (fun p => zlen p + TagSize <= MaxChunkSize) ps ->
  0 < n -> (length (concat ps) < fuel)%nat ->
  exists es, enc_writes append_write (mkEnc [] key) ps = (es, None) /\
    exists ds, NewDecryptStream (mkReader kind (es_w es) 0) key = Ok ds /\
      copy_all fuel ds n [] = Some (concat ps, None).
Proof.
  intros Hk Hps Hn Hf. eexists. rewrite enc_writes_append. split; [done|].
  unfold NewDecryptStream. rewrite Hk. eexists. split; [done|].
  assert (concat ps = concat (filter (.≠ []) ps)) as Hc.
  { clear. induction ps as [|p ps IH]; [done|]. destruct (decide (p = [])) as [->|Hp].
    - rewrite filter_cons_False by (by intros Hn). done.
    - rewrite filter_cons_True by done. simpl. by rewrite <- IH. }
  rewrite Hc in *. cbn [es_w app].
  apply (copy_all_stream _ _ _ n []); [|done|done].
  apply stream_at_encode; [done|]. rewrite Forall_forall in *.
  intros p [Hne Hin]%list_elem_of_filter. split; [done|]. by apply Hps.
Qed.

(** seeking a reader that implements io.ReadSeeker but not io.ReaderAt.
    From any position, SeekTo stands exactly at the requested plaintext
    offset, and past the end it reports io.EOF. *)
Theorem seek_to_readseeker s cs offset :
  aes_key_ok (ds_key s) = true -> Forall good_chunk cs ->
  rd_kind (ds_r s) = SeekReader -> rd_data (ds_r s) = encode (ds_key s) cs ->
  0 <= offset ->
  exists s', SeekTo s offset
      = Some (s', if zlen (concat cs) <? offset then Some EOF else None) /\
    stream_at s' (zdrop offset (concat cs)).
Proof.
  intros Hk Hcs Hkind Hd Ho. unfold SeekTo. destruct (Z.ltb_spec offset 0); [lia|].
  rewrite Hkind. set (s1 := with_reader _ _).
  assert (rd_avail (ds_r s1) = encode (ds_key s1) cs) as Hav by done.
  destruct (seek_loop_stream cs (seek_fuel s1) s1 offset 0) as (s' & Hrun & Hs'); try done.
  { pose proof (length_encode_ge (ds_key s) cs Hk). pose proof (seek_fuel_enough s1) as Hf.
    cbn in Hf. rewrite Hd in Hf. zlen_solve. unfold zlen in *. lia. }
  rewrite Z.sub_0_r in *. destruct (Z.eqb_spec offset 0) as [->|_]; [|by exists s'].
  exists s1. split.
  - destruct (Z.ltb_spec (zlen (concat cs)) 0); [zlen_solve|done].
  - split; [done|]. split; [done|]. by exists cs.
Qed.

(** seeking an [os.File] (ReadSeeker and ReaderAt) to an offset that is
    strictly inside a chunk, or 0: SeekTo stands at the offset. *)
Theorem seek_to_readerat_interior s cs offset :
  aes_key_ok (ds_key s) = true -> Forall good_chunk cs ->
  rd_kind (ds_r s) = SeekAtReader -> rd_data (ds_r s) = encode (ds_key s) cs ->
  0 <= offset <= zlen (concat cs) -> offset = 0 \/ at_boundary cs offset = false ->
  exists s', SeekTo s offset = Some (s', None) /\ stream_at s' (zdrop offset (concat cs)).
Proof.
  intros Hk Hcs Hkind Hd Ho Hb. unfold SeekTo. destruct (Z.ltb_spec offset 0); [lia|].
  rewrite Hkind. set (s1 := with_reader _ _).
  destruct (seek_at_loop_stream cs [] (seek_fuel s1) s1 offset 0) as (s' & Hrun & _ & Hi);
    try done; try lia.
  { pose proof (length_encode_ge (ds_key s) cs Hk). pose proof (seek_fuel_enough s1) as Hf.
    cbn in Hf. rewrite Hd in Hf. unfold zlen in *. lia. }
  rewrite Z.sub_0_r in *. destruct (Z.eqb_spec offset 0) as [->|Hne].
  - exists s1. split; [done|]. split; [done|]. split; [done|]. by exists cs.
  - exists s'. change (zlen []) with 0 in Hrun. rewrite Hrun.
    destruct (Z.ltb_spec (zlen (concat cs)) offset); [lia|].
    split; [done|]. apply Hi; [lia|]. by destruct Hb.
Qed.

(** the same file, an offset that is the end of a chunk: SeekTo
    succeeds, and the stream then reads the file from its very beginning
    instead of from the offset. *)
Theorem seek_to_readerat_boundary_rewinds s cs offset :
  aes_key_ok (ds_key s) = true -> Forall good_chunk cs ->
  rd_kind (ds_r s) = SeekAtReader -> rd_data (ds_r s) = encode (ds_key s) cs ->
  0 < offset <= zlen (concat cs) -> at_boundary cs offset = true ->
  exists s', SeekTo s offset = Some (s', None) /\ stream_at s' (concat cs) /\
    concat cs <> zdrop offset (concat cs).
Proof.
  intros Hk Hcs Hkind Hd Ho Hb. unfold SeekTo. destruct (Z.ltb_spec offset 0); [lia|].
  rewrite Hkind. destruct (Z.eqb_spec offset 0); [lia|]. set (s1 := with_reader _ _).
  destruct (seek_at_loop_stream cs [] (seek_fuel s1) s1 offset 0) as (s' & Hrun & Hbd & _);
    try done; try lia.
  { pose proof (length_encode_ge (ds_key s) cs Hk). pose proof (seek_fuel_enough s1) as Hf.
    cbn in Hf. rewrite Hd in Hf. unfold zlen in *. lia. }
  rewrite Z.sub_0_r in *. change (zlen []) with 0 in Hrun. rewrite Hrun.
  rewrite (Hbd Hb). exists s1. destruct (Z.ltb_spec (zlen (concat cs)) offset); [lia|].
  split; [done|]. split.
  - split; [done|]. split; [done|]. by exists cs.
  - intros Heq. apply (f_equal zlen) in Heq. rewrite zlen_zdrop in Heq. lia.
Qed.

(** C4: authenticity.  On any bytes at all, what a copy delivers before it
    stops is the concatenation of payloads sealed under the stream's key in
    whole frames at the start of the data; when it stops without an error,
    nothing but a bare 16-byte header can follow those frames. *)
Theorem copy_is_authentic key kind data n fuel out err :
  aes_key_ok key = true -> Forall is_byte data -> 0 < n ->
  copy_all fuel (mkDec (mkReader kind data 0) key []) n [] = Some (out, err) ->
  exists fs tl, data = concat (frame key <$> fs) ++ tl /\ Forall frame_ok fs /\
    out = concat (snd <$> fs) /\
    (err = None -> tl = [] \/ zlen tl = 4 + NonceSize).
Proof.
  intros Hk Hby Hn Hc.
  apply copy_all_authentic in Hc as (fs & tl & Hav & Hfs & Hout & He); try done.
  by exists fs, tl.
Qed.

(** a file cut right after a frame header reads as complete: the copy
    delivers the leading chunks and reports no error. *)
Theorem truncation_after_header_is_silent key kind cs c n fuel :
  aes_key_ok key = true -> Forall good_chunk cs -> good_chunk c -> 0 < n ->
  (length (concat cs) < fuel)%nat ->
  copy_all fuel (mkDec (mkReader kind (encode key cs ++ ztake 16 (packet key c)) 0) key [])
    n [] = Some (concat cs, None).
Proof.
  intros Hk Hcs Hc Hn Hf. destruct (header_split key c Hc) as (Hlen & Hget & _).
  rewrite packet_good, (ztake_app_eq 16) by done.
  apply (copy_all_before (be_put 4 (zlen c + TagSize) ++ chunk_nonce key c) fuel _ _ n []);
    [|split; [done|]; split; [done|]; by exists cs|done|done].
  right. split; [done|]. rewrite Hget. by apply good_chunk_len_ok.
Qed.

(** termination.  On any data and any offset, SeekTo returns. *)
Theorem seek_to_terminates s offset :
  aes_key_ok (ds_key s) = true -> 0 <= rd_pos (ds_r s) -> is_Some (SeekTo s offset).
Proof.
  intros Hk Hp. unfold SeekTo. destruct (offset <? 0); [done|].
  pose proof (seek_fuel_enough s) as Hf. pose proof (zlen_nonneg (ds_buf s)).
  pose proof (zlen_zdrop_le (rd_pos (ds_r s)) (rd_data (ds_r s))).
  destruct (rd_kind (ds_r s)); destruct (offset =? 0); try done.
  - apply copyn_discard_total; try done. unfold stream_measure, seek_fuel in *.
    cbn [with_buf ds_buf ds_r] in *. change (zlen []) with 0. unfold rd_avail.
    unfold zlen in *. simpl. lia.
  - apply seek_loop_total; [done|]. change (rd_avail _) with (rd_data (ds_r s)).
    unfold seek_fuel, zlen in *. cbn. lia.
  - apply seek_at_loop_total; [done|]. rewrite zdrop_0. cbn [with_buf with_reader ds_r rd_seek rd_data].
    unfold seek_fuel, zlen in *. cbn. lia.
Qed.

End Props.

(** ** Witnesses

    A 32-byte key, three payloads and the toy primitives. *)

Section Witnesses.
Import ToyCrypto.

Definition toy_key : bytes := replicate 32 7.
Definition toy_chunks : list bytes := [[104; 111; 114]; [110; 101]; [116; 122; 33; 10]].
Definition toy_stream (kind : rkind) : DecryptStream :=
  mkDec (mkReader kind (encode toy_key toy_chunks) 0) toy_key [].

Lemma toy_chunks_good : Forall good_chunk toy_chunks.
Proof. repeat constructor; try done; vm_compute; discriminate. Qed.

Lemma toy_stream_at kind : stream_at (toy_stream kind) (concat toy_chunks).
Proof. split; [done|]. split; [done|]. exists toy_chunks. split; [apply toy_chunks_good|done]. Qed.

Lemma decrypt_stream_refines_reader_witness :
  exists rest', abs_reads (concat toy_chunks) [2; 8; 3; 9; 1]
    [([104; 111], None); ([114], None); ([110; 101], None); ([116; 122; 33; 10], None);
     ([], Some EOF)] rest'.
Proof.
  destruct (decrypt_stream_refines_reader (toy_stream PlainReader) (concat toy_chunks)
    [2; 8; 3; 9; 1] (mkDec (mkReader PlainReader (encode toy_key toy_chunks) 105) toy_key [])
    [([104; 111], None); ([114], None); ([110; 101], None); ([116; 122; 33; 10], None);
     ([], Some EOF)]) as (rest' & H & _).
  - apply toy_stream_at.
  - repeat constructor.
  - vm_compute. reflexivity.
  - by exists rest'.
Defined.

Lemma stream_roundtrip_witness :
  exists es, enc_writes append_write (mkEnc [] toy_key) toy_chunks = (es, None) /\
    exists ds, NewDecryptStream (mkReader PlainReader (es_w es) 0) toy_key = Ok ds /\
      copy_all 10 ds 4 [] = Some (concat toy_chunks, None).
Proof.
  apply (stream_roundtrip toy_key toy_chunks PlainReader 4 10);
    [done| |lia|vm_compute; lia].
  repeat constructor; vm_compute; discriminate.
Defined.

Lemma seek_to_readseeker_witness :
  exists s', SeekTo (toy_stream SeekReader) 3 = Some (s', None) /\
    stream_at s' [110; 101; 116; 122; 33; 10].
Proof.
  apply (seek_to_readseeker (toy_stream SeekReader) toy_chunks 3);
    [done|apply toy_chunks_good|done|done|lia].
Defined.

Lemma seek_to_readerat_interior_witness :
  exists s', SeekTo (toy_stream SeekAtReader) 4 = Some (s', None) /\
    stream_at s' [101; 116; 122; 33; 10].
Proof.
  apply (seek_to_readerat_interior (toy_stream SeekAtReader) toy_chunks 4);
    [done|apply toy_chunks_good|done|done|vm_compute; split; discriminate|by right].
Defined.

Lemma seek_to_readerat_boundary_rewinds_witness :
  exists s', SeekTo (toy_stream SeekAtReader) 3 = Some (s', None) /\
    stream_at s' (concat toy_chunks) /\ concat toy_chunks <> zdrop 3 (concat toy_chunks).
Proof.
  apply (seek_to_readerat_boundary_rewinds (toy_stream SeekAtReader) toy_chunks 3);
    [done|apply toy_chunks_good|done|done|vm_compute; split; done|done].
Defined.

Lemma copy_is_authentic_witness :
  exists fs tl, encode toy_key toy_chunks = concat (frame toy_key <$> fs) ++ tl /\
    Forall frame_ok fs /\ concat toy_chunks = concat (snd <$> fs) /\
    (@None gerror = None -> tl = [] \/ zlen tl = 4 + NonceSize).
Proof.
  apply (copy_is_authentic toy_key PlainReader (encode toy_key toy_chunks) 4 10);
    [done|by apply all_bytes_ok|done|by vm_compute].
Defined.

Lemma truncation_after_header_is_silent_witness :
  copy_all 10 (mkDec (mkReader SeekAtReader
    (encode toy_key toy_chunks ++ ztake 16 (packet toy_key [9; 8; 7])) 0) toy_key [])
    4 [] = Some (concat toy_chunks, None).
Proof.
  apply (truncation_after_header_is_silent toy_key SeekAtReader toy_chunks [9; 8; 7] 4 10);
    [done|apply toy_chunks_good| |lia|vm_compute; lia].
  split; [done|vm_compute; discriminate].
Defined.

Lemma seek_to_terminates_witness : is_Some (SeekTo (toy_stream SeekAtReader) 7).
Proof. apply (seek_to_terminates (toy_stream SeekAtReader) 7); done. Defined.

End Witnesses.
