(* ===== verification/CryptoVault.v ===== *)
(** * Block encryption and the storage key
    (internal/crypto/vault.go, storage_key.go)

    Vault keys are wrapped with [EncryptBlock]; files outside the vault are
    encrypted under the standard storage key, which is derived from the
    configuration or kept in a file. *)

From S2P Require Import Prelude GoStrings CryptoPrims FileSys.

#[local] Open Scope Z_scope.

Section Vault.
Context `{CryptoPrims}.

(** ** vault.go *)

Definition DeriveMEK (password salt : bytes) : bytes := argon2_idkey password salt.

(** [subtle.ConstantTimeCompare] is 1 exactly on equal contents. *)
Definition VerifyPassword (password salt expectedHash : bytes) : bool :=
  bool_decide (DeriveMEK password salt = expectedHash).

Definition err_key_size : gerror := ErrMsg "crypto/aes: invalid key size".
Definition err_too_short : gerror := ErrMsg "data too short".
Definition err_open : gerror := ErrMsg "cipher: message authentication failed".

(** [rand] is what reading [NonceSize] bytes of rand.Reader gives. *)
Definition EncryptBlock (rand : result bytes) (data key : bytes) : result bytes :=
  if aes_key_ok key then
    match rand with
    | Ok nonce => Ok (nonce ++ gcm_seal key nonce data)
    | Err e => Err e
    end
  else Err err_key_size.

Definition DecryptBlock (data key : bytes) : result bytes :=
  if zlen data <? NonceSize + TagSize then Err err_too_short
  else
    let nonce := ztake NonceSize data in
    let ciphertext := zdrop NonceSize data in
    if aes_key_ok key then
      match gcm_open key nonce ciphertext with
      | Some plain => Ok plain
      | None => Err err_open
      end
    else Err err_key_size.

(** ** storage_key.go

    The package variable [standardKey]; [None] is the nil slice.  Keys are
    copied on every way in and out, so the model shares nothing. *)
Definition master_key_path (storageDir : string) : string :=
  Join [storageDir; ".master_key"%string].

Definition InitStandardStorageKey (env : os_env) (rand : result bytes)
    (standardKey : option bytes) (fs : FS) (configuredKey storageDir : string)
  : option bytes * FS * result bytes :=
  if negb (String.eqb configuredKey "") then
    let k := sha256 (bytes_of_string configuredKey) in (Some k, fs, Ok k)
  else
    let dir := if String.eqb storageDir "" then "storage"%string else storageDir in
    let keyPath := master_key_path dir in
    let generate :=
      match rand with
      | Err _ =>
          (standardKey, fs,
           Err (ErrMsg "failed to generate secure random master key: "))
      | Ok newKey =>
          let '(fs', _) := fs_write env fs keyPath newKey in
          (Some newKey, fs', Ok newKey)
      end in
    match fs_read env fs keyPath with
    | Ok data => if zlen data =? 32 then (Some data, fs, Ok data) else generate
    | Err _ => generate
    end.

(** [defaultInitOnce] is the boolean: has the default initialisation run. *)
Definition GetStandardStorageKey (env : os_env) (rand : result bytes)
    (standardKey : option bytes) (once : bool) (fs : FS)
  : option bytes * bool * FS * option bytes :=
  if match standardKey with Some k => zlen k =? 32 | None => false end
  then (standardKey, once, fs, standardKey)
  else if once then (standardKey, once, fs, standardKey)
  else
    let '(k', fs', _) := InitStandardStorageKey env rand standardKey fs "" "storage" in
    (k', true, fs', k').

Definition LegacyStorageKey : bytes := bytes_of_string "0123456789abcdef0123456789abcdef".

End Vault.

(** ** Properties *)

Section VaultProps.
Context `{CryptoLaws}.

(** wrapping a vault key.  What [EncryptBlock] produces under a
    key of AES size, for any plaintext and nonce, [DecryptBlock] opens to the
    same plaintext; and whatever [DecryptBlock] accepts is exactly a block
    [EncryptBlock] would produce for that plaintext with the nonce it
    carries, so any modified block is an error. *)
Theorem block_roundtrip key :
  aes_key_ok key = true ->
  (forall nonce data, zlen nonce = NonceSize ->
    exists blk, EncryptBlock (Ok nonce) data key = Ok blk /\ DecryptBlock blk key = Ok data) /\
  (forall blk data, DecryptBlock blk key = Ok data ->
    EncryptBlock (Ok (ztake NonceSize blk)) data key = Ok blk).
Proof.
  intros Hk. unfold EncryptBlock, DecryptBlock. rewrite Hk. split.
  - intros nonce data Hn. eexists. split; [done|].
    rewrite zlen_app, Hn, gcm_seal_len by done.
    destruct (Z.ltb_spec (NonceSize + (zlen data + TagSize)) (NonceSize + TagSize));
      [zlen_solve|].
    by rewrite ztake_app_eq, zdrop_app_eq, gcm_open_seal by done.
  - intros blk data. destruct (Z.ltb_spec (zlen blk) (NonceSize + TagSize)); [done|].
    destruct (gcm_open _ _ _) as [p|] eqn:Ho; [|done]. intros [= ->].
    apply gcm_open_inv in Ho; [|done|].
    + by rewrite <- Ho, ztake_zdrop.
    + rewrite zlen_ztake. unfold NonceSize, TagSize in *. lia.
Qed.

(** the storage key survives a restart.  When initialisation without a
    configured key returns a key and its file could be written, the key has
    32 bytes, is the one in memory, and every later initialisation that can
    read the file, whatever the memory and the randomness, and every
    [GetStandardStorageKey] until then, returns it and changes nothing. *)
Theorem storage_key_stable env rand sk fs dir sk1 fs1 k :
  create_ok env = true -> copy_fails env = None ->
  (forall b, rand = Ok b -> zlen b = 32) ->
  InitStandardStorageKey env rand sk fs "" dir = (sk1, fs1, Ok k) ->
  zlen k = 32 /\ sk1 = Some k /\
  (forall env2 rand2 sk2, read_ok env2 = true ->
    InitStandardStorageKey env2 rand2 sk2 fs1 "" dir = (Some k, fs1, Ok k)) /\
  (forall env2 rand2 once fs2,
    GetStandardStorageKey env2 rand2 sk1 once fs2 = (Some k, once, fs2, Some k)).
Proof.
  intros Hc Hw Hrand. unfold InitStandardStorageKey, GetStandardStorageKey. cbn [negb String.eqb].
  set (kp := master_key_path _). intros Hinit.
  assert (zlen k = 32 /\ sk1 = Some k /\ fs_data fs1 kp = Some k) as (Hl & -> & Hf).
  { unfold fs_write in Hinit. rewrite Hc, Hw in Hinit.
    assert (forall nk, zlen nk = 32 -> (Some nk, <[kp := mkFile nk (env_now env)]> fs, Ok nk)
      = (sk1, fs1, Ok k) -> zlen k = 32 /\ sk1 = Some k /\ fs_data fs1 kp = Some k) as Hgen.
    { intros nk Hnk [= <- <- <-]. unfold fs_data. by rewrite lookup_insert_eq. }
    destruct (fs_read env fs kp) as [d|] eqn:Hr.
    - destruct (Z.eqb_spec (zlen d) 32).
      + injection Hinit as <- <- <-. apply fs_read_ok in Hr as (f & Hf & <-).
        unfold fs_data. by rewrite Hf.
      + destruct rand as [nk|]; [|done]. by apply (Hgen nk); [apply Hrand|].
    - destruct rand as [nk|]; [|done]. by apply (Hgen nk); [apply Hrand|]. }
  split; [done|]. split; [done|]. split.
  - intros env2 rand2 sk2 Hread. unfold fs_read.
    unfold fs_data in Hf. destruct (fs1 !! kp) as [f|]; [|done]. injection Hf as Hf.
    rewrite Hread, Hf, Hl. done.
  - intros. by rewrite Hl.
Qed.

(** A read error other than a missing file is treated like one: the key on
    disk is replaced by a fresh one. *)
Lemma storage_key_replaced_on_read_error env rand sk fs dir old new :
  fs_data fs (master_key_path (if String.eqb dir "" then "storage" else dir)) = Some old ->
  read_ok env = false -> create_ok env = true -> copy_fails env = None -> rand = Ok new ->
  exists fs1, InitStandardStorageKey env rand sk fs "" dir = (Some new, fs1, Ok new) /\
    fs_data fs1 (master_key_path (if String.eqb dir "" then "storage" else dir)) = Some new.
Proof.
  intros Hold Hr Hc Hw ->. unfold InitStandardStorageKey. cbn [negb String.eqb].
  set (kp := master_key_path _) in *. unfold fs_read, fs_data in *.
  destruct (fs !! kp) as [f|]; [|done]. rewrite Hr. unfold fs_write. rewrite Hc, Hw.
  eexists. split; [done|]. by rewrite lookup_insert_eq.
Qed.

End VaultProps.

(** ** Witnesses *)

Section VaultWitnesses.
Import ToyCrypto.

Lemma block_roundtrip_witness :
  exists blk, EncryptBlock (Ok (replicate 12 5)) [1; 2; 3] (replicate 32 7) = Ok blk /\
    DecryptBlock blk (replicate 32 7) = Ok [1; 2; 3].
Proof. by apply (block_roundtrip (replicate 32 7)). Defined.

Lemma storage_key_stable_witness :
  zlen (replicate 32 9) = 32.
Proof.
  apply (storage_key_stable (env_fine 0) (Ok (replicate 32 9)) None ∅ "data"
    (Some (replicate 32 9)) {["data/.master_key"%string := mkFile (replicate 32 9) 0]}
    (replicate 32 9)); [done|done| |vm_compute; reflexivity].
  by intros b [= <-].
Defined.

End VaultWitnesses.
