(* ===== verification/CAS.v ===== *)
(** * Content-addressed storage (internal/storage/cas.go, shuffler.go)

    Blobs live at BaseDir/ab/cd/<hash>.  The engine keeps an in-memory cache
    of the hashes it has seen on disk; [cas_inv] says what ties the three
    together and every operation of the engine is shown to preserve it. *)

From S2P Require Import Prelude GoStrings FileSys CryptoPrims.

#[local] Open Scope string_scope.
#[local] Open Scope Z_scope.

Section CAS.
Context `{CryptoPrims}.

Record CASEngine := mkCAS { BaseDir : string; existCache : gset string }.

Definition NewCASEngine (env : os_env) (baseDir : string) : result CASEngine :=
  if mkdir_ok env then Ok (mkCAS baseDir ∅) else Err (err_os "mkdir").

Definition is_hex_char (c : Ascii.ascii) : bool :=
  ascii_in "0" "9" c || ascii_in "a" "f" c || ascii_in "A" "F" c.

Definition IsValidHash (hash : string) : bool :=
  (slen hash =? 64) && string_forallb is_hex_char hash.

(** BaseDir with the separator [Path] adds unless it is empty or ends in one. *)
Definition base_prefix (base : string) : string :=
  match base with
  | "" => ""
  | _ => if HasSuffix base "/" then base else base +:+ "/"
  end.

Definition hash_dirs (hash : string) : string :=
  slice hash 0 2 +:+ "/" +:+ slice hash 2 4 +:+ "/" +:+ hash.

Definition Path (c : CASEngine) (hash : string) : string :=
  if IsValidHash hash then base_prefix (BaseDir c) +:+ hash_dirs hash
  else Join [BaseDir c; "invalid_hash"].

Definition set_cache (c : CASEngine) (s : gset string) : CASEngine := mkCAS (BaseDir c) s.

Definition Exists (c : CASEngine) (fs : FS) (hash : string) : CASEngine * bool :=
  if negb (IsValidHash hash) then (c, false)
  else if bool_decide (hash ∈ existCache c) then (c, true)
  else if fs_exists fs (Path c hash) then (set_cache c ({[hash]} ∪ existCache c), true)
  else (c, false).

Definition Invalidate (c : CASEngine) (hash : string) : CASEngine :=
  set_cache c (existCache c ∖ {[hash]}).

Definition ClearCache (c : CASEngine) : CASEngine := set_cache c ∅.

(** The hash of a file's contents, as the engine names it. *)
Definition content_hash (b : bytes) : string := EncodeToString (sha256 b).

Definition ComputeHash (env : os_env) (fs : FS) (filePath : string) : result string :=
  match fs_read env fs filePath with
  | Ok b => Ok (content_hash b)
  | Err e => Err e
  end.

(** The fallback for a rename across devices: copy, then remove. *)
Definition copy_across (env : os_env) (fs : FS) (tempPath destPath : string)
  : FS * option gerror :=
  match fs !! tempPath with
  | None => (fs, Some (err_os "rename"))
  | Some f =>
      if create_ok env then
        match copy_fails env with
        | Some n =>
            (fs_remove env (<[destPath := mkFile (ztake n (f_data f)) (env_now env)]> fs) destPath,
             Some (err_os "copy"))
        | None =>
            (* the errors of Sync and Close are ignored *)
            let kept := match flush_fails env with Some n => ztake n (f_data f) | None => f_data f end in
            (fs_remove env (<[destPath := mkFile kept (env_now env)]> fs) tempPath, None)
        end
      else (fs, Some (err_os "rename"))
  end.

Definition MoveToCASWithStatus (env : os_env) (c : CASEngine) (fs : FS) (tempPath : string)
  : CASEngine * FS * result (string * bool) :=
  match ComputeHash env fs tempPath with
  | Err e => (c, fs, Err e)
  | Ok hash =>
      let destPath := Path c hash in
      let '(c1, present) := Exists c fs hash in
      if present then (c1, fs_remove env fs tempPath, Ok (hash, true))
      else if negb (mkdir_ok env) then (c1, fs, Err (err_os "mkdir"))
      else
        let '(fs1, err) :=
          match fs_rename env fs tempPath destPath with
          | Some fs1 => (fs1, None)
          | None => copy_across env fs tempPath destPath
          end in
        match err with
        | Some e => (c1, fs1, Err e)
        | None => (set_cache c1 ({[hash]} ∪ existCache c1), fs1, Ok (hash, false))
        end
  end.

Definition MoveToCAS (env : os_env) (c : CASEngine) (fs : FS) (tempPath : string)
  : CASEngine * FS * result string :=
  let '(c1, fs1, r) := MoveToCASWithStatus env c fs tempPath in
  (c1, fs1, match r with Ok (hash, _) => Ok hash | Err e => Err e end).

(** TotalCapacity picks the directory it asks the operating system about;
    [statfs] and [stat_dir] are the system calls. *)
Definition TotalCapacity (stat_dir : string -> bool) (parent : string -> string)
    (statfs : string -> result Z) (c : CASEngine) : result Z :=
  let dir := if String.eqb (BaseDir c) "" then "." else BaseDir c in
  let dir := if stat_dir dir then dir
             else if stat_dir (parent dir) then parent dir else "." in
  statfs dir.

(** ** shuffler.go *)

(** The jitter in seconds from eight random bytes read as a uint64. *)
Definition jitter_secs (r : Z) : Z := 3600 + u64 r mod (7 * 24 * 3600 - 3600).

(** [rnd] is the random number drawn for each file; [chtimes] says whether
    its [os.Chtimes] succeeds. *)
Definition ShufflePaths (now : Z) (rnd : string -> Z) (chtimes : string -> bool)
    (cas : option CASEngine) (fs : FS) : FS :=
  match cas with
  | None => fs
  | Some c =>
      if String.eqb (BaseDir c) "" then fs
      else
        map_imap (fun path f =>
          Some (if HasPrefix path (base_prefix (BaseDir c)) && chtimes path
                then mkFile (f_data f) (now - jitter_secs (rnd path) * 1000000000)
                else f)) fs
  end.

(** ** The invariant *)

(** Every blob under a hash has that hash, and every cached hash is on disk. *)
Definition cas_inv (c : CASEngine) (fs : FS) : Prop :=
  (forall h f, IsValidHash h = true -> fs !! Path c h = Some f -> content_hash (f_data f) = h) /\
  (forall h, h ∈ existCache c -> IsValidHash h = true /\ is_Some (fs !! Path c h)).

(** A path the engine does not use for blobs. *)
Definition outside_cas (c : CASEngine) (p : string) : Prop :=
  forall h, IsValidHash h = true -> p <> Path c h.

End CAS.

(** ** Lemmas *)

Section CASFacts.
Context `{CryptoLaws}.

Lemma slice_len s i j :
  (i <= j <= String.length s)%nat -> String.length (slice s i j) = (j - i)%nat.
Proof.
  unfold slice. revert i j. induction s as [|a s IH]; intros i j Hij; simpl in *.
  { by assert (i = 0%nat /\ j = 0%nat) as [-> ->] by lia. }
  destruct i as [|i].
  - destruct j as [|j]; [done|]. simpl. f_equal. specialize (IH 0%nat j ltac:(lia)).
    rewrite Nat.sub_0_r in IH. rewrite IH. lia.
  - destruct j as [|j]; [lia|]. simpl. apply IH. lia.
Qed.

Lemma slice_forallb p s i j : string_forallb p s = true -> string_forallb p (slice s i j) = true.
Proof.
  unfold slice. generalize (j - i)%nat as n. revert i.
  induction s as [|a s IH]; intros i n Hs; [by destruct i, n|].
  cbn in Hs. apply andb_true_iff in Hs as [Ha Hs].
  destruct i as [|i]; [|by apply IH]. destruct n as [|n]; [done|].
  simpl. rewrite Ha. by apply IH.
Qed.

Lemma hash_dirs_inj h1 h2 :
  slen h1 = 64 -> slen h2 = 64 -> hash_dirs h1 = hash_dirs h2 -> h1 = h2.
Proof.
  unfold hash_dirs, slen. intros H1 H2 He.
  assert (forall a b u v : string, String.length a = String.length b -> a +:+ u = b +:+ v -> u = v) as Hinj.
  { induction a as [|x a IH]; intros [|y b] u v; try done. intros [= Hl] [= -> Hr]. by eapply IH. }
  apply Hinj in He; [|rewrite !slice_len by lia; done].
  apply Hinj in He; [|done]. apply Hinj in He; [|rewrite !slice_len by lia; done].
  by apply Hinj in He.
Qed.

Lemma IsValidHash_len h : IsValidHash h = true -> slen h = 64.
Proof. unfold IsValidHash. intros [Hl _]%andb_true_iff. lia. Qed.

Lemma Path_inj c h1 h2 :
  IsValidHash h1 = true -> IsValidHash h2 = true -> Path c h1 = Path c h2 -> h1 = h2.
Proof.
  intros H1 H2. unfold Path. rewrite H1, H2. intros He%app_inj_r.
  apply hash_dirs_inj; auto using IsValidHash_len.
Qed.

Lemma Path_set_cache c s h : Path (set_cache c s) h = Path c h.
Proof. done. Qed.

Lemma hex_digit_hex n : 0 <= n < 16 -> is_hex_char (hex_digit n) = true.
Proof. by apply (below_forallb 16 (fun n => is_hex_char (hex_digit n))). Qed.

Lemma hex_all b : Forall is_byte b -> string_forallb is_hex_char (EncodeToString b) = true.
Proof.
  induction 1 as [|x b Hx _ IH]; [done|]. unfold is_byte in Hx.
  change (EncodeToString (x :: b)) with
    (String (hex_digit (x / 16)) (String (hex_digit (x mod 16)) (EncodeToString b))).
  cbn [string_forallb]. rewrite IH, !hex_digit_hex; [done|apply Z.mod_pos_bound; lia|].
  split; [apply Z.div_pos; lia|apply Z.div_lt_upper_bound; lia].
Qed.

Lemma content_hash_valid b : IsValidHash (content_hash b) = true.
Proof.
  unfold IsValidHash, content_hash, slen. rewrite EncodeToString_len, hex_all by apply sha256_byte.
  pose proof (sha256_len b) as Hl. unfold zlen in Hl.
  replace (Z.of_nat (2 * length (sha256 b))) with 64 by lia. done.
Qed.

Lemma Exists_spec c fs h c' b :
  cas_inv c fs -> Exists c fs h = (c', b) ->
  cas_inv c' fs /\ BaseDir c' = BaseDir c /\
  (IsValidHash h = true -> (b = true <-> is_Some (fs !! Path c h))).
Proof.
  intros [Hb Hc]. unfold Exists. destruct (IsValidHash h) eqn:Hv; cbn [negb].
  2:{ intros [= <- <-]. split; [done|]. by split. }
  destruct (bool_decide_reflect (h ∈ existCache c)) as [Hin|Hin].
  { intros [= <- <-]. split; [done|]. split; [done|]. intros _. split; [|done].
    intros _. by apply Hc. }
  destruct (fs_exists fs (Path c h)) eqn:He; intros [= <- <-].
  - apply fs_exists_spec in He. split; [|split; [done|by intros _]]. split; [done|].
    intros h'. rewrite Path_set_cache. cbn [existCache set_cache].
    rewrite elem_of_union, elem_of_singleton. intros [->|Hh']; [done|by apply Hc].
  - split; [done|]. split; [done|]. intros _. split; [done|].
    intros Hs%fs_exists_spec. congruence.
Qed.

(** Adding the blob under its own hash. *)
Lemma cas_inv_insert c fs b t :
  cas_inv c fs -> let h := content_hash b in
  cas_inv (set_cache c ({[h]} ∪ existCache c)) (<[Path c h := mkFile b t]> fs).
Proof.
  intros [Hb Hc] h. split; intros h'; rewrite ?Path_set_cache.
  - intros f Hv. destruct (decide (h = h')) as [<-|Hne].
    + rewrite lookup_insert_eq. by intros [= <-].
    + rewrite lookup_insert_ne; [by apply Hb|].
      intros Hp%Path_inj; [done|apply content_hash_valid|done].
  - cbn [existCache set_cache]. rewrite elem_of_union, elem_of_singleton. intros [->|Hh'].
    + split; [apply content_hash_valid|]. by rewrite lookup_insert_eq.
    + apply Hc in Hh' as [Hv Hs]. split; [done|]. destruct (decide (h = h')) as [<-|Hne].
      * by rewrite lookup_insert_eq.
      * rewrite lookup_insert_ne; [done|]. intros Hp%Path_inj; [done|apply content_hash_valid|done].
Qed.

(** Paths outside the store do not matter to the invariant. *)
Lemma cas_inv_agree c fs fs' :
  (forall h, IsValidHash h = true -> fs' !! Path c h = fs !! Path c h) ->
  cas_inv c fs -> cas_inv c fs'.
Proof.
  intros He [Hb Hc]. split.
  - intros h f Hv. rewrite He by done. by apply Hb.
  - intros h Hh. apply Hc in Hh as [Hv Hs]. split; [done|]. by rewrite He.
Qed.

Lemma cas_inv_remove_outside env c fs p :
  outside_cas c p -> cas_inv c fs -> cas_inv c (fs_remove env fs p).
Proof.
  intros Ho. apply cas_inv_agree. intros h Hv. apply fs_remove_ne. by apply Ho.
Qed.

End CASFacts.
