(* ===== verification/CASProps.v ===== *)
(** * What content-addressed storage guarantees *)

From S2P Require Import Prelude GoStrings FileSys CryptoPrims CAS.

#[local] Open Scope string_scope.
#[local] Open Scope Z_scope.

Section CASProps.
Context `{CryptoLaws}.

(** The rename works, or the copy across devices that replaces it reaches the
    disk whole or is removed again. *)
Definition copy_undoable (env : os_env) : Prop :=
  rename_ok env = true \/
  flush_fails env = None /\ (copy_fails env = None \/ remove_ok env = true).

(** One run of MoveToCASWithStatus, by its outcome. *)
Inductive move_outcome (env : os_env) (c : CASEngine) (fs : FS) (temp : string)
  : CASEngine -> FS -> result (string * bool) -> Prop :=
| move_dedup data c1 :
    fs_data fs temp = Some data -> cas_inv c1 fs -> BaseDir c1 = BaseDir c ->
    is_Some (fs !! Path c (content_hash data)) ->
    move_outcome env c fs temp c1 (fs_remove env fs temp) (Ok (content_hash data, true))
| move_new data t fs1 c1 :
    fs_data fs temp = Some data -> BaseDir c1 = BaseDir c ->
    fs !! Path c (content_hash data) = None ->
    fs1 !! temp = (if remove_ok env || rename_ok env then None else fs !! temp) ->
    (forall p, p <> temp -> p <> Path c (content_hash data) -> fs1 !! p = fs !! p) ->
    fs1 !! Path c (content_hash data) = Some (mkFile data t) ->
    cas_inv c1 fs ->
    move_outcome env c fs temp
      (set_cache c1 ({[content_hash data]} ∪ existCache c1)) fs1 (Ok (content_hash data, false))
| move_error c1 e :
    cas_inv c1 fs -> BaseDir c1 = BaseDir c ->
    move_outcome env c fs temp c1 fs (Err e).

(** The outcome of a copy across devices that was torn: only the first [n]
    bytes of the temporary file are under its hash, because the copy broke
    off and could not be removed, or because Sync or Close lost the rest. *)
Definition torn_move (env : os_env) (c : CASEngine) (fs : FS) (temp : string)
    (c' : CASEngine) (fs' : FS) (r : result (string * bool)) : Prop :=
  exists data n t c1,
    rename_ok env = false /\ fs_data fs temp = Some data /\
    fs !! Path c (content_hash data) = None /\
    fs' !! Path c (content_hash data) = Some (mkFile (ztake n data) t) /\
    (forall p, p <> temp -> p <> Path c (content_hash data) -> fs' !! p = fs !! p) /\
    cas_inv c1 fs /\ BaseDir c1 = BaseDir c /\
    (copy_fails env = Some n /\ remove_ok env = false /\ c' = c1 /\ (exists e, r = Err e) \/
     copy_fails env = None /\ flush_fails env = Some n /\
     c' = set_cache c1 ({[content_hash data]} ∪ existCache c1) /\ r = Ok (content_hash data, false)).

Lemma torn_not_undoable env c fs temp c' fs' r :
  torn_move env c fs temp c' fs' r -> ~ copy_undoable env.
Proof.
  intros (data & n & t & c1 & Hr & _ & _ & _ & _ & _ & _ & Hk) [Hu|(Hf & [Hu|Hu])];
    destruct Hk as [(? & ? & _)|(? & ? & _)]; congruence.
Qed.

Lemma copy_across_spec env fs temp dest f :
  temp <> dest -> fs !! temp = Some f -> fs !! dest = None ->
  let '(fs1, err) := copy_across env fs temp dest in
  fs1 = fs /\ err <> None \/
  (forall p, p <> temp -> p <> dest -> fs1 !! p = fs !! p) /\
  match copy_fails env with
  | Some n => err <> None /\ remove_ok env = false /\
      fs1 !! dest = Some (mkFile (ztake n (f_data f)) (env_now env))
  | None => err = None /\ fs1 !! temp = (if remove_ok env then None else fs !! temp) /\
      fs1 !! dest = Some (mkFile
        match flush_fails env with Some n => ztake n (f_data f) | None => f_data f end (env_now env))
  end.
Proof.
  intros Hne Hf Hd. unfold copy_across. rewrite Hf. destruct (create_ok env); [|by left].
  assert (dest <> temp) as Hne' by congruence.
  destruct (copy_fails env) as [n|]; unfold fs_remove; destruct (remove_ok env) eqn:Hr.
  - left. by rewrite delete_insert_id.
  - right. split; [intros p _ Hp; by rewrite lookup_insert_ne|]. by rewrite lookup_insert_eq.
  - right. split; [intros p Hp1 Hp2; by rewrite lookup_delete_ne, lookup_insert_ne|].
    split; [done|]. by rewrite lookup_delete_eq, lookup_delete_ne, lookup_insert_eq.
  - right. split; [intros p _ Hp; by rewrite lookup_insert_ne|]. split; [done|].
    by rewrite lookup_insert_eq, lookup_insert_ne.
Qed.

(** Every run is one of the outcomes or a torn copy. *)
Lemma move_any env c fs temp c' fs' r :
  cas_inv c fs -> outside_cas c temp ->
  MoveToCASWithStatus env c fs temp = (c', fs', r) ->
  move_outcome env c fs temp c' fs' r \/ torn_move env c fs temp c' fs' r.
Proof.
  intros Hinv Hout. unfold MoveToCASWithStatus, ComputeHash.
  destruct (fs_read env fs temp) as [data|e] eqn:Hr; [|intros [= <- <- <-]; left; by constructor].
  apply fs_read_ok in Hr as (f & Hf & <-).
  assert (fs_data fs temp = Some (f_data f)) as Hd by (unfold fs_data; by rewrite Hf).
  pose proof (content_hash_valid (f_data f)) as Hv.
  destruct (Exists c fs _) as [c1 present] eqn:He.
  destruct (Exists_spec _ _ _ _ _ Hinv He) as (Hinv1 & Hbase & Hpres). specialize (Hpres Hv).
  destruct present.
  { intros [= <- <- <-]. left. constructor; auto. by apply Hpres. }
  assert (fs !! Path c (content_hash (f_data f)) = None) as Hnone
    by (apply eq_None_not_Some; intros Hs; by apply Hpres in Hs).
  destruct (mkdir_ok env); cbn [negb]; [|intros [= <- <- <-]; left; by constructor].
  pose proof (Hout _ Hv) as Hne.
  destruct (rename_ok env) eqn:Hro; unfold fs_rename; rewrite Hf, Hro.
  - intros [= <- <- <-]. left. apply (move_new _ _ _ _ _ (f_mtime f)); auto.
    + rewrite Hro, orb_true_r, lookup_insert_ne by done. apply lookup_delete_eq.
    + intros p Hp1 Hp2. by rewrite lookup_insert_ne, lookup_delete_ne.
    + rewrite lookup_insert_eq. by destruct f.
  - pose proof (copy_across_spec env fs temp _ f Hne Hf Hnone) as Hcp.
    destruct (copy_across _ _ _ _) as [fs1 err].
    destruct Hcp as [[-> Herr]|[Hp Hcp]].
    { destruct err as [e|]; [|done]. intros [= <- <- <-]. left. by constructor. }
    destruct (copy_fails env) as [n|] eqn:Hcf.
    + destruct Hcp as (Herr & Hrm & Hdest). destruct err as [e|]; [|done]. intros [= <- <- <-].
      right. exists (f_data f), n, (env_now env), c1.
      repeat (split; [done|]). left. repeat (split; [done|]). by exists e.
    + destruct Hcp as (-> & Ht & Hdest). intros [= <- <- <-].
      destruct (flush_fails env) as [n|] eqn:Hff.
      * right. exists (f_data f), n, (env_now env), c1. repeat (split; [done|]). by right.
      * left. eapply move_new; eauto. by rewrite Hro, orb_false_r.
Qed.

Lemma move_cases env c fs temp c' fs' r :
  cas_inv c fs -> outside_cas c temp -> copy_undoable env ->
  MoveToCASWithStatus env c fs temp = (c', fs', r) ->
  move_outcome env c fs temp c' fs' r.
Proof.
  intros Hinv Hout Hu Hm. destruct (move_any _ _ _ _ _ _ _ Hinv Hout Hm) as [|Ht]; [done|].
  by apply torn_not_undoable in Ht.
Qed.

Lemma outcome_inv env c fs temp c' fs' r :
  cas_inv c fs -> outside_cas c temp -> move_outcome env c fs temp c' fs' r ->
  cas_inv c' fs' /\ BaseDir c' = BaseDir c.
Proof.
  intros Hinv Hout [data c1 Hd Hi1 Hb Hs|data t fs1 c1 Hd Hb Hn Ht Hp Hdest Hi1|c1 e Hi1 Hb];
    (split; [|done]); [| |done];
    assert (forall h, Path c1 h = Path c h) as Hpath by (intros h; unfold Path; by rewrite Hb).
  - apply cas_inv_remove_outside; [|done]. intros h Hv. rewrite Hpath. by apply Hout.
  - apply (cas_inv_agree _ (<[Path c1 (content_hash data) := mkFile data t]> fs));
      [|by apply cas_inv_insert].
    intros h Hv. rewrite Path_set_cache, Hpath.
    destruct (decide (h = content_hash data)) as [->|Hne].
    + by rewrite Hdest, Hpath, lookup_insert_eq.
    + assert (Path c h <> Path c (content_hash data)) as Hpne
        by (intros Heq%Path_inj; auto using content_hash_valid).
      rewrite lookup_insert_ne by (rewrite Hpath; congruence).
      apply Hp; [|done]. intros Heq. by apply (Hout h).
Qed.

(** A move that answers a hash consumed the temporary file, and the store
    holds a blob of that hash. *)
Lemma move_result_facts env c fs temp c' fs' h b :
  remove_ok env = true -> cas_inv c fs -> outside_cas c temp ->
  move_outcome env c fs temp c' fs' (Ok (h, b)) ->
  fs' !! temp = None /\
  exists blob, fs_data fs' (Path c' h) = Some blob /\ content_hash blob = h.
Proof.
  intros Hrm Hinv Hout Hcases.
  destruct (outcome_inv _ _ _ _ _ _ _ Hinv Hout Hcases) as [[Hblobs _] Hbase].
  assert (Path c' h = Path c h) as Hpath by (unfold Path; by rewrite Hbase).
  assert (IsValidHash h = true) as Hv by (inversion Hcases; apply content_hash_valid).
  assert (fs' !! temp = None /\ is_Some (fs' !! Path c h)) as [Hn [x Hx]].
  { inversion Hcases as [d ? _ _ _ Hs|d t ? c1' _ _ _ Ht _ Hdest _|]; subst.
    - unfold fs_remove. rewrite Hrm. split; [apply lookup_delete_eq|].
      rewrite lookup_delete_ne by (by apply Hout). exact Hs.
    - split; [by rewrite Ht, Hrm|]. rewrite Hdest. by eexists. }
  split; [done|]. exists (f_data x). unfold fs_data. rewrite Hpath, Hx. split; [done|].
  apply (Hblobs h x); [done|]. by rewrite Hpath.
Qed.

Lemma move_succeeds env c f temp b :
  mkdir_ok env = true -> rename_ok env = true -> read_ok env = true -> fs_data f temp = Some b ->
  exists c' f' d, MoveToCASWithStatus env c f temp = (c', f', Ok (content_hash b, d)).
Proof.
  intros Hm Hr Hrd Hb. unfold MoveToCASWithStatus, ComputeHash, fs_read, fs_data in *.
  destruct (f !! temp) as [x|] eqn:Hx; [|done]. injection Hb as <-. rewrite Hrd.
  destruct (Exists c f _) as [c1 [|]]; [by eexists _, _, _|]. rewrite Hm. cbn [negb].
  unfold fs_rename. rewrite Hx, Hr. by eexists _, _, _.
Qed.

(** A move keeps every blob. *)
Lemma outcome_keeps env c fs temp c' fs' r :
  outside_cas c temp -> move_outcome env c fs temp c' fs' r ->
  forall h f, IsValidHash h = true -> fs !! Path c h = Some f -> fs' !! Path c h = Some f.
Proof.
  intros Hout Hcases h f Hv Hf.
  destruct Hcases as [data c1 Hd _ _ Hs|data t fs1 c1 Hd _ Hn _ Hp _ _|]; [| |done].
  - rewrite fs_remove_ne; [done|]. by apply Hout.
  - rewrite Hp; [done|intros Heq; by apply (Hout h)|]. congruence.
Qed.

Lemma outcome_outside env c fs temp c' fs' r :
  move_outcome env c fs temp c' fs' r ->
  forall p, p <> temp -> outside_cas c p -> fs' !! p = fs !! p.
Proof.
  intros [data c1 Hd _ _ Hs|data t fs1 c1 Hd _ Hn _ Hp _ _|] p Hpt Ho; [| |done].
  - by apply fs_remove_ne.
  - apply Hp; [done|]. apply Ho, content_hash_valid.
Qed.

Lemma torn_facts env c fs temp c' fs' r :
  cas_inv c fs -> outside_cas c temp -> torn_move env c fs temp c' fs' r ->
  BaseDir c' = BaseDir c /\
  (forall h f, IsValidHash h = true -> fs !! Path c h = Some f -> fs' !! Path c h = Some f) /\
  (forall p, p <> temp -> outside_cas c p -> fs' !! p = fs !! p) /\
  (forall h, h ∈ existCache c' -> IsValidHash h = true /\ is_Some (fs' !! Path c h)) /\
  (forall h f, IsValidHash h = true -> fs' !! Path c h = Some f ->
     content_hash (f_data f) = h \/
     rename_ok env = false /\ fs !! Path c h = None /\
     exists data n, fs_data fs temp = Some data /\ h = content_hash data /\ f_data f = ztake n data /\
       (copy_fails env = Some n /\ remove_ok env = false /\ (exists e, r = Err e) \/
        copy_fails env = None /\ flush_fails env = Some n /\ r = Ok (h, false))).
Proof.
  intros Hinv Hout (data & n & t & c1 & Hr & Hd & Hn & Hdest & Hp & Hi1 & Hb & Hk).
  pose proof (content_hash_valid data) as Hvd.
  assert (forall h, IsValidHash h = true -> h <> content_hash data -> fs' !! Path c h = fs !! Path c h) as Hsame.
  { intros h Hv Hne. apply Hp; [intros He; by apply (Hout h)|]. intros He%Path_inj; done. }
  assert (forall h, h ∈ existCache c1 -> IsValidHash h = true /\ is_Some (fs' !! Path c h)) as Hc1.
  { intros h Hh. apply Hi1 in Hh as [Hv Hs]. split; [done|].
    assert (Path c1 h = Path c h) as He by (unfold Path; by rewrite Hb). rewrite He in Hs.
    rewrite Hsame; [done|done|]. intros ->. rewrite Hn in Hs. by destruct Hs. }
  split; [by destruct Hk as [(_ & _ & -> & _)|(_ & _ & -> & _)]|]. split.
  { intros h f Hv Hf. rewrite Hsame; [done|done|]. intros ->. congruence. }
  split; [intros p Hpt Ho; apply Hp; [done|by apply Ho]|]. split.
  { destruct Hk as [(_ & _ & -> & _)|(_ & _ & -> & _)]; [done|]. intros h. cbn [existCache set_cache].
    rewrite elem_of_union, elem_of_singleton. intros [->|Hh]; [|by apply Hc1].
    split; [done|]. by rewrite Hdest. }
  intros h f Hv. destruct (decide (h = content_hash data)) as [->|Hne].
  - rewrite Hdest. intros [= <-]. right. split; [done|]. split; [done|]. exists data, n.
    do 3 (split; [done|]). destruct Hk as [(? & ? & _ & ?)|(? & ? & _ & ?)]; [by left|by right].
  - rewrite Hsame by done. intros Hf. left. by apply Hinv.
Qed.

Lemma move_keeps env c fs temp c' fs' r :
  cas_inv c fs -> outside_cas c temp ->
  MoveToCASWithStatus env c fs temp = (c', fs', r) ->
  forall h f, IsValidHash h = true -> fs !! Path c h = Some f -> fs' !! Path c h = Some f.
Proof.
  intros Hinv Hout Hm. destruct (move_any _ _ _ _ _ _ _ Hinv Hout Hm) as [Hc|Ht].
  - by apply (outcome_keeps env _ _ temp c' _ r).
  - apply (torn_facts _ _ _ _ _ _ _ Hinv Hout Ht).
Qed.

(** With nothing failing, a move consumes the temporary file and leaves a blob
    under the file's hash; it is that file unless one was stored before. *)
Lemma move_stores env c f temp b :
  cas_inv c f -> outside_cas c temp -> copy_undoable env ->
  mkdir_ok env = true -> rename_ok env = true -> read_ok env = true -> remove_ok env = true ->
  fs_data f temp = Some b ->
  let h := content_hash b in
  exists c' f' d, MoveToCASWithStatus env c f temp = (c', f', Ok (h, d)) /\
    cas_inv c' f' /\ BaseDir c' = BaseDir c /\ f' !! temp = None /\
    (d = true \/ d = false /\ f !! Path c h = None) /\
    (d = true -> is_Some (f !! Path c h)) /\
    exists blob, fs_data f' (Path c h) = Some blob /\ content_hash blob = h /\
      (f !! Path c h = None -> blob = b).
Proof.
  intros Hinv Hout Hund Hm Hr Hrd Hrm Hb h.
  destruct (move_succeeds env c f temp b Hm Hr Hrd Hb) as (c1 & f1 & d & Hmove).
  pose proof (move_cases _ _ _ _ _ _ _ Hinv Hout Hund Hmove) as Hcases.
  destruct (outcome_inv _ _ _ _ _ _ _ Hinv Hout Hcases) as [Hinv1 Hbase].
  exists c1, f1, d. do 3 (split; [done|]). pose proof (content_hash_valid b) as Hv.
  inversion Hcases as [d' ? Hd' _ _ Hs'|d' t ? c1' Hd' _ Hnone Ht _ Hdest _|]; subst;
    assert (d' = b) as -> by congruence.
  - destruct Hs' as [x Hx]. unfold fs_remove. rewrite Hrm. split; [apply lookup_delete_eq|].
    split; [by left|]. split; [by intros _; exists x|]. exists (f_data x). unfold fs_data.
    rewrite lookup_delete_ne by (by apply Hout). fold h in Hx |- *. rewrite Hx. split; [done|].
    split; [by apply Hinv|]. subst h. congruence.
  - split; [rewrite Ht, Hrm; done|]. split; [by right|]. split; [done|].
    exists b. fold h in Hdest. unfold fs_data. by rewrite Hdest.
Qed.

(** C5: [MoveToCASWithStatus] preserves the store, whatever fails.  No blob is
    lost or changed, no file outside the store except the temporary one is
    touched, the cache lists only hashes on disk, and every blob has the hash
    it is filed under, with one exception that the code cannot repair: when
    the rename fails and nothing was stored under the hash, a copy across
    devices that breaks off and cannot be removed (the answer is an error),
    or whose last bytes are lost by Sync or Close (the answer is a success),
    leaves a prefix of the temporary file under that file's hash.  If the
    rename works, or the copy reaches the disk or can be removed, the
    invariant of the store is kept whole. *)
Theorem move_preserves_store env c fs temp c' fs' r :
  cas_inv c fs -> outside_cas c temp ->
  MoveToCASWithStatus env c fs temp = (c', fs', r) ->
  BaseDir c' = BaseDir c /\
  (forall h f, IsValidHash h = true -> fs !! Path c h = Some f -> fs' !! Path c h = Some f) /\
  (forall p, p <> temp -> outside_cas c p -> fs' !! p = fs !! p) /\
  (forall h, h ∈ existCache c' -> IsValidHash h = true /\ is_Some (fs' !! Path c h)) /\
  (forall h f, IsValidHash h = true -> fs' !! Path c h = Some f ->
     content_hash (f_data f) = h \/
     rename_ok env = false /\ fs !! Path c h = None /\
     exists data n, fs_data fs temp = Some data /\ h = content_hash data /\ f_data f = ztake n data /\
       (copy_fails env = Some n /\ remove_ok env = false /\ (exists e, r = Err e) \/
        copy_fails env = None /\ flush_fails env = Some n /\ r = Ok (h, false))) /\
  (copy_undoable env -> cas_inv c' fs').
Proof.
  intros Hinv Hout Hm. destruct (move_any _ _ _ _ _ _ _ Hinv Hout Hm) as [Hcases|Ht].
  - destruct (outcome_inv _ _ _ _ _ _ _ Hinv Hout Hcases) as [[Hbl Hca] Hb].
    assert (forall h, Path c' h = Path c h) as Hp by (intros h; unfold Path; by rewrite Hb).
    split; [done|]. split; [by apply (move_keeps env _ _ temp c' _ r)|].
    split; [by apply (outcome_outside env _ _ temp c' _ r)|]. split.
    { intros h Hh. rewrite <- Hp. by apply Hca. }
    split; [|done]. intros h f Hv Hf. left. apply Hbl; [done|]. by rewrite Hp.
  - destruct (torn_facts _ _ _ _ _ _ _ Hinv Hout Ht) as (Hb & Hk & Ho & Hca & Hbl).
    do 5 (split; [done|]). intros Hu. by apply torn_not_undoable in Ht.
Qed.

(** what [MoveToCASWithStatus] returns.  On success the hash is that of
    the temporary file's contents, a blob with that hash is at its path (the
    very bytes, when it was not deduplicated), [existedBefore] says whether
    it was there before, and the temporary file is gone if it could be
    removed; on an error the file system is as before, so nothing is lost. *)
Theorem move_result env c fs temp c' fs' r :
  cas_inv c fs -> outside_cas c temp -> copy_undoable env ->
  MoveToCASWithStatus env c fs temp = (c', fs', r) ->
  match r with
  | Err _ => fs' = fs
  | Ok (h, existedBefore) =>
      exists data blob, fs_data fs temp = Some data /\ h = content_hash data /\
        fs_data fs' (Path c h) = Some blob /\ content_hash blob = h /\
        (existedBefore = true <-> is_Some (fs !! Path c h)) /\
        (existedBefore = false -> blob = data) /\
        (remove_ok env = true -> fs' !! temp = None)
  end.
Proof.
  intros Hinv Hout Hu Hm. destruct (move_cases _ _ _ _ _ _ _ Hinv Hout Hu Hm)
    as [data c1 Hd Hi1 Hb Hs|data t fs1 c1 Hd Hb Hn Ht Hp Hdest Hi1|c1 e Hi1 Hb]; [| |done].
  - destruct Hs as [f Hf]. pose proof (content_hash_valid data) as Hv.
    exists data, (f_data f). split; [done|]. split; [done|]. split; [|split].
    + unfold fs_data. rewrite fs_remove_ne, Hf; [done|]. by apply Hout.
    + by apply Hinv.
    + rewrite Hf. split; [done|]. split; [done|]. intros Hr. unfold fs_remove. rewrite Hr.
      apply lookup_delete_eq.
  - exists data, data. unfold fs_data in *. rewrite Hdest, Hn.
    split; [done|]. split; [done|]. split; [done|]. split; [done|]. split.
    { split; [done|]. by intros [? ?]. }
    split; [done|]. intros Hr. by rewrite Ht, Hr.
Qed.

(** deduplication.  Moving a second file with the same contents
    returns the same hash, marks it as existing and leaves the store's files
    as they were: one blob per content. *)
Theorem move_deduplicates env1 env2 c fs temp1 temp2 c1 fs1 h b1 data :
  cas_inv c fs -> outside_cas c temp1 -> outside_cas c temp2 -> temp1 <> temp2 ->
  copy_undoable env1 -> read_ok env2 = true ->
  fs_data fs temp1 = Some data -> fs_data fs temp2 = Some data ->
  MoveToCASWithStatus env1 c fs temp1 = (c1, fs1, Ok (h, b1)) ->
  exists c2, MoveToCASWithStatus env2 c1 fs1 temp2 = (c2, fs_remove env2 fs1 temp2, Ok (h, true)).
Proof.
  intros Hinv Ho1 Ho2 Hne Hu1 Hread Hd1 Hd2 Hm.
  pose proof (move_cases _ _ _ _ _ _ _ Hinv Ho1 Hu1 Hm) as Hcases.
  destruct (outcome_inv _ _ _ _ _ _ _ Hinv Ho1 Hcases) as [Hi1 Hb].
  assert (h = content_hash data /\ is_Some (fs1 !! Path c h) /\ fs1 !! temp2 = fs !! temp2)
    as (-> & Hs & Ht2).
  { inversion Hcases as [d ? Hd _ _ Hs|d t ? c1' Hd _ _ _ Hp Hdest _|]; subst;
      (assert (d = data) as -> by congruence); (split; [done|]).
    - rewrite !fs_remove_ne; [done|done|]. apply Ho1, content_hash_valid.
    - split; [by eexists|]. apply Hp; [done|]. apply Ho2, content_hash_valid. }
  unfold fs_data in Hd2. rewrite <- Ht2 in Hd2.
  destruct (fs1 !! temp2) as [f|] eqn:Hf; [|done]. injection Hd2 as Hd2.
  unfold MoveToCASWithStatus, ComputeHash, fs_read. rewrite Hf, Hread, Hd2.
  destruct (Exists c1 fs1 _) as [c2 present] eqn:He.
  destruct (Exists_spec _ _ _ _ _ Hi1 He) as (_ & _ & Hpres).
  specialize (Hpres (content_hash_valid data)).
  assert (Path c1 (content_hash data) = Path c (content_hash data)) as Hpath
    by (unfold Path; by rewrite Hb).
  rewrite Hpath in Hpres. rewrite (proj2 Hpres Hs). by exists c2.
Qed.

(** the cache trusts the past.  If a blob the cache knows is removed from
    the disk without [Invalidate], storing a new copy of the same contents
    reports success and deletes the only copy: no file with that data is
    left at the temporary path or at the blob's path. *)
Theorem stale_cache_loses_upload env c fs temp data :
  let h := content_hash data in
  h ∈ existCache c -> fs_data fs temp = Some data -> read_ok env = true -> remove_ok env = true ->
  outside_cas c temp ->
  let fs_removed := delete (Path c h) fs in
  exists fs', MoveToCASWithStatus env c fs_removed temp = (c, fs', Ok (h, true)) /\
    fs' !! temp = None /\ fs' !! Path c h = None.
Proof.
  intros h Hin Hd Hr Hrm Hout fs_removed. pose proof (content_hash_valid data) as Hv.
  fold h in Hv. unfold MoveToCASWithStatus, ComputeHash, fs_read, fs_removed, fs_data in *.
  rewrite lookup_delete_ne by (apply not_eq_sym; by apply Hout).
  destruct (fs !! temp) as [f|]; [|done]. injection Hd as ->. rewrite Hr. fold h.
  unfold Exists. rewrite Hv. cbn [negb]. rewrite bool_decide_true by done.
  eexists. split; [done|]. unfold fs_remove. rewrite Hrm. split; [apply lookup_delete_eq|].
  rewrite lookup_delete_ne by (by apply Hout). apply lookup_delete_eq.
Qed.

(** Characters of a path below the base directory. *)
Definition safe_path_char (ch : Ascii.ascii) : bool := is_hex_char ch || Ascii.eqb ch "/".

(** paths stay inside the store.  For a valid hash the path is the
    base directory, two shard directories taken from the hash and the hash,
    written with hexadecimal digits and separators only (so no element can
    be ".."), different hashes have different paths; for any other string
    the path does not depend on it. *)
Theorem path_contained c :
  (forall h, IsValidHash h = true ->
    exists rest, Path c h = base_prefix (BaseDir c) +:+ rest /\
      string_forallb safe_path_char rest = true /\ slen rest = 70) /\
  (forall h1 h2, IsValidHash h1 = true -> IsValidHash h2 = true ->
    Path c h1 = Path c h2 -> h1 = h2) /\
  (forall h, IsValidHash h = false -> Path c h = Join [BaseDir c; "invalid_hash"]).
Proof.
  split; [|split].
  - intros h Hv. exists (hash_dirs h). pose proof (IsValidHash_len h Hv) as Hl.
    assert (forall s, string_forallb is_hex_char s = true -> string_forallb safe_path_char s = true)
      as Hsafe.
    { induction s as [|x s IH]; [done|]. cbn. unfold safe_path_char at 1.
      intros [-> Hs]%andb_true_iff. by rewrite IH. }
    unfold Path, IsValidHash in *. rewrite Hv. split; [done|].
    apply andb_true_iff in Hv as [_ Hhex]. unfold hash_dirs. split.
    + rewrite !string_forallb_app, (Hsafe (slice h 0 2)), (Hsafe (slice h 2 4)), (Hsafe h)
        by auto using slice_forallb. done.
    + unfold slen in *. rewrite !length_str_app, !slice_len by lia. simpl. lia.
  - intros h1 h2. apply Path_inj.
  - intros h Hv. unfold Path. by rewrite Hv.
Qed.

(** the anti-forensic shuffle touches timestamps only: every file keeps
    its contents, files outside the store keep their times, and a shuffled
    file is dated between one hour and seven days before now. *)
Theorem shuffle_keeps_contents now rnd chtimes c fs path :
  let fs' := ShufflePaths now rnd chtimes (Some c) fs in
  fs_data fs' path = fs_data fs path /\
  (HasPrefix path (base_prefix (BaseDir c)) = false -> fs' !! path = fs !! path) /\
  (forall f', fs' !! path = Some f' -> fs' !! path = fs !! path \/
     now - 7 * 24 * 3600 * 1000000000 <= f_mtime f' <= now - 3600 * 1000000000).
Proof.
  unfold ShufflePaths, fs_data. destruct (String.eqb _ _); [auto|]. cbn zeta.
  rewrite map_lookup_imap. destruct (fs !! path) as [f|]; [|done]. cbn.
  destruct (HasPrefix _ _ && chtimes path) eqn:Hp; [|auto]. cbn.
  apply andb_true_iff in Hp as [Hp _]. rewrite Hp. split; [done|]. split; [done|].
  intros f' [= <-]. right. cbn. unfold jitter_secs.
  pose proof (Z.mod_pos_bound (u64 (rnd path)) (7 * 24 * 3600 - 3600) ltac:(lia)). lia.
Qed.

End CASProps.

(** ** Witnesses *)

Section CASWitnesses.
Import ToyCrypto.

Definition toy_cas : CASEngine := mkCAS "cas" ∅.
Definition toy_blob : bytes := [1; 2; 3].
Definition toy_fs : FS := {["tmp/a" := mkFile toy_blob 0; "tmp/b" := mkFile toy_blob 0]}.

Lemma toy_outside s :
  HasPrefix s "cas/" = false -> forall cache, outside_cas (mkCAS "cas" cache) s.
Proof.
  intros Hs cache h Hv ->. unfold Path in Hs. rewrite Hv in Hs. cbn in Hs.
  by destruct (hash_dirs h).
Qed.

Lemma toy_cas_inv : cas_inv toy_cas toy_fs.
Proof.
  split; [|intros h Hh; by apply elem_of_empty in Hh].
  intros h f Hv Hf. exfalso. unfold toy_fs in Hf.
  apply lookup_insert_Some in Hf as [[Hp _]|[_ Hf%lookup_singleton_Some]].
  - by apply (toy_outside "tmp/a" eq_refl ∅ h Hv).
  - destruct Hf as [Hp _]. by apply (toy_outside "tmp/b" eq_refl ∅ h Hv).
Qed.

Lemma move_preserves_store_witness :
  exists c' fs' r,
    MoveToCASWithStatus (env_fine 5) toy_cas toy_fs "tmp/a" = (c', fs', r) /\ cas_inv c' fs'.
Proof.
  destruct (MoveToCASWithStatus (env_fine 5) toy_cas toy_fs "tmp/a") as [[c' fs'] r] eqn:Hm.
  exists c', fs', r. split; [done|].
  apply (move_preserves_store (env_fine 5) toy_cas toy_fs "tmp/a" c' fs' r);
    [apply toy_cas_inv|by apply toy_outside|done|by left].
Defined.

(** The outcome alone, so that only it is computed. *)
Lemma toy_move_outcome :
  snd (MoveToCASWithStatus (env_fine 5) toy_cas toy_fs "tmp/a") = Ok (content_hash toy_blob, false).
Proof. by vm_compute. Qed.

Lemma move_result_witness :
  exists c' fs', MoveToCASWithStatus (env_fine 5) toy_cas toy_fs "tmp/a"
      = (c', fs', Ok (content_hash toy_blob, false)) /\
    fs' !! "tmp/a" = None.
Proof.
  pose proof toy_move_outcome as Hr.
  destruct (MoveToCASWithStatus (env_fine 5) toy_cas toy_fs "tmp/a") as [[c' fs'] r] eqn:Hm.
  cbn in Hr. subst r. exists c', fs'. split; [done|].
  destruct (move_result (env_fine 5) toy_cas toy_fs "tmp/a" c' fs'
    (Ok (content_hash toy_blob, false))) as (data & blob & _ & _ & _ & _ & _ & _ & Ht);
    [apply toy_cas_inv|by apply toy_outside|by left|done|].
  by apply Ht.
Defined.

Lemma move_deduplicates_witness :
  exists c1 fs1 c2,
    MoveToCASWithStatus (env_fine 5) toy_cas toy_fs "tmp/a"
      = (c1, fs1, Ok (content_hash toy_blob, false)) /\
    MoveToCASWithStatus (env_fine 6) c1 fs1 "tmp/b"
      = (c2, fs_remove (env_fine 6) fs1 "tmp/b", Ok (content_hash toy_blob, true)).
Proof.
  pose proof toy_move_outcome as Hr.
  destruct (MoveToCASWithStatus (env_fine 5) toy_cas toy_fs "tmp/a") as [[c1 fs1] r] eqn:Hm.
  cbn in Hr. subst r. exists c1, fs1.
  destruct (move_deduplicates (env_fine 5) (env_fine 6) toy_cas toy_fs "tmp/a" "tmp/b" c1 fs1
    (content_hash toy_blob) false toy_blob) as [c2 H2];
    [apply toy_cas_inv|by apply toy_outside|by apply toy_outside|done|by left|done|done|done|done|].
  by exists c2.
Defined.

Lemma stale_cache_loses_upload_witness :
  exists fs', MoveToCASWithStatus (env_fine 5) (mkCAS "cas" {[content_hash toy_blob]})
      (delete (Path toy_cas (content_hash toy_blob)) toy_fs) "tmp/a"
    = (mkCAS "cas" {[content_hash toy_blob]}, fs', Ok (content_hash toy_blob, true)) /\
    fs' !! "tmp/a" = None /\ fs' !! Path toy_cas (content_hash toy_blob) = None.
Proof.
  apply (stale_cache_loses_upload (env_fine 5) (mkCAS "cas" {[content_hash toy_blob]}) toy_fs
    "tmp/a" toy_blob); [set_solver|done|done|done|by apply toy_outside].
Defined.

End CASWitnesses.
