(* ===== verification/PoW.v ===== *)
(** * Proof of ownership for deduplicated uploads (internal/upload/pow.go)

    A client that claims to own a stored blob must return an HMAC, keyed by
    the challenge's nonce, of samples of the blob.  Challenges live in a map
    from nonces ([powStore]) and expire. *)

From S2P Require Import Prelude GoStrings CryptoPrims CryptoStream CryptoStreamFacts.

#[local] Open Scope string_scope.
#[local] Open Scope list_scope.
#[local] Open Scope Z_scope.

Section PoW.
Context `{CryptoPrims}.

Record PoWChallenge := mkChallenge {
  CasHash : string;
  ChallengeNonce : string;
  Offsets : list Z;
  SampleSize : Z;
  ExpiresAt : Z
}.

Abbreviation pow_store := (gmap string PoWChallenge).

Definition DefaultSampleSize : Z := 1024.
Definition ChallengeTTL : Z := 5 * 60 * 1000000000.

Definition SavePoWChallenge (st : pow_store) (ch : PoWChallenge) : pow_store :=
  <[ChallengeNonce ch := ch]> st.

Definition sample_size (fileSize : Z) : Z :=
  if (0 <? fileSize) && (fileSize <? DefaultSampleSize) then fileSize else DefaultSampleSize.

(** [(int64(binary.BigEndian.Uint64(b)) & 0x7fffffffffffffff) % maxOffset] *)
Definition derive_offset (b : bytes) (maxOffset : Z) : Z :=
  Z.land (i64 (be_get b)) 9223372036854775807 mod maxOffset.

Definition derive_offsets (nonce casHash : string) (maxOffset : Z) : list Z :=
  let h := sha256 (bytes_of_string (nonce +:+ ":" +:+ casHash)) in
  [derive_offset (ztake 8 h) maxOffset;
   derive_offset (ztake 8 (zdrop 8 h)) maxOffset;
   derive_offset (ztake 8 (zdrop 16 h)) maxOffset].

(** [rand]: the 32 random bytes the nonce is written from. *)
Definition GeneratePoWChallenge (now : Z) (rand : result bytes) (st : pow_store)
    (casHash : string) (fileSize : Z) : pow_store * result PoWChallenge :=
  if String.eqb casHash "" then (st, Err (ErrMsg "casHash cannot be empty"))
  else
    let sampleSize := sample_size fileSize in
    match rand with
    | Err e => (st, Err e)
    | Ok nonceBytes =>
        let nonce := EncodeToString nonceBytes in
        let maxOffset := i64 (fileSize - sampleSize) in
        let offsets := if maxOffset <=? 0 then [0] else derive_offsets nonce casHash maxOffset in
        let ch := mkChallenge casHash nonce offsets sampleSize (now + ChallengeTTL) in
        (SavePoWChallenge st ch, Ok ch)
    end.

Definition GetPoWChallenge (now : Z) (st : pow_store) (nonce : string) : option PoWChallenge :=
  match st !! nonce with
  | Some ch => if ExpiresAt ch <? now then None else Some ch
  | None => None
  end.

Definition DeletePoWChallenge (st : pow_store) (nonce : string) : pow_store := delete nonce st.

(** One sample: seek, then [io.ReadFull] into the buffer; a short read at the
    end of the file contributes what was read. *)
Definition sample_at (data : bytes) (sampleSize offset : Z) : result bytes :=
  if offset <? 0 then Err (ErrMsg "seek: invalid argument")
  else Ok (ztake sampleSize (zdrop offset data)).

Fixpoint samples (data : bytes) (offsets : list Z) (sampleSize : Z) : result bytes :=
  match offsets with
  | [] => Ok []
  | o :: os =>
      match sample_at data sampleSize o with
      | Err e => Err e
      | Ok b => match samples data os sampleSize with Err e => Err e | Ok r => Ok (b ++ r) end
      end
  end.

Definition ComputeSampleHMAC (data : bytes) (offsets : list Z) (sampleSize : Z) (nonce : string)
  : result string :=
  match samples data offsets sampleSize with
  | Err e => Err e
  | Ok m => Ok (EncodeToString (hmac_sha256 (bytes_of_string nonce) m))
  end.

Definition VerifyPoW (data : bytes) (ch : PoWChallenge) (clientProof : string) : bool :=
  match ComputeSampleHMAC data (Offsets ch) (SampleSize ch) (ChallengeNonce ch) with
  | Err _ => false
  | Ok expected => String.eqb expected clientProof
  end.

End PoW.

(** ** Lemmas *)

Section PoWFacts.
Context `{CryptoLaws}.

Lemma sample_size_bounds fileSize : 1 <= sample_size fileSize <= DefaultSampleSize.
Proof.
  unfold sample_size, DefaultSampleSize. destruct (_ && _) eqn:Hs; [|lia].
  apply andb_true_iff in Hs. lia.
Qed.

Lemma derive_offset_range b m : 0 < m -> 0 <= derive_offset b m < m.
Proof. intros Hm. unfold derive_offset. by apply Z.mod_pos_bound. Qed.

Lemma derive_offsets_range nonce h m :
  0 < m -> Forall (fun o => 0 <= o < m) (derive_offsets nonce h m).
Proof. intros Hm. unfold derive_offsets. repeat constructor; by apply derive_offset_range. Qed.

Lemma Generate_ok now rand st casHash fileSize st' ch :
  GeneratePoWChallenge now rand st casHash fileSize = (st', Ok ch) ->
  casHash <> "" /\ CasHash ch = casHash /\ st' = <[ChallengeNonce ch := ch]> st /\
  SampleSize ch = sample_size fileSize /\ ExpiresAt ch = now + ChallengeTTL /\
  Offsets ch = (if i64 (fileSize - sample_size fileSize) <=? 0 then [0]
                else derive_offsets (ChallengeNonce ch) casHash
                       (i64 (fileSize - sample_size fileSize))).
Proof.
  unfold GeneratePoWChallenge. destruct (String.eqb_spec casHash ""); [done|].
  destruct rand as [b|]; [|done]. by intros [= <- <-].
Qed.

Lemma samples_ok data offsets n :
  Forall (fun o => 0 <= o) offsets ->
  samples data offsets n = Ok (concat ((fun o => ztake n (zdrop o data)) <$> offsets)).
Proof.
  induction 1 as [|o os Ho _ IH]; [done|]. cbn. unfold sample_at.
  destruct (Z.ltb_spec o 0); [lia|]. by rewrite IH.
Qed.

(** The first byte of an encoded file whose first chunk is below 16 MiB. *)
Lemma encode_first_byte key c cs :
  zlen c + TagSize < 2 ^ 24 -> exists rest, encode key (c :: cs) = 0 :: rest.
Proof.
  intros Hc. rewrite encode_cons. unfold packet. cbn [be_put app].
  eexists. f_equal. unfold u32, TagSize in *. pose proof (zlen_nonneg c).
  rewrite (Z.mod_small (zlen c + 16)) by lia.
  change (256 ^ Z.of_nat 3) with (2 ^ 24). by rewrite Z.div_small by lia.
Qed.

(** ** Properties *)

(** a generated challenge is answerable and within the file.  Its
    sample size is between 1 and 1024, it has at least one sample, every
    sample starts at a non-negative offset and, when the declared size is at
    least the sample size, ends within that size; it can be fetched under its
    nonce until it expires, not afterwards, and not once it is deleted. *)
Theorem pow_challenge_wellformed now rand st casHash fileSize st' ch :
  in_i64 fileSize -> 0 <= fileSize ->
  GeneratePoWChallenge now rand st casHash fileSize = (st', Ok ch) ->
  1 <= SampleSize ch <= DefaultSampleSize /\ Offsets ch <> [] /\
  Forall (fun o => 0 <= o /\ o + SampleSize ch <= Z.max fileSize (SampleSize ch)) (Offsets ch) /\
  (forall t, t <= now + ChallengeTTL -> GetPoWChallenge t st' (ChallengeNonce ch) = Some ch) /\
  (forall t, now + ChallengeTTL < t -> GetPoWChallenge t st' (ChallengeNonce ch) = None) /\
  (forall t, GetPoWChallenge t (DeletePoWChallenge st' (ChallengeNonce ch)) (ChallengeNonce ch) = None).
Proof.
  intros Hin Hpos (_ & _ & -> & Hss & Hexp & Hoff)%Generate_ok.
  pose proof (sample_size_bounds fileSize) as Hb. unfold DefaultSampleSize in Hb.
  rewrite i64_id in Hoff by (unfold in_i64 in *; lia).
  unfold GetPoWChallenge, DeletePoWChallenge. rewrite lookup_insert_eq, lookup_delete_eq, Hexp, Hss.
  split; [done|]. split; [by rewrite Hoff; destruct (_ <=? 0)|]. split; [|split; [|split]].
  - rewrite Hoff. destruct (Z.leb_spec (fileSize - sample_size fileSize) 0).
    + repeat constructor; lia.
    + eapply Forall_impl; [by apply derive_offsets_range|]. cbn. lia.
  - intros t Ht. by destruct (Z.ltb_spec (now + ChallengeTTL) t); [lia|].
  - intros t Ht. by destruct (Z.ltb_spec (now + ChallengeTTL) t); [|lia].
  - done.
Qed.

(** verification is exact.  For a generated challenge and any blob, a
    proof is accepted if and only if it is the hexadecimal HMAC, under the
    nonce, of the blob's bytes at the challenge's offsets; so two blobs
    accept the same proof whenever their samples agree. *)
Theorem pow_verify_exact now rand st casHash fileSize st' ch data proof :
  GeneratePoWChallenge now rand st casHash fileSize = (st', Ok ch) ->
  VerifyPoW data ch proof = true <->
  proof = EncodeToString (hmac_sha256 (bytes_of_string (ChallengeNonce ch))
    (concat ((fun o => ztake (SampleSize ch) (zdrop o data)) <$> Offsets ch))).
Proof.
  intros (_ & _ & _ & _ & _ & Hoff)%Generate_ok. unfold VerifyPoW, ComputeSampleHMAC.
  rewrite samples_ok.
  - rewrite String.eqb_eq. split; by intros ->.
  - rewrite Hoff. destruct (Z.leb_spec (i64 (fileSize - sample_size fileSize)) 0).
    + by repeat constructor.
    + eapply Forall_impl; [by apply derive_offsets_range|]. cbn. lia.
Qed.

(** the declared size weakens the challenge.  The size in the request is
    the client's: declaring 1 byte gives a challenge over the first byte of
    the stored blob only, and that byte is 0 in every encrypted file whose
    first chunk is below 16 MiB, so a proof computed without the file passes
    for all of them. *)
Theorem pow_size_one_forgeable now nonceBytes st casHash key c cs :
  casHash <> "" -> zlen c + TagSize < 2 ^ 24 ->
  exists st' ch, GeneratePoWChallenge now (Ok nonceBytes) st casHash 1 = (st', Ok ch) /\
    VerifyPoW (encode key (c :: cs)) ch
      (EncodeToString (hmac_sha256 (bytes_of_string (ChallengeNonce ch)) [0])) = true.
Proof.
  intros Hh Hc. unfold GeneratePoWChallenge.
  destruct (String.eqb_spec casHash ""); [done|]. eexists _, _. split; [done|].
  destruct (encode_first_byte key c cs Hc) as [rest ->].
  unfold VerifyPoW, ComputeSampleHMAC. cbn [Offsets SampleSize ChallengeNonce].
  change (samples (0 :: rest) _ (sample_size 1)) with (Ok (A:=bytes) [0]).
  apply String.eqb_refl.
Qed.

End PoWFacts.

Section PoWWitnesses.
Import ToyCrypto.

Definition toy_challenge : PoWChallenge :=
  mkChallenge "h" (EncodeToString [1; 2]) [0] 5 ChallengeTTL.

Lemma pow_challenge_wellformed_witness :
  GetPoWChallenge 7 {[EncodeToString [1; 2] := toy_challenge]} (EncodeToString [1; 2])
    = Some toy_challenge.
Proof.
  destruct (pow_challenge_wellformed 0 (Ok [1; 2]) ∅ "h" 5
    {[EncodeToString [1; 2] := toy_challenge]} toy_challenge) as (_ & _ & _ & Hget & _);
    [unfold in_i64; lia|lia|by vm_compute|].
  apply Hget. unfold ChallengeTTL. lia.
Defined.

Lemma pow_verify_exact_witness :
  VerifyPoW [9; 8; 7] toy_challenge
    (EncodeToString (hmac_sha256 (bytes_of_string (EncodeToString [1; 2])) [9; 8; 7])) = true.
Proof.
  apply (pow_verify_exact 0 (Ok [1; 2]) ∅ "h" 5
    {[EncodeToString [1; 2] := toy_challenge]} toy_challenge); [by vm_compute|done].
Defined.

Lemma pow_size_one_forgeable_witness :
  exists st' ch, GeneratePoWChallenge 0 (Ok [1; 2]) ∅ "h" 1 = (st', Ok ch) /\
    VerifyPoW (encode (replicate 32 7) [[65; 66]]) ch
      (EncodeToString (hmac_sha256 (bytes_of_string (ChallengeNonce ch)) [0])) = true.
Proof. by apply (pow_size_one_forgeable 0 [1; 2] ∅ "h" (replicate 32 7) [65; 66] []). Defined.

End PoWWitnesses.
