(* ===== verification/UploadSession.v ===== *)
(** * Resumable upload sessions (internal/upload/session.go)

    A session is a temporary file and a metadata file in TempDir.  The
    manager keeps the sessions in memory and reads them back from the
    metadata files when the process starts. *)

From S2P Require Import Prelude GoStrings FileSys.

#[local] Open Scope string_scope.
#[local] Open Scope list_scope.
#[local] Open Scope Z_scope.

(** ** Data *)

(** The [Mu] field is the lock the handlers hold while they use a session. *)
Record Session := mkSession {
  ID : string;
  OwnerID : Z;
  FolderID : string;
  Filename : string;
  MimeType : string;
  ExpectedSize : Z;
  UploadedSize : Z;
  TempFilePath : string;
  PlaintextHash : string;
  StartedAt : Z;
  LastActiveAt : Z
}.

Record SessionMetadata := mkMeta {
  m_ID : string;
  m_OwnerID : Z;
  m_FolderID : string;
  m_Filename : string;
  m_MimeType : string;
  m_ExpectedSize : Z;
  m_UploadedSize : Z;
  m_TempFilePath : string;
  m_PlaintextHash : string;
  m_StartedAt : Z;
  m_LastActiveAt : Z
}.

(** The conversions PersistSession and NewSessionManager write out. *)
Definition meta_of (s : Session) : SessionMetadata :=
  mkMeta (ID s) (OwnerID s) (FolderID s) (Filename s) (MimeType s) (ExpectedSize s)
    (UploadedSize s) (TempFilePath s) (PlaintextHash s) (StartedAt s) (LastActiveAt s).

Definition session_of (m : SessionMetadata) : Session :=
  mkSession (m_ID m) (m_OwnerID m) (m_FolderID m) (m_Filename m) (m_MimeType m)
    (m_ExpectedSize m) (m_UploadedSize m) (m_TempFilePath m) (m_PlaintextHash m)
    (m_StartedAt m) (m_LastActiveAt m).

Record SessionManager := mkSM { sessions : gmap string Session; TempDir : string }.

(** encoding/json on the metadata record; [None] is a decoding error. *)
Class MetaCodec := {
  marshal : SessionMetadata -> bytes;
  unmarshal : bytes -> option SessionMetadata
}.

(** Text that JSON reproduces exactly: ASCII. *)
Definition ascii_text (s : string) : bool :=
  string_forallb (fun c => byte_of_ascii c <? 128) s.

Definition meta_ascii (m : SessionMetadata) : bool :=
  ascii_text (m_ID m) && ascii_text (m_FolderID m) && ascii_text (m_Filename m)
  && ascii_text (m_MimeType m) && ascii_text (m_TempFilePath m) && ascii_text (m_PlaintextHash m).

Class MetaCodecLaws `{MetaCodec} : Prop := {
  unmarshal_marshal m : meta_ascii m = true -> unmarshal (marshal m) = Some m
}.

Section Sessions.
Context `{MetaCodec}.

(** ** Operations *)

Definition meta_name (id : string) : string := "upload_" +:+ id +:+ ".meta.json".
Definition temp_name (id : string) : string := "upload_" +:+ id +:+ ".tmp".

Definition metaPath (sm : SessionManager) (id : string) : string :=
  Join [TempDir sm; meta_name id].

Definition set_sessions (sm : SessionManager) (m : gmap string Session) : SessionManager :=
  mkSM m (TempDir sm).

Definition PersistSession (env : os_env) (sm : SessionManager) (fs : FS) (sess : Session)
  : FS * option gerror :=
  fs_write env fs (metaPath sm (ID sess)) (marshal (meta_of sess)).

Definition is_meta_name (n : string) : bool :=
  HasPrefix n "upload_" && HasSuffix n ".meta.json".

(** One directory entry of the restore loop. *)
Definition restore_entry (env : os_env) (tempDir : string)
    (st : FS * gmap string Session) (name : string) : FS * gmap string Session :=
  let '(fs, ss) := st in
  if negb (is_meta_name name) then st
  else
    let path := Join [tempDir; name] in
    match fs_read env fs path with
    | Err _ => st
    | Ok data =>
        match unmarshal data with
        | None => st
        | Some meta =>
            if fs_exists fs (m_TempFilePath meta) && negb (String.eqb (m_ID meta) "")
            then (fs, <[m_ID meta := session_of meta]> ss)
            else (fs_remove env fs path, ss)
        end
    end.

Definition NewSessionManager (env : os_env) (fs : FS) (tempDir : string)
  : FS * result SessionManager :=
  if negb (mkdir_ok env) then (fs, Err (err_os "mkdir"))
  else
    let '(fs', ss) := foldl (restore_entry env tempDir) (fs, ∅) (ReadDir fs tempDir) in
    (fs', Ok (mkSM ss tempDir)).

(** [rand]: the sixteen random bytes. *)
Definition GenerateID (rand : bytes) : string := EncodeToString rand.

Definition CreateSession (env : os_env) (rand : bytes) (sm : SessionManager) (fs : FS)
    (ownerID : Z) (folderID filename mimeType : string) (size : Z)
  : SessionManager * FS * result Session :=
  let id := GenerateID rand in
  let tempPath := Join [TempDir sm; temp_name id] in
  if create_ok env then
    let fs1 := <[tempPath := mkFile [] (env_now env)]> fs in
    let sess := mkSession id ownerID folderID filename mimeType size 0 tempPath ""
                  (env_now env) (env_now env) in
    let sm1 := set_sessions sm (<[id := sess]> (sessions sm)) in
    let '(fs2, _) := PersistSession env sm1 fs1 sess in
    (sm1, fs2, Ok sess)
  else (sm, fs, Err (err_os "create")).

Definition GetSession (sm : SessionManager) (id : string) : option Session := sessions sm !! id.

(** The sessions FindActiveSession may return: Go's map iteration order
    decides which. *)
Definition matches_active (fs : FS) (ownerID : Z) (folderID filename : string) (size : Z)
    (sess : Session) : bool :=
  (OwnerID sess =? ownerID) && String.eqb (FolderID sess) folderID
  && String.eqb (Filename sess) filename && (ExpectedSize sess =? size)
  && (UploadedSize sess <? ExpectedSize sess) && fs_exists fs (TempFilePath sess).

(** [order] is the order in which this run of the loop visits the map. *)
Definition FindActiveSession (order : list (string * Session) -> list (string * Session))
    (sm : SessionManager) (fs : FS) (ownerID : Z) (folderID filename : string) (size : Z)
  : option Session :=
  List.find (matches_active fs ownerID folderID filename size)
    (order (map_to_list (sessions sm))).*2.

Definition remove_session_files (env : os_env) (sm : SessionManager) (fs : FS)
    (id : string) (sess : Session) : FS :=
  fs_remove env (fs_remove env fs (TempFilePath sess)) (metaPath sm id).

Definition DeleteSession (env : os_env) (sm : SessionManager) (fs : FS) (id : string)
  : SessionManager * FS :=
  (set_sessions sm (delete id (sessions sm)),
   match sessions sm !! id with
   | Some sess => remove_session_files env sm fs id sess
   | None => fs
   end).

(** One session of the loops that delete while they iterate. *)
Definition cleanup_one (env : os_env) (expired : Session -> bool)
    (st : SessionManager * FS * Z) (e : string * Session) : SessionManager * FS * Z :=
  let '(sm, fs, n) := st in
  let '(id, sess) := e in
  if expired sess
  then (set_sessions sm (delete id (sessions sm)), remove_session_files env sm fs id sess, n + 1)
  else st.

Definition CleanupStaleSessions (env : os_env) (maxAge : Z) (sm : SessionManager) (fs : FS)
  : SessionManager * FS * Z :=
  foldl (cleanup_one env (fun s => maxAge <? env_now env - LastActiveAt s))
    (sm, fs, 0) (map_to_list (sessions sm)).

Definition is_upload_name (n : string) : bool :=
  HasPrefix n "upload_" && (HasSuffix n ".tmp" || HasSuffix n ".meta.json").

Definition PurgeAll (env : os_env) (sm : SessionManager) (fs : FS) : SessionManager * FS * Z :=
  let '(sm1, fs1, n) := foldl (cleanup_one env (fun _ => true)) (sm, fs, 0)
                          (map_to_list (sessions sm)) in
  (sm1,
   foldl (fun fs name => if is_upload_name name then fs_remove env fs (Join [TempDir sm; name]) else fs)
     fs1 (ReadDir fs1 (TempDir sm)), n).

End Sessions.
