(* ===== verification/UploadSessionProps.v ===== *)
(** * Upload sessions survive restarts and are cleaned up *)

From S2P Require Import Prelude GoStrings FileSys UploadSession.

#[local] Open Scope string_scope.
#[local] Open Scope list_scope.
#[local] Open Scope Z_scope.

(** Identifiers as [GenerateID] makes them: not empty, no separator. *)
Definition id_ok (id : string) : bool := no_slash id && negb (String.eqb id "").

Lemma id_ok_ne id : id_ok id = true -> String.eqb id "" = false.
Proof. unfold id_ok. intros [_ H]%andb_true_iff. by apply negb_true_iff. Qed.

Lemma meta_name_simple id : id_ok id = true -> simple_name (meta_name id) = true.
Proof.
  unfold id_ok, simple_name, meta_name. intros [Hid _]%andb_true_iff.
  rewrite !no_slash_app, Hid. done.
Qed.

Lemma temp_name_simple id : id_ok id = true -> simple_name (temp_name id) = true.
Proof.
  unfold id_ok, simple_name, temp_name. intros [Hid _]%andb_true_iff.
  rewrite !no_slash_app, Hid. done.
Qed.

Lemma simple_no_slash n : simple_name n = true -> no_slash n = true.
Proof. unfold simple_name. by destruct (no_slash n). Qed.

Lemma meta_name_meta id : is_meta_name (meta_name id) = true.
Proof.
  unfold is_meta_name, meta_name. rewrite HasPrefix_app. cbn [andb].
  rewrite <- str_app_assoc. apply HasSuffix_app.
Qed.

Lemma meta_name_inj a b : meta_name a = meta_name b -> a = b.
Proof. unfold meta_name. by intros ?%app_inj_r%str_app_inj_l. Qed.

Lemma temp_name_inj a b : temp_name a = temp_name b -> a = b.
Proof. unfold temp_name. by intros ?%app_inj_r%str_app_inj_l. Qed.

Lemma meta_temp_ne a b : meta_name a <> temp_name b.
Proof.
  unfold meta_name, temp_name. rewrite <- !str_app_assoc. by eapply suffix_ne.
Qed.

Lemma in_dir_inj d a b : d +:+ String slash a = d +:+ String slash b -> a = b.
Proof. intros He%app_inj_r. by injection He. Qed.

Section SessionFacts.
Context `{MetaCodecLaws}.

Definition temp_path (dir id : string) : string := dir +:+ String slash (temp_name id).
Definition meta_path (dir id : string) : string := dir +:+ String slash (meta_name id).

(** Every session in memory is on disk, and nothing else is. *)
Definition sess_inv (sm : SessionManager) (fs : FS) : Prop :=
  (forall id s, sessions sm !! id = Some s ->
     id_ok id = true /\ ID s = id /\ TempFilePath s = temp_path (TempDir sm) id /\
     is_Some (fs !! TempFilePath s) /\ meta_ascii (meta_of s) = true /\
     fs_data fs (meta_path (TempDir sm) id) = Some (marshal (meta_of s))) /\
  (forall n b m, is_meta_name n = true -> no_slash n = true ->
     fs_data fs (TempDir sm +:+ String slash n) = Some b -> unmarshal b = Some m ->
     is_Some (sessions sm !! m_ID m) /\ n = meta_name (m_ID m)).

Lemma metaPath_plain sm id :
  plain_dir (TempDir sm) -> id_ok id = true -> metaPath sm id = meta_path (TempDir sm) id.
Proof. intros Hd Hid. unfold metaPath. by rewrite Join_plain by auto using meta_name_simple. Qed.

Lemma meta_temp_path_ne d a b : meta_path d a <> temp_path d b.
Proof. intros He%in_dir_inj. by apply meta_temp_ne in He. Qed.

Lemma session_of_meta s : session_of (meta_of s) = s.
Proof. by destruct s. Qed.

Lemma restore_fold env sm fs ns ss :
  plain_dir (TempDir sm) -> read_ok env = true -> sess_inv sm fs ->
  (forall n, n ∈ ns -> no_slash n = true) -> ss ⊆ sessions sm ->
  exists ss', foldl (restore_entry env (TempDir sm)) (fs, ss) ns = (fs, ss') /\
    ss ⊆ ss' /\ ss' ⊆ sessions sm /\
    forall id s, sessions sm !! id = Some s -> meta_name id ∈ ns -> ss' !! id = Some s.
Proof.
  intros Hd Hr [Hmem Hdisk]. revert ss.
  induction ns as [|n ns IH]; intros ss Hns Hss.
  { exists ss. split; [done|]. split; [done|]. split; [done|]. by intros id s _ ?%not_elem_of_nil. }
  assert (exists ss1, restore_entry env (TempDir sm) (fs, ss) n = (fs, ss1) /\ ss ⊆ ss1 /\
    ss1 ⊆ sessions sm /\ forall id s, sessions sm !! id = Some s -> n = meta_name id -> ss1 !! id = Some s)
    as (ss1 & Hstep & Hsub & Hsub1 & Hgot).
  { cbn. destruct (is_meta_name n) eqn:Hn; cbn [negb].
    2:{ exists ss. split; [done|]. split; [done|]. split; [done|].
        intros id s _ ->. by rewrite meta_name_meta in Hn. }
    pose proof (Hns n ltac:(by left)) as Hslash.
    assert (simple_name n = true) as Hsimple.
    { unfold simple_name. rewrite Hslash. apply andb_true_iff in Hn as [Hp _].
      destruct (String.eqb_spec n ""), (String.eqb_spec n "."), (String.eqb_spec n ".."); by subst. }
    rewrite Join_plain by done. unfold fs_read.
    destruct (fs !! (TempDir sm +:+ String slash n)) as [f|] eqn:Hf.
    2:{ exists ss. split; [done|]. split; [done|]. split; [done|]. intros id s Hs ->.
        apply Hmem in Hs as (_ & _ & _ & _ & _ & Hdata). unfold fs_data, meta_path in Hdata.
        by rewrite Hf in Hdata. }
    rewrite Hr. destruct (unmarshal (f_data f)) as [m|] eqn:Hum.
    - destruct (Hdisk n (f_data f) m Hn Hslash ltac:(unfold fs_data; by rewrite Hf) Hum) as [[s Hs] ->].
      pose proof (Hmem _ _ Hs) as (Hid & HID & Htp & Htemp & Hasc & Hdata).
      unfold fs_data, meta_path in Hdata. rewrite Hf in Hdata. injection Hdata as Hdata.
      rewrite Hdata, unmarshal_marshal in Hum by done. injection Hum as <-. cbn [m_ID meta_of] in *.
      assert (fs_exists fs (m_TempFilePath (meta_of s)) = true) as -> by (by apply fs_exists_spec).
      rewrite (id_ok_ne (ID s) Hid).
      rewrite session_of_meta. eexists. split; [done|].
      assert (<[ID s := s]> ss ⊆ sessions sm) as Hsub1 by (by apply insert_subseteq_l).
      split; [|split; [done|]].
      + apply map_subseteq_spec. intros id x Hx. destruct (decide (ID s = id)) as [<-|Hne].
        * rewrite lookup_insert_eq. rewrite map_subseteq_spec in Hss. apply Hss in Hx. congruence.
        * by rewrite lookup_insert_ne.
      + intros id x Hx He. apply meta_name_inj in He as <-. rewrite lookup_insert_eq. congruence.
    - exists ss. split; [done|]. split; [done|]. split; [done|]. intros id s Hs ->.
      apply Hmem in Hs as (_ & _ & _ & _ & Hasc & Hdata). unfold fs_data, meta_path in Hdata.
      rewrite Hf in Hdata. injection Hdata as Hdata. rewrite Hdata, unmarshal_marshal in Hum; done. }
  change (foldl _ (fs, ss) (n :: ns)) with
    (foldl (restore_entry env (TempDir sm)) (restore_entry env (TempDir sm) (fs, ss) n) ns).
  rewrite Hstep. destruct (IH ss1 ltac:(intros; apply Hns; by right) Hsub1)
    as (ss' & -> & Hs1 & Hs2 & Hs3).
  exists ss'. split; [done|]. split; [by etrans|]. split; [done|].
  intros id s Hs Hin. apply elem_of_cons in Hin as [He|Hin]; [|by apply Hs3].
  rewrite map_subseteq_spec in Hs1. apply Hs1. by apply Hgot.
Qed.

(** C6: uploads survive a restart.  When every session of the manager is on
    disk and nothing else is, starting the program again over the same
    directory rebuilds exactly the same manager and leaves the files alone. *)
Theorem restart_restores_sessions env sm fs :
  plain_dir (TempDir sm) -> mkdir_ok env = true -> read_ok env = true -> sess_inv sm fs ->
  NewSessionManager env fs (TempDir sm) = (fs, Ok sm).
Proof.
  intros Hd Hmk Hr Hinv. unfold NewSessionManager. rewrite Hmk. cbn [negb].
  destruct (restore_fold env sm fs (ReadDir fs (TempDir sm)) ∅ Hd Hr Hinv)
    as (ss' & -> & _ & Hsub & Hall).
  { intros n. rewrite ReadDir_spec. tauto. }
  { apply map_empty_subseteq. }
  do 2 f_equal. destruct sm as [ss d]. cbn in *. f_equal. apply map_eq. intros id.
  apply option_eq. intros s. split; [apply (map_subseteq_spec ss' ss), Hsub|].
  intros Hs. apply Hall; [done|]. apply ReadDir_spec.
  destruct (proj1 Hinv id s Hs) as (Hid & _ & _ & _ & _ & Hdata).
  split; [by apply simple_no_slash, meta_name_simple|].
  unfold fs_data, meta_path in Hdata. cbn in Hdata. by destruct (fs !! _).
Qed.

(** ** The operations keep memory and disk in step *)

Lemma meta_name_not_temp n id : is_meta_name n = true -> n <> temp_name id.
Proof.
  intros [_ [r ->]%HasSuffix_inv]%andb_true_iff. unfold temp_name. rewrite <- str_app_assoc.
  by eapply suffix_ne.
Qed.

Lemma sess_inv_put sm fs fs' id s :
  sess_inv sm fs -> id_ok id = true -> ID s = id -> TempFilePath s = temp_path (TempDir sm) id ->
  meta_ascii (meta_of s) = true ->
  (forall p, p <> temp_path (TempDir sm) id -> p <> meta_path (TempDir sm) id -> fs' !! p = fs !! p) ->
  is_Some (fs' !! temp_path (TempDir sm) id) ->
  fs_data fs' (meta_path (TempDir sm) id) = Some (marshal (meta_of s)) ->
  sess_inv (set_sessions sm (<[id := s]> (sessions sm))) fs'.
Proof.
  intros [Hmem Hdisk] Hid HID Htp Hasc Hag Htemp Hmeta. split; cbn [sessions set_sessions TempDir].
  - intros id' s' [[<- <-]|[Hne Hs]]%lookup_insert_Some; [by rewrite Htp|].
    pose proof (Hmem _ _ Hs) as (Hid' & HID' & Htp' & Ht' & Ha' & Hd').
    do 3 (split; [done|]). rewrite Htp' in *. unfold fs_data in *.
    rewrite !Hag; [done|..]; try apply meta_temp_path_ne; try (apply not_eq_sym, meta_temp_path_ne);
      intros He%in_dir_inj; [apply meta_name_inj in He|apply temp_name_inj in He]; congruence.
  - intros n b m Hn Hslash Hb Hum. destruct (decide (n = meta_name id)) as [->|Hne].
    + unfold meta_path in Hmeta. rewrite Hmeta in Hb. injection Hb as <-.
      rewrite unmarshal_marshal in Hum by done. injection Hum as <-. cbn [m_ID meta_of].
      rewrite HID. rewrite lookup_insert_eq. by split; [eexists|].
    + unfold fs_data in Hb. rewrite Hag in Hb;
        [|intros He%in_dir_inj; by apply (meta_name_not_temp n id)|by intros ?%in_dir_inj].
      destruct (Hdisk n b m Hn Hslash Hb Hum) as [Hs ->]. split; [|done].
      apply lookup_insert_is_Some'. by right.
Qed.

Lemma sess_inv_delete sm fs fs' id :
  sess_inv sm fs ->
  (forall p, p <> temp_path (TempDir sm) id -> p <> meta_path (TempDir sm) id -> fs' !! p = fs !! p) ->
  fs' !! meta_path (TempDir sm) id = None ->
  sess_inv (set_sessions sm (delete id (sessions sm))) fs'.
Proof.
  intros [Hmem Hdisk] Hag Hmeta. split; cbn [sessions set_sessions TempDir].
  - intros id' s' [Hne Hs]%lookup_delete_Some.
    pose proof (Hmem _ _ Hs) as (Hid' & HID' & Htp' & Ht' & Ha' & Hd').
    do 3 (split; [done|]). rewrite Htp' in *. unfold fs_data in *.
    rewrite !Hag; [done|..]; try apply meta_temp_path_ne; try (apply not_eq_sym, meta_temp_path_ne);
      intros He%in_dir_inj; [apply meta_name_inj in He|apply temp_name_inj in He]; congruence.
  - intros n b m Hn Hslash Hb Hum. assert (n <> meta_name id) as Hne.
    { intros ->. unfold fs_data, meta_path in *. by rewrite Hmeta in Hb. }
    unfold fs_data in Hb. rewrite Hag in Hb;
      [|intros He%in_dir_inj; by apply (meta_name_not_temp n id)|by intros ?%in_dir_inj].
    destruct (Hdisk n b m Hn Hslash Hb Hum) as [[s Hs] ->]. split; [|done].
    rewrite lookup_delete_ne; [by exists s|]. intros He. apply Hne. by rewrite He.
Qed.

Lemma remove_files_lookup env sm fs id s p :
  remove_ok env = true ->
  remove_session_files env sm fs id s !! p
  = if decide (p = TempFilePath s \/ p = metaPath sm id) then None else fs !! p.
Proof.
  intros Hr. unfold remove_session_files, fs_remove. rewrite Hr.
  destruct (decide (p = metaPath sm id)) as [->|H1].
  { rewrite lookup_delete_eq. by rewrite decide_True by by right. }
  rewrite lookup_delete_ne by done. destruct (decide (p = TempFilePath s)) as [->|H2].
  { rewrite lookup_delete_eq. by rewrite decide_True by by left. }
  rewrite lookup_delete_ne by done. rewrite decide_False; [done|]. by intros [|].
Qed.

(** memory and disk stay in step.  Creating a session, persisting a
    changed one (same identifier and temporary file, as the handlers do) and
    deleting one keep every session of the manager restorable from disk, as
    long as the files can be written and removed. *)
Theorem session_operations_persist sm fs :
  plain_dir (TempDir sm) -> sess_inv sm fs ->
  (forall env rand owner folder name mime size,
     create_ok env = true -> copy_fails env = None -> id_ok (GenerateID rand) = true ->
     meta_ascii (mkMeta (GenerateID rand) owner folder name mime size 0
       (temp_path (TempDir sm) (GenerateID rand)) "" 0 0) = true ->
     exists s fs', CreateSession env rand sm fs owner folder name mime size
         = (set_sessions sm (<[GenerateID rand := s]> (sessions sm)), fs', Ok s) /\
       UploadedSize s = 0 /\ ExpectedSize s = size /\ fs_data fs' (TempFilePath s) = Some [] /\
       sess_inv (set_sessions sm (<[GenerateID rand := s]> (sessions sm))) fs') /\
  (forall env id s s', sessions sm !! id = Some s -> ID s' = id ->
     TempFilePath s' = TempFilePath s -> meta_ascii (meta_of s') = true ->
     create_ok env = true -> copy_fails env = None ->
     exists fs', PersistSession env sm fs s' = (fs', None) /\
       sess_inv (set_sessions sm (<[id := s']> (sessions sm))) fs') /\
  (forall env id, remove_ok env = true ->
     forall sm' fs', DeleteSession env sm fs id = (sm', fs') -> sess_inv sm' fs').
Proof.
  intros Hd Hinv. split; [|split].
  - intros env rand owner folder name mime size Hc Hw Hid Hasc. unfold CreateSession.
    rewrite Hc. set (id := GenerateID rand) in *.
    rewrite Join_plain by auto using temp_name_simple. fold (temp_path (TempDir sm) id).
    unfold PersistSession. cbn [ID]. rewrite metaPath_plain by done. cbn [TempDir set_sessions].
    unfold fs_write. rewrite Hc, Hw. eexists _, _. split; [done|]. split; [done|]. split; [done|].
    cbn [TempFilePath]. pose proof (meta_temp_path_ne (TempDir sm) id id) as Hne. split.
    + unfold fs_data. by rewrite lookup_insert_ne, lookup_insert_eq.
    + eapply (sess_inv_put sm fs); try done.
      * intros p Hp1 Hp2. by rewrite !lookup_insert_ne.
      * rewrite lookup_insert_ne by done. by rewrite lookup_insert_eq.
      * unfold fs_data. by rewrite lookup_insert_eq.
  - intros env id s s' Hs HID Htp Hasc Hc Hw.
    pose proof (proj1 Hinv _ _ Hs) as (Hid & HIDs & Htps & Htemp & _ & _).
    unfold PersistSession. rewrite HID, metaPath_plain by done. unfold fs_write.
    rewrite Hc, Hw. eexists. split; [done|].
    pose proof (meta_temp_path_ne (TempDir sm) id id) as Hne.
    eapply (sess_inv_put sm fs); try done; try congruence.
    + intros p Hp1 Hp2. by rewrite lookup_insert_ne.
    + rewrite lookup_insert_ne by done. by rewrite <- Htps.
    + unfold fs_data. by rewrite lookup_insert_eq.
  - intros env id Hr sm' fs' [= <- <-].
    destruct (sessions sm !! id) as [s|] eqn:Hs.
    + pose proof (proj1 Hinv _ _ Hs) as (Hid & HIDs & Htps & Htemp & _ & _).
      apply (sess_inv_delete sm fs); [done|..].
      * intros p Hp1 Hp2. rewrite remove_files_lookup, metaPath_plain, Htps by done.
        rewrite decide_False; [done|]. by intros [|].
      * rewrite remove_files_lookup, metaPath_plain by done. by rewrite decide_True by by right.
    + rewrite delete_id by done. by destruct sm.
Qed.

(** ** Deleting many sessions *)

(** The files of the sessions of a list. *)
Definition files_of (sm : SessionManager) (l : list (string * Session)) (p : string) : Prop :=
  Exists (fun e => p = TempFilePath e.2 \/ p = metaPath sm e.1) l.

#[local] Instance files_of_dec sm l p : Decision (files_of sm l p).
Proof. unfold files_of. apply _. Defined.

Definition selected (sel : Session -> bool) (l : list (string * Session)) :=
  filter (fun e => sel e.2 = true) l.

Lemma filter_everything {A} (P : A -> Prop) `{!forall x, Decision (P x)} (l : list A) :
  (forall x, P x) -> filter P l = l.
Proof.
  intros HP. induction l as [|x l IH]; [done|]. rewrite filter_cons_True by done. by f_equal.
Qed.

Lemma size_filter_list {A} (P : string * A -> Prop) `{!forall x, Decision (P x)} (m : gmap string A) :
  size (filter P m) = length (filter P (map_to_list m)).
Proof.
  rewrite <- length_map_to_list, map_filter_alt. rewrite map_to_list_to_map; [done|].
  apply (sublist_NoDup _ (map_to_list m).*1); [apply NoDup_fst_map_to_list|].
  apply fmap_sublist, sublist_filter.
Qed.

Lemma cleanup_fold env sel l sm fs n :
  remove_ok env = true ->
  exists sm' fs', foldl (cleanup_one env sel) (sm, fs, n) l = (sm', fs', n + zlen (selected sel l)) /\
    TempDir sm' = TempDir sm /\
    (forall id, sessions sm' !! id
       = if decide (id ∈ (selected sel l).*1) then None else sessions sm !! id) /\
    (forall p, fs' !! p = if decide (files_of sm (selected sel l) p) then None else fs !! p).
Proof.
  intros Hr. unfold selected. revert sm fs n. induction l as [|[id s] l IH]; intros sm fs n.
  { exists sm, fs. split; [by rewrite Z.add_0_r|]. split; [done|]. split; [done|]. intros p.
    rewrite decide_False; [done|]. by intros ?%Exists_nil. }
  cbn [foldl cleanup_one]. destruct (sel s) eqn:He.
  2:{ rewrite filter_cons_False by (cbn; congruence). apply IH. }
  rewrite filter_cons_True by done. cbn [fmap list_fmap fst].
  destruct (IH (set_sessions sm (delete id (sessions sm))) (remove_session_files env sm fs id s) (n + 1))
    as (sm' & fs' & -> & Hd & Hss & Hf).
  exists sm', fs'. split; [rewrite zlen_cons; f_equal; lia|]. split; [done|]. split.
  - intros id'. rewrite Hss. cbn [sessions set_sessions]. repeat case_decide; set_unfold; try tauto.
    + destruct (decide (id' = id)) as [->|]; [apply lookup_delete_eq|tauto].
    + by rewrite lookup_delete_ne by naive_solver.
  - intros p. rewrite Hf, remove_files_lookup by done. unfold files_of.
    rewrite (decide_ext (Exists _ ((id, s) :: _)) _ _ _ (Exists_cons _ _ _)). cbn [fst snd].
    change (metaPath (set_sessions sm _)) with (metaPath sm).
    repeat case_decide; tauto.
Qed.

(** clean-up removes exactly what expired.  CleanupStaleSessions
    returns the number of sessions idle for longer than [maxAge]; afterwards
    those are gone from memory with their two files, every other session is
    kept and no other file is touched. *)
Theorem cleanup_stale_exact env maxAge sm fs :
  remove_ok env = true ->
  let old s := maxAge <? env_now env - LastActiveAt s in
  exists sm' fs', CleanupStaleSessions env maxAge sm fs
      = (sm', fs', Z.of_nat (size (filter (fun e => old e.2 = true) (sessions sm)))) /\
    sessions sm' = filter (fun e => old e.2 = false) (sessions sm) /\
    (forall id s, sessions sm !! id = Some s -> old s = true ->
       fs' !! TempFilePath s = None /\ fs' !! metaPath sm id = None) /\
    (forall p, (forall id s, sessions sm !! id = Some s -> old s = true ->
                 p <> TempFilePath s /\ p <> metaPath sm id) -> fs' !! p = fs !! p).
Proof.
  intros Hr old.
  change (CleanupStaleSessions env maxAge sm fs)
    with (foldl (cleanup_one env old) (sm, fs, 0) (map_to_list (sessions sm))).
  destruct (cleanup_fold env old (map_to_list (sessions sm)) sm fs 0 Hr)
    as (sm' & fs' & -> & _ & Hss & Hf).
  assert (forall id s, (id, s) ∈ selected old (map_to_list (sessions sm)) <->
    sessions sm !! id = Some s /\ old s = true) as Hsel.
  { intros id s. unfold selected. rewrite list_elem_of_filter, elem_of_map_to_list. cbn. tauto. }
  exists sm', fs'. split; [|split; [|split]].
  - f_equal. unfold selected, zlen. rewrite Z.add_0_l. f_equal.
    symmetry. apply size_filter_list.
  - apply map_eq. intros id. rewrite Hss. apply option_eq. intros s.
    rewrite map_lookup_filter_Some. cbn. case_decide as Hin.
    + apply list_elem_of_fmap in Hin as ([id' s'] & -> & [Hs' Ho]%Hsel). cbn.
      split; [done|]. intros [Hs Ho']. simplify_eq. congruence.
    + split; [|tauto]. intros Hs. split; [done|]. apply not_true_iff_false. intros Ho.
      apply Hin, list_elem_of_fmap. exists (id, s). by rewrite Hsel.
  - intros id s Hs Ho. rewrite !Hf.
    split; rewrite decide_True; try done; apply Exists_exists; exists (id, s);
      (split; [by rewrite Hsel|]); [by left|by right].
  - intros p Hp. rewrite Hf, decide_False; [done|].
    intros ([id s] & [Hs Ho]%Hsel & Heq)%Exists_exists.
    destruct (Hp id s Hs Ho). by destruct Heq.
Qed.

Lemma purge_names_lookup env dir names fs p :
  remove_ok env = true ->
  foldl (fun fs name => if is_upload_name name then fs_remove env fs (Join [dir; name]) else fs)
    fs names !! p
  = if decide (Exists (fun n => is_upload_name n = true /\ p = Join [dir; n]) names)
    then None else fs !! p.
Proof.
  intros Hr. revert fs. induction names as [|n names IH]; intros fs.
  { rewrite decide_False; [done|]. by intros ?%Exists_nil. }
  cbn [foldl]. rewrite IH. rewrite (decide_ext (Exists _ (n :: _)) _ _ _ (Exists_cons _ _ _)).
  unfold fs_remove. rewrite Hr. destruct (is_upload_name n) eqn:Hn.
  - destruct (decide (p = Join [dir; n])) as [->|Hne].
    + rewrite lookup_delete_eq. rewrite (decide_True (P := _ \/ _)) by by left. by case_decide.
    + rewrite lookup_delete_ne by done. repeat case_decide; naive_solver.
  - repeat case_decide; naive_solver.
Qed.

(** purging leaves nothing behind.  PurgeAll returns the number of
    sessions and afterwards the manager is empty and the directory holds no
    upload file, orphaned ones included; a file outside the directory that
    belongs to no session is untouched. *)
Theorem purge_all_leaves_nothing env sm fs :
  plain_dir (TempDir sm) -> remove_ok env = true ->
  exists sm' fs', PurgeAll env sm fs = (sm', fs', Z.of_nat (size (sessions sm))) /\
    sessions sm' = ∅ /\
    (forall n, simple_name n = true -> is_upload_name n = true ->
       fs' !! (TempDir sm +:+ String slash n) = None) /\
    (forall p, (forall n, p <> Join [TempDir sm; n]) ->
       (forall id s, sessions sm !! id = Some s -> p <> TempFilePath s) -> fs' !! p = fs !! p).
Proof.
  intros Hd Hr. unfold PurgeAll.
  destruct (cleanup_fold env (fun _ => true) (map_to_list (sessions sm)) sm fs 0 Hr)
    as (sm' & fs' & -> & _ & Hss & Hf).
  assert (selected (fun _ => true) (map_to_list (sessions sm)) = map_to_list (sessions sm)) as Hall.
  { apply filter_everything. done. }
  rewrite Hall in *. eexists sm', _. split; [|split; [|split]].
  - f_equal. unfold zlen. rewrite Z.add_0_l. f_equal. apply length_map_to_list.
  - apply map_eq. intros id. rewrite Hss, lookup_empty. case_decide as Hin; [done|].
    apply eq_None_not_Some. intros [s Hs]. apply Hin, list_elem_of_fmap.
    exists (id, s). by rewrite elem_of_map_to_list.
  - intros n Hn Hu. rewrite purge_names_lookup by done. case_decide as Hex; [done|].
    apply eq_None_not_Some. intros Hs. apply Hex, Exists_exists. exists n.
    split; [|by rewrite Join_plain]. apply ReadDir_spec. split; [by apply simple_no_slash|done].
  - intros p Hp Hp'. rewrite purge_names_lookup, Hf by done.
    rewrite decide_False by (intros (n & _ & _ & He)%Exists_exists; by apply (Hp n)).
    rewrite decide_False; [done|]. intros ([id s] & Hin & Heq)%Exists_exists.
    apply elem_of_map_to_list in Hin. destruct Heq as [He|He]; [by apply (Hp' id s)|].
    by apply (Hp (meta_name id)).
Qed.

End SessionFacts.

(** ** A concrete codec, and witnesses *)

Module ToyCodec.

Definition meta_tuple (m : SessionMetadata) :=
  (m_ID m, m_OwnerID m, m_FolderID m, m_Filename m, m_MimeType m, m_ExpectedSize m,
   m_UploadedSize m, m_TempFilePath m, m_PlaintextHash m, m_StartedAt m, m_LastActiveAt m).

Definition meta_of_tuple
    (t : string * Z * string * string * string * Z * Z * string * string * Z * Z) :=
  let '(a, b, c, d, e, f, g, h, i, j, k) := t in mkMeta a b c d e f g h i j k.

#[export] Instance toy_codec : MetaCodec := {
  marshal m := [Z.pos (encode (meta_tuple m))];
  unmarshal b :=
    match b with
    | [Z.pos p] => meta_of_tuple <$> decode p
    | _ => None
    end
}.

#[export] Instance toy_codec_laws : MetaCodecLaws.
Proof.
  split. intros m _. unfold unmarshal, marshal, toy_codec. rewrite decode_encode. by destruct m.
Qed.

End ToyCodec.

Section SessionWitnesses.
Import ToyCodec.

Definition toy_session : Session :=
  mkSession "ab12" 1 "" "a.txt" "text/plain" 10 4 "tmp/upload_ab12.tmp" "" 100 200.
Definition toy_sm : SessionManager := mkSM {["ab12" := toy_session]} "tmp".
Definition toy_session_fs : FS :=
  <["tmp/upload_ab12.tmp" := mkFile [1; 2] 0]>
    {["tmp/upload_ab12.meta.json" := mkFile (marshal (meta_of toy_session)) 0]}.

Lemma toy_empty_inv : sess_inv (mkSM ∅ "tmp") ∅.
Proof.
  split.
  - intros id s Hs. cbn [sessions] in Hs. by rewrite lookup_empty in Hs.
  - intros n b m _ _ Hb. unfold fs_data in Hb. by rewrite lookup_empty in Hb.
Qed.

Lemma toy_sess_inv : sess_inv toy_sm toy_session_fs.
Proof.
  refine (sess_inv_put (mkSM ∅ "tmp") ∅ toy_session_fs "ab12" toy_session toy_empty_inv
    eq_refl eq_refl eq_refl eq_refl _ _ _); unfold toy_session_fs.
  - cbn [TempDir]. intros p Hp1 Hp2.
    rewrite lookup_insert_ne by (by apply not_eq_sym).
    by rewrite lookup_singleton_ne by (by apply not_eq_sym).
  - exists (mkFile [1; 2] 0). reflexivity.
  - unfold fs_data. reflexivity.
Qed.

Lemma toy_plain_dir : plain_dir "tmp".
Proof. by vm_compute. Qed.

Lemma restart_restores_sessions_witness :
  NewSessionManager (env_fine 0) toy_session_fs "tmp" = (toy_session_fs, Ok toy_sm).
Proof.
  apply (restart_restores_sessions (env_fine 0) toy_sm toy_session_fs);
    [apply toy_plain_dir|done|done|apply toy_sess_inv].
Defined.

Lemma session_operations_persist_witness :
  exists sm' fs', DeleteSession (env_fine 0) toy_sm toy_session_fs "ab12" = (sm', fs') /\
    sess_inv sm' fs'.
Proof.
  destruct (DeleteSession (env_fine 0) toy_sm toy_session_fs "ab12") as [sm' fs'] eqn:Hd.
  exists sm', fs'. split; [reflexivity|].
  destruct (session_operations_persist toy_sm toy_session_fs) as (_ & _ & Hdel);
    [apply toy_plain_dir|apply toy_sess_inv|].
  exact (Hdel (env_fine 0) "ab12" eq_refl sm' fs' Hd).
Defined.

Lemma cleanup_stale_exact_witness :
  exists sm' fs', CleanupStaleSessions (env_fine 1000) 500 toy_sm toy_session_fs = (sm', fs', 1) /\
    sessions sm' = ∅.
Proof.
  destruct (cleanup_stale_exact (env_fine 1000) 500 toy_sm toy_session_fs eq_refl)
    as (sm' & fs' & Hrun & Hs & _).
  exists sm', fs'. split; [exact Hrun|]. rewrite Hs. by vm_compute.
Defined.

Lemma purge_all_leaves_nothing_witness :
  exists sm' fs', PurgeAll (env_fine 0) toy_sm toy_session_fs = (sm', fs', 1) /\ sessions sm' = ∅.
Proof.
  destruct (purge_all_leaves_nothing (env_fine 0) toy_sm toy_session_fs)
    as (sm' & fs' & Hrun & Hs & _); [apply toy_plain_dir|done|].
  exists sm', fs'. split; [exact Hrun|exact Hs].
Defined.

End SessionWitnesses.
