(* ===== verification/VaultTree.v ===== *)
(** * Which folders are in the vault
    (internal/controllers/file_controller.go, upload_controller.go)

    The vault is the folder "f2" and everything below it.  The file
    controller computes it by a breadth-first search and caches it; the
    upload controller, used without a file controller, walks up from the
    folder instead. *)

From S2P Require Import Prelude.

#[local] Open Scope string_scope.
#[local] Open Scope list_scope.
#[local] Open Scope Z_scope.

(** The rows (id, parent_id) of the folders table; a NULL parent is [None]. *)
Abbreviation folder_rows := (list (string * option string)).

(** [fc.DB]: [None] when there is no database; [Some None] when the query
    fails. *)
Abbreviation folder_db := (option (option folder_rows)).

(** SELECT id, parent_id FROM folders WHERE parent_id IS NOT NULL AND
    parent_id != '' *)
Definition query_links (rows : folder_rows) : list (string * string) :=
  omap (fun r => match snd r with
                 | Some p => if String.eqb p "" then None else Some (fst r, p)
                 | None => None
                 end) rows.

Definition add_child (cm : gmap string (list string)) (l : string * string)
  : gmap string (list string) :=
  <[snd l := default [] (cm !! snd l) ++ [fst l]]> cm.

Definition childrenMap (links : list (string * string)) : gmap string (list string) :=
  foldl add_child ∅ links.

(** The cache fields of FileController. *)
Record vault_cache := mkVaultCache {
  vaultIDsMap : gset string;
  vaultIDsList : list string;
  vaultCacheValid : bool
}.

Definition InvalidateVaultCache (c : vault_cache) : vault_cache := mkVaultCache ∅ [] false.

(** The inner loop over the children of one folder. *)
Definition visit_child (st : gset string * list string * list string) (child : string)
  : gset string * list string * list string :=
  let '(seen, lst, queue) := st in
  if bool_decide (child ∈ seen) then st
  else ({[child]} ∪ seen, lst ++ [child], queue ++ [child]).

Fixpoint bfs (fuel : nat) (cm : gmap string (list string))
    (seen : gset string) (lst queue : list string) : gset string * list string :=
  match fuel with
  | O => (seen, lst)
  | S f =>
      match queue with
      | [] => (seen, lst)
      | curr :: queue' =>
          let '(seen', lst', queue'') :=
            foldl visit_child (seen, lst, queue') (default [] (cm !! curr)) in
          bfs f cm seen' lst' queue''
      end
  end.

(** Fuel: every folder enters the queue at most once. *)
Definition bfs_fuel (links : list (string * string)) : nat := S (S (length links)).

Definition loadVaultCacheLocked (db : folder_db) (c : vault_cache) : vault_cache :=
  if vaultCacheValid c then c
  else
    match db with
    | None | Some None => mkVaultCache {["f2"]} ["f2"] true
    | Some (Some rows) =>
        let links := query_links rows in
        let '(seen, lst) := bfs (bfs_fuel links) (childrenMap links) {["f2"]} ["f2"] ["f2"] in
        mkVaultCache seen lst true
    end.

Definition IsVaultFolder (db : folder_db) (c : vault_cache) (folderID : string)
  : vault_cache * bool :=
  if String.eqb folderID "f2" then (c, true)
  else if String.eqb folderID "" || String.eqb folderID "f1" || String.eqb folderID "f3"
  then (c, false)
  else
    let c' := loadVaultCacheLocked db c in
    (c', bool_decide (folderID ∈ vaultIDsMap c')).

Definition GetAllVaultFolderIDs (db : folder_db) (c : vault_cache) : vault_cache * list string :=
  let c' := loadVaultCacheLocked db c in (c', vaultIDsList c').

(** SELECT parent_id FROM folders WHERE id = ?: [None] is no row. *)
Definition query_parent (rows : folder_rows) (id : string) : option (option string) :=
  snd <$> List.find (fun r => String.eqb (fst r) id) rows.

(** The upward walk of UploadController.isVaultFolder. *)
Fixpoint walk_up (steps : nat) (rows : folder_rows) (curr : string) : bool :=
  match steps with
  | O => false
  | S n =>
      match query_parent rows curr with
      | None | Some None => false
      | Some (Some p) =>
          if String.eqb p "" then false
          else if String.eqb p "f2" then true
          else walk_up n rows p
      end
  end.

(** UploadController.isVaultFolder; [fileCtrl] is its FileCtrl field. *)
Definition isVaultFolder (fileCtrl : option vault_cache) (db : folder_db) (folderID : string)
  : option vault_cache * bool :=
  if String.eqb folderID "f2" then (fileCtrl, true)
  else if String.eqb folderID "" || String.eqb folderID "f1" || String.eqb folderID "f3"
  then (fileCtrl, false)
  else
    match fileCtrl with
    | Some c => let '(c', b) := IsVaultFolder db c folderID in (Some c', b)
    | None =>
        (None, match db with
               | Some (Some rows) => walk_up 50 rows folderID
               | _ => false
               end)
    end.

(** ** Specification: reachability along parent links *)

Definition is_child (links : list (string * string)) (p c : string) : Prop := (c, p) ∈ links.

Definition in_vault (rows : folder_rows) (id : string) : Prop :=
  rtc (is_child (query_links rows)) "f2" id.

(** ** The search is exact *)

Lemma childrenMap_spec links p c :
  c ∈ default [] (childrenMap links !! p) <-> is_child links p c.
Proof.
  unfold childrenMap, is_child. assert (forall cm, c ∈ default [] (foldl add_child cm links !! p)
    <-> c ∈ default [] (cm !! p) \/ (c, p) ∈ links) as Hgen.
  { induction links as [|[c' p'] links IH]; intros cm; cbn [foldl].
    - split; [by left|]. by intros [?|?%not_elem_of_nil].
    - rewrite IH. unfold add_child at 1. cbn [fst snd]. rewrite elem_of_cons.
      destruct (decide (p' = p)) as [->|Hne].
      + rewrite lookup_insert_eq. cbn. rewrite elem_of_app, list_elem_of_singleton. naive_solver.
      + rewrite lookup_insert_ne by done. naive_solver. }
  rewrite Hgen, lookup_empty. cbn. split; [|by right]. by intros [?%not_elem_of_nil|?].
Qed.

(** What one pass over the children of a folder does. *)
Lemma visit_children cs seen lst queue :
  exists new, foldl visit_child (seen, lst, queue) cs
      = (list_to_set new ∪ seen, lst ++ new, queue ++ new) /\
    (forall x, x ∈ new -> x ∈ cs /\ x ∉ seen) /\ (forall x, x ∈ cs -> x ∈ new \/ x ∈ seen) /\
    NoDup new.
Proof.
  revert seen lst queue. induction cs as [|c cs IH]; intros seen lst queue.
  { exists []. rewrite !app_nil_r. split.
    { cbn. by rewrite union_empty_l_L. }
    split; [set_solver|]. split; [set_solver|constructor]. }
  cbn [foldl visit_child]. case_bool_decide as Hc.
  - destruct (IH seen lst queue) as (new & -> & H1 & H2 & H3). exists new.
    split; [done|]. split; [set_solver|]. split; [set_solver|done].
  - destruct (IH ({[c]} ∪ seen) (lst ++ [c]) (queue ++ [c])) as (new & -> & H1 & H2 & H3).
    exists (c :: new). rewrite <- !app_assoc. split.
    { cbn. by rewrite union_assoc_L, (union_comm_L (list_to_set new)). }
    split; [set_solver|]. split; [set_solver|]. constructor; [set_solver|done].
Qed.

Lemma size_of_list (l : list string) : (size (list_to_set l : gset string) <= length l)%nat.
Proof.
  induction l as [|x l IH]; [done|]. cbn.
  pose proof (size_union_alt {[x]} (list_to_set l : gset string)) as Hu.
  assert (size (list_to_set l ∖ {[x]} : gset string) <= size (list_to_set l : gset string))%nat
    by (apply subseteq_size; set_solver).
  rewrite Hu, size_singleton. lia.
Qed.

Record bfs_inv (root : string) (links : list (string * string)) (seen : gset string) (lst queue : list string)
  : Prop := {
  bi_root : root ∈ seen;
  bi_reach x : x ∈ seen -> rtc (is_child links) root x;
  bi_queue x : x ∈ queue -> x ∈ seen;
  bi_done x y : x ∈ seen -> x ∉ queue -> is_child links x y -> y ∈ seen;
  bi_list x : x ∈ lst <-> x ∈ seen;
  bi_nodup : NoDup lst
}.

Definition universe (links : list (string * string)) : gset string :=
  list_to_set links.*1.

Lemma bfs_correct root links fuel seen lst queue :
  bfs_inv root links seen lst queue ->
  (length queue + size (universe links ∖ seen) < fuel)%nat ->
  exists seen' lst', bfs fuel (childrenMap links) seen lst queue = (seen', lst') /\
    (forall x, x ∈ seen' <-> rtc (is_child links) root x) /\
    (forall x, x ∈ lst' <-> x ∈ seen') /\ NoDup lst'.
Proof.
  revert seen lst queue. induction fuel as [|f IH]; intros seen lst queue [Hroot Hre Hq Hd Hl Hnd] Hf; [lia|].
  destruct queue as [|curr queue]; cbn [bfs].
  { exists seen, lst. split; [done|]. split; [|done]. intros x. split; [apply Hre|].
    revert x. apply (rtc_ind_r (fun x => x ∈ seen)); [done|].
    intros y z _ Hyz Hy. by apply (Hd y); [|apply not_elem_of_nil|]. }
  destruct (visit_children (default [] (childrenMap links !! curr)) seen lst queue)
    as (new & -> & H1 & H2 & H3).
  assert (forall x, x ∈ new -> is_child links curr x /\ x ∉ seen) as Hnew.
  { intros x Hx. destruct (H1 x Hx). by rewrite <- childrenMap_spec. }
  apply IH.
  - split.
    + set_solver.
    + intros x [Hx|Hx]%elem_of_union; [|by apply Hre].
      apply elem_of_list_to_set in Hx. apply Hnew in Hx as [Hc _].
      eapply rtc_r; [|exact Hc]. apply Hre, Hq. by left.
    + intros x [Hx|Hx]%elem_of_app; [|set_solver]. set_solver.
    + intros x y Hx Hnq Hc. destruct (decide (x = curr)) as [->|Hne].
      * apply childrenMap_spec in Hc. apply H2 in Hc. set_solver.
      * assert (x ∈ seen) as Hxs by set_solver. apply elem_of_union_r. apply (Hd x y); [done| |done].
        set_solver.
    + intros x. rewrite elem_of_app, elem_of_union, elem_of_list_to_set, Hl. tauto.
    + apply NoDup_app. split; [done|]. split; [|done]. intros x Hx Hxn.
      apply Hnew in Hxn as [_ Hns]. by apply Hns, Hl.
  - cbn [length] in Hf. rewrite length_app.
    assert (size (universe links ∖ seen) =
      length new + size (universe links ∖ (list_to_set new ∪ seen)))%nat as Hsz; [|lia].
    rewrite <- (size_list_to_set (C := gset string) new) by done. rewrite <- size_union by set_solver.
    f_equal. apply set_eq. intros x. rewrite elem_of_union, !elem_of_difference.
    assert (x ∈ (list_to_set new : gset string) -> x ∈ universe links /\ x ∉ seen).
    { intros Hx%elem_of_list_to_set. apply Hnew in Hx as [Hc Hs]. split; [|done].
      apply elem_of_list_to_set, list_elem_of_fmap. by exists (x, curr). }
    destruct (decide (x ∈ (list_to_set new : gset string))); set_solver.
Qed.

Lemma load_valid db c : vaultCacheValid c = true -> loadVaultCacheLocked db c = c.
Proof. unfold loadVaultCacheLocked. by intros ->. Qed.

Lemma load_exact rows c :
  vaultCacheValid c = false ->
  let c' := loadVaultCacheLocked (Some (Some rows)) c in
  vaultCacheValid c' = true /\ (forall x, x ∈ vaultIDsMap c' <-> in_vault rows x) /\
  (forall x, x ∈ vaultIDsList c' <-> in_vault rows x) /\ NoDup (vaultIDsList c').
Proof.
  intros Hv. unfold loadVaultCacheLocked. rewrite Hv.
  destruct (bfs_correct "f2" (query_links rows) (bfs_fuel (query_links rows)) {["f2"]} ["f2"] ["f2"])
    as (seen & lst & -> & Hs & Hl & Hn).
  - split; try set_solver. apply NoDup_singleton.
  - unfold bfs_fuel. cbn [length].
    assert (size (universe (query_links rows) ∖ {["f2"]}) <= length (query_links rows))%nat; [|lia].
    transitivity (size (universe (query_links rows))).
    + apply subseteq_size. set_solver.
    + unfold universe. rewrite <- (length_fmap fst). apply size_of_list.
  - cbn. split; [done|]. split; [done|]. split; [|done]. intros x. by rewrite Hl.
Qed.

(** ** The upward walk *)

(** [id] has the ancestor "f2" after at most [n] parent links. *)
Inductive up_to_vault (rows : folder_rows) : nat -> string -> Prop :=
| up_here n id : query_parent rows id = Some (Some "f2") -> up_to_vault rows (S n) id
| up_next n id p : query_parent rows id = Some (Some p) -> p <> "" -> p <> "f2" ->
    up_to_vault rows n p -> up_to_vault rows (S n) id.

Lemma walk_up_spec n rows id : walk_up n rows id = true <-> up_to_vault rows n id.
Proof.
  revert id. induction n as [|n IH]; intros id; cbn [walk_up].
  { split; [done|inversion 1]. }
  destruct (query_parent rows id) as [[p|]|] eqn:Hq.
  - destruct (String.eqb_spec p ""); [|destruct (String.eqb_spec p "f2")]; subst.
    + split; [done|]. inversion 1; congruence.
    + split; [|done]. intros _. by constructor.
    + rewrite IH. split; [intros; by eapply up_next|]. inversion 1; congruence.
  - split; [done|]. inversion 1; congruence.
  - split; [done|]. inversion 1; congruence.
Qed.

Lemma query_parent_in rows id p :
  NoDup rows.*1 -> p <> "" ->
  query_parent rows id = Some (Some p) <-> is_child (query_links rows) p id.
Proof.
  intros Hnd Hp. unfold query_parent, is_child, query_links.
  rewrite list_elem_of_omap. split.
  - intros Hq. destruct (List.find _ rows) as [[i q]|] eqn:Hf; [|done]. cbn in Hq.
    injection Hq as ->. apply List.find_some in Hf as [Hin He]. cbn in He.
    apply String.eqb_eq in He as ->. exists (id, Some p). rewrite list_elem_of_In. split; [done|].
    cbn. by destruct (String.eqb_spec p "").
  - intros ([i [q|]] & Hin & He); cbn in He; [|done].
    destruct (String.eqb_spec q ""); [done|]. injection He as -> ->.
    destruct (List.find _ rows) as [[i q]|] eqn:Hf.
    + apply List.find_some in Hf as [Hin' He]. cbn in He. apply String.eqb_eq in He as ->. cbn.
      f_equal. rewrite <- list_elem_of_In in Hin'.
      by apply (NoDup_fst_fun rows id).
    + apply List.find_none with (x := (id, Some p)) in Hf; [|by rewrite <- list_elem_of_In].
      cbn in Hf. by rewrite String.eqb_refl in Hf.
Qed.

(** ** Properties *)

(** the vault is exactly the subtree of "f2".  With a reachable database
    and a fresh cache, IsVaultFolder says yes for precisely the folders that
    have "f2" as an ancestor or are it (the two other roots excepted), the
    answer is cached without change, and GetAllVaultFolderIDs lists the same
    folders, each once; cyclic parent links do not matter. *)
Theorem vault_cache_exact rows c id :
  vaultCacheValid c = false ->
  id <> "" -> id <> "f1" -> id <> "f3" ->
  let '(c1, b) := IsVaultFolder (Some (Some rows)) c id in
  (b = true <-> in_vault rows id) /\
  (vaultCacheValid c1 = true -> forall db, IsVaultFolder db c1 id = (c1, b)) /\
  (let '(c2, l) := GetAllVaultFolderIDs (Some (Some rows)) c in
   NoDup l /\ forall x, x ∈ l <-> in_vault rows x).
Proof.
  intros Hv H0 H1 H3. pose proof (load_exact rows c Hv) as (Hv' & Hm & Hl & Hnd).
  unfold IsVaultFolder, GetAllVaultFolderIDs.
  assert (String.eqb id "" || String.eqb id "f1" || String.eqb id "f3" = false) as Hroots.
  { destruct (String.eqb_spec id ""), (String.eqb_spec id "f1"), (String.eqb_spec id "f3"); done. }
  rewrite Hroots. destruct (String.eqb_spec id "f2") as [->|Hf2].
  - split; [|done]. split; [|done]. intros _. apply rtc_refl.
  - rewrite bool_decide_eq_true. split; [apply Hm|]. split; [|done].
    intros _ db. cbv zeta. by rewrite (load_valid db _ Hv').
Qed.

(** the upward walk agrees with the search only near the root.  With
    unique folder identifiers, the walk answers yes exactly when "f2" is at
    most 50 parent links above the folder; what it accepts is in the vault,
    and a folder whose path to "f2" is longer is in the vault for the search
    and outside it for the walk. *)
Theorem vault_walk_bounded rows id :
  NoDup rows.*1 ->
  (walk_up 50 rows id = true <-> up_to_vault rows 50 id) /\
  (walk_up 50 rows id = true -> in_vault rows id) /\
  (forall n, up_to_vault rows n id -> ~ up_to_vault rows 50 id ->
     in_vault rows id /\ walk_up 50 rows id = false).
Proof.
  intros Hnd. assert (forall n, up_to_vault rows n id -> in_vault rows id) as Hin.
  { induction 1 as [n i Hq|n i p Hq Hp _ _ IH]; apply query_parent_in in Hq; try done.
    - by apply rtc_once.
    - by eapply rtc_r. }
  split; [apply walk_up_spec|]. split.
  - intros Hw%walk_up_spec. by apply (Hin 50%nat).
  - intros n Hn Hnot. split; [by apply (Hin n)|]. apply not_true_iff_false.
    by rewrite walk_up_spec.
Qed.

(** ** Witnesses *)

Definition toy_folders : folder_rows :=
  [("a", Some "f2"); ("b", Some "a"); ("c", Some "b"); ("d", None); ("e", Some "d")].

Lemma vault_cache_exact_witness :
  let '(c1, b) := IsVaultFolder (Some (Some toy_folders)) (mkVaultCache ∅ [] false) "c" in
  b = true <-> in_vault toy_folders "c".
Proof.
  destruct (vault_cache_exact toy_folders (mkVaultCache ∅ [] false) "c") as [H _]; [done..|].
  exact H.
Defined.

(** A chain of [n] folders below "f2". *)
Fixpoint deep_chain (n : nat) (parent : string) : folder_rows :=
  match n with
  | O => []
  | S m => let id := parent +:+ "x" in (id, Some parent) :: deep_chain m id
  end.

Lemma vault_walk_bounded_witness :
  let rows := deep_chain 51 "f2" in
  in_vault rows (List.last rows.*1 "") /\ walk_up 50 rows (List.last rows.*1 "") = false.
Proof.
  apply (proj2 (proj2 (vault_walk_bounded (deep_chain 51 "f2") (List.last (deep_chain 51 "f2").*1 "")
    ltac:(apply (bool_decide_unpack _); by vm_compute))) 51%nat).
  - apply walk_up_spec. by vm_compute.
  - rewrite <- walk_up_spec. by vm_compute.
Defined.
