(* ===== verification/Auth.v ===== *)
(** * Vault sessions and request authentication
    (internal/auth/session.go, middleware.go)

    Vault keys live in RAM only, under a session identifier, until they
    expire, are locked or are purged.  The key slices are shared between the
    store and the requests that hold them and are overwritten in place when a
    session ends, so they are modelled as buffers in a heap. *)

From S2P Require Import Prelude GoStrings CryptoPrims CryptoVault.

#[local] Open Scope string_scope.
#[local] Open Scope list_scope.
#[local] Open Scope Z_scope.

(** ** State *)

(** A key slice: the name of its backing buffer. *)
Abbreviation key_ref := nat.
Abbreviation key_heap := (gmap nat bytes).

Record sessionEntry := mkEntry { key : key_ref; expiresAt : Z }.

Record SessionStore := mkStore { vaultKeys : gmap string sessionEntry; heap : key_heap }.

Definition empty_store : SessionStore := mkStore ∅ ∅.

(** A newly allocated slice. *)
Definition alloc_key (s : SessionStore) (b : bytes) : SessionStore * key_ref :=
  let r := fresh (dom (heap s)) in (mkStore (vaultKeys s) (<[r := b]> (heap s)), r).

(** [time.Now().After(t)] *)
Definition after (now t : Z) : bool := t <? now.

Definition hour : Z := 3600 * 1000000000.

(** ** SessionStore *)

Definition SetKeyWithTTL (now : Z) (s : SessionStore) (sessionID : string) (vk : key_ref) (ttl : Z)
  : SessionStore :=
  mkStore (<[sessionID := mkEntry vk (now + ttl)]> (vaultKeys s)) (heap s).

Definition SetKey (now : Z) (s : SessionStore) (sessionID : string) (vk : key_ref) : SessionStore :=
  SetKeyWithTTL now s sessionID vk (24 * hour).

Definition GetKey (now : Z) (s : SessionStore) (sessionID : string) : option key_ref :=
  match vaultKeys s !! sessionID with
  | Some entry => if after now (expiresAt entry) then None else Some (key entry)
  | None => None
  end.

Definition HasKey (now : Z) (s : SessionStore) (sessionID : string) : bool :=
  match vaultKeys s !! sessionID with
  | Some entry => negb (after now (expiresAt entry))
  | None => false
  end.

(** [rand.Read(entry.key)]: [rnd] gives the bytes each buffer is filled with. *)
Definition scrub (rnd : key_ref -> bytes) (h : key_heap) (r : key_ref) : key_heap := <[r := rnd r]> h.

Definition DeleteKey (rnd : key_ref -> bytes) (s : SessionStore) (sessionID : string) : SessionStore :=
  match vaultKeys s !! sessionID with
  | Some entry => mkStore (delete sessionID (vaultKeys s)) (scrub rnd (heap s) (key entry))
  | None => s
  end.

(** One step of the loops that delete while they range over the map. *)
Definition drop_entry (rnd : key_ref -> bytes) (dead : sessionEntry -> bool)
    (st : SessionStore * Z) (e : string * sessionEntry) : SessionStore * Z :=
  let '(s, n) := st in
  if dead (snd e)
  then (mkStore (delete (fst e) (vaultKeys s)) (scrub rnd (heap s) (key (snd e))), n + 1)
  else st.

Definition CleanupStaleKeys (now : Z) (rnd : key_ref -> bytes) (s : SessionStore)
  : SessionStore * Z :=
  foldl (drop_entry rnd (fun e => after now (expiresAt e))) (s, 0) (map_to_list (vaultKeys s)).

Definition Purge (rnd : key_ref -> bytes) (s : SessionStore) : SessionStore :=
  fst (foldl (drop_entry rnd (fun _ => true)) (s, 0) (map_to_list (vaultKeys s))).

(** ** Unlocking the vault *)

Section Unlock.
Context `{CryptoPrims}.

(** A row of the users table, as VerifyAndUnlockVault scans it. *)
Record user_row := mkUser {
  password_hash : string;
  salt : bytes;
  encrypted_vault_key : bytes
}.

(** [db]: [None] when the connection is missing, otherwise the users by id.
    [mockFn]: the verifier set by tests. [rand]: sixteen random bytes. *)
Definition VerifyAndUnlockVault (now : Z) (rand : bytes) (mockFn : option (string -> option bytes))
    (db : option (gmap Z user_row)) (s : SessionStore) (userID : Z) (password : string)
  : SessionStore * result (string * key_ref) :=
  let fail msg := (s, Err (ErrMsg msg)) in
  let sessionID := "sess_" +:+ EncodeToString rand in
  let unlock vk :=
    let '(s1, r) := alloc_key s vk in (SetKey now s1 sessionID r, Ok (sessionID, r)) in
  if String.eqb password "" then fail "password cannot be empty"
  else
    match mockFn with
    | Some f => match f password with Some vk => unlock vk | None => fail "invalid master password" end
    | None =>
        match db with
        | None => fail "database connection unavailable"
        | Some users =>
            match users !! userID with
            | None => fail "user not found or invalid credentials"
            | Some u =>
                match DecodeString (password_hash u) with
                | None => fail "invalid stored password hash format"
                | Some expectedHash =>
                    if zlen expectedHash =? 0 then fail "invalid stored password hash format"
                    else
                      let mek := DeriveMEK (bytes_of_string password) (salt u) in
                      if negb (bool_decide (mek = expectedHash)) then fail "invalid master password"
                      else
                        match DecryptBlock (encrypted_vault_key u) mek with
                        | Err _ => fail "failed to decrypt vault key: "
                        | Ok vk => unlock vk
                        end
                end
            end
        end
    end.

Definition VerifyMasterPassword (now : Z) (rand : bytes) (mockFn : option (string -> option bytes))
    (db : option (gmap Z user_row)) (s : SessionStore) (password : string) : SessionStore * bool :=
  if String.eqb password "" then (s, false)
  else
    match db, mockFn with
    | None, None => (s, false)
    | _, _ =>
        let '(s', r) := VerifyAndUnlockVault now rand mockFn db s 1 password in
        (s', match r with Ok _ => true | Err _ => false end)
    end.

End Unlock.

(** ** User sessions *)

Record userSessionEntry := mkUserSession { UserID : Z; ExpiresAt : Z }.
Abbreviation user_sessions := (gmap string userSessionEntry).

Definition UserSessionTTL : Z := 30 * 24 * hour.

(** [rand]: twenty-four random bytes. *)
Definition CreateUserSession (now : Z) (rand : bytes) (us : user_sessions) (userID : Z)
  : user_sessions * string :=
  let sessID := "usr_" +:+ EncodeToString rand in
  (<[sessID := mkUserSession userID (now + UserSessionTTL)]> us, sessID).

Definition ValidateUserSession (now : Z) (us : user_sessions) (sessID : string) : option Z :=
  if String.eqb sessID "" then None
  else
    match us !! sessID with
    | Some entry => if after now (ExpiresAt entry) then None else Some (UserID entry)
    | None => None
    end.

(** What the middlewares read of a request. *)
Record request := mkReq {
  Authorization : string;
  cookies : gmap string string;
  RealIP : string
}.

Definition UserSessionCookieName : string := "hornetz_user_session".

(** GetUserID over the context value "user_id". *)
Definition GetUserID (user_id : option Z) : Z :=
  match user_id with
  | Some uid => if 0 <? uid then uid else 1
  | None => 1
  end.

(** A middleware's decision: run the next handler as a user, possibly setting
    the session cookie, or answer 401. *)
Inductive decision :=
| Next (user_id : Z) (set_cookie : option string)
| Unauthorized.

Definition is_loopback (ip : string) : bool :=
  String.eqb ip "127.0.0.1" || String.eqb ip "::1" || String.eqb ip "".

Definition EnsureDashboardSession (now : Z) (rand : bytes) (us : user_sessions) (r : request)
  : user_sessions * decision :=
  let valid :=
    match cookies r !! UserSessionCookieName with
    | Some v => ValidateUserSession now us v
    | None => None
    end in
  match valid with
  | Some userID => (us, Next userID None)
  | None => let '(us', sessID) := CreateUserSession now rand us 1 in (us', Next 1 (Some sessID))
  end.

(** The session identifier RequireAuth settles on (lines 107-120). *)
Definition request_session (r : request) : string :=
  let sessID := if HasPrefix (Authorization r) "Bearer " then TrimPrefix (Authorization r) "Bearer " else "" in
  if String.eqb sessID "" then default "" (cookies r !! UserSessionCookieName) else sessID.

Definition RequireAuth (now : Z) (rand : bytes) (vault : SessionStore) (us : user_sessions) (r : request)
  : user_sessions * decision :=
  let sessID := request_session r in
  let unlocked :=
    match cookies r !! "swarm_session" with
    | Some v => HasKey now vault v
    | None => false
    end in
  if String.eqb sessID "" && unlocked then (us, Next 1 None)
  else
    match (if String.eqb sessID "" then None else ValidateUserSession now us sessID) with
    | Some userID => (us, Next userID None)
    | None =>
        if is_loopback (RealIP r) then
          let '(us', newSess) := CreateUserSession now rand us 1 in (us', Next 1 (Some newSess))
        else (us, Unauthorized)
    end.

(** VaultKeyMiddleware: the context values "vault_key" and
    "vault_authenticated" it sets. *)
Definition VaultKeyMiddleware (now : Z) (vault : SessionStore) (dummyVK : option bytes) (r : request)
  : (key_ref + option bytes) * bool :=
  match cookies r !! "swarm_session" with
  | Some v => match GetKey now vault v with Some vk => (inl vk, true) | None => (inr dummyVK, false) end
  | None => (inr dummyVK, false)
  end.

(** LockVault: the store afterwards; the cookie is always cleared. *)
Definition LockVault (rnd : key_ref -> bytes) (vault : SessionStore) (r : request) : SessionStore :=
  match cookies r !! "swarm_session" with
  | Some v => DeleteKey rnd vault v
  | None => vault
  end.

(** LoginMock: status code and the session cookie.  [bind] is what binding
    the body gives. *)
Definition LoginMock `{CryptoPrims} (now : Z) (rand : bytes) (mockFn : option (string -> option bytes))
    (db : option (gmap Z user_row)) (s : SessionStore) (bind : option string) (user_id : option Z)
  : SessionStore * (Z * option string) :=
  match bind with
  | None => (s, (400, None))
  | Some password =>
      if String.eqb password "" then (s, (401, None))
      else
        match VerifyAndUnlockVault now rand mockFn db s (GetUserID user_id) password with
        | (s', Err _) => (s', (401, None))
        | (s', Ok (sessionID, _)) => (s', (200, Some sessionID))
        end
  end.

(** ** Lemmas *)

Lemma drop_fold rnd dead l s n :
  exists s', foldl (drop_entry rnd dead) (s, n) l
      = (s', n + zlen (filter (fun e => dead e.2 = true) l)) /\
    (forall id, vaultKeys s' !! id
      = if decide (id ∈ (filter (fun e => dead e.2 = true) l).*1) then None else vaultKeys s !! id) /\
    (forall r, heap s' !! r
      = if decide (Exists (fun e => key e.2 = r) (filter (fun e => dead e.2 = true) l))
        then Some (rnd r) else heap s !! r).
Proof.
  revert s n. induction l as [|[id e] l IH]; intros s n.
  { exists s. rewrite Z.add_0_r. split; [done|]. split; [done|]. intros r.
    by rewrite decide_False by (by intros ?%Exists_nil). }
  cbn [foldl]. unfold drop_entry at 2. cbn [fst snd]. destruct (dead e) eqn:Hd.
  2:{ rewrite filter_cons_False by (cbn; congruence). apply IH. }
  rewrite filter_cons_True by done. cbn [fmap list_fmap fst].
  destruct (IH (mkStore (delete id (vaultKeys s)) (scrub rnd (heap s) (key e))) (n + 1))
    as (s' & -> & Hv & Hh).
  exists s'. split; [rewrite zlen_cons; f_equal; lia|]. split.
  - intros id'. rewrite Hv. cbn [vaultKeys]. repeat case_decide; set_unfold; try tauto.
    + destruct (decide (id' = id)) as [->|]; [apply lookup_delete_eq|tauto].
    + by rewrite lookup_delete_ne by naive_solver.
  - intros r. rewrite Hh. cbn [heap]. unfold scrub.
    rewrite (decide_ext (Exists _ ((id, e) :: _)) _ _ _ (Exists_cons _ _ _)). cbn [snd].
    destruct (decide (key e = r)) as [->|Hne].
    + rewrite lookup_insert_eq. rewrite (decide_True (P := _ \/ _)) by by left. by case_decide.
    + rewrite lookup_insert_ne by done. repeat case_decide; tauto.
Qed.

Lemma alloc_key_fresh s b s1 r :
  alloc_key s b = (s1, r) -> heap s !! r = None /\ heap s1 = <[r := b]> (heap s) /\
    vaultKeys s1 = vaultKeys s.
Proof.
  unfold alloc_key. intros [= <- <-]. split; [|done].
  apply not_elem_of_dom. apply is_fresh.
Qed.

(** ** Who gets in, and what is erased *)

Lemma GetKey_spec now s id r :
  GetKey now s id = Some r <->
  exists e, vaultKeys s !! id = Some e /\ now <= expiresAt e /\ key e = r.
Proof.
  unfold GetKey, after. destruct (vaultKeys s !! id) as [e|].
  - destruct (Z.ltb_spec (expiresAt e) now).
    + split; [done|]. intros (? & [= <-] & ? & _). lia.
    + split; [intros [= <-]; by exists e|]. by intros (? & [= <-] & _ & ->).
  - split; [done|]. by intros (? & ? & _).
Qed.

Lemma HasKey_spec now s id :
  HasKey now s id = true <-> exists e, vaultKeys s !! id = Some e /\ now <= expiresAt e.
Proof.
  unfold HasKey, after. destruct (vaultKeys s !! id) as [e|].
  - rewrite negb_true_iff, Z.ltb_ge. split; [intros; by exists e|]. by intros (? & [= <-] & ?).
  - split; [done|]. by intros (? & ? & _).
Qed.

Lemma ValidateUserSession_spec now us id uid :
  ValidateUserSession now us id = Some uid <->
  id <> "" /\ exists e, us !! id = Some e /\ now <= ExpiresAt e /\ UserID e = uid.
Proof.
  unfold ValidateUserSession, after. destruct (String.eqb_spec id "") as [->|Hne].
  { split; [done|]. by intros [? _]. }
  destruct (us !! id) as [e|].
  - destruct (Z.ltb_spec (ExpiresAt e) now).
    + split; [done|]. intros (_ & ? & [= <-] & ? & _). lia.
    + split; [intros [= <-]; split; [done|]; by exists e|]. by intros (_ & ? & [= <-] & _ & ->).
  - split; [done|]. by intros (_ & ? & ? & _).
Qed.

(** A live user session under the identifier the request presents. *)
Definition live_session (now : Z) (us : user_sessions) (r : request) (uid : Z) : Prop :=
  request_session r <> "" /\
  exists e, us !! request_session r = Some e /\ now <= ExpiresAt e /\ UserID e = uid.

(** No identifier presented, but an unlocked vault. *)
Definition live_vault (now : Z) (vault : SessionStore) (r : request) : Prop :=
  request_session r = "" /\
  exists v e, cookies r !! "swarm_session" = Some v /\
    vaultKeys vault !! v = Some e /\ now <= expiresAt e.

(** RequireAuth admits exactly the authenticated.  A request from
    elsewhere than the loopback address is let through as user [uid] if and
    only if the identifier it presents (the bearer token, else the session
    cookie) names a live session of [uid], or it presents none, [uid] is 1
    and its vault cookie names a live vault session; nothing changes.  A
    loopback request is always let through. *)
Theorem require_auth_decision now rand vault us r us' d :
  RequireAuth now rand vault us r = (us', d) ->
  (is_loopback (RealIP r) = false ->
     us' = us /\
     (forall uid, d = Next uid None <->
        live_session now us r uid \/ (uid = 1 /\ live_vault now vault r)) /\
     (d = Unauthorized \/ exists uid, d = Next uid None)) /\
  (is_loopback (RealIP r) = true -> d <> Unauthorized).
Proof.
  unfold RequireAuth. set (unlocked := match cookies r !! "swarm_session" with Some _ => _ | _ => _ end).
  assert (unlocked = true <-> exists v e, cookies r !! "swarm_session" = Some v /\
    vaultKeys vault !! v = Some e /\ now <= expiresAt e) as Hu.
  { unfold unlocked. destruct (cookies r !! "swarm_session") as [v|].
    - rewrite HasKey_spec. split; [intros (e & ?); by exists v, e|].
      intros (? & e & [= <-] & ?). by exists e.
    - split; [done|]. by intros (? & ? & ? & _). }
  unfold live_session, live_vault.
  destruct (String.eqb_spec (request_session r) "") as [Hs|Hs]; cbn [andb].
  - destruct unlocked.
    + intros [= <- <-]. split; [|done]. intros _. split; [done|]. split; [|right; by eexists].
      intros uid. split.
      * intros [= <-]. right. split; [done|]. split; [done|]. by apply Hu.
      * by intros [[? _]|[-> _]].
    + assert (~ exists v e, cookies r !! "swarm_session" = Some v /\
        vaultKeys vault !! v = Some e /\ now <= expiresAt e) as Hn by (by rewrite <- Hu).
      destruct (is_loopback (RealIP r)).
      * intros [= <- <-]. by split.
      * intros [= <- <-]. split; [|done]. intros _. split; [done|]. split; [|by left].
        intros uid. split; [done|]. by intros [[? _]|(_ & _ & ?)].
  - destruct (ValidateUserSession now us (request_session r)) as [uid'|] eqn:Hv.
    + apply ValidateUserSession_spec in Hv as (_ & e & He & Hexp & <-).
      intros [= <- <-]. split; [|done]. intros _. split; [done|]. split; [|right; by eexists].
      intros uid. split.
      * intros [= <-]. left. split; [done|]. by exists e.
      * intros [(_ & ? & ? & _ & <-)|(_ & ? & _)]; [congruence|done].
    + destruct (is_loopback (RealIP r)).
      * intros [= <- <-]. by split.
      * intros [= <- <-]. split; [|done]. intros _. split; [done|]. split; [|by left].
        intros uid. split; [done|]. intros [(_ & e & He)|(_ & ? & _)]; [|done].
        assert (ValidateUserSession now us (request_session r) = Some uid) as Hc; [|congruence].
        apply ValidateUserSession_spec. split; [done|]. by exists e.
Qed.

(** sessions live for their time to live and no longer.  A created user
    session validates as its user until 30 days later and not afterwards; a
    stored vault key is returned until 24 hours later and not afterwards;
    locking ends it at once and overwrites the key's buffer; HasKey agrees
    with GetKey; other sessions are not affected by any of this. *)
Theorem session_lifetimes now rand us uid s sid vk rnd :
  let '(us', id) := CreateUserSession now rand us uid in
  let s' := SetKey now s sid vk in
  (forall t, ValidateUserSession t us' id = if t <=? now + 30 * 24 * hour then Some uid else None) /\
  (forall t id', id' <> id -> ValidateUserSession t us' id' = ValidateUserSession t us id') /\
  (forall t, GetKey t s' sid = if t <=? now + 24 * hour then Some vk else None) /\
  (forall t sid', sid' <> sid -> GetKey t s' sid' = GetKey t s sid') /\
  (forall t st id', HasKey t st id' = true <-> is_Some (GetKey t st id')) /\
  (forall t, GetKey t (DeleteKey rnd s' sid) sid = None) /\
  heap (DeleteKey rnd s' sid) !! vk = Some (rnd vk).
Proof.
  cbn [CreateUserSession]. set (id := "usr_" +:+ EncodeToString rand).
  unfold ValidateUserSession, GetKey, SetKey, SetKeyWithTTL, DeleteKey, after. cbn [vaultKeys heap].
  split; [|split; [|split; [|split; [|split; [|split]]]]].
  - intros t. assert (String.eqb id "" = false) as -> by done. rewrite lookup_insert_eq.
    cbn [ExpiresAt UserID]. unfold UserSessionTTL. rewrite Z.leb_antisym. by destruct (_ <? t).
  - intros t id' Hne. by rewrite lookup_insert_ne.
  - intros t. rewrite lookup_insert_eq. cbn [expiresAt key]. rewrite Z.leb_antisym.
    by destruct (_ <? t).
  - intros t sid' Hne. by rewrite lookup_insert_ne.
  - intros t st id'. unfold HasKey, after. destruct (vaultKeys st !! id') as [e|]; [|by split; [|intros [? ?]]].
    destruct (expiresAt e <? t); split; try done; by intros [? ?].
  - intros t. rewrite lookup_insert_eq. cbn [vaultKeys]. by rewrite lookup_delete_eq.
  - rewrite lookup_insert_eq. cbn [heap key]. unfold scrub. by rewrite lookup_insert_eq.
Qed.

Section UnlockProps.
Context `{CryptoPrims}.

(** What the database must hold for a password to be the right one. *)
Definition right_password (u : user_row) (password : string) (vk : bytes) : Prop :=
  password <> "" /\
  DecodeString (password_hash u) = Some (DeriveMEK (bytes_of_string password) (salt u)) /\
  DeriveMEK (bytes_of_string password) (salt u) <> [] /\
  DecryptBlock (encrypted_vault_key u) (DeriveMEK (bytes_of_string password) (salt u)) = Ok vk.

Lemma unlock_spec now rand users s userID password u :
  users !! userID = Some u ->
  (exists vk s1 r, right_password u password vk /\ alloc_key s vk = (s1, r) /\
     VerifyAndUnlockVault now rand None (Some users) s userID password
       = (SetKey now s1 ("sess_" +:+ EncodeToString rand) r, Ok ("sess_" +:+ EncodeToString rand, r))) \/
  ((forall vk, ~ right_password u password vk) /\
   exists e, VerifyAndUnlockVault now rand None (Some users) s userID password = (s, Err e)).
Proof.
  intros Hu. unfold VerifyAndUnlockVault, right_password. rewrite Hu.
  destruct (String.eqb_spec password "") as [->|Hp].
  { right. split; [by intros vk [? _]|]. by eexists. }
  destruct (DecodeString (password_hash u)) as [h|] eqn:Hh.
  2:{ right. split; [by intros vk (_ & ? & _)|]. by eexists. }
  destruct (Z.eqb_spec (zlen h) 0) as [Hz|Hz].
  { right. split; [|by eexists]. intros vk (_ & [= ->] & Hne & _). apply zlen_pos in Hne. lia. }
  case_bool_decide as Hm; cbn [negb].
  2:{ right. split; [|by eexists]. intros vk (_ & [= ->] & _). done. }
  destruct (DecryptBlock _ _) as [vk|e] eqn:Hd.
  - left. destruct (alloc_key s vk) as [s1 r] eqn:Ha. exists vk, s1, r. split; [|done].
    rewrite Hm in *. split; [done|]. split; [done|]. split; [|done]. intros ->. by apply Hz.
  - right. split; [|by eexists]. by intros vk (_ & _ & _ & ?).
Qed.

(** C9: the vault opens to the right password only.  For a user of the
    database, unlocking succeeds exactly when the password is not empty, its
    Argon2id hash is the stored one and the stored block opens under it; then
    the new session yields that key until 24 hours later and not afterwards,
    and no other session changes; otherwise the store is unchanged. *)
Theorem unlock_right_password_only now rand users s userID password u s' res :
  users !! userID = Some u ->
  VerifyAndUnlockVault now rand None (Some users) s userID password = (s', res) ->
  ((exists sid r, res = Ok (sid, r)) <-> exists vk, right_password u password vk) /\
  (forall sid r vk, res = Ok (sid, r) -> right_password u password vk ->
     heap s' !! r = Some vk /\
     (forall t, GetKey t s' sid = if t <=? now + 24 * hour then Some r else None) /\
     (forall t sid', sid' <> sid -> GetKey t s' sid' = GetKey t s sid') /\
     (forall r', r' <> r -> heap s' !! r' = heap s !! r')) /\
  (forall e, res = Err e -> s' = s).
Proof.
  intros Hu Hrun. destruct (unlock_spec now rand users s userID password u Hu)
    as [(vk & s1 & r & Hr & Ha & He)|(Hno & e & He)]; rewrite He in Hrun; injection Hrun as <- <-.
  - apply alloc_key_fresh in Ha as (_ & Hh & Hvk). split; [|split; [|done]].
    + split; [intros _; by exists vk|]. intros _. by eexists _, _.
    + intros sid r' vk' [= <- <-] (_ & _ & _ & Hd'). destruct Hr as (_ & _ & _ & Hd).
      assert (vk' = vk) as -> by congruence. cbn [SetKey SetKeyWithTTL heap]. rewrite Hh. split; [|split; [|split]].
      * by rewrite lookup_insert_eq.
      * intros t. unfold GetKey, after. cbn. rewrite lookup_insert_eq. cbn. rewrite Z.leb_antisym. by destruct (_ <? t).
      * intros t sid' Hne. unfold GetKey. cbn. rewrite lookup_insert_ne by done. by rewrite Hvk.
      * intros r' Hne. by rewrite lookup_insert_ne.
  - split; [|split; [done|done]]. split; [by intros (? & ? & ?)|]. intros [vk Hr]. by destruct (Hno vk).
Qed.

(** Checking the master password unlocks the vault as a side effect: a
    successful check leaves a session nobody was given, with the vault key in
    memory for 24 hours. *)
Lemma verify_password_unlocks now rand db s password s' :
  VerifyMasterPassword now rand None db s password = (s', true) ->
  HasKey (now + 24 * hour) s' ("sess_" +:+ EncodeToString rand) = true.
Proof.
  unfold VerifyMasterPassword. destruct (String.eqb password ""); [done|].
  destruct db as [users|]; [|done].
  destruct (users !! 1) as [u|] eqn:Hu.
  - destruct (unlock_spec now rand users s 1 password u Hu)
      as [(vk & s1 & r & _ & _ & ->)|(_ & e & ->)]; [|done].
    intros [= <-]. apply HasKey_spec. cbn. rewrite lookup_insert_eq. eexists. split; [done|]. done.
  - unfold VerifyAndUnlockVault. rewrite Hu. by destruct (String.eqb password "").
Qed.

(** A password that is refused changes nothing. *)
Lemma verify_refused now rand mockFn db s password s' :
  VerifyMasterPassword now rand mockFn db s password = (s', false) -> s' = s.
Proof.
  unfold VerifyMasterPassword, VerifyAndUnlockVault. intros Hv.
  repeat case_match; simplify_eq; done.
Qed.

End UnlockProps.

(** purging obliterates the keys.  After Purge there is no vault session
    and every buffer a session referred to has been overwritten; cleaning up
    does the same for exactly the expired sessions and counts them. *)
Theorem purge_erases_keys now rnd s :
  vaultKeys (Purge rnd s) = ∅ /\
  (forall id e, vaultKeys s !! id = Some e -> heap (Purge rnd s) !! key e = Some (rnd (key e))) /\
  (forall r, (forall id e, vaultKeys s !! id = Some e -> key e <> r) ->
     heap (Purge rnd s) !! r = heap s !! r) /\
  (let '(s', n) := CleanupStaleKeys now rnd s in
   n = Z.of_nat (length (filter (fun e => after now (expiresAt e.2) = true) (map_to_list (vaultKeys s)))) /\
   (forall id, vaultKeys s' !! id
      = match vaultKeys s !! id with
        | Some e => if after now (expiresAt e) then None else Some e
        | None => None
        end) /\
   (forall id e, vaultKeys s !! id = Some e -> after now (expiresAt e) = true ->
      heap s' !! key e = Some (rnd (key e)))).
Proof.
  assert (forall dead id e, vaultKeys s !! id = Some e -> dead e = true ->
    (id, e) ∈ filter (fun e => dead e.2 = true) (map_to_list (vaultKeys s))) as Hin.
  { intros dead id e He Hd. apply list_elem_of_filter. split; [done|]. by apply elem_of_map_to_list. }
  assert (forall dead (x : string * sessionEntry), x ∈ filter (fun e => dead e.2 = true) (map_to_list (vaultKeys s)) ->
    vaultKeys s !! x.1 = Some x.2 /\ dead x.2 = true) as Hout.
  { intros dead [id e] [Hd He]%list_elem_of_filter. split; [|done]. by apply elem_of_map_to_list. }
  unfold Purge. destruct (drop_fold rnd (fun _ => true) (map_to_list (vaultKeys s)) s 0)
    as (s1 & -> & Hv1 & Hh1). cbn [fst].
  split; [|split; [|split]].
  - apply map_eq. intros id. rewrite Hv1, lookup_empty. destruct (decide (id ∈ _)) as [Hc|Hc]; [done|].
    apply eq_None_not_Some. intros [e He]. apply Hc, list_elem_of_fmap. exists (id, e).
    split; [done|]. by apply (Hin (fun _ => true)).
  - intros id e He. rewrite Hh1. rewrite decide_True; [done|]. apply Exists_exists. exists (id, e).
    split; [|done]. by apply (Hin (fun _ => true)).
  - intros r Hr. rewrite Hh1, decide_False; [done|]. intros ([id e] & He & Hk)%Exists_exists.
    apply (Hout (fun _ => true)) in He as [He _]. by apply (Hr id e).
  - unfold CleanupStaleKeys.
    destruct (drop_fold rnd (fun e => after now (expiresAt e)) (map_to_list (vaultKeys s)) s 0)
      as (s2 & -> & Hv2 & Hh2). split; [by rewrite Z.add_0_l|]. split.
    + intros id. rewrite Hv2. destruct (decide (id ∈ _)) as [Hc|Hc].
      * apply list_elem_of_fmap in Hc as (x & -> & [Hx Hd]%(Hout (fun e => after now (expiresAt e)))).
        by rewrite Hx, Hd.
      * destruct (vaultKeys s !! id) as [e|] eqn:He; [|done].
        destruct (after now (expiresAt e)) eqn:Hd; [|done]. destruct Hc. apply list_elem_of_fmap.
        exists (id, e). split; [done|]. by apply (Hin (fun e => after now (expiresAt e))).
    + intros id e He Hd. rewrite Hh2. rewrite decide_True; [done|]. apply Exists_exists. exists (id, e).
      split; [|done]. by apply (Hin (fun e => after now (expiresAt e))).
Qed.

(** ** Witnesses *)

Section AuthWitnesses.
Import ToyCrypto.

Definition toy_request : request :=
  mkReq "Bearer usr_01" {["swarm_session" := "sess_9"]} "203.0.113.7".

Lemma require_auth_decision_witness :
  snd (RequireAuth 50 [1] empty_store {["usr_01" := mkUserSession 4 100]} toy_request) = Next 4 None.
Proof.
  destruct (RequireAuth 50 [1] empty_store {["usr_01" := mkUserSession 4 100]} toy_request)
    as [us' d] eqn:Hrun.
  destruct (require_auth_decision 50 [1] empty_store {["usr_01" := mkUserSession 4 100]}
    toy_request us' d Hrun) as [Hremote _].
  destruct (Hremote eq_refl) as (_ & Hspec & _). apply Hspec. left. split; [done|].
  exists (mkUserSession 4 100). split; [done|]. cbn. by split.
Defined.

Definition toy_user : user_row :=
  let mek := toy_hash (bytes_of_string "pw" ++ [3; 4]) in
  mkUser (EncodeToString mek) [3; 4] (replicate 12 0 ++ toy_seal mek (replicate 12 0) [42]).

Lemma toy_right_password : right_password toy_user "pw" [42].
Proof. split; [done|]. split; [by vm_compute|]. split; [done|by vm_compute]. Qed.

Lemma unlock_right_password_only_witness :
  exists s' sid r, VerifyAndUnlockVault 0 [7] None (Some {[1 := toy_user]}) empty_store 1 "pw"
      = (s', Ok (sid, r)) /\ heap s' !! r = Some [42] /\ GetKey 5 s' sid = Some r.
Proof.
  destruct (VerifyAndUnlockVault 0 [7] None (Some {[1 := toy_user]}) empty_store 1 "pw")
    as [s' res] eqn:Hrun.
  destruct (unlock_right_password_only 0 [7] {[1 := toy_user]} empty_store 1 "pw" toy_user s' res
    ltac:(by rewrite lookup_singleton_eq) Hrun) as (Hok & Hkey & _).
  destruct (proj2 Hok (ex_intro _ [42] toy_right_password)) as (sid & r & ->).
  destruct (Hkey sid r [42] eq_refl toy_right_password) as (Hh & Hget & _).
  exists s', sid, r. split; [done|]. split; [done|]. by rewrite Hget.
Defined.

End AuthWitnesses.
