(* ===== verification/UploadCtrl.v ===== *)
(** * The upload controller (internal/controllers/upload_controller.go)

    Handlers are functions from a state and a request to a state and a
    response.  The state holds the session manager, the content-addressed
    store, the proof-of-ownership challenges, the completed sessions, the
    database tables and the file system; the environment of one request says
    what the clock, the random source, the operating system and the database
    answer during it. *)

From S2P Require Import Prelude GoStrings FileSys CryptoPrims CryptoStream CAS PoW UploadSession VaultTree Auth.

#[local] Open Scope string_scope.
#[local] Open Scope list_scope.
#[local] Open Scope Z_scope.

(** ** Responses *)

Inductive jval := JStr (s : string) | JInt (z : Z) | JBool (b : bool) | JInts (l : list Z).

Record resp := mkResp { code : Z; json : list (string * jval) }.

(** echo.NewHTTPError *)
Definition http_error (c : Z) (msg : string) : resp := mkResp c [("message", JStr msg)].

(** ** Content-Range *)

Definition parseContentRangeHeader (header : string) : option (Z * Z * Z) :=
  if String.eqb header "" || negb (HasPrefix header "bytes ") then None
  else
    match split_on slash (TrimPrefix header "bytes ") with
    | [range; tot] =>
        match split_on "-"%char range with
        | [a; b] =>
            match ParseInt a, ParseInt b with
            | Some s, Some e =>
                if (s <? 0) || (e <? s) then None
                else Some (s, e, if String.eqb tot "*" then -1 else ParseInt_value tot)
            | _, _ => None
            end
        | _ => None
        end
    | _ => None
    end.

(** ** bufio.Writer over the temporary file

    The buffer is flushed when full and a write error sticks.  [cap] is the
    size the file can grow to before the disk is full. *)

Record bufio_writer := mkBW { bw_file : bytes; bw_buf : bytes; bw_err : option gerror }.

Definition BufferSize : Z := 2 * 1024 * 1024.

Definition err_nospace : gerror := ErrMsg "no space left on device".

Definition file_append (cap : Z) (f p : bytes) : bytes * option gerror :=
  if zlen f + zlen p <=? cap then (f ++ p, None)
  else (f ++ ztake (cap - zlen f) p, Some err_nospace).

Definition bw_flush (cap : Z) (w : bufio_writer) : bufio_writer :=
  match bw_err w with
  | Some _ => w
  | None =>
      match file_append cap (bw_file w) (bw_buf w) with
      | (f, None) => mkBW f [] None
      | (f, Some e) => mkBW f (zdrop (zlen f - zlen (bw_file w)) (bw_buf w)) (Some e)
      end
  end.

(** Once the buffer is empty a payload larger than it goes straight to the
    file; otherwise it is buffered. *)
Definition bw_put (cap : Z) (w : bufio_writer) (p : bytes) : bufio_writer :=
  if zlen p <=? BufferSize - zlen (bw_buf w) then mkBW (bw_file w) (bw_buf w ++ p) None
  else let '(f, e) := file_append cap (bw_file w) p in mkBW f (bw_buf w) e.

Definition bw_write (cap : Z) (w : bufio_writer) (p : bytes) : bufio_writer * option gerror :=
  match bw_err w with
  | Some e => (w, Some e)
  | None =>
      let avail := BufferSize - zlen (bw_buf w) in
      if (zlen p <=? avail) || (zlen (bw_buf w) =? 0) then
        let w' := bw_put cap w p in (w', bw_err w')
      else
        let w1 := bw_flush cap (mkBW (bw_file w) (bw_buf w ++ ztake avail p) None) in
        match bw_err w1 with
        | Some e => (w1, Some e)
        | None => let w' := bw_put cap w1 (zdrop avail p) in (w', bw_err w')
        end
  end.

Section Upload.
Context `{CryptoPrims} `{MetaCodec}.

(** A request body: what successive reads return, and the error that ends it
    ([None] is io.EOF). *)
Record body := mkBody { segments : list bytes; body_err : option gerror }.

(** [io.CopyBuffer(encStream, io.LimitReader(body, n), buf)]: the stream, the
    bytes copied and the error. *)
Fixpoint copy_body (cap : Z) (es : EncryptStream (W := bufio_writer)) (segs : list bytes)
    (fin : option gerror) (n written : Z)
  : EncryptStream (W := bufio_writer) * (Z * option gerror) :=
  if n <=? 0 then (es, (written, None))
  else
    match segs with
    | [] => (es, (written, fin))
    | seg :: segs' =>
        let p := ztake n seg in
        match enc_write (bw_write cap) es p with
        | (es', (_, Some e)) => (es', (written, Some e))
        | (es', (nw, None)) => copy_body cap es' segs' fin (n - zlen p) (written + nw)
        end
    end.

(** ** Database *)

Record file_row := mkRow {
  fr_id : string;
  fr_owner : Z;
  fr_folder : option string;
  fr_name : string;
  fr_mime : string;
  fr_size : Z;
  fr_cas : string;
  fr_plain : string;
  fr_deleted : bool
}.

Record database := mkDB { folders : folder_rows; files : list file_row }.

(** ** State and environment *)

Record uc_state := mkUC {
  SessionMgr : SessionManager;
  Cas : CASEngine;
  fs : FS;
  powStore : gmap string PoWChallenge;
  completedSessions : gmap string Z;
  DB : option database;
  FileCtrl : option vault_cache;
  published : list string
}.

Record req_env := mkReqEnv {
  os : os_env;
  rand_bytes : bytes;
  vault : SessionStore;
  (** the cookie "swarm_session" *)
  swarm : option string;
  (** the context values "user_id", "vault_key" and "vault_authenticated" *)
  user_id : option Z;
  ctx_vault_key : option bytes;
  ctx_vault_authenticated : bool;
  standard_key : option bytes;
  QuotaBytes : Z;
  (** whether SELECT and INSERT statements succeed *)
  query_ok : bool;
  insert_ok : bool;
  seek_ok : bool;
  (** how large the temporary file can grow *)
  disk_cap : Z;
  (** the iteration order of FindActiveSession's loop *)
  map_order : list (string * Session) -> list (string * Session)
}.

Definition now_ (e : req_env) : Z := env_now (os e).

Definition set_sm (st : uc_state) (sm : SessionManager) (f : FS) : uc_state :=
  mkUC sm (Cas st) f (powStore st) (completedSessions st) (DB st) (FileCtrl st) (published st).
Definition set_fs (st : uc_state) (f : FS) : uc_state := set_sm st (SessionMgr st) f.
Definition set_cas (st : uc_state) (c : CASEngine) (f : FS) : uc_state :=
  mkUC (SessionMgr st) c f (powStore st) (completedSessions st) (DB st) (FileCtrl st) (published st).
Definition set_pow (st : uc_state) (p : gmap string PoWChallenge) : uc_state :=
  mkUC (SessionMgr st) (Cas st) (fs st) p (completedSessions st) (DB st) (FileCtrl st) (published st).
Definition set_completed (st : uc_state) (c : gmap string Z) : uc_state :=
  mkUC (SessionMgr st) (Cas st) (fs st) (powStore st) c (DB st) (FileCtrl st) (published st).
Definition set_db (st : uc_state) (d : option database) : uc_state :=
  mkUC (SessionMgr st) (Cas st) (fs st) (powStore st) (completedSessions st) d (FileCtrl st) (published st).
Definition set_filectrl (st : uc_state) (c : option vault_cache) : uc_state :=
  mkUC (SessionMgr st) (Cas st) (fs st) (powStore st) (completedSessions st) (DB st) c (published st).
Definition publish (st : uc_state) (topic : string) : uc_state :=
  mkUC (SessionMgr st) (Cas st) (fs st) (powStore st) (completedSessions st) (DB st) (FileCtrl st)
    (published st ++ [topic]).

(** [isVaultFolder] over the state: the cache may be filled on the way. *)
Definition folder_db_of (e : req_env) (st : uc_state) : folder_db :=
  match DB st with
  | None => None
  | Some d => Some (if query_ok e then Some (folders d) else None)
  end.

Definition vault_check (e : req_env) (st : uc_state) (folderID : string) : uc_state * bool :=
  let '(fc, b) := isVaultFolder (FileCtrl st) (folder_db_of e st) folderID in
  (set_filectrl st fc, b).

(** The vault cookie names a live session. *)
Definition has_vault_session (e : req_env) : bool :=
  match swarm e with
  | Some v => HasKey (now_ e) (vault e) v
  | None => false
  end.

(** ** GetUserStorageUsed and completed sessions *)

Definition active_rows (d : database) : list file_row :=
  List.filter (fun r => negb (fr_deleted r)) (files d).

Definition GetUserStorageUsed (e : req_env) (st : uc_state) (ownerID : Z) : Z :=
  match DB st with
  | None => 0
  | Some d =>
      if query_ok e
      then foldr Z.add 0 (map fr_size (List.filter (fun r => fr_owner r =? ownerID) (active_rows d)))
      else 0
  end.

Definition PruneCompletedSessions (now ttl : Z) (st : uc_state) : uc_state :=
  set_completed st (filter (fun e => bool_decide (ttl < now - e.2) = false) (completedSessions st)).

Definition PurgeAllSessions (env : os_env) (st : uc_state) : uc_state :=
  let '(sm, f, _) := PurgeAll env (SessionMgr st) (fs st) in
  set_completed (set_sm st sm f) ∅.

(** ** VerifyProofOfOwnership *)

Record VerifyPoWRequest := mkVerify {
  vr_CasHash : string;
  vr_ChallengeNonce : string;
  vr_Proof : string;
  vr_Filename : string;
  vr_MimeType : string;
  vr_Size : Z;
  vr_FolderID : string
}.

Definition clean_filename (fallback name : string) : string :=
  let n := Base (Clean name) in
  if String.eqb n "." || String.eqb n "/" || String.eqb n "" then fallback else n.

Definition quota_message : string := "Kapasitas penyimpanan terlampaui (Storage quota exceeded)".

(** [currentUsed + size > uc.QuotaBytes] in int64 arithmetic. *)
Definition over_quota (e : req_env) (st : uc_state) (ownerID size : Z) : bool :=
  (0 <? QuotaBytes e) && (0 <? size)
  && (QuotaBytes e <? i64 (GetUserStorageUsed e st ownerID + size)).

Definition file_id (e : req_env) : string :=
  "file_" +:+ FormatInt (now_ e / 1000000000) +:+ "_" +:+ slice (GenerateID (rand_bytes e)) 0 8.

Definition db_folder (folderID : string) : option string :=
  if String.eqb folderID "" then None else Some folderID.

Definition insert_row (e : req_env) (d : database) (r : file_row) : option database :=
  if insert_ok e then Some (mkDB (folders d) (files d ++ [r])) else None.

Definition VerifyProofOfOwnership (e : req_env) (st : uc_state) (bind : option VerifyPoWRequest)
  : uc_state * resp :=
  match bind with
  | None => (st, http_error 400 "invalid request")
  | Some req =>
      match GetPoWChallenge (now_ e) (powStore st) (vr_ChallengeNonce req) with
      | None => (st, http_error 400 "challenge expired or invalid")
      | Some ch =>
          if negb (String.eqb (CasHash ch) (vr_CasHash req))
          then (st, http_error 400 "challenge expired or invalid")
          else
            let userID := GetUserID (user_id e) in
            if over_quota e st userID (vr_Size req) then (st, http_error 413 quota_message)
            else
              let '(cas1, present) := Exists (Cas st) (fs st) (CasHash ch) in
              let st1 := set_cas st cas1 (fs st) in
              if negb present then (st1, http_error 404 "referenced CAS blob not found")
              else
                match fs_data (fs st) (Path cas1 (CasHash ch)) with
                | None => (st1, http_error 500 "failed to access CAS blob")
                | Some blob =>
                    if negb (VerifyPoW blob ch (vr_Proof req))
                    then (st1, http_error 401 "invalid proof of ownership")
                    else
                      let st2 := set_pow st1 (DeletePoWChallenge (powStore st) (vr_ChallengeNonce req)) in
                      let folderID := if String.eqb (vr_FolderID req) "root" then "" else vr_FolderID req in
                      let row := mkRow (file_id e) userID (db_folder folderID)
                                   (clean_filename "unnamed_file" (vr_Filename req)) (vr_MimeType req)
                                   (vr_Size req) (CasHash ch) (vr_CasHash req) false in
                      let ok st' := (st', mkResp 200
                        [("status", JStr "completed"); ("message", JStr "0-second deduplication successful");
                         ("cas_hash", JStr (CasHash ch)); ("file_id", JStr (file_id e))]) in
                      match DB st with
                      | None => ok st2
                      | Some d =>
                          match insert_row e d row with
                          | None => (st2, http_error 500 "failed to record deduplicated file: ")
                          | Some d' => ok (set_db st2 (Some d'))
                          end
                      end
                end
      end
  end.

(** ** InitSession *)

Record InitRequest := mkInit {
  ir_Filename : string;
  ir_MimeType : string;
  ir_Size : Z;
  ir_FolderID : string;
  ir_CasHash : string;
  ir_Proof : string
}.

(** Lines 246-259: the folder identifier used, or [None] when it does not
    exist.  A failing COUNT query counts as no folder. *)
Definition resolve_folder (e : req_env) (st : uc_state) (folderID : string) : option string :=
  if String.eqb folderID "root" then Some ""
  else if String.eqb folderID "" || String.eqb folderID "f1" || String.eqb folderID "f2"
          || String.eqb folderID "f3" then Some folderID
  else
    match DB st with
    | None => Some folderID
    | Some d =>
        if query_ok e && existsb (fun r => String.eqb (fst r) folderID) (folders d)
        then Some folderID else None
    end.

(** Lines 280-287: the stored blob with the same contents, and the folder of
    a file that has it. *)
Definition find_duplicate (e : req_env) (st : uc_state) (h : string) : uc_state * (string * string) :=
  let hit :=
    match DB st with
    | Some d =>
        if query_ok e
        then List.find (fun r => String.eqb (fr_plain r) h || String.eqb (fr_cas r) h) (active_rows d)
        else None
    | None => None
    end in
  match hit with
  | Some r =>
      if String.eqb (fr_cas r) "" then
        let '(cas1, present) := Exists (Cas st) (fs st) h in
        (set_cas st cas1 (fs st),
         (if present then h else "", default "" (fr_folder r)))
      else (st, (fr_cas r, default "" (fr_folder r)))
  | None =>
      let '(cas1, present) := Exists (Cas st) (fs st) h in
      (set_cas st cas1 (fs st), (if present then h else "", ""))
  end.

(** Lines 276-306: [Some] is a challenge to answer instead of uploading. *)
Definition offer_challenge (e : req_env) (st : uc_state) (folderID : string) (req : InitRequest)
  : uc_state * option resp :=
  if String.eqb (ir_CasHash req) "" then (st, None)
  else if negb (IsValidHash (ir_CasHash req)) then (st, Some (http_error 400 "invalid cas_hash format"))
  else
    let '(st1, (existing, existingFolder)) := find_duplicate e st (ir_CasHash req) in
    if String.eqb existing "" then (st1, None)
    else
      let '(cas2, present) := Exists (Cas st1) (fs st1) existing in
      let st2 := set_cas st1 cas2 (fs st1) in
      if negb present then (st2, None)
      else
        let '(st3, targetIsVault) := vault_check e st2 folderID in
        let '(st4, sourceIsVault) := vault_check e st3 existingFolder in
        if negb (Bool.eqb targetIsVault sourceIsVault) then (st4, None)
        else
          match GeneratePoWChallenge (now_ e) (Ok (rand_bytes e)) (powStore st4) existing (ir_Size req) with
          | (p, Err _) => (set_pow st4 p, None)
          | (p, Ok ch) =>
              (set_pow st4 p,
               Some (mkResp 200 [("status", JStr "challenge_required"); ("cas_hash", JStr existing);
                 ("challenge_nonce", JStr (ChallengeNonce ch)); ("offsets", JInts (Offsets ch));
                 ("sample_size", JInt (SampleSize ch))]))
          end.

(** Lines 308-328: the same file is already in the folder. *)
Definition same_folder (folderID : string) (r : file_row) : bool :=
  match fr_folder r with
  | None => String.eqb folderID ""
  | Some f =>
      if String.eqb folderID "" then String.eqb f "" || String.eqb f "root" else String.eqb f folderID
  end.

Definition find_stored (e : req_env) (st : uc_state) (userID : Z) (folderID name : string) (size : Z)
  : option file_row :=
  match DB st with
  | Some d =>
      if (0 <? size) && query_ok e then
        match List.find (fun r => (fr_owner r =? userID) && same_folder folderID r
                           && String.eqb (fr_name r) name && (fr_size r =? size)) (active_rows d) with
        | Some r => if negb (String.eqb (fr_id r) "") && negb (String.eqb (fr_cas r) "") then Some r else None
        | None => None
        end
      else None
  | None => None
  end.

Definition with_progress (s : Session) (uploaded now : Z) : Session :=
  mkSession (ID s) (OwnerID s) (FolderID s) (Filename s) (MimeType s) (ExpectedSize s) uploaded
    (TempFilePath s) (PlaintextHash s) (StartedAt s) now.

Definition with_hash (s : Session) (h : string) : Session :=
  mkSession (ID s) (OwnerID s) (FolderID s) (Filename s) (MimeType s) (ExpectedSize s)
    (UploadedSize s) (TempFilePath s) h (StartedAt s) (LastActiveAt s).

(** A change of the session object the manager's map points to. *)
Definition put_session (st : uc_state) (s : Session) : uc_state :=
  set_sm st (set_sessions (SessionMgr st) (<[ID s := s]> (sessions (SessionMgr st)))) (fs st).

Definition persist (e : req_env) (st : uc_state) (s : Session) : uc_state :=
  set_fs st (fst (PersistSession (os e) (SessionMgr st) (fs st) s)).

Definition ChunkSize : Z := 1024 * 1024 * 2.

(** Lines 330-359: resume a session or create one. *)
Definition open_session (e : req_env) (st : uc_state) (userID : Z) (folderID name : string)
    (req : InitRequest) : uc_state * resp :=
  let create :=
    match CreateSession (os e) (rand_bytes e) (SessionMgr st) (fs st) userID folderID name
            (ir_MimeType req) (ir_Size req) with
    | (sm, f, Err _) => (set_sm st sm f, http_error 500 "failed to initiate upload")
    | (sm, f, Ok sess) =>
        (put_session (set_sm st sm f) (with_hash sess (ir_CasHash req)),
         mkResp 201 [("session_id", JStr (ID sess)); ("chunk_size", JInt ChunkSize)])
    end in
  match FindActiveSession (map_order e) (SessionMgr st) (fs st) userID folderID name (ir_Size req) with
  | Some s =>
      if 0 <? UploadedSize s then
        let s' := with_progress s (UploadedSize s) (now_ e) in
        (persist e (put_session st s') s',
         mkResp 200 [("session_id", JStr (ID s)); ("chunk_size", JInt ChunkSize);
           ("uploaded", JInt (UploadedSize s)); ("status", JStr "incomplete"); ("resumed", JBool true)])
      else create
  | None => create
  end.

Definition looks_like_directory (req : InitRequest) (name : string) : bool :=
  (ir_Size req =? 0)
  && (String.eqb (ir_MimeType req) "" || String.eqb (ir_MimeType req) "application/octet-stream")
  && String.eqb (Ext name) "".

Definition InitSession (e : req_env) (st : uc_state) (bind : option InitRequest) : uc_state * resp :=
  match bind with
  | None => (st, http_error 400 "invalid request")
  | Some req =>
      if ir_Size req <? 0 then (st, http_error 400 "file size cannot be negative")
      else
        let name := clean_filename "untitled" (ir_Filename req) in
        if looks_like_directory req name then
          (st, http_error 400 ("Cannot upload '" +:+ name +:+
            "': item appears to be a directory without content. Please use folder upload instead."))
        else
          match resolve_folder e st (ir_FolderID req) with
          | None => (st, http_error 400 "folder not found")
          | Some folderID =>
              let '(st1, isVault) := vault_check e st folderID in
              if isVault && negb (has_vault_session e) then
                (st1, http_error 401 "Vault locked. Master password required to upload to vault.")
              else
                let userID := GetUserID (user_id e) in
                if over_quota e st1 userID (ir_Size req) then (st1, http_error 413 quota_message)
                else
                  match offer_challenge e st1 folderID req with
                  | (st2, Some r) => (st2, r)
                  | (st2, None) =>
                      match find_stored e st2 userID folderID name (ir_Size req) with
                      | Some r =>
                          (st2, mkResp 200 [("status", JStr "completed");
                             ("message", JStr "file already exists in folder");
                             ("cas_hash", JStr (fr_cas r)); ("file_id", JStr (fr_id r))])
                      | None => open_session e st2 userID folderID name req
                      end
                  end
          end
  end.

(** ** UploadChunk *)

Record chunk_request := mkChunk {
  session_id : string;
  ContentRange : string;
  ContentLength : Z;
  Body : body
}.

(** Lines 374-393: an answer that leaves the session alone. *)
Definition check_range (s : Session) (header : string) : option resp :=
  match parseContentRangeHeader header with
  | None => None
  | Some (crStart, crEnd, _) =>
      if crEnd <? UploadedSize s then
        Some (mkResp 200 [("status", JStr "incomplete"); ("uploaded", JInt (UploadedSize s));
          ("message", JStr "chunk already processed")])
      else if negb (crStart =? UploadedSize s) then
        Some (mkResp 409 [("error", JStr "offset mismatch"); ("uploaded", JInt (UploadedSize s));
          ("expected_offset", JInt (UploadedSize s))])
      else None
  end.

(** Lines 406-427: the key the chunk is encrypted under; [None] is a locked
    vault.  Off the vault it is the standard key, nil if there is none. *)
Definition select_key (e : req_env) (isVault : bool) : option bytes :=
  if negb isVault then Some (default [] (standard_key e))
  else
    let from_ctx :=
      match ctx_vault_key e with
      | Some k =>
          if ctx_vault_authenticated e && (0 <? zlen k)
             && negb (bool_decide (k = default [] (standard_key e))) then Some k else None
      | None => None
      end in
    match from_ctx with
    | Some k => Some k
    | None =>
        match swarm e with
        | Some v =>
            match GetKey (now_ e) (vault e) v with
            | Some r =>
                match heap (vault e) !! r with
                | Some k => if 0 <? zlen k then Some k else None
                | None => None
                end
            | None => None
            end
        | None => None
        end
    end.

(** Lines 435-459. *)
Definition refuse_chunk (e : req_env) (st : uc_state) (s : Session) (contentLength : Z) : option resp :=
  let remaining := ExpectedSize s - UploadedSize s in
  let chunkLen := if contentLength <? 0 then 0 else contentLength in
  if (ExpectedSize s =? 0) && (0 <? contentLength) then
    Some (http_error 400 "cannot upload chunk data to a zero-byte session")
  else if (0 <? ExpectedSize s) && (ExpectedSize s <? UploadedSize s) then
    Some (http_error 400 "session already complete")
  else if remaining <? 0 then
    Some (http_error 400 "uploaded bytes exceed declared session size")
  else if (0 <? QuotaBytes e)
          && (QuotaBytes e <? i64 (GetUserStorageUsed e st (OwnerID s) + i64 (UploadedSize s + chunkLen)))
  then Some (http_error 413 quota_message)
  else None.

(** Lines 494-535: the session has all its bytes. *)
Definition finish_upload (e : req_env) (st : uc_state) (s : Session) : uc_state * resp :=
  let st := publish st "nest:user_1" in
  match MoveToCASWithStatus (os e) (Cas st) (fs st) (TempFilePath s) with
  | (c1, f1, Err _) => (set_cas st c1 f1, http_error 500 "cas storage failed")
  | (c1, f1, Ok (casHash, existedBefore)) =>
      let st1 := set_cas st c1 f1 in
      let st2 := set_completed st1 (<[ID s := now_ e]> (completedSessions st1)) in
      let '(sm3, f3) := DeleteSession (os e) (SessionMgr st2) (fs st2) (ID s) in
      let st3 := set_sm st2 sm3 f3 in
      let done st' := (st', mkResp 200 [("status", JStr "completed"); ("cas_hash", JStr casHash)]) in
      match DB st3 with
      | None => done st3
      | Some d =>
          let folder := if String.eqb (FolderID s) "" || String.eqb (FolderID s) "root"
                        then None else Some (FolderID s) in
          let row := mkRow (file_id e) (OwnerID s) folder (Filename s) (MimeType s)
                       (UploadedSize s) casHash (PlaintextHash s) false in
          match insert_row e d row with
          | Some d' => done (set_db st3 (Some d'))
          | None =>
              (if existedBefore then st3
               else set_cas st3 (Invalidate (Cas st3) casHash)
                      (fs_remove (os e) (fs st3) (Path (Cas st3) casHash)),
               http_error 500 "failed to record file metadata in database: ")
          end
      end
  end.

Definition put_temp (e : req_env) (st : uc_state) (s : Session) (b : bytes) : uc_state :=
  set_fs st (<[TempFilePath s := mkFile b (now_ e)]> (fs st)).

(** Lines 461-540: copy the body into the temporary file. *)
Definition receive_chunk (e : req_env) (st : uc_state) (s : Session) (vk f0 : bytes) (b : body)
  : uc_state * resp :=
  match NewEncryptStream (mkBW f0 [] None) vk with
  | Err _ => (st, http_error 500 "failed to initialize encryption stream")
  | Ok es0 =>
      let remaining := ExpectedSize s - UploadedSize s in
      let '(es1, (written, err)) :=
        copy_body (disk_cap e) es0 (segments b) (body_err b) (i64 (remaining + 1)) 0 in
      let w := bw_flush (disk_cap e) (es_w es1) in
      (* the error of Truncate is ignored *)
      let truncated := put_temp e st s
        (if truncate_ok (os e) then ztake (zlen f0) (bw_file w) else bw_file w) in
      match err with
      | Some _ => (truncated, http_error 500 "chunk transfer failed")
      | None =>
          if ExpectedSize s <? i64 (UploadedSize s + written) then
            (truncated, http_error 400 "uploaded bytes exceed declared session size")
          else
            let s' := with_progress s (i64 (UploadedSize s + written)) (now_ e) in
            let st1 := persist e (put_session (put_temp e st s (bw_file w)) s') s' in
            if ExpectedSize s' <=? UploadedSize s' then finish_upload e st1 s'
            else (st1, mkResp 200 [("status", JStr "incomplete"); ("uploaded", JInt (UploadedSize s'))])
      end
  end.

Definition UploadChunk (e : req_env) (st : uc_state) (req : chunk_request) : uc_state * resp :=
  match GetSession (SessionMgr st) (session_id req) with
  | None => (st, http_error 404 "session not found")
  | Some s =>
      match check_range s (ContentRange req) with
      | Some r => (st, r)
      | None =>
          if negb (create_ok (os e)) then (st, http_error 500 "failed to open temp file")
          else
            (* O_CREATE: a missing file is created empty *)
            let f0 := default [] (fs_data (fs st) (TempFilePath s)) in
            let st1 := if fs_exists (fs st) (TempFilePath s) then st else put_temp e st s [] in
            let '(st2, isVault) := vault_check e st1 (FolderID s) in
            match select_key e isVault with
            | None => (st2, http_error 401 "Vault locked. Master password required.")
            | Some vk =>
                if negb (aes_key_ok vk) then
                  (st2, http_error 500 "failed to initialize encryption stream")
                else
                  match refuse_chunk e st2 s (ContentLength req) with
                  | Some r => (st2, r)
                  | None =>
                      if negb (seek_ok e) then (st2, http_error 500 "failed to seek temp file")
                      else receive_chunk e st2 s vk f0 (Body req)
                  end
            end
      end
  end.

(** ** GetStatus and AbortSession *)

Definition GetStatus (e : req_env) (st : uc_state) (sessionID : string) : uc_state * resp :=
  match GetSession (SessionMgr st) sessionID with
  | None =>
      match completedSessions st !! sessionID with
      | Some completedAt =>
          if now_ e - completedAt <? 2 * 60 * 1000000000
          then (st, mkResp 200 [("status", JStr "completed")])
          else (set_completed st (delete sessionID (completedSessions st)),
                http_error 404 "session not found")
      | None => (st, http_error 404 "session not found")
      end
  | Some s =>
      let '(st1, isVault) := vault_check e st (FolderID s) in
      if isVault && negb (has_vault_session e)
      then (st1, http_error 401 "Vault locked. Master password required.")
      else (st1, mkResp 200 [("status", JStr "incomplete"); ("uploaded", JInt (UploadedSize s));
              ("expected", JInt (ExpectedSize s))])
  end.

Definition AbortSession (e : req_env) (st : uc_state) (sessionID : string) : uc_state * resp :=
  match GetSession (SessionMgr st) sessionID with
  | None => (st, http_error 404 "session not found")
  | Some s =>
      let '(st1, isVault) := vault_check e st (FolderID s) in
      if isVault && negb (has_vault_session e)
      then (st1, http_error 401 "Vault locked. Master password required.")
      else
        let '(sm2, f2) := DeleteSession (os e) (SessionMgr st1) (fs st1) sessionID in
        let st2 := set_completed (set_sm st1 sm2 f2) (delete sessionID (completedSessions st1)) in
        ((if String.eqb (TempFilePath s) "" then st2
          else set_fs st2 (fs_remove (os e) (fs st2) (TempFilePath s))),
         mkResp 200 [("status", JStr "aborted");
           ("message", JStr "upload session cancelled and temporary data cleaned")])
  end.

End Upload.
