(* ===== verification/UploadFacts.v ===== *)
(** * Lemmas about the upload controller

    What copying a request body into the temporary file produces, and what
    one accepted, refused or failed chunk does to the session. *)

From S2P Require Import Prelude GoStrings FileSys CryptoPrims CryptoStream CryptoStreamFacts CAS CASProps PoW UploadSession VaultTree Auth UploadCtrl.

#[local] Open Scope string_scope.
#[local] Open Scope list_scope.
#[local] Open Scope Z_scope.

(** ** The buffered writer *)

Definition bw_total (w : bufio_writer) : bytes := bw_file w ++ bw_buf w.

Lemma file_append_ok cap f p : zlen f + zlen p <= cap -> file_append cap f p = (f ++ p, None).
Proof. intros Hc. unfold file_append. by destruct (Z.leb_spec (zlen f + zlen p) cap); [|lia]. Qed.

Lemma bw_flush_ok cap w :
  bw_err w = None -> zlen (bw_total w) <= cap -> bw_flush cap w = mkBW (bw_total w) [] None.
Proof.
  intros He Hc. unfold bw_flush, bw_total in *. rewrite He, file_append_ok; [done|].
  by rewrite zlen_app in Hc.
Qed.

Lemma bw_write_ok cap w p :
  bw_err w = None -> zlen (bw_total w) + zlen p <= cap ->
  exists w', bw_write cap w p = (w', None) /\ bw_err w' = None /\ bw_total w' = bw_total w ++ p.
Proof.
  intros He Hc. unfold bw_write. rewrite He.
  assert (forall w p, bw_err w = None -> zlen (bw_buf w) = 0 \/ zlen p <= BufferSize - zlen (bw_buf w) ->
    zlen (bw_total w) + zlen p <= cap ->
    bw_err (bw_put cap w p) = None /\ bw_total (bw_put cap w p) = bw_total w ++ p) as Hput.
  { clear. intros w p He Hb Hc. unfold bw_put, bw_total in *.
    destruct (Z.leb_spec (zlen p) (BufferSize - zlen (bw_buf w))) as [Hle|Hgt].
    - cbn. by rewrite app_assoc.
    - destruct Hb as [Hb|]; [|lia]. pose proof (zlen_nil_inv (bw_buf w) ltac:(lia)) as Hnil.
      rewrite Hnil, app_nil_r in *. rewrite file_append_ok by done. cbn. by rewrite ?Hnil, ?app_nil_r. }
  destruct ((zlen p <=? BufferSize - zlen (bw_buf w)) || (zlen (bw_buf w) =? 0)) eqn:Hb.
  - apply orb_true_iff in Hb. destruct (Hput w p He ltac:(lia) Hc) as [H1 H2].
    exists (bw_put cap w p). by rewrite H1.
  - set (avail := BufferSize - zlen (bw_buf w)).
    assert (zlen (ztake avail p) <= zlen p) by (rewrite zlen_ztake; lia).
    rewrite bw_flush_ok; cbn [bw_err bw_total bw_file bw_buf]; [|done|].
    2:{ unfold bw_total in *. cbn. rewrite app_assoc, zlen_app. lia. }
    assert (zlen (bw_total (mkBW (bw_total (mkBW (bw_file w) (bw_buf w ++ ztake avail p) None)) [] None))
      + zlen (zdrop avail p) <= cap) as Hc2.
    { unfold bw_total in *. cbn [bw_file bw_buf]. rewrite app_nil_r, app_assoc, zlen_app.
      pose proof (f_equal zlen (ztake_zdrop avail p)) as Hs. rewrite zlen_app in Hs. lia. }
    destruct (Hput _ (zdrop avail p) (eq_refl : bw_err (mkBW _ [] None) = None)
      (or_introl eq_refl) Hc2) as [H1 H2].
    eexists. rewrite H1. split; [done|]. split; [done|]. rewrite H2. unfold bw_total. cbn [bw_file bw_buf].
    by rewrite app_nil_r, <- !app_assoc, ztake_zdrop.
Qed.

(** ** Copying a body *)

(** The pieces a reader limited to [n] bytes delivers. *)
Fixpoint pieces (n : Z) (segs : list bytes) : list bytes :=
  match segs with
  | [] => []
  | seg :: segs' => if n <=? 0 then [] else ztake n seg :: pieces (n - zlen (ztake n seg)) segs'
  end.

Lemma ztake_app {A} n (l k : list A) :
  0 <= n -> ztake n (l ++ k) = ztake n l ++ ztake (n - zlen l) k.
Proof.
  intros Hn. unfold ztake, zlen. rewrite take_app. f_equal. f_equal. lia.
Qed.

Lemma concat_pieces n segs : concat (pieces n segs) = ztake n (concat segs).
Proof.
  revert n. induction segs as [|s segs IH]; intros n.
  { cbn. unfold ztake. by rewrite take_nil. }
  cbn [pieces]. destruct (Z.leb_spec n 0).
  - cbn [concat]. unfold ztake. by replace (Z.to_nat n) with 0%nat by lia.
  - cbn [concat]. rewrite IH, ztake_app by lia. f_equal. rewrite zlen_ztake.
    destruct (Z.le_ge_cases (zlen s) n).
    + f_equal. zlen_solve.
    + pose proof (zlen_nonneg s). unfold ztake.
      by replace (Z.to_nat (n - Z.min (Z.max 0 n) (zlen s))) with (Z.to_nat (n - zlen s)) by lia.
Qed.

Lemma pieces_all n segs : zlen (concat segs) < n -> pieces n segs = segs.
Proof.
  revert n. induction segs as [|s segs IH]; intros n Hn; [done|]. cbn [pieces concat] in *.
  rewrite zlen_app in Hn. pose proof (zlen_nonneg s). pose proof (zlen_nonneg (concat segs)).
  destruct (Z.leb_spec n 0); [lia|]. rewrite ztake_all by lia. f_equal. apply IH. lia.
Qed.

Section UploadFacts.
Context `{CryptoLaws} `{MetaCodec}.

Definition nonempty_segs (segs : list bytes) : list bytes := filter (.≠ []) segs.

Lemma concat_nonempty segs : concat (nonempty_segs segs) = concat segs.
Proof.
  unfold nonempty_segs. induction segs as [|s segs IH]; [done|]. destruct (decide (s = [])) as [->|Hs].
  - rewrite filter_cons_False by (by intros Hn). done.
  - rewrite filter_cons_True by done. cbn. by rewrite IH.
Qed.

(** On a disk with room the copy appends the encoded pieces and counts them. *)
Lemma copy_body_ok cap key segs fin n written w :
  aes_key_ok key = true -> bw_err w = None ->
  zlen (bw_total w) + zlen (encode key (nonempty_segs (pieces n segs))) <= cap ->
  exists w', copy_body cap (mkEnc w key) segs fin n written
      = (mkEnc w' key, (written + zlen (ztake n (concat segs)),
           if zlen (concat segs) <? n then fin else None)) /\
    bw_err w' = None /\ bw_total w' = bw_total w ++ encode key (nonempty_segs (pieces n segs)).
Proof.
  intros Hk. revert n written w. induction segs as [|s segs IH]; intros n written w He Hc; cbn [copy_body].
  { exists w. cbn. rewrite app_nil_r. unfold ztake. rewrite take_nil. change (zlen (@nil Z)) with 0. rewrite Z.add_0_r.
    destruct (Z.leb_spec n 0), (Z.ltb_spec 0 n); try lia; done. }
  cbn [pieces] in *. destruct (Z.leb_spec n 0) as [Hn|Hn].
  { exists w. cbn. rewrite app_nil_r. unfold ztake. replace (Z.to_nat n) with 0%nat by lia.
    cbn. change (zlen (@nil Z)) with 0. rewrite Z.add_0_r.
    destruct (Z.ltb_spec (zlen (s ++ concat segs)) n); [zlen_solve|done]. }
  set (p := ztake n s) in *. unfold enc_write. cbn [es_w es_key].
  assert (zlen (ztake n (concat (s :: segs))) = zlen p + zlen (ztake (n - zlen p) (concat segs))) as Hlen.
  { cbn [concat]. rewrite ztake_app, zlen_app by lia. subst p. f_equal. rewrite !zlen_ztake. zlen_solve. }
  assert (zlen (concat (s :: segs)) <? n = (zlen (concat segs) <? n - zlen p)) as Hlt.
  { cbn [concat]. subst p. pose proof (zlen_nonneg s). pose proof (zlen_nonneg (concat segs)).
    rewrite zlen_app, zlen_ztake.
    destruct (Z.ltb_spec (zlen s + zlen (concat segs)) n),
      (Z.ltb_spec (zlen (concat segs)) (n - Z.min (Z.max 0 n) (zlen s))); lia. }
  rewrite Hlen, Hlt. unfold nonempty_segs in Hc |- *.
  destruct (Z.eqb_spec (zlen p) 0) as [Hp|Hp].
  - pose proof (zlen_nil_inv p ltac:(lia)) as Hpn.
    assert (~ p <> []) as Hpf by (intros Hx; by apply Hx).
    rewrite (filter_cons_False _ p _ Hpf). rewrite (filter_cons_False _ p _ Hpf) in Hc.
    destruct (IH (n - zlen p) (written + 0) w He Hc) as (w' & Hrun & He' & Ht').
    exists w'. rewrite Hrun. split; [|done].
    assert (forall a, written + 0 + a = written + (zlen p + a)) as Ha by lia. by rewrite Ha.
  - assert (p <> []) as Hpt by (intros Hx; apply Hp; by rewrite Hx).
    rewrite (filter_cons_True _ p _ Hpt). rewrite (filter_cons_True _ p _ Hpt) in Hc.
    rewrite encode_cons, zlen_app in Hc.
    match type of Hc with context [zlen (encode key ?x)] =>
      pose proof (zlen_nonneg (encode key x)) end.
    assert (zlen (bw_total w) + zlen (packet key p) <= cap) as Hcp by lia.
    destruct (bw_write_ok cap w (packet key p) He Hcp) as (w1 & -> & He1 & Ht1).
    destruct (IH (n - zlen p) (written + zlen p) w1 He1) as (w' & Hrun & He' & Ht').
    { rewrite Ht1, zlen_app. unfold nonempty_segs. lia. }
    exists w'. rewrite Hrun. split; [|split; [done|]].
    + by rewrite Z.add_assoc.
    + rewrite Ht', Ht1, encode_cons. by rewrite <- app_assoc.
Qed.

(** ** Sessions as the uploaded prefix of a file *)

(** The temporary file of [s] holds [data] encrypted under [key]. *)
Definition upload_ok (key : bytes) (st : uc_state) (s : Session) (data : bytes) : Prop :=
  sessions (SessionMgr st) !! ID s = Some s /\
  (exists cs, Forall good_chunk cs /\ concat cs = data /\
     fs_data (fs st) (TempFilePath s) = Some (encode key cs)) /\
  UploadedSize s = zlen data /\ zlen data <= ExpectedSize s < max_int64 /\
  metaPath (SessionMgr st) (ID s) <> TempFilePath s.

(** One network read fills at most the 1 MiB buffer. *)
Definition small_reads (segs : list bytes) : Prop := Forall (fun s => zlen s <= 1024 * 1024) segs.

(** Room on the disk for the whole file and its framing, at worst 32 bytes a
    byte. *)
Definition disk_has_room (e : req_env) (s : Session) : Prop := 33 * (ExpectedSize s + 1) <= disk_cap e.

Lemma small_good segs : small_reads segs -> Forall good_chunk (nonempty_segs segs).
Proof.
  intros Hs. unfold nonempty_segs. apply Forall_forall. intros s [Hne Hin]%list_elem_of_filter.
  unfold small_reads in Hs. rewrite Forall_forall in Hs. specialize (Hs s Hin).
  split; [done|]. unfold MaxChunkSize, TagSize. lia.
Qed.

Lemma small_pieces n segs : small_reads segs -> small_reads (pieces n segs).
Proof.
  intros Hs. revert n. induction Hs as [|s segs Hs1 _ IH]; intros n; [constructor|].
  cbn [pieces]. destruct (n <=? 0); [constructor|]. constructor; [|apply IH].
  rewrite zlen_ztake. lia.
Qed.

Lemma encode_room key cs :
  aes_key_ok key = true -> Forall (.≠ []) cs -> zlen (encode key cs) <= 33 * zlen (concat cs).
Proof.
  intros Hk Hcs. rewrite zlen_encode by done. assert (zlen cs <= zlen (concat cs)); [|lia].
  induction Hcs as [|c cs Hc _ IH]; [done|]. rewrite zlen_cons. cbn [concat].
  rewrite zlen_app. apply zlen_pos in Hc. lia.
Qed.

Lemma pieces_room n segs key :
  aes_key_ok key = true -> 0 <= n -> zlen (encode key (nonempty_segs (pieces n segs))) <= 33 * n.
Proof.
  intros Hk Hn. etrans; [apply encode_room; [done|]|].
  - unfold nonempty_segs. apply Forall_forall. by intros s [? _]%list_elem_of_filter.
  - rewrite concat_nonempty, concat_pieces, zlen_ztake. lia.
Qed.

Lemma i64_small a b : 0 <= a -> 0 <= b -> a + b <= max_int64 -> i64 (a + b) = a + b.
Proof. unfold max_int64. intros. apply i64_id. unfold in_i64. lia. Qed.

(** What [receive_chunk] does, by what the body is. *)
Lemma receive_chunk_cases e st s key cs b :
  aes_key_ok key = true ->
  Forall good_chunk cs ->
  UploadedSize s = zlen (concat cs) -> zlen (concat cs) <= ExpectedSize s < max_int64 ->
  disk_has_room e s ->
  let remaining := ExpectedSize s - UploadedSize s in
  let n := zlen (concat (segments b)) in
  let rest := if truncate_ok (os e) then []
              else nonempty_segs (pieces (remaining + 1) (segments b)) in
  receive_chunk e st s key (encode key cs) b =
    if (n <=? remaining) then
      match body_err b with
      | Some _ => (put_temp e st s (encode key (cs ++ rest)), http_error 500 "chunk transfer failed")
      | None =>
          let s' := with_progress s (UploadedSize s + n) (now_ e) in
          let st1 := persist e (put_session
            (put_temp e st s (encode key (cs ++ nonempty_segs (segments b)))) s') s' in
          if ExpectedSize s' <=? UploadedSize s' then finish_upload e st1 s'
          else (st1, mkResp 200 [("status", JStr "incomplete"); ("uploaded", JInt (UploadedSize s'))])
      end
    else (put_temp e st s (encode key (cs ++ rest)),
          http_error 400 "uploaded bytes exceed declared session size").
Proof.
  intros Hk Hcs Hu Hexp Hroom remaining n rest. unfold receive_chunk, NewEncryptStream. rewrite Hk.
  cbn zeta. fold remaining.
  pose proof (zlen_nonneg (concat cs)) as Hnn. pose proof (zlen_nonneg (concat (segments b))) as Hnn2.
  assert (zlen (encode key cs) + zlen (encode key (nonempty_segs (pieces (remaining + 1) (segments b))))
    <= disk_cap e) as Hcap.
  { assert (Forall (.≠ []) cs) as Hne by (eapply Forall_impl; [exact Hcs|]; by intros ? [? _]).
    pose proof (encode_room key cs Hk Hne).
    pose proof (pieces_room (remaining + 1) (segments b) key Hk ltac:(subst remaining; lia)).
    unfold disk_has_room in Hroom. subst remaining. lia. }
  assert (i64 (remaining + 1) = remaining + 1) as -> by (subst remaining; apply i64_small; lia).
  destruct (copy_body_ok (disk_cap e) key (segments b) (body_err b) (remaining + 1) 0
    (mkBW (encode key cs) [] None) Hk eq_refl) as (w' & -> & He' & Ht').
  { unfold bw_total. cbn [bw_file bw_buf]. by rewrite app_nil_r. }
  cbn [es_w]. unfold bw_total in Ht' at 2. cbn [bw_file bw_buf] in Ht'. rewrite app_nil_r in Ht'.
  rewrite bw_flush_ok; [|done|].
  2:{ by rewrite Ht', zlen_app. }
  cbn [bw_file]. rewrite Ht', ztake_app_len. rewrite zlen_ztake, Z.add_0_l. fold n.
  assert ((if truncate_ok (os e) then encode key cs
           else encode key cs ++ encode key (nonempty_segs (pieces (remaining + 1) (segments b))))
    = encode key (cs ++ rest)) as ->.
  { subst rest. destruct (truncate_ok (os e)); [by rewrite app_nil_r|]. by rewrite encode_app. }
  rewrite Hu in *. destruct (Z.leb_spec n remaining) as [Hle|Hgt].
  - destruct (Z.ltb_spec n (remaining + 1)); [|lia]. destruct (body_err b); [done|].
    replace (Z.min (Z.max 0 (remaining + 1)) n) with n by lia.
    rewrite i64_small by (subst remaining n; lia).
    destruct (Z.ltb_spec (ExpectedSize s) (zlen (concat cs) + n)); [subst remaining; lia|].
    rewrite pieces_all by (subst n; lia). by rewrite encode_app.
  - destruct (Z.ltb_spec n (remaining + 1)); [lia|].
    replace (Z.min (Z.max 0 (remaining + 1)) n) with (remaining + 1) by lia.
    rewrite i64_small by (subst remaining; lia).
    destruct (Z.ltb_spec (ExpectedSize s) (zlen (concat cs) + (remaining + 1))); [done|].
    subst remaining. lia.
Qed.

(** ** One chunk *)

(** What lets a chunk reach the copy. *)
Definition admitted (e : req_env) (st : uc_state) (s : Session) (req : chunk_request) (key : bytes)
  : Prop :=
  session_id req = ID s /\ check_range s (ContentRange req) = None /\
  create_ok (os e) = true /\ seek_ok e = true /\
  select_key e (snd (vault_check e st (FolderID s))) = Some key /\ aes_key_ok key = true /\
  refuse_chunk e st s (ContentLength req) = None /\
  small_reads (segments (Body req)) /\ disk_has_room e s.

Lemma upload_chunk_receive e st s req key cs :
  sessions (SessionMgr st) !! ID s = Some s ->
  fs_data (fs st) (TempFilePath s) = Some (encode key cs) ->
  admitted e st s req key ->
  UploadChunk e st req
  = receive_chunk e (fst (vault_check e st (FolderID s))) s key (encode key cs) (Body req).
Proof.
  intros Hs Hf (Hid & Hr & Hc & Hsk & Hkey & Hk & Href & _ & _). unfold UploadChunk, GetSession.
  rewrite Hid, Hs, Hr, Hc. cbn [negb].
  assert (fs_exists (fs st) (TempFilePath s) = true) as ->.
  { apply fs_exists_spec. unfold fs_data in Hf. by destruct (fs st !! _). }
  rewrite Hf. cbn [default from_option].
  destruct (vault_check e st (FolderID s)) as [st2 isVault] eqn:Hv. cbn [fst snd] in *.
  rewrite Hkey, Hk. cbn [negb].
  assert (refuse_chunk e st2 s (ContentLength req) = None) as ->.
  { unfold vault_check in Hv. destruct (isVaultFolder _ _ _) as [fc b]. injection Hv as <- _. exact Href. }
  by rewrite Hsk.
Qed.

Lemma fs_write_ne env f p b q : p <> q -> fst (fs_write env f p b) !! q = f !! q.
Proof.
  intros Hne. unfold fs_write. destruct (create_ok env); [|done].
  destruct (copy_fails env); cbn; by rewrite lookup_insert_ne.
Qed.

(** The state after an accepted, not final, chunk. *)
Definition after_chunk (e : req_env) (st : uc_state) (s : Session) (file : bytes) (uploaded : Z)
  : uc_state :=
  let s' := with_progress s uploaded (now_ e) in
  persist e (put_session (put_temp e (fst (vault_check e st (FolderID s))) s file) s') s'.

Lemma vault_check_fields e st folder :
  let st' := fst (vault_check e st folder) in
  SessionMgr st' = SessionMgr st /\ Cas st' = Cas st /\ fs st' = fs st /\ powStore st' = powStore st /\
  completedSessions st' = completedSessions st /\ DB st' = DB st.
Proof. unfold vault_check. by destruct (isVaultFolder _ _ _). Qed.

Lemma after_chunk_fields e st s file uploaded :
  let st' := after_chunk e st s file uploaded in
  let s' := with_progress s uploaded (now_ e) in
  SessionMgr st' = set_sessions (SessionMgr st) (<[ID s := s']> (sessions (SessionMgr st))) /\
  Cas st' = Cas st /\ DB st' = DB st /\ completedSessions st' = completedSessions st /\
  (metaPath (SessionMgr st) (ID s) <> TempFilePath s -> fs_data (fs st') (TempFilePath s) = Some file) /\
  (forall p, p <> TempFilePath s -> p <> metaPath (SessionMgr st) (ID s) -> fs st' !! p = fs st !! p).
Proof.
  pose proof (vault_check_fields e st (FolderID s)) as (Hf1 & Hf2 & Hf3 & _ & Hf5 & Hf6).
  unfold after_chunk. cbn zeta in *. set (st2 := fst (vault_check _ _ _)) in *.
  unfold persist, put_session, put_temp, PersistSession, set_fs, set_sm, set_sessions, fs_data, metaPath.
  cbn [SessionMgr Cas fs DB completedSessions TempDir ID with_progress sessions].
  rewrite Hf1, Hf2, Hf3, Hf5, Hf6. do 4 (split; [done|]). split.
  - intros Hne. rewrite fs_write_ne by done. by rewrite lookup_insert_eq.
  - intros p Hp1 Hp2. rewrite fs_write_ne by done. by rewrite lookup_insert_ne.
Qed.

Lemma chunk_appends e st s req key data :
  upload_ok key st s data -> admitted e st s req key -> body_err (Body req) = None ->
  let new := concat (segments (Body req)) in
  zlen data + zlen new < ExpectedSize s ->
  let uploaded := zlen data + zlen new in
  exists file, UploadChunk e st req
    = (after_chunk e st s file uploaded,
       mkResp 200 [("status", JStr "incomplete"); ("uploaded", JInt uploaded)]) /\
    upload_ok key (after_chunk e st s file uploaded) (with_progress s uploaded (now_ e)) (data ++ new).
Proof.
  intros (Hs & (cs & Hcs & <- & Hf) & Hu & Hexp & Hmeta) Hadm Hb new Hlt uploaded.
  pose proof Hadm as (_ & _ & _ & _ & _ & Hk & _ & Hsmall & Hroom).
  rewrite (upload_chunk_receive e st s req key cs) by done.
  rewrite receive_chunk_cases by done. rewrite Hb.
  fold new. rewrite Hu. destruct (Z.leb_spec (zlen new) (ExpectedSize s - zlen (concat cs))); [|lia].
  cbn [ExpectedSize UploadedSize with_progress].
  destruct (Z.leb_spec (ExpectedSize s) (zlen (concat cs) + zlen new)); [lia|].
  eexists. split; [reflexivity|].
  pose proof (after_chunk_fields e st s (encode key (cs ++ nonempty_segs (segments (Body req)))) uploaded)
    as (Hsm & _ & _ & _ & Ht & _). unfold upload_ok. rewrite Hsm.
  cbn [ID with_progress sessions set_sessions TempFilePath UploadedSize ExpectedSize].
  split; [apply lookup_insert_eq|]. split.
  - exists (cs ++ nonempty_segs (segments (Body req))). split; [|split].
    + apply Forall_app. split; [done|]. by apply small_good.
    + by rewrite concat_app, concat_nonempty.
    + by apply Ht.
  - split; [by rewrite zlen_app|]. split; [rewrite zlen_app; lia|]. done.
Qed.

End UploadFacts.
