(* ===== verification/UploadProps.v ===== *)
(** * What the upload controller guarantees *)

From S2P Require Import Prelude GoStrings FileSys CryptoPrims CryptoStream CryptoStreamFacts CAS CASProps PoW UploadSession UploadSessionProps VaultTree Auth UploadCtrl UploadFacts.

#[local] Open Scope string_scope.
#[local] Open Scope list_scope.
#[local] Open Scope Z_scope.

Section UploadProps.
Context `{CryptoLaws} `{MetaCodec}.

(** retries and conflicts are harmless.  A chunk whose Content-Range ends
    before the server's offset is acknowledged with that offset, one that
    starts elsewhere is refused with 409 and the expected offset, and a chunk
    for an unknown session is a 404; none of them changes anything, whatever
    the body, the keys and the environment. *)
Theorem chunk_retry_is_harmless e st req s a b t :
  parseContentRangeHeader (ContentRange req) = Some (a, b, t) ->
  sessions (SessionMgr st) !! session_id req = Some s ->
  (b < UploadedSize s ->
     UploadChunk e st req = (st, mkResp 200 [("status", JStr "incomplete");
       ("uploaded", JInt (UploadedSize s)); ("message", JStr "chunk already processed")])) /\
  (UploadedSize s <= b -> a <> UploadedSize s ->
     UploadChunk e st req = (st, mkResp 409 [("error", JStr "offset mismatch");
       ("uploaded", JInt (UploadedSize s)); ("expected_offset", JInt (UploadedSize s))])) /\
  (forall req', sessions (SessionMgr st) !! session_id req' = None ->
     UploadChunk e st req' = (st, http_error 404 "session not found")).
Proof.
  intros Hp Hs. unfold UploadChunk, GetSession, check_range. rewrite Hs, Hp. split; [|split].
  - intros Hb. by destruct (Z.ltb_spec b (UploadedSize s)); [|lia].
  - intros Hb Ha. destruct (Z.ltb_spec b (UploadedSize s)); [lia|].
    destruct (Z.eqb_spec a (UploadedSize s)); done.
  - intros req' Hn. by rewrite Hn.
Qed.

Lemma put_temp_fields e st s b :
  let st' := put_temp e (fst (vault_check e st (FolderID s))) s b in
  SessionMgr st' = SessionMgr st /\ Cas st' = Cas st /\ DB st' = DB st /\
  fs_data (fs st') (TempFilePath s) = Some b /\
  (forall p, p <> TempFilePath s -> fs st' !! p = fs st !! p).
Proof.
  pose proof (vault_check_fields e st (FolderID s)) as (Hf1 & Hf2 & Hf3 & _ & _ & Hf6).
  cbn zeta. unfold put_temp, set_fs, set_sm, fs_data. cbn [SessionMgr Cas DB fs].
  rewrite Hf1, Hf2, Hf3, Hf6. do 3 (split; [done|]). split; [by rewrite lookup_insert_eq|].
  intros p Hp. by rewrite lookup_insert_ne.
Qed.

(** C12: a chunk that fails leaves the upload as it was.  When the body is
    longer than what is left of the declared size, or breaks off with an
    error, the answer is 400 or 500, the session keeps its offset, nothing is
    stored or recorded, no other file changes, and the temporary file has the
    bytes it had, so that the upload can go on from there.  The error of
    Truncate is ignored: where it fails, the temporary file keeps, after its
    old bytes, the refused ones encrypted (up to one byte more than was left). *)
Theorem failed_chunk_rolls_back e st s req key data :
  upload_ok key st s data -> admitted e st s req key ->
  ExpectedSize s - UploadedSize s < zlen (concat (segments (Body req))) \/ body_err (Body req) <> None ->
  exists st' r, UploadChunk e st req = (st', r) /\ (code r = 400 \/ code r = 500) /\
    SessionMgr st' = SessionMgr st /\ Cas st' = Cas st /\ DB st' = DB st /\
    (forall p, p <> TempFilePath s -> fs st' !! p = fs st !! p) /\
    (truncate_ok (os e) = true ->
       upload_ok key st' s data /\ fs_data (fs st') (TempFilePath s) = fs_data (fs st) (TempFilePath s)) /\
    (truncate_ok (os e) = false ->
       exists old refused, fs_data (fs st) (TempFilePath s) = Some old /\
         fs_data (fs st') (TempFilePath s) = Some (old ++ encode key refused) /\
         concat refused = ztake (ExpectedSize s - UploadedSize s + 1) (concat (segments (Body req)))).
Proof.
  intros (Hs & (cs & Hcs & Hdata & Hf) & Hu & Hexp & Hmeta) Hadm Hbad.
  pose proof Hadm as (_ & _ & _ & _ & _ & Hk & _ & Hsmall & Hroom). subst data.
  rewrite (upload_chunk_receive e st s req key cs) by done. rewrite receive_chunk_cases by done.
  set (rest := if truncate_ok (os e) then [] else _). set (kept := encode key (cs ++ rest)).
  pose proof (put_temp_fields e st s kept) as Hst. set (stf := put_temp _ _ _ _) in *.
  destruct Hst as (Hsm & Hc & Hdb & Hdat & Hoth).
  assert (forall r, code r = 400 \/ code r = 500 -> exists st' r', (stf, r) = (st', r') /\
    (code r' = 400 \/ code r' = 500) /\ SessionMgr st' = SessionMgr st /\ Cas st' = Cas st /\ DB st' = DB st /\
    (forall p, p <> TempFilePath s -> fs st' !! p = fs st !! p) /\
    (truncate_ok (os e) = true -> upload_ok key st' s (concat cs) /\
       fs_data (fs st') (TempFilePath s) = fs_data (fs st) (TempFilePath s)) /\
    (truncate_ok (os e) = false ->
       exists old refused, fs_data (fs st) (TempFilePath s) = Some old /\
         fs_data (fs st') (TempFilePath s) = Some (old ++ encode key refused) /\
         concat refused = ztake (ExpectedSize s - UploadedSize s + 1) (concat (segments (Body req)))))
    as Hall.
  { intros r Hr. exists stf, r. do 6 (split; [done|]). split; intros Htr.
    - assert (kept = encode key cs) as Hkc by (subst kept rest; by rewrite Htr, app_nil_r).
      rewrite Hkc in Hdat. split; [|by rewrite Hdat, Hf].
      unfold upload_ok. rewrite Hsm. split; [done|]. split; [by exists cs|]. done.
    - exists (encode key cs), rest. split; [done|]. subst kept. rewrite Hdat, encode_app. split; [done|].
      subst rest. rewrite Htr, concat_nonempty, concat_pieces. done. }
  destruct (Z.leb_spec (zlen (concat (segments (Body req)))) (ExpectedSize s - UploadedSize s)).
  - destruct (body_err (Body req)) as [err|]; [|destruct Hbad; [lia|done]]. apply Hall. by right.
  - apply Hall. by left.
Qed.

(** ** Finishing *)

(** The operating system and the database do what they are asked. *)
Definition all_well (e : req_env) : Prop :=
  mkdir_ok (os e) = true /\ rename_ok (os e) = true /\ read_ok (os e) = true /\
  remove_ok (os e) = true /\ copy_fails (os e) = None.

(** The row recorded for a finished session. *)
Definition finished_row (e : req_env) (s : Session) (h : string) : file_row :=
  mkRow (file_id e) (OwnerID s)
    (if String.eqb (FolderID s) "" || String.eqb (FolderID s) "root" then None else Some (FolderID s))
    (Filename s) (MimeType s) (UploadedSize s) h (PlaintextHash s) false.

Lemma finish_spec e st s file d :
  all_well e -> cas_inv (Cas st) (fs st) ->
  outside_cas (Cas st) (TempFilePath s) -> outside_cas (Cas st) (metaPath (SessionMgr st) (ID s)) ->
  sessions (SessionMgr st) !! ID s = Some s ->
  fs_data (fs st) (TempFilePath s) = Some file -> DB st = Some d ->
  let h := content_hash file in
  let '(st', r) := finish_upload e st s in
  sessions (SessionMgr st') !! ID s = None /\ fs st' !! TempFilePath s = None /\
  completedSessions st' !! ID s = Some (now_ e) /\
  if insert_ok e then
    r = mkResp 200 [("status", JStr "completed"); ("cas_hash", JStr h)] /\
    DB st' = Some (mkDB (folders d) (files d ++ [finished_row e s h])) /\
    exists blob, fs_data (fs st') (Path (Cas st') h) = Some blob /\ content_hash blob = h /\
      (fs st !! Path (Cas st) h = None -> blob = file)
  else
    code r = 500 /\ DB st' = Some d /\
    (fs st !! Path (Cas st) h = None -> fs st' !! Path (Cas st) h = None).
Proof.
  intros (Hmk & Hren & Hrd & Hrm & Hcp) Hinv Hout Hmout Hs Hf Hdb h.
  assert (copy_undoable (os e)) as Hund by (by left).
  destruct (move_stores (os e) (Cas st) (fs st) (TempFilePath s) file Hinv Hout Hund Hmk Hren Hrd Hrm Hf)
    as (c1 & f1 & dd & Hmove & Hinv1 & Hbase & Ht1 & Hdd & Hddt & blob & Hblob & Hhash & Hnew).
  fold h in Hmove, Hdd, Hddt, Hblob, Hhash, Hnew.
  assert (forall x, Path c1 x = Path (Cas st) x) as Hpath by (intros x; unfold Path; by rewrite Hbase).
  unfold finish_upload, publish. cbn [Cas fs]. rewrite Hmove. unfold DeleteSession.
  cbn [SessionMgr set_cas set_completed fs sessions set_sessions]. rewrite Hs.
  unfold remove_session_files, fs_remove. rewrite Hrm.
  cbn [DB set_sm set_db set_cas set_completed]. rewrite Hdb.
  fold h. pose proof (content_hash_valid file) as Hv. fold h in Hv.
  set (f3 := delete (metaPath _ _) (delete (TempFilePath s) f1)).
  assert (f3 !! TempFilePath s = None) as Ht3.
  { subst f3. apply lookup_delete_None. right. apply lookup_delete_eq. }
  assert (f3 !! Path (Cas st) h = f1 !! Path (Cas st) h) as Hp3.
  { subst f3. rewrite lookup_delete_ne by (by apply Hmout). by rewrite lookup_delete_ne by (by apply Hout). }
  unfold insert_row. destruct (insert_ok e).
  - cbn [SessionMgr set_db set_sm fs DB completedSessions sessions set_sessions Cas set_cas set_completed].
    split; [apply lookup_delete_eq|]. split; [done|]. split; [apply lookup_insert_eq|].
    split; [done|]. split; [done|]. exists blob. unfold fs_data. rewrite Hpath, Hp3. done.
  - destruct dd; cbn [SessionMgr set_db set_sm fs DB completedSessions sessions set_sessions Cas set_cas
      set_completed code http_error].
    + split; [apply lookup_delete_eq|]. split; [done|]. split; [apply lookup_insert_eq|].
      split; [done|]. split; [done|]. intros Hn. destruct (Hddt eq_refl) as [? ?]. congruence.
    + split; [apply lookup_delete_eq|]. split; [by apply lookup_delete_None; right|].
      split; [apply lookup_insert_eq|]. split; [done|]. split; [done|]. intros _.
      rewrite Hpath. apply lookup_delete_eq.
Qed.

Lemma chunk_finishes e st s req key data :
  upload_ok key st s data -> admitted e st s req key -> body_err (Body req) = None ->
  let new := concat (segments (Body req)) in
  zlen data + zlen new = ExpectedSize s ->
  exists cs, Forall good_chunk cs /\ concat cs = data ++ new /\
    let st1 := after_chunk e st s (encode key cs) (ExpectedSize s) in
    let s1 := with_progress s (ExpectedSize s) (now_ e) in
    UploadChunk e st req = finish_upload e st1 s1 /\
    sessions (SessionMgr st1) !! ID s = Some s1 /\
    fs_data (fs st1) (TempFilePath s) = Some (encode key cs).
Proof.
  intros (Hs & (cs & Hcs & <- & Hf) & Hu & Hexp & Hmeta) Hadm Hb new Heq.
  pose proof Hadm as (_ & _ & _ & _ & _ & Hk & _ & Hsmall & Hroom).
  exists (cs ++ nonempty_segs (segments (Body req))). split; [|split].
  { apply Forall_app. split; [done|]. by apply small_good. }
  { by rewrite concat_app, concat_nonempty. }
  cbn zeta. split.
  - rewrite (upload_chunk_receive e st s req key cs) by done. rewrite receive_chunk_cases by done.
    rewrite Hb. fold new. rewrite Hu, Heq.
    destruct (Z.leb_spec (zlen new) (ExpectedSize s - zlen (concat cs))); [|lia].
    cbn [ExpectedSize UploadedSize with_progress].
    destruct (Z.leb_spec (ExpectedSize s) (ExpectedSize s)); [done|lia].
  - pose proof (after_chunk_fields e st s (encode key (cs ++ nonempty_segs (segments (Body req))))
      (ExpectedSize s)) as (-> & _ & _ & _ & Ht & _). split; [apply lookup_insert_eq|by apply Ht].
Qed.

Lemma after_chunk_cas e st s file uploaded :
  cas_inv (Cas st) (fs st) -> outside_cas (Cas st) (TempFilePath s) ->
  outside_cas (Cas st) (metaPath (SessionMgr st) (ID s)) ->
  let st1 := after_chunk e st s file uploaded in
  cas_inv (Cas st1) (fs st1) /\
  (forall h, IsValidHash h = true -> fs st1 !! Path (Cas st) h = fs st !! Path (Cas st) h).
Proof.
  intros Hinv Hout Hmout st1.
  pose proof (after_chunk_fields e st s file uploaded) as (_ & Hc & _ & _ & _ & Hoth).
  assert (forall h, IsValidHash h = true -> fs st1 !! Path (Cas st) h = fs st !! Path (Cas st) h) as Hp.
  { intros h Hv. apply Hoth; apply not_eq_sym; [by apply Hout|by apply Hmout]. }
  split; [|done]. unfold st1. rewrite Hc. eapply cas_inv_agree; [exact Hp|done].
Qed.

(** a file that could not be recorded is reported as stored.  When the
    last chunk arrives but the database refuses the row, the answer is 500,
    no row exists, the session and its temporary file are gone and a new blob
    is removed again; yet for the next two minutes the status of that upload
    reads "completed". *)
Theorem failed_record_reports_completed e st s req key data d :
  upload_ok key st s data -> admitted e st s req key -> body_err (Body req) = None ->
  zlen data + zlen (concat (segments (Body req))) = ExpectedSize s ->
  all_well e -> insert_ok e = false -> DB st = Some d ->
  cas_inv (Cas st) (fs st) -> outside_cas (Cas st) (TempFilePath s) ->
  outside_cas (Cas st) (metaPath (SessionMgr st) (ID s)) ->
  exists st' r, UploadChunk e st req = (st', r) /\ code r = 500 /\ DB st' = Some d /\
    sessions (SessionMgr st') !! ID s = None /\ fs st' !! TempFilePath s = None /\
    forall e2, now_ e2 - now_ e < 2 * 60 * 1000000000 ->
      GetStatus e2 st' (ID s) = (st', mkResp 200 [("status", JStr "completed")]).
Proof.
  intros Hok Hadm Hb Heq Hwell Hins Hdb Hinv Hout Hmout.
  destruct (chunk_finishes e st s req key data Hok Hadm Hb Heq) as (cs & _ & _ & -> & Hs1 & Hf1).
  set (st1 := after_chunk _ _ _ _ _) in *. set (s1 := with_progress _ _ _) in *.
  destruct (after_chunk_cas e st s (encode key cs) (ExpectedSize s) Hinv Hout Hmout) as [Hinv1 _].
  pose proof (after_chunk_fields e st s (encode key cs) (ExpectedSize s))
    as (Hsm & Hc & Hdb1 & _ & _ & _). fold st1 in Hinv1, Hsm, Hc, Hdb1.
  pose proof (finish_spec e st1 s1 (encode key cs) d Hwell Hinv1) as Hfin.
  rewrite Hc, Hdb1, Hins in Hfin. unfold metaPath in Hfin. rewrite Hsm in Hfin.
  specialize (Hfin Hout Hmout). rewrite <- Hsm in Hfin. specialize (Hfin Hs1 Hf1 Hdb).
  destruct (finish_upload e st1 s1) as [st' r]. destruct Hfin as (Hgone & Htemp & Hcomp & Hcode & Hdb' & _).
  exists st', r. do 5 (split; [done|]). intros e2 Ht. unfold GetStatus, GetSession.
  change (ID s1) with (ID s) in *. rewrite Hgone, Hcomp.
  by destruct (Z.ltb_spec (now_ e2 - now_ e) (2 * 60 * 1000000000)); [|lia].
Qed.

(** ** A whole upload *)

Fixpoint run_chunks (st : uc_state) (l : list (req_env * chunk_request)) : uc_state * list resp :=
  match l with
  | [] => (st, [])
  | (e, req) :: l' =>
      let '(st1, r) := UploadChunk e st req in
      let '(st2, rs) := run_chunks st1 l' in (st2, r :: rs)
  end.

Definition chunk_data (x : req_env * chunk_request) : bytes := concat (segments (Body x.2)).

(** A chunk of a plain upload to the root folder. *)
Definition plain_request (s : Session) (key : bytes) (x : req_env * chunk_request) : Prop :=
  let '(e, req) := x in
  session_id req = ID s /\ ContentRange req = "" /\ create_ok (os e) = true /\ seek_ok e = true /\
  QuotaBytes e = 0 /\ standard_key e = Some key /\ body_err (Body req) = None /\
  small_reads (segments (Body req)) /\ disk_has_room e s.

Lemma plain_admitted s key st e req :
  aes_key_ok key = true -> FolderID s = "" -> 0 < ExpectedSize s -> UploadedSize s <= ExpectedSize s ->
  plain_request s key (e, req) -> admitted e st s req key.
Proof.
  intros Hk Hfold Hpos Hle (Hid & Hcr & Hc & Hsk & Hq & Hstd & Hb & Hsmall & Hroom).
  unfold admitted. split; [done|]. split; [by rewrite Hcr|]. split; [done|]. split; [done|].
  split.
  { unfold vault_check, isVaultFolder. rewrite Hfold. cbn. unfold select_key. cbn [negb]. by rewrite Hstd. }
  split; [done|]. split; [|done]. unfold refuse_chunk. rewrite Hq.
  destruct (Z.eqb_spec (ExpectedSize s) 0); [lia|]. cbn [andb].
  destruct (Z.ltb_spec 0 (ExpectedSize s)); [|lia].
  destruct (Z.ltb_spec (ExpectedSize s) (UploadedSize s)); [lia|]. cbn [andb].
  by destruct (Z.ltb_spec (ExpectedSize s - UploadedSize s) 0); [lia|].
Qed.

Lemma run_init key s l st t data :
  aes_key_ok key = true -> FolderID s = "" -> 0 < ExpectedSize s ->
  Forall (plain_request s key) l -> upload_ok key st (with_progress s (zlen data) t) data ->
  let all := data ++ concat (chunk_data <$> l) in
  zlen all < ExpectedSize s ->
  cas_inv (Cas st) (fs st) -> outside_cas (Cas st) (TempFilePath s) ->
  outside_cas (Cas st) (metaPath (SessionMgr st) (ID s)) ->
  exists st' rs t', run_chunks st l = (st', rs) /\ Forall (fun r => code r = 200) rs /\
    upload_ok key st' (with_progress s (zlen all) t') all /\
    Cas st' = Cas st /\ DB st' = DB st /\ cas_inv (Cas st') (fs st') /\
    TempDir (SessionMgr st') = TempDir (SessionMgr st) /\
    (forall h, IsValidHash h = true -> fs st' !! Path (Cas st) h = fs st !! Path (Cas st) h).
Proof.
  intros Hk Hfold Hpos Hl. revert st t data.
  induction Hl as [|[e req] l Hreq Hl IH]; intros st t data Hok all Hlt Hinv Hout Hmout.
  { subst all. cbn. rewrite app_nil_r. exists st, [], t. do 7 (split; [done|]). done. }
  pose proof Hok as (_ & _ & _ & Hexp & _). cbn [ExpectedSize with_progress] in Hexp.
  assert (admitted e st (with_progress s (zlen data) t) req key) as Hadm
    by (apply plain_admitted; try done; cbn; lia).
  pose proof Hreq as (_ & _ & _ & _ & _ & _ & Hb & _).
  assert (zlen data + zlen (concat (segments (Body req))) < ExpectedSize (with_progress s (zlen data) t)) as Hlt1.
  { subst all. cbn [fmap list_fmap concat chunk_data snd] in Hlt. unfold chunk_data at 1 in Hlt.
    cbn [snd] in Hlt. rewrite !zlen_app in Hlt. cbn.
    pose proof (zlen_nonneg (concat (chunk_data <$> l))). lia. }
  destruct (chunk_appends e st _ req key data Hok Hadm Hb Hlt1) as (file & Hrun & Hok1).
  set (u := zlen data + zlen (concat (segments (Body req)))) in *.
  set (st1 := after_chunk e st (with_progress s (zlen data) t) file u) in *.
  pose proof (after_chunk_fields e st (with_progress s (zlen data) t) file u)
    as (Hsm & Hc & Hdb & _ & _ & _). fold st1 in Hsm, Hc, Hdb.
  destruct (after_chunk_cas e st (with_progress s (zlen data) t) file u Hinv Hout Hmout) as [Hinv1 Hblobs].
  fold st1 in Hinv1, Hblobs.
  assert (u = zlen (data ++ concat (segments (Body req)))) as Hlen by (by rewrite zlen_app).
  change (with_progress (with_progress s (zlen data) t) u (now_ e)) with (with_progress s u (now_ e)) in Hok1.
  rewrite Hlen in Hok1.
  destruct (IH st1 (now_ e) (data ++ concat (segments (Body req))) Hok1)
    as (st' & rs & t' & Hrest & Hcodes & Hok' & Hc' & Hdb' & Hinv' & Htd & Hb').
  - by rewrite <- app_assoc.
  - done.
  - by rewrite Hc.
  - rewrite Hc. unfold metaPath. rewrite Hsm. exact Hmout.
  - exists st', (mkResp 200 [("status", JStr "incomplete"); ("uploaded", JInt u)] :: rs), t'.
    cbn [run_chunks]. rewrite Hrun. fold st1. rewrite Hrest. split; [done|].
    split; [by constructor|]. rewrite <- app_assoc in Hok'. split; [exact Hok'|].
    rewrite Hc', Hdb', Htd, Hc, Hdb, Hsm. split; [done|]. split; [done|].
    rewrite Hc', Hc in Hinv'. split; [done|]. split; [done|]. intros h Hv. rewrite <- Hblobs by done.
    rewrite Hc in Hb'. by apply Hb'.
Qed.

(** A stored file that reads back as [data] under [key]. *)
Definition decrypts_to (key file data : bytes) : Prop :=
  forall kind n fuel, 0 < n -> (length data < fuel)%nat ->
    copy_all fuel (mkDec (mkReader kind file 0) key []) n [] = Some (data, None).

(** C1: an upload stores the file.  Whatever way a file of the declared size
    is cut into chunk requests and their reads, uploading them to the root
    folder answers 200 every time and "completed" in the end; then the
    session and its temporary file are gone, the file is recorded with its
    size under the hash the store filed it under, and the blob there reads
    back, under the storage key, as exactly the bytes that were sent (unless
    a blob with that very hash was stored before). *)
Theorem upload_end_to_end key s st init e req t d :
  aes_key_ok key = true -> FolderID s = "" -> 0 < ExpectedSize s ->
  Forall (plain_request s key) (init ++ [(e, req)]) ->
  upload_ok key st (with_progress s 0 t) [] ->
  let data := concat (chunk_data <$> (init ++ [(e, req)])) in
  zlen data = ExpectedSize s -> concat (segments (Body req)) <> [] ->
  all_well e -> insert_ok e = true -> DB st = Some d ->
  cas_inv (Cas st) (fs st) -> outside_cas (Cas st) (TempFilePath s) ->
  outside_cas (Cas st) (metaPath (SessionMgr st) (ID s)) ->
  exists st' rs r file blob, run_chunks st (init ++ [(e, req)]) = (st', rs ++ [r]) /\
    Forall (fun r => code r = 200) rs /\
    let h := content_hash file in
    r = mkResp 200 [("status", JStr "completed"); ("cas_hash", JStr h)] /\
    sessions (SessionMgr st') !! ID s = None /\ fs st' !! TempFilePath s = None /\
    DB st' = Some (mkDB (folders d)
      (files d ++ [finished_row e (with_progress s (ExpectedSize s) (now_ e)) h])) /\
    decrypts_to key file data /\
    fs_data (fs st') (Path (Cas st') h) = Some blob /\ content_hash blob = h /\
    (fs st !! Path (Cas st) h = None -> blob = file).
Proof.
  intros Hk Hfold Hpos [Hinit Hlast]%Forall_app Hok data Hlen Hne Hwell Hins Hdb Hinv Hout Hmout.
  rewrite Forall_singleton in Hlast. pose proof Hlast as (_ & _ & _ & _ & _ & _ & Hb & _).
  assert (data = concat (chunk_data <$> init) ++ concat (segments (Body req))) as Hdata.
  { subst data. rewrite fmap_app, concat_app. cbn. by rewrite app_nil_r. }
  rewrite Hdata, zlen_app in Hlen. apply zlen_pos in Hne.
  destruct (run_init key s init st t [] Hk Hfold Hpos Hinit Hok ltac:(cbn; lia) Hinv Hout Hmout)
    as (st1 & rs & t1 & Hrun & Hcodes & Hok1 & Hc1 & Hdb1 & Hinv1 & Htd1 & Hbl1).
  cbn [app] in Hok1. set (pre := concat (chunk_data <$> init)) in *.
  assert (admitted e st1 (with_progress s (zlen pre) t1) req key) as Hadm
    by (apply plain_admitted; try done; cbn; lia).
  destruct (chunk_finishes e st1 _ req key pre Hok1 Hadm Hb Hlen) as (cs & Hcs & Hcat & Hfin & Hs2 & Hf2).
  rewrite <- Hdata in Hcat.
  rewrite <- Hc1 in Hout, Hmout.
  assert (outside_cas (Cas st1) (metaPath (SessionMgr st1) (ID s))) as Hmout1
    by (unfold metaPath in *; by rewrite Htd1).
  destruct (after_chunk_cas e st1 (with_progress s (zlen pre) t1) (encode key cs) (ExpectedSize s) Hinv1 Hout Hmout1)
    as [Hinv2 Hbl2].
  pose proof (after_chunk_fields e st1 (with_progress s (zlen pre) t1) (encode key cs) (ExpectedSize s))
    as (Hsm2 & Hc2 & Hdb2 & _ & _ & _).
  cbn [ExpectedSize with_progress] in Hfin, Hs2, Hf2.
  set (st2 := after_chunk _ _ _ _ _) in *. set (s2 := with_progress _ _ _) in Hfin, Hs2.
  pose proof (finish_spec e st2 s2 (encode key cs) d Hwell Hinv2) as Hspec.
  rewrite Hc2, Hdb2, Hdb1, Hins in Hspec. unfold metaPath in Hspec. rewrite Hsm2 in Hspec.
  specialize (Hspec Hout Hmout1). rewrite <- Hsm2 in Hspec. specialize (Hspec Hs2 Hf2 Hdb).
  destruct (finish_upload e st2 s2) as [st' r]. destruct Hspec as (Hgone & Htemp & _ & Hr & Hdb' & blob & Hblob & Hhash & Hnew).
  exists st', rs, r, (encode key cs), blob. split; [|split; [done|]].
  { clear - Hrun Hfin. revert st rs Hrun. induction init as [|[e' r'] init IH]; intros st rs; cbn [run_chunks app].
    - intros [= -> <-]. by rewrite Hfin.
    - destruct (UploadChunk e' st r') as [sta ra]. destruct (run_chunks sta init) as [stb rb] eqn:Hi.
      intros [= -> <-]. by rewrite (IH sta rb Hi). }
  cbn zeta. do 4 (split; [done|]). split; [|split; [done|split; [done|]]].
  - intros kind n fuel Hn Hfuel. rewrite <- Hcat in *.
    apply (copy_all_stream _ _ _ n []); [|done|done]. by apply stream_at_encode.
  - intros Hnone. apply Hnew. rewrite Hbl2 by apply content_hash_valid.
    rewrite Hc1. rewrite Hbl1 by apply content_hash_valid. done.
Qed.

(** ** Guards *)

(** Content-Range.  The header a client writes for the bytes [a] to [b]
    of a file of [n] bytes, or of unknown size, is read back exactly; and
    whatever is accepted has [0 <= a <= b]. *)
Theorem content_range_roundtrip a b n :
  0 <= a <= b -> b < 2 ^ 63 -> 0 <= n < 2 ^ 63 ->
  parseContentRangeHeader ("bytes " +:+ FormatNat a +:+ "-" +:+ FormatNat b +:+ "/" +:+ FormatNat n)
    = Some (a, b, n) /\
  parseContentRangeHeader ("bytes " +:+ FormatNat a +:+ "-" +:+ FormatNat b +:+ "/*") = Some (a, b, -1) /\
  (forall h x y t, parseContentRangeHeader h = Some (x, y, t) -> 0 <= x <= y /\ in_i64 y).
Proof.
  intros Ha Hb Hn. assert (forall tot, without slash tot = true ->
    parseContentRangeHeader ("bytes " +:+ FormatNat a +:+ "-" +:+ FormatNat b +:+ "/" +:+ tot)
    = Some (a, b, if String.eqb tot "*" then -1 else ParseInt_value tot)) as Hgen.
  { intros tot Htot. unfold parseContentRangeHeader.
    assert (String.eqb ("bytes " +:+ FormatNat a +:+ "-" +:+ FormatNat b +:+ "/" +:+ tot) "" = false) as -> by done.
    rewrite HasPrefix_app. cbn [negb orb]. unfold TrimPrefix. rewrite HasPrefix_app, drop_str_app.
    assert (FormatNat a +:+ "-" +:+ FormatNat b +:+ "/" +:+ tot
      = (FormatNat a +:+ String "-" (FormatNat b)) +:+ String slash tot) as ->
      by (by rewrite str_app_assoc).
    pose proof (FormatNat_digits a ltac:(lia)) as Hda. pose proof (FormatNat_digits b ltac:(lia)) as Hdb.
    rewrite split_app, (split_without slash tot Htot). rewrite split_without.
    2:{ rewrite without_app, (digits_without slash (FormatNat a)) by done.
        change (without slash (String "-" (FormatNat b))) with (without slash (FormatNat b)).
        by apply digits_without. }
    cbn [app]. rewrite split_app, !split_without by (by apply digits_without). cbn [app].
    rewrite !ParseInt_FormatNat by lia.
    destruct (Z.ltb_spec a 0), (Z.ltb_spec b a); try lia. done. }
  split; [|split].
  - rewrite Hgen by (apply digits_without; [done|apply FormatNat_digits; lia]).
    assert (String.eqb (FormatNat n) "*" = false) as ->.
    { apply String.eqb_neq. intros He. pose proof (FormatNat_digits n ltac:(lia)) as Hd.
      by rewrite He in Hd. }
    unfold ParseInt_value. rewrite parse_int_digits by (apply FormatNat_digits; lia).
    rewrite parse_nat_FormatNat by lia. f_equal. f_equal. lia.
  - by apply (Hgen "*").
  - intros h x y t. unfold parseContentRangeHeader. destruct (_ || _); [done|].
    destruct (split_on slash _) as [|r [|tt [|? ?]]]; try done.
    destruct (split_on "-" r) as [|p [|q [|? ?]]]; try done.
    destruct (ParseInt p) as [s|]; [|done]. destruct (ParseInt q) as [z|] eqn:Hq; [|done].
    destruct ((s <? 0) || (z <? s)) eqn:Hc; [done|]. intros [= <- <- _].
    apply orb_false_iff in Hc as [H1' H2']. split; [lia|]. unfold ParseInt in Hq.
    destruct (parse_int q) as [v|]; [|done]. unfold fits_int64 in Hq.
    destruct (_ && _) eqn:Hf; [|done]. injection Hq as ->. unfold in_i64. lia.
Qed.

(** the quota holds until the sum overflows.  While used and requested
    bytes add up within an int64 the check refuses exactly the requests over
    the quota; once the sum is out of range it wraps and the check lets the
    request through, whatever the quota. *)
Theorem quota_check_wraps e st owner size :
  let used := GetUserStorageUsed e st owner in
  0 < QuotaBytes e <= max_int64 -> 0 <= used <= max_int64 -> 0 < size <= max_int64 ->
  (used + size <= max_int64 -> over_quota e st owner size = true <-> QuotaBytes e < used + size) /\
  (max_int64 < used + size -> over_quota e st owner size = false).
Proof.
  intros used Hq Hu Hs. unfold over_quota. fold used. unfold max_int64 in *.
  destruct (Z.ltb_spec 0 (QuotaBytes e)); [|lia]. destruct (Z.ltb_spec 0 size); [|lia]. cbn [andb].
  split; intros Hsum.
  - rewrite i64_id by (unfold in_i64; lia). apply Z.ltb_lt.
  - apply Z.ltb_ge. unfold i64.
    replace (used + size + 2 ^ 63) with ((used + size - 2 ^ 63) + 1 * 2 ^ 64) by lia.
    rewrite Z.mod_add by lia. rewrite Z.mod_small by lia. lia.
Qed.

(** Nothing but the vault cache differs. *)
Definition same_but_cache (st st' : uc_state) : Prop :=
  SessionMgr st' = SessionMgr st /\ Cas st' = Cas st /\ fs st' = fs st /\ powStore st' = powStore st /\
  completedSessions st' = completedSessions st /\ DB st' = DB st.

(** a locked vault stays closed.  Without a live vault session, a new
    upload to a vault folder, the status of a session in one and aborting it
    are answered 401 and change nothing; a chunk for it is never stored: no
    file that exists changes, no session moves, nothing is recorded. *)
Theorem locked_vault_is_untouched e st folder :
  snd (vault_check e st folder) = true ->
  has_vault_session e = false -> ctx_vault_authenticated e = false ->
  (forall id s, sessions (SessionMgr st) !! id = Some s -> FolderID s = folder ->
     (let '(st', r) := GetStatus e st id in code r = 401 /\ same_but_cache st st') /\
     (let '(st', r) := AbortSession e st id in code r = 401 /\ same_but_cache st st') /\
     (forall req, session_id req = id ->
        let '(st', r) := UploadChunk e st req in
        SessionMgr st' = SessionMgr st /\ Cas st' = Cas st /\ DB st' = DB st /\
        (forall p f, fs st !! p = Some f -> fs st' !! p = Some f) /\
        (check_range s (ContentRange req) = None -> create_ok (os e) = true -> code r = 401))) /\
  (forall req, 0 <= ir_Size req ->
     looks_like_directory req (clean_filename "untitled" (ir_Filename req)) = false ->
     resolve_folder e st (ir_FolderID req) = Some folder ->
     let '(st', r) := InitSession e st (Some req) in code r = 401 /\ same_but_cache st st').
Proof.
  intros Hv Hno Hctx. pose proof (vault_check_fields e st folder) as Hfields.
  destruct (vault_check e st folder) as [stv b] eqn:Hvc. cbn [fst snd] in *. subst b.
  assert (select_key e true = None) as Hkey.
  { unfold select_key. cbn [negb]. rewrite Hctx. unfold has_vault_session in Hno.
    assert (match swarm e with Some v => GetKey (now_ e) (vault e) v | None => None end = None) as Hg.
    { destruct (swarm e) as [v|]; [|done]. unfold HasKey in Hno. unfold GetKey.
      destruct (vaultKeys (vault e) !! v) as [x|]; [|done]. by destruct (after _ _). }
    destruct (ctx_vault_key e); cbn [andb]; destruct (swarm e); try done; by rewrite Hg. }
  split.
  - intros id s Hs <-. unfold GetStatus, AbortSession, UploadChunk, GetSession. rewrite Hs, Hvc, Hno.
    split; [done|]. split; [done|]. intros req <-. rewrite Hs.
    destruct (check_range s _); [done|]. destruct (create_ok (os e)) eqn:Hc; cbn [negb]; [|done].
    set (st1 := if fs_exists _ _ then st else _).
    assert (vault_check e st1 (FolderID s) = (set_filectrl st1 (FileCtrl stv), true)) as Hv1.
    { unfold vault_check in *. subst st1. destruct (fs_exists _ _); unfold put_temp; cbn [FileCtrl set_fs set_sm] in *.
      - destruct (isVaultFolder _ _ _) as [fc b]. by injection Hvc as <- ->.
      - change (folder_db_of e (set_fs st _)) with (folder_db_of e st).
        destruct (isVaultFolder _ _ _) as [fc b]. by injection Hvc as <- ->. }
    rewrite Hv1, Hkey. subst st1. destruct (fs_exists _ _) eqn:Hex; [done|].
    do 3 (split; [done|]). split; [|done]. intros p f Hp. cbn [fs set_filectrl put_temp set_fs set_sm].
    rewrite lookup_insert_ne; [done|]. intros <-.
    assert (fs_exists (fs st) (TempFilePath s) = true) by (apply fs_exists_spec; by eexists). congruence.
  - intros req Hsz Hdir Hres. unfold InitSession. destruct (Z.ltb_spec (ir_Size req) 0); [lia|].
    by rewrite Hdir, Hres, Hvc, Hno.
Qed.

End UploadProps.

(** ** Witnesses *)

Section UploadWitnesses.
Import ToyCrypto ToyCodec.

Definition up_key : bytes := replicate 32 7.

Definition up_session (folder : string) : Session :=
  mkSession "ab12" 1 folder "a.txt" "text/plain" 4 0 "tmp/upload_ab12.tmp" "" 0 0.

Definition up_fs : FS := {["tmp/upload_ab12.tmp" := mkFile [] 0]}.

Definition up_state (folder : string) : uc_state :=
  mkUC (mkSM {["ab12" := up_session folder]} "tmp") (mkCAS "cas" ∅) up_fs ∅ ∅
    (Some (mkDB [] [])) None [].

Definition up_env (insert : bool) : req_env :=
  mkReqEnv (env_fine 5) (replicate 16 1) empty_store None None None false (Some up_key) 0
    true insert true 1000 (fun l => l).

Definition up_chunk (range : string) (segs : list bytes) : chunk_request :=
  mkChunk "ab12" range 2 (mkBody segs None).

Lemma up_meta_path : metaPath (SessionMgr (up_state "")) "ab12" = "tmp/upload_ab12.meta.json".
Proof. by vm_compute. Qed.

Lemma up_ok t : upload_ok up_key (up_state "") (with_progress (up_session "") 0 t) [] <-> t = 0.
Proof.
  split.
  - intros (Hs & _). cbn in Hs. rewrite lookup_singleton_eq in Hs. by injection Hs.
  - intros ->. split; [reflexivity|]. split.
    { exists []. split; [constructor|]. split; [done|]. by vm_compute. }
    split; [done|]. split; [vm_compute; split; done|].
    change (ID _) with "ab12". by rewrite up_meta_path.
Qed.

Lemma up_cas_inv : cas_inv (Cas (up_state "")) (fs (up_state "")).
Proof.
  split; [|intros h Hh; by apply elem_of_empty in Hh].
  intros h f Hv Hf. exfalso. cbn [fs up_state Cas] in Hf. unfold up_fs in Hf.
  apply lookup_singleton_Some in Hf as [Hp _].
  by apply (toy_outside "tmp/upload_ab12.tmp" eq_refl ∅ h Hv).
Qed.

Lemma up_plain insert range segs :
  range = "" -> small_reads segs ->
  plain_request (up_session "") up_key (up_env insert, up_chunk range segs).
Proof.
  intros -> Hs. unfold plain_request. do 7 (split; [done|]). split; [done|].
  unfold disk_has_room. cbn. lia.
Qed.

Lemma chunk_retry_is_harmless_witness :
  exists s, UploadedSize s = 4 /\
    UploadChunk (up_env true)
      (mkUC (mkSM {["ab12" := s]} "tmp") (mkCAS "cas" ∅) up_fs ∅ ∅ None None [])
      (up_chunk "bytes 0-1/9" [])
    = (mkUC (mkSM {["ab12" := s]} "tmp") (mkCAS "cas" ∅) up_fs ∅ ∅ None None [],
       mkResp 200 [("status", JStr "incomplete"); ("uploaded", JInt 4);
         ("message", JStr "chunk already processed")]).
Proof.
  exists (with_progress (up_session "") 4 0). split; [done|].
  apply (chunk_retry_is_harmless (up_env true) _ (up_chunk "bytes 0-1/9" [])
    (with_progress (up_session "") 4 0) 0 1 9); [by vm_compute|apply lookup_singleton_eq|].
  cbn. lia.
Defined.

Lemma up_admitted insert segs :
  small_reads segs ->
  admitted (up_env insert) (up_state "") (with_progress (up_session "") 0 0) (up_chunk "" segs) up_key.
Proof.
  intros Hs. apply plain_admitted; try done.
Qed.

Lemma failed_chunk_rolls_back_witness :
  exists st' r, UploadChunk (up_env true) (up_state "") (up_chunk "" [[1; 2; 3]; [4; 5]]) = (st', r) /\
    (code r = 400 \/ code r = 500) /\ upload_ok up_key st' (with_progress (up_session "") 0 0) [].
Proof.
  destruct (failed_chunk_rolls_back (up_env true) (up_state "") (with_progress (up_session "") 0 0)
    (up_chunk "" [[1; 2; 3]; [4; 5]]) up_key []) as (st' & r & Hrun & Hcode & _ & _ & _ & _ & Hok & _).
  - by apply up_ok.
  - apply up_admitted. repeat constructor; vm_compute; discriminate.
  - left. by vm_compute.
  - exists st', r. split; [exact Hrun|]. split; [exact Hcode|by apply Hok].
Defined.

Lemma upload_end_to_end_witness :
  exists st' rs r file, run_chunks (up_state "")
      [(up_env true, up_chunk "" [[1]; [2]]); (up_env true, up_chunk "" [[3; 4]])] = (st', rs ++ [r]) /\
    Forall (fun r => code r = 200) rs /\ decrypts_to up_key file [1; 2; 3; 4].
Proof.
  destruct (upload_end_to_end up_key (up_session "") (up_state "")
    [(up_env true, up_chunk "" [[1]; [2]])] (up_env true) (up_chunk "" [[3; 4]]) 0 (mkDB [] []))
    as (st' & rs & r & file & blob & Hrun & Hcodes & _ & _ & _ & _ & Hdec & _).
  - reflexivity.
  - reflexivity.
  - reflexivity.
  - apply Forall_app. split; apply Forall_singleton; (apply up_plain; [done|]);
      repeat constructor; vm_compute; discriminate.
  - by apply up_ok.
  - reflexivity.
  - discriminate.
  - repeat split.
  - reflexivity.
  - reflexivity.
  - apply up_cas_inv.
  - by apply toy_outside.
  - change (ID (up_session "")) with "ab12". rewrite up_meta_path. by apply toy_outside.
  - exists st', rs, r, file. split; [exact Hrun|]. by split.
Defined.

Lemma failed_record_reports_completed_witness :
  exists st' r, UploadChunk (up_env false) (up_state "") (up_chunk "" [[1; 2; 3; 4]]) = (st', r) /\
    code r = 500 /\
    GetStatus (up_env false) st' "ab12" = (st', mkResp 200 [("status", JStr "completed")]).
Proof.
  destruct (failed_record_reports_completed (up_env false) (up_state "")
    (with_progress (up_session "") 0 0) (up_chunk "" [[1; 2; 3; 4]]) up_key [] (mkDB [] []))
    as (st' & r & Hrun & Hcode & _ & _ & _ & Hstat).
  - by apply up_ok.
  - apply up_admitted. repeat constructor; vm_compute; discriminate.
  - reflexivity.
  - reflexivity.
  - repeat split.
  - reflexivity.
  - reflexivity.
  - apply up_cas_inv.
  - by apply toy_outside.
  - change (ID _) with "ab12". rewrite up_meta_path. by apply toy_outside.
  - exists st', r. split; [exact Hrun|]. split; [exact Hcode|]. apply Hstat. reflexivity.
Defined.

Lemma content_range_roundtrip_witness :
  parseContentRangeHeader "bytes 2097152-4194303/10485760" = Some (2097152, 4194303, 10485760).
Proof.
  apply (content_range_roundtrip 2097152 4194303 10485760); lia.
Defined.

Lemma quota_check_wraps_witness :
  over_quota (mkReqEnv (env_fine 5) [] empty_store None None None false None 1000 true true true 0 (fun l => l))
    (mkUC (mkSM ∅ "tmp") (mkCAS "cas" ∅) ∅ ∅ ∅
       (Some (mkDB [] [mkRow "f" 1 None "n" "m" 900 "h" "" false])) None []) 1 max_int64 = false.
Proof.
  apply (quota_check_wraps
    (mkReqEnv (env_fine 5) [] empty_store None None None false None 1000 true true true 0 (fun l => l))
    (mkUC (mkSM ∅ "tmp") (mkCAS "cas" ∅) ∅ ∅ ∅
       (Some (mkDB [] [mkRow "f" 1 None "n" "m" 900 "h" "" false])) None []) 1 max_int64);
    vm_compute; try done; by split.
Defined.

Lemma locked_vault_is_untouched_witness :
  let '(st', r) := GetStatus (up_env true) (up_state "f2") "ab12" in
  code r = 401 /\ same_but_cache (up_state "f2") st'.
Proof.
  destruct (locked_vault_is_untouched (up_env true) (up_state "f2") "f2") as [Hsess _]; [done|done|done|].
  destruct (Hsess "ab12" (up_session "f2")) as [Hget _]; [reflexivity|reflexivity|].
  exact Hget.
Defined.

End UploadWitnesses.
