(* ===== verification/Merkle.v ===== *)
(** * Merkle trees of folders (internal/reconcile/merkle.go)

    A folder's hash is the hash of the text of its children's entries, sorted
    by name.  [BuildRemoteTree] reads the server's side from the database;
    how its queries go is the argument [remote_reads]. *)

From S2P Require Import Prelude GoStrings FileSys CryptoPrims.

#[local] Open Scope string_scope.
#[local] Open Scope list_scope.
#[local] Open Scope Z_scope.

(** [NodeType] is a string: a client may send any other. *)
Inductive NodeType := NodeFile | NodeDir | NodeOther (t : string).

#[export] Instance NodeType_eq_dec : EqDecision NodeType.
Proof. solve_decision. Defined.

Definition type_string (t : NodeType) : string :=
  match t with NodeFile => "file" | NodeDir => "directory" | NodeOther s => s end.

Inductive MerkleNode := mkNode {
  Name : string;
  NPath : string;
  NType : NodeType;
  Size : Z;
  Hash : string;
  FolderID : string;
  FileID : string;
  MimeType : string;
  Children : list MerkleNode
}.

(** Induction that reaches the children. *)
Lemma MerkleNode_rect' (P : MerkleNode -> Prop) :
  (forall n, Forall P (Children n) -> P n) -> forall n, P n.
Proof.
  intros Hstep. fix IH 1. intros [nm p t s h fo fi m cs]. apply Hstep. cbn.
  induction cs as [|c cs IHcs]; constructor; [apply IH|exact IHcs].
Qed.

Definition is_dir (n : MerkleNode) : bool := bool_decide (NType n = NodeDir).

Definition with_hash (n : MerkleNode) (h : string) : MerkleNode :=
  mkNode (Name n) (NPath n) (NType n) (Size n) h (FolderID n) (FileID n) (MimeType n) (Children n).

Definition name_le (a b : MerkleNode) : Prop := str_le (Name a) (Name b).

#[export] Instance name_le_dec : RelDecision name_le.
Proof. intros a b. unfold name_le. apply _. Defined.

(** [sort.Slice] by name; Go leaves the order of equal names open, here the
    sort is stable. *)
Definition sort_by_name (l : list MerkleNode) : list MerkleNode := merge_sort name_le l.

Section Merkle.
Context `{CryptoPrims}.

Definition hex_sha (s : string) : string := EncodeToString (sha256 (bytes_of_string s)).

(** The hash given to a leaf that has none. *)
Definition leaf_hash (n : MerkleNode) : string := hex_sha (Name n +:+ ":" +:+ FormatInt (Size n)).

Definition ensure_leaf_hash (n : MerkleNode) : MerkleNode :=
  if String.eqb (Hash n) "" then with_hash n (leaf_hash n) else n.

(** fmt.Sprintf("%s:%s:%d:%s;", ...) *)
Definition entry (n : MerkleNode) : string :=
  Name n +:+ ":" +:+ type_string (NType n) +:+ ":" +:+ FormatInt (Size n) +:+ ":" +:+ Hash n +:+ ";".

Definition entries (l : list MerkleNode) : string := String.concat "" (map entry l).

Definition total_size (l : list MerkleNode) : Z := foldl (fun a c => i64 (a + Size c)) 0 l.

(** The node ComputeDirectoryHash leaves behind; its result is its [Hash]. *)
Fixpoint ComputeDirectoryHash (n : MerkleNode) : MerkleNode :=
  match NType n with
  | NodeDir =>
      let cs := sort_by_name
        (map (fun c => match NType c with
                       | NodeDir => ComputeDirectoryHash c
                       | _ => ensure_leaf_hash c
                       end) (Children n)) in
      mkNode (Name n) (NPath n) (NType n) (total_size cs) (hex_sha (entries cs))
        (FolderID n) (FileID n) (MimeType n) cs
  | _ => ensure_leaf_hash n
  end.

(** Files and bytes of a tree. *)
Fixpoint CountStats (n : MerkleNode) : Z * Z :=
  match NType n with
  | NodeFile => (1, Size n)
  | _ => foldl (fun acc p => (fst acc + fst p, i64 (snd acc + snd p))) (0, 0)
           (map CountStats (Children n))
  end.

(** ** BuildRemoteTree *)

Record RemoteFolderRow := mkFolderRow {
  rf_ID : string; rf_Owner : Z; rf_ParentID : string; rf_Name : string
}.

#[export] Instance RemoteFolderRow_eq_dec : EqDecision RemoteFolderRow.
Proof. solve_decision. Defined.

Record RemoteFileRow := mkFileRow {
  rl_ID : string; rl_Owner : Z; rl_FolderID : string; rl_Name : string; rl_MimeType : string;
  rl_Size : Z; rl_CasHash : string; rl_PlaintextHash : string; rl_deleted : bool
}.

Record remote_db := mkRemote { rd_folders : list RemoteFolderRow; rd_files : list RemoteFileRow }.

Definition owned_folders (db : remote_db) (ownerID : Z) : list RemoteFolderRow :=
  List.filter (fun f => rf_Owner f =? ownerID) (rd_folders db).

Definition owned_files (db : remote_db) (ownerID : Z) : list RemoteFileRow :=
  List.filter (fun f => (rl_Owner f =? ownerID) && negb (rl_deleted f)) (rd_files db).

Definition file_node (fl : RemoteFileRow) : MerkleNode :=
  let hash := if String.eqb (rl_PlaintextHash fl) ""
              then hex_sha (rl_Name fl +:+ ":" +:+ FormatInt (rl_Size fl)) else rl_PlaintextHash fl in
  mkNode (rl_Name fl) "" NodeFile (rl_Size fl) hash (rl_FolderID fl) (rl_ID fl) (rl_MimeType fl) [].

(** The node of a folder with its files and, below it, its folders; the root
    is never attached to a parent.  [fuel] bounds the depth: no path of
    folders is longer than there are folders, unless they form a cycle. *)
Fixpoint folder_node (fuel : nat) (folders : list RemoteFolderRow) (files : list RemoteFileRow)
    (rootFolderID : string) (f : RemoteFolderRow) : MerkleNode :=
  let fs := map file_node (List.filter (fun fl => String.eqb (rl_FolderID fl) (rf_ID f)) files) in
  let ds :=
    match fuel with
    | O => []
    | S k =>
        map (folder_node k folders files rootFolderID)
          (List.filter (fun g => String.eqb (rf_ParentID g) (rf_ID f)
                                 && negb (String.eqb (rf_ID g) rootFolderID)) folders)
    end in
  mkNode (rf_Name f) "" NodeDir 0 "" (rf_ID f) "" "" (fs ++ ds).

(** How a query goes: it fails, or its rows come until the iteration ends
    (nobody asks whether an error ended it), and each is scanned or not. *)
Record query_run := mkQuery { q_fails : bool; q_rows : option nat; q_scan : nat -> bool }.

Definition query_rows {A} (q : query_run) (rows : list A) : option (list (option A)) :=
  if q_fails q then None
  else Some (imap (fun i x => if q_scan q i then Some x else None)
               (match q_rows q with Some n => take n rows | None => rows end)).

(** The rows, when every one of them was scanned. *)
Definition all_scanned {A} (rows : list (option A)) : option (list A) := mapM id rows.

(** The queries of one reconciliation: for the root folder, for the folders,
    for the files, for the folders again, and for the parent of each. *)
Record remote_reads := mkReads {
  rq_root : bool;
  rq_folders : query_run;
  rq_files : query_run;
  rq_folders2 : query_run;
  rq_parent : string -> bool
}.

(** Nothing goes wrong. *)
Definition fine_query : query_run := mkQuery false None (fun _ => true).
Definition fine_reads : remote_reads := mkReads true fine_query fine_query fine_query (fun _ => true).

(** The last row of the first query with that identifier. *)
Definition find_folder (id : string) (folders : list RemoteFolderRow) : option RemoteFolderRow :=
  List.find (fun f => String.eqb (rf_ID f) id) (rev folders).

(** The rows of the second query that are attached: those of folders the
    first one gave, the others (and those not scanned) are passed over. *)
Definition attached (folders : list RemoteFolderRow) (rows : list (option RemoteFolderRow)) : list RemoteFolderRow :=
  List.filter (fun g => existsb (fun f => String.eqb (rf_ID f) (rf_ID g)) folders) (omap id rows).

Definition BuildRemoteTree (q : remote_reads) (db : option remote_db) (ownerID : Z) (rootFolderID : string)
  : result MerkleNode :=
  match db with
  | None => Err (ErrMsg "database not initialized")
  | Some d =>
      match query_rows (rq_folders q) (owned_folders d ownerID) with
      | None => Err (ErrMsg "failed to query remote folders: ")
      | Some folderRows =>
          match all_scanned folderRows with
          | None => Err (ErrMsg "sql: Scan error")
          | Some folders =>
              let rootFolderRow := find_folder rootFolderID folders in
              if negb (String.eqb rootFolderID "") && bool_decide (rootFolderRow = None)
              then Err (ErrMsg ("root folder with id " +:+ rootFolderID +:+ " not found"))
              else
                match query_rows (rq_files q) (owned_files d ownerID) with
                | None => Err (ErrMsg "failed to query remote files: ")
                | Some fileRows =>
                    match all_scanned fileRows, query_rows (rq_folders2 q) (owned_folders d ownerID) with
                    | None, _ => Err (ErrMsg "sql: Scan error")
                    | Some _, None => Err (ErrMsg "sql: query error")
                    | Some files, Some folderRows2 =>
                        let node := folder_node (length folders) (attached folders folderRows2) files rootFolderID in
                        let tops := List.filter
                          (fun f => negb (rq_parent q (rf_ID f)) || String.eqb (rf_ParentID f) "") folders in
                        let rootNode :=
                          match rootFolderRow with
                          | Some f => if String.eqb rootFolderID "" then mkNode "root" "" NodeDir 0 "" "" "" "" (map node tops)
                                      else node f
                          | None => mkNode "root" "" NodeDir 0 "" "" "" "" (map node tops)
                          end in
                        Ok (ComputeDirectoryHash rootNode)
                    end
                end
          end
      end
  end.

End Merkle.

(** ** What a hash determines *)

(** A field of an entry: free of the separators. *)
Definition clean_field (s : string) : bool := without ":" s && without ";" s.

(** What a tree says of its files: names, kinds, sizes and hashes, without
    the paths and identifiers of either side. *)
Inductive content := Content (name : string) (t : NodeType) (size : Z) (hash : string) (cs : list content).

Fixpoint content_of (n : MerkleNode) : content :=
  Content (Name n) (NType n) (Size n) (Hash n) (if is_dir n then map content_of (Children n) else []).

(** Names, types and leaf hashes are clean throughout. *)
Fixpoint clean_tree (n : MerkleNode) : Prop :=
  clean_field (Name n) = true /\ clean_field (type_string (NType n)) = true /\
  clean_field (Hash n) = true /\
  match NType n with NodeOther t => t <> "file" /\ t <> "directory" | _ => True end /\
  foldr (fun c P => clean_tree c /\ P) True (Children n).

Lemma clean_children n : clean_tree n -> Forall clean_tree (Children n).
Proof.
  destruct n as [nm p t s h fo fi m cs]. cbn. intros (_ & _ & _ & _ & Hcs).
  induction cs as [|c cs IH]; constructor; cbn in Hcs; [tauto|]. apply IH. tauto.
Qed.

Section MerkleFacts.
Context `{CryptoLaws}.

(** Every directory below carries the hash of its entries. *)
Fixpoint hashed (n : MerkleNode) : Prop :=
  match NType n with
  | NodeDir => Hash n = hex_sha (entries (Children n)) /\
      foldr (fun c P => hashed c /\ P) True (Children n)
  | _ => True
  end.

Lemma foldr_and (P : MerkleNode -> Prop) l : foldr (fun c Q => P c /\ Q) True l <-> Forall P l.
Proof.
  induction l as [|c l IH]; cbn; [by rewrite Forall_nil|]. by rewrite Forall_cons, IH.
Qed.

Lemma hashed_dir n :
  NType n = NodeDir -> hashed n <-> Hash n = hex_sha (entries (Children n)) /\ Forall hashed (Children n).
Proof. destruct n as [nm p t s h fo fi m cs]. cbn. intros ->. by rewrite foldr_and. Qed.

Lemma Forall_sort (P : MerkleNode -> Prop) l : Forall P (sort_by_name l) <-> Forall P l.
Proof.
  unfold sort_by_name. rewrite !Forall_forall. split; intros Hl x Hx; apply Hl;
    rewrite merge_sort_Permutation in *; done.
Qed.

Lemma Compute_dir n :
  NType n = NodeDir ->
  let cs := sort_by_name (map (fun c => match NType c with
              NodeDir => ComputeDirectoryHash c | _ => ensure_leaf_hash c end) (Children n)) in
  ComputeDirectoryHash n = mkNode (Name n) (NPath n) (NType n) (total_size cs) (hex_sha (entries cs))
    (FolderID n) (FileID n) (MimeType n) cs.
Proof. destruct n as [nm p t s h fo fi m cs]. cbn. by intros ->. Qed.

Lemma ensure_type n : NType (ensure_leaf_hash n) = NType n.
Proof. unfold ensure_leaf_hash. by destruct (String.eqb _ _). Qed.

Lemma Compute_type n : NType (ComputeDirectoryHash n) = NType n.
Proof.
  destruct (NType n) eqn:Ht.
  - destruct n; cbn in *. rewrite Ht. by rewrite ensure_type.
  - rewrite Compute_dir by done. done.
  - destruct n; cbn in *. rewrite Ht. by rewrite ensure_type.
Qed.

Lemma hashed_not_dir n : NType n <> NodeDir -> hashed n.
Proof. destruct n as [nm p t s h fo fi m cs]. cbn. by destruct t. Qed.

Lemma Compute_hashed n : hashed (ComputeDirectoryHash n).
Proof.
  induction n as [n IH] using MerkleNode_rect'. destruct (decide (NType n = NodeDir)) as [Ht|Ht].
  2:{ apply hashed_not_dir. by rewrite Compute_type. }
  rewrite hashed_dir by (by rewrite Compute_type). rewrite Compute_dir by done. cbn [Hash Children].
  split; [done|]. apply Forall_sort. apply Forall_forall. intros x Hx.
  rewrite list_elem_of_In, in_map_iff in Hx. destruct Hx as (c & <- & Hc).
  rewrite <- list_elem_of_In in Hc. rewrite Forall_forall in IH.
  destruct (NType c) eqn:Hct; [|by apply IH|]; apply hashed_not_dir; by rewrite ensure_type, Hct.
Qed.

(** *** Entries are uniquely decodable *)

(** The entry without its terminator. *)
Definition entry_body (n : MerkleNode) : string :=
  Name n +:+ String ":" (type_string (NType n) +:+ String ":" (FormatInt (Size n) +:+ String ":" (Hash n))).

Lemma entry_body_spec n : entry n = entry_body n +:+ String ";" "".
Proof.
  unfold entry, entry_body. do 3 (rewrite str_app_assoc; f_equal; apply (f_equal (String ":"))).
Qed.

Definition clean_node (n : MerkleNode) : Prop :=
  clean_field (Name n) = true /\ clean_field (type_string (NType n)) = true /\ clean_field (Hash n) = true /\
  match NType n with NodeOther t => t <> "file" /\ t <> "directory" | _ => True end.

Lemma clean_field_inv s : clean_field s = true -> without ":" s = true /\ without ";" s = true.
Proof. apply andb_true_iff. Qed.

Lemma entry_body_clean n : clean_node n -> without ";" (entry_body n) = true.
Proof.
  intros ([_ H1']%clean_field_inv & [_ H2']%clean_field_inv & [_ H3']%clean_field_inv & _).
  unfold entry_body. rewrite without_app, H1'. cbn [andb].
  change (without ";" (String ":" ?s)) with (without ";" s).
  rewrite without_app, H2'. change (without ";" (String ":" ?s)) with (without ";" s). cbn [andb].
  rewrite without_app, without_FormatInt by done.
  change (without ";" (String ":" ?s)) with (without ";" s). by rewrite H3'.
Qed.

Lemma entry_body_split n : clean_node n ->
  split_on ":" (entry_body n) = [Name n; type_string (NType n); FormatInt (Size n); Hash n].
Proof.
  intros ([H1' _]%clean_field_inv & [H2' _]%clean_field_inv & [H3' _]%clean_field_inv & _).
  unfold entry_body. rewrite split_app, (split_without _ _ H1'), split_app, (split_without _ _ H2'),
    split_app, split_without by (by apply without_FormatInt). by rewrite (split_without _ _ H3').
Qed.

Lemma type_string_inj a b :
  match a with NodeOther t => t <> "file" /\ t <> "directory" | _ => True end ->
  match b with NodeOther t => t <> "file" /\ t <> "directory" | _ => True end ->
  type_string a = type_string b -> a = b.
Proof. destruct a, b; cbn; intros; try done; try congruence; intuition congruence. Qed.

(** What an entry says of a child. *)
Definition fields (n : MerkleNode) : string * NodeType * Z * string := (Name n, NType n, Size n, Hash n).

Lemma entry_body_inj a b : clean_node a -> clean_node b -> entry_body a = entry_body b -> fields a = fields b.
Proof.
  intros Ha Hb He. apply (f_equal (split_on ":")) in He. rewrite !entry_body_split in He by done.
  injection He as Hn Ht Hs Hh. unfold fields.
  apply (f_equal parse_int) in Hs. rewrite !parse_FormatInt in Hs. injection Hs as Hs.
  assert (NType a = NType b) as Hty
    by (apply type_string_inj; [by destruct Ha as (_&_&_&?)|by destruct Hb as (_&_&_&?)|done]).
  congruence.
Qed.

Lemma entries_cons a l : entries (a :: l) = entry_body a +:+ String ";" (entries l).
Proof.
  unfold entries. cbn [map]. destruct l as [|b l].
  - cbn. by rewrite entry_body_spec.
  - change (String.concat "" (entry a :: map entry (b :: l)))
      with (entry a +:+ "" +:+ String.concat "" (map entry (b :: l))).
    rewrite entry_body_spec, str_app_assoc. done.
Qed.

Lemma entries_split l : Forall clean_node l -> split_on ";" (entries l) = map entry_body l ++ [""].
Proof.
  induction 1 as [|a l Ha _ IH]; [done|]. rewrite entries_cons, split_app, IH.
  by rewrite (split_without _ _ (entry_body_clean a Ha)).
Qed.

Lemma entries_inj l k :
  Forall clean_node l -> Forall clean_node k -> entries l = entries k -> map fields l = map fields k.
Proof.
  intros Hl Hk He. apply (f_equal (split_on ";")) in He. rewrite !entries_split in He by done.
  apply app_inj_tail in He as [He _]. revert k Hk He.
  induction Hl as [|a l Ha _ IH]; intros k Hk He; destruct Hk as [|b k Hb Hk]; try done.
  cbn in *. injection He as He1 He2. f_equal; [by apply entry_body_inj|by apply IH].
Qed.

(** Two inputs with one hash. *)
Definition sha_collision : Prop := exists x y : bytes, x <> y /\ sha256 x = sha256 y.

Lemma hex_sha_inj s t : hex_sha s = hex_sha t -> s = t \/ sha_collision.
Proof.
  unfold hex_sha. intros He. apply EncodeToString_inj in He; [|apply sha256_byte..].
  destruct (decide (bytes_of_string s = bytes_of_string t)) as [Heq|Hne].
  - left. by apply bytes_of_string_inj.
  - right. by exists (bytes_of_string s), (bytes_of_string t).
Qed.

Lemma clean_tree_node n : clean_tree n -> clean_node n.
Proof. destruct n. cbn. intros (? & ? & ? & ? & _). done. Qed.

Lemma content_of_fields a b :
  fields a = fields b -> (NType a = NodeDir -> map content_of (Children a) = map content_of (Children b)) ->
  content_of a = content_of b.
Proof.
  destruct a as [nm p t s h fo fi m cs], b as [nm' p' t' s' h' fo' fi' m' cs'].
  unfold fields. cbn. intros [= <- <- <- <-] Hcs. f_equal. unfold is_dir. cbn.
  case_bool_decide; [by apply Hcs|done].
Qed.

Lemma hashed_determines a b :
  hashed a -> hashed b -> clean_tree a -> clean_tree b -> NType a = NodeDir -> NType b = NodeDir ->
  Hash a = Hash b -> map content_of (Children a) = map content_of (Children b) \/ sha_collision.
Proof.
  revert b. induction a as [a IH] using MerkleNode_rect'. intros b Ha Hb Hca Hcb Hda Hdb He.
  apply hashed_dir in Ha as [Hha Hhca]; [|done]. apply hashed_dir in Hb as [Hhb Hhcb]; [|done].
  rewrite Hha, Hhb in He. destruct (hex_sha_inj _ _ He) as [Hent|]; [|by right].
  pose proof (clean_children a Hca) as Hcca. pose proof (clean_children b Hcb) as Hccb.
  apply entries_inj in Hent; [|eapply Forall_impl; [eassumption|apply clean_tree_node]..].
  clear Hha Hhb He Hca Hcb Hda Hdb. revert Hent Hhca Hhcb Hcca Hccb IH.
  generalize (Children a) as la, (Children b) as lb. clear a b.
  induction la as [|x la IHl]; intros [|y lb] Hent Hhca Hhcb Hcca Hccb IH; try done; [by left|].
  injection Hent as Hn Ht Hs Hh Hent.
  apply Forall_cons in Hhca as [Hx Hhca], Hhcb as [Hy Hhcb], Hcca as [Hcx Hcca],
    Hccb as [Hcy Hccb], IH as [IHx IH].
  destruct (IHl lb Hent Hhca Hhcb Hcca Hccb IH) as [Hrest|]; [|by right].
  assert (content_of x = content_of y \/ sha_collision) as [Hxy|]; [|cbn; left; by f_equal|by right].
  destruct (decide (NType x = NodeDir)) as [Hdx|Hdx].
  - destruct (IHx y Hx Hy Hcx Hcy Hdx ltac:(congruence) Hh) as [Hcs|]; [|by right].
    left. apply content_of_fields; [unfold fields; congruence|done].
  - left. apply content_of_fields; [unfold fields; congruence|done].
Qed.

End MerkleFacts.
