(* ===== verification/Reconcile.v ===== *)
(** * Folder reconciliation
    (internal/reconcile/reconciler.go, controllers/reconcile_controller.go)

    The client's Merkle tree is compared top-down with the server's; the plan
    lists what to skip, resume and upload, and missing folders are created on
    the way. *)

From S2P Require Import Prelude GoStrings FileSys CryptoPrims UploadSession VaultTree Merkle.

#[local] Open Scope string_scope.
#[local] Open Scope list_scope.
#[local] Open Scope Z_scope.

Inductive ActionType := ActionSkip | ActionResume | ActionUploadNew | ActionCreateDir.

Record ReconcileAction := mkAction {
  ra_Path : string;
  ra_Name : string;
  ra_Type : NodeType;
  ra_Action : ActionType;
  ra_Reason : string;
  ra_PrunedCount : Z;
  ra_BytesSaved : Z;
  ra_SessionID : string;
  ra_UploadedBytes : Z;
  ra_TotalSize : Z;
  ra_TargetFolderID : string;
  ra_MimeType : string
}.

Record FolderProvision := mkProvision {
  fp_Path : string; fp_Name : string; fp_ParentID : string; fp_FolderID : string
}.

Record ReconciliationSummary := mkSummary {
  TotalFiles : Z;
  TotalBytes : Z;
  AlreadySyncedFiles : Z;
  AlreadySyncedBytes : Z;
  ResumableFiles : Z;
  MissingFiles : Z;
  BytesRemaining : Z
}.

Record ReconciliationPlan := mkPlan {
  Status : string;
  RootSynced : bool;
  ReconciliationID : string;
  RootFolderID : string;
  Summary : ReconciliationSummary;
  Actions : list ReconcileAction;
  FoldersProvisioned : list FolderProvision
}.

Section Reconcile.
Context `{CryptoPrims}.

(** What one request sees: the sessions and their files, the order in which a
    map is visited, the identifiers generated for new folders, whether
    INSERT statements succeed, and how the queries go. *)
Record rec_env := mkRecEnv {
  re_sm : option SessionManager;
  re_fs : FS;
  re_order : list (string * Session) -> list (string * Session);
  re_id : nat -> string;
  re_insert_ok : bool;
  re_owner : Z;
  re_reads : remote_reads
}.

(** The plan under construction, the folder table and the number of
    identifiers used. *)
Record rec_state := mkRecState {
  rs_summary : ReconciliationSummary;
  rs_actions : list ReconcileAction;
  rs_provisioned : list FolderProvision;
  rs_db : option remote_db;
  rs_next : nat
}.

Definition add_action (st : rec_state) (a : ReconcileAction) : rec_state :=
  mkRecState (rs_summary st) (rs_actions st ++ [a]) (rs_provisioned st) (rs_db st) (rs_next st).

Definition set_summary (st : rec_state) (s : ReconciliationSummary) : rec_state :=
  mkRecState s (rs_actions st) (rs_provisioned st) (rs_db st) (rs_next st).

Definition count_synced (s : ReconciliationSummary) (n b : Z) : ReconciliationSummary :=
  mkSummary (TotalFiles s) (TotalBytes s) (AlreadySyncedFiles s + n) (i64 (AlreadySyncedBytes s + b))
    (ResumableFiles s) (MissingFiles s) (BytesRemaining s).

Definition count_resumable (s : ReconciliationSummary) (done left : Z) : ReconciliationSummary :=
  mkSummary (TotalFiles s) (TotalBytes s) (AlreadySyncedFiles s) (i64 (AlreadySyncedBytes s + done))
    (ResumableFiles s + 1) (MissingFiles s) (i64 (BytesRemaining s + left)).

Definition count_missing (s : ReconciliationSummary) (b : Z) : ReconciliationSummary :=
  mkSummary (TotalFiles s) (TotalBytes s) (AlreadySyncedFiles s) (AlreadySyncedBytes s)
    (ResumableFiles s) (MissingFiles s + 1) (i64 (BytesRemaining s + b)).

Definition insert_folder (e : rec_env) (db : option remote_db) (id parent name : string)
  : option remote_db :=
  match db with
  | Some d =>
      if re_insert_ok e
      then Some (mkRemote (rd_folders d ++ [mkFolderRow id (re_owner e) parent name]) (rd_files d))
      else Some d
  | None => None
  end.

(** Creating a folder: a fresh identifier, the row and the provision. *)
Definition provision (e : rec_env) (st : rec_state) (path name parent : string) : rec_state * string :=
  let id := re_id e (rs_next st) in
  (mkRecState (rs_summary st) (rs_actions st)
     (rs_provisioned st ++ [mkProvision path name parent id])
     (insert_folder e (rs_db st) id parent name) (S (rs_next st)), id).

Definition rChildrenMap (r : option MerkleNode) : gmap string MerkleNode :=
  match r with
  | Some d => foldl (fun m c => <[Name c := c]> m) ∅ (Children d)
  | None => ∅
  end.

Definition child_path (cpath : string) (c : MerkleNode) : string :=
  if String.eqb (NPath c) "" then Join [cpath; Name c] else NPath c.

Definition find_session (e : rec_env) (folderID : string) (c : MerkleNode) : option Session :=
  match re_sm e with
  | Some sm => FindActiveSession (re_order e) sm (re_fs e) (re_owner e) folderID (Name c) (Size c)
  | None => None
  end.

(** The file branch of the loop. *)
Definition reconcile_file (e : rec_env) (rmap : gmap string MerkleNode) (folderID childPath : string)
    (c : MerkleNode) (st : rec_state) : rec_state :=
  let synced :=
    match rmap !! Name c with
    | Some r => bool_decide (NType r = NodeFile) && (Size r =? Size c)
    | None => false
    end in
  if synced then
    add_action (set_summary st (count_synced (rs_summary st) 1 (Size c)))
      (mkAction childPath (Name c) NodeFile ActionSkip "file_already_completed" 0 (Size c) "" 0
         (Size c) folderID "")
  else
    let missing :=
      add_action (set_summary st (count_missing (rs_summary st) (Size c)))
        (mkAction childPath (Name c) NodeFile ActionUploadNew "missing_file" 0 0 "" 0 (Size c)
           folderID (MimeType c)) in
    match find_session e folderID c with
    | Some s =>
        if (0 <? UploadedSize s) && (UploadedSize s <? ExpectedSize s) then
          add_action (set_summary st
              (count_resumable (rs_summary st) (UploadedSize s) (i64 (Size c - UploadedSize s))))
            (mkAction childPath (Name c) NodeFile ActionResume "incomplete_session_found" 0 0 (ID s)
               (UploadedSize s) (ExpectedSize s) folderID (MimeType c))
        else missing
    | None => missing
    end.

Definition skip_subtree (childPath : string) (c r : MerkleNode) (st : rec_state) : rec_state :=
  let '(subFiles, subBytes) := CountStats c in
  add_action (set_summary st (count_synced (rs_summary st) subFiles subBytes))
    (mkAction childPath (Name c) NodeDir ActionSkip "subtree_merkle_match" subFiles subBytes "" 0 0
       (FolderID r) "").

Definition hashes_match (a b : string) : bool :=
  negb (String.eqb a "") && negb (String.eqb b "") && String.eqb a b.

Definition empty_dir (name path id : string) : MerkleNode := mkNode name path NodeDir 0 "" id "" "" [].

Fixpoint reconcileDirNodes (e : rec_env) (cDir : MerkleNode) (cpath : string)
    (rDir : option MerkleNode) (st : rec_state) {struct cDir} : rec_state :=
  let rmap := rChildrenMap rDir in
  let currentFolderID := match rDir with Some r => FolderID r | None => "" end in
  foldl (fun st c =>
    let path := child_path cpath c in
    match NType c with
    | NodeDir =>
        let descend_new :=
          let '(st1, id) := provision e st path (Name c) currentFolderID in
          reconcileDirNodes e c path (Some (empty_dir (Name c) path id)) st1 in
        match rmap !! Name c with
        | Some r =>
            if bool_decide (NType r = NodeDir) then
              if hashes_match (Hash c) (Hash r) then skip_subtree path c r st
              else reconcileDirNodes e c path (Some r) st
            else descend_new
        | None => descend_new
        end
    | NodeFile => reconcile_file e rmap currentFolderID path c st
    | NodeOther _ => st
    end) st (Children cDir).

(** A folder with that name, under that target. *)
Definition root_match (target name : string) (f : RemoteFolderRow) : bool :=
  (if String.eqb target ""
   then String.eqb (rf_ParentID f) "" || String.eqb (rf_ParentID f) "root"
   else String.eqb (rf_ParentID f) target) && String.eqb (rf_Name f) name.

(** SELECT id FROM folders WHERE owner_id = ? AND parent ... AND name = ?
    LIMIT 1; an error is dropped, as if there were no such folder. *)
Definition find_root (q : remote_reads) (db : option remote_db) (ownerID : Z) (target name : string) : string :=
  match (if rq_root q then db else None) with
  | Some d =>
      match List.find (root_match target name) (owned_folders d ownerID) with
      | Some f => rf_ID f
      | None => ""
      end
  | None => ""
  end.

Definition root_name (name : string) : string :=
  let n := Base (Clean name) in
  if String.eqb n "." || String.eqb n "/" || String.eqb n "" then "uploaded_folder" else n.

(** ReconcileTree: the plan, and the folder table afterwards. *)
Definition ReconcileTree (e : rec_env) (rec_id : string) (clientTree : option MerkleNode)
    (db : option remote_db) (targetFolderID : string) : option remote_db * result ReconciliationPlan :=
  match clientTree with
  | None => (db, Err (ErrMsg "client tree cannot be nil"))
  | Some c0 =>
      let cleanTarget := if String.eqb targetFolderID "root" then "" else targetFolderID in
      let c := ComputeDirectoryHash c0 in
      let '(totalFiles, totalBytes) := CountStats c in
      let name := root_name (Name c) in
      let path := if String.eqb (NPath c) "" then name else NPath c in
      let summary := mkSummary totalFiles totalBytes 0 0 0 0 0 in
      let existing := find_root (re_reads e) db (re_owner e) cleanTarget name in
      let st0 := mkRecState summary [] [] db 0 in
      let run (st : rec_state) (folderID : string) (remote : option MerkleNode) :=
        let plan (synced : bool) (st' : rec_state) :=
          (rs_db st', Ok (mkPlan "diff_ready" synced rec_id folderID (rs_summary st')
                            (rs_actions st') (rs_provisioned st'))) in
        if match remote with Some r => hashes_match (Hash r) (Hash c) | None => false end then
          plan true
            (add_action (set_summary st (mkSummary totalFiles totalBytes totalFiles totalBytes 0 0 0))
               (mkAction path name NodeDir ActionSkip "root_merkle_match" totalFiles totalBytes "" 0 0 "" ""))
        else plan false (reconcileDirNodes e c path remote st) in
      if String.eqb existing "" then
        if match db with Some _ => negb (re_insert_ok e) | None => false end
        then (db, Err (ErrMsg "failed to provision root folder: "))
        else
          let '(st1, id) := provision e st0 path name cleanTarget in
          run st1 id (Some (empty_dir name path id))
      else
        run st0 existing
          (match BuildRemoteTree (re_reads e) db (re_owner e) existing with Ok t => Some t | Err _ => None end)
  end.

(** ** The controller (DiffTree)

    [vault_target]: the target folder is in the vault; [unlocked]: the vault
    cookie names a live session; [used]: the owner's stored bytes. *)
Inductive diff_response :=
| DiffError (status : Z)
| DiffPlan (p : ReconciliationPlan).

(** Lines 82-88: the name the root goes by. *)
Definition request_tree (rootName : string) (t : MerkleNode) : MerkleNode :=
  let n := if negb (String.eqb rootName "") && String.eqb (Name t) "" then rootName else Name t in
  let n := if String.eqb n "" then "uploaded_folder" else n in
  mkNode (Base (Clean n)) (NPath t) (NType t) (Size t) (Hash t) (FolderID t) (FileID t)
    (MimeType t) (Children t).

Definition DiffTree (e : rec_env) (rec_id : string) (bind : option (string * string * option MerkleNode))
    (vault_target : string -> bool) (unlocked : bool) (quotaBytes used : Z)
    (cache : option vault_cache) (db : option remote_db)
  : option vault_cache * option remote_db * diff_response :=
  match bind with
  | None => (cache, db, DiffError 400)
  | Some (_, _, None) => (cache, db, DiffError 400)
  | Some (targetFolderID, rootName, Some tree) =>
      if vault_target targetFolderID && negb unlocked then (cache, db, DiffError 401)
      else
        match ReconcileTree e rec_id (Some (request_tree rootName tree)) db targetFolderID with
        | (db', Err _) => (cache, db', DiffError 500)
        | (db', Ok plan) =>
            let cache' :=
              match FoldersProvisioned plan with
              | [] => cache
              | _ => InvalidateVaultCache <$> cache
              end in
            let remaining := BytesRemaining (Summary plan) in
            if (0 <? quotaBytes) && (0 <? remaining) && (quotaBytes <? i64 (used + remaining))
            then (cache', db', DiffError 413)
            else (cache', db', DiffPlan plan)
        end
  end.

End Reconcile.

(** ** The counting algebra *)

Lemma i64_mod x : i64 x mod 2 ^ 64 = x mod 2 ^ 64.
Proof.
  unfold i64. rewrite Zminus_mod, Z.mod_mod by lia. rewrite <- Zminus_mod. f_equal. lia.
Qed.

(** Equality of int64 values computed in different orders. *)
Definition same64 (x y : Z) : Prop := x mod 2 ^ 64 = y mod 2 ^ 64.

#[export] Instance same64_equiv : Equivalence same64.
Proof. unfold same64. split; [done|by intros x y|]. intros x y z ? ?. congruence. Qed.

Lemma same64_refl_eq x y : x = y -> same64 x y.
Proof. by intros ->. Qed.

#[export] Instance same64_add : Proper (same64 ==> same64 ==> same64) Z.add.
Proof. intros a b Hab c d Hcd. unfold same64 in *. rewrite Zplus_mod, Hab, Hcd, <- Zplus_mod. done. Qed.

Lemma same64_i64 x : same64 (i64 x) x.
Proof. apply i64_mod. Qed.

Lemma same64_i64_eq x y : same64 x y -> i64 x = i64 y.
Proof.
  unfold same64, i64. intros Hxy. f_equal. rewrite Zplus_mod, Hxy, <- Zplus_mod. done.
Qed.

Section ReconcileFacts.
Context `{CryptoPrims}.

(** Only files and folders in the tree. *)
Fixpoint plain_tree (n : MerkleNode) : Prop :=
  match NType n with
  | NodeFile => True
  | NodeDir => foldr (fun c P => plain_tree c /\ P) True (Children n)
  | NodeOther _ => False
  end.

(** The files the plan accounts for, one way or another, and their bytes. *)
Definition planned_files (s : ReconciliationSummary) : Z :=
  AlreadySyncedFiles s + ResumableFiles s + MissingFiles s.
Definition planned_bytes (s : ReconciliationSummary) : Z := AlreadySyncedBytes s + BytesRemaining s.

(** The files an action decides on. *)
Definition covers (a : ReconcileAction) : Z :=
  match ra_Type a with NodeFile => 1 | _ => ra_PrunedCount a end.
Definition covered (l : list ReconcileAction) : Z := foldr Z.add 0 (map covers l).

Lemma covered_snoc l a : covered (l ++ [a]) = covered l + covers a.
Proof. unfold covered. induction l as [|x l IH]; cbn; [lia|]. rewrite IH. lia. Qed.

(** [st'] accounts for [files] files and [bytes] bytes more than [st]. *)
Definition accounts (st st' : rec_state) (files bytes : Z) : Prop :=
  planned_files (rs_summary st') = planned_files (rs_summary st) + files /\
  same64 (planned_bytes (rs_summary st')) (planned_bytes (rs_summary st) + bytes) /\
  covered (rs_actions st') = covered (rs_actions st) + files /\
  TotalFiles (rs_summary st') = TotalFiles (rs_summary st) /\
  TotalBytes (rs_summary st') = TotalBytes (rs_summary st).

Lemma accounts_refl st : accounts st st 0 0.
Proof. unfold accounts. rewrite !Z.add_0_r. done. Qed.

Lemma accounts_trans st1 st2 st3 f1 b1 f2 b2 :
  accounts st1 st2 f1 b1 -> accounts st2 st3 f2 b2 -> accounts st1 st3 (f1 + f2) (b1 + b2).
Proof.
  intros (H1 & H2 & H3 & H4 & H5) (K1 & K2 & K3 & K4 & K5). unfold accounts.
  split; [lia|]. split; [by rewrite K2, H2, Z.add_assoc|]. split; [lia|]. split; congruence.
Qed.

Lemma accounts_bytes st st' f b b' : same64 b b' -> accounts st st' f b -> accounts st st' f b'.
Proof. intros Hb (H1 & H2 & H3 & H4 & H5). unfold accounts. by rewrite <- Hb. Qed.

Lemma accounts_skip st p c r :
  accounts st (skip_subtree p c r st) (fst (CountStats c)) (snd (CountStats c)).
Proof.
  unfold skip_subtree. destruct (CountStats c) as [f b]. unfold accounts, add_action, set_summary.
  cbn [rs_summary rs_actions fst snd]. rewrite covered_snoc. cbn [covers ra_Type ra_PrunedCount].
  unfold planned_files, planned_bytes, count_synced. cbn.
  split; [lia|]. split; [|split; [lia|done]]. rewrite same64_i64. apply same64_refl_eq. lia.
Qed.

Lemma accounts_provision e st p n parent st1 id :
  provision e st p n parent = (st1, id) -> accounts st st1 0 0.
Proof. unfold provision. intros [= <- <-]. unfold accounts. cbn. rewrite !Z.add_0_r. done. Qed.

Lemma accounts_file e rmap fid p c st : accounts st (reconcile_file e rmap fid p c st) 1 (Size c).
Proof.
  unfold reconcile_file, accounts, planned_files, planned_bytes.
  case_match; cbn [add_action set_summary rs_summary rs_actions]; rewrite ?covered_snoc;
    cbn [covers ra_Type count_synced AlreadySyncedFiles ResumableFiles MissingFiles AlreadySyncedBytes
         BytesRemaining TotalFiles TotalBytes].
  - split; [lia|]. split; [|split; [lia|done]]. rewrite same64_i64. apply same64_refl_eq. lia.
  - destruct (find_session e fid c) as [s|]; [destruct ((0 <? UploadedSize s) && _)|];
      cbn [add_action set_summary rs_summary rs_actions]; rewrite ?covered_snoc;
      cbn [covers ra_Type count_resumable count_missing AlreadySyncedFiles ResumableFiles MissingFiles
           AlreadySyncedBytes BytesRemaining TotalFiles TotalBytes];
      (split; [lia|]); (split; [|split; [lia|done]]); rewrite ?same64_i64; apply same64_refl_eq; lia.
Qed.

Lemma CountStats_dir n :
  NType n = NodeDir ->
  CountStats n = foldl (fun acc p => (fst acc + fst p, i64 (snd acc + snd p))) (0, 0)
                   (map CountStats (Children n)).
Proof. destruct n. cbn. by intros ->. Qed.

Lemma CountStats_file n : NType n = NodeFile -> CountStats n = (1, Size n).
Proof. destruct n. cbn. by intros ->. Qed.

Lemma plain_dir_tree n : NType n = NodeDir -> plain_tree n <-> Forall plain_tree (Children n).
Proof.
  destruct n. cbn. intros ->. match goal with |- foldr _ _ ?l <-> _ => induction l as [|c l IH] end; cbn.
  - by rewrite Forall_nil.
  - by rewrite Forall_cons, IH.
Qed.

(** The shape of one call, its recursive calls abstracted. *)
Definition child_step (e : rec_env) (rDir : option MerkleNode) (cpath : string) (st : rec_state)
    (c : MerkleNode) : rec_state :=
  let rmap := rChildrenMap rDir in
  let currentFolderID := match rDir with Some r => FolderID r | None => "" end in
  let path := child_path cpath c in
  match NType c with
  | NodeDir =>
      let descend_new :=
        let '(st1, id) := provision e st path (Name c) currentFolderID in
        reconcileDirNodes e c path (Some (empty_dir (Name c) path id)) st1 in
      match rmap !! Name c with
      | Some r =>
          if bool_decide (NType r = NodeDir) then
            if hashes_match (Hash c) (Hash r) then skip_subtree path c r st
            else reconcileDirNodes e c path (Some r) st
          else descend_new
      | None => descend_new
      end
  | NodeFile => reconcile_file e rmap currentFolderID path c st
  | NodeOther _ => st
  end.

Lemma reconcileDirNodes_unfold e c cpath rDir st :
  reconcileDirNodes e c cpath rDir st = foldl (child_step e rDir cpath) st (Children c).
Proof. by destruct c. Qed.

Lemma fold_stats l acc :
  fst (foldl (fun acc p => (fst acc + fst p, i64 (snd acc + snd p))) acc (map CountStats l))
    = fst acc + fst (foldl (fun acc p => (fst acc + fst p, i64 (snd acc + snd p))) (0, 0) (map CountStats l)) /\
  same64 (snd (foldl (fun acc p => (fst acc + fst p, i64 (snd acc + snd p))) acc (map CountStats l)))
    (snd acc + snd (foldl (fun acc p => (fst acc + fst p, i64 (snd acc + snd p))) (0, 0) (map CountStats l))).
Proof.
  revert acc. induction l as [|c l IH]; intros acc; cbn [map foldl].
  { cbn [fst snd]. rewrite !Z.add_0_r. done. }
  destruct (IH (fst acc + fst (CountStats c), i64 (snd acc + snd (CountStats c)))) as [IH1 IH2].
  destruct (IH (0 + fst (CountStats c), i64 (0 + snd (CountStats c)))) as [IH3 IH4].
  cbn [fst snd] in *. split; [lia|]. rewrite IH2, IH4, !same64_i64. apply same64_refl_eq. lia.
Qed.

(** A call on a folder accounts for everything in it. *)
Lemma reconcileDirNodes_accounts e c : forall cpath rDir st,
  plain_tree c -> NType c = NodeDir ->
  accounts st (reconcileDirNodes e c cpath rDir st) (fst (CountStats c)) (snd (CountStats c)).
Proof.
  induction c as [c IH] using MerkleNode_rect'. intros cpath rDir st Hplain Hdir.
  rewrite reconcileDirNodes_unfold, CountStats_dir by done. apply plain_dir_tree in Hplain; [|done].
  clear Hdir. revert st. induction (Children c) as [|x l IHl]; intros st; cbn [foldl map].
  { apply accounts_refl. }
  apply Forall_cons in Hplain as [Hx Hl]. apply Forall_cons in IH as [IHx IHc].
  destruct (fold_stats l (0 + fst (CountStats x), i64 (0 + snd (CountStats x)))) as [Hf Hb].
  cbn [fst snd] in Hf, Hb |- *. rewrite Hf.
  eapply accounts_bytes; [symmetry; etrans; [exact Hb|by rewrite same64_i64]|].
  rewrite !Z.add_0_l. eapply accounts_trans; [|by apply IHl].
  unfold child_step. destruct (NType x) eqn:Ht.
  - rewrite (CountStats_file x Ht). apply accounts_file.
  - destruct (rChildrenMap rDir !! Name x) as [r|]; [case_bool_decide; [case_match|]|].
    + apply accounts_skip.
    + by apply IHx.
    + destruct (provision _ _ _ _ _) as [st1 id] eqn:Hp.
      eapply accounts_bytes; [by rewrite <- (Z.add_0_l (snd (CountStats x)))|].
      rewrite <- (Z.add_0_l (fst (CountStats x))). eapply accounts_trans; [by eapply accounts_provision|].
      by apply IHx.
    + destruct (provision _ _ _ _ _) as [st1 id] eqn:Hp.
      eapply accounts_bytes; [by rewrite <- (Z.add_0_l (snd (CountStats x)))|].
      rewrite <- (Z.add_0_l (fst (CountStats x))). eapply accounts_trans; [by eapply accounts_provision|].
      by apply IHx.
  - exfalso. destruct x. cbn in *. by rewrite Ht in Hx.
Qed.

End ReconcileFacts.
