(* ===== verification/ReconcileProps.v ===== *)
(** * Properties of the reconciliation

    What equal folder hashes mean, that a plan accounts for every file once,
    and that whatever it skips is in the server's rows, at the same path,
    whatever of the queries failed. *)

From S2P Require Import Prelude GoStrings FileSys CryptoPrims UploadSession CAS VaultTree Merkle Reconcile.

#[local] Open Scope string_scope.
#[local] Open Scope list_scope.
#[local] Open Scope Z_scope.

Section TreeFacts.
Context `{CryptoLaws}.

Lemma plain_ensure n : plain_tree n -> plain_tree (ensure_leaf_hash n).
Proof. unfold ensure_leaf_hash. destruct (String.eqb _ _); [by destruct n|done]. Qed.

Lemma plain_Compute n : plain_tree n -> plain_tree (ComputeDirectoryHash n).
Proof.
  induction n as [n IH] using MerkleNode_rect'. intros Hn. destruct (NType n) eqn:Ht.
  - destruct n. cbn in Ht |- *. rewrite Ht. by apply plain_ensure.
  - rewrite Compute_dir by done. apply plain_dir_tree in Hn; [|done].
    apply plain_dir_tree; [done|]. cbn [Children]. apply Forall_sort, Forall_fmap.
    rewrite Forall_forall in IH, Hn |- *. intros c Hc. cbn. pose proof (Hn c Hc). pose proof (IH c Hc).
    destruct (NType c); [by apply plain_ensure|by auto|by apply plain_ensure].
  - destruct n. cbn in Ht, Hn. by rewrite Ht in Hn.
Qed.

Lemma hex_clean s : clean_field (hex_sha s) = true.
Proof.
  unfold hex_sha, clean_field, without. assert (Forall is_byte (sha256 (bytes_of_string s))) as Hb
    by apply sha256_byte. revert Hb. generalize (sha256 (bytes_of_string s)). intros b Hb.
  pose proof (hex_all b Hb) as Hx. revert Hx. generalize (EncodeToString b). clear.
  induction s as [|c s IH]; [done|]. cbn [string_forallb]. intros [Hc Hs]%andb_true_iff.
  destruct (andb_prop _ _ (IH Hs)) as [-> ->]. rewrite !andb_true_r.
  destruct c as [[] [] [] [] [] [] [] []]; try done.
Qed.

Definition clean_label (n : MerkleNode) : Prop :=
  clean_field (Name n) = true /\ clean_field (type_string (NType n)) = true /\
  match NType n with NodeOther t => t <> "file" /\ t <> "directory" | _ => True end.

Lemma clean_tree_unfold n :
  clean_tree n <-> clean_label n /\ clean_field (Hash n) = true /\ Forall clean_tree (Children n).
Proof.
  destruct n as [nm p t s h fo fi m cs]. unfold clean_label.
  cbn [clean_tree Name NType Hash Children]. rewrite foldr_and. tauto.
Qed.

Lemma clean_ensure n : clean_tree n -> clean_tree (ensure_leaf_hash n).
Proof.
  rewrite !clean_tree_unfold. intros (Hl & Hh & Hc). unfold ensure_leaf_hash.
  destruct (String.eqb _ _); [|done]. destruct n. cbn in *. split; [done|]. split; [apply hex_clean|done].
Qed.

Lemma clean_Compute n : clean_tree n -> clean_tree (ComputeDirectoryHash n).
Proof.
  induction n as [n IH] using MerkleNode_rect'. intros Hn. destruct (decide (NType n = NodeDir)) as [Ht|Ht].
  - rewrite Compute_dir by done. apply clean_tree_unfold in Hn as (Hl & _ & Hc).
    apply clean_tree_unfold. cbn [Hash Children]. split; [exact Hl|]. split; [apply hex_clean|].
    apply Forall_sort, Forall_fmap. rewrite Forall_forall in IH, Hc |- *. intros c Hin. cbn.
    pose proof (Hc c Hin). pose proof (IH c Hin).
    destruct (NType c); [by apply clean_ensure|by auto|by apply clean_ensure].
  - apply clean_ensure in Hn. destruct n as [nm p t s h fo fi m cs]. cbn in Ht. by destruct t.
Qed.

Lemma ensure_name n : Name (ensure_leaf_hash n) = Name n.
Proof. unfold ensure_leaf_hash. by destruct (String.eqb _ _). Qed.

Lemma Compute_name n : Name (ComputeDirectoryHash n) = Name n.
Proof. destruct n as [nm p [] s h fo fi m cs]; [apply ensure_name|done|apply ensure_name]. Qed.

(** The node a path of names leads to. *)
Inductive node_at (n : MerkleNode) : list string -> MerkleNode -> Prop :=
| node_here : node_at n [] n
| node_below c ns m : NType n = NodeDir -> c ∈ Children n -> node_at c ns m -> node_at n (Name c :: ns) m.

Lemma node_at_snoc n ns c x :
  node_at n ns c -> NType c = NodeDir -> x ∈ Children c -> node_at n (ns ++ [Name x]) x.
Proof.
  induction 1 as [|n c' ns m Hd Hin _ IH]; intros Hc Hx; cbn.
  - apply node_below; [done|done|constructor].
  - apply node_below; auto.
Qed.

Lemma node_at_leaf n ns m : NType n <> NodeDir -> node_at n ns m -> ns = [] /\ m = n.
Proof. intros Hn Hm. by inversion Hm. Qed.

(** What hashing leaves of a node. *)
Definition same_node (m m' : MerkleNode) : Prop :=
  NType m' = NType m /\ FolderID m' = FolderID m /\ Name m' = Name m /\
  (NType m <> NodeDir -> m = ensure_leaf_hash m').

Lemma same_ensure n : NType n <> NodeDir -> same_node (ensure_leaf_hash n) n.
Proof. intros Hn. unfold same_node. rewrite ensure_type. unfold ensure_leaf_hash. by destruct (String.eqb _ _). Qed.

(** Hashing moves nothing. *)
Lemma node_at_Compute n : forall ms m, node_at (ComputeDirectoryHash n) ms m ->
  exists m', node_at n ms m' /\ same_node m m'.
Proof.
  assert (forall n ms m, NType n <> NodeDir -> node_at (ensure_leaf_hash n) ms m ->
    exists m', node_at n ms m' /\ same_node m m') as Hleaf.
  { clear n. intros n ms m Hn Hm. apply node_at_leaf in Hm as [-> ->]; [|by rewrite ensure_type].
    exists n. split; [constructor|by apply same_ensure]. }
  induction n as [n IH] using MerkleNode_rect'. intros ms m Hm. destruct (decide (NType n = NodeDir)) as [Hd|Hd].
  2:{ assert (ComputeDirectoryHash n = ensure_leaf_hash n) as He by (destruct n as [? ? []]; done).
      rewrite He in Hm. by apply Hleaf. }
  rewrite Compute_dir in Hm by done. inversion Hm as [|c ns m0 Hd' Hin Hc]; subst.
  { exists n. split; [constructor|]. unfold same_node. cbn. split_and!; [done|done|done|]. by rewrite Hd. }
  cbn [Children] in Hin. unfold sort_by_name in Hin. rewrite merge_sort_Permutation in Hin.
  apply list_elem_of_fmap in Hin as (x & -> & Hx). rewrite Forall_forall in IH. specialize (IH x Hx).
  destruct (NType x) eqn:Hxt; cbn beta iota in *; rewrite ?Hxt in *.
  all: rewrite ?ensure_name, ?Compute_name.
  - destruct (Hleaf x ns m) as (m' & Hm' & Hs); [by rewrite Hxt|done|]. exists m'. by split; [apply node_below|].
  - destruct (IH ns m Hc) as (m' & Hm' & Hs). exists m'. by split; [apply node_below|].
  - destruct (Hleaf x ns m) as (m' & Hm' & Hs); [by rewrite Hxt|done|]. exists m'. by split; [apply node_below|].
Qed.

(** Equal contents have the same nodes at the same paths. *)
Lemma content_of_inv a b : content_of a = content_of b ->
  fields a = fields b /\ (NType a = NodeDir -> map content_of (Children a) = map content_of (Children b)).
Proof.
  destruct a as [? ? t], b as [? ? t']. unfold fields, is_dir. cbn. intros He. injection He as -> -> -> -> He.
  split; [done|]. intros ->. exact He.
Qed.

Lemma node_at_content a ms x : node_at a ms x -> forall b, content_of a = content_of b ->
  exists y, node_at b ms y /\ fields y = fields x.
Proof.
  induction 1 as [a|a c ns m Hd Hin _ IH]; intros b Hb; apply content_of_inv in Hb as [Hf Hcs].
  { exists b. split; [constructor|done]. }
  specialize (Hcs Hd). assert (content_of c ∈ map content_of (Children b)) as Hc.
  { rewrite <- Hcs. by apply list_elem_of_fmap_2. }
  apply list_elem_of_fmap in Hc as (c' & He & Hc').
  destruct (IH c' He) as (y & Hy & Hfy). exists y. split; [|done].
  apply content_of_inv in He as [Hfc _]. injection Hfc as -> _ _ _. injection Hf as _ Ht _ _.
  apply node_below; [congruence|done|done].
Qed.

Lemma rChildrenMap_spec r n x :
  rChildrenMap (Some r) !! n = Some x -> x ∈ Children r /\ Name x = n.
Proof.
  unfold rChildrenMap. assert (forall l (m : gmap string MerkleNode),
    foldl (fun m c => <[Name c := c]> m) m l !! n = Some x ->
    (x ∈ l /\ Name x = n) \/ m !! n = Some x) as Hg.
  { induction l as [|c l IH]; intros m Hm; [by right|]. cbn in Hm.
    destruct (IH _ Hm) as [[Hin Hn]|Hx]; [left; split; [by right|done]|].
    apply lookup_insert_Some in Hx as [[Hc ->]|[_ Hx]]; [left; split; [by left|done]|by right]. }
  intros Hm. by destruct (Hg _ _ Hm) as [?|?].
Qed.

(** *** Where the server's rows are

    [root] tells the rows the comparison may start at; [d] holds the rows of
    [owner]. *)
Section Rows.
Context (d : remote_db) (owner : Z) (root : RemoteFolderRow -> Prop).

(** A path of names below the root, and the identifier of the folder there. *)
Inductive folder_at : list string -> string -> Prop :=
| at_root f : f ∈ owned_folders d owner -> root f -> folder_at [] (rf_ID f)
| at_child ns g : folder_at ns (rf_ParentID g) -> g ∈ owned_folders d owner ->
    folder_at (ns ++ [rf_Name g]) (rf_ID g).

Definition file_at (ns : list string) (fl : RemoteFileRow) : Prop :=
  fl ∈ owned_files d owner /\ exists init, ns = init ++ [rl_Name fl] /\ folder_at init (rl_FolderID fl).

(** Everything at and below a folder of the client is at the same paths on
    the server: folders as folders, files with their size and, where the
    server knows it, their hash. *)
Definition held (ns : list string) (c : MerkleNode) : Prop :=
  forall ms x, node_at c ms x ->
  match NType x with
  | NodeDir => exists id, folder_at (ns ++ ms) id
  | NodeFile => exists fl, file_at (ns ++ ms) fl /\ rl_Size fl = Size x /\
                  (rl_PlaintextHash fl = Hash x \/ rl_PlaintextHash fl = "")
  | NodeOther _ => False
  end.

(** What an action leaves out is on the server, where the client has it. *)
Definition justified (ctree : MerkleNode) (a : ReconcileAction) : Prop :=
  ra_Action a = ActionSkip -> exists ns c, node_at ctree ns c /\ ra_Name a = Name c /\ ra_Type a = NType c /\
    match NType c with
    | NodeDir => folder_at ns (ra_TargetFolderID a) /\ (held ns c \/ sha_collision)
    | _ => exists fl, file_at ns fl /\ rl_FolderID fl = ra_TargetFolderID a /\ rl_Size fl = Size c
    end.

(** A node of the tree that was built stands for a row. *)
Definition stored (ns : list string) (n : MerkleNode) : Prop :=
  match NType n with
  | NodeDir => folder_at ns (FolderID n)
  | NodeFile => exists fl, file_at ns fl /\ rl_FolderID fl = FolderID n /\ rl_Size fl = Size n /\
                  (rl_PlaintextHash fl = Hash n \/ rl_PlaintextHash fl = "")
  | NodeOther _ => False
  end.

Lemma folder_node_stored fuel links files id f ns :
  Forall (fun g => g ∈ owned_folders d owner) links -> Forall (fun fl => fl ∈ owned_files d owner) files ->
  folder_at ns (rf_ID f) ->
  forall ms n, node_at (folder_node fuel links files id f) ms n -> stored (ns ++ ms) n.
Proof.
  intros Hl Hfi. revert f ns. induction fuel as [|k IH]; intros f ns Hf ms n Hn.
  all: inversion Hn as [|c ms' n' _ Hin Hc]; subst; [unfold stored; cbn; by rewrite app_nil_r|].
  all: cbn [folder_node Children] in Hin; apply elem_of_app in Hin as [Hin|Hin].
  all: try by apply not_elem_of_nil in Hin.
  1,2: apply list_elem_of_fmap in Hin as (fl & -> & Hfl); apply list_elem_of_In, filter_In in Hfl as [Hfl Hp%String.eqb_eq];
    apply node_at_leaf in Hc as [-> ->]; [|done]; unfold stored; cbn; exists fl;
    (split; [split; [rewrite List.Forall_forall in Hfi; by apply Hfi|exists ns; by rewrite Hp]|]);
    split; [done|]; split; [done|]; destruct (String.eqb_spec (rl_PlaintextHash fl) ""); by auto.
  apply list_elem_of_fmap in Hin as (g & -> & Hg). apply list_elem_of_In, filter_In in Hg as [Hg Hp].
  apply andb_true_iff in Hp as [Hp%String.eqb_eq _].
  assert (Name (folder_node k links files id g) = rf_Name g) as -> by by destruct k.
  replace (ns ++ rf_Name g :: ms') with ((ns ++ [rf_Name g]) ++ ms') by by rewrite <- app_assoc.
  apply (IH g); [|done]. apply at_child; [by rewrite Hp|]. rewrite List.Forall_forall in Hl. by apply Hl.
Qed.

Lemma stored_same ns m m' : same_node m m' -> stored ns m' -> stored ns m.
Proof.
  intros (Ht & Hf & _ & Hm). unfold stored. rewrite Ht. destruct (NType m) eqn:Hmt; [|by rewrite Hf|done].
  rewrite Hm by done. unfold ensure_leaf_hash. destruct (String.eqb_spec (Hash m') "") as [He|]; [|done].
  intros (fl & Hat & Hid & Hs & Hh). exists fl. cbn. split_and!; [done|done|done|]. right. rewrite He in Hh. by destruct Hh.
Qed.

(** What the server is known to hold below [r]. *)
Definition mapped (ns : list string) (r : MerkleNode) : Prop :=
  forall ms n, node_at r ms n -> stored (ns ++ ms) n.

Lemma mapped_below ns r y : mapped ns r -> NType r = NodeDir -> y ∈ Children r -> mapped (ns ++ [Name y]) y.
Proof.
  intros Hr Hd Hy ms n Hn. rewrite <- app_assoc. apply Hr. cbn. by apply node_below.
Qed.

Lemma mapped_held ns c r : mapped ns r -> NType r = NodeDir -> NType c = NodeDir ->
  map content_of (Children c) = map content_of (Children r) -> held ns c.
Proof.
  intros Hr Hrd Hcd Hcs ms x Hx. inversion Hx as [|c' ms' x' _ Hin Hc]; subst.
  { rewrite Hcd. exists (FolderID r). specialize (Hr [] r (node_here r)). unfold stored in Hr. by rewrite Hrd in Hr. }
  assert (content_of c' ∈ map content_of (Children r)) as Hc' by (rewrite <- Hcs; by apply list_elem_of_fmap_2).
  apply list_elem_of_fmap in Hc' as (c2 & He & Hc2).
  destruct (node_at_content _ _ _ Hc _ He) as (y & Hy & Hf).
  apply content_of_inv in He as [Hfc _]. injection Hfc as -> _ _ _. injection Hf as _ Ht Hs Hh.
  specialize (Hr _ _ (node_below _ _ _ _ Hrd Hc2 Hy)). unfold stored in Hr. rewrite Ht in Hr.
  destruct (NType x); [|by eexists|done]. destruct Hr as (fl & Hat & _ & Hsz & Hhash). exists fl. rewrite <- Hs, <- Hh. done.
Qed.

End Rows.

Definition proper (n : MerkleNode) : Prop := hashed n /\ clean_tree n.

Lemma proper_child n c : proper n -> c ∈ Children n -> NType n = NodeDir -> proper c.
Proof.
  intros [Hh Hc] Hin Hd. apply hashed_dir in Hh as [_ Hh]; [|done]. apply clean_children in Hc.
  rewrite Forall_forall in Hh, Hc. split; auto.
Qed.

Lemma proper_Compute n : clean_tree n -> proper (ComputeDirectoryHash n).
Proof. split; [apply Compute_hashed|by apply clean_Compute]. Qed.

(** Every action a step appends satisfies [Q]. *)
Definition appends (Q : ReconcileAction -> Prop) (st st' : rec_state) : Prop :=
  exists l, rs_actions st' = rs_actions st ++ l /\ Forall Q l.

Lemma appends_refl Q st : appends Q st st.
Proof. exists []. by rewrite app_nil_r. Qed.

Lemma appends_trans Q a b c : appends Q a b -> appends Q b c -> appends Q a c.
Proof.
  intros (l & Hl & Fl) (k & Hk & Fk). exists (l ++ k). rewrite Hk, Hl, app_assoc.
  split; [done|by apply Forall_app].
Qed.

Lemma appends_one (Q : ReconcileAction -> Prop) st st' a :
  rs_actions st' = rs_actions st ++ [a] -> Q a -> appends Q st st'.
Proof. intros He Ha. exists [a]. split; [done|by constructor]. Qed.

Lemma appends_foldl {A} Q (f : rec_state -> A -> rec_state) l st :
  (forall st x, x ∈ l -> appends Q st (f st x)) -> appends Q st (foldl f st l).
Proof.
  revert st. induction l as [|x l IH]; intros st Hf; cbn; [apply appends_refl|].
  eapply appends_trans; [apply Hf; by left|]. apply IH. intros st' y Hy. apply Hf. by right.
Qed.

Lemma appends_provision Q e st p n parent st1 id st2 :
  provision e st p n parent = (st1, id) -> appends Q st1 st2 -> appends Q st st2.
Proof. by intros [= <- <-] Ha. Qed.

(** Files name the folder they hang from. *)
Definition linked (r : MerkleNode) : Prop :=
  forall ms m y, node_at r ms m -> y ∈ Children m -> NType m = NodeDir -> NType y = NodeFile -> FolderID y = FolderID m.

Lemma linked_below r y : linked r -> NType r = NodeDir -> y ∈ Children r -> linked y.
Proof. intros Hr Hd Hy ms m z Hm. apply (Hr (Name y :: ms)). by apply node_below. Qed.

Section Justify.
Context (d : remote_db) (owner : Z) (root : RemoteFolderRow -> Prop) (ctree : MerkleNode).
Abbreviation justified' := (justified d owner root ctree).

(** A remote folder the walk may stand in at a path: none, one without
    contents as those just created, or one built from the rows of that path. *)
Definition remote_ok (ns : list string) (r : option MerkleNode) : Prop :=
  match r with
  | None => True
  | Some r => Children r = [] \/ (proper r /\ NType r = NodeDir /\ linked r /\ mapped d owner root ns r)
  end.

Lemma remote_lookup ns r n x :
  remote_ok ns r -> rChildrenMap r !! n = Some x ->
  exists r', r = Some r' /\ x ∈ Children r' /\ Name x = n /\ proper x /\ linked x /\ NType r' = NodeDir /\
    mapped d owner root (ns ++ [n]) x /\ folder_at d owner root ns (FolderID r') /\
    (NType x = NodeFile -> FolderID x = FolderID r').
Proof.
  destruct r as [r|]; [|cbn; by rewrite lookup_empty]. intros Hr [Hin Hn]%rChildrenMap_spec.
  destruct Hr as [He|(Hp & Hd & Hl & Hm)]; [rewrite He in Hin; by apply not_elem_of_nil in Hin|].
  exists r. split_and!; try done.
  - by eapply proper_child.
  - by eapply linked_below.
  - rewrite <- Hn. by apply (mapped_below _ _ _ _ r).
  - pose proof (Hm [] r (node_here r)) as Hs. unfold stored in Hs. by rewrite Hd, app_nil_r in Hs.
  - intros Hf. by apply (Hl [] r); [constructor|..].
Qed.

Lemma file_justified e ns r fid p c st :
  remote_ok ns r -> fid = match r with Some r => FolderID r | None => "" end ->
  node_at ctree (ns ++ [Name c]) c -> NType c = NodeFile ->
  appends justified' st (reconcile_file e (rChildrenMap r) fid p c st).
Proof.
  intros Hr -> Hw Hf. unfold reconcile_file. destruct (rChildrenMap r !! Name c) as [x|] eqn:Hx.
  - destruct (remote_lookup _ _ _ _ Hr Hx) as (r' & -> & _ & _ & _ & _ & _ & Hm & _ & Hfid).
    destruct (bool_decide (NType x = NodeFile) && (Size x =? Size c)) eqn:Hs.
    + eapply appends_one; [reflexivity|]. intros _. apply andb_true_iff in Hs as [Hty%bool_decide_eq_true Hsz%Z.eqb_eq].
      exists (ns ++ [Name c]), c. cbn. rewrite Hf. do 3 (split; [done|]).
      specialize (Hm [] x (node_here x)). unfold stored in Hm. rewrite Hty, app_nil_r in Hm.
      destruct Hm as (fl & Hat & Hid & Hsize & _). exists fl. rewrite Hid, Hsize. by rewrite (Hfid Hty).
    + destruct (find_session e _ c) as [s|]; [destruct ((0 <? UploadedSize s) && _)|];
        (eapply appends_one; [reflexivity|done]).
  - destruct (find_session e _ c) as [s|]; [destruct ((0 <? UploadedSize s) && _)|];
      (eapply appends_one; [reflexivity|done]).
Qed.

Lemma nodes_justified e c : forall ns cpath r st,
  node_at ctree ns c -> proper c -> NType c = NodeDir -> remote_ok ns r ->
  appends justified' st (reconcileDirNodes e c cpath r st).
Proof.
  induction c as [c IH] using MerkleNode_rect'. intros ns cpath r st Hw Hp Hd Hr.
  rewrite reconcileDirNodes_unfold. apply appends_foldl. intros st' x Hx.
  pose proof (node_at_snoc _ _ _ _ Hw Hd Hx) as Hwx.
  pose proof (proper_child _ _ Hp Hx Hd) as Hpx. rewrite Forall_forall in IH.
  unfold child_step. destruct (NType x) eqn:Ht; [by eapply file_justified| |apply appends_refl].
  assert (forall st1 id fid, provision e st' (child_path cpath x) (Name x) fid = (st1, id) ->
    appends justified' st' (reconcileDirNodes e x (child_path cpath x)
      (Some (empty_dir (Name x) (child_path cpath x) id)) st1)) as Hnew.
  { intros st1 id fid Hpr. eapply appends_provision; [exact Hpr|]. eapply IH; eauto. by left. }
  destruct (rChildrenMap r !! Name x) as [y|] eqn:Hy; [case_bool_decide as Hyd|].
  2,3: destruct (provision _ _ _ _ _) as [st1 id] eqn:Hpr; by eapply Hnew.
  destruct (remote_lookup _ _ _ _ Hr Hy) as (r' & -> & Hin & Hny & Hpy & Hly & Hrd & Hm & Hat & _).
  destruct (hashes_match (Hash x) (Hash y)) eqn:Hh.
  - unfold skip_subtree. destruct (CountStats x) as [fs bs].
    eapply appends_one; [reflexivity|]. intros _. exists (ns ++ [Name x]), x. cbn. rewrite Ht. do 3 (split; [done|]).
    apply andb_true_iff in Hh as [_ Hh%String.eqb_eq]. split.
    + specialize (Hm [] y (node_here y)). unfold stored in Hm. by rewrite Hyd, app_nil_r in Hm.
    + destruct Hpx as [Hxh Hxc], Hpy as [Hyh Hyc].
      destruct (hashed_determines x y Hxh Hyh Hxc Hyc Ht Hyd Hh) as [Heq|]; [left|by right].
      by eapply mapped_held.
  - eapply IH; eauto. right. by split_and!.
Qed.

End Justify.
End TreeFacts.

(** ** The server's side is clean when its rows are *)

Definition clean_rows (d : remote_db) : Prop :=
  Forall (fun f => clean_field (rf_Name f) = true) (rd_folders d) /\
  Forall (fun f => clean_field (rl_Name f) = true /\ clean_field (rl_PlaintextHash f) = true) (rd_files d).

Section RemoteFacts.
Context `{CryptoLaws}.

Lemma Ok_inj {A} (a b : A) : Ok a = Ok b -> a = b.
Proof. by injection 1. Qed.

Lemma Forall_list_filter {A} (P : A -> Prop) p (l : list A) : Forall P l -> Forall P (List.filter p l).
Proof. rewrite !List.Forall_forall. intros Hl x [Hx _]%filter_In. by apply Hl. Qed.

Lemma clean_file_node f :
  clean_field (rl_Name f) = true /\ clean_field (rl_PlaintextHash f) = true -> clean_tree (file_node f).
Proof.
  intros [Hn Hh]. apply clean_tree_unfold. unfold file_node, clean_label. cbn.
  split; [done|]. split; [|constructor]. by destruct (String.eqb _ _); [apply hex_clean|].
Qed.

Lemma clean_folder_node fuel folders files root f :
  Forall (fun f => clean_field (rf_Name f) = true) folders ->
  Forall (fun f => clean_field (rl_Name f) = true /\ clean_field (rl_PlaintextHash f) = true) files ->
  clean_field (rf_Name f) = true -> clean_tree (folder_node fuel folders files root f).
Proof.
  intros Hfo Hfi. revert f. induction fuel as [|k IH]; intros f Hf; apply clean_tree_unfold;
    cbn [folder_node Hash Children]; (split; [done|]); (split; [done|]); apply Forall_app;
    (split; [apply Forall_fmap; eapply Forall_impl; [by apply Forall_list_filter|apply clean_file_node]|]).
  - constructor.
  - apply Forall_fmap. eapply Forall_impl; [by apply Forall_list_filter|apply IH].
Qed.

Lemma fetched {A} (P : A -> Prop) q (rows : list A) l :
  Forall P rows -> query_rows q rows = Some l -> Forall P (omap id l).
Proof.
  unfold query_rows. destruct (q_fails q); [done|]. intros Hr [= <-]. apply List.Forall_forall. intros x Hx.
  apply list_elem_of_In, list_elem_of_omap in Hx as (o & Ho & Hid). unfold id in Hid. subst o.
  apply elem_of_lookup_imap in Ho as (i & y & Hy & Hi). destruct (q_scan q i); [|done]. injection Hy as ->.
  rewrite Forall_forall in Hr. apply Hr. apply list_elem_of_lookup_2 in Hi.
  destruct (q_rows q); [|done]. by apply elem_of_take in Hi as (j & ? & _); eapply list_elem_of_lookup_2.
Qed.

Lemma scanned_omap {A} (l : list (option A)) k : all_scanned l = Some k -> omap id l = k.
Proof.
  unfold all_scanned. revert k. induction l as [|[x|] l IH]; intros k; cbn; [by intros [= <-]| |done].
  destruct (mapM id l) as [k'|] eqn:Hk; [|done]. cbn. intros [= <-]. by rewrite (IH k').
Qed.

(** What a tree that was built is made of. *)
Lemma built q d owner id t : BuildRemoteTree q (Some d) owner id = Ok t -> id <> "" ->
  exists links files f fuel,
    Forall (fun g => g ∈ owned_folders d owner) links /\ Forall (fun fl => fl ∈ owned_files d owner) files /\
    f ∈ owned_folders d owner /\ rf_ID f = id /\ t = ComputeDirectoryHash (folder_node fuel links files id f).
Proof.
  unfold BuildRemoteTree. intros Hb Hne.
  destruct (query_rows (rq_folders q) _) as [rows|] eqn:H1'; [|done]. destruct (all_scanned rows) as [folders|] eqn:H2'; [|done].
  destruct (negb _ && _) eqn:Hfound; [done|]. destruct (query_rows (rq_files q) _) as [frows|] eqn:H3'; [|done].
  destruct (all_scanned frows) as [files|] eqn:H4'; [|done]. destruct (query_rows (rq_folders2 q) _) as [rows2|] eqn:H5'; [|done].
  rewrite (proj2 (String.eqb_neq _ _) Hne) in *. cbn [negb andb] in Hfound. apply bool_decide_eq_false in Hfound.
  destruct (find_folder id folders) as [f|] eqn:Hf; [|done].
  assert (Forall (fun g => g ∈ owned_folders d owner) (owned_folders d owner)) as Hself by by apply Forall_forall.
  assert (Forall (fun g => g ∈ owned_files d owner) (owned_files d owner)) as Hself' by by apply Forall_forall.
  pose proof (fetched _ _ _ _ Hself H1') as Hfo. rewrite (scanned_omap _ _ H2') in Hfo.
  pose proof (fetched _ _ _ _ Hself' H3') as Hfi. rewrite (scanned_omap _ _ H4') in Hfi.
  pose proof (fetched _ _ _ _ Hself H5') as Hlk.
  apply find_some in Hf as [Hin%in_rev Hid%String.eqb_eq].
  exists (attached folders rows2), files, f, (length folders). split_and!; try done.
  - by apply Forall_list_filter.
  - rewrite List.Forall_forall in Hfo. by apply Hfo.
  - symmetry. exact (Ok_inj _ _ Hb).
Qed.

Lemma remote_proper q d owner id t :
  clean_rows d -> BuildRemoteTree q (Some d) owner id = Ok t -> id <> "" -> proper t /\ NType t = NodeDir.
Proof.
  intros [Hfo Hfi] Hb Hne. destruct (built _ _ _ _ _ Hb Hne) as (links & files & f & fuel & Hl & Hf & Hin & _ & ->).
  split; [|rewrite Compute_type; by destruct fuel]. apply proper_Compute.
  assert (Forall (fun f => clean_field (rf_Name f) = true) (owned_folders d owner)) as Hfo' by by apply Forall_list_filter.
  assert (Forall (fun f => clean_field (rl_Name f) = true /\ clean_field (rl_PlaintextHash f) = true)
    (owned_files d owner)) as Hfi' by by apply Forall_list_filter.
  rewrite List.Forall_forall in Hfo', Hfi'.
  apply clean_folder_node; [|eapply Forall_impl; [exact Hf|]; intros x Hx; by apply Hfi', list_elem_of_In
                           |by apply Hfo', list_elem_of_In].
  eapply Forall_impl; [exact Hl|]. intros x Hx. by apply Hfo', list_elem_of_In.
Qed.

Lemma linked_folder_node fuel links files id : forall f, linked (folder_node fuel links files id f).
Proof.
  induction fuel as [|k IH]; intros f ms m y Hm Hy Hd Ht.
  all: inversion Hm as [|c ms' m' _ Hin Hc]; subst; cbn [folder_node Children] in *.
  all: first [apply elem_of_app in Hy as [Hy|Hy]|idtac].
  all: try (apply elem_of_app in Hin as [Hin|Hin]).
  all: try by apply not_elem_of_nil in Hin.
  all: try by apply not_elem_of_nil in Hy.
  all: try (apply list_elem_of_fmap in Hin as (fl & -> & _); apply node_at_leaf in Hc as [_ ->]; done).
  all: try (apply list_elem_of_fmap in Hin as (g & -> & _); by eapply IH).
  all: apply list_elem_of_fmap in Hy as (fl & -> & Hfl).
  1,2: apply list_elem_of_In, filter_In in Hfl as [_ Hp%String.eqb_eq]; exact Hp.
  by destruct k.
Qed.

Lemma linked_Compute n : linked n -> linked (ComputeDirectoryHash n).
Proof.
  induction n as [n IH] using MerkleNode_rect'. intros Hl. destruct (decide (NType n = NodeDir)) as [Hd|Hd].
  2:{ intros ms m y Hm _ Hmd. apply node_at_leaf in Hm as [_ ->]; [|by rewrite Compute_type]. by rewrite Compute_type in Hmd. }
  intros ms m y Hm Hy Hmd Hyt. rewrite Compute_dir in Hm by done. inversion Hm as [|c ms' m' _ Hin Hc]; subst.
  - cbn [Children FolderID] in *. unfold sort_by_name in Hy. rewrite merge_sort_Permutation in Hy.
    apply list_elem_of_fmap in Hy as (x & -> & Hx).
    assert (NType x = NodeFile) as Hxt by (destruct (NType x) eqn:Ht; [done|by rewrite Compute_type in Hyt; congruence|by rewrite ensure_type in Hyt; congruence]).
    rewrite Hxt. pose proof (Hl [] n x (node_here n) Hx Hd Hxt) as He.
    unfold ensure_leaf_hash. by destruct (String.eqb (Hash x) "").
  - cbn [Children] in Hin. unfold sort_by_name in Hin. rewrite merge_sort_Permutation in Hin.
    apply list_elem_of_fmap in Hin as (x & -> & Hx). rewrite Forall_forall in IH.
    destruct (NType x) eqn:Hxt; [|eapply (IH x Hx); [by apply (linked_below n)|done..]|].
    all: apply node_at_leaf in Hc as [_ ->]; [rewrite ensure_type in Hmd|rewrite ensure_type]; congruence.
Qed.

(** A tree that was built says what the rows say. *)
Lemma built_mapped q d owner id t (root : RemoteFolderRow -> Prop) :
  BuildRemoteTree q (Some d) owner id = Ok t -> id <> "" -> folder_at d owner root [] id ->
  linked t /\ mapped d owner root [] t.
Proof.
  intros Hb Hne Hat. destruct (built _ _ _ _ _ Hb Hne) as (links & files & f & fuel & Hl & Hf & Hin & Hid & ->).
  split; [apply linked_Compute, linked_folder_node|]. intros ms n Hn.
  apply node_at_Compute in Hn as (m' & Hm' & Hs). eapply stored_same; [exact Hs|].
  eapply folder_node_stored; [exact Hl|exact Hf|by rewrite Hid|exact Hm'].
Qed.

End RemoteFacts.

Section ReconcileClaims.
Context `{CryptoLaws}.

(** ** The two outcomes of ReconcileTree *)

Lemma str_le_trans : Transitive str_le.
Proof. intros a b c Hab%Is_true_true Hbc%Is_true_true. apply Is_true_true. exact (transitivity (R := String.le) Hab Hbc). Qed.

Lemma str_le_total a b : str_le a b \/ str_le b a.
Proof. apply String.leb_total. Qed.

Lemma sort_by_name_perm l k : l ≡ₚ k -> NoDup (map Name l) -> sort_by_name l = sort_by_name k.
Proof.
  intros Hp Hnd. apply (StronglySorted_unique_strong name_le).
  - intros x y Hx Hy Hxy Hyx. unfold sort_by_name in Hx, Hy. rewrite merge_sort_Permutation in Hx, Hy.
    rewrite <- Hp in Hy. assert (Name x = Name y) as Hn by by apply String.leb_antisym.
    apply list_elem_of_lookup in Hx as [i Hi], Hy as [j Hj].
    assert (i = j) as ->; [|congruence]. eapply NoDup_lookup; [exact Hnd| |];
      rewrite list_lookup_fmap; [by rewrite Hi|by rewrite Hj, Hn].
  - apply StronglySorted_merge_sort. intros x y z. apply str_le_trans. intros x y. apply str_le_total.
  - apply StronglySorted_merge_sort. intros x y z. apply str_le_trans. intros x y. apply str_le_total.
  - unfold sort_by_name. by rewrite !merge_sort_Permutation.
Qed.

(** The folder the comparison starts at: the one found under the target by its name. *)
Definition at_target (target name id : string) (f : RemoteFolderRow) : Prop :=
  root_match (if String.eqb target "root" then "" else target) name f = true /\ rf_ID f = id.

Lemma find_root_at q d owner target name :
  let id := find_root q (Some d) owner (if String.eqb target "root" then "" else target) name in
  id <> "" -> folder_at d owner (at_target target name id) [] id.
Proof.
  cbv zeta. unfold find_root. destruct (rq_root q); [|done].
  destruct (List.find _ _) as [f|] eqn:Hf; [|done]. intros _. apply find_some in Hf as [Hin Hm].
  apply (at_root d owner _ f); [by apply list_elem_of_In|by split].
Qed.

(** What the walk starts from: a folder just created, or what could be read
    of the one found. *)
Definition remote_start (e : rec_env) (db : option remote_db) (target name id : string) (r : option MerkleNode) : Prop :=
  (exists n p i, r = Some (empty_dir n p i)) \/
  (id = find_root (re_reads e) db (re_owner e) (if String.eqb target "root" then "" else target) name /\ id <> "" /\
   r = match BuildRemoteTree (re_reads e) db (re_owner e) id with Ok t => Some t | Err _ => None end).

Definition fresh_state (c : MerkleNode) (st : rec_state) : Prop :=
  rs_actions st = [] /\
  rs_summary st = mkSummary (fst (CountStats c)) (snd (CountStats c)) 0 0 0 0 0.

Definition roots_match (r : option MerkleNode) (c : MerkleNode) : bool :=
  match r with Some r => hashes_match (Hash r) (Hash c) | None => false end.

Lemma ReconcileTree_cases e rid c0 db target db' plan :
  ReconcileTree e rid (Some c0) db target = (db', Ok plan) ->
  let c := ComputeDirectoryHash c0 in
  exists r st path, remote_start e db target (root_name (Name c)) (RootFolderID plan) r /\ fresh_state c st /\
    ((roots_match r c = true /\ RootSynced plan = true /\
      Summary plan = mkSummary (fst (CountStats c)) (snd (CountStats c))
        (fst (CountStats c)) (snd (CountStats c)) 0 0 0 /\
      Actions plan = [mkAction path (root_name (Name c)) NodeDir ActionSkip "root_merkle_match" (fst (CountStats c))
        (snd (CountStats c)) "" 0 0 "" ""]) \/
     (roots_match r c = false /\ RootSynced plan = false /\
      Summary plan = rs_summary (reconcileDirNodes e c path r st) /\
      Actions plan = rs_actions (reconcileDirNodes e c path r st))).
Proof.
  cbn zeta. unfold ReconcileTree. set (c := ComputeDirectoryHash c0).
  destruct (CountStats c) as [tf tb] eqn:Hcs.
  set (name := root_name (Name c)). set (path := if String.eqb (NPath c) "" then name else NPath c).
  set (tgt := if String.eqb target "root" then "" else target).
  set (id := find_root (re_reads e) db (re_owner e) tgt name).
  destruct (String.eqb_spec id "") as [Hex|Hex].
  - destruct (match db with Some _ => negb (re_insert_ok e) | None => false end); [done|].
    destruct (provision _ _ _ _ _) as [st1 nid] eqn:Hp. injection Hp as Hst Hid.
    change (Hash (empty_dir name path nid)) with "". cbn [hashes_match String.eqb negb andb].
    intros [= _ <-]. exists (Some (empty_dir name path nid)), st1, path.
    split; [left; by do 3 eexists|]. split; [subst st1; unfold fresh_state; by rewrite Hcs|]. by right.
  - set (r := match BuildRemoteTree _ _ _ _ with Ok t => Some t | Err _ => None end).
    fold (roots_match r c). destruct (roots_match r c) eqn:Hm; intros [= <- <-];
      exists r, (mkRecState (mkSummary tf tb 0 0 0 0 0) [] [] db 0), path;
      (split; [by right|]); (split; [by unfold fresh_state; rewrite Hcs|]); rewrite ?Hcs.
    + by left.
    + by right.
Qed.


(** A plan accounts for every file of the client's tree exactly once:
    files found, files to resume and files to upload add up to the tree's
    files, their bytes to its bytes (as 64-bit integers), and the actions listed
    decide on exactly that many files. *)
Theorem plan_accounts_for_every_file e rid c0 db target db' plan :
  plain_tree c0 -> NType c0 = NodeDir ->
  ReconcileTree e rid (Some c0) db target = (db', Ok plan) ->
  let s := Summary plan in
  let tree := ComputeDirectoryHash c0 in
  (TotalFiles s, TotalBytes s) = CountStats tree /\
  AlreadySyncedFiles s + ResumableFiles s + MissingFiles s = TotalFiles s /\
  i64 (AlreadySyncedBytes s + BytesRemaining s) = i64 (TotalBytes s) /\
  covered (Actions plan) = TotalFiles s.
Proof.
  intros Hp Hd Hrun. cbv zeta. destruct (ReconcileTree_cases _ _ _ _ _ _ _ Hrun)
    as (r & st & path & _ & [Hac Hst] & [(_ & _ & -> & ->)|(_ & _ & -> & ->)]).
  - cbn. destruct (CountStats _) as [tf tb]. cbn. split; [done|]. split; [lia|].
    split; [by rewrite Z.add_0_r|]. unfold covered. cbn. lia.
  - destruct (reconcileDirNodes_accounts e (ComputeDirectoryHash c0) path r st)
      as (H1 & H2 & H3 & H4 & H5); [by apply plain_Compute|by rewrite Compute_type|].
    unfold planned_files, planned_bytes in H1, H2. rewrite Hst in *. rewrite Hac in H3. cbn in H1, H2, H3, H4, H5.
    rewrite H4, H5. split; [by destruct (CountStats _)|]. split; [lia|].
    split; [by apply same64_i64_eq|exact H3].
Qed.


(** A file whose contents changed while its size stayed the same is never
    uploaded: with any two hashes, the plan for a folder the server knows
    under that name and size has nothing to upload. *)
Theorem same_size_change_is_skipped e rid h h' n fid m cas :
  re_reads e = fine_reads -> h <> "" -> h' <> "" ->
  let file := mkNode "notes.txt" "" NodeFile n h "" "" m [] in
  let tree := mkNode "docs" "" NodeDir 0 "" "" "" "" [file] in
  let row := mkFileRow fid (re_owner e) "f7" "notes.txt" m n cas h' false in
  let db := mkRemote [mkFolderRow "f7" (re_owner e) "" "docs"] [row] in
  exists plan, ReconcileTree e rid (Some tree) (Some db) "root" = (Some db, Ok plan) /\
    MissingFiles (Summary plan) = 0 /\ BytesRemaining (Summary plan) = 0 /\
    AlreadySyncedFiles (Summary plan) = 1 /\
    Forall (fun a => ra_Action a = ActionSkip) (Actions plan).
Proof.
  intros Hq Hh Hh'. cbv zeta.
  set (rtree := mkNode "docs" "" NodeDir (i64 (0 + n)) (hex_sha (entries [file_node
    (mkFileRow fid (re_owner e) "f7" "notes.txt" m n cas h' false)])) "f7" "" ""
    [file_node (mkFileRow fid (re_owner e) "f7" "notes.txt" m n cas h' false)]).
  set (db := mkRemote _ _).
  assert (BuildRemoteTree fine_reads (Some db) (re_owner e) "f7" = Ok rtree) as Hb.
  { unfold BuildRemoteTree, owned_folders, owned_files, db.
    cbn -[ComputeDirectoryHash i64 hex_sha entries FormatInt Z.eqb]. rewrite !Z.eqb_refl.
    cbn -[ComputeDirectoryHash i64 hex_sha entries FormatInt Z.eqb]. 
    rewrite Compute_dir by done. cbn [Children map NType file_node].
    unfold ensure_leaf_hash. cbn [Hash rl_PlaintextHash file_node].
    rewrite (proj2 (String.eqb_neq _ _) Hh'). cbn [negb Hash]. rewrite (proj2 (String.eqb_neq _ _) Hh'). done. }
  assert (find_root fine_reads (Some db) (re_owner e) "" "docs" = "f7") as Hf.
  { unfold find_root, owned_folders, db. cbn -[Z.eqb]. by rewrite Z.eqb_refl. }
  unfold ReconcileTree. rewrite Hq, Compute_dir by done. cbn [Children map NType]. unfold ensure_leaf_hash.
  cbn [Hash]. rewrite (proj2 (String.eqb_neq _ _) Hh).
  set (c := mkNode _ _ _ _ _ _ _ _ (sort_by_name _)).
  assert (CountStats c = (1, i64 (0 + n))) as Hcs by done. rewrite Hcs.
  change (root_name (Name c)) with "docs". change (if String.eqb "root" "root" then "" else "root") with "".
  rewrite Hf. cbn [String.eqb]. change (String.eqb "f7" "") with false. cbv iota. rewrite Hb.
  assert (forall p st, exists a, ra_Action a = ActionSkip /\ reconcileDirNodes e c p (Some rtree) st =
    add_action (set_summary st (count_synced (rs_summary st) 1 n)) a) as Hrec.
  { intros p st. rewrite reconcileDirNodes_unfold. unfold c, child_step, reconcile_file.
    cbn [Children sort_by_name merge_sort foldl NType Name Size].
    cbn -[Z.eqb Z.add i64 child_path]. rewrite lookup_insert_eq. cbn -[Z.eqb i64 child_path].
    rewrite Z.eqb_refl. eexists. by split; [|reflexivity]. }
  cbv beta iota zeta. destruct (hashes_match _ _).
  - eexists. split; [reflexivity|]. repeat (split; [done|]). by constructor.
  - match goal with |- context [reconcileDirNodes e c ?p _ ?st] =>
      destruct (Hrec p st) as (a & Ha & ->) end.
    eexists. split; [reflexivity|]. repeat (split; [done|]). by constructor.
Qed.

(** A folder whose upload would exceed the quota is refused with 413, but
    the folders the plan created stay in the database. *)
Theorem refused_plan_leaves_folders e rid quota n h :
  re_reads e = fine_reads -> re_sm e = None -> re_insert_ok e = true -> 0 < quota < n -> n < 2 ^ 63 -> h <> "" ->
  let tree := mkNode "docs" "" NodeDir 0 "" "" "" "" [mkNode "a.bin" "" NodeFile n h "" "" "" []] in
  DiffTree e rid (Some ("root", "", Some tree)) (fun _ => false) false quota 0 None (Some (mkRemote [] []))
  = (None, Some (mkRemote [mkFolderRow (re_id e 0) (re_owner e) "" "docs"] []), DiffError 413).
Proof.
  intros Hrd Hsm Hins Hq Hn Hh. cbv zeta.
  assert (exists plan, BytesRemaining (Summary plan) = n /\
    ReconcileTree e rid (Some (request_tree "" (mkNode "docs" "" NodeDir 0 "" "" "" ""
      [mkNode "a.bin" "" NodeFile n h "" "" "" []]))) (Some (mkRemote [] [])) "root"
    = (Some (mkRemote [mkFolderRow (re_id e 0) (re_owner e) "" "docs"] []), Ok plan)) as (plan & Hr & Hrun).
  { unfold ReconcileTree. change (request_tree "" ?t) with t.
    rewrite Hrd, Compute_dir by done. cbn [Children map NType]. unfold ensure_leaf_hash.
    cbn [Hash]. rewrite (proj2 (String.eqb_neq _ _) Hh).
    cbn -[i64 hex_sha entries total_size reconcileDirNodes]. rewrite Hins.
    cbn -[i64 hex_sha entries total_size reconcileDirNodes]. rewrite reconcileDirNodes_unfold.
    cbn [Children foldl]. unfold child_step, reconcile_file, find_session. cbn [NType]. rewrite Hsm.
    change (rChildrenMap (Some (empty_dir _ _ _)) !! _) with (@None MerkleNode). cbn -[i64].
    eexists. split; [|reflexivity]. cbn -[i64]. rewrite i64_id by (unfold in_i64; lia). lia. }
  unfold DiffTree. cbn [andb]. rewrite Hrun, Hr. rewrite i64_id by (unfold in_i64; lia).
  destruct (Z.ltb_spec 0 quota), (Z.ltb_spec 0 n), (Z.ltb_spec quota (0 + n)); try lia. cbn [andb].
  by destruct (FoldersProvisioned plan).
Qed.

(** The text that is hashed does not quote names, so a file can stand for
    other entries: whatever the hash function, a folder with one crafted
    name has the hash and size of a folder with two files. *)
Theorem merkle_names_are_ambiguous h k :
  h <> "" -> k <> "" ->
  let leaf n s x := mkNode n "" NodeFile s x "" "" "" [] in
  let dir cs := mkNode "docs" "" NodeDir 0 "" "" "" "" cs in
  Hash (ComputeDirectoryHash (dir [leaf ("a:file:0:" +:+ h +:+ ";b") 2 k]))
    = Hash (ComputeDirectoryHash (dir [leaf "a" 0 h; leaf "b" 2 k])) /\
  Size (ComputeDirectoryHash (dir [leaf ("a:file:0:" +:+ h +:+ ";b") 2 k]))
    = Size (ComputeDirectoryHash (dir [leaf "a" 0 h; leaf "b" 2 k])).
Proof.
  intros Hh Hk. cbv zeta. rewrite !Compute_dir by done. cbn [Children map NType Hash Size].
  unfold ensure_leaf_hash. cbn [Hash].
  rewrite (proj2 (String.eqb_neq _ _) Hh), (proj2 (String.eqb_neq _ _) Hk). split; [|done]. f_equal.
  assert (forall x y, name_le x y -> sort_by_name [x; y] = [x; y]) as Hs.
  { intros x y Hxy. unfold sort_by_name. cbn. by rewrite decide_True. }
  rewrite Hs by done. cbn -[FormatInt]. unfold entry. cbn [Name NType Size Hash type_string].
  change (FormatInt 0) with "0". change (FormatInt 2) with "2".
  rewrite !str_app_assoc. cbn. reflexivity.
Qed.

End ReconcileClaims.

(** ** Witnesses *)

Section ReconcileWitnesses.
Import ToyCrypto.

Definition leaf_file (n : string) (s : Z) (h : string) : MerkleNode := mkNode n "" NodeFile s h "" "" "" [].
Definition docs (cs : list MerkleNode) : MerkleNode := mkNode "docs" "" NodeDir 0 "" "" "" "" cs.
Definition plain_env : rec_env := mkRecEnv None ∅ (fun l => l) (fun n => FormatInt (Z.of_nat n)) true 1 fine_reads.
Definition stored_docs : remote_db :=
  mkRemote [mkFolderRow "f7" 1 "" "docs"] [mkFileRow "1" 1 "f7" "b" "" 2 "" "k" false].

Lemma docs_clean cs : Forall clean_tree cs -> clean_tree (docs cs).
Proof. intros Hcs. by apply clean_tree_unfold. Qed.

Lemma leaf_clean n s h : clean_field n = true -> clean_field h = true -> clean_tree (leaf_file n s h).
Proof. intros Hn Hh. apply clean_tree_unfold. split; [split; done|]. by split. Qed.


Lemma plan_accounts_for_every_file_witness :
  exists db' plan, ReconcileTree plain_env "rec_1"
      (Some (docs [leaf_file "a" 5 "h"; leaf_file "b" 2 "k"])) (Some stored_docs) "root" = (db', Ok plan) /\
    AlreadySyncedFiles (Summary plan) + ResumableFiles (Summary plan) + MissingFiles (Summary plan)
      = TotalFiles (Summary plan).
Proof.
  destruct (ReconcileTree plain_env "rec_1" (Some (docs [leaf_file "a" 5 "h"; leaf_file "b" 2 "k"]))
    (Some stored_docs) "root") as [db' [plan|err]] eqn:Hrun; [|vm_compute in Hrun; discriminate].
  exists db', plan. split; [reflexivity|].
  destruct (plan_accounts_for_every_file plain_env "rec_1" (docs [leaf_file "a" 5 "h"; leaf_file "b" 2 "k"])
    (Some stored_docs) "root" db' plan) as (_ & Hfiles & _); [by cbn|reflexivity|exact Hrun|exact Hfiles].
Defined.


Lemma same_size_change_is_skipped_witness :
  exists plan, ReconcileTree plain_env "rec_1" (Some (docs [leaf_file "notes.txt" 9 "old"]))
    (Some (mkRemote [mkFolderRow "f7" 1 "" "docs"] [mkFileRow "1" 1 "f7" "notes.txt" "" 9 "" "new" false])) "root"
    = (Some (mkRemote [mkFolderRow "f7" 1 "" "docs"] [mkFileRow "1" 1 "f7" "notes.txt" "" 9 "" "new" false]), Ok plan)
    /\ MissingFiles (Summary plan) = 0.
Proof.
  destruct (same_size_change_is_skipped plain_env "rec_1" "old" "new" 9 "1" "" "")
    as (plan & Hrun & Hm & _); [reflexivity|discriminate|discriminate|]. exists plan. split; [exact Hrun|exact Hm].
Defined.

Lemma refused_plan_leaves_folders_witness :
  DiffTree plain_env "rec_1" (Some ("root", "", Some (docs [leaf_file "a.bin" 100 "h"]))) (fun _ => false)
    false 50 0 None (Some (mkRemote [] []))
  = (None, Some (mkRemote [mkFolderRow "0" 1 "" "docs"] []), DiffError 413).
Proof.
  apply (refused_plan_leaves_folders plain_env "rec_1" 50 100 "h"); [reflexivity|reflexivity|reflexivity|lia|lia|discriminate].
Defined.

Lemma merkle_names_are_ambiguous_witness :
  Hash (ComputeDirectoryHash (docs [leaf_file "a:file:0:h;b" 2 "k"]))
  = Hash (ComputeDirectoryHash (docs [leaf_file "a" 0 "h"; leaf_file "b" 2 "k"])).
Proof. apply (merkle_names_are_ambiguous "h" "k"); discriminate. Defined.

(** When the folder is found but its rows cannot be read, the walk has no
    server folder: files are sent to the root of the drive, and the folders
    of the client are created there again. *)
Example unread_tree_goes_to_the_root :
  let e := mkRecEnv None ∅ (fun l => l) (fun n => FormatInt (Z.of_nat n)) true 1
             (mkReads true (mkQuery true None (fun _ => true)) fine_query fine_query (fun _ => true)) in
  exists plan db',
    ReconcileTree e "rec_1" (Some (docs [leaf_file "b" 2 "k"; mkNode "sub" "" NodeDir 0 "" "" "" "" []]))
      (Some stored_docs) "root" = (Some db', Ok plan) /\
    map (fun a => (ra_Action a, ra_TargetFolderID a)) (Actions plan) = [(ActionUploadNew, "")] /\
    rd_folders db' = rd_folders stored_docs ++ [mkFolderRow "0" 1 "" "sub"] /\
    RootFolderID plan = "f7".
Proof. eexists _, _. split; [vm_compute; reflexivity|]. by vm_compute. Qed.

End ReconcileWitnesses.
