(* ===== verification/Bitset.v ===== *)
(** * Block bitsets and the download journal (internal/download/state.go)

    A byte slice used as a bit vector, the record of completed blocks kept
    beside a partial download, and the check that the remote file is unchanged. *)

From S2P Require Import Prelude GoStrings FileSys.

#[local] Open Scope string_scope.
#[local] Open Scope list_scope.
#[local] Open Scope Z_scope.

(** ** Bitset *)

Record Bitset := mkBitset { bs_data : bytes; bs_size : Z }.

Definition num_bytes (size : Z) : Z := Z.quot (size + 7) 8.

Definition NewBitset (size : Z) : Bitset :=
  mkBitset (replicate (Z.to_nat (num_bytes size)) 0) size.

(** [copy] fills what both slices have. *)
Definition NewBitsetFromBytes (data : bytes) (size : Z) : Bitset :=
  let n := num_bytes size in
  mkBitset (ztake n data ++ replicate (Z.to_nat (n - zlen data)) 0) size.

Definition bit_of (index : Z) : Z := Z.shiftl 1 (index mod 8).

(** [1 << (uint(index) % 8)] and [^] are on a byte. *)
Definition update_byte (b : Bitset) (index : Z) (f : Z -> Z) : Bitset :=
  mkBitset (alter f (Z.to_nat (index / 8)) (bs_data b)) (bs_size b).

Definition out_of_range (b : Bitset) (index : Z) : bool := (index <? 0) || (bs_size b <=? index).

Definition Bitset_Set (b : Bitset) (index : Z) : Bitset :=
  if out_of_range b index then b
  else update_byte b index (fun x => Z.lor x (bit_of index)).

Definition Bitset_Clear (b : Bitset) (index : Z) : Bitset :=
  if out_of_range b index then b
  else update_byte b index (fun x => Z.land x (Z.lxor 255 (bit_of index))).

Definition bit_set (b : Bitset) (index : Z) : bool :=
  negb (Z.land (default 0 (bs_data b !! Z.to_nat (index / 8))) (bit_of index) =? 0).

Definition Bitset_IsSet (b : Bitset) (index : Z) : bool :=
  if out_of_range b index then false else bit_set b index.

Definition CompletedCount (b : Bitset) : Z :=
  foldl (fun count i => if bit_set b (Z.of_nat i) then count + 1 else count) 0
    (seq 0 (Z.to_nat (bs_size b))).

Definition Bitset_Bytes (b : Bitset) : bytes := bs_data b.

Definition IsAllSet (b : Bitset) : bool := CompletedCount b =? bs_size b.

(** ** DownloadState *)

Record DownloadState := mkState {
  TaskID : string;
  URL : string;
  ResolvedURL : string;
  ETag : string;
  LastModified : string;
  st_TotalBytes : Z;
  st_BlockSize : Z;
  st_TotalBlocks : Z;
  BitsetBytes : bytes;
  UpdatedAt : Z;
  st_bitset : option Bitset
}.

Definition set_bits (s : DownloadState) (b : option Bitset) (raw : bytes) (now : Z) : DownloadState :=
  mkState (TaskID s) (URL s) (ResolvedURL s) (ETag s) (LastModified s) (st_TotalBytes s)
    (st_BlockSize s) (st_TotalBlocks s) raw now b.

(** Go's division truncates; the sum wraps. *)
Definition block_count (totalBytes blockSize : Z) : Z :=
  let n := Z.quot (i64 (i64 (totalBytes + blockSize) - 1)) blockSize in
  if n <=? 0 then 1 else n.

Definition default_block (blockSize : Z) : Z :=
  if blockSize <=? 0 then 2 * 1024 * 1024 else blockSize.

Definition NewDownloadState (now : Z) (taskID url resolvedURL etag lastModified : string)
    (totalBytes blockSize : Z) : DownloadState :=
  let blockSize := default_block blockSize in
  let totalBlocks := block_count totalBytes blockSize in
  let bitset := NewBitset totalBlocks in
  mkState taskID url resolvedURL etag lastModified totalBytes blockSize totalBlocks
    (Bitset_Bytes bitset) now (Some bitset).

Definition MarkBlockCompleted (now : Z) (s : DownloadState) (blockIndex : Z) : DownloadState :=
  let bitset := default (NewBitsetFromBytes (BitsetBytes s) (st_TotalBlocks s)) (st_bitset s) in
  let bitset' := Bitset_Set bitset blockIndex in
  set_bits s (Some bitset') (Bitset_Bytes bitset') now.

(** The fields encoding/json sees: all but the mutex and the live bitset. *)
Class StateCodec := {
  state_json : DownloadState -> bytes;
  state_of_json : bytes -> option DownloadState
}.

Definition json_fields (s : DownloadState) : DownloadState :=
  set_bits s None (BitsetBytes s) (UpdatedAt s).

Definition state_text (s : DownloadState) : bool :=
  forallb (string_forallb (fun c => byte_of_ascii c <? 128))
    [TaskID s; URL s; ResolvedURL s; ETag s; LastModified s].

Class StateCodecLaws `{StateCodec} : Prop := {
  state_roundtrip s : state_text s = true -> state_of_json (state_json s) = Some (json_fields s)
}.

(** filepath.Dir is only used for MkdirAll, whose outcome is [mkdir_ok]. *)
Definition SaveState `{StateCodec} (env : os_env) (fs : FS) (s : DownloadState) (filePath : string)
  : DownloadState * FS * option gerror :=
  let raw := match st_bitset s with Some b => Bitset_Bytes b | None => BitsetBytes s end in
  let s' := set_bits s (st_bitset s) raw (env_now env) in
  if negb (mkdir_ok env) then (s', fs, Some (err_os "mkdir"))
  else
    let tmpFile := filePath +:+ ".tmp" in
    match fs_write env fs tmpFile (state_json s') with
    | (fs1, Some e) => (s', fs1, Some e)
    | (fs1, None) =>
        match fs_rename env fs1 tmpFile filePath with
        | Some fs2 => (s', fs2, None)
        | None => (s', fs1, Some (err_os "rename"))
        end
    end.

Definition LoadDownloadState `{StateCodec} (env : os_env) (fs : FS) (filePath : string)
  : result DownloadState :=
  match fs_read env fs filePath with
  | Err e => Err e
  | Ok data =>
      match state_of_json data with
      | None => Err (ErrMsg "corrupt download state file")
      | Some s =>
          Ok (set_bits s (Some (NewBitsetFromBytes (BitsetBytes s) (st_TotalBlocks s)))
                (BitsetBytes s) (UpdatedAt s))
      end
  end.

(** The preflight request and what the server answers. *)
Record head_request := mkHead { hr_url : string; hr_header : option (string * string) }.
Record head_response := mkHeadResp { hr_status : Z; hr_ContentLength : Z; hr_etag : string }.

Definition preflight (s : DownloadState) : head_request :=
  mkHead (if String.eqb (ResolvedURL s) "" then URL s else ResolvedURL s)
    (if negb (String.eqb (ETag s) "") then Some ("If-Match", ETag s)
     else if negb (String.eqb (LastModified s) "") then Some ("If-Unmodified-Since", LastModified s)
     else None).

(** [http]: the client's answer to a HEAD request; [None] is a failed one. *)
Definition ValidateRemoteIntegrity (http : head_request -> option head_response) (s : DownloadState)
  : result bool :=
  match http (preflight s) with
  | None => Err (ErrMsg "request failed")
  | Some r =>
      if hr_status r =? 412 then Ok false
      else if (hr_status r =? 200) || (hr_status r =? 206) then
        if (0 <? st_TotalBytes s) && (0 <? hr_ContentLength r)
           && negb (hr_ContentLength r =? st_TotalBytes s)
        then Ok false
        else if negb (String.eqb (ETag s) "") && negb (String.eqb (hr_etag r) "")
                && negb (String.eqb (hr_etag r) (ETag s))
        then Ok false
        else Ok true
      else Err (ErrMsg "unexpected preflight status code")
  end.

(** ** Facts *)

(** The data has the bytes its size calls for. *)
Definition bitset_ok (b : Bitset) : Prop :=
  0 <= bs_size b /\ zlen (bs_data b) = num_bytes (bs_size b).

Lemma num_bytes_covers size i : 0 <= i < size -> i / 8 < num_bytes size.
Proof.
  intros Hi. unfold num_bytes. rewrite Z.quot_div_nonneg by lia.
  apply Z.div_lt_upper_bound; [lia|]. pose proof (Z.div_mod (size + 7) 8). pose proof (Z.mod_pos_bound (size + 7) 8). lia.
Qed.

Lemma num_bytes_nonneg size : 0 <= size -> 0 <= num_bytes size.
Proof. intros. unfold num_bytes. apply Z.quot_pos; lia. Qed.

Lemma NewBitset_ok size : 0 <= size -> bitset_ok (NewBitset size).
Proof.
  intros Hs. split; [done|]. cbn. unfold zlen. rewrite length_replicate, Z2Nat.id; [done|].
  by apply num_bytes_nonneg.
Qed.

Lemma FromBytes_ok data size : 0 <= size -> bitset_ok (NewBitsetFromBytes data size).
Proof.
  intros Hs. split; [done|]. cbn. rewrite zlen_app, zlen_ztake. unfold zlen at 2.
  rewrite length_replicate. pose proof (num_bytes_nonneg _ Hs). pose proof (zlen_nonneg data). lia.
Qed.

(** Copying the bytes of a bitset restores it. *)
Lemma FromBytes_Bytes b : bitset_ok b -> NewBitsetFromBytes (Bitset_Bytes b) (bs_size b) = b.
Proof.
  intros [Hs Hl]. destruct b as [d n]. unfold NewBitsetFromBytes, Bitset_Bytes. cbn in *.
  rewrite ztake_all by lia. rewrite Hl, Z.sub_diag. cbn. by rewrite app_nil_r.
Qed.

Lemma in_range_spec b i : out_of_range b i = false <-> 0 <= i < bs_size b.
Proof. unfold out_of_range. lia. Qed.

Lemma bit_of_testbit x i : Z.land x (bit_of i) =? 0 = negb (Z.testbit x (i mod 8)).
Proof.
  unfold bit_of. pose proof (Z.mod_pos_bound i 8 ltac:(lia)) as Hm.
  rewrite Z.shiftl_1_l. destruct (Z.testbit x (i mod 8)) eqn:Ht; cbn.
  - apply Z.eqb_neq. intros He. apply (f_equal (fun y => Z.testbit y (i mod 8))) in He.
    rewrite Z.land_spec, Ht, Z.pow2_bits_true, Z.bits_0 in He by lia. done.
  - apply Z.eqb_eq, Z.bits_inj'. intros j Hj. rewrite Z.land_spec, Z.bits_0.
    destruct (Z.eq_dec (i mod 8) j) as [<-|Hne]; [by rewrite Ht|].
    rewrite Z.pow2_bits_false by lia. apply andb_false_r.
Qed.

Lemma bit_set_testbit b i :
  bit_set b i = Z.testbit (default 0 (bs_data b !! Z.to_nat (i / 8))) (i mod 8).
Proof. unfold bit_set. rewrite bit_of_testbit. by rewrite negb_involutive. Qed.

Lemma byte_index_inj i j :
  0 <= i -> 0 <= j -> Z.to_nat (i / 8) = Z.to_nat (j / 8) -> i mod 8 = j mod 8 -> i = j.
Proof.
  intros Hi Hj Hd Hm. pose proof (Z.div_pos i 8). pose proof (Z.div_pos j 8).
  pose proof (Z.div_mod i 8). pose proof (Z.div_mod j 8). lia.
Qed.

Lemma bit_set_update b i j f :
  bitset_ok b -> 0 <= i < bs_size b -> 0 <= j ->
  bit_set (update_byte b i f) j =
    if decide (Z.to_nat (i / 8) = Z.to_nat (j / 8))
    then Z.testbit (f (default 0 (bs_data b !! Z.to_nat (j / 8)))) (j mod 8)
    else bit_set b j.
Proof.
  intros [Hs Hl] Hi Hj. rewrite !bit_set_testbit. cbn. case_decide as Hd.
  - rewrite <- Hd, list_lookup_alter. rewrite decide_True by done.
    pose proof (num_bytes_covers _ _ Hi). pose proof (Z.div_pos i 8). unfold zlen in Hl.
    destruct (lookup_lt_is_Some_2 (bs_data b) (Z.to_nat (i / 8))) as [x ->]; [lia|done].
  - rewrite list_lookup_alter_ne by done. done.
Qed.

Lemma testbit_lor_bit x i k :
  Z.testbit (Z.lor x (bit_of i)) (k mod 8) = Z.testbit x (k mod 8) || (k mod 8 =? i mod 8).
Proof.
  pose proof (Z.mod_pos_bound i 8 ltac:(lia)). pose proof (Z.mod_pos_bound k 8 ltac:(lia)).
  unfold bit_of. rewrite Z.lor_spec, Z.shiftl_1_l, Z.pow2_bits_eqb by lia. f_equal. apply Z.eqb_sym.
Qed.

Lemma testbit_clear_bit x i k :
  Z.testbit (Z.land x (Z.lxor 255 (bit_of i))) (k mod 8) = Z.testbit x (k mod 8) && negb (k mod 8 =? i mod 8).
Proof.
  pose proof (Z.mod_pos_bound i 8 ltac:(lia)). pose proof (Z.mod_pos_bound k 8 ltac:(lia)).
  unfold bit_of. rewrite Z.land_spec, Z.lxor_spec, Z.shiftl_1_l, Z.pow2_bits_eqb by lia.
  change 255 with (Z.ones 8). rewrite Z.ones_spec_low by lia. f_equal.
  rewrite Z.eqb_sym. by destruct (_ =? _).
Qed.

Lemma same_byte_eqb i j :
  0 <= i -> 0 <= j -> Z.to_nat (i / 8) = Z.to_nat (j / 8) -> (j mod 8 =? i mod 8) = (j =? i).
Proof.
  intros Hi Hj Hd. destruct (Z.eqb_spec j i) as [->|Hne]; [by rewrite Z.eqb_refl|].
  apply Z.eqb_neq. intros Hm. apply Hne. by apply byte_index_inj.
Qed.

Lemma IsSet_Set b i j :
  bitset_ok b ->
  Bitset_IsSet (Bitset_Set b i) j = Bitset_IsSet b j || ((j =? i) && negb (out_of_range b i)).
Proof.
  intros Hok. unfold Bitset_Set. destruct (out_of_range b i) eqn:Hi.
  { by rewrite andb_false_r, orb_false_r. }
  pose proof (proj1 (in_range_spec b i) Hi) as Hr. unfold Bitset_IsSet.
  change (out_of_range (update_byte b i _) j) with (out_of_range b j).
  destruct (out_of_range b j) eqn:Hj.
  { destruct (Z.eqb_spec j i) as [->|]; [congruence|done]. }
  pose proof (proj1 (in_range_spec b j) Hj) as Hrj. rewrite bit_set_update by (done || lia).
  rewrite andb_true_r. case_decide as Hd.
  - rewrite testbit_lor_bit, same_byte_eqb, bit_set_testbit by (done || lia). done.
  - destruct (Z.eqb_spec j i) as [->|]; [done|]. by rewrite orb_false_r.
Qed.

Lemma IsSet_Clear b i j :
  bitset_ok b -> Bitset_IsSet (Bitset_Clear b i) j = Bitset_IsSet b j && negb (j =? i).
Proof.
  intros Hok. unfold Bitset_Clear. destruct (out_of_range b i) eqn:Hi.
  { unfold Bitset_IsSet. destruct (Z.eqb_spec j i) as [->|]; [by rewrite Hi|by rewrite andb_true_r]. }
  pose proof (proj1 (in_range_spec b i) Hi) as Hr. unfold Bitset_IsSet.
  change (out_of_range (update_byte b i _) j) with (out_of_range b j).
  destruct (out_of_range b j) eqn:Hj; [done|].
  pose proof (proj1 (in_range_spec b j) Hj) as Hrj. rewrite bit_set_update by (done || lia).
  case_decide as Hd.
  - rewrite testbit_clear_bit, same_byte_eqb, bit_set_testbit by (done || lia). done.
  - destruct (Z.eqb_spec j i) as [->|]; [done|]. by rewrite andb_true_r.
Qed.

Lemma update_byte_ok b i f : bitset_ok b -> bitset_ok (update_byte b i f).
Proof. intros [Hs Hl]. split; [done|]. cbn. unfold zlen. by rewrite length_alter. Qed.

Lemma Set_ok b i : bitset_ok b -> bitset_ok (Bitset_Set b i) /\ bs_size (Bitset_Set b i) = bs_size b.
Proof. intros Hok. unfold Bitset_Set. destruct (out_of_range b i); [done|]. split; [by apply update_byte_ok|done]. Qed.

Lemma Clear_ok b i : bitset_ok b -> bitset_ok (Bitset_Clear b i) /\ bs_size (Bitset_Clear b i) = bs_size b.
Proof. intros Hok. unfold Bitset_Clear. destruct (out_of_range b i); [done|]. split; [by apply update_byte_ok|done]. Qed.

(** The indices that are set. *)
Definition set_indices (b : Bitset) : list nat :=
  List.filter (fun i => Bitset_IsSet b (Z.of_nat i)) (seq 0 (Z.to_nat (bs_size b))).

Lemma count_filter {A} (p : A -> bool) l n :
  foldl (fun count i => if p i then count + 1 else count) n l = n + zlen (List.filter p l).
Proof.
  revert n. induction l as [|x l IH]; intros n; cbn; [unfold zlen; cbn; lia|].
  rewrite IH. destruct (p x); rewrite ?zlen_cons; lia.
Qed.

Lemma CompletedCount_indices b : CompletedCount b = zlen (set_indices b).
Proof.
  unfold CompletedCount, set_indices. rewrite count_filter, Z.add_0_l. f_equal. apply filter_ext_in.
  intros i Hi%in_seq. unfold Bitset_IsSet. rewrite (proj2 (in_range_spec b (Z.of_nat i))) by lia. done.
Qed.

Lemma filter_full {A} (p : A -> bool) l :
  zlen (List.filter p l) = zlen l <-> Forall (fun x => p x = true) l.
Proof.
  induction l as [|x l IH]; [by split|]. cbn [List.filter]. rewrite Forall_cons, <- IH.
  pose proof (filter_length_le p l). unfold zlen in *. destruct (p x); cbn [length]; intuition (try done; try lia).
Qed.

Lemma NewBitset_clear size j : Bitset_IsSet (NewBitset size) j = false.
Proof.
  unfold Bitset_IsSet. destruct (out_of_range _ _); [done|]. rewrite bit_set_testbit. cbn.
  destruct (_ !! _) as [x|] eqn:Hx; cbn; [|apply Z.bits_0].
  apply list_elem_of_lookup_2, elem_of_replicate in Hx as [-> _]. apply Z.bits_0.
Qed.

(** The bitset is the set it stands for: setting and clearing change
    exactly the bit named (and nothing out of range), the count is the
    number of bits set, all are set exactly when the count reaches the size, and its bytes
    restore it. *)
Theorem bitset_exact b i j :
  bitset_ok b ->
  Bitset_IsSet (Bitset_Set b i) j = Bitset_IsSet b j || ((j =? i) && (0 <=? i) && (i <? bs_size b)) /\
  Bitset_IsSet (Bitset_Clear b i) j = Bitset_IsSet b j && negb (j =? i) /\
  CompletedCount b = zlen (set_indices b) /\
  (IsAllSet b = true <-> forall k, 0 <= k < bs_size b -> Bitset_IsSet b k = true) /\
  NewBitsetFromBytes (Bitset_Bytes b) (bs_size b) = b.
Proof.
  intros Hok. split; [rewrite IsSet_Set by done; f_equal; rewrite <- andb_assoc; f_equal; unfold out_of_range; lia|].
  split; [by apply IsSet_Clear|]. split; [apply CompletedCount_indices|].
  split; [|by apply FromBytes_Bytes]. unfold IsAllSet. rewrite CompletedCount_indices, Z.eqb_eq.
  pose proof (proj1 Hok) as Hs.
  assert (zlen (seq 0 (Z.to_nat (bs_size b))) = bs_size b) as Hlen
    by (unfold zlen; rewrite length_seq; lia).
  rewrite <- Hlen at 1. unfold set_indices. rewrite filter_full, List.Forall_forall. split.
  - intros Hf k Hk. rewrite <- (Z2Nat.id k) by lia. apply Hf, in_seq. lia.
  - intros Hf x Hx%in_seq. apply Hf. lia.
Qed.

(** ** The journal *)

Definition journal_ok (s : DownloadState) : Prop :=
  exists b, st_bitset s = Some b /\ bitset_ok b /\ bs_size b = st_TotalBlocks s.

(** The blocks a state has recorded. *)
Definition block_done (s : DownloadState) (i : Z) : bool :=
  match st_bitset s with Some b => Bitset_IsSet b i | None => false end.

Lemma NewDownloadState_ok now t u r e l total bs : journal_ok (NewDownloadState now t u r e l total bs).
Proof.
  eexists. split; [done|]. split; [|done]. apply NewBitset_ok. unfold block_count.
  destruct (_ <=? 0) eqn:He; lia.
Qed.

Lemma Mark_ok now s i :
  journal_ok s -> journal_ok (MarkBlockCompleted now s i) /\
  st_TotalBlocks (MarkBlockCompleted now s i) = st_TotalBlocks s /\
  forall j, block_done (MarkBlockCompleted now s i) j
            = block_done s j || ((j =? i) && (0 <=? i) && (i <? st_TotalBlocks s)).
Proof.
  intros (b & Hb & Hok & Hsz). unfold MarkBlockCompleted, block_done. rewrite Hb. cbn.
  destruct (Set_ok b i Hok) as [Hok' Hsz']. split; [|split; [done|]].
  - eexists. split; [done|]. split; [done|]. cbn. congruence.
  - intros j. rewrite IsSet_Set by done. f_equal. rewrite <- andb_assoc. f_equal.
    unfold out_of_range. rewrite Hsz. lia.
Qed.

(** A saved journal is read back with exactly the blocks it had recorded,
    recording a block changes that block alone, and a save that fails for
    any reason leaves the journal that was there. *)
Theorem journal_roundtrip `{StateCodecLaws} env fs s path s' fs' :
  journal_ok s -> state_text s = true ->
  SaveState env fs s path = (s', fs', None) -> read_ok env = true ->
  exists t, LoadDownloadState env fs' path = Ok t /\
    (forall i, block_done t i = block_done s i) /\
    journal_ok t /\ (st_TotalBytes t, st_BlockSize t, ETag t, URL t, ResolvedURL t)
                   = (st_TotalBytes s, st_BlockSize s, ETag s, URL s, ResolvedURL s) /\
    (forall now i j, block_done (MarkBlockCompleted now t i) j
       = block_done s j || ((j =? i) && (0 <=? i) && (i <? st_TotalBlocks s))) /\
    (forall env2 s2 s3 fs3 e, SaveState env2 fs' s2 path = (s3, fs3, Some e) -> fs3 !! path = fs' !! path).
Proof.
  intros Hj Htext Hsave Hread. unfold SaveState in Hsave.
  destruct Hj as (b & Hb & Hok & Hsz). rewrite Hb in Hsave.
  set (s1 := set_bits s (Some b) (Bitset_Bytes b) (env_now env)) in *.
  destruct (negb (mkdir_ok env)); [done|].
  destruct (fs_write env fs (path +:+ ".tmp") (state_json s1)) as [fs1 [e|]] eqn:Hw; [done|].
  destruct (fs_rename env fs1 (path +:+ ".tmp") path) as [fs2|] eqn:Hr; [|done].
  injection Hsave as <- <-.
  unfold fs_write in Hw. destruct (create_ok env); [|done]. destruct (copy_fails env); [done|].
  injection Hw as <-. unfold fs_rename in Hr. rewrite lookup_insert_eq in Hr.
  destruct (rename_ok env); [|done]. injection Hr as <-.
  assert (state_of_json (state_json s1) = Some (json_fields s1)) as Hjs by by apply state_roundtrip.
  unfold LoadDownloadState, fs_read. rewrite lookup_insert_eq, Hread. cbn [f_data]. rewrite Hjs.
  eexists. split; [done|]. cbn [json_fields set_bits BitsetBytes st_TotalBlocks s1].
  rewrite <- Hsz, FromBytes_Bytes by done.
  set (t := set_bits _ _ _ _).
  assert (forall i, block_done t i = block_done s i) as Hd by (intros i; unfold block_done; by rewrite Hb).
  assert (journal_ok t) as Hjt by (exists b; by split; [|split; [|exact Hsz]]).
  split; [done|]. split; [done|]. split; [done|]. split.
  - intros now i j. destruct (Mark_ok now t i Hjt) as (_ & _ & ->). by rewrite Hd, Hsz.
  - intros env2 s2 s3 fs3 e Hs. unfold SaveState in Hs.
    set (fs0 := <[path := _]> _) in Hs.
    assert (fs0 !! path = Some (mkFile (state_json s1) (env_now env))) as Hp by apply lookup_insert_eq.
    rewrite <- Hp. clearbody fs0.
    cbv zeta in Hs. destruct (negb (mkdir_ok env2)); [by injection Hs as _ <- _|].
    assert (path +:+ ".tmp" <> path) as Hne.
    { intros He. apply (f_equal String.length) in He. rewrite length_str_app in He. cbn in He. lia. }
    unfold fs_write in Hs. destruct (create_ok env2); [|by injection Hs as _ <- _].
    destruct (copy_fails env2); [injection Hs as _ <- _; by rewrite lookup_insert_ne|].
    destruct (fs_rename _ _ _ _); [done|]. injection Hs as _ <- _. by rewrite lookup_insert_ne.
Qed.

(** ** Witnesses *)

Definition toy_bits : Bitset := Bitset_Set (Bitset_Set (NewBitset 11) 2) 9.

Lemma bitset_exact_witness :
  Bitset_IsSet (Bitset_Set toy_bits 8) 9 = true /\ IsAllSet toy_bits = false.
Proof.
  assert (bitset_ok toy_bits) as Hok by (split; [vm_compute; discriminate|vm_compute; reflexivity]).
  destruct (bitset_exact toy_bits 8 9 Hok) as (Hset & _). split; [exact Hset|vm_compute; reflexivity].
Defined.

Module ToyJournal.

Definition state_tuple (s : DownloadState) :=
  (TaskID s, URL s, ResolvedURL s, ETag s, LastModified s, st_TotalBytes s, st_BlockSize s,
   st_TotalBlocks s, BitsetBytes s, UpdatedAt s).

Definition state_of_tuple
    (t : string * string * string * string * string * Z * Z * Z * bytes * Z) :=
  let '(a, b, c, d, e, f, g, h, i, j) := t in mkState a b c d e f g h i j None.

#[export] Instance toy_journal : StateCodec := {
  state_json s := [Z.pos (encode (state_tuple s))];
  state_of_json b :=
    match b with
    | [Z.pos p] => state_of_tuple <$> decode p
    | _ => None
    end
}.

#[export] Instance toy_journal_laws : StateCodecLaws.
Proof.
  split. intros s _. unfold state_of_json, state_json, toy_journal. rewrite decode_encode. by destruct s.
Qed.

Definition toy_state : DownloadState :=
  MarkBlockCompleted 6 (NewDownloadState 5 "t1" "http://h/f" "http://h/f" "" "" 10 4) 1.

Lemma toy_state_ok : journal_ok toy_state.
Proof. apply Mark_ok, NewDownloadState_ok. Qed.

End ToyJournal.

Section BitsetWitnesses.
Import ToyJournal.

Lemma journal_roundtrip_witness :
  exists s' fs' t, SaveState (env_fine 9) ∅ toy_state "dl/t1.state" = (s', fs', None) /\
    LoadDownloadState (env_fine 9) fs' "dl/t1.state" = Ok t /\
    block_done t 1 = true /\ block_done t 0 = false.
Proof.
  destruct (SaveState (env_fine 9) ∅ toy_state "dl/t1.state") as [[s' fs'] [e|]] eqn:Hs; [discriminate Hs|].
  destruct (journal_roundtrip (env_fine 9) ∅ toy_state "dl/t1.state" s' fs')
    as (t & Hload & Hbits & _); [apply toy_state_ok|reflexivity|exact Hs|reflexivity|].
  exists s', fs', t. split; [reflexivity|]. split; [exact Hload|]. by rewrite !Hbits.
Defined.

End BitsetWitnesses.
