(* ===== verification/Pieces.v ===== *)
(** * Segmented downloads: the piece coordinator and its workers
    (internal/download/accelerated.go)

    A file is cut into pieces that a pool of workers claims, fetches by range
    request and writes in place.  The coordinator and the downloader's set-up
    are functions; the pool is a transition system over them, one event per
    atomic action of a worker. *)

From S2P Require Import Prelude GoStrings FileSys Bitset.

#[local] Open Scope string_scope.
#[local] Open Scope list_scope.
#[local] Open Scope Z_scope.

(** ** Configuration *)

Record AcceleratedConfig := mkConfig {
  MaxConnections : Z;
  MinBlockSize : Z;
  MaxBlockSize : Z;
  MinAccelerationBytes : Z;
  StallTimeout : Z;
  MaxRetriesPerBlock : Z
}.

Definition second : Z := 1000000000.

Definition DefaultAcceleratedConfig : AcceleratedConfig :=
  mkConfig 20 (1 * 1024 * 1024) (8 * 1024 * 1024) (5 * 1024 * 1024) (12 * second) 4.

Definition override (v d : Z) : Z := if 0 <? v then v else d.

(** The configuration NewAcceleratedDownloader keeps. *)
Definition NewAcceleratedDownloader (config : option AcceleratedConfig) : AcceleratedConfig :=
  let d := DefaultAcceleratedConfig in
  match config with
  | None => d
  | Some c =>
      mkConfig (override (MaxConnections c) (MaxConnections d))
        (override (MinBlockSize c) (MinBlockSize d)) (override (MaxBlockSize c) (MaxBlockSize d))
        (override (MinAccelerationBytes c) (MinAccelerationBytes d))
        (override (StallTimeout c) (StallTimeout d))
        (override (MaxRetriesPerBlock c) (MaxRetriesPerBlock d))
  end.

Definition ComputeDynamicBlockSize (totalBytes minBlock maxBlock : Z) : Z :=
  if totalBytes <=? 0 then minBlock
  else
    let calculated := Z.quot totalBytes 64 in
    if calculated <? minBlock then minBlock
    else if maxBlock <? calculated then maxBlock
    else calculated.

(** ** Pieces *)

Inductive PieceStatus := PiecePending | PieceInFlight | PieceCompleted | PieceFailed.

#[export] Instance PieceStatus_eq_dec : EqDecision PieceStatus.
Proof. solve_decision. Defined.

Record Piece := mkPiece {
  Index : Z;
  StartOffset : Z;
  EndOffset : Z;
  Length : Z;
  PStatus : PieceStatus;
  WorkerID : Z;
  Attempts : Z;
  LastActive : Z
}.

Record PieceCoordinator := mkCoord {
  pieces : list Piece;
  completed : Z;
  totalBytes : Z;
  totalPieces : Z;
  stallTimeout : Z;
  maxRetries : Z
}.

Definition set_pieces (pc : PieceCoordinator) (l : list Piece) : PieceCoordinator :=
  mkCoord l (completed pc) (totalBytes pc) (totalPieces pc) (stallTimeout pc) (maxRetries pc).

Definition count_completed (pc : PieceCoordinator) : PieceCoordinator :=
  mkCoord (pieces pc) (completed pc + 1) (totalBytes pc) (totalPieces pc) (stallTimeout pc) (maxRetries pc).

Definition with_status (s : PieceStatus) (p : Piece) : Piece :=
  mkPiece (Index p) (StartOffset p) (EndOffset p) (Length p) s (WorkerID p) (Attempts p) (LastActive p).

Definition assign (workerID now : Z) (p : Piece) : Piece :=
  mkPiece (Index p) (StartOffset p) (EndOffset p) (Length p) PieceInFlight workerID (Attempts p + 1) now.

Definition touch (now : Z) (p : Piece) : Piece :=
  mkPiece (Index p) (StartOffset p) (EndOffset p) (Length p) (PStatus p) (WorkerID p) (Attempts p) now.

(** One iteration of the loop that lays the pieces out. *)
Definition new_piece (totalBytes blockSize : Z) (i : nat) : Piece :=
  let start := i64 (Z.of_nat i * blockSize) in
  let stop := i64 (start + blockSize - 1) in
  let stop := if totalBytes <=? stop then totalBytes - 1 else stop in
  mkPiece (Z.of_nat i) start stop (stop - start + 1) PiecePending 0 0 0.

Definition NewPieceCoordinator (totalBytes blockSize stallTimeout maxRetries : Z) : PieceCoordinator :=
  let blockSize := default_block blockSize in
  let n := block_count totalBytes blockSize in
  mkCoord (map (new_piece totalBytes blockSize) (seq 0 (Z.to_nat n))) 0 totalBytes n stallTimeout maxRetries.

Definition apply_bit (b : Bitset) (st : PieceCoordinator * Z) (i : nat) : PieceCoordinator * Z :=
  let '(pc, restored) := st in
  if Bitset_IsSet b (Z.of_nat i) then
    match pieces pc !! i with
    | Some p =>
        (count_completed (set_pieces pc (<[i := with_status PieceCompleted p]> (pieces pc))),
         restored + Length p)
    | None => st
    end
  else st.

(** The coordinator and the bytes restored. *)
Definition ApplyBitset (pc : PieceCoordinator) (b : Bitset) : PieceCoordinator * Z :=
  foldl (apply_bit b) (pc, 0) (seq 0 (Z.to_nat (Z.min (totalPieces pc) (bs_size b)))).

Fixpoint find_index (f : Piece -> bool) (l : list Piece) : option nat :=
  match l with
  | [] => None
  | p :: l' => if f p then Some O else S <$> find_index f l'
  end.

Definition is_pending (p : Piece) : bool := bool_decide (PStatus p = PiecePending).

Definition is_stalled (stall maxRetries workerID now : Z) (p : Piece) : bool :=
  bool_decide (PStatus p = PieceInFlight) && negb (WorkerID p =? workerID)
  && (stall <? now - LastActive p) && (Attempts p <? maxRetries).

(** The coordinator and the index of the piece handed out. *)
Definition NextPiece (pc : PieceCoordinator) (workerID now : Z) : PieceCoordinator * option nat :=
  let hand i := (set_pieces pc (alter (assign workerID now) i (pieces pc)), Some i) in
  match find_index is_pending (pieces pc) with
  | Some i => hand i
  | None =>
      match find_index (is_stalled (stallTimeout pc) (maxRetries pc) workerID now) (pieces pc) with
      | Some i => hand i
      | None => (pc, None)
      end
  end.

Definition in_pieces (pc : PieceCoordinator) (index : Z) : bool :=
  (0 <=? index) && (index <? zlen (pieces pc)).

Definition MarkCompleted (pc : PieceCoordinator) (index : Z) : PieceCoordinator :=
  if in_pieces pc index then
    match pieces pc !! Z.to_nat index with
    | Some p =>
        if bool_decide (PStatus p = PieceCompleted) then pc
        else count_completed (set_pieces pc (<[Z.to_nat index := with_status PieceCompleted p]> (pieces pc)))
    | None => pc
    end
  else pc.

Definition RequeuePiece (pc : PieceCoordinator) (index : Z) : PieceCoordinator :=
  if in_pieces pc index then
    match pieces pc !! Z.to_nat index with
    | Some p =>
        if bool_decide (PStatus p = PieceCompleted) then pc
        else
          let s := if maxRetries pc <=? Attempts p then PieceFailed else PiecePending in
          set_pieces pc (<[Z.to_nat index := with_status s p]> (pieces pc))
    | None => pc
    end
  else pc.

Definition TouchPiece (pc : PieceCoordinator) (index now : Z) : PieceCoordinator :=
  if in_pieces pc index then set_pieces pc (alter (touch now) (Z.to_nat index) (pieces pc)) else pc.

Definition IsCompleted (pc : PieceCoordinator) : bool := totalPieces pc <=? completed pc.

Definition Progress (pc : PieceCoordinator) : Z * Z := (completed pc, totalPieces pc).

(** ** Set-up of a download (DownloadToFile, lines 285-317) *)

(** The files on disk: [os.File.Truncate] and [WriteAt]. *)
Definition truncate_file (f : bytes) (n : Z) : bytes :=
  ztake n f ++ replicate (Z.to_nat (n - zlen f)) 0.

Definition write_at (f : bytes) (off : Z) (d : bytes) : bytes :=
  truncate_file f off ++ d ++ zdrop (off + zlen d) f.

(** The range request of a piece. *)
Definition range_header (p : Piece) : string :=
  "bytes=" +:+ FormatInt (StartOffset p) +:+ "-" +:+ FormatInt (EndOffset p).

(** A saved journal is used when it names the same total and the remote file
    validates. *)
Definition choose_state (now : Z) (cfg : AcceleratedConfig) (taskID url execURL finalURL : string)
    (total : Z) (saved : option (DownloadState * bool)) : DownloadState :=
  let fresh := NewDownloadState now taskID url execURL finalURL "" total
                 (ComputeDynamicBlockSize total (MinBlockSize cfg) (MaxBlockSize cfg)) in
  match saved with
  | Some (s, valid) => if (st_TotalBytes s =? total) && valid then s else fresh
  | None => fresh
  end.

Definition live_bits (s : DownloadState) : Bitset := default (NewBitset 0) (st_bitset s).

(** The coordinator and the bytes counted as already downloaded. *)
Definition start_coordinator (cfg : AcceleratedConfig) (total : Z) (s : DownloadState)
  : PieceCoordinator * Z :=
  let pc := NewPieceCoordinator total
              (ComputeDynamicBlockSize total (MinBlockSize cfg) (MaxBlockSize cfg))
              (StallTimeout cfg) (MaxRetriesPerBlock cfg) in
  if 0 <? CompletedCount (live_bits s) then ApplyBitset pc (live_bits s) else (pc, 0).

(** How many workers are started. *)
Definition worker_count (cfg : AcceleratedConfig) (maxThreads : option Z) (pc : PieceCoordinator) : Z :=
  let n := match maxThreads with Some t => override t (MaxConnections cfg) | None => MaxConnections cfg end in
  let n := if n <=? 0 then 20 else n in
  let n := if 32 <? n then 32 else n in
  if totalPieces pc <? n then totalPieces pc else n.

(** ** The worker pool *)

(** A request in progress: the piece, where the next byte goes, how many were
    read, and whether the piece has been marked completed already. *)
Record job := mkJob { j_index : nat; j_offset : Z; j_read : Z; j_marked : bool }.

Record pool := mkPool {
  po_coord : PieceCoordinator;
  po_state : DownloadState;
  po_file : bytes;
  po_jobs : gmap Z job;
  po_journal : option DownloadState
}.

(** What a worker, or the periodic saver, does next. *)
Inductive pool_event :=
| Take (worker now : Z)
| Receive (worker now : Z) (data : bytes)
| Finish (worker : Z)
| Record (worker now : Z)
| FailPiece (worker : Z)
| SaveJournal (now : Z).

Definition set_coord (s : pool) (pc : PieceCoordinator) (jobs : gmap Z job) : pool :=
  mkPool pc (po_state s) (po_file s) jobs (po_journal s).

(** [None]: the event cannot happen in this state. *)
Definition pool_step (s : pool) (ev : pool_event) : option pool :=
  match ev with
  | Take w now =>
      match po_jobs s !! w with
      | Some _ => None
      | None =>
          if IsCompleted (po_coord s) then None
          else
            match NextPiece (po_coord s) w now with
            | (pc, Some i) =>
                match pieces pc !! i with
                | Some p => Some (set_coord s pc (<[w := mkJob i (StartOffset p) 0 false]> (po_jobs s)))
                | None => None
                end
            | (_, None) => None
            end
      end
  | Receive w now d =>
      match po_jobs s !! w with
      | Some (mkJob i off n false) =>
          Some (mkPool (TouchPiece (po_coord s) (Z.of_nat i) now) (po_state s)
                  (write_at (po_file s) off d)
                  (<[w := mkJob i (off + zlen d) (n + zlen d) false]> (po_jobs s)) (po_journal s))
      | _ => None
      end
  | Finish w =>
      match po_jobs s !! w with
      | Some (mkJob i off n false) =>
          match pieces (po_coord s) !! i with
          | Some p =>
              if n =? Length p
              then Some (set_coord s (MarkCompleted (po_coord s) (Z.of_nat i))
                           (<[w := mkJob i off n true]> (po_jobs s)))
              else None
          | None => None
          end
      | _ => None
      end
  | Record w now =>
      match po_jobs s !! w with
      | Some (mkJob i _ _ true) =>
          Some (mkPool (po_coord s) (MarkBlockCompleted now (po_state s) (Z.of_nat i)) (po_file s)
                  (delete w (po_jobs s)) (po_journal s))
      | _ => None
      end
  | FailPiece w =>
      match po_jobs s !! w with
      | Some (mkJob i _ _ false) =>
          Some (set_coord s (RequeuePiece (po_coord s) (Z.of_nat i)) (delete w (po_jobs s)))
      | _ => None
      end
  | SaveJournal now => Some (mkPool (po_coord s) (po_state s) (po_file s) (po_jobs s) (Some (po_state s)))
  end.

Inductive reachable (P : pool -> pool_event -> Prop) (s0 : pool) : pool -> Prop :=
| reachable_start : reachable P s0 s0
| reachable_step s ev s' :
    reachable P s0 s -> P s ev -> pool_step s ev = Some s' -> reachable P s0 s'.

(** The pool a download starts from. *)
Definition start_pool (cfg : AcceleratedConfig) (total : Z) (st : DownloadState) (file : bytes) : pool :=
  mkPool (fst (start_coordinator cfg total st)) st (truncate_file file total) ∅ None.
