(* ===== verification/PiecesFacts.v ===== *)
(** * Facts about the piece coordinator and the worker pool

    Where the pieces lie, what each operation changes, and the invariant of
    the pool: completed pieces hold the remote bytes. *)

From S2P Require Import Prelude GoStrings FileSys Bitset Pieces.

#[local] Open Scope list_scope.
#[local] Open Scope Z_scope.

(** ** Layout *)

Definition shape (p : Piece) : Z * Z * Z * Z := (Index p, StartOffset p, EndOffset p, Length p).

(** Piece [i] of a file of [total] bytes in blocks of [bs]. *)
Definition shape_at (total bs : Z) (i : nat) : Z * Z * Z * Z :=
  let start := Z.of_nat i * bs in
  let stop := Z.min (start + bs) total - 1 in
  (Z.of_nat i, start, stop, stop - start + 1).

(** The sizes for which nothing wraps. *)
Definition sizes_ok (total bs : Z) : Prop := 0 < total /\ 0 < bs /\ total + bs < 2 ^ 62.

Lemma block_count_spec total bs :
  sizes_ok total bs -> block_count total bs = (total + bs - 1) / bs /\ 0 < block_count total bs.
Proof.
  intros (Ht & Hb & Hs). unfold block_count.
  rewrite (i64_id (total + bs)), i64_id by (unfold in_i64; lia). rewrite Z.quot_div_nonneg by lia.
  assert (0 < (total + bs - 1) / bs) as Hpos by (apply Z.div_str_pos; lia).
  destruct (Z.leb_spec ((total + bs - 1) / bs) 0); lia.
Qed.

(** The last block starts inside the file and the blocks reach its end. *)
Lemma block_count_bounds total bs :
  sizes_ok total bs -> (block_count total bs - 1) * bs < total <= block_count total bs * bs.
Proof.
  intros Hs. destruct (block_count_spec _ _ Hs) as [-> _]. destruct Hs as (Ht & Hb & _).
  pose proof (Z.div_mod (total + bs - 1) bs ltac:(lia)). pose proof (Z.mod_pos_bound (total + bs - 1) bs Hb). nia.
Qed.

Lemma new_piece_shape total bs i :
  sizes_ok total bs -> Z.of_nat i < block_count total bs ->
  shape (new_piece total bs i) = shape_at total bs i.
Proof.
  intros Hs Hi. pose proof (block_count_bounds _ _ Hs) as [Hl _]. destruct Hs as (Ht & Hb & Hlt).
  assert (Z.of_nat i * bs < total) as Hst by nia.
  unfold new_piece, shape, shape_at. cbn.
  rewrite (i64_id (Z.of_nat i * bs)) by (unfold in_i64; nia).
  rewrite i64_id by (unfold in_i64; nia).
  destruct (Z.leb_spec total (Z.of_nat i * bs + bs - 1)); repeat f_equal; lia.
Qed.

(** The geometry of a coordinator. *)
Definition laid_out (total bs : Z) (pc : PieceCoordinator) : Prop :=
  map shape (pieces pc) = map (shape_at total bs) (seq 0 (Z.to_nat (block_count total bs))) /\
  totalPieces pc = block_count total bs.

Lemma NewPieceCoordinator_laid_out total bs stall retries :
  sizes_ok total bs -> laid_out total bs (NewPieceCoordinator total bs stall retries).
Proof.
  intros Hs. unfold laid_out, NewPieceCoordinator, default_block. destruct (Z.leb_spec bs 0) as [|_].
  { destruct Hs; lia. }
  cbn [pieces totalPieces]. split; [|done]. rewrite map_map. apply map_ext_in. intros i Hi%in_seq.
  apply new_piece_shape; [done|]. destruct (block_count_spec _ _ Hs). lia.
Qed.

Lemma laid_out_lookup total bs pc i p :
  laid_out total bs pc -> pieces pc !! i = Some p ->
  shape p = shape_at total bs i /\ Z.of_nat i < totalPieces pc.
Proof.
  intros [Hm Hn] Hi. assert (map shape (pieces pc) !! i = Some (shape p)) as Hs
    by by rewrite list_lookup_fmap, Hi.
  rewrite Hm, list_lookup_fmap in Hs. destruct (seq 0 _ !! i) as [j|] eqn:Hj; [|done].
  apply lookup_seq in Hj as [-> Hlt]. cbn [fmap option_fmap option_map] in Hs.
  apply (inj Some) in Hs. split; [by rewrite <- Hs|lia].
Qed.

Lemma laid_out_length total bs pc :
  sizes_ok total bs -> laid_out total bs pc -> zlen (pieces pc) = totalPieces pc.
Proof.
  intros Hs [Hm ->]. apply (f_equal zlen) in Hm. unfold zlen in *.
  rewrite !length_map, length_seq in Hm. destruct (block_count_spec _ _ Hs). lia.
Qed.

(** Every byte of the file is in a piece. *)
Lemma laid_out_covers total bs pc k :
  sizes_ok total bs -> laid_out total bs pc -> 0 <= k < total ->
  exists i p, pieces pc !! i = Some p /\ StartOffset p <= k < StartOffset p + Length p.
Proof.
  intros Hs Hl Hk. pose proof (block_count_bounds _ _ Hs) as [_ Hb].
  pose proof (laid_out_length _ _ _ Hs Hl) as Hlen. destruct Hs as (Ht & Hbs & _).
  assert (0 <= k / bs < block_count total bs) as Hq.
  { split; [apply Z.div_pos; lia|]. apply Z.div_lt_upper_bound; lia. }
  destruct (lookup_lt_is_Some_2 (pieces pc) (Z.to_nat (k / bs))) as [p Hp].
  { destruct Hl as [_ Hn]. unfold zlen in Hlen. lia. }
  exists (Z.to_nat (k / bs)), p. split; [done|]. destruct (laid_out_lookup _ _ _ _ _ Hl Hp) as [Hsh _].
  unfold shape, shape_at in Hsh. rewrite Z2Nat.id in Hsh by lia. injection Hsh as _ Hst _ Hle.
  rewrite Hst, Hle. pose proof (Z.div_mod k bs ltac:(lia)). pose proof (Z.mod_pos_bound k bs Hbs). nia.
Qed.

(** ** Counting completed pieces *)

Definition comp (p : Piece) : bool := bool_decide (PStatus p = PieceCompleted).
Fixpoint done_count (l : list Piece) : Z :=
  match l with [] => 0 | p :: l' => Z.b2z (comp p) + done_count l' end.

Lemma done_count_insert l i p q :
  l !! i = Some p -> done_count (<[i := q]> l) = done_count l - Z.b2z (comp p) + Z.b2z (comp q).
Proof.
  revert i. induction l as [|x l IH]; intros [|i] Hi; try done; [injection Hi as ->; cbn; lia|].
  change (<[S i := q]> (x :: l)) with (x :: <[i := q]> l). cbn [done_count]. rewrite (IH i Hi). lia.
Qed.

Lemma done_count_le l : 0 <= done_count l <= zlen l.
Proof. induction l as [|p l IH]; cbn; [done|]. rewrite zlen_cons. destruct (comp p); cbn; lia. Qed.

Lemma done_count_full l : zlen l <= done_count l -> Forall (fun p => comp p = true) l.
Proof.
  induction l as [|p l IH]; intros Hl; [constructor|]. rewrite zlen_cons in Hl. cbn in Hl.
  pose proof (done_count_le l). destruct (comp p) eqn:Hp; cbn in Hl; [|lia]. constructor; [done|]. apply IH. lia.
Qed.

Lemma done_count_none l : Forall (fun p => comp p = false) l -> done_count l = 0.
Proof. induction 1 as [|p l Hp _ IH]; cbn; [done|]. by rewrite Hp. Qed.

Lemma alter_insert (f : Piece -> Piece) (i : nat) (l : list Piece) p : l !! i = Some p -> alter f i l = <[i := f p]> l.
Proof.
  revert i. induction l as [|x l IH]; intros [|i] Hi; try done; [by injection Hi as ->|].
  change (x :: alter f i l = x :: <[i := f p]> l). f_equal. by apply IH.
Qed.

(** ** What the operations change

    [updates pc i p q pc']: piece [i], which was [p], is now [q], and the
    count follows. *)
Definition updates (pc : PieceCoordinator) (i : nat) (p q : Piece) (pc' : PieceCoordinator) : Prop :=
  pieces pc !! i = Some p /\ pieces pc' = <[i := q]> (pieces pc) /\ shape q = shape p /\
  completed pc' = completed pc - Z.b2z (comp p) + Z.b2z (comp q) /\
  totalPieces pc' = totalPieces pc /\ maxRetries pc' = maxRetries pc /\ stallTimeout pc' = stallTimeout pc.

Lemma updates_laid_out total bs pc i p q pc' :
  updates pc i p q pc' -> laid_out total bs pc -> laid_out total bs pc'.
Proof.
  intros (Hi & Hp & Hs & _ & Hn & _) [Hm Ht]. split; [|by rewrite Hn]. rewrite Hp, list_fmap_insert, <- Hm, Hs.
  apply list_insert_id. by rewrite list_lookup_fmap, Hi.
Qed.

Lemma updates_count pc i p q pc' :
  updates pc i p q pc' -> completed pc = done_count (pieces pc) -> completed pc' = done_count (pieces pc').
Proof. intros (Hi & Hp & _ & Hc & _) He. rewrite Hp, (done_count_insert _ _ _ _ Hi), Hc. lia. Qed.

Lemma updates_lookup pc i p q pc' k x :
  updates pc i p q pc' -> pieces pc' !! k = Some x ->
  (k = i /\ x = q) \/ (k <> i /\ pieces pc !! k = Some x).
Proof.
  intros (Hi & Hp & _). rewrite Hp. destruct (decide (k = i)) as [->|Hne].
  - rewrite list_lookup_insert_eq by (by eapply lookup_lt_Some). intros [= <-]. by left.
  - rewrite list_lookup_insert_ne by done. by right.
Qed.

Lemma updates_lookup_to pc i p q pc' k x :
  updates pc i p q pc' -> pieces pc !! k = Some x ->
  exists y, pieces pc' !! k = Some y /\ shape y = shape x /\ (y = x \/ (k = i /\ y = q /\ x = p)).
Proof.
  intros (Hi & Hp & Hs & _) Hk. rewrite Hp. destruct (decide (k = i)) as [->|Hne].
  - rewrite list_lookup_insert_eq by (by eapply lookup_lt_Some). exists q.
    rewrite Hi in Hk. injection Hk as <-. split; [done|]. split; [done|]. by right.
  - rewrite list_lookup_insert_ne by done. exists x. split; [done|]. split; [done|by left].
Qed.

Lemma find_index_spec f l i : find_index f l = Some i -> exists p, l !! i = Some p /\ f p = true.
Proof.
  revert i. induction l as [|x l IH]; intros i Hf; [done|]. cbn in Hf. destruct (f x) eqn:Hx.
  - injection Hf as <-. by exists x.
  - destruct (find_index f l) as [j|] eqn:Hj; [|done]. injection Hf as <-. by apply IH.
Qed.

Lemma find_index_none f l : find_index f l = None <-> Forall (fun p => f p = false) l.
Proof.
  induction l as [|x l IH]; cbn; [by split|]. rewrite Forall_cons, <- IH.
  destruct (f x); [split; [done|by intros [? _]]|]. destruct (find_index f l); cbn; split; intuition done.
Qed.

Lemma NextPiece_updates pc w now pc' i :
  NextPiece pc w now = (pc', Some i) ->
  exists p, updates pc i p (assign w now p) pc' /\ comp p = false /\
    (PStatus p = PiecePending \/ (PStatus p = PieceInFlight /\ Attempts p < maxRetries pc)).
Proof.
  unfold NextPiece. destruct (find_index is_pending (pieces pc)) as [j|] eqn:Hj;
    [|destruct (find_index (is_stalled _ _ w now) (pieces pc)) as [k|] eqn:Hk; [|done]];
    intros [= <- <-].
  - destruct (find_index_spec _ _ _ Hj) as (p & Hp & Hpend). exists p.
    apply bool_decide_eq_true in Hpend. split; [|split; [by unfold comp; rewrite Hpend|by left]].
    split; [done|]. cbn. rewrite (alter_insert _ _ _ _ Hp). split; [done|]. split; [done|].
    assert (comp p = false) as -> by (unfold comp; by rewrite Hpend).
    change (comp (assign w now p)) with false. split; [cbn; lia|done].
  - destruct (find_index_spec _ _ _ Hk) as (p & Hp & Hst). exists p.
    unfold is_stalled in Hst. rewrite !andb_true_iff, bool_decide_eq_true, Z.ltb_lt in Hst.
    destruct Hst as [[[Hst _] _] Hatt]. apply Z.ltb_lt in Hatt || idtac.
    split; [|split; [by unfold comp; rewrite Hst|right; by split]].
    split; [done|]. cbn. rewrite (alter_insert _ _ _ _ Hp). split; [done|]. split; [done|].
    assert (comp p = false) as -> by (unfold comp; by rewrite Hst).
    change (comp (assign w now p)) with false. split; [cbn; lia|done].
Qed.

Lemma in_pieces_lookup pc i p : pieces pc !! i = Some p -> in_pieces pc (Z.of_nat i) = true.
Proof. intros Hi%lookup_lt_Some. unfold in_pieces, zlen. lia. Qed.

Lemma MarkCompleted_updates pc i p :
  pieces pc !! i = Some p ->
  exists q, updates pc i p q (MarkCompleted pc (Z.of_nat i)) /\ comp q = true /\ Attempts q = Attempts p.
Proof.
  intros Hi. unfold MarkCompleted. rewrite (in_pieces_lookup _ _ _ Hi), Nat2Z.id, Hi.
  case_bool_decide as Hc.
  - exists p. unfold comp. rewrite Hc. split; [|done]. split; [done|].
    split; [symmetry; by apply list_insert_id|]. split; [done|]. split; [lia|done].
  - exists (with_status PieceCompleted p). split; [|done]. split; [done|]. split; [done|]. split; [done|].
    assert (comp p = false) as -> by by apply bool_decide_eq_false.
    change (comp (with_status PieceCompleted p)) with true. split; [cbn; lia|done].
Qed.

Lemma RequeuePiece_updates pc i p :
  pieces pc !! i = Some p ->
  exists q, updates pc i p q (RequeuePiece pc (Z.of_nat i)) /\ comp q = comp p /\
    Attempts q = Attempts p /\
    (q = p /\ comp p = true \/
     PStatus q = (if maxRetries pc <=? Attempts p then PieceFailed else PiecePending)).
Proof.
  intros Hi. unfold RequeuePiece. rewrite (in_pieces_lookup _ _ _ Hi), Nat2Z.id, Hi.
  case_bool_decide as Hc.
  - exists p. split; [|split; [done|split; [done|left; split; [done|by apply bool_decide_eq_true]]]].
    split; [done|]. split; [symmetry; by apply list_insert_id|]. split; [done|]. split; [lia|done].
  - exists (with_status (if maxRetries pc <=? Attempts p then PieceFailed else PiecePending) p).
    assert (comp p = false) as Hp by by apply bool_decide_eq_false.
    assert (comp (with_status (if maxRetries pc <=? Attempts p then PieceFailed else PiecePending) p) = false)
      as Hq by (unfold comp; by destruct (_ <=? _)).
    split; [|split; [congruence|split; [done|by right]]].
    split; [done|]. split; [done|]. split; [done|]. rewrite Hp, Hq. cbn. split; [lia|done].
Qed.

Lemma TouchPiece_updates pc i p now :
  pieces pc !! i = Some p -> updates pc i p (touch now p) (TouchPiece pc (Z.of_nat i) now).
Proof.
  intros Hi. unfold TouchPiece. rewrite (in_pieces_lookup _ _ _ Hi), Nat2Z.id.
  split; [done|]. cbn. rewrite (alter_insert _ _ _ _ Hi). split; [done|]. split; [done|].
  unfold comp. cbn. split; [lia|done].
Qed.

(** ** Restoring a journal *)

Fixpoint done_bytes (l : list Piece) : Z :=
  match l with [] => 0 | p :: l' => (if comp p then Length p else 0) + done_bytes l' end.

Lemma done_bytes_insert (l : list Piece) (i : nat) p q :
  l !! i = Some p -> comp p = false -> comp q = true -> done_bytes (<[i := q]> l) = done_bytes l + Length q.
Proof.
  revert i. induction l as [|x l IH]; intros [|i] Hi Hp Hq; try done.
  - injection Hi as ->. cbn. rewrite Hp, Hq. lia.
  - change (<[S i := q]> (x :: l)) with (x :: <[i := q]> l). cbn [done_bytes].
    rewrite (IH i Hi Hp Hq). lia.
Qed.

Lemma done_bytes_none l : Forall (fun p => comp p = false) l -> done_bytes l = 0.
Proof. induction 1 as [|p l Hp _ IH]; cbn; [done|]. by rewrite Hp. Qed.

(** After the first [m] bits: those pieces follow their bits, the others are untouched. *)
Definition restored_to (b : Bitset) (m : nat) (pc0 : PieceCoordinator) (st : PieceCoordinator * Z) : Prop :=
  map shape (pieces (fst st)) = map shape (pieces pc0) /\ totalPieces (fst st) = totalPieces pc0 /\
  stallTimeout (fst st) = stallTimeout pc0 /\ maxRetries (fst st) = maxRetries pc0 /\
  completed (fst st) = done_count (pieces (fst st)) /\ snd st = done_bytes (pieces (fst st)) /\
  forall i p, pieces (fst st) !! i = Some p ->
    Attempts p = 0 /\ PStatus p <> PieceInFlight /\ PStatus p <> PieceFailed /\
    comp p = if decide (i < m)%nat then Bitset_IsSet b (Z.of_nat i) else false.

Definition untouched (pc : PieceCoordinator) : Prop :=
  completed pc = 0 /\ Forall (fun p => PStatus p = PiecePending /\ Attempts p = 0) (pieces pc).

Lemma untouched_restored b pc : untouched pc -> restored_to b 0 pc (pc, 0).
Proof.
  intros [Hc Hp]. assert (Forall (fun p => comp p = false) (pieces pc)) as Hn.
  { eapply Forall_impl; [exact Hp|]. intros p [Hs _]. unfold comp. by rewrite Hs. }
  unfold restored_to. cbn [fst snd]. rewrite (done_count_none _ Hn), (done_bytes_none _ Hn).
  do 6 (split; [done|]). intros i p Hi. rewrite Forall_lookup in Hp, Hn.
  destruct (Hp i p Hi) as [Hs ->]. rewrite Hs. split; [done|]. split; [done|]. split; [done|].
  rewrite decide_False by lia. by eapply Hn.
Qed.

Lemma restored_step b m pc0 st :
  restored_to b m pc0 st -> (m < length (pieces pc0))%nat -> restored_to b (S m) pc0 (apply_bit b st m).
Proof.
  destruct st as [pc r]. intros (Hm & Hn & Hs & Hr & Hc & Hd & Hp) Hlt. unfold apply_bit.
  cbn [fst snd] in *.
  assert (m < length (pieces pc))%nat as Hlt'.
  { apply (f_equal length) in Hm. rewrite !length_map in Hm. lia. }
  destruct (lookup_lt_is_Some_2 _ _ Hlt') as [p Hi]. rewrite Hi.
  destruct (Hp m p Hi) as (Hat & Hn1 & Hn2 & Hcp). rewrite decide_False in Hcp by lia.
  destruct (Bitset_IsSet b (Z.of_nat m)) eqn:Hb.
  - set (q := with_status PieceCompleted p). assert (comp q = true) as Hq by done.
    unfold restored_to. cbn [fst snd pieces count_completed set_pieces completed totalPieces stallTimeout maxRetries].
    split; [|do 3 (split; [done|]); split; [|split]].
    + rewrite list_fmap_insert, <- Hm. apply list_insert_id. by rewrite list_lookup_fmap, Hi.
    + rewrite (done_count_insert _ _ _ _ Hi), Hcp, Hq. cbn. lia.
    + rewrite (done_bytes_insert _ _ _ _ Hi Hcp Hq). by rewrite Hd.
    + intros i x Hx. destruct (decide (i = m)) as [->|Hne].
      * rewrite list_lookup_insert_eq in Hx by done. injection Hx as <-.
        rewrite decide_True by lia. by rewrite Hb.
      * rewrite list_lookup_insert_ne in Hx by done. destruct (Hp i x Hx) as (H1 & H2 & H3 & H4).
        do 3 (split; [done|]). rewrite H4. destruct (decide (i < m)%nat), (decide (i < S m)%nat); try done; lia.
  - unfold restored_to. cbn [fst snd]. do 6 (split; [done|]). intros i x Hx.
    destruct (Hp i x Hx) as (H1 & H2 & H3 & H4). do 3 (split; [done|]). rewrite H4.
    destruct (decide (i = m)) as [->|Hne]; [rewrite decide_False, decide_True by lia; done|].
    destruct (decide (i < m)%nat), (decide (i < S m)%nat); try done; lia.
Qed.

Lemma restored_upto b pc m :
  untouched pc -> (m <= length (pieces pc))%nat -> restored_to b m pc (foldl (apply_bit b) (pc, 0) (seq 0 m)).
Proof.
  intros Hu. induction m as [|m IH]; intros Hm; [by apply untouched_restored|].
  rewrite seq_S, foldl_app. cbn. apply restored_step; [apply IH; lia|lia].
Qed.

(** Restoring marks exactly the pieces whose bits are set. *)
Lemma ApplyBitset_spec total bs pc b pc' r :
  sizes_ok total bs -> laid_out total bs pc -> untouched pc -> 0 <= bs_size b ->
  ApplyBitset pc b = (pc', r) ->
  laid_out total bs pc' /\ completed pc' = done_count (pieces pc') /\ r = done_bytes (pieces pc') /\
  maxRetries pc' = maxRetries pc /\
  forall i p, pieces pc' !! i = Some p ->
    Attempts p = 0 /\ PStatus p <> PieceInFlight /\ PStatus p <> PieceFailed /\
    comp p = Bitset_IsSet b (Z.of_nat i).
Proof.
  intros Hs Hl Hu Hb Ha. pose proof (laid_out_length _ _ _ Hs Hl) as Hlen. unfold zlen in Hlen.
  destruct (restored_upto b pc (Z.to_nat (Z.min (totalPieces pc) (bs_size b))) Hu) as (H1 & H2 & H3 & H4 & H5 & H6 & H7);
    [lia|]. unfold ApplyBitset in Ha. rewrite Ha in *. cbn [fst snd] in *.
  assert (laid_out total bs pc') as Hl' by (destruct Hl; split; congruence).
  split; [done|]. split; [done|]. split; [done|]. split; [done|]. intros i p Hi.
  destruct (H7 i p Hi) as (K1 & K2 & K3 & K4). do 3 (split; [done|]). rewrite K4.
  destruct (decide _) as [|Hge]; [done|]. unfold Bitset_IsSet, out_of_range.
  destruct (laid_out_lookup _ _ _ _ _ Hl' Hi) as [_ Hlt]. rewrite H2 in Hlt.
  destruct (Z.leb_spec (bs_size b) (Z.of_nat i)); [by rewrite orb_true_r|lia].
Qed.

Lemma NewPieceCoordinator_untouched total bs stall retries :
  untouched (NewPieceCoordinator total bs stall retries).
Proof. split; [done|]. cbn. apply Forall_fmap, Forall_forall. by intros i _. Qed.
