(* ===== verification/PiecesProps.v ===== *)
(** * Properties of segmented downloads

    A finished download is the remote file, whatever the workers' interleaving
    and failures; the journal never claims a block that is not on disk; the
    number of requests is bounded; and a piece that ran out of attempts keeps
    the pool waiting for ever. *)

From S2P Require Import Prelude GoStrings FileSys Bitset Pieces PiecesFacts.

#[local] Open Scope list_scope.
#[local] Open Scope Z_scope.

(** ** The file *)

(** [f] has the remote's bytes at the offsets [lo, hi). *)
Definition agree (remote f : bytes) (lo hi : Z) : Prop :=
  forall k : nat, lo <= Z.of_nat k < hi -> f !! k = remote !! k.

(** What an honest server sends at offset [off]. *)
Definition served (remote : bytes) (off : Z) (d : bytes) : Prop :=
  off + zlen d <= zlen remote /\ d = ztake (zlen d) (zdrop off remote).

Lemma served_lookup remote off d j :
  0 <= off -> served remote off d -> Z.of_nat j < zlen d ->
  d !! j = remote !! (Z.to_nat off + j)%nat.
Proof.
  intros Ho [Hl Hd] Hj. rewrite Hd. unfold ztake, zdrop. rewrite lookup_take_lt by lia. by rewrite lookup_drop.
Qed.

Lemma write_at_len f off d :
  0 <= off -> off + zlen d <= zlen f -> zlen (write_at f off d) = zlen f.
Proof.
  intros Ho Hl. unfold write_at, truncate_file. pose proof (zlen_nonneg d).
  replace (Z.to_nat (off - zlen f)) with 0%nat by lia. cbn [replicate]. rewrite app_nil_r.
  rewrite !zlen_app, zlen_ztake, zlen_zdrop. lia.
Qed.

Lemma write_at_lookup remote f off d k :
  0 <= off -> zlen f = zlen remote -> served remote off d ->
  write_at f off d !! k = if decide (off <= Z.of_nat k < off + zlen d) then remote !! k else f !! k.
Proof.
  intros Ho Hf Hs. pose proof (proj1 Hs) as Hl. pose proof (zlen_nonneg d). unfold write_at, truncate_file.
  replace (Z.to_nat (off - zlen f)) with 0%nat by lia. cbn [replicate]. rewrite app_nil_r.
  assert (length (ztake off f) = Z.to_nat off) as Hlt.
  { pose proof (zlen_ztake off f) as He. unfold zlen in *. lia. }
  destruct (decide (Z.of_nat k < off)) as [Hk|Hk].
  { rewrite lookup_app_l by lia. rewrite decide_False by lia. unfold ztake. by rewrite lookup_take_lt by lia. }
  rewrite lookup_app_r by lia. rewrite Hlt. destruct (decide (Z.of_nat k < off + zlen d)) as [Hk'|Hk'].
  - rewrite decide_True by lia. rewrite lookup_app_l by (unfold zlen in *; lia).
    rewrite (served_lookup remote off d) by (done || lia). f_equal. lia.
  - rewrite decide_False by lia. rewrite lookup_app_r by (unfold zlen in *; lia). unfold zdrop.
    rewrite lookup_drop. f_equal. unfold zlen in *. lia.
Qed.

Lemma write_at_agree remote f off d lo hi :
  0 <= off -> zlen f = zlen remote -> served remote off d ->
  agree remote f lo hi -> agree remote (write_at f off d) lo hi.
Proof.
  intros Ho Hf Hs Ha k Hk. rewrite (write_at_lookup remote) by done. case_decide; [done|by apply Ha].
Qed.

Lemma write_at_extends remote f off d lo :
  0 <= off -> zlen f = zlen remote -> served remote off d ->
  agree remote f lo off -> agree remote (write_at f off d) lo (off + zlen d).
Proof.
  intros Ho Hf Hs Ha k Hk. rewrite (write_at_lookup remote) by done. case_decide; [done|apply Ha; lia].
Qed.

Lemma truncate_len f n : 0 <= n -> zlen (truncate_file f n) = n.
Proof.
  intros Hn. unfold truncate_file. rewrite zlen_app, zlen_ztake. unfold zlen at 2. rewrite length_replicate. lia.
Qed.

(** ** The invariant of the pool *)

Section Pool.
Context (remote : bytes) (bs : Z).
Notation total := (zlen remote).
Context (Hsizes : sizes_ok total bs).

Definition on_disk (f : bytes) (p : Piece) : Prop :=
  agree remote f (StartOffset p) (StartOffset p + Length p).

Definition job_ok (pc : PieceCoordinator) (f : bytes) (j : job) : Prop :=
  exists p, pieces pc !! j_index j = Some p /\
    j_offset j = StartOffset p + j_read j /\ 0 <= j_read j /\ j_offset j <= total /\
    agree remote f (StartOffset p) (j_offset j) /\
    (j_marked j = true -> comp p = true).

(** Every block a journal records is a completed piece. *)
Definition journal_sound (pc : PieceCoordinator) (s : DownloadState) : Prop :=
  forall i p, pieces pc !! i = Some p -> block_done s (Z.of_nat i) = true -> comp p = true.

Record pool_inv (s : pool) : Prop := {
  inv_layout : laid_out total bs (po_coord s);
  inv_count : completed (po_coord s) = done_count (pieces (po_coord s));
  inv_file : zlen (po_file s) = total;
  inv_pieces : forall i p, pieces (po_coord s) !! i = Some p -> comp p = true -> on_disk (po_file s) p;
  inv_jobs : forall w j, po_jobs s !! w = Some j -> job_ok (po_coord s) (po_file s) j;
  inv_state : journal_ok (po_state s);
  inv_recorded : journal_sound (po_coord s) (po_state s);
  inv_saved : forall t, po_journal s = Some t -> journal_sound (po_coord s) t
}.

(** The events of a pool whose server is honest. *)
Definition honest (s : pool) (ev : pool_event) : Prop :=
  match ev with
  | Receive w _ d => forall j, po_jobs s !! w = Some j -> served remote (j_offset j) d
  | _ => True
  end.

Lemma start_nonneg pc i p : laid_out total bs pc -> pieces pc !! i = Some p -> 0 <= StartOffset p /\ 0 < Length p /\ StartOffset p + Length p <= total.
Proof.
  intros Hl Hi. destruct (laid_out_lookup _ _ _ _ _ Hl Hi) as [Hs Hlt]. destruct Hl as [_ Hn].
  pose proof (block_count_bounds _ _ Hsizes) as [Hb _]. destruct Hsizes as (Ht & Hbs & _).
  unfold shape, shape_at in Hs. injection Hs as _ Hst _ Hle. rewrite Hst, Hle. nia.
Qed.

(** Moving one piece on keeps what the jobs and journals rely on. *)
Lemma updates_jobs pc i p q pc' f j :
  updates pc i p q pc' -> (comp p = true -> comp q = true) -> job_ok pc f j -> job_ok pc' f j.
Proof.
  intros Hu Hm (x & Hx & Ho & Hr & Ht & Ha & Hc).
  destruct (updates_lookup_to _ _ _ _ _ _ _ Hu Hx) as (y & Hy & Hs & Hor). exists y.
  injection Hs as _ Hst _ _. rewrite Hst. split; [done|]. do 4 (split; [done|]). intros Hmk.
  destruct Hor as [->|(_ & -> & ->)]; auto.
Qed.

Lemma updates_sound pc i p q pc' s :
  updates pc i p q pc' -> (comp p = true -> comp q = true) -> journal_sound pc s -> journal_sound pc' s.
Proof.
  intros Hu Hm Hs k x Hx Hd. destruct (updates_lookup _ _ _ _ _ _ _ Hu Hx) as [[-> ->]|[_ Hk]].
  - apply Hm. destruct Hu as (Hi & _). by eapply Hs.
  - by eapply Hs.
Qed.

Lemma updates_pieces pc i p q pc' f :
  updates pc i p q pc' -> (comp q = true -> on_disk f q) ->
  (forall k x, pieces pc !! k = Some x -> comp x = true -> on_disk f x) ->
  forall k x, pieces pc' !! k = Some x -> comp x = true -> on_disk f x.
Proof.
  intros Hu Hq Hold k x Hx Hc. destruct (updates_lookup _ _ _ _ _ _ _ Hu Hx) as [[-> ->]|[_ Hk]]; [auto|].
  by eapply Hold.
Qed.

Lemma on_disk_shape f p q : shape q = shape p -> on_disk f p -> on_disk f q.
Proof. intros [= _ Hs _ Hl]. unfold on_disk. by rewrite Hs, Hl. Qed.

(** One event that changes piece [i] and the jobs, not the file. *)
Lemma coord_step s pc' i p q jobs' :
  pool_inv s -> updates (po_coord s) i p q pc' -> (comp p = true -> comp q = true) ->
  (comp q = true -> on_disk (po_file s) q) ->
  (forall w j, jobs' !! w = Some j -> job_ok (po_coord s) (po_file s) j \/ job_ok pc' (po_file s) j) ->
  pool_inv (set_coord s pc' jobs').
Proof.
  intros [] Hu Hm Hq Hj. split; cbn [set_coord po_coord po_file po_jobs po_state po_journal].
  - by eapply updates_laid_out.
  - by eapply updates_count.
  - done.
  - by eapply updates_pieces.
  - intros w j Hw. destruct (Hj w j Hw); [by eapply updates_jobs|done].
  - done.
  - by eapply updates_sound.
  - intros t Ht. eapply updates_sound; eauto.
Qed.

Lemma pool_step_inv s ev s' : pool_inv s -> honest s ev -> pool_step s ev = Some s' -> pool_inv s'.
Proof.
  intros Hinv Hh Hstep. destruct ev as [w now|w now d|w|w now|w|now]; cbn in Hstep.
  - destruct (po_jobs s !! w) eqn:Hw; [done|]. destruct (IsCompleted _); [done|].
    destruct (NextPiece (po_coord s) w now) as [pc' [i|]] eqn:Hn; [|done].
    destruct (NextPiece_updates _ _ _ _ _ Hn) as (p & Hu & Hc & _).
    destruct (pieces pc' !! i) as [q|] eqn:Hq; [|done]. injection Hstep as <-.
    assert (pieces (po_coord s) !! i = Some p) as Hi by apply Hu.
    destruct (start_nonneg _ _ _ (inv_layout _ Hinv) Hi) as (H1 & H2 & H3).
    eapply coord_step; [done|exact Hu|by rewrite Hc|done|]. intros w' j Hj.
    apply lookup_insert_Some in Hj as [[_ <-]|[_ Hj]]; [|left; by eapply inv_jobs].
    right. exists q. split; [done|]. cbn. assert (StartOffset q = StartOffset p) as Hsq.
    { destruct (updates_lookup _ _ _ _ _ _ _ Hu Hq) as [[_ ->]|[? _]]; done. }
    split; [lia|]. split; [done|]. split; [lia|]. split; [|done]. intros k Hk. lia.
  - destruct (po_jobs s !! w) as [[i off n []]|] eqn:Hw; [done| |done]. injection Hstep as <-.
    destruct (inv_jobs _ Hinv w _ Hw) as (p & Hi & Ho & Hr & Ht & Ha & _). cbn in Hi, Ho, Hr, Ht, Ha.
    pose proof (Hh _ Hw) as Hs. cbn in Hs.
    destruct (start_nonneg _ _ _ (inv_layout _ Hinv) Hi) as (H1 & H2 & H3).
    assert (0 <= off) as Hoff by lia. pose proof (zlen_nonneg d) as Hd.
    pose proof (TouchPiece_updates _ _ _ now Hi) as Hu. destruct Hinv as [Il Ic If Ip Ij Is Ir Iv].
    assert (forall lo hi, agree remote (po_file s) lo hi -> agree remote (write_at (po_file s) off d) lo hi)
      as Hagree by (intros; by apply write_at_agree).
    split; cbn [po_coord po_file po_jobs po_state po_journal].
    + by eapply updates_laid_out.
    + by eapply updates_count.
    + rewrite write_at_len; [done|done|]. destruct Hs. lia.
    + eapply updates_pieces; [done| |].
      * intros Hc. apply Hagree. by apply (on_disk_shape _ p), (Ip i).
      * intros k x Hx Hc. apply Hagree. by apply (Ip k).
    + intros w' j Hj. apply lookup_insert_Some in Hj as [[_ <-]|[_ Hj]].
      * eapply updates_jobs; [exact Hu|done|]. exists p. cbn. split; [done|]. split; [lia|]. split; [lia|].
        split; [destruct Hs; lia|]. split; [by apply write_at_extends|done].
      * eapply updates_jobs; [exact Hu|done|]. destruct (Ij _ _ Hj) as (x & Hx & Hox & Hrx & Htx & Hax & Hcx).
        exists x. do 4 (split; [done|]). split; [by apply Hagree|done].
    + done.
    + by eapply updates_sound.
    + intros t Hjt. eapply updates_sound; [exact Hu|done|by apply Iv].
  - destruct (po_jobs s !! w) as [[i off n []]|] eqn:Hw; [done| |done].
    destruct (pieces (po_coord s) !! i) as [p|] eqn:Hi; [|done].
    destruct (Z.eqb_spec n (Length p)) as [->|]; [|done]. injection Hstep as <-.
    destruct (inv_jobs _ Hinv w _ Hw) as (p' & Hi' & Ho & Hr & Ht & Ha & _). cbn in Hi', Ho, Hr, Ht, Ha.
    rewrite Hi in Hi'. injection Hi' as <-. destruct (MarkCompleted_updates _ _ _ Hi) as (q & Hu & Hcq & Hat).
    assert (on_disk (po_file s) q) as Hd.
    { apply (on_disk_shape _ p); [by apply Hu|]. unfold on_disk. by rewrite <- Ho. }
    eapply coord_step; [done|exact Hu|done|done|]. intros w' j Hj.
    apply lookup_insert_Some in Hj as [[_ <-]|[_ Hj]]; [right|left; by eapply inv_jobs].
    destruct (updates_lookup_to _ _ _ _ _ _ _ Hu Hi) as (y & Hy & Hs & Hor). exists y.
    injection Hs as _ Hst _ _. cbn. rewrite Hst. do 5 (split; [done|]). intros _.
    destruct Hor as [->|(_ & -> & _)]; [|done]. destruct Hu as (_ & Hp & _). rewrite Hp in Hy.
    rewrite list_lookup_insert_eq in Hy by (by eapply lookup_lt_Some). by injection Hy as <-.
  - destruct (po_jobs s !! w) as [[i off n []]|] eqn:Hw; [|done|done]. injection Hstep as <-.
    destruct (inv_jobs _ Hinv w _ Hw) as (p & Hi & _ & _ & _ & _ & Hc). cbn in Hi, Hc. specialize (Hc eq_refl).
    destruct Hinv as [Il Ic If Ip Ij Is Ir Iv]. destruct (Mark_ok now _ (Z.of_nat i) Is) as (Hjo & _ & Hbits).
    split; cbn [po_coord po_file po_jobs po_state po_journal]; try done.
    + intros w' j Hj. apply lookup_delete_Some in Hj as [_ Hj]. by eapply Ij.
    + intros k x Hx Hd. rewrite Hbits, orb_true_iff, !andb_true_iff, Z.eqb_eq in Hd.
      destruct Hd as [Hd|[[Hk _] _]]; [by eapply Ir|]. apply Nat2Z.inj in Hk as ->. congruence.
  - destruct (po_jobs s !! w) as [[i off n []]|] eqn:Hw; [done| |done]. injection Hstep as <-.
    destruct (inv_jobs _ Hinv w _ Hw) as (p & Hi & _). cbn in Hi.
    destruct (RequeuePiece_updates _ _ _ Hi) as (q & Hu & Hc & _ & _).
    eapply coord_step; [done|exact Hu|by rewrite Hc| |].
    + intros Hcq. apply (on_disk_shape _ p); [by apply Hu|]. eapply inv_pieces; [done|exact Hi|congruence].
    + intros w' j Hj. apply lookup_delete_Some in Hj as [_ Hj]. left. by eapply inv_jobs.
  - injection Hstep as <-. destruct Hinv as [Il Ic If Ip Ij Is Ir Iv].
    split; cbn [po_coord po_file po_jobs po_state po_journal]; try done. by intros t [= <-].
Qed.

Lemma reachable_inv s0 s : pool_inv s0 -> reachable honest s0 s -> pool_inv s.
Proof. intros H0. induction 1; [done|]. by eapply pool_step_inv. Qed.

(** A complete pool has the whole file. *)
Lemma complete_file s : pool_inv s -> IsCompleted (po_coord s) = true -> po_file s = remote.
Proof.
  intros [Il Ic If Ip Ij Is Ir Iv] Hc. unfold IsCompleted in Hc. apply Z.leb_le in Hc.
  rewrite <- (laid_out_length _ _ _ Hsizes Il), Ic in Hc. apply done_count_full in Hc.
  apply list_eq. intros k. destruct (decide (Z.of_nat k < total)) as [Hk|Hk].
  - destruct (laid_out_covers _ _ _ (Z.of_nat k) Hsizes Il) as (i & p & Hi & Hp); [lia|].
    apply (Ip i p Hi); [|done]. rewrite Forall_lookup in Hc. by eapply Hc.
  - unfold zlen in *. rewrite !lookup_ge_None_2 by lia. done.
Qed.

End Pool.

(** ** What an event changes, whatever the server sends *)

Definition holds (s : pool) (i : nat) : Prop := exists w j, po_jobs s !! w = Some j /\ j_index j = i.

(** A worker that holds piece [i] touches, completes or gives it back. *)
Definition held_change (s s' : pool) (i : nat) (p q : Piece) : Prop :=
  updates (po_coord s) i p q (po_coord s') /\ holds s i /\ Attempts q = Attempts p /\
  (PStatus q = PStatus p \/ comp q = true \/
   PStatus q = if maxRetries (po_coord s) <=? Attempts p then PieceFailed else PiecePending).

Inductive moved (s s' : pool) : pool_event -> Prop :=
| moved_take w now i p :
    updates (po_coord s) i p (assign w now p) (po_coord s') -> comp p = false ->
    (PStatus p = PiecePending \/ (PStatus p = PieceInFlight /\ Attempts p < maxRetries (po_coord s))) ->
    (forall k, holds s' k -> holds s k \/ k = i) -> moved s s' (Take w now)
| moved_held ev i p q :
    (forall w now, ev <> Take w now) -> held_change s s' i p q -> (forall k, holds s' k -> holds s k) ->
    moved s s' ev
| moved_none ev :
    (forall w now, ev <> Take w now) -> po_coord s' = po_coord s -> (forall k, holds s' k -> holds s k) ->
    moved s s' ev.

Lemma holds_insert s s' w j k :
  holds s' k -> po_jobs s' = <[w := j]> (po_jobs s) -> holds s k \/ k = j_index j.
Proof.
  intros (w' & j' & Hl & Hk) Hj. rewrite Hj in Hl. apply lookup_insert_Some in Hl as [[_ <-]|[_ Hl]];
    [by right|left; by exists w', j'].
Qed.

Lemma holds_delete s s' w k : holds s' k -> po_jobs s' = delete w (po_jobs s) -> holds s k.
Proof.
  intros (w' & j' & Hl & Hk) Hj. rewrite Hj in Hl. apply lookup_delete_Some in Hl as [_ Hl]. by exists w', j'.
Qed.

Lemma pool_step_moved s ev s' : pool_step s ev = Some s' -> moved s s' ev.
Proof.
  intros Hstep. destruct ev as [w now|w now d|w|w now|w|now]; cbn in Hstep.
  - destruct (po_jobs s !! w) eqn:Hw; [done|]. destruct (IsCompleted _); [done|].
    destruct (NextPiece (po_coord s) w now) as [pc' [i|]] eqn:Hn; [|done].
    destruct (NextPiece_updates _ _ _ _ _ Hn) as (p & Hu & Hc & Hst).
    destruct (pieces pc' !! i) as [q|]; [|done]. injection Hstep as <-.
    apply (moved_take _ _ w now i p); [exact Hu|done|done|]. intros k Hk.
    destruct (holds_insert s _ w _ k Hk eq_refl) as [|Hki]; [by left|right; exact Hki].
  - destruct (po_jobs s !! w) as [[i off n []]|] eqn:Hw; [done| |done]. injection Hstep as <-.
    set (s' := mkPool _ _ _ _ _).
    assert (forall k, holds s' k -> holds s k) as Hh.
    { intros k Hk. destruct (holds_insert s s' w _ k Hk eq_refl) as [|Hki]; [done|].
      cbn in Hki. subst k. by exists w, (mkJob i off n false). }
    destruct (pieces (po_coord s) !! i) as [p|] eqn:Hi.
    + apply (moved_held _ _ _ i p (touch now p)); [done| |done]. split; [by apply TouchPiece_updates|].
      split; [by exists w, (mkJob i off n false)|]. split; [done|by left].
    + apply moved_none; [done| |done]. cbn. unfold TouchPiece, in_pieces.
      apply lookup_ge_None_1 in Hi. destruct (Z.ltb_spec (Z.of_nat i) (zlen (pieces (po_coord s))));
        [unfold zlen in *; lia|by rewrite andb_false_r].
  - destruct (po_jobs s !! w) as [[i off n []]|] eqn:Hw; [done| |done].
    destruct (pieces (po_coord s) !! i) as [p|] eqn:Hi; [|done].
    destruct (n =? Length p); [|done]. injection Hstep as <-.
    destruct (MarkCompleted_updates _ _ _ Hi) as (q & Hu & Hcq & Hat).
    assert (holds s i) as Hhi by by exists w, (mkJob i off n false).
    apply (moved_held _ _ _ i p q); [done| |].
    + split; [exact Hu|]. split; [done|]. split; [done|by right; left].
    + intros k Hk. destruct (holds_insert s _ w _ k Hk eq_refl) as [|Hki]; [done|]. cbn in Hki. by subst k.
  - destruct (po_jobs s !! w) as [[i off n []]|] eqn:Hw; [|done|done]. injection Hstep as <-.
    apply moved_none; [done|done|]. intros k. intros Hk; by apply (holds_delete s _ w k Hk).
  - destruct (po_jobs s !! w) as [[i off n []]|] eqn:Hw; [done| |done]. injection Hstep as <-.
    assert (holds s i) as Hhi by by exists w, (mkJob i off n false).
    destruct (pieces (po_coord s) !! i) as [p|] eqn:Hi.
    + destruct (RequeuePiece_updates _ _ _ Hi) as (q & Hu & Hc & Hat & Hst).
      apply (moved_held _ _ _ i p q); [done| |intros k; intros Hk; by apply (holds_delete s _ w k Hk)].
      split; [exact Hu|]. split; [done|]. split; [done|].
      destruct Hst as [[-> _]|Hst]; [by left|by right; right].
    + apply moved_none; [done| |intros k; intros Hk; by apply (holds_delete s _ w k Hk)]. cbn. unfold RequeuePiece, in_pieces.
      apply lookup_ge_None_1 in Hi. destruct (Z.ltb_spec (Z.of_nat i) (zlen (pieces (po_coord s))));
        [unfold zlen in *; lia|by rewrite andb_false_r].
  - injection Hstep as <-. by apply moved_none.
Qed.

(** The events of a run, one after the other. *)
Fixpoint run_pool (s : pool) (evs : list pool_event) : option pool :=
  match evs with
  | [] => Some s
  | ev :: evs' => s' ← pool_step s ev; run_pool s' evs'
  end.

Definition is_take (ev : pool_event) : bool := match ev with Take _ _ => true | _ => false end.

(** *** Attempts *)

Fixpoint attempts (l : list Piece) : Z :=
  match l with [] => 0 | p :: l' => Attempts p + attempts l' end.

Lemma attempts_insert (l : list Piece) (i : nat) p q :
  l !! i = Some p -> attempts (<[i := q]> l) = attempts l - Attempts p + Attempts q.
Proof.
  revert i. induction l as [|x l IH]; intros [|i] Hi; try done; [injection Hi as ->; cbn; lia|].
  change (<[S i := q]> (x :: l)) with (x :: <[i := q]> l). cbn [attempts]. rewrite (IH i Hi). lia.
Qed.

Lemma attempts_zero l : Forall (fun p => Attempts p = 0) l -> attempts l = 0.
Proof. induction 1 as [|p l Hp _ IH]; cbn; [done|]. by rewrite Hp, IH. Qed.

Definition attempts_ok (pc : PieceCoordinator) : Prop :=
  forall i p, pieces pc !! i = Some p ->
    Attempts p <= maxRetries pc /\ (PStatus p = PiecePending -> Attempts p < maxRetries pc).

Lemma moved_attempts s s' ev :
  moved s s' ev -> attempts_ok (po_coord s) ->
  attempts_ok (po_coord s') /\
  attempts (pieces (po_coord s')) = attempts (pieces (po_coord s)) + Z.b2z (is_take ev) /\
  maxRetries (po_coord s') = maxRetries (po_coord s) /\
  length (pieces (po_coord s')) = length (pieces (po_coord s)).
Proof.
  intros Hm Hok. destruct Hm as [w now i p Hu Hc Hst _|ev i p q Hev (Hu & _ & Hat & Hst) _|ev Hev -> _].
  - pose proof Hu as (Hi & Hp & _ & _ & _ & Hr & _). destruct (Hok i p Hi) as [H1 H2]. split; [|split; [|split]].
    + intros k x Hx. rewrite Hr. destruct (updates_lookup _ _ _ _ _ _ _ Hu Hx) as [[_ ->]|[_ Hk]]; [|by apply (Hok k)].
      cbn. split; [|done]. destruct Hst as [Hst|[_ Hst]]; [specialize (H2 Hst)|]; lia.
    + rewrite Hp, (attempts_insert _ _ _ _ Hi). cbn. lia.
    + done.
    + rewrite Hp. apply length_insert.
  - pose proof Hu as (Hi & Hp & _ & _ & _ & Hr & _). destruct (Hok i p Hi) as [H1 H2].
    assert (is_take ev = false) as -> by (destruct ev; [by edestruct Hev|done..]). split; [|split; [|split]].
    + intros k x Hx. rewrite Hr. destruct (updates_lookup _ _ _ _ _ _ _ Hu Hx) as [[_ ->]|[_ Hk]]; [|by apply (Hok k)].
      rewrite Hat. split; [done|]. intros Hpend. destruct Hst as [Hst|[Hst|Hst]].
      * apply H2. congruence.
      * unfold comp in Hst. by rewrite Hpend in Hst.
      * rewrite Hpend in Hst. destruct (Z.leb_spec (maxRetries (po_coord s)) (Attempts p)); [done|lia].
    + rewrite Hp, (attempts_insert _ _ _ _ Hi). cbn. lia.
    + done.
    + rewrite Hp. apply length_insert.
  - assert (is_take ev = false) as -> by (destruct ev; [by edestruct Hev|done..]). cbn. rewrite Z.add_0_r. done.
Qed.

Lemma attempts_bound pc : attempts_ok pc -> attempts (pieces pc) <= zlen (pieces pc) * maxRetries pc.
Proof.
  unfold attempts_ok. generalize (maxRetries pc) as r. induction (pieces pc) as [|p l IH]; intros r Hok; [done|].
  rewrite zlen_cons. cbn. destruct (Hok 0%nat p eq_refl) as [Hp _].
  specialize (IH r (fun i x Hi => Hok (S i) x Hi)). lia.
Qed.

Lemma run_attempts s evs s' :
  run_pool s evs = Some s' -> attempts_ok (po_coord s) ->
  attempts_ok (po_coord s') /\ maxRetries (po_coord s') = maxRetries (po_coord s) /\
  length (pieces (po_coord s')) = length (pieces (po_coord s)) /\
  attempts (pieces (po_coord s')) = attempts (pieces (po_coord s)) + zlen (List.filter is_take evs).
Proof.
  revert s. induction evs as [|ev evs IH]; intros s Hrun Hok.
  { injection Hrun as ->. cbn. rewrite Z.add_0_r. done. }
  cbn in Hrun. apply bind_Some in Hrun as (s1 & Hs1 & Hrun).
  destruct (moved_attempts _ _ _ (pool_step_moved _ _ _ Hs1) Hok) as (Hok1 & Ha & Hr & Hl).
  destruct (IH s1 Hrun Hok1) as (K1 & K2 & K3 & K4). split; [done|]. split; [congruence|]. split; [congruence|].
  rewrite K4, Ha. cbn [List.filter]. destruct (is_take ev); rewrite ?zlen_cons; cbn; lia.
Qed.

(** ** The start of a download *)

Definition block_size (cfg : AcceleratedConfig) (total : Z) : Z :=
  ComputeDynamicBlockSize total (MinBlockSize cfg) (MaxBlockSize cfg).

(** The blocks a journal records, in units of [bs], are on disk. *)
Definition journal_on_disk (remote : bytes) (bs : Z) (file : bytes) (st : DownloadState) : Prop :=
  forall i : nat, block_done st (Z.of_nat i) = true ->
    agree remote file (Z.of_nat i * bs) (Z.min (Z.of_nat i * bs + bs) (zlen remote)).

Lemma no_bits_set b i : CompletedCount b <= 0 -> Bitset_IsSet b i = false.
Proof.
  rewrite CompletedCount_indices. intros Hc. apply zlen_nil_inv in Hc.
  destruct (Bitset_IsSet b i) eqn:Hi; [|done]. exfalso.
  assert (0 <= i < bs_size b) as Hr.
  { apply in_range_spec. unfold Bitset_IsSet in Hi. by destruct (out_of_range b i). }
  assert (In (Z.to_nat i) (set_indices b)) as Hin.
  { apply filter_In. rewrite in_seq, Z2Nat.id by lia. split; [lia|done]. }
  rewrite Hc in Hin. done.
Qed.

Lemma start_pieces cfg total st pc r :
  sizes_ok total (block_size cfg total) -> journal_ok st -> start_coordinator cfg total st = (pc, r) ->
  laid_out total (block_size cfg total) pc /\ completed pc = done_count (pieces pc) /\
  r = done_bytes (pieces pc) /\ maxRetries pc = MaxRetriesPerBlock cfg /\
  forall i p, pieces pc !! i = Some p -> Attempts p = 0 /\ PStatus p <> PieceInFlight /\
    PStatus p <> PieceFailed /\ comp p = block_done st (Z.of_nat i).
Proof.
  intros Hs (b & Hb & Hok & Hsz) Hstart. unfold start_coordinator, live_bits in Hstart.
  fold (block_size cfg total) in Hstart. rewrite Hb in Hstart. cbn [default] in Hstart. unfold id in Hstart.
  set (pc0 := NewPieceCoordinator _ _ _ _) in *. unfold block_done. rewrite Hb.
  assert (laid_out total (block_size cfg total) pc0) as Hl by by apply NewPieceCoordinator_laid_out.
  assert (untouched pc0) as Hu by apply NewPieceCoordinator_untouched.
  destruct (Z.ltb_spec 0 (CompletedCount b)) as [Hc|Hc].
  - destruct (ApplyBitset_spec _ _ _ _ _ _ Hs Hl Hu (proj1 Hok) Hstart) as (H1 & H2 & H3 & H4 & H5).
    split; [done|]. split; [done|]. split; [done|]. by split.
  - injection Hstart as <- <-. destruct (untouched_restored b pc0 Hu) as (_ & _ & _ & _ & H5 & H6 & H7).
    cbn [fst snd] in *. split; [done|]. split; [done|]. split; [done|]. split; [done|]. intros i p Hi.
    destruct (H7 i p Hi) as (K1 & K2 & K3 & K4). do 3 (split; [done|]). by rewrite K4, no_bits_set.
Qed.

Lemma start_pool_inv cfg remote st file :
  sizes_ok (zlen remote) (block_size cfg (zlen remote)) -> journal_ok st ->
  journal_on_disk remote (block_size cfg (zlen remote)) (truncate_file file (zlen remote)) st ->
  pool_inv remote (block_size cfg (zlen remote)) (start_pool cfg (zlen remote) st file).
Proof.
  intros Hs Hj Hd. unfold start_pool.
  destruct (start_coordinator cfg (zlen remote) st) as [pc r] eqn:Hst. cbn [fst].
  destruct (start_pieces _ _ _ _ _ Hs Hj Hst) as (Hl & Hc & _ & _ & Hp).
  split; cbn [po_coord po_file po_jobs po_state po_journal]; try done.
  - apply truncate_len, zlen_nonneg.
  - intros i p Hi Hcomp. destruct (Hp i p Hi) as (_ & _ & _ & Hbit). rewrite Hcomp in Hbit.
    destruct (laid_out_lookup _ _ _ _ _ Hl Hi) as [Hsh _]. unfold shape, shape_at in Hsh.
    injection Hsh as _ Hsta _ Hlen. unfold on_disk. rewrite Hsta, Hlen.
    intros k Hk. apply (Hd i); [done|lia].
  - intros i p Hi Hdone. destruct (Hp i p Hi) as (_ & _ & _ & ->). done.
Qed.

(** Whatever the interleaving of the workers and however their requests
    fail or stop short, a download that reports completion has exactly the
    remote file on disk, given that the server sends the bytes it is asked for; a
    resumed one too, when its journal is truthful; and at every moment the
    live and the saved journal are truthful, so the next run may resume from them. *)
Theorem accelerated_download_exact cfg remote st file s :
  let total := zlen remote in
  let bs := block_size cfg total in
  sizes_ok total bs -> journal_ok st -> journal_on_disk remote bs (truncate_file file total) st ->
  reachable (honest remote) (start_pool cfg total st file) s ->
  (IsCompleted (po_coord s) = true -> po_file s = remote) /\
  (forall t, t = po_state s \/ po_journal s = Some t ->
     forall i, Z.of_nat i < totalPieces (po_coord s) -> block_done t (Z.of_nat i) = true ->
     agree remote (po_file s) (Z.of_nat i * bs) (Z.min (Z.of_nat i * bs + bs) total)).
Proof.
  intros total bs Hs Hj Hd Hr.
  assert (pool_inv remote bs s) as Hinv.
  { eapply reachable_inv; [done| |exact Hr]. by apply start_pool_inv. }
  split; [intros Hc; by apply (complete_file remote bs)|].
  destruct Hinv as [Il Ic If Ip Ij Is Ir Iv]. intros t Ht i Hi Hdone.
  pose proof (laid_out_length _ _ _ Hs Il) as Hlen.
  destruct (lookup_lt_is_Some_2 (pieces (po_coord s)) i) as [p Hp]; [unfold zlen in Hlen; lia|].
  assert (comp p = true) as Hcp by (destruct Ht as [->|Ht]; [by eapply Ir|by eapply Iv]).
  pose proof (Ip i p Hp Hcp) as Hdisk. destruct (laid_out_lookup _ _ _ _ _ Il Hp) as [Hsh _].
  unfold shape, shape_at in Hsh. injection Hsh as _ Hst _ Hle. unfold on_disk in Hdisk.
  rewrite Hst, Hle in Hdisk. intros k Hk. apply Hdisk. lia.
Qed.

(** The pool makes a bounded number of requests: in every run, at most the
    retry limit for each piece, and no piece is ever handed out more often;
    and a piece that is pending is handed to whoever asks. *)
Theorem requests_are_bounded cfg total st file evs s w now :
  sizes_ok total (block_size cfg total) -> journal_ok st -> 0 < MaxRetriesPerBlock cfg ->
  run_pool (start_pool cfg total st file) evs = Some s ->
  zlen (List.filter is_take evs) <= totalPieces (po_coord (start_pool cfg total st file)) * MaxRetriesPerBlock cfg /\
  (forall i p, pieces (po_coord s) !! i = Some p -> Attempts p <= MaxRetriesPerBlock cfg) /\
  (Exists (fun p => PStatus p = PiecePending) (pieces (po_coord s)) ->
     exists pc i, NextPiece (po_coord s) w now = (pc, Some i)).
Proof.
  intros Hs Hj Hmax Hrun. unfold start_pool in *.
  destruct (start_coordinator cfg total st) as [pc r] eqn:Hst. cbn [fst po_coord] in *.
  destruct (start_pieces _ _ _ _ _ Hs Hj Hst) as (Hl & _ & _ & Hr & Hp).
  assert (attempts_ok pc) as Hok.
  { intros i p Hi. destruct (Hp i p Hi) as [-> _]. rewrite Hr. split; [lia|]. intros _. lia. }
  assert (attempts (pieces pc) = 0) as Hzero.
  { apply attempts_zero, Forall_lookup. intros i p Hi. by destruct (Hp i p Hi). }
  destruct (run_attempts _ _ _ Hrun Hok) as (Hok' & Hr' & Hl' & Ha). cbn [po_coord] in *.
  pose proof (attempts_bound _ Hok') as Hb. split; [|split].
  - rewrite Ha, Hzero, Hr', Hr in Hb. pose proof (laid_out_length _ _ _ Hs Hl) as Hlen.
    unfold zlen in *. rewrite Hl' in Hb. lia.
  - intros i p Hi. destruct (Hok' i p Hi) as [Hle _]. congruence.
  - intros Hex. unfold NextPiece. destruct (find_index is_pending (pieces (po_coord s))) as [i|] eqn:Hf.
    + by eexists _, i.
    + apply find_index_none in Hf. exfalso. apply Exists_exists in Hex as (p & Hin & Hpend).
      rewrite Forall_forall in Hf. specialize (Hf p Hin). unfold is_pending in Hf. by rewrite Hpend in Hf.
Qed.

(** Once a piece has used up its attempts and no worker is fetching it,
    the download can neither finish nor give up: in every later state the
    piece is still failed and completion is never reported, so the workers, which only
    leave on completion or cancellation, wait for ever (the error for
    missing segments is never returned). *)
Theorem failed_piece_stalls_download s i p s' :
  completed (po_coord s) = done_count (pieces (po_coord s)) ->
  zlen (pieces (po_coord s)) = totalPieces (po_coord s) ->
  pieces (po_coord s) !! i = Some p -> PStatus p = PieceFailed -> ~ holds s i ->
  reachable (fun _ _ => True) s s' ->
  IsCompleted (po_coord s') = false /\
  exists q, pieces (po_coord s') !! i = Some q /\ PStatus q = PieceFailed.
Proof.
  intros Hc Hn Hi Hf Hh Hr.
  assert (completed (po_coord s') = done_count (pieces (po_coord s')) /\
    zlen (pieces (po_coord s')) = totalPieces (po_coord s') /\
    (exists q, pieces (po_coord s') !! i = Some q /\ PStatus q = PieceFailed) /\ ~ holds s' i) as (Hc' & Hn' & Hq & _).
  { induction Hr as [|s1 ev s2 Hr IH HT Hstep].
    { do 2 (split; [done|]). split; [by exists p|done]. }
    destruct IH as (IHc & IHn & (q & Hq & Hqf) & IHh).
    assert (forall k x y, updates (po_coord s1) k x y (po_coord s2) -> k <> i ->
      completed (po_coord s2) = done_count (pieces (po_coord s2)) /\
      zlen (pieces (po_coord s2)) = totalPieces (po_coord s2) /\
      (exists q, pieces (po_coord s2) !! i = Some q /\ PStatus q = PieceFailed)) as Hupd.
    { intros k x y Hu Hki. split; [by eapply updates_count|]. destruct Hu as (_ & Hp & _ & _ & Ht & _).
      rewrite Hp, Ht. unfold zlen. rewrite length_insert. split; [done|]. exists q.
      rewrite list_lookup_insert_ne by done. done. }
    destruct (pool_step_moved _ _ _ Hstep) as [w now k x Hu Hcx Hst Hsub|ev k x y Hev (Hu & Hhk & _) Hsub|ev Hev He Hsub].
    - assert (k <> i) as Hki.
      { intros ->. destruct Hu as (Hx & _). rewrite Hq in Hx. injection Hx as <-. rewrite Hqf in Hst.
        by destruct Hst as [|[]]. }
      destruct (Hupd _ _ _ Hu Hki) as (? & ? & ?). do 3 (split; [done|]). intros Hhi.
      destruct (Hsub i Hhi); [done|congruence].
    - assert (k <> i) as Hki by (intros ->; done).
      destruct (Hupd _ _ _ Hu Hki) as (? & ? & ?). do 3 (split; [done|]). auto.
    - rewrite He. split; [done|]. split; [done|]. split; [by exists q|]. auto. }
  split; [|done]. destruct Hq as (q & Hq & Hqf). unfold IsCompleted. apply Z.leb_gt.
  rewrite <- Hn', Hc'. destruct (Z.le_gt_cases (zlen (pieces (po_coord s'))) (done_count (pieces (po_coord s'))))
    as [Hle|]; [|lia].
  apply done_count_full in Hle. rewrite Forall_lookup in Hle. specialize (Hle i q Hq).
  unfold comp in Hle. by rewrite Hqf in Hle.
Qed.

(** The journal's block size is saved but never compared: a truthful
    journal written with blocks of one byte is accepted by a run that uses
    blocks of two, which then reports completion at once although half of the file was
    never fetched. *)
Theorem journal_block_size_is_ignored :
  let remote := replicate 8 7 in
  let file := replicate 4 7 ++ replicate 4 0 in
  let cfg b := mkConfig 4 b 8 1 (12 * second) 4 in
  let old := foldl (fun s i => MarkBlockCompleted 1 s i)
               (NewDownloadState 0 "t" "u" "u" "" "" 8 (block_size (cfg 1) 8)) [0; 1; 2; 3] in
  let st := choose_state 2 (cfg 2) "t" "u" "u" "" 8 (Some (old, true)) in
  let s := start_pool (cfg 2) 8 st file in
  journal_on_disk remote 1 file old /\ IsCompleted (po_coord s) = true /\ po_file s <> remote.
Proof.
  cbv zeta. split; [|split; [vm_compute; reflexivity|vm_compute; discriminate]].
  intros i Hi k Hk. change (Bitset_IsSet (mkBitset [15] 8) (Z.of_nat i) = true) in Hi.
  assert (Z.of_nat i < 8) as Hi8.
  { apply (in_range_spec (mkBitset [15] 8)). unfold Bitset_IsSet in Hi. by destruct (out_of_range _ _). }
  assert (Z.of_nat i < 4) as Hi4.
  { do 4 (destruct i as [|i]; [lia|]). do 4 (destruct i as [|i]; [by vm_compute in Hi|]). lia. }
  do 4 (destruct k as [|k]; [reflexivity|]). lia.
Qed.

(** ** Witnesses *)

Section PiecesWitnesses.

Fixpoint honest_run (remote : bytes) (s : pool) (evs : list pool_event) : Prop :=
  match evs with
  | [] => True
  | ev :: evs' => honest remote s ev /\ forall s', pool_step s ev = Some s' -> honest_run remote s' evs'
  end.

Lemma honest_reachable remote s0 s evs s' :
  reachable (honest remote) s0 s -> honest_run remote s evs -> run_pool s evs = Some s' ->
  reachable (honest remote) s0 s'.
Proof.
  revert s. induction evs as [|ev evs IH]; intros s Hr Hh Hrun; [by injection Hrun as <-|].
  cbn in Hrun. apply bind_Some in Hrun as (s1 & Hs1 & Hrun). destruct Hh as [Hh Hrest].
  apply (IH s1); [|by apply Hrest|done]. by eapply reachable_step.
Qed.

Lemma honest_step remote s ev s1 evs :
  pool_step s ev = Some s1 -> honest remote s ev -> honest_run remote s1 evs -> honest_run remote s (ev :: evs).
Proof. intros Hs Hh Hr. split; [done|]. intros s' Hs'. congruence. Qed.

Definition small_config (retries : Z) : AcceleratedConfig := mkConfig 4 2 8 1 second retries.
Definition small_remote : bytes := [11; 12; 13; 14; 15].
Definition small_start (retries : Z) : pool :=
  start_pool (small_config retries) 5 (NewDownloadState 0 "t" "u" "u" "" "" 5 2) [].

(** Two workers; the second one's first request breaks off. *)
Definition small_run : list pool_event :=
  [Take 0 1; Take 1 1; Receive 1 2 [13]; Receive 0 2 [11; 12]; FailPiece 1; Finish 0; Take 1 3;
   SaveJournal 3; Record 0 3; Receive 1 4 [13; 14]; Take 0 4; Finish 1; Record 1 4; Receive 0 5 [15]; Finish 0].

Lemma small_sizes retries : sizes_ok 5 (block_size (small_config retries) 5).
Proof. by repeat split. Qed.

Lemma accelerated_download_exact_witness :
  exists s, run_pool (small_start 4) small_run = Some s /\ po_file s = small_remote.
Proof.
  destruct (run_pool (small_start 4) small_run) as [s|] eqn:Hrun; [|vm_compute in Hrun; discriminate].
  exists s. split; [reflexivity|].
  destruct (accelerated_download_exact (small_config 4) small_remote
    (NewDownloadState 0 "t" "u" "u" "" "" 5 2) [] s) as [Hfile _].
  - apply small_sizes.
  - apply NewDownloadState_ok.
  - intros i Hi. exfalso. unfold block_done in Hi. cbn [st_bitset NewDownloadState] in Hi.
    rewrite NewBitset_clear in Hi. discriminate.
  - apply (honest_reachable small_remote _ (small_start 4) small_run); [constructor| |exact Hrun].
    clear. unfold small_run.
    repeat (eapply honest_step; [vm_compute; reflexivity|first [exact I|intros j Hj; vm_compute in Hj;
      injection Hj as <-; split; [vm_compute; discriminate|reflexivity]]|]).
    exact I.
  - apply Hfile. vm_compute in Hrun. injection Hrun as <-. vm_compute. reflexivity.
Defined.

Lemma requests_are_bounded_witness :
  zlen (List.filter is_take small_run) <= 3 * 4.
Proof.
  destruct (run_pool (small_start 4) small_run) as [s|] eqn:Hrun; [|vm_compute in Hrun; discriminate].
  apply (requests_are_bounded (small_config 4) 5 (NewDownloadState 0 "t" "u" "u" "" "" 5 2) [] small_run s 0 0).
  - apply small_sizes.
  - apply NewDownloadState_ok.
  - reflexivity.
  - exact Hrun.
Defined.

Lemma failed_piece_stalls_download_witness :
  exists s, run_pool (small_start 1) [Take 0 1; FailPiece 0] = Some s /\
    forall s', reachable (fun _ _ => True) s s' -> IsCompleted (po_coord s') = false.
Proof.
  destruct (run_pool (small_start 1) [Take 0 1; FailPiece 0]) as [s|] eqn:Hrun;
    [|vm_compute in Hrun; discriminate].
  exists s. split; [reflexivity|]. intros s' Hr.
  destruct (failed_piece_stalls_download s 0 (mkPiece 0 0 1 2 PieceFailed 0 1 1) s') as [Hc _].
  - vm_compute in Hrun. injection Hrun as <-. reflexivity.
  - vm_compute in Hrun. injection Hrun as <-. reflexivity.
  - vm_compute in Hrun. injection Hrun as <-. reflexivity.
  - reflexivity.
  - vm_compute in Hrun. injection Hrun as <-. intros (w & j & Hj & _).
    change (po_jobs _) with (∅ : gmap Z job) in Hj. by rewrite lookup_empty in Hj.
  - exact Hr.
  - exact Hc.
Defined.

End PiecesWitnesses.
