(* ===== verification/Bencode.v ===== *)
(** * Bencoding (internal/download/bencode.go)

    The format torrents and peers speak: strings, integers, lists and
    dictionaries.  A Go map is represented by its entries in key order, the
    order the encoder sorts them into. *)

From S2P Require Import Prelude GoStrings.

#[local] Open Scope go_scope.
#[local] Open Scope list_scope.
#[local] Open Scope Z_scope.

Inductive bval :=
| BStr (s : bytes)
| BInt (n : Z)
| BList (l : list bval)
| BDict (kv : list (bytes * bval)).

(** Go's string comparison, on bytes. *)
Fixpoint bytes_compare (a b : bytes) : comparison :=
  match a, b with
  | [], [] => Eq
  | [], _ => Lt
  | _, [] => Gt
  | x :: a', y :: b' => match Z.compare x y with Eq => bytes_compare a' b' | c => c end
  end.

(** [dict[key] = val]. *)
Fixpoint dict_set {V} (k : bytes) (v : V) (l : list (bytes * V)) : list (bytes * V) :=
  match l with
  | [] => [(k, v)]
  | (k', v') :: l' =>
      match bytes_compare k k' with
      | Lt => (k, v) :: l
      | Eq => (k, v) :: l'
      | Gt => (k', v') :: dict_set k v l'
      end
  end.

(** ** Decoding

    A reader is the bytes that are left. *)

Definition maxBencodeDepth : nat := 32.
Definition maxBencodeStringLen : Z := 10 * 1024 * 1024.

Definition ch (c : Ascii.ascii) : Z := byte_of_ascii c.

(** The bytes before 'e', at most twenty. *)
Fixpoint read_int (room : nat) (r : bytes) {struct r} : result (bytes * bytes) :=
  match r with
  | [] => Err EOF
  | b :: r' =>
      if b =? ch "e" then Ok ([], r')
      else
        match room with
        | O => Err (ErrMsg "bencode: integer length exceeds 64-bit bounds")
        | S k => let? p := read_int k r' in Ok (b :: fst p, snd p)
        end
  end.

Definition decodeInt (r : bytes) : result (Z * bytes) :=
  let? p := read_int 20 r in
  match ParseInt (string_of_bytes (fst p)) with
  | Some n => Ok (n, snd p)
  | None => Err (ErrMsg "strconv.ParseInt")
  end.

Fixpoint read_len (r : bytes) : result (bytes * bytes) :=
  match r with
  | [] => Err EOF
  | b :: r' =>
      if b =? ch ":" then Ok ([], r')
      else if (b <? ch "0") || (ch "9" <? b) then Err (ErrMsg "bencode: invalid string length")
      else let? p := read_len r' in Ok (b :: fst p, snd p)
  end.

(** io.ReadFull tells an empty input from a short one. *)
Definition decodeString (r : bytes) : result (bytes * bytes) :=
  let? p := read_len r in
  match ParseInt (string_of_bytes (fst p)) with
  | Some n =>
      if (n <? 0) || (maxBencodeStringLen <? n)
      then Err (ErrMsg "bencode: invalid or excessive string length")
      else if zlen (snd p) <? n
      then Err (match snd p with [] => EOF | _ => ErrUnexpectedEOF end)
      else Ok (ztake n (snd p), zdrop n (snd p))
  | None => Err (ErrMsg "bencode: invalid or excessive string length")
  end.

Abbreviation out_of_fuel := (ErrMsg "out of fuel").

(** The loops; [dv] decodes one value. *)
Section Loops.
Context (dv : bytes -> result (bval * bytes)).

Fixpoint decodeList (fuel : nat) (r : bytes) : result (list bval * bytes) :=
  match fuel with
  | O => Err out_of_fuel
  | S k =>
      match r with
      | [] => Err EOF
      | b :: r' =>
          if b =? ch "e" then Ok ([], r')
          else
            let? p := dv r in
            let? q := decodeList k (snd p) in
            Ok (fst p :: fst q, snd q)
      end
  end.

Fixpoint decodeDict (fuel : nat) (dict : list (bytes * bval)) (r : bytes)
  : result (list (bytes * bval) * bytes) :=
  match fuel with
  | O => Err out_of_fuel
  | S k =>
      match r with
      | [] => Err EOF
      | b :: r' =>
          if b =? ch "e" then Ok (dict, r')
          else
            let? key := decodeString r in
            let? val := dv (snd key) in
            decodeDict k (dict_set (fst key) (fst val) dict) (snd val)
      end
  end.

End Loops.

(** [budget] is 33 less the depth; each loop has fuel for every byte left. *)
Fixpoint decodeValueWithDepth (budget : nat) (r : bytes) : result (bval * bytes) :=
  match budget with
  | O => Err (ErrMsg "bencode: recursion depth limit exceeded")
  | S k =>
      match r with
      | [] => Err EOF
      | b :: r' =>
          if b =? ch "i" then let? p := decodeInt r' in Ok (BInt (fst p), snd p)
          else if b =? ch "l" then
            let? p := decodeList (decodeValueWithDepth k) (S (length r')) r' in Ok (BList (fst p), snd p)
          else if b =? ch "d" then
            let? p := decodeDict (decodeValueWithDepth k) (S (length r')) [] r' in Ok (BDict (fst p), snd p)
          else if (ch "0" <=? b) && (b <=? ch "9") then
            let? p := decodeString r in Ok (BStr (fst p), snd p)
          else Err (ErrMsg "bencode: unexpected token")
      end
  end.

Definition decodeValue (r : bytes) : result (bval * bytes) :=
  decodeValueWithDepth (S maxBencodeDepth) r.

(** What follows the value is ignored. *)
Definition UnmarshalBencode (data : bytes) : result bval :=
  let? p := decodeValue data in Ok (fst p).

(** ** Encoding *)

Definition encode_string (s : bytes) : bytes :=
  bytes_of_string (FormatInt (zlen s)) ++ [ch ":"] ++ s.

Fixpoint encodeValue (v : bval) : bytes :=
  match v with
  | BStr s => encode_string s
  | BInt n => [ch "i"] ++ bytes_of_string (FormatInt n) ++ [ch "e"]
  | BList l => [ch "l"] ++ concat (map encodeValue l) ++ [ch "e"]
  | BDict kv =>
      [ch "d"] ++ concat (map (fun e => encode_string (fst e) ++ encodeValue (snd e)) kv) ++ [ch "e"]
  end.

(** The values above are all of supported types, so there is no error. *)
Definition MarshalBencode (v : bval) : bytes := encodeValue v.

(** ** Values the decoder can give *)

Definition keys_sorted {V} (kv : list (bytes * V)) : Prop :=
  StronglySorted (fun a b => bytes_compare (fst a) (fst b) = Lt) kv.

Definition string_ok (s : bytes) : Prop := zlen s <= maxBencodeStringLen.

Fixpoint value_ok (v : bval) : Prop :=
  match v with
  | BStr s => string_ok s
  | BInt n => in_i64 n
  | BList l => foldr (fun x P => value_ok x /\ P) True l
  | BDict kv => keys_sorted kv /\ foldr (fun e P => (string_ok (fst e) /\ value_ok (snd e)) /\ P) True kv
  end.

(** Levels of containers. *)
Fixpoint depth (v : bval) : nat :=
  match v with
  | BStr _ | BInt _ => 0
  | BList l => foldr (fun x n => Nat.max (S (depth x)) n) 0%nat l
  | BDict kv => foldr (fun e n => Nat.max (S (depth (snd e))) n) 0%nat kv
  end.

Lemma bval_rect' (P : bval -> Prop) :
  (forall s, P (BStr s)) -> (forall n, P (BInt n)) ->
  (forall l, Forall P l -> P (BList l)) ->
  (forall kv, Forall (fun e => P (snd e)) kv -> P (BDict kv)) ->
  forall v, P v.
Proof.
  intros Hs Hn Hl Hd. fix IH 1. intros [s|n|l|kv]; [apply Hs|apply Hn|apply Hl|apply Hd].
  - induction l as [|x l IHl]; constructor; [apply IH|exact IHl].
  - induction kv as [|[k x] kv IHk]; constructor; [apply IH|exact IHk].
Qed.

Lemma value_ok_list l : value_ok (BList l) <-> Forall value_ok l.
Proof. cbn. induction l as [|x l IH]; cbn; [by rewrite Forall_nil|]. by rewrite Forall_cons, IH. Qed.

Lemma value_ok_dict kv :
  value_ok (BDict kv) <-> keys_sorted kv /\ Forall (fun e => string_ok (fst e) /\ value_ok (snd e)) kv.
Proof.
  cbn. f_equiv. induction kv as [|x l IH]; cbn; [by rewrite Forall_nil|]. by rewrite Forall_cons, IH.
Qed.

Lemma depth_list l n : (depth (BList l) < S n <-> Forall (fun x => depth x < n) l)%nat.
Proof.
  cbn. induction l as [|x l IH]; cbn; [rewrite Forall_nil; split; [done|lia]|]. rewrite Forall_cons, <- IH. lia.
Qed.

Lemma depth_dict kv n : (depth (BDict kv) < S n <-> Forall (fun e => depth (snd e) < n) kv)%nat.
Proof.
  cbn. induction kv as [|x l IH]; cbn; [rewrite Forall_nil; split; [done|lia]|]. rewrite Forall_cons, <- IH. lia.
Qed.

(** ** Properties of bencoding

    Decoding inverts encoding, the decoder always returns and only gives
    values within its limits, and where re-encoding is not the text that was read. *)

(** ** Comparison and dictionaries *)

Lemma bytes_compare_eq a b : bytes_compare a b = Eq <-> a = b.
Proof.
  revert b. induction a as [|x a IH]; intros [|y b]; cbn; try done.
  destruct (Z.compare_spec x y) as [->|Hlt|Hgt]; [rewrite IH; split; [by intros ->|by intros [= ->]]| |];
    (split; [done|intros [= -> ->]; lia]).
Qed.

Lemma bytes_compare_flip a b : bytes_compare b a = CompOpp (bytes_compare a b).
Proof.
  revert b. induction a as [|x a IH]; intros [|y b]; cbn; try done.
  rewrite (Z.compare_antisym x y). destruct (Z.compare_spec x y); cbn; [apply IH|done|done].
Qed.

Lemma bytes_compare_trans a b c :
  bytes_compare a b = Lt -> bytes_compare b c = Lt -> bytes_compare a c = Lt.
Proof.
  revert b c. induction a as [|x a IH]; intros [|y b] [|z c]; cbn; try done.
  destruct (Z.compare_spec x y) as [->|Hxy|]; [|intros _|done].
  - destruct (Z.compare y z); [apply IH|done|done].
  - destruct (Z.compare_spec y z) as [->|Hyz|]; [|intros _|done].
    + intros _. by rewrite (proj2 (Z.compare_lt_iff x z) Hxy).
    + by rewrite (proj2 (Z.compare_lt_iff x z)) by lia.
Qed.

Lemma dict_set_append {V} (kv : list (bytes * V)) k v :
  Forall (fun e => bytes_compare (fst e) k = Lt) kv -> dict_set k v kv = kv ++ [(k, v)].
Proof.
  induction 1 as [|[k' v'] kv Hk _ IH]; [done|]. cbn in *.
  rewrite bytes_compare_flip, Hk. cbn. by rewrite IH.
Qed.

Lemma dict_set_forall {V} (P : bytes * V -> Prop) kv k v :
  P (k, v) -> Forall P kv -> Forall P (dict_set k v kv).
Proof.
  intros Hkv. induction 1 as [|[k' v'] kv Hk Hrest IH]; cbn; [by constructor|].
  destruct (bytes_compare k k'); repeat constructor; auto.
Qed.

Lemma dict_set_sorted {V} (kv : list (bytes * V)) k v : keys_sorted kv -> keys_sorted (dict_set k v kv).
Proof.
  unfold keys_sorted. induction 1 as [|[k' v'] kv Hs IH Hk]; cbn; [by repeat constructor|].
  destruct (bytes_compare k k') eqn:Hc.
  - apply bytes_compare_eq in Hc as ->. by constructor.
  - constructor; [by constructor|]. constructor; [done|]. eapply Forall_impl; [exact Hk|].
    intros [k2 v2]. cbn. by apply bytes_compare_trans.
  - constructor; [done|]. apply dict_set_forall; [|done]. cbn. by rewrite bytes_compare_flip, Hc.
Qed.

(** ** Reading back what was written *)

Lemma bytes_without sep s :
  without sep s = true -> Forall (fun b => b <> byte_of_ascii sep) (bytes_of_string s).
Proof.
  unfold without. induction s as [|c s IH]; [constructor|]. cbn [string_forallb].
  intros [Hc Hs]%andb_true_iff. change (bytes_of_string (String c s)) with (byte_of_ascii c :: bytes_of_string s).
  constructor; [|by apply IH]. intros He. apply (f_equal ascii_of_byte) in He. rewrite !ascii_byte_id in He.
  subst. by rewrite Ascii.eqb_refl in Hc.
Qed.

Lemma read_int_app room s r :
  Forall (fun b => b <> ch "e") s -> (length s <= room)%nat -> read_int room (s ++ ch "e" :: r) = Ok (s, r).
Proof.
  intros Hs. revert room. induction Hs as [|b s Hb _ IH]; intros room Hr; [by destruct room|].
  destruct room as [|k]; [cbn in Hr; lia|]. cbn [app read_int]. rewrite (proj2 (Z.eqb_neq _ _) Hb).
  rewrite IH by (cbn in Hr; lia). done.
Qed.

Lemma length_bytes_of_string s : length (bytes_of_string s) = String.length s.
Proof. pose proof (zlen_bytes_of_string s) as Hl. unfold zlen, slen in Hl. lia. Qed.

Lemma decodeInt_encode n r :
  in_i64 n -> decodeInt (bytes_of_string (FormatInt n) ++ ch "e" :: r) = Ok (n, r).
Proof.
  intros Hn. unfold decodeInt. rewrite read_int_app.
  - cbn [rbind fst snd]. by rewrite string_bytes_id, ParseInt_FormatInt.
  - by apply bytes_without, without_FormatInt.
  - rewrite length_bytes_of_string. by apply FormatInt_length.
Qed.

Definition digit_bytes (s : bytes) : Prop := Forall (fun b => ch "0" <= b <= ch "9") s.

Lemma digits_bytes s : string_forallb is_digit s = true -> digit_bytes (bytes_of_string s).
Proof.
  unfold digit_bytes. induction s as [|c s IH]; [constructor|]. cbn [string_forallb].
  intros [Hc Hs]%andb_true_iff. change (bytes_of_string (String c s)) with (byte_of_ascii c :: bytes_of_string s).
  constructor; [|by apply IH]. unfold is_digit, ascii_in in Hc. unfold ch. lia.
Qed.

Lemma FormatInt_digits n : 0 <= n -> digit_bytes (bytes_of_string (FormatInt n)) /\ FormatInt n <> EmptyString.
Proof.
  intros Hn. unfold FormatInt. destruct (Z.ltb_spec n 0); [lia|]. split.
  - apply digits_bytes. by apply FormatNat_digits.
  - apply FormatNat_nonempty.
Qed.

Lemma read_len_app s r : digit_bytes s -> read_len (s ++ ch ":" :: r) = Ok (s, r).
Proof.
  induction 1 as [|b s Hb _ IH]; [done|]. cbn [app read_len]. unfold ch in *.
  assert (b =? byte_of_ascii ":" = false) as -> by (change (byte_of_ascii ":") with 58;
    change (byte_of_ascii "9") with 57 in Hb; lia).
  assert ((b <? byte_of_ascii "0") || (byte_of_ascii "9" <? b) = false) as -> by lia. by rewrite IH.
Qed.

Lemma decodeString_encode s r : string_ok s -> decodeString (encode_string s ++ r) = Ok (s, r).
Proof.
  intros Hs. unfold string_ok, maxBencodeStringLen in Hs. pose proof (zlen_nonneg s) as Hp.
  unfold decodeString, encode_string. rewrite <- !app_assoc. cbn [app].
  rewrite read_len_app by by apply FormatInt_digits. cbn [rbind fst snd].
  rewrite string_bytes_id, ParseInt_FormatInt by (unfold in_i64; lia).
  assert ((zlen s <? 0) || (maxBencodeStringLen <? zlen s) = false) as -> by (unfold maxBencodeStringLen; lia).
  rewrite zlen_app. pose proof (zlen_nonneg r). destruct (Z.ltb_spec (zlen s + zlen r) (zlen s)); [lia|].
  by rewrite ztake_app_len, zdrop_app_len.
Qed.

Lemma encode_string_head s : exists b t, encode_string s = b :: t /\ ch "0" <= b <= ch "9".
Proof.
  unfold encode_string. destruct (FormatInt_digits (zlen s) (zlen_nonneg s)) as [Hd Hne].
  destruct (FormatInt (zlen s)) as [|c x]; [done|].
  change (bytes_of_string (String c x)) with (byte_of_ascii c :: bytes_of_string x) in *.
  apply Forall_cons in Hd as [Hc _]. eexists _, _. split; [done|exact Hc].
Qed.

Lemma encode_head v : exists b t, encodeValue v = b :: t /\ (b =? ch "e") = false.
Proof.
  destruct v as [s|n|l|kv]; [|by eexists _, _..].
  destruct (encode_string_head s) as (b & t & He & Hb). exists b, t. split; [done|].
  change (ch "9") with 57 in Hb. change (ch "e") with 101. lia.
Qed.

Lemma decodeList_encode dv l r fuel :
  Forall (fun v => forall r, dv (encodeValue v ++ r) = Ok (v, r)) l -> (length l < fuel)%nat ->
  decodeList dv fuel (concat (map encodeValue l) ++ ch "e" :: r) = Ok (l, r).
Proof.
  intros Hl. revert fuel. induction Hl as [|v l Hv _ IH]; intros fuel Hf; (destruct fuel as [|k]; [cbn in Hf; lia|]); [done|].
  cbn [map concat]. rewrite <- app_assoc. destruct (encode_head v) as (b & t & He & Hb).
  specialize (Hv (concat (map encodeValue l) ++ ch "e" :: r)). rewrite He in *. cbn [app decodeList] in *.
  rewrite Hb, Hv. cbn [rbind fst snd]. rewrite IH by (cbn in Hf; lia). done.
Qed.

Lemma decodeDict_encode dv kv acc r fuel :
  Forall (fun e => string_ok (fst e) /\ forall r, dv (encodeValue (snd e) ++ r) = Ok (snd e, r)) kv ->
  keys_sorted (acc ++ kv) -> (length kv < fuel)%nat ->
  decodeDict dv fuel acc (concat (map (fun e => encode_string (fst e) ++ encodeValue (snd e)) kv) ++ ch "e" :: r)
  = Ok (acc ++ kv, r).
Proof.
  intros Hkv. revert acc fuel.
  induction Hkv as [|[k v] kv [Hk Hv] _ IH]; intros acc fuel Hs Hf; (destruct fuel as [|n]; [cbn in Hf; lia|]).
  { by rewrite app_nil_r. }
  cbn [map concat fst snd] in *. rewrite <- !app_assoc.
  pose proof (decodeString_encode k (encodeValue v ++ concat
    (map (fun e => encode_string (fst e) ++ encodeValue (snd e)) kv) ++ ch "e" :: r) Hk) as Hdk.
  destruct (encode_string_head k) as (b & t & He & Hb). rewrite He in *. cbn [app decodeDict] in *.
  assert (b =? ch "e" = false) as -> by (change (ch "9") with 57 in Hb; change (ch "e") with 101; lia).
  rewrite Hdk. cbn [rbind fst snd]. rewrite Hv. cbn [rbind fst snd].
  assert (dict_set k v acc = acc ++ [(k, v)]) as ->.
  { apply dict_set_append. clear -Hs. unfold keys_sorted in Hs. induction acc as [|x acc IH]; [constructor|].
    cbn in Hs. apply StronglySorted_inv in Hs as [Hs Hx]. constructor; [|by apply IH].
    apply Forall_app in Hx as [_ Hx]. by apply Forall_cons in Hx as [Hx _]. }
  rewrite IH; [by rewrite <- app_assoc|by rewrite <- app_assoc|cbn in Hf; lia].
Qed.

Lemma concat_length_ge {A} (f : A -> bytes) l :
  (forall x, f x <> []) -> (length l <= length (concat (map f l)))%nat.
Proof.
  intros Hf. induction l as [|x l IH]; [done|]. cbn [map concat length]. rewrite length_app.
  specialize (Hf x). destruct (f x); [done|]. cbn. lia.
Qed.

Lemma decode_encode_value v : forall k r,
  value_ok v -> (depth v < k)%nat -> decodeValueWithDepth k (encodeValue v ++ r) = Ok (v, r).
Proof.
  induction v as [s|n|l IH|kv IH] using bval_rect'; intros k r Hok Hd; (destruct k as [|k]; [lia|]).
  - pose proof (decodeString_encode s r Hok) as Hs. cbn [encodeValue].
    destruct (encode_string_head s) as (b & t & He & Hb). rewrite He in *. cbn [app decodeValueWithDepth] in *.
    change (ch "0") with 48 in *. change (ch "9") with 57 in *. change (ch "i") with 105. change (ch "l") with 108. change (ch "d") with 100.
    rewrite !(proj2 (Z.eqb_neq _ _)) by lia. rewrite (proj2 (Z.leb_le 48 b)), (proj2 (Z.leb_le b 57)) by lia.
    cbn [andb]. by rewrite Hs.
  - cbn [encodeValue]. rewrite <- !app_assoc. cbn [app decodeValueWithDepth].
    change (ch "i" =? ch "i") with true. cbv iota. by rewrite decodeInt_encode.
  - cbn [encodeValue]. rewrite <- !app_assoc. cbn [app decodeValueWithDepth].
    change (ch "l" =? ch "i") with false. change (ch "l" =? ch "l") with true. cbv iota.
    apply value_ok_list in Hok. apply depth_list in Hd. rewrite decodeList_encode; [done| |].
    + rewrite Forall_forall in *. intros x Hx r'. apply IH; auto.
    + rewrite length_app. cbn. pose proof (concat_length_ge encodeValue l) as Hl.
      assert (forall x, encodeValue x <> []) as Hne by (intros x; destruct (encode_head x) as (? & ? & -> & _); done).
      specialize (Hl Hne). lia.
  - cbn [encodeValue]. rewrite <- !app_assoc. cbn [app decodeValueWithDepth].
    change (ch "d" =? ch "i") with false. change (ch "d" =? ch "l") with false.
    change (ch "d" =? ch "d") with true. cbv iota.
    apply value_ok_dict in Hok as [Hs Hok]. apply depth_dict in Hd. rewrite decodeDict_encode; [done| |done|].
    + rewrite Forall_forall in *. intros x Hx. split; [by apply Hok|]. intros r'. apply IH; auto. by apply Hok.
    + rewrite length_app. cbn.
      pose proof (concat_length_ge (fun e : bytes * bval => encode_string (fst e) ++ encodeValue (snd e)) kv) as Hl.
      assert (forall x : bytes * bval, encode_string (fst x) ++ encodeValue (snd x) <> []) as Hne
        by (intros x; destruct (encode_string_head (fst x)) as (? & ? & -> & _); done).
      specialize (Hl Hne). lia.
Qed.

(** ** What the decoder gives *)

(** A result that consumed something and is within the limits, or an error
    that is not exhausted fuel. *)
Definition sound_result {A} (P : A -> Prop) (r : bytes) (x : result (A * bytes)) : Prop :=
  match x with
  | Ok (v, r') => P v /\ (length r' < length r)%nat
  | Err e => e <> out_of_fuel
  end.

Lemma read_int_sound room r : sound_result (fun _ => True) r (read_int room r).
Proof.
  revert room. induction r as [|b r IH]; intros room; [done|]. cbn [read_int].
  destruct (b =? ch "e"); [split; [done|cbn; lia]|]. destruct room as [|k]; [done|].
  specialize (IH k). destruct (read_int k r) as [[s r']|e]; cbn in *; [split; [done|destruct IH; lia]|done].
Qed.

Lemma read_len_sound r : sound_result (fun _ => True) r (read_len r).
Proof.
  induction r as [|b r IH]; [done|]. cbn [read_len].
  destruct (b =? ch ":"); [split; [done|cbn; lia]|]. destruct (_ || _); [done|].
  destruct (read_len r) as [[s r']|e]; cbn in *; [split; [done|destruct IH; lia]|done].
Qed.

Lemma ParseInt_fits s n : ParseInt s = Some n -> in_i64 n.
Proof.
  unfold ParseInt, fits_int64, in_i64. destruct (parse_int s) as [v|]; [|done].
  destruct (_ && _) eqn:Hv; [|done]. intros [= <-]. lia.
Qed.

Lemma decodeInt_sound r : sound_result in_i64 r (decodeInt r).
Proof.
  unfold decodeInt. pose proof (read_int_sound 20 r) as Hs.
  destruct (read_int 20 r) as [[s r']|e]; cbn [rbind fst snd sound_result] in *; [|done].
  destruct (ParseInt (string_of_bytes s)) as [n|] eqn:Hn; [|by cbn].
  split; [by eapply ParseInt_fits|apply Hs].
Qed.

Lemma decodeString_sound r : sound_result string_ok r (decodeString r).
Proof.
  unfold decodeString. pose proof (read_len_sound r) as Hs.
  destruct (read_len r) as [[s r']|e]; cbn [rbind fst snd sound_result] in *; [|done].
  destruct (ParseInt (string_of_bytes s)) as [n|]; [|by cbn].
  destruct ((n <? 0) || _) eqn:Hn; [by cbn|]. destruct (zlen r' <? n) eqn:Hl; [by destruct r'|]. cbn. split.
  - unfold string_ok. rewrite zlen_ztake. lia.
  - destruct Hs as [_ Hs]. unfold zdrop. rewrite length_drop. lia.
Qed.

Section SoundLoops.
Context (dv : bytes -> result (bval * bytes)) (P : bval -> Prop).
Context (Hdv : forall r, sound_result P r (dv r)).

Lemma decodeList_sound fuel r :
  (length r < fuel)%nat -> sound_result (Forall P) r (decodeList dv fuel r).
Proof.
  revert r. induction fuel as [|k IH]; intros r Hf; [lia|]. cbn [decodeList].
  destruct r as [|b r]; [done|]. destruct (b =? ch "e"); [split; [constructor|cbn; lia]|].
  pose proof (Hdv (b :: r)) as Hv. destruct (dv (b :: r)) as [[v r1]|e]; cbn in *; [|done].
  destruct Hv as [Hv Hl]. specialize (IH r1 ltac:(lia)).
  destruct (decodeList dv k r1) as [[l r2]|e]; cbn in *; [|done].
  destruct IH as [IH Hl2]. split; [by constructor|lia].
Qed.

Lemma decodeDict_sound fuel acc r :
  (length r < fuel)%nat -> keys_sorted acc -> Forall (fun e => string_ok (fst e) /\ P (snd e)) acc ->
  sound_result (fun kv => keys_sorted kv /\ Forall (fun e => string_ok (fst e) /\ P (snd e)) kv) r
    (decodeDict dv fuel acc r).
Proof.
  revert acc r. induction fuel as [|k IH]; intros acc r Hf Hs Ha; [lia|]. cbn [decodeDict].
  destruct r as [|b r]; [done|]. destruct (b =? ch "e"); [split; [done|cbn; lia]|].
  pose proof (decodeString_sound (b :: r)) as Hk.
  destruct (decodeString (b :: r)) as [[key r1]|e]; cbn in *; [|done]. destruct Hk as [Hk Hl].
  pose proof (Hdv r1) as Hv. destruct (dv r1) as [[v r2]|e]; cbn in *; [|done]. destruct Hv as [Hv Hl2].
  specialize (IH (dict_set key v acc) r2 ltac:(lia) (dict_set_sorted _ _ _ Hs)).
  assert (Forall (fun e => string_ok (fst e) /\ P (snd e)) (dict_set key v acc)) as Ha'
    by by apply dict_set_forall.
  specialize (IH Ha'). destruct (decodeDict dv k (dict_set key v acc) r2) as [[kv r3]|e]; cbn in *; [|done].
  destruct IH as [IH Hl3]. split; [done|lia].
Qed.

End SoundLoops.

Lemma decode_sound k r :
  sound_result (fun v => value_ok v /\ (depth v < k)%nat) r (decodeValueWithDepth k r).
Proof.
  revert r. induction k as [|k IH]; intros r; [done|]. cbn [decodeValueWithDepth].
  destruct r as [|b r]; [done|]. destruct (b =? ch "i"); [|destruct (b =? ch "l"); [|destruct (b =? ch "d")]].
  - pose proof (decodeInt_sound r) as Hs. destruct (decodeInt r) as [[n r']|e]; cbn in *; [|done].
    destruct Hs. split; [split; [done|lia]|lia].
  - pose proof (decodeList_sound _ _ IH (S (length r)) r ltac:(lia)) as Hs.
    destruct (decodeList _ _ r) as [[l r']|e]; cbn [rbind fst snd sound_result] in *; [|done].
    destruct Hs as [Hs Hl]. split; [|cbn; lia]. rewrite value_ok_list, depth_list.
    split; (eapply Forall_impl; [exact Hs|by intros x []]).
  - pose proof (decodeDict_sound _ _ IH (S (length r)) [] r ltac:(lia)) as Hs.
    specialize (Hs ltac:(constructor) ltac:(constructor)).
    destruct (decodeDict _ _ [] r) as [[kv r']|e]; cbn [rbind fst snd sound_result] in *; [|done].
    destruct Hs as [[Hs Hkv] Hl]. split; [|cbn; lia]. rewrite value_ok_dict, depth_dict.
    split; [split; [done|]|]; (eapply Forall_impl; [exact Hkv|by intros x (? & ? & ?)]).
  - destruct (_ && _); [|done]. pose proof (decodeString_sound (b :: r)) as Hs.
    destruct (decodeString (b :: r)) as [[s r']|e]; cbn in *; [|done].
    destruct Hs. split; [split; [done|lia]|lia].
Qed.

(** A dictionary of two integers, the first written in any way ParseInt
    accepts. *)
Lemma decodeDict_two b budget k1 k2 text n m fuel r :
  string_ok k1 -> string_ok k2 -> in_i64 m -> bytes_compare k1 k2 = Lt ->
  (forall r', decodeInt (text ++ r') = Ok (n, r')) -> (2 < fuel)%nat -> b = S budget ->
  decodeDict (decodeValueWithDepth b) fuel []
    (encode_string k1 ++ ch "i" :: text ++ encode_string k2 ++ encodeValue (BInt m) ++ ch "e" :: r)
  = Ok ([(k1, BInt n); (k2, BInt m)], r).
Proof.
  intros H1 H2 Hm Hlt Htext Hf ->.
  destruct fuel as [|[|[|fuel]]]; [lia..|].
  pose proof (decodeString_encode k1 (ch "i" :: text ++ encode_string k2 ++ encodeValue (BInt m) ++ ch "e" :: r) H1) as Hd1.
  pose proof (decodeString_encode k2 (encodeValue (BInt m) ++ ch "e" :: r) H2) as Hd2.
  destruct (encode_string_head k1) as (b1 & t1 & E1 & Hb1), (encode_string_head k2) as (b2 & t2 & E2 & Hb2).
  change (ch "9") with 57 in *. assert (forall x, x <= 57 -> (x =? ch "e") = false) as Hne
    by (intros; change (ch "e") with 101; lia).
  rewrite E1 in *. cbn [app decodeDict] in *. rewrite Hne by lia. rewrite Hd1. cbn [rbind fst snd].
  cbn [decodeValueWithDepth]. change (ch "i" =? ch "i") with true. cbv iota. rewrite Htext.
  cbn [rbind fst snd dict_set]. rewrite E2 in *. cbn [app] in *. rewrite Hne by lia. rewrite Hd2. cbn [rbind fst snd].
  cbn [encodeValue]. rewrite <- !app_assoc. cbn [app]. change (ch "i" =? ch "i") with true. cbv iota.
  rewrite decodeInt_encode by done. cbn [rbind fst snd dict_set].
  rewrite bytes_compare_flip, Hlt. cbn [CompOpp]. done.
Qed.

Lemma decode_dict_step budget r :
  decodeValueWithDepth (S budget) (ch "d" :: r) =
  let? p := decodeDict (decodeValueWithDepth budget) (S (length r)) [] r in Ok (BDict (fst p), snd p).
Proof. reflexivity. Qed.

(** ** Claims *)

(** C10: Decoding inverts encoding: a value within the decoder's limits is
    read back exactly, whatever follows it, and nothing after it is consumed. *)
Theorem bencode_roundtrip v rest :
  value_ok v -> (depth v <= maxBencodeDepth)%nat ->
  decodeValue (MarshalBencode v ++ rest) = Ok (v, rest) /\
  UnmarshalBencode (MarshalBencode v ++ rest) = Ok v.
Proof.
  intros Hok Hd. assert (decodeValue (MarshalBencode v ++ rest) = Ok (v, rest)) as Hdec.
  { apply decode_encode_value; [done|lia]. }
  split; [done|]. unfold UnmarshalBencode. by rewrite Hdec.
Qed.

(** C11: The decoder is total: on any input it returns an error or a value
    (its loops never run out of the fuel of one step for each byte), the value
    respects every limit (nesting, string length, 64-bit integers, one entry for
    each key), and encoding it gives a text that decodes to it again. *)
Theorem bencode_decoder_total data :
  match UnmarshalBencode data with
  | Ok v => value_ok v /\ (depth v <= maxBencodeDepth)%nat /\ UnmarshalBencode (MarshalBencode v) = Ok v
  | Err e => e <> out_of_fuel
  end.
Proof.
  unfold UnmarshalBencode at 1, decodeValue. pose proof (decode_sound (S maxBencodeDepth) data) as Hs.
  destruct (decodeValueWithDepth _ data) as [[v r]|e]; cbn [rbind fst sound_result] in *; [|done].
  destruct Hs as [[Hok Hd] _]. split; [done|]. split; [lia|].
  unfold UnmarshalBencode, decodeValue. rewrite <- (app_nil_r (MarshalBencode v)).
  rewrite decode_encode_value by (done || lia). done.
Qed.

(** The length of the re-encoded value is not the length of what was
    read: for a dictionary that is not in canonical form the offset at which
    the metadata exchange takes the raw info to begin is inside the
    dictionary. *)
Theorem reencoding_loses_offset raw :
  let message := bytes_of_string "d8:msg_typei01e5:piecei0ee" in
  exists v, UnmarshalBencode (message ++ raw) = Ok v /\
    zlen (MarshalBencode v) = zlen message - 1 /\
    zdrop (zlen (MarshalBencode v)) (message ++ raw) = ch "e" :: raw.
Proof.
  cbv zeta. exists (BDict [(bytes_of_string "msg_type", BInt 1); (bytes_of_string "piece", BInt 0)]).
  split; [|split; [vm_compute; reflexivity|reflexivity]].
  set (k1 := bytes_of_string "msg_type"). set (k2 := bytes_of_string "piece").
  set (tail := encodeValue (BInt 0) ++ ch "e" :: raw).
  change (bytes_of_string "d8:msg_typei01e5:piecei0ee" ++ raw)
    with (ch "d" :: encode_string k1 ++ ch "i" :: bytes_of_string "01e" ++ encode_string k2 ++ tail).
  unfold UnmarshalBencode, decodeValue. rewrite decode_dict_step. unfold tail.
  rewrite (decodeDict_two _ 31 k1 k2 (bytes_of_string "01e") 1 0); [done|..]; try done.
  apply -> Nat.succ_lt_mono. rewrite length_app. change (length (encode_string k1)) with 10%nat. lia.
Qed.

(** ** Witnesses *)

Definition toy_torrent : bval :=
  BDict [(bytes_of_string "info", BList [BInt (-5); BStr [1; 2; 3]]); (bytes_of_string "name", BStr [])].

Lemma bencode_roundtrip_witness :
  UnmarshalBencode (MarshalBencode toy_torrent ++ [9; 9]) = Ok toy_torrent.
Proof.
  apply (bencode_roundtrip toy_torrent [9; 9]); [|vm_compute; lia].
  split; [repeat constructor|]. repeat split; try (vm_compute; discriminate).
Defined.
