(* ===== verification/FileDownload.v ===== *)
(** * Downloading a file (internal/controllers/file_controller.go)

    DownloadFile with its conditional and range headers, and the reader it
    copies from: a decrypting stream under the vault or the storage key, the
    legacy key, or the raw file. *)

From S2P Require Import Prelude GoStrings FileSys CryptoPrims CryptoStream CryptoVault CAS VaultTree Auth UploadCtrl.

#[local] Open Scope string_scope.
#[local] Open Scope list_scope.
#[local] Open Scope Z_scope.

(** ** parseRangeHeader: start, end, satisfiable, isRange *)
Definition parseRangeHeader (rangeHeader : string) (totalSize : Z) : Z * Z * bool * bool :=
  let whole := (0, i64 (totalSize - 1), false, false) in
  let refused := (0, 0, false, true) in
  if negb (HasPrefix rangeHeader "bytes=") then whole
  else
    match split_on "-" (TrimPrefix rangeHeader "bytes=") with
    | [p0; p1] =>
        if String.eqb p0 "" && negb (String.eqb p1 "") then
          match ParseInt p1 with
          | None => refused
          | Some suffixLen =>
              if suffixLen <=? 0 then refused
              else if totalSize <=? 0 then refused
              else
                let suffixLen := if totalSize <? suffixLen then totalSize else suffixLen in
                (totalSize - suffixLen, totalSize - 1, true, true)
          end
        else
          match ParseInt p0 with
          | None => refused
          | Some s =>
              if (s <? 0) || (totalSize <=? s) then refused
              else if String.eqb p1 "" then (s, totalSize - 1, true, true)
              else
                match ParseInt p1 with
                | None => refused
                | Some e =>
                    if e <? s then refused
                    else (s, if e <? totalSize then e else totalSize - 1, true, true)
                end
          end
    | _ => whole
    end.

Section Download.
Context `{CryptoPrims}.

(** ** openContentReader *)

(** What the handler copies from. *)
Inductive content_reader :=
| Decrypted (s : DecryptStream)
| Raw (r : reader).

(** An [*os.File] over the blob: it implements io.ReadSeeker and io.ReaderAt. *)
Definition os_file (data : bytes) (pos : Z) : reader := mkReader SeekAtReader data pos.

(** A stream under one key, positioned at [start]. *)
Definition open_with (data key : bytes) (start : Z) : option DecryptStream :=
  match NewDecryptStream (os_file data 0) key with
  | Err _ => None
  | Ok s =>
      if start =? 0 then
        match PreloadFirstChunk s with (s', None) => Some s' | _ => None end
      else
        match SeekTo s start with Some (s', None) => Some s' | _ => None end
  end.

Definition openContentReader (data : bytes) (isVault : bool) (vk : bytes) (start : Z)
  : result content_reader :=
  if (4 <=? zlen data) && negb (chunk_len_ok (be_get (ztake 4 data)))
  then Ok (Raw (os_file data start))
  else
    match open_with data vk start with
    | Some s => Ok (Decrypted s)
    | None =>
        if isVault then Err (ErrMsg "failed to decrypt file content")
        else
          match open_with data LegacyStorageKey start with
          | Some s => Ok (Decrypted s)
          | None => Ok (Raw (os_file data start))
          end
    end.

Definition raw_read (r : reader) (n : Z) : reader * (bytes * option gerror) :=
  let a := rd_avail r in
  if (0 <? n) && (zlen a =? 0) then (r, ([], Some EOF))
  else (rd_seek r (rd_pos r + zlen (ztake n a)), (ztake n a, None)).

Definition cr_read (c : content_reader) (n : Z) : content_reader * (bytes * option gerror) :=
  match c with
  | Decrypted s => let '(s', o) := dec_read s n in (Decrypted s', o)
  | Raw r => let '(r', o) := raw_read r n in (Raw r', o)
  end.

(** [io.CopyBuffer(w, io.LimitReader(c, limit), buf)]; [None] is no limit.
    The bytes that reach the client and the error. *)
Fixpoint copy_limited (fuel : nat) (c : content_reader) (n : Z) (limit : option Z) (acc : bytes)
  : option (bytes * option gerror) :=
  match fuel with
  | O => None
  | S f =>
      let want := match limit with Some l => Z.min n l | None => n end in
      if want <=? 0 then Some (acc, None)
      else
        match cr_read c want with
        | (_, (b, Some EOF)) => Some (acc ++ b, None)
        | (_, (b, Some e)) => Some (acc ++ b, Some e)
        | (c', (b, None)) => copy_limited f c' n ((fun l => l - zlen b) <$> limit) (acc ++ b)
        end
  end.

(** ** The handler *)

Record fc_state := mkFC { fc_DB : database; fc_CAS : option CASEngine; fc_fs : FS; fc_cache : vault_cache }.

(** The request: its parameter and headers ("" is absent), and the time
    parsers of the standard library (nanoseconds). *)
Record download_request := mkDownload {
  dr_id : string;
  dr_head : bool;
  dr_if_none_match : string;
  dr_if_modified_since : string;
  dr_range : string;
  dr_if_range : string;
  (** created_at of the row, "" when NULL *)
  dr_created_at : string;
  parse_created : string -> option Z;
  parse_http_time : string -> option Z;
  format_http_time : Z -> string
}.

(** [dp_headers] in the order they are set; a later one replaces an earlier
    one of the same name. *)
Record download_response := mkDResp {
  dp_status : Z;
  dp_headers : list (string * string);
  dp_body : bytes
}.

Definition isVaultUnlocked (e : req_env) : bool := has_vault_session e.

(** SELECT ... WHERE id = ? AND owner_id = ? AND is_deleted = FALSE *)
Definition find_file (e : req_env) (d : database) (id : string) (userID : Z) : option file_row :=
  if query_ok e then
    List.find (fun r => String.eqb (fr_id r) id && (fr_owner r =? userID) && negb (fr_deleted r)) (files d)
  else None.

Definition quote : string := String (ascii_of_byte 34) "".

Definition safe_name (name : string) : string :=
  replace_char newline "" (replace_char carriage_return ""
    (replace_char "\" "_" (replace_char (ascii_of_byte 34) "_" name))).

Definition etag_of (r : file_row) : string := quote +:+ fr_cas r +:+ quote.

Definition truncate_second (t : Z) : Z := t - t mod 1000000000.

Definition last_modified (q : download_request) : option Z :=
  if String.eqb (dr_created_at q) "" then None else parse_created q (dr_created_at q).

(** RFC 7232: answer 304. *)
Definition not_modified (q : download_request) (etag : string) : bool :=
  if negb (String.eqb (dr_if_none_match q) "") then
    String.eqb (TrimPrefix (dr_if_none_match q) "W/") etag || String.eqb (dr_if_none_match q) "*"
  else
    match last_modified q, parse_http_time q (dr_if_modified_since q) with
    | Some lm, Some t => negb (String.eqb (dr_if_modified_since q) "") && negb (t <? truncate_second lm)
    | _, _ => false
    end.

(** RFC 7233: whether If-Range lets the range through. *)
Definition range_allowed (q : download_request) (etag : string) : bool :=
  if negb (String.eqb (dr_range q) "") && negb (String.eqb (dr_if_range q) "") then
    if HasPrefix (dr_if_range q) quote || HasPrefix (dr_if_range q) ("W/" +:+ quote)
    then String.eqb (TrimPrefix (dr_if_range q) "W/") etag
    else
      match last_modified q with
      | Some lm =>
          match parse_http_time q (dr_if_range q) with
          | Some t => truncate_second lm =? t
          | None => false
          end
      | None => true
      end
  else true.

Definition base_headers (q : download_request) (r : file_row) (isVault : bool) : list (string * string) :=
  [("ETag", etag_of r); ("Accept-Ranges", "bytes"); ("Content-Type", fr_mime r);
   ("Content-Disposition", "attachment; filename=" +:+ quote +:+ safe_name (fr_name r) +:+ quote)]
  ++ (if isVault
      then [("Cache-Control", "private, no-store, no-cache, must-revalidate"); ("Pragma", "no-cache")]
      else [("Cache-Control", "private, no-transform, max-age=86400, must-revalidate")])
  ++ match last_modified q with Some lm => [("Last-Modified", format_http_time q lm)] | None => [] end.

Definition content_range (s e total : Z) : string :=
  "bytes " +:+ FormatInt s +:+ "-" +:+ FormatInt e +:+ "/" +:+ FormatInt total.

Definition unsatisfiable (h : list (string * string)) (total : Z) : download_response :=
  mkDResp 416 (h ++ [("Content-Range", "bytes */" +:+ FormatInt total)]) [].

(** The stand-in for a blob that cannot be opened (lines 772-796). *)
Definition mock_response (q : download_request) (r : file_row) (h : list (string * string))
    (allowed : bool) : download_response :=
  let mockBody := bytes_of_string ("Decrypted Content of " +:+ fr_name r) in
  let totalSize := zlen mockBody in
  let h := h ++ [("Content-Type", "text/plain; charset=utf-8")] in
  let whole := mkDResp 200 (h ++ [("Content-Length", FormatInt totalSize)]) mockBody in
  if negb (String.eqb (dr_range q) "") && allowed then
    match parseRangeHeader (dr_range q) totalSize with
    | (s, e, true, true) =>
        mkDResp 206 (h ++ [("Content-Range", content_range s e totalSize);
                           ("Content-Length", FormatInt (e - s + 1))])
          (ztake (e + 1 - s) (zdrop s mockBody))
    | (_, _, false, true) => unsatisfiable h totalSize
    | _ => whole
    end
  else whole.

(** The key of the content (lines 799-811); [None] is a locked vault. *)
Definition content_key (e : req_env) (isVault : bool) : option bytes :=
  if isVault then
    match swarm e with
    | Some v =>
        match GetKey (now_ e) (vault e) v with
        | Some r =>
            match heap (vault e) !! r with
            | Some k => if zlen k =? 0 then None else Some k
            | None => None
            end
        | None => None
        end
    | None => None
    end
  else Some (default [] (standard_key e)).

(** Enough steps for a copy: each read takes at least a byte of what is left. *)
Definition copy_fuel (c : content_reader) : nat :=
  match c with
  | Decrypted s => S (length (rd_avail (ds_r s)) + length (ds_buf s))
  | Raw r => S (length (rd_avail r))
  end.

Definition downloadBufSize : Z := 256 * 1024.

(** Lines 832-851: what reaches the client from [start] on. *)
Definition send_content (h : list (string * string)) (data : bytes) (isVault : bool) (vk : bytes)
    (start chunkLen : Z) (isPartial : bool) : download_response :=
  match openContentReader data isVault vk start with
  | Err _ => mkDResp 500 h (bytes_of_string "Decryption error")
  | Ok c =>
      let h := h ++ [("Content-Length", FormatInt chunkLen)] in
      let limit := if isPartial then Some chunkLen else None in
      match copy_limited (copy_fuel c) c downloadBufSize limit [] with
      | Some (b, _) => mkDResp (if isPartial then 206 else 200) h b
      | None => mkDResp 500 h []
      end
  end.

Definition DownloadFile (e : req_env) (st : fc_state) (q : download_request)
  : fc_state * download_response :=
  let error c msg := mkDResp c [] (bytes_of_string msg) in
  match find_file e (fc_DB st) (dr_id q) (GetUserID (user_id e)) with
  | None => (st, error 404 "File not found")
  | Some r =>
      let '(cache, isVault) := IsVaultFolder (Some (if query_ok e then Some (folders (fc_DB st)) else None))
                                 (fc_cache st) (default "" (fr_folder r)) in
      let st := mkFC (fc_DB st) (fc_CAS st) (fc_fs st) cache in
      if isVault && negb (isVaultUnlocked e)
      then (st, error 401 "Vault locked. Master password required to download this file.")
      else
        let h := base_headers q r isVault in
        if not_modified q (etag_of r) then (st, mkDResp 304 h [])
        else if dr_head q then (st, mkDResp 200 (h ++ [("Content-Length", FormatInt (fr_size r))]) [])
        else
          let allowed := range_allowed q (etag_of r) in
          let opened :=
            match fc_CAS st with
            | Some c => match fs_read (os e) (fc_fs st) (Path c (fr_cas r)) with Ok b => Some b | Err _ => None end
            | None => None
            end in
          match opened with
          | None => (st, mock_response q r h allowed)
          | Some data =>
              match content_key e isVault with
              | None => (st, error 401 "Vault locked. Master password required to download this file.")
              | Some vk =>
                  if negb (String.eqb (dr_range q) "") && allowed then
                    match parseRangeHeader (dr_range q) (fr_size r) with
                    | (_, _, false, true) => (st, unsatisfiable h (fr_size r))
                    | (s, en, true, true) =>
                        let chunkLen := en - s + 1 in
                        (st, send_content (h ++ [("Content-Range", content_range s en (fr_size r))])
                               data isVault vk s chunkLen true)
                    | _ => (st, send_content h data isVault vk 0 (fr_size r) false)
                    end
                  else (st, send_content h data isVault vk 0 (fr_size r) false)
              end
          end
  end.

End Download.
