(* ===== verification/FileDownloadProps.v ===== *)
(** * Properties of downloading

    What a client receives for a whole file and for a range, where the range
    is wrong, and what a damaged or empty file looks like. *)

From S2P Require Import Prelude GoStrings FileSys CryptoPrims CryptoStream CryptoStreamFacts CryptoVault CAS VaultTree Auth UploadSession UploadCtrl FileDownload.

#[local] Open Scope string_scope.
#[local] Open Scope list_scope.
#[local] Open Scope Z_scope.

Section DownloadFacts.
Context `{CryptoLaws}.

(** ** Copies *)

Definition want_of (n : Z) (limit : option Z) : Z := match limit with Some l => Z.min n l | None => n end.

(** A copy from a stream standing before [rest] delivers [rest] up to the
    limit. *)
Definition up_to (limit : option Z) (rest : bytes) : bytes :=
  match limit with Some l => ztake l rest | None => rest end.

Lemma copy_limited_stream fuel s rest n limit acc :
  stream_at s rest -> 0 < n -> (length rest < fuel)%nat ->
  (forall l, limit = Some l -> 0 <= l) ->
  copy_limited fuel (Decrypted s) n limit acc = Some (acc ++ up_to limit rest, None).
Proof.
  revert s rest limit acc. induction fuel as [|f IH]; intros s rest limit acc Hs Hn Hf Hl; [lia|].
  cbn [copy_limited]. fold (want_of n limit). destruct (Z.leb_spec (want_of n limit) 0) as [Hw|Hw].
  { destruct limit as [l|]; cbn in *; [|lia]. specialize (Hl l eq_refl).
    replace l with 0 by lia. by rewrite ztake_0, app_nil_r. }
  pose proof (dec_read_stream s rest _ Hs Hw) as Hr. cbn [cr_read].
  destruct (dec_read s (want_of n limit)) as [s1 [b [e|]]].
  - destruct Hr as (-> & -> & -> & _). destruct limit as [l|]; cbn; [|done].
    unfold ztake. by rewrite take_nil.
  - destruct Hr as (Hb & Hle & Hrest & Hs1). rewrite (IH s1 _ _ (acc ++ b) Hs1 Hn).
    + rewrite <- app_assoc. f_equal. f_equal. f_equal. destruct limit as [l|]; cbn in *; [|by rewrite <- Hrest].
      rewrite Hrest at 2. unfold ztake at 2. rewrite take_app. 
      rewrite (take_ge b) by (unfold zlen in *; lia). f_equal. unfold ztake. f_equal. unfold zlen. lia.
    + apply zlen_pos in Hb. rewrite Hrest, length_app in Hf. unfold zlen in *. lia.
    + intros l' Hl'. destruct limit as [l|]; [|done]. cbn in Hl', Hle, Hw. injection Hl' as <-. lia.
Qed.

Lemma copy_limited_raw fuel k data pos n limit acc :
  0 <= pos -> 0 < n -> (length (zdrop pos data) < fuel)%nat -> (forall l, limit = Some l -> 0 <= l) ->
  copy_limited fuel (Raw (mkReader k data pos)) n limit acc = Some (acc ++ up_to limit (zdrop pos data), None).
Proof.
  revert pos limit acc. induction fuel as [|f IH]; intros pos limit acc Hp Hn Hf Hl; [lia|].
  cbn [copy_limited]. fold (want_of n limit). destruct (Z.leb_spec (want_of n limit) 0) as [Hw|Hw].
  { destruct limit as [l|]; cbn in *; [|lia]. specialize (Hl l eq_refl).
    replace l with 0 by lia. by rewrite ztake_0, app_nil_r. }
  cbn [cr_read]. unfold raw_read, rd_avail. cbn [rd_pos rd_data].
  assert (0 <? want_of n limit = true) as -> by lia. cbn [andb].
  destruct (Z.eqb_spec (zlen (zdrop pos data)) 0) as [He|He].
  - rewrite (zlen_nil_inv (zdrop pos data)) by lia. destruct limit; cbn; [|done].
    unfold ztake. by rewrite take_nil.
  - pose proof (zlen_nonneg (zdrop pos data)) as Hz. pose proof (zlen_ztake (want_of n limit) (zdrop pos data)) as Hb.
    set (b := ztake (want_of n limit) (zdrop pos data)) in *. unfold rd_seek. cbn [rd_kind rd_data].
    assert (zdrop (pos + zlen b) data = zdrop (zlen b) (zdrop pos data)) as Hdrop
      by (rewrite zdrop_zdrop by lia; done).
    assert (zdrop pos data = b ++ zdrop (zlen b) (zdrop pos data)) as Hsplit.
    { rewrite <- (ztake_zdrop (zlen b) (zdrop pos data)) at 1. f_equal. subst b. unfold ztake, zlen.
      rewrite length_take. destruct (decide (Z.to_nat (want_of n limit) <= length (zdrop pos data))%nat).
      - f_equal. lia.
      - rewrite !take_ge by lia. done. }
    rewrite IH; [| lia | done | rewrite Hdrop; rewrite Hsplit in Hf at 1; rewrite length_app in Hf; unfold zlen in *; lia |].
    + rewrite Hdrop, <- app_assoc. f_equal. f_equal. f_equal.
      destruct limit as [l|]; cbn in *; [|by rewrite <- Hsplit].
      rewrite Hsplit at 2. unfold ztake at 2. rewrite take_app, (take_ge b) by (unfold zlen in *; lia).
      f_equal. unfold ztake. f_equal. unfold zlen in *. lia.
    + intros l' Hl'. destruct limit as [l|]; [|done]. cbn in Hl', Hb, Hw. injection Hl' as <-. lia.
Qed.

(** ** Opening *)

Lemma encode_first key c cs :
  good_chunk c -> 4 <= zlen (encode key (c :: cs)) /\
  chunk_len_ok (be_get (ztake 4 (encode key (c :: cs)))) = true.
Proof.
  intros Hc. destruct (header_split key c Hc) as (Hlen & Hget & _).
  rewrite encode_cons, packet_good, <- app_assoc by done.
  set (hdr := be_put 4 (zlen c + TagSize) ++ chunk_nonce key c) in *.
  rewrite zlen_app. unfold NonceSize in Hlen.
  match goal with |- context [zlen (?a ++ ?b)] => pose proof (zlen_nonneg (a ++ b)) end. split; [lia|].
  rewrite ztake_app_le by lia. rewrite Hget. by apply good_chunk_len_ok.
Qed.

Lemma open_with_start data key cs :
  aes_key_ok key = true -> Forall good_chunk cs -> cs <> [] -> data = encode key cs ->
  exists s, open_with data key 0 = Some s /\ stream_at s (concat cs) /\ ds_key s = key.
Proof.
  intros Hk Hcs Hne ->. unfold open_with, NewDecryptStream. rewrite Hk. cbn [Z.eqb].
  destruct Hcs as [|c cs Hc Hcs]; [done|].
  unfold PreloadFirstChunk. change (0 <? zlen (ds_buf (mkDec _ _ []))) with false. cbv iota.
  destruct (next_chunk_packet (mkDec (os_file (encode key (c :: cs)) 0) key []) c (encode key cs))
    as (r' & Hn & Hav & Hp & _ & _); [done|done|done|apply encode_cons|].
  rewrite Hn. eexists. split; [done|]. split; [|done]. split; [done|]. split; [exact Hp|].
  exists cs. split; [done|]. split; [exact Hav|]. done.
Qed.

(** Seeking stands at the offset inside a chunk and at the beginning on a
    chunk boundary. *)
Lemma open_with_seek data key cs start :
  aes_key_ok key = true -> Forall good_chunk cs -> data = encode key cs -> 0 < start <= zlen (concat cs) ->
  exists s, open_with data key start = Some s /\
    stream_at s (if at_boundary cs start then concat cs else zdrop start (concat cs)).
Proof.
  intros Hk Hcs -> Hst. unfold open_with, NewDecryptStream. rewrite Hk.
  destruct (Z.eqb_spec start 0) as [|_]; [lia|]. unfold SeekTo. destruct (Z.ltb_spec start 0); [lia|].
  destruct (Z.eqb_spec start 0) as [|_]; [lia|]. cbn [rd_kind ds_r os_file].
  set (s1 := with_reader _ _).
  destruct (seek_at_loop_stream cs [] (seek_fuel s1) s1 start 0) as (s' & Hrun & Hbd & Hin);
    try done; try lia.
  { pose proof (length_encode_ge key cs Hk). pose proof (seek_fuel_enough s1) as Hf.
    cbn in Hf. unfold zlen in *. lia. }
  rewrite Z.sub_0_r in *. change (zlen []) with 0 in Hrun. rewrite Hrun.
  destruct (Z.ltb_spec (zlen (concat cs)) start); [lia|]. eexists. split; [done|].
  destruct (at_boundary cs start) eqn:Hb; [|by apply Hin; [lia|]].
  rewrite (Hbd eq_refl). split; [done|]. split; [done|]. by exists cs.
Qed.

(** The plaintext a download starting at [start] reads. *)
Definition served_from (cs : list bytes) (start : Z) : bytes :=
  if (0 <? start) && at_boundary cs start then concat cs else zdrop start (concat cs).

Lemma openContentReader_stored key cs isVault start :
  aes_key_ok key = true -> Forall good_chunk cs -> cs <> [] -> 0 <= start <= zlen (concat cs) ->
  exists s, openContentReader (encode key cs) isVault key start = Ok (Decrypted s) /\
    stream_at s (served_from cs start).
Proof.
  intros Hk Hcs Hne Hst. unfold openContentReader.
  assert (negb (chunk_len_ok (be_get (ztake 4 (encode key cs)))) = false) as ->.
  { destruct Hcs as [|c cs Hc Hcs]; [done|]. by destruct (encode_first key c cs Hc) as [_ ->]. }
  rewrite andb_false_r. unfold served_from. destruct (Z.ltb_spec 0 start) as [Hpos|Hz].
  - destruct (open_with_seek (encode key cs) key cs start) as (s & -> & Hs); try done; try lia.
    by exists s.
  - replace start with 0 by lia. destruct (open_with_start (encode key cs) key cs) as (s & -> & Hs & _); try done.
    exists s. by rewrite zdrop_0.
Qed.

Lemma stream_fuel s rest :
  stream_at s rest -> (length rest < copy_fuel (Decrypted s))%nat.
Proof.
  intros (Hk & Hp & cs & Hcs & Hav & ->). cbn [copy_fuel]. rewrite Hav, length_app.
  pose proof (length_encode_ge (ds_key s) cs Hk). pose proof (zlen_encode (ds_key s) cs) as Hz.
  assert (zlen (concat cs) <= zlen (encode (ds_key s) cs)) as Hle; [|unfold zlen in *; lia].
  clear -Hk Hcs H0. induction Hcs as [|c cs Hc _ IH]; [done|].
  rewrite encode_cons, packet_good by done. cbn [concat]. rewrite !zlen_app.
  rewrite gcm_seal_len by (done || apply chunk_nonce_len). rewrite zlen_be_put, chunk_nonce_len.
  unfold NonceSize, TagSize. lia.
Qed.

(** ** Totality of the copy *)

Definition reader_ok (c : content_reader) : Prop :=
  match c with
  | Decrypted s => aes_key_ok (ds_key s) = true /\ 0 <= rd_pos (ds_r s)
  | Raw r => 0 <= rd_pos r
  end.

Lemma copy_limited_total fuel s n limit acc :
  aes_key_ok (ds_key s) = true -> 0 <= rd_pos (ds_r s) ->
  stream_measure s < Z.of_nat fuel -> is_Some (copy_limited fuel (Decrypted s) n limit acc).
Proof.
  revert s limit acc. induction fuel as [|f IH]; intros s limit acc Hk Hp Hf.
  { unfold stream_measure in Hf. zlen_solve. }
  cbn [copy_limited]. fold (want_of n limit). destruct (Z.leb_spec (want_of n limit) 0) as [|Hw]; [done|].
  cbn [cr_read]. destruct (dec_read s _) as [s1 [b [[]|]]] eqn:Hr; try done.
  destruct (dec_read_progress _ _ _ _ Hk Hp Hw Hr) as (Hk1 & Hp1 & Hm & Hb).
  apply IH; try done.
  destruct (0 <? zlen (ds_buf s)); [specialize (Hb eq_refl)|clear Hb]; zlen_solve.
Qed.

Lemma ReadFull_pos r n r' x : 0 <= rd_pos r -> 0 <= n -> ReadFull r n = (r', Ok x) -> 0 <= rd_pos r'.
Proof. intros Hp Hn Hr. apply ReadFull_ok_inv in Hr as (_ & _ & ->); [cbn; lia|done|done]. Qed.

Lemma seek_at_loop_ok fuel s offset cur pos s' :
  aes_key_ok (ds_key s) = true -> 0 <= rd_pos (ds_r s) -> 0 <= pos ->
  seek_at_loop fuel s offset cur pos = Some (s', None) ->
  aes_key_ok (ds_key s') = true /\ 0 <= rd_pos (ds_r s').
Proof.
  intros Hk Hps. revert cur pos. induction fuel as [|f IH]; intros cur pos Hp; [done|]. cbn [seek_at_loop].
  destruct (cur <? offset); cbn [negb]; [|by intros [= <-]].
  destruct (ReadAt _ _ _) as [lb|]; [|done]. destruct (chunk_len_ok (be_get lb)) eqn:Hok; cbn [negb]; [|done].
  apply chunk_len_ok_inv in Hok. unfold TagSize, NonceSize in *. destruct (_ <=? offset); [apply IH; lia|].
  destruct (ReadFull _ _) as [r1 [hdr|]] eqn:H1r; [|done].
  destruct (ReadFull r1 _) as [r2 [c|]] eqn:H2r; [|done]. destruct (gcm_open _ _ _); [|done].
  intros [= <-]. split; [done|]. cbn. apply ReadFull_pos in H1r; [|cbn; lia|lia].
  apply ReadFull_pos in H2r; [done|done|lia].
Qed.

Lemma open_with_ok data key start s :
  open_with data key start = Some s -> aes_key_ok (ds_key s) = true /\ 0 <= rd_pos (ds_r s).
Proof.
  unfold open_with, NewDecryptStream. destruct (aes_key_ok key) eqn:Hk; [|done].
  destruct (start =? 0) eqn:Hz.
  - unfold PreloadFirstChunk. change (0 <? zlen (ds_buf (mkDec _ _ []))) with false. cbv iota.
    destruct (next_chunk _) as [s1 [p|]] eqn:Hn; [|done]. intros [= <-].
    destruct (next_chunk_ok_inv (mkDec (os_file data 0) key []) _ _ Hk (Z.le_refl 0) Hn)
      as (_ & _ & _ & _ & _ & Hk1 & _ & Hp1). cbn. rewrite Hk1. done.
  - unfold SeekTo. destruct (start <? 0); [done|]. cbn [rd_kind ds_r os_file]. rewrite Hz.
    destruct (seek_at_loop _ _ _ _ _) as [[s1 [e|]]|] eqn:Hs; [done| |done]. intros [= <-].
    apply seek_at_loop_ok in Hs; [done|done|done|done].
Qed.

Lemma openContentReader_ok data isVault vk start c :
  0 <= start -> openContentReader data isVault vk start = Ok c -> reader_ok c.
Proof.
  intros Hs. unfold openContentReader. destruct (_ && _); [by intros [= <-]|].
  destruct (open_with data vk start) as [s|] eqn:Ho; [intros [= <-]; by eapply open_with_ok|].
  destruct isVault; [done|]. destruct (open_with data LegacyStorageKey start) as [s|] eqn:Hl;
    [intros [= <-]; by eapply open_with_ok|by intros [= <-]].
Qed.

End DownloadFacts.

(** ** Claims *)

Section DownloadClaims.
Context `{CryptoLaws}.

Lemma parse_two n p0 p1 :
  without "-" p0 = true -> without "-" p1 = true ->
  HasPrefix ("bytes=" +:+ p0 +:+ String "-" p1) "bytes=" = true /\
  split_on "-" (TrimPrefix ("bytes=" +:+ p0 +:+ String "-" p1) "bytes=") = [p0; p1] /\
  parseRangeHeader ("bytes=" +:+ p0 +:+ String "-" p1) n =
    if String.eqb p0 "" && negb (String.eqb p1 "") then
      match ParseInt p1 with
      | None => (0, 0, false, true)
      | Some k => if (k <=? 0) || (n <=? 0) then (0, 0, false, true)
                  else (n - (if n <? k then n else k), n - 1, true, true)
      end
    else
      match ParseInt p0 with
      | None => (0, 0, false, true)
      | Some s =>
          if (s <? 0) || (n <=? s) then (0, 0, false, true)
          else if String.eqb p1 "" then (s, n - 1, true, true)
          else match ParseInt p1 with
               | None => (0, 0, false, true)
               | Some e => if e <? s then (0, 0, false, true)
                           else (s, if e <? n then e else n - 1, true, true)
               end
      end.
Proof.
  intros H0' H1'. assert (HasPrefix ("bytes=" +:+ p0 +:+ String "-" p1) "bytes=" = true) as Hp
    by apply HasPrefix_app.
  assert (split_on "-" (TrimPrefix ("bytes=" +:+ p0 +:+ String "-" p1) "bytes=") = [p0; p1]) as Hs.
  { unfold TrimPrefix. rewrite Hp, drop_str_app, split_app, !split_without by done. done. }
  split; [done|]. split; [done|]. unfold parseRangeHeader. rewrite Hp, Hs. cbn [negb].
  destruct (String.eqb p0 "" && negb (String.eqb p1 "")); [|done].
  destruct (ParseInt p1) as [k|]; [|done]. by destruct (k <=? 0), (n <=? 0).
Qed.

Lemma parse_inside n h s e :
  0 <= n -> parseRangeHeader h n = (s, e, true, true) -> 0 <= s <= e /\ e < n.
Proof.
  intros Hn. unfold parseRangeHeader. destruct (HasPrefix h "bytes="); cbn [negb]; [|done].
  destruct (split_on "-" _) as [|p0 [|p1 [|]]]; try done.
  destruct (String.eqb p0 "" && _).
  - destruct (ParseInt p1) as [k|]; [|done]. destruct (Z.leb_spec k 0); [done|].
    destruct (Z.leb_spec n 0); [done|]. destruct (Z.ltb_spec n k); intros [= <- <-]; lia.
  - destruct (ParseInt p0) as [x|]; [|done]. destruct (Z.ltb_spec x 0), (Z.leb_spec n x); try done.
    cbn [orb]. destruct (String.eqb p1 ""); [intros [= <- <-]; lia|].
    destruct (ParseInt p1) as [y|]; [|done]. destruct (Z.ltb_spec y x); [done|].
    destruct (Z.ltb_spec y n); intros [= <- <-]; lia.
Qed.

(** What a Range header means: an accepted range lies inside the file;
    "bytes=s-e" and "bytes=s-" select from s on, "bytes=-k" the last k bytes (all of
    a shorter file), and a start past the end is refused as unsatisfiable. *)
Theorem range_header_meaning n :
  0 <= n < 2 ^ 63 ->
  (forall h s e, parseRangeHeader h n = (s, e, true, true) -> 0 <= s <= e /\ e < n) /\
  (forall s e, 0 <= s <= e -> e < 2 ^ 63 -> s < n ->
     parseRangeHeader ("bytes=" +:+ FormatNat s +:+ "-" +:+ FormatNat e) n = (s, Z.min e (n - 1), true, true)) /\
  (forall s, 0 <= s < n -> parseRangeHeader ("bytes=" +:+ FormatNat s +:+ "-") n = (s, n - 1, true, true)) /\
  (forall k, 0 < k < 2 ^ 63 -> 0 < n ->
     parseRangeHeader ("bytes=-" +:+ FormatNat k) n = (Z.max 0 (n - k), n - 1, true, true)) /\
  (forall s e, n <= s < 2 ^ 63 -> 0 <= e ->
     parseRangeHeader ("bytes=" +:+ FormatNat s +:+ "-" +:+ FormatNat e) n = (0, 0, false, true)).
Proof.
  intros Hn. assert (forall k, 0 <= k -> without "-" (FormatNat k) = true) as Hw
    by (intros; by apply digits_without, FormatNat_digits).
  assert (forall k, String.eqb (FormatNat k) "" = false) as Hne
    by (intros k; apply String.eqb_neq, FormatNat_nonempty).
  split; [|split; [|split; [|split]]].
  - intros h s e. apply parse_inside. lia.
  - intros s e Hs He Hsn. destruct (parse_two n (FormatNat s) (FormatNat e)) as (_ & _ & Hp); [apply Hw; lia..|].
    etrans; [exact Hp|]. rewrite !Hne, !ParseInt_FormatNat by lia. cbn [andb].
    destruct (Z.ltb_spec s 0), (Z.leb_spec n s), (Z.ltb_spec e s); try lia. cbn [orb].
    repeat f_equal. destruct (Z.ltb_spec e n); lia.
  - intros s Hs. destruct (parse_two n (FormatNat s) "") as (_ & _ & Hp); [apply Hw; lia|done|].
    etrans; [exact Hp|]. rewrite !Hne, !ParseInt_FormatNat by lia. cbn [andb].
    destruct (Z.ltb_spec s 0), (Z.leb_spec n s); try lia. done.
  - intros k Hk Hpos. destruct (parse_two n "" (FormatNat k)) as (_ & _ & Hp); [done|apply Hw; lia|].
    etrans; [exact Hp|]. rewrite !Hne, !ParseInt_FormatNat by lia. cbn [andb negb String.eqb].
    destruct (Z.leb_spec k 0), (Z.leb_spec n 0); try lia. cbn [orb].
    repeat f_equal. destruct (Z.ltb_spec n k); lia.
  - intros s e Hs He. destruct (parse_two n (FormatNat s) (FormatNat e)) as (_ & _ & Hp); [apply Hw; lia..|].
    etrans; [exact Hp|]. rewrite !Hne, (ParseInt_FormatNat s) by lia. cbn [andb].
    destruct (Z.leb_spec n s); [|lia]. by rewrite orb_true_r.
Qed.

(** A file the handler finds, may serve and can read: the blob is the
    encoding of the chunks [cs] under the key the handler selects. *)
Definition servable (e : req_env) (st : fc_state) (q : download_request) (r : file_row) (isVault : bool)
    (key data : bytes) : Prop :=
  find_file e (fc_DB st) (dr_id q) (GetUserID (user_id e)) = Some r /\
  snd (IsVaultFolder (Some (if query_ok e then Some (folders (fc_DB st)) else None)) (fc_cache st)
         (default "" (fr_folder r))) = isVault /\
  (isVault = true -> isVaultUnlocked e = true) /\ content_key e isVault = Some key /\
  (exists c, fc_CAS st = Some c /\ fs_read (os e) (fc_fs st) (Path c (fr_cas r)) = Ok data) /\
  not_modified q (etag_of r) = false /\ dr_head q = false.

Definition stored_chunks (r : file_row) (key data : bytes) (cs : list bytes) : Prop :=
  aes_key_ok key = true /\ Forall good_chunk cs /\ cs <> [] /\ data = encode key cs /\
  fr_size r = zlen (concat cs).

(** The handler's answer for a servable file. *)
Lemma DownloadFile_servable e st q r isVault key data :
  servable e st q r isVault key data ->
  snd (DownloadFile e st q) =
    let h := base_headers q r isVault in
    if negb (String.eqb (dr_range q) "") && range_allowed q (etag_of r) then
      match parseRangeHeader (dr_range q) (fr_size r) with
      | (_, _, false, true) => unsatisfiable h (fr_size r)
      | (s, en, true, true) =>
          send_content (h ++ [("Content-Range", content_range s en (fr_size r))]) data isVault key s (en - s + 1) true
      | _ => send_content h data isVault key 0 (fr_size r) false
      end
    else send_content h data isVault key 0 (fr_size r) false.
Proof.
  intros (Hf & Hv & Hun & Hk & (c & Hc & Hr) & Hnm & Hh). unfold DownloadFile. rewrite Hf.
  destruct (IsVaultFolder _ _ _) as [cache b]. cbn [snd] in Hv. subst b. cbn [fc_CAS fc_fs fc_DB].
  assert (isVault && negb (isVaultUnlocked e) = false) as ->.
  { destruct isVault; [|done]. by rewrite (Hun eq_refl). }
  rewrite Hnm, Hh, Hc, Hr, Hk.
  destruct (negb _ && _); [|done].
  destruct (parseRangeHeader _ _) as [[[s en] []] []]; done.
Qed.

Lemma send_stored h key cs isVault start n isPartial :
  aes_key_ok key = true -> Forall good_chunk cs -> cs <> [] -> 0 <= start <= zlen (concat cs) -> 0 <= n ->
  exists h', send_content h (encode key cs) isVault key start n isPartial =
    mkDResp (if isPartial then 206 else 200) h'
      (if isPartial then ztake n (served_from cs start) else served_from cs start) /\
    h' = h ++ [("Content-Length", FormatInt n)].
Proof.
  intros Hk Hcs Hne Hst Hn. unfold send_content.
  destruct (openContentReader_stored key cs isVault start) as (s & -> & Hs); try done.
  rewrite (copy_limited_stream _ s _ _ _ [] Hs); [|done|by apply stream_fuel|].
  - eexists. split; [|done]. by destruct isPartial.
  - intros l Hl. destruct isPartial; [injection Hl as <-; lia|done].
Qed.

(** C2: Downloading gives the file back: without a range the client receives
    exactly the plaintext that was uploaded in any chunks, with status 200;
    with a satisfiable range that does not start on an inner chunk boundary exactly
    the selected bytes, with status 206 and the matching Content-Range. *)
Theorem download_delivers_file e st q r isVault key data cs :
  servable e st q r isVault key data -> stored_chunks r key data cs ->
  (dr_range q = "" \/ range_allowed q (etag_of r) = false ->
     dp_status (snd (DownloadFile e st q)) = 200 /\ dp_body (snd (DownloadFile e st q)) = concat cs) /\
  (forall s en, dr_range q <> "" -> range_allowed q (etag_of r) = true ->
     parseRangeHeader (dr_range q) (fr_size r) = (s, en, true, true) ->
     s = 0 \/ at_boundary cs s = false ->
     dp_status (snd (DownloadFile e st q)) = 206 /\
     dp_body (snd (DownloadFile e st q)) = ztake (en - s + 1) (zdrop s (concat cs)) /\
     ("Content-Range", content_range s en (fr_size r)) ∈ dp_headers (snd (DownloadFile e st q))).
Proof.
  intros Hsv (Hk & Hcs & Hne & -> & Hsz). rewrite (DownloadFile_servable _ _ _ _ _ _ _ Hsv).
  pose proof (zlen_nonneg (concat cs)) as Hpos. cbv zeta. split.
  - intros Hno. assert (negb (String.eqb (dr_range q) "") && range_allowed q (etag_of r) = false) as ->.
    { destruct Hno as [->| ->]; [done|apply andb_false_r]. }
    destruct (send_stored (base_headers q r isVault) key cs isVault 0 (fr_size r) false) as (h' & -> & _);
      try done; lia.
  - intros s en Hr Ha Hp Hb. destruct (parse_inside (fr_size r) _ _ _ ltac:(lia) Hp) as [Hs He].
    assert (negb (String.eqb (dr_range q) "") && range_allowed q (etag_of r) = true) as ->.
    { rewrite Ha. by rewrite (proj2 (String.eqb_neq _ _) Hr). }
    rewrite Hp. match goal with |- context [send_content ?h _ _ _ _ _ _] =>
      destruct (send_stored h key cs isVault s (en - s + 1) true) as (h' & -> & ->); try done; try lia end.
    cbn [dp_status dp_body dp_headers]. split; [done|]. split; [|set_solver].
    f_equal. unfold served_from. destruct Hb as [->| ->]; [by rewrite zdrop_0|by rewrite andb_false_r].
Qed.

(** A range that starts exactly where an inner chunk begins (as a resumed
    download often does) is answered with status 206 and a Content-Range for the
    requested bytes, but the body is the beginning of the file. *)
Theorem download_boundary_range_is_wrong e st q r isVault key data cs s en :
  servable e st q r isVault key data -> stored_chunks r key data cs ->
  dr_range q <> "" -> range_allowed q (etag_of r) = true ->
  parseRangeHeader (dr_range q) (fr_size r) = (s, en, true, true) -> 0 < s ->
  at_boundary cs s = true ->
  dp_status (snd (DownloadFile e st q)) = 206 /\
  dp_body (snd (DownloadFile e st q)) = ztake (en - s + 1) (concat cs) /\
  ("Content-Range", content_range s en (fr_size r)) ∈ dp_headers (snd (DownloadFile e st q)).
Proof.
  intros Hsv (Hk & Hcs & Hne & -> & Hsz) Hr Ha Hp Hs0 Hb. pose proof (zlen_nonneg (concat cs)) as Hpos.
  destruct (parse_inside (fr_size r) _ _ _ ltac:(lia) Hp) as [Hs He].
  rewrite (DownloadFile_servable _ _ _ _ _ _ _ Hsv). cbv zeta.
  assert (negb (String.eqb (dr_range q) "") && range_allowed q (etag_of r) = true) as ->.
  { rewrite Ha. by rewrite (proj2 (String.eqb_neq _ _) Hr). }
  rewrite Hp. match goal with |- context [send_content ?h _ _ _ _ _ _] =>
    destruct (send_stored h key cs isVault s (en - s + 1) true) as (h' & -> & ->); try done; try lia end.
  cbn [dp_status dp_body dp_headers]. split; [done|]. split; [|set_solver].
  f_equal. unfold served_from. rewrite Hb. by destruct (Z.ltb_spec 0 s); [|lia].
Qed.

(** Off the vault a blob that neither the storage key nor the legacy key
    opens is not an error: the client receives its raw bytes with status 200.  In
    the vault it is refused, which also makes an empty vault file
    undownloadable. *)
Theorem damaged_blob_is_served_raw e st q r isVault key data :
  servable e st q r isVault key data -> dr_range q = "" ->
  open_with data key 0 = None -> open_with data LegacyStorageKey 0 = None ->
  (isVault = false ->
     dp_status (snd (DownloadFile e st q)) = 200 /\ dp_body (snd (DownloadFile e st q)) = data) /\
  (isVault = true -> (4 <=? zlen data) && negb (chunk_len_ok (be_get (ztake 4 data))) = false ->
     dp_status (snd (DownloadFile e st q)) = 500) /\
  open_with [] key 0 = None.
Proof.
  intros Hsv Hr Ho Hl. rewrite (DownloadFile_servable _ _ _ _ _ _ _ Hsv), Hr. cbn [String.eqb negb andb].
  unfold send_content, openContentReader. rewrite Ho, Hl. split; [|split].
  - intros ->. assert ((if (4 <=? zlen data) && negb (chunk_len_ok (be_get (ztake 4 data)))
      then Ok (Raw (os_file data 0)) else Ok (Raw (os_file data 0))) = Ok (Raw (os_file data 0))) as ->
      by by destruct (_ && _).
    unfold os_file. rewrite copy_limited_raw; [by rewrite zdrop_0|done|done| |done].
    cbn [copy_fuel]. unfold rd_avail. cbn. lia.
  - intros -> ->. done.
  - unfold open_with, NewDecryptStream. destruct (aes_key_ok key); [|done]. done.
Qed.

(** Every copy to a client ends: whatever the blob, the key, the start
    and the limit, the reader the handler opens is read to the end of the
    stream, an error or the limit in boundedly many reads. *)
Theorem content_copy_terminates data isVault vk start c n limit :
  0 <= start -> 0 < n -> (forall l, limit = Some l -> 0 <= l) ->
  openContentReader data isVault vk start = Ok c ->
  is_Some (copy_limited (copy_fuel c) c n limit []).
Proof.
  intros Hs Hn Hl Hopen. pose proof (openContentReader_ok _ _ _ _ _ Hs Hopen) as Hok.
  destruct c as [s|[k d p]]; cbn [reader_ok copy_fuel] in *.
  - destruct Hok. apply copy_limited_total; [done|done|]. unfold stream_measure, zlen. lia.
  - rewrite copy_limited_raw; [done|done|done| |done]. unfold rd_avail. cbn. lia.
Qed.

End DownloadClaims.

(** ** Witnesses *)

Section DownloadWitnesses.
Import ToyCrypto.

Definition dl_key : bytes := replicate 32 7.
Definition dl_chunks : list bytes := [[1; 2; 3]; [4; 5]].
Definition dl_row : file_row :=
  mkRow "file_1" 1 (Some "f3") "a.bin" "application/octet-stream" 5
    "00000000000000000000000000000000000000000000000000000000000000ff" "" false.
Definition dl_cas : CASEngine := mkCAS "cas" ∅.
Definition dl_state (data : bytes) : fc_state :=
  mkFC (mkDB [] [dl_row]) (Some dl_cas) {[Path dl_cas (fr_cas dl_row) := mkFile data 0]} (mkVaultCache ∅ [] false).
Definition dl_env : req_env :=
  mkReqEnv (env_fine 5) [] empty_store None None None false (Some dl_key) 0 true true true 0 (fun l => l).
Definition dl_request (range : string) : download_request :=
  mkDownload "file_1" false "" "" range "" "" (fun _ => None) (fun _ => None) (fun _ => "").

Lemma dl_servable data range : servable dl_env (dl_state data) (dl_request range) dl_row false dl_key data.
Proof.
  split; [reflexivity|]. split; [reflexivity|]. split; [done|]. split; [reflexivity|].
  split; [|done]. exists dl_cas. split; [reflexivity|]. unfold fs_read, dl_state. cbn [fc_fs].
  by rewrite lookup_singleton_eq.
Qed.

Lemma dl_stored : stored_chunks dl_row dl_key (encode dl_key dl_chunks) dl_chunks.
Proof.
  split; [reflexivity|]. split; [|split; [done|by split]].
  repeat constructor; try done; vm_compute; discriminate.
Qed.

Lemma range_header_meaning_witness :
  parseRangeHeader "bytes=2-9" 5 = (2, 4, true, true) /\ parseRangeHeader "bytes=-2" 5 = (3, 4, true, true).
Proof.
  destruct (range_header_meaning 5) as (_ & Hfull & _ & Hsuf & _); [lia|].
  split; [apply (Hfull 2 9); lia|apply (Hsuf 2); lia].
Defined.

Lemma download_delivers_file_witness :
  let resp := snd (DownloadFile dl_env (dl_state (encode dl_key dl_chunks)) (dl_request "bytes=1-3")) in
  dp_status resp = 206 /\ dp_body resp = [2; 3; 4].
Proof.
  destruct (download_delivers_file dl_env (dl_state (encode dl_key dl_chunks)) (dl_request "bytes=1-3")
    dl_row false dl_key (encode dl_key dl_chunks) dl_chunks (dl_servable _ _) dl_stored) as [_ Hrange].
  destruct (Hrange 1 3) as (Hs & Hb & _); [discriminate|reflexivity|reflexivity|right; reflexivity|].
  split; [exact Hs|exact Hb].
Defined.

Lemma download_boundary_range_is_wrong_witness :
  let resp := snd (DownloadFile dl_env (dl_state (encode dl_key dl_chunks)) (dl_request "bytes=3-4")) in
  dp_status resp = 206 /\ dp_body resp = [1; 2].
Proof.
  destruct (download_boundary_range_is_wrong dl_env (dl_state (encode dl_key dl_chunks)) (dl_request "bytes=3-4")
    dl_row false dl_key (encode dl_key dl_chunks) dl_chunks 3 4 (dl_servable _ _) dl_stored) as (Hs & Hb & _);
    [discriminate|reflexivity|reflexivity|lia|reflexivity|]. split; [exact Hs|exact Hb].
Defined.

Lemma damaged_blob_is_served_raw_witness :
  dp_body (snd (DownloadFile dl_env (dl_state [0; 0; 0; 20; 9; 9]) (dl_request ""))) = [0; 0; 0; 20; 9; 9].
Proof.
  destruct (damaged_blob_is_served_raw dl_env (dl_state [0; 0; 0; 20; 9; 9]) (dl_request "") dl_row false dl_key
    [0; 0; 0; 20; 9; 9] (dl_servable _ _)) as [Hraw _]; [reflexivity|reflexivity|reflexivity|].
  destruct (Hraw eq_refl) as [_ Hb]. exact Hb.
Defined.

Lemma content_copy_terminates_witness :
  exists c, openContentReader [1; 2; 3; 4; 5] false dl_key 2 = Ok c /\
    is_Some (copy_limited (copy_fuel c) c downloadBufSize None []).
Proof.
  destruct (openContentReader [1; 2; 3; 4; 5] false dl_key 2) as [c|] eqn:Ho; [|vm_compute in Ho; discriminate].
  exists c. split; [reflexivity|].
  apply (content_copy_terminates [1; 2; 3; 4; 5] false dl_key 2 c downloadBufSize None);
    [lia|reflexivity|discriminate|exact Ho].
Defined.

End DownloadWitnesses.
