(* ===== verification/DownloadTasks.v ===== *)
(** * Download tasks
    (internal/download/manager.go, types.go, direct.go, torrent.go and
    internal/controllers/download_controller.go)

    A task is an object shared by the manager's table, the goroutine that
    downloads and the requests that cancel it, so tasks live in a heap and
    the table maps identifiers to addresses: dismissing a task removes it
    from the table while its goroutine keeps writing to the object.  The
    goroutine, [executeDownload], runs to its end here; what the other
    goroutines do to the manager while it runs is given as operations at the
    points where the download loop looks at its context. *)

From S2P Require Import Prelude GoStrings FileSys CryptoPrims CryptoStream CAS UploadSession VaultTree Auth UploadCtrl.

#[local] Open Scope string_scope.
#[local] Open Scope list_scope.
#[local] Open Scope Z_scope.

(** ** Tasks (types.go) *)

Inductive DownloadType := DownloadTypeDirect | DownloadTypeMagnet.

Inductive DownloadStatus :=
| StatusPending | StatusDownloading | StatusCompleted | StatusFailed | StatusCancelled.

#[export] Instance status_eq_dec : EqDecision DownloadStatus.
Proof. solve_decision. Defined.

(** The fields that change together: what is downloaded, how far it is. *)
Record DirectFileInfo := mkInfo { fi_Filename : string; fi_MimeType : string; fi_TotalBytes : Z }.

Record task_life := mkLife {
  Status : DownloadStatus;
  StatusText : string;
  SpeedText : string;
  Progress : Z;
  ErrorMessage : string;
  (** nanoseconds; 0 is the zero time *)
  t_CompletedAt : Z
}.

(** The counters of the accelerated mode have no influence on the others and
    are left out. *)
Record DownloadTask := mkTask {
  t_ID : string;
  t_OwnerID : Z;
  t_FolderID : string;
  t_URL : string;
  t_Type : DownloadType;
  t_MaxThreads : Z;
  t_CreatedAt : Z;
  t_info : DirectFileInfo;
  DownloadedBytes : Z;
  t_life : task_life;
  (** FileID, CasHash and PlaintextHash *)
  t_result : string * string * string;
  (** CancelFunc was called: the context of the goroutine is done *)
  t_cancelled : bool
}.

Definition set_info (t : DownloadTask) (i : DirectFileInfo) : DownloadTask :=
  mkTask (t_ID t) (t_OwnerID t) (t_FolderID t) (t_URL t) (t_Type t) (t_MaxThreads t) (t_CreatedAt t)
    i (DownloadedBytes t) (t_life t) (t_result t) (t_cancelled t).
Definition set_downloaded (t : DownloadTask) (n : Z) : DownloadTask :=
  mkTask (t_ID t) (t_OwnerID t) (t_FolderID t) (t_URL t) (t_Type t) (t_MaxThreads t) (t_CreatedAt t)
    (t_info t) n (t_life t) (t_result t) (t_cancelled t).
Definition set_life (t : DownloadTask) (l : task_life) : DownloadTask :=
  mkTask (t_ID t) (t_OwnerID t) (t_FolderID t) (t_URL t) (t_Type t) (t_MaxThreads t) (t_CreatedAt t)
    (t_info t) (DownloadedBytes t) l (t_result t) (t_cancelled t).
Definition set_result (t : DownloadTask) (r : string * string * string) : DownloadTask :=
  mkTask (t_ID t) (t_OwnerID t) (t_FolderID t) (t_URL t) (t_Type t) (t_MaxThreads t) (t_CreatedAt t)
    (t_info t) (DownloadedBytes t) (t_life t) r (t_cancelled t).
Definition cancel_func (t : DownloadTask) : DownloadTask :=
  mkTask (t_ID t) (t_OwnerID t) (t_FolderID t) (t_URL t) (t_Type t) (t_MaxThreads t) (t_CreatedAt t)
    (t_info t) (DownloadedBytes t) (t_life t) (t_result t) true.

Definition finished (s : DownloadStatus) : bool :=
  match s with StatusCompleted | StatusFailed | StatusCancelled => true | _ => false end.

(** ** The manager *)

Record dm_state := mkDM {
  dm_TmpDir : string;
  dm_CAS : CASEngine;
  dm_DB : option database;
  dm_fs : FS;
  dm_objs : gmap nat DownloadTask;
  dm_tasks : gmap string nat
}.

Definition with_objs (st : dm_state) (o : gmap nat DownloadTask) : dm_state :=
  mkDM (dm_TmpDir st) (dm_CAS st) (dm_DB st) (dm_fs st) o (dm_tasks st).
Definition with_table (st : dm_state) (m : gmap string nat) : dm_state :=
  mkDM (dm_TmpDir st) (dm_CAS st) (dm_DB st) (dm_fs st) (dm_objs st) m.
Definition with_fs (st : dm_state) (f : FS) : dm_state :=
  mkDM (dm_TmpDir st) (dm_CAS st) (dm_DB st) f (dm_objs st) (dm_tasks st).
Definition with_cas (st : dm_state) (c : CASEngine) (f : FS) : dm_state :=
  mkDM (dm_TmpDir st) c (dm_DB st) f (dm_objs st) (dm_tasks st).
Definition with_db (st : dm_state) (d : option database) : dm_state :=
  mkDM (dm_TmpDir st) (dm_CAS st) d (dm_fs st) (dm_objs st) (dm_tasks st).

(** What the goroutine and the requests do to a task, under its mutex. *)
Definition update (st : dm_state) (r : nat) (f : DownloadTask -> DownloadTask) : dm_state :=
  with_objs st (alter f r (dm_objs st)).

(** [dm.tasks.Load(id)] *)
Definition load (st : dm_state) (id : string) : option (nat * DownloadTask) :=
  match dm_tasks st !! id with
  | Some r => match dm_objs st !! r with Some t => Some (r, t) | None => None end
  | None => None
  end.

Definition failTask (now : Z) (msg : string) (t : DownloadTask) : DownloadTask :=
  set_life t (mkLife StatusFailed "Gagal" "Gagal" 0 msg now).

Definition cancelTask (now : Z) (t : DownloadTask) : DownloadTask :=
  set_life t (mkLife StatusCancelled "Dibatalkan" "Dibatalkan" 0 (ErrorMessage (t_life t)) now).

(** GetTask returns a copy. *)
Definition GetTask (st : dm_state) (id : string) : option DownloadTask := snd <$> load st id.

Definition CancelTask (now : Z) (st : dm_state) (id : string) : dm_state * bool :=
  match load st id with
  | Some (r, t) =>
      if bool_decide (Status (t_life t) = StatusCompleted) then (st, false)
      else (update st r (fun t => cancelTask now (cancel_func t)), true)
  | None => (st, false)
  end.

(** The addresses the table holds. *)
Definition listed (st : dm_state) (r : nat) : bool :=
  existsb (fun e => Nat.eqb (snd e) r) (map_to_list (dm_tasks st)).

Definition CancelAllTasks (now : Z) (st : dm_state) : dm_state :=
  with_objs st
    (map_imap (fun r t =>
       Some (if listed st r && negb (finished (Status (t_life t)))
             then cancelTask now (cancel_func t) else t)) (dm_objs st)).

Definition later (a b : DownloadTask) : Prop := t_CreatedAt b <= t_CreatedAt a.

#[export] Instance later_dec : RelDecision later.
Proof. intros a b. unfold later. apply _. Defined.

Definition ListTasks (st : dm_state) (ownerID : Z) : list DownloadTask :=
  merge_sort later
    (List.filter (fun t => t_OwnerID t =? ownerID)
       (omap (fun e => dm_objs st !! snd e) (map_to_list (dm_tasks st)))).

Definition DismissTask (st : dm_state) (id : string) (ownerID : Z) : dm_state * bool :=
  match load st id with
  | Some (_, t) =>
      if ((ownerID =? 0) || (t_OwnerID t =? ownerID)) && finished (Status (t_life t))
      then (with_table st (delete id (dm_tasks st)), true) else (st, false)
  | None => (st, false)
  end.

Definition is_old (now ttl : Z) (t : DownloadTask) : bool :=
  finished (Status (t_life t)) && negb (t_CompletedAt (t_life t) =? 0)
  && (ttl <? now - t_CompletedAt (t_life t)).

Definition PruneOldTasks (now ttl : Z) (st : dm_state) : dm_state :=
  with_table st
    (filter (fun e => from_option (is_old now ttl) false (dm_objs st !! snd e) = false) (dm_tasks st)).

(** Lines 136-168: the limits on the number of threads and the new task; the
    goroutine is started with its address. *)
Definition clamp_threads (n : Z) : Z :=
  let n := if n <=? 0 then 20 else n in if 32 <? n then 32 else n.

Definition start_task (now : Z) (st : dm_state) (id : string) (owner : Z) (folder url name : string)
    (ty : DownloadType) (maxThreads : Z) : dm_state * nat :=
  let r := fresh (dom (dm_objs st)) in
  let t := mkTask id owner folder url ty (clamp_threads maxThreads) now (mkInfo name "" 0) 0
             (mkLife StatusDownloading "Menghubungkan..." "Menghubungkan..." 5 "" 0) ("", "", "") false in
  (mkDM (dm_TmpDir st) (dm_CAS st) (dm_DB st) (dm_fs st) (<[r := t]> (dm_objs st))
     (<[id := r]> (dm_tasks st)), r).

(** What other goroutines do to the manager meanwhile, at a given time. *)
Inductive dm_op :=
| OpCancel (now : Z) (id : string)
| OpCancelAll (now : Z)
| OpDismiss (id : string) (owner : Z)
| OpPrune (now ttl : Z).

Definition dm_step (st : dm_state) (o : dm_op) : dm_state :=
  match o with
  | OpCancel now id => fst (CancelTask now st id)
  | OpCancelAll now => CancelAllTasks now st
  | OpDismiss id owner => fst (DismissTask st id owner)
  | OpPrune now ttl => PruneOldTasks now ttl st
  end.

Definition dm_steps : dm_state -> list dm_op -> dm_state := foldl dm_step.

(** ** The download goroutine *)

Section Worker.
Context `{CryptoPrims}.

(** [float_scale d t m] is [int((float64(d) / float64(t)) * m)]: progress is
    computed in floating point, whose rounding is left to the argument. *)
Context (float_scale : Z -> Z -> Z -> Z).

Definition getUserStorageUsed (e : req_env) (db : option database) (ownerID : Z) : Z :=
  match db with
  | None => 0
  | Some d =>
      if query_ok e
      then foldr Z.add 0 (map fr_size (List.filter (fun r => fr_owner r =? ownerID) (active_rows d)))
      else 0
  end.

(** The goroutine's streams: encryption into the buffered temporary file,
    and the bytes hashed so far. *)
Record worker := mkWorker {
  w_dm : dm_state;
  w_es : EncryptStream (W := bufio_writer);
  w_hash : bytes
}.

Definition on_dm (w : worker) (f : dm_state -> dm_state) : worker :=
  mkWorker (f (w_dm w)) (w_es w) (w_hash w).

(** [ctx.Done()] of the task's context. *)
Definition ctx_done (st : dm_state) (r : nat) : bool :=
  match dm_objs st !! r with Some t => t_cancelled t | None => false end.

Definition err_canceled : gerror := ErrMsg "context canceled".

(** Writing to [io.MultiWriter(encStream, hasher)]. *)
Definition multi_write (cap : Z) (w : worker) (p : bytes) : worker * option gerror :=
  match enc_write (bw_write cap) (w_es w) p with
  | (es, (_, Some er)) => (mkWorker (w_dm w) es (w_hash w), Some er)
  | (es, (_, None)) => (mkWorker (w_dm w) es (w_hash w ++ p), None)
  end.

(** What reporting progress does to the task (lines 236-275). *)
Definition report (e : req_env) (currentUsed downloaded total : Z) (speed : string) (t : DownloadTask)
  : DownloadTask :=
  if (0 <? QuotaBytes e) && (QuotaBytes e <? i64 (currentUsed + downloaded))
  then failTask (now_ e) quota_message (cancel_func t)
  else
    let t1 := set_downloaded t downloaded in
    let t2 := if 0 <? total
              then set_info t1 (mkInfo (fi_Filename (t_info t1)) (fi_MimeType (t_info t1)) total) else t1 in
    let l := t_life t2 in
    let progress :=
      if 0 <? total then
        let calc := float_scale downloaded total 90 in 5 + (if 92 <? calc then 92 else calc)
      else 45 in
    set_life t2 (mkLife (Status l) "Mengunduh..." speed progress (ErrorMessage l) (t_CompletedAt l)).

Definition onProgress (e : req_env) (r : nat) (currentUsed : Z) (w : worker) (downloaded total : Z)
    (speed : string) : worker :=
  on_dm w (fun st => update st r (report e currentUsed downloaded total speed)).

(** One turn of the reading loop: what other goroutines did before it, what
    [src.Read] returned, and whether 350 ms have passed since the last report
    (with the speed then shown). *)
Record read_event := mkRead {
  re_ops : list dm_op;
  re_data : bytes;
  re_err : option gerror;
  re_slow : bool;
  re_speed : string
}.

(** streamWithProgress; a source that has no more events returns 0, io.EOF. *)
Fixpoint streamWithProgress (e : req_env) (r : nat) (currentUsed : Z) (w : worker)
    (src : list read_event) (downloaded total : Z) : worker * option gerror :=
  match src with
  | [] =>
      if ctx_done (w_dm w) r then (w, Some err_canceled)
      else (onProgress e r currentUsed w downloaded total "Idle", None)
  | ev :: src' =>
      let w := on_dm w (fun st => dm_steps st (re_ops ev)) in
      if ctx_done (w_dm w) r then (w, Some err_canceled)
      else
        let '(w1, werr) := if 0 <? zlen (re_data ev) then multi_write (disk_cap e) w (re_data ev)
                           else (w, None) in
        match werr with
        | Some er => (w1, Some er)
        | None =>
            let downloaded := i64 (downloaded + zlen (re_data ev)) in
            let w2 := if (0 <? zlen (re_data ev)) && re_slow ev
                      then onProgress e r currentUsed w1 downloaded total (re_speed ev) else w1 in
            match re_err ev with
            | None => streamWithProgress e r currentUsed w2 src' downloaded total
            | Some EOF => (onProgress e r currentUsed w2 downloaded total "Idle", None)
            | Some er => (w2, Some er)
            end
        end
  end.

(** What a server answers: an error before the body, or the response's name,
    type and length with the body's reads. *)
Abbreviation response := (result (DirectFileInfo * list read_event)).

(** The callback that receives the response's description (lines 396-409). *)
Definition on_meta (hasCustomName : bool) (meta : DirectFileInfo) (t : DownloadTask) : DownloadTask :=
  let i := t_info t in
  let name := if negb hasCustomName && negb (String.eqb (fi_Filename meta) "")
                 && negb (HasPrefix (fi_Filename meta) "download_") then fi_Filename meta else fi_Filename i in
  let total := if 0 <? fi_TotalBytes meta then fi_TotalBytes meta else fi_TotalBytes i in
  let mime := if String.eqb (fi_MimeType meta) "" then fi_MimeType i else fi_MimeType meta in
  let l := t_life t in
  set_life (set_info t (mkInfo name mime total))
    (mkLife (Status l) "Mengunduh..." (SpeedText l) (Progress l) (ErrorMessage l) (t_CompletedAt l)).

(** DownloadDirect from the response on (direct.go, lines 180-199). *)
Definition DownloadDirect (e : req_env) (r : nat) (currentUsed : Z) (hasCustomName : bool)
    (reply : response) (w : worker) : worker * result DirectFileInfo :=
  match reply with
  | Err er => (w, Err er)
  | Ok (meta, src) =>
      let w1 := on_dm w (fun st => update st r (on_meta hasCustomName meta)) in
      let w2 := onProgress e r currentUsed w1 0 (fi_TotalBytes meta) "Menghubungkan..." in
      match streamWithProgress e r currentUsed w2 src 0 (fi_TotalBytes meta) with
      | (w3, Some er) => (w3, Err er)
      | (w3, None) => (w3, Ok meta)
      end
  end.

(** One attempt at a web seed: the answer, and the length to expect when it
    does not give one (torrent.go, lines 128-137). *)
Definition downloadFromWebSeed (e : req_env) (r : nat) (currentUsed exactLength : Z) (reply : response)
    (w : worker) : worker * option gerror :=
  match reply with
  | Err er => (w, Some er)
  | Ok (meta, src) =>
      let total := fi_TotalBytes meta in
      let total := if (total <=? 0) && (0 <? exactLength) then exactLength else total in
      streamWithProgress e r currentUsed w src 0 total
  end.

(** DownloadTorrent: the web seeds in turn (lines 39-50), then the trackers
    and peers, [peers], whose outcome may be of another kind. *)
Fixpoint seeds_then {A} (fetched canceled : A) (e : req_env) (r : nat) (currentUsed exactLength : Z)
    (seeds : list (list dm_op * response)) (peers : worker -> worker * A) (w : worker) : worker * A :=
  match seeds with
  | [] => peers w
  | (ops, reply) :: seeds' =>
      let w := on_dm w (fun st => dm_steps st ops) in
      if ctx_done (w_dm w) r then (w, canceled)
      else
        match downloadFromWebSeed e r currentUsed exactLength reply w with
        | (w1, None) => (w1, fetched)
        | (w1, Some _) => seeds_then fetched canceled e r currentUsed exactLength seeds' peers w1
        end
  end.

Definition DownloadTorrent : req_env -> nat -> Z -> Z -> list (list dm_op * response) ->
    (worker -> worker * option gerror) -> worker -> worker * option gerror :=
  seeds_then None (Some err_canceled).

(** How the payload comes: a direct link that is not eligible for the
    accelerated mode, or a magnet link with its parsed name and length. *)
Inductive fetch_plan :=
| FetchDirect (reply : response)
| FetchMagnet (magnet : result (string * Z)) (mime_of : string -> string)
    (seeds : list (list dm_op * response)) (peers : worker -> worker * option gerror).

(** A failed fetch: the task is cancelled when its context is, else failed.
    The text of the error that Go appends to [msg] is left out. *)
Definition fetch_failed (e : req_env) (r : nat) (msg : string) (w : worker) : worker :=
  on_dm w (fun st => update st r (if ctx_done st r then cancelTask (now_ e) else failTask (now_ e) msg)).

(** Lines 394-453: the final name and type, or [None] after a failure. *)
Definition fetch (e : req_env) (r : nat) (currentUsed : Z) (hasCustomName : bool) (plan : fetch_plan)
    (w : worker) : worker * option (string * string) :=
  match plan with
  | FetchDirect reply =>
      match DownloadDirect e r currentUsed hasCustomName reply w with
      | (w1, Err _) => (fetch_failed e r "Direct download failed: " w1, None)
      | (w1, Ok info) =>
          let current := from_option (fun t => fi_Filename (t_info t)) "" (dm_objs (w_dm w1) !! r) in
          let name := if hasCustomName && negb (String.eqb current "") then current else fi_Filename info in
          (on_dm w1 (fun st => update st r (fun t =>
             set_info t (mkInfo (fi_Filename (t_info t)) (fi_MimeType (t_info t)) (fi_TotalBytes info)))),
           Some (name, fi_MimeType info))
      end
  | FetchMagnet magnet mime_of seeds peers =>
      match magnet with
      | Err _ => (on_dm w (fun st => update st r (failTask (now_ e) "Invalid magnet link: ")), None)
      | Ok (name, exactLength) =>
          match DownloadTorrent e r currentUsed exactLength seeds peers w with
          | (w1, Some _) => (fetch_failed e r "Torrent download failed: " w1, None)
          | (w1, None) =>
              let m := mime_of name in
              (w1, Some (name, if String.eqb m "" then "application/octet-stream" else m))
          end
      end
  end.

Definition tempPath (st : dm_state) (id : string) : string :=
  Join [dm_TmpDir st; "hornetz_dl_" +:+ id +:+ ".tmp"].

(** The deferred clean-up: a task that is not completed leaves no temporary
    file. *)
Definition cleanup_temp (e : req_env) (r : nat) (temp : string) (st : dm_state) : dm_state :=
  let completed := match dm_objs st !! r with
                   | Some t => bool_decide (Status (t_life t) = StatusCompleted)
                   | None => false
                   end in
  if completed then st else with_fs st (fs_remove (os e) (dm_fs st) temp).

Definition put_file (e : req_env) (temp : string) (b : bytes) (st : dm_state) : dm_state :=
  with_fs st (<[temp := mkFile b (now_ e)]> (dm_fs st)).

(** The deferred flush, close and clean-up after a failure. *)
Definition give_up_download (e : req_env) (r : nat) (temp : string) (w : worker) : dm_state :=
  cleanup_temp e r temp
    (put_file e temp (bw_file (bw_flush (disk_cap e) (es_w (w_es w)))) (w_dm w)).

Definition download_row (e : req_env) (t : DownloadTask) (name mime casHash plaintextHash : string)
  : file_row :=
  let folder := if String.eqb (t_FolderID t) "" || String.eqb (t_FolderID t) "root"
                then None else Some (t_FolderID t) in
  mkRow (file_id e) (t_OwnerID t) folder name mime (DownloadedBytes t) casHash plaintextHash false.

Definition complete_task (e : req_env) (casHash plaintextHash : string) (t : DownloadTask) : DownloadTask :=
  set_result
    (set_life t (mkLife StatusCompleted "Selesai" "Idle" 100 (ErrorMessage (t_life t)) (now_ e)))
    (file_id e, casHash, plaintextHash).

(** Lines 468-504: the encrypted file goes to the store, then the database. *)
Definition store_download (e : req_env) (r : nat) (temp name mime plaintextHash : string) (st : dm_state)
  : dm_state :=
  let fail msg st := update st r (failTask (now_ e) msg) in
  match MoveToCASWithStatus (os e) (dm_CAS st) (dm_fs st) temp with
  | (c1, f1, Err _) => fail "Failed to store encrypted payload in CAS: " (with_cas st c1 f1)
  | (c1, f1, Ok (casHash, existedBefore)) =>
      let st1 := with_cas st c1 f1 in
      let complete st := update st r (complete_task e casHash plaintextHash) in
      match dm_DB st1, dm_objs st1 !! r with
      | Some d, Some t =>
          match insert_row e d (download_row e t name mime casHash plaintextHash) with
          | Some d' => complete (with_db st1 (Some d'))
          | None =>
              fail "Failed to record downloaded file in database: "
                (if existedBefore then st1
                 else with_fs st1 (fs_remove (os e) (dm_fs st1) (Path (dm_CAS st1) casHash)))
          end
      | _, _ => complete st1
      end
  end.

(** Lines 455-466: flush, describe the file, store it.  [late] is what other
    goroutines do between the last look at the context and the move. *)
Definition finish_download (e : req_env) (r : nat) (temp name mime : string) (late : list dm_op) (w : worker)
  : dm_state :=
  let st1 := put_file e temp (bw_file (bw_flush (disk_cap e) (es_w (w_es w)))) (w_dm w) in
  let describe t :=
    let l := t_life t in
    set_life (set_info t (mkInfo name mime (fi_TotalBytes (t_info t))))
      (mkLife (Status l) "Menyimpan ke CAS..." (SpeedText l) 95 (ErrorMessage l) (t_CompletedAt l)) in
  let st2 := dm_steps (update st1 r describe) late in
  cleanup_temp e r temp
    (store_download e r temp name mime (EncodeToString (sha256 (w_hash w))) st2).

Definition vault_locked_message : string :=
  "Vault locked. Master password required to download into vault folder.".

(** Lines 208-219: the key the payload is encrypted under. *)
Definition download_key (e : req_env) (isVault : bool) (vaultKey : bytes) : option bytes :=
  let std := default [] (standard_key e) in
  if isVault then
    if (0 <? zlen vaultKey) && negb (bool_decide (vaultKey = std)) then Some vaultKey else None
  else Some std.

(** The goroutine up to its fetch (lines 186-234): it has ended, or goes on with a
    worker, the storage used so far and the temporary file's path. *)
Inductive started := Ended (st : dm_state) | Running (w : worker) (currentUsed : Z) (temp : string).

Definition begin_download (e : req_env) (st : dm_state) (r : nat) (isVault : bool) (vaultKey : bytes) : started :=
  match dm_objs st !! r with
  | None => Ended st
  | Some t =>
      let temp := tempPath st (t_ID t) in
      let fail st msg := Ended (cleanup_temp e r temp (update st r (failTask (now_ e) msg))) in
      if negb (create_ok (os e)) then fail st "failed to create temporary file: "
      else
        let st1 := put_file e temp [] st in
        match download_key e isVault vaultKey with
        | None => fail st1 vault_locked_message
        | Some vk =>
            match NewEncryptStream (mkBW [] [] None) vk with
            | Err _ => fail st1 "failed to initialize encryption stream: "
            | Ok es =>
                let currentUsed := getUserStorageUsed e (dm_DB st1) (t_OwnerID t) in
                if (0 <? QuotaBytes e) && (QuotaBytes e <=? currentUsed) then fail st1 quota_message
                else Running (mkWorker st1 es []) currentUsed temp
            end
        end
  end.

(** From the end of the fetch on. *)
Definition end_download (e : req_env) (r : nat) (temp : string) (late : list dm_op)
    (fetched : worker * option (string * string)) : dm_state :=
  match fetched with
  | (w, None) => give_up_download e r temp w
  | (w, Some (name, mime)) => finish_download e r temp name mime late w
  end.

Definition executeDownload (e : req_env) (st : dm_state) (r : nat) (isVault : bool) (vaultKey : bytes)
    (hasCustomName : bool) (plan : fetch_plan) (late : list dm_op) : dm_state :=
  match begin_download e st r isVault vaultKey with
  | Ended st' => st'
  | Running w currentUsed temp => end_download e r temp late (fetch e r currentUsed hasCustomName plan w)
  end.

End Worker.

(** ** The requests on tasks (download_controller.go) *)

(** A value of the request's context: an [int], or the [int64] the
    middleware stores (auth/middleware.go, lines 97, 126, 134 and 145). *)
Inductive ctx_value := CtxInt (n : Z) | CtxInt64 (n : Z).

(** What RequireAuth puts in the context for a user. *)
Definition set_user_id (userID : Z) : option ctx_value := Some (CtxInt64 userID).

(** [if uid, ok := c.Get("user_id").(int); ok && uid > 0 && task.OwnerID != 0
    && task.OwnerID != uid] *)
Definition foreign_task (user : option ctx_value) (t : DownloadTask) : bool :=
  match user with
  | Some (CtxInt uid) => (0 <? uid) && negb (t_OwnerID t =? 0) && negb (t_OwnerID t =? uid)
  | _ => false
  end.

Definition GetDownloadStatus (user : option ctx_value) (st : dm_state) (id : string)
  : resp + DownloadTask :=
  match GetTask st id with
  | None => inl (http_error 404 "download task not found")
  | Some t =>
      if foreign_task user t then inl (http_error 403 "forbidden: cannot access another user's download task")
      else inr t
  end.

Definition dismissed : resp :=
  mkResp 200 [("status", JStr "dismissed"); ("message", JStr "download task dismissed")].

(** [dismiss] is the query parameter. *)
Definition CancelDownload (now : Z) (user : option ctx_value) (dismiss : string) (st : dm_state) (id : string)
  : dm_state * resp :=
  match GetTask st id with
  | None => (st, http_error 404 "download task not found")
  | Some t =>
      if foreign_task user t then (st, http_error 403 "forbidden: cannot cancel another user's download task")
      else if String.eqb dismiss "true" || finished (Status (t_life t)) then
        (fst (DismissTask st id (t_OwnerID t)), dismissed)
      else
        match CancelTask now st id with
        | (st1, false) =>
            (st1, http_error 400 "download task cannot be cancelled (may be already completed)")
        | (st1, true) =>
            (st1, mkResp 200 [("status", JStr "cancelled"); ("message", JStr "download cancelled successfully")])
        end
  end.

Definition DismissDownload (user : option ctx_value) (st : dm_state) (id : string) : dm_state * resp :=
  match GetTask st id with
  | None => (st, http_error 404 "download task not found")
  | Some t =>
      if foreign_task user t then (st, http_error 403 "forbidden: cannot dismiss another user's download task")
      else
        match DismissTask st id (t_OwnerID t) with
        | (st1, true) => (st1, dismissed)
        | (st1, false) => (st1, http_error 400 "download task cannot be dismissed while still active")
        end
  end.
