(* ===== verification/DownloadTasksProps.v ===== *)
(** * Theorems about download tasks

    What a finished, failed, cancelled or raced download leaves in the task
    table, the store, the database and the temporary directory, and who may
    look at a task. *)

From S2P Require Import Prelude GoStrings FileSys CryptoPrims CryptoStream CryptoStreamFacts CAS CASProps UploadSession VaultTree Auth UploadCtrl UploadFacts DownloadTasks.

#[local] Open Scope string_scope.
#[local] Open Scope list_scope.
#[local] Open Scope Z_scope.

(** ** What the other goroutines can change *)

(** The same task, up to its life and its description. *)
Definition same_task (t t' : DownloadTask) : Prop :=
  t_ID t' = t_ID t /\ t_OwnerID t' = t_OwnerID t /\ t_FolderID t' = t_FolderID t.

#[export] Instance same_task_refl : Reflexive same_task.
Proof. by intros t. Qed.

#[export] Instance same_task_trans : Transitive same_task.
Proof. intros a b c (? & ? & ?) (? & ? & ?). repeat split; congruence. Qed.

(** Everything but the task objects and the table. *)
Definition same_store (st st' : dm_state) : Prop :=
  dm_TmpDir st' = dm_TmpDir st /\ dm_CAS st' = dm_CAS st /\ dm_DB st' = dm_DB st /\ dm_fs st' = dm_fs st.

#[export] Instance same_store_refl : Reflexive same_store.
Proof. by intros st. Qed.

#[export] Instance same_store_trans : Transitive same_store.
Proof. intros a b c (? & ? & ? & ?) (? & ? & ? & ?). repeat split; congruence. Qed.

(** What an operation of another goroutine does to a task object: nothing, or
    it cancels it and stamps it cancelled; a completed one is not touched. *)
Definition touched (t t' : DownloadTask) : Prop :=
  t' = t \/ (Status (t_life t) <> StatusCompleted /\ exists now, t' = cancelTask now (cancel_func t)).

Lemma load_Some st id r t :
  load st id = Some (r, t) <-> dm_tasks st !! id = Some r /\ dm_objs st !! r = Some t.
Proof.
  unfold load. destruct (dm_tasks st !! id) as [x|]; [|by split; [|intros []]].
  destruct (dm_objs st !! x) as [y|] eqn:Hy.
  - split; [by intros [= <- <-]|]. intros [[= ->] Ht]. congruence.
  - split; [done|]. intros [[= ->] Ht]. congruence.
Qed.

Lemma lookup_update st r f i : dm_objs (update st r f) !! i = (if decide (i = r) then f <$> dm_objs st !! r else dm_objs st !! i).
Proof.
  unfold update, with_objs. cbn [dm_objs]. case_decide as Hi.
  - subst. apply lookup_alter_eq.
  - by apply lookup_alter_ne.
Qed.

Lemma dm_step_frame st o : same_store st (dm_step st o).
Proof.
  destruct o as [now id|now|id ow|now ttl]; cbn [dm_step].
  - unfold CancelTask. destruct (load st id) as [[r t]|]; [|done]. by destruct (bool_decide _).
  - done.
  - unfold DismissTask. destruct (load st id) as [[r t]|]; [|done]. by destruct (_ && _).
  - done.
Qed.

Lemma dm_step_task st o r t :
  dm_objs st !! r = Some t -> exists t', dm_objs (dm_step st o) !! r = Some t' /\ touched t t'.
Proof.
  intros Ht. destruct o as [now id|now|id ow|now ttl]; cbn [dm_step].
  - unfold CancelTask. destruct (load st id) as [[i u]|] eqn:Hl; [|by exists t; split; [|left]].
    case_bool_decide as Hc; cbn [fst]; [by exists t; split; [|left]|].
    apply load_Some in Hl as [_ Hu]. rewrite lookup_update. case_decide as Hi; [|by exists t; split; [|left]].
    subst i. rewrite Ht in Hu |- *. injection Hu as <-. eexists. split; [reflexivity|]. right. eauto.
  - cbn. rewrite map_lookup_imap, Ht. cbn. eexists. split; [reflexivity|].
    destruct (listed st r); cbn; [|by left]. destruct (Status (t_life t)) eqn:Hs; cbn; try (by left); right; split; eauto; congruence.
  - unfold DismissTask. destruct (load st id) as [[i u]|]; [|by exists t; split; [|left]].
    destruct (_ && _); by exists t; split; [|left].
  - exists t. split; [done|by left].
Qed.

Lemma dm_steps_frame ops st : same_store st (dm_steps st ops).
Proof.
  revert st. induction ops as [|o ops IH]; intros st; [done|]. cbn.
  etrans; [apply (dm_step_frame st o)|]. apply IH.
Qed.

Lemma touched_same t t' : touched t t' -> same_task t t' /\ DownloadedBytes t' = DownloadedBytes t /\ ErrorMessage (t_life t') = ErrorMessage (t_life t).
Proof. by intros [->|(_ & now & ->)]. Qed.

Lemma dm_steps_task ops st r t :
  dm_objs st !! r = Some t ->
  exists t', dm_objs (dm_steps st ops) !! r = Some t' /\ same_task t t' /\
    DownloadedBytes t' = DownloadedBytes t /\ ErrorMessage (t_life t') = ErrorMessage (t_life t).
Proof.
  revert st t. induction ops as [|o ops IH]; intros st t Ht; [by exists t|]. cbn.
  destruct (dm_step_task st o r t Ht) as (t1 & Ht1 & Htt%touched_same).
  destruct (IH _ _ Ht1) as (t2 & Ht2 & Hs & Hd & He). exists t2. split; [done|].
  destruct Htt as (Hs1 & Hd1 & He1). split; [by etrans|]. split; congruence.
Qed.

Section TaskFacts.
Context `{CryptoLaws}.
Context (float_scale : Z -> Z -> Z -> Z).

Abbreviation stream := (streamWithProgress float_scale).

(** A report that is over the quota. *)
Definition exceeds (e : req_env) (used n : Z) : bool :=
  (0 <? QuotaBytes e) && (QuotaBytes e <? i64 (used + n)).

(** A read that nothing disturbs. *)
Definition quiet (ev : read_event) : Prop := re_ops ev = [] /\ re_err ev = None.

Definition payload (src : list read_event) : bytes := concat (map re_data src).

(** No report is made before the end, or none would be over the quota. *)
Definition calm (e : req_env) (used dl : Z) (src : list read_event) : Prop :=
  Forall (fun ev => re_slow ev = false) src \/
  (forall n, 0 <= n <= dl + zlen (payload src) -> exceeds e used n = false).

Lemma nonempty_app a b : nonempty_segs (a ++ b) = nonempty_segs a ++ nonempty_segs b.
Proof. apply filter_app. Qed.

(** What a report under the quota leaves of the task. *)
Lemma report_under e used n total speed t :
  exceeds e used n = false ->
  let t' := report float_scale e used n total speed t in
  same_task t t' /\ t_cancelled t' = t_cancelled t /\ DownloadedBytes t' = n /\
  ErrorMessage (t_life t') = ErrorMessage (t_life t) /\ fi_Filename (t_info t') = fi_Filename (t_info t).
Proof.
  unfold exceeds, report. intros ->. destruct (0 <? total); by cbn.
Qed.

Lemma onProgress_frame e r used w n total speed :
  let w' := onProgress float_scale e r used w n total speed in
  same_store (w_dm w) (w_dm w') /\ w_es w' = w_es w /\ w_hash w' = w_hash w /\
  dm_objs (w_dm w') !! r = report float_scale e used n total speed <$> dm_objs (w_dm w) !! r.
Proof.
  unfold onProgress, on_dm. cbn [w_dm w_es w_hash]. rewrite lookup_update.
  by rewrite decide_True.
Qed.

(** The worker after writing [data], whose task is [t]. *)
Record wrote (key : bytes) (r : nat) (w w' : worker) (segs : list bytes) (t t' : DownloadTask) : Prop := {
  wr_store : same_store (w_dm w) (w_dm w');
  wr_key : es_key (w_es w') = key;
  wr_err : bw_err (es_w (w_es w')) = None;
  wr_total : bw_total (es_w (w_es w')) = bw_total (es_w (w_es w)) ++ encode key (nonempty_segs segs);
  wr_hash : w_hash w' = w_hash w ++ concat segs;
  wr_obj : dm_objs (w_dm w') !! r = Some t';
  wr_task : same_task t t';
  wr_live : t_cancelled t' = false;
  wr_msg : ErrorMessage (t_life t') = ErrorMessage (t_life t);
  wr_name : fi_Filename (t_info t') = fi_Filename (t_info t)
}.

Lemma wrote_trans key r w1 w2 w3 s1 s2 t1 t2 t3 :
  wrote key r w1 w2 s1 t1 t2 -> wrote key r w2 w3 s2 t2 t3 -> wrote key r w1 w3 (s1 ++ s2) t1 t3.
Proof.
  intros [] []. constructor; try done; try (by etrans); try congruence.
  - rewrite nonempty_app, encode_app, app_assoc. congruence.
  - rewrite concat_app, app_assoc. congruence.
Qed.

(** Writing one read's bytes. *)
Lemma multi_write_ok key cap r w p t :
  aes_key_ok key = true -> es_key (w_es w) = key -> bw_err (es_w (w_es w)) = None ->
  zlen (bw_total (es_w (w_es w))) + zlen (packet key p) <= cap ->
  dm_objs (w_dm w) !! r = Some t -> t_cancelled t = false -> p <> [] ->
  exists w', multi_write cap w p = (w', None) /\ w_dm w' = w_dm w /\ wrote key r w w' [p] t t.
Proof.
  intros Hk Hkey Herr Hcap Ht Hlive Hp. unfold multi_write, enc_write.
  apply zlen_pos in Hp as Hpos. destruct (Z.eqb_spec (zlen p) 0); [lia|].
  destruct (bw_write_ok cap (es_w (w_es w)) (packet key p) Herr Hcap) as (b & Hb & He & Htot).
  assert (nonempty_segs [p] = [p]) as Hne by (unfold nonempty_segs; by rewrite filter_cons_True).
  rewrite Hkey, Hb. eexists. split; [reflexivity|]. split; [done|].
  constructor; try done; cbn [w_es es_w w_hash].
  - rewrite Htot, Hne, encode_cons. cbn. by rewrite app_nil_r.
  - cbn. by rewrite app_nil_r.
Qed.

Lemma wrote_nothing key r w t :
  es_key (w_es w) = key -> bw_err (es_w (w_es w)) = None ->
  dm_objs (w_dm w) !! r = Some t -> t_cancelled t = false ->
  wrote key r w w [[]] t t.
Proof. intros. constructor; try done; cbn; by rewrite app_nil_r. Qed.

(** A report that is not over the quota. *)
Lemma wrote_report e used n total speed key r w w' segs t t' :
  exceeds e used n = false -> wrote key r w w' segs t t' ->
  exists t2, wrote key r w (onProgress float_scale e r used w' n total speed) segs t t2 /\
    DownloadedBytes t2 = n.
Proof.
  intros Hq [].
  pose proof (onProgress_frame e r used w' n total speed) as (Hst & Hes & Hh & Hobj).
  pose proof (report_under e used n total speed t' Hq) as (Hs & Hc & Hd & Hm & Hnm).
  rewrite wr_obj0 in Hobj. eexists. split; [|exact Hd].
  constructor; rewrite ?Hes, ?Hh, ?Hobj; try done; try (by etrans); congruence.
Qed.

Lemma onProgress_on_dm e r used w n total speed :
  onProgress float_scale e r used w n total speed =
  on_dm w (fun st => update st r (report float_scale e used n total speed)).
Proof. done. Qed.

Lemma i64_sum a b : 0 <= a -> 0 <= b -> a + b < 2 ^ 63 -> i64 (a + b) = a + b.
Proof. intros. apply i64_id. unfold in_i64. lia. Qed.

(** Undisturbed reads are encrypted and hashed one after the other. *)
Lemma stream_prefix e r used total key t evs w rest dl :
  aes_key_ok key = true -> Forall quiet evs -> calm e used dl evs ->
  es_key (w_es w) = key -> bw_err (es_w (w_es w)) = None ->
  zlen (bw_total (es_w (w_es w))) + zlen (encode key (nonempty_segs (map re_data evs))) <= disk_cap e ->
  dm_objs (w_dm w) !! r = Some t -> t_cancelled t = false ->
  0 <= dl -> dl + zlen (payload evs) < 2 ^ 63 ->
  exists w' t', stream e r used w (evs ++ rest) dl total
      = stream e r used w' rest (dl + zlen (payload evs)) total /\
    wrote key r w w' (map re_data evs) t t' /\
    (Forall (fun ev => re_slow ev = false) evs -> t' = t).
Proof.
  intros Hk Hq. revert w t dl. induction Hq as [|ev evs [Hops Herr] _ IH];
    intros w t dl Hcalm Hkey Hbw Hcap Ht Hlive Hdl Hlen.
  { exists w, t. cbn [app map]. change (payload []) with (@nil Z). change (zlen (@nil Z)) with 0.
    rewrite Z.add_0_r. split; [done|]. split; [|done]. constructor; try done; cbn; by rewrite app_nil_r. }
  change (payload (ev :: evs)) with (re_data ev ++ payload evs) in *. rewrite zlen_app in Hlen.
  pose proof (zlen_nonneg (re_data ev)) as Hnn. pose proof (zlen_nonneg (payload evs)) as Hnn2.
  assert (exists w1 t1, wrote key r w w1 [re_data ev] t t1 /\ (re_slow ev = false -> t1 = t) /\
    stream e r used w ((ev :: evs) ++ rest) dl total
    = stream e r used w1 (evs ++ rest) (dl + zlen (re_data ev)) total) as (w1 & t1 & Hw1 & Hslow1 & ->).
  { cbn [app streamWithProgress]. rewrite Hops. cbn [dm_steps foldl].
    assert (on_dm w (fun st => st) = w) as -> by (by destruct w).
    assert (ctx_done (w_dm w) r = false) as -> by (unfold ctx_done; by rewrite Ht).
    rewrite Herr, i64_sum by lia.
    destruct (Z.ltb_spec 0 (zlen (re_data ev))) as [Hpos|Hz].
    - cbn [map] in Hcap. destruct (multi_write_ok key (disk_cap e) r w (re_data ev) t) as (w1 & -> & Hdm & Hw); try done.
      { unfold nonempty_segs in Hcap. rewrite filter_cons_True in Hcap by (intros He; rewrite He in Hpos; done).
        rewrite encode_cons, zlen_app in Hcap.
        match type of Hcap with context [zlen (encode key ?x)] => pose proof (zlen_nonneg (encode key x)) end. lia. }
      { intros He. rewrite He in Hpos. done. }
      destruct (re_slow ev) eqn:Hs; cbn [andb]; [|by exists w1, t].
      assert (exceeds e used (dl + zlen (re_data ev)) = false) as Hx.
      { destruct Hcalm as [Hf|Hx]; [apply Forall_inv in Hf; congruence|]. apply Hx.
        change (payload (ev :: evs)) with (re_data ev ++ payload evs). rewrite zlen_app. lia. }
      destruct (wrote_report e used _ total (re_speed ev) key r w w1 _ t t Hx Hw) as (t2 & Hw2 & _).
      by eexists _, t2.
    - cbn [andb]. exists w, t. split; [|done].
      assert (re_data ev = []) as -> by (apply zlen_nil_inv; lia). by apply wrote_nothing. }
  destruct (IH w1 t1 (dl + zlen (re_data ev))) as (w2 & t2 & -> & Hw2 & Hslow2); try apply Hw1; try lia.
  - destruct Hcalm as [Hf|Hx]; [left; by apply Forall_inv_tail in Hf|]. right. intros n Hn. apply Hx.
    change (payload (ev :: evs)) with (re_data ev ++ payload evs). rewrite zlen_app. lia.
  - rewrite (wr_total _ _ _ _ _ _ _ Hw1), zlen_app. cbn [map] in Hcap.
    change (nonempty_segs (re_data ev :: map re_data evs))
      with (nonempty_segs ([re_data ev] ++ map re_data evs)) in Hcap.
    rewrite nonempty_app, encode_app, zlen_app in Hcap. lia.
  - exists w2, t2. split; [f_equal; rewrite zlen_app; lia|]. split; [by apply (wrote_trans _ _ _ _ _ _ _ _ _ _ Hw1)|].
    intros Hf. rewrite Hslow2 by (by apply Forall_inv_tail in Hf). apply Hslow1. by apply Forall_inv in Hf.
Qed.

(** ** Storing what was fetched *)

(** The operating system and the database do what they are asked. *)
Definition undisturbed (e : req_env) : Prop :=
  create_ok (os e) = true /\ mkdir_ok (os e) = true /\ rename_ok (os e) = true /\
  read_ok (os e) = true /\ remove_ok (os e) = true /\ copy_fails (os e) = None /\ insert_ok e = true.

(** The download of [segs] for task [t] is stored: the task is completed and
    shows [n] bytes and the message [msg], the row is in the database, the
    encrypted payload is in the store, the temporary file is gone. *)
Definition stored (e : req_env) (st st' : dm_state) (r : nat) (t : DownloadTask) (d : database)
    (key : bytes) (segs : list bytes) (name mime : string) (n : Z) (msg : string) : Prop :=
  let file := encode key (nonempty_segs segs) in
  let h := content_hash file in
  (exists t', dm_objs st' !! r = Some t' /\ Status (t_life t') = StatusCompleted /\
     Progress (t_life t') = 100 /\ ErrorMessage (t_life t') = msg /\ DownloadedBytes t' = n /\
     t_result t' = (file_id e, h, content_hash (concat segs))) /\
  dm_DB st' = Some (mkDB (folders d) (files d ++
     [mkRow (file_id e) (t_OwnerID t)
        (if String.eqb (t_FolderID t) "" || String.eqb (t_FolderID t) "root" then None else Some (t_FolderID t))
        name mime n h (content_hash (concat segs)) false])) /\
  dm_fs st' !! tempPath st (t_ID t) = None /\
  exists blob, fs_data (dm_fs st') (Path (dm_CAS st') h) = Some blob /\ content_hash blob = h /\
    (dm_fs st !! Path (dm_CAS st) h = None -> blob = file).

Lemma store_completes e r temp name mime ph st t file d :
  undisturbed e -> cas_inv (dm_CAS st) (dm_fs st) -> outside_cas (dm_CAS st) temp ->
  fs_data (dm_fs st) temp = Some file -> dm_DB st = Some d -> dm_objs st !! r = Some t ->
  let h := content_hash file in
  let st' := store_download e r temp name mime ph st in
  dm_objs st' !! r = Some (complete_task e h ph t) /\
  dm_DB st' = Some (mkDB (folders d) (files d ++ [download_row e t name mime h ph])) /\
  dm_fs st' !! temp = None /\
  exists blob, fs_data (dm_fs st') (Path (dm_CAS st') h) = Some blob /\ content_hash blob = h /\
    (dm_fs st !! Path (dm_CAS st) h = None -> blob = file).
Proof.
  intros (_ & Hmk & Hrn & Hrd & Hrm & Hcp & Hins) Hinv Hout Hf Hdb Ht h.
  assert (copy_undoable (os e)) as Hund by (by left).
  destruct (move_stores (os e) _ _ _ _ Hinv Hout Hund Hmk Hrn Hrd Hrm Hf)
    as (c1 & f1 & b & Hmove & _ & Hbase & Htemp & _ & _ & blob & Hblob & Hh & Hnew).
  unfold store_download. rewrite Hmove. cbn [dm_DB dm_objs with_cas].
  rewrite Hdb, Ht. unfold insert_row. rewrite Hins. rewrite lookup_update, decide_True by done.
  cbn [dm_objs with_db with_cas dm_DB update with_objs dm_fs dm_CAS]. rewrite Ht.
  split; [done|]. split; [done|]. split; [done|]. exists blob.
  assert (forall x, Path c1 x = Path (dm_CAS st) x) as -> by (intros x; unfold Path; by rewrite Hbase).
  done.
Qed.

(** A temporary file outside the store does not disturb it. *)
Lemma cas_inv_put c f temp x : cas_inv c f -> outside_cas c temp -> cas_inv c (<[temp := x]> f).
Proof.
  intros [H1 H2] Hout. split.
  - intros h b Hv. rewrite lookup_insert_ne by (by apply Hout). by apply H1.
  - intros h Hh. destruct (H2 h Hh) as [Hv Hb]. split; [done|].
    rewrite lookup_insert_ne by (by apply Hout). done.
Qed.

Lemma finish_completes e r st t d key segs name mime late w t' :
  undisturbed e -> cas_inv (dm_CAS st) (dm_fs st) -> outside_cas (dm_CAS st) (tempPath st (t_ID t)) ->
  dm_DB st = Some d -> same_store (put_file e (tempPath st (t_ID t)) [] st) (w_dm w) ->
  dm_objs (w_dm w) !! r = Some t' -> same_task t t' ->
  bw_err (es_w (w_es w)) = None -> bw_total (es_w (w_es w)) = encode key (nonempty_segs segs) ->
  zlen (encode key (nonempty_segs segs)) <= disk_cap e -> w_hash w = concat segs ->
  stored e st (finish_download e r (tempPath st (t_ID t)) name mime late w) r t d key segs name mime
    (DownloadedBytes t') (ErrorMessage (t_life t')).
Proof.
  intros Hu Hinv Hout Hdb (Htmp & Hcas & Hwdb & Hfs) Ht' (Hid & How & Hfo) Hbw Htot Hcap Hhash.
  unfold finish_download, stored. rewrite (bw_flush_ok _ _ Hbw) by (by rewrite Htot). cbn [bw_file].
  rewrite Htot, Hhash. set (temp := tempPath st (t_ID t)) in *. set (file := encode _ _) in *.
  set (st1 := update (put_file e temp file (w_dm w)) r _).
  assert (exists u, dm_objs st1 !! r = Some u /\ same_task t u /\ DownloadedBytes u = DownloadedBytes t' /\
    ErrorMessage (t_life u) = ErrorMessage (t_life t')) as (u & Hu1 & Hsu & Hdu & Heu).
  { subst st1. rewrite lookup_update, decide_True by done. cbn [put_file with_fs dm_objs].
    rewrite Ht'. by eexists. }
  destruct (dm_steps_task late st1 r u Hu1) as (v & Hv & Hsv & Hdv & Hev).
  pose proof (dm_steps_frame late st1) as (_ & Hc2 & Hd2 & Hf2).
  set (st2 := dm_steps st1 late) in *.
  cbn [st1 update put_file with_fs with_objs dm_CAS dm_DB dm_fs] in Hc2, Hd2, Hf2, Hcas, Hwdb, Hfs.
  destruct (store_completes e r temp name mime (content_hash (concat segs)) st2 v file d)
    as (Ho & Hb & Hn & blob & Hblob & Hh & Hnew); try done.
  - rewrite Hc2, Hf2, Hcas, Hfs. apply cas_inv_put; [by apply cas_inv_put|done].
  - by rewrite Hc2, Hcas.
  - unfold fs_data. by rewrite Hf2, lookup_insert_eq.
  - by rewrite Hd2, Hwdb.
  - change (EncodeToString (sha256 (concat segs))) with (content_hash (concat segs)).
    unfold cleanup_temp. rewrite Ho. cbn [complete_task set_result set_life t_life Status].
    rewrite bool_decide_eq_true_2 by done.
    destruct Hsu as (_ & How1 & Hfo1), Hsv as (_ & How2 & Hfo2).
    split; [|split; [|split; [done|]]].
    + eexists. split; [exact Ho|]. cbn. repeat split; congruence.
    + rewrite Hb. unfold download_row. do 3 f_equal. rewrite Hdv, Hdu, How2, How1, Hfo2, Hfo1. done.
    + exists blob. split; [done|]. split; [done|]. intros Hnone. apply Hnew.
      pose proof (content_hash_valid file) as Hvalid.
      rewrite Hc2, Hf2, Hcas, Hfs. by rewrite !lookup_insert_ne by (by apply Hout).
Qed.

(** ** Whole downloads *)

Definition used_by (e : req_env) (st : dm_state) (t : DownloadTask) : Z :=
  getUserStorageUsed e (dm_DB st) (t_OwnerID t).

(** What lets the goroutine of task [t] reach the network: nothing fails, the
    key is there, the quota is not used up. *)
Record startable (e : req_env) (st : dm_state) (r : nat) (t : DownloadTask) (d : database)
    (isVault : bool) (vk key : bytes) : Prop := {
  sa_env : undisturbed e;
  sa_inv : cas_inv (dm_CAS st) (dm_fs st);
  sa_out : outside_cas (dm_CAS st) (tempPath st (t_ID t));
  sa_db : dm_DB st = Some d;
  sa_obj : dm_objs st !! r = Some t;
  sa_live : t_cancelled t = false;
  sa_key : download_key e isVault vk = Some key;
  sa_aes : aes_key_ok key = true;
  sa_quota : QuotaBytes e <= 0 \/ used_by e st t < QuotaBytes e < 2 ^ 63;
  sa_used : 0 <= used_by e st t
}.

(** The goroutine's first worker. *)
Definition first_worker (e : req_env) (st : dm_state) (t : DownloadTask) (key : bytes) : worker :=
  mkWorker (put_file e (tempPath st (t_ID t)) [] st) (mkEnc (mkBW [] [] None) key) [].

Lemma begin_running e st r t d isVault vk key :
  startable e st r t d isVault vk key ->
  begin_download e st r isVault vk = Running (first_worker e st t key) (used_by e st t) (tempPath st (t_ID t)).
Proof.
  intros [(Hc & _) _ _ _ Ht _ Hkey Haes Hq _]. unfold begin_download.
  rewrite Ht, Hc, Hkey. unfold NewEncryptStream. rewrite Haes. cbn [negb].
  change (getUserStorageUsed e (dm_DB (put_file e (tempPath st (t_ID t)) [] st)) (t_OwnerID t))
    with (used_by e st t).
  assert ((0 <? QuotaBytes e) && (QuotaBytes e <=? used_by e st t) = false) as ->; [|done].
  destruct Hq as [Hq|Hq]; [by destruct (Z.ltb_spec 0 (QuotaBytes e)); [lia|]|].
  destruct (Z.leb_spec (QuotaBytes e) (used_by e st t)); [lia|]. apply andb_false_r.
Qed.

Lemma execute_fetch e st r t d isVault vk key hasCustomName plan late :
  startable e st r t d isVault vk key ->
  executeDownload float_scale e st r isVault vk hasCustomName plan late
  = match fetch float_scale e r (used_by e st t) hasCustomName plan (first_worker e st t key) with
    | (w, None) => give_up_download e r (tempPath st (t_ID t)) w
    | (w, Some (name, mime)) => finish_download e r (tempPath st (t_ID t)) name mime late w
    end.
Proof. intros Hs. unfold executeDownload. by rewrite (begin_running _ _ _ _ _ _ _ _ Hs). Qed.

(** [n] more bytes fit. *)
Definition under_quota (e : req_env) (used n : Z) : Prop :=
  QuotaBytes e <= 0 \/ used + n <= QuotaBytes e.

Lemma exceeds_under e used n m :
  0 <= used -> QuotaBytes e <= 0 \/ QuotaBytes e < 2 ^ 63 -> under_quota e used n -> 0 <= m <= n ->
  exceeds e used m = false.
Proof.
  intros Hu Hq Hn Hm. unfold exceeds, under_quota in *.
  destruct (Z.ltb_spec 0 (QuotaBytes e)); [|done]. rewrite i64_sum by lia. cbn [andb].
  destruct (Z.ltb_spec (QuotaBytes e) (used + m)); [lia|done].
Qed.

(** What DownloadDirect hands over for an undisturbed response. *)
Lemma direct_undisturbed e st r t d isVault vk key hasCustomName meta src :
  startable e st r t d isVault vk key ->
  Forall quiet src -> calm e (used_by e st t) 0 src ->
  33 * zlen (payload src) <= disk_cap e -> zlen (payload src) < 2 ^ 63 ->
  exists w t', DownloadDirect float_scale e r (used_by e st t) hasCustomName (Ok (meta, src)) (first_worker e st t key)
      = (onProgress float_scale e r (used_by e st t) w (zlen (payload src)) (fi_TotalBytes meta) "Idle", Ok meta) /\
    same_store (put_file e (tempPath st (t_ID t)) [] st) (w_dm w) /\
    bw_err (es_w (w_es w)) = None /\
    bw_total (es_w (w_es w)) = encode key (nonempty_segs (map re_data src)) /\
    w_hash w = payload src /\
    dm_objs (w_dm w) !! r = Some t' /\ same_task t t' /\ ErrorMessage (t_life t') = ErrorMessage (t_life t) /\
    (hasCustomName = true -> fi_Filename (t_info t') = fi_Filename (t_info t)) /\
    t_cancelled t' = false /\
    (Forall (fun ev => re_slow ev = false) src -> DownloadedBytes t' = 0).
Proof.
  intros Hs Hq Hcalm Hcap Hlen. pose proof Hs as [_ _ _ _ Ht Hlive _ Haes Hquota Hused].
  unfold DownloadDirect. set (w1 := on_dm _ (fun s => update s r (on_meta hasCustomName meta))).
  set (t1 := on_meta hasCustomName meta t).
  assert (exceeds e (used_by e st t) 0 = false) as H0x.
  { unfold exceeds. destruct (Z.ltb_spec 0 (QuotaBytes e)); [|done]. rewrite i64_sum by lia.
    destruct (Z.ltb_spec (QuotaBytes e) (used_by e st t + 0)); [lia|done]. }
  pose proof (onProgress_frame e r (used_by e st t) w1 0 (fi_TotalBytes meta) "Menghubungkan...") as (Hst & Hes & Hh & Hobj).
  pose proof (report_under e (used_by e st t) 0 (fi_TotalBytes meta) "Menghubungkan..." t1 H0x) as (Hsm & Hc & Hd & Hm & Hnm).
  set (w2 := onProgress _ _ _ _ _ _ _ _) in *.
  assert (dm_objs (w_dm w1) !! r = Some t1) as Hw1 by (subst w1; unfold on_dm; cbn [w_dm]; rewrite lookup_update, decide_True by done; cbn [first_worker w_dm put_file with_fs dm_objs]; by rewrite Ht).
  rewrite Hw1 in Hobj. cbn [fmap option_fmap option_map] in Hobj.
  set (t2 := report _ _ _ _ _ _ t1) in *.
  destruct (stream_prefix e r (used_by e st t) (fi_TotalBytes meta) key t2 src w2 [] 0 Haes Hq Hcalm)
    as (w3 & t3 & Heq & [] & Hslow); try (rewrite Hes; done); [|exact Hobj|by rewrite Hc|done|lia|].
  { rewrite Hes. cbn [w1 on_dm first_worker w_es es_w bw_total bw_file bw_buf app]. change (zlen (@nil Z)) with 0.
    pose proof (encode_room key (nonempty_segs (map re_data src)) Haes) as Hr.
    rewrite concat_nonempty in Hr. unfold payload in Hcap. etrans; [|exact Hcap]. apply Hr.
    apply Forall_forall. by intros x [Hx _]%list_elem_of_filter. }
  exists w3, t3. rewrite app_nil_r, Z.add_0_l in Heq. rewrite Heq. cbn [streamWithProgress].
  assert (ctx_done (w_dm w3) r = false) as -> by (unfold ctx_done; by rewrite wr_obj0).
  split; [done|]. split; [by etrans|]. split; [done|].
  split; [rewrite wr_total0, Hes; done|]. split; [rewrite wr_hash0, Hh; done|]. split; [done|].
  split; [by do 2 (etrans; [|eassumption])|].
  split; [rewrite wr_msg0, Hm; done|]. split; [|split; [done|]].
  - intros ->. rewrite wr_name0, Hnm. done.
  - intros Hf. rewrite Hslow by done. exact Hd.
Qed.

(** The name a direct download is stored under. *)
Definition final_name (hasCustomName : bool) (t : DownloadTask) (meta : DirectFileInfo) : string :=
  if hasCustomName && negb (String.eqb (fi_Filename (t_info t)) "") then fi_Filename (t_info t)
  else fi_Filename meta.

(** From the end of the fetch to the end of the goroutine, whatever the last
    report did to the task. *)
Lemma direct_completes e st r t d isVault vk key hasCustomName meta src late n msg :
  startable e st r t d isVault vk key ->
  Forall quiet src -> calm e (used_by e st t) 0 src ->
  33 * zlen (payload src) <= disk_cap e -> zlen (payload src) < 2 ^ 63 ->
  (forall t', same_task t t' -> ErrorMessage (t_life t') = ErrorMessage (t_life t) ->
     (Forall (fun ev => re_slow ev = false) src -> DownloadedBytes t' = 0) ->
     let u := report float_scale e (used_by e st t) (zlen (payload src)) (fi_TotalBytes meta) "Idle" t' in
     DownloadedBytes u = n /\ ErrorMessage (t_life u) = msg) ->
  stored e st (executeDownload float_scale e st r isVault vk hasCustomName (FetchDirect (Ok (meta, src))) late)
    r t d key (map re_data src) (final_name hasCustomName t meta) (fi_MimeType meta) n msg.
Proof.
  intros Hs Hq Hcalm Hcap Hlen Hlast. pose proof Hs as [Henv Hinv Hout Hdb _ _ _ Haes _ _].
  rewrite (execute_fetch _ _ _ _ _ _ _ _ _ _ _ Hs). unfold fetch.
  destruct (direct_undisturbed e st r t d isVault vk key hasCustomName meta src Hs Hq Hcalm Hcap Hlen)
    as (w & t' & -> & Hst & Hbw & Htot & Hhash & Hobj & Hsame & Hmsg & Hname & _ & Hzero).
  pose proof (onProgress_frame e r (used_by e st t) w (zlen (payload src)) (fi_TotalBytes meta) "Idle")
    as (Hst2 & Hes & Hh & Hobj2).
  destruct (Hlast t' Hsame Hmsg Hzero) as [Hn Hm].
  set (u := report _ _ _ _ _ _ t') in *. set (w2 := onProgress _ _ _ _ _ _ _ _) in *.
  rewrite Hobj in Hobj2. cbn [fmap option_fmap option_map] in Hobj2. rewrite Hobj2. cbn [from_option].
  assert (same_task t' u /\ fi_Filename (t_info u) = fi_Filename (t_info t')) as [Hsu Hnu].
  { subst u. unfold report. destruct (_ && _); [done|]. by destruct (0 <? _). }
  assert (forall x, x = fi_Filename (t_info u) ->
    (if hasCustomName && negb (String.eqb x "") then x else fi_Filename meta)
    = final_name hasCustomName t meta) as Hfn.
  { intros x ->. unfold final_name. destruct hasCustomName; [|done]. by rewrite Hnu, Hname. }
  rewrite Hfn by done.
  set (u2 := set_info u (mkInfo (fi_Filename (t_info u)) (fi_MimeType (t_info u)) (fi_TotalBytes meta))).
  rewrite <- Hn, <- Hm. change (DownloadedBytes u) with (DownloadedBytes u2).
  change (ErrorMessage (t_life u)) with (ErrorMessage (t_life u2)).
  apply finish_completes; try done; cbn [on_dm w_es w_dm w_hash].
  - rewrite lookup_update, decide_True by done. by rewrite Hobj2.
  - etrans; [exact Hsame|]. exact Hsu.
  - pose proof (encode_room key (nonempty_segs (map re_data src)) Haes) as Hr.
    rewrite concat_nonempty in Hr. etrans; [|exact Hcap]. apply Hr.
    apply Forall_forall. by intros x [Hx _]%list_elem_of_filter.
Qed.

(** The reads are at most as large as the 64 KiB buffer of
    streamWithProgress. *)
Definition buffer_reads (src : list read_event) : Prop :=
  Forall (fun ev => zlen (re_data ev) <= 64 * 1024) src.

(** C13: A direct download that nothing interrupts and that fits the quota is
    stored whole, whatever other goroutines do to its task after its last
    look at the context, cancelling it included: the task shows Completed,
    100 % and the number of bytes received; the store holds, under the
    recorded hash, an encryption of exactly these bytes in readable chunks;
    the recorded plaintext hash is theirs; the database gains one row of that
    size; the temporary file is gone. *)
Theorem download_task_stores_payload e st r t d isVault vk key hasCustomName meta src late :
  startable e st r t d isVault vk key ->
  Forall quiet src -> buffer_reads src ->
  33 * zlen (payload src) <= disk_cap e -> zlen (payload src) < 2 ^ 63 ->
  under_quota e (used_by e st t) (zlen (payload src)) ->
  stored e st (executeDownload float_scale e st r isVault vk hasCustomName (FetchDirect (Ok (meta, src))) late)
    r t d key (map re_data src) (final_name hasCustomName t meta) (fi_MimeType meta)
    (zlen (payload src)) (ErrorMessage (t_life t)) /\
  Forall good_chunk (nonempty_segs (map re_data src)) /\
  concat (nonempty_segs (map re_data src)) = payload src.
Proof.
  intros Hs Hq Hsmall Hcap Hlen Hquota. pose proof (sa_used _ _ _ _ _ _ _ _ Hs) as Hused.
  assert (forall n, 0 <= n <= zlen (payload src) -> exceeds e (used_by e st t) n = false) as Hx.
  { intros n Hn. eapply exceeds_under; [done| |exact Hquota|done].
    destruct (sa_quota _ _ _ _ _ _ _ _ Hs); [by left|right; lia]. }
  pose proof (zlen_nonneg (payload src)) as Hnn. split; [|split].
  - apply direct_completes; [done|done|by right|done|done|]. intros t' _ Hm _ u.
    pose proof (report_under e (used_by e st t) _ (fi_TotalBytes meta) "Idle" t' (Hx (zlen (payload src)) ltac:(lia)))
      as (_ & _ & Hd & He & _). split; [done|]. subst u. congruence.
  - apply small_good. unfold small_reads. apply Forall_map. eapply Forall_impl; [exact Hsmall|].
    cbn. intros. lia.
  - apply concat_nonempty.
Qed.

(** The quota is not enforced on a download whose reads all come within
    350 ms of the last report: the only report that sees its size is the last
    one, after which nothing looks at the context.  The whole payload is
    stored and the task is Completed with the quota error as its message; the
    row is recorded with size 0, so that the user's storage counts none of
    it and the next download passes the quota check again. *)
Theorem quota_bypassed_by_fast_download e st r t d isVault vk key hasCustomName meta src late :
  startable e st r t d isVault vk key ->
  Forall quiet src -> Forall (fun ev => re_slow ev = false) src ->
  33 * zlen (payload src) <= disk_cap e -> used_by e st t + zlen (payload src) < 2 ^ 63 ->
  0 < QuotaBytes e < used_by e st t + zlen (payload src) ->
  let st' := executeDownload float_scale e st r isVault vk hasCustomName (FetchDirect (Ok (meta, src))) late in
  stored e st st' r t d key (map re_data src) (final_name hasCustomName t meta) (fi_MimeType meta)
    0 quota_message /\
  used_by e st' t = used_by e st t.
Proof.
  intros Hs Hq Hslow Hcap Hlen Hquota st'. pose proof (sa_used _ _ _ _ _ _ _ _ Hs) as Hused.
  pose proof (zlen_nonneg (payload src)) as Hnn.
  assert (stored e st st' r t d key (map re_data src) (final_name hasCustomName t meta) (fi_MimeType meta)
    0 quota_message) as Hst.
  { apply direct_completes; [done|done|by left|done|lia|]. intros t' _ _ Hz u. subst u. unfold report.
    rewrite i64_sum by lia. destruct (Z.ltb_spec 0 (QuotaBytes e)); [|lia].
    destruct (Z.ltb_spec (QuotaBytes e) (used_by e st t + zlen (payload src))); [|lia]. cbn [andb].
    split; [by apply Hz|done]. }
  split; [exact Hst|]. destruct Hst as (_ & Hdb & _). unfold used_by, getUserStorageUsed.
  rewrite Hdb, (sa_db _ _ _ _ _ _ _ _ Hs). destruct (query_ok e); [|done].
  unfold active_rows. cbn [files]. rewrite List.filter_app. cbn [List.filter fr_deleted negb].
  rewrite List.filter_app, map_app, foldr_app. f_equal. cbn [List.filter fr_owner].
  by rewrite Z.eqb_refl.
Qed.

(** ** Web seeds *)

Lemma payload_app a b : payload (a ++ b) = payload a ++ payload b.
Proof. unfold payload. by rewrite map_app, concat_app. Qed.

Lemma calm_under e used n src :
  0 <= used -> QuotaBytes e <= 0 \/ QuotaBytes e < 2 ^ 63 -> under_quota e used n ->
  zlen (payload src) <= n -> calm e used 0 src.
Proof. intros Hu Hq Hn Hle. right. intros m Hm. apply (exceeds_under e used n); [done|done|done|lia]. Qed.

(** A connection that breaks after some reads. *)
Definition broken (src : list read_event) (er : gerror) : list read_event :=
  src ++ [mkRead [] [] (Some er) false ""].

Lemma stream_broken e r used w t er dl total :
  dm_objs (w_dm w) !! r = Some t -> t_cancelled t = false -> er <> EOF ->
  stream e r used w [mkRead [] [] (Some er) false ""] dl total = (w, Some er).
Proof.
  intros Ht Hlive Her. cbn [streamWithProgress re_ops re_data re_err re_slow andb dm_steps foldl].
  assert (on_dm w (fun st => st) = w) as -> by (by destruct w).
  unfold ctx_done. rewrite Ht, Hlive. change (0 <? zlen []) with false. cbn [andb]. by destruct er.
Qed.

Lemma encode_payload_room key src :
  aes_key_ok key = true -> zlen (encode key (nonempty_segs (map re_data src))) <= 33 * zlen (payload src).
Proof.
  intros Hk. unfold payload. rewrite <- concat_nonempty. apply encode_room; [done|].
  apply Forall_forall. by intros x [Hx _]%list_elem_of_filter.
Qed.

(** The reads of one attempt, under the quota. *)
Lemma attempt e r used n total key t src w rest :
  aes_key_ok key = true -> Forall quiet src ->
  es_key (w_es w) = key -> bw_err (es_w (w_es w)) = None ->
  zlen (bw_total (es_w (w_es w))) + 33 * zlen (payload src) <= disk_cap e ->
  dm_objs (w_dm w) !! r = Some t -> t_cancelled t = false ->
  0 <= used -> QuotaBytes e <= 0 \/ QuotaBytes e < 2 ^ 63 -> under_quota e used n ->
  zlen (payload src) <= n < 2 ^ 63 ->
  exists w' t', stream e r used w (src ++ rest) 0 total = stream e r used w' rest (zlen (payload src)) total /\
    wrote key r w w' (map re_data src) t t' /\ ctx_done (w_dm w') r = false.
Proof.
  intros Hk Hq Hkey Hbw Hcap Ht Hlive Hu Hq' Hn Hle. pose proof (encode_payload_room key src Hk).
  destruct (stream_prefix e r used total key t src w rest 0 Hk Hq) as (w' & t' & Heq & Hw & _);
    try done; try lia; [by apply (calm_under e used n); try done; lia|].
  exists w', t'. split; [by rewrite Heq|]. split; [done|].
  unfold ctx_done. rewrite (wr_obj _ _ _ _ _ _ _ Hw). apply Hw.
Qed.

(** A magnet download whose first web seed breaks off and whose second
    one answers in full completes with a file nobody sent: the bytes of the
    first attempt stay in the encryption stream and in the hasher, the second
    seed starts again from the beginning behind them, and the database row
    gives only the second seed's length. *)
Theorem broken_seed_corrupts_download e st r t d isVault vk key hasCustomName name len mime_of peers
    meta1 src1 er meta2 src2 late :
  startable e st r t d isVault vk key ->
  Forall quiet src1 -> Forall quiet src2 -> er <> EOF ->
  33 * zlen (payload (src1 ++ src2)) <= disk_cap e -> zlen (payload (src1 ++ src2)) < 2 ^ 63 ->
  under_quota e (used_by e st t) (zlen (payload (src1 ++ src2))) ->
  let plan := FetchMagnet (Ok (name, len)) mime_of
                [([], Ok (meta1, broken src1 er)); ([], Ok (meta2, src2))] peers in
  stored e st (executeDownload float_scale e st r isVault vk hasCustomName plan late)
    r t d key (map re_data (src1 ++ src2)) name
    (if String.eqb (mime_of name) "" then "application/octet-stream" else mime_of name)
    (zlen (payload src2)) (ErrorMessage (t_life t)).
Proof.
  intros Hs Hq1 Hq2 Her Hcap Hlen Hquota plan.
  pose proof Hs as [Henv Hinv Hout Hdb Ht Hlive _ Haes Hq Hused].
  assert (QuotaBytes e <= 0 \/ QuotaBytes e < 2 ^ 63) as Hq' by (destruct Hq; [by left|right; lia]).
  pose proof (encode_payload_room key (src1 ++ src2) Haes) as Hroom.
  pose proof (encode_payload_room key src1 Haes) as Hroom1.
  rewrite payload_app, zlen_app in Hcap, Hlen, Hquota, Hroom. rewrite map_app in Hroom |- *.
  pose proof (zlen_nonneg (payload src1)). pose proof (zlen_nonneg (payload src2)).
  rewrite (execute_fetch _ _ _ _ _ _ _ _ _ _ _ Hs). unfold plan, fetch, DownloadTorrent. cbn [seeds_then dm_steps foldl].
  set (w0 := first_worker e st t key). set (used := used_by e st t) in *.
  assert (on_dm w0 (fun st => st) = w0) as -> by done.
  assert (ctx_done (w_dm w0) r = false) as -> by (unfold ctx_done; cbn; by rewrite Ht).
  unfold downloadFromWebSeed at 1, broken. set (total1 := if _ && _ then len else _).
  destruct (attempt e r used (zlen (payload src1) + zlen (payload src2)) total1 key t src1 w0 [mkRead [] [] (Some er) false ""] Haes Hq1)
    as (w1 & t1 & -> & Hw1 & Hctx1); [done|done|cbn; change (zlen (@nil Z)) with 0; lia|done|done|done|done|exact Hquota|lia|].
  rewrite (stream_broken _ _ _ _ t1) by first [apply Hw1|done].
  assert (on_dm w1 (fun st => st) = w1) as -> by (by destruct w1). rewrite Hctx1.
  unfold downloadFromWebSeed. set (total2 := if _ && _ then len else _).
  destruct (attempt e r used (zlen (payload src1) + zlen (payload src2)) total2 key t1 src2 w1 [] Haes Hq2) as (w2 & t2 & Heq2 & Hw2 & Hctx2);
    try apply Hw1; [|done|done|exact Hquota|lia|].
  { rewrite (wr_total _ _ _ _ _ _ _ Hw1). cbn [w0 first_worker w_es es_w bw_total bw_file bw_buf app]. lia. }
  rewrite app_nil_r in Heq2. rewrite Heq2. cbn [streamWithProgress]. rewrite Hctx2.
  assert (exceeds e used (zlen (payload src2)) = false) as Hx by (eapply exceeds_under; try done; lia).
  destruct (wrote_report e used (zlen (payload src2)) total2 "Idle" key r w0 w2 _ t t2 Hx
    (wrote_trans _ _ _ _ _ _ _ _ _ _ Hw1 Hw2)) as (t3 & Hw3 & Hd3).
  assert (ErrorMessage (t_life t) = ErrorMessage (t_life t3)) as -> by (symmetry; apply Hw3).
  set (w3 := onProgress _ _ _ _ _ _ _ _) in *. rewrite <- Hd3.
  apply finish_completes; try done; try apply Hw3. lia.
Qed.

(** ** Whatever happens *)

(** The goroutine touches nothing but tasks before it stores, and its object
    stays. *)
Definition only_tasks (r : nat) (w w' : worker) : Prop :=
  same_store (w_dm w) (w_dm w') /\ (is_Some (dm_objs (w_dm w) !! r) -> is_Some (dm_objs (w_dm w') !! r)).

#[local] Instance only_tasks_refl r : Reflexive (only_tasks r).
Proof. by intros w. Qed.

#[local] Instance only_tasks_trans r : Transitive (only_tasks r).
Proof. intros a b c [? ?] [? ?]. split; [by etrans|auto]. Qed.

Lemma only_tasks_update r w f : only_tasks r w (on_dm w (fun st => update st r f)).
Proof.
  split; [done|]. cbn [on_dm w_dm]. rewrite lookup_update, decide_True by done.
  intros [t ->]. by eexists.
Qed.

Lemma only_tasks_ops r w ops : only_tasks r w (on_dm w (fun st => dm_steps st ops)).
Proof.
  split; [apply dm_steps_frame|]. intros [t Ht]. cbn [on_dm w_dm].
  destruct (dm_steps_task ops _ _ _ Ht) as (t' & -> & _). by eexists.
Qed.

Lemma only_tasks_write r cap w p : only_tasks r w (fst (multi_write cap w p)).
Proof. unfold multi_write. destruct (enc_write _ _ _) as [es [n [er|]]]; done. Qed.

#[local] Hint Resolve only_tasks_update only_tasks_ops only_tasks_write : hornetz.

Lemma stream_frame e r used src w dl total : only_tasks r w (fst (stream e r used w src dl total)).
Proof.
  revert w dl. induction src as [|ev src IH]; intros w dl; cbn [streamWithProgress].
  { destruct (ctx_done _ r); cbn [fst]; [done|]. apply only_tasks_update. }
  etrans; [apply (only_tasks_ops r w (re_ops ev))|]. set (w0 := on_dm w _).
  destruct (ctx_done _ r); [done|].
  assert (exists w1 x, (if 0 <? zlen (re_data ev) then multi_write (disk_cap e) w0 (re_data ev) else (w0, None))
    = (w1, x) /\ only_tasks r w0 w1) as (w1 & x & -> & Hw1).
  { destruct (0 <? _); [|by exists w0, None]. pose proof (only_tasks_write r (disk_cap e) w0 (re_data ev)).
    destruct (multi_write _ _ _) as [w1 x]. by exists w1, x. }
  etrans; [exact Hw1|]. destruct x; [done|]. set (w2 := if _ && _ then _ else w1).
  assert (only_tasks r w1 w2) as Hw2 by (subst w2; destruct (_ && _); [apply only_tasks_update|done]).
  etrans; [exact Hw2|]. destruct (re_err ev) as [[| |m]|]; first [apply only_tasks_update|apply IH|done].
Qed.

Lemma direct_frame e r used hasCustomName reply w :
  only_tasks r w (fst (DownloadDirect float_scale e r used hasCustomName reply w)).
Proof.
  unfold DownloadDirect. destruct reply as [[meta src]|er]; [|done].
  etrans; [apply (only_tasks_update r w (on_meta hasCustomName meta))|]. set (w1 := on_dm w _).
  etrans; [apply (only_tasks_update r w1 (report float_scale e used 0 (fi_TotalBytes meta) "Menghubungkan..."))|].
  pose proof (stream_frame e r used src
    (onProgress float_scale e r used w1 0 (fi_TotalBytes meta) "Menghubungkan...") 0 (fi_TotalBytes meta)) as Hf.
  destruct (stream _ _ _ _ _ _ _) as [w3 [er|]]; exact Hf.
Qed.

(** How a goroutine may leave the manager: its task is finished and its
    temporary file is gone; a completed task names a blob of the store, and
    one that is not completed added nothing to the database. *)
Definition ended (e : req_env) (st st' : dm_state) (r : nat) (temp : string) : Prop :=
  (exists t', dm_objs st' !! r = Some t' /\ finished (Status (t_life t')) = true /\
    if bool_decide (Status (t_life t') = StatusCompleted) then
      exists h ph blob, t_result t' = (file_id e, h, ph) /\
        fs_data (dm_fs st') (Path (dm_CAS st') h) = Some blob /\ content_hash blob = h
    else dm_DB st' = dm_DB st) /\
  dm_fs st' !! temp = None.

Lemma ended_failed e st st' r temp f :
  remove_ok (os e) = true -> is_Some (dm_objs st' !! r) -> dm_DB st' = dm_DB st ->
  (forall t, Status (t_life (f t)) = StatusFailed \/ Status (t_life (f t)) = StatusCancelled) ->
  ended e st (cleanup_temp e r temp (update st' r f)) r temp.
Proof.
  intros Hrm [t Ht] Hdb Hf. unfold cleanup_temp. rewrite lookup_update, decide_True by done.
  rewrite Ht. cbn [fmap option_fmap option_map].
  assert (bool_decide (Status (t_life (f t)) = StatusCompleted) = false) as Hb.
  { apply bool_decide_eq_false_2. destruct (Hf t); congruence. }
  rewrite Hb. split.
  - exists (f t). cbn [with_fs dm_objs]. rewrite lookup_update, decide_True by done. rewrite Ht, Hb.
    split; [done|]. split; [by destruct (Hf t) as [->| ->]|done].
  - cbn [with_fs dm_fs]. unfold fs_remove. rewrite Hrm. apply lookup_delete_eq.
Qed.

Lemma store_ends e st st2 r temp name mime ph :
  remove_ok (os e) = true -> copy_undoable (os e) ->
  cas_inv (dm_CAS st2) (dm_fs st2) -> outside_cas (dm_CAS st2) temp ->
  is_Some (dm_objs st2 !! r) -> dm_DB st2 = dm_DB st ->
  ended e st (cleanup_temp e r temp (store_download e r temp name mime ph st2)) r temp.
Proof.
  intros Hrm Hund Hinv Hout [t Ht] Hdb. unfold store_download.
  destruct (MoveToCASWithStatus (os e) (dm_CAS st2) (dm_fs st2) temp) as [[c1 f1] [[h b]|er]] eqn:Hm.
  2:{ apply ended_failed; first [done|eexists; exact Ht|cbn; congruence|intros; by left]. }
  pose proof (move_cases _ _ _ _ _ _ _ Hinv Hout Hund Hm) as Hcases.
  destruct (outcome_inv _ _ _ _ _ _ _ Hinv Hout Hcases) as [Hinv1 Hbase].
  destruct (move_result_facts _ _ _ _ _ _ _ _ Hrm Hinv Hout Hcases) as (Hgone & blob & Hblob & Hh).
  cbn [dm_DB dm_objs with_cas]. rewrite Ht.
  assert (forall stx, dm_objs stx = dm_objs st2 -> dm_fs stx = f1 -> dm_CAS stx = c1 ->
    ended e st (cleanup_temp e r temp (update stx r (complete_task e h ph))) r temp) as Hdone.
  { intros stx Ho Hfx Hc. unfold cleanup_temp. rewrite lookup_update, decide_True, Ho, Ht by done.
    cbn [fmap option_fmap option_map complete_task set_result set_life t_life Status].
    rewrite bool_decide_eq_true_2 by done. split; [|cbn; by rewrite Hfx].
    eexists. rewrite lookup_update, decide_True, Ho, Ht by done. split; [done|]. split; [done|].
    cbn. exists h, ph, blob. by rewrite Hfx, Hc. }
  destruct (dm_DB st2) as [d|] eqn:Hd; [|by apply Hdone].
  destruct (insert_row e d _) as [d'|]; [by apply Hdone|].
  destruct b; apply ended_failed; first [done|eexists; exact Ht|cbn; congruence|intros; by left].
Qed.

(** However a direct download goes (the server's answer, the reads, the
    operating system, the database and the other goroutines are arbitrary),
    its goroutine ends with the task finished and no temporary file; if the
    task is Completed the hash it shows names a blob of that hash in the
    store, and if it is not, no row was added to the database. *)
Theorem download_always_ends e st r t isVault vk hasCustomName reply late :
  dm_objs st !! r = Some t -> remove_ok (os e) = true -> copy_undoable (os e) ->
  cas_inv (dm_CAS st) (dm_fs st) -> outside_cas (dm_CAS st) (tempPath st (t_ID t)) ->
  ended e st (executeDownload float_scale e st r isVault vk hasCustomName (FetchDirect reply) late)
    r (tempPath st (t_ID t)).
Proof.
  intros Ht Hrm Hund Hinv Hout. unfold executeDownload, begin_download, end_download. rewrite Ht. set (temp := tempPath st (t_ID t)) in *.
  assert (forall st1 msg, dm_objs st1 = dm_objs st -> dm_DB st1 = dm_DB st ->
    ended e st (cleanup_temp e r temp (update st1 r (failTask (now_ e) msg))) r temp) as Hfail.
  { intros st1 msg Ho Hd. apply ended_failed; try done; [rewrite Ho; by eexists|intros; by left]. }
  destruct (create_ok (os e)); cbn [negb]; [|by apply Hfail].
  destruct (download_key e isVault vk) as [key|]; [|by apply Hfail].
  unfold NewEncryptStream. destruct (aes_key_ok key); [|by apply Hfail].
  destruct (_ && _); [by apply Hfail|]. unfold fetch. set (used := getUserStorageUsed _ _ _).
  set (w0 := mkWorker _ _ _). pose proof (direct_frame e r used hasCustomName reply w0) as [Hst Hobj].
  assert (is_Some (dm_objs (w_dm w0) !! r)) as Hw0 by (cbn; rewrite Ht; by eexists).
  specialize (Hobj Hw0). destruct Hst as (Htmp & Hcas & Hdb & Hfs).
  destruct (DownloadDirect _ _ _ _ _ reply w0) as [w1 [info|er]]; cbn [fst] in *.
  - unfold finish_download. set (st1 := update _ r _).
    pose proof (dm_steps_frame late st1) as (_ & Hc2 & Hd2 & Hf2).
    apply store_ends; try done.
    + rewrite Hc2, Hf2. cbn. rewrite Hcas, Hfs. apply cas_inv_put; [by apply cas_inv_put|done].
    + rewrite Hc2. cbn. by rewrite Hcas.
    + destruct Hobj as [u Hu]. assert (is_Some (dm_objs st1 !! r)) as [v Hv].
      { subst st1. rewrite lookup_update, decide_True by done. cbn.
        rewrite lookup_alter_eq, Hu. by eexists. }
      destruct (dm_steps_task late _ _ _ Hv) as (x & -> & _). by eexists.
    + rewrite Hd2. exact Hdb.
  - unfold give_up_download, fetch_failed. destruct Hobj as [u Hu].
    change (put_file e temp ?b (w_dm (on_dm w1 ?f))) with (update (put_file e temp b (w_dm w1)) r
      (if ctx_done (w_dm w1) r then cancelTask (now_ e) else failTask (now_ e) "Direct download failed: ")).
    apply ended_failed; first [done|eexists; exact Hu|idtac].
    intros x. destruct (ctx_done _ _); [by right|by left].
Qed.

End TaskFacts.

(** ** The table *)

Lemma finished_not_completed s : s <> StatusCompleted -> finished s = true -> s = StatusFailed \/ s = StatusCancelled.
Proof. destruct s; naive_solver. Qed.

(** One operation takes only finished tasks off the table. *)
Lemma dm_step_table st o id r t :
  dm_tasks st !! id = Some r -> dm_objs st !! r = Some t ->
  dm_tasks (dm_step st o) !! id = Some r \/
  (dm_tasks (dm_step st o) !! id = None /\ finished (Status (t_life t)) = true).
Proof.
  intros Hid Ht. destruct o as [now i|now|i ow|now ttl]; cbn [dm_step].
  - left. unfold CancelTask. destruct (load st i) as [[x y]|]; [|done]. by destruct (bool_decide _).
  - by left.
  - unfold DismissTask. destruct (load st i) as [[x y]|] eqn:Hl; [|by left].
    destruct (_ && finished _) eqn:Hb; [|by left]. cbn. apply andb_true_iff in Hb as [_ Hf].
    apply load_Some in Hl as [Hx Hy]. destruct (decide (i = id)) as [->|Hne].
    + right. split; [apply lookup_delete_eq|]. congruence.
    + left. by rewrite lookup_delete_ne.
  - unfold PruneOldTasks. cbn. destruct (is_old now ttl t) eqn:Hold.
    + right. split.
      * apply map_lookup_filter_None. right. intros x Hx. cbn. rewrite Hid in Hx. injection Hx as <-.
        rewrite Ht. cbn. by rewrite Hold.
      * unfold is_old in Hold. by apply andb_true_iff in Hold as [[? _]%andb_true_iff _].
    + left. apply map_lookup_filter_Some. split; [done|]. cbn. by rewrite Ht.
Qed.

Lemma dm_step_new st o id r : dm_tasks (dm_step st o) !! id = Some r -> dm_tasks st !! id = Some r.
Proof.
  destruct o as [now i|now|i ow|now ttl]; cbn [dm_step].
  - unfold CancelTask. destruct (load st i) as [[x y]|]; [|done]. by destruct (bool_decide _).
  - done.
  - unfold DismissTask. destruct (load st i) as [[x y]|]; [|done]. destruct (_ && _); [|done].
    cbn. by intros [_ ?]%lookup_delete_Some.
  - cbn. by intros [? _]%map_lookup_filter_Some.
Qed.

Definition status (t : DownloadTask) : DownloadStatus := Status (t_life t).

Lemma dm_steps_lifecycle ops st r t :
  dm_objs st !! r = Some t ->
  exists t', dm_objs (dm_steps st ops) !! r = Some t' /\
    (status t = StatusCompleted -> t' = t) /\
    (t' = t \/ (status t' = StatusCancelled /\ t_cancelled t' = true)) /\
    (finished (status t) = true -> finished (status t') = true).
Proof.
  revert st t. induction ops as [|o ops IH]; intros st t Ht; [exists t; auto|].
  destruct (dm_step_task st o r t Ht) as (t1 & Ht1 & Htouch).
  destruct (IH _ _ Ht1) as (t' & Ht' & Hc & Hor & Hf). exists t'. split; [done|].
  destruct Htouch as [->|(Hne & now & ->)]; [done|]. split; [done|]. split; [|auto].
  right. by destruct Hor as [->|].
Qed.

(** A name the table lost does not come back. *)
Lemma dm_steps_gone ops st id : dm_tasks st !! id = None -> dm_tasks (dm_steps st ops) !! id = None.
Proof.
  revert st. induction ops as [|o ops IH]; intros st Hs; [done|]. apply IH.
  destruct (dm_tasks (dm_step st o) !! id) eqn:Hx; [|done]. apply dm_step_new in Hx. congruence.
Qed.

(** A name stays until its task is finished. *)
Lemma dm_steps_table ops st id r t :
  dm_tasks st !! id = Some r -> dm_objs st !! r = Some t ->
  exists t', dm_objs (dm_steps st ops) !! r = Some t' /\
    (dm_tasks (dm_steps st ops) !! id = Some r \/
     (dm_tasks (dm_steps st ops) !! id = None /\ finished (status t') = true)).
Proof.
  revert st t. induction ops as [|o ops IH]; intros st t Hid Ht; [exists t; auto|].
  destruct (dm_step_task st o r t Ht) as (t1 & Ht1 & Htouch).
  destruct (dm_step_table st o id r t Hid Ht) as [Hid1|[Hn Hf]]; [by apply (IH _ t1)|].
  destruct (dm_steps_lifecycle ops _ _ _ Ht1) as (t' & Ht' & _ & _ & Hfin). exists t'. split; [done|].
  right. split; [by apply (dm_steps_gone ops (dm_step st o))|]. apply Hfin. by destruct Htouch as [->|(_ & now & ->)].
Qed.

(** After CancelAllTasks every task of the table is finished. *)
Lemma cancel_all_finished now st x u :
  GetTask (CancelAllTasks now st) x = Some u -> finished (status u) = true.
Proof.
  unfold GetTask. destruct (load (CancelAllTasks now st) x) as [[i y]|] eqn:Hl; [|done].
  cbn. intros [= ->]. apply load_Some in Hl as [Hx Hy]. cbn in Hx, Hy.
  rewrite map_lookup_imap in Hy. destruct (dm_objs st !! i) as [z|] eqn:Hz; [|done]. cbn in Hy.
  assert (listed st i = true) as Hl.
  { unfold listed. apply existsb_exists. exists (x, i). split; [|cbn; apply Nat.eqb_refl].
    apply list_elem_of_In. by apply elem_of_map_to_list. }
  rewrite Hl in Hy. cbn [andb] in Hy. injection Hy as <-. unfold status.
  destruct (finished (Status (t_life z))) eqn:Hf; [done|]. by cbn.
Qed.

(** What requests and the cleaner can do to a task, over any sequence of
    them: a completed task never changes; any other is left alone or ends
    cancelled with its context done; a finished task stays finished; an
    identifier never comes to name another task and disappears only once its
    task is finished.  After CancelAllTasks every task of the table is
    finished. *)
Theorem task_lifecycle st ops id r t :
  dm_tasks st !! id = Some r -> dm_objs st !! r = Some t ->
  let st' := dm_steps st ops in
  (exists t', dm_objs st' !! r = Some t' /\
     (status t = StatusCompleted -> t' = t) /\
     (t' = t \/ (status t' = StatusCancelled /\ t_cancelled t' = true)) /\
     (finished (status t) = true -> finished (status t') = true) /\
     (dm_tasks st' !! id = Some r \/ (dm_tasks st' !! id = None /\ finished (status t') = true))) /\
  (forall now x u, GetTask (CancelAllTasks now st') x = Some u -> finished (status u) = true).
Proof.
  intros Hid Ht st'. split.
  - destruct (dm_steps_lifecycle ops st r t Ht) as (t' & Ht' & Hc & Hor & Hf).
    destruct (dm_steps_table ops st id r t Hid Ht) as (t2 & Ht2 & Htab). 
    assert (t2 = t') as -> by (subst st'; congruence). by exists t'.
  - intros now x u. apply cancel_all_finished.
Qed.

(** ** Who may look at a task *)

(** A task is not protected from other users.  The handlers compare the
    owner with the context's user only when that is an [int], and the
    middleware stores an [int64]: a request authenticated as any user reads
    the task of any other, cancels it while it runs and dismisses it when it
    has finished.  With an [int] in the context all three are refused. *)
Theorem task_ownership_is_not_enforced now st id t uid :
  GetTask st id = Some t -> 0 < uid -> t_OwnerID t <> 0 -> t_OwnerID t <> uid ->
  GetDownloadStatus (set_user_id uid) st id = inr t /\
  (finished (status t) = false -> exists st',
     CancelDownload now (set_user_id uid) "" st id
     = (st', mkResp 200 [("status", JStr "cancelled"); ("message", JStr "download cancelled successfully")]) /\
     status <$> GetTask st' id = Some StatusCancelled) /\
  (finished (status t) = true -> exists st',
     CancelDownload now (set_user_id uid) "" st id = (st', dismissed) /\
     DismissDownload (set_user_id uid) st id = (st', dismissed) /\ GetTask st' id = None) /\
  (GetDownloadStatus (Some (CtxInt uid)) st id
     = inl (http_error 403 "forbidden: cannot access another user's download task") /\
   CancelDownload now (Some (CtxInt uid)) "" st id
     = (st, http_error 403 "forbidden: cannot cancel another user's download task") /\
   DismissDownload (Some (CtxInt uid)) st id
     = (st, http_error 403 "forbidden: cannot dismiss another user's download task")).
Proof.
  intros Hg Hu H0 Hne. pose proof Hg as Hl. unfold GetTask in Hl.
  destruct (load st id) as [[r x]|] eqn:Hload; [|done]. cbn in Hl. injection Hl as ->.
  assert (foreign_task (Some (CtxInt uid)) t = true) as Hf.
  { cbn. destruct (Z.ltb_spec 0 uid), (Z.eqb_spec (t_OwnerID t) 0), (Z.eqb_spec (t_OwnerID t) uid); try done; lia. }
  unfold GetDownloadStatus, CancelDownload, DismissDownload, CancelTask, DismissTask. rewrite Hg, Hload, Hf.
  cbn [foreign_task set_user_id]. split; [done|]. unfold status in *. split; [|split; [|done]].
  - intros Hfin. rewrite Hfin. change (String.eqb "" "true") with false. cbn [orb].
    rewrite bool_decide_eq_false_2 by (intros Hs; by rewrite Hs in Hfin).
    eexists. split; [reflexivity|]. apply load_Some in Hload as [Ht Ho].
    assert (load (update st r (fun u => cancelTask now (cancel_func u))) id
      = Some (r, cancelTask now (cancel_func t))) as Hl2.
    { apply load_Some. split; [done|]. rewrite lookup_update, decide_True by done. by rewrite Ho. }
    unfold GetTask. by rewrite Hl2.
  - intros Hfin. rewrite Hfin. change (String.eqb "" "true") with false. cbn [orb].
    rewrite Z.eqb_refl, orb_true_r. cbn [andb fst]. eexists. split; [reflexivity|]. split; [reflexivity|].
    unfold GetTask, load. cbn. by rewrite lookup_delete_eq.
Qed.

(** ** Witnesses *)

Section TaskWitnesses.
Import ToyCrypto.

Definition dl_scale (d t m : Z) : Z := d * m / t.

Definition dl_task : DownloadTask :=
  mkTask "dl_1_ab" 2 "" "https://h/f.bin" DownloadTypeDirect 20 1 (mkInfo "f.bin" "" 0) 0
    (mkLife StatusDownloading "Menghubungkan..." "Menghubungkan..." 5 "" 0) ("", "", "") false.

Definition dl_manager : dm_state :=
  mkDM "tmp" (mkCAS "cas" ∅) (Some (mkDB [] [])) ∅ {[0%nat := dl_task]} {["dl_1_ab" := 0%nat]}.

Definition task_key : bytes := replicate 32 7.

(** The standard key, [quota] bytes, a disk of [cap] bytes. *)
Definition task_env (quota cap : Z) : req_env :=
  mkReqEnv (env_fine 5) (replicate 16 1) empty_store None None None false (Some task_key) quota
    true true true cap (fun l => l).

Definition plain_read (b : bytes) : read_event := mkRead [] b None false "".

Lemma toy_startable quota cap :
  quota <= 0 \/ 0 < quota < 2 ^ 63 ->
  startable (task_env quota cap) dl_manager 0%nat dl_task (mkDB [] []) false [] task_key.
Proof.
  intros Hq.
  assert (cas_inv (dm_CAS dl_manager) (dm_fs dl_manager)) as Hinv.
  { split; [|intros h Hh; by apply elem_of_empty in Hh]. intros h f _ Hf. cbn [dm_fs dl_manager] in Hf. by rewrite lookup_empty in Hf. }
  assert (outside_cas (dm_CAS dl_manager) (tempPath dl_manager (t_ID dl_task))) as Hout.
  { intros h Hv He. by apply (toy_outside (tempPath dl_manager (t_ID dl_task)) eq_refl ∅ h Hv). }
  by constructor.
Qed.

Lemma download_task_stores_payload_witness :
  exists st', executeDownload dl_scale (task_env 10 1000) dl_manager 0%nat false [] false
      (FetchDirect (Ok (mkInfo "f.bin" "text/plain" 3, [plain_read [1; 2]; plain_read [3]])))
      [OpCancel 9 "dl_1_ab"] = st' /\
    status <$> GetTask st' "dl_1_ab" = Some StatusCompleted /\
    map fr_size (from_option files [] (dm_DB st')) = [3].
Proof.
  eexists. split; [reflexivity|].
  destruct (download_task_stores_payload dl_scale (task_env 10 1000) dl_manager 0%nat dl_task (mkDB [] []) false []
    task_key false (mkInfo "f.bin" "text/plain" 3) [plain_read [1; 2]; plain_read [3]] [OpCancel 9 "dl_1_ab"])
    as ((_ & Hdb & _) & _ & _).
  - apply toy_startable. right. lia.
  - repeat constructor.
  - do 2 (apply List.Forall_cons; [by vm_compute|]). apply List.Forall_nil.
  - by vm_compute.
  - by vm_compute.
  - right. by vm_compute.
  - split; [by vm_compute|]. by rewrite Hdb.
Defined.

Lemma quota_bypassed_by_fast_download_witness :
  exists st', executeDownload dl_scale (task_env 2 1000) dl_manager 0%nat false [] false
      (FetchDirect (Ok (mkInfo "f.bin" "text/plain" 3, [plain_read [1; 2]; plain_read [3]]))) [] = st' /\
    status <$> GetTask st' "dl_1_ab" = Some StatusCompleted /\
    used_by (task_env 2 1000) st' dl_task = 0.
Proof.
  eexists. split; [reflexivity|].
  destruct (quota_bypassed_by_fast_download dl_scale (task_env 2 1000) dl_manager 0%nat dl_task (mkDB [] []) false []
    task_key false (mkInfo "f.bin" "text/plain" 3) [plain_read [1; 2]; plain_read [3]] [])
    as (_ & Hu).
  - apply toy_startable. right. lia.
  - repeat constructor.
  - repeat constructor.
  - by vm_compute.
  - by vm_compute.
  - by vm_compute.
  - split; [by vm_compute|]. rewrite Hu. done.
Defined.

Lemma broken_seed_corrupts_download_witness :
  exists st', executeDownload dl_scale (task_env 0 1000) dl_manager 0%nat false [] false
      (FetchMagnet (Ok ("m", 3)) (fun _ => "")
        [([], Ok (mkInfo "" "" 3, broken [plain_read [1]] (ErrMsg "reset")));
         ([], Ok (mkInfo "" "" 3, [plain_read [1; 2; 3]]))] (fun w => (w, Some EOF))) [] = st' /\
    map fr_plain (from_option files [] (dm_DB st')) = [content_hash [1; 1; 2; 3]].
Proof.
  eexists. split; [reflexivity|].
  destruct (broken_seed_corrupts_download dl_scale (task_env 0 1000) dl_manager 0%nat dl_task (mkDB [] []) false []
    task_key false "m" 3 (fun _ => "") (fun w => (w, Some EOF)) (mkInfo "" "" 3) [plain_read [1]] (ErrMsg "reset")
    (mkInfo "" "" 3) [plain_read [1; 2; 3]] []) as (_ & Hdb & _).
  - apply toy_startable. by left.
  - repeat constructor.
  - repeat constructor.
  - done.
  - by vm_compute.
  - by vm_compute.
  - by left.
  - rewrite Hdb. reflexivity.
Defined.

Lemma download_always_ends_witness :
  exists st', executeDownload dl_scale (task_env 0 10) dl_manager 0%nat false [] false
      (FetchDirect (Ok (mkInfo "f.bin" "text/plain" 3,
         [plain_read [1]; mkRead [OpCancel 9 "dl_1_ab"] [2] None true "1"]))) [] = st' /\
    dm_fs st' !! "tmp/hornetz_dl_dl_1_ab.tmp" = None.
Proof.
  eexists. split; [reflexivity|].
  pose proof (toy_startable 0 10 (or_introl (Z.le_refl 0))) as [_ Hinv Hout _ _ _ _ _ _ _].
  apply (download_always_ends dl_scale (task_env 0 10) dl_manager 0%nat dl_task);
    [done|done|by left|exact Hinv|exact Hout].
Defined.

Lemma task_lifecycle_witness :
  exists t', dm_objs (dm_steps dl_manager [OpCancel 9 "dl_1_ab"; OpDismiss "dl_1_ab" 2]) !! 0%nat = Some t' /\
    dm_tasks (dm_steps dl_manager [OpCancel 9 "dl_1_ab"; OpDismiss "dl_1_ab" 2]) !! "dl_1_ab" = None /\
    finished (status t') = true.
Proof.
  destruct (task_lifecycle dl_manager [OpCancel 9 "dl_1_ab"; OpDismiss "dl_1_ab" 2] "dl_1_ab" 0%nat dl_task)
    as [(t' & Ht' & _ & _ & _ & [Hin|[Hn Hf]]) _]; [by vm_compute|by vm_compute| |by exists t'].
  exfalso. vm_compute in Hin. discriminate.
Defined.

Lemma task_ownership_is_not_enforced_witness :
  GetDownloadStatus (set_user_id 7) dl_manager "dl_1_ab" = inr dl_task /\
  exists st', CancelDownload 9 (set_user_id 7) "" dl_manager "dl_1_ab"
    = (st', mkResp 200 [("status", JStr "cancelled"); ("message", JStr "download cancelled successfully")]).
Proof.
  destruct (task_ownership_is_not_enforced 9 dl_manager "dl_1_ab" dl_task 7) as (Hs & Hc & _);
    [by vm_compute|lia|by vm_compute|by vm_compute|].
  split; [exact Hs|]. destruct (Hc eq_refl) as (st' & Hst & _). by exists st'.
Defined.

End TaskWitnesses.
