(* ===== verification/FileTable.v ===== *)
(** * The folders and files tables
    (src/data/migrations_sqlite3, and the statements of
    internal/controllers/file_controller.go)

    A table is the list of its rows in insertion order.  A statement is a
    function on tables; the primary keys and the cascading foreign keys of
    the schema are part of it.  [tables_ok] is what the handlers keep true:
    identifiers are unique and every folder comes after its parent, so that
    the folders are a forest. *)

From S2P Require Import Prelude GoStrings FileSys CryptoPrims CAS UploadSession VaultTree Auth UploadCtrl.

#[local] Open Scope string_scope.
#[local] Open Scope list_scope.
#[local] Open Scope Z_scope.

(** ** Rows *)

Record folder_row := mkFolder {
  fo_id : string;
  fo_owner : Z;
  fo_parent : option string;
  fo_name : string
}.

(** A row of files: the columns the upload side writes, and is_starred. *)
Record stored_file := mkStored { sf_row : file_row; sf_starred : bool }.

Record tables := mkTables { tb_folders : list folder_row; tb_files : list stored_file }.

(** What the other components see of the tables. *)
Definition links_of (t : tables) : folder_rows := map (fun f => (fo_id f, fo_parent f)) (tb_folders t).

Definition to_database (t : tables) : database := mkDB (links_of t) (map sf_row (tb_files t)).

Definition folder_ids (t : tables) : list string := map fo_id (tb_folders t).

(** COALESCE(column, '') *)
Definition coalesce (o : option string) : string := default "" o.

(** parent_id IS NULL OR parent_id = '' *)
Definition is_root (o : option string) : bool := String.eqb (coalesce o) "".

(** ** Statements *)

(** WHERE id = ? AND owner_id = ? *)
Definition owned_file (id : string) (user : Z) (f : stored_file) : bool :=
  String.eqb (fr_id (sf_row f)) id && (fr_owner (sf_row f) =? user).

Definition owned_folder (id : string) (user : Z) (f : folder_row) : bool :=
  String.eqb (fo_id f) id && (fo_owner f =? user).

Definition active (f : stored_file) : bool := negb (fr_deleted (sf_row f)).

Definition file_folder (f : stored_file) : string := coalesce (fr_folder (sf_row f)).

(** UPDATE files SET ... WHERE p: the rows and how many were affected. *)
Definition update_files (p : stored_file -> bool) (g : stored_file -> stored_file) (t : tables) : tables * Z :=
  (mkTables (tb_folders t) (map (fun f => if p f then g f else f) (tb_files t)),
   zlen (List.filter p (tb_files t))).

(** DELETE FROM files WHERE p. *)
Definition delete_files (p : stored_file -> bool) (t : tables) : tables * Z :=
  (mkTables (tb_folders t) (List.filter (fun f => negb (p f)) (tb_files t)),
   zlen (List.filter p (tb_files t))).

Definition set_row (f : stored_file) (r : file_row) : stored_file := mkStored r (sf_starred f).

(** SET is_deleted = b *)
Definition set_deleted (b : bool) (f : stored_file) : stored_file :=
  let r := sf_row f in
  set_row f (mkRow (fr_id r) (fr_owner r) (fr_folder r) (fr_name r) (fr_mime r) (fr_size r) (fr_cas r)
               (fr_plain r) b).

(** SET is_deleted = TRUE, folder_id = o *)
Definition trash_into (o : option string) (f : stored_file) : stored_file :=
  let r := sf_row f in
  set_row f (mkRow (fr_id r) (fr_owner r) o (fr_name r) (fr_mime r) (fr_size r) (fr_cas r) (fr_plain r) true).

(** SET name = n *)
Definition set_name (n : string) (f : stored_file) : stored_file :=
  let r := sf_row f in
  set_row f (mkRow (fr_id r) (fr_owner r) (fr_folder r) n (fr_mime r) (fr_size r) (fr_cas r) (fr_plain r)
               (fr_deleted r)).

(** SET folder_id = o, cas_hash = h *)
Definition set_place (o : option string) (h : string) (f : stored_file) : stored_file :=
  let r := sf_row f in
  set_row f (mkRow (fr_id r) (fr_owner r) o (fr_name r) (fr_mime r) (fr_size r) h (fr_plain r) (fr_deleted r)).

(** SET is_starred = CASE WHEN is_starred = TRUE THEN FALSE ELSE TRUE END *)
Definition toggle_star (f : stored_file) : stored_file := mkStored (sf_row f) (negb (sf_starred f)).

(** SELECT COUNT( * ) FROM files WHERE cas_hash = h *)
Definition count_hash (h : string) (t : tables) : Z :=
  zlen (List.filter (fun f => String.eqb (fr_cas (sf_row f)) h) (tb_files t)).

(** INSERT INTO folders: the primary key must be new. *)
Definition insert_folder (f : folder_row) (t : tables) : option tables :=
  if existsb (fun g => String.eqb (fo_id g) (fo_id f)) (tb_folders t) then None
  else Some (mkTables (tb_folders t ++ [f]) (tb_files t)).

(** What a folder's deletion reaches through ON DELETE CASCADE: the folders
    below it, whoever owns them. *)
Definition subtree (t : tables) (id : string) : gset string :=
  let links := query_links (links_of t) in
  fst (bfs (bfs_fuel links) (childrenMap links) {[id]} [id] [id]).

(** DELETE FROM folders WHERE id = ? AND owner_id = ?, with the cascades to
    folders(parent_id) and files(folder_id). *)
Definition delete_folder (id : string) (user : Z) (t : tables) : tables :=
  if existsb (owned_folder id user) (tb_folders t) then
    let gone := subtree t id in
    mkTables (List.filter (fun f => negb (bool_decide (fo_id f ∈ gone))) (tb_folders t))
      (List.filter (fun f => negb (match fr_folder (sf_row f) with
                                   | Some d => bool_decide (d ∈ gone)
                                   | None => false
                                   end)) (tb_files t))
  else t.

(** ** The invariant *)

(** Each folder's parent is an earlier row. *)
Definition parents_first (fs : list folder_row) : Prop :=
  forall pre f post p, fs = pre ++ f :: post -> fo_parent f = Some p -> p <> "" ->
    p ∈ map fo_id pre.

Record tables_ok (t : tables) : Prop := {
  tk_ids : NoDup (folder_ids t);
  tk_named : "" ∉ folder_ids t;
  tk_order : parents_first (tb_folders t);
  (** the three system folders are roots *)
  tk_roots f : f ∈ tb_folders t -> fo_id f ∈ ["f1"; "f2"; "f3"] -> fo_parent f = None
}.

(** ** The forest *)

Lemma parents_first_app fs f :
  parents_first fs -> (forall p, fo_parent f = Some p -> p <> "" -> p ∈ map fo_id fs) ->
  parents_first (fs ++ [f]).
Proof.
  intros Hfs Hf pre g post p He Hp Hne.
  destruct (decide (post = [])) as [->|Hpost].
  - apply app_inj_tail in He as [-> ->]. by apply Hf.
  - destruct (exists_last Hpost) as (post' & x & ->). rewrite app_comm_cons, app_assoc in He.
    apply app_inj_tail in He as [-> _]. by apply (Hfs pre g post').
Qed.

(** A filter that keeps a folder only if it keeps its parent keeps the order. *)
Lemma parents_first_filter fs (keep : string -> bool) :
  parents_first fs ->
  (forall f p, f ∈ fs -> fo_parent f = Some p -> p <> "" -> keep (fo_id f) = true -> keep p = true) ->
  parents_first (List.filter (fun f => keep (fo_id f)) fs).
Proof.
  induction fs as [|f fs IH] using rev_ind; [done|]. intros Hfs Hkeep. rewrite List.filter_app. cbn [List.filter].
  assert (parents_first fs) as Hfs1.
  { intros pre g post p -> Hp Hne. apply (Hfs pre g (post ++ [f]) p); [|done..].
    by rewrite <- app_assoc. }
  assert (parents_first (List.filter (fun f => keep (fo_id f)) fs)) as IH1.
  { apply IH; [done|]. intros g p Hg. apply Hkeep. by apply elem_of_app; left. }
  destruct (keep (fo_id f)) eqn:Hk; [|by rewrite app_nil_r]. apply parents_first_app; [done|].
  intros p Hp Hne. assert (p ∈ map fo_id fs) as Hin by (by apply (Hfs fs f [] p)).
  assert (keep p = true) as Hkp.
  { apply (Hkeep f p); [by apply elem_of_app; right; left|done|done|done]. }
  apply list_elem_of_fmap in Hin as (g & -> & Hg). apply list_elem_of_fmap. exists g. split; [done|].
  apply list_elem_of_In, List.filter_In. split; [by apply list_elem_of_In|done].
Qed.

Lemma links_child t p c : is_child (query_links (links_of t)) p c <->
  p <> "" /\ exists f, f ∈ tb_folders t /\ fo_id f = c /\ fo_parent f = Some p.
Proof.
  unfold is_child, query_links, links_of. rewrite list_elem_of_omap. split.
  - intros ([i q] & Hin & Hq). cbn in Hq. apply list_elem_of_fmap in Hin as (f & [= -> ->] & Hf).
    destruct (fo_parent f) as [x|] eqn:Hx; [|done]. destruct (String.eqb_spec x ""); [done|].
    injection Hq as <- <-. split; [done|]. by exists f.
  - intros (Hne & f & Hf & <- & Hp). exists (fo_id f, fo_parent f).
    split; [apply list_elem_of_fmap; by exists f|]. cbn. rewrite Hp. by destruct (String.eqb_spec p "").
Qed.

(** The subtree is what parent links reach. *)
Lemma subtree_spec t id x : x ∈ subtree t id <-> rtc (is_child (query_links (links_of t))) id x.
Proof.
  unfold subtree. set (links := query_links (links_of t)).
  destruct (bfs_correct id links (bfs_fuel links) {[id]} [id] [id]) as (seen & lst & -> & Hs & _).
  - split; try set_solver. apply NoDup_singleton.
  - unfold bfs_fuel. cbn [length].
    assert (size (universe links ∖ {[id]}) <= length links)%nat; [|lia].
    transitivity (size (universe links)); [apply subseteq_size; set_solver|].
    unfold universe. rewrite <- (length_fmap fst). apply size_of_list.
  - apply Hs.
Qed.

(** Creating a folder below an existing one, or at the top, keeps the tables
    well-formed. *)
Lemma insert_folder_ok f t t' :
  tables_ok t -> insert_folder f t = Some t' -> fo_id f <> "" -> fo_id f ∉ ["f1"; "f2"; "f3"] ->
  (forall p, fo_parent f = Some p -> p <> "" -> p ∈ folder_ids t) -> tables_ok t'.
Proof.
  intros [Hid Hnm Hord Hroots] Hins Hne Hsys Hp. unfold insert_folder in Hins.
  destruct (existsb _ _) eqn:Hex; [done|]. injection Hins as <-.
  assert (fo_id f ∉ folder_ids t) as Hfresh.
  { intros Hin. apply list_elem_of_fmap in Hin as (g & Hg & Hin). apply not_true_iff_false in Hex.
    apply Hex, existsb_exists. exists g. split; [by apply list_elem_of_In|]. rewrite Hg. apply String.eqb_refl. }
  split; unfold folder_ids in *; cbn [tb_folders].
  - rewrite map_app. apply NoDup_app. split; [done|]. split; [|apply NoDup_singleton].
    intros x Hx ->%list_elem_of_singleton. done.
  - rewrite map_app. cbn. set_solver.
  - by apply parents_first_app.
  - intros g [Hg| ->%list_elem_of_singleton]%elem_of_app; [by apply Hroots|]. done.
Qed.

(** Deleting a folder with its cascades keeps the tables well-formed. *)
Lemma delete_folder_ok id user t : tables_ok t -> tables_ok (delete_folder id user t).
Proof.
  intros [Hid Hnm Hord Hroots]. unfold delete_folder. destruct (existsb _ _); [|done].
  set (keep := fun x : string => negb (bool_decide (x ∈ subtree t id))).
  change (fun f => negb (bool_decide (fo_id f ∈ subtree t id))) with (fun f => keep (fo_id f)).
  assert (forall f, f ∈ List.filter (fun f => keep (fo_id f)) (tb_folders t) -> f ∈ tb_folders t) as Hsub.
  { intros f. rewrite !list_elem_of_In. by intros [? _]%List.filter_In. }
  split; unfold folder_ids in *; cbn [tb_folders].
  - clear - Hid. induction (tb_folders t) as [|f fs IH]; [done|]. cbn in *.
    apply NoDup_cons in Hid as [Hf Hfs]. destruct (keep (fo_id f)); cbn; [|auto].
    apply NoDup_cons. split; [|auto]. intros Hin. apply Hf.
    apply list_elem_of_fmap in Hin as (g & He & Hg). rewrite He. apply list_elem_of_fmap. exists g.
    split; [done|]. rewrite list_elem_of_In in *. by apply List.filter_In in Hg as [? _].
  - intros Hin. apply Hnm. apply list_elem_of_fmap in Hin as (g & He & Hg). rewrite He.
    apply list_elem_of_fmap. exists g. auto.
  - apply parents_first_filter; [done|]. intros f p Hf Hp Hne. unfold keep.
    rewrite !negb_true_iff, !bool_decide_eq_false, !subtree_spec. intros Hnf Hnp. apply Hnf.
    eapply rtc_r; [exact Hnp|]. apply links_child. split; [done|]. by exists f.
  - intros f Hf. by apply Hroots, Hsub.
Qed.

(** ** Deciding the invariant *)

(** Each folder's parent is among [seen] or the folders before it. *)
Fixpoint parents_first_in (seen : list string) (fs : list folder_row) : bool :=
  match fs with
  | [] => true
  | f :: fs' =>
      (is_root (fo_parent f) || bool_decide (coalesce (fo_parent f) ∈ seen)) && parents_first_in (seen ++ [fo_id f]) fs'
  end.

Definition tables_okb (t : tables) : bool :=
  bool_decide (NoDup (folder_ids t)) && bool_decide ("" ∉ folder_ids t) && parents_first_in [] (tb_folders t) &&
  forallb (fun f => negb (bool_decide (fo_id f ∈ ["f1"; "f2"; "f3"])) || bool_decide (fo_parent f = None)) (tb_folders t).

Lemma parents_first_in_spec pre0 fs :
  parents_first_in (map fo_id pre0) fs = true -> parents_first pre0 -> parents_first (pre0 ++ fs).
Proof.
  revert pre0. induction fs as [|f fs IH]; intros pre0; [by rewrite app_nil_r|]. cbn.
  intros [Hf Hfs]%andb_true_iff Hpre. rewrite cons_middle, app_assoc. apply IH; [by rewrite map_app|].
  apply parents_first_app; [done|]. intros p Hp Hne. unfold is_root in Hf. rewrite Hp in Hf. cbn in Hf.
  destruct (String.eqb_spec p ""); [done|]. by apply bool_decide_eq_true in Hf.
Qed.

Lemma tables_okb_ok t : tables_okb t = true -> tables_ok t.
Proof.
  unfold tables_okb. intros [[[H1%bool_decide_eq_true H2%bool_decide_eq_true]%andb_true_iff H3]%andb_true_iff H4]%andb_true_iff.
  split; [done|done| |].
  - apply (parents_first_in_spec [] _ H3). intros pre f post p He. by destruct pre.
  - intros f Hf Hs. rewrite forallb_forall in H4. specialize (H4 f). rewrite <- list_elem_of_In in H4.
    specialize (H4 Hf). rewrite bool_decide_eq_true_2 in H4 by done. by apply bool_decide_eq_true in H4.
Qed.
