(* ===== verification/FileOps.v ===== *)
(** * File and folder operations
    (internal/controllers/file_controller.go, lines 1497-1647 and 2019-2573)

    Deleting, restoring, starring, renaming and moving files, emptying the
    trash, creating, renaming and deleting folders.  The state is the two
    tables, the content-addressed store with its files, and the cache of
    vault folders; the environment says which statements and system calls of
    the request succeed. *)

From S2P Require Import Prelude GoStrings FileSys CryptoPrims CryptoStream CAS UploadSession VaultTree Auth UploadCtrl FileDownload FileTable.

#[local] Open Scope string_scope.
#[local] Open Scope list_scope.
#[local] Open Scope Z_scope.

(** ** State and environment *)

Record fm_state := mkFM {
  fm_tab : tables;
  fm_CAS : option CASEngine;
  fm_fs : FS;
  fm_cache : vault_cache
}.

(** [fe_req] carries the session, the keys, the clock and the system calls;
    [query_ok] and [insert_ok] of it answer for SELECT and for INSERT, UPDATE
    and DELETE statements. *)
Record file_env := mkFEnv {
  fe_req : req_env;
  begin_ok : bool;
  commit_ok : bool;
  (** whether the reference counts of DeleteFile and EmptyTrash are read *)
  count_ok : bool;
  (** the temporary file of a re-encryption *)
  reenc_path : string
}.

Definition with_tab (st : fm_state) (t : tables) : fm_state := mkFM t (fm_CAS st) (fm_fs st) (fm_cache st).
Definition with_store (st : fm_state) (c : option CASEngine) (f : FS) : fm_state :=
  mkFM (fm_tab st) c f (fm_cache st).
Definition with_cache (st : fm_state) (c : vault_cache) : fm_state :=
  mkFM (fm_tab st) (fm_CAS st) (fm_fs st) c.

(** What DownloadFile sees of the state. *)
Definition fc_view (st : fm_state) : fc_state :=
  mkFC (to_database (fm_tab st)) (fm_CAS st) (fm_fs st) (fm_cache st).

Definition can_query (e : file_env) : bool := query_ok (fe_req e).
Definition can_exec (e : file_env) : bool := insert_ok (fe_req e).
Definition unlocked (e : file_env) : bool := isVaultUnlocked (fe_req e).
Definition user_of (e : file_env) : Z := GetUserID (user_id (fe_req e)).

(** The folders query the vault cache is loaded from. *)
Definition folder_query (e : file_env) (st : fm_state) : folder_db :=
  Some (if can_query e then Some (links_of (fm_tab st)) else None).

(** IsVaultFolder over the state. *)
Definition in_vault_now (e : file_env) (st : fm_state) (id : string) : fm_state * bool :=
  let '(c, b) := IsVaultFolder (folder_query e st) (fm_cache st) id in (with_cache st c, b).

(** [fc.IsVaultFolder(id) && !fc.isVaultUnlocked(c)] *)
Definition vault_refuses (e : file_env) (st : fm_state) (id : string) : fm_state * bool :=
  let '(st1, b) := in_vault_now e st id in (st1, b && negb (unlocked e)).

Definition vault_locked : resp := http_error 401 "Vault locked. Master password required.".

(** The row a SELECT ... WHERE p finds; [None] when there is none or the
    query fails. *)
Definition select_file (e : file_env) (st : fm_state) (p : stored_file -> bool) : option stored_file :=
  if can_query e then List.find p (tb_files (fm_tab st)) else None.

Definition select_folder (e : file_env) (st : fm_state) (p : folder_row -> bool) : option folder_row :=
  if can_query e then List.find p (tb_folders (fm_tab st)) else None.

(** SELECT EXISTS(...): false when the query fails. *)
Definition file_exists (e : file_env) (st : fm_state) (p : stored_file -> bool) : bool :=
  can_query e && existsb p (tb_files (fm_tab st)).

Definition folder_exists (e : file_env) (st : fm_state) (p : folder_row -> bool) : bool :=
  can_query e && existsb p (tb_folders (fm_tab st)).

(** SELECT COALESCE(folder_id, '') ..., scanned into a string that stays
    empty when there is no row. *)
Definition folder_of_file (e : file_env) (st : fm_state) (id : string) : string :=
  from_option file_folder "" (select_file e st (owned_file id (user_of e))).

(** Removing a blob no row refers to. *)
Definition release_blob (e : file_env) (st : fm_state) (h : string) : fm_state :=
  match fm_CAS st with
  | Some c =>
      let count := if count_ok e then count_hash h (fm_tab st) else 0 in
      if count =? 0
      then with_store st (Some (Invalidate c h)) (fs_remove (os (fe_req e)) (fm_fs st) (Path c h))
      else st
  | None => st
  end.

(** ** Files *)

Definition DeleteFile (e : file_env) (st : fm_state) (id permanent : string) : fm_state * resp :=
  let user := user_of e in
  let '(st, refused) := vault_refuses e st (folder_of_file e st id) in
  if refused then (st, vault_locked)
  else if String.eqb permanent "true" then
    let casHash := from_option (fun f => fr_cas (sf_row f)) "" (select_file e st (owned_file id user)) in
    if negb (can_exec e) then (st, http_error 500 "Failed to delete file: ")
    else
      let '(t, n) := delete_files (owned_file id user) (fm_tab st) in
      if n =? 0 then (st, http_error 404 "File not found")
      else
        let st := with_tab st t in
        (if negb (String.eqb casHash "") && IsValidHash casHash then release_blob e st casHash else st,
         mkResp 200 [("status", JStr "permanently_deleted")])
  else if negb (can_exec e) then (st, http_error 500 "Failed to move file to trash: ")
  else
    let '(t, n) := update_files (owned_file id user) (set_deleted true) (fm_tab st) in
    if n =? 0 then (st, http_error 404 "File not found")
    else (with_tab st t, mkResp 200 [("status", JStr "trashed")]).

Definition RestoreFile (e : file_env) (st : fm_state) (id : string) : fm_state * resp :=
  let '(st, refused) := vault_refuses e st (folder_of_file e st id) in
  if refused then (st, vault_locked)
  else if negb (can_exec e) then (st, http_error 500 "Failed to restore file: ")
  else
    let '(t, n) := update_files (owned_file id (user_of e)) (set_deleted false) (fm_tab st) in
    if n =? 0 then (st, http_error 404 "File not found")
    else (with_tab st t, mkResp 200 [("status", JStr "restored")]).

Definition StarFile (e : file_env) (st : fm_state) (id : string) : fm_state * resp :=
  let user := user_of e in
  let '(st, refused) := vault_refuses e st (folder_of_file e st id) in
  if refused then (st, vault_locked)
  else if negb (can_exec e) then (st, http_error 500 "Failed to toggle star: ")
  else
    let '(t, n) := update_files (fun f => owned_file id user f && active f) toggle_star (fm_tab st) in
    if n =? 0 then
      match select_file e st (owned_file id user) with
      | Some f =>
          if fr_deleted (sf_row f) then (st, http_error 400 "Cannot star a deleted file")
          else (st, http_error 404 "File not found")
      | None => (st, http_error 404 "File not found")
      end
    else (with_tab st t, mkResp 200 [("status", JStr "starred_toggled")]).

(** vaultExcludeFilter as a predicate on rows: folder_id IS NULL OR folder_id
    = '' OR folder_id NOT IN (...); the list is never empty. *)
Definition excludes (ids : list string) (f : stored_file) : bool :=
  match ids with
  | [] => true
  | _ => String.eqb (file_folder f) "" || negb (bool_decide (file_folder f ∈ ids))
  end.

Definition vaultExcludeFilter (e : file_env) (st : fm_state) : fm_state * (stored_file -> bool) :=
  let '(c, ids) := GetAllVaultFolderIDs (folder_query e st) (fm_cache st) in
  (with_cache st c, excludes ids).

Definition in_trash (user : Z) (f : stored_file) : bool :=
  (fr_owner (sf_row f) =? user) && fr_deleted (sf_row f).

(** SELECT DISTINCT: each value once. *)
Definition distinct_hashes (p : stored_file -> bool) (t : tables) : list string :=
  List.filter (fun h => negb (String.eqb h ""))
    (remove_dups (map (fun f => fr_cas (sf_row f)) (List.filter p (tb_files t)))).

Definition EmptyTrash (e : file_env) (st : fm_state) : fm_state * resp :=
  let '(st, shown) := if unlocked e then (st, fun _ => true) else vaultExcludeFilter e st in
  let p f := in_trash (user_of e) f && shown f in
  if negb (begin_ok e) then (st, http_error 500 "Failed to start transaction: ")
  else if negb (can_query e) then (st, http_error 500 "Failed to query trash: ")
  else
    let hashes := distinct_hashes p (fm_tab st) in
    if negb (can_exec e) then (st, http_error 500 "Failed to empty trash: ")
    else
      let '(t, count) := delete_files p (fm_tab st) in
      if negb (commit_ok e) then (st, http_error 500 "Failed to commit empty trash: ")
      else
        (foldl (fun st h => if IsValidHash h then release_blob e st h else st) (with_tab st t) hashes,
         mkResp 200 [("status", JStr "trash_emptied"); ("deleted_count", JInt count)]).

(** The name a request asks for: trimmed, cleaned, its last element. *)
Definition requested_name (what : string) (name : string) : resp + string :=
  let name := TrimSpace name in
  if String.eqb name "" then inl (http_error 400 (what +:+ " name cannot be empty"))
  else
    let clean := Base (Clean name) in
    if String.eqb clean "." || String.eqb clean ".." || String.eqb clean "/" || String.eqb clean ""
    then inl (http_error 400 ("Invalid " +:+ ToLower what +:+ " name"))
    else inr clean.

(** Another active file of the user with this name in this folder ("" is the
    top). *)
Definition name_taken (user : Z) (folder name id : string) (f : stored_file) : bool :=
  String.eqb (file_folder f) folder && String.eqb (fr_name (sf_row f)) name
  && negb (String.eqb (fr_id (sf_row f)) id) && (fr_owner (sf_row f) =? user) && active f.

Definition RenameFile (e : file_env) (st : fm_state) (id : string) (bind : option string) : fm_state * resp :=
  let user := user_of e in
  match bind with
  | None => (st, http_error 400 "Invalid request")
  | Some name =>
      match requested_name "File" name with
      | inl r => (st, r)
      | inr cleanName =>
          let mine f := owned_file id user f && active f in
          let row := select_file e st mine in
          if can_query e && bool_decide (row = None) then (st, http_error 404 "File not found")
          else
            let folderID := from_option file_folder "" row in
            let '(st, refused) := vault_refuses e st folderID in
            if refused then (st, vault_locked)
            else if file_exists e st (name_taken user folderID cleanName id)
            then (st, http_error 409 "File with this name already exists in this folder")
            else if negb (can_exec e) then (st, http_error 500 "Failed to rename file: ")
            else
              let '(t, n) := update_files mine (set_name cleanName) (fm_tab st) in
              if n =? 0 then (st, http_error 404 "File not found")
              else (with_tab st t, mkResp 200 [("status", JStr "file_renamed"); ("id", JStr id);
                                                ("name", JStr cleanName)])
      end
  end.

(** ** Moving files *)

Section Move.
Context `{CryptoPrims}.

(** [io.Copy(encStream, decStream)]: 32 KiB reads, each written as a chunk to
    the unbuffered temporary file. *)
Fixpoint copy_reencrypted (fuel : nat) (cap : Z) (es : EncryptStream (W := bytes)) (s : DecryptStream)
  : option (EncryptStream (W := bytes) * option gerror) :=
  match fuel with
  | O => None
  | S f =>
      match dec_read s (32 * 1024) with
      | (_, (_, Some EOF)) => Some (es, None)
      | (_, (_, Some er)) => Some (es, Some er)
      | (s', (b, None)) =>
          match enc_write (file_append cap) es b with
          | (es', (_, Some er)) => Some (es', Some er)
          | (es', (_, None)) => copy_reencrypted f cap es' s'
          end
      end
  end.

(** The failures of a re-encryption, in the order the code meets them. *)
Inductive reencrypt_error := CannotOpen | CannotDecrypt | CannotCreate | CannotEncrypt | CannotCopy | CannotStore.

Definition put_tmp (e : file_env) (b : bytes) (f : FS) : FS :=
  <[reenc_path e := mkFile b (now_ (fe_req e))]> f.

(** Lines 2346-2391 (and 2489-2545 of the batch): the blob under [srcKey] is
    stored again under [dstKey]; the hash of the new blob.  Without a store
    the code panics, which the framework answers with a 500 too. *)
Definition reencrypt (e : file_env) (st : fm_state) (casHash : string) (srcKey dstKey : bytes)
  : fm_state * (reencrypt_error + string) :=
  let env := os (fe_req e) in
  match fm_CAS st with
  | None => (st, inl CannotOpen)
  | Some c =>
      match fs_read env (fm_fs st) (Path c casHash) with
      | Err _ => (st, inl CannotOpen)
      | Ok data =>
          match NewDecryptStream (os_file data 0) srcKey with
          | Err _ => (st, inl CannotDecrypt)
          | Ok s =>
              if negb (create_ok env) then (st, inl CannotCreate)
              else
                let tmp b := with_store st (Some c) (put_tmp e b (fm_fs st)) in
                let drop st := with_store st (Some c) (fs_remove env (fm_fs st) (reenc_path e)) in
                match NewEncryptStream [] dstKey with
                | Err _ => (drop (tmp []), inl CannotEncrypt)
                | Ok es =>
                    match copy_reencrypted (seek_fuel s) (disk_cap (fe_req e)) es s with
                    | None => (tmp [], inl CannotCopy)
                    | Some (es', Some _) => (drop (tmp (es_w es')), inl CannotCopy)
                    | Some (es', None) =>
                        let st1 := tmp (es_w es') in
                        match MoveToCASWithStatus env c (fm_fs st1) (reenc_path e) with
                        | (c1, f1, Ok (h, _)) => (with_store st1 (Some c1) f1, inr h)
                        | (c1, f1, Err _) =>
                            (with_store st1 (Some c1) (fs_remove env f1 (reenc_path e)), inl CannotStore)
                        end
                    end
                end
          end
      end
  end.

(** The key of the vault session, empty when there is none. *)
Definition session_key (e : file_env) : bytes :=
  match swarm (fe_req e) with
  | Some v =>
      match GetKey (now_ (fe_req e)) (vault (fe_req e)) v with
      | Some r => default [] (heap (vault (fe_req e)) !! r)
      | None => []
      end
  | None => []
  end.

Definition std_key (e : file_env) : bytes := default [] (standard_key (fe_req e)).

(** strings.TrimSpace and "root" *)
Definition target_folder (folder : string) : string :=
  let f := TrimSpace folder in if String.eqb f "root" then "" else f.

Definition moved (id name folder : string) (cas : list (string * jval)) : resp :=
  mkResp 200 ([("status", JStr "file_moved"); ("id", JStr id); ("name", JStr name); ("folder_id", JStr folder)]
              ++ cas).

Definition reencrypt_failed (x : reencrypt_error) : resp :=
  http_error 500
    match x with
    | CannotOpen => "Failed to read file from storage: "
    | CannotDecrypt => "Failed to decrypt file for re-encryption: "
    | CannotCreate => "Failed to create temp file: "
    | CannotEncrypt => "Failed to create encrypt stream: "
    | CannotCopy => "Failed to re-encrypt payload: "
    | CannotStore => "Failed to store re-encrypted payload in CAS: "
    end.

(** UPDATE files SET folder_id = ?, cas_hash = ? WHERE id = ? AND owner_id = ? *)
Definition place_file (user : Z) (id folder h : string) (t : tables) : tables :=
  fst (update_files (owned_file id user) (set_place (db_folder folder) h) t).

Definition MoveFile (e : file_env) (st : fm_state) (id : string) (bind : option string) : fm_state * resp :=
  let user := user_of e in
  match bind with
  | None => (st, http_error 400 "Invalid request body")
  | Some folder =>
      let target := target_folder folder in
      if negb (can_query e) then (st, http_error 500 "Database error: ")
      else
        match select_file e st (fun f => owned_file id user f && active f) with
        | None => (st, http_error 404 "File not found")
        | Some f =>
            let src := file_folder f in
            let name := fr_name (sf_row f) in
            let casHash := fr_cas (sf_row f) in
            if String.eqb src target then (st, moved id name target [])
            else if negb (String.eqb target "") && negb (folder_exists e st (owned_folder target user))
            then (st, http_error 400 "Target folder does not exist")
            else if file_exists e st (name_taken user target name id)
            then (st, http_error 409 ("A file named '" +:+ name +:+ "' already exists in the target folder"))
            else
              let '(st, isSrcVault) := in_vault_now e st src in
              let '(st, isDstVault) := in_vault_now e st target in
              let '(st, r) :=
                if Bool.eqb isSrcVault isDstVault then (st, inr casHash)
                else if negb (unlocked e) then
                  (st, inl (http_error 401 "Vault locked. Master password required to move files to/from vault."))
                else
                  let vaultKey := session_key e in
                  if zlen vaultKey =? 0 then
                    (st, inl (http_error 401 "Vault key not found in active session."))
                  else
                    let '(st1, x) :=
                      reencrypt e st casHash (if isSrcVault then vaultKey else std_key e)
                        (if isSrcVault then std_key e else vaultKey) in
                    (st1, match x with inl er => inl (reencrypt_failed er) | inr h => inr h end) in
              match r with
              | inl failure => (st, failure)
              | inr newCasHash =>
                  if negb (can_exec e) then (st, http_error 500 "Failed to move file: ")
                  else (with_tab st (place_file user id target newCasHash (fm_tab st)),
                        moved id name target [("cas_hash", JStr newCasHash)])
              end
        end
  end.

(** One file of a batch: the state, and whether it was moved; [inl] answers
    the whole request. *)
Definition move_one (e : file_env) (target : string) (st : fm_state) (id : string)
  : fm_state * (resp + bool) :=
  let user := user_of e in
  match select_file e st (fun f => owned_file id user f && active f) with
  | None => (st, inr false)
  | Some f =>
      let src := file_folder f in
      let casHash := fr_cas (sf_row f) in
      if String.eqb src target then (st, inr true)
      else if file_exists e st (name_taken user target (fr_name (sf_row f)) id) then (st, inr false)
      else
        let '(st, isSrcVault) := in_vault_now e st src in
        let '(st, isDstVault) := in_vault_now e st target in
        let update st h :=
          if can_exec e then (with_tab st (place_file user id target h (fm_tab st)), inr true)
          else (st, inr false) in
        if Bool.eqb isSrcVault isDstVault then update st casHash
        else if negb (unlocked e) then (st, inl vault_locked)
        else
          match reencrypt e st casHash (if isSrcVault then session_key e else std_key e)
                  (if isSrcVault then std_key e else session_key e) with
          | (st1, inl _) => (st1, inr false)
          | (st1, inr h) => update st1 h
          end
  end.

Fixpoint move_all (e : file_env) (target : string) (st : fm_state) (ids : list string) (n : Z)
    (failed : list string) : fm_state * (resp + (Z * list string)) :=
  match ids with
  | [] => (st, inr (n, failed))
  | id :: ids' =>
      match move_one e target st id with
      | (st1, inl r) => (st1, inl r)
      | (st1, inr true) => move_all e target st1 ids' (n + 1) failed
      | (st1, inr false) => move_all e target st1 ids' n (failed ++ [id])
      end
  end.

(** The response names the files that failed; the reasons are left out. *)
Definition MoveFilesBatch (e : file_env) (st : fm_state) (bind : option (list string * string))
  : fm_state * (resp + (Z * list string)) :=
  match bind with
  | None => (st, inl (http_error 400 "Invalid request body"))
  | Some (ids, folder) =>
      if bool_decide (ids = []) then (st, inl (http_error 400 "No file IDs provided"))
      else
        let target := target_folder folder in
        if negb (String.eqb target "") && negb (folder_exists e st (owned_folder target (user_of e)))
        then (st, inl (http_error 400 "Target folder does not exist"))
        else move_all e target st ids 0 []
  end.

End Move.

(** ** Folders *)

Definition invalidate (st : fm_state) : fm_state := with_cache st (InvalidateVaultCache (fm_cache st)).

Definition folder_id_of (e : file_env) : string :=
  "f_" +:+ FormatInt (now_ (fe_req e) / 1000000000) +:+ "_" +:+ slice (GenerateID (rand_bytes (fe_req e))) 0 8.

(** NULLIF(?, '') *)
Definition nullif (s : string) : option string := if String.eqb s "" then None else Some s.

Definition CreateFolder (e : file_env) (st : fm_state) (bind : option (string * string)) : fm_state * resp :=
  match bind with
  | None => (st, http_error 400 "Invalid request")
  | Some (name, parentID) =>
      match requested_name "Folder" name with
      | inl r => (st, r)
      | inr cleanName =>
          let parent := if String.eqb parentID "root" then "" else parentID in
          let '(st, checked) :=
            if String.eqb parent "" then (st, None)
            else
              let '(st1, refused) := vault_refuses e st parent in
              (st1,
               if refused
               then Some (http_error 401 "Vault locked. Master password required to create folder in vault.")
               else if folder_exists e st1 (fun f => String.eqb (fo_id f) parent) then None
               else Some (http_error 400 "Invalid parent folder")) in
          match checked with
          | Some r => (st, r)
          | None =>
              if folder_exists e st (fun f => String.eqb (coalesce (fo_parent f)) parent
                                              && String.eqb (fo_name f) cleanName)
              then (st, http_error 409 "Folder with this name already exists in the destination")
              else
                let row := mkFolder (folder_id_of e) (user_of e) (nullif parent) cleanName in
                match (if can_exec e then insert_folder row (fm_tab st) else None) with
                | None => (st, http_error 500 "Failed to create folder: ")
                | Some t =>
                    (invalidate (with_tab st t),
                     mkResp 201 [("id", JStr (fo_id row)); ("name", JStr cleanName)])
                end
          end
      end
  end.

Definition is_system (id : string) : bool := String.eqb id "f1" || String.eqb id "f2" || String.eqb id "f3".

Definition RenameFolder (e : file_env) (st : fm_state) (id : string) (bind : option string) : fm_state * resp :=
  let user := user_of e in
  if is_system id then (st, http_error 403 "Folder sistem tidak dapat diubah namanya")
  else
    let '(st, refused) := vault_refuses e st id in
    if refused then (st, http_error 401 "Vault locked.")
    else
      match bind with
      | None => (st, http_error 400 "Invalid request")
      | Some name =>
          match requested_name "Folder" name with
          | inl r => (st, r)
          | inr cleanName =>
              let row := select_folder e st (owned_folder id user) in
              if can_query e && bool_decide (row = None) then (st, http_error 404 "Folder not found")
              else
                let parent := from_option (fun f => coalesce (fo_parent f)) "" row in
                if folder_exists e st (fun f => String.eqb (coalesce (fo_parent f)) parent
                                                && String.eqb (fo_name f) cleanName
                                                && negb (String.eqb (fo_id f) id) && (fo_owner f =? user))
                then (st, http_error 409 "Folder with this name already exists")
                else if negb (can_exec e) then (st, http_error 500 "Failed to rename folder: ")
                else if negb (existsb (owned_folder id user) (tb_folders (fm_tab st)))
                then (st, http_error 404 "Folder not found")
                else
                  let rename f := if owned_folder id user f
                                  then mkFolder (fo_id f) (fo_owner f) (fo_parent f) cleanName else f in
                  (invalidate (with_tab st (mkTables (map rename (tb_folders (fm_tab st)))
                                              (tb_files (fm_tab st)))),
                   mkResp 200 [("status", JStr "folder_renamed"); ("name", JStr cleanName)])
          end
      end.

(** SELECT id FROM folders WHERE parent_id = ? AND owner_id = ? *)
Definition user_children (t : tables) (user : Z) (id : string) : list string :=
  map fo_id (List.filter (fun f => bool_decide (fo_parent f = Some id) && (fo_owner f =? user)) (tb_folders t)).

(** The search of DeleteFolder; it keeps no set of visited folders. *)
Fixpoint collect (fuel : nat) (t : tables) (user : Z) (queue acc : list string) : option (list string) :=
  match fuel with
  | O => None
  | S f =>
      match queue with
      | [] => Some acc
      | curr :: queue' =>
          let children := user_children t user curr in
          collect f t user (queue' ++ children) (acc ++ children)
      end
  end.

(** Fuel: in a forest every folder enters the queue at most once. *)
Definition collect_fuel (t : tables) : nat := S (S (length (tb_folders t))).

(** UPDATE files SET is_deleted = TRUE, folder_id = ... WHERE folder_id = ?
    AND owner_id = ? *)
Definition trash_folder (isVault : bool) (user : Z) (t : tables) (id : string) : tables :=
  fst (update_files (fun f => bool_decide (fr_folder (sf_row f) = Some id) && (fr_owner (sf_row f) =? user))
         (trash_into (if isVault then Some "f2" else None)) t).

(** [None]: the search does not end. *)
Definition DeleteFolder (e : file_env) (st : fm_state) (id : string) : option (fm_state * resp) :=
  let user := user_of e in
  if is_system id then Some (st, http_error 403 "Folder sistem tidak dapat dihapus")
  else if negb (folder_exists e st (owned_folder id user)) then Some (st, http_error 404 "Folder not found")
  else
    let '(st, refused) := vault_refuses e st id in
    if refused then Some (st, http_error 401 "Vault locked.")
    else
      match collect (collect_fuel (fm_tab st)) (fm_tab st) user [id] [id] with
      | None => None
      | Some all =>
          if negb (begin_ok e) then Some (st, http_error 500 "Failed to start transaction: ")
          else
            let '(st, isVault) := in_vault_now e st id in
            let t1 := if can_exec e then foldl (trash_folder isVault user) (fm_tab st) all else fm_tab st in
            let t2 := if can_exec e then foldl (fun t x => delete_folder x user t) t1 (rev all) else t1 in
            if negb (commit_ok e) then Some (st, http_error 500 "Failed to commit folder deletion: ")
            else Some (invalidate (with_tab st t2), mkResp 200 [("status", JStr "folder_deleted")])
      end.
