(* ===== verification/FileOpsFacts.v ===== *)
(** * Lemmas about file and folder operations

    The search of DeleteFolder ends in a forest and collects the user's part
    of the subtree; statements keep the tables well-formed; re-encryption
    keeps the contents. *)

From S2P Require Import Prelude GoStrings FileSys CryptoPrims CryptoStream CryptoStreamFacts CAS CASProps UploadSession VaultTree Auth UploadCtrl UploadFacts FileDownload FileTable FileOps.

#[local] Open Scope string_scope.
#[local] Open Scope list_scope.
#[local] Open Scope Z_scope.

(** ** Parents come first: links go up in the table *)

(** The position of an identifier. *)
Fixpoint pos_of (x : string) (l : list string) : nat :=
  match l with
  | [] => 0
  | y :: l' => if String.eqb x y then 0 else S (pos_of x l')
  end.

Lemma pos_of_app_in x l k : x ∈ l -> pos_of x (l ++ k) = pos_of x l /\ (pos_of x l < length l)%nat.
Proof.
  induction l as [|y l IH]; [by intros ?%not_elem_of_nil|]. intros Hin. cbn.
  destruct (String.eqb_spec x y); [split; lia|].
  apply elem_of_cons in Hin as [->|Hin]; [done|]. destruct (IH Hin) as [-> ?]. lia.
Qed.

Lemma pos_of_app_out x l k : x ∉ l -> pos_of x (l ++ k) = (length l + pos_of x k)%nat.
Proof.
  induction l as [|y l IH]; [done|]. intros Hin. cbn.
  destruct (String.eqb_spec x y) as [->|]; [by destruct Hin; left|]. rewrite IH; [done|set_solver].
Qed.

Lemma link_goes_up t p c : tables_ok t -> is_child (query_links (links_of t)) p c ->
  (pos_of p (folder_ids t) < pos_of c (folder_ids t))%nat /\ p ∈ folder_ids t /\ c ∈ folder_ids t.
Proof.
  intros [Hnd _ Hord _] (Hne & f & Hf & <- & Hp)%links_child.
  apply list_elem_of_split in Hf as (pre & post & He).
  pose proof (Hord pre f post p He Hp Hne) as Hin. unfold folder_ids in *.
  rewrite He, map_app in Hnd |- *. apply NoDup_app in Hnd as (_ & Hdis & _).
  assert (fo_id f ∉ map fo_id pre) as Hout by (intros Hx; apply (Hdis _ Hx); by left).
  destruct (pos_of_app_in p (map fo_id pre) (map fo_id (f :: post)) Hin) as [-> Hlt].
  rewrite (pos_of_app_out _ _ _ Hout). split; [lia|]. split; set_solver.
Qed.

Lemma reach_goes_up t p c : tables_ok t -> rtc (is_child (query_links (links_of t))) p c ->
  (pos_of p (folder_ids t) <= pos_of c (folder_ids t))%nat.
Proof.
  intros Hok. induction 1 as [|x y z Hxy _ IH]; [done|].
  apply (link_goes_up t) in Hxy as [? _]; [lia|done].
Qed.

(** ** The search of DeleteFolder *)

(** A folder of the user directly below another one. *)
Definition user_child (t : tables) (user : Z) (p c : string) : Prop := c ∈ user_children t user p.

Lemma user_child_spec t user p c : user_child t user p c <->
  exists f, f ∈ tb_folders t /\ fo_id f = c /\ fo_parent f = Some p /\ fo_owner f = user.
Proof.
  unfold user_child, user_children. rewrite list_elem_of_fmap. split.
  - intros (f & -> & Hf). apply list_elem_of_In, List.filter_In in Hf as [Hf Hb].
    apply andb_true_iff in Hb as [Hp%bool_decide_eq_true Ho%Z.eqb_eq]. exists f.
    by rewrite list_elem_of_In.
  - intros (f & Hf & <- & Hp & Ho). exists f. split; [done|]. apply list_elem_of_In, List.filter_In.
    rewrite <- list_elem_of_In. split; [done|]. rewrite bool_decide_eq_true_2 by done. by rewrite Ho, Z.eqb_refl.
Qed.

Lemma user_child_link t user p c : p <> "" -> user_child t user p c -> is_child (query_links (links_of t)) p c.
Proof.
  intros Hne (f & Hf & Hc & Hp & _)%user_child_spec. apply links_child. split; [done|]. by exists f.
Qed.

Lemma user_children_nodup t user p : tables_ok t -> NoDup (user_children t user p).
Proof.
  intros [Hnd _ _ _]. unfold user_children, folder_ids in *.
  induction (tb_folders t) as [|f fs IH]; [constructor|]. cbn in *.
  apply NoDup_cons in Hnd as [Hf Hfs]. destruct (_ && _); cbn; [|auto].
  apply NoDup_cons. split; [|auto]. intros Hin. apply Hf.
  apply list_elem_of_fmap in Hin as (g & He & Hg). rewrite He. apply list_elem_of_fmap. exists g.
  split; [done|]. rewrite list_elem_of_In in *. by apply List.filter_In in Hg as [? _].
Qed.

(** A parent is unique. *)
Lemma user_child_unique t user p q c :
  tables_ok t -> user_child t user p c -> user_child t user q c -> p = q.
Proof.
  intros [Hnd _ _ _] (f & Hf & Hfc & Hfp & _)%user_child_spec (g & Hg & Hgc & Hgp & _)%user_child_spec.
  assert (f = g) as ->; [|congruence].
  apply list_elem_of_lookup in Hf as [i Hi], Hg as [j Hj].
  assert (folder_ids t !! i = Some c) as Hi' by (unfold folder_ids; rewrite list_lookup_fmap, Hi; cbn; by rewrite Hfc).
  assert (folder_ids t !! j = Some c) as Hj' by (unfold folder_ids; rewrite list_lookup_fmap, Hj; cbn; by rewrite Hgc).
  pose proof (NoDup_lookup _ _ _ _ Hnd Hi' Hj'). subst j. congruence.
Qed.

(** The state of the search: [done] folders were expanded, [queue] wait. *)
Record collecting (t : tables) (user : Z) (root : string) (expanded queue : list string) : Prop := {
  cl_nodup : NoDup (expanded ++ queue);
  cl_root : root ∈ expanded ++ queue;
  cl_in x : x ∈ expanded ++ queue -> x ∈ folder_ids t;
  cl_reach x : x ∈ expanded ++ queue -> rtc (user_child t user) root x;
  cl_from x : x ∈ expanded ++ queue -> x = root \/ exists p, p ∈ expanded /\ user_child t user p x;
  cl_closed x y : x ∈ expanded -> user_child t user x y -> y ∈ expanded ++ queue
}.

Lemma reach_user_up t user root x :
  tables_ok t -> root ∈ folder_ids t -> rtc (user_child t user) root x ->
  (pos_of root (folder_ids t) <= pos_of x (folder_ids t))%nat /\ x ∈ folder_ids t.
Proof.
  intros Hok Hroot Hr. revert Hroot. induction Hr as [x|x y z Hxy _ IH]; [done|]. intros Hin.
  assert (x <> "") as Hne by (intros ->; by apply (tk_named t Hok)).
  apply user_child_link in Hxy; [|done]. apply (link_goes_up t) in Hxy as (Hlt & _ & Hy); [|done].
  destruct (IH Hy). split; [lia|done].
Qed.

Lemma collecting_step t user root expanded curr queue :
  tables_ok t -> collecting t user root expanded (curr :: queue) ->
  collecting t user root (expanded ++ [curr]) (queue ++ user_children t user curr).
Proof.
  intros Hok [Hnd Hroot Hin Hre Hfrom Hcl].
  assert (curr ∈ expanded ++ curr :: queue) as Hcurr by set_solver.
  assert (root ∈ folder_ids t) as Hrin by auto.
  assert (forall x, x ∈ user_children t user curr -> x ∉ expanded ++ curr :: queue /\ x ∈ folder_ids t) as Hnew.
  { intros x Hx. assert (curr <> "") as Hne by (intros ->; apply (tk_named t Hok); auto).
    pose proof (user_child_link t user curr x Hne Hx) as Hl. apply (link_goes_up t) in Hl as (Hlt & _ & Hxin); [|done].
    split; [|done]. intros Hxin2. destruct (Hfrom x Hxin2) as [->|(p & Hp & Hpx)].
    - destruct (reach_user_up t user root curr Hok Hrin (Hre _ Hcurr)). lia.
    - pose proof (user_child_unique t user p curr x Hok Hpx Hx). subst p.
      apply NoDup_app in Hnd as (_ & Hdis & _). apply (Hdis curr Hp). by left. }
  assert (forall x, x ∈ (expanded ++ [curr]) ++ queue ++ user_children t user curr <->
    x ∈ expanded ++ curr :: queue \/ x ∈ user_children t user curr) as Hmem by set_solver.
  split.
  - replace ((expanded ++ [curr]) ++ queue ++ user_children t user curr)
      with ((expanded ++ curr :: queue) ++ user_children t user curr) by (by rewrite <- !app_assoc).
    apply NoDup_app. split; [done|]. split; [|by apply user_children_nodup].
    intros x Hx Hc. by apply (Hnew x Hc).
  - apply Hmem. by left.
  - intros x [Hx|Hx]%Hmem; [auto|]. by apply Hnew.
  - intros x [Hx|Hx]%Hmem; [auto|]. eapply rtc_r; [by apply Hre|exact Hx].
  - intros x [Hx|Hx]%Hmem.
    + destruct (Hfrom x Hx) as [|(p & Hp & Hpx)]; [by left|]. right. exists p. set_solver.
    + right. exists curr. set_solver.
  - intros x y [Hx|Hx%list_elem_of_singleton]%elem_of_app Hxy; apply Hmem; [left; eauto|].
    subst x. by right.
Qed.

(** The search ends, and collects what the user's folders reach. *)
Lemma collect_correct t user root fuel expanded queue :
  tables_ok t -> collecting t user root expanded queue ->
  (length (folder_ids t) < fuel + length expanded)%nat ->
  exists all, collect fuel t user queue (expanded ++ queue) = Some all /\ NoDup all /\
    (forall x, x ∈ all <-> rtc (user_child t user) root x) /\ (forall x, x ∈ all -> x ∈ folder_ids t).
Proof.
  intros Hok. revert expanded queue. induction fuel as [|f IH]; intros expanded queue Hc Hf.
  { exfalso. destruct Hc as [Hnd _ Hin _ _ _].
    assert (length expanded <= length (folder_ids t))%nat; [|lia].
    apply NoDup_app in Hnd as (Hnd & _). apply submseteq_length, NoDup_submseteq; [done|].
    intros x Hx. apply Hin. set_solver. }
  destruct queue as [|curr queue]; cbn [collect].
  - destruct Hc as [Hnd Hroot Hin Hre _ Hcl]. rewrite app_nil_r in Hnd, Hroot, Hin, Hre |- *.
    exists expanded. split; [done|]. split; [done|]. split; [|intros x; apply Hin]. intros x. split; [apply Hre|].
    intros Hr. clear Hre IH. revert Hroot. induction Hr as [x|x y z Hxy _ IHr]; [done|]. intros Hx. apply IHr.
    rewrite <- (app_nil_r expanded). by apply (Hcl x).
  - replace ((expanded ++ curr :: queue) ++ user_children t user curr)
      with ((expanded ++ [curr]) ++ queue ++ user_children t user curr) by (by rewrite <- !app_assoc).
    apply IH; [by apply collecting_step|]. rewrite length_app. cbn. lia.
Qed.

Lemma collecting_start t user root : root ∈ folder_ids t -> collecting t user root [] [root].
Proof.
  intros Hroot. split; cbn [app].
  - apply NoDup_singleton.
  - by left.
  - by intros x ->%list_elem_of_singleton.
  - intros x ->%list_elem_of_singleton. apply rtc_refl.
  - intros x ->%list_elem_of_singleton. by left.
  - by intros x y ?%not_elem_of_nil.
Qed.

Lemma collect_ends t user root :
  tables_ok t -> root ∈ folder_ids t ->
  exists all, collect (collect_fuel t) t user [root] [root] = Some all /\ NoDup all /\
    (forall x, x ∈ all <-> rtc (user_child t user) root x) /\ (forall x, x ∈ all -> x ∈ folder_ids t).
Proof.
  intros Hok Hroot. apply (collect_correct t user root _ [] [root] Hok); [by apply collecting_start|].
  unfold collect_fuel, folder_ids. rewrite length_map. cbn. lia.
Qed.

(** ** Deleting a list of folders *)

(** The tables without the folders of [gone] and the files in them. *)
Definition drop_tables (gone : gset string) (t : tables) : tables :=
  mkTables (List.filter (fun f => negb (bool_decide (fo_id f ∈ gone))) (tb_folders t))
    (List.filter (fun f => negb (match fr_folder (sf_row f) with
                                 | Some d => bool_decide (d ∈ gone)
                                 | None => false
                                 end)) (tb_files t)).

Lemma list_filter_ext {A} (p q : A -> bool) l : (forall x, p x = q x) -> List.filter p l = List.filter q l.
Proof. intros He. induction l as [|x l IH]; [done|]. cbn. by rewrite He, IH. Qed.

Lemma list_filter_filter {A} (p q : A -> bool) l :
  List.filter p (List.filter q l) = List.filter (fun x => q x && p x) l.
Proof.
  induction l as [|x l IH]; [done|]. cbn. destruct (q x); cbn; [|done]. by rewrite IH.
Qed.

Lemma list_filter_all {A} (p : A -> bool) l : (forall x, p x = true) -> List.filter p l = l.
Proof. intros Hp. induction l as [|x l IH]; [done|]. cbn. by rewrite Hp, IH. Qed.

Lemma drop_tables_union a b t : drop_tables b (drop_tables a t) = drop_tables (a ∪ b) t.
Proof.
  unfold drop_tables. cbn. rewrite !list_filter_filter. f_equal; apply list_filter_ext; intros f.
  - rewrite <- negb_orb. f_equal. rewrite <- bool_decide_or. by apply bool_decide_ext; rewrite elem_of_union.
  - destruct (fr_folder (sf_row f)); [|done]. rewrite <- negb_orb. f_equal. rewrite <- bool_decide_or.
    by apply bool_decide_ext; rewrite elem_of_union.
Qed.

Lemma drop_tables_empty t : drop_tables ∅ t = t.
Proof.
  destruct t as [fs rs]. unfold drop_tables. cbn. f_equal; apply list_filter_all; intros f; [|destruct (fr_folder _)];
    try done; by rewrite bool_decide_eq_false_2 by set_solver.
Qed.

Lemma delete_folder_drop id user t :
  delete_folder id user t =
    if existsb (owned_folder id user) (tb_folders t) then drop_tables (subtree t id) t else t.
Proof. done. Qed.

(** [gone] contains the folders below its folders. *)
Definition closed_below (t : tables) (gone : gset string) : Prop :=
  forall p c, p ∈ gone -> is_child (query_links (links_of t)) p c -> c ∈ gone.

Lemma drop_child t gone p c :
  is_child (query_links (links_of (drop_tables gone t))) p c <->
  is_child (query_links (links_of t)) p c /\ c ∉ gone.
Proof.
  rewrite !links_child. cbn. split.
  - intros (Hne & f & Hf & <- & Hp). rewrite list_elem_of_In in Hf. apply List.filter_In in Hf as [Hf Hk].
    apply negb_true_iff, bool_decide_eq_false in Hk. split; [|done]. split; [done|]. exists f.
    by rewrite list_elem_of_In.
  - intros [(Hne & f & Hf & <- & Hp) Hk]. split; [done|]. exists f. split; [|done].
    apply list_elem_of_In, List.filter_In. rewrite <- list_elem_of_In. split; [done|].
    by apply negb_true_iff, bool_decide_eq_false.
Qed.

Lemma drop_reach t gone x y :
  rtc (is_child (query_links (links_of (drop_tables gone t)))) x y ->
  rtc (is_child (query_links (links_of t))) x y.
Proof. apply rtc_subrel. intros a b Hab. by apply drop_child in Hab as [? _]. Qed.

(** What is reached in the rest stays below, and joins up with [gone]. *)
Lemma closed_step t gone x :
  closed_below t gone -> closed_below t (gone ∪ subtree (drop_tables gone t) x).
Proof.
  intros Hc p c [Hp|Hp]%elem_of_union Hpc; [apply elem_of_union_l; by apply (Hc p)|].
  destruct (decide (c ∈ gone)) as [|Hn]; [by apply elem_of_union_l|]. apply elem_of_union_r.
  apply subtree_spec. apply subtree_spec in Hp. eapply rtc_r; [exact Hp|]. by apply drop_child.
Qed.

Lemma existsb_owned_in id user fs : existsb (owned_folder id user) fs = true <->
  exists f, f ∈ fs /\ fo_id f = id /\ fo_owner f = user.
Proof.
  rewrite existsb_exists. unfold owned_folder. split; intros (f & Hf & Hp); exists f;
    rewrite ?list_elem_of_In in *; rewrite ?andb_true_iff, ?String.eqb_eq, ?Z.eqb_eq in *; tauto.
Qed.

Lemma delete_folders_drop t user l gone :
  closed_below t gone ->
  exists gone', foldl (fun t x => delete_folder x user t) (drop_tables gone t) l = drop_tables gone' t /\
    gone ⊆ gone' /\ closed_below t gone' /\
    (forall y, y ∈ gone' -> y ∈ gone \/ exists x, x ∈ l /\ rtc (is_child (query_links (links_of t))) x y) /\
    (forall x, x ∈ l -> existsb (owned_folder x user) (tb_folders t) = true -> x ∈ gone').
Proof.
  revert gone. induction l as [|x l IH]; intros gone Hc.
  { exists gone. do 3 (split; [done|]). split; [by left|]. by intros x ?%not_elem_of_nil. }
  cbn [foldl]. rewrite delete_folder_drop.
  destruct (existsb (owned_folder x user) (tb_folders (drop_tables gone t))) eqn:Hex.
  - rewrite drop_tables_union.
    destruct (IH (gone ∪ subtree (drop_tables gone t) x)) as (g & -> & Hsub & Hcl & Hfrom & Hall);
      [by apply closed_step|].
    exists g. split; [done|]. split; [set_solver|]. split; [done|]. split.
    + intros y Hy. destruct (Hfrom y Hy) as [[Hg|Hg]%elem_of_union|(z & Hz & Hzy)].
      * by left.
      * right. exists x. split; [by left|]. apply (drop_reach t gone). by apply subtree_spec.
      * right. exists z. split; [by right|done].
    + intros y [->|Hy]%elem_of_cons Ho; [|by apply Hall]. apply Hsub, elem_of_union_r, subtree_spec, rtc_refl.
  - destruct (IH gone Hc) as (g & -> & Hsub & Hcl & Hfrom & Hall). exists g. split; [done|].
    split; [done|]. split; [done|]. split.
    + intros y Hy. destruct (Hfrom y Hy) as [|(z & Hz & Hzy)]; [by left|]. right. exists z. split; [by right|done].
    + intros y [->|Hy]%elem_of_cons Ho; [|by apply Hall]. apply Hsub.
      destruct (decide (x ∈ gone)) as [|Hn]; [done|]. exfalso. apply not_true_iff_false in Hex. apply Hex.
      apply existsb_owned_in in Ho as (f & Hf & Hid & Ho). apply existsb_owned_in. exists f. split; [|done].
      apply list_elem_of_In, List.filter_In. rewrite <- list_elem_of_In. split; [done|].
      apply negb_true_iff, bool_decide_eq_false. by rewrite Hid.
Qed.

(** Deleting the user's folders below [id] and [id] itself deletes the whole
    subtree of [id]. *)
Lemma delete_collected t user id l :
  existsb (owned_folder id user) (tb_folders t) = true -> id ∈ l ->
  (forall x, x ∈ l -> rtc (is_child (query_links (links_of t))) id x) ->
  foldl (fun t x => delete_folder x user t) t l = drop_tables (subtree t id) t.
Proof.
  intros Ho Hid Hl. destruct (delete_folders_drop t user l ∅) as (g & He & _ & Hcl & Hfrom & Hall); [by intros ???%not_elem_of_empty|].
  rewrite drop_tables_empty in He. rewrite He. f_equal. apply set_eq. intros y. rewrite subtree_spec. split.
  - intros Hy. destruct (Hfrom y Hy) as [?|(x & Hx & Hxy)]; [set_solver|]. etrans; [by apply Hl|done].
  - intros Hy. pose proof (Hall id Hid Ho) as Hg. clear - Hy Hg Hcl.
    induction Hy as [x|x z y Hxz _ IH]; [done|]. apply IH. by apply (Hcl x).
Qed.

(** ** Trashing the files of a list of folders *)

Definition in_folders (all : list string) (user : Z) (f : stored_file) : bool :=
  (fr_owner (sf_row f) =? user) &&
  match fr_folder (sf_row f) with Some d => bool_decide (d ∈ all) | None => false end.

Definition trash_all (isVault : bool) (user : Z) (all : list string) (f : stored_file) : stored_file :=
  if in_folders all user f then trash_into (if isVault then Some "f2" else None) f else f.

Lemma trash_folders_map isVault user all t :
  "f2" ∉ all ->
  foldl (trash_folder isVault user) t all
  = mkTables (tb_folders t) (map (trash_all isVault user all) (tb_files t)).
Proof.
  revert t. induction all as [|x all IH]; intros t Hf2.
  { destruct t as [fs rs]. cbn. f_equal. rewrite <- (list_fmap_id rs) at 1. apply list_fmap_ext. intros i f _.
    unfold trash_all, in_folders. cbn. destruct (fr_folder _); [|by rewrite andb_false_r].
    rewrite bool_decide_eq_false_2 by apply not_elem_of_nil. by rewrite andb_false_r. }
  cbn [foldl]. rewrite IH by set_solver. unfold trash_folder. cbn. f_equal. rewrite map_map. apply map_ext.
  intros f. unfold trash_all, in_folders. destruct (Z.eqb_spec (fr_owner (sf_row f)) user) as [Ho|Ho].
  2:{ rewrite andb_false_r. by destruct (Z.eqb_spec (fr_owner (sf_row f)) user). }
  destruct (fr_folder (sf_row f)) as [d|] eqn:Hd; cbn [andb].
  - destruct (decide (d = x)) as [->|Hne].
    + rewrite !bool_decide_eq_true_2 by (done || by left). cbn. rewrite Ho, Z.eqb_refl. cbn.
      destruct isVault; [|done]. by rewrite bool_decide_eq_false_2 by set_solver.
    + rewrite bool_decide_eq_false_2 by congruence. cbn. rewrite Ho, Z.eqb_refl, Hd. cbn.
      assert (bool_decide (d ∈ all) = bool_decide (d ∈ x :: all)) as -> by (apply bool_decide_ext; set_solver).
      done.
  - rewrite (bool_decide_eq_false_2 (None = Some x)) by done. cbn. by rewrite Hd, andb_false_r.
Qed.

Lemma user_reach_links t user root x :
  tables_ok t -> root ∈ folder_ids t -> rtc (user_child t user) root x ->
  rtc (is_child (query_links (links_of t))) root x.
Proof.
  intros Hok Hroot Hr. revert Hroot. induction Hr as [x|x y z Hxy _ IH]; [intros _; apply rtc_refl|]. intros Hin.
  assert (x <> "") as Hne by (intros ->; by apply (tk_named t Hok)).
  apply user_child_link in Hxy; [|done]. eapply rtc_l; [exact Hxy|]. apply IH.
  by apply (link_goes_up t) in Hxy as (_ & _ & ?).
Qed.

(** The vault's root is below no other folder. *)
Lemma f2_not_below t user root x :
  tables_ok t -> root <> "f2" -> rtc (user_child t user) root x -> x <> "f2".
Proof.
  intros Hok Hne Hr ->. apply rtc_inv_r in Hr as [->|(p & _ & Hp)]; [done|].
  apply user_child_spec in Hp as (f & Hf & Hid & Hp & _). rewrite (tk_roots t Hok f Hf) in Hp; [done|].
  rewrite Hid. set_solver.
Qed.

(** What DeleteFolder leaves of the tables: the subtree is gone, the user's
    files of the user's part [mine] of it are in the trash. *)
Definition folder_deleted (isVault : bool) (user : Z) (mine : list string) (id : string) (t : tables) : tables :=
  drop_tables (subtree t id) (mkTables (tb_folders t) (map (trash_all isVault user mine) (tb_files t))).

Lemma delete_statements t user isVault id all :
  tables_ok t -> is_system id = false -> existsb (owned_folder id user) (tb_folders t) = true ->
  (forall x, x ∈ all <-> rtc (user_child t user) id x) ->
  foldl (fun t x => delete_folder x user t) (foldl (trash_folder isVault user) t all) (rev all)
  = folder_deleted isVault user all id t.
Proof.
  intros Hok Hsys Ho Hall.
  assert (id ∈ folder_ids t) as Hid.
  { apply existsb_owned_in in Ho as (f & Hf & <- & _). by apply list_elem_of_fmap_2. }
  assert ("f2" ∉ all) as Hf2.
  { intros Hin%Hall. apply (f2_not_below t user id "f2" Hok); [|done|done]. intros ->. done. }
  rewrite trash_folders_map by done. set (t1 := mkTables _ _). unfold folder_deleted.
  change (subtree t id) with (subtree t1 id). apply delete_collected; [done| |].
  - apply list_elem_of_In. rewrite <- in_rev, <- list_elem_of_In. apply Hall, rtc_refl.
  - intros x Hx. apply list_elem_of_In in Hx. rewrite <- in_rev, <- list_elem_of_In in Hx.
    change (links_of t1) with (links_of t). apply (user_reach_links t user id x Hok Hid). by apply Hall.
Qed.

(** A file after the deletion: trashed, or outside the subtree. *)
Lemma kept_or_trashed t user isVault id mine g :
  tables_ok t -> is_system id = false ->
  g ∈ List.filter (fun f => negb (match fr_folder (sf_row f) with
                                  | Some d => bool_decide (d ∈ subtree t id)
                                  | None => false
                                  end)) (map (trash_all isVault user mine) (tb_files t)) <->
  exists f, f ∈ tb_files t /\
    (in_folders mine user f = true /\ g = trash_into (if isVault then Some "f2" else None) f \/
     in_folders mine user f = false /\ g = f /\ forall d, fr_folder (sf_row f) = Some d -> d ∉ subtree t id).
Proof.
  intros Hok Hsys. assert ("f2" ∉ subtree t id) as Hf2.
  { rewrite subtree_spec. intros Hr. apply rtc_inv_r in Hr as [->|(p & _ & Hp)]; [done|].
    apply links_child in Hp as (_ & f & Hf & Hid & Hp). rewrite (tk_roots t Hok f Hf) in Hp; [done|].
    rewrite Hid. set_solver. }
  rewrite list_elem_of_In, List.filter_In, in_map_iff. setoid_rewrite <- list_elem_of_In. split.
  - intros [(f & <- & Hf) Hk]. exists f. split; [done|]. unfold trash_all in *.
    destruct (in_folders mine user f); [by left|]. right. do 2 (split; [done|]). intros d Hd.
    by apply negb_true_iff in Hk; rewrite Hd, bool_decide_eq_false in Hk.
  - intros (f & Hf & [[Hi ->]|(Hi & -> & Hd)]).
    + split; [exists f; split; [unfold trash_all; by rewrite Hi|done]|]. destruct isVault; cbn; [|done].
      by rewrite bool_decide_eq_false_2.
    + split; [exists f; split; [unfold trash_all; by rewrite Hi|done]|]. destruct (fr_folder (sf_row f)) as [d|]; [|done].
      by rewrite bool_decide_eq_false_2 by (by apply Hd).
Qed.
