(* ===== verification/FileOpsInv.v ===== *)
(** * The invariant of the folders, the files and the store

    Between two requests the folders are a forest, the cache of vault folders
    is empty or exact, every blob has the hash it is filed under, and every
    row refers to a blob that is there.  This file shows that each operation
    of FileOps keeps that so; a request is described by the operation it
    runs.  The parts need different things of a request: the forest nothing,
    the cache that its queries succeed, the blobs that references are counted
    and copies can be undone ([fm_inv], [run_env]). *)

From S2P Require Import Prelude GoStrings FileSys CryptoPrims CryptoStream CAS CASProps UploadSession VaultTree Auth UploadCtrl FileDownload FileTable FileOps FileOpsFacts.

#[local] Open Scope string_scope.
#[local] Open Scope list_scope.
#[local] Open Scope Z_scope.

(** The system folders other than "f2" and the top are outside the vault. *)
Lemma not_in_vault t x : tables_ok t -> x = "" \/ x = "f1" \/ x = "f3" -> ~ in_vault (links_of t) x.
Proof.
  intros Hok Hx Hv. unfold in_vault in Hv. apply rtc_inv_r in Hv as [<-|(p & _ & Hp)]; [naive_solver|].
  pose proof (link_goes_up t p x Hok Hp) as (_ & _ & Hin).
  destruct Hx as [->|Hx]; [by apply (tk_named t Hok)|].
  apply links_child in Hp as (_ & f & Hf & <- & Hp). rewrite (tk_roots t Hok f Hf) in Hp; [done|].
  destruct Hx as [-> | ->]; set_solver.
Qed.

Section FileInvariant.
Context `{CryptoLaws}.

(** ** The invariant *)

(** A valid cache lists the vault. *)
Definition cache_ok (t : tables) (c : vault_cache) : Prop :=
  vaultCacheValid c = true ->
  (forall x, x ∈ vaultIDsMap c <-> in_vault (links_of t) x) /\
  (forall x, x ∈ vaultIDsList c <-> in_vault (links_of t) x).

Definition has_blob (c : CASEngine) (f : FS) (h : string) : Prop := is_Some (f !! Path c h).

(** Every row refers to a blob of the store under [base]. *)
Definition store_ok (base : string) (st : fm_state) : Prop :=
  match fm_CAS st with
  | Some c =>
      BaseDir c = base /\ cas_inv c (fm_fs st) /\
      forall f, f ∈ tb_files (fm_tab st) -> IsValidHash (fr_cas (sf_row f)) = true ->
        has_blob c (fm_fs st) (fr_cas (sf_row f))
  | None => True
  end.

Record fm_ok (base : string) (st : fm_state) : Prop := {
  ok_tables : tables_ok (fm_tab st);
  ok_cache : cache_ok (fm_tab st) (fm_cache st);
  ok_store : store_ok base st
}.

(** A request whose SELECT statements succeed and whose temporary file is
    outside the store; writes, transactions and system calls may fail, but a
    copy that failed can be undone. *)
Record sound_env (base : string) (e : file_env) : Prop := {
  se_query : can_query e = true;
  se_count : count_ok e = true;
  se_undo : copy_undoable (os (fe_req e));
  se_temp c : BaseDir c = base -> outside_cas c (reenc_path e)
}.

(** The same for requests of which less is known: the cache is exact if [Q]
    holds, and then queries succeed; the store is sound if [U] does, and then
    reference counts are read and copies can be undone. *)
Record fm_inv (Q U : Prop) (base : string) (st : fm_state) : Prop := {
  iv_tables : tables_ok (fm_tab st);
  iv_cache : Q -> cache_ok (fm_tab st) (fm_cache st);
  iv_store : U -> store_ok base st
}.

Record run_env (Q U : Prop) (base : string) (e : file_env) : Prop := {
  rn_query : Q -> can_query e = true;
  rn_count : U -> count_ok e = true;
  rn_undo : U -> copy_undoable (os (fe_req e));
  rn_temp : U -> forall c, BaseDir c = base -> outside_cas c (reenc_path e)
}.

Lemma fm_ok_inv base st : fm_ok base st <-> fm_inv True True base st.
Proof. split; intros [? Hc Hs]; split; auto. Qed.

Lemma fm_ok_any Q U base st : fm_ok base st -> fm_inv Q U base st.
Proof. intros [? Hc Hs]; split; auto. Qed.

Lemma sound_run base e : sound_env base e -> run_env True True base e.
Proof. intros []; split; auto. Qed.

(** ** Requests *)

Inductive fm_op :=
| OpDeleteFile (id permanent : string)
| OpRestoreFile (id : string)
| OpStarFile (id : string)
| OpEmptyTrash
| OpRenameFile (id : string) (bind : option string)
| OpMoveFile (id : string) (bind : option string)
| OpMoveFilesBatch (bind : option (list string * string))
| OpCreateFolder (bind : option (string * string))
| OpRenameFolder (id : string) (bind : option string)
| OpDeleteFolder (id : string).

(** The state after a request; [None]: the handler does not return. *)
Definition fm_step (e : file_env) (st : fm_state) (op : fm_op) : option fm_state :=
  match op with
  | OpDeleteFile id permanent => Some (fst (DeleteFile e st id permanent))
  | OpRestoreFile id => Some (fst (RestoreFile e st id))
  | OpStarFile id => Some (fst (StarFile e st id))
  | OpEmptyTrash => Some (fst (EmptyTrash e st))
  | OpRenameFile id bind => Some (fst (RenameFile e st id bind))
  | OpMoveFile id bind => Some (fst (MoveFile e st id bind))
  | OpMoveFilesBatch bind => Some (fst (MoveFilesBatch e st bind))
  | OpCreateFolder bind => Some (fst (CreateFolder e st bind))
  | OpRenameFolder id bind => Some (fst (RenameFolder e st id bind))
  | OpDeleteFolder id => fst <$> DeleteFolder e st id
  end.

(** ** What the invariant depends on *)

Lemma tables_ok_folders t t' : tb_folders t' = tb_folders t -> tables_ok t -> tables_ok t'.
Proof. intros He [H1 H2 H3 H4]. split; unfold folder_ids; by rewrite He. Qed.

Lemma links_of_folders t t' : tb_folders t' = tb_folders t -> links_of t' = links_of t.
Proof. unfold links_of. by intros ->. Qed.

(** What the tables and the cache alone give. *)
Record ready (st : fm_state) : Prop := {
  rd_tables : tables_ok (fm_tab st);
  rd_cache : cache_ok (fm_tab st) (fm_cache st)
}.

Section Kept.
Context (Q U : Prop).
Abbreviation inv := (fm_inv Q U).
Abbreviation env_ok := (run_env Q U).

(** New tables with the same folders, whose rows refer to blobs that are
    there. *)
Lemma inv_tab base st t :
  inv base st -> tb_folders t = tb_folders (fm_tab st) ->
  (U -> forall c f, fm_CAS st = Some c -> f ∈ tb_files t -> IsValidHash (fr_cas (sf_row f)) = true ->
     has_blob c (fm_fs st) (fr_cas (sf_row f))) ->
  inv base (with_tab st t).
Proof.
  intros [Ht Hc Hs] He Hf. split; cbn [fm_tab fm_cache with_tab].
  - by apply (tables_ok_folders (fm_tab st)).
  - intros HQ. unfold cache_ok. rewrite (links_of_folders (fm_tab st) t He). by apply Hc.
  - intros HU. specialize (Hs HU). specialize (Hf HU). unfold store_ok in *. cbn [fm_CAS fm_fs fm_tab with_tab].
    destruct (fm_CAS st) as [c|]; [|done].
    destruct Hs as (Hb & Hi & _). split; [done|]. split; [done|]. intros f. by apply Hf.
Qed.

(** The rows a state refers to have their blobs. *)
Lemma inv_blob base st c f :
  inv base st -> U -> fm_CAS st = Some c -> f ∈ tb_files (fm_tab st) ->
  IsValidHash (fr_cas (sf_row f)) = true -> has_blob c (fm_fs st) (fr_cas (sf_row f)).
Proof.
  intros [_ _ Hs] HU Hc Hf Hv. specialize (Hs HU). unfold store_ok in Hs. rewrite Hc in Hs. destruct Hs as (_ & _ & Hall). auto.
Qed.

Lemma inv_update base st p g :
  inv base st -> (forall f, fr_cas (sf_row (g f)) = fr_cas (sf_row f)) ->
  inv base (with_tab st (fst (update_files p g (fm_tab st)))).
Proof.
  intros Hok Hg. apply inv_tab; [done|done|]. intros HU c f Hc Hf Hv. cbn in Hf.
  apply list_elem_of_fmap in Hf as (f0 & -> & Hf0).
  destruct (p f0); rewrite ?Hg in *; by apply (inv_blob base).
Qed.

Lemma inv_delete base st p :
  inv base st -> inv base (with_tab st (fst (delete_files p (fm_tab st)))).
Proof.
  intros Hok. apply inv_tab; [done|done|]. intros HU c f Hc Hf Hv. cbn in Hf.
  apply list_elem_of_In, List.filter_In in Hf as [Hf _]. rewrite <- list_elem_of_In in Hf.
  by apply (inv_blob base).
Qed.

End Kept.

(** ** The cache *)

(** Loading the cache from the tables makes it exact. *)
Lemma load_cache_ok t c :
  cache_ok t c ->
  let c' := loadVaultCacheLocked (Some (Some (links_of t))) c in
  cache_ok t c' /\ vaultCacheValid c' = true.
Proof.
  intros Hc. destruct (vaultCacheValid c) eqn:Hv.
  - rewrite load_valid by done. done.
  - destruct (load_exact (links_of t) c Hv) as (Hv' & Hm & Hl & _). done.
Qed.

(** Asking whether a folder is in the vault answers exactly that, and keeps
    everything but the cache. *)
Lemma in_vault_now_exact e st id :
  tables_ok (fm_tab st) -> cache_ok (fm_tab st) (fm_cache st) -> can_query e = true ->
  exists c b, in_vault_now e st id = (with_cache st c, b) /\ cache_ok (fm_tab st) c /\
    (b = true <-> in_vault (links_of (fm_tab st)) id).
Proof.
  intros Ht Hc Hq. unfold in_vault_now, folder_query. rewrite Hq. unfold IsVaultFolder.
  destruct (String.eqb_spec id "f2") as [->|H2].
  { exists (fm_cache st), true. split; [done|]. split; [done|]. split; [|done]. intros _. apply rtc_refl. }
  destruct (_ || _) eqn:Hr.
  { exists (fm_cache st), false. split; [done|]. split; [done|]. split; [done|]. intros Hv. exfalso.
    apply (not_in_vault (fm_tab st) id Ht); [|done]. rewrite !orb_true_iff, !String.eqb_eq in Hr. tauto. }
  destruct (load_cache_ok (fm_tab st) (fm_cache st) Hc) as [Hc' Hv'].
  eexists _, _. split; [done|]. split; [done|]. rewrite bool_decide_eq_true. by apply Hc'.
Qed.

Lemma in_vault_now_spec base e st id :
  fm_ok base st -> can_query e = true ->
  exists c b, in_vault_now e st id = (with_cache st c, b) /\ cache_ok (fm_tab st) c /\
    (b = true <-> in_vault (links_of (fm_tab st)) id).
Proof. intros [Ht Hc _]. by apply in_vault_now_exact. Qed.

(** Two states that differ at most in their caches. *)
Definition same_data (st st' : fm_state) : Prop :=
  fm_tab st' = fm_tab st /\ fm_CAS st' = fm_CAS st /\ fm_fs st' = fm_fs st.

Lemma same_data_cache st c : same_data st (with_cache st c).
Proof. done. Qed.

Lemma fm_ok_cache base st c :
  fm_ok base st -> cache_ok (fm_tab st) c -> fm_ok base (with_cache st c).
Proof. intros [Ht _ Hs] Hc. by split. Qed.

Lemma in_vault_now_ready e st id st1 b :
  ready st -> can_query e = true -> in_vault_now e st id = (st1, b) ->
  ready st1 /\ same_data st st1 /\ (b = true <-> in_vault (links_of (fm_tab st)) id).
Proof.
  intros [Ht Hc] Hq He. destruct (in_vault_now_exact e st id Ht Hc Hq) as (c & b' & He' & Hc' & Hb).
  rewrite He in He'. injection He' as -> ->. by split.
Qed.

Lemma vault_refuses_ready e st id st1 b :
  ready st -> can_query e = true -> vault_refuses e st id = (st1, b) ->
  ready st1 /\ same_data st st1 /\ (b = true <-> in_vault (links_of (fm_tab st)) id /\ unlocked e = false).
Proof.
  intros Hok Hq. unfold vault_refuses. destruct (in_vault_now e st id) as [st2 v] eqn:Hv.
  intros [= <- <-]. destruct (in_vault_now_ready _ _ _ _ _ Hok Hq Hv) as (Hok' & Hs & Hb).
  split; [done|]. split; [done|]. rewrite andb_true_iff, negb_true_iff. by rewrite Hb.
Qed.

Lemma in_vault_now_ok base e st id st1 b :
  fm_ok base st -> can_query e = true -> in_vault_now e st id = (st1, b) ->
  fm_ok base st1 /\ same_data st st1 /\ (b = true <-> in_vault (links_of (fm_tab st)) id).
Proof.
  intros Hok Hq He. destruct (in_vault_now_spec base e st id Hok Hq) as (c & b' & He' & Hc & Hb).
  rewrite He in He'. injection He' as -> ->. split; [by apply fm_ok_cache|]. by split.
Qed.

Lemma vault_refuses_ok base e st id st1 b :
  fm_ok base st -> can_query e = true -> vault_refuses e st id = (st1, b) ->
  fm_ok base st1 /\ same_data st st1 /\
  (b = true <-> in_vault (links_of (fm_tab st)) id /\ unlocked e = false).
Proof.
  intros Hok Hq. unfold vault_refuses. destruct (in_vault_now e st id) as [st2 v] eqn:Hv.
  intros [= <- <-]. destruct (in_vault_now_ok _ _ _ _ _ _ Hok Hq Hv) as (Hok' & Hs & Hb).
  split; [done|]. split; [done|]. rewrite andb_true_iff, negb_true_iff. by rewrite Hb.
Qed.

Section Requests.
Context (Q U : Prop).
Abbreviation inv := (fm_inv Q U).
Abbreviation env_ok := (run_env Q U).

Lemma inv_cache base st c :
  inv base st -> (Q -> cache_ok (fm_tab st) c) -> inv base (with_cache st c).
Proof. intros [Ht _ Hs] Hc. by split. Qed.

(** Looking a folder up changes nothing but the cache. *)
Lemma in_vault_now_inv base e st id st1 b :
  inv base st -> env_ok base e -> in_vault_now e st id = (st1, b) -> inv base st1 /\ same_data st st1.
Proof.
  intros Hok He Hv. assert (exists c, st1 = with_cache st c) as [c ->].
  { unfold in_vault_now in Hv. destruct (IsVaultFolder _ _ _) as [c b']. injection Hv as <- _. by exists c. }
  split; [|done]. apply inv_cache; [done|]. intros HQ.
  destruct (in_vault_now_exact e st id) as (c' & b' & Hv' & Hc' & _);
    [by apply (iv_tables Q U base)|by apply (iv_cache Q U base)|by apply He|].
  rewrite Hv in Hv'. injection Hv' as -> _. done.
Qed.

Lemma vault_refuses_inv base e st id st1 b :
  inv base st -> env_ok base e -> vault_refuses e st id = (st1, b) -> inv base st1 /\ same_data st st1.
Proof.
  intros Hok He. unfold vault_refuses. destruct (in_vault_now e st id) as [st2 v] eqn:Hv. intros [= <- _].
  by apply (in_vault_now_inv base e st id st2 v).
Qed.

Lemma invalidate_ok base st :
  tables_ok (fm_tab st) -> (U -> store_ok base st) -> inv base (invalidate st).
Proof. intros Ht Hs. split; [done| |done]. by intros _ ?. Qed.

(** ** The store *)

Lemma count_hash_pos h t f :
  f ∈ tb_files t -> fr_cas (sf_row f) = h -> count_hash h t <> 0.
Proof.
  intros Hf Hh. unfold count_hash. assert (f ∈ List.filter (fun f => String.eqb (fr_cas (sf_row f)) h) (tb_files t)) as Hin.
  { apply list_elem_of_In, List.filter_In. rewrite <- list_elem_of_In. split; [done|]. by apply String.eqb_eq. }
  destruct (List.filter _ _) as [|x l]; [by apply not_elem_of_nil in Hin|]. rewrite zlen_cons.
  pose proof (zlen_nonneg l). lia.
Qed.

Lemma cas_inv_remove env c f h :
  cas_inv c f -> IsValidHash h = true -> cas_inv (Invalidate c h) (fs_remove env f (Path c h)).
Proof.
  intros [Hb Hc] Hv. unfold Invalidate. split; intros h'; rewrite Path_set_cache.
  - intros x Hv' Hx. apply Hb; [done|]. by apply fs_remove_sub in Hx.
  - cbn [existCache set_cache]. rewrite elem_of_difference, elem_of_singleton. intros [Hin Hne].
    apply Hc in Hin as [Hv' Hs]. split; [done|]. rewrite fs_remove_ne; [done|].
    intros Hp. apply Hne. symmetry. by apply (Path_inj c).
Qed.

(** Releasing the blob of a deleted row keeps the blobs that are referred
    to. *)
Lemma release_ok base e st h :
  inv base st -> env_ok base e -> IsValidHash h = true -> inv base (release_blob e st h).
Proof.
  intros Hok He Hv. unfold release_blob. destruct (fm_CAS st) as [c|] eqn:Hc; [|done].
  set (n := if count_ok e then _ else _). destruct (Z.eqb_spec n 0) as [Hz|]; [|done]. subst n.
  destruct Hok as [Ht Hca Hs]. split; [done|done|]. intros HU. specialize (Hs HU). rewrite (rn_count _ _ _ _ He HU) in Hz.
  unfold store_ok in *. rewrite Hc in Hs.
  cbn [fm_CAS fm_fs fm_tab with_store]. destruct Hs as (Hb & Hi & Hall). split; [done|].
  split; [by apply cas_inv_remove|]. intros f Hf Hvf. specialize (Hall f Hf Hvf). unfold has_blob in *.
  change (Path (Invalidate c h) (fr_cas (sf_row f))) with (Path c (fr_cas (sf_row f))).
  rewrite fs_remove_ne; [done|]. intros Hp%Path_inj; [|done..].
  by apply (count_hash_pos h (fm_tab st) f).
Qed.

(** ** Storing a payload again *)

Lemma inv_store base st c c' f' :
  inv base st -> fm_CAS st = Some c ->
  (U -> BaseDir c = base -> cas_inv c (fm_fs st) -> BaseDir c' = BaseDir c /\ cas_inv c' f' /\
     forall h, IsValidHash h = true -> has_blob c (fm_fs st) h -> has_blob c' f' h) ->
  inv base (with_store st (Some c') f').
Proof.
  intros [Ht Hca Hs] Hc Hkeep. split; [done|done|]. intros HU. specialize (Hs HU). unfold store_ok in *. rewrite Hc in Hs.
  cbn [fm_CAS fm_fs fm_tab with_store]. destruct Hs as (Hb0 & Hi0 & Hall).
  destruct (Hkeep HU Hb0 Hi0) as (Hb & Hi & Hk). split; [congruence|].
  split; [done|]. intros f Hf Hv. apply Hk; auto.
Qed.

(** What a re-encryption leaves alone, and that what it answers is stored. *)
Definition rekeyed (base : string) (st st' : fm_state) (r : reencrypt_error + string) : Prop :=
  inv base st' /\ fm_tab st' = fm_tab st /\
  match r with
  | inl _ => True
  | inr h => U -> exists c, fm_CAS st' = Some c /\ has_blob c (fm_fs st') h
  end.

Lemma put_tmp_inv base e st c b :
  inv base st -> env_ok base e -> fm_CAS st = Some c ->
  inv base (with_store st (Some c) (put_tmp e b (fm_fs st))).
Proof.
  intros Hok He Hc. apply (inv_store base st c); [done|done|]. intros HU Hb Hi.
  assert (forall h, IsValidHash h = true -> put_tmp e b (fm_fs st) !! Path c h = fm_fs st !! Path c h) as Hsame.
  { intros h Hv. unfold put_tmp. apply lookup_insert_ne. by apply (rn_temp _ _ _ _ He HU c Hb). }
  split; [done|]. split; [by apply (cas_inv_agree c (fm_fs st))|]. intros h Hv. unfold has_blob. by rewrite Hsame.
Qed.

Lemma drop_tmp_ok base e st c :
  inv base st -> env_ok base e -> fm_CAS st = Some c ->
  inv base (with_store st (Some c) (fs_remove (os (fe_req e)) (fm_fs st) (reenc_path e))).
Proof.
  intros Hok He Hc. apply (inv_store base st c); [done|done|]. intros HU Hb Hi. split; [done|]. split.
  - apply cas_inv_remove_outside; [by apply (rn_temp _ _ _ _ He)|done].
  - intros h Hv. unfold has_blob. rewrite fs_remove_ne; [done|]. by apply (rn_temp _ _ _ _ He HU c Hb).
Qed.

(** A move of the temporary file into the store. *)
Lemma store_tmp_ok base e st c c1 f1 r :
  inv base st -> env_ok base e -> fm_CAS st = Some c ->
  MoveToCASWithStatus (os (fe_req e)) c (fm_fs st) (reenc_path e) = (c1, f1, r) ->
  inv base (with_store st (Some c1) f1) /\
  match r with Ok (h, _) => U -> has_blob c1 f1 h | Err _ => True end.
Proof.
  intros Hok He Hc Hm.
  assert (U -> BaseDir c = base -> cas_inv c (fm_fs st) -> move_outcome (os (fe_req e)) c (fm_fs st) (reenc_path e) c1 f1 r /\
    outside_cas c (reenc_path e) /\ cas_inv c1 f1 /\ BaseDir c1 = BaseDir c) as Hcases.
  { intros HU Hb Hi. pose proof (rn_temp _ _ _ _ He HU c Hb) as Hout.
    pose proof (move_cases _ _ _ _ _ _ _ Hi Hout (rn_undo _ _ _ _ He HU) Hm) as Hcases.
    destruct (outcome_inv _ _ _ _ _ _ _ Hi Hout Hcases). done. }
  split.
  - apply (inv_store base st c); [done|done|]. intros HU Hb Hi. destruct (Hcases HU Hb Hi) as (Hcs & Hout & Hi1 & Hb1).
    split; [done|]. split; [done|]. intros h Hv [x Hx]. unfold has_blob.
    assert (Path c1 h = Path c h) as -> by (unfold Path; by rewrite Hb1).
    destruct Hcs as [d c2 Hd _ _ Hsm|d t f2 c2 Hd _ Hn _ Hp _ _|]; [| |by exists x].
    + rewrite fs_remove_ne by (by apply Hout). by exists x.
    + rewrite Hp; [by exists x|intros Heq; by apply (Hout h)|]. intros Heq. rewrite <- Heq, Hx in Hn. done.
  - destruct r as [[h d]|]; [|done]. intros HU. pose proof (iv_store _ _ _ _ Hok HU) as Hs. unfold store_ok in Hs.
    rewrite Hc in Hs. destruct Hs as (Hb & Hi & _). destruct (Hcases HU Hb Hi) as (Hcs & Hout & Hi1 & Hb1). unfold has_blob.
    assert (forall h, Path c1 h = Path c h) as Hpath by (intros h'; unfold Path; by rewrite Hb1). rewrite Hpath.
    inversion Hcs as [d' c2 Hd _ _ Hsm|d' t f2 c2 Hd _ Hn _ Hp Hdest _|]; subst.
    + rewrite fs_remove_ne; [done|]. apply Hout, content_hash_valid.
    + rewrite Hdest. by eexists.
Qed.

Lemma reencrypt_ok base e st h src dst st' r :
  inv base st -> env_ok base e -> reencrypt e st h src dst = (st', r) -> rekeyed base st st' r.
Proof.
  intros Hok He. unfold reencrypt, rekeyed. destruct (fm_CAS st) as [c|] eqn:Hc; [|by intros [= <- <-]].
  destruct (fs_read _ _ _) as [data|]; [|by intros [= <- <-]].
  destruct (NewDecryptStream _ _) as [s|]; [|by intros [= <- <-]].
  destruct (create_ok _); cbn [negb]; [|by intros [= <- <-]].
  pose proof (fun b => put_tmp_inv base e st c b Hok He Hc) as Hput.
  pose proof (fun b => drop_tmp_ok base e _ c (Hput b) He eq_refl) as Hdrop.
  destruct (NewEncryptStream _ _) as [es|]; [|by intros [= <- <-]].
  destruct (copy_reencrypted _ _ _ _) as [[es' [er|]]|]; [by intros [= <- <-]| |by intros [= <- <-]].
  destruct (MoveToCASWithStatus _ _ _ _) as [[c1 f1] r1] eqn:Hm.
  destruct (store_tmp_ok base e _ c c1 f1 r1 (Hput (es_w es')) He eq_refl Hm) as [Hok1 Hblob].
  destruct r1 as [[h1 b1]|]; intros [= <- <-]; (split; [|split; [done|]]); try done.
  - intros HU. exists c1. auto.
  - by apply (drop_tmp_ok base e _ c1 Hok1 He).
Qed.

(** ** The handlers of files *)

(** Each handler first asks whether the file's folder is locked away. *)
Ltac vault_step Hok He :=
  match goal with
  | |- context [vault_refuses ?e ?st ?id] =>
      let st1 := fresh "st1" in let b := fresh "refused" in let E := fresh "Hvr" in
      destruct (vault_refuses e st id) as [st1 b] eqn:E;
      apply (vault_refuses_inv _ _ _ _ _ _ Hok He) in E as [? ?]
  end.

Lemma DeleteFile_ok base e st id permanent :
  inv base st -> env_ok base e -> inv base (fst (DeleteFile e st id permanent)).
Proof.
  intros Hok He. unfold DeleteFile. vault_step Hok He. destruct refused; [done|].
  destruct (String.eqb _ _).
  - destruct (can_exec e); [|done]. cbn [negb delete_files]. destruct (_ =? 0); [done|]. cbn [fst].
    destruct (_ && _) eqn:Hv; [|by apply inv_delete]. apply andb_true_iff in Hv as [_ Hv].
    apply release_ok; [by apply inv_delete|done|done].
  - destruct (can_exec e); [|done]. cbn [negb update_files]. destruct (_ =? 0); [done|]. cbn [fst].
    by apply inv_update.
Qed.

Lemma RestoreFile_ok base e st id :
  inv base st -> env_ok base e -> inv base (fst (RestoreFile e st id)).
Proof.
  intros Hok He. unfold RestoreFile. vault_step Hok He. destruct refused; [done|].
  destruct (can_exec e); [|done]. cbn [negb update_files]. destruct (_ =? 0); [done|]. by apply inv_update.
Qed.

Lemma StarFile_ok base e st id :
  inv base st -> env_ok base e -> inv base (fst (StarFile e st id)).
Proof.
  intros Hok He. unfold StarFile. vault_step Hok He. destruct refused; [done|].
  destruct (can_exec e); [|done]. cbn [negb update_files]. destruct (_ =? 0); [|by apply inv_update].
  destruct (select_file _ _ _) as [f|]; [destruct (fr_deleted _)|]; done.
Qed.

Lemma RenameFile_ok base e st id bind :
  inv base st -> env_ok base e -> inv base (fst (RenameFile e st id bind)).
Proof.
  intros Hok He. unfold RenameFile. destruct bind as [name|]; [|done].
  destruct (requested_name _ _) as [r|clean]; [done|]. destruct (_ && _); [done|].
  vault_step Hok He. destruct refused; [done|]. destruct (file_exists _ _ _); [done|].
  destruct (can_exec e); [|done]. cbn [negb update_files]. destruct (_ =? 0); [done|]. by apply inv_update.
Qed.

Lemma release_all_ok base e st hs :
  inv base st -> env_ok base e ->
  inv base (foldl (fun st h => if IsValidHash h then release_blob e st h else st) st hs).
Proof.
  intros Hok He. revert st Hok. induction hs as [|h hs IH]; intros st Hok; [done|]. cbn [foldl]. apply IH.
  destruct (IsValidHash h) eqn:Hv; [|done]. by apply release_ok.
Qed.

Lemma EmptyTrash_ok base e st :
  inv base st -> env_ok base e -> inv base (fst (EmptyTrash e st)).
Proof.
  intros Hok He. unfold EmptyTrash.
  destruct (if unlocked e then _ else _) as [st1 shown] eqn:Hs.
  assert (inv base st1) as Hok1.
  { destruct (unlocked e); [by injection Hs as <- _|]. unfold vaultExcludeFilter, GetAllVaultFolderIDs in Hs.
    injection Hs as <- _. apply inv_cache; [done|]. intros HQ. unfold folder_query. rewrite (rn_query _ _ _ _ He HQ).
    apply load_cache_ok. by apply (iv_cache Q U base). }
  destruct (begin_ok e); [|done]. destruct (can_query e); [|done]. destruct (can_exec e); [|done].
  cbn [negb delete_files]. destruct (commit_ok e); [|done]. cbn [negb fst].
  apply release_all_ok; [|done]. by apply inv_delete.
Qed.

(** ** The handlers of moves *)

(** A row gets a folder and a stored hash. *)
Lemma place_ok base st user id folder h :
  inv base st ->
  (U -> forall c, fm_CAS st = Some c -> IsValidHash h = true -> has_blob c (fm_fs st) h) ->
  inv base (with_tab st (place_file user id folder h (fm_tab st))).
Proof.
  intros Hok Hh. apply inv_tab; [done|done|]. intros HU c f Hc Hf Hv. cbn in Hf.
  apply list_elem_of_fmap in Hf as (f0 & -> & Hf0).
  destruct (owned_file id user f0); [by apply Hh|]. by apply (inv_blob Q U base).
Qed.

Lemma selected_in e st p f : select_file e st p = Some f -> f ∈ tb_files (fm_tab st) /\ p f = true.
Proof.
  unfold select_file. destruct (can_query e); [|done]. intros [Hf Hp]%List.find_some.
  by rewrite list_elem_of_In.
Qed.

(** Both folders of a move are looked up. *)
Ltac two_folders Hok He :=
  match goal with
  | |- context [in_vault_now ?e ?st ?a] =>
      let st1 := fresh "st1" in let b1 := fresh "isSrcVault" in let E1 := fresh "Hv1" in
      let Hok1 := fresh "Hok1" in let Hs1 := fresh "Hs1" in
      destruct (in_vault_now e st a) as [st1 b1] eqn:E1;
      apply (in_vault_now_inv _ _ _ _ _ _ Hok He) in E1 as [Hok1 Hs1];
      match goal with
      | |- context [in_vault_now e st1 ?b] =>
          let st2 := fresh "st2" in let b2 := fresh "isDstVault" in let E2 := fresh "Hv2" in
          let Hok2 := fresh "Hok2" in let Hs2 := fresh "Hs2" in
          destruct (in_vault_now e st1 b) as [st2 b2] eqn:E2;
          apply (in_vault_now_inv _ _ _ _ _ _ Hok1 He) in E2 as [Hok2 Hs2]
      end
  end.

Lemma same_data_row base st st' f c :
  inv base st' -> U -> same_data st st' -> f ∈ tb_files (fm_tab st) -> fm_CAS st' = Some c ->
  IsValidHash (fr_cas (sf_row f)) = true -> has_blob c (fm_fs st') (fr_cas (sf_row f)).
Proof. intros Hok HU (Ht & _) Hf Hc Hv. rewrite <- Ht in Hf. by apply (inv_blob Q U base). Qed.

Lemma same_data_trans st1 st2 st3 : same_data st1 st2 -> same_data st2 st3 -> same_data st1 st3.
Proof. unfold same_data. intuition congruence. Qed.

Lemma MoveFile_ok base e st id bind :
  inv base st -> env_ok base e -> inv base (fst (MoveFile e st id bind)).
Proof.
  intros Hok He. unfold MoveFile. destruct bind as [folder|]; [|done].
  destruct (can_query e); [|done]. destruct (select_file _ _ _) as [f|] eqn:Hf; [|done].
  apply selected_in in Hf as [Hf _]. cbn [negb]. destruct (String.eqb _ _); [done|].
  destruct (_ && _); [done|]. destruct (file_exists _ _ _); [done|].
  two_folders Hok He. pose proof (same_data_trans _ _ _ Hs1 Hs2) as Hs.
  destruct (Bool.eqb _ _).
  - destruct (can_exec e); [|done]. apply place_ok; [done|]. intros HU c Hc Hv.
    by apply (same_data_row base st).
  - destruct (unlocked e); [|done]. cbn [negb]. destruct (_ =? 0); [done|].
    destruct (reencrypt _ _ _ _ _) as [st3 x] eqn:Hr.
    apply (reencrypt_ok base) in Hr as (Hok3 & _ & Hh); [|done..]. destruct x as [er|h]; [done|].
    destruct (can_exec e); [|done]. apply place_ok; [done|].
    intros HU c' Hc' _. destruct (Hh HU) as (c & Hc & Hb). congruence.
Qed.

Lemma move_one_inv base e target st id :
  inv base st -> env_ok base e -> inv base (fst (move_one e target st id)).
Proof.
  intros Hok He. unfold move_one. destruct (select_file _ _ _) as [f|] eqn:Hf; [|done].
  apply selected_in in Hf as [Hf _]. destruct (String.eqb _ _); [done|].
  destruct (file_exists _ _ _); [done|].
  two_folders Hok He. pose proof (same_data_trans _ _ _ Hs1 Hs2) as Hs.
  destruct (Bool.eqb _ _).
  - destruct (can_exec e); [|done]. apply place_ok; [done|]. intros HU c Hc Hv.
    by apply (same_data_row base st).
  - destruct (unlocked e); [|done]. cbn [negb].
    destruct (reencrypt _ _ _ _ _) as [st3 x] eqn:Hr.
    apply (reencrypt_ok base) in Hr as (Hok3 & _ & Hh); [|done..]. destruct x as [er|h]; [done|].
    destruct (can_exec e); [|done]. apply place_ok; [done|].
    intros HU c' Hc' _. destruct (Hh HU) as (c & Hc & Hb). congruence.
Qed.

Lemma MoveFilesBatch_ok base e st bind :
  inv base st -> env_ok base e -> inv base (fst (MoveFilesBatch e st bind)).
Proof.
  intros Hok He. unfold MoveFilesBatch. destruct bind as [[ids folder]|]; [|done].
  case_bool_decide; [done|]. destruct (_ && _); [done|].
  generalize 0, (@nil string). clear - Hok He H0. revert st Hok.
  induction ids as [|id ids IH]; intros st Hok n failed; [done|]. cbn [move_all].
  pose proof (move_one_inv base e (target_folder folder) st id Hok He) as Hone.
  destruct (move_one e (target_folder folder) st id) as [st1 [r|[|]]]; [done|by apply IH..].
Qed.

(** ** The handlers of folders *)

(** Folder statements invalidate the cache, so the tables and the store are
    what matters. *)
Lemma inv_folders base st t :
  inv base st -> tables_ok t ->
  (forall f, f ∈ tb_files t -> exists f0, f0 ∈ tb_files (fm_tab st) /\ fr_cas (sf_row f) = fr_cas (sf_row f0)) ->
  inv base (invalidate (with_tab st t)).
Proof.
  intros Hok Ht Hf. apply invalidate_ok; [done|]. intros HU. pose proof (iv_store _ _ _ _ Hok HU) as Hs. unfold store_ok in *.
  cbn [fm_CAS fm_fs fm_tab with_tab]. destruct (fm_CAS st) as [c|] eqn:Hc; [|done].
  destruct Hs as (Hb & Hi & Hall). split; [done|]. split; [done|]. intros f Hin Hv.
  destruct (Hf f Hin) as (f0 & Hf0 & He). rewrite He in *. by apply Hall.
Qed.

Lemma new_folder_id e : folder_id_of e <> "" /\ folder_id_of e ∉ ["f1"; "f2"; "f3"].
Proof.
  unfold folder_id_of. cbn. split; [done|]. intros Hin. rewrite !elem_of_cons in Hin.
  destruct Hin as [?|[?|[?|?%not_elem_of_nil]]]; done.
Qed.

Lemma folder_exists_in e st id :
  folder_exists e st (fun f => String.eqb (fo_id f) id) = true -> id ∈ folder_ids (fm_tab st).
Proof.
  unfold folder_exists. intros [_ Hx]%andb_true_iff. apply existsb_exists in Hx as (f & Hf & He%String.eqb_eq).
  rewrite <- He. apply list_elem_of_fmap_2. by apply list_elem_of_In.
Qed.

(** The parent a folder is created in exists. *)
Lemma create_in base e st clean parent :
  inv base st ->
  (parent = "" \/ parent ∈ folder_ids (fm_tab st)) ->
  let row := mkFolder (folder_id_of e) (user_of e) (nullif parent) clean in
  match (if can_exec e then insert_folder row (fm_tab st) else None) with
  | Some t => inv base (invalidate (with_tab st t))
  | None => True
  end.
Proof.
  intros Hok Hp row. destruct (can_exec e); [|done]. destruct (insert_folder _ _) as [t|] eqn:Hi; [|done].
  apply inv_folders; [done| |].
  - destruct (new_folder_id e) as [Hne Hsys]. apply (insert_folder_ok row (fm_tab st)); try done.
    + by apply (iv_tables Q U base).
    + subst row. cbn. unfold nullif. intros p. destruct (String.eqb_spec parent ""); [done|]. intros [= <-] _.
      by destruct Hp.
  - unfold insert_folder in Hi. destruct (existsb _ _); [done|]. injection Hi as <-. cbn. intros f Hf. by exists f.
Qed.

Lemma CreateFolder_ok base e st bind :
  inv base st -> env_ok base e -> inv base (fst (CreateFolder e st bind)).
Proof.
  intros Hok He. unfold CreateFolder. destruct bind as [[name parentID]|]; [|done].
  destruct (requested_name _ _) as [r|clean]; [done|].
  set (parent := if String.eqb parentID "root" then "" else parentID). cbv zeta.
  assert (forall st1, inv base st1 -> (parent = "" \/ parent ∈ folder_ids (fm_tab st1)) ->
    inv base (fst (if folder_exists e st1 (fun f => String.eqb (coalesce (fo_parent f)) parent
                                                      && String.eqb (fo_name f) clean)
      then (st1, http_error 409 "Folder with this name already exists in the destination")
      else match (if can_exec e then insert_folder (mkFolder (folder_id_of e) (user_of e) (nullif parent) clean)
                                       (fm_tab st1) else None) with
           | None => (st1, http_error 500 "Failed to create folder: ")
           | Some t => (invalidate (with_tab st1 t),
                        mkResp 201 [("id", JStr (folder_id_of e)); ("name", JStr clean)])
           end))) as Hcreate.
  { intros st1 Hok1 Hp. pose proof (create_in base e st1 clean parent Hok1 Hp) as Hin. cbv zeta in Hin.
    destruct (folder_exists _ _ _); [done|].
    destruct (if can_exec e then _ else _) as [t|]; [exact Hin|exact Hok1]. }
  destruct (String.eqb_spec parent "") as [Hp|Hp]; [apply Hcreate; auto|].
  vault_step Hok He. destruct refused; [done|].
  destruct (folder_exists e st1 (fun f => String.eqb (fo_id f) parent)) eqn:Hex; [|done].
  apply Hcreate; [done|]. right. by apply (folder_exists_in e).
Qed.

Lemma RenameFolder_ok base e st id bind :
  inv base st -> env_ok base e -> inv base (fst (RenameFolder e st id bind)).
Proof.
  intros Hok He. unfold RenameFolder. destruct (is_system id); [done|]. vault_step Hok He.
  destruct refused; [done|]. destruct bind as [name|]; [|done]. destruct (requested_name _ _) as [r|clean]; [done|].
  destruct (_ && _); [done|]. destruct (folder_exists _ _ _); [done|]. destruct (can_exec e); [|done].
  cbn [negb]. destruct (existsb _ _); [|done]. cbn [negb fst]. set (rename := fun f => if owned_folder _ _ f then _ else f).
  apply inv_folders; [done| |intros f Hf; by exists f].
  assert (Hok1 : tables_ok (fm_tab st1)) by (by apply (iv_tables Q U base)).
  assert (forall f, fo_id (rename f) = fo_id f /\ fo_parent (rename f) = fo_parent f) as Hr.
  { intros f. subst rename. cbn. by destruct (owned_folder id (user_of e) f). }
  assert (forall fs, map fo_id (map rename fs) = map fo_id fs) as Hids.
  { intros fs. rewrite map_map. apply map_ext. intros f. apply Hr. }
  destruct Hok1 as [Hnd Hnm Hord Hroots]. split; unfold folder_ids in *; cbn [tb_folders].
  - by rewrite Hids.
  - by rewrite Hids.
  - intros pre f post p Hsplit Hp Hne. apply map_eq_app in Hsplit as (pre0 & rest & Hs & <- & Hrest).
    destruct rest as [|f0 post0]; [done|]. injection Hrest as <- _. rewrite Hids.
    apply (Hord pre0 f0 post0); [done| |done]. by destruct (Hr f0) as [_ <-].
  - intros f Hf Hsys. apply list_elem_of_fmap in Hf as (f0 & -> & Hf0). destruct (Hr f0) as [Hi ->].
    apply Hroots; [done|]. by rewrite <- Hi.
Qed.

Lemma DeleteFolder_ok base e st id :
  inv base st -> env_ok base e ->
  exists st' r, DeleteFolder e st id = Some (st', r) /\ inv base st'.
Proof.
  intros Hok He. unfold DeleteFolder. destruct (is_system id) eqn:Hsys; [by eexists _, _|].
  destruct (folder_exists e st (owned_folder id (user_of e))) eqn:Hex; [|by eexists _, _]. cbn [negb].
  vault_step Hok He. destruct refused; [by eexists _, _|].
  assert (Htab : fm_tab st1 = fm_tab st) by (by match goal with Hs : same_data st st1 |- _ => destruct Hs end).
  apply andb_true_iff in Hex as [_ Hex]. rewrite <- Htab in Hex.
  assert (tables_ok (fm_tab st1)) as Ht by (by apply (iv_tables Q U base)).
  assert (id ∈ folder_ids (fm_tab st1)) as Hid.
  { apply existsb_owned_in in Hex as (f & Hf & <- & _). by apply list_elem_of_fmap_2. }
  destruct (collect_ends (fm_tab st1) (user_of e) id Ht Hid) as (all & -> & _ & Hall & _).
  destruct (begin_ok e); [|by eexists _, _]. cbn [negb].
  destruct (in_vault_now e st1 id) as [st2 isVault] eqn:Hv.
  apply (in_vault_now_inv base) in Hv as [Hok2 Hs2]; [|done..].
  assert (Htab2 : fm_tab st2 = fm_tab st1) by (by destruct Hs2). rewrite Htab2.
  destruct (commit_ok e); [|by eexists _, _]. cbn [negb]. eexists _, _. split; [done|].
  destruct (can_exec e).
  - rewrite (delete_statements _ _ _ id) by done. apply inv_folders; [done| |].
    + apply (tables_ok_folders (delete_folder id (user_of e) (fm_tab st1))); [|by apply delete_folder_ok].
      unfold delete_folder. by rewrite Hex.
    + intros f Hf. cbn in Hf. apply list_elem_of_In, List.filter_In in Hf as [Hf _].
      apply list_elem_of_In, list_elem_of_fmap in Hf as (f0 & -> & Hf0). exists f0. rewrite Htab2. split; [done|].
      unfold trash_all. by destruct (in_folders _ _ _).
  - rewrite <- Htab2. apply inv_folders; [done|by apply (iv_tables Q U base)|]. intros f Hf. by exists f.
Qed.

(** ** Every request *)

Lemma fm_step_inv base e st op :
  inv base st -> env_ok base e -> exists st', fm_step e st op = Some st' /\ inv base st'.
Proof.
  intros Hok He. destruct op; cbn [fm_step]; try (eexists; split; [done|]).
  - by apply DeleteFile_ok.
  - by apply RestoreFile_ok.
  - by apply StarFile_ok.
  - by apply EmptyTrash_ok.
  - by apply RenameFile_ok.
  - by apply MoveFile_ok.
  - by apply MoveFilesBatch_ok.
  - by apply CreateFolder_ok.
  - by apply RenameFolder_ok.
  - destruct (DeleteFolder_ok base e st id Hok He) as (st' & r & -> & Hok'). by exists st'.
Qed.

End Requests.

(** For requests of which all is known. *)

Lemma put_tmp_ok base e st c b :
  fm_ok base st -> sound_env base e -> fm_CAS st = Some c ->
  fm_ok base (with_store st (Some c) (put_tmp e b (fm_fs st))).
Proof. rewrite !fm_ok_inv. intros Hok He%sound_run. by apply put_tmp_inv. Qed.

Lemma move_one_ok base e target st id :
  fm_ok base st -> sound_env base e -> fm_ok base (fst (move_one e target st id)).
Proof. rewrite !fm_ok_inv. intros Hok He%sound_run. by apply (move_one_inv True True). Qed.

Lemma ready_inv base st : ready st <-> fm_inv True False base st.
Proof. split; [intros [? ?]|intros [? Hc _]]; split; auto; done. Qed.

Lemma query_run_env base e : can_query e = true -> run_env True False base e.
Proof. by split. Qed.

Lemma move_one_ready e target st id : ready st -> can_query e = true -> ready (fst (move_one e target st id)).
Proof. rewrite !(ready_inv ""). intros Hok Hq%(query_run_env ""). by apply (move_one_inv True False ""). Qed.

End FileInvariant.
