(* ===== verification/FileTrash.v ===== *)
(** * Emptying the trash and deleting for good

    Both remove rows, and the blobs no row refers to any more.  Their effect
    on the tables and the store is written here as a function of both. *)

From S2P Require Import Prelude GoStrings FileSys CryptoPrims CryptoStream CAS UploadSession VaultTree Auth UploadCtrl FileDownload FileTable FileOps FileOpsFacts FileOpsInv.

#[local] Open Scope string_scope.
#[local] Open Scope list_scope.
#[local] Open Scope Z_scope.

Section Trash.
Context `{CryptoLaws}.

(** Tables, store and files: a state without the cache of vault folders. *)
Abbreviation fm_data := (tables * option CASEngine * FS)%type.

Definition data_of (st : fm_state) : fm_data := (fm_tab st, fm_CAS st, fm_fs st).

(** The files without the blobs of [hs]. *)
Definition drop_fs (env : os_env) (c : CASEngine) (hs : gset string) (f : FS) : FS :=
  if remove_ok env then filter (fun kv => kv.1 ∉ (set_map (Path c) hs : gset string)) f else f.

Definition drop_blobs (env : os_env) (hs : gset string) (d : fm_data) : fm_data :=
  match d with
  | (t, Some c, f) => (t, Some (set_cache c (existCache c ∖ hs)), drop_fs env c hs f)
  | (t, None, f) => (t, None, f)
  end.

Definition drop_rows (p : stored_file -> bool) (d : fm_data) : fm_data :=
  let '(t, c, f) := d in (fst (delete_files p t), c, f).

Lemma drop_blobs_twice env a b d : drop_blobs env a (drop_blobs env b d) = drop_blobs env (a ∪ b) d.
Proof.
  destruct d as [[t [c|]] f]; [|done]. cbn. unfold set_cache. cbn [existCache BaseDir]. f_equal.
  - f_equal. f_equal. f_equal. set_solver.
  - unfold drop_fs. destruct (remove_ok env); [|done]. rewrite map_filter_filter. apply map_filter_ext.
    intros p x _. cbn. rewrite set_map_union_L.
    change (Path (mkCAS (BaseDir c) (existCache c ∖ b))) with (Path c). set_solver.
Qed.

Lemma drop_blobs_none env d : drop_blobs env ∅ d = d.
Proof.
  destruct d as [[t [[base cache]|]] f]; [|done]. cbn. unfold set_cache. cbn. f_equal.
  - f_equal. f_equal. f_equal. set_solver.
  - unfold drop_fs. destruct (remove_ok env); [|done]. apply map_filter_id. intros p x _. cbn.
    rewrite set_map_empty. set_solver.
Qed.

Lemma drop_rows_blobs env p hs d : drop_rows p (drop_blobs env hs d) = drop_blobs env hs (drop_rows p d).
Proof. by destruct d as [[t [c|]] f]. Qed.

Lemma drop_rows_twice p q d : drop_rows p (drop_rows q d) = drop_rows (fun f => q f || p f) d.
Proof.
  destruct d as [[t c] f]. cbn. f_equal. f_equal. f_equal. rewrite list_filter_filter. apply list_filter_ext.
  intros x. by destruct (q x), (p x).
Qed.

Lemma list_filter_none {A} (p : A -> bool) l : (forall x, x ∈ l -> p x = false) -> List.filter p l = [].
Proof.
  induction l as [|x l IH]; [done|]. intros Hp. cbn. rewrite Hp by (by left). apply IH. intros y Hy. apply Hp. by right.
Qed.

Lemma list_filter_ext_in {A} (p q : A -> bool) l :
  (forall x, x ∈ l -> p x = q x) -> List.filter p l = List.filter q l.
Proof.
  induction l as [|x l IH]; [done|]. intros He. cbn. rewrite He by (by left).
  rewrite IH; [done|]. intros y Hy. apply He. by right.
Qed.

Lemma delete_files_ext p q t :
  (forall f, f ∈ tb_files t -> p f = q f) -> delete_files p t = delete_files q t.
Proof.
  intros He. unfold delete_files. rewrite (list_filter_ext_in p q) by done.
  by rewrite (list_filter_ext_in (fun f => negb (p f)) (fun f => negb (q f))) by (intros f Hf; by rewrite He).
Qed.

Lemma drop_rows_ext p q d : (forall f, f ∈ tb_files d.1.1 -> p f = q f) -> drop_rows p d = drop_rows q d.
Proof.
  destruct d as [[t c] f]. cbn [fst drop_rows]. intros He. by rewrite (delete_files_ext p q).
Qed.

(** ** Releasing blobs *)

(** The hashes of a list no row refers to. *)
Definition unreferenced (t : tables) (hs : list string) : gset string :=
  list_to_set (List.filter (fun h => IsValidHash h && (count_hash h t =? 0)) hs).

Lemma release_data e st h :
  count_ok e = true -> IsValidHash h = true ->
  data_of (release_blob e st h) = drop_blobs (os (fe_req e)) (unreferenced (fm_tab st) [h]) (data_of st).
Proof.
  intros Hc Hv. unfold release_blob, unreferenced, data_of. rewrite Hc. cbn [List.filter]. rewrite Hv. cbn [andb].
  destruct (fm_CAS st) as [c|] eqn:Hcas; [|by rewrite Hcas]. destruct (count_hash h (fm_tab st) =? 0).
  - cbn. unfold Invalidate, drop_fs, fs_remove. rewrite union_empty_r_L. f_equal.
    destruct (remove_ok _); [|done]. apply map_eq. intros p.
    destruct (decide (p = Path c h)) as [->|Hne].
    + rewrite lookup_delete_eq. symmetry. apply map_lookup_filter_None. right. intros x _. cbn. set_solver.
    + rewrite lookup_delete_ne by done. destruct (fm_fs st !! p) as [x|] eqn:Hx.
      * symmetry. apply map_lookup_filter_Some. split; [done|]. cbn. set_solver.
      * symmetry. apply map_lookup_filter_None. by left.
  - cbn [list_to_set]. rewrite Hcas. by rewrite (drop_blobs_none _ (fm_tab st, Some c, fm_fs st)).
Qed.

Lemma unreferenced_cons t h hs : unreferenced t (h :: hs) = unreferenced t [h] ∪ unreferenced t hs.
Proof.
  unfold unreferenced. cbn [List.filter]. destruct (_ && _); [|set_solver]. cbn. set_solver.
Qed.

Lemma release_tab e st h : fm_tab (release_blob e st h) = fm_tab st.
Proof. unfold release_blob. destruct (fm_CAS st); [|done]. by destruct (_ =? 0). Qed.

Lemma release_all_data e st hs :
  count_ok e = true ->
  data_of (foldl (fun st h => if IsValidHash h then release_blob e st h else st) st hs)
  = drop_blobs (os (fe_req e)) (unreferenced (fm_tab st) hs) (data_of st).
Proof.
  intros Hc. revert st. induction hs as [|h hs IH]; intros st; [by rewrite drop_blobs_none|].
  cbn [foldl]. rewrite IH, unreferenced_cons. destruct (IsValidHash h) eqn:Hv.
  - rewrite release_data, drop_blobs_twice, release_tab by done. f_equal. set_solver.
  - f_equal. unfold unreferenced at 2. cbn [List.filter]. rewrite Hv. cbn. by rewrite union_empty_l_L.
Qed.

(** ** The two handlers *)

(** The blobs that go with the rows of [p]. *)
Definition released (p : stored_file -> bool) (t : tables) : gset string :=
  unreferenced (fst (delete_files p t)) (distinct_hashes p t).

Definition purge (env : os_env) (p : stored_file -> bool) (d : fm_data) : fm_data :=
  drop_blobs env (released p d.1.1) (drop_rows p d).

Lemma purge_ext env p q d : (forall f, f ∈ tb_files d.1.1 -> p f = q f) -> purge env p d = purge env q d.
Proof.
  intros He. unfold purge, released, distinct_hashes. rewrite (delete_files_ext p q) by done.
  rewrite (list_filter_ext_in p q) by done. f_equal. by apply drop_rows_ext.
Qed.

Lemma EmptyTrash_data e st :
  unlocked e = true -> begin_ok e = true -> can_query e = true -> can_exec e = true -> commit_ok e = true ->
  count_ok e = true ->
  data_of (fst (EmptyTrash e st)) = purge (os (fe_req e)) (in_trash (user_of e)) (data_of st).
Proof.
  intros Hu Hb Hq Hx Hc Hn. unfold EmptyTrash. rewrite Hu, Hb, Hq, Hx, Hc. cbn [negb delete_files fst].
  rewrite release_all_data by done.
  apply (purge_ext _ (fun f => in_trash (user_of e) f && true) _ (data_of st)). intros f _. apply andb_true_r.
Qed.

(** With unique identifiers one row goes. *)
Definition is_row (id : string) (f : stored_file) : bool := String.eqb (fr_id (sf_row f)) id.

Definition file_ids (t : tables) : list string := map (fun f => fr_id (sf_row f)) (tb_files t).

Lemma unique_row t f g : NoDup (file_ids t) -> f ∈ tb_files t -> g ∈ tb_files t ->
  fr_id (sf_row f) = fr_id (sf_row g) -> f = g.
Proof.
  intros Hnd [i Hi]%list_elem_of_lookup [j Hj]%list_elem_of_lookup He.
  assert (file_ids t !! i = Some (fr_id (sf_row g))) as Hi' by (unfold file_ids; rewrite list_lookup_fmap, Hi; cbn; by rewrite He).
  assert (file_ids t !! j = Some (fr_id (sf_row g))) as Hj' by (unfold file_ids; by rewrite list_lookup_fmap, Hj).
  pose proof (NoDup_lookup _ _ _ _ Hnd Hi' Hj'). subst j. congruence.
Qed.

Lemma find_row t p f :
  f ∈ tb_files t -> p f = true -> (forall g, g ∈ tb_files t -> p g = true -> g = f) ->
  List.find p (tb_files t) = Some f.
Proof.
  intros Hf Hp Hu. destruct (List.find p (tb_files t)) as [g|] eqn:Hg.
  - apply List.find_some in Hg as [Hg Hpg]. f_equal. apply Hu; [by apply list_elem_of_In|done].
  - apply List.find_none with (x := f) in Hg; [congruence|]. by apply list_elem_of_In.
Qed.

(** The empty string is no hash, so that the check for it adds nothing. *)
Lemma valid_hash_nonempty h : IsValidHash h = true -> negb (String.eqb h "") = true.
Proof. by destruct h. Qed.

Lemma filter_one_row t f :
  NoDup (file_ids t) -> f ∈ tb_files t -> List.filter (is_row (fr_id (sf_row f))) (tb_files t) = [f].
Proof.
  unfold file_ids, is_row. induction (tb_files t) as [|x l IH]; [by intros _ ?%not_elem_of_nil|].
  cbn. intros [Hx Hnd]%NoDup_cons [->|Hf]%elem_of_cons.
  - rewrite String.eqb_refl. f_equal. apply list_filter_none. intros y Hy. apply String.eqb_neq. intros He.
    apply Hx. rewrite <- He. by apply (list_elem_of_fmap_2 (fun f => fr_id (sf_row f))).
  - destruct (String.eqb_spec (fr_id (sf_row x)) (fr_id (sf_row f))) as [He|]; [|by apply IH].
    exfalso. apply Hx. rewrite He. by apply (list_elem_of_fmap_2 (fun f => fr_id (sf_row f))).
Qed.

Lemma purge_one env d f :
  NoDup (file_ids d.1.1) -> f ∈ tb_files d.1.1 ->
  drop_blobs env (unreferenced (fst (delete_files (is_row (fr_id (sf_row f))) d.1.1)) [fr_cas (sf_row f)])
    (drop_rows (is_row (fr_id (sf_row f))) d) = purge env (is_row (fr_id (sf_row f))) d.
Proof.
  intros Hnd Hf. unfold purge, released, distinct_hashes. rewrite filter_one_row by done.
  change (remove_dups (map _ [f])) with [fr_cas (sf_row f)]. cbn [List.filter].
  destruct (String.eqb_spec (fr_cas (sf_row f)) "") as [He|]; [|done]. cbn [negb]. f_equal.
  unfold unreferenced. cbn [List.filter]. by rewrite He.
Qed.

Lemma DeleteFile_data e st f :
  unlocked e = true -> can_query e = true -> can_exec e = true -> count_ok e = true ->
  NoDup (file_ids (fm_tab st)) -> f ∈ tb_files (fm_tab st) -> fr_owner (sf_row f) = user_of e ->
  data_of (fst (DeleteFile e st (fr_id (sf_row f)) "true"))
  = purge (os (fe_req e)) (is_row (fr_id (sf_row f))) (data_of st).
Proof.
  intros Hu Hq Hx Hn Hnd Hf Ho. set (id := fr_id (sf_row f)).
  assert (forall g, g ∈ tb_files (fm_tab st) -> owned_file id (user_of e) g = is_row id g) as Hown.
  { intros g Hg. unfold owned_file, is_row. destruct (String.eqb_spec (fr_id (sf_row g)) id) as [Hid|]; [|done].
    rewrite (unique_row _ g f Hnd Hg Hf Hid), Ho. apply Z.eqb_refl. }
  assert (forall g, g ∈ tb_files (fm_tab st) -> is_row id g = true -> g = f) as Huniq.
  { intros g Hg He%String.eqb_eq. by apply (unique_row (fm_tab st)). }
  unfold DeleteFile. destruct (vault_refuses e st _) as [st1 refused] eqn:Hv.
  unfold vault_refuses, in_vault_now in Hv. destruct (IsVaultFolder _ _ _) as [c v].
  rewrite Hu, andb_false_r in Hv. injection Hv as <- <-. cbn [String.eqb Ascii.eqb Bool.eqb].
  rewrite Hx. cbn [negb]. unfold select_file. rewrite Hq. cbn [fm_tab with_cache].
  rewrite (find_row (fm_tab st) _ f) by (done || (rewrite ?Hown by done; apply String.eqb_refl) || (intros g Hg; rewrite Hown by done; auto)).
  cbn [from_option]. rewrite (surjective_pairing (delete_files _ _)).
  rewrite (delete_files_ext _ (is_row id)) by done. cbn [delete_files snd].
  rewrite (filter_one_row _ f) by done. change (zlen [f] =? 0) with false. cbn iota. cbn [fst].
  rewrite <- (purge_one (os (fe_req e)) _ f) by done.
  destruct (IsValidHash (fr_cas (sf_row f))) eqn:Hvh.
  - rewrite valid_hash_nonempty by done. cbn [andb]. by rewrite release_data.
  - assert (forall t, unreferenced t [fr_cas (sf_row f)] = ∅) as Hnone.
    { intros t. unfold unreferenced. cbn [List.filter]. by rewrite Hvh. }
    by rewrite andb_false_r, Hnone, drop_blobs_none.
Qed.

(** ** One row first, then the rest *)

Lemma count_drop_pos h p t :
  count_hash h (fst (delete_files p t)) <> 0 <->
  exists f, f ∈ tb_files t /\ p f = false /\ fr_cas (sf_row f) = h.
Proof.
  split.
  - unfold count_hash. cbn. intros Hc. destruct (List.filter _ _) as [|f l] eqn:Hl; [done|].
    assert (In f (f :: l)) as Hf by (by left). rewrite <- Hl in Hf.
    apply List.filter_In in Hf as [Hf Hh%String.eqb_eq]. apply List.filter_In in Hf as [Hf Hp%negb_true_iff].
    exists f. by rewrite list_elem_of_In.
  - intros (f & Hf & Hp & Hh). apply (count_hash_pos h _ f); [|done]. cbn.
    apply list_elem_of_In, List.filter_In. rewrite <- list_elem_of_In. by rewrite Hp.
Qed.

Lemma distinct_spec p t h : h ∈ distinct_hashes p t <->
  negb (String.eqb h "") = true /\ exists f, f ∈ tb_files t /\ p f = true /\ fr_cas (sf_row f) = h.
Proof.
  unfold distinct_hashes. rewrite list_elem_of_In, List.filter_In, <- list_elem_of_In, elem_of_remove_dups.
  rewrite list_elem_of_fmap. split.
  - intros [(f & -> & Hf) Hne]. split; [done|]. apply list_elem_of_In, List.filter_In in Hf as [Hf Hp].
    exists f. by rewrite list_elem_of_In.
  - intros [Hne (f & Hf & Hp & <-)]. split; [|done]. exists f. split; [done|].
    apply list_elem_of_In, List.filter_In. by rewrite <- list_elem_of_In.
Qed.

Lemma released_spec p t h : h ∈ released p t <->
  IsValidHash h = true /\ (exists f, f ∈ tb_files t /\ p f = true /\ fr_cas (sf_row f) = h) /\
  (forall f, f ∈ tb_files t -> fr_cas (sf_row f) = h -> p f = true).
Proof.
  unfold released, unreferenced. rewrite elem_of_list_to_set, list_elem_of_In, List.filter_In, andb_true_iff, Z.eqb_eq.
  rewrite <- list_elem_of_In, distinct_spec. split.
  - intros ((_ & Hex) & Hv & Hc). split; [done|]. split; [done|]. intros g Hg He.
    destruct (p g) eqn:Hpg; [done|]. exfalso. revert Hc. apply count_drop_pos. by exists g.
  - intros (Hv & Hex & Hall). split; [split; [by apply valid_hash_nonempty|done]|].
    split; [done|]. destruct (Z.eq_dec (count_hash h (fst (delete_files p t))) 0) as [|Hc]; [done|].
    apply count_drop_pos in Hc as (g & Hg & Hpg & Hh'). rewrite (Hall g) in Hpg; done.
Qed.

Lemma purge_tables env p d : (purge env p d).1.1 = fst (delete_files p d.1.1).
Proof. by destruct d as [[t [c|]] f]. Qed.

(** Purging part of the rows and then all of them purges all of them. *)
Lemma purge_absorb env p q d :
  (forall f, f ∈ tb_files d.1.1 -> p f = true -> q f = true) -> purge env q (purge env p d) = purge env q d.
Proof.
  intros Hpq. unfold purge at 1. rewrite purge_tables. unfold purge. rewrite drop_rows_blobs, drop_rows_twice, drop_blobs_twice.
  rewrite (drop_rows_ext (fun f => p f || q f) q).
  2:{ intros f Hf. specialize (Hpq f Hf). destruct (p f); [by rewrite Hpq|done]. }
  f_equal. apply set_eq. intros h. rewrite elem_of_union, !released_spec.
  assert (forall f, f ∈ tb_files (fst (delete_files p d.1.1)) <-> f ∈ tb_files d.1.1 /\ p f = false) as Hrest.
  { intros f. cbn. by rewrite !list_elem_of_In, List.filter_In, negb_true_iff. }
  setoid_rewrite Hrest. split.
  - intros [(Hv & (f & [Hf _] & Hq & Hh) & Hall)|(Hv & (f & Hf & Hp & Hh) & Hall)]; (split; [done|]).
    + split; [by exists f|]. intros g Hg He. destruct (p g) eqn:Hp; [by apply Hpq|]. by apply Hall.
    + split; [exists f; auto|]. intros g Hg He. apply Hpq; auto.
  - intros (Hv & (f & Hf & Hq & Hh) & Hall).
    destruct (existsb (fun g => negb (p g) && String.eqb (fr_cas (sf_row g)) h) (tb_files d.1.1)) eqn:Hex.
    + left. split; [done|]. apply existsb_exists in Hex as (g & Hg & [Hp%negb_true_iff He%String.eqb_eq]%andb_true_iff).
      apply list_elem_of_In in Hg. split; [|intros k [Hk _] Hkh; by apply Hall].
      exists g. split; [done|]. split; [by apply Hall|done].
    + right. assert (forall g, g ∈ tb_files d.1.1 -> fr_cas (sf_row g) = h -> p g = true) as Hall'.
      { intros g Hg He. destruct (p g) eqn:Hp; [done|]. exfalso. apply not_true_iff_false in Hex. apply Hex.
        apply existsb_exists. exists g. rewrite <- list_elem_of_In, Hp. cbn. split; [done|]. by apply String.eqb_eq. }
      split; [done|]. split; [|done]. exists f. auto.
Qed.

Lemma purge_purge env p q d :
  purge env q (purge env p d) = purge env (fun f => p f || q f) d.
Proof.
  rewrite <- (purge_absorb env p (fun f => p f || q f) d) by (by intros f _ ->).
  apply purge_ext. rewrite purge_tables. cbn. intros f Hf. apply list_elem_of_In, List.filter_In in Hf as [_ Hp].
  apply negb_true_iff in Hp. by rewrite Hp.
Qed.

Lemma purge_nothing env p d : (forall f, f ∈ tb_files d.1.1 -> p f = false) -> purge env p d = d.
Proof.
  intros Hp. unfold purge. assert (released p d.1.1 = ∅) as ->.
  { apply set_eq. intros h. rewrite released_spec. split; [|set_solver].
    intros (_ & (f & Hf & Hpf & _) & _). by rewrite Hp in Hpf. }
  rewrite drop_blobs_none. destruct d as [[[fo fs] c] f]. cbn in *. do 3 f_equal.
  rewrite (list_filter_ext_in _ (fun _ => true)) by (intros x Hx; by rewrite Hp). by apply list_filter_all.
Qed.

Lemma trash_ids p t :
  NoDup (file_ids t) -> NoDup (map (fun f => fr_id (sf_row f)) (List.filter p (tb_files t))).
Proof.
  unfold file_ids. induction (tb_files t) as [|x fs IH]; [done|].
  cbn. intros [Hx Hnd]%NoDup_cons. destruct (p x); cbn; [|auto]. apply NoDup_cons.
  split; [|auto]. intros Hin. apply Hx. apply list_elem_of_fmap in Hin as (y & -> & Hy).
  apply (list_elem_of_fmap_2 (fun f => fr_id (sf_row f))). apply list_elem_of_In, List.filter_In in Hy as [Hy _].
  by apply list_elem_of_In.
Qed.

(** Deleting a list of rows of the user for good, one request each. *)
Lemma DeleteFiles_data e st l :
  unlocked e = true -> can_query e = true -> can_exec e = true -> count_ok e = true ->
  NoDup (file_ids (fm_tab st)) -> NoDup (map (fun f => fr_id (sf_row f)) l) ->
  (forall f, f ∈ l -> f ∈ tb_files (fm_tab st) /\ fr_owner (sf_row f) = user_of e) ->
  data_of (foldl (fun s f => fst (DeleteFile e s (fr_id (sf_row f)) "true")) st l)
  = purge (os (fe_req e)) (fun f => bool_decide (fr_id (sf_row f) ∈ map (fun g => fr_id (sf_row g)) l)) (data_of st).
Proof.
  intros Hu Hq Hx Hn. revert st. induction l as [|f l IH]; intros st Hnd Hndl Hl.
  { cbn [foldl]. rewrite purge_nothing; [done|]. intros f _. apply bool_decide_eq_false. apply not_elem_of_nil. }
  destruct (Hl f) as [Hf Ho]; [by left|]. apply NoDup_cons in Hndl as [Hfl Hndl]. cbn [foldl].
  pose proof (DeleteFile_data e st f Hu Hq Hx Hn Hnd Hf Ho) as Hd. set (st1 := fst (DeleteFile _ _ _ _)) in *.
  assert (fm_tab st1 = fst (delete_files (is_row (fr_id (sf_row f))) (fm_tab st))) as Ht.
  { change (fm_tab st1) with (data_of st1).1.1. by rewrite Hd, purge_tables. }
  rewrite IH, Hd, purge_purge.
  - apply purge_ext. intros g _. unfold is_row. cbn [map].
    destruct (String.eqb_spec (fr_id (sf_row g)) (fr_id (sf_row f))) as [He|Hne].
    + symmetry. apply bool_decide_eq_true. rewrite He. by left.
    + cbn [orb]. apply bool_decide_ext. rewrite elem_of_cons. naive_solver.
  - rewrite Ht. by apply (trash_ids (fun g => negb (is_row (fr_id (sf_row f)) g))).
  - done.
  - intros g Hg. destruct (Hl g) as [Hgt Hgo]; [by right|]. split; [|done]. rewrite Ht. cbn.
    apply list_elem_of_In, List.filter_In. rewrite <- list_elem_of_In. split; [done|].
    apply negb_true_iff, String.eqb_neq. intros He. apply Hfl. rewrite <- He.
    by apply (list_elem_of_fmap_2 (fun f => fr_id (sf_row f))).
Qed.

(** What a purge leaves in the store. *)
Lemma purge_blob env p t c f h :
  IsValidHash h = true -> remove_ok env = true ->
  let '(_, c', f') := purge env p (t, Some c, f) in
  exists c1, c' = Some c1 /\ BaseDir c1 = BaseDir c /\
    (has_blob c1 f' h <-> has_blob c f h /\ h ∉ released p t).
Proof.
  intros Hv Hr. cbn. eexists. split; [done|]. split; [done|]. unfold drop_fs. rewrite Hr. unfold has_blob.
  change (Path (set_cache _ _) h) with (Path c h). split.
  - intros [x [Hx Hn]%map_lookup_filter_Some]. split; [by exists x|]. intros Hin. apply Hn. cbn.
    apply elem_of_map. by exists h.
  - intros [[x Hx] Hn]. exists x. apply map_lookup_filter_Some. split; [done|]. cbn.
    intros (h' & He & Hin)%elem_of_map. apply Path_inj in He as ->; [done|done|].
    by apply released_spec in Hin as [? _].
Qed.

Lemma same_data_of st st' : data_of st' = data_of st -> same_data st st'.
Proof. unfold data_of, same_data. intros He. by injection He. Qed.

(** A blob survives when no row that goes has it, or one that stays has. *)
Lemma not_released p t h :
  IsValidHash h = true ->
  h ∉ released p t <->
  (forall f, f ∈ tb_files t -> p f = true -> fr_cas (sf_row f) <> h) \/
  exists f, f ∈ tb_files (fst (delete_files p t)) /\ fr_cas (sf_row f) = h.
Proof.
  intros Hv. rewrite released_spec. split.
  - intros Hn. destruct (Z.eq_dec (count_hash h (fst (delete_files p t))) 0) as [Hz|Hc].
    + left. intros f Hf Hp He. apply Hn. split; [done|]. split; [by exists f|]. intros g Hg Hge.
      destruct (p g) eqn:Hpg; [done|]. exfalso. revert Hz. apply count_drop_pos. by exists g.
    + right. apply count_drop_pos in Hc as (f & Hf & Hp & He). exists f. split; [|done]. cbn.
      apply list_elem_of_In, List.filter_In. rewrite <- list_elem_of_In. by rewrite Hp.
  - intros Hor (_ & (f & Hf & Hp & He) & Hall). destruct Hor as [Hno|(g & Hg & Hge)]; [by apply (Hno f)|].
    cbn in Hg. apply list_elem_of_In, List.filter_In in Hg as [Hg Hpg%negb_true_iff].
    rewrite (Hall g) in Hpg; [done|by apply list_elem_of_In|done].
Qed.

Lemma trash_rows_purge env user st :
  NoDup (file_ids (fm_tab st)) ->
  purge env (fun f => bool_decide (fr_id (sf_row f) ∈
      map (fun g => fr_id (sf_row g)) (List.filter (in_trash user) (tb_files (fm_tab st))))) (data_of st)
  = purge env (in_trash user) (data_of st).
Proof.
  intros Hnd. apply purge_ext. intros f Hf. cbn in Hf. destruct (in_trash user f) eqn:Ht.
  - apply bool_decide_eq_true. apply (list_elem_of_fmap_2 (fun f => fr_id (sf_row f))).
    apply list_elem_of_In, List.filter_In. by rewrite <- list_elem_of_In.
  - apply bool_decide_eq_false. intros (g & He & Hg)%list_elem_of_fmap.
    apply list_elem_of_In, List.filter_In in Hg as [Hg Hgt]. apply list_elem_of_In in Hg.
    rewrite (unique_row _ f g Hnd Hf Hg He) in Ht. congruence.
Qed.

End Trash.
