(* ===== verification/FileVault.v ===== *)
(** * What a locked vault is protected from

    Frame lemmas: a statement that touches no row of the vault leaves the
    vault's rows as they are, and a folder outside the vault has nothing of
    the vault below it. *)

From S2P Require Import Prelude GoStrings FileSys CryptoPrims CryptoStream CryptoStreamFacts CAS CASProps UploadSession VaultTree Auth UploadCtrl UploadFacts FileDownload FileTable FileOps FileOpsFacts FileOpsInv FileTrash.

#[local] Open Scope string_scope.
#[local] Open Scope list_scope.
#[local] Open Scope Z_scope.

(** ** The forest *)

Lemma unique_folder t f g :
  tables_ok t -> f ∈ tb_folders t -> g ∈ tb_folders t -> fo_id f = fo_id g -> f = g.
Proof.
  intros [Hnd _ _ _] [i Hi]%list_elem_of_lookup [j Hj]%list_elem_of_lookup He.
  assert (folder_ids t !! i = Some (fo_id g)) as Hi' by (unfold folder_ids; rewrite list_lookup_fmap, Hi; cbn; by rewrite He).
  assert (folder_ids t !! j = Some (fo_id g)) as Hj' by (unfold folder_ids; by rewrite list_lookup_fmap, Hj).
  pose proof (NoDup_lookup _ _ _ _ Hnd Hi' Hj'). subst j. congruence.
Qed.

Lemma parent_unique t p q c :
  tables_ok t -> is_child (query_links (links_of t)) p c -> is_child (query_links (links_of t)) q c -> p = q.
Proof.
  intros Hok (_ & f & Hf & Hfc & Hfp)%links_child (_ & g & Hg & Hgc & Hgp)%links_child.
  assert (f = g) as -> by (apply (unique_folder t); congruence). congruence.
Qed.

(** Of two folders above a third, one is above the other. *)
Lemma ancestors_comparable t a b x :
  tables_ok t -> rtc (is_child (query_links (links_of t))) a x -> rtc (is_child (query_links (links_of t))) b x ->
  rtc (is_child (query_links (links_of t))) a b \/ rtc (is_child (query_links (links_of t))) b a.
Proof.
  intros Hok Ha. revert x Ha b. apply (rtc_ind_r (fun x => forall b, rtc _ b x -> rtc _ a b \/ rtc _ b a)).
  - intros b Hb. by right.
  - intros y z Hay Hyz IH b Hb. apply rtc_inv_r in Hb as [->|(w & Hbw & Hwz)].
    + left. by eapply rtc_r.
    + rewrite (parent_unique t w y z Hok Hwz Hyz) in Hbw. by apply IH.
Qed.

(** Nothing of the vault is below a folder outside it. *)
Lemma outside_disjoint t id x :
  tables_ok t -> ~ in_vault (links_of t) id -> in_vault (links_of t) x -> x ∉ subtree t id.
Proof.
  intros Hok Hid Hx Hs%subtree_spec. destruct (ancestors_comparable t "f2" id x Hok Hx Hs) as [|Hr]; [done|].
  apply rtc_inv_r in Hr as [->|(p & _ & Hp)]; [by apply Hid, rtc_refl|].
  apply links_child in Hp as (_ & f & Hf & Hfid & Hp). rewrite (tk_roots t Hok f Hf) in Hp; [done|].
  rewrite Hfid. set_solver.
Qed.

(** ** Frames *)

(** The rows of the vault of [t0] are the same in [t] and [t0]. *)
Record vault_kept (t0 t : tables) : Prop := {
  vk_files f : in_vault (links_of t0) (file_folder f) -> f ∈ tb_files t <-> f ∈ tb_files t0;
  vk_folders f : in_vault (links_of t0) (fo_id f) -> f ∈ tb_folders t <-> f ∈ tb_folders t0;
  vk_ids x : in_vault (links_of t) x <-> in_vault (links_of t0) x
}.

#[export] Instance vault_kept_refl : Reflexive vault_kept.
Proof. by intros t. Qed.

Lemma kept_tab t t' : t' = t -> vault_kept t t'.
Proof. by intros ->. Qed.

Lemma update_keeps p g t :
  (forall f, f ∈ tb_files t -> p f = true -> ~ in_vault (links_of t) (file_folder f)) ->
  (forall f, file_folder (g f) = file_folder f) -> vault_kept t (fst (update_files p g t)).
Proof.
  intros Hp Hg. split; [|done|done]. intros f Hv. cbn. rewrite list_elem_of_fmap. split.
  - intros (x & -> & Hx). destruct (p x) eqn:Hpx; [|done]. exfalso. rewrite Hg in Hv. by apply (Hp x).
  - intros Hf. exists f. destruct (p f) eqn:Hpf; [|done]. exfalso. by apply (Hp f).
Qed.

Lemma delete_keeps p t :
  (forall f, f ∈ tb_files t -> p f = true -> ~ in_vault (links_of t) (file_folder f)) ->
  vault_kept t (fst (delete_files p t)).
Proof.
  intros Hp. split; [|done|done]. intros f Hv. cbn. rewrite list_elem_of_In, List.filter_In, <- list_elem_of_In.
  split; [tauto|]. intros Hf. split; [done|]. destruct (p f) eqn:Hpf; [|done]. exfalso. by apply (Hp f).
Qed.

(** New folders outside the vault. *)
Lemma insert_keeps f t t' :
  tables_ok t -> insert_folder f t = Some t' -> fo_id f <> "f2" ->
  (forall p, fo_parent f = Some p -> p <> "" -> p ∈ folder_ids t /\ ~ in_vault (links_of t) p) -> vault_kept t t'.
Proof.
  intros Hok Hi Hf2 Hp. unfold insert_folder in Hi. destruct (existsb _ _) eqn:Hex; [done|]. injection Hi as <-.
  assert (forall g, g ∈ tb_folders t -> fo_id g <> fo_id f) as Hfresh.
  { intros g Hg He. apply not_true_iff_false in Hex. apply Hex, existsb_exists. exists g.
    rewrite <- list_elem_of_In. split; [done|]. by apply String.eqb_eq. }
  set (t' := mkTables (tb_folders t ++ [f]) (tb_files t)).
  assert (forall p c, is_child (query_links (links_of t')) p c <->
    is_child (query_links (links_of t)) p c \/ p <> "" /\ fo_parent f = Some p /\ c = fo_id f) as Hlink.
  { intros p c. rewrite !links_child. cbn. setoid_rewrite elem_of_app. setoid_rewrite list_elem_of_singleton.
    naive_solver. }
  assert (forall x, in_vault (links_of t) x -> x <> fo_id f) as Hold.
  { intros x Hx ->. apply rtc_inv_r in Hx as [He|(q & _ & Hq)]; [by apply Hf2|].
    apply links_child in Hq as (_ & g & Hg & He & _). by apply (Hfresh g). }
  split.
  - done.
  - intros g Hg. cbn. rewrite elem_of_app, list_elem_of_singleton. split; [|by left].
    intros [| ->]; [done|]. by apply Hold in Hg.
  - intros x. unfold in_vault. split.
    + revert x. apply rtc_ind_r; [apply rtc_refl|]. intros y z _ Hyz Hy. apply Hlink in Hyz as [Hyz|(Hne & Hpar & ->)].
      * by eapply rtc_r.
      * exfalso. by destruct (Hp y Hpar Hne) as [_ Hn].
    + apply rtc_subrel. intros a b Hab. apply Hlink. by left.
Qed.

(** Renaming folders outside the vault. *)
Lemma rename_keeps (g : folder_row -> folder_row) t :
  (forall f, fo_id (g f) = fo_id f /\ fo_parent (g f) = fo_parent f) ->
  (forall f, in_vault (links_of t) (fo_id f) -> g f = f) ->
  vault_kept t (mkTables (map g (tb_folders t)) (tb_files t)).
Proof.
  intros Hg Hid. assert (links_of (mkTables (map g (tb_folders t)) (tb_files t)) = links_of t) as Hlinks.
  { unfold links_of. cbn. rewrite map_map. apply map_ext. intros f. by destruct (Hg f) as [-> ->]. }
  split; [done| |by rewrite Hlinks]. intros f Hf. cbn. rewrite list_elem_of_fmap. split.
  - intros (x & -> & Hx). destruct (Hg x) as [Hx1 _]. rewrite Hid; [done|]. by rewrite <- Hx1.
  - intros Hin. exists f. by rewrite Hid.
Qed.

(** Deleting a folder outside the vault. *)
Lemma folder_deleted_keeps t user mine id :
  tables_ok t -> is_system id = false -> ~ in_vault (links_of t) id ->
  (forall d, d ∈ mine -> d ∈ subtree t id) -> vault_kept t (folder_deleted false user mine id t).
Proof.
  intros Hok Hsys Hid Hmine. split.
  - intros f Hv. unfold folder_deleted. cbn [drop_tables tb_files]. change (subtree (mkTables _ _) id) with (subtree t id).
    rewrite (kept_or_trashed t user false id mine f Hok Hsys). split.
    + intros (f0 & Hf0 & [[_ ->]|(_ & -> & _)]); [|done]. exfalso. revert Hv.
      change (~ in_vault (links_of t) ""). apply not_in_vault; [done|by left].
    + intros Hf. exists f. split; [done|]. right. unfold file_folder in Hv.
      assert (forall d, fr_folder (sf_row f) = Some d -> d ∉ subtree t id) as Hd.
      { intros d Hd. rewrite Hd in Hv. by apply outside_disjoint. }
      split; [|done]. unfold in_folders. destruct (fr_folder (sf_row f)) as [d|]; [|apply andb_false_r].
      rewrite bool_decide_eq_false_2; [apply andb_false_r|]. intros Hm. by apply (Hd d); [|apply Hmine].
  - intros f Hv. cbn. rewrite list_elem_of_In, List.filter_In, <- list_elem_of_In, negb_true_iff, bool_decide_eq_false.
    split; [tauto|]. intros Hf. split; [done|]. by apply outside_disjoint.
  - intros x. unfold in_vault. change (links_of (folder_deleted _ _ _ _ _)) with (links_of (drop_tables (subtree t id) t)).
    split; [apply drop_reach|]. revert x. apply rtc_ind_r; [apply rtc_refl|]. intros y z Hy Hyz Hy'.
    eapply rtc_r; [exact Hy'|]. apply drop_child. split; [done|]. apply outside_disjoint; [done|done|].
    by eapply rtc_r.
Qed.

(** ** Requests of a locked session *)

Section Locked.
Context `{CryptoLaws}.

Definition is_move (op : fm_op) : bool :=
  match op with OpMoveFile _ _ | OpMoveFilesBatch _ => true | _ => false end.

(** The session asks about the folder first; what it may go on with is
    outside the vault. *)
Lemma locked_refuses e st id st1 b :
  ready st -> can_query e = true -> unlocked e = false -> vault_refuses e st id = (st1, b) ->
  fm_tab st1 = fm_tab st /\ (b = false -> ~ in_vault (links_of (fm_tab st)) id).
Proof.
  intros Hok Hq Hl Hv. destruct (vault_refuses_ready _ _ _ _ _ Hok Hq Hv) as (_ & (Ht & _) & Hb).
  split; [done|]. intros -> Hin. assert (false = true); [|done]. by apply Hb.
Qed.

(** All rows with the file's identifier are the row that was looked up. *)
Lemma rows_of_file e st id p f :
  can_query e = true -> NoDup (file_ids (fm_tab st)) ->
  (forall g, p g = true -> owned_file id (user_of e) g = true) ->
  f ∈ tb_files (fm_tab st) -> p f = true -> file_folder f = folder_of_file e st id.
Proof.
  intros Hq Hnd Hp Hf Hpf. unfold folder_of_file, select_file. rewrite Hq.
  assert (forall g, owned_file id (user_of e) g = true -> fr_id (sf_row g) = id) as Hid.
  { intros g [Hg%String.eqb_eq _]%andb_true_iff. done. }
  rewrite (find_row _ _ f); [done|done|auto|]. intros g Hg Hog. apply (unique_row (fm_tab st)); [done..|].
  rewrite (Hid f), (Hid g) by auto. done.
Qed.

Ltac locked_step Hok Hq Hl :=
  match goal with
  | |- context [vault_refuses ?e ?st ?id] =>
      let st1 := fresh "st1" in let b := fresh "refused" in let E := fresh "Hvr" in
      let Ht := fresh "Htab" in let Hn := fresh "Hout" in
      destruct (vault_refuses e st id) as [st1 b] eqn:E;
      apply (locked_refuses _ _ _ _ _ Hok Hq Hl) in E as [Ht Hn];
      destruct b; [by apply kept_tab|specialize (Hn eq_refl)]
  end.

Lemma DeleteFile_keeps e st id permanent :
  ready st -> can_query e = true -> unlocked e = false -> NoDup (file_ids (fm_tab st)) ->
  vault_kept (fm_tab st) (fm_tab (fst (DeleteFile e st id permanent))).
Proof.
  intros Hok Hq Hl Hnd. unfold DeleteFile. locked_step Hok Hq Hl.
  assert (forall f, f ∈ tb_files (fm_tab st) -> owned_file id (user_of e) f = true ->
    ~ in_vault (links_of (fm_tab st)) (file_folder f)) as Hrows.
  { intros f Hf Ho. rewrite (rows_of_file e st id (owned_file id (user_of e)) f); auto. }
  destruct (String.eqb _ _).
  - destruct (can_exec e); [|by apply kept_tab]. cbn [negb]. rewrite (surjective_pairing (delete_files _ _)), Htab.
    destruct (_ =? 0); [by apply kept_tab|]. cbn [fst].
    assert (forall s h, vault_kept (fm_tab st) (fm_tab s) -> vault_kept (fm_tab st)
      (fm_tab (if negb (String.eqb h "") && IsValidHash h then release_blob e s h else s))) as Hrel.
    { intros s h Hs. destruct (_ && _); [by rewrite release_tab|done]. }
    apply Hrel. by apply delete_keeps.
  - destruct (can_exec e); [|by apply kept_tab]. cbn [negb]. rewrite (surjective_pairing (update_files _ _ _)), Htab.
    destruct (_ =? 0); [by apply kept_tab|]. by apply update_keeps.
Qed.

Lemma RestoreFile_keeps e st id :
  ready st -> can_query e = true -> unlocked e = false -> NoDup (file_ids (fm_tab st)) ->
  vault_kept (fm_tab st) (fm_tab (fst (RestoreFile e st id))).
Proof.
  intros Hok Hq Hl Hnd. unfold RestoreFile. locked_step Hok Hq Hl.
  destruct (can_exec e); [|by apply kept_tab]. cbn [negb]. rewrite (surjective_pairing (update_files _ _ _)), Htab.
  destruct (_ =? 0); [by apply kept_tab|]. apply update_keeps; [|done].
  intros f Hf Ho. rewrite (rows_of_file e st id (owned_file id (user_of e)) f); auto.
Qed.

Lemma StarFile_keeps e st id :
  ready st -> can_query e = true -> unlocked e = false -> NoDup (file_ids (fm_tab st)) ->
  vault_kept (fm_tab st) (fm_tab (fst (StarFile e st id))).
Proof.
  intros Hok Hq Hl Hnd. unfold StarFile. locked_step Hok Hq Hl.
  destruct (can_exec e); [|by apply kept_tab]. cbn [negb]. rewrite (surjective_pairing (update_files _ _ _)), Htab.
  destruct (_ =? 0).
  { destruct (select_file _ _ _) as [f|]; [destruct (fr_deleted _)|]; by apply kept_tab. }
  apply update_keeps; [|done]. intros f Hf Ho.
  rewrite (rows_of_file e st id (fun f => owned_file id (user_of e) f && active f) f); auto.
  intros g Hg. by apply andb_true_iff in Hg as [? _].
Qed.

Lemma RenameFile_keeps e st id bind :
  ready st -> can_query e = true -> unlocked e = false -> NoDup (file_ids (fm_tab st)) ->
  vault_kept (fm_tab st) (fm_tab (fst (RenameFile e st id bind))).
Proof.
  intros Hok Hq Hl Hnd. unfold RenameFile. destruct bind as [name|]; [|done].
  destruct (requested_name _ _) as [r|clean]; [done|].
  set (mine := fun f => owned_file id (user_of e) f && active f).
  destruct (_ && _); [done|]. locked_step Hok Hq Hl. destruct (file_exists _ _ _); [by apply kept_tab|].
  destruct (can_exec e); [|by apply kept_tab]. cbn [negb]. rewrite (surjective_pairing (update_files _ _ _)), Htab.
  destruct (_ =? 0); [by apply kept_tab|]. apply update_keeps; [|done]. intros f Hf Ho.
  unfold select_file in Hout. rewrite Hq in Hout. rewrite (find_row _ _ f) in Hout; [done|done|done|].
  intros g Hg Hmg. subst mine. cbn in Ho, Hmg. apply andb_true_iff in Ho as [[Hi%String.eqb_eq _]%andb_true_iff _].
  apply andb_true_iff in Hmg as [[Hj%String.eqb_eq _]%andb_true_iff _]. apply (unique_row (fm_tab st)); congruence.
Qed.

Lemma EmptyTrash_keeps e st :
  ready st -> can_query e = true -> unlocked e = false ->
  vault_kept (fm_tab st) (fm_tab (fst (EmptyTrash e st))).
Proof.
  intros Hok Hq Hl. unfold EmptyTrash. rewrite Hl. unfold vaultExcludeFilter, GetAllVaultFolderIDs, folder_query.
  rewrite Hq. destruct (load_cache_ok (fm_tab st) (fm_cache st)) as [Hc Hv]; [by apply rd_cache|].
  destruct (Hc Hv) as [_ Hlist]. set (c := loadVaultCacheLocked _ _) in *. clearbody c.
  destruct (begin_ok e); [|done]. cbn [negb]. destruct (can_exec e); [|done]. cbn [negb].
  rewrite (surjective_pairing (delete_files _ _)). destruct (commit_ok e); [|done]. cbn [negb fst].
  assert (forall hs s, fm_tab (foldl (fun st h => if IsValidHash h then release_blob e st h else st) s hs) = fm_tab s) as Hrel.
  { induction hs as [|h hs IH]; intros s; [done|]. cbn [foldl]. rewrite IH. destruct (IsValidHash h); [|done].
    apply release_tab. }
  rewrite Hrel. apply delete_keeps. cbn [with_cache fm_tab]. intros f Hf [_ Hex]%andb_true_iff Hin.
  apply Hlist in Hin as Hin'. unfold excludes in Hex. destruct (vaultIDsList c) as [|x l]; [by apply not_elem_of_nil in Hin'|].
  rewrite bool_decide_eq_true_2, orb_false_r in Hex by done. apply String.eqb_eq in Hex. rewrite Hex in Hin.
  revert Hin. apply not_in_vault; [by apply rd_tables|by left].
Qed.

Lemma CreateFolder_keeps e st bind :
  ready st -> can_query e = true -> unlocked e = false ->
  vault_kept (fm_tab st) (fm_tab (fst (CreateFolder e st bind))).
Proof.
  intros Hok Hq Hl. unfold CreateFolder. destruct bind as [[name parentID]|]; [|done].
  destruct (requested_name _ _) as [r|clean]; [done|].
  set (parent := if String.eqb parentID "root" then "" else parentID). cbv zeta.
  set (row := mkFolder (folder_id_of e) (user_of e) (nullif parent) clean).
  assert (forall st1, fm_tab st1 = fm_tab st ->
    (parent = "" \/ parent ∈ folder_ids (fm_tab st) /\ ~ in_vault (links_of (fm_tab st)) parent) ->
    vault_kept (fm_tab st) (fm_tab (fst (if folder_exists e st1 (fun f => String.eqb (coalesce (fo_parent f)) parent
                                                      && String.eqb (fo_name f) clean)
      then (st1, http_error 409 "Folder with this name already exists in the destination")
      else match (if can_exec e then insert_folder row (fm_tab st1) else None) with
           | None => (st1, http_error 500 "Failed to create folder: ")
           | Some t => (invalidate (with_tab st1 t),
                        mkResp 201 [("id", JStr (fo_id row)); ("name", JStr clean)])
           end)))) as Hcreate.
  { intros st1 Ht Hp. rewrite Ht. destruct (folder_exists _ _ _); [by apply kept_tab|].
    destruct (can_exec e); [|by apply kept_tab]. destruct (insert_folder row (fm_tab st)) as [t|] eqn:Hi; [|by apply kept_tab].
    cbn [fst fm_tab invalidate with_cache with_tab]. apply (insert_keeps row); [by apply rd_tables|done| |].
    - intros He. destruct (new_folder_id e) as [_ Hs]. apply Hs. change (fo_id row) with (folder_id_of e) in He. rewrite He. set_solver.
    - subst row. cbn. unfold nullif. intros p. destruct (String.eqb_spec parent ""); [done|]. intros [= <-] _. by destruct Hp. }
  destruct (String.eqb_spec parent "") as [Hp|Hp]; [apply Hcreate; auto|]. 
  locked_step Hok Hq Hl.
  destruct (folder_exists e st1 (fun f => String.eqb (fo_id f) parent)) eqn:Hex; [|by apply kept_tab].
  apply Hcreate; [done|]. right. split; [|done]. rewrite <- Htab. by apply (folder_exists_in e).
Qed.

Lemma RenameFolder_keeps e st id bind :
  ready st -> can_query e = true -> unlocked e = false ->
  vault_kept (fm_tab st) (fm_tab (fst (RenameFolder e st id bind))).
Proof.
  intros Hok Hq Hl. unfold RenameFolder. destruct (is_system id); [done|]. locked_step Hok Hq Hl.
  destruct bind as [name|]; [|by apply kept_tab]. destruct (requested_name _ _) as [r|clean]; [by apply kept_tab|].
  destruct (_ && _); [by apply kept_tab|]. destruct (folder_exists _ _ _); [by apply kept_tab|].
  destruct (can_exec e); [|by apply kept_tab]. cbn [negb]. destruct (existsb _ _); [|by apply kept_tab].
  cbn [negb fst fm_tab invalidate with_cache with_tab]. rewrite Htab. apply rename_keeps.
  - intros f. by destruct (owned_folder id (user_of e) f).
  - intros f Hf. destruct (owned_folder id (user_of e) f) eqn:Ho; [|done]. exfalso.
    apply andb_true_iff in Ho as [He%String.eqb_eq _]. by rewrite He in Hf.
Qed.

Lemma DeleteFolder_keeps e st id st' r :
  ready st -> can_query e = true -> unlocked e = false -> DeleteFolder e st id = Some (st', r) ->
  vault_kept (fm_tab st) (fm_tab st').
Proof.
  intros Hok Hq Hl. unfold DeleteFolder. destruct (is_system id) eqn:Hsys; [by intros [= <- _]|].
  destruct (folder_exists e st (owned_folder id (user_of e))) eqn:Hex; [|by intros [= <- _]]. cbn [negb].
  destruct (vault_refuses e st id) as [st1 refused] eqn:Hv.
  pose proof (vault_refuses_ready _ _ _ _ _ Hok Hq Hv) as (Hok1 & _).
  apply locked_refuses in Hv as [Htab Hout]; [|done..].
  destruct refused; [by intros [= <- _]; apply kept_tab|]. specialize (Hout eq_refl). rewrite Htab.
  apply andb_true_iff in Hex as [_ Hex]. pose proof (rd_tables _ Hok) as Ht.
  assert (id ∈ folder_ids (fm_tab st)) as Hid.
  { apply existsb_owned_in in Hex as (f & Hf & <- & _). by apply list_elem_of_fmap_2. }
  destruct (collect_ends (fm_tab st) (user_of e) id Ht Hid) as (all & -> & _ & Hall & _).
  destruct (begin_ok e); [|by intros [= <- _]; apply kept_tab]. cbn [negb].
  destruct (in_vault_now e st1 id) as [st2 isVault] eqn:Hv.
  apply in_vault_now_ready in Hv as (_ & (Htab2 & _) & Hb); [|done..]. rewrite Htab in Hb, Htab2. rewrite Htab2.
  destruct isVault; [by destruct Hout; apply Hb|].
  destruct (commit_ok e); [|by intros [= <- _]; apply kept_tab]. cbn [negb]. intros [= <- _]. cbn [fm_tab invalidate with_cache with_tab].
  destruct (can_exec e); [|done]. rewrite (delete_statements _ _ _ id) by done.
  apply folder_deleted_keeps; [done..|]. intros d Hd%Hall. apply subtree_spec. by apply (user_reach_links _ (user_of e)).
Qed.

(** No request but a move reaches into a locked vault. *)
Lemma locked_keeps e st op st' :
  ready st -> can_query e = true -> unlocked e = false -> NoDup (file_ids (fm_tab st)) ->
  is_move op = false -> fm_step e st op = Some st' -> vault_kept (fm_tab st) (fm_tab st').
Proof.
  intros Hok Hq Hl Hnd Hm. destruct op; cbn [fm_step]; try done; try (intros [= <-]).
  - by apply DeleteFile_keeps.
  - by apply RestoreFile_keeps.
  - by apply StarFile_keeps.
  - by apply EmptyTrash_keeps.
  - by apply RenameFile_keeps.
  - by apply CreateFolder_keeps.
  - by apply RenameFolder_keeps.
  - destruct (DeleteFolder e st id) as [[st1 r]|] eqn:Hd; [|done]. intros [= <-].
    by apply (DeleteFolder_keeps e st id _ r).
Qed.

(** ** Moves of a locked session *)

(** The same files, in and outside the vault as before. *)
Definition same_side (links : folder_rows) (f g : stored_file) : Prop :=
  fr_id (sf_row g) = fr_id (sf_row f) /\ fr_owner (sf_row g) = fr_owner (sf_row f) /\
  fr_cas (sf_row g) = fr_cas (sf_row f) /\
  (in_vault links (file_folder g) <-> in_vault links (file_folder f)).

Definition sides_kept (t0 t : tables) : Prop :=
  tb_folders t = tb_folders t0 /\ Forall2 (same_side (links_of t0)) (tb_files t0) (tb_files t).

#[local] Instance sides_kept_refl : Reflexive sides_kept.
Proof. intros t. split; [done|]. by apply Forall_Forall2_diag, Forall_true. Qed.

#[local] Instance sides_kept_trans : Transitive sides_kept.
Proof.
  intros t1 t2 t3 [Hf1 Hs1] [Hf2 Hs2]. split; [congruence|].
  rewrite (links_of_folders t1 t2 Hf1) in Hs2. clear Hf1 Hf2. revert Hs2. generalize (tb_files t3).
  induction Hs1 as [|f g fs gs Hfg _ IH]; intros l Hl; inversion Hl as [|? h ? hs Hgh Hl']; subst; [done|].
  constructor; [|by apply IH]. unfold same_side in *. intuition congruence.
Qed.

Lemma sides_ids t0 t : sides_kept t0 t -> file_ids t = file_ids t0.
Proof.
  intros [_ Hs]. unfold file_ids. induction Hs as [|f g fs gs (He & _) _ IH]; [done|]. cbn. by rewrite He, IH.
Qed.

Lemma place_sides t user id target f :
  NoDup (file_ids t) -> f ∈ tb_files t -> owned_file id user f = true ->
  (in_vault (links_of t) target <-> in_vault (links_of t) (file_folder f)) ->
  sides_kept t (place_file user id target (fr_cas (sf_row f)) t).
Proof.
  intros Hnd Hf Ho Hv. split; [done|]. unfold place_file. cbn. apply Forall2_fmap_r, Forall_Forall2_diag, Forall_forall.
  intros g Hg. cbn. destruct (owned_file id user g) eqn:Hog; [|done].
  assert (g = f) as ->.
  { apply andb_true_iff in Ho as [Hi%String.eqb_eq _], Hog as [Hj%String.eqb_eq _].
    apply (unique_row t); congruence. }
  do 3 (split; [done|]). unfold file_folder, db_folder. cbn.
  destruct (String.eqb_spec target "") as [->|]; exact Hv.
Qed.

Lemma MoveFile_sides e st id bind :
  ready st -> can_query e = true -> unlocked e = false -> NoDup (file_ids (fm_tab st)) ->
  sides_kept (fm_tab st) (fm_tab (fst (MoveFile e st id bind))).
Proof.
  intros Hok Hq Hl Hnd. unfold MoveFile. destruct bind as [folder|]; [|done]. rewrite Hq.
  destruct (select_file _ _ _) as [f|] eqn:Hf; [|done]. apply selected_in in Hf as [Hf [Ho _]%andb_true_iff].
  cbn [negb]. destruct (String.eqb _ _); [done|]. destruct (_ && _); [done|].
  destruct (file_exists _ _ _); [done|].
  destruct (in_vault_now e st _) as [st1 b1] eqn:E1. apply in_vault_now_ready in E1 as (Hok1 & Hs1 & Hb1); [|done..].
  destruct (in_vault_now e st1 _) as [st2 b2] eqn:E2. apply in_vault_now_ready in E2 as (Hok2 & Hs2 & Hb2); [|done..].
  destruct Hs1 as [Ht1 _], Hs2 as [Ht2 _]. rewrite Ht1 in Hb2, Ht2. rewrite Hl. cbn [negb].
  destruct (Bool.eqb b1 b2) eqn:Hb; [|by cbn; rewrite Ht2]. apply eqb_prop in Hb as <-.
  destruct (can_exec e); [|by cbn; rewrite Ht2]. cbn. rewrite Ht2. apply place_sides; [done..|]. by rewrite <- Hb1, <- Hb2.
Qed.

Lemma move_one_sides e target st id :
  ready st -> can_query e = true -> unlocked e = false -> NoDup (file_ids (fm_tab st)) ->
  sides_kept (fm_tab st) (fm_tab (fst (move_one e target st id))).
Proof.
  intros Hok Hq Hl Hnd. unfold move_one.
  destruct (select_file _ _ _) as [f|] eqn:Hf; [|done]. apply selected_in in Hf as [Hf [Ho _]%andb_true_iff].
  destruct (String.eqb _ _); [done|]. destruct (file_exists _ _ _); [done|].
  destruct (in_vault_now e st _) as [st1 b1] eqn:E1. apply in_vault_now_ready in E1 as (Hok1 & Hs1 & Hb1); [|done..].
  destruct (in_vault_now e st1 _) as [st2 b2] eqn:E2. apply in_vault_now_ready in E2 as (Hok2 & Hs2 & Hb2); [|done..].
  destruct Hs1 as [Ht1 _], Hs2 as [Ht2 _]. rewrite Ht1 in Hb2, Ht2. rewrite Hl. cbn [negb].
  destruct (Bool.eqb b1 b2) eqn:Hb; [|by cbn; rewrite Ht2]. apply eqb_prop in Hb as <-.
  destruct (can_exec e); [|by cbn; rewrite Ht2]. cbn. rewrite Ht2. apply place_sides; [done..|]. by rewrite <- Hb1, <- Hb2.
Qed.

Lemma MoveFilesBatch_sides e st bind :
  ready st -> can_query e = true -> unlocked e = false -> NoDup (file_ids (fm_tab st)) ->
  sides_kept (fm_tab st) (fm_tab (fst (MoveFilesBatch e st bind))).
Proof.
  intros Hok Hq Hl Hnd. unfold MoveFilesBatch. destruct bind as [[ids folder]|]; [|done].
  case_bool_decide as Hids; [done|]. clear Hids. destruct (_ && _); [done|].
  generalize 0, (@nil string). revert st Hok Hnd.
  induction ids as [|id ids IH]; intros st Hok Hnd n failed; [done|]. cbn [move_all].
  pose proof (move_one_ready e (target_folder folder) st id Hok Hq) as Hone.
  pose proof (move_one_sides e (target_folder folder) st id Hok Hq Hl Hnd) as Hs.
  destruct (move_one e (target_folder folder) st id) as [st1 r]. cbn [fst] in *.
  assert (NoDup (file_ids (fm_tab st1))) as Hnd1 by (by rewrite (sides_ids _ _ Hs)).
  destruct r as [r|[|]]; [done|by (etrans; [exact Hs|]; apply IH)..].
Qed.

(** ** A cache loaded by a failed query *)

Definition poisoned : vault_cache := mkVaultCache {["f2"]} ["f2"] true.

Lemma create_poisons e st name parent clean :
  can_query e = false -> vaultCacheValid (fm_cache st) = false ->
  requested_name "Folder" name = inr clean -> is_system parent = false -> parent <> "" -> parent <> "root" ->
  CreateFolder e st (Some (name, parent)) = (with_cache st poisoned, http_error 400 "Invalid parent folder").
Proof.
  intros Hq Hc Hname Hsys Hp Hroot. unfold CreateFolder. rewrite Hname.
  destruct (String.eqb_spec parent "root"); [done|]. destruct (String.eqb_spec parent "") as [|_]; [done|].
  unfold is_system in Hsys. apply orb_false_iff in Hsys as [[H1 H2]%orb_false_iff H3].
  unfold vault_refuses, in_vault_now, folder_query, IsVaultFolder. rewrite Hq, H1, H2, H3.
  destruct (String.eqb_spec parent "") as [|_]; [done|]. cbn [orb]. unfold loadVaultCacheLocked. rewrite Hc.
  cbn [vaultIDsMap]. rewrite bool_decide_eq_false_2 by (intros ->%elem_of_singleton; done).
  cbn [andb]. unfold folder_exists. by rewrite Hq.
Qed.

Lemma poisoned_refuses e st id :
  id <> "f2" -> vault_refuses e (with_cache st poisoned) id = (with_cache st poisoned, false).
Proof.
  intros Hne. unfold vault_refuses, in_vault_now, IsVaultFolder. destruct (String.eqb_spec id "f2"); [done|].
  destruct (_ || _); [done|]. cbn. by rewrite bool_decide_eq_false_2 by (intros ->%elem_of_singleton; done).
Qed.

End Locked.

(** ** Storing a payload under another key

    With nothing failing, a re-encryption stores the same plaintext under
    the other key and leaves the old blob where it was. *)

Section Rekey.
Context `{CryptoLaws}.

(** The copy writes each piece it reads as one chunk. *)
Lemma copy_reencrypted_stream fuel cap key w s rest :
  aes_key_ok key = true -> stream_at s rest -> zlen w + 33 * zlen rest <= cap -> (length rest < fuel)%nat ->
  exists cs, copy_reencrypted fuel cap (mkEnc w key) s = Some (mkEnc (w ++ encode key cs) key, None) /\
    Forall good_chunk cs /\ concat cs = rest.
Proof.
  intros Hk. revert w s rest. induction fuel as [|fuel IH]; intros w s rest Hs Hc Hf; [lia|].
  cbn [copy_reencrypted]. pose proof (dec_read_stream s rest (32 * 1024) Hs ltac:(lia)) as Hr.
  destruct (dec_read s (32 * 1024)) as [s1 [b [er|]]].
  { destruct Hr as (-> & _ & -> & _). exists []. by rewrite app_nil_r. }
  destruct Hr as (Hb & Hle & Hrest & Hs1). pose proof (zlen_pos b Hb) as Hpos.
  assert (zlen rest = zlen b + zlen (zdrop (zlen b) rest)) as Hlen by (rewrite Hrest at 1; apply zlen_app).
  unfold enc_write. cbn [es_w es_key]. destruct (Z.eqb_spec (zlen b) 0); [lia|].
  rewrite file_append_ok by (rewrite packet_len by done; pose proof (zlen_nonneg (zdrop (zlen b) rest)); lia).
  destruct (IH (w ++ packet key b) s1 (zdrop (zlen b) rest) Hs1) as (cs & -> & Hcs & He).
  - rewrite zlen_app, packet_len by done. lia.
  - unfold zlen in *. lia.
  - exists (b :: cs). rewrite encode_cons, <- app_assoc. split; [done|]. split; [|cbn; by rewrite He].
    constructor; [|done]. split; [done|]. unfold MaxChunkSize, TagSize. lia.
Qed.

(** The copy of any stream ends within the fuel [reencrypt] gives it. *)
Lemma copy_reencrypted_total fuel cap es s :
  aes_key_ok (ds_key s) = true -> 0 <= rd_pos (ds_r s) ->
  stream_measure s < Z.of_nat fuel -> is_Some (copy_reencrypted fuel cap es s).
Proof.
  revert es s. induction fuel as [|f IH]; intros es s Hk Hp Hf.
  { unfold stream_measure in Hf. zlen_solve. }
  cbn [copy_reencrypted]. destruct (dec_read s _) as [s1 [b [[]|]]] eqn:Hr; try done.
  destruct (dec_read_progress s s1 (32 * 1024) b Hk Hp ltac:(lia) Hr) as (Hk1 & Hp1 & Hm & Hb).
  destruct (enc_write _ es b) as [es1 [n [er|]]]; [done|]. apply IH; try done.
  destruct (0 <? zlen (ds_buf s)); [specialize (Hb eq_refl)|clear Hb]; zlen_solve.
Qed.

(** The system calls of a re-encryption succeed. *)
Record calls_ok (e : file_env) : Prop := {
  co_create : create_ok (os (fe_req e)) = true;
  co_mkdir : mkdir_ok (os (fe_req e)) = true;
  co_rename : rename_ok (os (fe_req e)) = true;
  co_read : read_ok (os (fe_req e)) = true;
  co_remove : remove_ok (os (fe_req e)) = true
}.

Lemma reencrypt_stores base e st c h src dst cs :
  fm_ok base st -> sound_env base e -> calls_ok e -> fm_CAS st = Some c -> IsValidHash h = true ->
  aes_key_ok src = true -> aes_key_ok dst = true -> Forall good_chunk cs ->
  fs_data (fm_fs st) (Path c h) = Some (encode src cs) -> 33 * zlen (concat cs) <= disk_cap (fe_req e) ->
  exists st' cs' c', let new := encode dst cs' in
    reencrypt e st h src dst = (st', inr (content_hash new)) /\
    Forall good_chunk cs' /\ concat cs' = concat cs /\ fm_tab st' = fm_tab st /\ fm_CAS st' = Some c' /\
    BaseDir c' = BaseDir c /\
    fs_data (fm_fs st') (Path c h) = Some (encode src cs) /\
    (fm_fs st !! Path c (content_hash new) = None -> fs_data (fm_fs st') (Path c (content_hash new)) = Some new).
Proof.
  intros Hok He Hcalls Hc Hv Hsk Hdk Hcs Hdata Hroom. pose proof (ok_store _ _ Hok) as Hs. unfold store_ok in Hs.
  rewrite Hc in Hs. destruct Hs as (Hb & Hi & _). pose proof (se_temp _ _ He c Hb) as Hout.
  unfold reencrypt. rewrite Hc.
  assert (fs_read (os (fe_req e)) (fm_fs st) (Path c h) = Ok (encode src cs)) as ->.
  { unfold fs_data, fs_read in *. destruct (fm_fs st !! Path c h) as [x|]; [|done]. injection Hdata as <-.
    by rewrite (co_read _ Hcalls). }
  unfold NewDecryptStream. rewrite Hsk, (co_create _ Hcalls). cbn [negb].
  assert (NewEncryptStream ([] : bytes) dst = Ok (mkEnc [] dst)) as -> by (unfold NewEncryptStream; by rewrite Hdk).
  set (s := mkDec (os_file (encode src cs) 0) src []).
  assert (stream_at s (concat cs)) as Hst by (by apply stream_at_encode).
  destruct (copy_reencrypted_stream (seek_fuel s) (disk_cap (fe_req e)) dst [] s (concat cs) Hdk Hst) as (cs' & -> & Hcs' & Hpl).
  - by rewrite zlen_nil.
  - pose proof (seek_fuel_enough s). pose proof (zlen_encode src cs Hsk) as Hz. subst s. cbn [ds_r ds_buf os_file rd_data] in *.
    pose proof (zlen_nonneg cs). unfold zlen in *. cbn in *. lia.
  - cbn [es_w]. rewrite app_nil_l.
    set (st1 := with_store st (Some c) (put_tmp e (encode dst cs') (fm_fs st))).
    assert (fm_ok base st1) as Hok1 by (by apply put_tmp_ok).
    pose proof (ok_store _ _ Hok1) as Hs1. unfold store_ok in Hs1. cbn [fm_CAS st1 with_store] in Hs1.
    destruct Hs1 as (_ & Hi1 & _).
    assert (forall q, q <> reenc_path e -> fm_fs st1 !! q = fm_fs st !! q) as Hother.
    { intros q Hq. subst st1. cbn. unfold put_tmp. by rewrite lookup_insert_ne. }
    assert (forall x, IsValidHash x = true -> fm_fs st1 !! Path c x = fm_fs st !! Path c x) as Hblobs.
    { intros x Hx. apply Hother. intros Hq. by apply (Hout x). }
    destruct (move_stores (os (fe_req e)) c (fm_fs st1) (reenc_path e) (encode dst cs') Hi1 Hout (se_undo _ _ He)
      (co_mkdir _ Hcalls) (co_rename _ Hcalls) (co_read _ Hcalls) (co_remove _ Hcalls)) as
      (c1 & f1 & d & Hm & Hi2 & Hb2 & _ & _ & _ & blob & Hblob & Hbh & Hfresh).
    { subst st1. cbn. unfold put_tmp, fs_data. by rewrite lookup_insert_eq. }
    rewrite Hm. eexists _, cs', c1. split; [done|]. do 5 (split; [done|]). cbn [fm_fs with_store]. split.
    + pose proof (move_keeps _ _ _ _ _ _ _ Hi1 Hout Hm) as Hkeep.
      unfold fs_data in *. destruct (fm_fs st !! Path c h) as [x|] eqn:Hx; [|done].
      rewrite (Hkeep h x); [done|done|]. by rewrite Hblobs.
    + intros Hnone. rewrite Hblob. f_equal. apply Hfresh. rewrite Hblobs; [done|apply content_hash_valid].
Qed.

End Rekey.
