(* ===== verification/FileOpsProps.v ===== *)
(** * Properties of the file and folder operations

    Any sequence of requests keeps the state well-formed; deleting a folder
    trashes the user's files and cascades over everybody else's; emptying the
    trash is deleting its files one by one; moving a file across the border
    of the vault re-encrypts it; a locked vault refuses, except between its
    own folders; and one failed query opens the subfolders of the vault. *)

From S2P Require Import Prelude GoStrings FileSys CryptoPrims CryptoStream CryptoStreamFacts CAS CASProps UploadSession VaultTree Auth UploadCtrl UploadFacts FileDownload FileDownloadProps FileTable FileOps FileOpsFacts FileOpsInv FileTrash FileVault.

#[local] Open Scope string_scope.
#[local] Open Scope list_scope.
#[local] Open Scope Z_scope.

Section FileClaims.
Context `{CryptoLaws}.

(** ** Sequences of requests *)

Fixpoint fm_run (st : fm_state) (reqs : list (file_env * fm_op)) : option fm_state :=
  match reqs with
  | [] => Some st
  | (e, op) :: reqs' =>
      match fm_step e st op with
      | Some st' => fm_run st' reqs'
      | None => None
      end
  end.

Lemma fm_run_inv Q U base st reqs :
  fm_inv Q U base st -> Forall (fun r => run_env Q U base (fst r)) reqs ->
  exists st', fm_run st reqs = Some st' /\ fm_inv Q U base st'.
Proof.
  intros Hok Hreqs. revert st Hok. induction Hreqs as [|[e op] reqs He _ IH]; intros st Hok; cbn [fm_run]; [by exists st|].
  destruct (fm_step_inv Q U base e st op Hok He) as (st1 & -> & Hok1). by apply IH.
Qed.

(** C14: Any sequence of file and folder requests keeps the state well-formed.
    Whatever the queries, the writes, the transactions and the system calls
    of the requests answer, every handler returns and the folders stay a
    forest with unique identifiers.  If the queries all succeed, the next
    lookup of a folder in the vault is exact.  If the reference counts are
    read and no copy into the store is torn (and temporary files are outside
    the store), every blob has the hash it is filed under and every row
    refers to a stored blob, whatever else fails.  [failed_query_opens_vault]
    and [unread_count_loses_blob] show what else happens. *)
Theorem file_requests_keep_state base st reqs :
  fm_ok base st ->
  exists st', fm_run st reqs = Some st' /\
    tables_ok (fm_tab st') /\
    (Forall (fun r => can_query (fst r) = true) reqs ->
       forall e id, can_query e = true ->
         snd (in_vault_now e st' id) = true <-> in_vault (links_of (fm_tab st')) id) /\
    (Forall (fun r => count_ok (fst r) = true /\ copy_undoable (os (fe_req (fst r))) /\
                      forall c, BaseDir c = base -> outside_cas c (reenc_path (fst r))) reqs ->
       forall c, fm_CAS st' = Some c -> cas_inv c (fm_fs st') /\
         forall f, f ∈ tb_files (fm_tab st') -> IsValidHash (fr_cas (sf_row f)) = true ->
           has_blob c (fm_fs st') (fr_cas (sf_row f))).
Proof.
  intros Hok. set (Q := Forall _ reqs). set (U := Forall (fun r => count_ok (fst r) = true /\ _) reqs).
  assert (Forall (fun r => run_env Q U base (fst r)) reqs) as Hreqs.
  { apply Forall_forall. intros r Hr. split; [intros HQ|intros HU|intros HU|intros HU].
    all: first [unfold Q in HQ; rewrite Forall_forall in HQ; by apply HQ
               |unfold U in HU; rewrite Forall_forall in HU; by destruct (HU r Hr) as (? & ? & ?)]. }
  destruct (fm_run_inv Q U base st reqs (fm_ok_any Q U base st Hok) Hreqs) as (st' & Hrun & [Ht Hc Hs]).
  exists st'. split; [done|]. split; [done|]. split.
  - intros HQ e id Hq. destruct (in_vault_now_exact e st' id Ht (Hc HQ) Hq) as (c & b & -> & _ & Hb). exact Hb.
  - intros HU c Hcas. specialize (Hs HU). unfold store_ok in Hs. rewrite Hcas in Hs. apply Hs.
Qed.

(** ** Deleting a folder *)

(** C15: Deleting a folder, with nothing failing, removes exactly the folders
    at or below it, whoever owns them; the user's files in the user's part
    of that subtree are kept in the trash, at the top or in the vault's root;
    every other file of the subtree is lost through the cascade, and every
    file outside it is as before.  The search always ends. *)
Theorem delete_folder_trashes_subtree base e st id :
  fm_ok base st -> can_query e = true -> is_system id = false ->
  existsb (owned_folder id (user_of e)) (tb_folders (fm_tab st)) = true ->
  (in_vault (links_of (fm_tab st)) id -> unlocked e = true) ->
  begin_ok e = true -> can_exec e = true -> commit_ok e = true ->
  exists st' mine isVault,
    DeleteFolder e st id = Some (st', mkResp 200 [("status", JStr "folder_deleted")]) /\
    (isVault = true <-> in_vault (links_of (fm_tab st)) id) /\
    (forall x, x ∈ mine <-> rtc (user_child (fm_tab st) (user_of e)) id x) /\
    (forall f, f ∈ tb_folders (fm_tab st') <-> f ∈ tb_folders (fm_tab st) /\ fo_id f ∉ subtree (fm_tab st) id) /\
    (forall g, g ∈ tb_files (fm_tab st') <->
       exists f, f ∈ tb_files (fm_tab st) /\
         (in_folders mine (user_of e) f = true /\ g = trash_into (if isVault then Some "f2" else None) f \/
          in_folders mine (user_of e) f = false /\ g = f /\
            forall d, fr_folder (sf_row f) = Some d -> d ∉ subtree (fm_tab st) id)).
Proof.
  intros Hok Hq Hsys Hex Hun Hb Hx Hc. unfold DeleteFolder, folder_exists. rewrite Hsys, Hq, Hex. cbn [andb negb].
  destruct (vault_refuses e st id) as [st1 refused] eqn:Hv.
  apply (vault_refuses_ok base) in Hv as (Hok1 & (Htab & _) & Hr); [|done..].
  assert (refused = false) as -> by (destruct refused; [destruct Hr as [[Hi Hl] _]; [done|]; rewrite Hun in Hl|]; done).
  rewrite Htab. pose proof (ok_tables _ _ Hok) as Ht.
  assert (id ∈ folder_ids (fm_tab st)) as Hid.
  { apply existsb_owned_in in Hex as (f & Hf & <- & _). by apply list_elem_of_fmap_2. }
  destruct (collect_ends (fm_tab st) (user_of e) id Ht Hid) as (all & -> & _ & Hall & _). rewrite Hb. cbn [negb].
  destruct (in_vault_now e st1 id) as [st2 isVault] eqn:Hv.
  apply (in_vault_now_ok base) in Hv as (Hok2 & (Htab2 & _) & Hv); [|done..].
  rewrite Hc, Hx, Htab2, Htab. cbn [negb]. rewrite (delete_statements _ _ _ id) by done.
  exists (invalidate (with_tab st2 (folder_deleted isVault (user_of e) all id (fm_tab st)))), all, isVault.
  rewrite Htab in Hv. do 3 (split; [done|]). split.
  - intros f. cbn. by rewrite !list_elem_of_In, List.filter_In, negb_true_iff, bool_decide_eq_false.
  - intros g. cbn [folder_deleted drop_tables fm_tab invalidate with_cache with_tab tb_files].
    by apply kept_or_trashed.
Qed.

(** ** Emptying the trash *)

(** C16: With an unlocked vault and nothing failing, emptying the trash does
    what deleting its files one by one for good does: the tables and the
    store end up the same.  A blob is gone afterwards exactly when it was
    there and only trashed files of the user referred to it. *)
Theorem empty_trash_is_permanent_deletes e st :
  unlocked e = true -> begin_ok e = true -> can_query e = true -> can_exec e = true -> commit_ok e = true ->
  count_ok e = true -> NoDup (file_ids (fm_tab st)) ->
  let trash := List.filter (in_trash (user_of e)) (tb_files (fm_tab st)) in
  let st' := fst (EmptyTrash e st) in
  same_data st' (foldl (fun s f => fst (DeleteFile e s (fr_id (sf_row f)) "true")) st trash) /\
  fm_tab st' = fst (delete_files (in_trash (user_of e)) (fm_tab st)) /\
  (forall c h, fm_CAS st = Some c -> remove_ok (os (fe_req e)) = true -> IsValidHash h = true ->
     exists c', fm_CAS st' = Some c' /\
       (has_blob c' (fm_fs st') h <-> has_blob c (fm_fs st) h /\
          ((forall f, f ∈ tb_files (fm_tab st) -> in_trash (user_of e) f = true -> fr_cas (sf_row f) <> h) \/
           exists f, f ∈ tb_files (fm_tab st') /\ fr_cas (sf_row f) = h))).
Proof.
  intros Hu Hb Hq Hx Hc Hn Hnd trash st'.
  pose proof (EmptyTrash_data e st Hu Hb Hq Hx Hc Hn) as Hd. fold st' in Hd.
  assert (Htab : fm_tab st' = fst (delete_files (in_trash (user_of e)) (fm_tab st))).
  { change (fm_tab st') with (data_of st').1.1. by rewrite Hd, purge_tables. }
  split; [|split; [done|]].
  - pose proof (DeleteFiles_data e st trash Hu Hq Hx Hn Hnd) as Hdel.
    subst trash. rewrite (trash_rows_purge _ (user_of e)) in Hdel by done. rewrite <- Hd in Hdel.
    apply same_data_of, Hdel; [by apply trash_ids|]. intros f Hf.
    apply list_elem_of_In, List.filter_In in Hf as [Hf Ht]. rewrite list_elem_of_In. split; [done|].
    unfold in_trash in Ht. apply andb_true_iff in Ht as [Ht _]. lia.
  - intros c h Hcas Hr Hv. pose proof (purge_blob (os (fe_req e)) (in_trash (user_of e)) (fm_tab st) c (fm_fs st) h Hv Hr) as Hp.
    unfold data_of in Hd. rewrite Hcas in Hd. rewrite <- Hd in Hp. destruct Hp as (c1 & Hc1 & _ & Hiff).
    exists c1. split; [done|]. rewrite Hiff. by rewrite Htab, (not_released _ _ _ Hv).
Qed.

(** ** The locked vault *)

(** C17: As long as no query fails, a locked vault is out of reach.  Start
    with a cache of vault folders that is empty (as at the start of the
    program) or exact, and let any requests run, locked or unlocked, whose
    queries succeed (their writes and system calls may fail).  A request
    without an unlocked vault, its queries succeeding too, that is not a move
    then changes, adds or removes no file of the vault, no folder of it, and
    nothing of what belongs to it; and a move neither takes a file out of the
    vault or into it nor changes its contents.  [failed_query_opens_vault]
    shows what one failed query does. *)
Theorem locked_vault_untouched st0 reqs st e op st' :
  tables_ok (fm_tab st0) -> cache_ok (fm_tab st0) (fm_cache st0) ->
  Forall (fun r => can_query (fst r) = true) reqs -> fm_run st0 reqs = Some st ->
  can_query e = true -> unlocked e = false -> NoDup (file_ids (fm_tab st)) ->
  fm_step e st op = Some st' ->
  if is_move op then sides_kept (fm_tab st) (fm_tab st') else vault_kept (fm_tab st) (fm_tab st').
Proof.
  intros Ht0 Hc0 Hreqs Hrun Hq Hl Hnd Hstep.
  assert (ready st) as Hok.
  { apply (ready_inv ""). destruct (fm_run_inv True False "" st0 reqs) as (st1 & Hrun1 & Hok1).
    - by apply ready_inv.
    - eapply Forall_impl; [exact Hreqs|]. intros r Hr. by apply query_run_env.
    - congruence. }
  destruct (is_move op) eqn:Hm.
  - destruct op; try done; injection Hstep as <-.
    + by apply MoveFile_sides.
    + by apply MoveFilesBatch_sides.
  - by apply (locked_keeps e st op).
Qed.

(** Between two folders of the vault a locked session moves files
    freely: MoveFile answers 200 with the file's name and puts the file into
    the other folder. *)
Theorem locked_vault_reorders base e st id f target :
  fm_ok base st -> can_query e = true -> can_exec e = true -> unlocked e = false ->
  NoDup (file_ids (fm_tab st)) ->
  f ∈ tb_files (fm_tab st) -> owned_file id (user_of e) f = true -> active f = true ->
  target_folder target = target -> target <> "" -> file_folder f <> target ->
  in_vault (links_of (fm_tab st)) (file_folder f) -> in_vault (links_of (fm_tab st)) target ->
  existsb (owned_folder target (user_of e)) (tb_folders (fm_tab st)) = true ->
  existsb (name_taken (user_of e) target (fr_name (sf_row f)) id) (tb_files (fm_tab st)) = false ->
  let '(st', r) := MoveFile e st id (Some target) in
  r = moved id (fr_name (sf_row f)) target [("cas_hash", JStr (fr_cas (sf_row f)))] /\
  set_place (Some target) (fr_cas (sf_row f)) f ∈ tb_files (fm_tab st').
Proof.
  intros Hok Hq Hx Hl Hnd Hf Ho Ha Ht Hne Hsrc Hvs Hvt Hex Hnt. unfold MoveFile. rewrite Ht, Hq. cbn [negb].
  unfold select_file, folder_exists, file_exists. rewrite Hq.
  rewrite (find_row (fm_tab st) _ f); [|done|by rewrite Ho|].
  2:{ intros g Hg [[Hi%String.eqb_eq _]%andb_true_iff _]%andb_true_iff.
      apply andb_true_iff in Ho as [Hj%String.eqb_eq _]. apply (unique_row (fm_tab st)); congruence. }
  destruct (String.eqb_spec (file_folder f) target); [done|]. rewrite Hex, Hnt. destruct (String.eqb_spec target ""); [done|].
  cbn [negb andb].
  destruct (in_vault_now e st _) as [st1 b1] eqn:E1. apply (in_vault_now_ok base) in E1 as (Hok1 & (Ht1 & _) & Hb1); [|done..].
  destruct (in_vault_now e st1 _) as [st2 b2] eqn:E2. apply (in_vault_now_ok base) in E2 as (_ & (Ht2 & _) & Hb2); [|done..].
  rewrite Ht1 in Hb2, Ht2. apply Hb1 in Hvs as ->. apply Hb2 in Hvt as ->. cbn [Bool.eqb]. rewrite Hx. cbn [negb].
  split; [done|]. cbn. rewrite Ht2. apply list_elem_of_fmap. exists f. split; [|done]. rewrite Ho.
  unfold db_folder. by destruct (String.eqb_spec target "").
Qed.

(** A query that fails once opens the vault's subfolders.  When the folder
    query of a request fails while the cache is empty, the cache is marked
    valid with the vault's root alone; until a folder operation invalidates
    it, a locked session may delete the files of every other folder of the
    vault. *)
Theorem failed_query_opens_vault e st name parent clean e2 fid f :
  can_query e = false -> vaultCacheValid (fm_cache st) = false ->
  requested_name "Folder" name = inr clean -> is_system parent = false -> parent <> "" -> parent <> "root" ->
  can_query e2 = true -> can_exec e2 = true -> unlocked e2 = false -> NoDup (file_ids (fm_tab st)) ->
  f ∈ tb_files (fm_tab st) -> owned_file fid (user_of e2) f = true -> file_folder f <> "f2" ->
  let '(st1, r1) := CreateFolder e st (Some (name, parent)) in
  let '(st2, r2) := DeleteFile e2 st1 fid "" in
  r1 = http_error 400 "Invalid parent folder" /\
  r2 = mkResp 200 [("status", JStr "trashed")] /\ set_deleted true f ∈ tb_files (fm_tab st2).
Proof.
  intros Hq Hc Hname Hsys Hp Hroot Hq2 Hx2 Hl2 Hnd Hf Ho Hne.
  rewrite (create_poisons e st name parent clean) by done. unfold DeleteFile, folder_of_file, select_file. rewrite Hq2.
  cbn [fm_tab with_cache]. rewrite (find_row (fm_tab st) _ f); [|done|done|].
  2:{ intros g Hg [Hi%String.eqb_eq _]%andb_true_iff. apply andb_true_iff in Ho as [Hj%String.eqb_eq _].
      apply (unique_row (fm_tab st)); congruence. }
  cbn [from_option]. rewrite poisoned_refuses by done. cbn [String.eqb]. rewrite Hx2. cbn [negb update_files fm_tab with_cache].
  assert (f ∈ List.filter (owned_file fid (user_of e2)) (tb_files (fm_tab st))) as Hin.
  { apply list_elem_of_In, List.filter_In. by rewrite <- list_elem_of_In. }
  destruct (List.filter _ _) as [|x l]; [by apply not_elem_of_nil in Hin|]. rewrite zlen_cons.
  pose proof (zlen_nonneg l). destruct (Z.eqb_spec (1 + zlen l) 0); [lia|]. do 2 (split; [done|]).
  cbn. apply list_elem_of_fmap. exists f. by rewrite Ho.
Qed.

(** A reference count that cannot be read counts as none: deleting a file for
    good, whose blob other rows refer to as well, then removes the blob. *)
Theorem unread_count_loses_blob e st c id f g :
  count_ok e = false -> can_query e = true -> can_exec e = true -> unlocked e = true ->
  remove_ok (os (fe_req e)) = true -> NoDup (file_ids (fm_tab st)) -> fm_CAS st = Some c ->
  f ∈ tb_files (fm_tab st) -> owned_file id (user_of e) f = true -> IsValidHash (fr_cas (sf_row f)) = true ->
  g ∈ tb_files (fm_tab st) -> fr_id (sf_row g) <> id -> fr_cas (sf_row g) = fr_cas (sf_row f) ->
  let '(st', r) := DeleteFile e st id "true" in
  r = mkResp 200 [("status", JStr "permanently_deleted")] /\ g ∈ tb_files (fm_tab st') /\
  fm_fs st' !! Path c (fr_cas (sf_row g)) = None.
Proof.
  intros Hn Hq Hx Hu Hr Hnd Hc Hf Ho Hv Hg Hne He. unfold DeleteFile, vault_refuses.
  destruct (in_vault_now e st _) as [st1 b] eqn:Hin. rewrite Hu, andb_false_r.
  assert (exists k, st1 = with_cache st k) as [k ->].
  { unfold in_vault_now in Hin. destruct (IsVaultFolder _ _ _) as [k b']. injection Hin as <- _. by exists k. }
  cbn [String.eqb]. change (String.eqb "true" "true") with true. cbn iota. rewrite Hx. cbn [negb delete_files fm_tab with_cache].
  assert (f ∈ List.filter (owned_file id (user_of e)) (tb_files (fm_tab st))) as Hinf.
  { apply list_elem_of_In, List.filter_In. by rewrite <- list_elem_of_In. }
  destruct (List.filter (owned_file id (user_of e)) (tb_files (fm_tab st))) as [|x l] eqn:Hfl; [by apply not_elem_of_nil in Hinf|].
  rewrite zlen_cons. pose proof (zlen_nonneg l). destruct (Z.eqb_spec (1 + zlen l) 0); [lia|].
  unfold select_file. rewrite Hq. cbn [fm_tab with_cache]. rewrite (find_row (fm_tab st) _ f); [|done|done|].
  2:{ intros g' Hg' [Hi%String.eqb_eq _]%andb_true_iff. apply andb_true_iff in Ho as [Hj%String.eqb_eq _].
      apply (unique_row (fm_tab st)); congruence. }
  cbn [from_option]. rewrite Hv. destruct (String.eqb_spec (fr_cas (sf_row f)) "") as [Hemp|_]; [by rewrite Hemp in Hv|].
  cbn [negb andb]. unfold release_blob. cbn [fm_CAS with_tab with_cache]. rewrite Hc, Hn. cbn. split; [done|]. split.
  - apply list_elem_of_In, List.filter_In. rewrite <- list_elem_of_In. split; [done|]. apply negb_true_iff, andb_false_iff. left.
    by apply String.eqb_neq.
  - rewrite He. unfold fs_remove. rewrite Hr. apply lookup_delete_eq.
Qed.

(** ** Across the border of the vault *)

(** C18: Moving a file into the vault, or out of it, re-encrypts it: with an
    unlocked vault and nothing failing the row gets the folder and the hash
    of a new blob, which holds the same plaintext under the other key and so
    is what a download of the moved file delivers.  The old blob, under the
    old key, stays in the store. *)
Theorem move_across_vault_rekeys base e st c id f target isSrc data cs :
  fm_ok base st -> sound_env base e -> calls_ok e -> can_exec e = true -> unlocked e = true ->
  fm_CAS st = Some c -> NoDup (file_ids (fm_tab st)) ->
  f ∈ tb_files (fm_tab st) -> owned_file id (user_of e) f = true -> active f = true ->
  target_folder target = target -> target <> "" -> file_folder f <> target ->
  (isSrc = true <-> in_vault (links_of (fm_tab st)) (file_folder f)) ->
  (isSrc = false <-> in_vault (links_of (fm_tab st)) target) ->
  existsb (owned_folder target (user_of e)) (tb_folders (fm_tab st)) = true ->
  existsb (name_taken (user_of e) target (fr_name (sf_row f)) id) (tb_files (fm_tab st)) = false ->
  let src := if isSrc then session_key e else std_key e in
  let dst := if isSrc then std_key e else session_key e in
  IsValidHash (fr_cas (sf_row f)) = true -> aes_key_ok dst = true -> session_key e <> [] ->
  fs_data (fm_fs st) (Path c (fr_cas (sf_row f))) = Some data -> stored_chunks (sf_row f) src data cs ->
  33 * zlen (concat cs) <= disk_cap (fe_req e) ->
  exists st' h cs' c',
    MoveFile e st id (Some target) =
      (st', moved id (fr_name (sf_row f)) target [("cas_hash", JStr h)]) /\
    set_place (Some target) h f ∈ tb_files (fm_tab st') /\
    fm_CAS st' = Some c' /\ h = content_hash (encode dst cs') /\
    stored_chunks (sf_row (set_place (Some target) h f)) dst (encode dst cs') cs' /\ concat cs' = concat cs /\
    (fm_fs st !! Path c h = None -> fs_data (fm_fs st') (Path c' h) = Some (encode dst cs')) /\
    fs_data (fm_fs st') (Path c' (fr_cas (sf_row f))) = Some data.
Proof.
  intros Hok He Hcalls Hx Hu Hc Hnd Hf Ho Ha Ht Hne Hsrc Hvs Hvt Hex Hnt src dst Hv Hdk Hkey Hdata
    (Hsk & Hcs & Hcne & -> & Hsz) Hroom.
  pose proof (se_query _ _ He) as Hq. unfold MoveFile, select_file, folder_exists, file_exists. rewrite Ht, Hq. cbn [negb].
  rewrite (find_row (fm_tab st) _ f); [|done|by rewrite Ho|].
  2:{ intros g Hg [[Hi%String.eqb_eq _]%andb_true_iff _]%andb_true_iff.
      apply andb_true_iff in Ho as [Hj%String.eqb_eq _]. apply (unique_row (fm_tab st)); congruence. }
  destruct (String.eqb_spec (file_folder f) target); [done|]. rewrite Hex, Hnt.
  destruct (String.eqb_spec target ""); [done|]. cbn [negb andb].
  destruct (in_vault_now e st _) as [st1 b1] eqn:E1. apply (in_vault_now_ok base) in E1 as (Hok1 & (Ht1 & Hc1 & Hf1) & Hb1); [|done..].
  destruct (in_vault_now e st1 _) as [st2 b2] eqn:E2. apply (in_vault_now_ok base) in E2 as (Hok2 & (Ht2 & Hc2 & Hf2) & Hb2); [|done..].
  rewrite Ht1 in Hb2. assert (b1 = isSrc /\ b2 = negb isSrc) as [-> ->].
  { destruct b1, b2, isSrc; cbn; intuition congruence. }
  assert (Bool.eqb isSrc (negb isSrc) = false) as -> by (by destruct isSrc). rewrite Hu. cbn [negb].
  destruct (Z.eqb_spec (zlen (session_key e)) 0) as [Hz|_]; [by apply zlen_pos in Hkey; lia|].
  destruct (reencrypt_stores base e st2 c (fr_cas (sf_row f)) src dst cs Hok2 He Hcalls) as
    (st3 & cs' & c' & Hre & Hcs' & Hpl & Ht3 & Hc3 & Hb3 & Hold & Hnew); try done; [congruence..|].
  change (if isSrc then session_key e else std_key e) with src.
  change (if isSrc then std_key e else session_key e) with dst. rewrite Hre, Hx. cbn [negb]. assert (forall x, Path c' x = Path c x) as Hpath by (intros x; unfold Path; by rewrite Hb3).
  eexists _, _, cs', c'. split; [done|]. split.
  { cbn. rewrite Ht3, Ht2, Ht1. apply list_elem_of_fmap. exists f. rewrite Ho. split; [|done].
    unfold db_folder. by destruct (String.eqb_spec target ""). }
  split; [done|]. split; [done|]. split.
  { split; [done|]. split; [done|]. cbn. rewrite Hpl. split; [|done]. intros ->.
    destruct cs as [|x cs]; [done|]. apply Forall_cons in Hcs as [[Hxne _] _]. cbn in Hpl. by destruct x. }
  split; [done|]. rewrite !Hpath. cbn [fm_fs with_tab]. split; [|done]. intros Hfresh. apply Hnew. congruence.
Qed.

End FileClaims.

(** ** Witnesses *)

Section FileWitnesses.
Import ToyCrypto.

Definition w_std : bytes := replicate 32 7.
Definition w_vault : bytes := replicate 32 9.
Definition w_chunks : list bytes := [[1; 2; 3]; [4; 5]].
Definition w_blob : bytes := encode w_std w_chunks.
Definition w_hash : string := content_hash w_blob.

(** Folders "a" and "b" in the vault; "d" with "e" (the user's) and "g"
    (another user's) below it. *)
Definition w_folders : list folder_row :=
  [mkFolder "f1" 1 None "Docs"; mkFolder "f2" 1 None "Vault"; mkFolder "f3" 1 None "Media";
   mkFolder "a" 1 (Some "f2") "a"; mkFolder "b" 1 (Some "f2") "b"; mkFolder "d" 1 None "d";
   mkFolder "e" 1 (Some "d") "e"; mkFolder "g" 2 (Some "d") "g"].

Definition w_file (id : string) (owner : Z) (folder : string) (deleted : bool) : stored_file :=
  mkStored (mkRow id owner (Some folder) (id +:+ ".bin") "application/octet-stream" 5 w_hash "" deleted) false.

Definition w_files : list stored_file :=
  [w_file "x1" 1 "d" false; w_file "x2" 1 "a" false; w_file "x3" 2 "g" false; w_file "x4" 1 "e" true].

Definition w_cas : CASEngine := mkCAS "cas" ∅.

Definition w_state : fm_state :=
  mkFM (mkTables w_folders w_files) (Some w_cas) {[Path w_cas w_hash := mkFile w_blob 0]} (mkVaultCache ∅ [] false).

(** A request of user 1, with or without a vault session. *)
Definition w_env (open query : bool) : file_env :=
  mkFEnv
    (mkReqEnv (env_fine 5) (replicate 16 1)
       (mkStore {["s" := mkEntry 1%nat 100]} {[1%nat := w_vault]})
       (if open then Some "s" else None) None None false (Some w_std) 0 query true true 1000 (fun l => l))
    true true true "tmp/r".

Lemma w_ok : fm_ok "cas" w_state.
Proof.
  split; [by apply tables_okb_ok; vm_compute|by intros ?|]. unfold store_ok. cbn [fm_CAS w_state fm_fs fm_tab].
  split; [done|]. split.
  - split; [|intros h Hh; by apply elem_of_empty in Hh]. intros h f Hv [Hp <-]%lookup_singleton_Some.
    apply Path_inj in Hp as <-; [done|apply content_hash_valid|done].
  - intros f Hf _. assert (fr_cas (sf_row f) = w_hash) as ->.
    { change (f ∈ w_files) in Hf. unfold w_files in Hf. rewrite !elem_of_cons in Hf.
      destruct Hf as [->|[->|[->|[->|?%not_elem_of_nil]]]]; done. }
    unfold has_blob. by rewrite lookup_singleton_eq.
Qed.

Lemma w_sound open : sound_env "cas" (w_env open true).
Proof.
  split; [by destruct open|done|by left|]. intros [b cache] Hb. cbn in Hb. subst b. by apply toy_outside.
Qed.

Lemma w_ids : NoDup (file_ids (fm_tab w_state)).
Proof. apply (bool_decide_unpack _). by vm_compute. Qed.

Lemma w_vault_b id : id ∈ ["a"; "b"] -> in_vault (links_of (mkTables w_folders w_files)) id.
Proof.
  intros Hid. apply rtc_once, links_child. split; [done|]. rewrite !elem_of_cons in Hid.
  destruct Hid as [->|[->|?%not_elem_of_nil]]; [exists (mkFolder "a" 1 (Some "f2") "a")|exists (mkFolder "b" 1 (Some "f2") "b")|done];
    (split; [|done]); cbn; unfold w_folders; rewrite !elem_of_cons; tauto.
Qed.

Lemma w_vault_d : ~ in_vault (links_of (mkTables w_folders w_files)) "d".
Proof.
  intros Hv. apply rtc_inv_r in Hv as [He|(p & _ & Hp)]; [done|]. apply links_child in Hp as (_ & f & Hf & Hi & Hp).
  cbn in Hf. unfold w_folders in Hf. rewrite !elem_of_cons in Hf.
  destruct Hf as [->|[->|[->|[->|[->|[->|[->|[->|?%not_elem_of_nil]]]]]]]]; done.
Qed.

Lemma file_requests_keep_state_witness :
  exists st', fm_run w_state [(w_env true true, OpDeleteFolder "d"); (w_env false true, OpEmptyTrash)] = Some st' /\
    tables_ok (fm_tab st') /\
    (snd (in_vault_now (w_env false true) st' "d") = true <-> in_vault (links_of (fm_tab st')) "d") /\
    forall c, fm_CAS st' = Some c -> cas_inv c (fm_fs st').
Proof.
  destruct (file_requests_keep_state "cas" w_state
    [(w_env true true, OpDeleteFolder "d"); (w_env false true, OpEmptyTrash)] w_ok) as (st' & H1 & H2 & H3 & H4).
  exists st'. split; [exact H1|]. split; [exact H2|]. split.
  - apply H3; [|reflexivity]. by repeat constructor.
  - assert (forall open, count_ok (w_env open true) = true /\ copy_undoable (os (fe_req (w_env open true))) /\
      forall c, BaseDir c = "cas" -> outside_cas c (reenc_path (w_env open true))) as Hw.
    { intros open. destruct (w_sound open) as [_ Hn Hu Ht]. split; [exact Hn|]. split; [exact Hu|exact Ht]. }
    intros c Hc. refine (proj1 (H4 _ c Hc)). constructor; [apply Hw|]. constructor; [apply Hw|constructor].
Defined.

Lemma delete_folder_trashes_subtree_witness :
  exists st' isVault, DeleteFolder (w_env true true) w_state "d" = Some (st', mkResp 200 [("status", JStr "folder_deleted")]) /\
    trash_into (if isVault : bool then Some "f2" else None) (w_file "x1" 1 "d" false) ∈ tb_files (fm_tab st') /\
    w_file "x3" 2 "g" false ∉ tb_files (fm_tab st').
Proof.
  destruct (delete_folder_trashes_subtree "cas" (w_env true true) w_state "d" w_ok) as
    (st' & mine & isVault & H1 & _ & Hm & _ & Hf); [reflexivity..|].
  exists st', isVault. split; [exact H1|]. split.
  - apply Hf. exists (w_file "x1" 1 "d" false). split; [by left|]. left. split; [|reflexivity].
    unfold in_folders. cbn. apply bool_decide_eq_true, Hm, rtc_refl.
  - intros Hin. apply Hf in Hin as (f & Hin & [[_ He]|(_ & He & Hd)]).
    + cbn in He. discriminate.
    + subst f. apply (Hd "g"); [reflexivity|]. apply (bool_decide_unpack _). by vm_compute.
Defined.

Lemma empty_trash_is_permanent_deletes_witness :
  let st' := fst (EmptyTrash (w_env true true) w_state) in
  same_data st' (fst (DeleteFile (w_env true true) w_state "x4" "true")).
Proof.
  destruct (empty_trash_is_permanent_deletes (w_env true true) w_state) as [H _]; [reflexivity..|apply w_ids|].
  exact H.
Defined.

Lemma locked_vault_untouched_witness :
  exists st, fm_run w_state [(w_env true true, OpDeleteFile "x1" "")] = Some st /\
    vault_kept (fm_tab st) (fm_tab (fst (DeleteFile (w_env false true) st "x2" "true"))).
Proof.
  eexists. split; [reflexivity|].
  apply (locked_vault_untouched w_state [(w_env true true, OpDeleteFile "x1" "")] _ (w_env false true) (OpDeleteFile "x2" "true")).
  - apply w_ok.
  - apply w_ok.
  - by repeat constructor.
  - reflexivity.
  - reflexivity.
  - reflexivity.
  - apply (bool_decide_unpack _). by vm_compute.
  - reflexivity.
Defined.

Lemma locked_vault_reorders_witness :
  exists st' r, MoveFile (w_env false true) w_state "x2" (Some "b") = (st', r) /\
    set_place (Some "b") w_hash (w_file "x2" 1 "a" false) ∈ tb_files (fm_tab st').
Proof.
  pose proof (locked_vault_reorders "cas" (w_env false true) w_state "x2" (w_file "x2" 1 "a" false) "b" w_ok
    eq_refl eq_refl eq_refl w_ids ltac:(right; left) eq_refl eq_refl eq_refl ltac:(discriminate) ltac:(discriminate)
    (w_vault_b "a" ltac:(left)) (w_vault_b "b" ltac:(right; left)) eq_refl eq_refl) as H.
  destruct (MoveFile (w_env false true) w_state "x2" (Some "b")) as [st' r]. exists st', r.
  split; [reflexivity|exact (proj2 H)].
Defined.

Lemma unread_count_loses_blob_witness :
  exists st', fst (DeleteFile (mkFEnv (fe_req (w_env true true)) true true false "tmp/r") w_state "x1" "true") = st' /\
    w_file "x2" 1 "a" false ∈ tb_files (fm_tab st') /\ fm_fs st' !! Path w_cas w_hash = None.
Proof.
  pose proof (unread_count_loses_blob (mkFEnv (fe_req (w_env true true)) true true false "tmp/r") w_state w_cas "x1"
    (w_file "x1" 1 "d" false) (w_file "x2" 1 "a" false) eq_refl eq_refl eq_refl eq_refl eq_refl w_ids eq_refl
    ltac:(left) eq_refl eq_refl ltac:(right; left) ltac:(discriminate) eq_refl) as H.
  destruct (DeleteFile _ w_state "x1" "true") as [st' r]. exists st'. split; [reflexivity|]. exact (proj2 H).
Defined.

Lemma failed_query_opens_vault_witness :
  snd (DeleteFile (w_env false true) (fst (CreateFolder (w_env false false) w_state (Some ("n", "a")))) "x2" "")
  = mkResp 200 [("status", JStr "trashed")].
Proof.
  pose proof (failed_query_opens_vault (w_env false false) w_state "n" "a" "n" (w_env false true) "x2"
    (w_file "x2" 1 "a" false) eq_refl eq_refl eq_refl eq_refl ltac:(discriminate) ltac:(discriminate)
    eq_refl eq_refl eq_refl w_ids ltac:(right; left) eq_refl ltac:(discriminate)) as H.
  destruct (CreateFolder (w_env false false) w_state (Some ("n", "a"))) as [st1 r1]. cbn [fst].
  destruct (DeleteFile (w_env false true) st1 "x2" "") as [st2 r2]. exact (proj1 (proj2 H)).
Defined.

Lemma move_across_vault_rekeys_witness :
  exists st' h, MoveFile (w_env true true) w_state "x1" (Some "a") =
    (st', moved "x1" "x1.bin" "a" [("cas_hash", JStr h)]).
Proof.
  destruct (move_across_vault_rekeys "cas" (w_env true true) w_state w_cas "x1" (w_file "x1" 1 "d" false) "a" false
    w_blob w_chunks w_ok (w_sound true)) as (st' & h & _ & _ & H & _); try reflexivity.
  - by split.
  - apply w_ids.
  - by left.
  - discriminate.
  - discriminate.
  - split; [done|]. intros Hv. by apply w_vault_d in Hv.
  - split; [intros _; apply w_vault_b; left|done].
  - discriminate.
  - split; [reflexivity|]. split; [|split; [done|by split]].
    repeat constructor; try done; vm_compute; discriminate.
  - vm_compute. discriminate.
  - exists st', h. exact H.
Defined.

End FileWitnesses.
