(* ===== verification/PanicPurge.v ===== *)
(** * Panic purge (internal/controllers/security_controller.go)

    The keys of the vault sessions are wiped, downloads cancelled, every file
    below the store, the thumbnails and the temporary directories
    overwritten and unlinked, the empty directories pruned, the tables
    emptied and the upload sessions dropped.  Directories are a set of paths
    beside the files; every file operation may fail, per path. *)

From S2P Require Import Prelude GoStrings FileSys CryptoPrims CAS PoW UploadSession VaultTree Auth UploadCtrl DownloadTasks.

#[local] Open Scope string_scope.
#[local] Open Scope list_scope.
#[local] Open Scope Z_scope.

(** ** Shredding *)

(** What the operating system answers for each path: whether it opens for
    writing, stats, truncates and unlinks, and [Some n] if a write fails
    once [n] bytes are written; [noise] are the random bytes. *)
Record shred_env := mkShred {
  sh_open : string -> bool;
  sh_stat : string -> bool;
  sh_fails : string -> option Z;
  sh_truncate : string -> bool;
  sh_remove : string -> bool;
  noise : string -> Z -> Z
}.

(** [toWrite] random bytes at [written]. *)
Definition noise_at (e : shred_env) (path : string) (written toWrite : Z) : bytes :=
  map (fun i => noise e path (written + Z.of_nat i)) (seq 0 (Z.to_nat toWrite)).

(** How much of a write reaches the file. *)
Definition accepted (e : shred_env) (path : string) (written toWrite : Z) : Z :=
  match sh_fails e path with
  | Some k => Z.max 0 (Z.min toWrite (k - written))
  | None => toWrite
  end.

(** The overwriting loop; [buf] is the length of the buffer. *)
Fixpoint overwrite (fuel : nat) (e : shred_env) (path : string) (buf written size : Z) (data : bytes) : bytes :=
  match fuel with
  | O => data
  | S f =>
      if written <? size then
        let toWrite := if size - written <? buf then size - written else buf in
        let n := accepted e path written toWrite in
        let data' := ztake written data ++ noise_at e path written n ++ zdrop (written + n) data in
        if (n <? toWrite) || (n <=? 0) then data'
        else overwrite f e path buf (written + n) size data'
      else data
  end.

Definition unlink (e : shred_env) (path : string) (f : FS) : FS :=
  if sh_remove e path then delete path f else f.

Definition shredFile (e : shred_env) (buf : Z) (path : string) (f : FS) : FS :=
  match f !! path with
  | None => f
  | Some x =>
      if negb (sh_open e path) || negb (sh_stat e path) then unlink e path f
      else
        let data := overwrite (S (length (f_data x))) e path buf 0 (zlen (f_data x)) (f_data x) in
        let data := if sh_truncate e path then [] else data in
        unlink e path (<[path := mkFile data (f_mtime x)]> f)
  end.

(** ** Walking a directory *)

(** [p] lies below [root]. *)
Definition below (root p : string) : bool := HasPrefix p (root +:+ String slash "").

(** The files a walk of [root] meets; the order is of no consequence. *)
Definition walk_files (f : FS) (root : string) : list string :=
  List.filter (fun p => below root p || String.eqb p root) (map_to_list f).*1.

Definition shredDirectoryFiles (e : shred_env) (buf : Z) (root : string) (f : FS) : FS :=
  if String.eqb root "" then f
  else foldl (fun f p => shredFile e buf p f) f (walk_files f root).

(** A directory with neither a file nor a directory in it. *)
Definition empty_dir (f : FS) (dirs : gset string) (d : string) : bool :=
  forallb (fun p => negb (below d p)) (map_to_list f).*1 && forallb (fun p => negb (below d p)) (elements dirs).

Definition longer (a b : string) : Prop := (String.length b <= String.length a)%nat.

#[export] Instance longer_dec : RelDecision longer.
Proof. intros a b. unfold longer. apply _. Defined.

(** [os.Remove] of a directory succeeds only when it is empty. *)
Definition remove_dir (e : shred_env) (f : FS) (dirs : gset string) (d : string) : gset string :=
  if sh_remove e d && empty_dir f dirs d then dirs ∖ {[d]} else dirs.

Definition pruneEmptyDirs (e : shred_env) (f : FS) (root : string) (dirs : gset string) : gset string :=
  if String.eqb root "" then dirs
  else foldl (remove_dir e f) dirs (merge_sort longer (List.filter (below root) (elements dirs))).

(** ** The handler *)

(** The controllers share the store, its files and the tables: they are in
    [pg_uc]; the download manager adds its tasks and directory. *)
Record purge_state := mkPurge {
  pg_vault : SessionStore;
  pg_uc : uc_state;
  pg_dlTmp : string;
  pg_objs : gmap nat DownloadTask;
  pg_tasks : gmap string nat;
  pg_dirs : gset string;
  pg_TmpDir : string
}.

(** The request and what the world answers during it: the cookie, the clock,
    the verification of the password, the scrubbing of keys, and whether
    the two statements succeed. *)
Record purge_env := mkPEnv {
  pe_now : Z;
  pe_cookie : option string;
  pe_rand : bytes;
  pe_mockFn : option (string -> option bytes);
  pe_users : option (gmap Z user_row);
  pe_scrub : key_ref -> bytes;
  pe_shred : shred_env;
  pe_delete_files : bool;
  pe_delete_folders : bool;
  pe_os : os_env
}.

Definition with_files (st : purge_state) (f : FS) (dirs : gset string) : purge_state :=
  mkPurge (pg_vault st) (set_fs (pg_uc st) f) (pg_dlTmp st) (pg_objs st) (pg_tasks st) dirs (pg_TmpDir st).

Definition with_uc (st : purge_state) (u : uc_state) : purge_state :=
  mkPurge (pg_vault st) u (pg_dlTmp st) (pg_objs st) (pg_tasks st) (pg_dirs st) (pg_TmpDir st).

(** [shredDirectoryFiles(root, chunk)] followed by [pruneEmptyDirs(root)]. *)
Definition purge_dir (e : purge_env) (root : string) (st : purge_state) : purge_state :=
  let f := shredDirectoryFiles (pe_shred e) (1024 * 1024) root (fs (pg_uc st)) in
  with_files st f (pruneEmptyDirs (pe_shred e) f root (pg_dirs st)).

(** DELETE FROM files; DELETE FROM folders WHERE id NOT IN ('f1', 'f2', 'f3'),
    with the cascades of the latter. *)
Definition delete_all_files (ok : bool) (d : database) : database :=
  if ok then mkDB (folders d) [] else d.

Definition system_ids : list string := ["f1"; "f2"; "f3"].

Definition doomed_folders (d : database) : gset string :=
  let links := query_links (folders d) in
  let ids := List.filter (fun i => negb (bool_decide (i ∈ system_ids))) (folders d).*1 in
  fst (bfs (length ids + bfs_fuel links) (childrenMap links) (list_to_set ids) ids ids).

Definition delete_user_folders (ok : bool) (d : database) : database :=
  if ok then
    let gone := doomed_folders d in
    mkDB (List.filter (fun r => negb (bool_decide (fst r ∈ gone))) (folders d))
      (List.filter (fun r => negb (match fr_folder r with Some x => bool_decide (x ∈ gone) | None => false end))
         (files d))
  else d.

Section Panic.
Context `{CryptoPrims} `{MetaCodec}.

Definition authenticate (e : purge_env) (s : SessionStore) (password : string) : SessionStore * bool :=
  match pe_cookie e with
  | Some v => if HasKey (pe_now e) s v then (s, true)
              else if String.eqb password "" then (s, false)
              else VerifyMasterPassword (pe_now e) (pe_rand e) (pe_mockFn e) (pe_users e) s password
  | None => if String.eqb password "" then (s, false)
            else VerifyMasterPassword (pe_now e) (pe_rand e) (pe_mockFn e) (pe_users e) s password
  end.

(** Step 2: the tasks. *)
Definition cancel_downloads (e : purge_env) (st : purge_state) : purge_state :=
  let d := CancelAllTasks (pe_now e)
             (mkDM (pg_dlTmp st) (Cas (pg_uc st)) (DB (pg_uc st)) (fs (pg_uc st)) (pg_objs st) (pg_tasks st)) in
  mkPurge (pg_vault st) (pg_uc st) (pg_dlTmp st) (dm_objs d) (dm_tasks d) (pg_dirs st) (pg_TmpDir st).

(** Step 3: the store. *)
Definition purge_store (e : purge_env) (st : purge_state) : purge_state :=
  if String.eqb (BaseDir (Cas (pg_uc st))) "" then st
  else
    let st1 := purge_dir e (BaseDir (Cas (pg_uc st))) st in
    with_uc st1 (set_cas (pg_uc st1) (ClearCache (Cas (pg_uc st1))) (fs (pg_uc st1))).

(** Step 4: the tables and the cache of vault folders. *)
Definition purge_tables (e : purge_env) (st : purge_state) : purge_state :=
  let u := pg_uc st in
  let db := (fun d => delete_user_folders (pe_delete_folders e) (delete_all_files (pe_delete_files e) d)) <$> DB u in
  with_uc st (mkUC (SessionMgr u) (Cas u) (fs u) (powStore u) (completedSessions u) db
                (InvalidateVaultCache <$> FileCtrl u) (published u)).

(** Steps 5 and 6: thumbnails and temporary directories. *)
Definition purge_temps (e : purge_env) (st : purge_state) : purge_state :=
  let st1 := purge_dir e "storage/thumbnails" st in
  let st2 := if String.eqb (pg_TmpDir st1) "" then st1 else purge_dir e (pg_TmpDir st1) st1 in
  if String.eqb (pg_dlTmp st2) "" || String.eqb (pg_dlTmp st2) (pg_TmpDir st2) then st2
  else purge_dir e (pg_dlTmp st2) st2.

(** Step 7: the upload sessions; the manager is purged twice. *)
Definition purge_sessions (e : purge_env) (st : purge_state) : purge_state :=
  let u := pg_uc st in
  let '(sm, f, _) := PurgeAll (pe_os e) (SessionMgr u) (fs u) in
  with_uc st (PurgeAllSessions (pe_os e) (set_sm u sm f)).

Definition PanicPurge (e : purge_env) (st : purge_state) (password : string) : purge_state * resp :=
  let '(s, authenticated) := authenticate e (pg_vault st) password in
  let st := mkPurge s (pg_uc st) (pg_dlTmp st) (pg_objs st) (pg_tasks st) (pg_dirs st) (pg_TmpDir st) in
  if negb authenticated then
    (st, http_error 401 "Authentication failed. Master password or active vault session required for panic purge.")
  else
    let st := mkPurge (Purge (pe_scrub e) s) (pg_uc st) (pg_dlTmp st) (pg_objs st) (pg_tasks st) (pg_dirs st)
                (pg_TmpDir st) in
    (purge_sessions e (purge_temps e (purge_tables e (purge_store e (cancel_downloads e st)))),
     mkResp 200 [("status", JStr "purged");
                 ("message", JStr "Vault permanently shredded and database synchronized.")]).

End Panic.
