(* ===== verification/PanicPurgeProps.v ===== *)
(** * Properties of the panic purge

    Shredding leaves no plaintext even where unlinking fails, pruning removes
    every directory that is left empty, and a purge that is authenticated
    destroys what it is meant to and nothing else. *)

From S2P Require Import Prelude GoStrings FileSys CryptoPrims CAS PoW UploadSession UploadSessionProps VaultTree Auth UploadCtrl DownloadTasks DownloadTasksProps PanicPurge.

#[local] Open Scope string_scope.
#[local] Open Scope list_scope.
#[local] Open Scope Z_scope.

(** ** Paths *)

Lemma below_inv root p : below root p = true -> exists r, p = root +:+ String slash r.
Proof.
  unfold below. intros [r ->]%HasPrefix_inv. exists r. by rewrite str_app_assoc.
Qed.

Lemma below_app root r : below root (root +:+ String slash r) = true.
Proof.
  unfold below. change (String slash r) with (String slash "" +:+ r). rewrite <- str_app_assoc. apply HasPrefix_app.
Qed.

Lemma below_trans a b c : below a b = true -> below b c = true -> below a c = true.
Proof.
  intros [r ->]%below_inv [q ->]%below_inv. rewrite str_app_assoc. apply below_app.
Qed.

Lemma below_longer d p : below d p = true -> (String.length d < String.length p)%nat.
Proof. intros [r ->]%below_inv. rewrite length_str_app. cbn. lia. Qed.

(** ** Shredding one file *)

Lemma noise_at_len e path a n : 0 <= n -> zlen (noise_at e path a n) = n.
Proof. intros Hn. unfold noise_at, zlen. rewrite length_map, length_seq. lia. Qed.

Lemma noise_at_app e path a n m :
  0 <= n -> 0 <= m -> noise_at e path a (n + m) = noise_at e path a n ++ noise_at e path (a + n) m.
Proof.
  intros Hn Hm. unfold noise_at. rewrite Z2Nat.inj_add, seq_app, map_app by lia. f_equal.
  rewrite <- (Nat.add_0_r (0 + Z.to_nat n)) at 1. rewrite <- fmap_add_seq, map_map. apply map_ext.
  intros i. f_equal. lia.
Qed.

(** With no write failing the whole file is random. *)
Lemma overwrite_all fuel e path buf written data0 :
  sh_fails e path = None -> 0 < buf -> 0 <= written <= zlen data0 ->
  zlen data0 - written < Z.of_nat fuel ->
  overwrite fuel e path buf written (zlen data0) (noise_at e path 0 written ++ zdrop written data0)
  = noise_at e path 0 (zlen data0).
Proof.
  intros Hf Hb. revert written. induction fuel as [|fuel IH]; intros written Hw Hfu; [lia|].
  cbn [overwrite]. destruct (Z.ltb_spec written (zlen data0)) as [Hlt|Hge].
  2:{ assert (written = zlen data0) as -> by lia. by rewrite zdrop_all, app_nil_r by lia. }
  set (n := if zlen data0 - written <? buf then zlen data0 - written else buf).
  assert (0 < n <= zlen data0 - written) as Hn by (subst n; destruct (Z.ltb_spec (zlen data0 - written) buf); lia).
  unfold accepted. rewrite Hf. destruct (Z.ltb_spec n n); [lia|]. destruct (Z.leb_spec n 0); [lia|]. cbn [orb].
  pose proof (noise_at_len e path 0 written ltac:(lia)) as Hlen.
  rewrite <- (IH (written + n)) by lia. f_equal. rewrite noise_at_app by lia. rewrite <- app_assoc. f_equal.
  - rewrite <- Hlen at 1. apply ztake_app_len.
  - f_equal. rewrite <- Hlen at 1. rewrite zdrop_app_ge by lia. rewrite Hlen, zdrop_zdrop by lia. f_equal. lia.
Qed.

(** What is left of a file. *)
Definition shredded (e : shred_env) (buf : Z) (path : string) (x : file) : option file :=
  if sh_remove e path then None
  else if negb (sh_open e path) || negb (sh_stat e path) then Some x
  else
    let data := overwrite (S (length (f_data x))) e path buf 0 (zlen (f_data x)) (f_data x) in
    Some (mkFile (if sh_truncate e path then [] else data) (f_mtime x)).

Lemma shredFile_lookup e buf path f q :
  shredFile e buf path f !! q = if decide (q = path) then f !! path ≫= shredded e buf path else f !! q.
Proof.
  unfold shredFile, shredded, unlink. destruct (f !! path) as [x|] eqn:Hx; cbn.
  2:{ case_decide as Hq; [by rewrite Hq|done]. }
  destruct (negb (sh_open e path) || negb (sh_stat e path)), (sh_remove e path); case_decide as Hq; try subst q;
    rewrite ?lookup_delete_eq, ?lookup_insert_eq, ?lookup_delete_ne, ?lookup_insert_ne by done; try done.
Qed.

Lemma shred_all_lookup e buf l f q :
  NoDup l ->
  foldl (fun f p => shredFile e buf p f) f l !! q = if decide (q ∈ l) then f !! q ≫= shredded e buf q else f !! q.
Proof.
  revert f. induction l as [|p l IH]; intros f Hnd; [done|]. apply NoDup_cons in Hnd as [Hp Hnd]. cbn [foldl].
  rewrite IH by done. rewrite shredFile_lookup. destruct (decide (q = p)) as [->|Hne].
  - rewrite (decide_False (P := p ∈ l)) by done. by rewrite decide_True by (by left).
  - destruct (decide (q ∈ l)) as [Hin|Hin].
    + by rewrite decide_True by (by right).
    + rewrite decide_False; [done|]. rewrite elem_of_cons. tauto.
Qed.

Lemma nodup_filter {A} (p : A -> bool) l : NoDup l -> NoDup (List.filter p l).
Proof.
  induction 1 as [|x l Hx _ IH]; [constructor|]. cbn. destruct (p x); [|done]. constructor; [|done].
  rewrite list_elem_of_In, List.filter_In, <- list_elem_of_In. tauto.
Qed.

(** A shredded tree. *)
Lemma shred_dir_lookup e buf root f q :
  root <> "" ->
  shredDirectoryFiles e buf root f !! q
  = if below root q || String.eqb q root then f !! q ≫= shredded e buf q else f !! q.
Proof.
  intros Hr. unfold shredDirectoryFiles. destruct (String.eqb_spec root "") as [|_]; [done|].
  rewrite shred_all_lookup.
  2:{ unfold walk_files. apply nodup_filter, NoDup_fst_map_to_list. }
  assert (q ∈ walk_files f root <-> is_Some (f !! q) /\ (below root q || String.eqb q root) = true) as Hw.
  { unfold walk_files. rewrite list_elem_of_In, List.filter_In, <- list_elem_of_In, list_elem_of_fmap. split.
    - intros [([p x] & -> & Hp) Hb]. apply elem_of_map_to_list in Hp. split; [by exists x|done].
    - intros [[x Hx] Hb]. split; [|done]. exists (q, x). split; [done|]. by apply elem_of_map_to_list. }
  destruct (below root q || String.eqb q root) eqn:Hb; case_decide as Hd; try done.
  - destruct (f !! q) as [x|] eqn:Hx; [|done]. exfalso. apply Hd, Hw. by split.
  - apply Hw in Hd as [_ ?]. done.
Qed.

(** ** Pruning *)

Lemma prune_step e f root l dirs :
  (forall d, below root d = true -> sh_remove e d = true) ->
  (forall p, is_Some (f !! p) -> below root p = false) ->
  StronglySorted longer l -> (forall d, d ∈ l -> below root d = true) ->
  (forall d, d ∈ dirs -> below root d = true -> d ∈ l) ->
  forall d, d ∈ foldl (remove_dir e f) dirs l <-> d ∈ dirs /\ below root d = false.
Proof.
  intros Hrm Hf Hs. revert dirs. induction Hs as [|x l _ IH Hx]; intros dirs Hl Hdirs d; cbn [foldl].
  - split; [|tauto]. intros Hd. split; [done|]. destruct (below root d) eqn:Hb; [|done].
    specialize (Hdirs d Hd Hb). by apply not_elem_of_nil in Hdirs.
  - assert (below root x = true) as Hbx by (apply Hl; by left).
    assert (remove_dir e f dirs x = dirs ∖ {[x]}) as ->.
    { unfold remove_dir. rewrite Hrm by done. assert (empty_dir f dirs x = true) as ->; [|done].
      unfold empty_dir. rewrite andb_true_iff, !forallb_forall. split; intros p Hp; apply negb_true_iff;
        destruct (below x p) eqn:Hb; try done; exfalso; pose proof (below_trans _ _ _ Hbx Hb) as Hrp.
      - apply list_elem_of_In, list_elem_of_fmap in Hp as ([q y] & -> & Hq). apply elem_of_map_to_list in Hq.
        assert (below root q = false) as Hq' by (apply Hf; by exists y).
        change (below root q = true) in Hrp. congruence.
      - apply list_elem_of_In, elem_of_elements in Hp. specialize (Hdirs p Hp Hrp).
        apply below_longer in Hb. apply elem_of_cons in Hdirs as [->|Hpl]; [lia|].
        rewrite Forall_forall in Hx. specialize (Hx p Hpl). unfold longer in Hx. lia. }
    rewrite IH.
    + rewrite elem_of_difference, elem_of_singleton. split; [tauto|]. intros [Hd Hb]. split; [|done].
      split; [done|]. intros ->. congruence.
    + intros y Hy. apply Hl. by right.
    + intros y [Hy Hne]%elem_of_difference Hb. specialize (Hdirs y Hy Hb).
      apply elem_of_cons in Hdirs as [->|]; [set_solver|done].
Qed.

Lemma longer_total : Total longer.
Proof. intros a b. unfold longer. lia. Qed.

Lemma longer_trans : Transitive longer.
Proof. intros a b c. unfold longer. lia. Qed.

(** Once no file is left below [root], pruning removes every directory below
    it, the deepest first, and no other. *)
Lemma prune_spec e f root dirs d :
  root <> "" -> (forall d, below root d = true -> sh_remove e d = true) ->
  (forall p, is_Some (f !! p) -> below root p = false) ->
  d ∈ pruneEmptyDirs e f root dirs <-> d ∈ dirs /\ below root d = false.
Proof.
  intros Hr Hrm Hf. unfold pruneEmptyDirs. destruct (String.eqb_spec root "") as [|_]; [done|].
  pose proof longer_total. pose proof longer_trans.
  apply prune_step; [done|done|by apply StronglySorted_merge_sort| |].
  - intros x Hx. rewrite merge_sort_Permutation in Hx. by apply list_elem_of_In, List.filter_In in Hx as [_ ?].
  - intros x Hx Hb. rewrite merge_sort_Permutation. apply list_elem_of_In, List.filter_In.
    rewrite <- list_elem_of_In. split; [by apply elem_of_elements|done].
Qed.

(** ** The tables *)

Lemma bfs_keeps fuel cm seen lst queue x : x ∈ seen -> x ∈ fst (bfs fuel cm seen lst queue).
Proof.
  revert seen lst queue. induction fuel as [|f IH]; intros seen lst queue Hx; [done|].
  destruct queue as [|c queue]; [done|]. cbn [bfs].
  destruct (visit_children (default [] (cm !! c)) seen lst queue) as (new & -> & _). apply IH. set_solver.
Qed.

(** A search finds nothing but what it starts with and children. *)
Lemma bfs_finds fuel links seen lst queue x :
  x ∈ fst (bfs fuel (childrenMap links) seen lst queue) -> x ∈ seen \/ exists p, is_child links p x.
Proof.
  revert seen lst queue. induction fuel as [|f IH]; intros seen lst queue Hx; [by left|].
  destruct queue as [|c queue]; [by left|]. cbn [bfs] in Hx.
  destruct (visit_children (default [] (childrenMap links !! c)) seen lst queue) as (new & He & Hn & _).
  rewrite He in Hx. apply IH in Hx as [[Hx|Hx]%elem_of_union|Hx]; [|by left|by right].
  apply elem_of_list_to_set, Hn in Hx as [Hx _]. right. exists c. by apply childrenMap_spec.
Qed.

Lemma doomed_user_folders d id : id ∈ (folders d).*1 -> id ∉ system_ids -> id ∈ doomed_folders d.
Proof.
  intros Hid Hs. unfold doomed_folders. apply bfs_keeps, elem_of_list_to_set, list_elem_of_In, List.filter_In.
  rewrite <- list_elem_of_In. split; [done|]. by rewrite bool_decide_eq_false_2.
Qed.

Lemma spared_system_folders d id :
  id ∈ system_ids -> (forall p, ~ is_child (query_links (folders d)) p id) -> id ∉ doomed_folders d.
Proof.
  intros Hs Hp Hin. apply bfs_finds in Hin as [Hin|[p Hc]]; [|by apply (Hp p)].
  apply elem_of_list_to_set, list_elem_of_In, List.filter_In in Hin as [_ Hb].
  by rewrite bool_decide_eq_true_2 in Hb.
Qed.

(** ** The steps of the handler *)

Section PanicProps.
Context `{CryptoLaws} `{MetaCodecLaws}.

(** What shredding may leave of a file: nothing, or a file that could not be
    unlinked; that one is empty, if it opened and could be truncated, or
    random, as long as it was, if no write failed. *)
Definition left_of (e : shred_env) (q : string) (before after : option file) : Prop :=
  match after with
  | None => True
  | Some x' => exists x, before = Some x /\ sh_remove e q = false /\
      (sh_open e q = true -> sh_stat e q = true ->
         (sh_truncate e q = true -> f_data x' = []) /\
         (sh_truncate e q = false -> sh_fails e q = None -> f_data x' = noise_at e q 0 (zlen (f_data x))))
  end.

Lemma shredded_left e buf q o : 0 < buf -> left_of e q o (o ≫= shredded e buf q).
Proof.
  intros Hb. destruct o as [x|]; [|done]. cbn. unfold shredded, left_of. destruct (sh_remove e q) eqn:Hr; [done|].
  destruct (sh_open e q), (sh_stat e q); cbn; try by (eexists; split_and!; [done|done|]).
  eexists. split_and!; [done|done|]. intros _ _. cbn. split; [by intros ->|]. intros -> Hf.
  rewrite <- (overwrite_all (S (length (f_data x))) e q buf 0 (f_data x) Hf Hb); [done|..].
  - pose proof (zlen_nonneg (f_data x)). lia.
  - unfold zlen. lia.
Qed.

Lemma left_trans e q o1 o2 o3 : left_of e q o1 o2 -> left_of e q o2 o3 -> left_of e q o1 o3.
Proof.
  destruct o3 as [x3|]; [|done]. intros L1 (x2 & -> & Hr & L3). destruct L1 as (x1 & -> & _ & L1).
  exists x1. split_and!; [done|done|]. intros Ho Hs. destruct (L1 Ho Hs) as [_ Ln1], (L3 Ho Hs) as [Lt3 Ln3].
  split; [done|]. intros Ht Hf. rewrite Ln3, Ln1 by done. by rewrite noise_at_len by apply zlen_nonneg.
Qed.

(** What a step of the purge does to the files and directories: each file is
    as before or what shredding leaves of it, no directory appears, and
    outside the roots no file changes. *)
Record shrinks (e : shred_env) (roots : list string) (st st' : purge_state) : Prop := {
  sk_files q : fs (pg_uc st') !! q = fs (pg_uc st) !! q \/
    left_of e q (fs (pg_uc st) !! q) (fs (pg_uc st') !! q);
  sk_dirs d : d ∈ pg_dirs st' -> d ∈ pg_dirs st;
  sk_other q : (forall root, root ∈ roots -> below root q = false /\ q <> root) ->
    fs (pg_uc st') !! q = fs (pg_uc st) !! q
}.

(** A root with everything below it gone. *)
Definition gone (root : string) (st : purge_state) : Prop :=
  (forall q, below root q = true \/ q = root -> fs (pg_uc st) !! q = None) /\
  (forall d, below root d = true -> d ∉ pg_dirs st).

(** Everything at and below a root can be unlinked. *)
Definition removable (e : shred_env) (root : string) : Prop :=
  forall p, below root p = true \/ p = root -> sh_remove e p = true.

(** A root that was shredded: what is left of each file, and nothing at all
    where everything could be unlinked. *)
Definition purged (e : shred_env) (root : string) (st st' : purge_state) : Prop :=
  (forall q, below root q = true \/ q = root -> left_of e q (fs (pg_uc st) !! q) (fs (pg_uc st') !! q)) /\
  (removable e root -> gone root st').

Lemma shrinks_none e roots st st' q : shrinks e roots st st' -> fs (pg_uc st) !! q = None -> fs (pg_uc st') !! q = None.
Proof.
  intros [Hf _ _] Hn. destruct (Hf q) as [->|Hl]; [done|]. rewrite Hn in Hl.
  destruct (fs (pg_uc st') !! q); [|done]. by destruct Hl as (? & ? & _).
Qed.

Lemma purged_shrinks e roots root st0 st st' : shrinks e roots st st' -> purged e root st0 st -> purged e root st0 st'.
Proof.
  intros Hs [Hl Hg]. split.
  - intros q Hq. destruct (sk_files _ _ _ _ Hs q) as [->|Hl']; [by apply Hl|]. eapply left_trans; [by apply Hl|done].
  - intros Hr. destruct (Hg Hr) as [Hg1 Hg2]. split.
    + intros q Hq. eapply shrinks_none; [exact Hs|by apply Hg1].
    + intros d Hb Hin. by apply (Hg2 d), (sk_dirs _ _ _ _ Hs).
Qed.

Lemma shrinks_purged e roots root st0 st st' : shrinks e roots st0 st -> purged e root st st' -> purged e root st0 st'.
Proof.
  intros Hs [Hl Hg]. split; [|done]. intros q Hq. specialize (Hl q Hq).
  destruct (sk_files _ _ _ _ Hs q) as [Heq|Hl']; [by rewrite <- Heq|by eapply left_trans].
Qed.

Lemma shrinks_trans e r1 r2 st1 st2 st3 : shrinks e r1 st1 st2 -> shrinks e r2 st2 st3 -> shrinks e (r1 ++ r2) st1 st3.
Proof.
  intros [F1 D1 O1] [F2 D2 O2]. split.
  - intros q. destruct (F2 q) as [Hq|L2]; [rewrite Hq; apply F1|].
    right. destruct (F1 q) as [Hq|L1]; [by rewrite <- Hq|by eapply left_trans].
  - auto.
  - intros q Hq. rewrite O2, O1; [done| |]; intros root Hr; apply Hq; set_solver.
Qed.

(** Pruning removes directories only. *)
Lemma prune_sub e f root dirs d : d ∈ pruneEmptyDirs e f root dirs -> d ∈ dirs.
Proof.
  unfold pruneEmptyDirs. destruct (String.eqb root ""); [done|].
  generalize (merge_sort longer (List.filter (below root) (elements dirs))). intros l. revert dirs.
  induction l as [|x l IH]; intros dirs; [done|]. cbn [foldl]. intros Hd%IH. unfold remove_dir in Hd.
  destruct (_ && _); [|done]. set_solver.
Qed.

Lemma purge_dir_spec e root st :
  root <> "" -> purged (pe_shred e) root st (purge_dir e root st) /\ shrinks (pe_shred e) [root] st (purge_dir e root st).
Proof.
  intros Hr. unfold purge_dir. set (f := shredDirectoryFiles _ _ _ _).
  assert (forall q, f !! q = if below root q || String.eqb q root then fs (pg_uc st) !! q ≫= shredded (pe_shred e) (1024 * 1024) q
                             else fs (pg_uc st) !! q) as Hf by (intros q; by apply shred_dir_lookup).
  assert (forall q, below root q = true \/ q = root -> below root q || String.eqb q root = true) as Hin.
  { intros q [->| ->]; [done|]. by rewrite String.eqb_refl, orb_true_r. }
  assert (forall q, below root q || String.eqb q root = true ->
    left_of (pe_shred e) q (fs (pg_uc st) !! q) (f !! q)) as Hl.
  { intros q Hq. rewrite Hf, Hq. by apply shredded_left. }
  split; split; cbn [fs pg_uc pg_dirs with_files set_fs set_sm].
  - intros q Hq. by apply Hl, Hin.
  - intros Hrm. assert (forall q, below root q = true \/ q = root -> f !! q = None) as Hnone.
    { intros q Hq. rewrite Hf, (Hin q Hq). destruct (fs (pg_uc st) !! q); [|done]. cbn. unfold shredded. by rewrite Hrm. }
    split; [done|]. intros d Hb. cbn. rewrite prune_spec; [intros [_ ?]; congruence|done| |].
    + intros x Hx. apply Hrm. by left.
    + intros p [x Hx]. destruct (below root p) eqn:Hp; [|done]. by rewrite Hnone in Hx by by left.
  - intros q. destruct (below root q || String.eqb q root) eqn:Hq; [right; by apply Hl|left]. by rewrite Hf, Hq.
  - intros d. apply prune_sub.
  - intros q Hq. destruct (Hq root) as [Hb Hne]; [by left|]. rewrite Hf, Hb.
    by destruct (String.eqb_spec q root).
Qed.

(** The steps that touch neither files nor directories. *)
Lemma shrinks_same e st st' :
  fs (pg_uc st') = fs (pg_uc st) -> pg_dirs st' = pg_dirs st -> shrinks e [] st st'.
Proof. intros Hf Hd. split; rewrite ?Hf, ?Hd; [by left|done|done]. Qed.

Lemma purge_store_spec e st :
  BaseDir (Cas (pg_uc st)) <> "" ->
  purged (pe_shred e) (BaseDir (Cas (pg_uc st))) st (purge_store e st) /\
  shrinks (pe_shred e) [BaseDir (Cas (pg_uc st))] st (purge_store e st).
Proof.
  intros Hb. unfold purge_store. destruct (String.eqb_spec (BaseDir (Cas (pg_uc st))) "") as [|_]; [done|].
  destruct (purge_dir_spec e _ st Hb) as [Hg Hs].
  assert (forall u, shrinks (pe_shred e) [] (purge_dir e (BaseDir (Cas (pg_uc st))) st)
    (with_uc (purge_dir e (BaseDir (Cas (pg_uc st))) st) (set_cas (pg_uc (purge_dir e (BaseDir (Cas (pg_uc st))) st)) u
       (fs (pg_uc (purge_dir e (BaseDir (Cas (pg_uc st))) st)))))) as Hsame by (intros u; by apply shrinks_same).
  split; [by apply (purged_shrinks _ [] _ _ _ _ (Hsame _))|]. apply (shrinks_trans _ _ [] _ _ _ Hs (Hsame _)).
Qed.

(** The roots that are set. *)
Definition set_roots (l : list string) : list string := List.filter (fun r => negb (String.eqb r "")) l.

Lemma set_roots_app a b : set_roots (a ++ b) = set_roots a ++ set_roots b.
Proof. apply List.filter_app. Qed.

Lemma purge_temps_spec e st :
  shrinks (pe_shred e) (set_roots ["storage/thumbnails"; pg_TmpDir st; pg_dlTmp st]) st (purge_temps e st) /\
  purged (pe_shred e) "storage/thumbnails" st (purge_temps e st) /\
  (pg_TmpDir st <> "" -> purged (pe_shred e) (pg_TmpDir st) st (purge_temps e st)) /\
  (pg_dlTmp st <> "" -> purged (pe_shred e) (pg_dlTmp st) st (purge_temps e st)).
Proof.
  unfold purge_temps. set (st1 := purge_dir e "storage/thumbnails" st).
  destruct (purge_dir_spec e "storage/thumbnails" st ltac:(done)) as [G1 S1]. fold st1 in G1, S1.
  change (pg_TmpDir st1) with (pg_TmpDir st). set (st2 := if String.eqb (pg_TmpDir st) "" then st1 else _).
  assert (shrinks (pe_shred e) (set_roots [pg_TmpDir st]) st1 st2 /\
    (pg_TmpDir st <> "" -> purged (pe_shred e) (pg_TmpDir st) st1 st2) /\
    pg_TmpDir st2 = pg_TmpDir st /\ pg_dlTmp st2 = pg_dlTmp st) as (S2 & G2 & -> & ->).
  { subst st2. cbn [set_roots List.filter]. destruct (String.eqb_spec (pg_TmpDir st) "") as [He|Hne].
    - split; [by apply shrinks_same|done].
    - by destruct (purge_dir_spec e (pg_TmpDir st) st1 Hne). }
  pose proof (shrinks_trans _ _ _ _ _ _ S1 S2) as S12.
  set (st3 := if _ || _ then st2 else _).
  assert (shrinks (pe_shred e) (set_roots [pg_dlTmp st]) st2 st3 /\
    (pg_dlTmp st <> "" -> purged (pe_shred e) (pg_dlTmp st) st1 st3)) as (S3 & G3).
  { subst st3. cbn [set_roots List.filter]. destruct (String.eqb_spec (pg_dlTmp st) "") as [He|Hne].
    - split; [by apply shrinks_same|done].
    - destruct (String.eqb_spec (pg_dlTmp st) (pg_TmpDir st)) as [He|Hne2]; cbn [orb].
      + split; [split; [by left|done|done]|]. intros _. rewrite He in *. by apply G2.
      + destruct (purge_dir_spec e (pg_dlTmp st) st2 Hne). split; [done|]. intros _. by eapply shrinks_purged. }
  split.
  { change (set_roots _) with (["storage/thumbnails"] ++ set_roots ([pg_TmpDir st] ++ [pg_dlTmp st])).
    rewrite set_roots_app. apply (shrinks_trans _ _ _ _ _ _ S1), (shrinks_trans _ _ _ _ _ _ S2 S3). }
  split; [by apply (purged_shrinks _ _ _ _ _ _ S3), (purged_shrinks _ _ _ _ _ _ S2)|].
  split; intros Hne.
  - apply (purged_shrinks _ _ _ _ _ _ S3), (shrinks_purged _ _ _ _ _ _ S1). by apply G2.
  - apply (shrinks_purged _ _ _ _ _ _ S1). by apply G3.
Qed.

(** ** Upload sessions *)

Lemma cleanup_sub env l sm f n q x :
  (foldl (cleanup_one env (fun _ => true)) (sm, f, n) l).1.2 !! q = Some x -> f !! q = Some x.
Proof.
  revert sm f n. induction l as [|[id s] l IH]; intros sm f n; [done|]. cbn [foldl cleanup_one].
  intros Hx. apply IH in Hx. unfold remove_session_files in Hx. by apply fs_remove_sub, fs_remove_sub in Hx.
Qed.

(** Purging sessions only removes files. *)
Lemma PurgeAll_sub env sm f q x : (PurgeAll env sm f).1.2 !! q = Some x -> f !! q = Some x.
Proof.
  unfold PurgeAll. pose proof (cleanup_sub env (map_to_list (sessions sm)) sm f 0 q x) as Hc.
  destruct (foldl _ (sm, f, 0) _) as [[sm1 f1] n]. cbn [fst snd] in *. intros Hx. apply Hc. clear Hc.
  revert Hx. generalize (ReadDir f1 (TempDir sm)). intros names. revert f1.
  induction names as [|name names IH]; intros f1 Hx; [done|]. cbn [foldl] in Hx. apply IH in Hx.
  destruct (is_upload_name name); [by apply fs_remove_sub in Hx|done].
Qed.

(** The path of a session file, or of an upload file of the directory. *)
Definition upload_path (sm : SessionManager) (q : string) : Prop :=
  (exists n, q = Join [TempDir sm; n]) \/ exists id s, sessions sm !! id = Some s /\ q = TempFilePath s.

Lemma cleanup_facts env l sm f n :
  let '(sm', f', _) := foldl (cleanup_one env (fun _ => true)) (sm, f, n) l in
  TempDir sm' = TempDir sm /\
  (forall id, sessions sm' !! id = if decide (id ∈ l.*1) then None else sessions sm !! id) /\
  (forall q, (forall id s, (id, s) ∈ l -> q <> TempFilePath s /\ q <> metaPath sm id) -> f' !! q = f !! q).
Proof.
  revert sm f n. induction l as [|[id s] l IH]; intros sm f n; [done|]. cbn [foldl cleanup_one].
  specialize (IH (set_sessions sm (delete id (sessions sm))) (remove_session_files env sm f id s) (n + 1)).
  destruct (foldl _ _ l) as [[sm' f'] n']. destruct IH as (Hd & Hss & Hf). split; [done|]. split.
  - intros id'. rewrite Hss. cbn [sessions set_sessions fmap list_fmap fst]. destruct (decide (id' = id)) as [->|Hne].
    + rewrite lookup_delete_eq, (decide_True (P := id ∈ id :: _)) by by left. by case_decide.
    + rewrite lookup_delete_ne by done. assert (id' ∈ id :: l.*1 <-> id' ∈ l.*1) by (rewrite elem_of_cons; tauto).
      repeat case_decide; tauto.
  - intros q Hq. rewrite Hf.
    + destruct (Hq id s) as [L1 L2]; [by left|]. unfold remove_session_files.
      by rewrite !fs_remove_ne by (by apply not_eq_sym).
    + intros id' s' Hin. apply (Hq id' s'). by right.
Qed.

Lemma PurgeAll_facts env sm f :
  exists sm' f' n, PurgeAll env sm f = (sm', f', n) /\ sessions sm' = ∅ /\ TempDir sm' = TempDir sm /\
    (forall q x, f' !! q = Some x -> f !! q = Some x) /\ (forall q, ~ upload_path sm q -> f' !! q = f !! q).
Proof.
  pose proof (PurgeAll_sub env sm f) as Hsub. unfold PurgeAll in *.
  pose proof (cleanup_facts env (map_to_list (sessions sm)) sm f 0) as Hc.
  destruct (foldl _ (sm, f, 0) _) as [[sm1 f1] n]. destruct Hc as (Hd & Hss & Hf).
  eexists _, _, _. split; [done|]. split.
  { apply map_eq. intros id. rewrite Hss, lookup_empty. case_decide as Hin; [done|].
    apply eq_None_not_Some. intros [s Hs]. apply Hin, list_elem_of_fmap.
    exists (id, s). by rewrite elem_of_map_to_list. }
  split; [done|]. split; [exact Hsub|]. intros q Hq.
  assert (f1 !! q = f !! q) as <-.
  { apply Hf. intros id s Hs%elem_of_map_to_list. split; intros ->; apply Hq; [right; by exists id, s|].
    left. by eexists. }
  generalize (ReadDir f1 (TempDir sm)). intros names. clear -Hq. revert f1.
  induction names as [|name names IH]; intros f1; [done|]. cbn [foldl]. rewrite IH.
  destruct (is_upload_name name); [|done]. apply fs_remove_ne. intros <-. apply Hq. left. by exists name.
Qed.

Lemma purge_sessions_facts e st :
  let st' := purge_sessions e st in
  sessions (SessionMgr (pg_uc st')) = ∅ /\ completedSessions (pg_uc st') = ∅ /\
  pg_vault st' = pg_vault st /\ pg_objs st' = pg_objs st /\ pg_tasks st' = pg_tasks st /\
  pg_dirs st' = pg_dirs st /\ Cas (pg_uc st') = Cas (pg_uc st) /\ DB (pg_uc st') = DB (pg_uc st) /\
  FileCtrl (pg_uc st') = FileCtrl (pg_uc st) /\
  (forall q x, fs (pg_uc st') !! q = Some x -> fs (pg_uc st) !! q = Some x) /\
  (forall q, ~ upload_path (SessionMgr (pg_uc st)) q -> fs (pg_uc st') !! q = fs (pg_uc st) !! q) /\
  (plain_dir (TempDir (SessionMgr (pg_uc st))) -> remove_ok (pe_os e) = true ->
     forall n, simple_name n = true -> is_upload_name n = true ->
       fs (pg_uc st') !! (TempDir (SessionMgr (pg_uc st)) +:+ String slash n) = None).
Proof.
  unfold purge_sessions, PurgeAllSessions.
  destruct (PurgeAll_facts (pe_os e) (SessionMgr (pg_uc st)) (fs (pg_uc st))) as (sm1 & f1 & n1 & L1 & Hs1 & Ht1 & Hsub1 & Ho1).
  rewrite L1. cbn [SessionMgr fs set_sm].
  destruct (PurgeAll_facts (pe_os e) sm1 f1) as (sm2 & f2 & n2 & -> & Hs2 & _ & Hsub2 & Ho2).
  split; [done|]. do 8 (split; [done|]). split; [|split].
  - intros q x Hx. by apply Hsub1, Hsub2.
  - intros q Hq. cbn. rewrite Ho2, Ho1; [done|done|]. intros [(n & ->)|(id & s & Hid & _)].
    + apply Hq. left. exists n. by rewrite Ht1.
    + by rewrite Hs1 in Hid.
  - intros Hd Hr n Hn Hu. destruct (purge_all_leaves_nothing (pe_os e) (SessionMgr (pg_uc st)) (fs (pg_uc st)) Hd Hr)
      as (sm' & f' & L2 & _ & Hnone & _). rewrite L1 in L2. injection L2 as <- <- _.
    apply eq_None_not_Some. intros [x Hx]. apply Hsub2 in Hx. by rewrite Hnone in Hx.
Qed.

(** ** The purge *)

(** The directories a purge empties. *)
Definition purge_roots (st : purge_state) : list string :=
  set_roots [BaseDir (Cas (pg_uc st)); "storage/thumbnails"; pg_TmpDir st; pg_dlTmp st].

Lemma root_cases st root : root ∈ purge_roots st <->
  root <> "" /\ (root = BaseDir (Cas (pg_uc st)) \/ root = "storage/thumbnails" \/ root = pg_TmpDir st \/ root = pg_dlTmp st).
Proof.
  unfold purge_roots, set_roots. rewrite list_elem_of_In, List.filter_In, <- list_elem_of_In, !elem_of_cons, negb_true_iff, String.eqb_neq.
  pose proof (not_elem_of_nil root). tauto.
Qed.

(** The files and directories after the steps up to the sessions. *)
Lemma purge_files e st :
  let st' := purge_temps e (purge_tables e (purge_store e st)) in
  (forall root, root ∈ purge_roots st -> purged (pe_shred e) root st st') /\ shrinks (pe_shred e) (purge_roots st) st st'.
Proof.
  set (st1 := purge_store e st). set (st2 := purge_tables e st1).
  assert (shrinks (pe_shred e) (set_roots [BaseDir (Cas (pg_uc st))]) st st1 /\
    (BaseDir (Cas (pg_uc st)) <> "" -> purged (pe_shred e) (BaseDir (Cas (pg_uc st))) st st1) /\
    pg_TmpDir st1 = pg_TmpDir st /\ pg_dlTmp st1 = pg_dlTmp st) as (S1 & G1 & T1 & D1).
  { subst st1. cbn [set_roots List.filter]. unfold purge_store.
    destruct (String.eqb_spec (BaseDir (Cas (pg_uc st))) "") as [He|Hne]; [by split; [apply shrinks_same|]|].
    destruct (purge_store_spec e st Hne) as [Hg Hs]. unfold purge_store in Hg, Hs.
    by destruct (String.eqb_spec (BaseDir (Cas (pg_uc st))) ""). }
  assert (shrinks (pe_shred e) [] st1 st2) as S2 by (by apply shrinks_same).
  destruct (purge_temps_spec e st2) as (S3 & G3 & G4 & G5). cbv zeta. set (st3 := purge_temps e st2) in *.
  change (pg_TmpDir st2) with (pg_TmpDir st1) in *. change (pg_dlTmp st2) with (pg_dlTmp st1) in *.
  rewrite T1, D1 in *. pose proof (shrinks_trans _ _ _ _ _ _ S1 S2) as S12. split.
  - intros root [Hne [->|[->|[->| ->]]]]%root_cases.
    + apply (purged_shrinks _ _ _ _ _ _ S3), (purged_shrinks _ _ _ _ _ _ S2). auto.
    + by apply (shrinks_purged _ _ _ _ _ _ S12).
    + apply (shrinks_purged _ _ _ _ _ _ S12). auto.
    + apply (shrinks_purged _ _ _ _ _ _ S12). auto.
  - unfold purge_roots. change [BaseDir (Cas (pg_uc st)); _; _; _] with
      ([BaseDir (Cas (pg_uc st))] ++ ["storage/thumbnails"; pg_TmpDir st; pg_dlTmp st]).
    rewrite set_roots_app. apply (shrinks_trans _ _ _ _ _ _ S1), (shrinks_trans _ [] _ _ _ _ S2 S3).
Qed.

(** The rest of the state after those steps. *)
Lemma purge_fields e st :
  let st' := purge_temps e (purge_tables e (purge_store e st)) in
  pg_vault st' = pg_vault st /\ pg_objs st' = pg_objs st /\ pg_tasks st' = pg_tasks st /\
  SessionMgr (pg_uc st') = SessionMgr (pg_uc st) /\
  Cas (pg_uc st') = (if String.eqb (BaseDir (Cas (pg_uc st))) "" then Cas (pg_uc st) else ClearCache (Cas (pg_uc st))) /\
  DB (pg_uc st') = (fun d => delete_user_folders (pe_delete_folders e) (delete_all_files (pe_delete_files e) d)) <$> DB (pg_uc st) /\
  FileCtrl (pg_uc st') = InvalidateVaultCache <$> FileCtrl (pg_uc st).
Proof.
  unfold purge_temps, purge_tables, purge_store.
  destruct (String.eqb (BaseDir (Cas (pg_uc st))) ""); cbn; repeat case_match; repeat split; done.
Qed.

Lemma refused_same e s password s' : authenticate e s password = (s', false) -> s' = s.
Proof.
  unfold authenticate. intros Ha. repeat case_match; simplify_eq; try done; by eapply verify_refused.
Qed.

Lemma cancelled_tasks e st tmp c db f id t :
  GetTask (mkDM tmp c db f (pg_objs (cancel_downloads e st)) (pg_tasks (cancel_downloads e st))) id = Some t ->
  finished (status t) = true.
Proof.
  intros Hg. apply (cancel_all_finished (pe_now e)
    (mkDM (pg_dlTmp st) (Cas (pg_uc st)) (DB (pg_uc st)) (fs (pg_uc st)) (pg_objs st) (pg_tasks st)) id t). exact Hg.
Qed.

Lemma emptied_tables f g d0 :
  let d := delete_user_folders g (delete_all_files f d0) in
  (f = true -> files d = []) /\ (g = true -> forall r, r ∈ folders d -> fst r ∈ system_ids) /\
  (forall r, r ∈ folders d0 -> fst r ∈ system_ids -> (forall p, ~ is_child (query_links (folders d0)) p (fst r)) ->
     r ∈ folders d) /\
  (f = false -> g = false -> d = d0).
Proof.
  assert (folders (delete_all_files f d0) = folders d0) as Hfo by by destruct f.
  split; [intros ->; by destruct g|]. split; [|split; [|by intros -> ->]].
  - intros -> r Hr. cbn in Hr. apply list_elem_of_In, List.filter_In in Hr as [Hr Hn]. apply list_elem_of_In in Hr.
    apply negb_true_iff, bool_decide_eq_false in Hn. destruct (decide (fst r ∈ system_ids)) as [|Hs]; [done|].
    exfalso. apply Hn, doomed_user_folders; [|done]. by apply (list_elem_of_fmap_2 fst).
  - intros r Hr Hs Hp. destruct g; cbn; rewrite ?Hfo; [|done].
    apply list_elem_of_In, List.filter_In. rewrite <- list_elem_of_In. split; [done|].
    rewrite bool_decide_eq_false_2; [done|]. apply spared_system_folders; by rewrite ?Hfo.
Qed.


(** Shredding leaves no plaintext.  A file that can be opened is gone or,
    where it cannot be unlinked, empty; if it cannot be truncated either it
    consists of random bytes, as many as it had, unless a write failed too.
    Other files are not touched, and shredding a directory does that to every
    file below it. *)
Theorem shred_leaves_no_plaintext e buf root f :
  root <> "" -> 0 < buf ->
  forall q x, f !! q = Some x ->
  if below root q || String.eqb q root then
    sh_open e q = true -> sh_stat e q = true ->
    match shredDirectoryFiles e buf root f !! q with
    | None => sh_remove e q = true
    | Some x' =>
        sh_remove e q = false /\
        (sh_truncate e q = true -> f_data x' = []) /\
        (sh_truncate e q = false -> sh_fails e q = None -> f_data x' = noise_at e q 0 (zlen (f_data x)))
    end
  else shredDirectoryFiles e buf root f !! q = Some x.
Proof.
  intros Hr Hb q x Hx. rewrite shred_dir_lookup by done. destruct (below root q || String.eqb q root); [|done].
  rewrite Hx. cbn. unfold shredded. destruct (sh_remove e q); [done|]. intros -> ->. cbn. split; [done|]. split.
  - by intros ->.
  - intros -> Hf. rewrite <- (overwrite_all (S (length (f_data x))) e q buf 0 (f_data x) Hf Hb).
    + done.
    + pose proof (zlen_nonneg (f_data x)). lia.
    + unfold zlen. lia.
Qed.

End PanicProps.

(** ** Witnesses *)

Section PanicWitnesses.
Import ToyCrypto ToyCodec.

Definition pw_shred (removes truncates : bool) : shred_env :=
  mkShred (fun _ => true) (fun _ => true) (fun _ => None) (fun _ => truncates) (fun _ => removes) (fun _ i => i mod 256).

Definition pw_files : FS :=
  {["cas/aa/bb" := mkFile [1; 2; 3] 0; "tmp/upload_x.tmp" := mkFile [4; 5] 0; "etc/key" := mkFile [6] 0]}.

Definition pw_state : purge_state :=
  mkPurge (mkStore {["s" := mkEntry 1%nat 100]} {[1%nat := [7; 7]]})
    (mkUC (mkSM ∅ "tmp") (mkCAS "cas" {["h"]}) pw_files ∅ ∅
       (Some (mkDB [("f1", None); ("a", Some "f1")] [mkRow "x" 1 (Some "a") "n" "m" 3 "h" "" false])) None [])
    "tmp" ∅ ∅ {["cas/aa"; "tmp"]} "tmp".

Definition pw_env (cookie : option string) : purge_env :=
  mkPEnv 5 cookie (replicate 16 1) None None (fun _ => [0; 0]) (pw_shred true true) true true (env_fine 5).


Lemma shred_leaves_no_plaintext_witness :
  match shredDirectoryFiles (pw_shred false false) 2 "cas" pw_files !! "cas/aa/bb" with
  | Some x' => f_data x' = [0; 1; 2]
  | None => False
  end.
Proof.
  pose proof (shred_leaves_no_plaintext (pw_shred false false) 2 "cas" pw_files ltac:(discriminate) ltac:(lia)
    "cas/aa/bb" (mkFile [1; 2; 3] 0) ltac:(by vm_compute) eq_refl eq_refl) as H.
  destruct (shredDirectoryFiles (pw_shred false false) 2 "cas" pw_files !! "cas/aa/bb") as [x'|].
  - destruct H as (_ & _ & H). exact (H eq_refl eq_refl).
  - discriminate H.
Defined.

End PanicWitnesses.
