(* ===== verification/NetGuard.v ===== *)
(** * The guard against requests into private networks
    (internal/download/security.go)

    An address is the byte slice net.IP is: four bytes or sixteen, anything
    else being invalid.  The methods of net.IP and net.IPNet the code calls
    are written out; parsing URLs and addresses and looking up names are
    functions of the environment, each call of the resolver giving an answer
    of its own. *)

From S2P Require Import Prelude GoStrings.

#[local] Open Scope string_scope.
#[local] Open Scope list_scope.
#[local] Open Scope Z_scope.

(** ** Addresses (package net) *)

Abbreviation IP := bytes.

(** [ip[i]] *)
Definition octet (ip : IP) (i : nat) : Z := nth i ip 0.

Definition v4_mapped_prefix : bytes := replicate 10 0 ++ [255; 255].

(** [To4]: the four bytes of an IPv4 address, mapped into IPv6 or not. *)
Definition To4 (ip : IP) : option IP :=
  if zlen ip =? 4 then Some ip
  else if (zlen ip =? 16) && bool_decide (ztake 12 ip = v4_mapped_prefix) then Some (zdrop 12 ip)
  else None.

Definition ipv6_loopback : IP := replicate 15 0 ++ [1].

Definition IsLoopback (ip : IP) : bool :=
  match To4 ip with
  | Some ip4 => octet ip4 0 =? 127
  | None => bool_decide (ip = ipv6_loopback)
  end.

Definition IsLinkLocalUnicast (ip : IP) : bool :=
  match To4 ip with
  | Some ip4 => (octet ip4 0 =? 169) && (octet ip4 1 =? 254)
  | None => (zlen ip =? 16) && (octet ip 0 =? 254) && (Z.land (octet ip 1) 192 =? 128)
  end.

Definition IsLinkLocalMulticast (ip : IP) : bool :=
  match To4 ip with
  | Some ip4 => (octet ip4 0 =? 224) && (octet ip4 1 =? 0) && (octet ip4 2 =? 0)
  | None => (zlen ip =? 16) && (octet ip 0 =? 255) && (Z.land (octet ip 1) 15 =? 2)
  end.

Definition IsPrivate (ip : IP) : bool :=
  match To4 ip with
  | Some ip4 =>
      (octet ip4 0 =? 10)
      || (octet ip4 0 =? 172) && (Z.land (octet ip4 1) 240 =? 16)
      || (octet ip4 0 =? 192) && (octet ip4 1 =? 168)
  | None => (zlen ip =? 16) && (Z.land (octet ip 0) 254 =? 252)
  end.

(** A block: its base address and its mask, of one length. *)
Record IPNet := mkNet { net_ip : IP; net_mask : bytes }.

(** [CIDRMask(ones, 8 * len)] *)
Definition CIDRMask (ones : Z) (len : nat) : bytes :=
  map (fun i => let k := Z.max 0 (Z.min 8 (ones - 8 * Z.of_nat i)) in 256 - 2 ^ (8 - k)) (seq 0 len).

Definition masked (ip mask : bytes) : bytes := zip_with Z.land ip mask.

(** What ParseCIDR returns for a literal block. *)
Definition ParseCIDR (ip : IP) (ones : Z) : IPNet :=
  let m := CIDRMask ones (length ip) in mkNet (masked ip m) m.

Definition Contains (n : IPNet) (ip : IP) : bool :=
  let ip := default ip (To4 ip) in
  bool_decide (length ip = length (net_ip n)) &&
  bool_decide (masked (net_ip n) (net_mask n) = masked ip (net_mask n)).

(** ** Private addresses *)

Definition privateCIDRs : list IPNet :=
  [ParseCIDR [127; 0; 0; 0] 8; ParseCIDR [10; 0; 0; 0] 8; ParseCIDR [172; 16; 0; 0] 12;
   ParseCIDR [192; 168; 0; 0] 16; ParseCIDR [169; 254; 0; 0] 16; ParseCIDR [0; 0; 0; 0] 8;
   ParseCIDR ipv6_loopback 128; ParseCIDR ([254; 128] ++ replicate 14 0) 10; ParseCIDR ([252] ++ replicate 15 0) 7].

(** [None] is a nil address. *)
Definition IsPrivateIP (ip : option IP) : bool :=
  match ip with
  | None => false
  | Some ip =>
      IsLoopback ip || IsLinkLocalUnicast ip || IsLinkLocalMulticast ip || IsPrivate ip
      || existsb (fun block => Contains block ip) privateCIDRs
  end.

(** ** Host names *)

(** [strings.EqualFold(s, t)] for a [t] of ASCII letters: besides the cases
    of a letter, the long s and the Kelvin sign fold to "s" and "k". *)
Fixpoint EqualFold (s t : string) : bool :=
  match s, t with
  | EmptyString, EmptyString => true
  | String a s', String b t' =>
      if Ascii.eqb (lower_ascii a) (lower_ascii b) then EqualFold s' t'
      else if Ascii.eqb (lower_ascii b) "s" then
        match s' with
        | String c s2 => (byte_of_ascii a =? 197) && (byte_of_ascii c =? 191) && EqualFold s2 t'
        | EmptyString => false
        end
      else if Ascii.eqb (lower_ascii b) "k" then
        match s' with
        | String c (String d s2) =>
            (byte_of_ascii a =? 226) && (byte_of_ascii c =? 132) && (byte_of_ascii d =? 170) && EqualFold s2 t'
        | _ => false
        end
      else false
  | _, _ => false
  end.

(** ** The environment *)

(** The parsers of net and net/url, and the resolver: its [n]-th call. *)
Record net_env := mkNetEnv {
  (** the scheme and [Hostname()] of a URL *)
  url_parse : string -> option (string * string);
  ParseIP : string -> option IP;
  SplitHostPort : string -> option (string * string);
  lookupIP : nat -> string -> option (list IP);
  AllowPrivateNetworks : bool
}.

(** ** Validation *)

Inductive verdict := Allowed | Refused (why : string).

(** The loop over the resolved addresses. *)
Fixpoint first_private (ips : list IP) : option IP :=
  match ips with
  | [] => None
  | ip :: ips' => if IsPrivateIP (Some ip) then Some ip else first_private ips'
  end.

Definition ValidateSafeURL (e : net_env) (n : nat) (rawURL : string) (allowPrivate : bool) : verdict :=
  match url_parse e rawURL with
  | None => Refused "malformed URL: "
  | Some (scheme, hostname) =>
      let scheme := ToLower scheme in
      if negb (String.eqb scheme "http") && negb (String.eqb scheme "https")
      then Refused "unsupported URL scheme"
      else if String.eqb hostname "" then Refused "missing host in URL"
      else if allowPrivate || AllowPrivateNetworks e then Allowed
      else if EqualFold hostname "localhost" then Refused "access to localhost is prohibited for security"
      else
        match ParseIP e hostname with
        | Some ip => if IsPrivateIP (Some ip) then Refused "access to private IP address is prohibited" else Allowed
        | None =>
            match lookupIP e n hostname with
            | None => Refused "failed to resolve host"
            | Some ips =>
                match first_private ips with
                | Some _ => Refused "host resolves to private IP address"
                | None => Allowed
                end
            end
        end
  end.

Definition ValidatePeerAddress (e : net_env) (n : nat) (peerAddr : string) (allowPrivate : bool) : verdict :=
  if allowPrivate || AllowPrivateNetworks e then Allowed
  else
    let host := from_option fst peerAddr (SplitHostPort e peerAddr) in
    if EqualFold host "localhost" then Refused "peer connection to localhost is prohibited for security"
    else
      match ParseIP e host with
      | Some ip => if IsPrivateIP (Some ip) then Refused "peer IP belongs to a private network" else Allowed
      | None =>
          match lookupIP e n host with
          | None => Refused "failed to resolve peer host"
          | Some ips =>
              match first_private ips with
              | Some _ => Refused "peer host resolves to private IP"
              | None => Allowed
              end
          end
      end.

(** ** Dialing *)

(** Where the connection goes: to the address as it was given, or to one IP
    address and the port. *)
Inductive dial := DialError (why : string) | DialAddr (addr : string) | DialIP (ip : IP) (port : string).

(** The address a loop over the resolved ones settles on: the first, unless
    one is private. *)
Fixpoint choose_target (ips : list IP) (target : option IP) : string + option IP :=
  match ips with
  | [] => inr target
  | ip :: ips' =>
      if IsPrivateIP (Some ip) then inl "host resolves to private IP"
      else choose_target ips' (match target with None => Some ip | Some _ => target end)
  end.

Definition SafeDialContext (e : net_env) (n : nat) (allowPrivate : bool) (addr : string) : dial :=
  match SplitHostPort e addr with
  | None => DialError "invalid address format"
  | Some (host, port) =>
      if allowPrivate || AllowPrivateNetworks e then DialAddr addr
      else if EqualFold host "localhost" then DialError "access to localhost is prohibited for security"
      else
        match ParseIP e host with
        | Some ip => if IsPrivateIP (Some ip) then DialError "access to private IP address is prohibited" else DialIP ip port
        | None =>
            match lookupIP e n host with
            | None => DialError "failed to resolve host"
            | Some ips =>
                match choose_target ips None with
                | inl why => DialError why
                | inr None => DialError "no valid IP address found"
                | inr (Some ip) => DialIP ip port
                end
            end
        end
  end.

(** ** Redirects *)

(** CheckRedirect: the request after [via] others. *)
Definition CheckRedirect (e : net_env) (n : nat) (maxRedirects : Z) (allowPrivate : bool) (target : string) (via : Z)
  : option string :=
  let maxRedirects := if maxRedirects <=? 0 then 10 else maxRedirects in
  if maxRedirects <=? via then Some "stopped after redirects"
  else match ValidateSafeURL e n target allowPrivate with
       | Refused why => Some ("redirect blocked by security policy: " +:+ why)
       | Allowed => None
       end.

(** A request and the redirects it follows: at each hop the client resolves
    and dials the address of the URL ([addr_of]), and the reply may name
    another location.  The URLs it connected to, in order.  (A connection the
    client kept open and reuses is one it dialed before.) *)
Fixpoint follow (fuel : nat) (e : net_env) (maxRedirects : Z) (allowPrivate : bool) (addr_of : string -> string)
    (location : string -> option string) (rawURL : string) (via : Z) (n : nat) (visited : list (string * dial))
  : option (list (string * dial)) :=
  match fuel with
  | O => None
  | S f =>
      let d := SafeDialContext e n allowPrivate (addr_of rawURL) in
      let visited := visited ++ [(rawURL, d)] in
      match d with
      | DialError _ => Some visited
      | _ =>
          match location rawURL with
          | None => Some visited
          | Some next =>
              match CheckRedirect e (S n) maxRedirects allowPrivate next (via + 1) with
              | Some _ => Some visited
              | None => follow f e maxRedirects allowPrivate addr_of location next (via + 1) (S (S n)) visited
              end
          end
      end
  end.

(** ** Properties of the network guard

    The byte-wise tests accept exactly the documented address ranges; what is
    dialed was checked; redirects are bounded and checked. *)

(** ** Blocks as ranges of numbers *)

(** The mask byte that keeps the top [k] bits. *)
Lemma land_top x k : 0 <= x < 256 -> 0 <= k <= 8 -> Z.land x (256 - 2 ^ (8 - k)) = x / 2 ^ (8 - k) * 2 ^ (8 - k).
Proof.
  intros Hx Hk.
  assert (forallb (fun k => forallb (fun x => Z.land x (256 - 2 ^ (8 - k)) =? x / 2 ^ (8 - k) * 2 ^ (8 - k))
    (map Z.of_nat (seq 0 256))) (map Z.of_nat (seq 0 9)) = true) as Hall by (by vm_compute).
  rewrite forallb_forall in Hall. specialize (Hall k). rewrite forallb_forall in Hall.
  apply Z.eqb_eq, Hall; apply in_map_iff; eexists (Z.to_nat _); (split; [apply Z2Nat.id; lia|apply in_seq; lia]).
Qed.

Lemma CIDRMask_S ones n :
  CIDRMask ones (S n) = (256 - 2 ^ (8 - Z.max 0 (Z.min 8 ones))) :: CIDRMask (ones - 8) n.
Proof.
  unfold CIDRMask. cbn [seq map]. rewrite Z.mul_0_r, Z.sub_0_r. f_equal.
  rewrite <- seq_shift, map_map. apply map_ext. intros i.
  by replace (ones - 8 * Z.of_nat (S i)) with (ones - 8 - 8 * Z.of_nat i) by lia.
Qed.

Lemma land_top_eq x y k : is_byte x -> is_byte y -> 0 <= k <= 8 ->
  Z.land x (256 - 2 ^ (8 - k)) = Z.land y (256 - 2 ^ (8 - k)) <-> x / 2 ^ (8 - k) = y / 2 ^ (8 - k).
Proof.
  unfold is_byte. intros Hx Hy Hk. rewrite !land_top by done.
  apply Z.mul_cancel_r. apply Z.pow_nonzero; lia.
Qed.

(** A mask without bits erases everything. *)
Lemma masked_none a k : k <= 0 -> masked a (CIDRMask k (length a)) = replicate (length a) 0.
Proof.
  revert k. induction a as [|x a IH]; intros k Hk; [done|]. cbn [length]. rewrite CIDRMask_S.
  cbn. rewrite IH by lia. f_equal. replace (Z.max 0 (Z.min 8 k)) with 0 by lia. cbn. apply Z.land_0_r.
Qed.

Lemma pow256 l : 0 <= l -> 256 ^ l = 2 ^ (8 * l).
Proof. intros Hl. by rewrite Z.pow_mul_r by lia. Qed.

(** Two addresses agree on the masked bits exactly when they agree as numbers
    without the low bits. *)
Lemma masked_eq a b ones :
  Forall is_byte a -> Forall is_byte b -> length a = length b -> 0 <= ones <= 8 * zlen a ->
  masked a (CIDRMask ones (length a)) = masked b (CIDRMask ones (length a)) <->
  be_get a / 2 ^ (8 * zlen a - ones) = be_get b / 2 ^ (8 * zlen a - ones).
Proof.
  intros Ha. revert b ones. induction Ha as [|x a Hx Ha IH]; intros b ones Hb Hl Ho.
  { by destruct b. }
  destruct b as [|y b]; [done|]. injection Hl as Hl. apply Forall_cons in Hb as [Hy Hb].
  cbn [length]. rewrite CIDRMask_S, !be_get_cons. change (masked (x :: a) (?m :: ?ms)) with (Z.land x m :: masked a ms).
  change (masked (y :: b) (?m :: ?ms)) with (Z.land y m :: masked b ms).
  assert (zlen b = zlen a) as Hlz by (unfold zlen; congruence). rewrite zlen_cons in *. rewrite Hlz.
  pose proof (zlen_nonneg a) as Hna. pose proof (be_get_bound a Ha) as Hva. pose proof (be_get_bound b Hb) as Hvb.
  rewrite Hlz in Hvb. rewrite pow256 in * by done.
  specialize (IH b (ones - 8) Hb Hl). set (l := zlen a) in *.
  set (v := be_get a) in *. set (w := be_get b) in *. clearbody v w.
  destruct (Z.le_gt_cases ones 8) as [Hsmall|Hbig].
  - rewrite masked_none, (Hl : length a = length b), masked_none by lia.
    replace (Z.max 0 (Z.min 8 ones)) with ones by lia.
    replace (8 * (1 + l) - ones) with (8 * l + (8 - ones)) by lia.
    assert (forall z u, 0 <= u < 2 ^ (8 * l) ->
      (z * 2 ^ (8 * l) + u) / 2 ^ (8 * l + (8 - ones)) = z / 2 ^ (8 - ones)) as Hd.
    { intros z u Hu. rewrite Z.pow_add_r, <- Z.div_div by lia. f_equal.
      rewrite Z.div_add_l by lia. rewrite (Z.div_small u) by lia. lia. }
    rewrite !Hd by done. rewrite <- (land_top_eq x y ones) by (done || lia).
    split; [by intros [= ->]|by intros ->].
  - replace (Z.max 0 (Z.min 8 ones)) with 8 by lia.
    replace (8 * (1 + l) - ones) with (8 * l - (ones - 8)) by lia. set (e := 8 * l - (ones - 8)) in *.
    assert (forall z u, (z * 2 ^ (8 * l) + u) / 2 ^ e = z * 2 ^ (8 * l - e) + u / 2 ^ e) as Hd.
    { intros z u. replace (8 * l) with (8 * l - e + e) at 1 by lia. rewrite Z.pow_add_r, Z.mul_assoc by lia.
      apply Z.div_add_l. lia. }
    assert (forall u, 0 <= u < 2 ^ (8 * l) -> 0 <= u / 2 ^ e < 2 ^ (8 * l - e)) as Hb2.
    { intros u Hu. split; [apply Z.div_pos; lia|]. apply Z.div_lt_upper_bound; [lia|].
      rewrite <- Z.pow_add_r by lia. replace (e + (8 * l - e)) with (8 * l) by lia. apply Hu. }
    rewrite !Hd. pose proof (Hb2 v Hva). pose proof (Hb2 w Hvb).
    pose proof (land_top_eq x y 8 Hx Hy ltac:(lia)) as Htop. rewrite !Z.div_1_r in Htop. split.
    + intros Heq. apply (f_equal (fun l => (head l, tail l))) in Heq. cbn in Heq. injection Heq as Hhd Htl.
      apply Htop in Hhd as ->. f_equal. apply IH; [lia|by rewrite ?Hvw].
    + intros Heq. destruct (Z.div_mod_unique (2 ^ (8 * l - e)) x y (v / 2 ^ e) (w / 2 ^ e)) as [-> Hvw];
        [by left|by left|by rewrite !(Z.mul_comm (2 ^ (8 * l - e)))|]. f_equal. apply IH; [lia|by rewrite ?Hvw].
Qed.

(** Masking twice with one mask. *)
Lemma masked_twice a m : masked (masked a m) m = masked a m.
Proof.
  unfold masked. revert m. induction a as [|x a IH]; intros [|y m]; cbn; [done..|].
  by rewrite IH, <- Z.land_assoc, Z.land_diag.
Qed.

Lemma length_masked a m : length a = length m -> length (masked a m) = length a.
Proof. intros Hl. unfold masked. rewrite length_zip_with. lia. Qed.

Lemma length_CIDRMask ones n : length (CIDRMask ones n) = n.
Proof. unfold CIDRMask. by rewrite length_map, length_seq. Qed.

(** [Contains] as a comparison of numbers. *)
Lemma Contains_number base ones ip :
  Forall is_byte base -> Forall is_byte ip -> 0 <= ones <= 8 * zlen base -> default ip (To4 ip) = ip ->
  length ip = length base ->
  Contains (ParseCIDR base ones) ip = (be_get ip / 2 ^ (8 * zlen base - ones) =? be_get base / 2 ^ (8 * zlen base - ones)).
Proof.
  intros Hb Hi Ho Hd Hl. unfold Contains. rewrite Hd. unfold ParseCIDR. cbn [net_ip net_mask].
  rewrite length_masked by (by rewrite length_CIDRMask). rewrite Hl, bool_decide_eq_true_2, masked_twice by done. cbn [andb].
  pose proof (masked_eq base ip ones Hb Hi (eq_sym Hl) Ho) as He.
  destruct (Z.eqb_spec (be_get ip / 2 ^ (8 * zlen base - ones)) (be_get base / 2 ^ (8 * zlen base - ones))) as [Hn|Hn].
  - apply bool_decide_eq_true. by apply He.
  - apply bool_decide_eq_false. intros Hm. apply Hn. symmetry. by apply He.
Qed.

(** A block of the other family never matches. *)
Lemma Contains_other base ones ip :
  length (default ip (To4 ip)) <> length base -> Contains (ParseCIDR base ones) ip = false.
Proof.
  intros Hl. unfold Contains, ParseCIDR. cbn [net_ip]. rewrite length_masked by (by rewrite length_CIDRMask).
  by rewrite bool_decide_eq_false_2.
Qed.

(** ** The documented ranges *)

(** A number of [w] bits is in a block of [bits] leading bits. *)
Definition in_block (w n : Z) (b : Z * Z) : bool := n / 2 ^ (w - fst b) =? snd b.

(** Leading bits, by block: loopback, 10/8, 172.16/12, 192.168/16,
    169.254/16, 0/8 and the multicast block 224.0.0/24. *)
Definition v4_blocks : list (Z * Z) :=
  [(8, 127); (8, 10); (12, 172 * 16 + 1); (16, 192 * 256 + 168); (16, 169 * 256 + 254); (8, 0); (24, 224 * 65536)].

(** ::1/128, fe80::/10, fc00::/7. *)
Definition v6_blocks : list (Z * Z) := [(128, 1); (10, 1018); (7, 126)].

(** ff?2::, the link-local multicast addresses. *)
Definition v6_multicast (n : Z) : bool := (n / 2 ^ 120 =? 255) && (n / 2 ^ 112 mod 16 =? 2).

Definition private_number (ip : IP) : bool :=
  match To4 ip with
  | Some ip4 => existsb (in_block 32 (be_get ip4)) v4_blocks
  | None => existsb (in_block 128 (be_get ip)) v6_blocks || v6_multicast (be_get ip)
  end.

Lemma To4_length ip ip4 : To4 ip = Some ip4 -> length ip4 = 4%nat /\ To4 ip4 = Some ip4.
Proof.
  unfold To4. intros He. assert (length ip4 = 4%nat) as Hl.
  { destruct (Z.eqb_spec (zlen ip) 4) as [Hz|_]; [injection He as <-; unfold zlen in *; lia|].
    destruct (Z.eqb_spec (zlen ip) 16) as [Hz|_]; [|done]. cbn [andb] in He.
    case_bool_decide; [|done]. injection He as <-. assert (zlen (zdrop 12 ip) = 4); [|unfold zlen in *; lia].
    rewrite zlen_zdrop. lia. }
  split; [done|]. destruct (Z.eqb_spec (zlen ip4) 4) as [|Hn]; [done|]. exfalso. apply Hn. unfold zlen. lia.
Qed.

Lemma To4_bytes ip ip4 : Forall is_byte ip -> To4 ip = Some ip4 -> Forall is_byte ip4.
Proof.
  unfold To4. intros Hb. destruct (zlen ip =? 4); [by intros [= <-]|]. destruct (_ && _); [|done].
  intros [= <-]. unfold zdrop. by apply Forall_drop.
Qed.

(** The tests depend on an IPv4 address only, not on how it is written. *)
Lemma IsPrivateIP_To4 ip ip4 : To4 ip = Some ip4 -> IsPrivateIP (Some ip) = IsPrivateIP (Some ip4).
Proof.
  intros He. destruct (To4_length ip ip4 He) as [_ He4]. unfold IsPrivateIP.
  unfold IsLoopback, IsLinkLocalUnicast, IsLinkLocalMulticast, IsPrivate. rewrite He, He4.
  do 4 f_equal. unfold Contains. rewrite He, He4. done.
Qed.

(** The bits of a byte the tests look at. *)
Lemma land_bytes x : is_byte x ->
  Z.land x 240 = x / 16 * 16 /\ Z.land x 254 = x / 2 * 2 /\ Z.land x 192 = x / 64 * 64 /\ Z.land x 15 = x mod 16.
Proof.
  unfold is_byte. intros Hx. pose proof (land_top x 4 Hx) as H4. pose proof (land_top x 7 Hx) as H7.
  pose proof (land_top x 2 Hx) as H2. cbn in H4, H7, H2.
  split_and!; [apply H4|apply H7|apply H2|apply (Z.land_ones x 4)]; lia.
Qed.

(** Evaluate the leading bits of the literal blocks. *)
Ltac eval_blocks :=
  repeat match goal with |- context [be_get ?l / ?p] =>
    tryif is_var l then fail else (let v := eval vm_compute in (be_get l / p) in change (be_get l / p) with v) end.

Lemma private_number_v4 ip : Forall is_byte ip -> length ip = 4%nat -> IsPrivateIP (Some ip) = private_number ip.
Proof.
  intros Hb Hl. assert (To4 ip = Some ip) as H4.
  { unfold To4. destruct (Z.eqb_spec (zlen ip) 4) as [|Hn]; [done|]. exfalso. apply Hn. unfold zlen. lia. }
  unfold IsPrivateIP, private_number. unfold IsLoopback, IsLinkLocalUnicast, IsLinkLocalMulticast, IsPrivate. rewrite H4.
  unfold privateCIDRs. cbn [existsb].
  rewrite !(Contains_number _ _ ip) by (first [done|repeat constructor; done|by rewrite H4]).
  rewrite !(Contains_other _ _ ip) by (rewrite H4; cbn; rewrite Hl; done).
  eval_blocks.
  destruct ip as [|a [|b [|c [|d [|]]]]]; try done. unfold octet. cbn [nth].
  repeat apply Forall_cons in Hb as [? Hb]. destruct (land_bytes b ltac:(done)) as (-> & _).
  assert (be_get [a; b; c; d] = a * 2 ^ 24 + b * 2 ^ 16 + c * 2 ^ 8 + d) as -> by (unfold be_get; cbn [foldl]; lia).
  unfold is_byte in *. unfold v4_blocks, in_block. cbn [existsb fst snd].
  set (n := a * 2 ^ 24 + b * 2 ^ 16 + c * 2 ^ 8 + d).
  change (8 * zlen [_; _; _; _]) with 32.
  assert (n / 2 ^ (32 - 8) = a) as -> by (unfold n; Z.to_euclidean_division_equations; lia).
  assert (n / 2 ^ (32 - 12) = a * 16 + b / 16) as -> by (unfold n; Z.to_euclidean_division_equations; lia).
  assert (n / 2 ^ (32 - 16) = a * 256 + b) as -> by (unfold n; Z.to_euclidean_division_equations; lia).
  assert (n / 2 ^ (32 - 24) = a * 65536 + b * 256 + c) as -> by (unfold n; Z.to_euclidean_division_equations; lia).
  clearbody n. assert (0 <= b / 16 < 16) by (Z.to_euclidean_division_equations; lia). generalize dependent (b / 16). intros u Hu.
  apply eq_true_iff_eq. rewrite !orb_true_iff, !andb_true_iff, !Z.eqb_eq. lia.
Qed.

(** The side conditions of [Contains_number] for a literal block. *)
Ltac literal_block Hb Hd Hl :=
  lazymatch goal with
  | |- Forall is_byte ?l => first [exact Hb|by apply all_bytes_ok]
  | |- default _ _ = _ => rewrite Hd; reflexivity
  | |- length _ = _ => rewrite Hl; reflexivity
  | |- _ => vm_compute; split; discriminate
  end.

Lemma private_number_v6 ip :
  Forall is_byte ip -> length ip = 16%nat -> To4 ip = None -> IsPrivateIP (Some ip) = private_number ip.
Proof.
  intros Hb Hl H6. unfold IsPrivateIP, private_number.
  unfold IsLoopback, IsLinkLocalUnicast, IsLinkLocalMulticast, IsPrivate. rewrite H6.
  unfold privateCIDRs. cbn [existsb].
  rewrite !(Contains_other _ _ ip) by (rewrite H6; cbn [default from_option id]; rewrite Hl; done).
  rewrite !(Contains_number _ _ ip) by literal_block Hb H6 Hl.
  assert (bool_decide (ip = ipv6_loopback) = true -> be_get ip = 1) as Hlo
    by (intros ->%bool_decide_eq_true; by vm_compute).
  generalize dependent (bool_decide (ip = ipv6_loopback)). intros lo Hlo.
  eval_blocks.
  destruct ip as [|x [|y ip]]; [done..|]. unfold octet. cbn [nth].
  apply Forall_cons in Hb as [Hx Hb]. apply Forall_cons in Hb as [Hy Hb].
  destruct (land_bytes x Hx) as (_ & -> & _). destruct (land_bytes y Hy) as (_ & _ & -> & ->).
  revert Hlo. pose proof (be_get_bound ip Hb) as Hr. assert (zlen ip = 14) as Hz by (unfold zlen; cbn in Hl; lia).
  assert (be_get (x :: y :: ip) = x * 2 ^ 120 + y * 2 ^ 112 + be_get ip) as ->.
  { rewrite !be_get_cons, zlen_cons, Hz. change (256 ^ (1 + 14)) with (2 ^ 120). change (256 ^ 14) with (2 ^ 112). lia. }
  rewrite Hz in Hr. change (256 ^ 14) with (2 ^ 112) in Hr. unfold v6_blocks, v6_multicast, in_block. cbn [existsb fst snd].
  unfold is_byte in *. generalize dependent (be_get ip). intros r Hr.
  set (n := x * 2 ^ 120 + y * 2 ^ 112 + r) in *.
  intros Hlo. rewrite !zlen_cons, Hz. change (1 + (1 + 14) =? 16) with true. cbn [andb].
  change (8 * zlen ipv6_loopback) with 128. change (8 * zlen (_ ++ _)) with 128. change (8 * zlen (_ ++ _)) with 128.
  assert (n / 2 ^ (128 - 128) = n) as -> by apply Z.div_1_r.
  assert (n / 2 ^ (128 - 10) = x * 4 + y / 64) as -> by (unfold n; Z.to_euclidean_division_equations; lia).
  assert (n / 2 ^ (128 - 7) = x / 2) as -> by (unfold n; Z.to_euclidean_division_equations; lia).
  assert (n / 2 ^ 120 = x) as -> by (unfold n; Z.to_euclidean_division_equations; lia).
  assert ((n / 2 ^ 112) mod 16 = y mod 16) as ->.
  { assert (n / 2 ^ 112 = y + (x * 16) * 16) as -> by (unfold n; Z.to_euclidean_division_equations; lia).
    apply Z.mod_add. lia. }
  clearbody n. assert (0 <= y / 64 < 4) by (Z.to_euclidean_division_equations; lia).
  generalize dependent (y / 64). generalize dependent (y mod 16). generalize dependent (x / 2). intros x2 ym y64 Hy64.
  apply eq_true_iff_eq. rewrite !orb_true_iff, !andb_true_iff, !Z.eqb_eq. intuition lia.
Qed.

(** An address of neither length is matched by no test. *)
Lemma private_malformed ip : length ip <> 4%nat -> length ip <> 16%nat -> IsPrivateIP (Some ip) = false.
Proof.
  intros H4 H6. assert (To4 ip = None) as Hn.
  { unfold To4. destruct (Z.eqb_spec (zlen ip) 4), (Z.eqb_spec (zlen ip) 16); unfold zlen in *; try lia. done. }
  unfold IsPrivateIP, privateCIDRs. cbn [existsb]. rewrite !(Contains_other _ _ ip) by (rewrite Hn; done).
  unfold IsLoopback, IsLinkLocalUnicast, IsLinkLocalMulticast, IsPrivate. rewrite Hn.
  rewrite bool_decide_eq_false_2 by (intros ->; done).
  destruct (Z.eqb_spec (zlen ip) 16); [unfold zlen in *; lia|done].
Qed.

(** the private addresses.  The standard library's byte-wise tests and the
    nine masked blocks together accept exactly the documented ranges, read as
    numbers: for IPv4 the blocks 127/8, 10/8, 172.16/12, 192.168/16,
    169.254/16, 0/8 and 224.0.0/24, for IPv6 ::1, fe80::/10, fc00::/7 and the
    link-local multicast addresses.  An IPv4 address counts the same however
    it is written, and a slice of another length counts as public; so does
    the unspecified IPv6 address, which reaches the local host as 0.0.0.0
    does. *)
Theorem private_ip_is_ranges (ip : IP) :
  Forall is_byte ip ->
  (length ip = 4%nat \/ length ip = 16%nat -> IsPrivateIP (Some ip) = private_number ip) /\
  (length ip <> 4%nat -> length ip <> 16%nat -> IsPrivateIP (Some ip) = false) /\
  (length ip = 4%nat -> IsPrivateIP (Some (v4_mapped_prefix ++ ip)) = private_number ip) /\
  IsPrivateIP (Some (replicate 16 0)) = false.
Proof.
  intros Hb. assert (length ip = 4%nat -> IsPrivateIP (Some ip) = private_number ip) as H4
    by (intros Hl; by apply private_number_v4).
  split_and!; [|by apply private_malformed| |by vm_compute].
  - intros [Hl|Hl]; [by apply H4|]. destruct (To4 ip) as [ip4|] eqn:Hv; [|by apply private_number_v6].
    destruct (To4_length ip ip4 Hv) as [Hl4 Hv4]. rewrite (IsPrivateIP_To4 ip ip4 Hv).
    rewrite private_number_v4 by (done || by eapply To4_bytes). unfold private_number. by rewrite Hv, Hv4.
  - intros Hl. rewrite <- H4 by done. apply IsPrivateIP_To4.
    destruct ip as [|a [|b [|c [|d [|]]]]]; done.
Qed.

Lemma private_ip_is_ranges_witness :
  (IsPrivateIP (Some [172; 31; 255; 255]) = private_number [172; 31; 255; 255]) /\
  private_number [172; 31; 255; 255] = true /\ private_number [172; 32; 0; 0] = false /\
  IsPrivateIP (Some (v4_mapped_prefix ++ [10; 0; 0; 1])) = true.
Proof.
  split; [apply (proj1 (private_ip_is_ranges [172; 31; 255; 255] ltac:(by apply all_bytes_ok))); by left|].
  split; [by vm_compute|]. split; [by vm_compute|].
  rewrite (proj1 (proj2 (proj2 (private_ip_is_ranges [10; 0; 0; 1] ltac:(by apply all_bytes_ok)))) eq_refl). by vm_compute.
Defined.

(** ** Dialing *)

Lemma choose_target_spec ips t :
  choose_target ips t =
    if existsb (fun ip => IsPrivateIP (Some ip)) ips then inl "host resolves to private IP"
    else inr (match t with Some _ => t | None => head ips end).
Proof.
  revert t. induction ips as [|ip ips IH]; intros t; [by destruct t|].
  cbn [choose_target existsb]. destruct (IsPrivateIP (Some ip)); [done|]. cbn [orb]. rewrite IH.
  destruct t; [done|]. by destruct (existsb _ _).
Qed.

Definition all_public (ips : list IP) : Prop := Forall (fun ip => IsPrivateIP (Some ip) = false) ips.

Lemma not_existsb_private ips :
  existsb (fun ip => IsPrivateIP (Some ip)) ips = false <-> all_public ips.
Proof.
  unfold all_public. induction ips as [|ip ips IH]; [by split|]. cbn [existsb].
  rewrite orb_false_iff, IH, Forall_cons. done.
Qed.

(** The addresses of the documented ranges, by their numbers. *)
Definition internal (ip : IP) : bool :=
  bool_decide (length ip = 4%nat \/ length ip = 16%nat) && private_number ip.

Lemma IsPrivateIP_internal ip : Forall is_byte ip -> IsPrivateIP (Some ip) = internal ip.
Proof.
  intros Hb. destruct (private_ip_is_ranges ip Hb) as (Hr & Hn & _). unfold internal.
  case_bool_decide as Hl; cbn [andb]; [by apply Hr|]. apply Hn; tauto.
Qed.

(** What a connection may be made to, [inside] telling the addresses that are
    out of bounds: one address of the host that was asked for. *)
Definition vetted (inside : IP -> bool) (e : net_env) (n : nat) (addr : string) (ip : IP) (port : string) : Prop :=
  exists host, SplitHostPort e addr = Some (host, port) /\ EqualFold host "localhost" = false /\
    inside ip = false /\
    (ParseIP e host = Some ip \/
     ParseIP e host = None /\ exists ips, lookupIP e n host = Some (ip :: ips) /\
       Forall (fun ip => inside ip = false) (ip :: ips)).

(** Addresses are byte slices. *)
Definition byte_addresses (e : net_env) : Prop :=
  (forall h ip, ParseIP e h = Some ip -> Forall is_byte ip) /\
  (forall n h ips, lookupIP e n h = Some ips -> Forall (Forall is_byte) ips).

Lemma safe_dial_vetted e n addr ip port :
  AllowPrivateNetworks e = false ->
  SafeDialContext e n false addr = DialIP ip port <-> vetted (fun ip => IsPrivateIP (Some ip)) e n addr ip port.
Proof.
  intros Hp. unfold SafeDialContext, vetted. rewrite Hp. cbn [orb].
  destruct (SplitHostPort e addr) as [[host p]|]; [|split; [done|by intros (? & ? & _)]].
  destruct (EqualFold host "localhost") eqn:Hlh.
  { split; [done|]. intros (h & [= <- <-] & Hl & _). congruence. }
  destruct (ParseIP e host) as [ip'|] eqn:Hip.
  - destruct (IsPrivateIP (Some ip')) eqn:Hpr; split; try done.
    + intros (h & [= <- <-] & _ & Hpub & [?|[? _]]); congruence.
    + intros [= -> ->]. exists host. by split_and!; [..|left].
    + intros (h & [= <- <-] & _ & Hpub & [?|[? _]]); congruence.
  - destruct (lookupIP e n host) as [ips|] eqn:Hlk.
    2:{ split; [done|]. intros (h & [= <- <-] & _ & _ & [?|(_ & ips & ? & _)]); congruence. }
    rewrite choose_target_spec. destruct (existsb _ ips) eqn:Hex.
    { split; [done|]. intros (h & [= <- <-] & _ & _ & [?|(_ & ips' & Hl & Hall)]); [congruence|].
      apply not_existsb_private in Hall. congruence. }
    apply not_existsb_private in Hex. destruct ips as [|i ips]; cbn [head].
    + split; [done|]. intros (h & [= <- <-] & _ & _ & [?|(_ & ips' & ? & _)]); congruence.
    + split.
      * intros [= -> ->]. exists host. pose proof Hex as Hall. apply Forall_cons in Hall as [Hi _].
        split_and!; [done..|]. right. split; [done|]. by exists ips.
      * intros (h & [= <- <-] & _ & _ & [?|(_ & ips' & Hl & _)]); congruence.
Qed.

Lemma vetted_internal e n addr ip port :
  byte_addresses e -> vetted (fun ip => IsPrivateIP (Some ip)) e n addr ip port <-> vetted internal e n addr ip port.
Proof.
  intros [Hp Hl]. unfold vetted. split; intros (host & Hs & Hlh & Hi & Hor); exists host;
    (do 2 (split; [done|])); destruct Hor as [Hip|(Hnp & ips & Hlk & Hall)].
  - rewrite <- IsPrivateIP_internal by by eapply Hp. auto.
  - pose proof (Hl _ _ _ Hlk) as Hb. split; [rewrite <- IsPrivateIP_internal; [done|by apply Forall_cons in Hb as [? _]]|].
    right. split; [done|]. exists ips. split; [done|]. rewrite !Forall_forall in Hall, Hb |- *.
    intros x Hx. rewrite <- IsPrivateIP_internal; auto.
  - rewrite IsPrivateIP_internal by by eapply Hp. auto.
  - pose proof (Hl _ _ _ Hlk) as Hb. split; [rewrite IsPrivateIP_internal; [done|by apply Forall_cons in Hb as [? _]]|].
    right. split; [done|]. exists ips. split; [done|]. rewrite !Forall_forall in Hall, Hb |- *.
    intros x Hx. rewrite IsPrivateIP_internal; auto.
Qed.

(** C20: no connection into private networks.  Unless private networks are
    allowed, the dialer never connects to an address as it was written: it
    connects to one IP address, which it tested itself, of the host that was
    asked for - the address the host is, or the first one of the resolver's
    answer.  Neither that address nor any other of the answer is in the
    documented ranges, given by numbers: for IPv4 127/8, 10/8, 172.16/12,
    192.168/16, 169.254/16, 0/8 and 224.0.0/24, however it is written, for
    IPv6 ::1, fe80::/10, fc00::/7 and the link-local multicast addresses.
    In every other case it fails, so what an earlier check resolved does not
    matter.  The unspecified address :: is in none of the ranges and is
    dialed, although it reaches the local host. *)
Theorem safe_dial_is_public (e : net_env) (n : nat) (addr : string) :
  AllowPrivateNetworks e = false -> byte_addresses e ->
  (forall a, SafeDialContext e n false addr <> DialAddr a) /\
  (forall ip port, SafeDialContext e n false addr = DialIP ip port <-> vetted internal e n addr ip port) /\
  ((forall ip port, ~ vetted internal e n addr ip port) -> exists why, SafeDialContext e n false addr = DialError why).
Proof.
  intros Hp Hby.
  assert (forall ip port, SafeDialContext e n false addr = DialIP ip port <-> vetted internal e n addr ip port) as Hv
    by (intros ip port; rewrite <- vetted_internal by done; by apply safe_dial_vetted).
  assert (forall a, SafeDialContext e n false addr <> DialAddr a) as Hna.
  { intros a. unfold SafeDialContext. rewrite Hp. cbn [orb]. repeat case_match; done. }
  split_and!; [done|done|]. intros Hno. destruct (SafeDialContext e n false addr) as [why|a|ip port] eqn:Hd.
  - by exists why.
  - by destruct (Hna a).
  - by destruct (Hno ip port), (Hv ip port) as [Hs _]; apply Hs.
Qed.

(** A resolver that answers a public address the first time and a private one
    afterwards. *)
Definition rebinding_env : net_env :=
  mkNetEnv (fun u => Some ("http", "evil.example"))
    (fun _ => None) (fun _ => Some ("evil.example", "80"))
    (fun n _ => Some [if (n =? 0)%nat then [93; 184; 216; 34] else [127; 0; 0; 1]]) false.

Lemma rebinding_bytes : byte_addresses rebinding_env.
Proof.
  split; [done|]. intros n h ips [= <-]. destruct n; (constructor; [by apply all_bytes_ok|constructor]).
Qed.

Lemma safe_dial_is_public_witness :
  ValidateSafeURL rebinding_env 0 "http://evil.example/" false = Allowed /\
  SafeDialContext rebinding_env 0 false "evil.example:80" = DialIP [93; 184; 216; 34] "80" /\
  vetted internal rebinding_env 0 "evil.example:80" [93; 184; 216; 34] "80" /\
  exists why, SafeDialContext rebinding_env 1 false "evil.example:80" = DialError why.
Proof.
  split; [by vm_compute|]. split; [by vm_compute|].
  split; [apply (proj1 (proj2 (safe_dial_is_public rebinding_env 0 "evil.example:80" eq_refl rebinding_bytes))); by vm_compute|].
  apply (proj2 (proj2 (safe_dial_is_public rebinding_env 1 "evil.example:80" eq_refl rebinding_bytes))).
  intros ip port (host & [= <- <-] & _ & Hpub & [?|(_ & ips & [= <- <-] & _)]); [done|]. by vm_compute in Hpub.
Defined.

(** ** Redirects *)

Definition public_dial (d : dial) : Prop :=
  match d with DialError _ => True | DialAddr _ => False | DialIP ip _ => IsPrivateIP (Some ip) = false end.

Lemma safe_dial_public e n addr : AllowPrivateNetworks e = false -> public_dial (SafeDialContext e n false addr).
Proof.
  intros Hp. destruct (SafeDialContext e n false addr) as [why|a|ip port] eqn:Hd; cbn; [done| |].
  - revert Hd. unfold SafeDialContext. rewrite Hp. cbn [orb]. repeat case_match; done.
  - apply (safe_dial_vetted e n addr ip port Hp) in Hd. by destruct Hd as (? & _ & _ & ? & _).
Qed.

(** A redirect target that passed the check before it was connected to. *)
Definition checked (e : net_env) (v : string * dial) : Prop := exists n, ValidateSafeURL e n (fst v) false = Allowed.

Definition redirect_limit (maxRedirects : Z) : Z := if maxRedirects <=? 0 then 10 else maxRedirects.

Lemma follow_bounded fuel e maxRedirects addr_of location rawURL via n visited :
  AllowPrivateNetworks e = false -> 0 <= via < redirect_limit maxRedirects ->
  redirect_limit maxRedirects - via <= Z.of_nat fuel ->
  exists d rest, follow fuel e maxRedirects false addr_of location rawURL via n visited = Some (visited ++ (rawURL, d) :: rest) /\
    public_dial d /\ Forall (fun v => public_dial (snd v) /\ checked e v) rest /\
    zlen rest + 1 <= redirect_limit maxRedirects - via.
Proof.
  intros Hp. revert rawURL via n visited. induction fuel as [|f IH]; intros u via n visited Hv Hf; [lia|].
  cbn [follow]. set (d := SafeDialContext e n false (addr_of u)).
  assert (public_dial d) as Hd by by apply safe_dial_public.
  assert (exists d' rest, Some (visited ++ [(u, d)]) = Some (visited ++ (u, d') :: rest) /\
    public_dial d' /\ Forall (fun v => public_dial (snd v) /\ checked e v) rest /\
    zlen rest + 1 <= redirect_limit maxRedirects - via) as Hstop
    by (exists d, []; split_and!; [done..|rewrite zlen_nil; lia]).
  destruct (location u) as [next|]; [|by destruct d].
  destruct (CheckRedirect e (S n) maxRedirects false next (via + 1)) as [why|] eqn:Hc; [by destruct d|].
  unfold CheckRedirect in Hc. fold (redirect_limit maxRedirects) in Hc.
  destruct (Z.leb_spec (redirect_limit maxRedirects) (via + 1)) as [|Hlim]; [done|].
  destruct (ValidateSafeURL e (S n) next false) eqn:Hval; [|done].
  destruct (IH next (via + 1) (S (S n)) (visited ++ [(u, d)]) ltac:(lia) ltac:(lia)) as (d' & rest & -> & Hd' & Hall & Hlen).
  assert (exists d0 rest0, Some ((visited ++ [(u, d)]) ++ (next, d') :: rest) = Some (visited ++ (u, d0) :: rest0) /\
    public_dial d0 /\ Forall (fun v => public_dial (snd v) /\ checked e v) rest0 /\
    zlen rest0 + 1 <= redirect_limit maxRedirects - via) as Hgo.
  { exists d, ((next, d') :: rest). rewrite <- app_assoc, zlen_cons. split_and!; [done..| |lia].
    constructor; [|done]. split; [done|]. by exists (S n). }
  by destruct d.
Qed.

(** redirects are bounded and checked.  A request, with the redirects it
    follows, always comes to an end; it connects at most [maxRedirects] times
    (ten, for a client that sets no limit), every redirect target passed the
    URL check before it was connected to, and every connection that was made,
    the first included, went to an address the dialer tested. *)
Theorem redirects_bounded (fuel : nat) (e : net_env) (maxRedirects : Z) (addr_of : string -> string)
    (location : string -> option string) (rawURL : string) (n : nat) :
  AllowPrivateNetworks e = false -> redirect_limit maxRedirects <= Z.of_nat fuel ->
  exists first rest,
    follow fuel e maxRedirects false addr_of location rawURL 0 n [] = Some (first :: rest) /\
    fst first = rawURL /\ Forall (fun v => public_dial (snd v)) (first :: rest) /\ Forall (checked e) rest /\
    zlen (first :: rest) <= redirect_limit maxRedirects.
Proof.
  intros Hp Hf. assert (0 < redirect_limit maxRedirects) as Hpos
    by (unfold redirect_limit; destruct (Z.leb_spec maxRedirects 0); lia).
  destruct (follow_bounded fuel e maxRedirects addr_of location rawURL 0 n [] Hp ltac:(lia) ltac:(lia))
    as (d & rest & -> & Hd & Hall & Hlen).
  exists (rawURL, d), rest. apply Forall_and in Hall as [Hpub Hck]. rewrite zlen_cons.
  split_and!; [done|done|by constructor|done|lia].
Qed.

(** A server that redirects to itself for ever. *)
Definition looping_env : net_env :=
  mkNetEnv (fun u => Some ("http", "loop.example")) (fun _ => None) (fun _ => Some ("loop.example", "80"))
    (fun _ _ => Some [[93; 184; 216; 34]]) false.

Lemma redirects_bounded_witness :
  option_map length (follow 10 looping_env 0 false id (fun u => Some u) "http://loop.example/" 0 0 []) = Some 10%nat /\
  exists first rest,
    follow 10 looping_env 0 false id (fun u => Some u) "http://loop.example/" 0 0 [] = Some (first :: rest) /\
    fst first = "http://loop.example/" /\ Forall (fun v => public_dial (snd v)) (first :: rest) /\
    Forall (checked looping_env) rest /\ zlen (first :: rest) <= redirect_limit 0.
Proof.
  split; [by vm_compute|]. apply (redirects_bounded 10 looping_env 0 id (fun u => Some u)); [done|by vm_compute].
Defined.
