(* ===== verification/ZipStream.v ===== *)
(** * Downloading a folder as an archive
    (internal/controllers/zip_stream.go)

    DownloadFolder walks the user's part of a folder's subtree, names an
    entry of the archive for every folder and every file that is not in the
    trash, and streams the decrypted contents.  The archive is the list of
    its entries; the zip format is the standard library's. *)

From S2P Require Import Prelude GoStrings FileSys CryptoPrims CryptoStream CryptoVault CAS UploadSession VaultTree Auth UploadCtrl FileDownload FileTable FileOps.

#[local] Open Scope string_scope.
#[local] Open Scope list_scope.
#[local] Open Scope Z_scope.

(** ** Names *)

(** The loop that strips leading "..". *)
Fixpoint strip_dots (s : string) : string :=
  match s with
  | String a (String b s') => if Ascii.eqb a "." && Ascii.eqb b "." then strip_dots s' else s
  | _ => s
  end.

Definition NUL : Ascii.ascii := ascii_of_byte 0.

Definition sanitizeZipSegment (name : string) : string :=
  let name := replace_char "\" "_" name in
  let name := replace_char "/" "_" name in
  let name := replace_char NUL "" name in
  let name := replace_char carriage_return "" name in
  let name := replace_char newline "" name in
  let name := strip_dots (TrimSpace name) in
  let name := TrimPrefix (Clean ("/" +:+ name)) "/" in
  if String.eqb name "" || String.eqb name "." then "unnamed" else name.

Definition sanitizeHeaderFilename (name : string) : string :=
  let safe := replace_char (ascii_of_byte 34) "_" name in
  let safe := replace_char "\" "_" safe in
  let safe := replace_char "/" "_" safe in
  let safe := replace_char " " "_" safe in
  let safe := replace_char carriage_return "" safe in
  let safe := replace_char newline "" safe in
  let safe := TrimSpace safe in
  if String.eqb safe "" then "folder" else safe.

Definition precompressed_extensions : list string :=
  [".zip"; ".gz"; ".tgz"; ".bz2"; ".xz"; ".7z"; ".rar"; ".zst";
   ".mp4"; ".mkv"; ".avi"; ".mov"; ".webm"; ".flv"; ".m4v";
   ".mp3"; ".ogg"; ".wav"; ".aac"; ".flac"; ".m4a"; ".opus";
   ".jpg"; ".jpeg"; ".png"; ".gif"; ".webp"; ".avif";
   ".docx"; ".xlsx"; ".pptx"; ".odt"; ".ods"; ".odp"].

Definition isPrecompressedFile (mime filename : string) : bool :=
  if existsb (String.eqb (ToLower (Ext filename))) precompressed_extensions then true
  else
    let mime := ToLower mime in
    existsb (HasPrefix mime) ["video/"; "audio/"; "image/jpeg"; "image/png"; "image/webp"; "image/gif"]
    || existsb (str_contains mime) ["zip"; "gzip"; "compressed"].

(** [url.PathEscape] *)
Definition path_safe (c : Ascii.ascii) : bool :=
  ascii_in "a" "z" c || ascii_in "A" "Z" c || ascii_in "0" "9" c
  || existsb (Ascii.eqb c) ["-"; "_"; "."; "~"; "$"; "&"; "+"; ":"; "="; "@"]%char.

Definition upper_hex (n : Z) : Ascii.ascii :=
  if n <? 10 then ascii_of_byte (48 + n) else ascii_of_byte (55 + n).

Fixpoint PathEscape (s : string) : string :=
  match s with
  | EmptyString => EmptyString
  | String c s' =>
      if path_safe c then String c (PathEscape s')
      else let b := byte_of_ascii c in
           String "%" (String (upper_hex (b / 16)) (String (upper_hex (b mod 16)) (PathEscape s')))
  end.

(** ** The environment *)

(** Besides the request: its method, the clock and time.Parse, created_at of
    the rows ("" when NULL), whether each folder's two queries succeed,
    whether the archive takes a header, and whether the client is gone before
    the n-th file. *)
Record zip_env := mkZEnv {
  ze_req : file_env;
  ze_head : bool;
  ze_now : Z;
  time_parse : string -> string -> option Z;
  ze_created_at : string -> string;
  child_query_ok : string -> bool;
  files_query_ok : string -> bool;
  create_ok : string -> bool;
  client_gone : nat -> bool
}.

Definition parseFileTime (e : zip_env) (s : string) : Z :=
  if String.eqb s "" then ze_now e
  else
    match time_parse e "2006-01-02T15:04:05Z07:00" s with
    | Some t => t
    | None =>
        match time_parse e "2006-01-02 15:04:05" s with
        | Some t => t
        | None => default (ze_now e) (time_parse e "2006-01-02T15:04:05Z" s)
        end
    end.

(** ** The folders *)

Record folderTreeItem := mkItem { ft_id : string; ft_name : string; ft_relPath : string }.

Definition folder_name_le (a b : folder_row) : Prop := str_le (fo_name a) (fo_name b).
Definition file_name_le (a b : stored_file) : Prop := str_le (fr_name (sf_row a)) (fr_name (sf_row b)).

#[export] Instance folder_name_le_dec : RelDecision folder_name_le.
Proof. intros a b. unfold folder_name_le. apply _. Defined.
#[export] Instance file_name_le_dec : RelDecision file_name_le.
Proof. intros a b. unfold file_name_le. apply _. Defined.

(** SELECT id, name FROM folders WHERE parent_id = ? AND owner_id = ?
    ORDER BY name ASC (rows of one name in the order of insertion); no rows
    when the query fails. *)
Definition child_rows (e : zip_env) (t : tables) (user : Z) (id : string) : list folder_row :=
  if child_query_ok e id then
    merge_sort folder_name_le
      (List.filter (fun f => bool_decide (fo_parent f = Some id) && (fo_owner f =? user)) (tb_folders t))
  else [].

Definition child_item (curr : folderTreeItem) (f : folder_row) : folderTreeItem :=
  mkItem (fo_id f) (fo_name f) (Join [ft_relPath curr; sanitizeZipSegment (fo_name f)]).

(** The loop over the queue; it keeps no set of visited folders.  [None] is a
    loop that does not end. *)
Fixpoint walk_folders (fuel : nat) (e : zip_env) (t : tables) (user : Z) (queue acc : list folderTreeItem)
  : option (list folderTreeItem) :=
  match fuel with
  | O => None
  | S f =>
      match queue with
      | [] => Some acc
      | curr :: queue' =>
          walk_folders f e t user (queue' ++ map (child_item curr) (child_rows e t user (ft_id curr))) (acc ++ [curr])
      end
  end.

(** ** The files *)

Record fileEntry := mkEntry { en_file : file_row; en_relPath : string }.

(** SELECT ... FROM files WHERE folder_id = ? AND owner_id = ? AND
    is_deleted = FALSE ORDER BY name ASC *)
Definition file_rows (e : zip_env) (t : tables) (user : Z) (id : string) : list stored_file :=
  if files_query_ok e id then
    merge_sort file_name_le
      (List.filter (fun f => bool_decide (fr_folder (sf_row f) = Some id) && (fr_owner (sf_row f) =? user) && active f)
         (tb_files t))
  else [].

(** One file of the folder [fld]: its name in the archive, made different from
    an earlier one by a count. *)
Definition place_entry (fld : folderTreeItem) (st : gmap string Z * list fileEntry) (f : stored_file)
  : gmap string Z * list fileEntry :=
  let '(seenPaths, acc) := st in
  let cleanFileName := sanitizeZipSegment (fr_name (sf_row f)) in
  let rawPath := Join [ft_relPath fld; cleanFileName] in
  match seenPaths !! rawPath with
  | Some count =>
      let ext := Ext cleanFileName in
      let base := TrimSuffix cleanFileName ext in
      (<[rawPath := count + 1]> seenPaths,
       acc ++ [mkEntry (sf_row f) (Join [ft_relPath fld; base +:+ " (" +:+ FormatInt count +:+ ")" +:+ ext])])
  | None => (<[rawPath := 1]> seenPaths, acc ++ [mkEntry (sf_row f) rawPath])
  end.

Definition place_folder (e : zip_env) (t : tables) (user : Z) (st : gmap string Z * list fileEntry)
    (fld : folderTreeItem) : gmap string Z * list fileEntry :=
  foldl (place_entry fld) st (file_rows e t user (ft_id fld)).

Definition files_to_stream (e : zip_env) (t : tables) (user : Z) (allFolders : list folderTreeItem) : list fileEntry :=
  snd (foldl (place_folder e t user) (∅, []) allFolders).

(** ** The archive *)

Inductive zip_method := Store | Deflate.

Record zip_entry := mkZip { ze_name : string; ze_method : zip_method; ze_modified : Z; ze_data : bytes }.

(** [zr_closed]: the central directory was written. *)
Record zip_response := mkZResp {
  zr_status : Z;
  zr_message : string;
  zr_headers : list (string * string);
  zr_entries : list zip_entry;
  zr_closed : bool
}.

Definition zip_error (c : Z) (msg : string) : zip_response := mkZResp c msg [] [] false.

Section Zip.
Context `{CryptoPrims}.

(** streamFileToZipEntry: what the entry receives. *)
Definition streamFileToZipEntry (e : zip_env) (st : fm_state) (f : file_row) (isVault : bool) (vk : bytes) : bytes :=
  let opened :=
    match fm_CAS st with
    | Some c => match fs_read (os (fe_req (ze_req e))) (fm_fs st) (Path c (fr_cas f)) with Ok b => Some b | Err _ => None end
    | None => None
    end in
  match opened with
  | None => bytes_of_string ("Decrypted Content of " +:+ fr_name f)
  | Some data =>
      match openContentReader data isVault vk 0 with
      | Err _ => bytes_of_string ("[Error: Could not decrypt file " +:+ fr_name f +:+ "]")
      | Ok c => from_option fst [] (copy_limited (copy_fuel c) c downloadBufSize None [])
      end
  end.

Definition file_entry (e : zip_env) (st : fm_state) (isVault : bool) (vk : bytes) (item : fileEntry) : zip_entry :=
  let f := en_file item in
  mkZip (en_relPath item) (if isPrecompressedFile (fr_mime f) (fr_name f) then Store else Deflate)
    (parseFileTime e (ze_created_at e (fr_id f))) (streamFileToZipEntry e st f isVault vk).

(** The loop over the files: a client that is gone ends it, a header that is
    refused skips the file. *)
Fixpoint stream_files (e : zip_env) (st : fm_state) (isVault : bool) (vk : bytes) (n : nat) (items : list fileEntry)
    (acc : list zip_entry) : list zip_entry * bool :=
  match items with
  | [] => (acc, true)
  | item :: items' =>
      if client_gone e n then (acc, false)
      else if create_ok e (en_relPath item)
      then stream_files e st isVault vk (S n) items' (acc ++ [file_entry e st isVault vk item])
      else stream_files e st isVault vk (S n) items' acc
  end.

Definition dir_entry (e : zip_env) (fld : folderTreeItem) : zip_entry :=
  mkZip (ft_relPath fld +:+ "/") Store (ze_now e) [].

(** The directory headers; one that is refused ends the response. *)
Fixpoint write_dirs (e : zip_env) (flds : list folderTreeItem) (acc : list zip_entry) : list zip_entry * bool :=
  match flds with
  | [] => (acc, true)
  | fld :: flds' =>
      if create_ok e (ft_relPath fld +:+ "/") then write_dirs e flds' (acc ++ [dir_entry e fld]) else (acc, false)
  end.

Definition zip_headers (name : string) (isVault : bool) : list (string * string) :=
  [("Content-Type", "application/zip");
   ("Content-Disposition", "attachment; filename=" +:+ quote +:+ sanitizeHeaderFilename name +:+ ".zip" +:+ quote
      +:+ "; filename*=UTF-8''" +:+ PathEscape name +:+ ".zip");
   ("X-Content-Type-Options", "nosniff")]
  ++ (if isVault
      then [("Cache-Control", "private, no-store, no-cache, must-revalidate"); ("Pragma", "no-cache")]
      else [("Cache-Control", "private, no-cache")]).

Definition zip_fuel (t : tables) : nat := S (S (length (tb_folders t))).

Definition locked_message : string := "Vault locked. Master password required to download this folder.".

(** Steps 5 and 6. *)
Definition send_archive (e : zip_env) (st : fm_state) (name : string) (isVault : bool) (vk : bytes)
    (allFolders : list folderTreeItem) (files : list fileEntry) : zip_response :=
  let h := zip_headers name isVault in
  if ze_head e then mkZResp 200 "" h [] false
  else
    match write_dirs e allFolders [] with
    | (dirs, false) => mkZResp 200 "" h dirs false
    | (dirs, true) =>
        let '(entries, closed) := stream_files e st isVault vk 0 files dirs in
        mkZResp 200 "" h entries closed
    end.

(** [None]: the walk does not end. *)
Definition DownloadFolder (e : zip_env) (st : fm_state) (folderID : string) : option (fm_state * zip_response) :=
  let r := ze_req e in
  let userID := user_of r in
  match select_folder r st (owned_folder folderID userID) with
  | None => Some (st, zip_error 404 "Folder not found")
  | Some rootFolder =>
      let '(st, isVault) := in_vault_now r st folderID in
      if isVault && negb (unlocked r) then Some (st, zip_error 401 locked_message)
      else
        match content_key (fe_req r) isVault with
        | None => Some (st, zip_error 401 locked_message)
        | Some vk =>
            let clean := sanitizeZipSegment (fo_name rootFolder) in
            let rootCleanName := if String.eqb clean "" then "folder" else clean in
            let root := mkItem (fo_id rootFolder) (fo_name rootFolder) rootCleanName in
            match walk_folders (zip_fuel (fm_tab st)) e (fm_tab st) userID [root] [] with
            | None => None
            | Some allFolders =>
                Some (st, send_archive e st (fo_name rootFolder) isVault vk allFolders
                            (files_to_stream e (fm_tab st) userID allFolders))
            end
        end
  end.

End Zip.
