(* ===== verification/ZipStreamProps.v ===== *)
(** * Properties of folder archives

    Entry names cannot leave the directory an archive is extracted to; the
    archive holds the folder's subtree with its decrypted contents; the walk
    ends; an archive never crosses the border of the vault. *)

From S2P Require Import Prelude GoStrings FileSys CryptoPrims CryptoStream CryptoStreamFacts CryptoVault CAS UploadSession VaultTree Auth UploadCtrl FileDownload FileDownloadProps FileTable FileOps FileOpsFacts FileOpsInv FileTrash FileVault FileOpsProps ZipStream.

#[local] Open Scope string_scope.
#[local] Open Scope list_scope.
#[local] Open Scope Z_scope.

(** ** Names *)

Lemma strip_dots_short n s : (String.length s <= n)%nat ->
  HasPrefix (strip_dots s) ".." = false /\ forall p, string_forallb p s = true -> string_forallb p (strip_dots s) = true.
Proof.
  revert s. induction n as [|n IH]; intros s Hl; [by destruct s; [|cbn in Hl; lia]|].
  destruct s as [|a [|b s]]; [done|by split; [cbn; rewrite ?andb_false_r|]|]. cbn [strip_dots].
  destruct (Ascii.eqb a "." && Ascii.eqb b ".") eqn:Hab.
  - destruct (IH s ltac:(cbn in Hl; lia)) as [H1 H2]. split; [done|]. intros p Hp. apply H2. cbn in Hp.
    by apply andb_true_iff in Hp as [_ [_ Hp]%andb_true_iff].
  - split; [|done]. cbn. by destruct s; rewrite ?andb_true_r.
Qed.

(** ** Segments *)

(** One element of a path: neither a separator of any system, nor empty, nor
    a dot name. *)
Definition safe_segment (s : string) : bool := simple_name s && without "\" s.

Lemma safe_no_slash s : safe_segment s = true -> no_slash s = true /\ without "\" s = true /\ simple_name s = true.
Proof.
  unfold safe_segment, simple_name. intros [[[[H1 H2]%andb_true_iff H3]%andb_true_iff H4]%andb_true_iff H5]%andb_true_iff.
  by rewrite H1, H2, H3, H4, H5.
Qed.

(** Cleaning a rooted name of one element. *)
Lemma clean_rooted s : no_slash s = true -> String.eqb s ".." = false ->
  TrimPrefix (Clean ("/" +:+ s)) "/" = if String.eqb s "." then "" else s.
Proof.
  intros Hs Hd. unfold Clean. change ("/" +:+ s) with (String slash s).
  assert (HasPrefix (String slash s) "/" = true) as -> by (by destruct s).
  change (String slash s) with ("" +:+ String slash s). rewrite split_app, (split_no_slash s Hs). cbn [split_on app].
  unfold clean_elems. cbn [foldl]. unfold clean_step at 2. cbn [String.eqb orb].
  unfold clean_step. rewrite Hd. destruct (String.eqb_spec s "") as [->|Hne]; [done|].
  destruct (String.eqb_spec s ".") as [->|Hdot]; [done|]. cbn [orb rev app]. 
  unfold join_with. cbn [String.concat]. unfold TrimPrefix. rewrite HasPrefix_app. apply drop_str_app.
Qed.

Lemma sanitize_safe name : safe_segment (sanitizeZipSegment name) = true.
Proof.
  unfold sanitizeZipSegment.
  set (n1 := replace_char newline "" _). set (n2 := strip_dots (TrimSpace n1)).
  assert (forall c, c = "\"%char \/ c = slash -> without c n2 = true) as Hw.
  { intros c Hc. unfold n2. apply (strip_dots_short _ _ (Nat.le_refl _)). apply forallb_trim_right, forallb_trim_left.
    unfold n1. do 3 (apply forallb_replace_keep; [done|]).
    destruct Hc as [->| ->].
    - apply forallb_replace_keep; [done|]. apply forallb_replace; [|done].
      intros a. destruct (Ascii.eqb_spec a "\"); [by right|by left].
    - apply forallb_replace; [|done]. intros a. destruct (Ascii.eqb_spec a slash) as [->|]; [by right|by left]. }
  pose proof (Hw slash ltac:(by right)) as Hs. pose proof (Hw "\"%char ltac:(by left)) as Hb.
  assert (String.eqb n2 ".." = false) as Hdd.
  { apply String.eqb_neq. intros He. pose proof (strip_dots_short _ (TrimSpace n1) (Nat.le_refl _)) as [Hp _].
    fold n2 in Hp. by rewrite He in Hp. }
  rewrite clean_rooted by done. destruct (String.eqb n2 ".") eqn:Hd; [done|].
  destruct (String.eqb n2 "") eqn:He; cbn [orb]; [done|]. rewrite Hd. cbn [orb].
  unfold safe_segment, simple_name. unfold no_slash. by rewrite Hs, Hb, He, Hd, Hdd.
Qed.

(** ** Paths below the root entry *)

(** [root], or a path that goes down from it by safe segments. *)
Inductive under (root : string) : string -> Prop :=
| under_root : under root root
| under_below p s : under root p -> safe_segment s = true -> under root (p +:+ String slash s).

Lemma simple_plain s : simple_name s = true -> plain_dir s.
Proof.
  unfold simple_name. intros [[[H1 H2]%andb_true_iff H3]%andb_true_iff H4]%andb_true_iff.
  apply negb_true_iff in H2, H3, H4. unfold plain_dir, Clean.
  assert (HasPrefix s "/" = false) as Hp.
  { apply not_true_is_false. intros [r ->]%HasPrefix_inv. done. }
  rewrite Hp, (split_no_slash s H1). unfold clean_elems. cbn [foldl]. unfold clean_step. rewrite H2, H3, H4. cbn.
  rewrite H2. split_and!; [done| |by apply String.eqb_neq|by apply String.eqb_neq]. by intros ->.
Qed.

Lemma plain_below d n : plain_dir d -> simple_name n = true -> plain_dir (d +:+ String slash n).
Proof.
  intros Hd Hn. pose proof (Join_plain d n Hd Hn) as HJ. unfold Join in HJ. cbn [List.filter] in HJ.
  destruct Hd as (Hc & H1 & H2 & H3). rewrite (proj2 (String.eqb_neq _ _) H3) in HJ.
  assert (String.eqb n "" = false) as Hne
    by (unfold simple_name in Hn; destruct (String.eqb n ""); [by rewrite andb_false_r in Hn|done]).
  rewrite Hne in HJ. cbn [negb] in HJ. change (join_with "/" [d; n]) with (d +:+ String slash n) in HJ.
  split; [done|]. destruct d as [|c d]; [done|]. rewrite string_app_cons.
  split_and!; [|intros [= -> Hx]; by destruct d|done]. intros [= -> Hx]. by destruct d.
Qed.

Lemma under_plain root p : safe_segment root = true -> under root p -> plain_dir p.
Proof.
  intros Hr. induction 1 as [|p s _ IH Hs]; [|apply plain_below]; try done.
  - apply simple_plain. by apply safe_no_slash.
  - by apply safe_no_slash.
Qed.

Lemma under_join root p s :
  safe_segment root = true -> under root p -> safe_segment s = true ->
  Join [p; s] = p +:+ String slash s /\ under root (Join [p; s]).
Proof.
  intros Hr Hp Hs. rewrite Join_plain; [|by apply (under_plain root)|by apply safe_no_slash].
  split; [done|by apply under_below].
Qed.

(** The name given to a later file of the same name. *)
Lemma numbered_safe clean count :
  safe_segment clean = true ->
  safe_segment (TrimSuffix clean (Ext clean) +:+ " (" +:+ FormatInt count +:+ ")" +:+ Ext clean) = true.
Proof.
  intros (Hs & Hb & _)%safe_no_slash.
  set (n := TrimSuffix clean (Ext clean) +:+ " (" +:+ FormatInt count +:+ ")" +:+ Ext clean).
  assert (forall c, c = slash \/ c = "\"%char -> without c clean = true -> without c n = true) as Hw.
  { intros c Hc Hcl. unfold n, without. rewrite !string_forallb_app. rewrite forallb_trim_suffix by done.
    fold (without c (FormatInt count)). rewrite without_FormatInt by (by destruct Hc as [->| ->]).
    rewrite forallb_ext_str by (try done; by destruct Hc as [->| ->]). by destruct Hc as [->| ->]. }
  assert (without "(" n = false) as Hpar.
  { unfold n. rewrite without_app. change (" (" +:+ ?x) with (String " " (String "(" x)). cbn. apply andb_false_r. }
  unfold safe_segment, simple_name, no_slash. rewrite (Hw slash), (Hw "\"%char) by auto.
  repeat match goal with |- context [String.eqb n ?x] => destruct (String.eqb_spec n x) as [He|_];
    [by rewrite He in Hpar|] end. done.
Qed.

(** ** The walk *)

(** A folder whose children could not be read is one without children. *)
Definition cut_folder (e : zip_env) (f : folder_row) : folder_row :=
  match fo_parent f with
  | Some p => if child_query_ok e p then f else mkFolder (fo_id f) (fo_owner f) None (fo_name f)
  | None => f
  end.

Definition cut (e : zip_env) (t : tables) : tables := mkTables (map (cut_folder e) (tb_folders t)) (tb_files t).

Lemma cut_folder_id e f : fo_id (cut_folder e f) = fo_id f.
Proof. unfold cut_folder. by repeat case_match. Qed.

Lemma cut_ids e fs : map fo_id (map (cut_folder e) fs) = map fo_id fs.
Proof. rewrite map_map. apply map_ext, cut_folder_id. Qed.

Lemma cut_ok e t : tables_ok t -> tables_ok (cut e t).
Proof.
  intros [Hnd Hnm Hord Hroots]. split; unfold folder_ids, cut in *; cbn [tb_folders]; rewrite ?cut_ids; [done..| |].
  - intros pre f post p He Hp Hne. apply map_eq_app in He as (pre' & rest & He & <- & Hr).
    apply map_eq_cons in Hr as (f' & post' & -> & <- & <-). rewrite cut_ids. apply (Hord pre' f' post' p He); [|done].
    unfold cut_folder in Hp. destruct (fo_parent f') as [q|] eqn:Hq; [|by rewrite Hq in Hp].
    destruct (child_query_ok e q); [by rewrite Hq in Hp|done].
  - intros f Hf Hs. apply list_elem_of_fmap in Hf as (g & -> & Hg). rewrite cut_folder_id in Hs.
    unfold cut_folder. rewrite (Hroots g Hg Hs). by apply Hroots.
Qed.

Lemma cut_folder_owner e f : fo_owner (cut_folder e f) = fo_owner f.
Proof. unfold cut_folder. by repeat case_match. Qed.

Lemma cut_folder_parent e f id :
  fo_parent (cut_folder e f) = Some id <-> child_query_ok e id = true /\ fo_parent f = Some id.
Proof.
  unfold cut_folder. destruct (fo_parent f) as [p|] eqn:Hp; [|split; [congruence|by intros [_ ?]]].
  destruct (child_query_ok e p) eqn:Hok; [rewrite Hp|]; (split; [|intros [? [= ->]]]; [intros [= ->]|]); congruence || done.
Qed.

Lemma cut_children e t user id :
  user_children (cut e t) user id = if child_query_ok e id then user_children t user id else [].
Proof.
  unfold user_children, cut. cbn [tb_folders]. induction (tb_folders t) as [|f fs IH]; [by destruct (child_query_ok e id)|].
  cbn [map List.filter]. rewrite cut_folder_owner.
  rewrite (bool_decide_ext _ _ (cut_folder_parent e f id)). destruct (child_query_ok e id) eqn:Hok.
  - rewrite (bool_decide_ext _ (fo_parent f = Some id)) by (split; [by intros [_ ?]|done]).
    destruct (_ && _); cbn [map]; by rewrite ?cut_folder_id, IH.
  - rewrite bool_decide_eq_false_2 by (by intros [? _]). apply IH.
Qed.

Lemma cut_all e t : (forall x, child_query_ok e x = true) -> cut e t = t.
Proof.
  intros Hall. unfold cut. destruct t as [fs gs]. cbn. f_equal. rewrite <- (map_id fs) at 2. apply map_ext.
  intros f. unfold cut_folder. destruct (fo_parent f); [|done]. by rewrite Hall.
Qed.

Lemma child_rows_ids e t user id : map fo_id (child_rows e t user id) ≡ₚ user_children (cut e t) user id.
Proof.
  rewrite cut_children. unfold child_rows. destruct (child_query_ok e id); [|done].
  unfold user_children. by rewrite merge_sort_Permutation.
Qed.

Lemma collecting_perm t user root expanded q q' :
  q ≡ₚ q' -> collecting t user root expanded q -> collecting t user root expanded q'.
Proof.
  intros Hq [H1 H2 H3 H4 H5 H6].
  assert (forall x, x ∈ expanded ++ q' <-> x ∈ expanded ++ q) as Hm by (intros x; by rewrite Hq).
  split; [by rewrite <- Hq|by apply Hm|intros x Hx%Hm; auto..|intros x y Hx Hxy; apply Hm; eauto].
Qed.

Lemma walk_collects e t user root fuel queue acc :
  tables_ok t -> collecting (cut e t) user root (map ft_id acc) (map ft_id queue) ->
  (length (folder_ids t) < fuel + length acc)%nat ->
  exists all, walk_folders fuel e t user queue acc = Some all /\ NoDup (map ft_id all) /\
    (forall x, x ∈ map ft_id all <-> rtc (user_child (cut e t) user) root x).
Proof.
  intros Hok. pose proof (cut_ok e t Hok) as Hok'. assert (folder_ids (cut e t) = folder_ids t) as Hids by apply cut_ids.
  revert queue acc. induction fuel as [|f IH]; intros queue acc Hc Hf.
  { exfalso. destruct Hc as [Hnd _ Hin _ _ _].
    assert (length (map ft_id acc) <= length (folder_ids t))%nat as Hle; [|rewrite length_map in Hle; lia].
    apply NoDup_app in Hnd as (Hnd & _). apply submseteq_length, NoDup_submseteq; [done|].
    intros x Hx. rewrite <- Hids. apply Hin. set_solver. }
  destruct queue as [|curr queue]; cbn [walk_folders].
  - exists acc. split; [done|]. destruct Hc as [Hnd Hroot _ Hre _ Hcl]. cbn [map] in *. rewrite app_nil_r in Hnd, Hroot, Hre.
    split; [done|]. intros x. split; [apply Hre|]. intros Hr. clear Hre IH. revert Hroot.
    induction Hr as [x|x y z Hxy _ IHr]; [done|]. intros Hx. apply IHr. rewrite <- (app_nil_r (map ft_id acc)). by apply (Hcl x).
  - apply IH; [|rewrite length_app; cbn; lia]. rewrite !map_app, map_map. cbn [map].
    eapply collecting_perm; [|by apply collecting_step; [|exact Hc]]. apply Permutation_app_head.
    symmetry. apply child_rows_ids.
Qed.

(** What holds of the items of the queue and passes on to children holds of
    every folder. *)
Lemma walk_all (Q : folderTreeItem -> Prop) e t user fuel queue acc all :
  (forall curr f, Q curr -> f ∈ child_rows e t user (ft_id curr) -> Q (child_item curr f)) ->
  Forall Q (acc ++ queue) -> walk_folders fuel e t user queue acc = Some all -> Forall Q all.
Proof.
  intros Hch. revert queue acc. induction fuel as [|f IH]; intros queue acc Hq; [done|]. cbn [walk_folders].
  destruct queue as [|curr queue]; [intros [= <-]; by rewrite app_nil_r in Hq|]. apply IH.
  apply Forall_app in Hq as [Hacc [Hcurr Hqueue]%Forall_cons]. rewrite !Forall_app. split_and!; [done|by repeat constructor|done|].
  apply Forall_forall. intros i Hi. apply list_elem_of_fmap in Hi as (g & -> & Hg). by apply Hch.
Qed.

(** ** The entries *)

Lemma in_file_rows e t user id f : f ∈ file_rows e t user id ->
  f ∈ tb_files t /\ fr_folder (sf_row f) = Some id /\ fr_owner (sf_row f) = user /\ active f = true.
Proof.
  unfold file_rows. destruct (files_query_ok e id); [|by intros ?%not_elem_of_nil].
  rewrite merge_sort_Permutation, list_elem_of_In. intros [Hf Hb]%List.filter_In.
  apply andb_true_iff in Hb as [[Hd%bool_decide_eq_true Ho%Z.eqb_eq]%andb_true_iff Ha].
  by rewrite list_elem_of_In.
Qed.

Lemma in_child_rows e t user id f : f ∈ child_rows e t user id ->
  f ∈ tb_folders t /\ fo_parent f = Some id /\ fo_owner f = user.
Proof.
  unfold child_rows. destruct (child_query_ok e id); [|by intros ?%not_elem_of_nil].
  rewrite merge_sort_Permutation, list_elem_of_In. intros [Hf Hb]%List.filter_In.
  apply andb_true_iff in Hb as [Hp%bool_decide_eq_true Ho%Z.eqb_eq]. by rewrite list_elem_of_In.
Qed.

(** The folders below [top] that are the user's, each with the clean names on
    the way to it, [top]'s first. *)
Inductive folder_path (t : tables) (user : Z) (top : folder_row) : folder_row -> list string -> Prop :=
| path_top : folder_path t user top top [sanitizeZipSegment (fo_name top)]
| path_child f g segs :
    folder_path t user top f segs -> g ∈ tb_folders t -> fo_parent g = Some (fo_id f) -> fo_owner g = user ->
    folder_path t user top g (segs ++ [sanitizeZipSegment (fo_name g)]).

(** What a file can be called: its clean name, or that with a count. *)
Definition leaf_name (name leaf : string) : Prop :=
  let clean := sanitizeZipSegment name in
  leaf = clean \/ exists n, leaf = TrimSuffix clean (Ext clean) +:+ " (" +:+ FormatInt n +:+ ")" +:+ Ext clean.

Lemma leaf_name_safe name leaf : leaf_name name leaf -> safe_segment leaf = true.
Proof. intros [->|[n ->]]; [apply sanitize_safe|]. apply numbered_safe, sanitize_safe. Qed.

Lemma join_snoc segs s : segs <> [] -> join_with "/" (segs ++ [s]) = join_with "/" segs +:+ String slash s.
Proof.
  unfold join_with. induction segs as [|x [|y segs] IH]; intros Hne; [done|done|].
  specialize (IH ltac:(done)). cbn [app] in IH |- *. change (String.concat "/" (x :: y :: ?l)) with (x +:+ "/" +:+ String.concat "/" (y :: l)).
  rewrite IH, !str_app_assoc. done.
Qed.

Lemma path_under t user top f segs : folder_path t user top f segs ->
  Forall (fun s => safe_segment s = true) segs /\ (exists rest, segs = sanitizeZipSegment (fo_name top) :: rest) /\
  under (sanitizeZipSegment (fo_name top)) (join_with "/" segs).
Proof.
  induction 1 as [|f g segs _ (Hs & [rest ->] & Hu) _ _ _].
  - split; [repeat constructor; apply sanitize_safe|]. split; [by exists []|constructor].
  - split; [apply Forall_app; split; [done|repeat constructor; apply sanitize_safe]|]. split; [by eexists|].
    rewrite join_snoc by done. constructor; [done|apply sanitize_safe].
Qed.

(** An entry of a file lies in the folder of the file's row. *)
Definition entry_in (e : zip_env) (t : tables) (user : Z) (flds : list folderTreeItem) (it : fileEntry) : Prop :=
  exists fld f leaf, fld ∈ flds /\ f ∈ file_rows e t user (ft_id fld) /\ en_file it = sf_row f /\
    leaf_name (fr_name (sf_row f)) leaf /\ en_relPath it = ft_relPath fld +:+ String slash leaf.

Lemma place_rows root fld rows seen acc :
  safe_segment root = true -> under root (ft_relPath fld) ->
  exists seen' new, foldl (place_entry fld) (seen, acc) rows = (seen', acc ++ new) /\
    map en_file new = map sf_row rows /\ Forall (fun it => under root (en_relPath it)) new /\
    Forall (fun it => exists f leaf, f ∈ rows /\ en_file it = sf_row f /\ leaf_name (fr_name (sf_row f)) leaf /\
      en_relPath it = ft_relPath fld +:+ String slash leaf) new.
Proof.
  intros Hr Hu. revert seen acc. induction rows as [|f rows IH]; intros seen acc.
  { exists seen, []. split_and!; [by rewrite app_nil_r|done|constructor|constructor]. }
  cbn [foldl]. set (clean := sanitizeZipSegment (fr_name (sf_row f))).
  pose proof (sanitize_safe (fr_name (sf_row f)) : safe_segment clean = true) as Hs.
  assert (exists seen1 it, place_entry fld (seen, acc) f = (seen1, acc ++ [it]) /\ en_file it = sf_row f /\
    under root (en_relPath it) /\ exists leaf, leaf_name (fr_name (sf_row f)) leaf /\
      en_relPath it = ft_relPath fld +:+ String slash leaf) as (seen1 & it & -> & Hit & Hui & leaf & Hleaf & Hrel).
  { assert (forall leaf, leaf_name (fr_name (sf_row f)) leaf ->
      under root (Join [ft_relPath fld; leaf]) /\ exists leaf', leaf_name (fr_name (sf_row f)) leaf' /\
        Join [ft_relPath fld; leaf] = ft_relPath fld +:+ String slash leaf') as Hj.
    { intros leaf Hleaf. destruct (under_join root _ leaf Hr Hu (leaf_name_safe _ _ Hleaf)) as [He Hj].
      split; [done|]. by exists leaf. }
    unfold place_entry. fold clean. destruct (seen !! _) as [count|]; (eexists _, _; split; [done|]; split; [done|]); apply Hj.
    - right. by exists count.
    - by left. }
  destruct (IH seen1 (acc ++ [it])) as (seen' & new & -> & Hm & Hall & Hin).
  exists seen', (it :: new). rewrite <- app_assoc. split_and!; [done|cbn; by rewrite Hit, Hm|by constructor|].
  constructor; [exists f, leaf; split; [by left|done]|].
  eapply Forall_impl; [exact Hin|]. intros it' (g & l & Hg & ?). exists g, l. split; [by right|done].
Qed.

Lemma place_all e t user root flds seen acc :
  safe_segment root = true -> Forall (fun fld => under root (ft_relPath fld)) flds ->
  exists seen' new, foldl (place_folder e t user) (seen, acc) flds = (seen', acc ++ new) /\
    map en_file new = concat (map (fun fld => map sf_row (file_rows e t user (ft_id fld))) flds) /\
    Forall (fun it => under root (en_relPath it)) new /\ Forall (entry_in e t user flds) new.
Proof.
  intros Hr Hall. revert seen acc. induction Hall as [|fld flds Hu _ IH]; intros seen acc.
  { exists seen, []. split_and!; [by rewrite app_nil_r|done|constructor|constructor]. }
  cbn [foldl map concat]. unfold place_folder at 2.
  destruct (place_rows root fld (file_rows e t user (ft_id fld)) seen acc Hr Hu) as (s1 & n1 & -> & Hm1 & Hf1 & He1).
  destruct (IH s1 (acc ++ n1)) as (s2 & n2 & -> & Hm2 & Hf2 & He2). exists s2, (n1 ++ n2).
  rewrite <- app_assoc, map_app, Hm1, Hm2. split_and!; [done|done|by apply Forall_app|]. apply Forall_app. split.
  - eapply Forall_impl; [exact He1|]. intros it (f & leaf & ?). exists fld, f, leaf. split; [by left|done].
  - eapply Forall_impl; [exact He2|]. intros it (g & f & leaf & ? & ?). exists g, f, leaf. split; [by right|done].
Qed.

Lemma files_to_stream_spec e t user root flds :
  safe_segment root = true -> Forall (fun fld => under root (ft_relPath fld)) flds ->
  map en_file (files_to_stream e t user flds) =
    concat (map (fun fld => map sf_row (file_rows e t user (ft_id fld))) flds) /\
  Forall (fun it => under root (en_relPath it)) (files_to_stream e t user flds) /\
  Forall (entry_in e t user flds) (files_to_stream e t user flds).
Proof.
  intros Hr Hall. unfold files_to_stream. by destruct (place_all e t user root flds ∅ [] Hr Hall) as (s & n & -> & ? & ? & ?).
Qed.

Lemma write_dirs_in e flds acc z :
  z ∈ fst (write_dirs e flds acc) -> z ∈ acc \/ exists fld, fld ∈ flds /\ z = dir_entry e fld.
Proof.
  revert acc. induction flds as [|fld flds IH]; intros acc; cbn; [by left|].
  destruct (create_ok e _); [|by left]. intros [[Hz| ->%list_elem_of_singleton]%elem_of_app|(g & Hg & ->)]%IH.
  - by left.
  - right. exists fld. split; [by left|done].
  - right. exists g. split; [by right|done].
Qed.

Lemma write_dirs_ok e flds acc :
  (forall n, create_ok e n = true) -> write_dirs e flds acc = (acc ++ map (dir_entry e) flds, true).
Proof.
  intros Hok. revert acc. induction flds as [|fld flds IH]; intros acc; cbn; [by rewrite app_nil_r|].
  rewrite Hok, IH, <- app_assoc. done.
Qed.

Section ZipFacts.
Context `{CryptoPrims}.

Lemma stream_files_in e st isVault vk n items acc z :
  z ∈ fst (stream_files e st isVault vk n items acc) ->
  z ∈ acc \/ exists it, it ∈ items /\ z = file_entry e st isVault vk it.
Proof.
  revert n acc. induction items as [|it items IH]; intros n acc; cbn; [by left|].
  destruct (client_gone e n); [by left|]. destruct (create_ok e _).
  - intros [[Hz| ->%list_elem_of_singleton]%elem_of_app|(g & Hg & ->)]%IH; [by left| |].
    + right. exists it. split; [by left|done].
    + right. exists g. split; [by right|done].
  - intros [Hz|(g & Hg & ->)]%IH; [by left|]. right. exists g. split; [by right|done].
Qed.

Lemma stream_files_ok e st isVault vk n items acc :
  (forall n, create_ok e n = true) -> (forall n, client_gone e n = false) ->
  stream_files e st isVault vk n items acc = (acc ++ map (file_entry e st isVault vk) items, true).
Proof.
  intros Hok Hg. revert n acc. induction items as [|it items IH]; intros n acc; cbn; [by rewrite app_nil_r|].
  rewrite Hg, Hok, IH, <- app_assoc. done.
Qed.

(** Where an entry of the archive comes from. *)
Lemma send_archive_in e st name isVault vk flds files z :
  z ∈ zr_entries (send_archive e st name isVault vk flds files) ->
  (exists fld, fld ∈ flds /\ z = dir_entry e fld) \/ exists it, it ∈ files /\ z = file_entry e st isVault vk it.
Proof.
  unfold send_archive. destruct (ze_head e); [by intros ?%not_elem_of_nil|].
  destruct (write_dirs e flds []) as [dirs b] eqn:Hd. pose proof (write_dirs_in e flds [] z) as Hw. rewrite Hd in Hw.
  assert (z ∈ dirs -> exists fld, fld ∈ flds /\ z = dir_entry e fld) as Hdirs
    by (by intros [?%not_elem_of_nil|?]%Hw).
  destruct b; [|intros Hz; left; by apply Hdirs].
  destruct (stream_files e st isVault vk 0 files dirs) as [es c] eqn:Hs.
  pose proof (stream_files_in e st isVault vk 0 files dirs z) as Hf. rewrite Hs in Hf. cbn [zr_entries fst] in *.
  intros [Hz|?]%Hf; [left; by apply Hdirs|by right].
Qed.

(** What a walk that ended did. *)
Lemma DownloadFolder_inv e st id st' r :
  DownloadFolder e st id = Some (st', r) ->
  zr_entries r = [] \/
  exists folder isVault vk flds,
    let user := user_of (ze_req e) in
    let root := mkItem (fo_id folder) (fo_name folder) (sanitizeZipSegment (fo_name folder)) in
    select_folder (ze_req e) st (owned_folder id user) = Some folder /\
    in_vault_now (ze_req e) st id = (st', isVault) /\ isVault && negb (unlocked (ze_req e)) = false /\
    content_key (fe_req (ze_req e)) isVault = Some vk /\
    walk_folders (zip_fuel (fm_tab st)) e (fm_tab st) user [root] [] = Some flds /\
    r = send_archive e st' (fo_name folder) isVault vk flds (files_to_stream e (fm_tab st) user flds).
Proof.
  unfold DownloadFolder. destruct (select_folder _ _ _) as [folder|]; [|intros [= <- <-]; by left].
  destruct (in_vault_now (ze_req e) st id) as [st1 isVault] eqn:Hv.
  assert (fm_tab st1 = fm_tab st) as Htab.
  { unfold in_vault_now in Hv. destruct (IsVaultFolder _ _ _) as [c b]. by injection Hv as <- _. }
  destruct (isVault && negb (unlocked (ze_req e))) eqn:Hl; [intros [= <- <-]; by left|].
  destruct (content_key _ _) as [vk|] eqn:Hk; [|intros [= <- <-]; by left].
  assert (String.eqb (sanitizeZipSegment (fo_name folder)) "" = false) as ->.
  { apply String.eqb_neq. intros He. pose proof (sanitize_safe (fo_name folder)) as Hs. by rewrite He in Hs. }
  rewrite Htab. destruct (walk_folders _ _ _ _ _ _) as [flds|] eqn:Hw; [|done].
  intros [= <- <-]. right. exists folder, isVault, vk, flds. cbv zeta. done.
Qed.


(** The walk of a folder ends.  The folders are a forest, so the queue
    without a set of visited folders runs empty, whichever of its queries
    fail; the archive is always answered. *)
Theorem zip_walk_ends e st id : tables_ok (fm_tab st) -> is_Some (DownloadFolder e st id).
Proof.
  intros Hok. unfold DownloadFolder. destruct (select_folder _ _ _) as [folder|] eqn:Hsel; [|done].
  destruct (in_vault_now (ze_req e) st id) as [st1 isVault] eqn:Hv.
  assert (fm_tab st1 = fm_tab st) as ->.
  { unfold in_vault_now in Hv. destruct (IsVaultFolder _ _ _) as [c b]. by injection Hv as <- _. }
  destruct (_ && _); [done|]. destruct (content_key _ _); [|done].
  set (root := mkItem _ _ _).
  destruct (walk_collects e (fm_tab st) (user_of (ze_req e)) (fo_id folder) (zip_fuel (fm_tab st)) [root] [])
    as (all & -> & _); [done| |unfold zip_fuel, folder_ids; rewrite length_map; cbn; lia|done].
  apply collecting_start. unfold folder_ids, cut. cbn [tb_folders]. rewrite cut_ids.
  unfold select_folder in Hsel. destruct (can_query _); [|done]. apply find_some in Hsel as [Hin _].
  apply list_elem_of_fmap. exists folder. split; [done|by apply list_elem_of_In].
Qed.

End ZipFacts.

(** ** Contents *)

(** The user's files that are not in the trash and lie in one of [ids]. *)
Definition wanted (user : Z) (ids : list string) (f : stored_file) : bool :=
  match fr_folder (sf_row f) with Some d => bool_decide (d ∈ ids) | None => false end
  && (fr_owner (sf_row f) =? user) && active f.

Lemma filter_split {A} (p q r : A -> bool) l :
  (forall x, r x = p x || q x) -> (forall x, p x = true -> q x = false) ->
  List.filter r l ≡ₚ List.filter p l ++ List.filter q l.
Proof.
  intros Hr Hd. induction l as [|x l IH]; [done|]. cbn. rewrite Hr. destruct (p x) eqn:Hp.
  - rewrite (Hd x Hp). cbn. by rewrite IH.
  - destruct (q x); cbn; [|done]. by rewrite IH, Permutation_middle.
Qed.

Lemma rows_of_folders e t user ids :
  (forall x, files_query_ok e x = true) -> NoDup ids ->
  concat (map (file_rows e t user) ids) ≡ₚ List.filter (wanted user ids) (tb_files t).
Proof.
  intros Hq. induction ids as [|i ids IH]; intros Hnd.
  - rewrite list_filter_none; [done|]. intros f _. unfold wanted. by destruct (fr_folder _).
  - apply NoDup_cons in Hnd as [Hi Hnd]. cbn [map concat]. rewrite IH by done.
    unfold file_rows at 1. rewrite Hq, merge_sort_Permutation. symmetry. apply filter_split.
    + intros f. unfold wanted. destruct (fr_folder (sf_row f)) as [d|]; [|by rewrite bool_decide_eq_false_2].
      destruct (decide (d = i)) as [->|Hd].
      * rewrite (bool_decide_eq_true_2 (Some i = Some i)) by done. rewrite (bool_decide_eq_true_2 (i ∈ i :: ids)) by left.
        rewrite (bool_decide_eq_false_2 (i ∈ ids)) by done. by rewrite orb_false_r.
      * rewrite (bool_decide_eq_false_2 (Some d = Some i)) by congruence. cbn [andb orb]. do 2 f_equal.
        apply bool_decide_ext. set_solver.
    + intros f [[Hf%bool_decide_eq_true _]%andb_true_iff _]%andb_true_iff. unfold wanted. by rewrite Hf, bool_decide_eq_false_2.
Qed.

Section ZipClaims.
Context `{CryptoLaws}.

(** The blob of a row is the encoding of the chunks [cs] under [vk]. *)
Definition archived (e : zip_env) (st : fm_state) (vk : bytes) (r : file_row) (cs : list bytes) : Prop :=
  aes_key_ok vk = true /\ Forall good_chunk cs /\ cs <> [] /\
  exists c, fm_CAS st = Some c /\ fs_read (os (fe_req (ze_req e))) (fm_fs st) (Path c (fr_cas r)) = Ok (encode vk cs).

Lemma stream_archived e st r isVault vk cs :
  archived e st vk r cs -> streamFileToZipEntry e st r isVault vk = concat cs.
Proof.
  intros (Hk & Hcs & Hne & c & Hc & Hr). unfold streamFileToZipEntry. rewrite Hc, Hr.
  destruct (openContentReader_stored vk cs isVault 0) as (s & -> & Hs); try done.
  { split; [done|]. apply zlen_nonneg. }
  rewrite (copy_limited_stream _ s _ _ _ [] Hs); [|done|by apply stream_fuel|done].
  unfold served_from. cbn [Z.ltb Z.compare andb up_to app]. by rewrite zdrop_0.
Qed.

(** Nothing fails on the way. *)
Record undisturbed (e : zip_env) : Prop := {
  ud_children x : child_query_ok e x = true;
  ud_files x : files_query_ok e x = true;
  ud_headers n : create_ok e n = true;
  ud_client n : client_gone e n = false;
  ud_get : ze_head e = false
}.

(** C22: a folder's archive is its subtree.  When nothing fails, and the files
    of the subtree are stored under the key the archive is read with, the
    archive is complete: it has a directory entry for exactly the user's folders
    below the downloaded one, each once, and an entry for exactly the user's
    files in them that are not in the trash, each once and holding the
    plaintext that was uploaded. *)
Theorem zip_delivers_subtree e st id folder isVault vk plain :
  let user := user_of (ze_req e) in let t := fm_tab st in
  tables_ok t -> undisturbed e ->
  select_folder (ze_req e) st (owned_folder id user) = Some folder ->
  snd (in_vault_now (ze_req e) st id) = isVault -> isVault && negb (unlocked (ze_req e)) = false ->
  content_key (fe_req (ze_req e)) isVault = Some vk ->
  (forall f d, f ∈ tb_files t -> fr_folder (sf_row f) = Some d -> rtc (user_child t user) id d ->
     fr_owner (sf_row f) = user -> active f = true -> archived e st vk (sf_row f) (plain (sf_row f))) ->
  exists st' flds items,
    DownloadFolder e st id = Some (st', mkZResp 200 "" (zip_headers (fo_name folder) isVault)
      (map (dir_entry e) flds ++ map (file_entry e st' isVault vk) items) true) /\
    NoDup (map ft_id flds) /\ (forall x, x ∈ map ft_id flds <-> rtc (user_child t user) id x) /\
    map en_file items ≡ₚ map sf_row (List.filter (wanted user (map ft_id flds)) (tb_files t)) /\
    Forall (fun it => ze_data (file_entry e st' isVault vk it) = concat (plain (en_file it))) items.
Proof.
  intros user t Hok [Hch Hfq Hhd Hcl Hget] Hsel Hv Hlock Hkey Harch. unfold DownloadFolder. fold user. rewrite Hsel.
  assert (exists c, fst (in_vault_now (ze_req e) st id) = with_cache st c) as [c Hst1].
  { unfold in_vault_now. destruct (IsVaultFolder _ _ _) as [c b]. by exists c. }
  destruct (in_vault_now (ze_req e) st id) as [st1 b]. cbn [fst snd] in Hv, Hst1. subst b st1.
  rewrite Hlock, Hkey. cbn [fm_tab with_cache]. fold t.
  pose proof (sanitize_safe (fo_name folder)) as Hs.
  destruct (String.eqb_spec (sanitizeZipSegment (fo_name folder)) "") as [He|_]; [by rewrite He in Hs|].
  assert (fo_id folder = id /\ fo_id folder ∈ folder_ids t) as [Hid Hin].
  { unfold select_folder in Hsel. destruct (can_query _); [|done]. apply find_some in Hsel as [Hin Ho].
    split; [unfold owned_folder in Ho; by apply andb_true_iff in Ho as [->%String.eqb_eq _]|].
    apply list_elem_of_fmap. exists folder. split; [done|by apply list_elem_of_In]. }
  set (root := mkItem _ _ _).
  destruct (walk_collects e t user (fo_id folder) (zip_fuel t) [root] []) as (flds & Hwalk & Hnd & Hre);
    [done|apply collecting_start; by rewrite (cut_all e t Hch)|unfold zip_fuel, folder_ids; rewrite length_map; cbn; lia|].
  rewrite Hwalk. rewrite (cut_all e t Hch), Hid in Hre.
  apply (walk_all (fun fld => under (ft_relPath root) (ft_relPath fld))) in Hwalk; cycle 1.
  { intros curr f Hc _. apply under_join; [done|done|apply sanitize_safe]. }
  { repeat constructor. }
  destruct (files_to_stream_spec e t user _ flds Hs Hwalk) as [Hfiles _]. set (items := files_to_stream e t user flds) in *.
  assert (map en_file items ≡ₚ map sf_row (List.filter (wanted user (map ft_id flds)) (tb_files t))) as Hperm.
  { rewrite Hfiles, <- (rows_of_folders e t user (map ft_id flds) Hfq Hnd), concat_map, !map_map. done. }
  exists (with_cache st c), flds, items. split_and!; [|done|done|done|].
  - unfold send_archive. by rewrite Hget, (write_dirs_ok _ _ _ Hhd), (stream_files_ok _ _ _ _ _ _ _ Hhd Hcl).
  - apply Forall_forall. intros it Hit. cbn [ze_data file_entry]. apply stream_archived.
    assert (en_file it ∈ map sf_row (List.filter (wanted user (map ft_id flds)) (tb_files t))) as Hw.
    { rewrite <- Hperm. apply list_elem_of_fmap. by exists it. }
    apply list_elem_of_fmap in Hw as (f & -> & Hf). apply list_elem_of_In, List.filter_In in Hf as [Hf Hwf].
    apply andb_true_iff in Hwf as [[Hd Ho%Z.eqb_eq]%andb_true_iff Hact].
    destruct (fr_folder (sf_row f)) as [d|] eqn:Hfd; [|done]. apply bool_decide_eq_true, Hre in Hd.
    apply (Harch f d); [by apply list_elem_of_In|done..].
Qed.

Lemma walk_reaches e t user root fuel flds :
  tables_ok t -> ft_id root ∈ folder_ids t -> walk_folders fuel e t user [root] [] = Some flds ->
  forall fld, fld ∈ flds -> rtc (is_child (query_links (links_of t))) (ft_id root) (ft_id fld).
Proof.
  intros Hok Hroot Hw fld Hfld. apply (user_reach_links t user); [done|done|]. revert fld Hfld. apply Forall_forall.
  eapply (walk_all (fun fld => rtc (user_child t user) (ft_id root) (ft_id fld))); [| |exact Hw].
  - intros curr f Hc Hf. eapply rtc_r; [exact Hc|]. cbn.
    assert (fo_id f ∈ user_children (cut e t) user (ft_id curr)) as Hin.
    { rewrite <- child_rows_ids. apply list_elem_of_fmap. by exists f. }
    rewrite cut_children in Hin. destruct (child_query_ok e _); [done|by apply not_elem_of_nil in Hin].
  - constructor; [apply rtc_refl|constructor].
Qed.

(** an archive stays on one side of the vault's border.  The folders and
    files of an archive are all in the vault or all outside it; those of the
    vault are sent only with an unlocked session, and are read under the key
    of that session, the others under the storage key.  Every file is the
    user's own and not in the trash. *)
Theorem zip_respects_vault base e st id st' r :
  fm_ok base st -> can_query (ze_req e) = true -> DownloadFolder e st id = Some (st', r) ->
  let t := fm_tab st in let user := user_of (ze_req e) in
  zr_entries r = [] \/
  exists inside name vk flds items,
    r = send_archive e st' name inside vk flds items /\
    content_key (fe_req (ze_req e)) inside = Some vk /\ (inside = true -> unlocked (ze_req e) = true) /\
    (forall fld, fld ∈ flds -> in_vault (links_of t) (ft_id fld) <-> inside = true) /\
    (forall it, it ∈ items -> exists f d, f ∈ tb_files t /\ sf_row f = en_file it /\ fr_folder (sf_row f) = Some d /\
       fr_owner (sf_row f) = user /\ active f = true /\ (in_vault (links_of t) d <-> inside = true)).
Proof.
  intros Hok Hq Hd t user. apply DownloadFolder_inv in Hd
    as [Hno|(folder & inside & vk & flds & Hsel & Hv & Hlock & Hkey & Hw & ->)]; [by left|right].
  destruct (in_vault_now_spec base (ze_req e) st id Hok Hq) as (c & b & Hspec & _ & Hb).
  rewrite Hspec in Hv. injection Hv as <- ->. pose proof (ok_tables base st Hok) as Ht.
  assert (fo_id folder = id /\ fo_id folder ∈ folder_ids t) as [Hid Hin].
  { unfold select_folder in Hsel. rewrite Hq in Hsel. apply find_some in Hsel as [Hin Ho].
    split; [unfold owned_folder in Ho; by apply andb_true_iff in Ho as [->%String.eqb_eq _]|].
    apply list_elem_of_fmap. exists folder. split; [done|by apply list_elem_of_In]. }
  assert (forall fld, fld ∈ flds -> in_vault (links_of t) (ft_id fld) <-> inside = true) as Hside.
  { intros fld Hfld. pose proof (fun Hroot => walk_reaches _ _ _ _ _ _ Ht Hroot Hw fld Hfld) as Hr. cbn [ft_id] in Hr.
    specialize (Hr Hin). rewrite Hid in Hr.
    rewrite Hb. split; intros Hx; [|unfold in_vault in *; etrans; [exact Hx|exact Hr]].
    destruct (decide (inside = true)) as [|Hn]; [by apply Hb|]. exfalso. apply (outside_disjoint t id (ft_id fld) Ht); [by rewrite Hb in Hn|done|by apply subtree_spec]. }
  eexists inside, (fo_name folder), vk, flds, _. split; [done|]. split; [done|]. split.
  { intros ->. by destruct (unlocked (ze_req e)). }
  split; [done|]. intros it Hit.
  pose proof (sanitize_safe (fo_name folder)) as Hs. pose proof Hw as Hu.
  apply (walk_all (fun fld => under (sanitizeZipSegment (fo_name folder)) (ft_relPath fld))) in Hu; cycle 1.
  { intros curr f Hc _. cbn. apply under_join; [done|done|apply sanitize_safe]. }
  { repeat constructor. }
  destruct (files_to_stream_spec e t user _ flds Hs Hu) as [Hfiles _].
  assert (en_file it ∈ map en_file (files_to_stream e t user flds)) as Hin2 by (apply list_elem_of_fmap; by exists it).
  rewrite Hfiles in Hin2. apply list_elem_of_In, in_concat in Hin2 as (rows & Hrows & Hr).
  apply in_map_iff in Hrows as (fld & <- & Hfld%list_elem_of_In). apply in_map_iff in Hr as (f & Hf & Hrow%list_elem_of_In).
  apply in_file_rows in Hrow as (H1 & H2 & H3 & H4). exists f, (ft_id fld). by split_and!; [..|apply Hside].
Qed.

End ZipClaims.

(** ** Witnesses *)

Section ZipWitnesses.
Import ToyCrypto.

Definition z_file (id name : string) : stored_file :=
  mkStored (mkRow id 1 (Some "d") name "text/plain" 5 w_hash "" false) false.

(** Two files of one name, one already called what the second will be. *)
Definition z_files : list stored_file :=
  [z_file "y1" "a.txt"; z_file "y2" "a.txt"; z_file "y3" "a (1).txt"; z_file "y4" "../../etc\passwd"; w_file "x4" 1 "e" true].

Definition z_state : fm_state :=
  mkFM (mkTables w_folders z_files) (Some w_cas) {[Path w_cas w_hash := mkFile w_blob 0]} (mkVaultCache ∅ [] false).

Definition z_env (open : bool) : zip_env :=
  mkZEnv (w_env open true) false 9 (fun _ _ => None) (fun _ => "") (fun _ => true) (fun _ => true) (fun _ => true)
    (fun _ => false).

Definition z_names (id : string) : list string :=
  from_option (fun x => map ze_name (zr_entries (snd x))) [] (DownloadFolder (z_env true) z_state id).

(** The count that makes a name different is not itself recorded: a name made
    up for the second "a.txt" is the third file's. *)
Example zip_names_collide :
  z_names "d" = ["d/"; "d/e/"; "d/_.._etc_passwd"; "d/a (1).txt"; "d/a.txt"; "d/a (1).txt"].
Proof. by vm_compute. Qed.

Lemma z_tables : tables_ok (fm_tab z_state).
Proof. apply tables_okb_ok. by vm_compute. Qed.


Lemma zip_walk_ends_witness : is_Some (DownloadFolder (z_env false) z_state "d").
Proof. apply (zip_walk_ends (z_env false) z_state "d" z_tables). Defined.

Lemma zip_delivers_subtree_witness :
  exists st' flds items, DownloadFolder (z_env true) w_state "d" = Some (st', mkZResp 200 "" (zip_headers "d" false)
      (map (dir_entry (z_env true)) flds ++ map (file_entry (z_env true) st' false w_std) items) true) /\
    Forall (fun it => ze_data (file_entry (z_env true) st' false w_std it) = [1; 2; 3; 4; 5]) items.
Proof.
  destruct (zip_delivers_subtree (z_env true) w_state "d" (mkFolder "d" 1 None "d") false w_std (fun _ => w_chunks))
    as (st' & flds & items & H1 & _ & _ & _ & H2); try reflexivity.
  - apply tables_okb_ok. by vm_compute.
  - by split.
  - intros f d Hf _ _ _ _. split; [reflexivity|]. split; [repeat constructor; try done; vm_compute; discriminate|].
    split; [done|]. exists w_cas. split; [reflexivity|].
    assert (fr_cas (sf_row f) = w_hash) as ->.
    { change (f ∈ w_files) in Hf. unfold w_files in Hf. rewrite !elem_of_cons in Hf.
      destruct Hf as [->|[->|[->|[->|?%not_elem_of_nil]]]]; done. }
    unfold fs_read, w_state. cbn [fm_fs]. by rewrite lookup_singleton_eq.
  - exists st', flds, items. split; [exact H1|exact H2].
Defined.

Lemma zip_respects_vault_witness :
  exists st' r, DownloadFolder (z_env false) w_state "d" = Some (st', r) /\ zr_entries r <> [] /\
  (zr_entries r = [] \/
  exists inside name vk flds items,
    r = send_archive (z_env false) st' name inside vk flds items /\
    content_key (fe_req (ze_req (z_env false))) inside = Some vk /\
    (inside = true -> unlocked (ze_req (z_env false)) = true) /\
    (forall fld, fld ∈ flds -> in_vault (links_of (fm_tab w_state)) (ft_id fld) <-> inside = true) /\
    (forall it, it ∈ items -> exists f d, f ∈ tb_files (fm_tab w_state) /\ sf_row f = en_file it /\
       fr_folder (sf_row f) = Some d /\ fr_owner (sf_row f) = user_of (ze_req (z_env false)) /\ active f = true /\
       (in_vault (links_of (fm_tab w_state)) d <-> inside = true))).
Proof.
  destruct (DownloadFolder (z_env false) w_state "d") as [[st' r]|] eqn:Hd; [|by vm_compute in Hd].
  exists st', r. split; [done|]. split.
  - vm_compute in Hd. by injection Hd as _ <-.
  - exact (zip_respects_vault "cas" (z_env false) w_state "d" st' r w_ok eq_refl Hd).
Defined.

End ZipWitnesses.
