(* ===== verification/FileInfo.v ===== *)
(** * What is shown of a file: its size, kind and name
    (internal/controllers/file_controller.go, lines 1735-1828;
    internal/download/prober.go, detector.go, sniff.go)

    Sizes for people, icons, previews, categories, the clean name of a
    download and the extension its first bytes ask for.  A float64 is the
    exact number it stands for; printing one rounds to even. *)

From S2P Require Import Prelude GoStrings.

#[local] Open Scope string_scope.
#[local] Open Scope list_scope.
#[local] Open Scope Z_scope.

(** ** Floating point *)

(** [n / d] to the nearest integer, halves to even. *)
Definition round_half_even (n d : Z) : Z :=
  let q := n / d in
  let r := n mod d in
  if 2 * r <? d then q
  else if d <? 2 * r then q + 1
  else if Z.even q then q else q + 1.

(** [float64(b)] for [0 <= b]: 53 significant bits. *)
Definition float64_of_int (b : Z) : Z :=
  let e := Z.log2 b - 52 in
  if e <=? 0 then b else round_half_even b (2 ^ e) * 2 ^ e.

Fixpoint zeros (n : nat) : string := match n with O => "" | S n' => String "0" (zeros n') end.

Definition pad_left (n : nat) (s : string) : string := zeros (n - String.length s) +:+ s.

(** [%.kf] of the number [num / den], for [0 <= num]. *)
Definition format_fixed (k : nat) (num den : Z) : string :=
  let p := 10 ^ Z.of_nat k in
  let v := round_half_even (num * p) den in
  FormatInt (v / p) +:+ "." +:+ pad_left k (FormatInt (v mod p)).

(** ** Sizes *)

(** for n := b / unit; n >= unit; n /= unit: [div] and [exp]. *)
Fixpoint scale (fuel : nat) (n div : Z) (exp : nat) : Z * nat :=
  match fuel with
  | O => (div, exp)
  | S f => if 1024 <=? n then scale f (n / 1024) (i64 (div * 1024)) (S exp) else (div, exp)
  end.

(** The loop divides by 1024 each time. *)
Definition scale_fuel (b : Z) : nat := S (Z.to_nat (Z.log2 b)).

(** [None]: the index panics. *)
Definition formatBytes (b : Z) : option string :=
  if b <? 1024 then Some (FormatInt b +:+ " B")
  else
    let '(div, exp) := scale (scale_fuel b) (b / 1024) 1024 0 in
    (fun c => format_fixed 1 (float64_of_int b) div +:+ " " +:+ String c "B") <$> String.get exp "KMGTPE".

Definition size_units : list string := ["KB"; "MB"; "GB"; "TB"; "PB"].

Definition FormatFileSize (b : Z) : option string :=
  if b <=? 0 then Some "-"
  else if b <? 1024 then Some (FormatInt b +:+ " B")
  else
    let '(div, exp) := scale (scale_fuel b) (b / 1024) 1024 0 in
    (fun u => format_fixed 2 (float64_of_int b) div +:+ " " +:+ u) <$> size_units !! exp.

(** ** Kinds *)

Definition is_one_of (l : list string) (s : string) : bool := existsb (String.eqb s) l.

Definition contains_any (s : string) (l : list string) : bool := existsb (str_contains s) l.

Definition has_any_prefix (s : string) (l : list string) : bool := existsb (HasPrefix s) l.

(** The part after the last dot of the name, compound endings whole. *)
Definition getFileExt (name : string) : string :=
  match List.find (HasSuffix (ToLower name)) [".tar.gz"; ".tar.bz2"; ".tar.xz"] with
  | Some comp => drop_str 1 comp
  | None =>
      match rev (split_on "." name) with
      | e :: _ :: _ => e
      | _ => "FILE"
      end
  end.

Definition getFileIcon (name mime : string) : string :=
  let ext := ToLower (getFileExt name) in
  if is_one_of ["pdf"] ext then "file-text"
  else if is_one_of ["key"; "pem"; "crt"; "pub"] ext then "key"
  else if is_one_of ["tar.gz"; "zip"; "tar"; "gz"; "7z"; "rar"] ext then "archive"
  else if is_one_of ["png"; "jpg"; "jpeg"; "gif"; "webp"; "svg"] ext then "image"
  else if is_one_of ["mp4"; "mkv"; "webm"; "mov"; "avi"] ext then "video"
  else if is_one_of ["mp3"; "wav"; "ogg"; "flac"] ext then "music"
  else if is_one_of ["go"; "js"; "ts"; "html"; "css"; "json"; "sql"; "sh"; "py"; "md"; "rs"; "cpp"; "c"] ext then "code"
  else if is_one_of ["xls"; "xlsx"; "csv"] ext then "bar-chart-2"
  else if is_one_of ["doc"; "docx"; "txt"; "rtf"] ext then "file-text"
  else if HasPrefix mime "image/" then "image"
  else if HasPrefix mime "video/" then "video"
  else if HasPrefix mime "audio/" then "music"
  else "file".

Definition nonPreviewExts : list string :=
  ["zip"; "iso"; "rar"; "7z"; "tar"; "gz"; "tar.gz";
   "tgz"; "bz2"; "xz"; "cab"; "bin"; "exe"; "msi";
   "apk"; "dmg"; "pkg"; "deb"; "rpm"; "dll"; "so";
   "dylib"; "o"; "a"; "key"; "pem"; "crt"; "cer";
   "p12"; "pfx"; "class"; "pyc"; "dat"].

Definition previewExts : list string :=
  ["png"; "jpg"; "jpeg"; "gif"; "webp"; "svg"; "bmp"; "ico";
   "txt"; "md"; "markdown"; "json"; "xml"; "csv"; "tsv"; "log";
   "html"; "htm"; "css"; "js"; "ts"; "go"; "py"; "sh";
   "yaml"; "yml"; "sql"; "env"; "ini"; "conf"; "toml";
   "drawio"; "bkp"; "rs"; "cpp"; "c"; "h"; "java"; "kt";
   "doc"; "docx"; "xls"; "xlsx"; "ppt"; "pptx";
   "mp4"; "webm"; "mp3"; "wav"; "ogg"].

Definition IsPreviewable (name mime : string) : bool :=
  let ext := ToLower (getFileExt name) in
  if is_one_of nonPreviewExts ext then false
  else if str_contains mime "zip" || str_contains mime "tar"
          || str_contains mime "octet-stream" && (is_one_of nonPreviewExts ext || String.eqb ext "file")
  then false
  else if String.eqb ext "pdf" || String.eqb mime "application/pdf" then true
  else if has_any_prefix mime ["image/"; "video/"; "audio/"; "text/"] then true
  else is_one_of previewExts ext.

Definition ClassifyCategory (filename mimeType : string) : string :=
  let ext := ToLower (Ext filename) in
  let m := ToLower mimeType in
  if HasPrefix m "image/" then "image"
  else if HasPrefix m "video/" then "video"
  else if HasPrefix m "audio/" then "audio"
  else if String.eqb ext ".pdf" || contains_any m ["pdf"; "word"; "document"; "presentation"; "spreadsheet"] then "document"
  else if is_one_of [".zip"; ".rar"; ".7z"; ".tar"; ".gz"; ".bz2"; ".xz"] ext
          || contains_any m ["zip"; "compressed"; "tar"; "archive"] then "archive"
  else if is_one_of [".iso"; ".dmg"; ".img"] ext then "disk_image"
  else if is_one_of [".exe"; ".msi"; ".bin"; ".apk"; ".deb"; ".rpm"; ".elf"] ext || str_contains m "executable" then "executable"
  else if is_one_of [".go"; ".py"; ".js"; ".ts"; ".html"; ".css"; ".json"; ".yaml"; ".yml"; ".sql"; ".sh"] ext then "code"
  else "file".

(** ** Names of downloads *)

(** [strings.Trim(s, "._ ") == ""] *)
Definition only_dots (s : string) : bool :=
  string_forallb (fun c => existsb (Ascii.eqb c) ["."; "_"; " "]%char) s.

(** [strings.TrimRight(s, " \t")] *)
Fixpoint trim_blanks (s : string) : string :=
  match s with
  | EmptyString => EmptyString
  | String c s' =>
      match trim_blanks s' with
      | EmptyString => if Ascii.eqb c " " || Ascii.eqb c (ascii_of_byte 9) then EmptyString else String c EmptyString
      | r => String c r
      end
  end.

Definition fallback_name (fallback : string) : string :=
  if String.eqb fallback "" then "downloaded_file" else fallback.

Definition CleanFilename (name fallback : string) : string :=
  let clean := Base (Clean (TrimSpace name)) in
  if is_one_of [""; "."; "/"; "\"; ".."] clean then fallback_name fallback
  else
    let clean := replace_char (ascii_of_byte 34) "_" clean in
    let clean := replace_char "'" "_" clean in
    let clean := replace_char "/" "_" clean in
    let clean := replace_char "\" "_" clean in
    let clean := replace_char carriage_return "" clean in
    let clean := replace_char newline "" clean in
    if only_dots clean then fallback_name fallback else trim_blanks clean.

(** ** What the first bytes say *)

Record magicSignature := mkMagic { ms_offset : Z; ms_sig : bytes; ms_ext : string; ms_mime : string }.

Definition magicSignatures : list magicSignature :=
  [mkMagic 0 [37; 80; 68; 70; 45] ".pdf" "application/pdf";
   mkMagic 0 [80; 75; 3; 4] ".zip" "application/zip";
   mkMagic 0 [31; 139] ".gz" "application/gzip";
   mkMagic 0 [55; 122; 188; 175; 39; 28] ".7z" "application/x-7z-compressed";
   mkMagic 0 [82; 97; 114; 33; 26; 7] ".rar" "application/vnd.rar";
   mkMagic 0 [137; 80; 78; 71; 13; 10; 26; 10] ".png" "image/png";
   mkMagic 0 [255; 216; 255] ".jpg" "image/jpeg";
   mkMagic 0 (bytes_of_string "GIF87a") ".gif" "image/gif";
   mkMagic 0 (bytes_of_string "GIF89a") ".gif" "image/gif";
   mkMagic 0 (bytes_of_string "SQLite format 3" ++ [0]) ".sqlite" "application/vnd.sqlite3";
   mkMagic 0 (bytes_of_string "fLaC") ".flac" "audio/flac";
   mkMagic 0 (bytes_of_string "OggS") ".ogg" "audio/ogg";
   mkMagic 0 (bytes_of_string "ID3") ".mp3" "audio/mpeg";
   mkMagic 4 (bytes_of_string "ftyp") ".mp4" "video/mp4";
   mkMagic 0 [26; 69; 223; 163] ".mkv" "video/x-matroska";
   mkMagic 0 [127; 69; 76; 70] ".elf" "application/x-executable";
   mkMagic 0 [77; 90] ".exe" "application/x-msdownload";
   mkMagic 0 [0; 97; 115; 109] ".wasm" "application/wasm";
   mkMagic 257 (bytes_of_string "ustar") ".tar" "application/x-tar"].

Definition signature_at (buf : bytes) (s : magicSignature) : bool :=
  (ms_offset s + zlen (ms_sig s) <=? zlen buf)
  && bool_decide (ztake (zlen (ms_sig s)) (zdrop (ms_offset s) buf) = ms_sig s).

(** The extension and type of the signature table, then of RIFF files. *)
Definition detect_signature (buf : bytes) : string * string :=
  match List.find (signature_at buf) magicSignatures with
  | Some s => (ms_ext s, ms_mime s)
  | None =>
      if (12 <=? zlen buf) && bool_decide (ztake 4 buf = bytes_of_string "RIFF") then
        let riffType := ztake 4 (zdrop 8 buf) in
        if bool_decide (riffType = bytes_of_string "WEBP") then (".webp", "image/webp")
        else if bool_decide (riffType = bytes_of_string "WAVE") then (".wav", "audio/wav")
        else ("", "")
      else ("", "")
  end.

Definition octet_stream : string := "application/octet-stream".

Definition generic_extensions : list string := [""; ".bin"; ".dat"; ".tmp"; ".octet-stream"].

(** [detect] is http.DetectContentType. *)
Definition SniffMagicBytes (detect : bytes -> string) (buf : bytes) (proposedFilename proposedMime : string)
  : string * string :=
  if zlen buf =? 0 then (proposedFilename, proposedMime)
  else
    let '(detectedExt, detectedMime) := detect_signature buf in
    let detectedMime :=
      if String.eqb detectedMime "" then
        let stdMime := detect buf in
        if negb (String.eqb stdMime "") && negb (String.eqb stdMime octet_stream) then stdMime else detectedMime
      else detectedMime in
    let finalMime :=
      if (String.eqb proposedMime "" || String.eqb proposedMime octet_stream) && negb (String.eqb detectedMime "")
      then detectedMime else proposedMime in
    let curExt := ToLower (Ext proposedFilename) in
    if is_one_of generic_extensions curExt && negb (String.eqb detectedExt "") then
      let base := TrimSuffix proposedFilename curExt in
      ((if String.eqb base "" then "download" else base) +:+ detectedExt, finalMime)
    else (proposedFilename, finalMime).

Definition is_space_byte (b : Z) : bool := (9 <=? b) && (b <=? 13) || (b =? 32).

Fixpoint drop_spaces (b : bytes) : bytes :=
  match b with
  | [] => []
  | x :: b' => if is_space_byte x then drop_spaces b' else b
  end.

(** [bytes.TrimSpace] and [bytes.ToLower], ASCII. *)
Definition trim_space_bytes (b : bytes) : bytes := rev (drop_spaces (rev (drop_spaces b))).
Definition lower_bytes (b : bytes) : bytes := map (fun x => if (65 <=? x) && (x <=? 90) then x + 32 else x) b.

Definition html_prefixes : list string := ["<!doctype html"; "<html"; "<?xml"; "<head"; "<body"; "<script"].

Definition IsHTMLPayload (buf : bytes) : bool :=
  let trimmed := trim_space_bytes buf in
  if zlen trimmed =? 0 then false
  else existsb (fun p => bool_decide (ztake (slen p) (lower_bytes trimmed) = bytes_of_string p)) html_prefixes.

Definition IsBinaryExtension (filename : string) : bool :=
  is_one_of [".zip"; ".rar"; ".7z"; ".tar"; ".gz"; ".bz2"; ".xz";
             ".iso"; ".dmg"; ".img"; ".bin";
             ".exe"; ".msi"; ".apk"; ".deb"; ".rpm";
             ".pdf"; ".docx"; ".xlsx"; ".pptx";
             ".mp4"; ".mkv"; ".mp3"; ".flac"; ".png"; ".jpg"; ".jpeg"; ".gif"; ".webp";
             ".wasm"; ".sqlite"; ".sqlite3"] (ToLower (Ext filename)).

(** ** Properties of file information

    Every size an int64 can hold is shown in its unit, by the one of the two
    formatters that has enough units; the clean name of a download has no
    separator; sniffing replaces at most a generic extension. *)

(** ** Sizes *)

Lemma scale_spec fuel n k :
  0 < n < 1024 ^ Z.of_nat fuel -> 1024 * 1024 ^ Z.of_nat k * n < 2 ^ 63 ->
  let '(div, exp) := scale fuel n (1024 * 1024 ^ Z.of_nat k) k in
  div = 1024 * 1024 ^ Z.of_nat exp /\ (k <= exp)%nat /\ 1 <= n / 1024 ^ (Z.of_nat exp - Z.of_nat k) < 1024.
Proof.
  revert n k. induction fuel as [|f IH]; intros n k Hn Hb; [cbn in Hn; lia|]. cbn [scale].
  destruct (Z.leb_spec 1024 n) as [Hbig|Hsmall].
  - assert (0 < 1024 ^ Z.of_nat k) as Hp by (apply Z.pow_pos_nonneg; lia).
    assert (i64 (1024 * 1024 ^ Z.of_nat k * 1024) = 1024 * 1024 ^ Z.of_nat (S k)) as ->.
    { rewrite i64_id; [rewrite Nat2Z.inj_succ, Z.pow_succ_r by lia; lia|]. unfold in_i64. nia. }
    specialize (IH (n / 1024) (S k)). rewrite (Nat2Z.inj_succ f), Z.pow_succ_r in Hn by lia.
    rewrite (Nat2Z.inj_succ k), Z.pow_succ_r in IH |- * by lia.
    assert (0 < n / 1024 < 1024 ^ Z.of_nat f) as H1
      by (split; [apply Z.div_str_pos; lia|apply Z.div_lt_upper_bound; lia]).
    assert (1024 * (1024 * 1024 ^ Z.of_nat k) * (n / 1024) < 2 ^ 63) as H2.
    { pose proof (Z.mul_div_le n 1024 ltac:(lia)). nia. }
    specialize (IH H1 H2). destruct (scale f (n / 1024) _ (S k)) as [div exp]. destruct IH as (-> & Hk & Hd).
    split; [done|]. split; [lia|]. rewrite Z.div_div in Hd by (first [lia|apply Z.pow_pos_nonneg; lia]).
    replace (Z.of_nat exp - Z.of_nat k) with (Z.succ (Z.of_nat exp - Z.succ (Z.of_nat k))) by lia.
    rewrite Z.pow_succ_r by lia. done.
  - split; [done|]. split; [done|]. rewrite Z.sub_diag, Z.pow_0_r, Z.div_1_r. lia.
Qed.

(** The unit of a size: the power of 1024 it has between one and 1024 of. *)
Lemma scale_unit b : 1024 <= b < 2 ^ 63 ->
  exists exp, scale (scale_fuel b) (b / 1024) 1024 0 = (1024 ^ Z.of_nat (S exp), exp) /\
    1 <= b / 1024 ^ Z.of_nat (S exp) < 1024 /\ (exp <= 5)%nat.
Proof.
  intros Hb. pose proof (scale_spec (scale_fuel b) (b / 1024) 0) as Hs. cbn [Z.of_nat] in Hs. rewrite Z.pow_0_r, Z.mul_1_r in Hs.
  assert (0 < b / 1024 < 1024 ^ Z.of_nat (scale_fuel b)) as H1.
  { split; [apply Z.div_str_pos; lia|]. apply Z.div_lt_upper_bound; [lia|]. unfold scale_fuel.
    rewrite Nat2Z.inj_succ, Z2Nat.id by (apply Z.log2_nonneg). pose proof (Z.log2_spec b ltac:(lia)) as [_ Hl].
    pose proof (Z.pow_le_mono_l 2 1024 (Z.succ (Z.log2 b)) ltac:(lia)). nia. }
  assert (1024 * (b / 1024) < 2 ^ 63) as H2 by (pose proof (Z.mul_div_le b 1024 ltac:(lia)); lia).
  specialize (Hs H1 H2). destruct (scale _ _ 1024 0) as [div exp]. destruct Hs as (-> & _ & Hd). exists exp.
  rewrite Z.sub_0_r in Hd. rewrite Z.div_div in Hd by (first [lia|apply Z.pow_pos_nonneg; lia]).
  rewrite <- Z.pow_succ_r, <- Nat2Z.inj_succ in * by lia. split; [done|]. split; [done|].
  destruct (Nat.le_gt_cases exp 5) as [|Hgt]; [done|]. exfalso.
  assert (1024 ^ 7 <= 1024 ^ Z.of_nat (S exp)) by (apply Z.pow_le_mono_r; lia).
  rewrite Z.div_small in Hd by lia. lia.
Qed.

(** sizes have a unit.  formatBytes answers for every int64: below 1024
    the bytes, else the size divided by the power of 1024 that leaves a value
    from one to 1024, with that power's letter.  FormatFileSize, of the
    download probe, has no unit from 1024^6 bytes on: there, and only there,
    its index panics. *)
Theorem sizes_have_units b :
  in_i64 b ->
  (exists s, formatBytes b = Some s) /\
  (1024 <= b -> exists exp c, String.get exp "KMGTPE" = Some c /\ 1 <= b / 1024 ^ Z.of_nat (S exp) < 1024 /\
     formatBytes b = Some (format_fixed 1 (float64_of_int b) (1024 ^ Z.of_nat (S exp)) +:+ " " +:+ String c "B")) /\
  (FormatFileSize b = None <-> 2 ^ 60 <= b).
Proof.
  intros Hi. unfold in_i64 in Hi. unfold formatBytes, FormatFileSize.
  destruct (Z.ltb_spec b 1024) as [Hs|Hs].
  { split; [by eexists|]. split; [lia|]. destruct (b <=? 0); (split; [done|lia]). }
  destruct (scale_unit b) as (exp & -> & Hd & He); [lia|]. destruct (Z.leb_spec b 0); [lia|].
  assert (exists c, String.get exp "KMGTPE" = Some c) as [c Hc]
    by (do 6 (destruct exp as [|exp]; [by eexists|]); lia).
  rewrite Hc. split; [by eexists|]. split; [intros _; by exists exp, c|].
  destruct (decide (exp = 5%nat)) as [->|Hne].
  - split; [intros _|done]. apply Z.nlt_ge. intros Hlt. rewrite Z.div_small in Hd by lia. lia.
  - assert (exists u, size_units !! exp = Some u) as [u ->]
      by (do 5 (destruct exp as [|exp]; [by eexists|]); lia).
    split; [done|]. intros Hb. exfalso.
    assert (1024 ^ Z.of_nat (S exp) <= 1024 ^ 5) by (apply Z.pow_le_mono_r; lia).
    assert (1024 <= b / 1024 ^ Z.of_nat (S exp)); [|lia]. apply Z.div_le_lower_bound; [apply Z.pow_pos_nonneg; lia|]. nia.
Qed.

Lemma sizes_have_units_witness :
  formatBytes 25690112 = Some "24.5 MB" /\ formatBytes (2 ^ 63 - 1) = Some "8.0 EB" /\ FormatFileSize (2 ^ 60) = None.
Proof.
  split; [by vm_compute|]. split; [by vm_compute|]. apply (sizes_have_units (2 ^ 60)); by vm_compute.
Defined.

(** ** Names *)

Lemma forallb_filter_last p (l : list string) d :
  Forall (fun x => string_forallb p x = true) l -> string_forallb p d = true -> string_forallb p (List.last l d) = true.
Proof. induction 1 as [|x l Hx Hl IH]; [done|]. intros Hd. destruct l; [done|by apply IH]. Qed.

Lemma Base_no_slash s : s <> "" -> Base s = "/" \/ no_slash (Base s) = true.
Proof.
  intros Hs. unfold Base. rewrite (proj2 (String.eqb_neq _ _) Hs).
  assert (Forall (fun x => no_slash x = true) (split_on slash s)) as Hall.
  { clear. induction s as [|a s IH]; [by repeat constructor|]. cbn. destruct (Ascii.eqb a slash) eqn:Ha; [by constructor|].
    destruct IH as [|x l Hx Hl]; [repeat constructor; unfold no_slash, without; cbn; by rewrite Ha|].
    constructor; [|done]. unfold no_slash, without in *. cbn. by rewrite Ha, Hx. }
  destruct (List.filter _ (split_on slash s)) as [|x l] eqn:Hf; [by left|right]. rewrite <- Hf.
  apply forallb_filter_last; [|done]. apply Forall_forall. intros y Hy. apply list_elem_of_In, List.filter_In in Hy as [Hy _].
  rewrite Forall_forall in Hall. by apply Hall, list_elem_of_In.
Qed.

(** The characters CleanFilename takes out. *)
Definition forbidden : list Ascii.ascii := [ascii_of_byte 34; "'"; "/"; "\"; carriage_return; newline]%char.

Lemma without_replace c b s : without c b = true -> without c (replace_char c b s) = true.
Proof.
  intros Hb. apply forallb_replace; [|done]. intros a. destruct (Ascii.eqb_spec a c) as [->|]; [by right|by left].
Qed.

Lemma forallb_trim_blanks p s : string_forallb p s = true -> string_forallb p (trim_blanks s) = true.
Proof.
  induction s as [|a s IH]; [done|]. cbn. intros [Ha Hs]%andb_true_iff. specialize (IH Hs).
  destruct (trim_blanks s) as [|b r]; [|cbn [string_forallb] in *; by rewrite Ha, IH].
  destruct (_ || _); [done|]. cbn. by rewrite Ha.
Qed.

(** the clean name of a download.  The name is the fallback, or it has no
    quote, no slash or backslash and no line break.  It may still be ".." or
    empty: blanks are cut off only after the name was tested. *)
Theorem clean_filename_safe name fallback :
  (CleanFilename name fallback = fallback_name fallback \/
   Forall (fun c => without c (CleanFilename name fallback) = true) forbidden) /\
  CleanFilename (".." +:+ String (ascii_of_byte 9) "/") fallback = ".." /\
  CleanFilename ("a/" +:+ String (ascii_of_byte 9) "/") fallback = "".
Proof.
  split; [|by split]. unfold CleanFilename. destruct (is_one_of _ _); [by left|].
  set (c1 := replace_char (ascii_of_byte 34) "_" _). set (c2 := replace_char "'" "_" c1). set (c3 := replace_char "/" "_" c2).
  set (c4 := replace_char "\" "_" c3). set (c5 := replace_char carriage_return "" c4).
  destruct (only_dots _); [by left|right].
  assert (forall c, without c "_" = true -> without c c1 = true -> without c (trim_blanks (replace_char newline "" c5)) = true) as H1.
  { intros c Hc H1. unfold without. apply forallb_trim_blanks. unfold c5, c4, c3, c2. by do 5 (apply forallb_replace_keep; [done|]). }
  unfold forbidden. rewrite !Forall_cons. split_and!; [..|constructor]; unfold without; apply forallb_trim_blanks.
  - unfold c5, c4, c3, c2. do 5 (apply forallb_replace_keep; [done|]). by apply without_replace.
  - unfold c5, c4, c3. do 4 (apply forallb_replace_keep; [done|]). by apply without_replace.
  - unfold c5, c4. do 3 (apply forallb_replace_keep; [done|]). by apply without_replace.
  - unfold c5. do 2 (apply forallb_replace_keep; [done|]). by apply without_replace.
  - apply forallb_replace_keep; [done|]. by apply without_replace.
  - by apply without_replace.
Qed.

(** ** Sniffing *)

(** sniffing a download.  A file with an extension of its own keeps its
    name, and a type that says something is kept; a generic extension gives
    way to the one of the signature - in lower case only: an extension in
    capitals stays and the detected one is appended. *)
Theorem sniff_keeps_names detect buf name mime :
  let '(name', mime') := SniffMagicBytes detect buf name mime in
  (is_one_of generic_extensions (ToLower (Ext name)) = false -> name' = name) /\
  (mime <> "" -> mime <> octet_stream -> mime' = mime) /\
  (forall base ext, name = base +:+ ext -> Ext name = ext -> ToLower ext = ext -> base <> "" ->
     is_one_of generic_extensions ext = true -> buf <> [] -> fst (detect_signature buf) <> "" ->
     name' = base +:+ fst (detect_signature buf)) /\
  fst (SniffMagicBytes detect [37; 80; 68; 70; 45] "DATA.BIN" mime) = "DATA.BIN.pdf".
Proof.
  assert (fst (SniffMagicBytes detect [37; 80; 68; 70; 45] "DATA.BIN" mime) = "DATA.BIN.pdf") as Hcap by reflexivity.
  destruct (SniffMagicBytes detect buf name mime) as [name' mime'] eqn:Hs. unfold SniffMagicBytes in Hs.
  destruct (Z.eqb_spec (zlen buf) 0) as [Hz|Hz].
  { injection Hs as <- <-. split_and!; [done|done| |done]. intros base ext _ _ _ _ _ Hb. by destruct (zlen_nil_inv buf ltac:(lia)). }
  destruct (detect_signature buf) as [de dm]. cbn [fst].
  set (dm' := if String.eqb dm "" then _ else dm) in Hs.
  assert (mime <> "" -> mime <> octet_stream ->
    (if (String.eqb mime "" || String.eqb mime octet_stream) && negb (String.eqb dm' "") then dm' else mime) = mime) as Hm.
  { intros H1 H2. by rewrite (proj2 (String.eqb_neq _ _) H1), (proj2 (String.eqb_neq _ _) H2). }
  destruct (is_one_of generic_extensions (ToLower (Ext name))) eqn:Hg; cbn [andb] in Hs.
  - destruct (String.eqb_spec de "") as [Hde|Hde]; injection Hs as <- <-; (split_and!; [done|done| |done]).
    + intros; congruence.
    + intros base ext Hn He Hl Hb _ _ _. rewrite He, Hl, Hn, TrimSuffix_app.
      by rewrite (proj2 (String.eqb_neq _ _) Hb).
  - injection Hs as <- <-. split_and!; [done|done| |done]. intros base ext _ He Hl _ Hge. exfalso.
    rewrite He, Hl in Hg. congruence.
Qed.

Lemma sniff_keeps_names_witness :
  fst (SniffMagicBytes (fun _ => "") [37; 80; 68; 70; 45] "a.bin" "") = "a.pdf".
Proof.
  pose proof (sniff_keeps_names (fun _ => "") [37; 80; 68; 70; 45] "a.bin" "") as H.
  destruct (SniffMagicBytes _ _ "a.bin" "") as [name' mime'].
  by apply (proj1 (proj2 (proj2 H)) "a" ".bin").
Defined.
