(* ===== verification/Listing.v ===== *)
(** * Listing files and folders (internal/controllers/file_controller.go,
    lines 57-174, 282-559 and 1649-1715)

    GetFiles, GetFolders, GetStorageStats, and the data a first start puts
    into the tables.  A query is a predicate on rows and an order; the
    environment carries the request's parameters and the created_at column. *)

From S2P Require Import Prelude GoStrings FileSys CryptoPrims CryptoVault CAS UploadSession VaultTree Auth UploadCtrl FileDownload FileTable FileOps FileInfo.

#[local] Open Scope string_scope.
#[local] Open Scope list_scope.
#[local] Open Scope Z_scope.

(** ** Searching *)

(** [strings.Fields] *)
Fixpoint fields_from (word : string) (s : string) : list string :=
  match s with
  | EmptyString => if String.eqb word "" then [] else [word]
  | String c s' =>
      if is_space c then (if String.eqb word "" then fields_from "" s' else word :: fields_from "" s')
      else fields_from (word +:+ String c "") s'
  end.

Definition Fields (s : string) : list string := fields_from "" s.

Definition backslash : Ascii.ascii := ascii_of_byte 92.

(** The term with the wildcards of LIKE escaped. *)
Definition escape_like (term : string) : string :=
  replace_char "_" (String backslash "_")
    (replace_char "%" (String backslash "%") (replace_char backslash (String backslash (String backslash "")) term)).

(** x LIKE pattern ESCAPE '\': "%" is any string, "_" any character, and
    letters match without regard to case; the fuel is the length of both. *)
Fixpoint like_match (fuel : nat) (pattern s : string) : bool :=
  match fuel with
  | O => false
  | S f =>
      match pattern with
      | EmptyString => String.eqb s ""
      | String p pat =>
          if Ascii.eqb p "%" then
            like_match f pat s || match s with EmptyString => false | String _ s' => like_match f pattern s' end
          else if Ascii.eqb p "_" then match s with EmptyString => false | String _ s' => like_match f pat s' end
          else if Ascii.eqb p backslash then
            match pat, s with
            | String q pat', String c s' => Ascii.eqb (lower_ascii q) (lower_ascii c) && like_match f pat' s'
            | _, _ => false
            end
          else match s with EmptyString => false | String c s' => Ascii.eqb (lower_ascii p) (lower_ascii c) && like_match f pat s' end
      end
  end.

Definition LIKE (s pattern : string) : bool := like_match (S (String.length pattern + String.length s)) pattern s.

(** LOWER(column) LIKE '%term%' ESCAPE '\' *)
Definition column_matches (column term : string) : bool :=
  LIKE (ToLower column) ("%" +:+ escape_like term +:+ "%").

(** ** Requests and state *)

(** [q_*] are the query parameters, "" when absent; [created] is created_at
    of a row, by its id, None when NULL. *)
Record list_env := mkLEnv {
  le_req : file_env;
  q_tab : string;
  q_search : string;
  q_folder : string;
  q_sort_by : string;
  q_order : string;
  q_limit : string;
  q_offset : string;
  q_all : string;
  created : string -> option string;
  le_parse : string -> string -> option Z;
  format_day : Z -> string;
  (** what a first start draws, and the password it finds *)
  seed_salt : bytes;
  seed_vk : bytes;
  seed_nonce : bytes;
  HORNETZ_MASTER_PASSWORD : string;
  (** the capacities of the disk the store is on and of "." *)
  cas_capacity : option Z;
  disk_capacity : option Z;
  quota_setting : Z
}.

Record ls_state := mkLS { ls_fm : fm_state; ls_users : gmap Z user_row; ls_seeded : bool }.

Definition with_fm (st : ls_state) (s : fm_state) : ls_state := mkLS s (ls_users st) (ls_seeded st).

(** ** The first start *)

(** INSERT OR IGNORE *)
Definition insert_folders (fs : list folder_row) (t : tables) : tables :=
  foldl (fun t f => default t (insert_folder f t)) t fs.

Definition insert_file_ignore (f : stored_file) (t : tables) : tables :=
  if existsb (fun g => String.eqb (fr_id (sf_row g)) (fr_id (sf_row f))) (tb_files t) then t
  else mkTables (tb_folders t) (tb_files t ++ [f]).

Definition seed_folders : list folder_row :=
  [mkFolder "f1" 1 None "Dokumen Keuangan 2026"; mkFolder "f2" 1 None "Kunci SSH & SSL Privasi";
   mkFolder "f3" 1 None "Arsip Kode & Desain Sistem"].

Definition seed_file (id folder name mime : string) (size : Z) (hash : string) (starred : bool) : stored_file :=
  mkStored (mkRow id 1 (Some folder) name mime size hash "" false) starred.

Definition seed_files : list stored_file :=
  [seed_file "file_1" "f1" "laporan_keuangan_q3_2026.pdf" "application/pdf" 25690112
     "a8f3b2c91d4e5f67890abcdef1234567890abcdef1234567890abcdef1234567" true;
   seed_file "file_2" "f2" "kunci_akses_master_vault.key" "application/octet-stream" 4300
     "f9e8d7c6b5a432109876543210fedcba9876543210fedcba9876543210fedcba" false;
   seed_file "file_3" "f3" "hornetz_system_architecture.pdf" "application/pdf" 19084000
     "1234567890abcdef1234567890abcdef1234567890abcdef1234567890abcdef" false;
   seed_file "file_4" "f3" "cadangan_basis_data_swarm.tar.gz" "application/gzip" 1503238553
     "7766554433221100998877665544332211009988776655443322110099887766" false].

Definition default_password : string := "HornetzAdmin@2026!".

Section Listing.
Context `{CryptoPrims}.

Definition seed_password (e : list_env) : string :=
  if String.eqb (HORNETZ_MASTER_PASSWORD e) "" then default_password else HORNETZ_MASTER_PASSWORD e.

(** The row of the first user: a fresh vault key wrapped under the key
    derived from the password. *)
Definition seed_user (e : list_env) : user_row :=
  let mek := DeriveMEK (bytes_of_string (seed_password e)) (seed_salt e) in
  mkUser (EncodeToString mek) (seed_salt e)
    (match EncryptBlock (Ok (seed_nonce e)) (seed_vk e) mek with Ok b => b | Err _ => [] end).

(** seedInitialDataInternal on sqlite; the ALTER statements fail when the
    columns exist and are not modelled.  A failed count reads as zero. *)
Definition seedInitialDataInternal (e : list_env) (st : ls_state) : ls_state :=
  if can_query (le_req e) && negb (bool_decide (ls_users st = ∅)) then st
  else if negb (can_exec (le_req e)) then st
  else
    let u := seed_user e in
    let users := match ls_users st !! 1 with
                 | Some r => if String.eqb (password_hash r) "hash" then <[1 := u]> (ls_users st) else ls_users st
                 | None => <[1 := u]> (ls_users st)
                 end in
    let t := foldl (fun t f => insert_file_ignore f t) (insert_folders seed_folders (fm_tab (ls_fm st))) seed_files in
    mkLS (with_tab (ls_fm st) t) users (ls_seeded st).

(** seedOnce.Do *)
Definition SeedInitialData (e : list_env) (st : ls_state) : ls_state :=
  if ls_seeded st then st
  else let st' := seedInitialDataInternal e st in mkLS (ls_fm st') (ls_users st') true.

(** ** GetFiles *)

(** folder_id IN (...); the list is never empty. *)
Definition includes (ids : list string) (f : stored_file) : bool :=
  match fr_folder (sf_row f) with
  | Some d => match ids with [] => String.eqb d "f2" | _ => bool_decide (d ∈ ids) end
  | None => false
  end.

Definition vaultIncludeFilter (e : file_env) (st : fm_state) : fm_state * (stored_file -> bool) :=
  let '(c, ids) := GetAllVaultFolderIDs (folder_query e st) (fm_cache st) in (with_cache st c, includes ids).

Definition in_folder (id : string) (f : stored_file) : bool := bool_decide (fr_folder (sf_row f) = Some id).

(** The conditions on where a file lies (lines 315-354). *)
Definition file_scope (e : list_env) (st : fm_state) (isUnlocked : bool) (search : string)
  : fm_state * (stored_file -> bool) :=
  let r := le_req e in
  let folderID := q_folder e in
  if String.eqb (q_tab e) "trash" then
    let '(st, shown) := if isUnlocked then (st, fun _ => true) else vaultExcludeFilter r st in
    (st, fun f => fr_deleted (sf_row f) && shown f)
  else
    let '(st, shown) :=
      if String.eqb (q_tab e) "starred" then
        let '(st, p) := if isUnlocked then (st, fun _ => true) else vaultExcludeFilter r st in
        (st, fun f => sf_starred f && p f)
      else if String.eqb (q_tab e) "vault" then
        if negb (String.eqb folderID "") && String.eqb search "" then (st, in_folder folderID)
        else if String.eqb folderID "" && String.eqb search "" then (st, in_folder "f2")
        else vaultIncludeFilter r st
      else if negb (String.eqb folderID "") && String.eqb search "" then
        let '(st, hidden) := if isUnlocked then (st, false) else in_vault_now r st folderID in
        (st, fun f => in_folder folderID f && negb hidden)
      else if String.eqb folderID "" && String.eqb search "" then
        let '(st, p) := vaultExcludeFilter r st in (st, fun f => String.eqb (file_folder f) "" && p f)
      else vaultExcludeFilter r st in
    (st, fun f => active f && shown f).

(** Every term in the name or the hash (lines 356-368). *)
Definition file_matches (search : string) (f : stored_file) : bool :=
  if String.eqb search "" then true
  else forallb (fun term => column_matches (fr_name (sf_row f)) term || column_matches (fr_cas (sf_row f)) term)
         (Fields (ToLower search)).

(** The order of rows (lines 370-389): by a key, ascending or descending. *)
Inductive sort_key := ByName | BySize | ByCreated.

Definition file_order (e : list_env) : sort_key * bool :=
  let desc := String.eqb (ToLower (q_order e)) "desc" in
  if String.eqb (q_sort_by e) "name" then (ByName, desc)
  else if String.eqb (q_sort_by e) "size" then (BySize, desc)
  else if String.eqb (q_sort_by e) "created_at" then (ByCreated, desc)
  else (ByCreated, true).

(** NULL sorts before every text. *)
Definition opt_le (a b : option string) : bool :=
  match a, b with
  | None, _ => true
  | Some _, None => false
  | Some x, Some y => String.leb x y
  end.

Definition file_before (e : list_env) (k : sort_key) (a b : stored_file) : bool :=
  match k with
  | ByName => String.leb (fr_name (sf_row a)) (fr_name (sf_row b))
  | BySize => fr_size (sf_row a) <=? fr_size (sf_row b)
  | ByCreated => opt_le (created e (fr_id (sf_row a))) (created e (fr_id (sf_row b)))
  end.

(** Rows that compare equal stay in the order of the table. *)
Definition file_le (e : list_env) (o : sort_key * bool) (a b : stored_file) : Prop :=
  (if snd o then file_before e (fst o) b a else file_before e (fst o) a b) = true.

#[export] Instance file_le_dec e o : RelDecision (file_le e o).
Proof. intros a b. unfold file_le. apply _. Defined.

(** LIMIT and OFFSET (lines 391-402). *)
Definition page {A} (e : list_env) (l : list A) : list A :=
  match ParseInt (q_limit e) with
  | Some limit =>
      if negb (String.eqb (q_limit e) "") && (0 <? limit) then
        let offset := match ParseInt (q_offset e) with
                      | Some o => if negb (String.eqb (q_offset e) "") && (0 <=? o) then o else 0
                      | None => 0
                      end in
        ztake limit (zdrop offset l)
      else l
  | None => l
  end.

(** An element of the answer: the row, and what is computed from it. *)
Record FileRecord := mkRecord {
  rec_file : stored_file;
  rec_CreatedAt : string;
  Icon : string;
  FExt : string;
  IsVault : bool;
  HasPreview : bool;
  PreviewURL : string;
  ThumbURL : string;
  SizeFormatted : option string;
  DateFormatted : string
}.

Definition date_formatted (e : list_env) (s : string) : string :=
  if String.eqb s "" then ""
  else
    match le_parse e "2006-01-02T15:04:05Z07:00" s with
    | Some t => format_day e t
    | None =>
        match le_parse e "2006-01-02 15:04:05" s with
        | Some t => format_day e t
        | None => match le_parse e "2006-01-02T15:04:05Z" s with Some t => format_day e t | None => s end
        end
    end.

Definition record_of (e : list_env) (f : stored_file) (createdAt : string) (isVault : bool) : FileRecord :=
  let r := sf_row f in
  let preview := IsPreviewable (fr_name r) (fr_mime r) in
  mkRecord f createdAt (getFileIcon (fr_name r) (fr_mime r)) (getFileExt (fr_name r)) isVault preview
    (if preview then "/api/files/" +:+ fr_id r +:+ "/preview" else "")
    (if preview then "/api/files/" +:+ fr_id r +:+ "/thumbnail" else "")
    (formatBytes (fr_size r)) (date_formatted e createdAt).

(** The loop over the rows; a row whose created_at is NULL does not scan. *)
Fixpoint scan_files (e : list_env) (st : fm_state) (rows : list stored_file) : fm_state * list FileRecord :=
  match rows with
  | [] => (st, [])
  | f :: rows' =>
      match created e (fr_id (sf_row f)) with
      | None => scan_files e st rows'
      | Some c =>
          let '(st, v) := in_vault_now (le_req e) st (file_folder f) in
          let '(st, recs) := scan_files e st rows' in
          (st, record_of e f c v :: recs)
      end
  end.

Definition owned_by (e : list_env) (f : stored_file) : bool := fr_owner (sf_row f) =? user_of (le_req e).

(** [inl] is the refusal. *)
Definition GetFiles (e : list_env) (st : ls_state) : ls_state * (resp + list FileRecord) :=
  let r := le_req e in
  let st := SeedInitialData e st in
  let s := with_cache (ls_fm st) (fst (GetAllVaultFolderIDs (folder_query r (ls_fm st)) (fm_cache (ls_fm st)))) in
  let search := TrimSpace (q_search e) in
  let isUnlocked := unlocked r in
  let '(s, asked) := if String.eqb (q_tab e) "vault" then (s, true) else in_vault_now r s (q_folder e) in
  if asked && negb isUnlocked then (with_fm st s, inl vault_locked)
  else
    let '(s, scope) := file_scope e s isUnlocked search in
    if negb (can_query r) then (with_fm st s, inr [])
    else
      let rows := List.filter (fun f => owned_by e f && scope f && file_matches search f) (tb_files (fm_tab s)) in
      let '(s, recs) := scan_files e s (page e (merge_sort (file_le e (file_order e)) rows)) in
      (with_fm st s, inr recs).

(** ** GetFolders *)

(** In GetFolders [q_folder] is the parameter parent_id. *)
Definition folder_scope (e : list_env) (st : fm_state) (isUnlocked : bool) (search : string)
  : fm_state * (folder_row -> bool) :=
  let r := le_req e in
  let parentID := q_folder e in
  let vault_ids st := let '(c, ids) := GetAllVaultFolderIDs (folder_query r st) (fm_cache st) in (with_cache st c, ids) in
  let outside st :=
    if isUnlocked then (st, fun _ => true)
    else let '(st, ids) := vault_ids st in (st, fun f => negb (bool_decide (fo_id f ∈ ids))) in
  if String.eqb (q_all e) "true" then
    let '(st, p) := outside st in (st, fun f => negb (String.eqb (fo_id f) "f2") && p f)
  else if negb (String.eqb parentID "") && String.eqb search "" then
    let '(st, hidden) := if isUnlocked then (st, false) else in_vault_now r st parentID in
    (st, fun f => bool_decide (fo_parent f = Some parentID) && negb hidden)
  else if String.eqb (q_tab e) "vault" then
    if String.eqb search "" then (st, fun f => bool_decide (fo_parent f = Some "f2"))
    else let '(st, ids) := vault_ids st in (st, fun f => bool_decide (fo_id f ∈ ids))
  else
    let '(st, p) := outside st in
    (st, fun f => negb (String.eqb (fo_id f) "f2") && (negb (String.eqb search "") || is_root (fo_parent f)) && p f).

Definition folder_matches (search : string) (f : folder_row) : bool :=
  if String.eqb search "" then true else forallb (column_matches (fo_name f)) (Fields (ToLower search)).

Definition folder_order (e : list_env) : sort_key * bool :=
  let desc := String.eqb (ToLower (q_order e)) "desc" in
  if String.eqb (q_sort_by e) "name" then (ByName, desc)
  else if String.eqb (q_sort_by e) "created_at" then (ByCreated, desc)
  else (ByCreated, true).

Definition folder_before (e : list_env) (k : sort_key) (a b : folder_row) : bool :=
  match k with
  | ByName => String.leb (fo_name a) (fo_name b)
  | _ => opt_le (created e (fo_id a)) (created e (fo_id b))
  end.

Definition folder_le (e : list_env) (o : sort_key * bool) (a b : folder_row) : Prop :=
  (if snd o then folder_before e (fst o) b a else folder_before e (fst o) a b) = true.

#[export] Instance folder_le_dec e o : RelDecision (folder_le e o).
Proof. intros a b. unfold folder_le. apply _. Defined.

Record FolderRecord := mkFRecord { rec_folder : folder_row; FileCount : Z; FCreatedAt : string }.

(** COUNT(fi.id) over the join with the files of the folder, whoever owns
    them. *)
Definition file_count (t : tables) (id : string) : Z :=
  zlen (List.filter (fun f => in_folder id f && active f) (tb_files t)).

Definition scan_folders (e : list_env) (t : tables) (rows : list folder_row) : list FolderRecord :=
  omap (fun f => (fun c => mkFRecord f (file_count t (fo_id f)) c) <$> created e (fo_id f)) rows.

Definition GetFolders (e : list_env) (st : ls_state) : ls_state * (resp + list FolderRecord) :=
  let r := le_req e in
  let st := SeedInitialData e st in
  let search := TrimSpace (q_search e) in
  let isUnlocked := unlocked r in
  let '(s, asked) := if String.eqb (q_tab e) "vault" then (ls_fm st, true) else in_vault_now r (ls_fm st) (q_folder e) in
  if asked && negb isUnlocked then (with_fm st s, inl vault_locked)
  else
    let '(s, scope) := folder_scope e s isUnlocked search in
    if negb (can_query r) then (with_fm st s, inr [])
    else
      let rows := List.filter (fun f => (fo_owner f =? user_of r) && scope f && folder_matches search f)
                    (tb_folders (fm_tab s)) in
      (with_fm st s, inr (scan_folders e (fm_tab s) (merge_sort (folder_le e (folder_order e)) rows))).

(** ** GetStorageStats *)

(** [PercentUsed] is the quotient whose nearest float64 is sent. *)
Record StorageStats := mkStats {
  UsedBytes : Z;
  QuotaBytes : Z;
  UsedFormatted : option string;
  QuotaFormatted : option string;
  PercentUsed : Z * Z;
  StatFileCount : Z;
  TrashBytes : Z;
  TrashFormatted : option string
}.

Definition getQuotaBytes (e : list_env) (c : option CASEngine) : Z :=
  let positive o := match o with Some v => if 0 <? v then Some v else None | None => None end in
  if 0 <? quota_setting e then quota_setting e
  else
    match (match c with Some _ => positive (cas_capacity e) | None => None end) with
    | Some v => v
    | None => default (500 * 1024 * 1024 * 1024) (positive (disk_capacity e))
    end.

Definition sum_sizes (p : stored_file -> bool) (t : tables) : Z :=
  foldr Z.add 0 (map (fun f => fr_size (sf_row f)) (List.filter p (tb_files t))).

(** The aggregate query succeeds. *)
Definition totals_fit (e : list_env) (t : tables) : bool :=
  can_query (le_req e) && bool_decide (in_i64 (sum_sizes (fun f => owned_by e f && active f) t))
  && bool_decide (in_i64 (sum_sizes (fun f => owned_by e f && negb (active f)) t)).

(** The aggregate query: sums that do not fit an int64 make it fail, and a
    failed query leaves zeros. *)
Definition size_totals (e : list_env) (t : tables) : Z * Z :=
  let a := sum_sizes (fun f => owned_by e f && active f) t in
  let d := sum_sizes (fun f => owned_by e f && negb (active f)) t in
  if totals_fit e t then (a, d) else (0, 0).

Definition GetStorageStats (e : list_env) (st : ls_state) : ls_state * StorageStats :=
  let r := le_req e in
  let st := SeedInitialData e st in
  let '(activeUsed, trashedUsed) := size_totals e (fm_tab (ls_fm st)) in
  let '(s, shown) := if unlocked r then (ls_fm st, fun _ => true) else vaultExcludeFilter r (ls_fm st) in
  let activeCount :=
    if (if unlocked r then totals_fit e (fm_tab s) else can_query r)
    then zlen (List.filter (fun f => owned_by e f && active f && shown f) (tb_files (fm_tab s))) else 0 in
  let total := i64 (activeUsed + trashedUsed) in
  let quota := getQuotaBytes e (fm_CAS s) in
  (with_fm st s,
   mkStats total quota (formatBytes total) (formatBytes quota)
     (if 0 <? quota then (total * 100, quota) else (0, 1)) activeCount trashedUsed (formatBytes trashedUsed)).

End Listing.
