(* ===== verification/ListingProps.v ===== *)
(** * Properties of the listings

    A search term stands for itself; a listing is exactly the user's visible
    files in order, page by page; a locked vault is never listed; the data of
    a first start lets the configured password unlock the vault. *)

From S2P Require Import Prelude GoStrings FileSys CryptoPrims CryptoVault CAS UploadSession VaultTree Auth UploadCtrl FileDownload FileTable FileOps FileOpsInv FileVault FileOpsProps FileInfo Listing.

#[local] Open Scope string_scope.
#[local] Open Scope list_scope.
#[local] Open Scope Z_scope.

(** ** Searching *)

Lemma replace_cons c b a s :
  replace_char c b (String a s) = (if Ascii.eqb a c then b else String a "") +:+ replace_char c b s.
Proof. unfold replace_char. by destruct (Ascii.eqb a c). Qed.

Lemma replace_app c b s t : replace_char c b (s +:+ t) = replace_char c b s +:+ replace_char c b t.
Proof.
  induction s as [|a s IH]; [done|]. rewrite string_app_cons, !replace_cons, IH. by rewrite str_app_assoc.
Qed.

(** How one character is escaped. *)
Definition escape_char (a : Ascii.ascii) : string :=
  if Ascii.eqb a backslash || Ascii.eqb a "%" || Ascii.eqb a "_" then String backslash (String a "") else String a "".

Lemma escape_cons a s : escape_like (String a s) = escape_char a +:+ escape_like s.
Proof.
  unfold escape_like. rewrite replace_cons, !replace_app. f_equal. unfold escape_char.
  destruct (Ascii.eqb_spec a backslash) as [->|Hb]; [done|].
  destruct (Ascii.eqb_spec a "%") as [->|Hp]; [done|]. cbn [orb].
  rewrite (replace_cons "%"). destruct (Ascii.eqb_spec a "%"); [done|]. change (replace_char "%" _ "") with "".
  rewrite str_app_nil_r, replace_cons. change (replace_char "_" _ "") with "". rewrite str_app_nil_r.
  by destruct (Ascii.eqb_spec a "_") as [->|].
Qed.

Lemma like_percent fuel s : (String.length s + 1 < fuel)%nat -> like_match fuel "%" s = true.
Proof.
  revert fuel. induction s as [|c s IH]; intros fuel Hf; (destruct fuel as [|f]; [cbn in Hf; lia|]); cbn [like_match Ascii.eqb].
  - destruct f; [cbn in Hf; lia|]. done.
  - change (like_match f "" (String c s) || like_match f "%" s = true). rewrite IH, orb_true_r; [done|cbn in Hf; lia].
Qed.

(** An escaped character matches itself, whatever the case. *)
Lemma like_escaped fuel a pat s :
  like_match (S fuel) (escape_char a +:+ pat) s =
    match s with
    | EmptyString => false
    | String c s' => Ascii.eqb (lower_ascii a) (lower_ascii c) && like_match fuel pat s'
    end.
Proof.
  unfold escape_char. destruct (Ascii.eqb_spec a backslash) as [->|Hb]; [done|].
  destruct (Ascii.eqb_spec a "%") as [->|Hp]; [done|]. destruct (Ascii.eqb_spec a "_") as [->|Hu]; [done|]. cbn [orb].
  rewrite string_app_cons, string_app_nil. cbn [like_match].
  rewrite (proj2 (Ascii.eqb_neq _ _) Hb), (proj2 (Ascii.eqb_neq _ _) Hp), (proj2 (Ascii.eqb_neq _ _) Hu). done.
Qed.

Lemma like_prefix fuel t s :
  (String.length (escape_like t) + String.length s + 1 < fuel)%nat ->
  like_match fuel (escape_like t +:+ "%") s = HasPrefix (ToLower s) (ToLower t).
Proof.
  revert fuel s. induction t as [|a t IH]; intros fuel s Hf.
  - change (escape_like "" +:+ "%") with "%". rewrite like_percent by (cbn in Hf; lia). by destruct s.
  - rewrite escape_cons, str_app_assoc in *. rewrite length_str_app in Hf. destruct fuel as [|f]; [lia|].
    rewrite like_escaped. destruct s as [|c s]; [done|]. cbn in Hf. cbn [ToLower HasPrefix].
    assert (1 <= String.length (escape_char a))%nat by (unfold escape_char; case_match; cbn; lia).
    rewrite IH by lia. done.
Qed.

(** a search term stands for itself.  Whatever wildcards it contains, a
    column matches the pattern built from a term exactly when it contains the
    term, letters compared without case. *)
Theorem search_is_literal column term :
  column_matches column term = str_contains (ToLower column) (ToLower term).
Proof.
  unfold column_matches, LIKE.
  assert (forall s fuel, (String.length (escape_like term) + String.length s + 2 < fuel)%nat ->
    like_match fuel ("%" +:+ escape_like term +:+ "%") s = str_contains (ToLower s) (ToLower term)) as Hgen.
  { induction s as [|c s IH]; intros fuel Hf; (destruct fuel as [|f]; [lia|]).
    - change (like_match f (escape_like term +:+ "%") "" || false = str_contains "" (ToLower term)).
      rewrite like_prefix by lia. by cbn.
    - change (like_match f (escape_like term +:+ "%") (String c s) || like_match f ("%" +:+ escape_like term +:+ "%") s
        = str_contains (ToLower (String c s)) (ToLower term)).
      rewrite like_prefix by lia. rewrite IH by (cbn in Hf; lia). done. }
  assert (forall s, ToLower (ToLower s) = ToLower s) as Hidem.
  { induction s as [|c s IH]; [done|]. cbn. rewrite IH. f_equal. by destruct c as [[] [] [] [] [] [] [] []]. }
  rewrite Hgen; [by rewrite Hidem|]. rewrite !length_str_app. cbn. lia.
Qed.

(** ** The vault as a set *)

Definition vault_of (t : tables) : gset string := subtree t "f2".

Lemma vault_of_spec t x : x ∈ vault_of t <-> in_vault (links_of t) x.
Proof. apply subtree_spec. Qed.

Lemma root_outside t : tables_ok t -> "" ∉ vault_of t.
Proof. intros Ht Hin%vault_of_spec. by apply (not_in_vault t "" Ht); [left|]. Qed.

(** Tables in order and a cache that tells the truth. *)
Definition listing_ok (st : fm_state) : Prop := tables_ok (fm_tab st) /\ cache_ok (fm_tab st) (fm_cache st).

Lemma ask_vault e st id :
  listing_ok st -> can_query e = true ->
  exists c, in_vault_now e st id = (with_cache st c, bool_decide (id ∈ vault_of (fm_tab st))) /\ listing_ok (with_cache st c).
Proof.
  intros [Ht Hc] Hq. destruct (in_vault_now_exact e st id Ht Hc Hq) as (c & b & -> & Hc' & Hb). exists c.
  split; [|done]. f_equal. rewrite <- vault_of_spec in Hb. destruct b.
  - symmetry. apply bool_decide_eq_true. by apply Hb.
  - symmetry. apply bool_decide_eq_false. intros Hin%Hb. done.
Qed.

Lemma ask_ids e st :
  listing_ok st -> can_query e = true ->
  exists c ids, GetAllVaultFolderIDs (folder_query e st) (fm_cache st) = (c, ids) /\ listing_ok (with_cache st c) /\
    ids <> [] /\ (forall x, x ∈ ids <-> x ∈ vault_of (fm_tab st)).
Proof.
  intros [Ht Hc] Hq. unfold GetAllVaultFolderIDs, folder_query. rewrite Hq.
  destruct (load_cache_ok (fm_tab st) (fm_cache st) Hc) as [Hc' Hv']. eexists _, _. split; [done|]. split; [done|].
  assert (forall x, x ∈ vaultIDsList (loadVaultCacheLocked (Some (Some (links_of (fm_tab st)))) (fm_cache st)) <->
    x ∈ vault_of (fm_tab st)) as Hl by (intros x; rewrite vault_of_spec; by apply Hc').
  split; [|done]. intros He. specialize (Hl "f2"). rewrite He, vault_of_spec in Hl.
  destruct Hl as [_ Hl]. by apply not_elem_of_nil in Hl; [|apply rtc_refl].
Qed.

(** A file outside the vault, in or out of folders. *)
Definition outside_vault (t : tables) (f : stored_file) : bool := negb (bool_decide (file_folder f ∈ vault_of t)).

Lemma ask_excludes e st :
  listing_ok st -> can_query e = true ->
  exists c p, vaultExcludeFilter e st = (with_cache st c, p) /\ listing_ok (with_cache st c) /\
    (forall f, p f = outside_vault (fm_tab st) f).
Proof.
  intros Hok Hq. destruct (ask_ids e st Hok Hq) as (c & ids & He & Hok' & Hne & Hids). unfold vaultExcludeFilter. rewrite He.
  exists c, (excludes ids). split; [done|]. split; [done|]. intros f. unfold excludes, outside_vault.
  destruct ids as [|i ids]; [done|]. rewrite (bool_decide_ext _ _ (Hids (file_folder f))).
  destruct (String.eqb_spec (file_folder f) "") as [->|]; [|done]. symmetry. cbn [orb]. apply negb_true_iff, bool_decide_eq_false.
  by apply root_outside, Hok.
Qed.

Lemma ask_includes e st :
  listing_ok st -> can_query e = true ->
  exists c p, vaultIncludeFilter e st = (with_cache st c, p) /\ listing_ok (with_cache st c) /\
    (forall f, p f = negb (outside_vault (fm_tab st) f)).
Proof.
  intros Hok Hq. destruct (ask_ids e st Hok Hq) as (c & ids & He & Hok' & Hne & Hids). unfold vaultIncludeFilter. rewrite He.
  exists c, (includes ids). split; [done|]. split; [done|]. intros f. unfold includes, outside_vault, file_folder, coalesce.
  rewrite negb_involutive. destruct (fr_folder (sf_row f)) as [d|]; cbn [default from_option].
  - destruct ids as [|i ids]; [done|]. apply bool_decide_ext, Hids.
  - symmetry. apply bool_decide_eq_false. by apply root_outside, Hok.
Qed.

(** ** What a listing shows *)

(** Where a file has to be for a request to show it. *)
Definition visible (t : tables) (e : list_env) (isUnlocked : bool) (search : string) (f : stored_file) : bool :=
  let everything := String.eqb search "" in
  let folderID := q_folder e in
  if String.eqb (q_tab e) "trash" then fr_deleted (sf_row f) && (isUnlocked || outside_vault t f)
  else
    active f &&
    (if String.eqb (q_tab e) "starred" then sf_starred f && (isUnlocked || outside_vault t f)
     else if String.eqb (q_tab e) "vault" then
       if everything then in_folder (if String.eqb folderID "" then "f2" else folderID) f
       else negb (outside_vault t f)
     else if everything then
       if String.eqb folderID "" then String.eqb (file_folder f) ""
       else in_folder folderID f && (isUnlocked || negb (bool_decide (folderID ∈ vault_of t)))
     else outside_vault t f).

Lemma file_scope_spec e st isUnlocked search :
  listing_ok st -> can_query (le_req e) = true ->
  exists c p, file_scope e st isUnlocked search = (with_cache st c, p) /\ listing_ok (with_cache st c) /\
    (forall f, p f = visible (fm_tab st) e isUnlocked search f).
Proof.
  intros Hok Hq. assert (exists c, with_cache st c = st) as [c0 Hc0] by (exists (fm_cache st); by destruct st).
  destruct (ask_excludes (le_req e) st Hok Hq) as (cx & px & Hx & Hokx & Hpx).
  destruct (ask_includes (le_req e) st Hok Hq) as (ci & pi & Hi & Hoki & Hpi).
  destruct (ask_vault (le_req e) st (q_folder e) Hok Hq) as (cv & Hv & Hokv).
  unfold file_scope, visible. rewrite Hx, Hi, Hv.
  destruct (String.eqb (q_tab e) "trash").
  { destruct isUnlocked; [exists c0|exists cx]; (eexists; split; [by rewrite ?Hc0|]; split; [by rewrite ?Hc0|]).
    - intros f. done.
    - intros f. by rewrite Hpx. }
  destruct (String.eqb (q_tab e) "starred").
  { destruct isUnlocked; [exists c0|exists cx]; (eexists; split; [by rewrite ?Hc0|]; split; [by rewrite ?Hc0|]).
    - intros f. done.
    - intros f. by rewrite Hpx. }
  destruct (String.eqb (q_tab e) "vault").
  { destruct (String.eqb search ""), (String.eqb (q_folder e) ""); cbn [andb negb];
      [exists c0|exists c0|exists ci|exists ci]; (eexists; split; [by rewrite ?Hc0|]; split; [by rewrite ?Hc0|]);
      intros f; by rewrite ?Hpi. }
  destruct (String.eqb search ""), (String.eqb (q_folder e) ""); cbn [andb negb].
  - exists cx. eexists. split; [done|]. split; [done|]. intros f. rewrite Hpx. unfold outside_vault.
    destruct (String.eqb_spec (file_folder f) "") as [->|]; [|done].
    rewrite bool_decide_eq_false_2; [done|]. by apply root_outside, Hok.
  - destruct isUnlocked; [exists c0|exists cv]; (eexists; split; [by rewrite ?Hc0|]; split; [by rewrite ?Hc0|]); done.
  - exists cx. eexists. split; [done|]. split; [done|]. intros f. by rewrite Hpx.
  - exists cx. eexists. split; [done|]. split; [done|]. intros f. by rewrite Hpx.
Qed.

(** The record of a row that scans. *)
Definition shown_record (t : tables) (e : list_env) (f : stored_file) : option FileRecord :=
  (fun c => record_of e f c (negb (outside_vault t f))) <$> created e (fr_id (sf_row f)).

Lemma scan_files_spec e st rows :
  listing_ok st -> can_query (le_req e) = true ->
  exists c, scan_files e st rows = (with_cache st c, omap (shown_record (fm_tab st) e) rows) /\ listing_ok (with_cache st c).
Proof.
  intros Hok Hq. revert st Hok. induction rows as [|f rows IH]; intros st Hok; cbn [scan_files omap list_omap].
  { exists (fm_cache st). destruct st. done. }
  unfold shown_record at 1. destruct (created e (fr_id (sf_row f))) as [d|]; [|by apply IH]. cbn [fmap option_fmap option_map].
  destruct (ask_vault (le_req e) st (file_folder f) Hok Hq) as (c1 & -> & Hok1).
  destruct (IH (with_cache st c1) Hok1) as (c2 & -> & Hok2). exists c2. split; [|done].
  f_equal. unfold outside_vault. by rewrite negb_involutive.
Qed.

Section ListingFacts.
Context `{CryptoLaws}.

(** The rows a request lists, in order. *)
Definition listed (t : tables) (e : list_env) : list stored_file :=
  let search := TrimSpace (q_search e) in
  merge_sort (file_le e (file_order e))
    (List.filter (fun f => owned_by e f && visible t e (unlocked (le_req e)) search f && file_matches search f) (tb_files t)).

Definition asks_for_vault (t : tables) (e : list_env) : bool :=
  String.eqb (q_tab e) "vault" || bool_decide (q_folder e ∈ vault_of t).

Lemma GetFiles_spec e st :
  let s := ls_fm (SeedInitialData e st) in
  listing_ok s -> can_query (le_req e) = true ->
  exists c, listing_ok (with_cache s c) /\
    GetFiles e st = (with_fm (SeedInitialData e st) (with_cache s c),
      if asks_for_vault (fm_tab s) e && negb (unlocked (le_req e)) then inl vault_locked
      else inr (omap (shown_record (fm_tab s) e) (page e (listed (fm_tab s) e)))).
Proof.
  intros s Hok Hq. unfold GetFiles. fold s. destruct (ask_ids (le_req e) s Hok Hq) as (c0 & ids & -> & Hok0 & _). cbn [fst].
  assert (exists c1, (if String.eqb (q_tab e) "vault" then (with_cache s c0, true)
      else in_vault_now (le_req e) (with_cache s c0) (q_folder e)) = (with_cache s c1, asks_for_vault (fm_tab s) e) /\
      listing_ok (with_cache s c1)) as (c1 & -> & Hok1).
  { unfold asks_for_vault. destruct (String.eqb (q_tab e) "vault"); [by exists c0|].
    destruct (ask_vault (le_req e) (with_cache s c0) (q_folder e) Hok0 Hq) as (c1 & -> & Hok1). by exists c1. }
  destruct (_ && _); [by exists c1|].
  destruct (file_scope_spec e (with_cache s c1) (unlocked (le_req e)) (TrimSpace (q_search e)) Hok1 Hq) as (c2 & p & -> & Hok2 & Hp).
  rewrite Hq. cbn [negb].
  match goal with |- context [List.filter ?q ?l] => assert (List.filter q l = List.filter (fun f => owned_by e f &&
    visible (fm_tab s) e (unlocked (le_req e)) (TrimSpace (q_search e)) f && file_matches (TrimSpace (q_search e)) f) (tb_files (fm_tab s))) as -> end.
  { apply List.filter_ext. intros f. by rewrite Hp. }
  destruct (scan_files_spec e (with_cache (with_cache s c1) c2) (page e (listed (fm_tab s) e)) Hok2 Hq) as (c3 & Hsc & Hok3).
  unfold listed in Hsc. rewrite Hsc. exists c3. split; [done|done].
Qed.

(** ** The first start *)

Lemma insert_root_ok f t :
  tables_ok t -> fo_parent f = None -> fo_id f <> "" ->
  tables_ok (default t (insert_folder f t)) /\
  query_links (links_of (default t (insert_folder f t))) = query_links (links_of t).
Proof.
  intros Ht Hp Hne. unfold insert_folder. destruct (existsb _ _) eqn:Hex; [done|]. cbn [default from_option id].
  destruct Ht as [Hid Hnm Hord Hroots]. split.
  - assert (fo_id f ∉ folder_ids t) as Hfresh.
    { intros Hin. apply list_elem_of_fmap in Hin as (g & Hg & Hin). apply not_true_iff_false in Hex.
      apply Hex, existsb_exists. exists g. split; [by apply list_elem_of_In|]. rewrite Hg. apply String.eqb_refl. }
    split; unfold folder_ids in *; cbn [tb_folders].
    + rewrite map_app. apply NoDup_app. split; [done|]. split; [|apply NoDup_singleton].
      by intros x Hx ->%list_elem_of_singleton.
    + rewrite map_app. cbn. set_solver.
    + apply parents_first_app; [done|]. congruence.
    + intros g [Hg| ->%list_elem_of_singleton]%elem_of_app; [by apply Hroots|done].
  - unfold links_of, query_links. cbn [tb_folders]. rewrite map_app, omap_app. cbn. by rewrite Hp, app_nil_r.
Qed.

Lemma insert_files_folders fs t : tb_folders (foldl (fun t f => insert_file_ignore f t) t fs) = tb_folders t.
Proof.
  revert t. induction fs as [|f fs IH]; intros t; [done|]. cbn [foldl]. rewrite IH. unfold insert_file_ignore.
  by destruct (existsb _ _).
Qed.

Lemma insert_roots_ok fs t :
  tables_ok t -> Forall (fun f => fo_parent f = None /\ fo_id f <> "") fs ->
  tables_ok (insert_folders fs t) /\ query_links (links_of (insert_folders fs t)) = query_links (links_of t).
Proof.
  intros Ht Hfs. revert t Ht. induction Hfs as [|f fs [Hp Hne] _ IH]; intros t Ht; [done|].
  destruct (insert_root_ok f t Ht Hp Hne) as [Ht1 Hl1]. unfold insert_folders in *. cbn [foldl].
  destruct (IH _ Ht1) as [Ht2 Hl2]. split; [done|congruence].
Qed.

(** Seeding keeps the tables in order and adds no link, so the cached vault
    stays right. *)
Lemma seed_ok e st : listing_ok (ls_fm st) -> listing_ok (ls_fm (SeedInitialData e st)).
Proof.
  intros [Ht Hc]. unfold SeedInitialData. destruct (ls_seeded st); [done|]. cbn [ls_fm]. unfold seedInitialDataInternal.
  destruct (_ && _); [done|]. destruct (negb _); [done|]. cbn [ls_fm].
  destruct (insert_roots_ok seed_folders (fm_tab (ls_fm st)) Ht) as [Ht1 Hl1]; [by repeat constructor|].
  set (t1 := insert_folders _ _) in *. set (t2 := foldl _ t1 seed_files).
  assert (tb_folders t2 = tb_folders t1) as Hf by apply insert_files_folders.
  split; cbn [fm_tab with_tab fm_cache]; [by apply (tables_ok_folders t1)|].
  intros Hv. destruct (Hc Hv) as [Hm Hl]. unfold in_vault in *.
  rewrite (links_of_folders t1 t2 Hf), Hl1. done.
Qed.

(** a fresh installation can be opened.  The first request on an empty
    database creates the user, the three system folders and the sample files;
    afterwards the master password of the environment, or the built-in one
    when none is set, unlocks the vault and yields the key that was drawn;
    a later seeding changes nothing. *)
Theorem first_start_unlocks e st now rnd store :
  ls_users st = ∅ -> ls_seeded st = false -> can_query (le_req e) = true -> can_exec (le_req e) = true ->
  zlen (seed_nonce e) = NonceSize ->
  let st1 := SeedInitialData e st in
  (exists s' sid r, VerifyAndUnlockVault now rnd None (Some (ls_users st1)) store 1 (seed_password e) = (s', Ok (sid, r)) /\
     heap s' !! r = Some (seed_vk e) /\ GetKey now s' sid = Some r) /\
  (forall pw, DeriveMEK (bytes_of_string pw) (seed_salt e) <> DeriveMEK (bytes_of_string (seed_password e)) (seed_salt e) ->
     exists err, VerifyAndUnlockVault now rnd None (Some (ls_users st1)) store 1 pw = (store, Err err)) /\
  (forall e', SeedInitialData e' st1 = st1).
Proof.
  intros Hu Hs Hq Hx Hn st1. unfold st1, SeedInitialData. rewrite Hs. cbn [ls_seeded ls_users ls_fm].
  unfold seedInitialDataInternal. rewrite Hu, Hq, Hx, bool_decide_eq_true_2, lookup_empty by done. cbn [andb negb ls_users ls_fm].
  set (u := seed_user e). set (mek := DeriveMEK (bytes_of_string (seed_password e)) (seed_salt e)).
  assert (zlen mek = 32) as Hmek by apply argon2_len.
  assert (aes_key_ok mek = true) as Hk by (unfold aes_key_ok; by rewrite Hmek).
  assert (DecodeString (password_hash u) = Some mek) as Hdec by (apply hex_decode_encode, argon2_byte).
  destruct (proj1 (block_roundtrip mek Hk) (seed_nonce e) (seed_vk e) Hn) as (blk & Henc & Hblk).
  assert (right_password u (seed_password e) (seed_vk e)) as Hright.
  { split; [unfold seed_password; destruct (String.eqb_spec (HORNETZ_MASTER_PASSWORD e) ""); done|].
    split; [done|]. split; [change (mek <> []); intros Hz; by rewrite Hz in Hmek|].
    unfold u, seed_user. cbn [encrypted_vault_key salt]. fold mek. by rewrite Henc. }
  assert (forall users : gmap Z user_row, <[1 := u]> users !! 1 = Some u) as Hlk by (intros; apply lookup_insert_eq).
  split_and!; [| |done].
  - destruct (unlock_spec now rnd _ store 1 (seed_password e) u (Hlk ∅)) as [(vk & s1 & r & Hr & Ha & ->)|(Hno & _)];
      [|by destruct (Hno (seed_vk e))].
    assert (vk = seed_vk e) as -> by (destruct Hr as (_ & _ & _ & Hd), Hright as (_ & _ & _ & Hd'); congruence).
    eexists _, _, r. split; [done|]. apply alloc_key_fresh in Ha as (_ & Hh & _). cbn [SetKey SetKeyWithTTL heap].
    rewrite Hh. split; [by rewrite lookup_insert_eq|]. unfold GetKey, SetKey, SetKeyWithTTL. cbn.
    rewrite lookup_insert_eq. unfold after. cbn. by destruct (Z.ltb_spec (now + 24 * hour) now); [unfold hour in *; lia|].
  - intros pw Hpw. destruct (unlock_spec now rnd _ store 1 pw u (Hlk ∅)) as [(vk & s1 & r & Hr & _)|(_ & err & ->)]; [|by exists err].
    exfalso. destruct Hr as (_ & Hd & _). rewrite Hdec in Hd. injection Hd as Hd. by apply Hpw.
Qed.

(** ** Listings *)

Lemma file_before_total e k a b : file_before e k a b = true \/ file_before e k b a = true.
Proof.
  destruct k; cbn [file_before].
  - apply String.leb_total.
  - rewrite !Z.leb_le. lia.
  - unfold opt_le. destruct (created _ _), (created _ _); auto using String.leb_total.
Qed.

(** [column] contains [term], letters compared without case. *)
Definition contains_term (column term : string) : Prop :=
  exists before after, ToLower column = before +:+ ToLower term +:+ after.

Lemma str_contains_occurs s sub : str_contains s sub = true <-> exists p q, s = p +:+ sub +:+ q.
Proof.
  split.
  - induction s as [|a s IH]; cbn.
    + intros [Hx|Hx]%orb_true_iff; [|done]. destruct sub; [|done]. by exists "", "".
    + intros [Hx|Hx]%orb_true_iff.
      * change (HasPrefix (String a s) sub = true) in Hx. apply HasPrefix_inv in Hx as [r ->]. by exists "", r.
      * destruct (IH Hx) as (p & q & ->). by exists (String a p), q.
  - assert (forall x y, HasPrefix x y = true -> str_contains x y = true) as Hpre
      by (intros [|c x] y Hx; unfold str_contains; fold str_contains; by rewrite Hx).
    intros (p & q & ->). induction p as [|a p IH].
    + apply Hpre. rewrite string_app_nil. apply HasPrefix_app.
    + rewrite string_app_cons. unfold str_contains. fold str_contains. by rewrite IH, orb_true_r.
Qed.

(** Every word of the search is in the name or in the hash. *)
Definition found_by (search : string) (f : stored_file) : Prop :=
  forall term, term ∈ Fields (ToLower search) ->
    contains_term (fr_name (sf_row f)) term \/ contains_term (fr_cas (sf_row f)) term.

Lemma file_matches_found search f : file_matches search f = true <-> found_by search f.
Proof.
  unfold file_matches, found_by. assert (forallb (fun term => column_matches (fr_name (sf_row f)) term
      || column_matches (fr_cas (sf_row f)) term) (Fields (ToLower search)) = true <->
    forall term, term ∈ Fields (ToLower search) ->
      contains_term (fr_name (sf_row f)) term \/ contains_term (fr_cas (sf_row f)) term) as Hall.
  { rewrite forallb_forall. setoid_rewrite <- list_elem_of_In. setoid_rewrite orb_true_iff.
    setoid_rewrite search_is_literal. by setoid_rewrite str_contains_occurs. }
  destruct (String.eqb_spec search "") as [->|]; [|done]. split; [|done]. by intros _ term ?%not_elem_of_nil.
Qed.

(** The requested order: by the name, the size or the time, which may be
    missing and then comes first; upwards or downwards; and the newest first
    where none of these is asked for. *)
Definition by_sort_key (e : list_env) (a b : stored_file) : Prop :=
  if String.eqb (q_sort_by e) "name" then String.leb (fr_name (sf_row a)) (fr_name (sf_row b)) = true
  else if String.eqb (q_sort_by e) "size" then fr_size (sf_row a) <= fr_size (sf_row b)
  else forall y, created e (fr_id (sf_row a)) = Some y ->
         exists z, created e (fr_id (sf_row b)) = Some z /\ String.leb y z = true.

Definition downwards (e : list_env) : Prop :=
  ToLower (q_order e) = "desc" \/ q_sort_by e ∉ ["name"; "size"; "created_at"].

Definition in_order (e : list_env) (a b : stored_file) : Prop :=
  (downwards e -> by_sort_key e b a) /\ (~ downwards e -> by_sort_key e a b).

Lemma opt_le_spec x y : opt_le x y = true <-> forall u, x = Some u -> exists v, y = Some v /\ String.leb u v = true.
Proof.
  destruct x as [u|], y as [v|]; cbn; split; try done.
  - intros Hx u' [= <-]. by exists v.
  - intros Hx. by destruct (Hx u eq_refl) as (v' & [= <-] & ?).
  - intros Hx. by destruct (Hx u eq_refl) as (v' & ? & _).
Qed.

Lemma file_le_in_order e a b : file_le e (file_order e) a b -> in_order e a b.
Proof.
  unfold file_le, file_order, in_order, by_sort_key, downwards.
  assert (q_sort_by e ∉ ["name"; "size"; "created_at"] <->
    q_sort_by e <> "name" /\ q_sort_by e <> "size" /\ q_sort_by e <> "created_at") as Hk by set_solver.
  rewrite Hk. clear Hk. rewrite <- (String.eqb_eq (ToLower (q_order e)) "desc").
  destruct (String.eqb_spec (q_sort_by e) "name") as [->|Hn]; [|destruct (String.eqb_spec (q_sort_by e) "size") as [->|Hs];
    [|destruct (String.eqb_spec (q_sort_by e) "created_at") as [->|Hc]]]; cbn [fst snd];
    destruct (String.eqb (ToLower (q_order e)) "desc"); cbn [file_before];
    rewrite ?Z.leb_le, ?opt_le_spec; intuition done.
Qed.

Lemma sorted_weaken {A} (R S : relation A) l : (forall a b, R a b -> S a b) -> Sorted R l -> Sorted S l.
Proof.
  intros Hrs. induction 1 as [|a l _ IH Hh]; constructor; [done|]. destruct Hh; constructor. by apply Hrs.
Qed.

(** [shown] is the part of [rows] that is asked for: at most the limit, from
    the offset on, where these are numbers, the limit positive and the offset
    not negative; everything where there is no such limit. *)
Definition window {A} (e : list_env) (rows shown : list A) : Prop :=
  (forall n off, ParseInt (q_limit e) = Some n -> 0 < n ->
     ParseInt (q_offset e) = Some off /\ 0 <= off \/
     (forall o, ParseInt (q_offset e) = Some o -> o < 0) /\ off = 0 ->
     forall i : nat, shown !! i = if Z.of_nat i <? n then rows !! (Z.to_nat off + i)%nat else None) /\
  ((forall n, ParseInt (q_limit e) = Some n -> n <= 0) -> shown = rows).

Lemma page_window {A} e (l : list A) : window e l (page e l).
Proof.
  unfold page. split.
  - intros n off Hn Hpos Hoff i. rewrite Hn.
    assert (String.eqb (q_limit e) "" = false) as -> by (apply String.eqb_neq; intros Hx; by rewrite Hx in Hn).
    rewrite (proj2 (Z.ltb_lt 0 n)) by done. cbn [negb andb].
    assert (match ParseInt (q_offset e) with
      | Some o => if negb (String.eqb (q_offset e) "") && (0 <=? o) then o else 0 | None => 0 end = off) as ->.
    { destruct Hoff as [[Ho Hge]|[Hno ->]].
      - rewrite Ho. assert (String.eqb (q_offset e) "" = false) as -> by (apply String.eqb_neq; intros Hx; by rewrite Hx in Ho).
        by rewrite (proj2 (Z.leb_le 0 off)).
      - destruct (ParseInt (q_offset e)) as [o|]; [|done]. specialize (Hno o eq_refl).
        rewrite (proj2 (Z.leb_gt 0 o)) by done. by rewrite andb_false_r. }
    unfold ztake, zdrop. destruct (Z.ltb_spec (Z.of_nat i) n).
    + rewrite lookup_take_lt by lia. by rewrite lookup_drop.
    + apply lookup_take_ge. lia.
  - intros Hno. destruct (ParseInt (q_limit e)) as [n|]; [|done]. specialize (Hno n eq_refl).
    rewrite (proj2 (Z.ltb_ge 0 n)) by done. by rewrite andb_false_r.
Qed.

(** The rows that scan, and what the records say of them. *)
Lemma shown_records t e l :
  let recs := omap (shown_record t e) l in
  map rec_file recs = List.filter (fun f => bool_decide (is_Some (created e (fr_id (sf_row f))))) l /\
  Forall (fun r => created e (fr_id (sf_row (rec_file r))) = Some (rec_CreatedAt r) /\
                   (IsVault r = true <-> file_folder (rec_file r) ∈ vault_of t)) recs.
Proof.
  induction l as [|f l [IH1 IH2]]; [by split|]. cbn [omap list_omap List.filter].
  assert (shown_record t e f = (fun c => record_of e f c (negb (outside_vault t f))) <$> created e (fr_id (sf_row f))) as -> by done.
  destruct (created e (fr_id (sf_row f))) as [c|] eqn:Hc; cbn [fmap option_fmap option_map].
  - rewrite bool_decide_eq_true_2 by done. cbn [map]. split; [by f_equal|]. constructor; [|done].
    split; [done|]. cbn [IsVault record_of rec_file]. unfold outside_vault. by rewrite negb_involutive, bool_decide_eq_true.
  - rewrite bool_decide_eq_false_2 by (intros [? ?]; done). by split.
Qed.


(** A request for the [n]-th page of [size] rows. *)
Definition page_request (e : list_env) (size n : Z) : list_env :=
  mkLEnv (le_req e) (q_tab e) (q_search e) (q_folder e) (q_sort_by e) (q_order e) (FormatInt size) (FormatInt (n * size))
    (q_all e) (created e) (le_parse e) (format_day e) (seed_salt e) (seed_vk e) (seed_nonce e)
    (HORNETZ_MASTER_PASSWORD e) (cas_capacity e) (disk_capacity e) (quota_setting e).

Lemma page_of_request {A} e size n (l : list A) :
  0 < size < 2 ^ 63 -> 0 <= n -> n * size < 2 ^ 63 -> page (page_request e size n) l = ztake size (zdrop (n * size) l).
Proof.
  intros Hs Hn Hns. unfold page. cbn [q_limit q_offset page_request].
  rewrite !ParseInt_FormatInt by (unfold in_i64; nia).
  assert (forall v, String.eqb (FormatInt v) "" = false) as Hne.
  { intros v. apply String.eqb_neq. intros He. pose proof (parse_FormatInt v) as Hp. by rewrite He in Hp. }
  rewrite !Hne. cbn [negb andb]. destruct (Z.ltb_spec 0 size); [|lia]. by destruct (Z.leb_spec 0 (n * size)); [|nia].
Qed.

Lemma elem_of_page {A} e (x : A) l : x ∈ page e l -> x ∈ l.
Proof.
  unfold page. destruct (ParseInt (q_limit e)) as [n|]; [|done]. destruct (_ && _); [|done]. unfold ztake, zdrop.
  intros [i Hi]%list_elem_of_lookup. apply lookup_take_Some in Hi as [Hi _]. rewrite lookup_drop in Hi.
  by eapply list_elem_of_lookup_2.
Qed.

Lemma pages_cover {A} size k (l : list A) :
  0 < size -> concat (map (fun i => ztake size (zdrop (Z.of_nat i * size) l)) (seq 0 k)) = ztake (Z.of_nat k * size) l.
Proof.
  intros Hs. induction k as [|k IH]; [done|]. rewrite seq_S, map_app, concat_app, IH. cbn [map concat]. rewrite app_nil_r.
  replace (Z.of_nat (S k) * size) with (Z.of_nat k * size + size) by lia. unfold ztake, zdrop.
  rewrite Z2Nat.inj_add by lia. by rewrite take_take_drop.
Qed.

(** pages put together are the listing.  However long the pages are, the
    answers to the requests for one page after the other, taken together,
    are the answer to the request without limits: no file is skipped or shown
    twice while nothing changes. *)
Theorem pages_partition_listing e st size k :
  listing_ok (ls_fm st) -> can_query (le_req e) = true -> ls_seeded st = true -> q_limit e = "" ->
  0 < size -> Z.of_nat k * size < 2 ^ 63 -> zlen (tb_files (fm_tab (ls_fm st))) <= Z.of_nat k * size ->
  forall recs, snd (GetFiles e st) = inr recs ->
  exists pages, Forall2 (fun i p => snd (GetFiles (page_request e size (Z.of_nat i)) st) = inr p) (seq 0 k) pages /\
    concat pages = recs.
Proof.
  intros Hok Hq Hseed Hlim Hs Hk Hall recs Hrecs.
  assert (forall e', SeedInitialData e' st = st) as Hsd by (intros e'; unfold SeedInitialData; by rewrite Hseed).
  assert (k = O \/ size < 2 ^ 63) as Hsz by (destruct k; [by left|right; nia]).
  pose proof (GetFiles_spec e st) as Hspec. rewrite Hsd in Hspec. destruct (Hspec Hok Hq) as (c & _ & He).
  rewrite He in Hrecs. cbn [snd] in Hrecs. set (t := fm_tab (ls_fm st)) in *.
  destruct (asks_for_vault t e && negb (unlocked (le_req e))) eqn:Hask; [done|]. injection Hrecs as <-.
  set (l := listed t e) in *.
  exists (map (fun i => omap (shown_record t e) (ztake size (zdrop (Z.of_nat i * size) l))) (seq 0 k)). split.
  - rewrite Forall2_fmap_r. apply Forall_Forall2_diag. apply Forall_forall. intros i Hi%elem_of_seq.
    pose proof (GetFiles_spec (page_request e size (Z.of_nat i)) st) as Hp. rewrite Hsd in Hp.
    destruct (Hp Hok Hq) as (c' & _ & ->). cbn [snd]. fold t.
    change (asks_for_vault t (page_request e size (Z.of_nat i))) with (asks_for_vault t e).
    change (le_req (page_request e size (Z.of_nat i))) with (le_req e). rewrite Hask.
    rewrite page_of_request by nia. done.
  - assert (page e l = l) as -> by (unfold page; by rewrite Hlim).
    assert (forall ls : list (list stored_file), concat (map (omap (shown_record t e)) ls) = omap (shown_record t e) (concat ls)) as Hom.
    { induction ls as [|x ls IH]; [done|]. cbn. by rewrite IH, omap_app. }
    rewrite <- (map_map (fun i => ztake size (zdrop (Z.of_nat i * size) l)) (omap (shown_record t e))), Hom, pages_cover by done.
    f_equal. unfold ztake. apply take_ge. assert (length l <= length (tb_files t))%nat as Hle.
    { unfold l, listed. rewrite merge_sort_Permutation. clear. induction (tb_files t) as [|x xs IH]; [done|]. cbn.
      destruct (_ && _); cbn; lia. }
    unfold zlen in Hall. lia.
Qed.

(** ** The locked vault *)

Lemma visible_outside t e search f :
  tables_ok t -> asks_for_vault t e = false -> visible t e false search f = true -> file_folder f ∉ vault_of t.
Proof.
  intros Ht Hask. assert (outside_vault t f = true -> file_folder f ∉ vault_of t) as Hout
    by (intros Hn%negb_true_iff%bool_decide_eq_false; done).
  unfold asks_for_vault in Hask. apply orb_false_iff in Hask as [Htab Hfld%bool_decide_eq_false].
  unfold visible. rewrite Htab. destruct (String.eqb (q_tab e) "trash"); [by intros [_ ?%Hout]%andb_true_iff|].
  intros [_ Hv]%andb_true_iff. revert Hv.
  destruct (String.eqb (q_tab e) "starred"); [by intros [_ ?%Hout]%andb_true_iff|].
  destruct (String.eqb search ""); [|by intros ?%Hout]. destruct (String.eqb_spec (q_folder e) "").
  - intros ->%String.eqb_eq. by apply root_outside.
  - intros [Hin%bool_decide_eq_true _]%andb_true_iff. unfold file_folder, coalesce. by rewrite Hin.
Qed.

(** A folder below one outside the vault is outside it. *)
Lemma child_outside t f p :
  tables_ok t -> f ∈ tb_folders t -> fo_parent f = Some p -> p <> "" -> p ∉ vault_of t -> fo_id f ∉ vault_of t.
Proof.
  intros Ht Hf Hp Hne Hout. rewrite vault_of_spec in *. intros Hv. apply rtc_inv_r in Hv as [He|(q & Hq & Hl)].
  - assert (fo_parent f = None) as Hn; [|congruence]. apply (tk_roots t Ht f Hf). rewrite <- He. set_solver.
  - apply Hout. assert (q = p) as <-; [|done]. apply (parent_unique t q p (fo_id f) Ht Hl).
    apply links_child. split; [done|]. by exists f.
Qed.

(** The folders a request without an unlocked session may select. *)
Lemma folder_scope_outside e st search :
  listing_ok st -> can_query (le_req e) = true -> asks_for_vault (fm_tab st) e = false ->
  exists c p, folder_scope e st false search = (with_cache st c, p) /\ listing_ok (with_cache st c) /\
    (forall f, f ∈ tb_folders (fm_tab st) -> p f = true -> fo_id f ∉ vault_of (fm_tab st)).
Proof.
  intros Hok Hq Hask. pose proof (proj1 Hok) as Ht.
  destruct (ask_ids (le_req e) st Hok Hq) as (ci & ids & Hi & Hoki & _ & Hids).
  destruct (ask_vault (le_req e) st (q_folder e) Hok Hq) as (cv & Hv & Hokv).
  apply orb_false_iff in Hask as [Htab Hfld%bool_decide_eq_false]. unfold folder_scope. rewrite Hi, Hv, Htab.
  destruct (String.eqb (q_all e) "true").
  { exists ci. eexists. split; [done|]. split; [done|]. intros f _ [_ Hn%negb_true_iff%bool_decide_eq_false]%andb_true_iff.
    by rewrite <- Hids. }
  destruct (String.eqb_spec (q_folder e) "") as [|Hne], (String.eqb search ""); cbn [andb negb].
  2-4: try (exists cv; eexists; split; [done|]; split; [done|]; intros f Hf [Hp%bool_decide_eq_true _]%andb_true_iff;
            by apply (child_outside _ f (q_folder e))).
  all: exists ci; eexists; (split; [done|]); (split; [done|]);
       intros f _ [_ Hn%negb_true_iff%bool_decide_eq_false]%andb_true_iff; by rewrite <- Hids.
Qed.

(** a locked vault is not listed.  Without an unlocked session no answer
    shows a file that lies in a folder of the vault, in the trash, starred or
    found by a search either, and no folder of the vault; nor are those files
    in the count of files.  What is shown belongs to the user. *)
Theorem listing_hides_locked_vault e st :
  listing_ok (ls_fm st) -> can_query (le_req e) = true -> unlocked (le_req e) = false ->
  let t := fm_tab (ls_fm (SeedInitialData e st)) in let user := user_of (le_req e) in
  (forall recs, snd (GetFiles e st) = inr recs -> forall r, r ∈ recs ->
     file_folder (rec_file r) ∉ vault_of t /\ fr_owner (sf_row (rec_file r)) = user /\ IsVault r = false) /\
  (forall recs, snd (GetFolders e st) = inr recs -> forall r, r ∈ recs ->
     fo_id (rec_folder r) ∉ vault_of t /\ fo_owner (rec_folder r) = user) /\
  StatFileCount (snd (GetStorageStats e st)) =
    zlen (List.filter (fun f => (fr_owner (sf_row f) =? user) && active f && negb (bool_decide (file_folder f ∈ vault_of t)))
            (tb_files t)).
Proof.
  intros Hok Hq Hl t user. pose proof (seed_ok e st Hok) as Hsok. pose proof (proj1 Hsok) as Ht. split; [|split].
  - intros recs Hrecs r Hr. destruct (GetFiles_spec e st Hsok Hq) as (c & _ & He). rewrite He in Hrecs. cbn [snd] in Hrecs.
    fold t in Hrecs. rewrite Hl in Hrecs. cbn [negb] in Hrecs. rewrite andb_true_r in Hrecs.
    destruct (asks_for_vault t e) eqn:Hask; [done|]. injection Hrecs as <-.
    apply list_elem_of_omap in Hr as (f & Hf & Hrec). unfold shown_record in Hrec.
    destruct (created e _) as [d|]; [|done]. injection Hrec as <-. cbn [rec_file IsVault record_of].
    assert (f ∈ listed t e) as Hin by (by eapply elem_of_page).
    unfold listed in Hin. rewrite merge_sort_Permutation, list_elem_of_In in Hin. apply List.filter_In in Hin as [_ Hb].
    apply andb_true_iff in Hb as [[Ho Hvis]%andb_true_iff _]. rewrite Hl in Hvis.
    pose proof (visible_outside t e _ f Ht Hask Hvis) as Hout. split; [done|]. split; [by apply Z.eqb_eq|].
    unfold outside_vault. by rewrite bool_decide_eq_false_2.
  - intros recs Hrecs r Hr. unfold GetFolders in Hrecs. set (s := ls_fm (SeedInitialData e st)) in *.
    assert (exists c1, (if String.eqb (q_tab e) "vault" then (s, true) else in_vault_now (le_req e) s (q_folder e))
      = (with_cache s c1, asks_for_vault t e) /\ listing_ok (with_cache s c1)) as (c1 & He & Hok1).
    { unfold asks_for_vault. destruct (String.eqb (q_tab e) "vault"); [exists (fm_cache s); assert (with_cache s (fm_cache s) = s) as -> by (by destruct s); done|].
      destruct (ask_vault (le_req e) s (q_folder e) Hsok Hq) as (c1 & -> & Hok1). by exists c1. }
    rewrite He, Hl in Hrecs. cbn [negb] in Hrecs. rewrite andb_true_r in Hrecs.
    destruct (asks_for_vault t e) eqn:Hask; [done|].
    destruct (folder_scope_outside e (with_cache s c1) (TrimSpace (q_search e)) Hok1 Hq Hask) as (c2 & p & Hsc & _ & Hp).
    rewrite Hsc, Hq in Hrecs. cbn [negb snd] in Hrecs. injection Hrecs as <-.
    apply list_elem_of_omap in Hr as (f & Hf & Hrec). destruct (created e (fo_id f)); [|done]. injection Hrec as <-.
    cbn [rec_folder]. rewrite merge_sort_Permutation, list_elem_of_In in Hf. apply List.filter_In in Hf as [Hf Hb].
    apply andb_true_iff in Hb as [[Ho%Z.eqb_eq Hpf]%andb_true_iff _]. split; [|done].
    apply Hp; [by apply list_elem_of_In|done].
  - unfold GetStorageStats. set (s := ls_fm (SeedInitialData e st)) in *.
    destruct (size_totals e (fm_tab s)) as [a d]. rewrite Hl.
    destruct (ask_excludes (le_req e) s Hsok Hq) as (c & p & -> & _ & Hp). rewrite Hq. cbn [snd StatFileCount].
    f_equal. apply List.filter_ext. intros f. by rewrite Hp.
Qed.

End ListingFacts.

(** ** Witnesses *)

Section ListingWitnesses.
Import ToyCrypto.

Definition l_req (open : bool) : file_env := w_env open true.

Definition l_env (open : bool) (tab search folder : string) : list_env :=
  mkLEnv (l_req open) tab search folder "name" "asc" "" "" "" (fun id => Some "2026-01-02 03:04:05") (fun _ _ => None)
    (fun _ => "") (replicate 16 1) (replicate 32 2) (replicate 12 3) "" None None 0.

Definition l_state : ls_state := mkLS w_state ∅ true.

Definition l_names (open : bool) (tab search folder : string) : option (list string) :=
  match snd (GetFiles (l_env open tab search folder) l_state) with
  | inr recs => Some (map (fun r => fr_id (sf_row (rec_file r))) recs)
  | inl _ => None
  end.

Example l_names_examples :
  l_names true "vault" "" "a" = Some ["x2"] /\ l_names false "vault" "" "a" = None /\ l_names false "" "X" "" = Some ["x1"] /\
  l_names true "vault" "bin" "" = Some ["x2"] /\ l_names false "trash" "" "" = Some ["x4"] /\ l_names false "" "100%" "" = Some [].
Proof. by vm_compute. Qed.

Lemma l_ok : listing_ok (ls_fm l_state).
Proof. split; [apply tables_okb_ok; by vm_compute|by intros ?]. Qed.


Lemma pages_partition_listing_witness :
  exists recs pages, snd (GetFiles (l_env true "" "bin" "") l_state) = inr recs /\
    Forall2 (fun i p => snd (GetFiles (page_request (l_env true "" "bin" "") 1 (Z.of_nat i)) l_state) = inr p)
      (seq 0 4) pages /\ concat pages = recs.
Proof.
  assert (exists recs, snd (GetFiles (l_env true "" "bin" "") l_state) = inr recs) as [recs Hrecs]
    by (eexists; vm_compute; reflexivity).
  exists recs.
  destruct (pages_partition_listing (l_env true "" "bin" "") l_state 1 4 l_ok eq_refl eq_refl eq_refl
    ltac:(lia) ltac:(lia) ltac:(by vm_compute) recs Hrecs) as [pages Hp].
  by exists pages.
Defined.

Lemma listing_hides_locked_vault_witness :
  exists recs, snd (GetFiles (l_env false "" "bin" "") l_state) = inr recs /\
    Forall (fun r => file_folder (rec_file r) ∉ vault_of (fm_tab w_state)) recs.
Proof.
  assert (exists recs, snd (GetFiles (l_env false "" "bin" "") l_state) = inr recs) as [recs Hrecs]
    by (eexists; vm_compute; reflexivity).
  exists recs. split; [exact Hrecs|]. apply Forall_forall. intros r Hr.
  exact (proj1 (proj1 (listing_hides_locked_vault (l_env false "" "bin" "") l_state l_ok eq_refl eq_refl) recs Hrecs r Hr)).
Defined.

Lemma first_start_unlocks_witness :
  let st1 := SeedInitialData (l_env true "" "" "") (mkLS w_state ∅ false) in
  exists s' sid r, VerifyAndUnlockVault 5 [7] None (Some (ls_users st1)) empty_store 1 "HornetzAdmin@2026!" = (s', Ok (sid, r)) /\
    heap s' !! r = Some (replicate 32 2) /\ GetKey 5 s' sid = Some r.
Proof.
  exact (proj1 (first_start_unlocks (l_env true "" "" "") (mkLS w_state ∅ false) 5 [7] empty_store eq_refl eq_refl eq_refl
    eq_refl eq_refl)).
Defined.

End ListingWitnesses.
