(* ===== verification/Regex.v ===== *)
(** * Regular expressions

    The matching of Go's regexp package: of all matches the leftmost, and of
    those that begin there the one a backtracking search finds first, where
    [*] prefers more repetitions and [*?] fewer.  The link code uses its
    expressions on URLs and pages; they are written with the constructors
    below and run by [find].  Characters are bytes: a class that excludes
    ASCII characters matches the bytes of a longer encoding one by one. *)

From S2P Require Import Prelude GoStrings.

#[local] Open Scope string_scope.
#[local] Open Scope list_scope.
#[local] Open Scope Z_scope.

Inductive regex :=
| Chr (p : Ascii.ascii -> bool)
| Eps
| Seq (r1 r2 : regex)
| Alt (r1 r2 : regex)
| Star (r : regex)
| Lazy (r : regex)
| Group (i : nat) (r : regex)
| Eos.

(** The captured texts, the latest first. *)
Definition captures := list (nat * string).

Definition text_between (s rest : string) : string :=
  String.substring 0 (String.length s - String.length rest) s.

(** The repetition of a step, [n] bounding the number of rounds; a round
    that consumes nothing ends it. *)
Fixpoint repeat_step {A} (greedy : bool)
    (step : string -> captures -> (string -> captures -> option A) -> option A)
    (k : string -> captures -> option A) (n : nat) (s : string) (c : captures) : option A :=
  match n with
  | O => k s c
  | S n' =>
      let more := step s c (fun s' c' =>
        if (String.length s' <? String.length s)%nat then repeat_step greedy step k n' s' c' else None) in
      if greedy
      then match more with Some a => Some a | None => k s c end
      else match k s c with Some a => Some a | None => more end
  end.

Fixpoint run {A} (r : regex) (s : string) (c : captures) (k : string -> captures -> option A) : option A :=
  match r with
  | Chr p => match s with String a s' => if p a then k s' c else None | EmptyString => None end
  | Eps => k s c
  | Seq r1 r2 => run r1 s c (fun s' c' => run r2 s' c' k)
  | Alt r1 r2 => match run r1 s c k with Some a => Some a | None => run r2 s c k end
  | Star r => repeat_step true (run r) k (S (String.length s)) s c
  | Lazy r => repeat_step false (run r) k (S (String.length s)) s c
  | Group i r => run r s c (fun s' c' => k s' ((i, text_between s s') :: c'))
  | Eos => match s with EmptyString => k s c | _ => None end
  end.

(** A match: what precedes it, the captured texts, what follows. *)
Record matched := mkMatched { m_prefix : string; m_text : string; m_groups : captures; m_suffix : string }.

(** An expression that begins with [^]. *)
Definition match_start (r : regex) (s : string) : option matched :=
  run r s [] (fun rest c => Some (mkMatched "" (text_between s rest) c rest)).

Fixpoint find (r : regex) (s : string) : option matched :=
  match match_start r s with
  | Some m => Some m
  | None =>
      match s with
      | EmptyString => None
      | String a s' =>
          match find r s' with
          | Some m => Some (mkMatched (String a (m_prefix m)) (m_text m) (m_groups m) (m_suffix m))
          | None => None
          end
      end
  end.

(** The matches of [FindAllStringSubmatch]: each search starts behind the
    match before.  None of the expressions it is used with matches the empty
    string, so the bound is never reached. *)
Fixpoint find_all (fuel : nat) (r : regex) (s : string) : list matched :=
  match fuel with
  | O => []
  | S n => match find r s with
           | Some m => m :: find_all n r (m_suffix m)
           | None => []
           end
  end.

(** [match[i]]: the text of group [i], empty when it did not take part. *)
Definition group (m : matched) (i : nat) : string :=
  from_option snd "" (List.find (fun e => Nat.eqb (fst e) i) (m_groups m)).

(** ** Shorthands *)

Fixpoint Lit (s : string) : regex :=
  match s with
  | EmptyString => Eps
  | String a EmptyString => Chr (Ascii.eqb a)
  | String a s' => Seq (Chr (Ascii.eqb a)) (Lit s')
  end.

(** [(?i)] on ASCII letters. *)
Fixpoint Lit_ci (s : string) : regex :=
  match s with
  | EmptyString => Eps
  | String a s' => Seq (Chr (fun b => Ascii.eqb (lower_ascii a) (lower_ascii b))) (Lit_ci s')
  end.

Definition Plus (r : regex) : regex := Seq r (Star r).
Definition LazyPlus (r : regex) : regex := Seq r (Lazy r).
Definition Opt (r : regex) : regex := Alt r Eps.

Fixpoint Cat (l : list regex) : regex :=
  match l with [] => Eps | [r] => r | r :: l' => Seq r (Cat l') end.

Definition none_of (cs : string) (a : Ascii.ascii) : bool := negb (char_in cs a).

(** [.] is any character but a line break. *)
Definition any_char (a : Ascii.ascii) : bool := negb (Ascii.eqb a newline).

Definition is_letter (a : Ascii.ascii) : bool := ascii_in "a" "z" a || ascii_in "A" "Z" a.
Definition is_alnum (a : Ascii.ascii) : bool := is_letter a || is_digit a.

(** [\s] *)
Definition is_white (a : Ascii.ascii) : bool :=
  char_in (String " " (String (ascii_of_byte 9) (String newline (String (ascii_of_byte 12) (String carriage_return ""))))) a.

(** ** Runs of one class *)

Fixpoint span (p : Ascii.ascii -> bool) (s : string) : string * string :=
  match s with
  | String a s' => if p a then let (t, r) := span p s' in (String a t, r) else ("", s)
  | EmptyString => ("", s)
  end.

Definition heads (p : Ascii.ascii -> bool) (s : string) : bool :=
  match s with String a _ => p a | EmptyString => false end.

Lemma span_app p s : fst (span p s) +:+ snd (span p s) = s.
Proof.
  induction s as [|a s IH]; simpl; [done|]. destruct (p a); [|done].
  destruct (span p s) as [t r]. by rewrite <- IH.
Qed.

Lemma span_run p s t : string_forallb p s = true -> heads p t = false -> span p (s +:+ t) = (s, t).
Proof.
  intros Hs Ht. induction s as [|a s IH]; simpl in *.
  - destruct t as [|b t]; simpl in *; [done|by rewrite Ht].
  - apply andb_true_iff in Hs as [-> Hs]. by rewrite (IH Hs).
Qed.

Lemma repeat_chr {A} p (k : string -> captures -> option A) c n s :
  (forall t, heads p t = true -> k t c = None) ->
  (String.length s < n)%nat ->
  repeat_step true (run (Chr p)) k n s c = k (snd (span p s)) c.
Proof.
  intros Hk. revert n. induction s as [|a s IH]; intros n Hn; destruct n as [|n]; simpl in *; try lia; [done|].
  destruct (p a) eqn:Hp; [|done].
  replace (String.length s <? S (String.length s))%nat with true by (symmetry; apply Nat.ltb_lt; lia).
  rewrite IH by lia. destruct (span p s) as [t r]. simpl.
  destruct (k r c) eqn:Hr; [done|]. apply Hk. by simpl.
Qed.

(** A greedy run whose continuation wants another character takes it all. *)
Lemma run_star {A} p s c (k : string -> captures -> option A) :
  (forall t, heads p t = true -> k t c = None) ->
  run (Star (Chr p)) s c k = k (snd (span p s)) c.
Proof. intros Hk. simpl. by apply (repeat_chr p k c (S (String.length s)) s); [|lia]. Qed.

Lemma run_plus {A} p s c (k : string -> captures -> option A) :
  (forall t, heads p t = true -> k t c = None) ->
  run (Plus (Chr p)) s c k = if heads p s then k (snd (span p s)) c else None.
Proof.
  intros Hk. unfold Plus. change (run (Seq ?a ?b) s c k) with (run a s c (fun s' c' => run b s' c' k)).
  destruct s as [|a s]; [done|]. simpl heads. cbn [run].
  destruct (p a) eqn:Hp; [|done]. change (run (Star (Chr p)) s c k = k (snd (span p (String a s))) c).
  rewrite run_star by done. simpl. rewrite Hp. by destruct (span p s).
Qed.

Lemma text_between_app s t : text_between (s +:+ t) t = s.
Proof.
  unfold text_between. rewrite length_str_app.
  replace (String.length s + String.length t - String.length t)%nat with (String.length s) by lia.
  induction s as [|a s IH]; simpl; [by destruct t|by rewrite IH].
Qed.

Lemma text_between_span p s : text_between s (snd (span p s)) = fst (span p s).
Proof. rewrite <- (span_app p s) at 1. apply text_between_app. Qed.

(** ** Searching *)

Lemma find_skip r a s :
  match_start r (String a s) = None ->
  find r (String a s) =
    match find r s with
    | Some m => Some (mkMatched (String a (m_prefix m)) (m_text m) (m_groups m) (m_suffix m))
    | None => None
    end.
Proof. intros H. simpl. by rewrite H. Qed.

(** A literal first character the text does not have is searched in vain. *)
Lemma find_skip_text r p s t :
  (forall s, heads p s = false -> match_start r s = None) ->
  string_forallb (fun a => negb (p a)) s = true ->
  find r (s +:+ t) =
    match find r t with
    | Some m => Some (mkMatched (s +:+ m_prefix m) (m_text m) (m_groups m) (m_suffix m))
    | None => None
    end.
Proof.
  intros Hr. induction s as [|a s IH]; intros Hs.
  - rewrite string_app_nil. destruct (find r t) as [[]|]; reflexivity.
  - simpl in Hs. apply andb_true_iff in Hs as [Ha Hs]. rewrite string_app_cons, find_skip.
    + rewrite (IH Hs). by destruct (find r t).
    + apply Hr. simpl. by destruct (p a).
Qed.
