(* ===== verification/GoURL.v ===== *)
(** * URLs

    The parts of Go's net/url, encoding/base32 and encoding/base64 the link
    code uses: parsing with its errors, the decoded and the encoded form of a
    path, query parameters in their order of appearance, and printing.  A
    literal IPv6 host is taken without a zone and is not checked to be an
    address. *)

From S2P Require Import Prelude GoStrings FileSys.

#[local] Open Scope string_scope.
#[local] Open Scope list_scope.
#[local] Open Scope Z_scope.

(** ** Cutting *)

(** [strings.Cut] at the first occurrence of a character. *)
Fixpoint Cut (c : Ascii.ascii) (s : string) : string * string * bool :=
  match s with
  | EmptyString => ("", "", false)
  | String a s' =>
      if Ascii.eqb a c then ("", s', true)
      else let '(x, y, f) := Cut c s' in (String a x, y, f)
  end.

(** The text before and after the last occurrence. *)
Fixpoint cut_last (c : Ascii.ascii) (s : string) : option (string * string) :=
  match s with
  | EmptyString => None
  | String a s' =>
      match cut_last c s' with
      | Some (x, y) => Some (String a x, y)
      | None => if Ascii.eqb a c then Some ("", s') else None
      end
  end.

Fixpoint count_char (c : Ascii.ascii) (s : string) : Z :=
  match s with
  | EmptyString => 0
  | String a s' => (if Ascii.eqb a c then 1 else 0) + count_char c s'
  end.

(** ** Escapes *)

Inductive encoding := encodePath | encodeHost | encodeUserPassword | encodeQueryComponent | encodeFragment.

Definition alphanumeric (a : Ascii.ascii) : bool :=
  ascii_in "a" "z" a || ascii_in "A" "Z" a || is_digit a.

(** The double quote. *)
Definition dquote : Ascii.ascii := ascii_of_byte 34.

Definition shouldEscape (a : Ascii.ascii) (mode : encoding) : bool :=
  if alphanumeric a then false
  else if match mode with encodeHost => char_in "!$&'()*+,;=:[]<>" a || Ascii.eqb a dquote | _ => false end then false
  else if char_in "-_.~" a then false
  else if char_in "$&+,/:;=?@" a then
    match mode with
    | encodePath => Ascii.eqb a "?"
    | encodeUserPassword => char_in "@/?:" a
    | encodeFragment => false
    | encodeQueryComponent | encodeHost => true
    end
  else match mode with encodeFragment => negb (char_in "!()*" a) | _ => true end.

Definition upper_hex_digit (n : Z) : Ascii.ascii := ascii_of_byte (if n <? 10 then 48 + n else 55 + n).

Fixpoint escape (s : string) (mode : encoding) : string :=
  match s with
  | EmptyString => ""
  | String a s' =>
      match mode, Ascii.eqb a " " with
      | encodeQueryComponent, true => String "+" (escape s' mode)
      | _, _ =>
          if shouldEscape a mode then
            let b := byte_of_ascii a in
            String "%" (String (upper_hex_digit (b / 16)) (String (upper_hex_digit (b mod 16)) (escape s' mode)))
          else String a (escape s' mode)
      end
  end.

Definition unhex (a : Ascii.ascii) : option Z := hex_val a.

Fixpoint unescape (s : string) (mode : encoding) : option string :=
  match s with
  | EmptyString => Some ""
  | String a s' =>
      if Ascii.eqb a "%" then
        match s' with
        | String h (String l s2) =>
            match unhex h, unhex l with
            | Some x, Some y =>
                match mode with
                | encodeHost => if (x <? 8) && negb ((x =? 2) && (y =? 5)) then None
                                else String (ascii_of_byte (16 * x + y)) <$> unescape s2 mode
                | _ => String (ascii_of_byte (16 * x + y)) <$> unescape s2 mode
                end
            | _, _ => None
            end
        | _ => None
        end
      else
        match mode with
        | encodeQueryComponent => String (if Ascii.eqb a "+" then " "%char else a) <$> unescape s' mode
        | encodeHost => if (byte_of_ascii a <? 128) && shouldEscape a mode then None else String a <$> unescape s' mode
        | _ => String a <$> unescape s' mode
        end
  end.

(** [PathUnescape] leaves [+] alone. *)
Definition PathUnescape (s : string) : option string := unescape s encodePath.
Definition QueryEscape (s : string) : string := escape s encodeQueryComponent.
Definition QueryUnescape (s : string) : option string := unescape s encodeQueryComponent.

Definition validEncoded (s : string) (mode : encoding) : bool :=
  string_forallb (fun a => char_in "!$&'()*+,;=:@[]%" a || negb (shouldEscape a mode)) s.

(** ** URLs *)

(** A path and a fragment are kept as written; the decoded path beside it. *)
Record URL := mkURL {
  u_Scheme : string;
  u_Opaque : string;
  u_User : option (string * option string);
  u_Host : string;
  u_Path : string;
  u_raw_path : string;
  u_OmitHost : bool;
  u_ForceQuery : bool;
  u_RawQuery : string;
  u_Fragment : string;
  u_raw_fragment : string
}.

Definition set_query (u : URL) (q : string) : URL :=
  mkURL (u_Scheme u) (u_Opaque u) (u_User u) (u_Host u) (u_Path u) (u_raw_path u) (u_OmitHost u)
    (u_ForceQuery u) q (u_Fragment u) (u_raw_fragment u).
Definition drop_user (u : URL) : URL :=
  mkURL (u_Scheme u) (u_Opaque u) None (u_Host u) (u_Path u) (u_raw_path u) (u_OmitHost u)
    (u_ForceQuery u) (u_RawQuery u) (u_Fragment u) (u_raw_fragment u).

Definition control_char (a : Ascii.ascii) : bool := (byte_of_ascii a <? 32) || (byte_of_ascii a =? 127).

(** The scheme and the rest; [None] is the error of a missing scheme. *)
Fixpoint get_scheme (first : bool) (s : string) : option (option (string * string)) :=
  match s with
  | EmptyString => Some None
  | String a s' =>
      if ascii_in "a" "z" a || ascii_in "A" "Z" a || negb first && (is_digit a || char_in "+-." a) then
        match get_scheme false s' with
        | Some (Some (x, y)) => Some (Some (String a x, y))
        | r => r
        end
      else if Ascii.eqb a ":" then if first then None else Some (Some ("", s'))
      else Some None
  end.

Definition getScheme (s : string) : option (string * string) :=
  match get_scheme true s with
  | None => None
  | Some None => Some ("", s)
  | Some (Some r) => Some r
  end.

Definition validOptionalPort (p : string) : bool :=
  match p with
  | EmptyString => true
  | String a p' => Ascii.eqb a ":" && string_forallb is_digit p'
  end.

Definition parseHost (host : string) : option string :=
  if HasPrefix host "[" then
    match cut_last "]" host with
    | Some (_, port) => if validOptionalPort port then unescape host encodeHost else None
    | None => None
    end
  else
    match cut_last ":" host with
    | Some (_, port) => if string_forallb is_digit port then unescape host encodeHost else None
    | None => unescape host encodeHost
    end.

Definition validUserinfo (s : string) : bool :=
  string_forallb (fun a => alphanumeric a || char_in "-._:~!$&'()*+,;=%@" a) s.

Definition parseAuthority (a : string) : option (option (string * option string) * string) :=
  match cut_last "@" a with
  | None => (fun h => (None, h)) <$> parseHost a
  | Some (userinfo, h) =>
      match parseHost h with
      | None => None
      | Some h =>
          if negb (validUserinfo userinfo) then None
          else
            let '(name, pw, has) := Cut ":" userinfo in
            match unescape name encodeUserPassword with
            | None => None
            | Some name =>
                if has then (fun pw => (Some (name, Some pw), h)) <$> unescape pw encodeUserPassword
                else Some (Some (name, None), h)
            end
      end
  end.

Definition empty_url : URL := mkURL "" "" None "" "" "" false false "" "" "".

(** [parse(rawURL, false)], the fragment cut off. *)
Definition parse_url (raw : string) : option URL :=
  if negb (string_forallb (fun a => negb (control_char a)) raw) then None
  else if String.eqb raw "*" then Some (mkURL "" "" None "" "*" "*" false false "" "" "")
  else
    match getScheme raw with
    | None => None
    | Some (scheme, rest) =>
        let scheme := ToLower scheme in
        let '(rest, query, force) :=
          if HasSuffix rest "?" && (count_char "?" rest =? 1) then (TrimSuffix rest "?", "", true)
          else let '(x, y, _) := Cut "?" rest in (x, y, false) in
        let rooted := HasPrefix rest "/" in
        if negb rooted && negb (String.eqb scheme "")
        then Some (mkURL scheme rest None "" "" "" false force query "" "")
        else if negb rooted && str_contains (fst (fst (Cut "/" rest))) ":" then None
        else
          let finish user host path omit :=
            match unescape path encodePath with
            | Some p => Some (mkURL scheme "" user host p path omit force query "" "")
            | None => None
            end in
          if (negb (String.eqb scheme "") || negb (HasPrefix rest "///")) && HasPrefix rest "//" then
            let '(authority, path, more) := Cut "/" (TrimPrefix rest "//") in
            match parseAuthority authority with
            | Some (user, host) => finish user host (if more then String slash path else "") false
            | None => None
            end
          else finish None "" rest (negb (String.eqb scheme "") && rooted)
    end.

Definition Parse (raw : string) : option URL :=
  let '(u, frag, _) := Cut "#" raw in
  match parse_url u with
  | None => None
  | Some v =>
      match unescape frag encodeFragment with
      | None => None
      | Some f => Some (mkURL (u_Scheme v) (u_Opaque v) (u_User v) (u_Host v) (u_Path v) (u_raw_path v)
                          (u_OmitHost v) (u_ForceQuery v) (u_RawQuery v) f frag)
      end
  end.

Definition EscapedPath (u : URL) : string :=
  if validEncoded (u_raw_path u) encodePath then u_raw_path u else escape (u_Path u) encodePath.
Definition EscapedFragment (u : URL) : string :=
  if validEncoded (u_raw_fragment u) encodeFragment then u_raw_fragment u
  else escape (u_Fragment u) encodeFragment.

Definition Hostname (u : URL) : string :=
  let h :=
    match cut_last ":" (u_Host u) with
    | Some (h, port) => if string_forallb is_digit port then h else u_Host u
    | None => u_Host u
    end in
  if HasPrefix h "[" && HasSuffix h "]" then TrimSuffix (TrimPrefix h "[") "]" else h.

Definition query_part (u : URL) : string :=
  if u_ForceQuery u || negb (String.eqb (u_RawQuery u) "") then "?" +:+ u_RawQuery u else "".

Definition RequestURI (u : URL) : string :=
  let r :=
    if String.eqb (u_Opaque u) "" then
      if String.eqb (EscapedPath u) "" then "/" else EscapedPath u
    else if HasPrefix (u_Opaque u) "//" then u_Scheme u +:+ ":" +:+ u_Opaque u else u_Opaque u in
  r +:+ query_part u.

Definition userinfo_string (i : string * option string) : string :=
  escape (fst i) encodeUserPassword +:+
  match snd i with Some pw => ":" +:+ escape pw encodeUserPassword | None => "" end.

(** What stands before the path. *)
Definition url_origin (u : URL) : string :=
  let named := negb (String.eqb (u_Host u) "") || match u_User u with Some _ => true | None => false end in
  if (negb (String.eqb (u_Scheme u) "") || named) && negb (u_OmitHost u && negb named) then
    (if named || negb (String.eqb (u_Path u) "") then "//" else "")
    +:+ match u_User u with Some i => userinfo_string i +:+ "@" | None => "" end
    +:+ escape (u_Host u) encodeHost
  else "".

Definition url_string (u : URL) : string :=
  let scheme := if String.eqb (u_Scheme u) "" then "" else u_Scheme u +:+ ":" in
  let front := scheme +:+ url_origin u in
  (if negb (String.eqb (u_Opaque u) "") then scheme +:+ u_Opaque u
   else
     let path := EscapedPath u in
     front
     +:+ (if negb (String.eqb path "") && negb (HasPrefix path "/") && negb (String.eqb (u_Host u) "") then "/" else "")
     +:+ (if String.eqb front "" && str_contains (fst (fst (Cut "/" path))) ":" then "./" else "")
     +:+ path)
  +:+ query_part u
  +:+ (if String.eqb (u_Fragment u) "" then "" else "#" +:+ EscapedFragment u).

(** ** Query parameters *)

(** The pairs in their order of appearance; [q[key]] is [values q key]. *)
Definition Values := list (string * string).

Definition values (q : Values) (key : string) : list string :=
  omap (fun e => if String.eqb (fst e) key then Some (snd e) else None) q.
Definition Get (q : Values) (key : string) : string := default "" (head (values q key)).
Definition Set_ (q : Values) (key value : string) : Values :=
  List.filter (fun e => negb (String.eqb (fst e) key)) q ++ [(key, value)].

(** One parameter; a malformed one is skipped. *)
Definition query_pair (s : string) : option (string * string) :=
  if str_contains s ";" || String.eqb s "" then None
  else
    let '(k, v, _) := Cut "=" s in
    match QueryUnescape k, QueryUnescape v with
    | Some k, Some v => Some (k, v)
    | _, _ => None
    end.

Definition ParseQuery (s : string) : Values := omap query_pair (split_on "&" s).

Definition Query (u : URL) : Values := ParseQuery (u_RawQuery u).

Definition encode_pair (e : string * string) : string := QueryEscape (fst e) +:+ "=" +:+ QueryEscape (snd e).

Definition Encode (q : Values) : string :=
  let keys := merge_sort str_le (remove_dups q.*1) in
  join_with "&" (concat (map (fun k => map (fun v => encode_pair (k, v)) (values q k)) keys)).

(** ** Base32 and base64 (the standard alphabets) *)

Definition base32_val (a : Ascii.ascii) : option Z :=
  let b := byte_of_ascii a in
  if ascii_in "A" "Z" a then Some (b - 65)
  else if ascii_in "2" "7" a then Some (b - 24) else None.

Fixpoint base32_number (s : string) (acc : Z) : option Z :=
  match s with
  | EmptyString => Some acc
  | String a s' =>
      match base32_val a with Some v => base32_number s' (32 * acc + v) | None => None end
  end.

(** The text of 32 characters has no padding and is 20 bytes. *)
Definition base32_decode20 (s : string) : option bytes := be_put 20 <$> base32_number s 0.

Definition upper_ascii (a : Ascii.ascii) : Ascii.ascii :=
  if ascii_in "a" "z" a then ascii_of_byte (byte_of_ascii a - 32) else a.

Fixpoint ToUpper (s : string) : string :=
  match s with EmptyString => "" | String a s' => String (upper_ascii a) (ToUpper s') end.

Definition base64_digit (n : Z) : Ascii.ascii :=
  ascii_of_byte (if n <? 26 then 65 + n else if n <? 52 then 71 + n else if n <? 62 then n - 4
                 else if n =? 62 then 43 else 47).

Fixpoint base64_encode (b : bytes) : string :=
  match b with
  | [] => ""
  | [x] => String (base64_digit (x / 4)) (String (base64_digit (x mod 4 * 16)) "==")
  | [x; y] => String (base64_digit (x / 4)) (String (base64_digit (x mod 4 * 16 + y / 16))
                (String (base64_digit (y mod 16 * 4)) "="))
  | x :: y :: z :: b' =>
      String (base64_digit (x / 4)) (String (base64_digit (x mod 4 * 16 + y / 16))
        (String (base64_digit (y mod 16 * 4 + z / 64)) (String (base64_digit (z mod 64)) (base64_encode b'))))
  end.
