(* ===== verification/Links.v ===== *)
(** * Links the user types (internal/download/batch.go, resolver.go, detector.go)

    Cleaning a link up, deciding what kind it is, and expanding a text with
    several links or with ranges like [[01-10]] and [[a-d]] into the links it
    stands for. *)

From S2P Require Import Prelude GoStrings Regex GoURL DownloadTasks.

#[local] Open Scope string_scope.
#[local] Open Scope list_scope.
#[local] Open Scope Z_scope.

(** ** NormalizeLink *)

Definition http_scheme : regex := Cat [Lit "http"; Opt (Lit "s"); Lit "://"].

Definition markdownLinkRegex : regex :=
  Cat [Lit "["; Lazy (Chr any_char); Lit "](";
       Group 1 (Seq http_scheme (Plus (Chr (fun a => negb (is_white a) && negb (Ascii.eqb a ")")))));
       Lit ")"; Eos].

Definition angleBracketRegex : regex :=
  Cat [Lit "<"; Group 1 (Seq http_scheme (Plus (Chr (none_of ">")))); Lit ">"; Eos].

Definition domainPrefixRegex : regex :=
  Cat [Plus (Seq (Plus (Chr (fun a => is_alnum a || Ascii.eqb a "-"))) (Lit "."));
       Cat [Chr is_letter; Plus (Chr is_letter)];
       Opt (Seq (Lit ":") (Plus (Chr is_digit)));
       Opt (Seq (Lit "/") (Star (Chr any_char)));
       Eos].

Definition matches (r : regex) (s : string) : bool :=
  match match_start r s with Some _ => true | None => false end.

(** The first submatch of an anchored expression, or the text unchanged. *)
Definition first_group (r : regex) (s : string) : string :=
  match match_start r s with Some m => group m 1 | None => s end.

Definition quotes : string := String dquote "'".

Definition strip_quotes (s : string) : string :=
  if (HasPrefix s (String dquote "") && HasSuffix s (String dquote "")) || (HasPrefix s "'" && HasSuffix s "'")
  then TrimSpace (Trim s quotes) else s.

Definition schemeless (s : string) : bool :=
  negb (HasPrefix s "http://") && negb (HasPrefix s "https://") && negb (HasPrefix s "ftp://").

Definition with_scheme (s : string) : string :=
  if schemeless s then
    let lower := ToLower s in
    let isDomainWithSlash := str_contains s "/" && matches domainPrefixRegex s in
    let isWww := HasPrefix lower "www." && matches domainPrefixRegex s in
    if isDomainWithSlash || isWww then "https://" +:+ s else s
  else s.

Definition unwrapRedirects (rawURL : string) : string :=
  match Parse rawURL with
  | None => rawURL
  | Some u =>
      let host := ToLower (u_Host u) in
      let anonymizer :=
        let trimmed := TrimPrefix (RequestURI u) "/?" in
        if str_contains host "href.li" && (HasPrefix trimmed "http://" || HasPrefix trimmed "https://")
        then trimmed else rawURL in
      if str_contains host "google." && String.eqb (u_Path u) "/url" then
        let q := Get (Query u) "q" in
        if negb (String.eqb q "") then q
        else
          let target := Get (Query u) "url" in
          if negb (String.eqb target "") then target else anonymizer
      else anonymizer
  end.

Definition NormalizeLink (input : string) : string :=
  let s := TrimSpace input in
  if String.eqb s "" then ""
  else
    let s := strip_quotes s in
    let s := first_group markdownLinkRegex s in
    let s := first_group angleBracketRegex s in
    if HasPrefix s "magnet:?" then s
    else unwrapRedirects (with_scheme s).

(** ** What kind of link it is *)

Definition IsDownloadLink (link : string) : bool :=
  let trimmed := TrimSpace link in
  if String.eqb trimmed "" then false
  else
    let norm := NormalizeLink trimmed in
    let lower := ToLower norm in
    if HasPrefix lower "http://" || HasPrefix lower "https://"
    then (8 <? slen norm) && string_forallb (fun a => negb (char_in (String " " (String (ascii_of_byte 9)
           (String carriage_return (String newline "")))) a)) norm
    else if HasPrefix lower "magnet:?" then (8 <? slen norm) && str_contains lower "xt=urn:btih:"
    else false.

Definition DetectLinkType (link : string) : result DownloadType :=
  let trimmed := TrimSpace link in
  if String.eqb trimmed "" then Err (ErrMsg "empty download link")
  else
    let lower := ToLower (NormalizeLink trimmed) in
    if HasPrefix lower "http://" || HasPrefix lower "https://" then Ok DownloadTypeDirect
    else if HasPrefix lower "magnet:?" then Ok DownloadTypeMagnet
    else Err (ErrMsg "unsupported download link protocol: must start with http://, https://, or magnet:?").

(** ** Ranges *)

Definition range_regex (r : regex) : regex := Cat [Lit "["; Group 1 r; Lit "-"; Group 2 r; Lit "]"].
Definition numRangeRegex : regex := range_regex (Plus (Chr is_digit)).
Definition alphaRangeRegex : regex := range_regex (Chr is_letter).

Definition maxBatchSize : Z := 100.
Definition maxPatternDepth : nat := 3.

(** [strconv.Atoi] as it is used where its error is ignored, and where not. *)
Definition num_bounds (m : matched) : Z * Z := (ParseInt_value (group m 1), ParseInt_value (group m 2)).

(** [s[0]] *)
Definition first_byte (s : string) : Z :=
  match s with String a _ => byte_of_ascii a | EmptyString => 0 end.
Definition alpha_bounds (m : matched) : Z * Z := (first_byte (group m 1), first_byte (group m 2)).

Definition err_limit : string := "batch link pattern expansion exceeds maximum limit of 100 items".

(** The loops over the matches; [size] is the number of values of a range in
    the width the code computes it in. *)
Fixpoint count_combinations (size : Z -> Z) (limit product : Z) (ranges : list (Z * Z)) : option Z :=
  match ranges with
  | [] => Some product
  | (s, e) :: rest =>
      if s <=? e then
        let product := i64 (product * size (e - s + 1)) in
        if limit <? product then None else count_combinations size limit product rest
      else count_combinations size limit product rest
  end.

Definition all_matches (r : regex) (s : string) : list matched := find_all (String.length s) r s.

Definition validatePatternComplexity (raw : string) (remainingLimit : Z) : option string :=
  let numMatches := all_matches numRangeRegex raw in
  let alphaMatches := all_matches alphaRangeRegex raw in
  if (maxPatternDepth <? length numMatches + length alphaMatches)%nat
  then Some "batch link pattern exceeds maximum nesting depth of 3 patterns"
  else
    match count_combinations i64 remainingLimit 1 (map num_bounds numMatches) with
    | None => Some err_limit
    | Some product =>
        match count_combinations (fun d => d mod 256) remainingLimit product (map alpha_bounds alphaMatches) with
        | None => Some err_limit
        | Some _ => None
        end
    end.

(** The loop that expands one text after the other until [maxItems] links are
    there. *)
Fixpoint expand_each (rec : string -> Z -> list string) (maxItems : Z) (subs out : list string) : list string :=
  match subs with
  | [] => out
  | sub :: rest =>
      if zlen out <? maxItems
      then expand_each rec maxItems rest (out ++ rec sub (maxItems - zlen out))
      else out
  end.

(** [fmt.Sprintf("%0*d", width, i)] *)
Definition pad_zeros (width : nat) (s : string) : string :=
  (fix zeros (n : nat) := match n with O => s | S n' => String "0" (zeros n') end) (width - String.length s)%nat.

Definition zrange (a b : Z) : list Z := map (fun i => a + Z.of_nat i) (seq 0 (Z.to_nat (b - a + 1))).

(** The texts a numeric range stands for; [None] when the range is malformed. *)
Definition num_values (m : matched) : option (list string) :=
  let sStr := group m 1 in
  let eStr := group m 2 in
  match ParseInt sStr, ParseInt eStr with
  | Some sVal, Some eVal =>
      if (sVal <=? eVal) && (eVal - sVal <? maxBatchSize) then
        let padZeroes := (String.length sStr =? String.length eStr)%nat && HasPrefix sStr "0" in
        Some (map (fun i => if padZeroes then pad_zeros (String.length sStr) (FormatInt i) else FormatInt i)
                (zrange sVal eVal))
      else None
  | _, _ => None
  end.

Definition alpha_values (m : matched) : option (list string) :=
  let '(sChar, eChar) := alpha_bounds m in
  if (sChar <=? eChar) && (eChar - sChar <? 26)
  then Some (map (fun c => String (ascii_of_byte c) "") (zrange sChar eChar))
  else None.

Definition range_match (r : regex) (vals : matched -> option (list string)) (raw : string)
  : option (list string) :=
  match find r raw with
  | Some m => option_map (map (fun v => m_prefix m +:+ v +:+ m_suffix m)) (vals m)
  | None => None
  end.

(** The texts with the first range replaced by its values: a numeric range
    before any alphabetic one. *)
Definition next_range (raw : string) : option (list string) :=
  match range_match numRangeRegex num_values raw with
  | Some subs => Some subs
  | None => range_match alphaRangeRegex alpha_values raw
  end.

(** [depth] counts down from [maxPatternDepth]. *)
Fixpoint expandPattern (depth : nat) (raw : string) (maxItems : Z) : list string :=
  match depth with
  | O => [raw]
  | S d =>
      if maxItems <=? 0 then [raw]
      else
        match next_range raw with
        | Some subs => expand_each (expandPattern d) maxItems subs []
        | None => [raw]
        end
  end.

(** ** ExpandBatchLinks *)

Definition err_batch : string := "batch link expansion exceeded maximum limit of 100 items".

(** The links of one token; the flag says the limit was exceeded. *)
Fixpoint add_links (expanded results : list string) : list string * bool :=
  match expanded with
  | [] => (results, false)
  | u :: rest =>
      if maxBatchSize <=? zlen results then (results, true)
      else
        let norm := NormalizeLink u in
        add_links rest (if String.eqb norm "" then results else results ++ [norm])
  end.

Fixpoint expand_tokens (tokens results : list string) : list string * option string :=
  match tokens with
  | [] => (results, None)
  | token :: rest =>
      let remaining := maxBatchSize - zlen results in
      if remaining <=? 0 then (results, Some err_batch)
      else
        match validatePatternComplexity token remaining with
        | Some err => (results, Some err)
        | None =>
            match add_links (expandPattern maxPatternDepth token remaining) results with
            | (results, true) => (results, Some err_batch)
            | (results, false) => expand_tokens rest results
            end
        end
  end.

Definition ExpandBatchLinks (input : string) : list string * option string :=
  let trimmed := TrimSpace input in
  if String.eqb trimmed "" then ([], Some "empty input")
  else
    let candidateTokens := concat (map (fun line => Fields (TrimSpace line)) (split_on newline trimmed)) in
    match expand_tokens candidateTokens [] with
    | (results, Some err) => (results, Some err)
    | ([], None) => ([], Some "no valid download links found in input")
    | (results, None) => (results, None)
    end.
