(* ===== verification/LinksProps.v ===== *)
(** * Theorems about the links the user types (Links) *)

From S2P Require Import Prelude GoStrings Regex GoURL DownloadTasks Links.

#[local] Open Scope string_scope.
#[local] Open Scope list_scope.
#[local] Open Scope Z_scope.

(** ** Texts with ranges *)

(** What a token is made of: plain text and the two kinds of ranges. *)
Inductive seg := Text (s : string) | Num (a b : string) | Alpha (a b : Ascii.ascii).

Definition render_seg (g : seg) : string :=
  match g with
  | Text s => s
  | Num a b => "[" +:+ a +:+ "-" +:+ b +:+ "]"
  | Alpha a b => "[" +:+ String a ("-" +:+ String b "]")
  end.

Definition render (segs : list seg) : string := foldr (fun g s => render_seg g +:+ s) "" segs.

Definition no_bracket (s : string) : bool := without "[" s.

Definition digits (s : string) : Prop := s <> "" /\ string_forallb is_digit s = true.

Definition seg_shape (g : seg) : Prop :=
  match g with
  | Text s => no_bracket s = true
  | Num a b => digits a /\ digits b
  | Alpha a b => is_letter a = true /\ is_letter b = true
  end.

Definition num_match (a b : string) : matched := mkMatched "" "" [(2%nat, b); (1%nat, a)] "".
Definition alpha_match (a b : Ascii.ascii) : matched := num_match (String a "") (String b "").

(** A number of the range [a-b]: with the width of [a] when the bounds are
    equally long and the lower one begins with a zero. *)
Definition number_of (a b : string) (i : Z) : string :=
  if (String.length a =? String.length b)%nat && HasPrefix a "0"
  then pad_zeros (String.length a) (FormatInt i) else FormatInt i.

(** The texts a piece stands for. *)
Definition seg_values (g : seg) : list string :=
  match g with
  | Text s => [s]
  | Num a b => map (number_of a b) (zrange (ParseInt_value a) (ParseInt_value b))
  | Alpha a b => map (fun c => String (ascii_of_byte c) "") (zrange (byte_of_ascii a) (byte_of_ascii b))
  end.

(** The reference definition: every combination, in the order of reading. *)
Fixpoint variants (segs : list seg) : list string :=
  match segs with
  | [] => [""]
  | g :: rest => concat (map (fun v => map (fun w => v +:+ w) (variants rest)) (seg_values g))
  end.

(** A range the code accepts: its bounds in order and less than 100 apart; of
    letters, of the same case.  ([[Z-a]] is accepted as well and stands for
    the characters between the two alphabets, brackets included.) *)
Definition seg_ok (g : seg) : Prop :=
  seg_shape g /\
  match g with
  | Text _ => True
  | Num a b => exists x y, ParseInt a = Some x /\ ParseInt b = Some y /\ x <= y < x + 100
  | Alpha a b =>
      byte_of_ascii a <= byte_of_ascii b < byte_of_ascii a + 26
      /\ (ascii_in "a" "z" a = ascii_in "a" "z" b)
  end.

Definition is_range (g : seg) : bool := match g with Text _ => false | _ => true end.
Definition ranges (segs : list seg) : nat := length (List.filter is_range segs).
Definition combinations (segs : list seg) : Z := foldr (fun g n => zlen (seg_values g) * n) 1 segs.

Lemma render_app s t : render (s ++ t) = render s +:+ render t.
Proof. induction s as [|g s IH]; simpl; [done|]. by rewrite IH, str_app_assoc. Qed.

(** ** Matching *)

Lemma run_num_field {A} i x t c (k : string -> captures -> option A) :
  digits x -> heads is_digit t = false -> (forall t' c', heads is_digit t' = true -> k t' c' = None) ->
  run (Group i (Plus (Chr is_digit))) (x +:+ t) c k = k t ((i, x) :: c).
Proof.
  intros [Hne Hd] Ht Hk.
  change (run (Group i ?r) ?s c k) with (run r s c (fun s' c' => k s' ((i, text_between s s') :: c'))).
  rewrite run_plus by (intros; by apply Hk).
  rewrite (span_run _ _ _ Hd Ht). simpl snd. rewrite text_between_app.
  destruct x as [|a x]; [done|]. simpl in *. by destruct (is_digit a).
Qed.

Lemma run_letter_field {A} i a t c (k : string -> captures -> option A) :
  is_letter a = true -> run (Group i (Chr is_letter)) (String a t) c k = k t ((i, String a "") :: c).
Proof.
  intros Ha. cbn [run]. rewrite Ha.
  change (String a t) with (String a "" +:+ t). by rewrite text_between_app.
Qed.

Lemma run_chr {A} p s c (k : string -> captures -> option A) :
  run (Chr p) s c k = match s with String a s' => if p a then k s' c else None | EmptyString => None end.
Proof. done. Qed.

Lemma run_seq {A} r1 r2 s c (k : string -> captures -> option A) :
  run (Seq r1 r2) s c k = run r1 s c (fun s' c' => run r2 s' c' k).
Proof. done. Qed.

Lemma render_num a b t :
  render_seg (Num a b) +:+ t = String "[" (a +:+ String "-" (b +:+ String "]" t)).
Proof. cbn [render_seg]. by rewrite !str_app_assoc. Qed.

Lemma render_alpha a b t :
  render_seg (Alpha a b) +:+ t = String "[" (String a (String "-" (String b (String "]" t)))).
Proof. done. Qed.

Lemma match_range r s :
  match_start (range_regex r) s =
    match s with
    | String a s1 =>
        if Ascii.eqb "[" a then
          run (Group 1 r) s1 [] (fun s c => run (Chr (Ascii.eqb "-")) s c (fun s c =>
            run (Group 2 r) s c (fun s c => run (Chr (Ascii.eqb "]")) s c (fun rest c =>
              Some (mkMatched "" (text_between (String a s1) rest) c rest)))))
        else None
    | EmptyString => None
    end.
Proof.
  unfold match_start, range_regex. cbn [Cat Lit]. rewrite run_seq, run_chr.
  destruct s as [|a s1]; [done|]. by destruct (Ascii.eqb _ a).
Qed.

Lemma start_num a b t : digits a -> digits b ->
  exists x, match_start numRangeRegex (render_seg (Num a b) +:+ t) =
    Some (mkMatched "" x [(2%nat, b); (1%nat, a)] t).
Proof.
  intros Ha Hb. unfold numRangeRegex. rewrite render_num, match_range. cbn [Ascii.eqb Bool.eqb].
  rewrite run_num_field; [|done..|].
  - rewrite run_chr. cbn [Ascii.eqb Bool.eqb]. rewrite run_num_field; [by eexists|done..|].
    intros [|d t'] c' Ht; [done|]. rewrite run_chr. destruct (Ascii.eqb_spec "]" d) as [<-|]; done.
  - intros [|d t'] c' Ht; [done|]. rewrite run_chr. destruct (Ascii.eqb_spec "-" d) as [<-|]; done.
Qed.

Lemma start_alpha a b t : is_letter a = true -> is_letter b = true ->
  exists x, match_start alphaRangeRegex (render_seg (Alpha a b) +:+ t) =
    Some (mkMatched "" x [(2%nat, String b ""); (1%nat, String a "")] t).
Proof.
  intros Ha Hb. unfold alphaRangeRegex. rewrite render_alpha, match_range. cbn [Ascii.eqb Bool.eqb].
  rewrite run_letter_field, run_chr by done. cbn [Ascii.eqb Bool.eqb].
  rewrite run_letter_field, run_chr by done. cbn [Ascii.eqb Bool.eqb]. by eexists.
Qed.

Lemma letter_not_digit a : is_letter a = true -> is_digit a = false.
Proof. destruct a as [[] [] [] [] [] [] [] []]; done. Qed.

Lemma not_num a b t : is_letter a = true ->
  match_start numRangeRegex (render_seg (Alpha a b) +:+ t) = None.
Proof.
  intros Ha%letter_not_digit. unfold numRangeRegex. rewrite render_alpha, match_range.
  cbn. by rewrite Ha.
Qed.

Lemma not_alpha a b t : digits a ->
  match_start alphaRangeRegex (render_seg (Num a b) +:+ t) = None.
Proof.
  intros [Hne Ha]. unfold alphaRangeRegex. rewrite render_num, match_range.
  destruct a as [|c a]; [done|]. simpl in Ha. apply andb_true_iff in Ha as [Hc _].
  rewrite string_app_cons. cbn [Ascii.eqb Bool.eqb run].
  destruct (is_letter c) eqn:Hl; [|done]. apply letter_not_digit in Hl. congruence.
Qed.

Definition bracket (a : Ascii.ascii) : bool := Ascii.eqb "[" a.

Lemma range_needs_bracket r s : heads bracket s = false -> match_start (range_regex r) s = None.
Proof. rewrite match_range. destruct s as [|a s]; [done|]. cbn [heads]. unfold bracket. by intros ->. Qed.

Lemma no_bracket_spec s : no_bracket s = true -> string_forallb (fun a => negb (bracket a)) s = true.
Proof.
  unfold no_bracket, without. induction s as [|a s IH]; simpl; [done|].
  unfold bracket. rewrite Ascii.eqb_sym. intros [-> H]%andb_true_iff. by apply IH.
Qed.

Definition shift (s : string) (m : matched) : matched :=
  mkMatched (s +:+ m_prefix m) (m_text m) (m_groups m) (m_suffix m).

Lemma find_plain r s t : no_bracket s = true ->
  find (range_regex r) (s +:+ t) = option_map (shift s) (find (range_regex r) t).
Proof.
  intros Hs%no_bracket_spec. rewrite (find_skip_text _ bracket); [|apply range_needs_bracket|done].
  by destruct (find _ t).
Qed.

Lemma find_head r s m : match_start r s = Some m -> find r s = Some m.
Proof. intros H. destruct s; simpl; by rewrite H. Qed.

(** The first piece of one kind, with what precedes and what follows. *)
Fixpoint first_seg (p : seg -> bool) (segs : list seg) : option (list seg * seg * list seg) :=
  match segs with
  | [] => None
  | g :: rest =>
      if p g then Some ([], g, rest)
      else match first_seg p rest with Some (pre, h, post) => Some (g :: pre, h, post) | None => None end
  end.

Lemma first_seg_split p segs pre g post :
  first_seg p segs = Some (pre, g, post) -> segs = pre ++ g :: post /\ p g = true.
Proof.
  revert pre. induction segs as [|h segs IH]; intros pre; simpl; [done|].
  destruct (p h) eqn:Hp; [by intros [= <- <- <-]|].
  destruct (first_seg p segs) as [[[pre' h'] post']|] eqn:Hf; [|done].
  intros [= <- -> ->]. destruct (IH pre') as [-> ?]; done.
Qed.

Lemma first_seg_none p segs : first_seg p segs = None -> Forall (fun g => p g = false) segs.
Proof.
  induction segs as [|h segs IH]; simpl; [done|]. destruct (p h) eqn:Hp; [done|].
  destruct (first_seg p segs) as [[[]]|]; [done|]. auto.
Qed.

Definition is_num (g : seg) : bool := match g with Num _ _ => true | _ => false end.
Definition is_alpha (g : seg) : bool := match g with Alpha _ _ => true | _ => false end.

Definition seg_groups (g : seg) : captures :=
  match g with
  | Text _ => []
  | Num a b => [(2%nat, b); (1%nat, a)]
  | Alpha a b => [(2%nat, String b ""); (1%nat, String a "")]
  end.

Lemma letter_no_bracket a : is_letter a = true -> Ascii.eqb a "[" = false.
Proof. destruct a as [[] [] [] [] [] [] [] []]; done. Qed.

Lemma digits_no_bracket s : string_forallb is_digit s = true -> no_bracket s = true.
Proof.
  induction s as [|a s IH]; simpl; [done|]. intros [Ha Hs]%andb_true_iff.
  unfold no_bracket, without in *. simpl. rewrite IH by done.
  destruct (Ascii.eqb_spec a "[") as [->|]; done.
Qed.

Lemma no_bracket_app s t : no_bracket (s +:+ t) = no_bracket s && no_bracket t.
Proof. apply without_app. Qed.

(** Behind its bracket a range is plain text for the search. *)
Lemma seg_tail g : seg_shape g -> is_range g = true ->
  exists s, render_seg g = String "[" s /\ no_bracket s = true.
Proof.
  destruct g as [s|a b|a b]; intros Hg Hr; [done| |].
  - destruct Hg as [[_ Ha%digits_no_bracket] [_ Hb%digits_no_bracket]].
    eexists. split; [reflexivity|]. by rewrite !no_bracket_app, Ha, Hb.
  - destruct Hg as [Ha%letter_no_bracket Hb%letter_no_bracket].
    eexists. split; [reflexivity|]. unfold no_bracket, without. simpl. by rewrite Ha, Hb.
Qed.

Lemma find_past r g t : seg_shape g -> match_start (range_regex r) (render_seg g +:+ t) = None ->
  find (range_regex r) (render_seg g +:+ t) = option_map (shift (render_seg g)) (find (range_regex r) t).
Proof.
  intros Hg Hm. destruct (is_range g) eqn:Hr.
  - destruct (seg_tail g Hg Hr) as (s & Hs & Hb). rewrite Hs in *. rewrite string_app_cons in *.
    rewrite find_skip by done. rewrite find_plain by done. by destruct (find _ t).
  - destruct g; [|done..]. by apply find_plain.
Qed.

(** The search finds the first range of its kind. *)
Section find_range.
Context (r : regex) (p : seg -> bool).
Hypothesis Hyes : forall g t, seg_shape g -> p g = true ->
  exists x, match_start (range_regex r) (render_seg g +:+ t) = Some (mkMatched "" x (seg_groups g) t).
Hypothesis Hno : forall g t, seg_shape g -> is_range g = true -> p g = false ->
  match_start (range_regex r) (render_seg g +:+ t) = None.

Lemma find_range segs : Forall seg_shape segs ->
  match first_seg p segs with
  | Some (pre, g, post) =>
      exists x, find (range_regex r) (render segs) = Some (mkMatched (render pre) x (seg_groups g) (render post))
  | None => find (range_regex r) (render segs) = None
  end.
Proof.
  induction 1 as [|g segs Hg Hs IH]; [done|]. simpl.
  destruct (p g) eqn:Hpg.
  - destruct (Hyes g (render segs) Hg Hpg) as [x Hx]. exists x. by apply find_head.
  - assert (find (range_regex r) (render_seg g +:+ render segs) =
      option_map (shift (render_seg g)) (find (range_regex r) (render segs))) as Hf.
    { destruct g as [s|a b|a b]; [by apply find_plain|apply find_past; [done|by apply Hno]..]. }
    rewrite Hf. destruct (first_seg p segs) as [[[pre h] post]|].
    + destruct IH as [x ->]. by eexists.
    + by rewrite IH.
Qed.
End find_range.

Lemma find_num segs : Forall seg_shape segs ->
  match first_seg is_num segs with
  | Some (pre, g, post) =>
      exists x, find numRangeRegex (render segs) = Some (mkMatched (render pre) x (seg_groups g) (render post))
  | None => find numRangeRegex (render segs) = None
  end.
Proof.
  apply find_range.
  - intros [] t Hg Hn; try done. destruct Hg. by apply start_num.
  - intros [] t Hg Hr Hn; try done. destruct Hg. by apply not_num.
Qed.

Lemma find_alpha segs : Forall seg_shape segs ->
  match first_seg is_alpha segs with
  | Some (pre, g, post) =>
      exists x, find alphaRangeRegex (render segs) = Some (mkMatched (render pre) x (seg_groups g) (render post))
  | None => find alphaRangeRegex (render segs) = None
  end.
Proof.
  apply find_range.
  - intros [] t Hg Hn; try done. destruct Hg. by apply start_alpha.
  - intros [] t Hg Hr Hn; try done. destruct Hg. by apply not_alpha.
Qed.

(** ** The values of a range *)

Lemma num_values_groups m m' : m_groups m = m_groups m' -> num_values m = num_values m'.
Proof. intros H. unfold num_values, group. by rewrite H. Qed.

Lemma alpha_values_groups m m' : m_groups m = m_groups m' -> alpha_values m = alpha_values m'.
Proof. intros H. unfold alpha_values, alpha_bounds, group. by rewrite H. Qed.

Lemma zlen_zrange a b : a <= b + 1 -> zlen (zrange a b) = b - a + 1.
Proof. intros. unfold zlen, zrange. rewrite length_map, length_seq. lia. Qed.

Lemma zlen_map {A B} (f : A -> B) l : zlen (map f l) = zlen l.
Proof. unfold zlen. by rewrite length_map. Qed.

Lemma in_zrange x a b : In x (zrange a b) -> a <= x <= b.
Proof. unfold zrange. rewrite in_map_iff. intros (i & <- & Hi%in_seq). lia. Qed.

Lemma ParseInt_value_ok s n : ParseInt s = Some n -> ParseInt_value s = n.
Proof.
  unfold ParseInt, ParseInt_value. destruct (parse_int s) as [v|]; [|done].
  destruct (fits_int64 v) eqn:Hf; [|done]. intros [= <-].
  unfold fits_int64 in Hf. apply andb_true_iff in Hf as [?%Z.leb_le ?%Z.ltb_lt]. lia.
Qed.

Lemma num_values_ok a b x y : ParseInt a = Some x -> ParseInt b = Some y -> x <= y < x + 100 ->
  num_values (num_match a b) = Some (seg_values (Num a b)).
Proof.
  intros Hx Hy Hxy. unfold num_values, num_match, group. cbn [m_groups List.find fst Nat.eqb from_option snd].
  rewrite Hx, Hy. unfold maxBatchSize. cbn [seg_values].
  rewrite (ParseInt_value_ok a x), (ParseInt_value_ok b y) by done.
  by replace ((x <=? y) && (y - x <? 100)) with true by (symmetry; rewrite andb_true_iff; lia).
Qed.

Lemma alpha_values_ok a b : byte_of_ascii a <= byte_of_ascii b < byte_of_ascii a + 26 ->
  alpha_values (alpha_match a b) = Some (seg_values (Alpha a b)).
Proof.
  intros Hab. unfold alpha_values, alpha_bounds, alpha_match, num_match, group.
  cbn [m_groups List.find fst Nat.eqb from_option snd first_byte].
  by replace ((byte_of_ascii a <=? byte_of_ascii b) && (byte_of_ascii b - byte_of_ascii a <? 26))
    with true by (symmetry; rewrite andb_true_iff; lia).
Qed.

(** How many values a range has. *)
Lemma seg_values_count g : seg_ok g ->
  zlen (seg_values g) = match g with
    | Text _ => 1
    | Num a b => ParseInt_value b - ParseInt_value a + 1
    | Alpha a b => byte_of_ascii b - byte_of_ascii a + 1
    end.
Proof.
  destruct g as [s|a b|a b]; intros [Hg Hok]; [done| |].
  - destruct Hok as (x & y & Hx & Hy & Hxy). cbn [seg_values].
    rewrite (ParseInt_value_ok a x), (ParseInt_value_ok b y), zlen_map, zlen_zrange by (done || lia). done.
  - cbn [seg_values]. rewrite zlen_map, zlen_zrange by lia. done.
Qed.

Lemma seg_values_pos g : seg_ok g -> 1 <= zlen (seg_values g) <= 100.
Proof.
  intros Hg. rewrite seg_values_count by done. destruct g as [s|a b|a b], Hg as [Hs Hok]; [lia| |lia].
  destruct Hok as (x & y & Hx & Hy & Hxy).
  rewrite (ParseInt_value_ok a x), (ParseInt_value_ok b y) by done. lia.
Qed.

Lemma digits_val_nonneg s acc x : 0 <= acc -> digits_val acc s = Some x -> 0 <= x.
Proof.
  revert acc. induction s as [|c s IH]; simpl; intros acc Ha; [by intros [= <-]|].
  destruct (is_digit c) eqn:Hc; [|done]. apply IH.
  assert (48 <= byte_of_ascii c).
  { revert Hc. unfold is_digit, ascii_in. rewrite andb_true_iff, Z.leb_le. by intros [? _]. }
  lia.
Qed.

Lemma digits_nonneg a x : digits a -> ParseInt a = Some x -> 0 <= x.
Proof.
  intros [Hne Hd]. unfold ParseInt. rewrite parse_int_digits by done. unfold parse_nat.
  destruct a as [|c a]; [done|]. destruct (digits_val 0 (String c a)) as [v|] eqn:Hv; [|done].
  destruct (fits_int64 v); [|done]. intros [= <-]. by eapply digits_val_nonneg in Hv.
Qed.

Lemma pad_digits w s : string_forallb is_digit s = true -> string_forallb is_digit (pad_zeros w s) = true.
Proof.
  intros Hs. unfold pad_zeros. generalize (w - String.length s)%nat. intros n.
  induction n as [|n IH]; [done|]. simpl. exact IH.
Qed.

Lemma seg_values_plain g v : seg_ok g -> In v (seg_values g) -> no_bracket v = true.
Proof.
  destruct g as [s|a b|a b]; intros [Hg Hok].
  - intros [<-|[]]. exact Hg.
  - destruct Hok as (x & y & Hx & Hy & Hxy). cbn [seg_values].
    rewrite (ParseInt_value_ok a x), (ParseInt_value_ok b y), in_map_iff by done.
    intros (i & <- & Hi%in_zrange). unfold number_of. apply digits_no_bracket.
    destruct Hg as [Ha _]. pose proof (digits_nonneg a x Ha Hx).
    assert (string_forallb is_digit (FormatInt i) = true).
    { unfold FormatInt. replace (i <? 0) with false by (symmetry; apply Z.ltb_ge; lia).
      apply FormatNat_digits. lia. }
    destruct (_ && _); [by apply pad_digits|done].
  - cbn [seg_values]. rewrite in_map_iff.
    intros (c & <- & Hc%in_zrange). unfold no_bracket, without. simpl.
    assert (97 <= byte_of_ascii a \/ byte_of_ascii b <= 90) as Hab.
    { destruct Hg as [Ha Hb], Hok as [_ Hcase]. revert Ha Hb. unfold is_letter. rewrite Hcase.
      unfold ascii_in in *. change (byte_of_ascii "a") with 97 in *. change (byte_of_ascii "z") with 122 in *.
      change (byte_of_ascii "A") with 65. change (byte_of_ascii "Z") with 90.
      destruct (97 <=? byte_of_ascii a) eqn:?; [left; lia|].
      destruct (97 <=? byte_of_ascii b) eqn:?; simpl in *; [|intros _ ?; right; lia].
      destruct (byte_of_ascii b <=? 122) eqn:?; [done|lia]. }
    pose proof (byte_of_ascii_range a). pose proof (byte_of_ascii_range b).
    destruct (Ascii.eqb_spec (ascii_of_byte c) "[") as [He|]; [|done]. exfalso.
    assert (c = 91); [|lia].
    apply (f_equal byte_of_ascii) in He. rewrite byte_ascii_id in He; [done|unfold is_byte in *; lia].
Qed.

(** ** Expanding *)

Lemma ranges_app s t : ranges (s ++ t) = (ranges s + ranges t)%nat.
Proof. unfold ranges. by rewrite List.filter_app, length_app. Qed.

Lemma Forall_text_ranges segs : Forall (fun g => is_num g = false) segs -> Forall (fun g => is_alpha g = false) segs ->
  ranges segs = 0%nat.
Proof.
  intros Hn. induction Hn as [|g segs Hg _ IH]; intros Ha; inversion Ha; subst; [done|].
  unfold ranges. simpl. destruct g; try done. by apply IH.
Qed.

Lemma shapes segs : Forall seg_ok segs -> Forall seg_shape segs.
Proof. intros H. eapply Forall_impl; [exact H|]. by intros g [? _]. Qed.

(** What the expansion does to a text with ranges: it replaces one of them. *)
Lemma next_range_render segs : Forall seg_ok segs ->
  (next_range (render segs) = None /\ ranges segs = 0%nat) \/
  exists pre g post, segs = pre ++ g :: post /\ is_range g = true /\
    next_range (render segs) = Some (map (fun v => render (pre ++ Text v :: post)) (seg_values g)).
Proof.
  intros Hok. pose proof (find_num segs (shapes segs Hok)) as Hn.
  pose proof (find_alpha segs (shapes segs Hok)) as Ha. unfold next_range, range_match.
  assert (Hmap : forall pre post l,
    map (fun v => render pre +:+ v +:+ render post) l = map (fun v => render (pre ++ Text v :: post)) l).
  { intros pre post l. apply map_ext. intros v. by rewrite render_app. }
  destruct (first_seg is_num segs) as [[[pre g] post]|] eqn:Hf.
  - destruct Hn as [x ->]. apply first_seg_split in Hf as [-> Hg]. right. exists pre, g, post.
    destruct g as [|a b|]; try done. split_and!; [done..|].
    apply Forall_app in Hok as [_ [[Hs (y & z & Hy & Hz & Hyz)] _]%Forall_cons_1].
    rewrite (num_values_groups _ (num_match a b)) by done.
    rewrite (num_values_ok a b y z) by done. cbn [option_map m_prefix m_suffix]. by rewrite Hmap.
  - rewrite Hn. destruct (first_seg is_alpha segs) as [[[pre g] post]|] eqn:Hf'.
    + destruct Ha as [x ->]. apply first_seg_split in Hf' as [-> Hg]. right. exists pre, g, post.
      destruct g as [| |a b]; try done. split_and!; [done..|].
      apply Forall_app in Hok as [_ [[Hs [Hab _]] _]%Forall_cons_1].
      rewrite (alpha_values_groups _ (alpha_match a b)) by done.
      rewrite alpha_values_ok by done. cbn [option_map m_prefix m_suffix]. by rewrite Hmap.
    + rewrite Ha. left. split; [done|].
      apply Forall_text_ranges; by apply first_seg_none.
Qed.

Lemma concat_map_swap {A B C} (f : A -> B -> list C) xs ys :
  concat (map (fun x => concat (map (f x) ys)) xs) ≡ₚ concat (map (fun y => concat (map (fun x => f x y) xs)) ys).
Proof.
  induction xs as [|x xs IH]; simpl.
  - induction ys as [|y ys IHy]; simpl; [done|exact IHy].
  - rewrite IH. clear IH. induction ys as [|y ys IHy]; simpl; [done|].
    rewrite <- IHy, <- !app_assoc. apply Permutation_app_head.
    rewrite !app_assoc. apply Permutation_app_tail, Permutation_app_comm.
Qed.

Lemma concat_map_perm {A B} (f g : A -> list B) l :
  (forall x, f x ≡ₚ g x) -> concat (map f l) ≡ₚ concat (map g l).
Proof. intros H. induction l as [|x l IH]; simpl; [done|]. by rewrite (H x), IH. Qed.

Lemma map_concat_map {A B C} (h : B -> C) (f : A -> list B) l :
  map h (concat (map f l)) = concat (map (fun x => map h (f x)) l).
Proof. rewrite concat_map, map_map. done. Qed.

(** Replacing a piece by each of its values loses no variant. *)
Lemma variants_replace pre g post :
  variants (pre ++ g :: post) ≡ₚ concat (map (fun v => variants (pre ++ Text v :: post)) (seg_values g)).
Proof.
  induction pre as [|h pre IH]; simpl.
  - apply concat_map_perm. intros v. by rewrite app_nil_r.
  - etrans; [apply concat_map_perm; intros v; apply Permutation_map, IH|].
    etrans; [|apply (concat_map_swap (fun v w => map (fun x => v +:+ x) (variants (pre ++ Text w :: post))))].
    apply concat_map_perm. intros v. by rewrite map_concat_map.
Qed.

Lemma zlen_variants segs : zlen (variants segs) = combinations segs.
Proof.
  induction segs as [|g segs IH]; simpl; [done|]. rewrite <- IH. clear IH.
  induction (seg_values g) as [|v l IHl]; [done|]. simpl. rewrite zlen_app, IHl, zlen_map, zlen_cons. lia.
Qed.

Lemma combinations_pos segs : Forall seg_ok segs -> 1 <= combinations segs.
Proof.
  induction 1 as [|g segs Hg _ IH]; simpl; [lia|]. pose proof (seg_values_pos g Hg). nia.
Qed.

Lemma combinations_app s t : combinations (s ++ t) = combinations s * combinations t.
Proof. unfold combinations. induction s as [|g s IH]; simpl; [lia|]. rewrite IH. lia. Qed.

Lemma combinations_no_range segs : ranges segs = 0%nat -> combinations segs = 1.
Proof.
  induction segs as [|g segs IH]; [done|]. unfold ranges. destruct g; simpl; try done.
  intros H. fold (combinations segs). rewrite IH by done. done.
Qed.

Lemma variants_no_range segs : ranges segs = 0%nat -> variants segs = [render segs].
Proof.
  induction segs as [|g segs IH]; [done|]. unfold ranges. destruct g; simpl; try done.
  intros H. by rewrite IH.
Qed.

(** With room for all of them, the loop collects the expansions of all texts. *)
Lemma expand_each_all {A} (rec : string -> Z -> list string) (f : A -> string) (g : A -> list string) n m l out :
  0 < n -> (forall x k, In x l -> n <= k -> rec (f x) k ≡ₚ g x) -> (forall x, In x l -> zlen (g x) = n) ->
  zlen out + n * zlen l <= m ->
  expand_each rec m (map f l) out ≡ₚ out ++ concat (map g l).
Proof.
  intros Hn. revert out. induction l as [|x l IH]; intros out Hrec Hlen Hm; simpl.
  - by rewrite app_nil_r.
  - rewrite zlen_cons in Hm. pose proof (zlen_nonneg l).
    replace (zlen out <? m) with true by (symmetry; apply Z.ltb_lt; nia).
    assert (Hx : rec (f x) (m - zlen out) ≡ₚ g x) by (apply Hrec; [by left|nia]).
    rewrite IH; [|intros; apply Hrec; [by right|done]|intros; apply Hlen; by right|].
    + by rewrite Hx, <- app_assoc.
    + rewrite zlen_app. unfold zlen at 2. rewrite (Permutation_length Hx).
      fold (zlen (g x)). rewrite (Hlen x) by (by left). nia.
Qed.

Lemma expandPattern_variants d segs m : Forall seg_ok segs -> (ranges segs <= d)%nat -> combinations segs <= m ->
  expandPattern d (render segs) m ≡ₚ variants segs.
Proof.
  revert segs m. induction d as [|d IH]; intros segs m Hok Hd Hm.
  - rewrite variants_no_range by lia. done.
  - pose proof (combinations_pos segs Hok). simpl.
    replace (m <=? 0) with false by (symmetry; apply Z.leb_gt; lia).
    destruct (next_range_render segs Hok) as [[-> Hr]|(pre & g & post & -> & Hg & ->)].
    { by rewrite variants_no_range. }
    rewrite variants_replace.
    apply Forall_app in Hok as [Hpre [Hgok Hpost]%Forall_cons_1].
    rewrite combinations_app in Hm. simpl in Hm. fold (combinations post) in Hm.
    assert (Hin : forall v, In v (seg_values g) -> Forall seg_ok (pre ++ Text v :: post)).
    { intros v Hv. apply Forall_app. split; [done|]. constructor; [|done]. split; [|done].
      by apply (seg_values_plain g v). }
    assert (Hsz : forall v, combinations (pre ++ Text v :: post) = combinations pre * combinations post).
    { intros v. rewrite combinations_app. simpl. fold (combinations post). change (zlen [v]) with 1. lia. }
    rewrite (expand_each_all _ _ (fun v => variants (pre ++ Text v :: post)) (combinations pre * combinations post)).
    + done.
    + pose proof (combinations_pos _ Hpre). pose proof (combinations_pos _ Hpost). nia.
    + intros v k Hv Hk. apply IH; [by apply Hin| |by rewrite Hsz].
      rewrite ranges_app in *. unfold ranges in *. simpl in *. rewrite Hg in Hd. simpl in Hd. lia.
    + intros v Hv. by rewrite zlen_variants, Hsz.
    + rewrite zlen_nil. nia.
Qed.

(** ** Counting before expanding *)

Definition seg_bounds (g : seg) : Z * Z :=
  match g with
  | Text _ => (0, 0)
  | Num a b => (ParseInt_value a, ParseInt_value b)
  | Alpha a b => (byte_of_ascii a, byte_of_ascii b)
  end.

Lemma first_seg_filter p segs :
  List.filter p segs =
    match first_seg p segs with Some (_, g, post) => g :: List.filter p post | None => [] end.
Proof.
  induction segs as [|g segs IH]; [done|]. simpl. destruct (p g) eqn:Hp; [done|].
  rewrite IH. by destruct (first_seg p segs) as [[[]]|].
Qed.

Lemma find_all_render r (p : seg -> bool) fuel segs :
  (forall segs, Forall seg_shape segs ->
    match first_seg p segs with
    | Some (pre, g, post) =>
        exists x, find r (render segs) = Some (mkMatched (render pre) x (seg_groups g) (render post))
    | None => find r (render segs) = None
    end) ->
  Forall seg_shape segs -> (length (List.filter p segs) <= fuel)%nat ->
  map m_groups (find_all fuel r (render segs)) = map seg_groups (List.filter p segs).
Proof.
  intros Hfind. revert segs. induction fuel as [|fuel IH]; intros segs Hs Hf.
  - destruct (List.filter p segs); simpl in *; [done|lia].
  - specialize (Hfind segs Hs). rewrite first_seg_filter in *. cbn [find_all].
    destruct (first_seg p segs) as [[[pre g] post]|] eqn:Hp.
    + destruct Hfind as [x ->]. simpl. f_equal. apply first_seg_split in Hp as [-> _].
      apply Forall_app in Hs as [_ [_ Hs]%Forall_cons_1]. apply IH; [done|]. simpl in Hf. lia.
    + by rewrite Hfind.
Qed.

Lemma filter_length_render p segs : Forall seg_shape segs -> (forall g, p g = true -> is_range g = true) ->
  (length (List.filter p segs) <= String.length (render segs))%nat.
Proof.
  intros Hs Hp. induction Hs as [|g segs Hg _ IH]; [done|]. cbn [render foldr]. fold (render segs).
  rewrite length_str_app. simpl. destruct (p g) eqn:Hpg; simpl; [|lia].
  destruct (seg_tail g Hg (Hp g Hpg)) as (t & -> & _). simpl. lia.
Qed.

Lemma matches_num segs : Forall seg_shape segs ->
  map m_groups (all_matches numRangeRegex (render segs)) = map seg_groups (List.filter is_num segs).
Proof.
  intros Hs. apply find_all_render; [apply find_num|done|].
  apply filter_length_render; [done|]. by intros [].
Qed.

Lemma matches_alpha segs : Forall seg_shape segs ->
  map m_groups (all_matches alphaRangeRegex (render segs)) = map seg_groups (List.filter is_alpha segs).
Proof.
  intros Hs. apply find_all_render; [apply find_alpha|done|].
  apply filter_length_render; [done|]. by intros [].
Qed.

Lemma bounds_of_groups (f : matched -> Z * Z) (p : seg -> bool) l segs :
  (forall m g, p g = true -> m_groups m = seg_groups g -> f m = seg_bounds g) ->
  map m_groups l = map seg_groups (List.filter p segs) -> map f l = map seg_bounds (List.filter p segs).
Proof.
  intros Hf. assert (Forall (fun g => p g = true) (List.filter p segs)) as Hp.
  { apply List.Forall_forall. intros g [_ Hg]%filter_In. done. }
  revert l. induction Hp as [|g gs Hg _ IH]; intros [|m l]; simpl; try done.
  intros [= Hm Hl]. by rewrite (Hf m g), IH.
Qed.

Lemma num_bounds_groups m g : is_num g = true -> m_groups m = seg_groups g -> num_bounds m = seg_bounds g.
Proof. destruct g as [|a b|]; try done. intros _ Hm. unfold num_bounds, group. by rewrite Hm. Qed.

Lemma alpha_bounds_groups m g : is_alpha g = true -> m_groups m = seg_groups g -> alpha_bounds m = seg_bounds g.
Proof. destruct g as [| |a b]; try done. intros _ Hm. unfold alpha_bounds, group. by rewrite Hm. Qed.

Lemma count_combinations_spec size limit product gs :
  Forall (fun g => seg_ok g /\ is_range g = true) gs -> (forall n, 1 <= n <= 100 -> size n = n) ->
  1 <= product <= limit -> limit <= 100 ->
  count_combinations size limit product (map seg_bounds gs) =
    if product * combinations gs <=? limit then Some (product * combinations gs) else None.
Proof.
  intros Hgs Hsize. revert product. induction Hgs as [|g gs [Hg Hr] Hgs IH]; intros product Hp Hl.
  - simpl. rewrite Z.mul_1_r. by replace (product <=? limit) with true by (symmetry; apply Z.leb_le; lia).
  - assert (1 <= combinations gs).
    { apply combinations_pos. eapply Forall_impl; [exact Hgs|]. by intros ? [? _]. }
    pose proof (seg_values_pos g Hg) as Hpos. pose proof (seg_values_count g Hg) as Hcount.
    destruct (seg_bounds g) as [s e] eqn:Hse.
    assert (zlen (seg_values g) = e - s + 1) as Hv by (destruct g; injection Hse as <- <-; [done|lia|lia]).
    simpl. rewrite Hse. replace (s <=? e) with true by (symmetry; apply Z.leb_le; lia).
    rewrite (Hsize (e - s + 1)) by lia. rewrite i64_id by (unfold in_i64; nia). rewrite <- Hv.
    fold (combinations gs). rewrite Z.mul_assoc.
    destruct (limit <? product * zlen (seg_values g)) eqn:Hlt.
    + replace (_ <=? limit) with false by (symmetry; apply Z.leb_gt; nia). done.
    + apply IH; [nia|done].
Qed.

Lemma combinations_split segs :
  combinations segs = combinations (List.filter is_num segs) * combinations (List.filter is_alpha segs).
Proof.
  induction segs as [|g segs IH]; [done|]. destruct g as [s|a b|a b]; simpl;
    fold (combinations segs); rewrite IH; try (fold (combinations (List.filter is_num segs)));
    try (fold (combinations (List.filter is_alpha segs))); unfold zlen; simpl; lia.
Qed.

Lemma ranges_split segs :
  ranges segs = (length (List.filter is_num segs) + length (List.filter is_alpha segs))%nat.
Proof.
  unfold ranges. induction segs as [|g segs IH]; [done|]. destruct g; simpl; lia.
Qed.

Lemma filter_ranges (p : seg -> bool) segs : (forall g, p g = true -> is_range g = true) ->
  Forall seg_ok segs -> Forall (fun g => seg_ok g /\ is_range g = true) (List.filter p segs).
Proof.
  intros Hp Hok. apply List.Forall_forall. intros g [Hin Hg]%filter_In.
  split; [|by apply Hp]. by eapply List.Forall_forall in Hok.
Qed.

Lemma validate_render segs limit : Forall seg_ok segs -> 1 <= limit <= 100 ->
  validatePatternComplexity (render segs) limit =
    if (maxPatternDepth <? ranges segs)%nat
    then Some "batch link pattern exceeds maximum nesting depth of 3 patterns"
    else if combinations segs <=? limit then None else Some err_limit.
Proof.
  intros Hok Hl. pose proof (shapes segs Hok) as Hs. unfold validatePatternComplexity.
  assert (Hlen : forall r p, map m_groups (all_matches r (render segs)) = map seg_groups (List.filter p segs) ->
    length (all_matches r (render segs)) = length (List.filter p segs)).
  { intros r p H. apply (f_equal length) in H. by rewrite !length_map in H. }
  rewrite (Hlen _ _ (matches_num segs Hs)), (Hlen _ _ (matches_alpha segs Hs)), <- ranges_split.
  destruct (_ <? _)%nat; [done|].
  rewrite (bounds_of_groups _ _ _ segs num_bounds_groups (matches_num segs Hs)).
  rewrite (bounds_of_groups _ _ _ segs alpha_bounds_groups (matches_alpha segs Hs)).
  pose proof (filter_ranges is_num segs ltac:(by intros []) Hok) as Hn.
  pose proof (filter_ranges is_alpha segs ltac:(by intros []) Hok) as Ha.
  assert (Hpos : forall gs, Forall (fun g => seg_ok g /\ is_range g = true) gs -> 1 <= combinations gs).
  { intros gs H. apply combinations_pos. eapply Forall_impl; [exact H|]. by intros ? [? _]. }
  pose proof (Hpos _ Hn). pose proof (Hpos _ Ha).
  rewrite count_combinations_spec; [|done|intros; apply i64_id; unfold in_i64; lia|lia|lia].
  rewrite Z.mul_1_l, (combinations_split segs). destruct (_ <=? limit) eqn:Hle.
  - apply Z.leb_le in Hle.
    rewrite count_combinations_spec; [|done|intros; apply Z.mod_small; lia|lia|lia].
    by destruct (_ * _ <=? limit).
  - replace (_ * _ <=? limit) with false; [done|].
    symmetry. apply Z.leb_gt. apply Z.leb_gt in Hle. nia.
Qed.

(** ** One token, then the whole input *)

Lemma spaceless_fields s : spaceless s = true -> s <> "" -> Fields s = [s].
Proof.
  intros Hs Hne. assert (fields_from s = (s, [])) as Hf.
  { clear Hne. induction s as [|a s IH]; [done|]. simpl in *. apply andb_true_iff in Hs as [Ha Hs].
    rewrite IH by done. by destruct (is_space a). }
  unfold Fields. rewrite Hf. destruct (String.eqb_spec s ""); [done|done].
Qed.

Lemma spaceless_line s : spaceless s = true -> split_on newline s = [s].
Proof.
  intros Hs. apply split_without. unfold without. induction s as [|a s IH]; [done|].
  simpl in *. apply andb_true_iff in Hs as [Ha Hs]. rewrite IH by done.
  destruct (Ascii.eqb_spec a newline) as [->|]; done.
Qed.

Lemma add_links_all l results : zlen results + zlen l <= maxBatchSize -> (forall x, In x l -> NormalizeLink x <> "") ->
  add_links l results = (results ++ map NormalizeLink l, false).
Proof.
  revert results. induction l as [|x l IH]; intros results Hlen Hne; simpl; [by rewrite app_nil_r|].
  rewrite zlen_cons in Hlen. pose proof (zlen_nonneg l).
  replace (maxBatchSize <=? zlen results) with false by (symmetry; apply Z.leb_gt; lia).
  destruct (String.eqb_spec (NormalizeLink x) "") as [He|_]; [by destruct (Hne x (or_introl eq_refl))|].
  rewrite IH; [by rewrite <- app_assoc| |intros; apply Hne; by right].
  rewrite zlen_app. change (zlen [NormalizeLink x]) with 1. lia.
Qed.

Lemma add_links_bounded l results : zlen results <= maxBatchSize -> zlen (fst (add_links l results)) <= maxBatchSize.
Proof.
  revert results. induction l as [|x l IH]; intros results Hlen; simpl; [done|].
  destruct (maxBatchSize <=? zlen results) eqn:Hle; [done|]. apply Z.leb_gt in Hle. apply IH.
  destruct (String.eqb _ _); [done|]. rewrite zlen_app. change (zlen [NormalizeLink x]) with 1. lia.
Qed.

Lemma expand_tokens_bounded tokens results : zlen results <= maxBatchSize ->
  zlen (fst (expand_tokens tokens results)) <= maxBatchSize.
Proof.
  revert results. induction tokens as [|token rest IH]; intros results Hlen; [done|]. cbn [expand_tokens].
  destruct (_ <=? 0); [done|]. destruct (validatePatternComplexity _ _); [done|].
  pose proof (add_links_bounded (expandPattern maxPatternDepth token (maxBatchSize - zlen results)) results Hlen) as Hb.
  destruct (add_links _ results) as [r []]; [done|]. by apply IH.
Qed.

(** Expanding a text never yields more than 100 links.  A token made of
    plain text and well-formed ranges, read as the code reads it, stands for
    every combination of the values of its ranges: it is expanded to exactly
    their links, each as often as it is a combination, when there are at most
    three ranges and at most 100 combinations, and refused as a whole, with
    the error of the limit it exceeds, otherwise. *)
Theorem batch_expands_ranges :
  (forall input, zlen (fst (ExpandBatchLinks input)) <= maxBatchSize) /\
  forall segs, Forall seg_ok segs -> render segs <> "" -> spaceless (render segs) = true ->
  (forall x, In x (variants segs) -> NormalizeLink x <> "") ->
  if (maxPatternDepth <? ranges segs)%nat
  then ExpandBatchLinks (render segs) = ([], Some "batch link pattern exceeds maximum nesting depth of 3 patterns")
  else if combinations segs <=? maxBatchSize
  then exists links, ExpandBatchLinks (render segs) = (links, None) /\ links ≡ₚ map NormalizeLink (variants segs)
  else ExpandBatchLinks (render segs) = ([], Some err_limit).
Proof.
  split.
  { intros input. unfold ExpandBatchLinks. destruct (String.eqb _ _); [done|].
    pose proof (expand_tokens_bounded (concat (map (fun line => Fields (TrimSpace line))
      (split_on newline (TrimSpace input)))) [] ltac:(done)) as Hb.
    destruct (expand_tokens _ _) as [[|x r] [err|]]; done. }
  intros segs Hok Hne Hsp Hlinks. pose proof (combinations_pos segs Hok) as Hpos.
  unfold ExpandBatchLinks. rewrite TrimSpace_spaceless by done.
  destruct (String.eqb_spec (render segs) "") as [|_]; [done|].
  rewrite spaceless_line by done. cbn [map concat].
  rewrite TrimSpace_spaceless, spaceless_fields, app_nil_r by done.
  cbn [expand_tokens]. rewrite zlen_nil, Z.sub_0_r. change (maxBatchSize <=? 0) with false.
  rewrite validate_render by done.
  destruct (maxPatternDepth <? ranges segs)%nat eqn:Hd; [done|]. apply Nat.ltb_ge in Hd.
  destruct (combinations segs <=? maxBatchSize) eqn:Hc; [|done]. apply Z.leb_le in Hc.
  pose proof (expandPattern_variants maxPatternDepth segs maxBatchSize Hok Hd Hc) as Hp.
  rewrite add_links_all.
  - rewrite app_nil_l. pose proof (zlen_variants segs) as Hz. apply (Permutation_map NormalizeLink) in Hp.
    exists (map NormalizeLink (expandPattern maxPatternDepth (render segs) maxBatchSize)). split; [|exact Hp].
    destruct (map NormalizeLink _) as [|x l] eqn:Hm; [|done]. exfalso.
    apply Permutation_length in Hp. rewrite length_map in Hp. unfold zlen in Hz. simpl in Hp. lia.
  - rewrite zlen_nil. unfold zlen. rewrite (Permutation_length Hp). fold (zlen (variants segs)).
    rewrite zlen_variants. lia.
  - intros x Hx. apply Hlinks. by rewrite <- Hp.
Qed.

(** A range inside another is not counted before the expansion: of the 197
    links this text stands for, 100 are delivered, and no error. *)
Example nested_ranges_truncate :
  validatePatternComplexity "http://x.y/[1-[98-99]]" 100 = None /\
  zlen (concat (map (fun v => expandPattern 2 ("http://x.y/[1-" +:+ v +:+ "]") 1000) ["98"; "99"])) = 197 /\
  zlen (fst (ExpandBatchLinks "http://x.y/[1-[98-99]]")) = 100 /\
  snd (ExpandBatchLinks "http://x.y/[1-[98-99]]") = None.
Proof. by vm_compute. Qed.

(** The characters between the alphabets. *)
Example mixed_case_range :
  fst (ExpandBatchLinks "http://x.y/[Y-b]") =
    map (fun c => "http://x.y/" +:+ String (ascii_of_byte c) "") [89; 90; 91; 92; 93; 94; 95; 96; 97; 98].
Proof. by vm_compute. Qed.

(** ** Witness *)

Definition sample_token : list seg := [Text "http://x.y/f"; Num "08" "11"; Text "."; Alpha "a" "c"].

Lemma batch_expands_ranges_witness :
  exists links, ExpandBatchLinks "http://x.y/f[08-11].[a-c]" = (links, None) /\ length links = 12%nat.
Proof.
  destruct batch_expands_ranges as [_ H]. specialize (H sample_token).
  change (render sample_token) with "http://x.y/f[08-11].[a-c]" in H.
  change (if (maxPatternDepth <? ranges sample_token)%nat then ?a else if combinations sample_token <=? maxBatchSize then ?b else ?c) with b in H.
  destruct H as (links & Hl & Hp).
  - repeat constructor; try (by vm_compute); try (exists 8, 11; by vm_compute).
  - done.
  - by vm_compute.
  - intros x Hx. vm_compute in Hx. repeat (destruct Hx as [<-|Hx]; [by vm_compute|]). done.
  - exists links. split; [exact Hl|]. by rewrite Hp.
Defined.
