(* ===== verification/Resolver.v ===== *)
(** * Resolving links (internal/download/magnet.go, resolver.go, direct.go)

    Magnet links, the name a response or a URL proposes, the rewriting of the
    links of known sites into direct ones, the links found in the pages they
    answer instead of files, and the request of a direct download up to the
    stream of its payload.  The sites, the clock and the parser of media
    types are the environment [link_env]. *)

From S2P Require Import Prelude GoStrings Regex GoURL NetGuard FileInfo DownloadTasks Links.

#[local] Open Scope string_scope.
#[local] Open Scope list_scope.
#[local] Open Scope Z_scope.

(** ** Magnet links *)

Record MagnetInfo := mkMagnet {
  InfoHash : bytes;
  HexHash : string;
  DisplayName : string;
  Trackers : list string;
  WebSeeds : list string;
  ExactSources : list string;
  ExactLength : Z;
  PieceLength : Z
}.

(** One [xt] parameter: the hash and its text. *)
Definition btih (xt : string) : option (bytes * string) :=
  if HasPrefix (ToLower xt) "urn:btih:" then
    let rawHash := TrimSpace (TrimPrefix (TrimPrefix xt "urn:btih:") "URN:BTIH:") in
    if slen rawHash =? 40 then
      match DecodeString rawHash with
      | Some decoded => if zlen decoded =? 20 then Some (decoded, ToLower rawHash) else None
      | None => None
      end
    else if slen rawHash =? 32 then
      match base32_decode20 (ToUpper rawHash) with
      | Some decoded => Some (decoded, EncodeToString decoded)
      | None => None
      end
    else None
  else None.

(** The parameters that are not blank. *)
Definition nonblank (l : list string) : list string :=
  List.filter (fun s => negb (String.eqb s "")) (map TrimSpace l).

(** A number that is missing, malformed or below [low] is left at 0. *)
Definition length_param (s : string) (low : Z) : Z :=
  match ParseInt s with Some n => if low <=? n then n else 0 | None => 0 end.

Definition ParseMagnetURI (raw : string) : result MagnetInfo :=
  let rawURI := TrimSpace raw in
  if negb (HasPrefix rawURI "magnet:?") then Err (ErrMsg "invalid magnet link: must start with 'magnet:?'")
  else
    match Parse rawURI with
    | None => Err (ErrMsg "malformed magnet link: ")
    | Some u =>
        let q := Query u in
        let xts := values q "xt" in
        match xts with
        | [] => Err (ErrMsg "invalid magnet link: missing exact topic 'xt' parameter")
        | _ =>
            match head (omap btih xts) with
            | None => Err (ErrMsg "invalid magnet link: missing or malformed BTIH hash in 'xt'")
            | Some (infoHash, hexHash) =>
                let dn := Get q "dn" in
                Ok (mkMagnet infoHash hexHash
                      (if String.eqb dn "" then "torrent_" +:+ slice hexHash 0 8 else CleanFilename dn "")
                      (nonblank (values q "tr")) (nonblank (values q "ws")) (nonblank (values q "xs"))
                      (length_param (Get q "xl") 0) (length_param (Get q "pl") 1))
            end
        end
    end.

(** ** The environment *)

(** A response: its status, the URL it came from after redirects, its
    headers, the declared length, and the body with the error that ends it. *)
Record http_response := mkHttp {
  status : Z;
  final_url : string;
  header : string -> string;
  content_length : Z;
  payload : bytes;
  payload_err : option gerror
}.

(** A request: method, URL, and the headers Referer, Authorization and Range,
    empty when not set. *)
Record http_request := mkHttpReq {
  method : string;
  target : string;
  referer : string;
  authorization : string;
  range_header : string
}.

Record link_env := mkLinkEnv {
  link_net : net_env;
  unix_now : Z;
  (** mime.ParseMediaType: the type and its parameters *)
  ParseMediaType : string -> option (string * list (string * string));
  (** http.DetectContentType *)
  DetectContentType : bytes -> string;
  (** [client.Do], [None] when it fails; the argument before counts requests *)
  do_request : nat -> http_request -> option http_response
}.

Definition param (params : list (string * string)) (key : string) : option string :=
  head (omap (fun e => if String.eqb (fst e) key then Some (snd e) else None) params).

(** ** ParseFilenameFromHeaders *)

Definition encoded_name (filename : string) : string :=
  match find (Lit "''") filename with
  | Some m => match PathUnescape (m_suffix m) with
              | Some unescaped => CleanFilename unescaped ""
              | None => CleanFilename filename ""
              end
  | None => CleanFilename filename ""
  end.

Definition name_of_header (e : link_env) (header : string) : option string :=
  if String.eqb header "" then None
  else
    match ParseMediaType e header with
    | None => None
    | Some (_, params) =>
        match param params "filename*" with
        | Some filename =>
            if negb (String.eqb filename "") then Some (encoded_name filename)
            else from_option (fun f => if String.eqb f "" then None else Some (CleanFilename f "")) None
                   (param params "filename")
        | None => from_option (fun f => if String.eqb f "" then None else Some (CleanFilename f "")) None
                   (param params "filename")
        end
    end.

Definition name_of_url (e : link_env) (rawURL : string) : option string :=
  match Parse rawURL with
  | None => None
  | Some u =>
      let q := Query u in
      let from_rcd :=
        let rcd := Get q "response-content-disposition" in
        if String.eqb rcd "" then None
        else
          match ParseMediaType e rcd with
          | Some (_, params) =>
              from_option (fun f => if String.eqb f "" then None else Some (CleanFilename f "")) None
                (param params "filename")
          | None => None
          end in
      let from_path :=
        match PathUnescape (Base (u_Path u)) with
        | Some p => if is_one_of [""; "/"; "."] p then None else Some (CleanFilename p "")
        | None => None
        end in
      if negb (String.eqb (Get q "filename") "") then Some (CleanFilename (Get q "filename") "")
      else if negb (String.eqb (Get q "file") "") then Some (CleanFilename (Get q "file") "")
      else match from_rcd with Some n => Some n | None => from_path end
  end.

Definition ParseFilenameFromHeaders (e : link_env) (header rawURL : string) : string :=
  match name_of_header e header with
  | Some n => n
  | None => default ("download_" +:+ FormatInt (unix_now e)) (name_of_url e rawURL)
  end.

(** ** Links in pages *)

Definition quote : regex := Chr (char_in quotes).
Definition no_quote : Ascii.ascii -> bool := none_of quotes.
Definition white : regex := Star (Chr is_white).
Definition http_scheme_ci : regex := Cat [Lit_ci "http"; Opt (Lit_ci "s"); Lit "://"].

(** [(?i)href\s*=\s*["'](r)["']] *)
Definition href_of (r : regex) : regex :=
  Cat [Lit_ci "href"; white; Lit "="; white; quote; Group 1 r; quote].

Definition mediafireBtnRegex : regex :=
  href_of (Cat [http_scheme_ci; Lit_ci "download"; Star (Chr is_digit); Lit_ci ".mediafire.com/"; Plus (Chr no_quote)]).
Definition mediafireRawCdnRegex : regex :=
  Cat [http_scheme; Lit "download"; Star (Chr is_digit); Lit ".mediafire.com/";
       Plus (Chr (fun a => is_alnum a || char_in "_-./%" a))].
Definition mediafireTitleRegex : regex :=
  Cat [Lit_ci "<title>"; Opt (Seq (Lit_ci "Download") white); Group 1 (LazyPlus (Chr (none_of "<")));
       Opt (Cat [white; Lit "-"; white; Lit_ci "MediaFire"]); Lit_ci "</title>"].
Definition download_button : regex :=
  Alt (Cat [Lit_ci "id="; quote; Lit_ci "downloadButton"; quote])
      (Cat [Lit_ci "aria-label="; quote; Lit_ci "Download"; Star (Chr no_quote); quote]).
Definition button_href : regex := Cat [Lit_ci "href="; quote; Group 1 (Plus (Chr no_quote)); quote].
Definition genericDownloadBtnRegex : regex := Cat [download_button; Star (Chr (none_of ">")); button_href].
Definition genericDownloadHrefRegex : regex := Cat [button_href; Star (Chr (none_of ">")); download_button].

Definition uc_export : regex := Seq (Lit_ci "/uc?export=download") (Plus (Chr no_quote)).
Definition gdriveConfirmRegex : regex := href_of uc_export.
Definition gdriveConfirmUrlRegex : regex := href_of (Cat [http_scheme_ci; Lit_ci "drive.google.com"; uc_export]).

(** The first of the expressions that occurs: the text of its group. *)
Fixpoint first_found (l : list (regex * (matched -> string))) (s : string) : option string :=
  match l with
  | [] => None
  | (r, f) :: l' => match find r s with Some m => Some (f m) | None => first_found l' s end
  end.

Definition ExtractMediaFireDirectLinkFromHTML (html : string) : string * string :=
  let directURL := default "" (first_found
    [(mediafireBtnRegex, fun m => group m 1); (mediafireRawCdnRegex, m_text);
     (genericDownloadBtnRegex, fun m => group m 1); (genericDownloadHrefRegex, fun m => group m 1)] html) in
  let title :=
    match find mediafireTitleRegex html with
    | Some m =>
        let clean := TrimSpace (group m 1) in
        if negb (String.eqb clean "") && negb (str_contains clean "MediaFire") then clean else ""
    | None => ""
    end in
  let filename :=
    if String.eqb title "" && negb (String.eqb directURL "") then
      match Parse directURL with Some u => Base (u_Path u) | None => "" end
    else title in
  (directURL, filename).

(** [strings.ReplaceAll(s, "&amp;", "&")] *)
Fixpoint unescape_amp (fuel : nat) (s : string) : string :=
  match fuel with
  | O => s
  | S n =>
      match find (Lit "&amp;") s with
      | Some m => m_prefix m +:+ "&" +:+ unescape_amp n (m_suffix m)
      | None => s
      end
  end.

Definition ReplaceAmp (s : string) : string := unescape_amp (String.length s) s.

Definition ExtractGoogleDriveConfirmLinkFromHTML (html : string) : string :=
  default "" (first_found
    [(gdriveConfirmUrlRegex, fun m => ReplaceAmp (group m 1));
     (gdriveConfirmRegex, fun m => "https://drive.google.com" +:+ ReplaceAmp (group m 1))] html).

Definition one_megabyte : Z := 1024 * 1024.

(** [io.ReadAll(io.LimitReader(body, 1 MiB))]: an error past the limit is not
    seen. *)
Definition read_page (r : http_response) : bytes * option gerror :=
  (ztake one_megabyte (payload r), if one_megabyte <=? zlen (payload r) then None else payload_err r).

(** FetchMediaFireDirectLink: the link and name in the page, [None] after an
    error.  [n] counts the requests and the look-ups before it. *)
Definition FetchMediaFireDirectLink (e : link_env) (n : nat) (shareURL : string) : option (string * string) :=
  match ValidateSafeURL (link_net e) n shareURL false with
  | Refused _ => None
  | Allowed =>
      match do_request e n (mkHttpReq "GET" shareURL "https://www.mediafire.com/" "" "") with
      | None => None
      | Some r =>
          if (status r <? 200) || (400 <=? status r) then None
          else
            match read_page r with
            | (_, Some _) => None
            | (page, None) =>
                let '(directURL, filename) := ExtractMediaFireDirectLinkFromHTML (string_of_bytes page) in
                if String.eqb directURL "" then None else Some (directURL, filename)
            end
      end
  end.

(** ** ResolveLink *)

Record ResolvedLink := mkResolved {
  OriginalURL : string;
  ResolvedURL : string;
  Domain : string;
  Provider : string;
  ProviderIcon : string;
  rl_Filename : string;
  AuthHeader : string;
  Referer : string;
  rl_Type : DownloadType;
  IsTorrent : bool
}.

Definition set_provider (r : ResolvedLink) (name icon : string) : ResolvedLink :=
  mkResolved (OriginalURL r) (ResolvedURL r) (Domain r) name icon (rl_Filename r) (AuthHeader r) (Referer r)
    (rl_Type r) (IsTorrent r).
Definition set_target (r : ResolvedLink) (url name : string) : ResolvedLink :=
  mkResolved (OriginalURL r) url (Domain r) (Provider r) (ProviderIcon r) name (AuthHeader r) (Referer r)
    (rl_Type r) (IsTorrent r).
Definition set_referer (r : ResolvedLink) (ref : string) : ResolvedLink :=
  mkResolved (OriginalURL r) (ResolvedURL r) (Domain r) (Provider r) (ProviderIcon r) (rl_Filename r)
    (AuthHeader r) ref (rl_Type r) (IsTorrent r).
Definition set_torrent (r : ResolvedLink) : ResolvedLink :=
  mkResolved (OriginalURL r) (ResolvedURL r) (Domain r) (Provider r) (ProviderIcon r) (rl_Filename r)
    (AuthHeader r) (Referer r) (rl_Type r) true.

(** A slice out of range panics. *)
Inductive outcome := Resolved (r : ResolvedLink) | ResolveError (msg : string) | Panic.

Definition ExtractBasicAuth (rawURL : string) : option (string * string) :=
  match Parse rawURL with
  | None => None
  | Some u =>
      match u_User u with
      | None => Some (rawURL, "")
      | Some (username, password) =>
          Some (url_string (drop_user u),
                "Basic " +:+ base64_encode (bytes_of_string (username +:+ ":" +:+ default "" password)))
      end
  end.

Definition path_piece : regex := Plus (Chr (none_of "/")).

(** A path of an owner, a repository, [mid], a branch and the rest. *)
Definition repo_regex (mid : string) : regex :=
  Cat [Lit "/"; Group 1 path_piece; Lit "/"; Group 2 path_piece; Lit mid; Group 3 path_piece; Lit "/";
       Group 4 (Star (Chr any_char)); Eos].

Definition githubBlobRegex : regex := repo_regex "/blob/".
Definition gitlabBlobRegex : regex := repo_regex "/-/blob/".
Definition bitbucketSrcRegex : regex := repo_regex "/src/".
Definition huggingfaceRegex : regex := repo_regex "/blob/".

Definition gdriveFileIDRegex : regex :=
  Seq (Lit "/file/d/") (Group 1 (Plus (Chr (fun a => is_alnum a || char_in "_-" a)))).

(** A file of a repository's web page: the address of its raw contents. *)
Definition repo_link (r : regex) (front middle last : string) (u : URL) (res : ResolvedLink) : option ResolvedLink :=
  match match_start r (u_Path u) with
  | Some m =>
      Some (set_target res (front +:+ group m 1 +:+ "/" +:+ group m 2 +:+ middle +:+ group m 3 +:+ "/" +:+ group m 4 +:+ last)
              (Base (group m 4)))
  | None => None
  end.

(** The link with a query parameter set to a value. *)
Definition with_param (u : URL) (key value : string) : string :=
  url_string (set_query u (Encode (Set_ (Query u) key value))).

Definition ask_param (u : URL) (key value : string) (res : ResolvedLink) : ResolvedLink :=
  if String.eqb (Get (Query u) key) value then res else set_target res (with_param u key value) (rl_Filename res).

Definition google_drive (u : URL) (res : ResolvedLink) : outcome :=
  let fileID :=
    match find gdriveFileIDRegex (u_Path u) with
    | Some m => group m 1
    | None => Get (Query u) "id"
    end in
  if String.eqb fileID "" then Resolved res
  else if slen fileID <? 8 then Panic
  else Resolved (set_target res ("https://drive.google.com/uc?export=download&id=" +:+ fileID +:+ "&confirm=t")
                   ("gdrive_" +:+ slice fileID 0 8 +:+ ".bin")).

Definition path_parts (u : URL) : list string := split_on slash (Trim (u_Path u) "/").

Definition github (u : URL) (host : string) (res : ResolvedLink) : ResolvedLink :=
  match repo_link githubBlobRegex "https://raw.githubusercontent.com/" "/" "" u res with
  | Some r => r
  | None =>
      if HasPrefix host "gist.github.com" then
        match path_parts u with
        | owner :: gist :: _ =>
            set_target res ("https://gist.githubusercontent.com/" +:+ owner +:+ "/" +:+ gist +:+ "/raw") (gist +:+ ".txt")
        | _ => res
        end
      else res
  end.

(** The key and the name in the path of a MediaFire link. *)
Definition mediafire_names (host : string) (parts : list string) : string * string :=
  if HasPrefix host "download" then
    match parts with
    | _ :: key :: name :: _ => (key, name)
    | [key; name] => (key, name)
    | _ => ("", "")
    end
  else
    match parts with
    | kind :: key :: rest =>
        if is_one_of ["file"; "download"; "file_premium"] kind
        then (key, match rest with name :: _ => if String.eqb name "file" then "" else name | [] => "" end)
        else ("", "")
    | _ => ("", "")
    end.

Definition mediafire (e : link_env) (n : nat) (u : URL) (host : string) (res : ResolvedLink) : ResolvedLink :=
  let '(fileKey, extractedName) := mediafire_names host (path_parts u) in
  let res :=
    match PathUnescape extractedName with
    | Some name => if String.eqb extractedName "" then res
                   else set_target res (ResolvedURL res) (CleanFilename name (rl_Filename res))
    | None => res
    end in
  if negb (HasPrefix host "download") && negb (String.eqb fileKey "") then
    match FetchMediaFireDirectLink e n ("https://www.mediafire.com/file/" +:+ fileKey +:+ "/") with
    | Some (directLink, scrapedName) =>
        set_target res directLink
          (if String.eqb scrapedName "" then rl_Filename res else CleanFilename scrapedName (rl_Filename res))
    | None => res
    end
  else res.

(** Pastebin's link goes on to the tests that follow when it is not one of a
    paste. *)
Definition pastebin (u : URL) (res : ResolvedLink) : option ResolvedLink :=
  match path_parts u with
  | [part] =>
      if negb (String.eqb part "") && negb (String.eqb part "raw")
      then Some (set_target res ("https://pastebin.com/raw/" +:+ part) (part +:+ ".txt")) else None
  | _ => None
  end.

(** The sites whose links are rewritten, in the order of the tests. *)
Definition resolve_site (e : link_env) (n : nat) (u : URL) (res : ResolvedLink) : outcome :=
  let host := ToLower (u_Host u) in
  let at_site := HasSuffix host in
  if at_site "drive.google.com" || at_site "docs.google.com"
  then google_drive u (set_provider res "Google Drive" "google")
  else Resolved (
    if at_site "dropbox.com" then ask_param u "dl" "1" (set_provider res "Dropbox" "dropbox")
    else if at_site "github.com" then github u host (set_provider res "GitHub" "github")
    else if at_site "gitlab.com" then
      let res := set_provider res "GitLab" "git" in
      default res (repo_link gitlabBlobRegex "https://gitlab.com/" "/-/raw/" "" u res)
    else if at_site "bitbucket.org" then
      let res := set_provider res "Bitbucket" "git" in
      default res (repo_link bitbucketSrcRegex "https://bitbucket.org/" "/raw/" "" u res)
    else if at_site "huggingface.co" then
      let res := set_provider res "Hugging Face" "box" in
      default res (repo_link huggingfaceRegex "https://huggingface.co/" "/resolve/" "?download=true" u res)
    else if at_site "1drv.ms" || at_site "onedrive.live.com" then
      ask_param u "download" "1" (set_provider res "OneDrive" "cloud")
    else if at_site "sourceforge.net" then
      let res := set_provider res "SourceForge" "download" in
      if HasSuffix (u_Path u) "/download" && String.eqb (Get (Query u) "use_mirror") ""
      then set_target res (with_param u "use_mirror" "autoselect") (rl_Filename res) else res
    else
      let paste := if at_site "pastebin.com" then set_provider res "Pastebin" "code" else res in
      match (if at_site "pastebin.com" then pastebin u paste else None) with
      | Some r => r
      | None =>
          if at_site "archive.org" then set_provider paste "Internet Archive" "archive"
          else if str_contains host "mediafire.com" then
            mediafire e n u host (set_referer (set_provider paste "MediaFire" "fire") "https://www.mediafire.com/")
          else paste
      end).

Definition ResolveLink (e : link_env) (n : nat) (rawInput : string) : outcome :=
  let norm := NormalizeLink rawInput in
  if String.eqb norm "" then ResolveError "empty download link"
  else if HasPrefix norm "magnet:?" then
    let name := match ParseMagnetURI norm with
                | Ok m => if String.eqb (DisplayName m) "" then "torrent_download.bin" else DisplayName m
                | Err _ => "torrent_download.bin"
                end in
    Resolved (mkResolved rawInput norm "BitTorrent" "BitTorrent Swarm" "zap" name "" "" DownloadTypeMagnet true)
  else
    match ExtractBasicAuth norm with
    | None => ResolveError "invalid URL: "
    | Some (cleanURL, authHeader) =>
        match Parse cleanURL with
        | None => ResolveError "cannot parse URL: "
        | Some u =>
            let res := mkResolved rawInput cleanURL (Hostname u) (Hostname u) "download"
                         (ParseFilenameFromHeaders e "" cleanURL) authHeader "" DownloadTypeDirect false in
            if HasSuffix (ToLower (u_Path u)) ".torrent"
            then Resolved (set_torrent (set_provider res "BitTorrent (.torrent)" "zap"))
            else resolve_site e n u res
        end
    end.

(** ** DownloadDirect up to the payload's stream *)

(** What a direct download comes to before it streams: the description and
    the payload with the error that ends it, or a failure. *)
Inductive opened :=
| Streams (meta : DirectFileInfo) (p : bytes) (err : option gerror)
| OpenError (msg : string)
| OpenPanic.

(** The name and type of a response, before its first bytes are looked at. *)
Definition response_name (e : link_env) (resolved : ResolvedLink) (r : http_response) : string :=
  let filename := ParseFilenameFromHeaders e (header r "Content-Disposition") (final_url r) in
  if (String.eqb filename "" || HasPrefix filename "download_")
     && negb (String.eqb (rl_Filename resolved) "") && negb (HasPrefix (rl_Filename resolved) "download_")
  then rl_Filename resolved else filename.

Definition response_type (e : link_env) (r : http_response) : string :=
  let mimeType := if String.eqb (header r "Content-Type") "" then octet_stream else header r "Content-Type" in
  match ParseMediaType e mimeType with Some (mediaType, _) => mediaType | None => mimeType end.

(** The link a page that came instead of the file leads to. *)
Definition recovered_link (html : string) : string :=
  let url := fst (ExtractMediaFireDirectLinkFromHTML html) in
  if String.eqb url "" then ExtractGoogleDriveConfirmLinkFromHTML html else url.

(** A page that came where a binary file was asked for (lines 147-149). *)
Definition is_interstitial (resolved : ResolvedLink) (filename mimeType : string) (peek : bytes) : bool :=
  (HasPrefix mimeType "text/html" || IsHTMLPayload peek)
  && (IsBinaryExtension filename
      || (negb (String.eqb (rl_Filename resolved) "") && IsBinaryExtension (rl_Filename resolved))).

Inductive directed := Deliver (o : opened) | Recover (url : string).

(** Lines 114-178: a response is streamed, refused, or read for the link to
    the file. *)
Definition look_at_response (e : link_env) (resolved : ResolvedLink) (r : http_response) : directed :=
  if (status r <? 200) || (300 <=? status r) then Deliver (OpenError "remote server returned HTTP ")
  else
    let stream filename mimeType :=
      Deliver (Streams (mkInfo filename mimeType (content_length r)) (payload r) (payload_err r)) in
    let peek := ztake 512 (payload r) in
    match (if zlen (payload r) <? 512 then payload_err r else None) with
    | Some (ErrMsg _) => Deliver (OpenError "failed reading initial response payload: ")
    | _ =>
        let filename := response_name e resolved r in
        let mimeType := response_type e r in
        if zlen peek =? 0 then stream filename mimeType
        else
          let '(filename, mimeType) := SniffMagicBytes (DetectContentType e) peek filename mimeType in
          if is_interstitial resolved filename mimeType peek then
            let fullHTML := string_of_bytes (ztake (512 + one_megabyte) (payload r)) in
            let recoveredURL := recovered_link fullHTML in
            if negb (String.eqb recoveredURL "") && negb (String.eqb recoveredURL (ResolvedURL resolved))
            then Recover recoveredURL
            else Deliver (OpenError "unduhan dibatalkan: ")
          else stream filename mimeType
    end.

(** The answers: the requests sent so far, and the result.  [None]: out of
    fuel; every round follows a link found in a page. *)
Fixpoint open_direct (fuel : nat) (e : link_env) (n : nat) (targetURL : string) (sent : list http_request)
  : option (list http_request * opened) :=
  match fuel with
  | O => None
  | S f =>
      match ResolveLink e n targetURL with
      | Panic => Some (sent, OpenPanic)
      | ResolveError msg => Some (sent, OpenError ("failed resolving download link: " +:+ msg))
      | Resolved resolved =>
          match ValidateSafeURL (link_net e) (S n) (ResolvedURL resolved) false with
          | Refused why => Some (sent, OpenError why)
          | Allowed =>
              let req := mkHttpReq "GET" (ResolvedURL resolved) (Referer resolved) (AuthHeader resolved) "" in
              let sent := sent ++ [req] in
              match do_request e (S n) req with
              | None => Some (sent, OpenError "download connection failed: ")
              | Some r =>
                  match look_at_response e resolved r with
                  | Deliver o => Some (sent, o)
                  | Recover url => open_direct f e (S (S n)) url sent
                  end
              end
          end
      end
  end.
