(* ===== verification/StartDownload.v ===== *)
(** * Probing links and starting downloads
    (internal/download/prober.go, manager.go and
    internal/controllers/download_controller.go)

    What a link leads to, found out by a request without its payload; the
    task a link becomes; and the handlers that parse, start and list
    downloads.  A started task is handed, with the key and the name, to the
    goroutine of DownloadTasks. *)

From S2P Require Import Prelude GoStrings Regex GoURL NetGuard FileInfo FileSys CryptoPrims CAS UploadSession VaultTree Auth UploadCtrl DownloadTasks Links Resolver.

#[local] Open Scope string_scope.
#[local] Open Scope list_scope.
#[local] Open Scope Z_scope.

(** [err.Error()] *)
Definition Error (g : gerror) : string :=
  match g with EOF => "EOF" | ErrUnexpectedEOF => "unexpected EOF" | ErrMsg msg => msg end.

(** ** ProbeLink *)

Record ProbeResult := mkProbe {
  pr_URL : string;
  pr_ResolvedURL : string;
  pr_FinalURL : string;
  pr_Type : DownloadType;
  pr_Provider : string;
  pr_ProviderIcon : string;
  pr_Filename : string;
  pr_FileSize : Z;
  pr_FormattedSize : string;
  pr_MimeType : string;
  pr_Category : string;
  pr_Resumable : bool;
  pr_StatusCode : Z;
  pr_IsTorrent : bool;
  pr_BatchItems : list string
}.

(** Both handlers and ResolveLink can panic. *)
Inductive answer (A : Type) := Answer (a : A) | Failure (msg : string) | Panicked.
Arguments Answer {A}.
Arguments Failure {A}.
Arguments Panicked {A}.

Definition probe_batch (e : link_env) (rawURL : string) (first : string) (batch : list string) : answer ProbeResult :=
  match ResolveLink e 0 first with
  | Panic => Panicked
  | resolved =>
      let provider := match resolved with
                      | Resolved r => "Batch (" +:+ Provider r +:+ ")"
                      | _ => "Batch Downloads"
                      end in
      Answer (mkProbe rawURL first first DownloadTypeDirect provider "layers"
                ("Batch_" +:+ FormatInt (zlen batch) +:+ "_items") 0 (FormatInt (zlen batch) +:+ " berkas") ""
                "archive" false 0 false batch)
  end.

(** The HEAD request, then the GET of one byte when it fails or is refused. *)
Definition probe_request (e : link_env) (n : nat) (resolved : ResolvedLink) : option http_response :=
  let req m range := mkHttpReq m (ResolvedURL resolved) (Referer resolved) (AuthHeader resolved) range in
  match do_request e n (req "HEAD" "") with
  | Some r => if 400 <=? status r then do_request e (S n) (req "GET" "bytes=0-0") else Some r
  | None => do_request e (S n) (req "GET" "bytes=0-0")
  end.

(** The length: of the response, or the total of its Content-Range. *)
Definition probe_length (r : http_response) : Z :=
  let contentRange := header r "Content-Range" in
  if String.eqb contentRange "" then content_length r
  else
    match split_on slash contentRange with
    | [_; total] => if String.eqb total "*" then content_length r else default (content_length r) (ParseInt total)
    | _ => content_length r
    end.

Definition probe_response (e : link_env) (rawURL : string) (resolved : ResolvedLink) (r : http_response)
  : answer ProbeResult :=
  let filename := response_name e resolved r in
  let mimeType := response_type e r in
  let totalBytes := probe_length r in
  let resumable := EqualFold (header r "Accept-Ranges") "bytes" || (status r =? 206) in
  match FormatFileSize totalBytes with
  | None => Panicked
  | Some size =>
      Answer (mkProbe rawURL (ResolvedURL resolved) (final_url r) DownloadTypeDirect (Provider resolved)
                (ProviderIcon resolved) filename totalBytes size mimeType (ClassifyCategory filename mimeType)
                resumable (status r) (IsTorrent resolved) [])
  end.

Definition ProbeLink (e : link_env) (rawURL : string) : answer ProbeResult :=
  match ExpandBatchLinks rawURL with
  | (first :: second :: more, None) => probe_batch e rawURL first (first :: second :: more)
  | _ =>
      match ResolveLink e 0 rawURL with
      | Panic => Panicked
      | ResolveError msg => Failure ("failed to resolve link: " +:+ msg)
      | Resolved resolved =>
          match rl_Type resolved with
          | DownloadTypeMagnet =>
              Answer (mkProbe rawURL (ResolvedURL resolved) (ResolvedURL resolved) DownloadTypeMagnet
                        (Provider resolved) (ProviderIcon resolved) (rl_Filename resolved) 0 "P2P Swarm" "" "archive"
                        true 200 true [])
          | DownloadTypeDirect =>
              match Parse (ResolvedURL resolved) with
              | None => Failure "invalid probe request: "
              | Some _ =>
                  match probe_request e 1 resolved with
                  | None => Failure "probe connection failed: "
                  | Some r => probe_response e rawURL resolved r
                  end
              end
          end
      end
  end.

(** ** ParseLink *)

(** What the preview adds for a magnet link. *)
Definition magnet_fields (mag : MagnetInfo) : list (string * jval) :=
  [("info_hash", JStr (HexHash mag)); ("trackers_count", JInt (zlen (Trackers mag)));
   ("web_seeds_count", JInt (zlen (WebSeeds mag)))]
  ++ (if 0 <? ExactLength mag then [("exact_length", JInt (ExactLength mag))] else []).

(** Without the list of the items itself. *)
Definition probe_fields (rawInput : string) (p : ProbeResult) : list (string * jval) :=
  [("valid", JBool true); ("type", JStr (match pr_Type p with DownloadTypeDirect => "direct" | DownloadTypeMagnet => "magnet" end));
   ("url", JStr rawInput); ("resolved_url", JStr (pr_ResolvedURL p)); ("final_url", JStr (pr_FinalURL p));
   ("provider", JStr (pr_Provider p)); ("provider_icon", JStr (pr_ProviderIcon p)); ("name", JStr (pr_Filename p));
   ("file_size", JInt (pr_FileSize p)); ("formatted_size", JStr (pr_FormattedSize p));
   ("mime_type", JStr (pr_MimeType p)); ("category", JStr (pr_Category p)); ("resumable", JBool (pr_Resumable p));
   ("status_code", JInt (pr_StatusCode p)); ("is_torrent", JBool (pr_IsTorrent p));
   ("is_batch", JBool (negb (zlen (pr_BatchItems p) =? 0))); ("batch_count", JInt (zlen (pr_BatchItems p)))].

(** The preview without a probe (lines 318-356). *)
Definition static_preview (e : link_env) (rawInput normURL : string) (linkType : DownloadType) : answer resp :=
  match ResolveLink e 3 normURL with
  | Panic => Panicked
  | ResolveError msg => Answer (http_error 400 msg)
  | Resolved r =>
      let fields name :=
        [("valid", JBool true);
         ("type", JStr (match linkType with DownloadTypeDirect => "direct" | DownloadTypeMagnet => "magnet" end));
         ("url", JStr rawInput); ("resolved_url", JStr (ResolvedURL r)); ("domain", JStr (Domain r));
         ("provider", JStr (Provider r)); ("provider_icon", JStr (ProviderIcon r)); ("name", JStr name);
         ("formatted_size", JStr "-"); ("category", JStr (ClassifyCategory (rl_Filename r) ""))] in
      match linkType with
      | DownloadTypeMagnet =>
          match ParseMagnetURI normURL with
          | Err g => Answer (http_error 400 (Error g))
          | Ok mag => Answer (mkResp 200 (fields (DisplayName mag) ++ magnet_fields mag))
          end
      | DownloadTypeDirect =>
          Answer (mkResp 200 (fields
            (if String.eqb (rl_Filename r) "" then ParseFilenameFromHeaders e "" (ResolvedURL r) else rl_Filename r)))
      end
  end.

(** [bind] is what binding the body gives. *)
Definition ParseLink (e : link_env) (bind : option string) : answer resp :=
  match bind with
  | None => Answer (http_error 400 "invalid request body")
  | Some url =>
      let rawInput := TrimSpace url in
      if String.eqb rawInput "" then Answer (http_error 400 "empty download URL")
      else
        let normURL := NormalizeLink rawInput in
        match DetectLinkType normURL with
        | Err g => Answer (http_error 400 (Error g))
        | Ok linkType =>
            match ProbeLink e normURL with
            | Panicked => Panicked
            | Answer p =>
                let mag := match pr_Type p with
                           | DownloadTypeMagnet => match ParseMagnetURI normURL with Ok m => magnet_fields m | Err _ => [] end
                           | DownloadTypeDirect => []
                           end in
                Answer (mkResp 200 (probe_fields rawInput p ++ mag))
            | Failure _ => static_preview e rawInput normURL linkType
            end
        end
  end.

(** ** Starting a task (manager.go) *)

Record DownloadOptions := mkOptions {
  do_OwnerID : Z;
  do_FolderID : string;
  do_Link : string;
  do_FilenameOverride : string;
  do_IsVault : bool;
  do_VaultKey : bytes;
  do_MaxThreads : Z
}.

(** What the goroutine of a task is started with. *)
Record dl_job := mkJob { j_ref : nat; j_isVault : bool; j_vaultKey : bytes; j_hasCustomName : bool }.

(** Lines 121-134; [resolved] is [None] after an error, which is ignored. *)
Definition initial_name (e : link_env) (norm : string) (linkType : DownloadType)
    (resolved : option ResolvedLink) (override : string) : string :=
  let proposed :=
    match resolved with
    | Some r => if negb (String.eqb (rl_Filename r) "") && negb (HasPrefix (rl_Filename r) "download_")
                then Some (rl_Filename r) else None
    | None => None
    end in
  if negb (String.eqb override "") then CleanFilename override "downloaded_file"
  else
    match proposed with
    | Some name => name
    | None =>
        match linkType with
        | DownloadTypeMagnet =>
            match ParseMagnetURI norm with
            | Ok mag => if String.eqb (DisplayName mag) "" then "torrent_download.bin" else DisplayName mag
            | Err _ => "torrent_download.bin"
            end
        | DownloadTypeDirect => ParseFilenameFromHeaders e "" norm
        end
    end.

(** [now] in nanoseconds, [rand] four random bytes. *)
Definition task_id (now : Z) (rand : bytes) : string :=
  "dl_" +:+ FormatInt (now / 1000000000) +:+ "_" +:+ EncodeToString rand.

Definition StartDownloadWithOptions (e : link_env) (now : Z) (rand : bytes) (st : dm_state) (opts : DownloadOptions)
  : dm_state * answer (DownloadTask * dl_job) :=
  let norm := NormalizeLink (do_Link opts) in
  if String.eqb norm "" then (st, Failure "empty download link")
  else
    match DetectLinkType norm with
    | Err g => (st, Failure (Error g))
    | Ok linkType =>
        match ResolveLink e 0 norm with
        | Panic => (st, Panicked)
        | resolved =>
            let resolved := match resolved with Resolved r => Some r | _ => None end in
            let name := initial_name e norm linkType resolved (do_FilenameOverride opts) in
            let '(st1, r) := start_task now st (task_id now rand) (do_OwnerID opts) (do_FolderID opts) norm name
                               linkType (do_MaxThreads opts) in
            match dm_objs st1 !! r with
            | None => (st1, Panicked)
            | Some t =>
                (st1, Answer (t, mkJob r (do_IsVault opts) (do_VaultKey opts)
                                   (negb (String.eqb (do_FilenameOverride opts) ""))))
            end
        end
    end.

Definition StartDownloadWithFilename (e : link_env) (now : Z) (rand : bytes) (st : dm_state) (ownerID : Z)
    (folderID link filenameOverride : string) (isVault : bool) (vaultKey : bytes)
  : dm_state * answer (DownloadTask * dl_job) :=
  StartDownloadWithOptions e now rand st (mkOptions ownerID folderID link filenameOverride isVault vaultKey 20).

(** DownloadManager.StartDownload *)
Definition manager_StartDownload (e : link_env) (now : Z) (rand : bytes) (st : dm_state) (ownerID : Z)
    (folderID link : string) (isVault : bool) (vaultKey : bytes) : dm_state * answer (DownloadTask * dl_job) :=
  StartDownloadWithFilename e now rand st ownerID folderID link "" isVault vaultKey.

(** The loop of StartBatchDownload; links that cannot be started are passed
    over, a panic ends the loop.  The [i]-th link meets the time and the random
    bytes [draws i]. *)
Fixpoint start_links (e : link_env) (draws : nat -> Z * bytes) (i : nat) (st : dm_state) (ownerID : Z)
    (folderID : string) (links : list string) (isVault : bool) (vaultKey : bytes) (created : list (DownloadTask * dl_job))
  {struct links} : dm_state * answer (list (DownloadTask * dl_job)) :=
  match links with
  | [] => (st, Answer created)
  | l :: links' =>
      let '(now, rand) := draws i in
      match manager_StartDownload e now rand st ownerID folderID l isVault vaultKey with
      | (st1, Answer t) => start_links e draws (S i) st1 ownerID folderID links' isVault vaultKey (created ++ [t])
      | (st1, Failure _) => start_links e draws (S i) st1 ownerID folderID links' isVault vaultKey created
      | (st1, Panicked) => (st1, Panicked)
      end
  end.

Definition manager_StartBatchDownload (e : link_env) (draws : nat -> Z * bytes) (st : dm_state) (ownerID : Z)
    (folderID : string) (links : list string) (isVault : bool) (vaultKey : bytes)
  : dm_state * answer (list (DownloadTask * dl_job)) :=
  match start_links e draws 0 st ownerID folderID links isVault vaultKey [] with
  | (st1, Answer []) => (st1, Failure "no download tasks could be started")
  | r => r
  end.

(** ** The handlers (download_controller.go) *)

Section Handlers.
Context `{CryptoPrims} `{MetaCodec}.

(** isVaultFolder: the upward walk, without a cache. *)
Definition dc_isVaultFolder (e : req_env) (db : option database) (folderID : string) : bool :=
  snd (isVaultFolder None (match db with
                           | None => None
                           | Some d => Some (if query_ok e then Some (folders d) else None)
                           end) folderID).

(** getVaultKey looks where the upload of a chunk does. *)
Definition getVaultKey (e : req_env) : option bytes := select_key e true.

(** Lines 78-90: the folder a request names, or the refusal.  A failing query
    leaves the count at 0. *)
Definition dc_target_folder (e : req_env) (db : option database) (requested : string) : resp + string :=
  if String.eqb requested "root" then inr ""
  else if is_one_of [""; "f1"; "f2"; "f3"] requested then inr requested
  else
    match db with
    | None => inr requested
    | Some d =>
        if query_ok e && existsb (fun r => String.eqb (fst r) requested) (folders d) then inr requested
        else inl (http_error 400 "target folder not found")
    end.

Definition vault_refusal : resp :=
  http_error 401 "Vault locked. Master password required to download to vault.".

(** Lines 92-100: whether the target is in the vault, and its key. *)
Definition target_key (e : req_env) (db : option database) (folderID : string) : resp + (bool * bytes) :=
  if dc_isVaultFolder e db folderID then
    match getVaultKey e with
    | None => inl vault_refusal
    | Some key => inr (true, key)
    end
  else inr (false, []).

Record StartRequest := mkStart {
  sr_URL : string;
  sr_FolderID : string;
  sr_Filename : string;
  sr_MaxThreads : Z
}.

Definition clamped (n : Z) : Z :=
  let n := if n <=? 0 then 20 else n in if 32 <? n then 32 else n.

(** The tasks a handler created, with the jobs of their goroutines. *)
Inductive reply := Reply (r : resp) | Accepted (tasks : list (DownloadTask * dl_job)) | Crashed.

Definition StartDownload (le : link_env) (e : req_env) (st : dm_state) (bind : option StartRequest)
  : dm_state * reply :=
  match bind with
  | None => (st, Reply (http_error 400 "invalid request body"))
  | Some req =>
      let normURL := NormalizeLink (sr_URL req) in
      if negb (IsDownloadLink normURL)
      then (st, Reply (http_error 400 "invalid download link: must start with http://, https://, or magnet:?"))
      else
        match dc_target_folder e (dm_DB st) (sr_FolderID req) with
        | inl r => (st, Reply r)
        | inr folderID =>
            match target_key e (dm_DB st) folderID with
            | inl r => (st, Reply r)
            | inr (isVault, vk) =>
                let userID := GetUserID (user_id e) in
                match StartDownloadWithOptions le (now_ e) (rand_bytes e) st
                        (mkOptions userID folderID normURL (sr_Filename req) isVault vk (clamped (sr_MaxThreads req))) with
                | (st1, Answer t) => (st1, Accepted [t])
                | (st1, Failure msg) => (st1, Reply (http_error 400 msg))
                | (st1, Panicked) => (st1, Crashed)
                end
            end
        end
  end.

Record BatchRequest := mkBatch { br_Input : string; br_URLs : list string; br_FolderID : string }.

(** Lines 143-154: the links of a batch, or the error. *)
Definition batch_links (req : BatchRequest) : string + list string :=
  match br_URLs req with
  | [] =>
      if String.eqb (br_Input req) "" then inl "no URLs provided for batch download"
      else match ExpandBatchLinks (br_Input req) with
           | (_, Some err) => inl err
           | ([], None) => inl "no URLs provided for batch download"
           | (links, None) => inr links
           end
  | urls => inr urls
  end.

Definition StartBatchDownload (le : link_env) (draws : nat -> Z * bytes) (e : req_env) (st : dm_state)
    (bind : option BatchRequest) : dm_state * reply :=
  match bind with
  | None => (st, Reply (http_error 400 "invalid request body"))
  | Some req =>
      match batch_links req with
      | inl msg => (st, Reply (http_error 400 msg))
      | inr urls =>
          match dc_target_folder e (dm_DB st) (br_FolderID req) with
          | inl r => (st, Reply r)
          | inr folderID =>
              match target_key e (dm_DB st) folderID with
              | inl r => (st, Reply r)
              | inr (isVault, vk) =>
                  match manager_StartBatchDownload le draws st (GetUserID (user_id e)) folderID urls isVault vk with
                  | (st1, Answer tasks) => (st1, Accepted tasks)
                  | (st1, Failure msg) => (st1, Reply (http_error 400 msg))
                  | (st1, Panicked) => (st1, Crashed)
                  end
              end
          end
      end
  end.

Definition ListDownloads (e : req_env) (st : dm_state) : list DownloadTask :=
  ListTasks st (GetUserID (user_id e)).

End Handlers.
