(* ===== verification/ResolverProps.v ===== *)
(** * Theorems about resolving links (Resolver)

    Magnet links are read alike however their hash is spelled; every request
    of a direct download was vetted, and it delivers no page for a binary
    file; and exactly when a download follows links for ever. *)

From S2P Require Import Prelude GoStrings Regex GoURL NetGuard FileInfo DownloadTasks Links Resolver.

#[local] Open Scope string_scope.
#[local] Open Scope list_scope.
#[local] Open Scope Z_scope.

(** ** Plain texts: letters and digits *)

Definition plain (s : string) : bool := string_forallb alphanumeric s.

(** A property of the ASCII characters, by looking at all of them. *)
Ltac all_chars a := destruct a as [[] [] [] [] [] [] [] []]; try done.

Lemma forallb_imp (p q : Ascii.ascii -> bool) s :
  (forall a, p a = true -> q a = true) -> string_forallb p s = true -> string_forallb q s = true.
Proof.
  intros Hpq. induction s as [|a s IH]; simpl; [done|]. intros [Ha Hs]%andb_true_iff.
  by rewrite (Hpq a Ha), IH.
Qed.

Lemma plain_without c s : alphanumeric c = false -> plain s = true -> without c s = true.
Proof.
  intros Hc. apply forallb_imp. intros a Ha. destruct (Ascii.eqb_spec a c) as [->|]; [congruence|done].
Qed.

Lemma Cut_without c s : without c s = true -> Cut c s = (s, "", false).
Proof.
  induction s as [|a s IH]; simpl; [done|]. unfold without. simpl.
  intros [Ha Hs]%andb_true_iff. destruct (Ascii.eqb a c); [done|]. by rewrite IH.
Qed.

Lemma count_without c s : without c s = true -> count_char c s = 0.
Proof.
  induction s as [|a s IH]; simpl; [done|]. unfold without. simpl.
  intros [Ha Hs]%andb_true_iff. destruct (Ascii.eqb a c); [done|]. by rewrite IH.
Qed.

Lemma contains_without c s : without c s = true -> str_contains s (String c "") = false.
Proof.
  induction s as [|a s IH]; simpl; [done|]. unfold without. simpl.
  intros [Ha Hs]%andb_true_iff. rewrite IH by done. rewrite Ascii.eqb_sym.
  destruct (Ascii.eqb a c); [done|]. done.
Qed.

Lemma HasPrefix_without c p s : without c s = true -> without c p = false -> HasPrefix s p = false.
Proof.
  intros Hs Hp. destruct (HasPrefix s p) eqn:H; [|done]. apply HasPrefix_inv in H as [r ->].
  rewrite without_app, Hp in Hs. done.
Qed.

Lemma suffix_char s c d : HasSuffix (s +:+ String c "") (String d "") = Ascii.eqb c d.
Proof.
  unfold HasSuffix. rewrite length_str_app. simpl String.length.
  replace (String.length s + 1 - 1)%nat with (String.length s) by lia.
  replace (1 <=? String.length s + 1)%nat with true by (symmetry; apply Nat.leb_le; lia).
  rewrite drop_str_app. simpl. destruct (Ascii.eqb c d); done.
Qed.

Lemma last_char s : s <> "" -> exists t c, s = t +:+ String c "".
Proof.
  induction s as [|a s IH]; [done|]. intros _. destruct s as [|b s].
  - by exists "", a.
  - destruct IH as (t & c & ->); [done|]. by exists (String a t), c.
Qed.

Lemma suffix_not s p d : without d s = true -> s <> "" -> HasSuffix (p +:+ s) (String d "") = false.
Proof.
  intros Hs Hne. destruct (last_char s Hne) as (t & c & ->).
  rewrite <- str_app_assoc, suffix_char. rewrite without_app in Hs. apply andb_true_iff in Hs as [_ Hs].
  unfold without in Hs. simpl in Hs. by destruct (Ascii.eqb c d).
Qed.

(** Text without escapes is its own decoding. *)
Lemma unescape_query_plain s :
  string_forallb (fun a => negb (Ascii.eqb a "%") && negb (Ascii.eqb a "+")) s = true -> QueryUnescape s = Some s.
Proof.
  unfold QueryUnescape. induction s as [|a s IH]; simpl; [done|].
  intros [[Ha Hb]%andb_true_iff Hs]%andb_true_iff.
  destruct (Ascii.eqb a "%"); [done|]. rewrite IH by done. by destruct (Ascii.eqb a "+").
Qed.

(** ** Magnet links *)

Definition magnet_prefix : string := "magnet:?xt=urn:btih:".

Lemma plain_spaceless s : plain s = true -> spaceless s = true.
Proof. apply forallb_imp. intros a. all_chars a. Qed.

Lemma plain_ends p s d : alphanumeric d = false -> plain s = true -> s <> "" ->
  HasSuffix (p +:+ s) (String d "") = false.
Proof. intros Hd Hs. apply suffix_not. by apply plain_without. Qed.

(** The one parameter of a magnet link with a plain hash. *)
Lemma magnet_query h : plain h = true -> h <> "" ->
  exists u, Parse (magnet_prefix +:+ h) = Some u /\ Query u = [("xt", "urn:btih:" +:+ h)].
Proof.
  intros Hh Hne. unfold Parse.
  assert (Hw : forall c p, alphanumeric c = false -> without c p = true -> without c (p +:+ h) = true).
  { intros c p Hc Hp. rewrite without_app, Hp. by apply plain_without. }
  rewrite Cut_without by (by apply Hw). unfold parse_url.
  replace (string_forallb (fun a => negb (control_char a)) (magnet_prefix +:+ h)) with true.
  2:{ symmetry. rewrite string_forallb_app. apply andb_true_iff. split; [done|].
      revert Hh. apply forallb_imp. intros a. all_chars a. }
  cbn [negb]. change (String.eqb (magnet_prefix +:+ h) "*") with false. cbn iota.
  change (getScheme (magnet_prefix +:+ h)) with (Some ("magnet", "?xt=urn:btih:" +:+ h)). cbn iota.
  rewrite plain_ends by done. cbn [andb].
  change (Cut "?" ("?xt=urn:btih:" +:+ h)) with ("", "xt=urn:btih:" +:+ h, true).
  cbn. eexists. split; [reflexivity|]. unfold Query. cbn [u_RawQuery]. unfold ParseQuery.
  rewrite split_without by (by apply (Hw _ "xt=urn:btih:")). cbn [omap list_omap].
  unfold query_pair.
  rewrite contains_without by (by apply (Hw _ "xt=urn:btih:")).
  change (String.eqb ("xt=urn:btih:" +:+ h) "") with false. cbn [orb].
  change (Cut "=" ("xt=urn:btih:" +:+ h)) with ("xt", "urn:btih:" +:+ h, true). cbn iota.
  change (QueryUnescape "xt") with (Some "xt").
  rewrite unescape_query_plain; [done|]. rewrite string_forallb_app. apply andb_true_iff. split; [done|].
  revert Hh. apply forallb_imp. intros a. all_chars a.
Qed.

(** What [hex.DecodeString] accepts, and what it gives. *)
Lemma hex_val_spec a x : hex_val a = Some x ->
  0 <= x < 16 /\ lower_ascii a = hex_digit x /\ alphanumeric a = true.
Proof. intros H. all_chars a; vm_compute in H; first [discriminate H | injection H as <-; split; [lia|done]]. Qed.

Lemma decode_hex h b : DecodeString h = Some b ->
  plain h = true /\ slen h = 2 * zlen b /\ Forall is_byte b /\ ToLower h = EncodeToString b.
Proof.
  revert h. induction b as [|x b IH]; intros h.
  - destruct h as [|c [|d h]]; simpl; [done|done|].
    destruct (hex_val c), (hex_val d), (DecodeString h); done.
  - destruct h as [|c [|d h]]; simpl; [done|done|].
    destruct (hex_val c) as [x1|] eqn:Hc; [|done]. destruct (hex_val d) as [x2|] eqn:Hd; [|done].
    destruct (DecodeString h) as [r|] eqn:Hr; [|done]. intros [= <- ->].
    destruct (IH h Hr) as (Hp & Hl & Hb & Hlow).
    apply hex_val_spec in Hc as (Hx1 & Hc & Hac). apply hex_val_spec in Hd as (Hx2 & Hd & Had).
    split_and!.
    + unfold plain in *. cbn [string_forallb]. by rewrite Hac, Had.
    + unfold slen in *. simpl. rewrite zlen_cons. lia.
    + constructor; [unfold is_byte; lia|done].
    + rewrite Hc, Hd, Hlow. unfold hex_byte. rewrite Z.div_add_l, Z.div_small, Z.add_0_r by lia.
      rewrite Z.add_comm, Z.mod_add, Z.mod_small by lia. done.
Qed.

Lemma base32_val_spec a x : base32_val (upper_ascii a) = Some x -> 0 <= x < 32 /\ alphanumeric a = true.
Proof. intros H. all_chars a; vm_compute in H; first [discriminate H | injection H as <-; split; [lia|done]]. Qed.

Lemma base32_plain h acc x : base32_number (ToUpper h) acc = Some x -> plain h = true.
Proof.
  revert acc. unfold plain. induction h as [|a h IH]; intros acc; [done|]. cbn [ToUpper base32_number string_forallb].
  destruct (base32_val (upper_ascii a)) as [v|] eqn:Hv; [|done]. intros Hx.
  apply base32_val_spec in Hv as [_ ->]. by eapply IH.
Qed.

(** A spelling of a hash: forty hexadecimal digits of either case, or
    thirty-two base32 digits of either case. *)
Definition spells (h : string) (b : bytes) : Prop :=
  DecodeString h = Some b \/ slen h = 32 /\ base32_decode20 (ToUpper h) = Some b.

Lemma spells_plain h b : spells h b -> plain h = true.
Proof.
  intros [Hh|[_ Hh]]; [by apply decode_hex in Hh as [? _]|]. unfold base32_decode20 in Hh.
  destruct (base32_number (ToUpper h) 0) eqn:Hn; [|done]. eapply base32_plain. exact Hn.
Qed.

Lemma btih_spells h b : zlen b = 20 -> spells h b ->
  btih ("urn:btih:" +:+ h) = Some (b, EncodeToString b).
Proof.
  intros Hb Hs. pose proof (spells_plain h b Hs) as Hp. unfold btih.
  change (ToLower ("urn:btih:" +:+ h)) with ("urn:btih:" +:+ ToLower h). rewrite HasPrefix_app.
  assert (TrimPrefix ("urn:btih:" +:+ h) "urn:btih:" = h) as ->.
  { unfold TrimPrefix. rewrite HasPrefix_app. apply (drop_str_app "urn:btih:"). }
  assert (TrimPrefix h "URN:BTIH:" = h) as ->.
  { unfold TrimPrefix. rewrite (HasPrefix_without ":"); [done| |done]. by apply plain_without. }
  rewrite TrimSpace_spaceless by (by apply plain_spaceless).
  destruct Hs as [Hh|[Hl Hh]].
  - destruct (decode_hex h b Hh) as (_ & Hlen & _ & ->).
    rewrite Hlen, Hb, Hh. change (2 * 20 =? 40) with true. cbn iota. by rewrite Hb.
  - rewrite Hl, Hh. done.
Qed.

Lemma btih_ok xt b h : btih xt = Some (b, h) ->
  zlen b = 20 /\ Forall is_byte b /\ h = EncodeToString b.
Proof.
  unfold btih. destruct (HasPrefix _ _); [|done]. set (raw := TrimSpace _).
  destruct (slen raw =? 40).
  - destruct (DecodeString raw) as [d|] eqn:Hd; [|done]. destruct (zlen d =? 20) eqn:Hl; [|done].
    intros [= <- <-]. apply Z.eqb_eq in Hl. by apply decode_hex in Hd as (_ & _ & ? & ->).
  - destruct (slen raw =? 32); [|done]. unfold base32_decode20.
    destruct (base32_number (ToUpper raw) 0) as [x|]; [|done]. cbn [fmap option_fmap option_map].
    generalize (zlen_be_put 20 x), (be_put_range 20 x). generalize (be_put 20 x).
    intros d Hd1 Hd2 [= <- <-]. done.
Qed.

(** Base32 of a number in [n] digits, most significant first. *)
Definition base32_digit (v : Z) : Ascii.ascii := ascii_of_byte (if v <? 26 then 65 + v else 24 + v).

Fixpoint base32_encode (n : nat) (v : Z) : string :=
  match n with
  | O => ""
  | S k => String (base32_digit (v / 32 ^ Z.of_nat k mod 32)) (base32_encode k v)
  end.

Lemma base32_val_digit v : 0 <= v < 32 -> base32_val (upper_ascii (base32_digit v)) = Some v.
Proof.
  intros Hv. assert (match base32_val (upper_ascii (base32_digit v)) with Some m => m =? v | None => false end = true) as H
    by by apply (below_forallb 32 (fun v => match base32_val (upper_ascii (base32_digit v)) with
                                            | Some m => m =? v | None => false end)).
  destruct (base32_val _) as [m|]; [|done]. apply Z.eqb_eq in H. by subst.
Qed.

Lemma base32_number_encode n v acc :
  base32_number (ToUpper (base32_encode n v)) acc = Some (acc * 32 ^ Z.of_nat n + v mod 32 ^ Z.of_nat n).
Proof.
  revert acc. induction n as [|n IH]; intros acc; cbn [base32_encode ToUpper base32_number].
  - rewrite Z.mod_1_r. f_equal. lia.
  - rewrite base32_val_digit by (apply Z.mod_pos_bound; lia). rewrite IH. f_equal.
    rewrite Nat2Z.inj_succ, Z.pow_succ_r by lia.
    rewrite (Z.mul_comm 32 (32 ^ _)), Z.rem_mul_r by lia. ring.
Qed.

Lemma base32_roundtrip b : zlen b = 20 -> Forall is_byte b ->
  spells (base32_encode 32 (be_get b)) b /\ spells (EncodeToString b) b.
Proof.
  intros Hl Hb. split; [right|left].
  - split; [done|]. unfold base32_decode20. rewrite base32_number_encode. cbn [fmap option_fmap option_map].
    rewrite Z.mul_0_l, Z.add_0_l. pose proof (be_get_bound b Hb) as Hx. rewrite Hl in Hx.
    rewrite Z.mod_small by (change (32 ^ Z.of_nat 32) with (256 ^ 20); done).
    replace 20%nat with (length b) by (unfold zlen in Hl; lia). by rewrite be_put_get.
  - by apply hex_decode_encode.
Qed.

Lemma nonblank_spec l : Forall (fun s => s <> "") (nonblank l).
Proof.
  unfold nonblank. apply List.Forall_forall. intros s [_ Hs]%filter_In.
  by destruct (String.eqb_spec s "").
Qed.

Lemma length_param_nonneg s low : 0 <= low -> 0 <= length_param s low < 2 ^ 63.
Proof.
  intros Hlow. unfold length_param. destruct (ParseInt s) as [n|] eqn:Hn; [|lia].
  destruct (low <=? n) eqn:Hle; [|lia]. unfold ParseInt in Hn. destruct (parse_int s) as [v|]; [|done].
  destruct (fits_int64 v) eqn:Hf; [|done]. injection Hn as ->.
  unfold fits_int64 in Hf. apply andb_true_iff in Hf as [_ Hf%Z.ltb_lt]. lia.
Qed.

(** Whatever spelling a magnet link gives its hash, hexadecimal or
    base32 in either case, it is read as the same twenty bytes, and every
    accepted link carries twenty bytes with their lower-case hexadecimal
    text, lengths that are not negative and addresses that are not blank. *)
Theorem magnet_spellings :
  (forall h b, zlen b = 20 -> spells h b ->
     exists m, ParseMagnetURI (magnet_prefix +:+ h) = Ok m /\ InfoHash m = b /\ HexHash m = EncodeToString b) /\
  (forall b, zlen b = 20 -> Forall is_byte b -> spells (base32_encode 32 (be_get b)) b /\ spells (EncodeToString b) b) /\
  (forall raw m, ParseMagnetURI raw = Ok m ->
     zlen (InfoHash m) = 20 /\ Forall is_byte (InfoHash m) /\ HexHash m = EncodeToString (InfoHash m) /\
     0 <= ExactLength m < 2 ^ 63 /\ 0 <= PieceLength m < 2 ^ 63 /\
     Forall (fun s => s <> "") (Trackers m ++ WebSeeds m ++ ExactSources m)).
Proof.
  split; [|split; [exact base32_roundtrip|]].
  - intros h b Hb Hs. pose proof (spells_plain h b Hs) as Hp.
    assert (h <> "") as Hne.
    { intros ->. destruct Hs as [Hs|[Hl _]]; [|done]. injection Hs as <-. done. }
    destruct (magnet_query h Hp Hne) as (u & Hu & Hq). unfold ParseMagnetURI.
    rewrite TrimSpace_spaceless.
    2:{ unfold spaceless. rewrite string_forallb_app. apply andb_true_iff. split; [done|]. by apply plain_spaceless. }
    change (magnet_prefix +:+ h) with ("magnet:?" +:+ ("xt=urn:btih:" +:+ h)) at 1. rewrite HasPrefix_app. cbn [negb].
    rewrite Hu, Hq. cbn [values omap list_omap fst snd String.eqb Ascii.eqb Bool.eqb].
    rewrite (btih_spells h b Hb Hs). by eexists.
  - intros raw m. unfold ParseMagnetURI. destruct (HasPrefix _ _); [|done]. cbn [negb].
    destruct (Parse _) as [u|]; [|done]. destruct (values (Query u) "xt") as [|x xs]; [done|].
    destruct (head (omap btih (x :: xs))) as [[b h]|] eqn:Hb; [|done]. intros [= <-].
    cbn [InfoHash HexHash ExactLength PieceLength Trackers WebSeeds ExactSources].
    assert (exists xt, btih xt = Some (b, h)) as [xt Hxt].
    { assert (In (b, h) (omap btih (x :: xs))) as Hin by (destruct (omap _ _); [done|injection Hb as ->; by left]).
      apply list_elem_of_In, list_elem_of_omap in Hin as (xt & _ & ?). by exists xt. }
    apply btih_ok in Hxt as (? & ? & ?). do 3 (split; [done|]).
    split; [by apply length_param_nonneg|]. split; [by apply length_param_nonneg|].
    rewrite !Forall_app. split_and!; apply nonblank_spec.
Qed.

(** ** Direct downloads *)

(** A page where a binary file was asked for. *)
Definition page_for_binary (name : string) (p : bytes) : bool :=
  IsHTMLPayload (ztake 512 p) && IsBinaryExtension name.

Lemma streamed_response e resolved r meta p err :
  look_at_response e resolved r = Deliver (Streams meta p err) ->
  200 <= status r < 300 /\ p = payload r /\ err = payload_err r /\ page_for_binary (fi_Filename meta) p = false.
Proof.
  unfold look_at_response. destruct ((status r <? 200) || (300 <=? status r)) eqn:Hst; [done|].
  apply orb_false_iff in Hst as [Hlo%Z.ltb_ge Hhi%Z.leb_gt].
  assert (Hgood : forall name mime, page_for_binary name (payload r) = false ->
    Deliver (Streams (mkInfo name mime (content_length r)) (payload r) (payload_err r)) = Deliver (Streams meta p err) ->
    200 <= status r < 300 /\ p = payload r /\ err = payload_err r /\ page_for_binary (fi_Filename meta) p = false).
  { intros name mime Hn [= <- <- <-]. done. }
  destruct (zlen (ztake 512 (payload r)) =? 0) eqn:Hz.
  { apply Z.eqb_eq in Hz. destruct (if _ <? _ then _ else _) as [[| |]|]; try done; apply Hgood;
      unfold page_for_binary; by rewrite (zlen_nil_inv (ztake 512 (payload r))) by lia. }
  destruct (SniffMagicBytes _ _ _ _) as [name mime].
  destruct (is_interstitial resolved name mime (ztake 512 (payload r))) eqn:Hi.
  { destruct (if _ <? _ then _ else _) as [[| |]|]; try done; by destruct (_ && _). }
  assert (page_for_binary name (payload r) = false).
  { unfold page_for_binary, is_interstitial in *. destruct (IsHTMLPayload _); [|done].
    rewrite orb_true_r in Hi. cbn [andb] in *. by apply orb_false_iff in Hi as [-> _]. }
  destruct (if _ <? _ then _ else _) as [[| |]|]; try done; by apply Hgood.
Qed.

(** What a download has come to when it ends. *)
Definition vetted (e : link_env) (req : http_request) : Prop :=
  method req = "GET" /\ exists k, ValidateSafeURL (link_net e) k (target req) false = Allowed.

Definition delivered (e : link_env) (sent : list http_request) (o : opened) : Prop :=
  forall meta p err, o = Streams meta p err ->
  exists k req r, last sent = Some req /\ do_request e k req = Some r /\ 200 <= status r < 300 /\
    p = payload r /\ err = payload_err r /\ page_for_binary (fi_Filename meta) p = false.

Lemma open_direct_facts fuel e n url sent sent' o :
  open_direct fuel e n url sent = Some (sent', o) -> Forall (vetted e) sent ->
  Forall (vetted e) sent' /\ delivered e sent' o.
Proof.
  revert n url sent. induction fuel as [|f IH]; intros n url sent; [done|]. cbn [open_direct].
  destruct (ResolveLink e n url) as [resolved|msg|]; [|by intros [= <- <-]..].
  destruct (ValidateSafeURL _ _ _ _) eqn:Hv; [|by intros [= <- <-]].
  set (req := mkHttpReq _ _ _ _ _). intros H Hs.
  assert (Forall (vetted e) (sent ++ [req])) as Hs'.
  { apply Forall_app. split; [done|]. apply Forall_singleton. split; [done|]. by exists (S n). }
  destruct (do_request e (S n) req) as [r|] eqn:Hd; [|by injection H as <- <-].
  destruct (look_at_response e resolved r) as [o'|url'] eqn:Hl; [|by eapply IH].
  injection H as <- <-. split; [done|]. intros meta p err ->. exists (S n), req, r.
  split; [by rewrite last_snoc|]. split; [done|]. by apply streamed_response in Hl.
Qed.

(** Every request a direct download sends, those for links recovered
    from pages included, goes to a URL the guard against private addresses
    has passed, and a download delivers exactly the payload of a successful
    response to the last of them, never a web page under the name of a binary
    file. *)
Theorem direct_requests_are_vetted fuel e n url sent o :
  open_direct fuel e n url [] = Some (sent, o) -> Forall (vetted e) sent /\ delivered e sent o.
Proof. intros H. by apply (open_direct_facts fuel e n url []). Qed.

(** ** Two pages that name each other *)

Definition open_net : net_env :=
  mkNetEnv (fun s => option_map (fun u => (u_Scheme u, Hostname u)) (Parse s)) (fun _ => None) (fun _ => None)
    (fun _ _ => Some [[8; 8; 8; 8]]) false.

Definition link_to (url : string) : string :=
  "<html><a href='" +:+ url +:+ "' aria-label='Download file'>here</a>".

Definition ring_env : link_env :=
  mkLinkEnv open_net 1700000000 (fun _ => None) (fun _ => "")
    (fun _ req =>
       let other := if HasPrefix (target req) "https://a.org" then "https://b.org/x.zip" else "https://a.org/x.zip" in
       Some (mkHttp 200 (target req) (fun _ => "") (-1) (bytes_of_string (link_to other)) None)).

(** The URL a download of [url] is led to by the answer it gets: an answer
    of success whose first bytes can be read and look like a web page, where
    the name of a binary file was expected, and in whose first bytes there is
    a link other than the one that was asked for. *)
Definition looks_like_page (e : link_env) (r : http_response) : bool :=
  let peek := ztake 512 (payload r) in
  HasPrefix (snd (SniffMagicBytes (DetectContentType e) peek "" (response_type e r))) "text/html" || IsHTMLPayload peek.

Definition page_text (r : http_response) : string := string_of_bytes (ztake (512 + one_megabyte) (payload r)).

Definition binary_expected (e : link_env) (resolved : ResolvedLink) (r : http_response) : bool :=
  IsBinaryExtension (fst (SniffMagicBytes (DetectContentType e) (ztake 512 (payload r)) (response_name e resolved r)
                            (response_type e r)))
  || (negb (String.eqb (rl_Filename resolved) "") && IsBinaryExtension (rl_Filename resolved)).

Definition page_readable (r : http_response) : Prop :=
  payload r <> [] /\ (zlen (payload r) < 512 -> forall msg, payload_err r <> Some (ErrMsg msg)).

Definition leads (e : link_env) (n : nat) (url url' : string) : Prop :=
  exists resolved r,
    ResolveLink e n url = Resolved resolved /\
    ValidateSafeURL (link_net e) (S n) (ResolvedURL resolved) false = Allowed /\
    do_request e (S n) (mkHttpReq "GET" (ResolvedURL resolved) (Referer resolved) (AuthHeader resolved) "") = Some r /\
    200 <= status r < 300 /\ page_readable r /\ looks_like_page e r = true /\ binary_expected e resolved r = true /\
    recovered_link (page_text r) = url' /\ url' <> "" /\ url' <> ResolvedURL resolved.

(** An answer that ends a download whatever was asked for. *)
Definition dead_end (e : link_env) (r : http_response) : Prop :=
  ~ 200 <= status r < 300 \/ looks_like_page e r = false \/ recovered_link (page_text r) = "".

Lemma sniffed_type detect peek name name' mime :
  snd (SniffMagicBytes detect peek name mime) = snd (SniffMagicBytes detect peek name' mime).
Proof.
  unfold SniffMagicBytes. destruct (zlen peek =? 0); [done|]. destruct (detect_signature peek) as [ext dm].
  by repeat case_match.
Qed.

Lemma interstitial_page e resolved r :
  let '(name, mime) := SniffMagicBytes (DetectContentType e) (ztake 512 (payload r)) (response_name e resolved r) (response_type e r) in
  is_interstitial resolved name mime (ztake 512 (payload r)) = looks_like_page e r && binary_expected e resolved r.
Proof.
  unfold looks_like_page, binary_expected, is_interstitial.
  rewrite (sniffed_type _ _ "" (response_name e resolved r)). by destruct (SniffMagicBytes _ _ _ _).
Qed.

Lemma readable_spec r :
  page_readable r <->
  zlen (ztake 512 (payload r)) <> 0 /\
  match (if zlen (payload r) <? 512 then payload_err r else None) with Some (ErrMsg _) => False | _ => True end.
Proof.
  unfold page_readable. split; intros [H1 H2]; (split; [|]).
  - intros Hz. apply H1. destruct (payload r); [done|]. exfalso. by cbn in Hz.
  - destruct (Z.ltb_spec (zlen (payload r)) 512) as [Hl|]; [|done]. specialize (H2 Hl).
    destruct (payload_err r) as [[| |m]|]; try done. by destruct (H2 m).
  - intros Hp. by rewrite Hp in H1.
  - intros Hl m Hm. apply Z.ltb_lt in Hl. by rewrite Hl, Hm in H2.
Qed.

(** Exactly the answers [leads] describes are followed. *)
Lemma followed e resolved r url' :
  look_at_response e resolved r = Recover url' <->
  200 <= status r < 300 /\ page_readable r /\ looks_like_page e r = true /\ binary_expected e resolved r = true /\
  recovered_link (page_text r) = url' /\ url' <> "" /\ url' <> ResolvedURL resolved.
Proof.
  rewrite readable_spec. unfold look_at_response. pose proof (interstitial_page e resolved r) as Hp.
  destruct ((status r <? 200) || (300 <=? status r)) eqn:Hst.
  { split; [done|]. intros (? & _). apply orb_true_iff in Hst as [?%Z.ltb_lt|?%Z.leb_le]; lia. }
  apply orb_false_iff in Hst as [Hlo%Z.ltb_ge Hhi%Z.leb_gt].
  destruct (SniffMagicBytes _ _ _ _) as [name mime]. rewrite Hp. fold (page_text r).
  destruct (if zlen (payload r) <? 512 then payload_err r else None) as [[| |m]|] eqn:He;
    try (split; [done|]; intros (_ & (_ & []) & _)).
  all: destruct (Z.eqb_spec (zlen (ztake 512 (payload r))) 0) as [Hz|Hz]; [split; [done|]; intros (_ & (Hn & _) & _); done|].
  all: destruct (looks_like_page e r); cbn [andb]; [|split; [done|]; intros (_ & _ & ? & _); done].
  all: destruct (binary_expected e resolved r); cbn [andb]; [|split; [done|]; intros (_ & _ & _ & ? & _); done].
  all: destruct (String.eqb_spec (recovered_link (page_text r)) ""); cbn [negb andb];
    [split; [done|]; intros (_ & _ & _ & _ & <- & ? & _); done|].
  all: destruct (String.eqb_spec (recovered_link (page_text r)) (ResolvedURL resolved)); cbn [negb];
    [split; [done|]; intros (_ & _ & _ & _ & <- & _ & ?); done|].
  all: split; [intros [= <-]; split_and!; try done|]; by intros (_ & _ & _ & _ & <- & _).
Qed.

(** One round: the download ends, or goes on with the URL it is led to. *)
Lemma open_round e n url :
  (forall f sent, open_direct (S f) e n url sent <> None) /\ (forall url', ~ leads e n url url') \/
  exists url', leads e n url url' /\
    forall sent, exists sent', forall f, open_direct (S f) e n url sent = open_direct f e (S (S n)) url' sent'.
Proof.
  cbn [open_direct].
  destruct (ResolveLink e n url) as [resolved|msg|] eqn:Hr.
  2,3: left; split; [done|]; intros url' (? & ? & ? & _); congruence.
  destruct (ValidateSafeURL _ _ _ _) eqn:Hv.
  2:{ left; split; [done|]. intros url' (? & ? & [= <-]%(eq_trans (eq_sym Hr)) & ? & _). congruence. }
  destruct (do_request e (S n) _) as [r|] eqn:Hd.
  2:{ left; split; [done|]. intros url' (? & ? & [= <-]%(eq_trans (eq_sym Hr)) & _ & ? & _). congruence. }
  destruct (look_at_response e resolved r) as [o|url'] eqn:Hl.
  - left; split; [done|]. intros url' (? & r' & [= <-]%(eq_trans (eq_sym Hr)) & _ & Hd' & Hrest).
    rewrite Hd in Hd'. injection Hd' as <-. apply followed in Hrest. congruence.
  - right. exists url'. split.
    + exists resolved, r. apply followed in Hl. by do 3 (split; [done|]).
    + intros sent. by eexists.
Qed.

(** The URL a download goes on with. *)
Definition next_url (e : link_env) (n : nat) (url : string) : string :=
  match ResolveLink e n url with
  | Resolved resolved =>
      match do_request e (S n) (mkHttpReq "GET" (ResolvedURL resolved) (Referer resolved) (AuthHeader resolved) "") with
      | Some r => recovered_link (page_text r)
      | None => ""
      end
  | _ => ""
  end.

Lemma leads_next e n url url' : leads e n url url' -> url' = next_url e n url.
Proof. unfold next_url. intros (resolved & r & -> & _ & -> & _ & _ & _ & _ & <- & _). done. Qed.

(** The requests sent before do not matter. *)
Lemma open_direct_sent fuel e n url sent sent' :
  open_direct fuel e n url sent = None -> open_direct fuel e n url sent' = None.
Proof.
  revert n url sent sent'. induction fuel as [|f IH]; intros n url sent sent'; [done|]. cbn [open_direct].
  destruct (ResolveLink e n url) as [resolved|msg|]; [|done..].
  destruct (ValidateSafeURL _ _ _ _); [|done]. destruct (do_request e (S n) _) as [r|]; [|done].
  destruct (look_at_response e resolved r); [done|]. apply IH.
Qed.

Lemma ring_never_ends fuel n sent :
  open_direct fuel ring_env n "https://a.org/x.zip" sent = None /\
  open_direct fuel ring_env n "https://b.org/x.zip" sent = None.
Proof.
  revert n sent. induction fuel as [|f IH]; intros n sent; [done|]. split; cbn [open_direct].
  - change (match look_at_response ring_env
                    (mkResolved "https://a.org/x.zip" "https://a.org/x.zip" "a.org" "a.org" "download" "x.zip" "" ""
                       DownloadTypeDirect false)
                    (mkHttp 200 "https://a.org/x.zip" (fun _ => "") (-1) (bytes_of_string (link_to "https://b.org/x.zip")) None)
            with
            | Deliver o => Some (sent ++ [mkHttpReq "GET" "https://a.org/x.zip" "" "" ""], o)
            | Recover url => open_direct f ring_env (S (S n)) url (sent ++ [mkHttpReq "GET" "https://a.org/x.zip" "" "" ""])
            end = None).
    vm_compute (look_at_response _ _ _). apply IH.
  - change (match look_at_response ring_env
                    (mkResolved "https://b.org/x.zip" "https://b.org/x.zip" "b.org" "b.org" "download" "x.zip" "" ""
                       DownloadTypeDirect false)
                    (mkHttp 200 "https://b.org/x.zip" (fun _ => "") (-1) (bytes_of_string (link_to "https://a.org/x.zip")) None)
            with
            | Deliver o => Some (sent ++ [mkHttpReq "GET" "https://b.org/x.zip" "" "" ""], o)
            | Recover url => open_direct f ring_env (S (S n)) url (sent ++ [mkHttpReq "GET" "https://b.org/x.zip" "" "" ""])
            end = None).
    vm_compute (look_at_response _ _ _). apply IH.
Qed.

Fixpoint followed_url (e : link_env) (n : nat) (url : string) (k : nat) : string :=
  match k with O => url | S j => followed_url e (S (S n)) (next_url e n url) j end.

(** C24: A download follows the links it is led to without a limit.  It
    never ends exactly when there is an endless chain of URLs, each of which
    is answered by a page that leads to the next; a pair of pages that name
    each other is such a chain.  Whenever the answer to the (b+1)-st request is
    a dead end (no success, no page, or a page without a link) the download
    has ended by then. *)
Theorem recovery_is_not_bounded :
  (forall e n url,
     (forall fuel sent, open_direct fuel e n url sent = None) <->
     exists urls : nat -> string, urls O = url /\ forall k, leads e (n + 2 * k) (urls k) (urls (S k))) /\
  (forall fuel sent, open_direct fuel ring_env 0 "https://a.org/x.zip" sent = None) /\
  (forall e n url sent b,
     (forall req r, do_request e (S (n + 2 * b)) req = Some r -> dead_end e r) ->
     exists sent' o, open_direct (S b) e n url sent = Some (sent', o)).
Proof.
  split; [|split].
  - intros e n url. split.
    + intros Hnone. exists (followed_url e n url). split; [done|]. intros k. revert n url Hnone.
      induction k as [|k IH]; intros n url Hnone.
      all: destruct (open_round e n url) as [[Hsome _]|(url' & Hlead & Hnext)]; [by destruct (Hsome O [])|].
      all: pose proof (leads_next _ _ _ _ Hlead) as Hu; cbn [followed_url]; rewrite <- Hu.
      * rewrite Nat.add_0_r. done.
      * replace (n + 2 * S k)%nat with (S (S n) + 2 * k)%nat by lia.
        apply (IH (S (S n)) url'). intros fuel sent. destruct (Hnext []) as [sent' Hf].
        apply (open_direct_sent _ _ _ _ sent'). by rewrite <- Hf.
    + intros (urls & Hu & Hl) fuel. revert n url urls Hu Hl. induction fuel as [|f IH]; intros n url urls Hu Hl sent; [done|].
      specialize (Hl O) as Hl0. rewrite Nat.add_0_r, Hu in Hl0.
      destruct (open_round e n url) as [[_ Hno]|(url' & Hlead & Hnext)]; [by destruct (Hno (urls 1%nat))|].
      destruct (Hnext sent) as [sent' ->]. apply (IH _ _ (fun k => urls (S k))).
      * by rewrite (leads_next _ _ _ _ Hl0), (leads_next _ _ _ _ Hlead).
      * intros k. replace (S (S n) + 2 * k)%nat with (n + 2 * S k)%nat by lia. apply Hl.
  - intros fuel sent. apply ring_never_ends.
  - intros e n url sent b. revert n url sent. induction b as [|b IH]; intros n url sent Hdead.
    all: destruct (open_round e n url) as [[Hsome _]|(url' & Hlead & Hnext)];
      [destruct (open_direct _ e n url sent) as [[sent' o]|] eqn:Ho; [by exists sent', o|by destruct (Hsome _ _ Ho)]|].
    + rewrite Nat.add_0_r in Hdead. destruct Hlead as (resolved & r & _ & _ & Hd & Hst & _ & Hp & _ & Hlink & Hne & _).
      destruct (Hdead _ _ Hd) as [?|[?|?]]; congruence.
    + destruct (Hnext sent) as [sent' ->]. apply IH. intros req r Hd. apply (Hdead req).
      by replace (n + 2 * S b)%nat with (S (S n) + 2 * b)%nat by lia.
Qed.

(** ** Witnesses *)

Lemma direct_requests_are_vetted_witness :
  exists sent o, open_direct 3 (mkLinkEnv open_net 0 (fun _ => None) (fun _ => "")
      (fun _ req => Some (mkHttp 200 (target req) (fun _ => "") 3 [80; 75; 3; 4] None))) 0 "https://a.org/x.zip" []
      = Some (sent, o) /\ length sent = 1%nat /\
    Forall (fun req => method req = "GET") sent.
Proof.
  eexists _, _. split; [by vm_compute|]. split; [done|].
  destruct (direct_requests_are_vetted 3 (mkLinkEnv open_net 0 (fun _ => None) (fun _ => "")
      (fun _ req => Some (mkHttp 200 (target req) (fun _ => "") 3 [80; 75; 3; 4] None))) 0 "https://a.org/x.zip" _ _
      ltac:(by vm_compute)) as [Hv _].
  eapply Forall_impl; [exact Hv|]. by intros req [Hm _].
Defined.

Lemma magnet_spellings_witness :
  exists m, ParseMagnetURI (magnet_prefix +:+ "AERUKZ4JVPG66AJDIVTYTK6N54ASGRLH") = Ok m /\
    HexHash m = "0123456789abcdef0123456789abcdef01234567".
Proof.
  destruct magnet_spellings as (H & _ & _).
  destruct (H "AERUKZ4JVPG66AJDIVTYTK6N54ASGRLH"
    [1; 35; 69; 103; 137; 171; 205; 239; 1; 35; 69; 103; 137; 171; 205; 239; 1; 35; 69; 103])
    as (m & Hm & _ & Hh); [done|right; by vm_compute|].
  exists m. split; [exact Hm|]. by rewrite Hh.
Defined.

(** Its first request is answered by a page that names the file, the next by
    the file. *)
Definition once_env : link_env :=
  mkLinkEnv open_net 1700000000 (fun _ => None) (fun _ => "")
    (fun k req =>
       if (k <=? 1)%nat then Some (mkHttp 200 (target req) (fun _ => "") (-1) (bytes_of_string (link_to "https://b.org/y.zip")) None)
       else Some (mkHttp 200 (target req) (fun _ => "") 4 [80; 75; 3; 4] None)).

Lemma recovery_is_not_bounded_witness :
  open_direct 9 ring_env 0 "https://a.org/x.zip" [] = None /\
  (exists sent o, open_direct 2 once_env 0 "https://a.org/x.zip" [] = Some (sent, o)) /\
  open_direct 1 once_env 0 "https://a.org/x.zip" [] = None.
Proof.
  destruct recovery_is_not_bounded as (_ & H1 & H2). split; [apply H1|]. split; [|by vm_compute].
  apply (H2 once_env 0%nat "https://a.org/x.zip" [] 1%nat). intros req r [= <-]. right. left. reflexivity.
Defined.
