(* ===== verification/StartDownloadProps.v ===== *)
(** * Theorems about starting downloads (StartDownload) *)

From S2P Require Import Prelude GoStrings Regex GoURL NetGuard FileInfo FileSys CryptoPrims CAS UploadSession VaultTree Auth UploadCtrl DownloadTasks Links Resolver ResolverProps StartDownload.

#[local] Open Scope string_scope.
#[local] Open Scope list_scope.
#[local] Open Scope Z_scope.

(** ** New tasks *)

Section NewTasks.
Context `{CryptoPrims} `{MetaCodec}.

(** The key a job encrypts under is the unlocked key of the vault exactly when
    its folder lies in the vault. *)
Definition guarded_job (e : req_env) (db : option database) (folder : string) (j : dl_job) : Prop :=
  j_isVault j = dc_isVaultFolder e db folder /\
  (j_isVault j = true -> getVaultKey e = Some (j_vaultKey j)).

Definition known_folder (e : req_env) (db : option database) (folder : string) : Prop :=
  folder = "" \/ folder = "f1" \/ folder = "f2" \/ folder = "f3" \/ db = None \/
  exists d, db = Some d /\ query_ok e = true /\ In folder (folders d).*1.

Definition scheme_of (ty : DownloadType) (lower : string) : Prop :=
  match ty with
  | DownloadTypeDirect => HasPrefix lower "http://" = true \/ HasPrefix lower "https://" = true
  | DownloadTypeMagnet => HasPrefix lower "magnet:?" = true
  end.

(** One new task beside the others. *)
Definition adds_task (e : req_env) (owner : Z) (st : dm_state) (t : DownloadTask) (j : dl_job) (st' : dm_state) : Prop :=
  dm_objs st !! j_ref j = None /\
  st' = mkDM (dm_TmpDir st) (dm_CAS st) (dm_DB st) (dm_fs st) (<[j_ref j := t]> (dm_objs st))
          (<[t_ID t := j_ref j]> (dm_tasks st)) /\
  t_OwnerID t = owner /\ 1 <= t_MaxThreads t <= 32 /\
  Status (t_life t) = StatusDownloading /\ t_cancelled t = false /\
  scheme_of (t_Type t) (ToLower (NormalizeLink (TrimSpace (t_URL t)))) /\
  known_folder e (dm_DB st) (t_FolderID t) /\ guarded_job e (dm_DB st) (t_FolderID t) j.

Inductive adds_tasks (e : req_env) (owner : Z) : dm_state -> list (DownloadTask * dl_job) -> dm_state -> Prop :=
| adds_none st : adds_tasks e owner st [] st
| adds_more st t j st1 ts st2 :
    adds_task e owner st t j st1 -> adds_tasks e owner st1 ts st2 -> adds_tasks e owner st ((t, j) :: ts) st2.

Lemma adds_db e owner st ts st' : adds_tasks e owner st ts st' -> dm_DB st' = dm_DB st.
Proof. induction 1 as [|st t j st1 ts st2 Ht _ ->]; [done|]. by destruct Ht as (_ & -> & _). Qed.

Lemma adds_snoc e owner st ts st1 t j st2 :
  adds_tasks e owner st ts st1 -> adds_task e owner st1 t j st2 -> adds_tasks e owner st (ts ++ [(t, j)]) st2.
Proof. induction 1; intros Ht; simpl; econstructor; eauto using adds_none. Qed.

Lemma detected_scheme norm ty :
  DetectLinkType norm = Ok ty -> scheme_of ty (ToLower (NormalizeLink (TrimSpace norm))).
Proof.
  unfold DetectLinkType. destruct (String.eqb _ ""); [done|].
  destruct (HasPrefix _ "http://" || HasPrefix _ "https://") eqn:Hh.
  - intros [= <-]. by apply orb_true_iff in Hh.
  - destruct (HasPrefix _ "magnet:?") eqn:Hm; [|done]. by intros [= <-].
Qed.

Lemma clamp_range n : 1 <= clamp_threads n <= 32.
Proof. unfold clamp_threads. destruct (n <=? 0) eqn:?; destruct (32 <? _) eqn:?; lia. Qed.

(** What the manager answers, and the task it makes. *)
Lemma start_cases le e now rand st opts st' a :
  StartDownloadWithOptions le now rand st opts = (st', a) ->
  known_folder e (dm_DB st) (do_FolderID opts) ->
  do_IsVault opts = dc_isVaultFolder e (dm_DB st) (do_FolderID opts) ->
  (do_IsVault opts = true -> getVaultKey e = Some (do_VaultKey opts)) ->
  match a with
  | Answer (t, j) => adds_task e (do_OwnerID opts) st t j st' /\ t_URL t = NormalizeLink (do_Link opts) /\
                     t_FolderID t = do_FolderID opts /\ t_ID t = task_id now rand
  | _ => st' = st
  end.
Proof.
  intros Hs Hf Hv Hk. revert Hs. unfold StartDownloadWithOptions.
  destruct (String.eqb _ ""); [by intros [= <- <-]|].
  destruct (DetectLinkType (NormalizeLink (do_Link opts))) as [ty|g] eqn:Ht; [|by intros [= <- <-]].
  apply detected_scheme in Ht.
  assert (Hgo : forall name, (let '(st1, r) := start_task now st (task_id now rand) (do_OwnerID opts) (do_FolderID opts)
                  (NormalizeLink (do_Link opts)) name ty (do_MaxThreads opts) in
                match dm_objs st1 !! r with
                | None => (st1, Panicked)
                | Some t => (st1, Answer (t, mkJob r (do_IsVault opts) (do_VaultKey opts)
                                               (negb (String.eqb (do_FilenameOverride opts) ""))))
                end) = (st', a) ->
    match a with
    | Answer (t, j) => adds_task e (do_OwnerID opts) st t j st' /\ t_URL t = NormalizeLink (do_Link opts) /\
                       t_FolderID t = do_FolderID opts /\ t_ID t = task_id now rand
    | _ => st' = st
    end).
  { intros name. unfold start_task. cbn [dm_objs]. rewrite lookup_insert_eq. intros [= <- <-].
    split; [|done]. repeat (split; [first [done | apply clamp_range
      | apply not_elem_of_dom, is_fresh]|]). done. }
  destruct (ResolveLink le 0 _) as [r|msg|]; [apply Hgo|apply Hgo|by intros [= <- <-]].
Qed.

Lemma known_target e db requested folder :
  dc_target_folder e db requested = inr folder ->
  known_folder e db folder /\ folder = if String.eqb requested "root" then "" else requested.
Proof.
  unfold dc_target_folder, known_folder. destruct (String.eqb requested "root"); [by intros [= <-]; split; [left|]|].
  destruct (is_one_of _ requested) eqn:H1.
  { intros [= <-]. split; [|done]. unfold is_one_of in H1. apply existsb_exists in H1 as (x & Hx & ->%String.eqb_eq).
    simpl in Hx. naive_solver. }
  destruct db as [d|]; [|intros [= <-]; split; [tauto|done]].
  destruct (query_ok e) eqn:Hq; [|done]. destruct (existsb _ _) eqn:He; [|done]. intros [= <-].
  split; [|done]. do 5 right. exists d. split_and!; [done..|].
  apply existsb_exists in He as ([i p] & Hin & <-%String.eqb_eq). apply list_elem_of_In, list_elem_of_fmap.
  exists (i, p). by rewrite list_elem_of_In.
Qed.

Lemma refused_target e db requested r : dc_target_folder e db requested = inl r -> 400 <= code r.
Proof.
  unfold dc_target_folder. destruct (String.eqb requested "root"); [done|].
  destruct (is_one_of [""; "f1"; "f2"; "f3"] requested); [done|]. destruct db; [|done].
  destruct (_ && _); [done|]. by intros [= <-].
Qed.

Lemma refused_key e db folder r : target_key e db folder = inl r -> 400 <= code r.
Proof.
  unfold target_key. destruct (dc_isVaultFolder e db folder); [|done].
  destruct (getVaultKey e); [done|]. by intros [= <-].
Qed.

Lemma guarded_key e db folder isVault vk :
  target_key e db folder = inr (isVault, vk) ->
  isVault = dc_isVaultFolder e db folder /\ (isVault = true -> getVaultKey e = Some vk).
Proof.
  unfold target_key. destruct (dc_isVaultFolder e db folder); [|by intros [= <- <-]].
  destruct (getVaultKey e); [|done]. by intros [= <- <-].
Qed.

(** The links the manager can start. *)
Definition can_start (l : string) : bool :=
  negb (String.eqb (NormalizeLink l) "")
  && match DetectLinkType (NormalizeLink l) with Ok _ => true | Err _ => false end.

Lemma start_can_start le now rand st opts st' a :
  StartDownloadWithOptions le now rand st opts = (st', a) ->
  match a with Answer _ => can_start (do_Link opts) = true | Failure _ => can_start (do_Link opts) = false | Panicked => True end.
Proof.
  unfold StartDownloadWithOptions, can_start. destruct (String.eqb _ ""); [by intros [= <- <-]|].
  destruct (DetectLinkType _) as [ty|g]; [|by intros [= <- <-]].
  destruct (ResolveLink le 0 _) as [r|msg|]; [| |by intros [= <- <-]];
    unfold start_task; cbn [dm_objs]; rewrite lookup_insert_eq; by intros [= <- <-].
Qed.

Lemma start_links_cases le e draws owner folder links isVault vk st0 :
  known_folder e (dm_DB st0) folder -> isVault = dc_isVaultFolder e (dm_DB st0) folder ->
  (isVault = true -> getVaultKey e = Some vk) ->
  forall i st created st' a, adds_tasks e owner st0 created st ->
  start_links le draws i st owner folder links isVault vk created = (st', a) ->
  exists more, adds_tasks e owner st0 (created ++ more) st' /\
    (forall ts, a = Answer ts -> ts = created ++ more /\
       map (fun t => t_URL t.1) more = map NormalizeLink (List.filter can_start links) /\
       Forall (fun t => t_FolderID t.1 = folder) more) /\
    (forall msg, a <> Failure msg).
Proof.
  intros Hf Hv Hk. induction links as [|l links IH]; intros i st created st' a Hadd.
  { simpl. intros [= <- <-]. exists []. rewrite app_nil_r. split; [done|]. split; [|done]. by intros ts [= <-]. }
  cbn [start_links]. destruct (draws i) as [now rand].
  destruct (manager_StartDownload le now rand st owner folder l isVault vk) as [st1 b] eqn:Hm.
  unfold manager_StartDownload, StartDownloadWithFilename in Hm.
  pose proof (start_can_start _ _ _ _ _ _ _ Hm) as Hst. cbn [do_Link] in Hst.
  rewrite <- (adds_db _ _ _ _ _ Hadd) in Hf, Hv.
  pose proof (start_cases le e _ _ _ _ _ _ Hm Hf Hv Hk) as Hc. cbn [do_OwnerID do_Link do_FolderID] in Hc.
  rewrite (adds_db _ _ _ _ _ Hadd) in Hf, Hv.
  destruct b as [[t j]|msg|].
  - destruct Hc as (Ht & Hurl & Hfo & _). intros Hs.
    destruct (IH (S i) st1 (created ++ [(t, j)]) st' a) as (more & Hmore & Hans & Hne); [by eapply adds_snoc|done|].
    exists ((t, j) :: more). rewrite <- app_assoc in Hmore. split; [exact Hmore|]. split; [|done].
    intros ts Ha. destruct (Hans ts Ha) as (-> & Hl & Hfs). split; [by rewrite <- app_assoc|]. split; [|by constructor].
    simpl. rewrite Hst. simpl. by rewrite Hl, Hurl.
  - subst st1. intros Hs. destruct (IH (S i) st created st' a Hadd Hs) as (more & Hmore & Hans & Hne).
    exists more. split; [done|]. split; [|done]. intros ts Ha. destruct (Hans ts Ha) as (-> & Hl & Hfs).
    split; [done|]. split; [|done]. simpl. by rewrite Hst.
  - subst st1. intros [= <- <-]. exists []. rewrite app_nil_r. split; [done|]. by split.
Qed.

(** Starting a download changes nothing unless it is accepted.  An
    accepted one is one new task of the requesting user beside the others, in
    a folder that exists, downloading an http, https or magnet link with 1 to
    32 threads; its payload is encrypted under the unlocked key of the vault
    exactly when the folder lies in the vault, and a locked vault refuses. *)
Theorem start_download_is_guarded le e st bind st' reply :
  StartDownload le e st bind = (st', reply) ->
  match reply with
  | Accepted tasks =>
      exists t j req, tasks = [(t, j)] /\ bind = Some req /\ adds_task e (GetUserID (user_id e)) st t j st' /\
        t_FolderID t = (if String.eqb (sr_FolderID req) "root" then "" else sr_FolderID req) /\
        t_URL t = NormalizeLink (NormalizeLink (sr_URL req)) /\
        IsDownloadLink (NormalizeLink (sr_URL req)) = true
  | Reply r => st' = st /\ 400 <= code r
  | Crashed => st' = st
  end.
Proof.
  unfold StartDownload. destruct bind as [req|]; [|by intros [= <- <-]].
  destruct (IsDownloadLink _) eqn:Hd; [|by intros [= <- <-]]. cbn [negb].
  destruct (dc_target_folder e (dm_DB st) (sr_FolderID req)) as [r|folder] eqn:Hf.
  { intros [= <- <-]. split; [done|]. by eapply refused_target. }
  apply known_target in Hf as [Hf ->].
  destruct (target_key e (dm_DB st) _) as [r|[isVault vk]] eqn:Hk.
  { intros [= <- <-]. split; [done|]. by eapply refused_key. }
  apply guarded_key in Hk as [Hv Hk].
  destruct (StartDownloadWithOptions _ _ _ _ _) as [st1 a] eqn:Hs.
  pose proof (start_cases le e _ _ _ _ _ _ Hs Hf Hv Hk) as Hc. cbn [do_OwnerID do_Link do_FolderID] in Hc.
  destruct a as [[t j]|msg|]; intros [= <- <-]; [|by subst st1..].
  destruct Hc as (Ht & Hurl & Hfo & _). exists t, j, req. done.
Qed.

(** A batch starts one task for each of its links that can be started, in
    their order and each guarded like a single download; a refused batch
    starts none.  (A link whose resolution panics ends the batch after the
    tasks of the links before it.) *)
Theorem batch_starts_each_link le draws e st bind st' reply :
  StartBatchDownload le draws e st bind = (st', reply) ->
  match reply with
  | Accepted tasks =>
      adds_tasks e (GetUserID (user_id e)) st tasks st' /\ tasks <> [] /\
      exists req urls, bind = Some req /\ batch_links req = inr urls /\
        map (fun t => t_URL t.1) tasks = map NormalizeLink (List.filter can_start urls) /\
        Forall (fun t => t_FolderID t.1 = if String.eqb (br_FolderID req) "root" then "" else br_FolderID req) tasks
  | Reply r => st' = st /\ 400 <= code r
  | Crashed => exists tasks, adds_tasks e (GetUserID (user_id e)) st tasks st'
  end.
Proof.
  unfold StartBatchDownload. destruct bind as [req|]; [|by intros [= <- <-]].
  destruct (batch_links req) as [msg|urls] eqn:Hl; [by intros [= <- <-]|].
  destruct (dc_target_folder e (dm_DB st) (br_FolderID req)) as [r|folder] eqn:Hf.
  { intros [= <- <-]. split; [done|]. by eapply refused_target. }
  apply known_target in Hf as [Hf ->].
  destruct (target_key e (dm_DB st) _) as [r|[isVault vk]] eqn:Hk.
  { intros [= <- <-]. split; [done|]. by eapply refused_key. }
  apply guarded_key in Hk as [Hv Hk]. unfold manager_StartBatchDownload.
  destruct (start_links _ _ _ _ _ _ _ _ _ _) as [st1 a] eqn:Hs.
  destruct (start_links_cases le e draws (GetUserID (user_id e)) _ urls isVault vk st Hf Hv Hk 0%nat st [] st1 a)
    as (more & Hmore & Hans & Hne); [constructor|done|].
  destruct a as [ts|msg|].
  - destruct (Hans ts eq_refl) as (-> & Hurls & Hfo). simpl app in *.
    destruct more as [|t more]; intros [= <- <-].
    + inversion Hmore. done.
    + split; [done|]. split; [done|]. by exists req, urls.
  - by destruct (Hne msg).
  - intros [= <- <-]. by exists more.
Qed.

End NewTasks.

(** ** Crashes a link or a server can cause *)

(** The first eight characters of a Google Drive identifier are taken without
    looking at its length: a shorter one makes every handler that resolves the
    link panic. *)
Example short_drive_id_crashes `{CryptoPrims} le e st folder :
  dc_target_folder e (dm_DB st) "" = inr folder -> target_key e (dm_DB st) folder = inr (false, []) ->
  StartDownload le e st (Some (mkStart "https://drive.google.com/open?id=abc" "" "" 0)) = (st, Crashed) /\
  ParseLink le (Some "https://drive.google.com/open?id=abc") = Panicked.
Proof.
  intros Hf Hk. split; [|by vm_compute]. unfold StartDownload. cbn [sr_URL sr_FolderID sr_Filename sr_MaxThreads].
  change (IsDownloadLink (NormalizeLink "https://drive.google.com/open?id=abc")) with true. cbn [negb].
  rewrite Hf, Hk. unfold StartDownloadWithOptions. cbn [do_Link].
  by change (ResolveLink le 0 (NormalizeLink (NormalizeLink "https://drive.google.com/open?id=abc"))) with Panic.
Qed.

(** A server that answers the probe with a total of an exbibyte or more: the
    size cannot be formatted, and the handler panics. *)
Definition huge_env : link_env :=
  mkLinkEnv open_net 1700000000 (fun _ => None) (fun _ => "")
    (fun _ req => Some (mkHttp 206 (target req)
       (fun h => if String.eqb h "Content-Range" then "bytes 0-0/1152921504606846976" else "") 1 [0] None)).

Example huge_total_crashes_probe :
  ParseLink huge_env (Some "https://a.org/x.zip") = Panicked.
Proof. by vm_compute. Qed.

(** The path of a repository's page is decoded and put into the new link as
    it is: an escaped [#] becomes the start of a fragment, so another file is
    asked for. *)
Example repository_link_loses_escape le n :
  exists r, ResolveLink le n "https://github.com/o/r/blob/main/notes%23.txt" = Resolved r /\
    ResolvedURL r = "https://raw.githubusercontent.com/o/r/main/notes#.txt" /\
    option_map u_Path (Parse (ResolvedURL r)) = Some "/o/r/main/notes".
Proof. eexists. split; [reflexivity|]. by vm_compute. Qed.

(** ** Witnesses *)

Section StartWitnesses.
Import ToyCrypto.

Definition started_env : req_env :=
  mkReqEnv (env_fine 5000000000) [1; 2; 3; 4] (mkStore {["sess" := mkEntry 0%nat 9000000000]} {[0%nat := replicate 32 9]})
    (Some "sess") (Some 7) None false (Some (replicate 32 7)) 0 true true true 1000 (fun l => l).

Definition empty_manager : dm_state :=
  mkDM "tmp" (mkCAS "cas" ∅) (Some (mkDB [("d1", Some "f2")] [])) ∅ ∅ ∅.

Lemma start_download_is_guarded_witness :
  exists st' t j, StartDownload huge_env started_env empty_manager (Some (mkStart "https://a.org/x.zip" "d1" "" 50))
      = (st', Accepted [(t, j)]) /\
    t_OwnerID t = 7 /\ 1 <= t_MaxThreads t <= 32 /\ getVaultKey started_env = Some (j_vaultKey j).
Proof.
  destruct (StartDownload huge_env started_env empty_manager (Some (mkStart "https://a.org/x.zip" "d1" "" 50)))
    as [st' reply] eqn:Hs.
  pose proof (start_download_is_guarded huge_env started_env empty_manager _ st' reply Hs) as H.
  destruct reply as [r|tasks|]; [vm_compute in Hs; discriminate| |vm_compute in Hs; discriminate].
  destruct H as (t & j & req & -> & _ & (_ & _ & Ho & Hm & _ & _ & _ & _ & Hv & Hk) & Hf & _).
  exists st', t, j. split; [done|]. split; [exact Ho|]. split; [exact Hm|]. apply Hk. rewrite Hv.
  vm_compute in Hs. injection Hs as <- <- <-. by vm_compute.
Defined.

Lemma batch_starts_each_link_witness :
  exists st' tasks, StartBatchDownload huge_env (fun i => (5000000000, [Z.of_nat i])) started_env empty_manager
      (Some (mkBatch "https://a.org/x[1-3].zip" [] "")) = (st', Accepted tasks) /\
    map (fun t => t_URL t.1) tasks = ["https://a.org/x1.zip"; "https://a.org/x2.zip"; "https://a.org/x3.zip"].
Proof.
  destruct (StartBatchDownload huge_env (fun i => (5000000000, [Z.of_nat i])) started_env empty_manager
      (Some (mkBatch "https://a.org/x[1-3].zip" [] ""))) as [st' reply] eqn:Hs.
  pose proof (batch_starts_each_link huge_env _ started_env empty_manager _ st' reply Hs) as H.
  destruct reply as [r|tasks|]; [vm_compute in Hs; discriminate| |vm_compute in Hs; discriminate].
  destruct H as (_ & _ & req & urls & [= <-] & Hl & Hu & _). exists st', tasks. split; [done|].
  rewrite Hu. vm_compute in Hl. injection Hl as <-. by vm_compute.
Defined.

End StartWitnesses.
