(* ===== verification/Preview.v ===== *)
(** * Showing a file in the browser (internal/controllers/file_controller.go)

    PreviewFile: the handler of DownloadFile with an inline disposition, a
    shorter cache time, no If-Range, and without the row's created_at, which
    its query does not select.  ThumbnailFile ends in it for some images, with
    headers of its own already set. *)

From S2P Require Import Prelude GoStrings FileSys CryptoPrims CryptoStream CryptoVault CAS VaultTree Auth UploadCtrl FileDownload.

#[local] Open Scope string_scope.
#[local] Open Scope list_scope.
#[local] Open Scope Z_scope.

Section Preview.
Context `{CryptoPrims}.

(** [f.CreatedAt] keeps its zero value. *)
Definition created_unread (q : download_request) : download_request :=
  mkDownload (dr_id q) (dr_head q) (dr_if_none_match q) (dr_if_modified_since q) (dr_range q)
    (dr_if_range q) "" (parse_created q) (parse_http_time q) (format_http_time q).

Definition no_store : list (string * string) :=
  [("Cache-Control", "private, no-store, no-cache, must-revalidate"); ("Pragma", "no-cache")].

Definition preview_headers (q : download_request) (r : file_row) (isVault : bool) : list (string * string) :=
  [("ETag", etag_of r); ("Accept-Ranges", "bytes"); ("Content-Type", fr_mime r);
   ("Content-Disposition", "inline; filename=" +:+ quote +:+ safe_name (fr_name r) +:+ quote)]
  ++ (if isVault then no_store
      else [("Cache-Control", "private, no-transform, max-age=3600, must-revalidate")])
  ++ match last_modified q with Some lm => [("Last-Modified", format_http_time q lm)] | None => [] end.

(** The stand-in for a blob that cannot be opened. *)
Definition preview_mock (q : download_request) (r : file_row) (h : list (string * string)) : download_response :=
  let mockBody := bytes_of_string ("Content of " +:+ fr_name r) in
  let totalSize := zlen mockBody in
  let whole := mkDResp 200 (h ++ [("Content-Length", FormatInt totalSize); ("Content-Type", fr_mime r)]) mockBody in
  if negb (String.eqb (dr_range q) "") then
    match parseRangeHeader (dr_range q) totalSize with
    | (s, e, true, true) =>
        mkDResp 206 (h ++ [("Content-Range", content_range s e totalSize);
                           ("Content-Length", FormatInt (e - s + 1))])
          (ztake (e + 1 - s) (zdrop s mockBody))
    | (_, _, false, true) => unsatisfiable h totalSize
    | _ => whole
    end
  else whole.

Definition preview_locked : string := "Vault locked. Master password required to preview this file.".

(** IsVaultFolder on the rows, with the cache it may refresh. *)
Definition check_vault (e : req_env) (st : fc_state) (r : file_row) : fc_state * bool :=
  let '(cache, isVault) := IsVaultFolder (Some (if query_ok e then Some (folders (fc_DB st)) else None))
                             (fc_cache st) (default "" (fr_folder r)) in
  (mkFC (fc_DB st) (fc_CAS st) (fc_fs st) cache, isVault).

(** os.Open on the blob, when there is a store. *)
Definition open_blob (e : req_env) (st : fc_state) (r : file_row) : option bytes :=
  match fc_CAS st with
  | Some c => match fs_read (os e) (fc_fs st) (Path c (fr_cas r)) with Ok b => Some b | Err _ => None end
  | None => None
  end.

(** [set]: headers the caller has set on the response before. *)
Definition PreviewFile (e : req_env) (st : fc_state) (set : list (string * string)) (q0 : download_request)
  : fc_state * download_response :=
  let error c msg := mkDResp c set (bytes_of_string msg) in
  match find_file e (fc_DB st) (dr_id q0) (GetUserID (user_id e)) with
  | None => (st, error 404 "File not found")
  | Some r =>
      let '(st, isVault) := check_vault e st r in
      if isVault && negb (isVaultUnlocked e) then (st, error 401 preview_locked)
      else
        let q := created_unread q0 in
        let h := set ++ preview_headers q r isVault in
        if not_modified q (etag_of r) then (st, mkDResp 304 h [])
        else if dr_head q then (st, mkDResp 200 (h ++ [("Content-Length", FormatInt (fr_size r))]) [])
        else
          match open_blob e st r with
          | None => (st, preview_mock q r h)
          | Some data =>
              match content_key e isVault with
              | None => (st, mkDResp 401 h (bytes_of_string preview_locked))
              | Some vk =>
                  if negb (String.eqb (dr_range q) "") then
                    match parseRangeHeader (dr_range q) (fr_size r) with
                    | (_, _, false, true) => (st, unsatisfiable h (fr_size r))
                    | (s, en, true, true) =>
                        (st, send_content (h ++ [("Content-Range", content_range s en (fr_size r))])
                               data isVault vk s (en - s + 1) true)
                    | _ => (st, send_content h data isVault vk 0 (fr_size r) false)
                    end
                  else (st, send_content h data isVault vk 0 (fr_size r) false)
              end
          end
  end.

End Preview.
