(* ===== verification/Svg.v ===== *)
(** * Drawn thumbnails (internal/controllers/file_controller.go)

    The SVG pictures the thumbnail handler falls back to, with the name of the
    file and its first lines of text in them.  The templates are the source's;
    a back quote stands for a double quote in them. *)

From S2P Require Import Prelude GoStrings FileInfo GoURL.

#[local] Open Scope string_scope.
#[local] Open Scope Z_scope.

(** A template of the source. *)
Definition dq (s : string) : string := replace_char "`" (String (ascii_of_byte 34) "") s.

(** html.EscapeString *)
Definition escape_char (a : Ascii.ascii) : string :=
  if Ascii.eqb a "&" then "&amp;"
  else if Ascii.eqb a "'" then "&#39;"
  else if Ascii.eqb a "<" then "&lt;"
  else if Ascii.eqb a ">" then "&gt;"
  else if Ascii.eqb a (ascii_of_byte 34) then "&#34;"
  else String a "".

Fixpoint EscapeString (s : string) : string :=
  match s with
  | "" => ""
  | String a s => escape_char a +:+ EscapeString s
  end.

(** [if len(s) > max { s = s[:max-3] + "..." }] *)
Definition shorten (max : nat) (s : string) : string :=
  if (max <? String.length s)%nat then slice s 0 (max - 3) +:+ "..." else s.

(** The name as it is drawn: escaped, then cut. *)
Definition drawn_name (name : string) : string := shorten 22 (EscapeString name).

Definition generatePdfSvgThumbnail (name : string) : string :=
  dq "<svg width=`200` height=`260` viewBox=`0 0 200 260` fill=`none` xmlns=`http://www.w3.org/2000/svg`>
  <rect x=`8` y=`8` width=`184` height=`244` rx=`8` fill=`#FFFFFF` stroke=`#E5E7EB` stroke-width=`2`/>
  <rect x=`22` y=`24` width=`44` height=`20` rx=`4` fill=`#EF4444`/>
  <text x=`44` y=`38` fill=`#FFFFFF` font-family=`-apple-system, BlinkMacSystemFont, 'Segoe UI', Roboto, sans-serif` font-size=`11` font-weight=`bold` text-anchor=`middle`>PDF</text>
  <text x=`22` y=`66` fill=`#1F2937` font-family=`-apple-system, BlinkMacSystemFont, 'Segoe UI', Roboto, sans-serif` font-size=`12` font-weight=`600`>"
  +:+ drawn_name name +:+ dq "</text>
  <rect x=`22` y=`82` width=`156` height=`6` rx=`3` fill=`#E5E7EB`/>
  <rect x=`22` y=`96` width=`138` height=`6` rx=`3` fill=`#E5E7EB`/>
  <rect x=`22` y=`110` width=`148` height=`6` rx=`3` fill=`#E5E7EB`/>
  <rect x=`22` y=`124` width=`115` height=`6` rx=`3` fill=`#E5E7EB`/>
  <rect x=`22` y=`146` width=`156` height=`6` rx=`3` fill=`#E5E7EB`/>
  <rect x=`22` y=`160` width=`142` height=`6` rx=`3` fill=`#E5E7EB`/>
  <rect x=`22` y=`174` width=`130` height=`6` rx=`3` fill=`#E5E7EB`/>
  <rect x=`22` y=`188` width=`85` height=`6` rx=`3` fill=`#E5E7EB`/>
  <rect x=`22` y=`206` width=`156` height=`34` rx=`4` fill=`#F9FAFB` stroke=`#E5E7EB` stroke-width=`1.2`/>
  <line x1=`22` y1=`223` x2=`178` y2=`223` stroke=`#E5E7EB` stroke-width=`1.2`/>
  <line x1=`74` y1=`206` x2=`74` y2=`240` stroke=`#E5E7EB` stroke-width=`1.2`/>
  <line x1=`126` y1=`206` x2=`126` y2=`240` stroke=`#E5E7EB` stroke-width=`1.2`/>
</svg>".

Definition badge_color (ext : string) : string :=
  if is_one_of ["xls"; "xlsx"; "csv"] ext then "#10B981"
  else if is_one_of ["drawio"; "bkp"; "svg"] ext then "#F59E0B"
  else if is_one_of ["json"; "js"; "ts"; "go"; "py"; "sh"; "sql"; "html"; "css"] ext then "#8B5CF6"
  else if is_one_of ["md"; "txt"] ext then "#06B6D4"
  else "#3B82F6".

(** One line of text at height [y]. *)
Definition drawn_line (line : string) : string :=
  let trimmed := shorten 28 (trim_right_of (String carriage_return "") line) in
  let escapedLine := EscapeString trimmed in
  if String.eqb escapedLine "" then " " else escapedLine.

Definition svg_line (y : Z) (line : string) : string :=
  dq "<text x=`22` y=`" +:+ FormatInt y +:+ dq "` fill=`#4B5563` font-family=`'JetBrains Mono', monospace` font-size=`9`>"
  +:+ drawn_line line +:+ dq "</text>".

(** The loop over the lines: at most nine, and none below 230. *)
Fixpoint svg_lines (rawLines : list string) (y count : Z) : string :=
  match rawLines with
  | [] => ""
  | line :: rest =>
      let y' := y + 16 in
      let count' := count + 1 in
      svg_line y line +:+ (if (9 <=? count') || (230 <? y') then "" else svg_lines rest y' count')
  end.

Definition blank_lines : string :=
  dq "
  <rect x=`22` y=`82` width=`156` height=`6` rx=`3` fill=`#E5E7EB`/>
  <rect x=`22` y=`96` width=`138` height=`6` rx=`3` fill=`#E5E7EB`/>
  <rect x=`22` y=`110` width=`148` height=`6` rx=`3` fill=`#E5E7EB`/>
  <rect x=`22` y=`124` width=`115` height=`6` rx=`3` fill=`#E5E7EB`/>
  <rect x=`22` y=`146` width=`156` height=`6` rx=`3` fill=`#E5E7EB`/>
  <rect x=`22` y=`160` width=`142` height=`6` rx=`3` fill=`#E5E7EB`/>
  <rect x=`22` y=`174` width=`130` height=`6` rx=`3` fill=`#E5E7EB`/>
  <rect x=`22` y=`188` width=`85` height=`6` rx=`3` fill=`#E5E7EB`/>".

Definition text_lines (snippet : string) : string :=
  if negb (String.eqb (TrimSpace snippet) "") then svg_lines (split_on newline snippet) 86 0 else blank_lines.

(** The extension in capitals, at most five bytes of it. *)
Definition badge_text (ext : string) : string :=
  let upperExt := ToUpper ext in
  if (5 <? String.length upperExt)%nat then slice upperExt 0 5 else upperExt.

Definition generateDocumentSvgThumbnail (name ext snippet : string) : string :=
  dq "<svg width=`200` height=`260` viewBox=`0 0 200 260` fill=`none` xmlns=`http://www.w3.org/2000/svg`>
  <rect x=`8` y=`8` width=`184` height=`244` rx=`8` fill=`#FFFFFF` stroke=`#E5E7EB` stroke-width=`2`/>
  <rect x=`22` y=`24` width=`48` height=`20` rx=`4` fill=`"
  +:+ badge_color ext +:+ dq "`/>
  <text x=`46` y=`38` fill=`#FFFFFF` font-family=`-apple-system, BlinkMacSystemFont, 'Segoe UI', Roboto, sans-serif` font-size=`10` font-weight=`bold` text-anchor=`middle`>"
  +:+ badge_text ext +:+ dq "</text>
  <text x=`22` y=`66` fill=`#1F2937` font-family=`-apple-system, BlinkMacSystemFont, 'Segoe UI', Roboto, sans-serif` font-size=`12` font-weight=`600`>"
  +:+ drawn_name name +:+ dq "</text>
  "
  +:+ text_lines snippet +:+ dq "
</svg>".

Definition office_color (ext : string) : string :=
  if is_one_of ["xlsx"; "xls"; "ods"] ext then "#217346" else "#2B579A".

Definition slide_svg (name : string) : string :=
  dq "<svg width=`240` height=`150` viewBox=`0 0 240 150` fill=`none` xmlns=`http://www.w3.org/2000/svg`>
  <rect x=`6` y=`6` width=`228` height=`138` rx=`8` fill=`#FFFFFF` stroke=`#E5E7EB` stroke-width=`2`/>
  <rect x=`6` y=`6` width=`228` height=`34` rx=`8` fill=`#D24726`/>
  <rect x=`6` y=`24` width=`228` height=`16` fill=`#D24726`/>
  <rect x=`18` y=`14` width=`46` height=`18` rx=`3` fill=`#FFFFFF`/>
  <text x=`41` y=`27` fill=`#D24726` font-family=`-apple-system, BlinkMacSystemFont, 'Segoe UI', Roboto, sans-serif` font-size=`10` font-weight=`bold` text-anchor=`middle`>PPTX</text>
  <text x=`74` y=`27` fill=`#FFFFFF` font-family=`-apple-system, BlinkMacSystemFont, 'Segoe UI', Roboto, sans-serif` font-size=`11` font-weight=`600`>"
  +:+ drawn_name name +:+ dq "</text>
  <!-- Presentation Slide Mock Graphic / Bullet Points -->
  <circle cx=`26` cy=`62` r=`3` fill=`#D24726`/>
  <rect x=`36` y=`59` width=`130` height=`6` rx=`3` fill=`#D1D5DB`/>
  <circle cx=`26` cy=`80` r=`3` fill=`#D24726`/>
  <rect x=`36` y=`77` width=`150` height=`6` rx=`3` fill=`#D1D5DB`/>
  <circle cx=`26` cy=`98` r=`3` fill=`#D24726`/>
  <rect x=`36` y=`95` width=`110` height=`6` rx=`3` fill=`#D1D5DB`/>
  <!-- Mini slide card / illustration -->
  <rect x=`180` y=`56` width=`44` height=`46` rx=`4` fill=`#F3F4F6` stroke=`#E5E7EB`/>
  <rect x=`186` y=`72` width=`10` height=`24` rx=`2` fill=`#D24726` opacity=`0.6`/>
  <rect x=`200` y=`64` width=`10` height=`32` rx=`2` fill=`#D24726`/>
  <text x=`218` y=`132` fill=`#9CA3AF` font-family=`-apple-system, BlinkMacSystemFont, 'Segoe UI', Roboto, sans-serif` font-size=`9` text-anchor=`end`>Slide 1</text>
</svg>".

Definition page_svg (name ext : string) : string :=
  dq "<svg width=`200` height=`260` viewBox=`0 0 200 260` fill=`none` xmlns=`http://www.w3.org/2000/svg`>
  <rect x=`8` y=`8` width=`184` height=`244` rx=`8` fill=`#FFFFFF` stroke=`#E5E7EB` stroke-width=`2`/>
  <rect x=`22` y=`24` width=`48` height=`20` rx=`4` fill=`"
  +:+ office_color ext +:+ dq "`/>
  <text x=`46` y=`38` fill=`#FFFFFF` font-family=`-apple-system, BlinkMacSystemFont, 'Segoe UI', Roboto, sans-serif` font-size=`10` font-weight=`bold` text-anchor=`middle`>"
  +:+ ToUpper ext +:+ dq "</text>
  <text x=`22` y=`66` fill=`#1F2937` font-family=`-apple-system, BlinkMacSystemFont, 'Segoe UI', Roboto, sans-serif` font-size=`12` font-weight=`600`>"
  +:+ drawn_name name +:+ dq "</text>
  <rect x=`22` y=`82` width=`156` height=`6` rx=`3` fill=`#E5E7EB`/>
  <rect x=`22` y=`96` width=`138` height=`6` rx=`3` fill=`#E5E7EB`/>
  <rect x=`22` y=`110` width=`148` height=`6` rx=`3` fill=`#E5E7EB`/>
  <rect x=`22` y=`124` width=`115` height=`6` rx=`3` fill=`#E5E7EB`/>
  <rect x=`22` y=`146` width=`156` height=`6` rx=`3` fill=`#E5E7EB`/>
  <rect x=`22` y=`160` width=`142` height=`6` rx=`3` fill=`#E5E7EB`/>
  <rect x=`22` y=`174` width=`130` height=`6` rx=`3` fill=`#E5E7EB`/>
  <rect x=`22` y=`188` width=`85` height=`6` rx=`3` fill=`#E5E7EB`/>
</svg>".

Definition generateOfficeSvgThumbnail (name ext : string) : string :=
  if is_one_of ["pptx"; "ppt"; "odp"] ext then slide_svg name else page_svg name ext.

(** ** Properties of drawn thumbnails

    Whatever a file is called and whatever its text says, the drawing has the
    same markup: a name cannot add an element, an attribute or a script to it.
    An extension can, since it is drawn as it is. *)

(** ** The markup of a drawing *)

(** The characters that open and close elements and attribute values. *)
Definition markup_char (a : Ascii.ascii) : bool :=
  Ascii.eqb a "<" || Ascii.eqb a ">" || Ascii.eqb a "'" || Ascii.eqb a (ascii_of_byte 34).

Fixpoint skeleton (s : string) : string :=
  match s with
  | "" => ""
  | String a s => if markup_char a then String a (skeleton s) else skeleton s
  end.

(** Text that only shows. *)
Definition inert (s : string) : Prop := skeleton s = "".

#[local] Instance inert_dec s : Decision (inert s).
Proof. unfold inert. apply _. Defined.

Lemma skeleton_app s t : skeleton (s +:+ t) = skeleton s +:+ skeleton t.
Proof.
  induction s as [|a s IH]; [done|]. rewrite string_app_cons. cbn [skeleton]. rewrite IH.
  by destruct (markup_char a).
Qed.

Lemma inert_cons a s : inert (String a s) <-> markup_char a = false /\ inert s.
Proof. unfold inert. cbn [skeleton]. destruct (markup_char a); naive_solver. Qed.

Lemma inert_app s t : inert s -> inert t -> inert (s +:+ t).
Proof. unfold inert. rewrite skeleton_app. by intros -> ->. Qed.

Lemma inert_substring s : forall n m, inert s -> inert (String.substring n m s).
Proof.
  induction s as [|a s IH]; intros n m Hs; [by destruct n, m|].
  apply inert_cons in Hs as [Ha Hs]. destruct n as [|n]; [destruct m as [|m]|]; cbn; [done| |by apply IH].
  apply inert_cons. split; [done|by apply IH].
Qed.

Lemma inert_shorten k s : inert s -> inert (shorten k s).
Proof.
  intros Hs. unfold shorten. destruct (_ <? _)%nat; [|done].
  apply inert_app; [by apply inert_substring|done].
Qed.

Lemma escape_char_inert a : inert (escape_char a).
Proof. destruct a as [[] [] [] [] [] [] [] []]; vm_compute; reflexivity. Qed.

Lemma EscapeString_inert s : inert (EscapeString s).
Proof. induction s as [|a s IH]; [done|]. cbn [EscapeString]. apply inert_app; [apply escape_char_inert|done]. Qed.

Lemma upper_ascii_markup a : markup_char (upper_ascii a) = markup_char a.
Proof. destruct a as [[] [] [] [] [] [] [] []]; vm_compute; reflexivity. Qed.

Lemma ToUpper_inert s : inert s -> inert (ToUpper s).
Proof.
  induction s as [|a s IH]; [done|]. intros [Ha Hs]%inert_cons. cbn [ToUpper].
  apply inert_cons. rewrite upper_ascii_markup. auto.
Qed.

Lemma badge_text_inert ext : inert ext -> inert (badge_text ext).
Proof.
  intros He%ToUpper_inert. unfold badge_text. destruct (_ <? _)%nat; [|done]. by apply inert_substring.
Qed.

Lemma drawn_name_inert name : inert (drawn_name name).
Proof. apply inert_shorten, EscapeString_inert. Qed.

Lemma drawn_line_inert line : inert (drawn_line line).
Proof. unfold drawn_line. destruct (String.eqb _ ""); [done|apply EscapeString_inert]. Qed.

Lemma badge_color_inert ext : inert (badge_color ext).
Proof. unfold badge_color. by repeat destruct (is_one_of _ ext). Qed.

Lemma office_color_inert ext : inert (office_color ext).
Proof. unfold office_color. by destruct (is_one_of _ ext). Qed.

#[local] Hint Resolve drawn_name_inert drawn_line_inert badge_color_inert office_color_inert badge_text_inert
  ToUpper_inert : hornetz.

(** Replacing inert text by inert text. *)
Lemma skeleton_swap a t u b : inert t -> inert u -> skeleton (a +:+ t +:+ b) = skeleton (a +:+ u +:+ b).
Proof. unfold inert. rewrite !skeleton_app. by intros -> ->. Qed.

(** ** The lines of text *)

Lemma svg_line_skeleton y l1 l2 : skeleton (svg_line y l1) = skeleton (svg_line y l2).
Proof. unfold svg_line. rewrite !skeleton_app. by rewrite !(drawn_line_inert _). Qed.

Lemma svg_lines_skeleton ls1 : forall ls2 y c, length ls1 = length ls2 ->
  skeleton (svg_lines ls1 y c) = skeleton (svg_lines ls2 y c).
Proof.
  induction ls1 as [|l1 ls1 IH]; intros [|l2 ls2] y c Hl; [done..|]. cbn [svg_lines].
  rewrite !skeleton_app, (svg_line_skeleton y l1 l2). f_equal.
  destruct (_ || _); [done|]. apply IH. by injection Hl.
Qed.

(** What the loop draws: the first nine lines, sixteen apart. *)
Lemma svg_lines_first ls : forall c, 0 <= c < 9 ->
  svg_lines ls (86 + 16 * c) c =
  String.concat "" (zip_with svg_line ((fun i => 86 + 16 * i) <$> seqZ c (9 - c)) ls).
Proof.
  induction ls as [|l ls IH]; intros c Hc; cbn [svg_lines].
  - by rewrite zip_with_nil_r.
  - rewrite seqZ_cons by lia. cbn [fmap list_fmap zip_with].
    assert (forall x l', String.concat "" (x :: l') = x +:+ String.concat "" l') as Hcc.
    { intros x [|z l']; cbn; [|done]. clear. by induction x as [|a x IHx]; [|rewrite string_app_cons, <- IHx]. }
    rewrite Hcc. f_equal.
    destruct (Z.leb_spec 9 (c + 1)) as [H9|H9]; cbn [orb].
    + replace (Z.pred (9 - c)) with 0 by lia. done.
    + destruct (Z.ltb_spec 230 (86 + 16 * c + 16)); [lia|].
      replace (86 + 16 * c + 16) with (86 + 16 * (c + 1)) by lia. rewrite IH by lia.
      unfold Z.succ. by replace (9 - (c + 1)) with (Z.pred (9 - c)) by lia.
Qed.

(** ** The claims *)

(** A drawn thumbnail's markup does not depend on the file's name or on
    its text: two drawings with as many lines differ in no character that opens or
    closes an element or an attribute, for any names, any texts and any
    extensions without such characters. *)
Theorem drawn_markup_is_fixed n1 n2 x1 x2 s1 s2 :
  inert x1 -> inert x2 ->
  skeleton (generatePdfSvgThumbnail n1) = skeleton (generatePdfSvgThumbnail n2) /\
  (is_one_of ["pptx"; "ppt"; "odp"] x1 = is_one_of ["pptx"; "ppt"; "odp"] x2 ->
   skeleton (generateOfficeSvgThumbnail n1 x1) = skeleton (generateOfficeSvgThumbnail n2 x2)) /\
  (String.eqb (TrimSpace s1) "" = String.eqb (TrimSpace s2) "" ->
   length (split_on newline s1) = length (split_on newline s2) ->
   skeleton (generateDocumentSvgThumbnail n1 x1 s1) = skeleton (generateDocumentSvgThumbnail n2 x2 s2)).
Proof.
  intros Hx1 Hx2. split; [|split].
  - unfold generatePdfSvgThumbnail. apply skeleton_swap; auto with hornetz.
  - intros Hp. unfold generateOfficeSvgThumbnail. rewrite Hp. destruct (is_one_of _ x2).
    + unfold slide_svg. apply skeleton_swap; auto with hornetz.
    + unfold page_svg. rewrite !skeleton_app.
      pose proof (ToUpper_inert x1 Hx1) as Hu1. pose proof (ToUpper_inert x2 Hx2) as Hu2.
      by rewrite !(office_color_inert _), !(drawn_name_inert _), Hu1, Hu2.
  - intros Ht Hl. unfold generateDocumentSvgThumbnail. rewrite !skeleton_app.
    pose proof (badge_text_inert x1 Hx1) as Hb1. pose proof (badge_text_inert x2 Hx2) as Hb2.
    rewrite !(badge_color_inert _), !(drawn_name_inert _), Hb1, Hb2.
    unfold text_lines. rewrite Ht. destruct (String.eqb (TrimSpace s2) ""); cbn [negb]; [done|].
    by rewrite (svg_lines_skeleton _ _ 86 0 Hl).
Qed.

(** An extension is drawn as it is: the name ["x.<a>"], which a text file may
    have, adds an element that nothing closes. *)
Lemma extension_adds_markup :
  exists name, IsPreviewable name "text/plain" = true /\
    skeleton (generateDocumentSvgThumbnail name (ToLower (getFileExt name)) "") <>
    skeleton (generateDocumentSvgThumbnail name "txt" "").
Proof. exists "x.<a>". split; [reflexivity|]. vm_compute. discriminate. Qed.

(** The name is cut after it was escaped, which may leave half an entity: the
    drawing is not well-formed XML. *)
Lemma cut_leaves_half_an_entity : drawn_name "annual report 2024 & plan.txt" = "annual report 2024 ..." /\
  drawn_name "annual report 24 & plan.txt" = "annual report 24 &a...".
Proof. split; reflexivity. Qed.

(** A line of a text is cut before it is escaped. *)
Lemma lines_are_cut_first : drawn_line "the quick brown fox jumps <over> the lazy dog" = "the quick brown fox jumps...".
Proof. reflexivity. Qed.

Lemma drawn_markup_is_fixed_witness :
  skeleton (generateDocumentSvgThumbnail "<script>alert(1)</script>.txt" "txt" "</svg><script>") =
  skeleton (generateDocumentSvgThumbnail "notes.txt" "txt" "hello").
Proof.
  destruct (drawn_markup_is_fixed "<script>alert(1)</script>.txt" "notes.txt" "txt" "txt" "</svg><script>" "hello")
    as (_ & _ & Hd); [reflexivity|reflexivity|]. apply Hd; reflexivity.
Defined.
