(* ===== verification/Thumbnail.v ===== *)
(** * Thumbnails (internal/controllers/file_controller.go)

    ThumbnailFile: pictures are scaled, documents rendered by an external
    program or taken out of their archive, and kept in the directory of
    thumbnails, in clear outside the vault and encrypted inside it; what
    cannot be rendered is drawn (Svg).  Decoding and encoding of images, the
    converter, the zip reader, the sniffing of types and the conditional
    answers of net/http are arguments. *)

From S2P Require Import Prelude GoStrings FileSys CryptoPrims CryptoStream CryptoVault CAS VaultTree Auth UploadCtrl FileDownload FileInfo Svg Preview.

#[local] Open Scope string_scope.
#[local] Open Scope list_scope.
#[local] Open Scope Z_scope.

(** ** resizeImage *)

(** A colour, as image.RGBA stores it: red, green, blue and alpha bytes. *)
Definition pixel : Type := Z * Z * Z * Z.

(** An image: the corner of its bounds, its size, and its colours. *)
Record image := mkImage { im_minX : Z; im_minY : Z; im_w : Z; im_h : Z; im_at : Z -> Z -> pixel }.

(** An image.RGBA with its corner at the origin: its rows. *)
Definition rgba : Type := list (list pixel).

Definition NewRGBA (w h : Z) : rgba := replicate (Z.to_nat h) (replicate (Z.to_nat w) (0, 0, 0, 0)).

Definition resizeImage (src : image) (targetWidth targetHeight : Z) : rgba :=
  if (im_w src <=? 0) || (im_h src <=? 0) || (targetWidth <=? 0) || (targetHeight <=? 0)
  then NewRGBA targetWidth targetHeight
  else
    map (fun y =>
      let srcY := im_minY src + (y * im_h src) / targetHeight in
      map (fun x => im_at src (im_minX src + (x * im_w src) / targetWidth) srcY) (seqZ 0 targetWidth))
      (seqZ 0 targetHeight).

Definition maxDim : Z := 256.

(** The size of the thumbnail of a [w] by [h] image. *)
Definition thumb_dims (w h : Z) : Z * Z :=
  let '(tw, th) :=
    if (maxDim <? w) || (maxDim <? h) then
      if h <? w then (maxDim, (h * maxDim) / w) else ((w * maxDim) / h, maxDim)
    else (w, h) in
  (if tw <=? 0 then 1 else tw, if th <=? 0 then 1 else th).

(** ** extractOfficeThumbnailBytes *)

(** An entry of an archive; [zf_read] is what opening and reading it gives
    ([None]: it does not open). *)
Record zip_file := mkZipFile { zf_name : string; UncompressedSize64 : Z; zf_read : option (bytes * option gerror) }.

Definition maxThumbSize : Z := 10 * 1024 * 1024.

(** The loop over the entries: the first thumbnail, with its type. *)
Fixpoint office_target (fs : list zip_file) : option (zip_file * string) :=
  match fs with
  | [] => None
  | f :: rest =>
      let lower := ToLower (zf_name f) in
      if String.eqb lower "docprops/thumbnail.jpeg" || String.eqb lower "docprops/thumbnail.jpg"
      then Some (f, "image/jpeg")
      else if String.eqb lower "docprops/thumbnail.png" then Some (f, "image/png")
      else office_target rest
  end.

(** io.ReadAll(io.LimitReader(rc, maxThumbSize+1)): a failure past the limit
    is not seen. *)
Definition read_limited (limit : Z) (content : bytes * option gerror) : bytes * option gerror :=
  let '(b, err) := content in (ztake limit b, if zlen b <? limit then err else None).

Definition extractOfficeThumbnailBytes (zip_files : bytes -> option (list zip_file)) (archive : bytes)
  : option (bytes * string) :=
  match zip_files archive with
  | None => None
  | Some entries =>
      match office_target entries with
      | None => None
      | Some (target, mimeType) =>
          if maxThumbSize <? UncompressedSize64 target then None
          else
            match zf_read target with
            | None => None
            | Some content =>
                match read_limited (maxThumbSize + 1) content with
                | (_, Some _) => None
                | (data, None) =>
                    if (zlen data =? 0) || (maxThumbSize <? zlen data) then None else Some (data, mimeType)
                end
            end
      end
  end.

Section Thumbnail.
Context `{CryptoPrims}.

(** ** State and environment *)

(** The controller and its cache of drawn thumbnails. *)
Record thumb_state := mkTS { ts_fc : fc_state; svgCache : gmap string bytes }.

Definition ts_fs (st : thumb_state) : FS := fc_fs (ts_fc st).

Definition set_fs (st : thumb_state) (fs : FS) : thumb_state :=
  mkTS (mkFC (fc_DB (ts_fc st)) (fc_CAS (ts_fc st)) fs (fc_cache (ts_fc st))) (svgCache st).

(** What a request meets: failures in the temporary directory and in that of
    the thumbnails, the clock's two readings, the nonce, and the libraries. *)
Record thumb_env := mkTE {
  te_tmp : os_env;
  te_dir : os_env;
  te_nano1 : Z;
  te_nano2 : Z;
  te_nonce : result bytes;
  (** [fc.ThumbDir] *)
  ThumbDir : string;
  (** image.Decode on a reader's bytes and the error they end in *)
  image_Decode : bytes -> option gerror -> option image;
  (** jpeg.Encode: the bytes written, and whether it succeeded *)
  jpeg_Encode : rgba -> bytes * bool;
  (** pdftoppm on a document: its exit, and the picture it leaves *)
  pdftoppm : bytes -> bool * option bytes;
  zip_files : bytes -> option (list zip_file);
  DetectContentType : bytes -> string;
  (** http.ServeContent with the headers set before, on a named file *)
  ServeContent : list (string * string) -> download_request -> string -> file -> download_response
}.

Definition thumb_dir (te : thumb_env) : string :=
  if String.eqb (ThumbDir te) "" then "storage/thumbnails" else ThumbDir te.

Definition thumb_path (te : thumb_env) (name : string) : string := Join [thumb_dir te; name].

(** [fc.CAS != nil && fc.CAS.Exists(f.CasHash)] *)
Definition blob_exists (st : thumb_state) (r : file_row) : thumb_state * bool :=
  match fc_CAS (ts_fc st) with
  | None => (st, false)
  | Some c =>
      let '(c', b) := Exists c (ts_fs st) (fr_cas r) in
      (mkTS (mkFC (fc_DB (ts_fc st)) (Some c') (ts_fs st) (fc_cache (ts_fc st))) (svgCache st), b)
  end.

(** The temporary files of a document.  The hash has 64 digits: the store
    knows no other. *)
Definition tmp_name (what : string) (r : file_row) (t : Z) (suffix : string) : string :=
  Join ["storage/tmp"; what +:+ slice (fr_cas r) 0 8 +:+ "_" +:+ FormatInt t +:+ suffix].

Definition copyBufSize : Z := 32 * 1024.

(** Decrypting a blob into a temporary file, up to a limit; the copy's error
    is dropped.  [None]: no stream or no file. *)
Definition decrypt_to_tmp (te : thumb_env) (limit : option Z) (data vk : bytes) (tmp : string) (fs : FS)
  : option FS :=
  match NewDecryptStream (os_file data 0) vk with
  | Err _ => None
  | Ok s =>
      if create_ok (te_tmp te) then
        let written := match copy_limited (copy_fuel (Decrypted s)) (Decrypted s) copyBufSize limit [] with
                       | Some (b, _) => b
                       | None => []
                       end in
        Some (fst (fs_write (te_tmp te) fs tmp written))
      else None
  end.

Definition contents (fs : FS) (p : string) : bytes := default [] (fs_data fs p).

(** ** Pictures *)

(** The body of the single flight "img_": decode, scale, write beside, rename. *)
Definition make_image_thumb (e : req_env) (te : thumb_env) (r : file_row) (vk : bytes) (cachedThumb : string)
    (st : thumb_state) : thumb_state :=
  if fs_exists (ts_fs st) cachedThumb then st
  else
    match blob_exists st r with
    | (st, false) => st
    | (st, true) =>
        match open_blob e (ts_fc st) r with
        | None => st
        | Some data =>
            match openContentReader data false vk 0 with
            | Err _ => st
            | Ok c =>
                let '(plain, err) := default ([], Some ErrUnexpectedEOF) (copy_limited (copy_fuel c) c copyBufSize None []) in
                match image_Decode te plain err with
                | None => st
                | Some img =>
                    if (im_w img <=? 0) || (im_h img <=? 0) then st
                    else
                      let '(thumbW, thumbH) := thumb_dims (im_w img) (im_h img) in
                      let '(out, ok) := jpeg_Encode te (resizeImage img thumbW thumbH) in
                      let tmpThumb := cachedThumb +:+ ".tmp" in
                      if create_ok (te_dir te) then
                        let '(fs1, werr) := fs_write (te_dir te) (ts_fs st) tmpThumb out in
                        let fs2 := if ok && bool_decide (werr = None)
                                   then default fs1 (fs_rename (te_dir te) fs1 tmpThumb cachedThumb)
                                   else fs1 in
                        set_fs st (fs_remove (te_dir te) fs2 tmpThumb)
                      else st
                end
            end
        end
    end.

(** serveThumb, and c.File on a cached file: its error is the answer given
    when the file does not open. *)
Definition serve_file (te : thumb_env) (set : list (string * string)) (q : download_request) (p : string)
    (otherwise : download_response) (st : thumb_state) : download_response :=
  match ts_fs st !! p with
  | Some f => if read_ok (te_dir te) then ServeContent te set q (Base p) f else otherwise
  | None => otherwise
  end.

Definition internal_error (set : list (string * string)) : download_response :=
  mkDResp 500 set (bytes_of_string "Internal Server Error").

Definition not_found_error (set : list (string * string)) : download_response :=
  mkDResp 404 set (bytes_of_string "Not Found").

Definition preview (e : req_env) (st : thumb_state) (set : list (string * string)) (q : download_request)
  : thumb_state * download_response :=
  let '(fc, resp) := PreviewFile e (ts_fc st) set q in (mkTS fc (svgCache st), resp).

Definition img_etag (r : file_row) : string := quote +:+ "thumb_" +:+ fr_cas r +:+ quote.

Definition image_thumbnail (e : req_env) (te : thumb_env) (st : thumb_state) (r : file_row) (vk : bytes)
    (q : download_request) : thumb_state * download_response :=
  let cachedThumb := thumb_path te ("img_" +:+ fr_cas r +:+ "_256.jpg") in
  let h := [("ETag", img_etag r); ("Cache-Control", "private, max-age=86400, stale-while-revalidate=604800");
            ("Content-Type", "image/jpeg")] in
  if negb (String.eqb (dr_if_none_match q) "")
     && (String.eqb (TrimPrefix (dr_if_none_match q) "W/") (img_etag r) || String.eqb (dr_if_none_match q) "*")
  then (st, mkDResp 304 h [])
  else if fs_exists (ts_fs st) cachedThumb
  then (st, serve_file te h q cachedThumb (internal_error h) st)
  else
    let st := make_image_thumb e te r vk cachedThumb st in
    if fs_exists (ts_fs st) cachedThumb
    then (st, serve_file te h q cachedThumb (internal_error h) st)
    else preview e st h q.

(** ** Documents of the vault *)

(** A body under the vault's headers. *)
Definition vault_blob (mime : string) (body : bytes) : download_response :=
  mkDResp 200 (no_store ++ [("Content-Type", mime)]) body.

Definition vault_enc_path (te : thumb_env) (r : file_row) : string := thumb_path te ("vault_" +:+ fr_cas r +:+ ".enc").

(** The encrypted thumbnail, when it is there and opens. *)
Definition vault_cached (te : thumb_env) (r : file_row) (vk : bytes) (st : thumb_state) : option bytes :=
  match fs_read (te_dir te) (ts_fs st) (vault_enc_path te r) with
  | Ok encBytes => match DecryptBlock encBytes vk with Ok decBytes => Some decBytes | Err _ => None end
  | Err _ => None
  end.

(** Encrypting a thumbnail beside the others; [None]: no encryption. *)
Definition store_encrypted (te : thumb_env) (r : file_row) (vk thumb : bytes) (fs : FS) : option FS :=
  match EncryptBlock (te_nonce te) thumb vk with
  | Ok encBytes => Some (fst (fs_write (te_dir te) fs (vault_enc_path te r) encBytes))
  | Err _ => None
  end.

Definition pdf_limit : Z := 10 * 1024 * 1024.
Definition tmp_pdf (te : thumb_env) (r : file_row) : string := tmp_name "thumb_pdf_" r (te_nano1 te) ".pdf".
Definition tmp_png (te : thumb_env) (r : file_row) : string := tmp_name "thumb_out_" r (te_nano2 te) "" +:+ ".png".
Definition tmp_zip (te : thumb_env) (r : file_row) : string := tmp_name "thumb_office_" r (te_nano1 te) ".zip".

(** Running the converter on the temporary document. *)
Definition run_pdftoppm (te : thumb_env) (r : file_row) (fs : FS) : FS * bool :=
  let '(ran, png) := pdftoppm te (contents fs (tmp_pdf te r)) in
  (match png with Some b => <[tmp_png te r := mkFile b (env_now (te_tmp te))]> fs | None => fs end, ran).

Definition remove_both (te : thumb_env) (p q : string) (fs : FS) : FS :=
  fs_remove (te_tmp te) (fs_remove (te_tmp te) fs p) q.

(** The body of the single flight "pdf_vault_". *)
Definition make_vault_pdf (e : req_env) (te : thumb_env) (r : file_row) (vk : bytes) (st : thumb_state) : thumb_state :=
  if fs_exists (ts_fs st) (vault_enc_path te r) then st
  else
    match open_blob e (ts_fc st) r with
    | None => st
    | Some data =>
        match decrypt_to_tmp te (Some pdf_limit) data vk (tmp_pdf te r) (ts_fs st) with
        | None => st
        | Some fs1 =>
            let '(fs2, ran) := run_pdftoppm te r fs1 in
            if ran && fs_exists fs2 (tmp_png te r) then
              let png := fs_read (te_tmp te) fs2 (tmp_png te r) in
              let fs3 := remove_both te (tmp_png te r) (tmp_pdf te r) fs2 in
              match png with
              | Ok pngBytes =>
                  match store_encrypted te r vk pngBytes fs3 with
                  | Some fs4 => set_fs st fs4
                  | None => set_fs st (remove_both te (tmp_pdf te r) (tmp_png te r) fs3)
                  end
              | Err _ => set_fs st (remove_both te (tmp_pdf te r) (tmp_png te r) fs3)
              end
            else set_fs st (remove_both te (tmp_pdf te r) (tmp_png te r) fs2)
        end
    end.

(** The body of the single flight "off_vault_". *)
Definition make_vault_office (e : req_env) (te : thumb_env) (r : file_row) (vk : bytes) (st : thumb_state) : thumb_state :=
  if fs_exists (ts_fs st) (vault_enc_path te r) then st
  else
    match open_blob e (ts_fc st) r with
    | None => st
    | Some data =>
        match decrypt_to_tmp te None data vk (tmp_zip te r) (ts_fs st) with
        | None => st
        | Some fs1 =>
            match fs_read (te_tmp te) fs1 (tmp_zip te r) with
            | Ok archive =>
                let fs2 := fs_remove (te_tmp te) fs1 (tmp_zip te r) in
                match extractOfficeThumbnailBytes (zip_files te) archive with
                | Some (thumbBytes, _) =>
                    match store_encrypted te r vk thumbBytes fs2 with
                    | Some fs3 => set_fs st fs3
                    | None => set_fs st (fs_remove (te_tmp te) fs2 (tmp_zip te r))
                    end
                | None => set_fs st (fs_remove (te_tmp te) fs2 (tmp_zip te r))
                end
            | Err _ => set_fs st (fs_remove (te_tmp te) fs1 (tmp_zip te r))
            end
        end
    end.

(** The first kilobyte of a text. *)
Definition read_snippet (e : req_env) (r : file_row) (vk : bytes) (st : thumb_state) : string :=
  match open_blob e (ts_fc st) r with
  | None => ""
  | Some data =>
      match NewDecryptStream (os_file data 0) vk with
      | Err _ => ""
      | Ok s => string_of_bytes (fst (snd (dec_read s 1024)))
      end
  end.

Definition svg_mime : string := "image/svg+xml".

Definition vault_thumbnail (e : req_env) (te : thumb_env) (st : thumb_state) (r : file_row) (vk : bytes)
    (ext : string) (isPDF isOffice : bool) : thumb_state * download_response :=
  match vault_cached te r vk st with
  | Some decBytes => (st, vault_blob (DetectContentType te decBytes) decBytes)
  | None =>
      if isPDF then
        let '(st, known) := blob_exists st r in
        let st := if known then make_vault_pdf e te r vk st else st in
        match (if known then vault_cached te r vk st else None) with
        | Some decBytes => (st, vault_blob "image/png" decBytes)
        | None => (st, vault_blob svg_mime (bytes_of_string (generatePdfSvgThumbnail (fr_name r))))
        end
      else if isOffice then
        let '(st, known) := blob_exists st r in
        let st := if known then make_vault_office e te r vk st else st in
        match (if known then vault_cached te r vk st else None) with
        | Some decBytes => (st, vault_blob (DetectContentType te decBytes) decBytes)
        | None => (st, vault_blob svg_mime (bytes_of_string (generateOfficeSvgThumbnail (fr_name r) ext)))
        end
      else
        let '(st, known) := blob_exists st r in
        let snippet := if known then read_snippet e r vk st else "" in
        (st, vault_blob svg_mime (bytes_of_string (generateDocumentSvgThumbnail (fr_name r) ext snippet)))
  end.

(** ** Documents outside the vault *)

Definition cached_file (te : thumb_env) (mime : string) (q : download_request) (p : string) (st : thumb_state)
  : download_response :=
  let h := [("Cache-Control", "private, max-age=86400"); ("Content-Type", mime)] in
  serve_file te h q p (not_found_error h) st.

Definition svg_answer (body : bytes) : download_response :=
  mkDResp 200 [("Cache-Control", "private, max-age=3600"); ("Content-Type", svg_mime)] body.

(** The cached drawing, or the drawing made and cached. *)
Definition cached_svg (key : string) (draw : unit -> string) (st : thumb_state) : thumb_state * download_response :=
  match svgCache st !! key with
  | Some svgBytes => (st, svg_answer svgBytes)
  | None =>
      let svgBytes := bytes_of_string (draw tt) in
      (mkTS (ts_fc st) (<[key := svgBytes]> (svgCache st)), svg_answer svgBytes)
  end.

(** The body of the single flight "pdf_". *)
Definition make_pdf (e : req_env) (te : thumb_env) (r : file_row) (vk : bytes) (cachedPath : string)
    (st : thumb_state) : thumb_state :=
  if fs_exists (ts_fs st) cachedPath then st
  else
    match open_blob e (ts_fc st) r with
    | None => st
    | Some data =>
        match decrypt_to_tmp te (Some pdf_limit) data vk (tmp_pdf te r) (ts_fs st) with
        | None => st
        | Some fs1 =>
            let '(fs2, ran) := run_pdftoppm te r fs1 in
            if ran && fs_exists fs2 (tmp_png te r) then
              let fs3 := default fs2 (fs_rename (te_dir te) fs2 (tmp_png te r) cachedPath) in
              set_fs st (fs_remove (te_tmp te) fs3 (tmp_pdf te r))
            else set_fs st (remove_both te (tmp_pdf te r) (tmp_png te r) fs2)
        end
    end.

Definition pdf_thumbnail (e : req_env) (te : thumb_env) (st : thumb_state) (r : file_row) (vk : bytes)
    (q : download_request) : thumb_state * download_response :=
  let cachedPath := thumb_path te (fr_cas r +:+ ".png") in
  let draw st := cached_svg ("pdf_" +:+ fr_cas r) (fun _ => generatePdfSvgThumbnail (fr_name r)) st in
  if fs_exists (ts_fs st) cachedPath then (st, cached_file te "image/png" q cachedPath st)
  else
    match blob_exists st r with
    | (st, true) =>
        let st := make_pdf e te r vk cachedPath st in
        if fs_exists (ts_fs st) cachedPath then (st, cached_file te "image/png" q cachedPath st) else draw st
    | (st, false) => draw st
    end.

(** extractOfficeThumbnail *)
Definition extractOfficeThumbnail (te : thumb_env) (archive : bytes) (targetPath : string) (fs : FS) : FS * bool :=
  match extractOfficeThumbnailBytes (zip_files te) archive with
  | None => (fs, false)
  | Some (data, _) => let '(fs', err) := fs_write (te_dir te) fs targetPath data in (fs', bool_decide (err = None))
  end.

(** The body of the single flight "off_". *)
Definition make_office (e : req_env) (te : thumb_env) (r : file_row) (vk : bytes) (cachedJpg cachedPng : string)
    (st : thumb_state) : thumb_state :=
  if fs_exists (ts_fs st) cachedJpg || fs_exists (ts_fs st) cachedPng then st
  else
    match open_blob e (ts_fc st) r with
    | None => st
    | Some data =>
        match decrypt_to_tmp te None data vk (tmp_zip te r) (ts_fs st) with
        | None => st
        | Some fs1 =>
            match fs_read (te_tmp te) fs1 (tmp_zip te r) with
            | Ok archive =>
                let '(fs2, ok) := extractOfficeThumbnail te archive cachedJpg fs1 in
                let fs3 := fs_remove (te_tmp te) fs2 (tmp_zip te r) in
                set_fs st (if ok : bool then fs3 else fs_remove (te_tmp te) fs3 (tmp_zip te r))
            | Err _ => set_fs st (fs_remove (te_tmp te) fs1 (tmp_zip te r))
            end
        end
    end.

Definition office_thumbnail (e : req_env) (te : thumb_env) (st : thumb_state) (r : file_row) (vk : bytes)
    (ext : string) (q : download_request) : thumb_state * download_response :=
  let cachedJpg := thumb_path te (fr_cas r +:+ ".jpg") in
  let cachedPng := thumb_path te (fr_cas r +:+ ".png") in
  let draw st := cached_svg ("off_" +:+ ext +:+ "_" +:+ fr_cas r)
                   (fun _ => generateOfficeSvgThumbnail (fr_name r) ext) st in
  let cached st otherwise :=
    if fs_exists (ts_fs st) cachedJpg then (st, cached_file te "image/jpeg" q cachedJpg st)
    else if fs_exists (ts_fs st) cachedPng then (st, cached_file te "image/png" q cachedPng st)
    else otherwise tt in
  cached st (fun _ =>
    match blob_exists st r with
    | (st, true) =>
        let st := make_office e te r vk cachedJpg cachedPng st in cached st (fun _ => draw st)
    | (st, false) => draw st
    end).

Definition document_thumbnail (e : req_env) (te : thumb_env) (st : thumb_state) (r : file_row) (vk : bytes)
    (ext : string) : thumb_state * download_response :=
  let svgKey := "doc_" +:+ ext +:+ "_" +:+ fr_cas r in
  match svgCache st !! svgKey with
  | Some svgBytes => (st, svg_answer svgBytes)
  | None =>
      let '(st, known) := blob_exists st r in
      let snippet := if known then read_snippet e r vk st else "" in
      cached_svg svgKey (fun _ => generateDocumentSvgThumbnail (fr_name r) ext snippet) st
  end.

(** ** The handler *)

Definition image_exts : list string := ["png"; "jpg"; "jpeg"; "gif"; "webp"; "svg"].
Definition office_exts : list string := ["pptx"; "ppt"; "docx"; "doc"; "xlsx"; "xls"; "odp"; "odt"; "ods"].

Definition is_pdf (r : file_row) (ext : string) : bool := String.eqb ext "pdf" || String.eqb (fr_mime r) "application/pdf".
Definition is_img (r : file_row) (ext : string) : bool := HasPrefix (fr_mime r) "image/" || is_one_of image_exts ext.
Definition is_svg (r : file_row) (ext : string) : bool := String.eqb ext "svg" || String.eqb (fr_mime r) "image/svg+xml".

Definition ThumbnailFile (e : req_env) (te : thumb_env) (st : thumb_state) (q : download_request)
  : thumb_state * download_response :=
  let error c msg := mkDResp c [] (bytes_of_string msg) in
  match find_file e (fc_DB (ts_fc st)) (dr_id q) (GetUserID (user_id e)) with
  | None => (st, error 404 "File not found")
  | Some r =>
      let '(fc, isVault) := check_vault e (ts_fc st) r in
      let st := mkTS fc (svgCache st) in
      if isVault && negb (isVaultUnlocked e) then (st, error 401 "Vault locked.")
      else
        match content_key e isVault with
        | None => (st, error 401 "Vault locked.")
        | Some vk =>
            if negb (IsPreviewable (fr_name r) (fr_mime r)) then (st, mkDResp 204 [] [])
            else
              let ext := ToLower (getFileExt (fr_name r)) in
              if is_img r ext then
                if is_svg r ext || isVault then preview e st [] q
                else image_thumbnail e te st r vk q
              else if isVault then vault_thumbnail e te st r vk ext (is_pdf r ext) (is_one_of office_exts ext)
              else if is_pdf r ext then pdf_thumbnail e te st r vk q
              else if is_one_of office_exts ext then office_thumbnail e te st r vk ext q
              else document_thumbnail e te st r vk ext
        end
  end.

End Thumbnail.
