(* ===== verification/ThumbnailProps.v ===== *)
(** * Properties of thumbnails

    The size and the source of a scaled picture; which files a request for a
    thumbnail may change, and that a vault file's leaves nothing in clear; and
    what the caches, keyed by content alone, show to whom. *)

From S2P Require Import Prelude GoStrings FileSys CryptoPrims CryptoStream CryptoStreamFacts CryptoVault CAS VaultTree Auth UploadSession UploadCtrl FileDownload FileDownloadProps FileInfo Svg Preview Thumbnail.

#[local] Open Scope string_scope.
#[local] Open Scope list_scope.
#[local] Open Scope Z_scope.

(** ** Scaling *)

Lemma scaled_dim w h : 0 < w -> 0 <= h -> h <= w -> 0 <= (h * maxDim) / w <= maxDim.
Proof.
  intros Hw Hh Hle. unfold maxDim. split; [apply Z.div_pos; lia|].
  apply Z.div_le_upper_bound; nia.
Qed.

Lemma thumb_dims_range w h : 0 < w -> 0 < h ->
  1 <= fst (thumb_dims w h) <= Z.min w maxDim /\ 1 <= snd (thumb_dims w h) <= Z.min h maxDim.
Proof.
  intros Hw Hh. unfold thumb_dims.
  assert (forall a b, 0 < a -> 0 < b -> b <= a -> maxDim < a -> (b * maxDim) / a <= b) as Hle.
  { intros a b Ha Hb Hba Hm. unfold maxDim in *. apply Z.div_le_upper_bound; nia. }
  destruct (Z.ltb_spec maxDim w) as [Hmw|Hmw]; cbn [orb];
    [|destruct (Z.ltb_spec maxDim h) as [Hmh|Hmh]; cbn [orb]].
  - destruct (Z.ltb_spec h w) as [Hlt|Hge].
    + pose proof (scaled_dim w h ltac:(lia) ltac:(lia) ltac:(lia)). specialize (Hle w h).
      cbn [fst snd]. repeat case_match; unfold maxDim in *; cbn; lia.
    + pose proof (scaled_dim h w ltac:(lia) ltac:(lia) ltac:(lia)). specialize (Hle h w).
      cbn [fst snd]. repeat case_match; unfold maxDim in *; cbn; lia.
  - destruct (Z.ltb_spec h w) as [Hlt|Hge]; [lia|].
    pose proof (scaled_dim h w ltac:(lia) ltac:(lia) ltac:(lia)). specialize (Hle h w).
    cbn [fst snd]. repeat case_match; unfold maxDim in *; cbn; lia.
  - repeat case_match; unfold maxDim in *; cbn; lia.
Qed.

(** The source coordinate of a target coordinate lies in the source. *)
Lemma sample_range n target i : 0 < n -> 0 <= i < target -> 0 <= (i * n) / target < n.
Proof.
  intros Hn Hi. split; [apply Z.div_pos; nia|]. apply Z.div_lt_upper_bound; nia.
Qed.

(** The thumbnail of any picture has between 1 and 256 rows and columns and
    is never larger than the picture in either direction; each of its colours is
    read from inside the picture's bounds. *)
Theorem thumbnail_fits img tw th :
  0 < im_w img -> 0 < im_h img -> thumb_dims (im_w img) (im_h img) = (tw, th) ->
  (1 <= tw <= Z.min (im_w img) 256 /\ 1 <= th <= Z.min (im_h img) 256) /\
  zlen (resizeImage img tw th) = th /\
  forall y row, resizeImage img tw th !! y = Some row ->
    zlen row = tw /\
    forall x c, row !! x = Some c ->
      exists sx sy, c = im_at img sx sy /\
        im_minX img <= sx < im_minX img + im_w img /\ im_minY img <= sy < im_minY img + im_h img.
Proof.
  intros Hw Hh Hd. pose proof (thumb_dims_range _ _ Hw Hh) as Hr. rewrite Hd in Hr. cbn [fst snd] in Hr.
  split; [exact Hr|]. unfold resizeImage.
  destruct (Z.leb_spec (im_w img) 0), (Z.leb_spec (im_h img) 0), (Z.leb_spec tw 0), (Z.leb_spec th 0); try lia.
  cbn [orb]. split; [unfold zlen; rewrite length_map, length_seqZ; lia|].
  intros y row Hy. apply list_lookup_fmap_Some in Hy as (i & -> & Hi).
  apply lookup_seqZ in Hi as [-> Hi]. split; [unfold zlen; rewrite length_map, length_seqZ; lia|].
  intros x c Hx. apply list_lookup_fmap_Some in Hx as (j & -> & Hj). apply lookup_seqZ in Hj as [-> Hj].
  eexists _, _. split; [reflexivity|].
  pose proof (sample_range (im_w img) tw (0 + Z.of_nat x) ltac:(lia) ltac:(lia)).
  pose proof (sample_range (im_h img) th (0 + Z.of_nat y) ltac:(lia) ltac:(lia)). lia.
Qed.

Section ThumbnailFacts.
Context `{CryptoPrims}.

(** ** What a request changes *)

(** The temporary files of one request. *)
Definition tmp_files (te : thumb_env) (r : file_row) : list string := [tmp_pdf te r; tmp_png te r; tmp_zip te r].

(** Equality of file systems off some paths. *)
Definition same_off (X : list string) (fs fs' : FS) : Prop := forall p, p ∉ X -> fs' !! p = fs !! p.

#[local] Instance same_off_preorder X : PreOrder (same_off X).
Proof. split; [by intros fs p|]. intros a b c Hab Hbc p Hp. by rewrite Hbc, Hab. Qed.

Lemma same_off_insert X fs p f : p ∈ X -> same_off X fs (<[p := f]> fs).
Proof. intros Hp q Hq. rewrite lookup_insert_ne; [done|]. by intros ->. Qed.

Lemma same_off_write X env fs p b : p ∈ X -> same_off X fs (fst (fs_write env fs p b)).
Proof.
  intros Hp. unfold fs_write. destruct (create_ok env); [|done].
  destruct (copy_fails env); by apply same_off_insert.
Qed.

Lemma same_off_remove X env fs p : p ∈ X -> same_off X fs (fs_remove env fs p).
Proof. intros Hp q Hq. apply fs_remove_ne. by intros ->. Qed.

Lemma same_off_rename X env fs p q fs' : p ∈ X -> q ∈ X -> fs_rename env fs p q = Some fs' -> same_off X fs fs'.
Proof.
  intros Hp Hq. unfold fs_rename. destruct (fs !! p); [|done]. destruct (rename_ok env); [|done].
  intros [= <-] x Hx. rewrite lookup_insert_ne, lookup_delete_ne; [done|by intros ->..].
Qed.

Lemma same_off_decrypt te limit data vk tmp fs fs' X :
  tmp ∈ X -> decrypt_to_tmp te limit data vk tmp fs = Some fs' -> same_off X fs fs'.
Proof.
  intros Hp. unfold decrypt_to_tmp. destruct (NewDecryptStream _ _); [|done].
  destruct (create_ok _); [|done]. intros [= <-]. by apply same_off_write.
Qed.

Lemma same_off_pdftoppm te r fs X : tmp_png te r ∈ X -> same_off X fs (fst (run_pdftoppm te r fs)).
Proof.
  intros Hp. unfold run_pdftoppm. destruct (pdftoppm _ _) as [ran [b|]]; [by apply same_off_insert|done].
Qed.

Lemma fs_remove_gone env fs p : remove_ok env = true -> fs_remove env fs p !! p = None.
Proof. intros Hr. unfold fs_remove. rewrite Hr. apply lookup_delete_eq. Qed.

Lemma fs_remove_none env fs p q : fs !! q = None -> fs_remove env fs p !! q = None.
Proof.
  intros Hq. unfold fs_remove. destruct (remove_ok env); [|done].
  destruct (decide (p = q)) as [->|]; [apply lookup_delete_eq|by rewrite lookup_delete_ne].
Qed.

Lemma remove_both_gone te fs p q : remove_ok (te_tmp te) = true ->
  remove_both te p q fs !! p = None /\ remove_both te p q fs !! q = None.
Proof.
  intros Hr. unfold remove_both. split; [|by apply fs_remove_gone].
  by apply fs_remove_none, fs_remove_gone.
Qed.

(** ** The vault *)

(** Data that is an encryption of some thumbnail, or its beginning when the
    disk filled up. *)
Definition sealed (te : thumb_env) (vk : bytes) (f : file) : Prop :=
  exists thumb enc n, EncryptBlock (te_nonce te) thumb vk = Ok enc /\ f_data f = ztake n enc.

(** The only changes: the encrypted thumbnail, and temporary files that are
    gone. *)
Definition quiet (te : thumb_env) (r : file_row) (vk : bytes) (fs fs' : FS) : Prop :=
  forall p, fs' !! p = fs !! p \/ (p ∈ tmp_files te r /\ fs' !! p = None) \/
    (p = vault_enc_path te r /\ exists f, fs' !! p = Some f /\ sealed te vk f).

Lemma quiet_refl te r vk fs : quiet te r vk fs fs.
Proof. intros p. by left. Qed.

(** A run that worked in [X], all of which is removed. *)
Lemma quiet_clean te r vk X fs fs' : X ⊆ tmp_files te r -> same_off X fs fs' ->
  (forall p, p ∈ X -> fs' !! p = None) -> quiet te r vk fs fs'.
Proof.
  intros Hsub Hs Hg p. destruct (decide (p ∈ X)) as [Hp|Hp]; [|left; by apply Hs].
  right; left. split; [by apply Hsub|by apply Hg].
Qed.

Lemma quiet_store te r vk thumb fs0 fs fs' :
  quiet te r vk fs0 fs -> store_encrypted te r vk thumb fs = Some fs' -> quiet te r vk fs0 fs'.
Proof.
  intros Hq. unfold store_encrypted. destruct (EncryptBlock _ _ _) as [enc|] eqn:He; [|done].
  intros [= <-] p. unfold fs_write. destruct (create_ok (te_dir te)); [|apply Hq].
  destruct (decide (p = vault_enc_path te r)) as [->|Hne].
  - right; right. split; [done|]. destruct (copy_fails (te_dir te)) as [n|]; cbn [fst];
      rewrite lookup_insert_eq; eexists; (split; [done|]).
    + by exists thumb, enc, n.
    + exists thumb, enc, (zlen enc). split; [done|]. cbn. by rewrite ztake_all.
  - destruct (copy_fails (te_dir te)); cbn [fst]; rewrite lookup_insert_ne by done; apply Hq.
Qed.

(** The state apart from the files. *)
Definition same_rest (st st' : thumb_state) : Prop :=
  fc_DB (ts_fc st') = fc_DB (ts_fc st) /\ svgCache st' = svgCache st.

Lemma blob_exists_frame st r : same_rest st (fst (blob_exists st r)) /\ ts_fs (fst (blob_exists st r)) = ts_fs st.
Proof.
  unfold blob_exists. destruct (fc_CAS (ts_fc st)) as [c|]; [|done]. by destruct (Exists _ _ _).
Qed.

Lemma make_vault_pdf_quiet e te r vk st : remove_ok (te_tmp te) = true ->
  same_rest st (make_vault_pdf e te r vk st) /\
  quiet te r vk (ts_fs st) (ts_fs (make_vault_pdf e te r vk st)).
Proof.
  intros Hr. unfold make_vault_pdf. destruct (fs_exists _ _); [split; [done|apply quiet_refl]|].
  destruct (open_blob _ _ _) as [data|]; [|split; [done|apply quiet_refl]].
  destruct (decrypt_to_tmp _ _ _ _ _ _) as [fs1|] eqn:Hd; [|split; [done|apply quiet_refl]].
  set (X := [tmp_pdf te r; tmp_png te r]).
  assert (X ⊆ tmp_files te r) as Hsub by (unfold X, tmp_files; set_solver).
  assert (same_off X (ts_fs st) fs1) as H1 by (eapply same_off_decrypt; [|exact Hd]; set_solver).
  pose proof (same_off_pdftoppm te r fs1 X ltac:(set_solver)) as H2.
  destruct (run_pdftoppm te r fs1) as [fs2 ran]. cbn [fst] in H2.
  assert (forall fs p q, same_off X (ts_fs st) fs -> p ∈ X -> q ∈ X -> (forall x, x ∈ X -> x = p \/ x = q) ->
    same_off X (ts_fs st) (remove_both te p q fs) /\ quiet te r vk (ts_fs st) (remove_both te p q fs)) as Hclean.
  { intros fs p q Hs Hp Hq Hall. assert (same_off X (ts_fs st) (remove_both te p q fs)) as Hs'.
    { etrans; [exact Hs|]. etrans; [by apply (same_off_remove X (te_tmp te) _ p)|by apply same_off_remove]. }
    split; [done|]. eapply quiet_clean; [exact Hsub|exact Hs'|]. intros x Hx.
    destruct (remove_both_gone te fs p q Hr) as [Hg1 Hg2]. destruct (Hall x Hx) as [->| ->]; done. }
  assert (same_off X (ts_fs st) fs2) as H3 by (etrans; [exact H1|exact H2]).
  assert (forall fs, same_off X (ts_fs st) fs ->
    quiet te r vk (ts_fs st) (remove_both te (tmp_pdf te r) (tmp_png te r) fs)) as Hdone.
  { intros fs Hs. apply (Hclean fs (tmp_pdf te r) (tmp_png te r)); [done|set_solver..]. }
  destruct (ran && _); [|split; [done|by apply Hdone]].
  destruct (Hclean fs2 (tmp_png te r) (tmp_pdf te r)) as [Hs4 Hq4]; [done|set_solver..|].
  destruct (fs_read _ _ _) as [png|]; [|split; [done|by apply Hdone]].
  destruct (store_encrypted _ _ _ _ _) as [fs4|] eqn:Hst; (split; [done|]); [|by apply Hdone].
  by eapply quiet_store.
Qed.

Lemma make_vault_office_quiet e te r vk st : remove_ok (te_tmp te) = true ->
  same_rest st (make_vault_office e te r vk st) /\
  quiet te r vk (ts_fs st) (ts_fs (make_vault_office e te r vk st)).
Proof.
  intros Hr. unfold make_vault_office. destruct (fs_exists _ _); [split; [done|apply quiet_refl]|].
  destruct (open_blob _ _ _) as [data|]; [|split; [done|apply quiet_refl]].
  destruct (decrypt_to_tmp _ _ _ _ _ _) as [fs1|] eqn:Hd; [|split; [done|apply quiet_refl]].
  set (X := [tmp_zip te r]).
  assert (X ⊆ tmp_files te r) as Hsub by (unfold X, tmp_files; set_solver).
  assert (same_off X (ts_fs st) fs1) as H1 by (eapply same_off_decrypt; [|exact Hd]; set_solver).
  assert (forall fs, same_off X (ts_fs st) fs -> same_off X (ts_fs st) (fs_remove (te_tmp te) fs (tmp_zip te r)) /\
    quiet te r vk (ts_fs st) (fs_remove (te_tmp te) fs (tmp_zip te r))) as Hclean.
  { intros fs Hs. assert (same_off X (ts_fs st) (fs_remove (te_tmp te) fs (tmp_zip te r))) as Hs'.
    { etrans; [exact Hs|]. apply same_off_remove. set_solver. }
    split; [done|]. eapply quiet_clean; [exact Hsub|exact Hs'|].
    intros x ->%list_elem_of_singleton. by apply fs_remove_gone. }
  destruct (Hclean fs1 H1) as [H2 Hq2].
  destruct (fs_read _ _ _) as [archive|]; [|split; [done|by apply Hclean]].
  destruct (extractOfficeThumbnailBytes _ _) as [[thumb m]|]; [|split; [done|by apply Hclean]].
  destruct (store_encrypted _ _ _ _ _) as [fs4|] eqn:Hst; (split; [done|]); [|by apply Hclean].
  by eapply quiet_store.
Qed.

(** An answer that must not be kept. *)
Definition unkept (resp : download_response) : Prop :=
  dp_status resp = 200 \/ dp_status resp = 206 ->
  ("Cache-Control", "private, no-store, no-cache, must-revalidate") ∈ dp_headers resp.

Lemma vault_blob_unkept mime body : unkept (vault_blob mime body).
Proof. intros _. cbn. set_solver. Qed.

#[local] Hint Resolve vault_blob_unkept quiet_refl : hornetz.

Lemma vault_thumbnail_quiet e te st r vk ext isPDF isOffice st' resp : remove_ok (te_tmp te) = true ->
  vault_thumbnail e te st r vk ext isPDF isOffice = (st', resp) ->
  same_rest st st' /\ quiet te r vk (ts_fs st) (ts_fs st') /\ unkept resp.
Proof.
  intros Hr. unfold vault_thumbnail. destruct (vault_cached _ _ _ _) as [b|].
  { intros [= <- <-]. split; [done|]. auto with hornetz. }
  pose proof (blob_exists_frame st r) as [Hb Hf].
  destruct (blob_exists st r) as [st1 known]. cbn [fst] in Hb, Hf. unfold same_rest in *.
  destruct Hb as [Hb1 Hb2]. rewrite <- Hb1, <- Hb2, <- Hf.
  destruct isPDF; [|destruct isOffice].
  - intros Heq. assert (st' = (if known then make_vault_pdf e te r vk st1 else st1) /\ unkept resp) as [-> Hu].
    { by repeat case_match; simplify_eq; auto with hornetz. }
    destruct known; [|split_and!; auto with hornetz].
    destruct (make_vault_pdf_quiet e te r vk st1 Hr) as [Hs Hq]. split; [exact Hs|]. by split.
  - intros Heq. assert (st' = (if known then make_vault_office e te r vk st1 else st1) /\ unkept resp) as [-> Hu].
    { by repeat case_match; simplify_eq; auto with hornetz. }
    destruct known; [|split_and!; auto with hornetz].
    destruct (make_vault_office_quiet e te r vk st1 Hr) as [Hs Hq]. split; [exact Hs|]. by split.
  - intros [= <- <-]. split_and!; auto with hornetz.
Qed.

(** A preview changes the cache of vault folders alone, and that of a vault
    file must not be kept. *)
Lemma send_content_headers h data isVault vk start n p x :
  x ∈ h -> x ∈ dp_headers (send_content h data isVault vk start n p).
Proof.
  intros Hx. unfold send_content. destruct (openContentReader _ _ _ _); [|done].
  destruct (copy_limited _ _ _ _ _) as [[b o]|]; cbn; set_solver.
Qed.

Lemma check_vault_frame e fc r fc' b : check_vault e fc r = (fc', b) ->
  fc_DB fc' = fc_DB fc /\ fc_CAS fc' = fc_CAS fc /\ fc_fs fc' = fc_fs fc.
Proof. unfold check_vault. destruct (IsVaultFolder _ _ _). by intros [= <- <-]. Qed.

Lemma PreviewFile_state e fc set q :
  fst (PreviewFile e fc set q) =
  match find_file e (fc_DB fc) (dr_id q) (GetUserID (user_id e)) with
  | Some r => fst (check_vault e fc r)
  | None => fc
  end.
Proof.
  unfold PreviewFile. destruct (find_file _ _ _ _) as [r|]; [|done].
  destruct (check_vault e fc r) as [fc1 b]. cbn [fst].
  destruct (_ && _); [done|]. destruct (not_modified _ _); [done|]. destruct (dr_head _); [done|].
  destruct (open_blob _ _ _); [|done]. destruct (content_key _ _); [|done].
  destruct (negb _); [|done]. by destruct (parseRangeHeader _ _) as [[[s en] []] []].
Qed.

(** Asking again whether a folder is in the vault gives the same answer. *)
Lemma IsVaultFolder_again db c id c1 b : IsVaultFolder db c id = (c1, b) -> forall db', IsVaultFolder db' c1 id = (c1, b).
Proof.
  intros Hi db'. revert Hi. unfold IsVaultFolder.
  destruct (String.eqb id "f2"); [by intros [= -> <-]|].
  destruct (_ || _); [by intros [= -> <-]|]. cbv zeta. intros [= <- <-].
  assert (vaultCacheValid (loadVaultCacheLocked db c) = true) as Hv.
  { unfold loadVaultCacheLocked. destruct (vaultCacheValid c) eqn:Hc; [done|].
    destruct db as [[rows|]|]; [|done..]. by destruct (bfs _ _ _ _ _). }
  assert (loadVaultCacheLocked db' (loadVaultCacheLocked db c) = loadVaultCacheLocked db c) as ->; [|done].
  unfold loadVaultCacheLocked at 1. by rewrite Hv.
Qed.

Lemma check_vault_again e fc r fc' b : check_vault e fc r = (fc', b) -> check_vault e fc' r = (fc', b).
Proof.
  unfold check_vault. destruct (IsVaultFolder _ (fc_cache fc) _) as [c1 b1] eqn:Hi. intros [= <- <-].
  cbn [fc_DB fc_CAS fc_fs fc_cache]. by rewrite (IsVaultFolder_again _ _ _ _ _ Hi).
Qed.

Lemma PreviewFile_frame e fc set q :
  fc_DB (fst (PreviewFile e fc set q)) = fc_DB fc /\ fc_fs (fst (PreviewFile e fc set q)) = fc_fs fc.
Proof.
  rewrite PreviewFile_state. destruct (find_file _ _ _ _) as [r|]; [|done].
  destruct (check_vault e fc r) as [fc1 b] eqn:Hc. by apply check_vault_frame in Hc as (? & _ & ?).
Qed.

Lemma preview_unkept e fc set q r :
  find_file e (fc_DB fc) (dr_id q) (GetUserID (user_id e)) = Some r -> snd (check_vault e fc r) = true ->
  unkept (snd (PreviewFile e fc set q)).
Proof.
  intros Hf Hv. unfold PreviewFile. rewrite Hf. destruct (check_vault e fc r) as [fc1 b]. cbn [snd] in Hv. subst b.
  assert (forall q', ("Cache-Control", "private, no-store, no-cache, must-revalidate")
    ∈ set ++ preview_headers q' r true) as Hh.
  { intros q'. unfold preview_headers, no_store. set_solver. }
  destruct (_ && _); [by intros [?|?]|]. destruct (not_modified _ _); [intros _; apply Hh|].
  destruct (dr_head _); [intros _; cbn [snd dp_headers]; apply elem_of_app; left; apply Hh|].
  destruct (open_blob _ _ _) as [data|].
  - destruct (content_key _ _) as [vk|]; [|by intros [?|?]].
    assert (forall h' start n p, ("Cache-Control", "private, no-store, no-cache, must-revalidate") ∈ h' ->
      unkept (send_content h' data true vk start n p)) as Hs by (intros ????? _; by apply send_content_headers).
    destruct (negb _); [|by apply Hs]. destruct (parseRangeHeader _ _) as [[[s en] []] []]; try by apply Hs.
    + apply Hs. apply elem_of_app. by left.
    + by intros [?|?].
  - cbn [snd]. intros _. unfold preview_mock. repeat case_match; cbn [dp_headers unsatisfiable];
      apply elem_of_app; left; apply Hh.
Qed.

End ThumbnailFacts.

(** ** The claims *)

Section ThumbnailClaims.
Context `{CryptoPrims}.

(** C25: Asking for the thumbnail of a vault file leaves nothing of it in clear:
    of all files on disk the request can only change the encrypted thumbnail,
    which then holds what EncryptBlock made of a picture under the session's key,
    and temporary files that are gone when it ends; the shared cache of drawings,
    the tables and the blobs are as before, and an answer with a body says that it must not be
    stored. *)
Theorem vault_thumbnail_leaves_no_plaintext e te st q r vk st' resp :
  find_file e (fc_DB (ts_fc st)) (dr_id q) (GetUserID (user_id e)) = Some r ->
  snd (check_vault e (ts_fc st) r) = true -> content_key e true = Some vk -> remove_ok (te_tmp te) = true ->
  ThumbnailFile e te st q = (st', resp) ->
  svgCache st' = svgCache st /\ fc_DB (ts_fc st') = fc_DB (ts_fc st) /\
  quiet te r vk (ts_fs st) (ts_fs st') /\ unkept resp.
Proof.
  intros Hf Hv Hk Hr. unfold ThumbnailFile. rewrite Hf.
  destruct (check_vault e (ts_fc st) r) as [fc b] eqn:Hc. cbn [snd] in Hv. subst b. rewrite Hk.
  pose proof Hc as (Hdb & Hcas & Hfs)%check_vault_frame.
  assert (ts_fs (mkTS fc (svgCache st)) = ts_fs st) as Hts by exact Hfs.
  destruct (true && _).
  { intros [= <- <-]. cbn [svgCache ts_fc]. split_and!; [done|done| |by intros [?|?]].
    rewrite Hts. apply quiet_refl. }
  destruct (negb _).
  { intros [= <- <-]. cbn [svgCache ts_fc]. split_and!; [done|done| |by intros [?|?]].
    rewrite Hts. apply quiet_refl. }
  destruct (is_img r _).
  - rewrite orb_true_r. unfold preview. cbn [ts_fc svgCache].
    pose proof (PreviewFile_frame e fc [] q) as [Hpd Hpf].
    assert (unkept (snd (PreviewFile e fc [] q))) as Hu.
    { apply preview_unkept with (r := r); [by rewrite Hdb|].
      by rewrite (check_vault_again _ _ _ _ _ Hc). }
    destruct (PreviewFile e fc [] q) as [fc2 resp2]. intros [= <- <-]. cbn [svgCache ts_fc fst snd] in *.
    split_and!; [done|by rewrite Hpd| |done]. unfold ts_fs. cbn [ts_fc]. rewrite Hpf, Hfs. apply quiet_refl.
  - intros Ht. apply vault_thumbnail_quiet in Ht as ((Hd & Hs) & Hq & Hu); [|done].
    cbn [svgCache ts_fc] in *. rewrite Hts in Hq. split_and!; [done|by rewrite Hd|done|done].
Qed.

(** The drawings of documents are cached under the content and the extension,
    not under the file: whoever asks next for a file of the same content gets
    the first one's drawing, with the first one's file name in it. *)
Theorem drawing_shows_first_name e te st r vk r2 e2 te2 vk2 st2 ext st' resp :
  svgCache st !! ("doc_" +:+ ext +:+ "_" +:+ fr_cas r) = None ->
  document_thumbnail e te st r vk ext = (st', resp) ->
  fr_cas r2 = fr_cas r -> svgCache st2 = svgCache st' ->
  snd (document_thumbnail e2 te2 st2 r2 vk2 ext) = resp /\
  exists snippet, dp_body resp = bytes_of_string (generateDocumentSvgThumbnail (fr_name r) ext snippet).
Proof.
  intros Hn Hd Hc Hs. unfold document_thumbnail in *. rewrite Hn in Hd. rewrite Hc, Hs. clear Hs Hc.
  pose proof (blob_exists_frame st r) as [[_ Hsv] _].
  destruct (blob_exists st r) as [st1 known]. cbn [fst] in Hsv. unfold cached_svg in Hd.
  rewrite Hsv, Hn in Hd. injection Hd as <- <-. cbn [svgCache]. rewrite lookup_insert_eq. split; [done|]. by eexists.
Qed.

(** An encrypted thumbnail that the session's key does not open, say of a vault
    with another password, is neither used nor replaced: the drawing is served
    for ever. *)
Theorem foreign_vault_thumbnail_stays e te st r vk ext isPDF isOffice :
  isPDF = true \/ isOffice = true -> fs_exists (ts_fs st) (vault_enc_path te r) = true -> vault_cached te r vk st = None ->
  let '(st', resp) := vault_thumbnail e te st r vk ext isPDF isOffice in
  ts_fs st' = ts_fs st /\
  resp = vault_blob svg_mime (bytes_of_string
           (if isPDF then generatePdfSvgThumbnail (fr_name r) else generateOfficeSvgThumbnail (fr_name r) ext)).
Proof.
  intros Hk He Hc. unfold vault_thumbnail. rewrite Hc. pose proof (blob_exists_frame st r) as [_ Hf].
  destruct (blob_exists st r) as [st1 known]. cbn [fst] in Hf.
  assert (vault_cached te r vk st1 = None) as Hc1 by (unfold vault_cached; by rewrite Hf).
  assert (make_vault_pdf e te r vk st1 = st1) as Hp by (unfold make_vault_pdf; by rewrite Hf, He).
  assert (make_vault_office e te r vk st1 = st1) as Ho by (unfold make_vault_office; by rewrite Hf, He).
  destruct isPDF; [|destruct Hk as [| ->]; [done|]]; rewrite ?Hp, ?Ho;
    destruct known; rewrite ?Hc1; by split.
Qed.
Lemma send_content_same h1 h2 data isVault vk start n p :
  dp_status (send_content h1 data isVault vk start n p) = dp_status (send_content h2 data isVault vk start n p) /\
  dp_body (send_content h1 data isVault vk start n p) = dp_body (send_content h2 data isVault vk start n p).
Proof.
  unfold send_content. destruct (openContentReader _ _ _ _); [|done].
  by destruct (copy_limited _ _ _ _ _) as [[b o]|].
Qed.

(** Showing a file that is there answers with the status and the bytes of
    downloading it, for any range, unless the request is conditional on a date. *)
Theorem preview_shows_what_download_sends e st set q r data :
  find_file e (fc_DB st) (dr_id q) (GetUserID (user_id e)) = Some r -> open_blob e st r = Some data ->
  dr_if_range q = "" -> dr_if_modified_since q = "" ->
  dp_status (snd (PreviewFile e st set q)) = dp_status (snd (DownloadFile e st q)) /\
  (dp_status (snd (DownloadFile e st q)) <> 401 ->
   dp_body (snd (PreviewFile e st set q)) = dp_body (snd (DownloadFile e st q))).
Proof.
  intros Hf Ho Hir Him. unfold PreviewFile, DownloadFile. rewrite Hf. unfold check_vault, open_blob in *.
  destruct (IsVaultFolder _ _ _) as [cache b]. cbn [fc_DB fc_CAS fc_fs]. rewrite Ho.
  destruct (b && _); [done|].
  assert (not_modified (created_unread q) (etag_of r) = not_modified q (etag_of r)) as ->.
  { unfold not_modified, last_modified, created_unread. cbn. rewrite Him. cbn.
    destruct (negb _); [done|]. by repeat case_match. }
  destruct (not_modified q _); [done|]. cbn [dr_head dr_range created_unread].
  destruct (dr_head q); [done|]. destruct (content_key e b) as [vk|]; [|done].
  assert (range_allowed q (etag_of r) = true) as ->.
  { unfold range_allowed. rewrite Hir. by rewrite andb_false_r. }
  rewrite andb_true_r. destruct (negb _); cbn [snd]; [|by pose proof (send_content_same
    (set ++ preview_headers (created_unread q) r b) (base_headers q r b) data b vk 0 (fr_size r) false) as [-> ->]].
  destruct (parseRangeHeader _ _) as [[[s en] []] []]; cbn [snd]; try done;
    match goal with |- dp_status (send_content ?h1 ?d ?v ?k ?s ?n ?p) = dp_status (send_content ?h2 _ _ _ _ _ _) /\ _ =>
      by pose proof (send_content_same h1 h2 d v k s n p) as [-> ->] end.
Qed.
End ThumbnailClaims.

(** ** Pictures *)

Section PictureClaims.
Context `{CryptoLaws}.

(** A request for a picture outside the vault whose blob is the encoding of
    [cs] under the storage key. *)
Record picture_request (e : req_env) (te : thumb_env) (st : thumb_state) (q : download_request) (r : file_row)
    (key : bytes) : Prop := {
  pr_found : find_file e (fc_DB (ts_fc st)) (dr_id q) (GetUserID (user_id e)) = Some r;
  pr_plain : snd (check_vault e (ts_fc st) r) = false;
  pr_key : content_key e false = Some key;
  pr_previewable : IsPreviewable (fr_name r) (fr_mime r) = true;
  pr_img : is_img r (ToLower (getFileExt (fr_name r))) = true;
  pr_not_svg : is_svg r (ToLower (getFileExt (fr_name r))) = false;
  pr_unconditional : dr_if_none_match q = ""
}.

Definition img_path (te : thumb_env) (r : file_row) : string := thumb_path te ("img_" +:+ fr_cas r +:+ "_256.jpg").

Definition img_headers (r : file_row) : list (string * string) :=
  [("ETag", img_etag r); ("Cache-Control", "private, max-age=86400, stale-while-revalidate=604800");
   ("Content-Type", "image/jpeg")].

Lemma ThumbnailFile_picture e te st q r key : picture_request e te st q r key ->
  exists fc, check_vault e (ts_fc st) r = (fc, false) /\
    ThumbnailFile e te st q = image_thumbnail e te (mkTS fc (svgCache st)) r key q.
Proof.
  intros [Hf Hv Hk Hp Hi Hs Hc]. unfold ThumbnailFile. rewrite Hf.
  destruct (check_vault e (ts_fc st) r) as [fc b]. cbn [snd] in Hv. subst b. exists fc. split; [done|].
  rewrite Hk, Hp, Hi, Hs. done.
Qed.

Lemma image_thumbnail_cached e te st r key q f : dr_if_none_match q = "" -> read_ok (te_dir te) = true ->
  ts_fs st !! img_path te r = Some f ->
  image_thumbnail e te st r key q = (st, ServeContent te (img_headers r) q (Base (img_path te r)) f).
Proof.
  intros Hq Hr Hf. unfold image_thumbnail. rewrite Hq. cbn [String.eqb negb andb].
  assert (fs_exists (ts_fs st) (img_path te r) = true) as He by (apply fs_exists_spec; by rewrite Hf).
  unfold img_path in He. rewrite He. unfold serve_file. unfold img_path in Hf. by rewrite Hf, Hr.
Qed.

(** What the single flight leaves when all goes well. *)
Lemma make_image_thumb_stored e te st r key cs img out c t :
  ts_fs st !! img_path te r = None ->
  fc_CAS (ts_fc st) = Some c -> IsValidHash (fr_cas r) = true ->
  ts_fs st !! Path c (fr_cas r) = Some (mkFile (encode key cs) t) -> read_ok (os e) = true ->
  aes_key_ok key = true -> Forall good_chunk cs -> cs <> [] ->
  image_Decode te (concat cs) None = Some img -> 0 < im_w img -> 0 < im_h img ->
  jpeg_Encode te (uncurry (resizeImage img) (thumb_dims (im_w img) (im_h img))) = (out, true) ->
  create_ok (te_dir te) = true -> copy_fails (te_dir te) = None -> rename_ok (te_dir te) = true ->
  let st' := make_image_thumb e te r key (img_path te r) st in
  same_rest st st' /\ fc_cache (ts_fc st') = fc_cache (ts_fc st) /\
  ts_fs st' = <[img_path te r := mkFile out (env_now (te_dir te))]> (delete (img_path te r +:+ ".tmp") (ts_fs st)).
Proof.
  intros Hno Hcas Hh Hblob Hread Hk Hcs Hne Hdec Hw Hht Hj Hcr Hcf Hrn. unfold make_image_thumb.
  assert (fs_exists (ts_fs st) (img_path te r) = false) as ->.
  { apply not_true_iff_false. rewrite fs_exists_spec, Hno. by intros [? ?]. }
  unfold blob_exists. rewrite Hcas. unfold Exists. rewrite Hh. cbn [negb].
  assert (fs_exists (ts_fs st) (Path c (fr_cas r)) = true) as Hex by (apply fs_exists_spec; by rewrite Hblob).
  assert (exists c', (if bool_decide (fr_cas r ∈ existCache c) then (c, true)
    else if fs_exists (ts_fs st) (Path c (fr_cas r)) then (set_cache c ({[fr_cas r]} ∪ existCache c), true) else (c, false))
    = (c', true) /\ Path c' (fr_cas r) = Path c (fr_cas r)) as (c' & -> & Hpath).
  { rewrite Hex. destruct (bool_decide _); eexists; (split; [reflexivity|]); [done|].
    unfold Path, set_cache. by destruct (IsValidHash _). }
  unfold open_blob. cbn [ts_fc fc_CAS fc_fs]. unfold fs_read. rewrite Hpath, Hblob, Hread. cbn [f_data].
  destruct (openContentReader_stored key cs false 0) as (s & -> & Hs); [done..| |].
  { pose proof (zlen_nonneg (concat cs)). lia. }
  rewrite (copy_limited_stream _ s _ _ _ [] Hs); [|done|by apply stream_fuel|done].
  unfold served_from. cbn [default up_to app Z.ltb Z.compare andb id from_option]. rewrite zdrop_0, Hdec.
  destruct (Z.leb_spec (im_w img) 0), (Z.leb_spec (im_h img) 0); try lia. cbn [orb].
  destruct (thumb_dims _ _) as [tw th]. cbn [uncurry] in Hj. rewrite Hj, Hcr. unfold fs_write. rewrite Hcr, Hcf.
  unfold fs_rename. rewrite bool_decide_eq_true_2 by done. rewrite lookup_insert_eq, Hrn. cbn [andb default ts_fs id].
  split; [done|]. split; [done|].
  unfold set_fs, ts_fs. cbn [ts_fc fc_fs].
  assert (img_path te r <> img_path te r +:+ ".tmp") as Hnet.
  { intros Heq%(f_equal String.length). rewrite length_str_app in Heq. cbn in Heq. lia. }
  rewrite delete_insert_eq. unfold fs_remove. destruct (remove_ok _); [|done].
  rewrite delete_insert_ne by done. by rewrite delete_delete_eq.
Qed.

(** A picture's thumbnail is the decrypted picture scaled to fit and
    encoded, is kept beside the other thumbnails with no temporary file left, and later requests are answered
    from there without reading the picture again. *)
Theorem picture_thumbnail_is_cached e te st q r key cs img out c t :
  picture_request e te st q r key ->
  ts_fs st !! img_path te r = None ->
  fc_CAS (ts_fc st) = Some c -> IsValidHash (fr_cas r) = true ->
  ts_fs st !! Path c (fr_cas r) = Some (mkFile (encode key cs) t) -> read_ok (os e) = true ->
  aes_key_ok key = true -> Forall good_chunk cs -> cs <> [] ->
  image_Decode te (concat cs) None = Some img -> 0 < im_w img -> 0 < im_h img ->
  jpeg_Encode te (uncurry (resizeImage img) (thumb_dims (im_w img) (im_h img))) = (out, true) ->
  create_ok (te_dir te) = true -> copy_fails (te_dir te) = None -> rename_ok (te_dir te) = true ->
  read_ok (te_dir te) = true ->
  let f := mkFile out (env_now (te_dir te)) in
  let '(st', resp) := ThumbnailFile e te st q in
  resp = ServeContent te (img_headers r) q (Base (img_path te r)) f /\
  ts_fs st' = <[img_path te r := f]> (delete (img_path te r +:+ ".tmp") (ts_fs st)) /\
  forall te2 q2, ThumbDir te2 = ThumbDir te -> read_ok (te_dir te2) = true -> dr_id q2 = dr_id q ->
    dr_if_none_match q2 = "" ->
    ThumbnailFile e te2 st' q2 = (st', ServeContent te2 (img_headers r) q2 (Base (img_path te r)) f).
Proof.
  intros Hpr Hno Hcas Hh Hblob Hread Hk Hcs Hne Hdec Hw Hht Hj Hcr Hcf Hrn Hrd f.
  destruct (ThumbnailFile_picture _ _ _ _ _ _ Hpr) as (fc & Hcv & ->).
  pose proof Hcv as (Hdb & Hcas1 & Hfs)%check_vault_frame. set (st1 := mkTS fc (svgCache st)).
  assert (ts_fs st1 = ts_fs st) as Hts by exact Hfs.
  destruct (make_image_thumb_stored e te st1 r key cs img out c t) as ((Hd2 & Hsv2) & Hch & Hfs2); try done.
  { by rewrite Hts. } { by cbn; rewrite Hcas1. } { by rewrite Hts. }
  set (st2 := make_image_thumb _ _ _ _ _ _) in *.
  assert (ts_fs st2 !! img_path te r = Some f) as Hin by (rewrite Hfs2; by apply lookup_insert_eq).
  assert (image_thumbnail e te st1 r key q =
    (st2, ServeContent te (img_headers r) q (Base (img_path te r)) f)) as ->.
  { unfold image_thumbnail. rewrite (pr_unconditional _ _ _ _ _ _ Hpr). cbn [String.eqb negb andb].
    fold (img_path te r). assert (fs_exists (ts_fs st1) (img_path te r) = false) as ->.
    { apply not_true_iff_false. rewrite fs_exists_spec, Hts, Hno. by intros [? ?]. }
    fold st2. assert (fs_exists (ts_fs st2) (img_path te r) = true) as -> by (apply fs_exists_spec; by rewrite Hin).
    unfold serve_file. by rewrite Hin, Hrd. }
  split; [done|]. split; [by rewrite Hfs2, Hts|]. intros te2 q2 Hdir Hr2 Hid Hc2.
  assert (img_path te2 r = img_path te r) as Hpath by (unfold img_path, thumb_path, thumb_dir; by rewrite Hdir).
  destruct Hpr as [Hf Hv Hkey Hp Hi Hs Hc].
  assert (check_vault e (ts_fc st2) r = (ts_fc st2, false)) as Hcv2.
  { apply check_vault_again in Hcv. revert Hcv. unfold check_vault. change (ts_fc st1) with fc in Hd2, Hch.
    rewrite Hd2, Hch. destruct (IsVaultFolder _ _ _) as [cc bb]. intros Heq.
    assert (fc_cache fc = cc /\ bb = false) as [<- ->] by (injection Heq as <- ->; done).
    f_equal. rewrite <- Hd2, <- Hch. by destruct (ts_fc st2). }
  destruct (ThumbnailFile_picture e te2 st2 q2 r key) as (fc2 & Hcv3 & ->).
  { split; try done; [|by rewrite Hcv2]. change (ts_fc st1) with fc in Hd2. by rewrite Hd2, Hid, Hdb. }
  rewrite Hcv2 in Hcv3. injection Hcv3 as <-.
  rewrite (image_thumbnail_cached e te2 _ r key q2 f Hc2 Hr2); rewrite Hpath; [|done].
  by destruct st2.
Qed.
End PictureClaims.

(** ** Witnesses *)

Section ThumbnailWitnesses.
Import ToyCrypto.

Definition th_hash : string := "00000000000000000000000000000000000000000000000000000000000000ff".
Definition th_row (name mime folder : string) : file_row := mkRow "f" 1 (Some folder) name mime 5 th_hash "" false.
Definition th_key : bytes := replicate 32 9.
Definition th_env (key : bytes) : req_env :=
  mkReqEnv (env_fine 5) [] (mkStore {["s" := mkEntry 1%nat 100]} {[1%nat := th_key]}) (Some "s") None None false
    (Some key) 0 true true true 0 (fun l => l).
Definition th_libs : thumb_env :=
  mkTE (env_fine 5) (env_fine 6) 1 2 (Ok (replicate 12 3)) ""
    (fun _ _ => Some (mkImage 0 0 512 2 (fun x y => (x, y, 0, 255))))
    (fun im => ([zlen im], true)) (fun d => (true, Some (7 :: d))) (fun _ => None) (fun _ => "image/png")
    (fun h _ _ f => mkDResp 200 h (f_data f)).
Definition th_state (r : file_row) (key : bytes) : thumb_state :=
  mkTS (mkFC (mkDB [] [r]) (Some dl_cas) {[Path dl_cas th_hash := mkFile (encode key dl_chunks) 0]} (mkVaultCache ∅ [] false)) ∅.
Definition th_request : download_request :=
  mkDownload "f" false "" "" "" "" "" (fun _ => None) (fun _ => None) (fun _ => "").

(** A document of the vault: its rendering is kept encrypted. *)
Lemma vault_thumbnail_leaves_no_plaintext_witness :
  let r := th_row "a.pdf" "application/pdf" "f2" in
  let st := th_state r th_key in
  dp_body (snd (ThumbnailFile (th_env dl_key) th_libs st th_request)) = [7; 1; 2; 3; 4; 5] /\
  quiet th_libs r th_key (ts_fs st) (ts_fs (fst (ThumbnailFile (th_env dl_key) th_libs st th_request))).
Proof.
  intros r st. split; [vm_compute; reflexivity|].
  destruct (vault_thumbnail_leaves_no_plaintext (th_env dl_key) th_libs st th_request r th_key
    (fst (ThumbnailFile (th_env dl_key) th_libs st th_request))
    (snd (ThumbnailFile (th_env dl_key) th_libs st th_request))) as (_ & _ & Hq & _);
    [reflexivity|reflexivity|reflexivity|reflexivity|apply surjective_pairing|exact Hq].
Defined.

Lemma thumbnail_fits_witness :
  let img := mkImage 3 4 512 2 (fun x y => (x, y, 0, 255)) in
  thumb_dims 512 2 = (256, 1) /\ zlen (resizeImage img 256 1) = 1.
Proof.
  intros img. split; [reflexivity|].
  destruct (thumbnail_fits img 256 1) as (_ & Hn & _); [reflexivity..|exact Hn].
Defined.

Lemma drawing_shows_first_name_witness :
  let r := th_row "divorce.txt" "text/plain" "f3" in
  let r2 := mkRow "g" 2 (Some "f3") "notes.txt" "text/plain" 5 th_hash "" false in
  let run r st := document_thumbnail (th_env dl_key) th_libs st r dl_key "txt" in
  fr_name r2 <> fr_name r /\ snd (run r2 (fst (run r (th_state r dl_key)))) = snd (run r (th_state r dl_key)).
Proof.
  intros r r2 run. split; [discriminate|].
  apply (drawing_shows_first_name (th_env dl_key) th_libs (th_state r dl_key) r dl_key r2 (th_env dl_key) th_libs dl_key
    (fst (run r (th_state r dl_key))) "txt" (fst (run r (th_state r dl_key)))); try reflexivity.
Defined.

Lemma foreign_vault_thumbnail_stays_witness :
  let r := th_row "a.pdf" "application/pdf" "f2" in
  let st := set_fs (th_state r th_key) (<[vault_enc_path th_libs r := mkFile (replicate 40 0) 1]> (ts_fs (th_state r th_key))) in
  snd (vault_thumbnail (th_env dl_key) th_libs st r th_key "pdf" true false) =
    vault_blob svg_mime (bytes_of_string (generatePdfSvgThumbnail "a.pdf")).
Proof.
  intros r st. pose proof (foreign_vault_thumbnail_stays (th_env dl_key) th_libs st r th_key "pdf" true false) as Hs.
  destruct (vault_thumbnail _ _ _ _ _ _ _ _) as [st' resp].
  apply Hs; [by left|vm_compute; reflexivity|vm_compute; reflexivity].
Defined.

Lemma picture_thumbnail_is_cached_witness :
  let r := th_row "a.png" "image/png" "f3" in
  let st := th_state r dl_key in
  let out := ThumbnailFile (th_env dl_key) th_libs st th_request in
  dp_body (snd out) = [1] /\ ThumbnailFile (th_env dl_key) th_libs (fst out) th_request = out.
Proof.
  intros r st out.
  pose proof (picture_thumbnail_is_cached (th_env dl_key) th_libs st th_request r dl_key dl_chunks
    (mkImage 0 0 512 2 (fun x y => (x, y, 0, 255))) [1] dl_cas 0) as Hp. cbv zeta in Hp. fold out in Hp.
  destruct out as [st' resp] eqn:Hout. cbn [fst snd].
  destruct Hp as (Hr & _ & Hagain);
    [split; vm_compute; reflexivity|vm_compute; reflexivity|reflexivity|reflexivity|vm_compute; reflexivity
    |reflexivity|reflexivity| |discriminate|vm_compute; reflexivity|reflexivity|reflexivity|vm_compute; reflexivity
    |reflexivity|reflexivity|reflexivity|reflexivity|].
  { repeat constructor; vm_compute; congruence. }
  rewrite (Hagain th_libs th_request), Hr by reflexivity. split; [reflexivity|]. by rewrite <- Hr.
Defined.

Lemma preview_shows_what_download_sends_witness :
  let r := th_row "a.txt" "text/plain" "f3" in
  dp_body (snd (PreviewFile (th_env dl_key) (ts_fc (th_state r dl_key)) [] th_request)) = [1; 2; 3; 4; 5].
Proof.
  intros r. destruct (preview_shows_what_download_sends (th_env dl_key) (ts_fc (th_state r dl_key)) [] th_request r
    (encode dl_key dl_chunks)) as [_ Hb]; [reflexivity|reflexivity|reflexivity|reflexivity|].
  rewrite Hb; [vm_compute; reflexivity|vm_compute; discriminate].
Defined.

End ThumbnailWitnesses.
