(* ===== verification/Accelerated.v ===== *)
(** * The accelerated mode of a task
    (internal/download/accelerated.go and manager.go)

    DownloadToFile resolves and probes the link, allocates the part file and
    runs the pool of Pieces; the goroutine of the task (DownloadTasks) then
    encrypts the part file, or falls back to a single stream.  A run of the
    pool is a sequence of events: the steps of workers, the reports of the
    ticker, and what other goroutines do to the tasks. *)

From S2P Require Import Prelude GoStrings FileSys CryptoPrims CryptoStream CAS UploadSession VaultTree Auth UploadCtrl NetGuard FileInfo Bitset Pieces DownloadTasks Links Resolver StartDownload.

#[local] Open Scope string_scope.
#[local] Open Scope list_scope.
#[local] Open Scope Z_scope.

Section Accelerated.
Context `{CryptoPrims}.
Context (float_scale : Z -> Z -> Z -> Z).

(** ** What a run meets *)

Inductive accel_event :=
| PoolStep (ev : pool_event)
| Quit (wid : Z)
| Tick (speed : string) (threads : Z)
| Others (ops : list dm_op).

(** The answers of the network at each stage, the files' fortunes, the journal
    found with what its validation says, the run of the pool. *)
Record accel_env := mkAE {
  ae_cfg : AcceleratedConfig;
  (** the goroutine's own probe *)
  ae_eligible : link_env;
  ae_resolve : link_env;
  ae_probe : link_env;
  ae_open_ok : bool;
  ae_truncate_ok : bool;
  ae_rewind_ok : bool;
  ae_saved : option (DownloadState * bool);
  ae_start : Z;
  ae_run : list accel_event
}.

(** ** The run of the pool *)

(** The pool, the bytes counted, and the tasks. *)
Record accel := mkAccel { ac_pool : pool; ac_counter : Z; ac_dm : dm_state }.

(** What a report of the ticker does to the task. *)
Definition report_accel (e : req_env) (currentUsed downloaded total : Z) (speed : string) (threads : Z)
    (t : DownloadTask) : DownloadTask :=
  if (0 <? QuotaBytes e) && (QuotaBytes e <? i64 (currentUsed + downloaded))
  then failTask (now_ e) quota_message (cancel_func t)
  else
    let t1 := set_downloaded t downloaded in
    let t2 := if 0 <? total
              then set_info t1 (mkInfo (fi_Filename (t_info t1)) (fi_MimeType (t_info t1)) total) else t1 in
    let l := t_life t2 in
    let progress :=
      if 0 <? total then
        let calc := float_scale downloaded total 88 in 5 + (if 90 <? calc then 90 else calc)
      else 45 in
    set_life t2 (mkLife (Status l) ("Mengunduh (" +:+ FormatInt threads +:+ " thread akselerasi)...") speed progress
      (ErrorMessage l) (t_CompletedAt l)).

Definition received (ev : pool_event) : Z := match ev with Receive _ _ d => zlen d | _ => 0 end.

(** A worker looks at the context before it takes a piece and before it
    reads; one that finds it done gives its piece up without requeuing it. *)
Definition accel_step (e : req_env) (r : nat) (currentUsed total : Z) (a : accel) (ev : accel_event) : option accel :=
  match ev with
  | PoolStep pe =>
      let looks := match pe with Take _ _ | Receive _ _ _ | FailPiece _ => true | _ => false end in
      if looks && ctx_done (ac_dm a) r then None
      else
        match pool_step (ac_pool a) pe with
        | Some p => Some (mkAccel p (i64 (ac_counter a + received pe)) (ac_dm a))
        | None => None
        end
  | Quit w =>
      match po_jobs (ac_pool a) !! w with
      | Some (Pieces.mkJob _ _ _ false) =>
          if ctx_done (ac_dm a) r
          then Some (mkAccel (set_coord (ac_pool a) (po_coord (ac_pool a)) (delete w (po_jobs (ac_pool a))))
                       (ac_counter a) (ac_dm a))
          else None
      | _ => None
      end
  | Tick speed threads =>
      Some (mkAccel (ac_pool a) (ac_counter a)
              (update (ac_dm a) r (report_accel e currentUsed (ac_counter a) total speed threads)))
  | Others ops => Some (mkAccel (ac_pool a) (ac_counter a) (dm_steps (ac_dm a) ops))
  end.

Fixpoint accel_run (e : req_env) (r : nat) (currentUsed total : Z) (a : accel) (evs : list accel_event) : option accel :=
  match evs with
  | [] => Some a
  | ev :: evs' =>
      match accel_step e r currentUsed total a ev with
      | Some a' => accel_run e r currentUsed total a' evs'
      | None => None
      end
  end.

(** wg.Wait() returns: no worker holds a piece, and each has seen that all is
    done or that the context is. *)
Definition workers_done (r : nat) (a : accel) : bool :=
  bool_decide (po_jobs (ac_pool a) = ∅) && (IsCompleted (po_coord (ac_pool a)) || ctx_done (ac_dm a) r).

(** ** DownloadToFile *)

(** The description passed on before the transfer. *)
Definition on_meta_accel (hasCustomName : bool) (meta : DirectFileInfo) (t : DownloadTask) : DownloadTask :=
  let i := t_info t in
  let name := if negb hasCustomName && negb (String.eqb (fi_Filename meta) "")
                 && negb (HasPrefix (fi_Filename meta) "download_") then fi_Filename meta else fi_Filename i in
  let total := if 0 <? fi_TotalBytes meta then fi_TotalBytes meta else fi_TotalBytes i in
  let mime := if String.eqb (fi_MimeType meta) "" then fi_MimeType i else fi_MimeType meta in
  set_info t (mkInfo name mime total).

Definition sentinel : string := "remote resource does not support range acceleration".

(** What is to be transferred. *)
Definition probe_target (ae : accel_env) (url : string) : answer (string * ProbeResult) :=
  match ResolveLink (ae_resolve ae) 0 url with
  | Panic => Panicked
  | ResolveError msg => Failure ("failed resolving target link: " +:+ msg)
  | Resolved resolved =>
      let execURL := ResolvedURL resolved in
      match ValidateSafeURL (link_net (ae_resolve ae)) 1 execURL false with
      | Refused why => Failure why
      | Allowed =>
          match ProbeLink (ae_probe ae) execURL with
          | Panicked => Panicked
          | Failure msg => Failure ("preflight probe failed: " +:+ msg)
          | Answer p =>
              if negb (pr_Resumable p) || (pr_FileSize p <? MinAccelerationBytes (ae_cfg ae))
              then Failure sentinel
              else Answer (execURL, p)
          end
      end
  end.

(** The description, refined by the first bytes on disk. *)
Definition refine_info (ae : accel_env) (info : DirectFileInfo) (file : bytes) : DirectFileInfo :=
  let '(name, mime) := SniffMagicBytes (Resolver.DetectContentType (ae_probe ae)) (ztake 512 file)
                         (fi_Filename info) (fi_MimeType info) in
  mkInfo name mime (fi_TotalBytes info).

(** The tasks, the part file and the answer; [None]: [ae_run] is not a run of
    this pool to its end. *)
Definition DownloadToFile (e : req_env) (ae : accel_env) (r : nat) (currentUsed : Z) (hasCustomName : bool)
    (taskID url : string) (part : bytes) (st : dm_state) : option (dm_state * bytes * answer DirectFileInfo) :=
  match probe_target ae url with
  | Panicked => Some (st, part, Panicked)
  | Failure msg => Some (st, part, Failure msg)
  | Answer (execURL, probe) =>
      if negb (ae_truncate_ok ae) then Some (st, part, Failure "failed to pre-allocate sparse file")
      else
        let total := pr_FileSize probe in
        let state := choose_state (ae_start ae) (ae_cfg ae) taskID url execURL (pr_FinalURL probe) total (ae_saved ae) in
        let info := mkInfo (pr_Filename probe) (pr_MimeType probe) total in
        let st1 := update st r (on_meta_accel hasCustomName info) in
        let a0 := mkAccel (start_pool (ae_cfg ae) total state part)
                    (snd (start_coordinator (ae_cfg ae) total state)) st1 in
        match accel_run e r currentUsed total a0 (ae_run ae) with
        | None => None
        | Some a =>
            let file := po_file (ac_pool a) in
            if negb (workers_done r a) then None
            else if negb (IsCompleted (po_coord (ac_pool a)))
            then Some (ac_dm a, file, Failure (Error err_canceled))
            else
              Some (update (ac_dm a) r (report_accel e currentUsed total total "Idle" 0), file,
                    Answer (refine_info ae info file))
        end
  end.

(** ** The goroutine (manager.go) *)

(** io.Copy from the part file: 32 KiB at a time. *)
Definition copy_size : Z := 32 * 1024.

Fixpoint pieces_of (fuel : nat) (b : bytes) : list bytes :=
  match fuel with
  | O => []
  | S f => if zlen b =? 0 then [] else ztake copy_size b :: pieces_of f (zdrop copy_size b)
  end.

Definition file_pieces (b : bytes) : list bytes := pieces_of (S (length b)) b.

Fixpoint write_all (cap : Z) (w : worker) (l : list bytes) : worker * option gerror :=
  match l with
  | [] => (w, None)
  | b :: l' =>
      match multi_write cap w b with
      | (w', Some er) => (w', Some er)
      | (w', None) => write_all cap w' l'
      end
  end.

(** The task while it is encrypted into the store. *)
Definition encrypting (t : DownloadTask) : DownloadTask :=
  let l := t_life t in
  set_life t (mkLife (Status l) "Mengenkripsi ke CAS..." "Optimizing..." 92 (ErrorMessage l) (t_CompletedAt l)).

(** How the accelerated attempt ends: with the payload encrypted, with the
    task over, in a crash, or without having written anything. *)
Inductive attempt :=
| Encrypted (info : DirectFileInfo)
| Over
| Crash
| Fallback.

Definition try_accelerated (e : req_env) (ae : accel_env) (r : nat) (currentUsed : Z) (hasCustomName : bool)
    (taskID url : string) (w : worker) : option (worker * attempt) :=
  match ProbeLink (ae_eligible ae) url with
  | Panicked => Some (w, Crash)
  | Failure _ => Some (w, Fallback)
  | Answer p =>
      if negb (pr_Resumable p && (MinAccelerationBytes (ae_cfg ae) <=? pr_FileSize p)) || negb (ae_open_ok ae)
      then Some (w, Fallback)
      else
        match DownloadToFile e ae r currentUsed hasCustomName taskID url [] (w_dm w) with
        | None => None
        | Some (st1, part, answer) =>
            let w1 := mkWorker st1 (w_es w) (w_hash w) in
            match answer with
            | Panicked => Some (w1, Crash)
            | Failure _ =>
                if ctx_done st1 r
                then Some (on_dm w1 (fun st => update st r (cancelTask (now_ e))), Over)
                else Some (w1, Fallback)
            | Answer info =>
                let w2 := on_dm w1 (fun st => update st r encrypting) in
                if negb (ae_rewind_ok ae)
                then Some (on_dm w2 (fun st => update st r (failTask (now_ e) "Failed rewinding scratch file: ")), Over)
                else
                  match write_all (disk_cap e) w2 (file_pieces part) with
                  | (w3, Some _) =>
                      Some (on_dm w3 (fun st => update st r (failTask (now_ e) "Encryption stream failed: ")), Over)
                  | (w3, None) => Some (w3, Encrypted info)
                  end
            end
        end
  end.

(** The direct branch: accelerated, or else streamed from [reply].  The inner
    [None] is a task that is over. *)
Inductive fetched := Fetched (result : worker * option (string * string)) | Crashed.

Definition name_and_type (r : nat) (hasCustomName : bool) (info : DirectFileInfo) (w : worker)
  : worker * option (string * string) :=
  let current := from_option (fun t => fi_Filename (t_info t)) "" (dm_objs (w_dm w) !! r) in
  let name := if hasCustomName && negb (String.eqb current "") then current else fi_Filename info in
  (on_dm w (fun st => update st r (fun t =>
     set_info t (mkInfo (fi_Filename (t_info t)) (fi_MimeType (t_info t)) (fi_TotalBytes info)))),
   Some (name, fi_MimeType info)).

Definition fetch_direct (e : req_env) (ae : accel_env) (r : nat) (currentUsed : Z) (hasCustomName : bool)
    (taskID url : string) (reply : result (DirectFileInfo * list read_event)) (w : worker) : option fetched :=
  match try_accelerated e ae r currentUsed hasCustomName taskID url w with
  | None => None
  | Some (w1, Crash) => Some Crashed
  | Some (w1, Over) => Some (Fetched (w1, None))
  | Some (w1, Encrypted info) => Some (Fetched (name_and_type r hasCustomName info w1))
  | Some (w1, Fallback) => Some (Fetched (fetch float_scale e r currentUsed hasCustomName (FetchDirect reply) w1))
  end.

(** executeDownload for a direct link: the manager it leaves, or a crash of
    the program; [None] when [ae_run] is not a run. *)
Inductive execution := Leaves (st : dm_state) | Crashes.

Definition executeDirect (e : req_env) (ae : accel_env) (st : dm_state) (r : nat) (isVault : bool) (vaultKey : bytes)
    (hasCustomName : bool) (reply : result (DirectFileInfo * list read_event)) (late : list dm_op) : option execution :=
  match dm_objs st !! r, begin_download e st r isVault vaultKey with
  | Some t, Running w currentUsed temp =>
      match fetch_direct e ae r currentUsed hasCustomName (t_ID t) (t_URL t) reply w with
      | None => None
      | Some Crashed => Some Crashes
      | Some (Fetched f) => Some (Leaves (end_download e r temp late f))
      end
  | _, Ended st' => Some (Leaves st')
  | None, Running _ _ _ => Some (Leaves st)
  end.

End Accelerated.
