(* ===== verification/AcceleratedProps.v ===== *)
(** * Properties of the accelerated mode

    From the pool of workers to the store: a task downloaded in pieces ends
    with exactly the remote file, encrypted and recorded, or as a cancelled
    one; and what the counter of its progress does to the quota. *)

From S2P Require Import Prelude GoStrings FileSys CryptoPrims CryptoStream CryptoStreamFacts CAS CASProps UploadSession VaultTree Auth UploadCtrl UploadFacts NetGuard FileInfo Bitset Pieces PiecesFacts PiecesProps DownloadTasks DownloadTasksProps Links Resolver ResolverProps StartDownload Accelerated.

#[local] Open Scope string_scope.
#[local] Open Scope list_scope.
#[local] Open Scope Z_scope.

(** ** Pieces of a copied file *)

Lemma pieces_of_spec fuel b : (length b < fuel)%nat ->
  concat (pieces_of fuel b) = b /\ Forall (fun p => p <> [] /\ zlen p <= copy_size) (pieces_of fuel b).
Proof.
  revert b. induction fuel as [|f IH]; intros b Hf; [lia|]. cbn [pieces_of].
  destruct (Z.eqb_spec (zlen b) 0) as [Hz|Hz]; [rewrite (zlen_nil_inv b) by lia; by split|].
  pose proof (zlen_nonneg b) as Hn. unfold copy_size in *.
  assert (length (zdrop (32 * 1024) b) < f)%nat as Hd.
  { unfold zdrop. rewrite length_drop. unfold zlen in *. lia. }
  destruct (IH _ Hd) as [Hc Hall]. cbn [concat]. rewrite Hc, ztake_zdrop. split; [done|].
  constructor; [|done]. pose proof (zlen_ztake (32 * 1024) b) as Hl. split; [|lia].
  intros He. rewrite He in Hl. change (zlen (@nil Z)) with 0 in Hl. lia.
Qed.

Lemma file_pieces_spec b :
  concat (file_pieces b) = b /\ Forall (fun p => p <> [] /\ zlen p <= copy_size) (file_pieces b).
Proof. apply pieces_of_spec. lia. Qed.

Lemma nonempty_all l : Forall (fun p : bytes => p <> [] /\ zlen p <= copy_size) l -> nonempty_segs l = l.
Proof.
  induction 1 as [|p l [Hp _] _ IH]; [done|]. unfold nonempty_segs in *. by rewrite filter_cons_True, IH.
Qed.

Section AcceleratedFacts.
Context `{CryptoLaws}.
Context (float_scale : Z -> Z -> Z -> Z).

(** ** Encrypting the part file *)

Lemma write_all_ok key cap l : forall w,
  aes_key_ok key = true -> es_key (w_es w) = key -> bw_err (es_w (w_es w)) = None ->
  Forall (fun p => p <> [] /\ zlen p <= copy_size) l ->
  zlen (bw_total (es_w (w_es w))) + zlen (encode key l) <= cap ->
  exists w', write_all cap w l = (w', None) /\ w_dm w' = w_dm w /\ es_key (w_es w') = key /\
    bw_err (es_w (w_es w')) = None /\
    bw_total (es_w (w_es w')) = bw_total (es_w (w_es w)) ++ encode key l /\ w_hash w' = w_hash w ++ concat l.
Proof.
  induction l as [|p l IH]; intros w Hk Hkey Herr Hall Hcap.
  { exists w. cbn. rewrite !app_nil_r. done. }
  inversion_clear Hall as [|? ? [Hp _] Hl]. rewrite encode_cons, zlen_app in Hcap.
  pose proof (zlen_nonneg (encode key l)) as Hn. apply zlen_pos in Hp as Hpos.
  destruct (bw_write_ok cap (es_w (w_es w)) (packet key p) Herr) as (b & Hb & He & Htot); [lia|].
  cbn [write_all]. unfold multi_write, enc_write. destruct (Z.eqb_spec (zlen p) 0); [lia|].
  rewrite Hkey, Hb.
  destruct (IH (mkWorker (w_dm w) (mkEnc b key) (w_hash w ++ p))) as (w' & -> & Hdm & Hk' & He' & Ht' & Hh');
    try done; cbn [w_es es_w].
  { rewrite Htot, zlen_app. lia. }
  exists w'. cbn [w_es es_w w_hash w_dm] in *. do 4 (split; [done|]).
  rewrite Ht', Htot, Hh', encode_cons, <- !app_assoc. done.
Qed.

(** ** The run *)

Lemma dm_steps_info ops st r t : dm_objs st !! r = Some t ->
  exists t', dm_objs (dm_steps st ops) !! r = Some t' /\ same_task t t' /\ t_info t' = t_info t /\
    ErrorMessage (t_life t') = ErrorMessage (t_life t).
Proof.
  revert st t. induction ops as [|o ops IH]; intros st t Ht; [by exists t|]. cbn.
  destruct (dm_step_task st o r t Ht) as (t1 & Ht1 & Htt).
  destruct (IH _ _ Ht1) as (t2 & Ht2 & Hs & Hi & He). exists t2. split; [done|].
  pose proof (touched_same _ _ Htt) as (Hs1 & _ & He1). split; [by etrans|].
  destruct Htt as [->|(_ & now & ->)]; [done|]. by rewrite Hi, He.
Qed.

(** What a report under the quota leaves of the task. *)
Lemma report_accel_under e used n total speed threads t : exceeds e used n = false ->
  let t' := report_accel float_scale e used n total speed threads t in
  same_task t t' /\ t_cancelled t' = t_cancelled t /\ DownloadedBytes t' = n /\
  ErrorMessage (t_life t') = ErrorMessage (t_life t) /\ fi_Filename (t_info t') = fi_Filename (t_info t).
Proof. unfold exceeds, report_accel. intros ->. destruct (0 <? total); by cbn. Qed.

Section Run.
Context (e : req_env) (r : nat) (used : Z) (remote : bytes) (bs : Z).
Notation total := (zlen remote).
Context (Hsizes : sizes_ok total bs).

(** The server sends the bytes of the remote file that it is asked for. *)
Fixpoint honest_events (a : accel) (evs : list accel_event) : Prop :=
  match evs with
  | [] => True
  | ev :: evs' =>
      match ev with PoolStep pe => honest remote (ac_pool a) pe | _ => True end /\
      forall a', accel_step float_scale e r used total a ev = Some a' -> honest_events a' evs'
  end.

Definition received_by (ev : accel_event) : Z := match ev with PoolStep pe => received pe | _ => 0 end.

Definition all_received (evs : list accel_event) : Z := foldr Z.add 0 (map received_by evs).

Lemma received_nonneg ev : 0 <= received_by ev.
Proof. destruct ev as [[]| | |]; cbn; try done. apply zlen_nonneg. Qed.

Lemma all_received_nonneg evs : 0 <= all_received evs.
Proof.
  induction evs as [|ev evs IH]; [done|]. unfold all_received in *. cbn.
  pose proof (received_nonneg ev). lia.
Qed.

(** Before every event: the pool is sound, the counter is small, and of the
    tasks only the life of ours has changed. *)
Record run_ok (st : dm_state) (t : DownloadTask) (a : accel) (left : Z) : Prop := {
  rk_pool : pool_inv remote bs (ac_pool a);
  rk_counter : 0 <= ac_counter a;
  rk_small : ac_counter a + left < 2 ^ 63;
  rk_quota : forall n, 0 <= n <= ac_counter a + left -> exceeds e used n = false;
  rk_store : same_store st (ac_dm a);
  rk_obj : exists t', dm_objs (ac_dm a) !! r = Some t' /\ same_task t t' /\
    fi_Filename (t_info t') = fi_Filename (t_info t) /\ ErrorMessage (t_life t') = ErrorMessage (t_life t)
}.

Lemma drop_job_inv p w : pool_inv remote bs p -> pool_inv remote bs (set_coord p (po_coord p) (delete w (po_jobs p))).
Proof.
  intros []. split; try done. cbn [set_coord po_jobs po_coord po_file].
  intros w' j [_ Hj]%lookup_delete_Some. by eapply inv_jobs.
Qed.

Lemma accel_step_ok st t a ev a' left :
  run_ok st t a (received_by ev + left) -> 0 <= left ->
  match ev with PoolStep pe => honest remote (ac_pool a) pe | _ => True end ->
  accel_step float_scale e r used total a ev = Some a' -> run_ok st t a' left.
Proof.
  intros [Hp Hc Hs Hq Hst (t' & Ht' & Hsame & Hname & Hmsg)] Hl Hh Hstep.
  pose proof (received_nonneg ev) as Hr.
  destruct ev as [pe|w|speed threads|ops]; cbn [accel_step received_by] in *.
  - assert (exists p, pool_step (ac_pool a) pe = Some p /\
      a' = mkAccel p (i64 (ac_counter a + received pe)) (ac_dm a)) as (p & Hpe & ->).
    { revert Hstep. destruct (_ && _); [done|]. destruct (pool_step _ _) as [p|]; [|done].
      intros [= <-]. by exists p. }
    rewrite i64_id by (unfold in_i64; lia). split; cbn [ac_pool ac_counter ac_dm]; try lia; try done.
    + by eapply pool_step_inv.
    + intros n Hn. apply Hq. lia.
    + by exists t'.
  - destruct (po_jobs (ac_pool a) !! w) as [[i off n []]|]; try done. destruct (ctx_done _ _); [|done].
    injection Hstep as <-. split; cbn [ac_pool ac_counter ac_dm]; try lia; try done; [by apply drop_job_inv|by exists t'].
  - injection Hstep as <-. split; cbn [ac_pool ac_counter ac_dm]; try lia; try done.
    rewrite lookup_update, decide_True, Ht' by done. eexists. split; [reflexivity|].
    destruct (report_accel_under e used (ac_counter a) total speed threads t') as (H1 & _ & _ & H4 & H5);
      [apply Hq; lia|]. split; [by etrans|]. split; congruence.
  - injection Hstep as <-. split; cbn [ac_pool ac_counter ac_dm]; try lia; try done.
    + etrans; [exact Hst|]. apply dm_steps_frame.
    + destruct (dm_steps_info ops _ _ _ Ht') as (t2 & Ht2 & Hs2 & Hi2 & He2). exists t2.
      split; [done|]. split; [by etrans|]. split; congruence.
Qed.

Lemma accel_run_ok st t evs : forall a a', run_ok st t a (all_received evs) -> honest_events a evs ->
  accel_run float_scale e r used total a evs = Some a' -> run_ok st t a' 0.
Proof.
  induction evs as [|ev evs IH]; intros a a' Hok Hh Hrun; [by injection Hrun as <-|].
  cbn [accel_run] in Hrun. destruct Hh as [Hev Hrest].
  destruct (accel_step _ _ _ _ _ a ev) as [a1|] eqn:Hs; [|done].
  eapply IH; [|by apply Hrest|exact Hrun]. eapply accel_step_ok; [exact Hok|apply all_received_nonneg|done|done].
Qed.
End Run.

(** The state a transfer of [remote] starts from. *)
Definition first_state (ae : accel_env) (t : DownloadTask) (execURL : string) (probe : ProbeResult) : DownloadState :=
  choose_state (ae_start ae) (ae_cfg ae) (t_ID t) (t_URL t) execURL (pr_FinalURL probe) (pr_FileSize probe) (ae_saved ae).

Definition probed_info (probe : ProbeResult) : DirectFileInfo :=
  mkInfo (pr_Filename probe) (pr_MimeType probe) (pr_FileSize probe).

Definition first_accel (ae : accel_env) (r : nat) (hasCustomName : bool) (t : DownloadTask) (execURL : string)
    (probe : ProbeResult) (st : dm_state) : accel :=
  mkAccel (start_pool (ae_cfg ae) (pr_FileSize probe) (first_state ae t execURL probe) [])
    (snd (start_coordinator (ae_cfg ae) (pr_FileSize probe) (first_state ae t execURL probe)))
    (update st r (on_meta_accel hasCustomName (probed_info probe))).

Lemma fresh_not_done now t u rr e l total bs i : block_done (NewDownloadState now t u rr e l total bs) i = false.
Proof. unfold block_done. cbn [st_bitset NewDownloadState]. apply NewBitset_clear. Qed.

Lemma fresh_start cfg total now t u rr e l : sizes_ok total (block_size cfg total) ->
  snd (start_coordinator cfg total (NewDownloadState now t u rr e l total (block_size cfg total))) = 0.
Proof.
  intros Hs. set (st := NewDownloadState _ _ _ _ _ _ _ _).
  destruct (start_coordinator cfg total st) as [pc n] eqn:Hst.
  destruct (start_pieces cfg total st pc n Hs (NewDownloadState_ok _ _ _ _ _ _ _ _) Hst) as (_ & _ & -> & _ & Hp).
  cbn [snd]. apply done_bytes_none, Forall_forall. intros p [i Hi]%list_elem_of_lookup.
  destruct (Hp i p Hi) as (_ & _ & _ & ->). apply fresh_not_done.
Qed.

Lemma first_run_ok e ae r used hasCustomName t execURL probe st remote :
  let bs := block_size (ae_cfg ae) (zlen remote) in
  pr_FileSize probe = zlen remote -> sizes_ok (zlen remote) bs -> ae_saved ae = None ->
  0 <= used -> QuotaBytes e <= 0 \/ QuotaBytes e < 2 ^ 63 ->
  under_quota e used (zlen remote + all_received (ae_run ae)) -> all_received (ae_run ae) < 2 ^ 62 ->
  dm_objs st !! r = Some t ->
  run_ok e r used remote bs st (on_meta_accel hasCustomName (probed_info probe) t)
    (first_accel ae r hasCustomName t execURL probe st) (all_received (ae_run ae)).
Proof.
  intros bs Hsz Hs Hsaved Hu Hq Hquota Hall Ht. unfold first_accel, first_state, choose_state. rewrite Hsaved, Hsz.
  change (ComputeDynamicBlockSize _ _ _) with bs. pose proof (zlen_nonneg remote) as Hn.
  set (fresh := NewDownloadState _ _ _ _ _ _ _ _).
  assert (snd (start_coordinator (ae_cfg ae) (zlen remote) fresh) = 0) as -> by (by apply fresh_start).
  split; cbn [ac_pool ac_counter ac_dm]; try lia; try done.
  - apply start_pool_inv; [done|apply NewDownloadState_ok|].
    intros i Hi. unfold fresh in Hi. by rewrite fresh_not_done in Hi.
  - intros n Hn'. eapply exceeds_under; [done|done|exact Hquota|lia].
  - eexists. split; [by rewrite lookup_update, decide_True, Ht|done].
Qed.

(** A reading of the last report: nothing is over the quota. *)
Lemma ctx_done_cancelled st r : ctx_done st r = true -> exists t, dm_objs st !! r = Some t /\ t_cancelled t = true.
Proof. unfold ctx_done. destruct (dm_objs st !! r) as [t|]; [|done]. by exists t. Qed.

(** How DownloadToFile ends when its probes succeed. *)
Lemma download_to_file_cases e ae r used hasCustomName t execURL probe st remote res :
  let bs := block_size (ae_cfg ae) (zlen remote) in
  let info := probed_info probe in
  let t1 := on_meta_accel hasCustomName info t in
  probe_target ae (t_URL t) = Answer (execURL, probe) ->
  pr_FileSize probe = zlen remote -> sizes_ok (zlen remote) bs -> ae_saved ae = None -> ae_truncate_ok ae = true ->
  0 <= used -> QuotaBytes e <= 0 \/ QuotaBytes e < 2 ^ 63 ->
  under_quota e used (zlen remote + all_received (ae_run ae)) -> all_received (ae_run ae) < 2 ^ 62 ->
  dm_objs st !! r = Some t ->
  honest_events e r used remote (first_accel ae r hasCustomName t execURL probe st) (ae_run ae) ->
  DownloadToFile float_scale e ae r used hasCustomName (t_ID t) (t_URL t) [] st = Some res ->
  exists st', same_store st st' /\
    (exists t', dm_objs st' !! r = Some t' /\ same_task t t' /\ fi_Filename (t_info t') = fi_Filename (t_info t1) /\
       ErrorMessage (t_life t') = ErrorMessage (t_life t) /\
       ((res = (st', remote, Answer (refine_info ae info remote)) /\ DownloadedBytes t' = zlen remote) \/
        exists file msg, res = (st', file, Failure msg) /\ ctx_done st' r = true)).
Proof.
  intros bs info t1 Hprobe Hsz Hs Hsaved Htr Hu Hq Hquota Hall Ht Hhon. unfold DownloadToFile.
  rewrite Hprobe, Htr. cbn [negb].
  pose proof (first_run_ok e ae r used hasCustomName t execURL probe st remote Hsz Hs Hsaved Hu Hq Hquota Hall Ht) as Hok.
  change (mkAccel _ _ _) with (first_accel ae r hasCustomName t execURL probe st). rewrite Hsz.
  destruct (accel_run _ _ _ _ _ _ _) as [a|] eqn:Hrun; [|done].
  pose proof (accel_run_ok e r used remote bs Hs st _ _ _ _ Hok Hhon Hrun)
    as [Hp Hc Hsm Hx Hst (t' & Ht' & Hsame & Hname & Hmsg)].
  assert (same_task t t1) as Hs1 by done. assert (ErrorMessage (t_life t1) = ErrorMessage (t_life t)) as Hm1 by done.
  unfold workers_done. destruct (bool_decide _); cbn [andb negb]; [|done].
  destruct (IsCompleted _) eqn:Hdone; cbn [orb negb].
  - intros [= <-]. rewrite (complete_file remote bs Hs _ Hp Hdone).
    exists (update (ac_dm a) r (report_accel float_scale e used (zlen remote) (zlen remote) "Idle" 0)).
    split; [exact Hst|]. rewrite lookup_update, decide_True, Ht' by done.
    eexists. split; [reflexivity|].
    destruct (report_accel_under e used (zlen remote) (zlen remote) "Idle" 0 t') as (K1 & _ & K3 & K4 & K5).
    { eapply exceeds_under; [done|done|exact Hquota|]. pose proof (all_received_nonneg (ae_run ae)).
      pose proof (zlen_nonneg remote). lia. }
    split; [etrans; [exact Hs1|]; etrans; [exact Hsame|exact K1]|].
    split; [by rewrite K5, Hname|]. split; [by rewrite K4, Hmsg|]. left. split; [|done].
    unfold info, probed_info. by rewrite Hsz.
  - destruct (ctx_done (ac_dm a) r) eqn:Hcd; cbn [negb]; [|done]. intros [= <-].
    exists (ac_dm a). split; [done|]. exists t'. split; [done|]. split; [etrans; [exact Hs1|exact Hsame]|].
    split; [done|]. split; [by rewrite Hmsg|].
    right. by eexists _, _.
Qed.

(** Stored, or cancelled without a trace. *)
Definition cancelled (e : req_env) (st st' : dm_state) (r : nat) (t : DownloadTask) : Prop :=
  (exists t', dm_objs st' !! r = Some t' /\ Status (t_life t') = StatusCancelled /\ t_cancelled t' = true) /\
  dm_DB st' = dm_DB st /\ dm_CAS st' = dm_CAS st /\ dm_fs st' !! tempPath st (t_ID t) = None.

Lemma give_up_cancelled e st r t w : undisturbed e ->
  same_store (put_file e (tempPath st (t_ID t)) [] st) (w_dm w) -> ctx_done (w_dm w) r = true ->
  cancelled e st (give_up_download e r (tempPath st (t_ID t))
    (on_dm w (fun st => update st r (cancelTask (now_ e))))) r t.
Proof.
  intros (_ & _ & _ & _ & Hrm & _) (Htmp & Hcas & Hdb & Hfs) (u & Hu & Hcan)%ctx_done_cancelled.
  unfold give_up_download, cleanup_temp. cbn [on_dm w_dm put_file with_fs dm_objs].
  rewrite lookup_update, decide_True, Hu by done. cbn [fmap option_fmap option_map cancelTask set_life t_life Status].
  rewrite bool_decide_eq_false_2 by done. split; [|split; [by cbn|split; [by cbn|]]].
  - cbn [with_fs put_file dm_objs]. rewrite lookup_update, decide_True, Hu by done. eexists. split; [reflexivity|]. done.
  - cbn [with_fs dm_fs]. unfold fs_remove. rewrite Hrm. apply lookup_delete_eq.
Qed.

(** The goroutine from the end of a complete transfer on. *)
Lemma encrypted_completes e st r t d isVault vk key hasCustomName remote info late w t' :
  startable e st r t d isVault vk key -> 33 * zlen remote <= disk_cap e ->
  same_store (put_file e (tempPath st (t_ID t)) [] st) (w_dm w) ->
  w_es w = mkEnc (mkBW [] [] None) key -> w_hash w = [] ->
  dm_objs (w_dm w) !! r = Some t' -> same_task t t' -> ErrorMessage (t_life t') = ErrorMessage (t_life t) ->
  (hasCustomName = true -> fi_Filename (t_info t') = fi_Filename (t_info t)) -> DownloadedBytes t' = zlen remote ->
  exists w3, write_all (disk_cap e) (on_dm w (fun st => update st r encrypting)) (file_pieces remote) = (w3, None) /\
    stored e st (end_download e r (tempPath st (t_ID t)) late (name_and_type r hasCustomName info w3)) r t d key
      (file_pieces remote) (final_name hasCustomName t info) (fi_MimeType info) (zlen remote) (ErrorMessage (t_life t)).
Proof.
  intros [Henv Hinv Hout Hdb _ _ _ Haes _ _] Hcap Hst Hes Hh Hobj Hsame Hmsg Hname Hbytes.
  destruct (file_pieces_spec remote) as [Hcat Hall].
  assert (zlen (encode key (file_pieces remote)) <= disk_cap e) as Hroom.
  { etrans; [apply encode_room; [done|]|by rewrite Hcat].
    eapply Forall_impl; [exact Hall|]. by intros p [Hp _]. }
  destruct (write_all_ok key (disk_cap e) (file_pieces remote) (on_dm w (fun st => update st r encrypting)))
    as (w3 & -> & Hdm & Hk3 & He3 & Ht3 & Hh3); try done; cbn [on_dm w_es w_dm w_hash] in *; try (by rewrite Hes).
  exists w3. split; [done|]. set (u := encrypting t').
  assert (dm_objs (w_dm w3) !! r = Some u) as Hu by (rewrite Hdm, lookup_update, decide_True, Hobj by done; done).
  unfold name_and_type. rewrite Hu. cbn [from_option].
  assert ((if hasCustomName && negb (String.eqb (fi_Filename (t_info u)) "") then fi_Filename (t_info u) else fi_Filename info)
    = final_name hasCustomName t info) as ->.
  { unfold final_name. destruct hasCustomName; [|done]. by rewrite <- Hname. }
  unfold end_download. rewrite Hes in Ht3. cbn [es_w bw_total bw_file bw_buf app] in Ht3.
  set (g := fun t : DownloadTask => set_info t _).
  rewrite <- Hbytes, <- Hmsg. change (DownloadedBytes t') with (DownloadedBytes (g u)).
  change (ErrorMessage (t_life t')) with (ErrorMessage (t_life (g u))).
  apply finish_completes; try done; cbn [on_dm w_es w_dm w_hash]; rewrite ?(nonempty_all _ Hall); try done.
  - rewrite Hdm. done.
  - by rewrite lookup_update, decide_True, Hu.
  - by rewrite Hh3, Hh.
Qed.

(** C26: An accelerated download is all or nothing: whatever the interleaving of its
    workers, its reports and the other goroutines, and however often pieces fail and are fetched again,
    the goroutine either stores exactly the remote file - encrypted in
    readable frames under the task's key, named by the hash of the ciphertext, with one row of the
    file's size and hash and the task Completed - or, when its context was cancelled before
    the last piece, leaves a cancelled task and no row, no blob and no temporary
    file; given that the server sends the bytes it is asked for and nothing goes over the
    quota. *)
Theorem accelerated_task_stores_payload e ae st r t d isVault vk key hasCustomName reply late p execURL probe remote x :
  startable e st r t d isVault vk key ->
  ProbeLink (ae_eligible ae) (t_URL t) = Answer p -> pr_Resumable p = true ->
  MinAccelerationBytes (ae_cfg ae) <= pr_FileSize p -> ae_open_ok ae = true ->
  probe_target ae (t_URL t) = Answer (execURL, probe) -> pr_FileSize probe = zlen remote ->
  sizes_ok (zlen remote) (block_size (ae_cfg ae) (zlen remote)) -> ae_saved ae = None ->
  ae_truncate_ok ae = true -> ae_rewind_ok ae = true ->
  33 * zlen remote <= disk_cap e -> all_received (ae_run ae) < 2 ^ 62 ->
  under_quota e (used_by e st t) (zlen remote + all_received (ae_run ae)) ->
  honest_events e r (used_by e st t) remote
    (first_accel ae r hasCustomName t execURL probe (put_file e (tempPath st (t_ID t)) [] st)) (ae_run ae) ->
  executeDirect float_scale e ae st r isVault vk hasCustomName reply late = Some x ->
  let info := refine_info ae (probed_info probe) remote in
  exists st', x = Leaves st' /\
    (stored e st st' r t d key (file_pieces remote) (final_name hasCustomName t info) (fi_MimeType info) (zlen remote)
       (ErrorMessage (t_life t)) /\ Forall good_chunk (file_pieces remote) /\ concat (file_pieces remote) = remote
     \/ cancelled e st st' r t).
Proof.
  intros Hs Hp Hres Hmin Hopen Hprobe Hsz Hsizes Hsaved Htr Hrw Hcap Hall Hquota Hhon Hx info.
  pose proof Hs as [Henv _ _ _ Ht _ _ _ Hq Hused]. revert Hx. unfold executeDirect.
  rewrite Ht, (begin_running _ _ _ _ _ _ _ _ Hs). unfold fetch_direct, try_accelerated.
  rewrite Hp, Hres, Hopen. destruct (Z.leb_spec (MinAccelerationBytes (ae_cfg ae)) (pr_FileSize p)); [|lia].
  cbn [negb andb orb first_worker w_dm w_es w_hash].
  destruct (DownloadToFile _ _ _ _ _ _ _ _ _ _) as [[[st1 part] answer]|] eqn:Hd; [|done].
  destruct (download_to_file_cases e ae r (used_by e st t) hasCustomName t execURL probe
    (put_file e (tempPath st (t_ID t)) [] st) remote _ Hprobe Hsz Hsizes Hsaved Htr Hused ltac:(destruct Hq; [by left|right; lia]) Hquota Hall Ht Hhon Hd)
    as (st2 & Hst & t' & Ht' & Hsame & Hname & Hmsg & Hcases).
  set (wd := mkWorker st1 _ _).
  destruct Hcases as [[[= -> -> ->] Hbytes]|(file & msg & [= -> -> ->] & Hdone)].
  - rewrite Hrw. cbn [negb].
    destruct (encrypted_completes e st r t d isVault vk key hasCustomName remote info late wd t')
      as (w3 & -> & Hstored); try done.
    { intros Hc. rewrite Hname. unfold on_meta_accel. by rewrite Hc. }
    intros [= <-]. eexists. split; [reflexivity|]. left. split; [exact Hstored|].
    destruct (file_pieces_spec remote) as [Hcat Hgood]. split; [|done].
    eapply Forall_impl; [exact Hgood|]. unfold good_chunk, copy_size, MaxChunkSize, TagSize. intros b [Hb1 Hb2].
    split; [done|lia].
  - rewrite Hdone. intros [= <-]. eexists. split; [reflexivity|]. right.
    unfold end_download. by apply (give_up_cancelled e st r t wd).
Qed.
End AcceleratedFacts.

(** ** Witnesses *)

Section AcceleratedWitnesses.
Import ToyCrypto.

(** A server with a five-byte file that serves ranges. *)
Definition range_server : link_env :=
  mkLinkEnv open_net 0 (fun _ => None) (fun _ => "")
    (fun _ req => Some (mkHttp 200 (target req) (fun h => if String.eqb h "Accept-Ranges" then "bytes" else "") 5 [] None)).

(** Two workers on three pieces; the second piece breaks off once. *)
Definition toy_run (rest : list accel_event) : list accel_event :=
  map PoolStep [Take 0 1; Take 1 1; Receive 1 2 [13]; Receive 0 2 [11; 12]; FailPiece 1; Finish 0; Take 1 3;
     SaveJournal 3; Pieces.Record 0 3; Receive 1 4 [13; 14]]
  ++ rest
  ++ map PoolStep [Take 0 4; Finish 1; Pieces.Record 1 4; Receive 0 5 [15]; Finish 0; Pieces.Record 0 5].

Definition toy_accel (evs : list accel_event) : accel_env :=
  mkAE (small_config 4) range_server range_server range_server true true true None 0 evs.

Definition toy_probe : ProbeResult :=
  match ProbeLink range_server "https://h/f.bin" with
  | Answer p => p
  | _ => mkProbe "" "" "" DownloadTypeDirect "" "" "" 0 "" "" "" false 0 false []
  end.

Ltac honest_events_tac :=
  repeat (split; [first [exact I | intros ? Hj; vm_compute in Hj; injection Hj as <-;
    split; [vm_compute; discriminate|reflexivity]]|];
    let a := fresh "a" in let Ha := fresh "Ha" in intros a Ha; vm_compute in Ha; injection Ha as <-).

Definition toy_events : list accel_event := toy_run [Tick "1.0 MB/s" 2; Others [OpCancel 9 "other"]].

Lemma accelerated_task_stores_payload_witness :
  exists st', executeDirect dl_scale (task_env 100 1000) (toy_accel toy_events)
      dl_manager 0%nat false [] false (Err EOF) [] = Some (Leaves st') /\
    (stored (task_env 100 1000) dl_manager st' 0%nat dl_task (mkDB [] []) task_key (file_pieces small_remote) "f.bin"
       "application/octet-stream" 5 ""
     \/ cancelled (task_env 100 1000) dl_manager st' 0%nat dl_task).
Proof.
  destruct (executeDirect dl_scale (task_env 100 1000) (toy_accel toy_events) dl_manager 0%nat false [] false (Err EOF) [])
    as [x|] eqn:Hx; [|vm_compute in Hx; discriminate].
  pose proof (accelerated_task_stores_payload dl_scale (task_env 100 1000) (toy_accel toy_events) dl_manager 0%nat dl_task
    (mkDB [] []) false [] task_key false (Err EOF) [] toy_probe "https://h/f.bin" toy_probe small_remote x) as Ht.
  destruct Ht as (st' & -> & Hcases).
  - apply toy_startable. right. lia.
  - vm_compute. reflexivity.
  - vm_compute. reflexivity.
  - vm_compute. discriminate.
  - reflexivity.
  - vm_compute. reflexivity.
  - vm_compute. reflexivity.
  - split; [|split]; vm_compute; reflexivity.
  - reflexivity.
  - reflexivity.
  - reflexivity.
  - vm_compute. discriminate.
  - vm_compute. reflexivity.
  - right. vm_compute. discriminate.
  - unfold toy_accel, toy_events, toy_run. cbn [ae_run map app]. honest_events_tac. exact I.
  - exact Hx.
  - exists st'. split; [reflexivity|]. destruct Hcases as [[Hs _]|Hc]; [left; exact Hs|right; exact Hc].
Defined.

(** The counter counts every byte received, also those of pieces that are
    fetched again: with room for seven bytes, a file of five whose second piece
    breaks off is reported with eight, and its task fails for the quota. *)
Lemma retried_pieces_exceed_quota :
  exists st', executeDirect dl_scale (task_env 5 1000)
      (toy_accel (map PoolStep [Take 0 1; Take 1 1; Receive 1 2 [13]; Receive 0 2 [11; 12]; FailPiece 1; Finish 0; Take 1 3;
         Pieces.Record 0 3; Receive 1 4 [13; 14]; Take 0 4; Finish 1; Pieces.Record 1 4; Receive 0 5 [15]]
         ++ [Tick "1.0 MB/s" 2; Quit 0])) dl_manager 0%nat false [] false (Err EOF) [] = Some (Leaves st') /\
    exists t, dm_objs st' !! 0%nat = Some t /\ Status (t_life t) = StatusCancelled /\
      ErrorMessage (t_life t) = quota_message /\ zlen small_remote <= 5.
Proof. eexists. split; [vm_compute; reflexivity|]. eexists. split; [vm_compute; reflexivity|]. done. Qed.

End AcceleratedWitnesses.
