(* ===== verification/Torrent.v ===== *)
(** * Trackers and peers of a torrent (internal/download/torrent.go)

    After the web seeds (DownloadTasks) the client asks HTTP trackers for
    peers and takes the payload from one peer after the other, over the wire
    protocol of BitTorrent.  A connection is what the peer will send and the
    error its end or a deadline gives; the loop over messages works on it. *)

From S2P Require Import Prelude GoStrings GoURL FileSys CryptoPrims CryptoStream CAS UploadSession VaultTree Auth UploadCtrl NetGuard Bencode DownloadTasks Links Resolver.

#[local] Open Scope go_scope.
#[local] Open Scope string_scope.
#[local] Open Scope list_scope.
#[local] Open Scope Z_scope.

(** ** Trackers *)

Definition dict_get (k : string) (kv : list (bytes * bval)) : option bval :=
  snd <$> List.find (fun e => bool_decide (fst e = bytes_of_string k)) kv.

Definition get_int (k : string) (kv : list (bytes * bval)) : option Z :=
  match dict_get k kv with Some (BInt n) => Some n | _ => None end.

Definition get_string (k : string) (kv : list (bytes * bval)) : option string :=
  match dict_get k kv with Some (BStr s) => Some (string_of_bytes s) | _ => None end.

Definition peer_address (ip : string) (port : Z) : string := ip +:+ ":" +:+ FormatInt port.

(** net.IP.String of four bytes. *)
Definition ip4_string (ip : bytes) : string := join_with "." (map FormatInt ip).

(** The compact format: six bytes for each peer, an incomplete one dropped. *)
Fixpoint compact_peers (b : bytes) : list string :=
  match b with
  | a1 :: a2 :: a3 :: a4 :: p1 :: p2 :: rest =>
      peer_address (ip4_string [a1; a2; a3; a4]) (be_get [p1; p2]) :: compact_peers rest
  | _ => []
  end.

(** The list of dictionaries. *)
Definition listed_peer (v : bval) : option string :=
  match v with
  | BDict kv =>
      let ip := default "" (get_string "ip" kv) in
      let port := default 0 (get_int "port" kv) in
      if negb (String.eqb ip "") && (0 <? port) then Some (peer_address ip port) else None
  | _ => None
  end.

Definition tracker_peers (kv : list (bytes * bval)) : list string :=
  match dict_get "peers" kv with
  | Some (BStr s) => compact_peers s
  | Some (BList l) => omap listed_peer l
  | _ => []
  end.

(** The query of an announce. *)
Definition announce_query (q : Values) (info : MagnetInfo) (peerID : bytes) : Values :=
  foldl (fun q kv => Set_ q (fst kv) (snd kv)) q
    [("info_hash", string_of_bytes (InfoHash info)); ("peer_id", string_of_bytes peerID); ("port", "6881");
     ("uploaded", "0"); ("downloaded", "0"); ("left", FormatInt (ExactLength info)); ("compact", "1");
     ("event", "started")].

(** A tracker's response: the status, and the body with the error it ends in. *)
Record tracker_response := mkTracker { tr_status : Z; tr_body : bytes; tr_err : option gerror }.

Definition tracker_limit : Z := 1024 * 1024.

Definition parse_tracker_body (body : bytes) : result (list string) :=
  match UnmarshalBencode body with
  | Err er => Err er
  | Ok (BDict kv) =>
      match get_string "failure reason" kv with
      | Some why => if String.eqb why "" then Ok (tracker_peers kv) else Err (ErrMsg ("tracker failure: " +:+ why))
      | None => Ok (tracker_peers kv)
      end
  | Ok _ => Err (ErrMsg "invalid tracker response: not a dictionary")
  end.

(** ** Connections *)

(** A connection: all that the peer will send, the error at its end, which
    writes of the opening succeed, what other goroutines do before each turn
    of the loop, and the speed shown for a number of bytes. *)
Record peer_conn := mkConn {
  pc_in : bytes;
  pc_end : gerror;
  pc_write_ok : nat -> bool;
  pc_ops : nat -> list dm_op;
  pc_speed : Z -> string
}.

(** io.ReadFull *)
Definition read_full (c : peer_conn) (n : Z) (b : bytes) : result (bytes * bytes) :=
  if n <=? zlen b then Ok (ztake n b, zdrop n b)
  else Err (match pc_end c with EOF => if zlen b =? 0 then EOF else ErrUnexpectedEOF | er => er end).

Definition protocol : bytes := bytes_of_string "BitTorrent protocol".

Definition handshake (info : MagnetInfo) (peerID : bytes) : bytes :=
  [19] ++ protocol ++ [0; 0; 0; 0; 0; 16; 0; 0] ++ InfoHash info ++ peerID.

Definition extended (id : Z) (payload : bytes) : bytes := be_put 4 (u32 (2 + zlen payload)) ++ [20; id] ++ payload.

Definition ext_handshake : bytes :=
  extended 0 (MarshalBencode (BDict [(bytes_of_string "m", BDict [(bytes_of_string "ut_metadata", BInt 1)])])).

Definition interested : bytes := [0; 0; 0; 1; 2].

Definition request (index begin_ length : Z) : bytes :=
  be_put 4 13 ++ [6] ++ be_put 4 index ++ be_put 4 begin_ ++ be_put 4 length.

(** ** Messages *)

Section Peers.
Context `{CryptoPrims}.
Context (float_scale : Z -> Z -> Z -> Z).

Record peer_state := mkPS {
  ps_w : worker;
  (** messages written *)
  ps_sent : list bytes;
  ps_downloaded : Z;
  ps_total : Z;
  (** uint32 *)
  ps_pieceLength : Z;
  ps_info : MagnetInfo;
  ps_keepAlives : Z
}.

Definition send (m : bytes) (s : peer_state) : peer_state :=
  mkPS (ps_w s) (ps_sent s ++ [m]) (ps_downloaded s) (ps_total s) (ps_pieceLength s) (ps_info s) (ps_keepAlives s).

Definition set_keepAlives (n : Z) (s : peer_state) : peer_state :=
  mkPS (ps_w s) (ps_sent s) (ps_downloaded s) (ps_total s) (ps_pieceLength s) (ps_info s) n.

Definition set_lengths (total pieceLength exact piece : Z) (s : peer_state) : peer_state :=
  let i := ps_info s in
  mkPS (ps_w s) (ps_sent s) (ps_downloaded s) total pieceLength
    (mkMagnet (InfoHash i) (HexHash i) (DisplayName i) (Trackers i) (WebSeeds i) (ExactSources i) exact piece)
    (ps_keepAlives s).

(** How a message, or the whole exchange, ends. *)
Inductive handled := Goes (s : peer_state) | Fails (s : peer_state) (er : gerror) | Panics (s : peer_state).

Definition blockSize : Z := 16384.

(** Message 1, unchoke. *)
Definition on_unchoke (s : peer_state) : peer_state :=
  let initSize := if (0 <? ps_total s) && (ps_total s <? blockSize) then u32 (ps_total s) else blockSize in
  send (request 0 0 initSize) s.

(** The request after a block; integer division by a zero piece length panics. *)
Definition next_request (s : peer_state) : handled :=
  if (ps_total s =? 0) || (ps_downloaded s <? ps_total s) then
    let left := i64 (ps_total s - ps_downloaded s) in
    let nextBlockSize := if (0 <? ps_total s) && (left <? blockSize) then u32 left else blockSize in
    if ps_pieceLength s =? 0 then Panics s
    else
      Goes (send (request (u32 (Z.quot (ps_downloaded s) (ps_pieceLength s)))
                    (u32 (Z.rem (ps_downloaded s) (ps_pieceLength s))) nextBlockSize) s)
  else Goes s.

(** Message 7, a piece: whatever index and offset it claims. *)
Definition on_piece (e : req_env) (r : nat) (currentUsed : Z) (c : peer_conn) (msgData : bytes) (s : peer_state)
  : handled :=
  if 9 <? zlen msgData then
    let block := zdrop 9 msgData in
    match multi_write (disk_cap e) (ps_w s) block with
    | (w1, Some er) =>
        Fails (mkPS w1 (ps_sent s) (ps_downloaded s) (ps_total s) (ps_pieceLength s) (ps_info s) (ps_keepAlives s)) er
    | (w1, None) =>
        let downloaded := i64 (ps_downloaded s + zlen block) in
        let w2 := onProgress float_scale e r currentUsed w1 downloaded (ps_total s) (pc_speed c downloaded) in
        next_request (mkPS w2 (ps_sent s) downloaded (ps_total s) (ps_pieceLength s) (ps_info s) (ps_keepAlives s))
    end
  else Goes s.

Definition metadata_request : bytes :=
  MarshalBencode (BDict [(bytes_of_string "msg_type", BInt 0); (bytes_of_string "piece", BInt 0)]).

(** Message 20 with identifier 0: the peer's extensions. *)
Definition on_extensions (payload : bytes) (s : peer_state) : peer_state :=
  match UnmarshalBencode payload with
  | Ok (BDict d) =>
      match get_int "metadata_size" d with
      | Some metaSize =>
          if 0 <? metaSize then
            let utID := match dict_get "m" d with
                        | Some (BDict m) => match get_int "ut_metadata" m with Some n => n mod 256 | None => 1 end
                        | _ => 1
                        end in
            send (extended utID metadata_request) s
          else s
      | None => s
      end
  | _ => s
  end.

(** The sum of the files' lengths, in int64. *)
Definition file_sum (files : list bval) : Z :=
  foldl (fun sum f => match f with
                      | BDict fm => match get_int "length" fm with Some fl => i64 (sum + fl) | None => sum end
                      | _ => sum
                      end) 0 files.

(** The lengths of an info dictionary. *)
Definition on_info (infoMap : list (bytes * bval)) (s : peer_state) : peer_state :=
  let s := match get_int "length" infoMap with
           | Some l => if 0 <? l then set_lengths l (ps_pieceLength s) l (PieceLength (ps_info s)) s else s
           | None => s
           end in
  let s := match get_int "piece length" infoMap with
           | Some pl => if 0 <? pl then set_lengths (ps_total s) (u32 pl) (ExactLength (ps_info s)) pl s else s
           | None => s
           end in
  match dict_get "files" infoMap with
  | Some (BList files) =>
      if 0 <? file_sum files
      then set_lengths (file_sum files) (ps_pieceLength s) (file_sum files) (PieceLength (ps_info s)) s else s
  | _ => s
  end.

(** Message 20 with another identifier: a piece of the metadata. *)
Definition on_metadata (payload : bytes) (s : peer_state) : peer_state :=
  match UnmarshalBencode payload with
  | Ok (BDict d) =>
      match get_int "msg_type" d with
      | Some 1 =>
          let dictBytes := MarshalBencode (BDict d) in
          if zlen dictBytes <? zlen payload then
            match UnmarshalBencode (zdrop (zlen dictBytes) payload) with
            | Ok (BDict infoMap) => on_info infoMap s
            | _ => s
            end
          else s
      | _ => s
      end
  | _ => s
  end.

(** The switch on the message's number; the break of a choke leaves only the
    switch. *)
Definition handle_message (e : req_env) (r : nat) (currentUsed : Z) (c : peer_conn) (msgData : bytes) (s : peer_state)
  : handled :=
  match msgData with
  | 1 :: _ => Goes (on_unchoke s)
  | 7 :: _ => on_piece e r currentUsed c msgData s
  | 20 :: extID :: payload =>
      if zlen payload =? 0 then Goes s
      else if extID =? 0 then Goes (on_extensions payload s) else Goes (on_metadata payload s)
  | _ => Goes s
  end.

(** Behind the loop. *)
Definition exchange_over (s : peer_state) : handled :=
  if 0 <? ps_downloaded s then Goes s else Fails s (ErrMsg "no payload data received from peer").

(** A message that could not be read. *)
Definition read_failed (s : peer_state) (er : gerror) : handled :=
  if 0 <? ps_downloaded s then exchange_over s else Fails s er.

Definition max_message : Z := 10 * 1024 * 1024.

(** The loop over messages; [None] only without fuel. *)
Fixpoint exchange (fuel : nat) (e : req_env) (r : nat) (currentUsed : Z) (c : peer_conn) (turn : nat) (inp : bytes)
    (s : peer_state) : option handled :=
  match fuel with
  | O => None
  | S f =>
      let s := mkPS (on_dm (ps_w s) (fun st => dm_steps st (pc_ops c turn))) (ps_sent s) (ps_downloaded s) (ps_total s)
                 (ps_pieceLength s) (ps_info s) (ps_keepAlives s) in
      if ctx_done (w_dm (ps_w s)) r then Some (Fails s err_canceled)
      else
        match read_full c 4 inp with
        | Err er => Some (read_failed s er)
        | Ok (len, inp1) =>
            let msgLen := be_get len in
            if msgLen =? 0 then
              let s := set_keepAlives (ps_keepAlives s + 1) s in
              if (ps_total s =? 0) && (0 <? ps_downloaded s) && (2 <=? ps_keepAlives s) then Some (exchange_over s)
              else exchange f e r currentUsed c (S turn) inp1 s
            else
              let s := set_keepAlives 0 s in
              if max_message <? msgLen then Some (Fails s (ErrMsg "peer message too large"))
              else
                match read_full c msgLen inp1 with
                | Err er => Some (read_failed s er)
                | Ok (msgData, inp2) =>
                    match handle_message e r currentUsed c msgData s with
                    | Goes s =>
                        if (0 <? ps_total s) && (ps_total s <=? ps_downloaded s) then Some (exchange_over s)
                        else exchange f e r currentUsed c (S turn) inp2 s
                    | other => Some other
                    end
                end
        end
  end.

(** Each turn reads four bytes at least. *)
Definition exchange_fuel (c : peer_conn) : nat := S (length (pc_in c)).

(** ** downloadFromPeer *)

Definition max_pieceLength : Z := 16 * 1024 * 1024.

Definition first_peer_state (w : worker) (info : MagnetInfo) (sent : list bytes) : peer_state :=
  mkPS w sent 0 (ExactLength info)
    (if (0 <? PieceLength info) && (PieceLength info <=? max_pieceLength) then u32 (PieceLength info) else 256 * 1024)
    info 0.

(** From the connection on: the handshakes, then the loop. *)
Definition talk_to_peer (e : req_env) (r : nat) (currentUsed : Z) (c : peer_conn) (info : MagnetInfo) (peerID : bytes)
    (w : worker) : option handled :=
  let s0 := first_peer_state w info [] in
  if negb (pc_write_ok c 0) then Some (Fails s0 (ErrMsg "write"))
  else
    let hello := handshake info peerID in
    let s1 := send hello s0 in
    match read_full c 68 (pc_in c) with
    | Err er => Some (Fails s1 er)
    | Ok (peerHandshake, inp) =>
        if negb (bool_decide (ztake 20 peerHandshake = [19] ++ protocol))
        then Some (Fails s1 (ErrMsg "invalid peer protocol handshake"))
        else if negb (bool_decide (ztake 20 (zdrop 28 peerHandshake) = InfoHash info))
        then Some (Fails s1 (ErrMsg "peer handshake info_hash mismatch"))
        else if negb (pc_write_ok c 1) then Some (Fails s1 (ErrMsg "write"))
        else if negb (pc_write_ok c 2) then Some (Fails (send ext_handshake s1) (ErrMsg "write"))
        else exchange (exchange_fuel c) e r currentUsed c 0 inp (send interested (send ext_handshake s1))
    end.

(** ** The swarm (DownloadTorrent, lines 51-104) *)

(** The network: addresses, trackers' answers to a request's URL, connections
    to dialed targets, and the operations of others before each step. *)
Record swarm_env := mkSwarm {
  sw_net : net_env;
  sw_peerID : bytes;
  sw_announce : string -> option tracker_response;
  sw_connect : dial -> option peer_conn;
  sw_ops : nat -> list dm_op
}.

(** The URL requested, if one is, and the peers. *)
Definition announceHTTPTracker (se : swarm_env) (n : nat) (trackerURL : string) (info : MagnetInfo)
  : option string * result (list string) :=
  match ValidateSafeURL (sw_net se) n trackerURL false with
  | Refused why => (None, Err (ErrMsg ("insecure tracker URL: " +:+ why)))
  | Allowed =>
      match Parse trackerURL with
      | None => (None, Err (ErrMsg "parse"))
      | Some u =>
          let target := url_string (set_query u (Encode (announce_query (Query u) info (sw_peerID se)))) in
          (Some target,
           match sw_announce se target with
           | None => Err (ErrMsg "announce")
           | Some resp =>
               if negb (tr_status resp =? 200) then Err (ErrMsg ("tracker returned HTTP " +:+ FormatInt (tr_status resp)))
               else
                 match tr_err resp with
                 | Some er => if zlen (tr_body resp) <? tracker_limit then Err er
                              else parse_tracker_body (ztake tracker_limit (tr_body resp))
                 | None => parse_tracker_body (ztake tracker_limit (tr_body resp))
                 end
           end)
      end
  end.

(** How the search for a payload ends: done, failed, or in a panic. *)
Inductive swarm_end := Delivered | NotDelivered (er : gerror) | SwarmPanics.

Definition is_http (u : string) : bool := HasPrefix u "http://" || HasPrefix u "https://".

(** The loop over trackers: the peers found; [None] when cancelled. *)
Fixpoint announce_all (se : swarm_env) (r : nat) (n : nat) (trackers : list string) (info : MagnetInfo) (w : worker)
  : worker * option (list string) :=
  match trackers with
  | [] => (w, Some [])
  | tr :: rest =>
      let w := on_dm w (fun st => dm_steps st (sw_ops se n)) in
      if ctx_done (w_dm w) r then (w, None)
      else
        let found := if is_http tr then match snd (announceHTTPTracker se n tr info) with Ok ps => ps | Err _ => [] end
                     else [] in
        let '(w, more) := announce_all se r (S n) rest info w in
        (w, (fun ps => found ++ ps) <$> more)
  end.

Definition downloadFromPeer (e : req_env) (r : nat) (currentUsed : Z) (se : swarm_env) (n : nat) (peerAddr : string)
    (info : MagnetInfo) (w : worker) : option handled :=
  let s0 := first_peer_state w info [] in
  match ValidatePeerAddress (sw_net se) n peerAddr false with
  | Refused why => Some (Fails s0 (ErrMsg ("peer address rejected by security policy: " +:+ why)))
  | Allowed =>
      match SafeDialContext (sw_net se) (S n) false peerAddr with
      | DialError why => Some (Fails s0 (ErrMsg why))
      | target =>
          match sw_connect se target with
          | None => Some (Fails s0 (ErrMsg "dial"))
          | Some c => talk_to_peer e r currentUsed c info (sw_peerID se) w
          end
      end
  end.

(** What the last error says. *)
Definition swarm_error (info : MagnetInfo) (peers : list string) : gerror :=
  let hasUDP := existsb (fun tr => HasPrefix tr "udp://") (Trackers info) in
  let no_seeds := zlen (WebSeeds info) =? 0 in
  if (zlen peers =? 0) && hasUDP && no_seeds
  then ErrMsg ("magnet link only contains UDP trackers (udp://); no reachable HTTP trackers or web seeds found for "
               +:+ slice (HexHash info) 0 8)
  else if (zlen peers =? 0) && no_seeds && (zlen (Trackers info) =? 0)
  then ErrMsg "magnet link contains neither web seeds nor reachable trackers"
  else ErrMsg ("unable to establish peer connections or retrieve metadata for info_hash "
               +:+ slice (HexHash info) 0 8 +:+ " (all peers timed out)").

(** The loop over peers; lengths one peer announced are kept for the next. *)
Fixpoint try_peers (e : req_env) (r : nat) (currentUsed : Z) (se : swarm_env) (n : nat) (all peers : list string)
    (info : MagnetInfo) (w : worker) : worker * swarm_end :=
  match peers with
  | [] => (w, NotDelivered (swarm_error info all))
  | p :: rest =>
      let w := on_dm w (fun st => dm_steps st (sw_ops se n)) in
      if ctx_done (w_dm w) r then (w, NotDelivered err_canceled)
      else
        match downloadFromPeer e r currentUsed se n p info w with
        | None => (w, NotDelivered (swarm_error info all))
        | Some (Goes s) => (ps_w s, Delivered)
        | Some (Panics s) => (ps_w s, SwarmPanics)
        | Some (Fails s _) => try_peers e r currentUsed se (S n) all rest (ps_info s) (ps_w s)
        end
  end.

Definition download_from_swarm (e : req_env) (r : nat) (currentUsed : Z) (se : swarm_env) (info : MagnetInfo) (w : worker)
  : worker * swarm_end :=
  match announce_all se r 0 (Trackers info) info w with
  | (w, None) => (w, NotDelivered err_canceled)
  | (w, Some peers) => try_peers e r currentUsed se (length (Trackers info)) peers peers info w
  end.

(** ** The goroutine of a magnet link *)

(** As executeDownload, with a panic ending the program. *)
Inductive magnet_execution := MagnetLeaves (st : dm_state) | MagnetCrashes.

Definition executeMagnet (e : req_env) (se : swarm_env) (st : dm_state) (r : nat) (isVault : bool) (vaultKey : bytes)
    (info : MagnetInfo) (mime_of : string -> string)
    (seeds : list (list dm_op * result (DirectFileInfo * list read_event))) (late : list dm_op) : magnet_execution :=
  match begin_download e st r isVault vaultKey with
  | Ended st' => MagnetLeaves st'
  | Running w currentUsed temp =>
      match seeds_then float_scale Delivered (NotDelivered err_canceled) e r currentUsed (ExactLength info) seeds
              (download_from_swarm e r currentUsed se info) w with
      | (_, SwarmPanics) => MagnetCrashes
      | (w1, NotDelivered _) =>
          MagnetLeaves (end_download e r temp late (fetch_failed e r "Torrent download failed: " w1, None))
      | (w1, Delivered) =>
          let m := mime_of (DisplayName info) in
          MagnetLeaves (end_download e r temp late
            (w1, Some (DisplayName info, if String.eqb m "" then "application/octet-stream" else m)))
      end
  end.

End Peers.
