(* ===== verification/TorrentProps.v ===== *)
(** * Properties of torrents

    Peers' addresses survive the compact format; every exchange with a peer
    ends; the blocks a peer sends are what is stored, in the order of its
    messages and whatever they claim to be; the requests run through the
    payload; peers in private networks are out of reach; and a peer can end
    the program. *)

From S2P Require Import Prelude GoStrings GoURL FileSys CryptoPrims CryptoStream CryptoStreamFacts CAS CASProps UploadSession VaultTree Auth UploadCtrl UploadFacts NetGuard Bencode DownloadTasks DownloadTasksProps Links Resolver Torrent.

#[local] Open Scope go_scope.
#[local] Open Scope string_scope.
#[local] Open Scope list_scope.
#[local] Open Scope Z_scope.

(** ** The compact format *)

(** A peer as a tracker writes it. *)
Definition compact_peer (p : bytes * Z) : bytes := fst p ++ be_put 2 (snd p).

Definition ipv4_peer (p : bytes * Z) : Prop := zlen (fst p) = 4 /\ 0 <= snd p < 2 ^ 16.

(** The peers of a compact answer are read back exactly: any list of IPv4
    addresses and ports, in order, with an incomplete entry at the end dropped. *)
Theorem compact_peers_roundtrip ps junk :
  Forall ipv4_peer ps -> zlen junk < 6 ->
  compact_peers (concat (map compact_peer ps) ++ junk) =
  map (fun p => peer_address (ip4_string (fst p)) (snd p)) ps.
Proof.
  intros Hps Hj. induction Hps as [|[ip port] ps [Hip Hport] _ IH]; cbn [map concat app].
  - destruct junk as [|? [|? [|? [|? [|? [|]]]]]]; try done. rewrite !zlen_cons in Hj.
    match type of Hj with context [zlen ?l] => pose proof (zlen_nonneg l) end. lia.
  - cbn [fst snd] in *. unfold zlen in Hip.
    destruct ip as [|a1 [|a2 [|a3 [|a4 [|]]]]]; cbn in Hip; try lia.
    unfold compact_peer. cbn [fst snd app]. rewrite <- app_assoc.
    destruct (be_put 2 port) as [|p1 [|p2 [|]]] eqn:Hb; try (apply (f_equal length) in Hb; by rewrite length_be_put in Hb).
    cbn [app compact_peers]. rewrite <- IH, <- Hb, be_get_put. do 2 f_equal. apply Z.mod_small. exact Hport.
Qed.

Section TorrentFacts.
Context `{CryptoLaws}.
Context (float_scale : Z -> Z -> Z -> Z).

Abbreviation talk := (exchange float_scale).

(** ** Termination *)

Lemma read_full_shorter c n b x rest : 0 < n -> read_full c n b = Ok (x, rest) -> (length rest < length b)%nat.
Proof.
  intros Hn. unfold read_full. destruct (Z.leb_spec n (zlen b)) as [Hle|]; [|done].
  intros [= <- <-]. unfold zdrop. rewrite length_drop. unfold zlen in Hle. lia.
Qed.

Lemma exchange_total e r used c fuel : forall turn inp s,
  (length inp < fuel)%nat -> is_Some (talk fuel e r used c turn inp s).
Proof.
  induction fuel as [|f IH]; intros turn inp s Hf; [lia|]. cbn [exchange].
  destruct (ctx_done _ _); [done|]. destruct (read_full c 4 inp) as [[len inp1]|] eqn:H4; [|done].
  apply read_full_shorter in H4; [|done]. destruct (be_get len =? 0) eqn:Hz.
  { destruct (_ && _); [done|]. apply IH. lia. }
  destruct (max_message <? be_get len); [done|].
  destruct (read_full c (be_get len) inp1) as [[msg inp2]|] eqn:Hm; [|done].
  assert (length inp2 <= length inp1)%nat as Hle.
  { unfold read_full in Hm. destruct (_ <=? _); [|done]. injection Hm as _ <-. unfold zdrop. rewrite length_drop. lia. }
  destruct (handle_message _ _ _ _ _ _ _); try done. destruct (_ && _); [done|]. apply IH. lia.
Qed.

(** Every exchange with a peer ends: for any bytes it sends, the fuel of the loop
    suffices, so a connection that ends leaves a result, a failure or a panic. *)
Theorem peer_exchange_ends e r used c info peerID w :
  is_Some (talk_to_peer float_scale e r used c info peerID w).
Proof.
  unfold talk_to_peer. destruct (negb _); [done|].
  destruct (read_full c 68 (pc_in c)) as [[hs inp]|] eqn:Hr; [|done].
  destruct (negb _); [done|]. destruct (negb _); [done|]. destruct (negb _); [done|]. destruct (negb _); [done|].
  apply exchange_total. apply read_full_shorter in Hr; [|done]. unfold exchange_fuel. lia.
Qed.

(** ** Blocks *)

(** A piece message: eight bytes of index and offset, and the block. *)
Definition piece_message (hb : bytes * bytes) : bytes :=
  be_put 4 (9 + zlen (snd hb)) ++ [7] ++ fst hb ++ snd hb.

Definition block_ok (hb : bytes * bytes) : Prop :=
  zlen (fst hb) = 8 /\ snd hb <> [] /\ zlen (snd hb) + 9 <= max_message.

Definition blocks_len (l : list (bytes * bytes)) : Z := zlen (concat (map snd l)).

Lemma blocks_len_cons hb l : blocks_len (hb :: l) = zlen (snd hb) + blocks_len l.
Proof. unfold blocks_len. cbn. apply zlen_app. Qed.

Lemma blocks_len_nonneg l : 0 <= blocks_len l.
Proof. apply zlen_nonneg. Qed.

(** The requests the client makes after each block, for a payload of [total]
    bytes (0: unknown) in pieces of [pl]. *)
Fixpoint requests_after (total pl done : Z) (l : list (bytes * bytes)) : list bytes :=
  match l with
  | [] => []
  | hb :: l' =>
      let done := done + zlen (snd hb) in
      (if (total =? 0) || (done <? total)
       then [request (done / pl) (done mod pl)
               (if (0 <? total) && (total - done <? blockSize) then total - done else blockSize)]
       else [])
      ++ requests_after total pl done l'
  end.

(** More is wanted before the last block. *)
Fixpoint wanted (total done : Z) (l : list (bytes * bytes)) : Prop :=
  match l with
  | [] => True
  | hb :: l' => (total = 0 \/ done < total) /\ wanted total (done + zlen (snd hb)) l'
  end.

(** What the client needs of its own side. *)
Record ready (e : req_env) (r : nat) (used room : Z) (key : bytes) (s : peer_state) (t : DownloadTask) : Prop := {
  rd_key : es_key (w_es (ps_w s)) = key;
  rd_aes : aes_key_ok key = true;
  rd_err : bw_err (es_w (w_es (ps_w s))) = None;
  rd_obj : dm_objs (w_dm (ps_w s)) !! r = Some t;
  rd_live : t_cancelled t = false;
  rd_quota : forall n, 0 <= n <= ps_downloaded s + room -> exceeds e used n = false;
  rd_down : 0 <= ps_downloaded s;
  rd_small : ps_downloaded s + room < 2 ^ 31;
  rd_total : 0 <= ps_total s < 2 ^ 63;
  rd_piece : 0 < ps_pieceLength s < 2 ^ 32
}.

Definition undisturbed_conn (c : peer_conn) : Prop := (forall n, pc_ops c n = []) /\ (forall n, pc_write_ok c n = true).

Lemma read_full_app c a b : read_full c (zlen a) (a ++ b) = Ok (a, b).
Proof.
  unfold read_full. rewrite zlen_app. pose proof (zlen_nonneg b).
  destruct (Z.leb_spec (zlen a) (zlen a + zlen b)); [|lia]. by rewrite ztake_app_len, zdrop_app_len.
Qed.

Lemma u32_small x : 0 <= x < 2 ^ 32 -> u32 x = x.
Proof. intros Hx. unfold u32. by apply Z.mod_small. Qed.

(** One piece message. *)
Lemma on_piece_ok e r used c key s t hb room :
  ready e r used (zlen (snd hb) + room) key s t -> block_ok hb -> 0 <= room ->
  zlen (bw_total (es_w (w_es (ps_w s)))) + zlen (packet key (snd hb)) <= disk_cap e ->
  exists s' t', on_piece float_scale e r used c ([7] ++ fst hb ++ snd hb) s = Goes s' /\
    wrote key r (ps_w s) (ps_w s') [snd hb] t t' /\ DownloadedBytes t' = ps_downloaded s + zlen (snd hb) /\
    ready e r used room key s' t' /\ ps_downloaded s' = ps_downloaded s + zlen (snd hb) /\
    ps_total s' = ps_total s /\ ps_pieceLength s' = ps_pieceLength s /\ ps_info s' = ps_info s /\
    ps_sent s' = ps_sent s ++ requests_after (ps_total s) (ps_pieceLength s) (ps_downloaded s) [hb].
Proof.
  intros [Hkey Haes Herr Hobj Hlive Hq Hdown Hsmall Htot Hpl] (Hh & Hb & Hmax) Hroom Hcap.
  unfold on_piece. rewrite !zlen_app, Hh. change (zlen [7]) with 1.
  apply zlen_pos in Hb as Hpos. destruct (Z.ltb_spec 9 (1 + (8 + zlen (snd hb)))); [|lia].
  assert (zdrop 9 ([7] ++ fst hb ++ snd hb) = snd hb) as ->.
  { rewrite app_assoc. apply zdrop_app_eq. rewrite zlen_app, Hh. done. }
  destruct (multi_write_ok key (disk_cap e) r (ps_w s) (snd hb) t) as (w1 & -> & Hdm & Hw); try done.
  rewrite i64_sum by lia. set (dl := ps_downloaded s + zlen (snd hb)) in *.
  destruct (wrote_report float_scale e used dl (ps_total s) (pc_speed c dl) key r (ps_w s) w1 _ t t
    (Hq dl ltac:(lia)) Hw) as (t2 & Hw2 & Hd2).
  set (w2 := onProgress _ _ _ _ _ _ _ _) in *. unfold next_request.
  cbn [ps_total ps_downloaded ps_pieceLength requests_after]. fold dl. rewrite app_nil_r.
  set (s2 := mkPS w2 _ _ _ _ _ _).
  assert (forall x, ready e r used room key s2 t2 -> ready e r used room key (send x s2) t2) as Hsend.
  { intros x []. by constructor. }
  assert (ready e r used room key s2 t2) as Hr2.
  { destruct Hw2. constructor; cbn [s2 ps_w ps_downloaded ps_total ps_pieceLength]; try done; try lia.
    intros n Hn. apply Hq. lia. }
  destruct ((ps_total s =? 0) || (dl <? ps_total s)) eqn:Hmore.
  - destruct (Z.eqb_spec (ps_pieceLength s) 0); [lia|]. cbn [negb].
    exists (send (request (u32 (Z.quot dl (ps_pieceLength s))) (u32 (Z.rem dl (ps_pieceLength s)))
      (if (0 <? ps_total s) && (i64 (ps_total s - dl) <? blockSize) then u32 (i64 (ps_total s - dl)) else blockSize)) s2), t2.
    split; [done|]. split; [exact Hw2|]. split; [done|]. split; [by apply Hsend|]. do 4 (split; [done|]).
    cbn [send ps_sent s2]. f_equal. rewrite Z.quot_div_nonneg, Z.rem_mod_nonneg by lia.
    pose proof (Z.mod_pos_bound dl (ps_pieceLength s) ltac:(lia)).
    assert (0 <= dl / ps_pieceLength s <= dl) as Hdiv.
    { split; [apply Z.div_pos; lia|]. apply Z.div_le_upper_bound; nia. }
    rewrite !u32_small by lia. do 3 f_equal.
    destruct (Z.ltb_spec 0 (ps_total s)) as [Ht|Ht]; cbn [andb]; [|done].
    destruct (Z.eqb_spec (ps_total s) 0); [lia|]. cbn [orb] in Hmore. apply Z.ltb_lt in Hmore.
    rewrite i64_id by (unfold in_i64; lia). destruct (Z.ltb_spec (ps_total s - dl) blockSize) as [Hl|]; [|done].
    apply u32_small. unfold blockSize in Hl. lia.
  - exists s2, t2. split; [done|]. split; [exact Hw2|]. split; [done|]. split; [done|]. do 4 (split; [done|]).
    cbn [s2 ps_sent]. by rewrite app_nil_r.
Qed.

(** One message, its length before it. *)
Lemma exchange_message e r used c f turn m rest s t : undisturbed_conn c ->
  dm_objs (w_dm (ps_w s)) !! r = Some t -> t_cancelled t = false -> 0 < zlen m <= max_message ->
  talk (S f) e r used c turn (be_put 4 (zlen m) ++ m ++ rest) s =
  match handle_message float_scale e r used c m (set_keepAlives 0 s) with
  | Goes s' => if (0 <? ps_total s') && (ps_total s' <=? ps_downloaded s') then Some (exchange_over s')
               else talk f e r used c (S turn) rest s'
  | other => Some other
  end.
Proof.
  intros [Hops _] Hobj Hlive Hm. cbn [exchange].
  assert (on_dm (ps_w s) (fun st => dm_steps st (pc_ops c turn)) = ps_w s) as Hon.
  { rewrite Hops. cbn. by destruct (ps_w s). }
  cbn [ps_w]. rewrite Hon.
  assert (ctx_done (w_dm (ps_w s)) r = false) as -> by (unfold ctx_done; by rewrite Hobj).
  rewrite <- (zlen_be_put 4 (zlen m)) at 1. rewrite read_full_app, be_get_put.
  assert (zlen m mod 256 ^ Z.of_nat 4 = zlen m) as ->.
  { apply Z.mod_small. unfold max_message in Hm. change (256 ^ Z.of_nat 4) with (2 ^ 32). lia. }
  destruct (Z.eqb_spec (zlen m) 0); [lia|]. destruct (Z.ltb_spec max_message (zlen m)); [lia|].
  rewrite read_full_app. by destruct s.
Qed.

(** The messages of several blocks. *)
Lemma exchange_blocks e r used c key rest l : undisturbed_conn c ->
  forall fuel turn s t, Forall block_ok l ->
  ready e r used (blocks_len l) key s t -> wanted (ps_total s) (ps_downloaded s) l ->
  zlen (bw_total (es_w (w_es (ps_w s)))) + zlen (encode key (map snd l)) <= disk_cap e ->
  exists s' t', 
    talk (length l + fuel)%nat e r used c turn (concat (map piece_message l) ++ rest) s =
      (if negb (bool_decide (l = [])) && (0 <? ps_total s) && (ps_total s <=? ps_downloaded s')
       then Some (Goes s') else talk fuel e r used c (turn + length l)%nat rest s') /\
    wrote key r (ps_w s) (ps_w s') (map snd l) t t' /\ (l <> [] -> DownloadedBytes t' = ps_downloaded s') /\
    ready e r used 0 key s' t' /\ ps_downloaded s' = ps_downloaded s + blocks_len l /\
    ps_total s' = ps_total s /\ ps_pieceLength s' = ps_pieceLength s /\
    ps_sent s' = ps_sent s ++ requests_after (ps_total s) (ps_pieceLength s) (ps_downloaded s) l.
Proof.
  intros Hund. induction l as [|hb l IH]; intros fuel turn s t Hok Hr Hwant Hcap.
  { exists s, t. cbn [length plus map concat app negb andb]. rewrite bool_decide_eq_true_2 by done. cbn [negb andb].
    rewrite Nat.add_0_r. split; [done|]. unfold blocks_len in *. cbn [map concat] in *. change (zlen (@nil Z)) with 0 in *.
    rewrite Z.add_0_r. cbn [requests_after]. rewrite app_nil_r. split; [|by split].
    destruct Hr. constructor; try done; cbn; by rewrite app_nil_r. }
  inversion_clear Hok as [|? ? Hhb Hl]. rewrite blocks_len_cons in *. destruct Hwant as [Hw0 Hwant].
  pose proof (blocks_len_nonneg l) as Hnn. cbn [map] in Hcap. rewrite encode_cons, zlen_app in Hcap.
  pose proof Hhb as (Hh & Hbne & Hmax). apply zlen_pos in Hbne as Hbpos.
  set (s1 := set_keepAlives 0 s).
  assert (ready e r used (zlen (snd hb) + blocks_len l) key s1 t) as Hr1 by (destruct Hr; by constructor).
  destruct (on_piece_ok e r used c key s1 t hb (blocks_len l) Hr1 Hhb Hnn) as
    (s2 & t2 & Hp & Hw2 & Hd2 & Hr2 & Hdl & Htot & Hpl & _ & Hsent).
  { pose proof (zlen_nonneg (encode key (map snd l))). cbn [s1 set_keepAlives ps_w]. lia. }
  assert (ps_downloaded s1 = ps_downloaded s /\ ps_total s1 = ps_total s /\ ps_pieceLength s1 = ps_pieceLength s /\
    ps_sent s1 = ps_sent s /\ ps_w s1 = ps_w s) as (Hd1 & Ht1 & Hp1 & Hs1 & Hsw) by done.
  assert (forall f, talk (S f) e r used c turn (concat (map piece_message (hb :: l)) ++ rest) s =
    (if (0 <? ps_total s2) && (ps_total s2 <=? ps_downloaded s2) then Some (exchange_over s2)
     else talk f e r used c (S turn) (concat (map piece_message l) ++ rest) s2)) as Hstep.
  { intros f. assert (zlen ([7] ++ fst hb ++ snd hb) = 9 + zlen (snd hb)) as Hlen
      by (rewrite !zlen_app, Hh; change (zlen [7]) with 1; lia).
    replace (concat (map piece_message (hb :: l)) ++ rest)
      with (be_put 4 (zlen ([7] ++ fst hb ++ snd hb)) ++ ([7] ++ fst hb ++ snd hb) ++ concat (map piece_message l) ++ rest)
      by (cbn [map concat]; unfold piece_message; rewrite Hlen, <- !app_assoc; done).
    rewrite (exchange_message e r used c f turn _ _ s t Hund (rd_obj _ _ _ _ _ _ _ Hr) (rd_live _ _ _ _ _ _ _ Hr)) by lia.
    cbn [handle_message app]. change (7 :: fst hb ++ snd hb) with ([7] ++ fst hb ++ snd hb). fold s1. by rewrite Hp. }
  cbn [length plus]. rewrite Hstep. rewrite Htot, Ht1, Hdl, Hd1.
  rewrite (bool_decide_eq_false_2 (hb :: l = [])) by done. cbn [negb andb].
  rewrite Hsw in Hw2. rewrite Hd1 in Hdl, Hd2. rewrite Ht1 in Htot. rewrite Hp1 in Hpl. rewrite Hs1, Ht1, Hp1, Hd1 in Hsent.
  destruct (decide (l = [])) as [->|Hne].
  - exists s2, t2. unfold exchange_over. rewrite Hdl. destruct Hr.
    destruct (Z.ltb_spec 0 (ps_downloaded s + zlen (snd hb))); [|lia].
    cbn [map concat length app Nat.add]. rewrite Nat.add_1_r.
    split; [done|]. split; [exact Hw2|]. split; [done|]. split; [exact Hr2|].
    split; [unfold blocks_len; cbn [map concat]; change (zlen (@nil Z)) with 0; lia|]. by split.
  - assert ((0 <? ps_total s) && (ps_total s <=? ps_downloaded s + zlen (snd hb)) = false) as ->.
    { destruct l as [|hb2 l]; [done|]. destruct Hwant as [[Hz|Hlt] _]; [by rewrite Hz|].
      destruct (Z.leb_spec (ps_total s) (ps_downloaded s + zlen (snd hb))); [lia|apply andb_false_r]. }
    destruct (IH fuel (S turn) s2 t2 Hl Hr2) as (s3 & t3 & Heq & Hw3 & Hd3 & Hr3 & Hdl3 & Htot3 & Hpl3 & Hsent3).
    { by rewrite Htot, Hdl. }
    { rewrite (wr_total _ _ _ _ _ _ _ Hw2), zlen_app. unfold nonempty_segs.
      rewrite filter_cons_True by done. rewrite encode_cons, zlen_app.
      match goal with |- context [zlen (encode key (filter ?P []))] => change (zlen (encode key (filter P []))) with 0 end. lia. }
    rewrite (bool_decide_eq_false_2 (l = [])) in Heq by done. cbn [negb andb] in Heq.
    exists s3, t3. rewrite Heq, Htot. replace (S turn + length l)%nat with (turn + S (length l))%nat by lia.
    split; [done|]. split; [cbn [map]; by eapply (wrote_trans key r _ _ _ [snd hb])|]. split; [auto|]. split; [done|].
    split; [rewrite Hdl3, Hdl; lia|]. split; [by rewrite Htot3|]. split; [by rewrite Hpl3|].
    rewrite Hsent3, Hsent, Htot, Hpl, Hdl, <- app_assoc. cbn [requests_after]. by rewrite app_nil_r.
Qed.

(** ** A whole conversation *)

Definition greeting (info : MagnetInfo) (reserved id : bytes) : bytes :=
  [19] ++ protocol ++ reserved ++ InfoHash info ++ id.

Definition unchoke : bytes := [0; 0; 0; 1; 1].

(** A peer that greets, unchokes, sends the blocks [l] and hangs up. *)
Definition converses (c : peer_conn) (info : MagnetInfo) (l : list (bytes * bytes)) : Prop :=
  undisturbed_conn c /\ zlen (InfoHash info) = 20 /\
  exists reserved id, zlen reserved = 8 /\ zlen id = 20 /\
    pc_in c = greeting info reserved id ++ unchoke ++ concat (map piece_message l).

Lemma piece_message_long hb : (1 <= length (piece_message hb))%nat.
Proof. unfold piece_message. rewrite length_app, length_be_put. lia. Qed.

Lemma conversation_fuel c info l : converses c info l -> exists f, exchange_fuel c = S (length l + S f)%nat.
Proof.
  intros (_ & _ & reserved & id & _ & _ & Hin). unfold exchange_fuel. rewrite Hin, !length_app.
  assert (length l <= length (concat (map piece_message l)))%nat as Hl.
  { clear. induction l as [|hb l IH]; [done|]. cbn [map concat length]. rewrite length_app.
    pose proof (piece_message_long hb). lia. }
  exists (length (greeting info reserved id) + 5 + length (concat (map piece_message l)) - length l - 1)%nat.
  change (length unchoke) with 5%nat. assert (1 <= length (greeting info reserved id))%nat by (cbn; lia). lia.
Qed.

Definition first_request (s : peer_state) : bytes :=
  request 0 0 (if (0 <? ps_total s) && (ps_total s <? blockSize) then u32 (ps_total s) else blockSize).

(** What the client has said before the first block. *)
Definition opening (info : MagnetInfo) (peerID : bytes) (w : worker) : list bytes :=
  [handshake info peerID; ext_handshake; interested; first_request (first_peer_state w info [])].

(** The handshakes with a peer that greets. *)
Lemma talk_greeted e r used c info peerID w reserved id inp :
  undisturbed_conn c -> zlen (InfoHash info) = 20 -> zlen reserved = 8 -> zlen id = 20 ->
  pc_in c = greeting info reserved id ++ inp ->
  talk_to_peer float_scale e r used c info peerID w =
  talk (exchange_fuel c) e r used c 0 inp
    (send interested (send ext_handshake (send (handshake info peerID) (first_peer_state w info [])))).
Proof.
  intros [_ Hwr] Hhash Hres Hid Hin. unfold talk_to_peer. rewrite !Hwr. cbn [negb]. rewrite Hin.
  assert (zlen (greeting info reserved id) = 68) as Hg.
  { unfold greeting. rewrite !zlen_app, Hres, Hhash, Hid. reflexivity. }
  pose proof (read_full_app c (greeting info reserved id) inp) as Hrf. rewrite Hg in Hrf. rewrite Hrf.
  assert (ztake 20 (greeting info reserved id) = [19] ++ protocol) as ->.
  { unfold greeting. rewrite app_assoc. by apply ztake_app_eq. }
  rewrite bool_decide_eq_true_2 by done. cbn [negb].
  assert (ztake 20 (zdrop 28 (greeting info reserved id)) = InfoHash info) as ->.
  { unfold greeting. rewrite app_assoc, app_assoc. rewrite zdrop_app_eq by (rewrite !zlen_app, Hres; reflexivity).
    by apply ztake_app_eq. }
  by rewrite bool_decide_eq_true_2.
Qed.

Lemma talk_blocks e r used c key info peerID w t l :
  let s0 := first_peer_state w info [] in
  converses c info l -> l <> [] -> Forall block_ok l ->
  ready e r used (blocks_len l) key s0 t -> wanted (ExactLength info) 0 l ->
  zlen (bw_total (es_w (w_es w))) + zlen (encode key (map snd l)) <= disk_cap e ->
  exists s' t', talk_to_peer float_scale e r used c info peerID w = Some (Goes s') /\
    wrote key r w (ps_w s') (map snd l) t t' /\ DownloadedBytes t' = blocks_len l /\
    ps_sent s' = opening info peerID w ++ requests_after (ExactLength info) (ps_pieceLength s0) 0 l.
Proof.
  intros s0 Hconv Hne Hok Hr Hwant Hcap. destruct (conversation_fuel _ _ _ Hconv) as [f Hfuel].
  destruct Hconv as (Hund & Hhash & reserved & id & Hres & Hid & Hin). pose proof Hund as [Hops _].
  rewrite (talk_greeted _ _ _ _ _ _ _ _ _ _ Hund Hhash Hres Hid Hin), Hfuel.
  fold s0. set (s1 := send interested (send ext_handshake (send (handshake info peerID) s0))).
  assert (ready e r used (blocks_len l) key (on_unchoke (set_keepAlives 0 s1)) t) as Hr1 by (destruct Hr; by constructor).
  assert (forall g, talk (S g) e r used c 0 (unchoke ++ concat (map piece_message l)) s1 =
    talk g e r used c 1 (concat (map piece_message l)) (on_unchoke (set_keepAlives 0 s1))) as ->.
  { intros g. change (unchoke ++ concat (map piece_message l))
      with (be_put 4 (zlen [1]) ++ [1] ++ concat (map piece_message l)).
    rewrite (exchange_message e r used c g 0 [1] _ s1 t Hund (rd_obj _ _ _ _ _ _ _ Hr) (rd_live _ _ _ _ _ _ _ Hr)) by done.
    cbn [handle_message on_unchoke send set_keepAlives ps_total ps_downloaded s1 s0 first_peer_state].
    destruct (Z.ltb_spec 0 (ExactLength info)), (Z.leb_spec (ExactLength info) 0); try lia; done. }
  destruct (exchange_blocks e r used c key [] l Hund (S f) 1 (on_unchoke (set_keepAlives 0 s1)) t Hok Hr1)
    as (s2 & t2 & Heq & Hw2 & Hd2 & Hr2 & Hdl & Htot & Hpl & Hsent); [done|done|].
  rewrite app_nil_r in Heq. rewrite Heq. cbn [on_unchoke send set_keepAlives s1 s0 first_peer_state
    ps_w ps_sent ps_downloaded ps_total ps_pieceLength] in Hw2, Hdl, Htot, Hpl, Hsent.
  assert (0 < blocks_len l) as Hpos.
  { destruct l as [|hb l]; [done|]. rewrite blocks_len_cons. apply Forall_inv in Hok as (_ & Hb & _).
    apply zlen_pos in Hb. pose proof (blocks_len_nonneg l). lia. }
  assert (Some (Goes s2) = (if negb (bool_decide (l = []))
      && (0 <? ps_total (on_unchoke (set_keepAlives 0 s1)))
      && (ps_total (on_unchoke (set_keepAlives 0 s1)) <=? ps_downloaded s2)
    then Some (Goes s2) else talk (S f) e r used c (1 + length l)%nat [] s2)) as <-.
  { destruct (_ && _); [done|]. cbn [exchange].
    assert (on_dm (ps_w s2) (fun st => dm_steps st (pc_ops c (1 + length l)%nat)) = ps_w s2) as Hon2.
    { rewrite Hops. cbn. by destruct (ps_w s2). }
    cbn [ps_w]. rewrite Hon2. assert (ctx_done (w_dm (ps_w s2)) r = false) as ->.
    { unfold ctx_done. destruct Hr2. by rewrite rd_obj0. }
    unfold read_full. cbn [zlen length Z.of_nat Z.leb]. change (4 <=? zlen []) with false. cbv iota.
    unfold read_failed, exchange_over. cbn [ps_downloaded].
    destruct (Z.ltb_spec 0 (ps_downloaded s2)); [|lia]. by destruct s2. }
  exists s2, t2. split; [done|]. split; [exact Hw2|]. split; [rewrite Hd2, Hdl by done; lia|].
  rewrite Hsent. by rewrite <- !app_assoc.
Qed.

(** ** From a peer to the store *)

(** The first peer found can be reached and is [c]. *)
Definition first_peer (se : swarm_env) (r : nat) (info : MagnetInfo) (w : worker) (c : peer_conn) : Prop :=
  exists p ps target, announce_all se r 0 (Trackers info) info w = (w, Some (p :: ps)) /\
    sw_ops se (length (Trackers info)) = [] /\
    ValidatePeerAddress (sw_net se) (length (Trackers info)) p false = Allowed /\
    SafeDialContext (sw_net se) (S (length (Trackers info))) false p = target /\
    (forall why, target <> DialError why) /\ sw_connect se target = Some c.

Lemma swarm_from_first_peer e r used se info w c s : first_peer se r info w c -> ctx_done (w_dm w) r = false ->
  talk_to_peer float_scale e r used c info (sw_peerID se) w = Some (Goes s) ->
  download_from_swarm float_scale e r used se info w = (ps_w s, Delivered).
Proof.
  intros (p & ps & target & Han & Hops & Hval & Hdial & Hnot & Hconn) Hcd Htalk.
  unfold download_from_swarm. rewrite Han. cbn [try_peers]. rewrite Hops.
  assert (on_dm w (fun st => dm_steps st []) = w) as -> by (by destruct w). rewrite Hcd.
  unfold downloadFromPeer. rewrite Hval, Hdial.
  destruct target as [why|a|ip port]; [by destruct (Hnot why)| |]; by rewrite Hconn, Htalk.
Qed.

Definition magnet_mime (mime_of : string -> string) (info : MagnetInfo) : string :=
  if String.eqb (mime_of (DisplayName info)) "" then "application/octet-stream" else mime_of (DisplayName info).

(** A torrent's payload is whatever its first willing peer sends: any blocks, with
    any bytes and any claimed positions, are encrypted in the order they came and stored, and the
    task is Completed - nothing is compared with the hash of the magnet link, and
    a peer that hangs up after its first block has delivered the file, however
    long the link says it is. *)
Theorem peer_blocks_are_stored_unverified e se st r t d isVault vk key info mime_of late c l :
  startable e st r t d isVault vk key ->
  first_peer se r info (first_worker e st t key) c -> converses c info l ->
  l <> [] -> Forall block_ok l -> wanted (ExactLength info) 0 l ->
  0 <= ExactLength info < 2 ^ 63 -> blocks_len l < 2 ^ 31 ->
  33 * blocks_len l <= disk_cap e -> under_quota e (used_by e st t) (blocks_len l) ->
  exists st', executeMagnet float_scale e se st r isVault vk info mime_of [] late = MagnetLeaves st' /\
    stored e st st' r t d key (map snd l) (DisplayName info) (magnet_mime mime_of info) (blocks_len l)
      (ErrorMessage (t_life t)).
Proof.
  intros Hs Hpeer Hconv Hne Hok Hwant Hlen Hsmall Hcap Hquota.
  pose proof Hs as [Henv Hinv Hout Hdb Ht Hlive _ Haes Hq Hused].
  assert (Forall (.≠ []) (map snd l)) as Hnes.
  { apply Forall_map. eapply Forall_impl; [exact Hok|]. by intros hb (_ & Hb & _). }
  assert (nonempty_segs (map snd l) = map snd l) as Hnn.
  { clear -Hnes. unfold nonempty_segs. induction Hnes as [|b bs Hb _ IH]; [done|]. by rewrite filter_cons_True, IH. }
  assert (zlen (encode key (map snd l)) <= disk_cap e) as Hroom.
  { etrans; [by apply encode_room|]. exact Hcap. }
  set (w := first_worker e st t key) in *. set (s0 := first_peer_state w info []).
  assert (ready e r (used_by e st t) (blocks_len l) key s0 t) as Hr.
  { constructor; try done; cbn [s0 first_peer_state ps_downloaded ps_total ps_pieceLength]; try lia.
    - intros n Hn. eapply exceeds_under; [done| |exact Hquota|lia]. destruct Hq; [by left|right; lia].
    - destruct (_ && _) eqn:Hp; [|lia]. apply andb_true_iff in Hp as [Hp1 Hp2].
      apply Z.ltb_lt in Hp1. apply Z.leb_le in Hp2. unfold max_pieceLength in Hp2. rewrite u32_small; lia. }
  destruct (talk_blocks e r (used_by e st t) c key info (sw_peerID se) w t l Hconv Hne Hok Hr Hwant)
    as (s' & t' & Htalk & Hw & Hbytes & _); [done|].
  unfold executeMagnet. rewrite (begin_running _ _ _ _ _ _ _ _ Hs). cbn [seeds_then]. fold w.
  rewrite (swarm_from_first_peer e r (used_by e st t) se info w c s' Hpeer); [|unfold ctx_done; cbn; by rewrite Ht|exact Htalk].
  eexists. split; [reflexivity|]. cbn [end_download].
  destruct Hw as [Wst Wkey Werr Wtot Whash Wobj Wtask Wlive Wmsg Wname]. unfold magnet_mime.
  rewrite <- Hbytes, <- Wmsg. apply finish_completes; rewrite ?Hnn; try done.
  by rewrite Wtot, Hnn.
Qed.

(** ** Requests *)

(** Blocks of the size the client asks for: all of 16 KiB, but the last. *)
Fixpoint asked_for (l : list (bytes * bytes)) : Prop :=
  match l with
  | [] => False
  | [hb] => 0 < zlen (snd hb) <= blockSize
  | hb :: l' => zlen (snd hb) = blockSize /\ asked_for l'
  end.

Lemma asked_for_pos l : asked_for l -> 0 < blocks_len l.
Proof.
  induction l as [|hb [|hb2 l] IH]; [done| |].
  - cbn. rewrite blocks_len_cons. pose proof (blocks_len_nonneg []). lia.
  - intros [H1 H2]. rewrite blocks_len_cons. specialize (IH H2). unfold blockSize in H1. lia.
Qed.

Lemma asked_for_wanted l : forall total done, asked_for l -> total = done + blocks_len l -> wanted total done l.
Proof.
  induction l as [|hb [|hb2 l] IH]; intros total dn Ha Ht; [done| |].
  - pose proof (asked_for_pos _ Ha). split; [right; lia|done].
  - pose proof (asked_for_pos _ Ha). split; [right; lia|]. apply IH; [by destruct Ha|].
    rewrite blocks_len_cons in Ht. lia.
Qed.

Lemma requests_after_lookup pl l : forall total done, asked_for l -> total = done + blocks_len l -> 0 <= done ->
  length (requests_after total pl done l) = (length l - 1)%nat /\
  forall i hb, l !! S i = Some hb ->
    let off := done + Z.of_nat (S i) * blockSize in
    requests_after total pl done l !! i = Some (request (off / pl) (off mod pl) (zlen (snd hb))).
Proof.
  induction l as [|hb [|hb2 l] IH]; intros total dn Ha Ht Hd; [done| |].
  - cbn [requests_after]. rewrite blocks_len_cons in Ht. change (blocks_len []) with 0 in Ht. cbn in Ha.
    destruct (Z.eqb_spec total 0); [lia|]. destruct (Z.ltb_spec (dn + zlen (snd hb)) total); [lia|]. done.
  - destruct Ha as [Hb Ha]. rewrite blocks_len_cons in Ht. pose proof (asked_for_pos _ Ha) as Hpos.
    assert (0 < blockSize) as Hbs by done.
    destruct (IH total (dn + zlen (snd hb)) Ha ltac:(lia) ltac:(lia)) as [Hlen Hlook].
    remember (hb2 :: l) as tail eqn:Htail. cbn [requests_after].
    destruct (Z.eqb_spec total 0); [lia|]. destruct (Z.ltb_spec (dn + zlen (snd hb)) total); [|lia].
    cbn [orb app length]. split; [rewrite Hlen, Htail; cbn [length]; lia|].
    intros [|i] x Hx; cbn [lookup list_lookup].
    + rewrite Htail in Hx. cbn in Hx. injection Hx as <-. rewrite Hb. subst tail. change (Z.of_nat 1 * blockSize) with blockSize.
      assert ((if (0 <? total) && (total - (dn + blockSize) <? blockSize) then total - (dn + blockSize) else blockSize)
        = zlen (snd hb2)) as ->; [|done].
      rewrite blocks_len_cons in *. destruct (Z.ltb_spec 0 total); [|lia]. cbn [andb].
      destruct l as [|hb3 l].
      * cbn in Ha. change (blocks_len []) with 0 in *. destruct (Z.ltb_spec (total - (dn + blockSize)) blockSize); lia.
      * destruct Ha as [Hb2 Ha]. pose proof (asked_for_pos _ Ha).
        destruct (Z.ltb_spec (total - (dn + blockSize)) blockSize); lia.
    + etrans; [exact (Hlook i x Hx)|].
      replace (dn + zlen (snd hb) + Z.of_nat (S i) * blockSize) with (dn + Z.of_nat (S (S i)) * blockSize) by lia. done.
Qed.

(** The client asks for the payload from its beginning to its end: with a
    peer that sends the blocks it is asked for, the [i]-th request names the [i]-th
    stretch of 16 KiB by its piece and its offset in the piece, the last one
    only what is left, and nothing else is asked for. *)
Theorem requests_run_through_payload e r used c key info peerID w t l :
  let s0 := first_peer_state w info [] in
  converses c info l -> asked_for l -> Forall block_ok l -> ExactLength info = blocks_len l ->
  ready e r used (blocks_len l) key s0 t ->
  zlen (bw_total (es_w (w_es w))) + zlen (encode key (map snd l)) <= disk_cap e ->
  exists s', talk_to_peer float_scale e r used c info peerID w = Some (Goes s') /\
    length (ps_sent s') = (3 + length l)%nat /\
    forall i hb, l !! i = Some hb ->
      let off := Z.of_nat i * blockSize in
      let pl := ps_pieceLength s0 in
      ps_sent s' !! (3 + i)%nat = Some (request (off / pl) (off mod pl) (zlen (snd hb))).
Proof.
  intros s0 Hconv Ha Hok Hlen Hr Hcap. pose proof (asked_for_pos _ Ha) as Hpos.
  assert (l <> []) as Hne by (by intros ->).
  destruct (talk_blocks e r used c key info peerID w t l Hconv Hne Hok Hr) as (s' & t' & Htalk & _ & _ & Hsent);
    [by apply asked_for_wanted|done|].
  exists s'. split; [exact Htalk|]. rewrite Hsent. change (first_peer_state w info []) with s0.
  destruct (requests_after_lookup (ps_pieceLength s0) l (ExactLength info) 0 Ha ltac:(lia) ltac:(lia)) as [Hl Hlook].
  split; [rewrite length_app, Hl; destruct l; [done|]; cbn [length opening]; lia|].
  intros i hb Hi. cbv zeta. destruct i as [|i].
  - cbn [opening app lookup list_lookup Nat.add]. unfold first_request. do 2 f_equal.
    cbn [first_peer_state ps_total]. rewrite Hlen. destruct Hr as [_ _ _ _ _ _ _ Hsm _ _].
    cbn [s0 first_peer_state ps_downloaded] in Hsm.
    destruct l as [|hb1 [|hb2 l]]; [done| |]; cbn in Hi; injection Hi as ->; rewrite blocks_len_cons in *.
    + change (blocks_len []) with 0 in *. cbn in Ha. destruct (Z.ltb_spec 0 (zlen (snd hb) + 0)); [|lia]. cbn [andb].
      destruct (Z.ltb_spec (zlen (snd hb) + 0) blockSize); [rewrite u32_small|]; lia.
    + destruct Ha as [Hb Ha]. pose proof (asked_for_pos _ Ha).
      destruct (Z.ltb_spec (zlen (snd hb) + blocks_len (hb2 :: l)) blockSize); [lia|]. by rewrite andb_false_r, Hb.
  - etrans; [exact (Hlook i hb Hi)|]. by rewrite Z.add_0_l.
Qed.

(** ** Who is reached *)

(** Two networks that differ at most in what answers at addresses that are
    not public. *)
Definition same_public (se1 se2 : swarm_env) : Prop :=
  sw_net se1 = sw_net se2 /\ sw_peerID se1 = sw_peerID se2 /\ sw_ops se1 = sw_ops se2 /\
  sw_announce se1 = sw_announce se2 /\ forall d, public_dial d -> sw_connect se1 d = sw_connect se2 d.

Lemma downloadFromPeer_public e r used se1 se2 n p info w :
  AllowPrivateNetworks (sw_net se1) = false -> same_public se1 se2 ->
  downloadFromPeer float_scale e r used se1 n p info w = downloadFromPeer float_scale e r used se2 n p info w.
Proof.
  intros Hp (Hnet & Hid & _ & _ & Hconn). unfold downloadFromPeer. rewrite <- Hnet, <- Hid.
  destruct (ValidatePeerAddress _ _ _ _); [|done].
  pose proof (safe_dial_public (sw_net se1) (S n) p Hp) as Hd.
  destruct (SafeDialContext _ _ _ _) as [why|a|ip port] eqn:Heq; [done| |]; by rewrite (Hconn _ Hd).
Qed.

(** Nothing that listens in a private network, on the loopback or on a
    link-local address can take part in a torrent's download: however the trackers
    name it, the whole run is the same as if it were not there. *)
Theorem private_peers_are_unreachable e se1 se2 st r isVault vk info mime_of seeds late :
  AllowPrivateNetworks (sw_net se1) = false -> same_public se1 se2 ->
  executeMagnet float_scale e se1 st r isVault vk info mime_of seeds late =
  executeMagnet float_scale e se2 st r isVault vk info mime_of seeds late.
Proof.
  intros Hp Hs. pose proof Hs as (Hnet & Hid & Hops & Han & Hconn).
  assert (forall used info all ps n w, try_peers float_scale e r used se1 n all ps info w =
    try_peers float_scale e r used se2 n all ps info w) as Htry.
  { intros used info0 all ps. revert info0. induction ps as [|p ps IH]; intros info0 n w; [done|]. cbn [try_peers].
    rewrite <- Hops. rewrite (downloadFromPeer_public e r used se1 se2 n p info0 _ Hp Hs).
    destruct (ctx_done _ _); [done|]. destruct (downloadFromPeer _ _ _ _ _ _ _ _ _) as [[]|]; try done. }
  assert (forall trs n w, announce_all se1 r n trs info w = announce_all se2 r n trs info w) as Hann.
  { induction trs as [|tr trs IH]; intros n w; [done|]. cbn [announce_all]. rewrite <- Hops, IH.
    unfold announceHTTPTracker. by rewrite <- Hnet, <- Hid, <- Han. }
  assert (forall used w, download_from_swarm float_scale e r used se1 info w =
    download_from_swarm float_scale e r used se2 info w) as Hswarm.
  { intros used w. unfold download_from_swarm. rewrite Hann. destruct (announce_all _ _ _ _ _ _) as [w1 [ps|]]; [|done].
    apply Htry. }
  unfold executeMagnet. destruct (begin_download _ _ _ _ _) as [|w used temp]; [done|].
  assert (forall seeds w, seeds_then float_scale Delivered (NotDelivered err_canceled) e r used (ExactLength info) seeds
      (download_from_swarm float_scale e r used se1 info) w =
    seeds_then float_scale Delivered (NotDelivered err_canceled) e r used (ExactLength info) seeds
      (download_from_swarm float_scale e r used se2 info) w) as ->; [|done].
  clear w temp. intros sds. induction sds as [|[ops reply] sds IH]; intros w; cbn [seeds_then]; [apply Hswarm|].
  destruct (ctx_done _ _); [done|]. destruct (downloadFromWebSeed _ _ _ _ _ _ _) as [w1 [er|]]; [apply IH|done].
Qed.

(** ** A peer that ends the program *)

(** Metadata with a piece length of 2^32, then a block of one byte. *)
Definition bad_metadata : bytes :=
  MarshalBencode (BDict [(bytes_of_string "msg_type", BInt 1)])
  ++ MarshalBencode (BDict [(bytes_of_string "piece length", BInt (2 ^ 32))]).

Definition bad_block : bytes := [7; 0; 0; 0; 0; 0; 0; 0; 0; 1].

Definition hostile (c : peer_conn) (info : MagnetInfo) : Prop :=
  undisturbed_conn c /\ zlen (InfoHash info) = 20 /\
  exists reserved id, zlen reserved = 8 /\ zlen id = 20 /\
    pc_in c = greeting info reserved id
      ++ (be_put 4 (zlen ([20; 1] ++ bad_metadata)) ++ ([20; 1] ++ bad_metadata)) ++ be_put 4 (zlen bad_block) ++ bad_block.

Lemma bad_metadata_zeroes s : on_metadata bad_metadata s =
  set_lengths (ps_total s) 0 (ExactLength (ps_info s)) (2 ^ 32) s.
Proof. reflexivity. Qed.

(** The piece length is read into 32 bits and divided by: a tracker can name a peer
    that makes the program panic, in a goroutine that nothing recovers. *)
Theorem peer_ends_the_program e se st r t d isVault vk key info mime_of late c :
  startable e st r t d isVault vk key ->
  first_peer se r info (first_worker e st t key) c -> hostile c info ->
  ExactLength info = 0 \/ 1 < ExactLength info < 2 ^ 63 ->
  33 <= disk_cap e -> under_quota e (used_by e st t) 1 ->
  executeMagnet float_scale e se st r isVault vk info mime_of [] late = MagnetCrashes.
Proof.
  intros Hs Hpeer (Hund & Hhash & reserved & id & Hres & Hid & Hin) Hlen Hcap Hquota.
  pose proof Hs as [Henv Hinv Hout Hdb Ht Hlive _ Haes Hq Hused].
  unfold executeMagnet. rewrite (begin_running _ _ _ _ _ _ _ _ Hs). cbn [seeds_then].
  set (w := first_worker e st t key) in *.
  assert (exists f, exchange_fuel c = S (S f)) as [f Hf].
  { unfold exchange_fuel. rewrite Hin. rewrite !length_app.
    change (length (greeting info reserved id)) with (S (length (protocol ++ reserved ++ InfoHash info ++ id))).
    eexists. reflexivity. }
  assert (exists s, talk_to_peer float_scale e r (used_by e st t) c info (sw_peerID se) w = Some (Panics s)) as [s Htalk].
  { rewrite (talk_greeted _ _ _ _ _ _ _ _ _ _ Hund Hhash Hres Hid Hin), Hf. rewrite <- app_assoc.
    set (s1 := send interested _).
    rewrite (exchange_message e r (used_by e st t) c (S f) 0 _ _ s1 t Hund Ht Hlive) by (vm_compute; done).
    change (handle_message float_scale e r (used_by e st t) c ([20; 1] ++ bad_metadata) (set_keepAlives 0 s1))
      with (Goes (on_metadata bad_metadata (set_keepAlives 0 s1))).
    rewrite bad_metadata_zeroes. set (s2 := set_lengths _ _ _ _ _).
    assert ((0 <? ps_total s2) && (ps_total s2 <=? ps_downloaded s2) = false) as ->.
    { cbn [s2 set_lengths ps_total ps_downloaded set_keepAlives s1 send first_peer_state].
      destruct (Z.ltb_spec 0 (ExactLength info)), (Z.leb_spec (ExactLength info) 0); try lia; done. }
    replace (be_put 4 (zlen bad_block) ++ bad_block) with (be_put 4 (zlen bad_block) ++ bad_block ++ [])
      by (by rewrite app_nil_r).
    rewrite (exchange_message e r (used_by e st t) c f 1 bad_block [] s2 t Hund Ht Hlive) by done.
    change (handle_message float_scale e r (used_by e st t) c bad_block (set_keepAlives 0 s2))
      with (on_piece float_scale e r (used_by e st t) c bad_block (set_keepAlives 0 s2)).
    unfold on_piece. change (9 <? zlen bad_block) with true. change (zdrop 9 bad_block) with [1]. cbv iota.
    destruct (multi_write_ok key (disk_cap e) r (ps_w (set_keepAlives 0 s2)) [1] t) as (w1 & -> & Hdm & Hw); try done.
    { change (bw_total (es_w (w_es (ps_w (set_keepAlives 0 s2))))) with (@nil Z). change (zlen (@nil Z)) with 0.
      pose proof (encode_room key [[1]] Haes) as Hroom. rewrite encode_cons in Hroom. cbn [encode concat app] in Hroom.
      rewrite app_nil_r in Hroom. specialize (Hroom ltac:(by repeat constructor)). change (zlen [1]) with 1 in Hroom. lia. }
    unfold next_request. cbn [ps_total ps_downloaded ps_pieceLength s2 set_lengths set_keepAlives s1 send first_peer_state].
    change (i64 (0 + zlen [1])) with 1.
    assert ((ExactLength info =? 0) || (1 <? ExactLength info) = true) as ->.
    { destruct Hlen as [->|Hl]; [done|]. apply orb_true_iff. right. apply Z.ltb_lt. lia. }
    cbn [Z.eqb]. by eexists. }
  destruct Hpeer as (p & ps & target & Han & Hops & Hval & Hdial & Hnot & Hconn).
  unfold download_from_swarm. rewrite Han. cbn [try_peers]. rewrite Hops.
  assert (on_dm w (fun st => dm_steps st []) = w) as -> by (by destruct w).
  assert (ctx_done (w_dm w) r = false) as -> by (unfold ctx_done; cbn; by rewrite Ht).
  unfold downloadFromPeer. rewrite Hval, Hdial.
  destruct target as [why|a|ip port]; [by destruct (Hnot why)| |]; by rewrite Hconn, Htalk.
Qed.
End TorrentFacts.

(** ** Witnesses *)

Lemma compact_peers_roundtrip_witness :
  compact_peers ([93; 184; 216; 34; 26; 225] ++ [10; 0; 0; 1; 0; 80] ++ [1; 2]) = ["93.184.216.34:6881"; "10.0.0.1:80"].
Proof.
  change ([93; 184; 216; 34; 26; 225] ++ [10; 0; 0; 1; 0; 80] ++ [1; 2])
    with (concat (map compact_peer [([93; 184; 216; 34], 6881); ([10; 0; 0; 1], 80)]) ++ [1; 2]).
  rewrite (compact_peers_roundtrip [([93; 184; 216; 34], 6881); ([10; 0; 0; 1], 80)] [1; 2]).
  - vm_compute. reflexivity.
  - repeat (constructor; [split; [reflexivity|split; [discriminate|reflexivity]]|]). constructor.
  - reflexivity.
Defined.

Section TorrentWitnesses.
Import ToyCrypto.

(** host:port of a literal address. *)
Definition split_at_colon (s : string) : option (string * string) :=
  let '(host, port, found) := Cut ":" s in if found then Some (host, port) else None.

Definition torrent_net : net_env :=
  mkNetEnv (fun s => option_map (fun u => (u_Scheme u, Hostname u)) (Parse s))
    (fun s => if String.eqb s "93.184.216.34" then Some [93; 184; 216; 34] else None) split_at_colon
    (fun _ h => if String.eqb h "t.org" then Some [[8; 8; 8; 8]] else None) false.

Definition toy_info (exact : Z) : MagnetInfo :=
  mkMagnet (replicate 20 9) "0909" "movie.mkv" ["udp://t.org"; "http://t.org/a"] [] [] exact 0.

Definition toy_conn (inp : bytes) : peer_conn := mkConn inp EOF (fun _ => true) (fun _ => []) (fun _ => "1.0 MB/s").

Definition toy_swarm (c : peer_conn) : swarm_env :=
  mkSwarm torrent_net (replicate 20 2)
    (fun _ => Some (mkTracker 200 (MarshalBencode (BDict [(bytes_of_string "peers", BStr [93; 184; 216; 34; 26; 225])])) None))
    (fun d => match d with DialIP [93; 184; 216; 34] "6881" => Some c | _ => None end) (fun _ => []).

Definition hello_from (info : MagnetInfo) : bytes := greeting info (replicate 8 0) (replicate 20 1).

Definition toy_blocks : list (bytes * bytes) := [(replicate 8 255, [1; 2]); (replicate 8 0, [3])].

Definition toy_talk (exact : Z) : peer_conn :=
  toy_conn (hello_from (toy_info exact) ++ unchoke ++ concat (map piece_message toy_blocks)).

Lemma toy_first_peer e st t key exact c :
  t_cancelled t = false -> dm_objs st !! 0%nat = Some t ->
  first_peer (toy_swarm c) 0 (toy_info exact) (first_worker e st t key) c.
Proof.
  intros Hl Ho. exists "93.184.216.34:6881", [], (DialIP [93; 184; 216; 34] "6881").
  assert (forall w : worker, on_dm w (fun st => dm_steps st []) = w) as Hon by by intros [].
  split; [|split; [done|split; [by vm_compute|split; [by vm_compute|by split]]]].
  cbn [announce_all Trackers toy_info sw_ops toy_swarm]. rewrite !Hon.
  assert (ctx_done (w_dm (first_worker e st t key)) 0 = false) as -> by (unfold ctx_done; cbn; by rewrite Ho).
  assert (announceHTTPTracker (toy_swarm c) 1 "http://t.org/a" (toy_info exact) =
    (fst (announceHTTPTracker (toy_swarm c) 1 "http://t.org/a" (toy_info exact)), Ok ["93.184.216.34:6881"])) as ->;
    [|by vm_compute].
  unfold announceHTTPTracker.
  assert (ValidateSafeURL (sw_net (toy_swarm c)) 1 "http://t.org/a" false = Allowed) as -> by by vm_compute.
  destruct (Parse "http://t.org/a") eqn:Hp; [|by vm_compute in Hp]. cbn [fst]. by f_equal.
Qed.

Lemma toy_converses exact : converses (toy_talk exact) (toy_info exact) toy_blocks.
Proof. split; [done|]. split; [done|]. by exists (replicate 8 0), (replicate 20 1). Qed.

Lemma peer_blocks_are_stored_unverified_witness :
  exists st', executeMagnet dl_scale (task_env 10 1000) (toy_swarm (toy_talk 700)) dl_manager 0%nat false []
      (toy_info 700) (fun _ => "video/x-matroska") [] [] = MagnetLeaves st' /\
    (exists t', dm_objs st' !! 0%nat = Some t' /\ Status (t_life t') = StatusCompleted) /\
    map fr_size (from_option files [] (dm_DB st')) = [3].
Proof.
  destruct (peer_blocks_are_stored_unverified dl_scale (task_env 10 1000) (toy_swarm (toy_talk 700)) dl_manager 0%nat dl_task
    (mkDB [] []) false [] task_key (toy_info 700) (fun _ => "video/x-matroska") [] (toy_talk 700) toy_blocks)
    as (st' & He & (t' & Ht & Hs & _) & Hdb & _).
  - apply toy_startable. right. lia.
  - by apply toy_first_peer.
  - apply toy_converses.
  - done.
  - repeat constructor; by vm_compute.
  - by vm_compute; auto.
  - by vm_compute.
  - by vm_compute.
  - by vm_compute.
  - right. by vm_compute.
  - exists st'. split; [exact He|]. split; [exists t'; exact (conj Ht Hs)|]. rewrite Hdb. reflexivity.
Defined.

Definition asked_blocks : list (bytes * bytes) :=
  [(replicate 8 0, replicate (Z.to_nat blockSize) 1); (replicate 8 0, [2; 3])].

Definition asked_conn : peer_conn :=
  toy_conn (hello_from (toy_info (blockSize + 2)) ++ unchoke ++ concat (map piece_message asked_blocks)).

Lemma requests_run_through_payload_witness :
  exists s', talk_to_peer dl_scale (task_env 0 1000000) 0 0 asked_conn (toy_info (blockSize + 2)) (replicate 20 2)
      (first_worker (task_env 0 1000000) dl_manager dl_task task_key) = Some (Goes s') /\
    ps_sent s' !! 4%nat = Some (request 0 blockSize 2).
Proof.
  destruct (requests_run_through_payload dl_scale (task_env 0 1000000) 0 0 asked_conn task_key (toy_info (blockSize + 2))
    (replicate 20 2) (first_worker (task_env 0 1000000) dl_manager dl_task task_key) dl_task asked_blocks)
    as (s' & He & _ & Hlook).
  - split; [done|]. split; [done|]. by exists (replicate 8 0), (replicate 20 1).
  - by vm_compute.
  - repeat constructor; by vm_compute.
  - by vm_compute.
  - constructor; try done; try by vm_compute.
  - by vm_compute.
  - exists s'. split; [exact He|]. etrans; [exact (Hlook 1%nat _ eq_refl)|]. by vm_compute.
Defined.

(** The same network, with something that answers on the loopback. *)
Definition with_loopback (se : swarm_env) (c : peer_conn) : swarm_env :=
  mkSwarm (sw_net se) (sw_peerID se) (sw_announce se)
    (fun d => match d with DialIP [127; 0; 0; 1] _ | DialAddr _ => Some c | _ => sw_connect se d end) (sw_ops se).

Lemma private_peers_are_unreachable_witness :
  executeMagnet dl_scale (task_env 10 1000) (toy_swarm (toy_talk 0)) dl_manager 0%nat false []
      (toy_info 0) (fun _ => "") [] [] =
  executeMagnet dl_scale (task_env 10 1000) (with_loopback (toy_swarm (toy_talk 0)) (toy_talk 0)) dl_manager 0%nat false []
      (toy_info 0) (fun _ => "") [] [].
Proof.
  apply (private_peers_are_unreachable dl_scale (task_env 10 1000) (toy_swarm (toy_talk 0))
    (with_loopback (toy_swarm (toy_talk 0)) (toy_talk 0))).
  - reflexivity.
  - do 4 (split; [reflexivity|]). intros [why|a|ip port] Hd; [reflexivity|done|].
    cbn [with_loopback sw_connect]. repeat case_match; try reflexivity. subst. cbn in Hd. done.
Defined.

Lemma peer_ends_the_program_witness :
  executeMagnet dl_scale (task_env 10 1000)
    (toy_swarm (toy_conn (hello_from (toy_info 700)
       ++ (be_put 4 (zlen ([20; 1] ++ bad_metadata)) ++ ([20; 1] ++ bad_metadata)) ++ be_put 4 (zlen bad_block) ++ bad_block)))
    dl_manager 0%nat false [] (toy_info 700) (fun _ => "") [] [] = MagnetCrashes.
Proof.
  apply (peer_ends_the_program dl_scale (task_env 10 1000) _ dl_manager 0%nat dl_task (mkDB [] []) false [] task_key
    (toy_info 700) (fun _ => "") [] _ (toy_startable 10 1000 ltac:(right; lia)) (toy_first_peer (task_env 10 1000) dl_manager dl_task task_key 700 _ eq_refl eq_refl)).
  - split; [done|]. split; [done|]. by exists (replicate 8 0), (replicate 20 1).
  - right. split; reflexivity.
  - by vm_compute.
  - right. by vm_compute.
Defined.

End TorrentWitnesses.
