(* ===== verification/GoData.v ===== *)
(** * Values of any type, and unpadded base64

    Go's [any] as the framework's sessions and tokens hold it, and
    base64.RawURLEncoding of the standard library, which skips line ends and
    does not look at the bits left over in the last digit. *)

From S2P Require Import Prelude GoStrings.

#[local] Open Scope string_scope.
#[local] Open Scope list_scope.
#[local] Open Scope Z_scope.

(** ** any *)

(** The dynamic types the code tells apart; a float64 is [m * 2^e]. *)
Inductive any :=
| ANil
| ABool (b : bool)
| AInt (n : Z)
| AInt64 (n : Z)
| AFloat (m e : Z)
| AStr (s : string)
| AList (l : list any)
| AMap (l : list (string * any)).

(** int(v) of a float64: the fraction is dropped. *)
Definition float_int (m e : Z) : Z := i64 (if 0 <=? e then m * 2 ^ e else Z.quot m (2 ^ (- e))).

(** ** base64.RawURLEncoding *)

Definition url_digit (n : Z) : Ascii.ascii :=
  ascii_of_byte (if n <? 26 then 65 + n else if n <? 52 then 71 + n else if n <? 62 then n - 4
                 else if n =? 62 then 45 else 95).

Fixpoint RawURLEncode (b : bytes) : string :=
  match b with
  | [] => ""
  | [x] => String (url_digit (x / 4)) (String (url_digit (x mod 4 * 16)) "")
  | [x; y] => String (url_digit (x / 4)) (String (url_digit (x mod 4 * 16 + y / 16))
                (String (url_digit (y mod 16 * 4)) ""))
  | x :: y :: z :: b' =>
      String (url_digit (x / 4)) (String (url_digit (x mod 4 * 16 + y / 16))
        (String (url_digit (y mod 16 * 4 + z / 64)) (String (url_digit (z mod 64)) (RawURLEncode b'))))
  end.

Definition url_val (a : Ascii.ascii) : option Z :=
  let n := byte_of_ascii a in
  if (65 <=? n) && (n <=? 90) then Some (n - 65)
  else if (97 <=? n) && (n <=? 122) then Some (n - 71)
  else if (48 <=? n) && (n <=? 57) then Some (n + 4)
  else if n =? 45 then Some 62 else if n =? 95 then Some 63 else None.

(** The digits, line ends skipped. *)
Fixpoint url_digits (s : string) : option (list Z) :=
  match s with
  | EmptyString => Some []
  | String a s' =>
      if Ascii.eqb a newline || Ascii.eqb a carriage_return then url_digits s'
      else match url_val a, url_digits s' with Some v, Some l => Some (v :: l) | _, _ => None end
  end.

(** Four digits are three bytes; one digit alone is an error. *)
Fixpoint of_digits (l : list Z) : option bytes :=
  match l with
  | [] => Some []
  | [_] => None
  | [a; b] => Some [a * 4 + b / 16]
  | [a; b; c] => Some [a * 4 + b / 16; b mod 16 * 16 + c / 4]
  | a :: b :: c :: d :: l' =>
      (fun r => (a * 4 + b / 16) :: (b mod 16 * 16 + c / 4) :: (c mod 4 * 64 + d) :: r) <$> of_digits l'
  end.

Definition RawURLDecode (s : string) : option bytes := url_digits s ≫= of_digits.

(** ** Round trip *)

Definition digit_ok (n : Z) : bool :=
  bool_decide (url_val (url_digit n) = Some n) && negb (Ascii.eqb (url_digit n) newline)
  && negb (Ascii.eqb (url_digit n) carriage_return) && negb (Ascii.eqb (url_digit n) "."%char).

Lemma url_digit_ok n : 0 <= n < 64 -> digit_ok n = true.
Proof. intros Hn. apply (below_forallb 64 digit_ok); [by vm_compute|exact Hn]. Qed.

Lemma url_digits_digit n s : 0 <= n < 64 -> url_digits (String (url_digit n) s) = cons n <$> url_digits s.
Proof.
  intros Hn. pose proof (url_digit_ok n Hn) as Hok. unfold digit_ok in Hok.
  apply andb_true_iff in Hok as [Hok _]. apply andb_true_iff in Hok as [Hok Hc].
  apply andb_true_iff in Hok as [Hv Hl]. apply bool_decide_eq_true in Hv.
  cbn [url_digits]. rewrite Hv. apply negb_true_iff in Hc, Hl. rewrite Hl, Hc. cbn [orb].
  by destruct (url_digits s).
Qed.

Lemma url_digit_dot n s : 0 <= n < 64 -> without "." (String (url_digit n) s) = without "." s.
Proof.
  intros Hn. pose proof (url_digit_ok n Hn) as Hok. unfold digit_ok in Hok.
  apply andb_true_iff in Hok as [_ Hd]. unfold without. cbn [string_forallb]. by rewrite Hd.
Qed.

Ltac byte_parts x :=
  pose proof (Z.div_mod x 4 ltac:(lia)); pose proof (Z.mod_pos_bound x 4 ltac:(lia));
  pose proof (Z.div_mod x 16 ltac:(lia)); pose proof (Z.mod_pos_bound x 16 ltac:(lia));
  pose proof (Z.div_mod x 64 ltac:(lia)); pose proof (Z.mod_pos_bound x 64 ltac:(lia)).

(** Induction by groups of three bytes. *)
Lemma bytes_ind3 (Q : bytes -> Prop) :
  Q [] -> (forall x, Q [x]) -> (forall x y, Q [x; y]) -> (forall x y z b, Q b -> Q (x :: y :: z :: b)) -> forall b, Q b.
Proof.
  intros H0 H1 H2 H3. assert (forall n b, (length b <= n)%nat -> Q b) as Hn.
  { induction n as [|n IH]; intros [|x [|y [|z b]]] Hlen; cbn in Hlen; auto; try lia. apply H3, IH. lia. }
  intros b. by apply (Hn (length b)).
Qed.

(** What holds of every digit holds of every encoded text. *)
Lemma RawURLEncode_all p b : (forall n, 0 <= n < 64 -> p (url_digit n) = true) -> Forall is_byte b ->
  string_forallb p (RawURLEncode b) = true.
Proof.
  intros Hp. assert (forall n s, 0 <= n < 64 -> string_forallb p (String (url_digit n) s) = string_forallb p s) as Hd.
  { intros n s Hn. cbn [string_forallb]. by rewrite Hp. }
  induction b as [|x|x y|x y z b IH] using bytes_ind3.
  - done.
  - intros [Hx _]%Forall_cons. unfold is_byte in Hx. byte_parts x. cbn [RawURLEncode]. rewrite !Hd by lia. done.
  - intros [Hx [Hy _]%Forall_cons]%Forall_cons. unfold is_byte in *. byte_parts x. byte_parts y.
    cbn [RawURLEncode]. rewrite !Hd by lia. done.
  - intros [Hx [Hy [Hz Hb]%Forall_cons]%Forall_cons]%Forall_cons. unfold is_byte in *.
    byte_parts x. byte_parts y. byte_parts z. cbn [RawURLEncode]. rewrite !Hd by lia. by apply IH.
Qed.

Lemma RawURLEncode_dotless b : Forall is_byte b -> without "." (RawURLEncode b) = true.
Proof.
  apply RawURLEncode_all. intros n Hn. pose proof (url_digit_dot n "" Hn) as Hd. unfold without in Hd. cbn [string_forallb] in Hd.
  by rewrite andb_true_r in Hd.
Qed.

Lemma pack_div a n b : 0 <= b < n -> (a * n + b) / n = a.
Proof. intros Hb. rewrite Z.div_add_l, Z.div_small by lia. lia. Qed.

Lemma pack_mod a n b : 0 <= b < n -> (a * n + b) mod n = b.
Proof. intros Hb. rewrite Z.add_comm, Z.mod_add, Z.mod_small by lia. done. Qed.

(** What was encoded is decoded. *)
Lemma RawURLDecode_Encode b : Forall is_byte b -> RawURLDecode (RawURLEncode b) = Some b.
Proof.
  unfold RawURLDecode. induction b as [|x|x y|x y z b IH] using bytes_ind3.
  - done.
  - intros [Hx _]%Forall_cons. unfold is_byte in Hx. byte_parts x. cbn [RawURLEncode].
    rewrite !url_digits_digit by lia. cbn. rewrite Z.div_mul by lia. do 2 f_equal. lia.
  - intros [Hx [Hy _]%Forall_cons]%Forall_cons. unfold is_byte in *. byte_parts x. byte_parts y.
    cbn [RawURLEncode]. rewrite !url_digits_digit by lia. cbn.
    rewrite pack_div, pack_mod, Z.div_mul by lia. do 2 f_equal; [lia|]. f_equal. lia.
  - intros [Hx [Hy [Hz Hb]%Forall_cons]%Forall_cons]%Forall_cons. unfold is_byte in *.
    byte_parts x. byte_parts y. byte_parts z. cbn [RawURLEncode].
    rewrite !url_digits_digit by lia. specialize (IH Hb). destruct (url_digits (RawURLEncode b)) as [l|]; [|done].
    cbn in IH |- *. rewrite IH. cbn. rewrite !pack_div, !pack_mod by lia. do 2 f_equal; [lia|]. f_equal; [lia|]. f_equal. lia.
Qed.
