(* ===== verification/Tokens.v ===== *)
(** * Access and refresh tokens (security/token, security/crypto/cipher.go)

    Claims and their validity (claims.go), the two engines that sign them, as
    JSON web tokens (jwt.go) and as encrypted tokens (encrypted.go over
    cipher.go), the store of refresh tokens (refresh.go), the manager that
    issues, verifies, rotates and revokes them (manager.go), and the
    middlewares as decisions (middleware.go).  encoding/json on headers and
    claims is a codec; random bytes and the clock, in nanoseconds, are
    arguments. *)

From S2P Require Import Prelude GoStrings GoData CryptoPrims NetGuard.

#[local] Open Scope go_scope.
#[local] Open Scope string_scope.
#[local] Open Scope list_scope.
#[local] Open Scope Z_scope.

(** ** Errors *)

Definition ErrTokenExpired : gerror := ErrMsg "ztatic/token: token has expired".
Definition ErrTokenNotValidYet : gerror := ErrMsg "ztatic/token: token is not valid yet".
Definition ErrTokenUsedBeforeIssued : gerror := ErrMsg "ztatic/token: token was used before it was issued".
Definition ErrInvalidToken : gerror := ErrMsg "ztatic/token: invalid token format".
Definition ErrInvalidSignature : gerror := ErrMsg "ztatic/token: invalid token signature".
Definition ErrAlgorithmMismatch : gerror := ErrMsg "ztatic/token: token algorithm is not allowed or invalid".
Definition ErrInvalidKey : gerror := ErrMsg "ztatic/token: key must be at least 32 bytes (256 bits) for HMAC-SHA256".
Definition ErrTokenRevoked : gerror := ErrMsg "ztatic/token: token has been revoked".
Definition ErrRefreshTokenReused : gerror := ErrMsg "ztatic/token: refresh token reuse detected; token family revoked".
Definition ErrAudienceMismatch : gerror := ErrMsg "ztatic/token: audience mismatch".
Definition ErrIssuerMismatch : gerror := ErrMsg "ztatic/token: issuer mismatch".

(** ** Claims *)

(** Unix seconds; zero is absent. *)
Record StandardClaims := mkStd {
  Issuer : string;
  Subject : string;
  Audience : string;
  ExpiresAt : Z;
  NotBefore : Z;
  IssuedAt : Z;
  c_ID : string
}.

Record Claims := mkClaims {
  Std : StandardClaims;
  Roles : list string;
  Scopes : list string;
  TenantID : string;
  Email : string;
  Extra : list (string * any)
}.

Definition no_claims : Claims := mkClaims (mkStd "" "" "" 0 0 0 "") [] [] "" "" [].

Definition second : Z := 1000000000.

(** [t.Unix()] *)
Definition Unix (now : Z) : Z := now / second.

(** [int64(d.Seconds())] of a duration. *)
Definition whole_seconds (d : Z) : Z := Z.quot d second.

Definition std_Valid (now : Z) (c : StandardClaims) (clockSkew : Z) : option gerror :=
  let t := Unix now in
  let leeway := whole_seconds clockSkew in
  if (0 <? ExpiresAt c) && (i64 (ExpiresAt c + leeway) <? t) then Some ErrTokenExpired
  else if (0 <? NotBefore c) && (t <? i64 (NotBefore c - leeway)) then Some ErrTokenNotValidYet
  else if (0 <? IssuedAt c) && (t <? i64 (IssuedAt c - leeway)) then Some ErrTokenUsedBeforeIssued
  else None.

(** On a nil pointer too. *)
Definition claims_Valid (now : Z) (c : option Claims) (clockSkew : Z) : option gerror :=
  match c with None => Some ErrInvalidToken | Some c => std_Valid now (Std c) clockSkew end.

Definition HasRole (c : option Claims) (role : string) : bool :=
  match c with None => false | Some c => existsb (fun r => EqualFold r role) (Roles c) end.

Definition HasAnyRole (c : option Claims) (roles : list string) : bool := existsb (HasRole c) roles.

Definition HasScope (c : option Claims) (scope : string) : bool :=
  match c with None => false | Some c => existsb (fun s => String.eqb s scope || String.eqb s "*") (Scopes c) end.

Definition HasAllScopes (c : option Claims) (scopes : list string) : bool :=
  match c with None => false | Some _ => forallb (HasScope c) scopes end.

Definition InTenant (c : option Claims) (tenantID : string) : bool :=
  match c with None => false | Some c => String.eqb (TenantID c) tenantID end.

Definition PrimaryRole (c : option Claims) : string :=
  match c with Some c => default "" (head (Roles c)) | None => "" end.

(** ** Tokens and engines *)

Definition HS256 : string := "HS256".
Definition HS384 : string := "HS384".
Definition HS512 : string := "HS512".
Definition AlgorithmA256GCM : string := "A256GCM".

Record Header := mkHeader { Alg : string; Typ : string }.

Record Token := mkToken { Raw : string; t_Header : Header; t_Claims : Claims; Signature : bytes }.

(** encoding/json on headers and claims. *)
Class TokenCodec := {
  marshal_header : Header -> bytes;
  unmarshal_header : bytes -> option Header;
  marshal_claims : Claims -> result bytes;
  unmarshal_claims : bytes -> option Claims
}.

(** The interface Engine; signing may draw a nonce. *)
Record Engine := mkEngine {
  eng_Algorithm : string;
  eng_Sign : result bytes -> option Claims -> result string;
  eng_Verify : string -> result Token
}.

Section Engines.
Context `{CryptoPrims} `{TokenCodec}.
Context (hmac_sha384 hmac_sha512 : bytes -> bytes -> bytes).

(** *** HMACEngine *)

Definition computeHMAC (alg : string) (secret data : bytes) : result bytes :=
  if String.eqb alg HS256 then Ok (hmac_sha256 secret data)
  else if String.eqb alg HS384 then Ok (hmac_sha384 secret data)
  else if String.eqb alg HS512 then Ok (hmac_sha512 secret data)
  else Err ErrAlgorithmMismatch.

Definition known_alg (alg : string) : bool := String.eqb alg HS256 || String.eqb alg HS384 || String.eqb alg HS512.

Definition hmac_Sign (alg : string) (secret : bytes) (claims : option Claims) : result string :=
  match claims with
  | None => Err ErrInvalidToken
  | Some c =>
      let headerB64 := RawURLEncode (marshal_header (mkHeader alg "JWT")) in
      let? claimsBytes := marshal_claims c in
      let signingInput := headerB64 +:+ "." +:+ RawURLEncode claimsBytes in
      let? sig := computeHMAC alg secret (bytes_of_string signingInput) in
      Ok (signingInput +:+ "." +:+ RawURLEncode sig)
  end.

(** The header's algorithm is none of the spellings of none. *)
Definition says_none (alg : string) : bool :=
  let algStr := TrimSpace (ToLower alg) in
  String.eqb algStr "" || String.eqb algStr "none" || str_contains algStr "none".

Definition hmac_Verify (alg : string) (secret : bytes) (tokenString : string) : result Token :=
  match split_on "." tokenString with
  | [p0; p1; p2] =>
      match RawURLDecode p0 ≫= unmarshal_header with
      | None => Err ErrInvalidToken
      | Some header =>
          if says_none (Alg header) then Err ErrAlgorithmMismatch
          else if negb (String.eqb (Alg header) alg) then Err ErrAlgorithmMismatch
          else
            match RawURLDecode p2 with
            | None => Err ErrInvalidToken
            | Some actualSig =>
                let? expectedSig := computeHMAC alg secret (bytes_of_string (p0 +:+ "." +:+ p1)) in
                if negb (bool_decide (expectedSig = actualSig)) then Err ErrInvalidSignature
                else
                  match RawURLDecode p1 ≫= unmarshal_claims with
                  | None => Err ErrInvalidToken
                  | Some claims => Ok (mkToken tokenString header claims actualSig)
                  end
            end
      end
  | _ => Err ErrInvalidToken
  end.

Definition NewHMACEngine (alg : string) (secret : bytes) : result Engine :=
  if negb (known_alg alg) then Err ErrAlgorithmMismatch
  else if zlen secret <? 32 then Err ErrInvalidKey
  else Ok (mkEngine alg (fun _ => hmac_Sign alg secret) (hmac_Verify alg secret)).

(** *** CipherSuite *)

Definition ErrDecryptionFailed : gerror := ErrMsg "ztatic/crypto: decryption failed, invalid ciphertext or key".

Definition NewCipherSuite (key : bytes) : result bytes :=
  if zlen key =? 32 then Ok key
  else Err (ErrMsg "ztatic/crypto: invalid key size, must be 32 bytes for AES-256").

Definition Encrypt (key : bytes) (rand : result bytes) (plaintext : bytes) : result string :=
  if zlen plaintext =? 0 then Ok ""
  else let? nonce := rand in Ok (RawURLEncode (nonce ++ gcm_seal key nonce plaintext)).

Definition Decrypt (key : bytes) (encoded : string) : result bytes :=
  if String.eqb encoded "" then Ok []
  else
    match RawURLDecode encoded with
    | None => Err ErrDecryptionFailed
    | Some ciphertext =>
        if zlen ciphertext <? NonceSize then Err ErrDecryptionFailed
        else
          match gcm_open key (ztake NonceSize ciphertext) (zdrop NonceSize ciphertext) with
          | Some plaintext => Ok plaintext
          | None => Err ErrDecryptionFailed
          end
    end.

(** *** EncryptedEngine *)

Definition EncryptedPrefix : string := "zt1.enc.".

Definition enc_Sign (key : bytes) (rand : result bytes) (claims : option Claims) : result string :=
  match claims with
  | None => Err ErrInvalidToken
  | Some c =>
      let? claimsBytes := marshal_claims c in
      let? ciphertext := Encrypt key rand claimsBytes in
      Ok (EncryptedPrefix +:+ ciphertext)
  end.

Definition enc_Verify (key : bytes) (tokenString : string) : result Token :=
  if negb (HasPrefix tokenString EncryptedPrefix) then Err ErrInvalidToken
  else
    match Decrypt key (TrimPrefix tokenString EncryptedPrefix) with
    | Err _ => Err ErrInvalidSignature
    | Ok plaintext =>
        match unmarshal_claims plaintext with
        | None => Err ErrInvalidToken
        | Some claims => Ok (mkToken tokenString (mkHeader AlgorithmA256GCM "ENC") claims [])
        end
    end.

Definition NewEncryptedEngine (cipher : option bytes) : result Engine :=
  match cipher with
  | None => Err ErrInvalidKey
  | Some key => Ok (mkEngine AlgorithmA256GCM (enc_Sign key) (enc_Verify key))
  end.

(** ** Refresh tokens *)

Record RefreshToken := mkRT { rt_ID : string; FamilyID : string; rt_Subject : string; Used : bool; rt_ExpiresAt : Z }.

(** MemoryRefreshTokenStore: the tokens, and the identifiers of each family. *)
Record refresh_store := mkRS { rs_tokens : gmap string RefreshToken; rs_families : gmap string (gset string) }.

Definition NewMemoryRefreshTokenStore : refresh_store := mkRS ∅ ∅.

Definition rs_Save (rt : RefreshToken) (s : refresh_store) : refresh_store :=
  mkRS (<[rt_ID rt := rt]> (rs_tokens s))
    (<[FamilyID rt := {[rt_ID rt]} ∪ default ∅ (rs_families s !! FamilyID rt)]> (rs_families s)).

Definition rs_Get (id : string) (s : refresh_store) : result RefreshToken :=
  match rs_tokens s !! id with Some rt => Ok rt | None => Err ErrInvalidToken end.

Definition use_token (rt : RefreshToken) : RefreshToken :=
  mkRT (rt_ID rt) (FamilyID rt) (rt_Subject rt) true (rt_ExpiresAt rt).

Definition rs_MarkUsed (id : string) (s : refresh_store) : refresh_store * option gerror :=
  match rs_tokens s !! id with
  | Some rt => (mkRS (<[id := use_token rt]> (rs_tokens s)) (rs_families s), None)
  | None => (s, Some ErrInvalidToken)
  end.

Definition rs_RevokeFamily (familyID : string) (s : refresh_store) : refresh_store :=
  match rs_families s !! familyID with
  | Some ids => mkRS (filter (fun kv => kv.1 ∉ ids) (rs_tokens s)) (delete familyID (rs_families s))
  | None => s
  end.

(** Of 32 random bytes. *)
Definition GenerateRandomToken (rand : result bytes) : result string := let? b := rand in Ok (RawURLEncode b).

Definition HashToken (plaintext : string) : string := EncodeToString (sha256 (bytes_of_string plaintext)).

(** ** The manager *)

Record Config := mkConfig {
  cfg_Algorithm : string;
  SecretKey : bytes;
  Cipher : option bytes;
  cfg_Issuer : string;
  cfg_Audience : string;
  AccessTTL : Z;
  RefreshTTL : Z;
  ClockSkew : Z
}.

Record Manager := mkManager { m_cfg : Config; m_engine : Engine; blacklist : gmap string Z }.

Definition or_default (d v : Z) : Z := if v <=? 0 then d else v.

Definition with_defaults (cfg : Config) : Config :=
  mkConfig (cfg_Algorithm cfg) (SecretKey cfg) (Cipher cfg) (cfg_Issuer cfg) (cfg_Audience cfg)
    (or_default (15 * 60 * second) (AccessTTL cfg)) (or_default (7 * 24 * 3600 * second) (RefreshTTL cfg))
    (or_default (60 * second) (ClockSkew cfg)).

Definition NewManager (cfg0 : Config) : result Manager :=
  let cfg := with_defaults cfg0 in
  let? engine := match Cipher cfg with
                 | Some _ => NewEncryptedEngine (Cipher cfg)
                 | None => NewHMACEngine (cfg_Algorithm cfg) (SecretKey cfg)
                 end in
  Ok (mkManager cfg engine ∅).

(** The random bytes of one call: an identifier, a nonce, the refresh token
    and the family. *)
Record draws := mkDraws { d_jti : bytes; d_nonce : result bytes; d_token : result bytes; d_family : result bytes }.

(** The claims completed; the caller's own, behind the pointer it passed. *)
Definition complete_claims (m : Manager) (now : Z) (jti : bytes) (c : Claims) : Claims :=
  let s := Std c in
  let cfg := m_cfg m in
  mkClaims
    (mkStd (if String.eqb (Issuer s) "" && negb (String.eqb (cfg_Issuer cfg) "") then cfg_Issuer cfg else Issuer s)
       (Subject s)
       (if String.eqb (Audience s) "" && negb (String.eqb (cfg_Audience cfg) "") then cfg_Audience cfg else Audience s)
       (if ExpiresAt s =? 0 then Unix (now + AccessTTL cfg) else ExpiresAt s)
       (NotBefore s)
       (if IssuedAt s =? 0 then Unix now else IssuedAt s)
       (if String.eqb (c_ID s) "" then EncodeToString jti else c_ID s))
    (Roles c) (Scopes c) (TenantID c) (Email c) (Extra c).

Definition CreateAccessToken (m : Manager) (now : Z) (d : draws) (claims : option Claims) : Claims * result string :=
  let c := complete_claims m now (d_jti d) (default no_claims claims) in
  (c, eng_Sign (m_engine m) (d_nonce d) (Some c)).

Record TokenPair := mkPair {
  AccessToken : string;
  p_RefreshToken : string;
  TokenType : string;
  ExpiresIn : Z;
  p_ExpiresAt : Z
}.

Definition token_pair (m : Manager) (now : Z) (access refresh : string) : TokenPair :=
  mkPair access refresh "Bearer" (whole_seconds (AccessTTL (m_cfg m))) (now + AccessTTL (m_cfg m)).

Definition CreateTokenPair (m : Manager) (now : Z) (d : draws) (claims : option Claims) (s : refresh_store)
  : refresh_store * result TokenPair :=
  let '(c, access) := CreateAccessToken m now d claims in
  match access, GenerateRandomToken (d_token d), GenerateRandomToken (d_family d) with
  | Ok accessToken, Ok plain, Ok familyID =>
      (rs_Save (mkRT (HashToken plain) familyID (Subject (Std c)) false (now + RefreshTTL (m_cfg m))) s,
       Ok (token_pair m now accessToken plain))
  | Err er, _, _ | Ok _, Err er, _ | Ok _, Ok _, Err er => (s, Err er)
  end.

(** The first half of RefreshTokens: look up, expiry, reuse. *)
Definition refresh_check (now : Z) (plain : string) (s : refresh_store) : refresh_store * result RefreshToken :=
  match rs_Get (HashToken plain) s with
  | Err _ => (s, Err ErrInvalidToken)
  | Ok stored =>
      if rt_ExpiresAt stored <? now then (s, Err ErrTokenExpired)
      else if Used stored then (rs_RevokeFamily (FamilyID stored) s, Err ErrRefreshTokenReused)
      else (s, Ok stored)
  end.

Definition with_subject (c : Claims) (sub : string) : Claims :=
  let s := Std c in
  mkClaims (mkStd (Issuer s) sub (Audience s) (ExpiresAt s) (NotBefore s) (IssuedAt s) (c_ID s))
    (Roles c) (Scopes c) (TenantID c) (Email c) (Extra c).

(** The second half: mark, issue, save. *)
Definition refresh_commit (m : Manager) (now : Z) (d : draws) (base : option Claims) (stored : RefreshToken)
    (s : refresh_store) : refresh_store * result TokenPair :=
  match rs_MarkUsed (rt_ID stored) s with
  | (s, Some er) => (s, Err er)
  | (s, None) =>
      let newClaims := with_subject (default no_claims base) (rt_Subject stored) in
      match snd (CreateAccessToken m now d (Some newClaims)), GenerateRandomToken (d_token d) with
      | Ok newAccess, Ok newPlain =>
          (rs_Save (mkRT (HashToken newPlain) (FamilyID stored) (rt_Subject stored) false (now + RefreshTTL (m_cfg m))) s,
           Ok (token_pair m now newAccess newPlain))
      | Err er, _ | Ok _, Err er => (s, Err er)
      end
  end.

Definition RefreshTokens (m : Manager) (now : Z) (d : draws) (plain : string) (base : option Claims) (s : refresh_store)
  : refresh_store * result TokenPair :=
  match refresh_check now plain s with
  | (s, Err er) => (s, Err er)
  | (s, Ok stored) => refresh_commit m now d base stored s
  end.

Definition manager_Verify (m : Manager) (now : Z) (tokenString : string) : result Token :=
  let? tok := eng_Verify (m_engine m) tokenString in
  let s := Std (t_Claims tok) in
  let cfg := m_cfg m in
  let revoked := match blacklist m !! c_ID s with
                 | Some exp => negb (String.eqb (c_ID s) "") && (now <? exp)
                 | None => false
                 end in
  if revoked then Err ErrTokenRevoked
  else
    match claims_Valid now (Some (t_Claims tok)) (ClockSkew cfg) with
    | Some er => Err er
    | None =>
        if negb (String.eqb (cfg_Issuer cfg) "") && negb (String.eqb (Issuer s) "")
           && negb (String.eqb (Issuer s) (cfg_Issuer cfg))
        then Err ErrIssuerMismatch
        else if negb (String.eqb (cfg_Audience cfg) "") && negb (String.eqb (Audience s) "")
                && negb (String.eqb (Audience s) (cfg_Audience cfg))
        then Err ErrAudienceMismatch
        else Ok tok
    end.

Definition RevokeJTI (jti : string) (expiresAt : Z) (m : Manager) : Manager :=
  if String.eqb jti "" then m else mkManager (m_cfg m) (m_engine m) (<[jti := expiresAt]> (blacklist m)).

(** ** Middlewares *)

(** What a middleware does with a request: pass it on, with a token in its
    context or without, or answer with an error. *)
Inductive verdict_on := Pass (tok : option Token) | Deny (status : Z) (msg : string).

Definition error_text (er : gerror) : string :=
  match er with EOF => "EOF" | ErrUnexpectedEOF => "unexpected EOF" | ErrMsg m => m end.

(** The first token an extractor finds, or the last error. *)
Fixpoint extract (found : list (result (list string))) (last : option gerror) : option string * option gerror :=
  match found with
  | [] => (None, last)
  | Ok (t :: _) :: rest => if String.eqb t "" then extract rest last else (Some t, last)
  | Ok [] :: rest => extract rest last
  | Err er :: rest => extract rest (Some er)
  end.

(** TokenAuthWithConfig with the default error handler. *)
Definition TokenAuth (m : option Manager) (optional : bool) (now : Z) (found : list (result (list string))) : verdict_on :=
  match m with
  | None => Deny 500 "Token manager not configured"
  | Some m =>
      let refuse er := Deny 401 ("Authentication required: " +:+ error_text er) in
      match extract found None with
      | (None, last) => if optional then Pass None else refuse (default ErrInvalidToken last)
      | (Some raw, _) =>
          match manager_Verify m now raw with
          | Ok tok => Pass (Some tok)
          | Err er => if optional then Pass None else refuse er
          end
      end
  end.

(** The guards, on the claims of the context. *)
Definition guard (claims : option Claims) (ok : bool) (msg : string) : verdict_on :=
  match claims with
  | None => Deny 401 "Authentication required"
  | Some _ => if ok then Pass None else Deny 403 msg
  end.

Definition RequireSubject (claims : option Claims) : verdict_on :=
  match claims with
  | Some c => if String.eqb (Subject (Std c)) "" then Deny 401 "Authentication required" else Pass None
  | None => Deny 401 "Authentication required"
  end.

Definition RequireRole (roles : list string) (claims : option Claims) : verdict_on :=
  guard claims (HasAnyRole claims roles) "Insufficient role permissions".

Definition RequireScope (scopes : list string) (claims : option Claims) : verdict_on :=
  guard claims (HasAllScopes claims scopes) "Insufficient scope permissions".

Definition RequireTenant (tenantID : string) (claims : option Claims) : verdict_on :=
  guard claims (InTenant claims tenantID) "Tenant access denied".

End Engines.
