(* ===== verification/TokensProps.v ===== *)
(** * Properties of tokens

    An access token is accepted exactly within its time, with exactly the
    claims it was issued for, unless it is revoked; a refresh token is
    accepted once, and a replay ends its family; and where this fails: a
    revocation ends before its token does, two requests at once rotate one
    token twice. *)

From S2P Require Import Prelude GoStrings GoData CryptoPrims NetGuard Tokens.

#[local] Open Scope string_scope.
#[local] Open Scope list_scope.
#[local] Open Scope Z_scope.

(** ** What an engine promises *)

(** Claims that survive encoding/json. *)
Definition json_safe `{TokenCodec} (c : Claims) : Prop :=
  exists b, marshal_claims c = Ok b /\ unmarshal_claims b = Some c /\ Forall is_byte b /\ b <> [].

(** A nonce of GCM's size. *)
Definition good_nonce (rand : result bytes) : Prop := exists n, rand = Ok n /\ zlen n = NonceSize /\ Forall is_byte n.

(** What it signs it verifies, with the same claims. *)
Class EngineOk `{TokenCodec} (E : Engine) : Prop := {
  sign_verify rand c s : json_safe c -> good_nonce rand -> eng_Sign E rand (Some c) = Ok s ->
    exists tok, eng_Verify E s = Ok tok /\ t_Claims tok = c /\ Raw tok = s;
  sign_total rand c : json_safe c -> good_nonce rand -> is_Some (match eng_Sign E rand (Some c) with Ok s => Some s | Err _ => None end)
}.

(** The codec reads back the headers the engine writes; primitives return bytes. *)
Class HeaderLaws `{TokenCodec} : Prop := {
  header_roundtrip alg : known_alg alg = true -> unmarshal_header (marshal_header (mkHeader alg "JWT")) = Some (mkHeader alg "JWT");
  header_byte h : Forall is_byte (marshal_header h)
}.

Class ByteLaws `{CryptoPrims} (hmac_sha384 hmac_sha512 : bytes -> bytes -> bytes) : Prop := {
  hmac256_byte k d : Forall is_byte (hmac_sha256 k d);
  hmac384_byte k d : Forall is_byte (hmac_sha384 k d);
  hmac512_byte k d : Forall is_byte (hmac_sha512 k d);
  seal_byte k n p : Forall is_byte p -> Forall is_byte (gcm_seal k n p)
}.

(** Three parts without dots. *)
Lemma split_three a b c : without "." a = true -> without "." b = true -> without "." c = true ->
  split_on "." ((a +:+ "." +:+ b) +:+ "." +:+ c) = [a; b; c].
Proof.
  intros Ha Hb Hc. change ("." +:+ c) with (String "."%char c). change ("." +:+ b) with (String "."%char b).
  by rewrite !split_app, !split_without.
Qed.

(** A sealed text is read back. *)
Lemma ciphertext_nonempty n c : zlen n = NonceSize -> Forall is_byte (n ++ c) -> RawURLEncode (n ++ c) <> "".
Proof.
  intros Hn Hall He. pose proof (RawURLDecode_Encode _ Hall) as Hd. rewrite He in Hd. injection Hd as Hd.
  apply (f_equal zlen) in Hd. rewrite zlen_app, Hn in Hd. change (zlen (@nil Z)) with 0 in Hd. unfold NonceSize in Hd.
  pose proof (zlen_nonneg c). lia.
Qed.

Lemma Decrypt_Encrypt `{CryptoLaws} key n b : aes_key_ok key = true -> zlen n = NonceSize -> Forall is_byte n -> Forall is_byte b ->
  (forall k n p, Forall is_byte p -> Forall is_byte (gcm_seal k n p)) ->
  Decrypt key (RawURLEncode (n ++ gcm_seal key n b)) = Ok b.
Proof.
  intros Hk Hn Hnb Hb Hseal. assert (Forall is_byte (n ++ gcm_seal key n b)) as Hall by (apply Forall_app; split; auto).
  unfold Decrypt. rewrite RawURLDecode_Encode by done.
  destruct (String.eqb_spec (RawURLEncode (n ++ gcm_seal key n b)) "") as [He|_]; [by destruct (ciphertext_nonempty n _ Hn Hall)|].
  rewrite zlen_app, Hn. pose proof (zlen_nonneg (gcm_seal key n b)).
  destruct (Z.ltb_spec (NonceSize + zlen (gcm_seal key n b)) NonceSize); [lia|].
  by rewrite <- Hn, ztake_app_len, zdrop_app_len, gcm_open_seal by done.
Qed.

Section TokenFacts.
Context `{CryptoLaws} `{HeaderLaws}.
Context (hmac_sha384 hmac_sha512 : bytes -> bytes -> bytes) `{!ByteLaws hmac_sha384 hmac_sha512}.

Lemma computeHMAC_known alg secret data : known_alg alg = true ->
  exists sig, computeHMAC hmac_sha384 hmac_sha512 alg secret data = Ok sig /\ Forall is_byte sig.
Proof.
  unfold known_alg, computeHMAC. intros Hk.
  destruct (String.eqb alg HS256); [eexists; split; [done|apply hmac256_byte]|].
  destruct (String.eqb alg HS384); [eexists; split; [done|apply hmac384_byte]|].
  destruct (String.eqb alg HS512); [eexists; split; [done|apply hmac512_byte]|done].
Qed.

Lemma known_not_none alg : known_alg alg = true -> says_none alg = false.
Proof.
  unfold known_alg. intros Hk. apply orb_true_iff in Hk as [Hk|Hk]; [apply orb_true_iff in Hk as [Hk|Hk]|];
    apply String.eqb_eq in Hk; subst; done.
Qed.

#[export] Instance hmac_engine_ok alg secret E :
  NewHMACEngine hmac_sha384 hmac_sha512 alg secret = Ok E -> EngineOk E.
Proof.
  unfold NewHMACEngine. destruct (known_alg alg) eqn:Hk; [|done]. destruct (zlen secret <? 32); [done|]. intros [= <-].
  cbn [negb]. split; cbn [eng_Sign eng_Verify]; unfold hmac_Sign.
  - intros rand c s (b & Hm & Hu & Hb & _) _. rewrite Hm. cbn [rbind].
    set (p0 := RawURLEncode (marshal_header _)). set (p1 := RawURLEncode b).
    destruct (computeHMAC_known alg secret (bytes_of_string (p0 +:+ "." +:+ p1)) Hk) as (sig & Hs & Hsig).
    rewrite Hs. cbn [rbind]. intros [= <-]. unfold hmac_Verify.
    rewrite split_three by (apply RawURLEncode_dotless; first [done|apply header_byte]).
    unfold p0 at 1. rewrite RawURLDecode_Encode by apply header_byte. cbn [mbind option_bind].
    rewrite header_roundtrip by done. cbn [Alg]. rewrite (known_not_none alg Hk), String.eqb_refl. cbn [negb].
    rewrite RawURLDecode_Encode by done. rewrite Hs. cbn [rbind]. rewrite bool_decide_eq_true_2 by done. cbn [negb].
    unfold p1 at 1. rewrite RawURLDecode_Encode by done. cbn [mbind option_bind]. rewrite Hu. by eexists.
  - intros rand c (b & Hm & _) _. rewrite Hm. cbn [rbind].
    destruct (computeHMAC_known alg secret (bytes_of_string (RawURLEncode (marshal_header (mkHeader alg "JWT")) +:+ "." +:+ RawURLEncode b)) Hk)
      as (sig & -> & _). by eexists.
Qed.

#[export] Instance encrypted_engine_ok key E : aes_key_ok key = true -> NewEncryptedEngine (Some key) = Ok E -> EngineOk E.
Proof.
  intros Hk [= <-]. split; cbn [eng_Sign eng_Verify]; unfold enc_Sign, Encrypt.
  - intros rand c s (b & Hm & Hu & Hb & Hne) (n & -> & Hn & Hnb). rewrite Hm. cbn [rbind].
    apply zlen_pos in Hne as Hpos. destruct (Z.eqb_spec (zlen b) 0); [lia|]. cbn [rbind]. intros [= <-].
    unfold enc_Verify. rewrite HasPrefix_app. cbn [negb]. unfold TrimPrefix. rewrite HasPrefix_app, drop_str_app.
    rewrite Decrypt_Encrypt; [rewrite Hu; by eexists|done..|].
    intros. by apply (seal_byte (hmac_sha384 := hmac_sha384) (hmac_sha512 := hmac_sha512)).
  - intros rand c (b & Hm & _) (n & -> & _). rewrite Hm. cbn [rbind]. destruct (zlen b =? 0); by eexists.
Qed.

End TokenFacts.

(** ** Access tokens *)

Section ManagerFacts.
Context `{TokenCodec}.

(** The same manager, whatever it has revoked since. *)
Definition same_manager (m m' : Manager) : Prop := m_cfg m' = m_cfg m /\ m_engine m' = m_engine m.

(** No registered claim but the subject and the identifier is preset. *)
Definition unset (claims : option Claims) : Prop :=
  let s := Std (default no_claims claims) in
  Issuer s = "" /\ Audience s = "" /\ ExpiresAt s = 0 /\ NotBefore s = 0 /\ IssuedAt s = 0.

Definition revoked_at (m : Manager) (t : Z) (jti : string) : Prop :=
  jti <> "" /\ exists e, blacklist m !! jti = Some e /\ t < e.

Lemma verify_decides m t s tok : eng_Verify (m_engine m) s = Ok tok ->
  let st := Std (t_Claims tok) in
  (Issuer st = "" \/ Issuer st = cfg_Issuer (m_cfg m)) -> (Audience st = "" \/ Audience st = cfg_Audience (m_cfg m)) ->
  (manager_Verify m t s = Ok tok <->
   ~ revoked_at m t (c_ID st) /\ std_Valid t st (ClockSkew (m_cfg m)) = None).
Proof.
  intros Hv st Hiss Haud. unfold manager_Verify. rewrite Hv. cbn [rbind]. fold st. unfold claims_Valid. fold st.
  assert (negb (String.eqb (cfg_Issuer (m_cfg m)) "") && negb (String.eqb (Issuer st) "")
    && negb (String.eqb (Issuer st) (cfg_Issuer (m_cfg m))) = false) as ->.
  { destruct Hiss as [->| ->]; [by rewrite String.eqb_refl, andb_false_r|by rewrite String.eqb_refl, andb_false_r]. }
  assert (negb (String.eqb (cfg_Audience (m_cfg m)) "") && negb (String.eqb (Audience st) "")
    && negb (String.eqb (Audience st) (cfg_Audience (m_cfg m))) = false) as ->.
  { destruct Haud as [->| ->]; [by rewrite String.eqb_refl, andb_false_r|by rewrite String.eqb_refl, andb_false_r]. }
  assert (revoked_at m t (c_ID st) <-> match blacklist m !! c_ID st with
      | Some exp => negb (String.eqb (c_ID st) "") && (t <? exp) | None => false end = true) as Hrev.
  { unfold revoked_at. destruct (blacklist m !! c_ID st) as [e|]; split.
    - intros (Hne & e' & [= <-] & Hlt). apply andb_true_iff. split; [|by apply Z.ltb_lt].
      apply negb_true_iff. by apply String.eqb_neq.
    - intros [Hne Hlt]%andb_true_iff. apply negb_true_iff, String.eqb_neq in Hne. apply Z.ltb_lt in Hlt. eauto.
    - by intros (_ & e & He & _).
    - done. }
  rewrite Hrev. destruct (match blacklist m !! c_ID st with Some _ => _ | None => _ end).
  - split; [done|]. by intros [[] _].
  - destruct (std_Valid t st _); split; try done; by intros [].
Qed.

Lemma valid_window t iat exp skew c : 0 < iat -> 0 < exp -> 0 <= skew -> iat < 2 ^ 62 -> exp < 2 ^ 62 -> skew < 2 ^ 62 ->
  IssuedAt c = iat -> ExpiresAt c = exp -> NotBefore c = 0 ->
  (std_Valid t c skew = None <-> iat - whole_seconds skew <= Unix t <= exp + whole_seconds skew).
Proof.
  intros Hi He Hs Hib Heb Hsb Hia Hex Hnb. unfold std_Valid. rewrite Hia, Hex, Hnb.
  assert (0 <= whole_seconds skew < 2 ^ 62) as Hw.
  { unfold whole_seconds. rewrite Z.quot_div_nonneg by (unfold second; lia). split; [apply Z.div_pos; unfold second; lia|].
    apply Z.div_lt_upper_bound; unfold second; lia. }
  rewrite !i64_id by (unfold in_i64; lia).
  destruct (Z.ltb_spec 0 exp), (Z.ltb_spec 0 iat), (Z.ltb_spec (exp + whole_seconds skew) (Unix t)),
    (Z.ltb_spec (Unix t) (iat - whole_seconds skew)); cbn [andb Z.ltb Z.compare]; try lia; split; (done || lia).
Qed.

(** A token just issued for claims without times, and the same manager later. *)
Record issued (m m' : Manager) (now : Z) (d : draws) (claims : option Claims) (c : Claims) (s : string) : Prop := {
  is_engine : EngineOk (m_engine m);
  is_same : same_manager m m';
  is_create : CreateAccessToken m now d claims = (c, Ok s);
  is_json : json_safe c;
  is_nonce : good_nonce (d_nonce d);
  is_unset : unset claims;
  is_now : 0 < Unix now;
  is_ttl : 0 < AccessTTL (m_cfg m);
  is_skew : 0 <= ClockSkew (m_cfg m) < 2 ^ 62;
  is_small : now + AccessTTL (m_cfg m) < 2 ^ 62
}.

Lemma issued_decides m m' now d claims c s t : issued m m' now d claims c s ->
  exists tok, t_Claims tok = c /\ ExpiresAt (Std c) = Unix (now + AccessTTL (m_cfg m)) /\
    Roles c = Roles (default no_claims claims) /\ Subject (Std c) = Subject (Std (default no_claims claims)) /\
    (forall tok', manager_Verify m' t s = Ok tok' -> tok' = tok) /\
    (manager_Verify m' t s = Ok tok <->
     ~ revoked_at m' t (c_ID (Std c)) /\
     Unix now - whole_seconds (ClockSkew (m_cfg m)) <= Unix t
       <= Unix (now + AccessTTL (m_cfg m)) + whole_seconds (ClockSkew (m_cfg m))).
Proof.
  intros [Heng [Hcfg Hen] Hc Hsafe Hnon (Hi & Ha & He & Hn & Hia) Hnow Httl Hskew Hsum].
  set (ttl := AccessTTL (m_cfg m)) in *. set (skew := ClockSkew (m_cfg m)) in *.
  unfold CreateAccessToken in Hc. injection Hc as Hc Hs.
  set (base := default no_claims claims) in *.
  rewrite Hc in Hs. destruct (sign_verify _ _ _ Hsafe Hnon Hs) as (tok & Hv & Htc & _). rewrite <- Hen in Hv.
  assert (ExpiresAt (Std c) = Unix (now + ttl) /\ IssuedAt (Std c) = Unix now /\ NotBefore (Std c) = 0 /\
    (Issuer (Std c) = "" \/ Issuer (Std c) = cfg_Issuer (m_cfg m')) /\
    (Audience (Std c) = "" \/ Audience (Std c) = cfg_Audience (m_cfg m')) /\
    Roles c = Roles base /\ Subject (Std c) = Subject (Std base)) as (Hce & Hci & Hcn & Hiss & Haud & Hro & Hsu).
  { rewrite <- Hc, Hcfg. cbn [complete_claims Std ExpiresAt IssuedAt NotBefore Issuer Audience Roles Subject].
    rewrite Hi, Ha, He, Hn, Hia. cbn [Z.eqb String.eqb andb]. do 3 (split; [done|]).
    split; [|split; [|done]]; destruct (negb _); auto. }
  rewrite <- Htc in Hiss, Haud. pose proof (verify_decides m' t s tok Hv Hiss Haud) as Hdec. rewrite Htc in Hdec.
  assert (Unix now < 2 ^ 62 /\ 0 < Unix (now + ttl) < 2 ^ 62) as [Hb1 Hb2].
  { unfold Unix, second in *. split; [apply Z.div_lt_upper_bound; lia|]. split; [|apply Z.div_lt_upper_bound; lia].
    pose proof (Z.div_le_mono now (now + ttl) 1000000000 ltac:(lia) ltac:(lia)). lia. }
  rewrite Hcfg in Hdec. fold skew in Hdec.
  rewrite (valid_window t (Unix now) (Unix (now + ttl)) skew (Std c)) in Hdec by (done || lia).
  exists tok. do 4 (split; [done|]). split; [|exact Hdec].
  intros tok' Hok. unfold manager_Verify in Hok. rewrite Hv in Hok. cbn [rbind] in Hok. repeat case_match; congruence.
Qed.

(** C27: An access token is good exactly in its time: it is accepted from the
    second of its issue, less the allowed skew, to the second its lifetime ends, plus the
    skew, and never otherwise, nor while its identifier stands in the black list; and what
    is accepted are the claims it was issued for, with the issuer, the audience, the times
    and the identifier filled in. *)
Theorem access_token_window m m' now d claims c s t :
  issued m m' now d claims c s ->
  ((exists tok, manager_Verify m' t s = Ok tok /\ t_Claims tok = c /\
     Roles c = Roles (default no_claims claims) /\ Subject (Std c) = Subject (Std (default no_claims claims)))
   <-> ~ revoked_at m' t (c_ID (Std c)) /\
       Unix now - whole_seconds (ClockSkew (m_cfg m)) <= Unix t
         <= Unix (now + AccessTTL (m_cfg m)) + whole_seconds (ClockSkew (m_cfg m))) /\
  forall tok, manager_Verify m' t s = Ok tok -> t_Claims tok = c.
Proof.
  intros Hi. destruct (issued_decides _ _ _ _ _ _ _ t Hi) as (tok & Htc & _ & Hro & Hsu & Huniq & Hdec).
  split; [rewrite <- Hdec; split; [intros (tok' & Hok & _); by rewrite <- (Huniq _ Hok)|eauto]|].
  intros tok' Hok. by rewrite (Huniq _ Hok).
Qed.

(** Revoking a token until the time it carries does not last: for the
    allowed skew after that time the token is accepted again. *)
Theorem revoked_token_revives m now d claims c s t :
  let m' := RevokeJTI (c_ID (Std c)) (ExpiresAt (Std c) * second) m in
  issued m m' now d claims c s -> c_ID (Std c) <> "" ->
  (t < ExpiresAt (Std c) * second -> forall tok, manager_Verify m' t s <> Ok tok) /\
  (ExpiresAt (Std c) * second <= t -> Unix t <= ExpiresAt (Std c) + whole_seconds (ClockSkew (m_cfg m)) ->
   exists tok, manager_Verify m' t s = Ok tok /\ t_Claims tok = c).
Proof.
  intros m' Hi Hid. destruct (issued_decides _ _ _ _ _ _ _ t Hi) as (tok & Htc & Hexp & _ & _ & Huniq & Hdec).
  assert (blacklist m' !! c_ID (Std c) = Some (ExpiresAt (Std c) * second)) as Hbl.
  { unfold m', RevokeJTI. destruct (String.eqb_spec (c_ID (Std c)) ""); [done|]. cbn. by rewrite lookup_insert_eq. }
  split.
  - intros Ht tok' Hok. rewrite (Huniq _ Hok) in Hok. apply Hdec in Hok as [Hnot _]. apply Hnot. split; [done|]. eauto.
  - intros Ht Hle. exists tok. split; [|done]. apply Hdec. split.
    + intros (_ & e & He & Hlt). rewrite Hbl in He. injection He as <-. lia.
    + rewrite <- Hexp. split; [|done]. pose proof (is_ttl _ _ _ _ _ _ _ Hi) as Httl. pose proof (is_skew _ _ _ _ _ _ _ Hi) as Hsk.
      assert (0 <= whole_seconds (ClockSkew (m_cfg m))) by (apply Z.quot_pos; unfold second; lia).
      assert (ExpiresAt (Std c) <= Unix t) by (apply Z.div_le_lower_bound; unfold second in *; lia).
      assert (Unix now <= ExpiresAt (Std c)) by (rewrite Hexp; apply Z.div_le_mono; unfold second; lia). lia.
Qed.

(** What is accepted was signed: the last part of a web token is the code,
    under the manager's secret, of all that is before it, and its header names
    the manager's own algorithm. *)
Context `{CryptoPrims} (hmac_sha384 hmac_sha512 : bytes -> bytes -> bytes).

Theorem accepted_web_token_was_signed alg secret E m t s tok :
  NewHMACEngine hmac_sha384 hmac_sha512 alg secret = Ok E -> m_engine m = E -> manager_Verify m t s = Ok tok ->
  exists p0 p1 p2 sig, split_on "." s = [p0; p1; p2] /\ RawURLDecode p2 = Some sig /\
    computeHMAC hmac_sha384 hmac_sha512 alg secret (bytes_of_string (p0 +:+ "." +:+ p1)) = Ok sig /\
    (RawURLDecode p0 ≫= unmarshal_header) = Some (t_Header tok) /\ Alg (t_Header tok) = alg /\
    (RawURLDecode p1 ≫= unmarshal_claims) = Some (t_Claims tok).
Proof.
  unfold NewHMACEngine. destruct (negb _); [done|]. destruct (_ <? _); [done|]. intros [= <-] He Hv.
  unfold manager_Verify in Hv. rewrite He in Hv. cbn [eng_Verify] in Hv.
  destruct (hmac_Verify _ _ _ _ _) as [tok'|] eqn:Hh; [|done]. cbn [rbind] in Hv.
  assert (tok' = tok) as -> by (repeat case_match; congruence). clear Hv.
  unfold hmac_Verify in Hh. destruct (split_on "." s) as [|p0 [|p1 [|p2 [|]]]] eqn:Hsp; try done.
  destruct (RawURLDecode p0 ≫= unmarshal_header) as [hd|] eqn:Hhd; [|done].
  destruct (says_none _); [done|]. destruct (String.eqb_spec (Alg hd) alg) as [Halg|]; [|done]. cbn [negb] in Hh.
  destruct (RawURLDecode p2) as [sig|] eqn:Hd2; [|done].
  destruct (computeHMAC _ _ _ _ _) as [sig'|] eqn:Hmac; [|done]. cbn [rbind] in Hh.
  case_bool_decide as Heq; [|done]. cbn [negb] in Hh. subst sig'.
  destruct (RawURLDecode p1 ≫= unmarshal_claims) as [cl|] eqn:Hcl; [|done]. injection Hh as <-.
  by exists p0, p1, p2, sig.
Qed.

End ManagerFacts.

(** ** Refresh tokens *)

Section RefreshFacts.
Context `{CryptoPrims} `{TokenCodec}.

(** Each token is kept under its own identifier, and its family lists it. *)
Definition rs_ok (s : refresh_store) : Prop :=
  forall id rt, rs_tokens s !! id = Some rt ->
    rt_ID rt = id /\ exists ids, rs_families s !! FamilyID rt = Some ids /\ id ∈ ids.

Lemma rs_ok_new : rs_ok NewMemoryRefreshTokenStore.
Proof. intros id rt Hrt. cbn in Hrt. by rewrite lookup_empty in Hrt. Qed.

(** The requests that work on the store. *)
Inductive token_request :=
| Login (now : Z) (d : draws) (claims : option Claims)
| Rotate (now : Z) (d : draws) (plain : string) (base : option Claims).

Definition serve (m : Manager) (s : refresh_store) (r : token_request) : refresh_store :=
  match r with
  | Login now d claims => fst (CreateTokenPair m now d claims s)
  | Rotate now d plain base => fst (RefreshTokens m now d plain base s)
  end.

Definition serves (m : Manager) : refresh_store -> list token_request -> refresh_store := foldl (serve m).

(** A request draws neither the token with hash [h] nor, when it starts one,
    the family [f]. *)
Definition draw_of (r : token_request) : draws := match r with Login _ d _ | Rotate _ d _ _ => d end.

Definition avoids (h f : string) (r : token_request) : Prop :=
  (forall p, GenerateRandomToken (d_token (draw_of r)) = Ok p -> HashToken p <> h) /\
  match r with Login _ d _ => GenerateRandomToken (d_family d) <> Ok f | Rotate _ _ _ _ => True end.

(** A property of single tokens, of every token in the store. *)
Definition every (Q : string -> RefreshToken -> Prop) (s : refresh_store) : Prop :=
  forall id rt, rs_tokens s !! id = Some rt -> Q id rt.

Lemma every_save Q rt s : Q (rt_ID rt) rt -> every Q s -> every Q (rs_Save rt s).
Proof.
  intros Hrt Hs id rt' Hl. cbn in Hl. apply lookup_insert_Some in Hl as [[<- <-]|[_ Hl]]; [done|by apply Hs].
Qed.

Lemma every_revoke Q f s : every Q s -> every Q (rs_RevokeFamily f s).
Proof.
  intros Hs. unfold rs_RevokeFamily. destruct (rs_families s !! f); [|done].
  intros id rt Hl. cbn in Hl. apply map_lookup_filter_Some in Hl as [Hl _]. by apply Hs.
Qed.

(** What one request keeps true of every token. *)
Lemma every_serve (Q : string -> RefreshToken -> Prop) m s r :
  (forall id rt, rs_tokens s !! id = Some rt -> Q id rt -> Q id (use_token rt)) ->
  (forall p f sub exp, GenerateRandomToken (d_token (draw_of r)) = Ok p ->
     match r with
     | Login _ d _ => GenerateRandomToken (d_family d) = Ok f
     | Rotate _ _ plain _ => exists rt, rs_tokens s !! HashToken plain = Some rt /\ FamilyID rt = f
     end -> Q (HashToken p) (mkRT (HashToken p) f sub false exp)) ->
  every Q s -> every Q (serve m s r).
Proof.
  intros Hu Hnew Hs. destruct r as [now d claims|now d plain base]; cbn [serve].
  - unfold CreateTokenPair. destruct (CreateAccessToken _ _ _ _) as [c [access|]]; [|done].
    destruct (GenerateRandomToken (d_token d)) as [p|] eqn:Hp; [|done].
    destruct (GenerateRandomToken (d_family d)) as [f|] eqn:Hf; [|done]. cbn [fst].
    apply every_save; [|done]. by apply Hnew.
  - unfold RefreshTokens, refresh_check, rs_Get. destruct (rs_tokens s !! HashToken plain) as [rt|] eqn:Hl; [|done].
    destruct (_ <? now); [done|]. destruct (Used rt); [by apply every_revoke|].
    unfold refresh_commit. destruct (rs_MarkUsed (rt_ID rt) s) as [s1 [er|]] eqn:Hm; cbn [fst].
    + unfold rs_MarkUsed in Hm. destruct (rs_tokens s !! rt_ID rt); [done|]. by injection Hm as <- _.
    + assert (every Q s1) as Hs1.
      { unfold rs_MarkUsed in Hm. destruct (rs_tokens s !! rt_ID rt) as [rt1|] eqn:Hl1; [|done]. injection Hm as <-.
        intros id rt' Hl'. cbn in Hl'. apply lookup_insert_Some in Hl' as [[<- <-]|[_ Hl']]; [by apply Hu; [|apply Hs]|by apply Hs]. }
      destruct (snd (CreateAccessToken _ _ _ _)) as [access|]; [|done].
      destruct (GenerateRandomToken (d_token d)) as [p|] eqn:Hp; [|done]. cbn [fst].
      apply every_save; [|done]. apply Hnew; [done|]. by exists rt.
Qed.

(** What holds of the token under [h], and of its use, lasts. *)
Lemma under_serves (Q : RefreshToken -> Prop) m h f rs : (forall rt, Q rt -> Q (use_token rt)) -> Forall (avoids h f) rs ->
  forall s, every (fun id rt => id = h -> Q rt) s -> every (fun id rt => id = h -> Q rt) (serves m s rs).
Proof.
  intros Hu. induction 1 as [|r rs [Hav _] _ IH]; intros s Hs; [done|]. apply IH. apply every_serve; [by eauto| |done].
  intros p f' sub exp Hp _ Heq. by destruct (Hav p Hp).
Qed.

(** A used token stays as it is, or goes; one that is gone stays gone. *)
Lemma kept_serves m rt h f rs : Forall (avoids h f) rs ->
  forall s, every (fun id rt' => id = h -> rt' = use_token rt) s -> every (fun id rt' => id = h -> rt' = use_token rt) (serves m s rs).
Proof. apply under_serves. by intros rt' ->. Qed.

Lemma gone_serves m h f rs : Forall (avoids h f) rs ->
  forall s, every (fun id _ => id = h -> False) s -> every (fun id _ => id = h -> False) (serves m s rs).
Proof. by apply under_serves. Qed.

(** A family without tokens stays without. *)
Lemma dead_serves m h f rs : Forall (avoids h f) rs ->
  forall s, every (fun _ rt => FamilyID rt <> f) s -> every (fun _ rt => FamilyID rt <> f) (serves m s rs).
Proof.
  induction 1 as [|r rs [_ Hav] _ IH]; intros s Hs; [done|]. apply IH. apply every_serve; [done| |done].
  intros p f' sub exp _ Hf. destruct r as [? d ?|? ? plain ?]; cbn in *; [congruence|].
  destruct Hf as (rt & Hrt & <-). by apply (Hs _ _ Hrt).
Qed.

Lemma rs_ok_save rt s : rs_ok s -> rs_ok (rs_Save rt s).
Proof.
  intros Hs id rt' Hl. cbn in Hl. apply lookup_insert_Some in Hl as [[<- <-]|[Hne Hl]].
  - split; [done|]. cbn. eexists. rewrite lookup_insert_eq. split; [done|]. set_solver.
  - destruct (Hs id rt' Hl) as [Hid (ids & Hids & Hin)]. split; [done|]. cbn.
    destruct (decide (FamilyID rt' = FamilyID rt)) as [Hf|Hf].
    + rewrite Hf in *. eexists. rewrite lookup_insert_eq. split; [done|]. rewrite Hids. cbn. set_solver.
    + exists ids. by rewrite lookup_insert_ne.
Qed.

Lemma rs_ok_revoke f s : rs_ok s -> rs_ok (rs_RevokeFamily f s).
Proof.
  intros Hs. unfold rs_RevokeFamily. destruct (rs_families s !! f) as [fids|] eqn:Hf; [|done].
  intros id rt Hl. cbn in Hl. apply map_lookup_filter_Some in Hl as [Hl Hnot].
  destruct (Hs id rt Hl) as [Hid (ids & Hids & Hin)]. split; [done|]. cbn. exists ids. split; [|done].
  rewrite lookup_delete_ne; [done|]. intros ->. rewrite Hf in Hids. injection Hids as ->. done.
Qed.

Lemma revoke_dead f s : rs_ok s -> every (fun _ rt => FamilyID rt <> f) (rs_RevokeFamily f s).
Proof.
  intros Hs id rt Hl Hfam. unfold rs_RevokeFamily in Hl. destruct (rs_families s !! f) as [fids|] eqn:Hf.
  - cbn in Hl. apply map_lookup_filter_Some in Hl as [Hl Hnot]. destruct (Hs id rt Hl) as [_ (ids & Hids & Hin)].
    rewrite Hfam, Hf in Hids. injection Hids as ->. done.
  - destruct (Hs id rt Hl) as [_ (ids & Hids & _)]. by rewrite Hfam, Hf in Hids.
Qed.

Lemma rs_ok_mark id s s' : rs_ok s -> rs_MarkUsed id s = (s', None) -> rs_ok s'.
Proof.
  intros Hs. unfold rs_MarkUsed. destruct (rs_tokens s !! id) as [rt|] eqn:Hl; [|done]. intros [= <-].
  intros id' rt' Hl'. cbn in Hl'. apply lookup_insert_Some in Hl' as [[<- <-]|[_ Hl']]; [exact (Hs id rt Hl)|by apply Hs].
Qed.

Lemma rs_ok_serve m s r : rs_ok s -> rs_ok (serve m s r).
Proof.
  intros Hs. destruct r as [now d claims|now d plain base]; cbn [serve].
  - unfold CreateTokenPair. destruct (CreateAccessToken _ _ _ _) as [c [access|]]; [|done].
    destruct (GenerateRandomToken (d_token d)); [|done]. destruct (GenerateRandomToken (d_family d)); [|done].
    by apply rs_ok_save.
  - unfold RefreshTokens, refresh_check, rs_Get. destruct (rs_tokens s !! HashToken plain) as [rt|]; [|done].
    destruct (_ <? now); [done|]. destruct (Used rt); [by apply rs_ok_revoke|].
    unfold refresh_commit. destruct (rs_MarkUsed (rt_ID rt) s) as [s1 [er|]] eqn:Hm.
    { unfold rs_MarkUsed in Hm. destruct (rs_tokens s !! rt_ID rt); [done|]. by injection Hm as <- _. }
    assert (rs_ok s1) by by eapply rs_ok_mark.
    destruct (snd (CreateAccessToken _ _ _ _)); [|done]. destruct (GenerateRandomToken (d_token d)); [|done].
    by apply rs_ok_save.
Qed.

(** The stores that requests can lead to, from an empty one. *)
Definition reached (m : Manager) (s : refresh_store) : Prop := exists rs, s = serves m NewMemoryRefreshTokenStore rs.

Lemma issued_serves_ok m rs : forall s, rs_ok s -> rs_ok (serves m s rs).
Proof. induction rs as [|r rs IH]; intros s Hs; [done|]. by apply IH, rs_ok_serve. Qed.

Lemma issued_reached_ok m s : reached m s -> rs_ok s.
Proof. intros [rs ->]. apply issued_serves_ok, rs_ok_new. Qed.

(** An accepted refresh token was stored and unused, and is used after; the
    new one is in its family. *)
Lemma rotated m now d plain base s s1 pair : rs_ok s -> RefreshTokens m now d plain base s = (s1, Ok pair) ->
  (forall p, GenerateRandomToken (d_token d) = Ok p -> HashToken p <> HashToken plain) ->
  exists rt, rs_tokens s !! HashToken plain = Some rt /\ Used rt = false /\
    rs_tokens s1 !! HashToken plain = Some (use_token rt) /\
    rs_tokens s1 !! HashToken (p_RefreshToken pair) =
      Some (mkRT (HashToken (p_RefreshToken pair)) (FamilyID rt) (rt_Subject rt) false (now + RefreshTTL (m_cfg m))).
Proof.
  intros Hs Hr Hne. unfold RefreshTokens, refresh_check, rs_Get in Hr.
  destruct (rs_tokens s !! HashToken plain) as [rt|] eqn:Hl; [|done].
  destruct (_ <? now); [done|]. destruct (Used rt) eqn:Hu; [done|]. destruct (Hs _ _ Hl) as [Hid _].
  unfold refresh_commit, rs_MarkUsed in Hr. rewrite Hid, Hl in Hr.
  destruct (snd (CreateAccessToken _ _ _ _)) as [access|]; [|done].
  destruct (GenerateRandomToken (d_token d)) as [p|] eqn:Hp; [|done]. injection Hr as <- <-. exists rt.
  cbn [rs_Save rs_tokens rt_ID p_RefreshToken token_pair].
  split; [done|]. split; [done|]. rewrite lookup_insert_ne by by apply Hne. rewrite !lookup_insert_eq. done.
Qed.

(** C28: Refresh tokens rotate.  An accepted token is replaced by a new one of its
    family and is never accepted again, whatever requests follow; while it is
    stored and not expired its replay is reported, and after a report no token of the
    family is ever accepted again - given that no random draw repeats. *)
Theorem refresh_tokens_rotate m s now d plain base s1 pair :
  reached m s -> RefreshTokens m now d plain base s = (s1, Ok pair) ->
  (forall p, GenerateRandomToken (d_token d) = Ok p -> HashToken p <> HashToken plain) ->
  exists rt, rs_tokens s !! HashToken plain = Some rt /\ Used rt = false /\
    rs_tokens s1 !! HashToken (p_RefreshToken pair) =
      Some (mkRT (HashToken (p_RefreshToken pair)) (FamilyID rt) (rt_Subject rt) false (now + RefreshTTL (m_cfg m))) /\
    forall rs, Forall (avoids (HashToken plain) (FamilyID rt)) rs ->
      let s2 := serves m s1 rs in
      forall now2 d2 base2, let '(s3, answer) := RefreshTokens m now2 d2 plain base2 s2 in
      answer <> Ok pair /\ (exists er, answer = Err er) /\
      (rs_tokens s2 !! HashToken plain <> None -> now2 <= rt_ExpiresAt rt -> answer = Err ErrRefreshTokenReused) /\
      (answer = Err ErrRefreshTokenReused -> forall rs' p,
         Forall (avoids (HashToken p) (FamilyID rt)) rs' ->
         (exists rtp, rs_tokens s2 !! HashToken p = Some rtp /\ FamilyID rtp = FamilyID rt) ->
         every (fun _ rtp => FamilyID rtp <> FamilyID rt) (serves m s3 rs') /\
         forall now4 d4 base4, snd (RefreshTokens m now4 d4 p base4 (serves m s3 rs')) = Err ErrInvalidToken).
Proof.
  intros Hre Hr Hne. apply issued_reached_ok in Hre. destruct (rotated _ _ _ _ _ _ _ _ Hre Hr Hne) as (rt & Hl & Hu & Hl1 & Hnew).
  exists rt. do 3 (split; [done|]). intros rs Hav s2 now2 d2 base2.
  assert (rs_ok s2) as Hok2.
  { apply issued_serves_ok. pose proof (rs_ok_serve m s (Rotate now d plain base) Hre) as Hok. cbn [serve] in Hok. by rewrite Hr in Hok. }
  assert (every (fun id rt' => id = HashToken plain -> rt' = use_token rt) s2) as Hsp.
  { apply (kept_serves m _ _ _ rs Hav). intros id rt' Hl' ->. rewrite Hl1 in Hl'. by injection Hl' as <-. }
  unfold RefreshTokens, refresh_check, rs_Get. destruct (rs_tokens s2 !! HashToken plain) as [rt2|] eqn:Hl2.
  2:{ split; [done|]. split; [by eexists|]. by split. }
  rewrite (Hsp _ _ Hl2 eq_refl). cbn [use_token rt_ExpiresAt Used FamilyID].
  destruct (Z.ltb_spec (rt_ExpiresAt rt) now2); (split; [done|]; split; [by eexists|]; split; [done || lia|]); [done|].
  intros _ rs' p Hav' (rtp & Hlp & Hfp). split.
  - eapply dead_serves; [exact Hav'|by apply revoke_dead].
  - intros now4 d4 base4. unfold RefreshTokens, refresh_check, rs_Get.
    assert (rs_tokens (serves m (rs_RevokeFamily (FamilyID rt) s2) rs') !! HashToken p = None) as ->; [|done].
    destruct (rs_tokens (serves _ _ _) !! HashToken p) as [rt4|] eqn:Hl4; [|done]. exfalso.
    refine (gone_serves m (HashToken p) _ rs' Hav' (rs_RevokeFamily (FamilyID rt) s2) _ _ _ Hl4 eq_refl).
    intros id rt5 Hl5 ->. apply (revoke_dead (FamilyID rt) s2 Hok2 _ _ Hl5).
    unfold rs_RevokeFamily in Hl5. destruct (rs_families s2 !! FamilyID rt); cbn in Hl5;
      [apply map_lookup_filter_Some in Hl5 as [Hl5 _]|]; by rewrite Hlp in Hl5; injection Hl5 as <-.
Qed.

(** The new token of a rotation is the one drawn. *)
Lemma new_token_of m now d base rt s s' pair p :
  refresh_commit m now d base rt s = (s', Ok pair) -> GenerateRandomToken (d_token d) = Ok p -> p_RefreshToken pair = p.
Proof.
  intros Hc Hp. unfold refresh_commit in Hc. destruct (rs_MarkUsed _ _) as [s1 [er|]]; [done|].
  destruct (snd (CreateAccessToken _ _ _ _)); [|done]. rewrite Hp in Hc. by injection Hc as _ <-.
Qed.

(** Two requests with one token that both look before either commits both get
    a pair: the family goes on in two lines, and no replay is noticed. *)
Theorem concurrent_refresh_forks_family m s now1 now2 d1 d2 plain b1 b2 rt s1 pair1 s2 pair2 :
  reached m s -> rs_tokens s !! HashToken plain = Some rt -> Used rt = false ->
  now1 <= rt_ExpiresAt rt -> now2 <= rt_ExpiresAt rt ->
  refresh_commit m now1 d1 b1 rt s = (s1, Ok pair1) -> refresh_commit m now2 d2 b2 rt s1 = (s2, Ok pair2) ->
  HashToken (p_RefreshToken pair1) <> HashToken plain ->
  HashToken (p_RefreshToken pair1) <> HashToken (p_RefreshToken pair2) ->
  refresh_check now1 plain s = (s, Ok rt) /\ refresh_check now2 plain s = (s, Ok rt) /\
  Forall (fun pair => exists rt', rs_tokens s2 !! HashToken (p_RefreshToken pair) = Some rt' /\
    Used rt' = false /\ FamilyID rt' = FamilyID rt) [pair1; pair2].
Proof.
  intros Hre Hl Hu H1 H2 Hc1 Hc2 Hne Hne2. destruct (issued_reached_ok _ _ Hre _ _ Hl) as [Hid _].
  assert (forall now, now <= rt_ExpiresAt rt -> refresh_check now plain s = (s, Ok rt)) as Hck.
  { intros now Hn. unfold refresh_check, rs_Get. rewrite Hl, Hu. by destruct (Z.ltb_spec (rt_ExpiresAt rt) now); [lia|]. }
  split; [by apply Hck|]. split; [by apply Hck|].
  unfold refresh_commit, rs_MarkUsed in Hc1, Hc2. rewrite Hid in Hc1, Hc2. rewrite Hl in Hc1.
  destruct (snd (CreateAccessToken m now1 d1 _)) as [a1|]; [|done].
  destruct (GenerateRandomToken (d_token d1)) as [p1|]; [|done]. injection Hc1 as <- <-. cbn [p_RefreshToken token_pair] in *.
  cbn [rs_Save rs_tokens rt_ID] in Hc2. rewrite lookup_insert_ne, lookup_insert_eq in Hc2 by done.
  destruct (snd (CreateAccessToken m now2 d2 _)) as [a2|]; [|done].
  destruct (GenerateRandomToken (d_token d2)) as [p2|]; [|done]. injection Hc2 as <- <-. cbn [p_RefreshToken token_pair] in *.
  repeat constructor; cbn [rs_Save rs_tokens rt_ID].
  - rewrite lookup_insert_ne by done. rewrite lookup_insert_ne by done. rewrite lookup_insert_eq. by eexists.
  - rewrite lookup_insert_eq. by eexists.
Qed.

End RefreshFacts.

(** ** A codec for examples *)
Module ToyTokens.
Import ToyCrypto.

Fixpoint pos_bits (p : positive) : bytes :=
  match p with xH => [] | xO q => 0 :: pos_bits q | xI q => 1 :: pos_bits q end.

Fixpoint bits_pos (b : bytes) : positive :=
  match b with [] => xH | x :: b' => if x =? 0 then xO (bits_pos b') else xI (bits_pos b') end.

Lemma bits_pos_bits p : bits_pos (pos_bits p) = p.
Proof. induction p as [p IH|p IH|]; cbn; by rewrite ?IH. Qed.

Lemma pos_bits_byte p : Forall is_byte (pos_bits p).
Proof. induction p; cbn; repeat constructor; try done; unfold is_byte; lia. Qed.

Definition claims_tuple (c : Claims) :=
  let s := Std c in
  (Issuer s, Subject s, Audience s, ExpiresAt s, NotBefore s, IssuedAt s, c_ID s, Roles c, Scopes c, TenantID c, Email c).

Definition tuple_claims (t : string * string * string * Z * Z * Z * string * list string * list string * string * string) : Claims :=
  let '(a, b, c, d, e, f, g, h, i, j, k) := t in mkClaims (mkStd a b c d e f g) h i j k [].

#[export] Instance toy_token_codec : TokenCodec := {
  marshal_header h := pos_bits (encode (Alg h, Typ h));
  unmarshal_header b := (fun p => mkHeader p.1 p.2) <$> decode (bits_pos b);
  marshal_claims c := Ok (1 :: pos_bits (encode (claims_tuple c)));
  unmarshal_claims b := tuple_claims <$> decode (bits_pos (tail b))
}.

#[export] Instance toy_header_laws : HeaderLaws.
Proof.
  split.
  - intros alg _. cbn. by rewrite bits_pos_bits, decode_encode.
  - intros h. apply pos_bits_byte.
Qed.

Lemma toy_json_safe c : Extra c = [] -> json_safe c.
Proof.
  intros He. eexists. split; [reflexivity|]. split; [|split; [|done]].
  - cbn. rewrite bits_pos_bits, decode_encode. cbn. destruct c as [[]]. cbn in He |- *. by rewrite He.
  - constructor; [unfold is_byte; lia|apply pos_bits_byte].
Qed.

Definition toy_hmac (k d : bytes) : bytes := toy_hash (k ++ d).

#[export] Instance toy_byte_laws : ByteLaws toy_hmac toy_hmac.
Proof.
  split; intros; try apply toy_hash_byte. cbn. unfold toy_seal. apply Forall_app. split; [done|].
  apply Forall_replicate, checksum_range.
Qed.

End ToyTokens.

Section TokenWitnesses.
Import ToyCrypto ToyTokens.

Definition toy_config : Config :=
  mkConfig HS256 (replicate 32 7) None "drive" "" (900 * second) (7 * 24 * 3600 * second) (60 * second).

Definition toy_engine : Engine := mkEngine HS256 (fun _ => hmac_Sign toy_hmac toy_hmac HS256 (replicate 32 7)) (hmac_Verify toy_hmac toy_hmac HS256 (replicate 32 7)).

Definition toy_tokens : Manager := mkManager toy_config toy_engine ∅.

Lemma toy_tokens_new : NewManager toy_hmac toy_hmac toy_config = Ok toy_tokens.
Proof. reflexivity. Qed.

Definition toy_draws (n : Z) : draws :=
  mkDraws (replicate 16 n) (Ok (replicate 12 n)) (Ok (replicate 32 n)) (Ok (replicate 32 (n + 1))).

Definition toy_user : option Claims := Some (mkClaims (mkStd "" "u1" "" 0 0 0 "") ["admin"] [] "" "" []).

Definition toy_now : Z := 1700000000 * second.

Definition toy_access : Claims * result string := CreateAccessToken toy_tokens toy_now (toy_draws 3) toy_user.

Definition toy_access_token : string := match snd toy_access with Ok s => s | Err _ => "" end.

Lemma toy_issued m' : same_manager toy_tokens m' ->
  issued toy_tokens m' toy_now (toy_draws 3) toy_user (fst toy_access) toy_access_token.
Proof.
  intros Hsame. constructor; try done.
  - by apply (hmac_engine_ok toy_hmac toy_hmac HS256 (replicate 32 7)).
  - by apply toy_json_safe.
  - eexists. split; [reflexivity|]. split; [done|]. apply Forall_replicate. unfold is_byte. lia.
Qed.

Lemma access_token_window_witness :
  (exists tok, manager_Verify toy_tokens (toy_now + 959 * second) toy_access_token = Ok tok /\ t_Claims tok = fst toy_access) /\
  forall tok, manager_Verify toy_tokens (toy_now + 961 * second) toy_access_token <> Ok tok.
Proof.
  assert (same_manager toy_tokens toy_tokens) as Hsame by done.
  split.
  - destruct (access_token_window toy_tokens toy_tokens toy_now (toy_draws 3) toy_user (fst toy_access) toy_access_token
      (toy_now + 959 * second) (toy_issued _ Hsame)) as [[_ Hok] _].
    destruct Hok as (tok & Hv & Hc & _); [|exists tok; exact (conj Hv Hc)]. split.
    + intros (_ & e & He & _). change (blacklist toy_tokens) with (∅ : gmap string Z) in He. rewrite lookup_empty in He. discriminate.
    + by vm_compute.
  - destruct (access_token_window toy_tokens toy_tokens toy_now (toy_draws 3) toy_user (fst toy_access) toy_access_token
      (toy_now + 961 * second) (toy_issued _ Hsame)) as [[Hbad _] Hall].
    intros tok Hv. destruct Hbad as [_ [_ Hle]].
    + exists tok. split; [exact Hv|]. split; [exact (Hall tok Hv)|]. split; reflexivity.
    + vm_compute in Hle. exact (Hle eq_refl).
Defined.

Lemma revoked_token_revives_witness :
  let m' := RevokeJTI (c_ID (Std (fst toy_access))) (ExpiresAt (Std (fst toy_access)) * second) toy_tokens in
  exists tok, manager_Verify m' (toy_now + 930 * second) toy_access_token = Ok tok /\ t_Claims tok = fst toy_access.
Proof.
  intros m'.
  apply (revoked_token_revives toy_tokens toy_now (toy_draws 3) toy_user (fst toy_access) toy_access_token (toy_now + 930 * second)).
  - by apply toy_issued.
  - by vm_compute.
  - by vm_compute.
  - by vm_compute.
Defined.

(** A login, and the store after it. *)
Definition toy_login : refresh_store := serves toy_tokens NewMemoryRefreshTokenStore [Login toy_now (toy_draws 3) toy_user].

Definition plain_of (n : Z) : string := RawURLEncode (replicate 32 n).

Definition rotated_with (n : Z) : refresh_store * result TokenPair :=
  RefreshTokens toy_tokens toy_now (toy_draws n) (plain_of 3) toy_user toy_login.

Definition succeeded {A B} (x : A * result B) : bool := match snd x with Ok _ => true | Err _ => false end.

Lemma succeeded_Ok {A B} (x : A * result B) : succeeded x = true -> exists a b, x = (a, Ok b).
Proof. destruct x as [a [b|]]; [eauto|done]. Qed.

Lemma refresh_tokens_rotate_witness :
  exists s1 pair, rotated_with 5 = (s1, Ok pair) /\
    snd (RefreshTokens toy_tokens toy_now (toy_draws 9) (plain_of 3) None
           (serves toy_tokens s1 [Rotate toy_now (toy_draws 7) (plain_of 5) None])) = Err ErrRefreshTokenReused.
Proof.
  destruct (succeeded_Ok (rotated_with 5)) as (s1 & pair & Hr); [vm_compute; reflexivity|]. exists s1, pair. split; [exact Hr|].
  destruct (refresh_tokens_rotate toy_tokens toy_login toy_now (toy_draws 5) (plain_of 3) toy_user s1 pair)
    as (rt & Hl & _ & _ & Hall).
  - by eexists.
  - exact Hr.
  - intros p [= <-]. by vm_compute.
  - specialize (Hall [Rotate toy_now (toy_draws 7) (plain_of 5) None]). cbv zeta in Hall.
    assert (Forall (avoids (HashToken (plain_of 3)) (FamilyID rt)) [Rotate toy_now (toy_draws 7) (plain_of 5) None]) as Hav.
    { constructor; [|constructor]. split; [|done]. intros p [= <-]. by vm_compute. }
    specialize (Hall Hav toy_now (toy_draws 9) None). destruct (RefreshTokens toy_tokens toy_now (toy_draws 9) _ _ _) as [s3 answer].
    destruct Hall as (_ & _ & Hre & _). apply Hre.
    + assert (s1 = fst (rotated_with 5)) as -> by by rewrite Hr. by vm_compute.
    + assert (rs_tokens toy_login !! HashToken (plain_of 3) = Some (mkRT (HashToken (plain_of 3)) (plain_of 4) "u1" false (toy_now + 604800 * second))) as He
        by (vm_compute; reflexivity).
      rewrite He in Hl. injection Hl as <-. by vm_compute.
Defined.

Lemma concurrent_refresh_forks_family_witness :
  exists s1 pair1 s2 pair2 rt,
    refresh_commit toy_tokens toy_now (toy_draws 5) None rt toy_login = (s1, Ok pair1) /\
    refresh_commit toy_tokens toy_now (toy_draws 7) None rt s1 = (s2, Ok pair2) /\
    refresh_check toy_now (plain_of 3) toy_login = (toy_login, Ok rt).
Proof.
  set (rt := mkRT (HashToken (plain_of 3)) (plain_of 4) "u1" false (toy_now + 604800 * second)).
  destruct (succeeded_Ok (refresh_commit toy_tokens toy_now (toy_draws 5) None rt toy_login)) as (s1 & pair1 & H1);
    [vm_compute; reflexivity|].
  assert (s1 = fst (refresh_commit toy_tokens toy_now (toy_draws 5) None rt toy_login)) as Hs1 by (rewrite H1; reflexivity).
  destruct (succeeded_Ok (refresh_commit toy_tokens toy_now (toy_draws 7) None rt s1)) as (s2 & pair2 & H2);
    [rewrite Hs1; vm_compute; reflexivity|].
  exists s1, pair1, s2, pair2, rt. split; [exact H1|]. split; [exact H2|].
  apply (concurrent_refresh_forks_family toy_tokens toy_login toy_now toy_now (toy_draws 5) (toy_draws 7) (plain_of 3) None None rt
    s1 pair1 s2 pair2).
  - eexists. reflexivity.
  - vm_compute. reflexivity.
  - reflexivity.
  - vm_compute. discriminate.
  - vm_compute. discriminate.
  - exact H1.
  - exact H2.
  - rewrite (new_token_of _ _ _ _ _ _ _ _ _ H1 eq_refl). vm_compute. discriminate.
  - rewrite (new_token_of _ _ _ _ _ _ _ _ _ H1 eq_refl), (new_token_of _ _ _ _ _ _ _ _ _ H2 eq_refl). vm_compute. discriminate.
Defined.

End TokenWitnesses.
