(* ===== verification/WebSession.v ===== *)
(** * Web sessions (security/session)

    The session and its operations (session.go), the interface of stores with
    the three that implement it, in memory (memory_store.go), in the cookie
    itself (cookie_store.go) and in Redis (redis_store.go), and the middleware
    that loads a session before a handler and commits it when the response
    begins (middleware.go).  Times and durations are in nanoseconds; random
    bytes, encoding/json on sessions and the Redis client are arguments. *)

From S2P Require Import Prelude GoStrings GoData CryptoPrims NetGuard Tokens.

#[local] Open Scope go_scope.
#[local] Open Scope string_scope.
#[local] Open Scope list_scope.
#[local] Open Scope Z_scope.

(** ** Sessions *)

Record WebSession := mkWS {
  ws_ID : string;
  Values : gmap string any;
  CreatedAt : Z;
  AccessedAt : Z;
  ws_ExpiresAt : Z;
  FlashesMap : gmap string (list any);
  oldID : string;
  isNew : bool;
  isModified : bool;
  isDestroyed : bool
}.

Definition GenerateSessionID (rand : result bytes) : result string := GenerateRandomToken rand.

(** A failure of the generator is dropped: the identifier is then empty. *)
Definition NewSession (now idleTimeout : Z) (rand : result bytes) : WebSession :=
  mkWS (match GenerateSessionID rand with Ok id => id | Err _ => "" end) ∅ now now (now + idleTimeout) ∅ "" true false false.

Definition RegenerateID (rand : result bytes) (s : WebSession) : WebSession :=
  match GenerateSessionID rand with
  | Err _ => s
  | Ok newID =>
      mkWS newID (Values s) (CreatedAt s) (AccessedAt s) (ws_ExpiresAt s) (FlashesMap s)
        (if String.eqb (oldID s) "" then ws_ID s else oldID s) true true (isDestroyed s)
  end.

Definition set_data (v : gmap string any) (f : gmap string (list any)) (s : WebSession) : WebSession :=
  mkWS (ws_ID s) v (CreatedAt s) (AccessedAt s) (ws_ExpiresAt s) f (oldID s) (isNew s) true (isDestroyed s).

Definition ws_Get (key : string) (s : WebSession) : any := default ANil (Values s !! key).

Definition GetString (key : string) (s : WebSession) : string :=
  match ws_Get key s with AStr v => v | _ => "" end.

Definition GetInt (key : string) (s : WebSession) : Z :=
  match ws_Get key s with
  | AInt n | AInt64 n => n
  | AFloat m e => float_int m e
  | AStr v => ParseInt_value v
  | _ => 0
  end.

Definition GetBool (key : string) (s : WebSession) : bool :=
  match ws_Get key s with ABool b => b | _ => false end.

Definition ws_Set (key : string) (val : any) (s : WebSession) : WebSession :=
  set_data (<[key := val]> (Values s)) (FlashesMap s) s.

Definition ws_Delete (key : string) (s : WebSession) : WebSession :=
  match Values s !! key with Some _ => set_data (delete key (Values s)) (FlashesMap s) s | None => s end.

Definition ws_Clear (s : WebSession) : WebSession := set_data ∅ (FlashesMap s) s.

Definition ws_Destroy (s : WebSession) : WebSession :=
  mkWS (ws_ID s) (Values s) (CreatedAt s) (AccessedAt s) (ws_ExpiresAt s) (FlashesMap s) (oldID s) (isNew s) true true.

Definition Flash (key : string) (val : any) (s : WebSession) : WebSession :=
  set_data (Values s) (<[key := default [] (FlashesMap s !! key) ++ [val]]> (FlashesMap s)) s.

(** The messages, which are taken out. *)
Definition Flashes (key : string) (s : WebSession) : WebSession * list any :=
  match FlashesMap s !! key with
  | Some l => (set_data (Values s) (delete key (FlashesMap s)) s, l)
  | None => (s, [])
  end.

Definition ws_Touch (now idleTimeout : Z) (s : WebSession) : WebSession :=
  mkWS (ws_ID s) (Values s) (CreatedAt s) now (now + idleTimeout) (FlashesMap s) (oldID s) (isNew s) (isModified s) (isDestroyed s).

(** What a handler does with its session. *)
Inductive session_op :=
| OpSet (key : string) (val : any)
| OpDelete (key : string)
| OpClear
| OpDestroy
| OpRegenerate (rand : result bytes)
| OpFlash (key : string) (val : any)
| OpFlashes (key : string).

Definition apply_op (s : WebSession) (o : session_op) : WebSession :=
  match o with
  | OpSet k v => ws_Set k v s
  | OpDelete k => ws_Delete k s
  | OpClear => ws_Clear s
  | OpDestroy => ws_Destroy s
  | OpRegenerate rand => RegenerateID rand s
  | OpFlash k v => Flash k v s
  | OpFlashes k => fst (Flashes k s)
  end.

Definition apply_ops : WebSession -> list session_op -> WebSession := foldl apply_op.

(** ** Stores *)

Definition ErrSessionNotFound : gerror := ErrMsg "ztatic/session: session not found".
Definition ErrSessionExpired : gerror := ErrMsg "ztatic/session: session has expired".

(** The interface Store, over the state of an implementation.  Saving may
    change the identifier of the session it is given. *)
Record Store (S : Type) := mkStore {
  st_Get : Z -> string -> S -> S * result WebSession;
  st_Save : Z -> result bytes -> WebSession -> Z -> S -> S * WebSession * option gerror;
  st_Destroy : string -> S -> S;
  st_Touch : Z -> string -> Z -> S -> S * option gerror
}.
Arguments mkStore {S}.
Arguments st_Get {S}.
Arguments st_Save {S}.
Arguments st_Destroy {S}.
Arguments st_Touch {S}.

(** A copy without the marks of a request. *)
Definition plain_copy (s : WebSession) : WebSession :=
  mkWS (ws_ID s) (Values s) (CreatedAt s) (AccessedAt s) (ws_ExpiresAt s) (FlashesMap s) "" false false false.

Definition set_expiry (e : Z) (s : WebSession) : WebSession :=
  mkWS (ws_ID s) (Values s) (CreatedAt s) (AccessedAt s) e (FlashesMap s) (oldID s) (isNew s) (isModified s) (isDestroyed s).

(** *** In memory *)

Definition memory_Get (now : Z) (id : string) (m : gmap string WebSession) : gmap string WebSession * result WebSession :=
  match m !! id with
  | None => (m, Err ErrSessionNotFound)
  | Some s => if ws_ExpiresAt s <? now then (delete id m, Err ErrSessionExpired) else (m, Ok (plain_copy s))
  end.

Definition memory_Touch (now : Z) (id : string) (ttl : Z) (m : gmap string WebSession)
  : gmap string WebSession * option gerror :=
  match m !! id with
  | Some s => (<[id := set_expiry (now + ttl) s]> m, None)
  | None => (m, Some ErrSessionNotFound)
  end.

Definition MemoryStore : Store (gmap string WebSession) := {|
  st_Get := memory_Get;
  st_Save now _ s ttl m := (<[ws_ID s := set_expiry (now + ttl) (plain_copy s)]> m, s, None);
  st_Destroy id m := delete id m;
  st_Touch := memory_Touch
|}.

(** A round of the sweeper. *)
Definition sweep (now : Z) (m : gmap string WebSession) : gmap string WebSession :=
  filter (fun kv => now <= ws_ExpiresAt kv.2) m.

(** encoding/json on the exported fields of a session. *)
Class SessionCodec := {
  marshal_session : WebSession -> result bytes;
  unmarshal_session : bytes -> option WebSession
}.

Section Stores.
Context `{CryptoPrims} `{SessionCodec}.

(** *** In the cookie *)

Definition cookie_Get (key : bytes) (now : Z) (value : string) : result WebSession :=
  if String.eqb value "" then Err ErrSessionNotFound
  else
    match Decrypt key value with
    | Err _ => Err ErrSessionNotFound
    | Ok plaintext =>
        match unmarshal_session plaintext with
        | None => Err (ErrMsg "json")
        | Some s => if ws_ExpiresAt s <? now then Err ErrSessionExpired else Ok s
        end
    end.

Definition cookie_Save (key : bytes) (now : Z) (rand : result bytes) (s0 : WebSession) (ttl : Z)
  : WebSession * option gerror :=
  let s := set_expiry (now + ttl) s0 in
  match (let? data := marshal_session s in Encrypt key rand data) with
  | Err er => (s, Some er)
  | Ok ciphertext =>
      (mkWS ciphertext (Values s) (CreatedAt s) (AccessedAt s) (ws_ExpiresAt s) (FlashesMap s) (oldID s) (isNew s)
         (isModified s) (isDestroyed s), None)
  end.

Definition CookieStore (key : bytes) : Store unit := {|
  st_Get now v u := (u, cookie_Get key now v);
  st_Save now rand s ttl u := let '(s', er) := cookie_Save key now rand s ttl in (u, s', er);
  st_Destroy _ u := u;
  st_Touch _ _ _ u := (u, None)
|}.

(** *** In Redis *)

(** The client: [Ok None] is a missing key. *)
Record RedisClient (S : Type) := mkRedis {
  redis_Get : string -> S -> result (option bytes);
  redis_Set : string -> bytes -> Z -> S -> S * option gerror;
  redis_Del : string -> S -> S;
  redis_Expire : string -> Z -> S -> S * result bool
}.
Arguments redis_Get {S}.
Arguments redis_Set {S}.
Arguments redis_Del {S}.
Arguments redis_Expire {S}.

Definition formatKey (keyPrefix : string) (hashKey : bool) (id : string) : string :=
  keyPrefix +:+ (if hashKey then HashToken id else id).

Definition redis_session {S} (c : RedisClient S) (keyOf : string -> string) (now : Z) (id : string) (db : S)
  : S * result WebSession :=
  match redis_Get c (keyOf id) db with
  | Err er => (db, Err er)
  | Ok None => (db, Err ErrSessionNotFound)
  | Ok (Some data) =>
      match unmarshal_session data with
      | None => (db, Err (ErrMsg "json"))
      | Some s => if ws_ExpiresAt s <? now then (redis_Del c (keyOf id) db, Err ErrSessionExpired) else (db, Ok s)
      end
  end.

Definition redis_Save {S} (c : RedisClient S) (keyOf : string -> string) (now : Z) (s0 : WebSession) (ttl : Z) (db : S)
  : S * WebSession * option gerror :=
  let s := set_expiry (now + ttl) s0 in
  match marshal_session s with
  | Err er => (db, s, Some er)
  | Ok data => let '(db', er) := redis_Set c (keyOf (ws_ID s)) data ttl db in (db', s, er)
  end.

Definition redis_Touch {S} (c : RedisClient S) (keyOf : string -> string) (id : string) (ttl : Z) (db : S)
  : S * option gerror :=
  match redis_Expire c (keyOf id) ttl db with
  | (db', Err er) => (db', Some er)
  | (db', Ok b) => (db', if b : bool then None else Some ErrSessionNotFound)
  end.

Definition RedisStore {S} (c : RedisClient S) (keyPrefix : string) (hashKey : bool) : Store S :=
  let keyOf := formatKey (if String.eqb keyPrefix "" then "ztatic:session:" else keyPrefix) hashKey in {|
  st_Get := redis_session c keyOf;
  st_Save now _ := redis_Save c keyOf now;
  st_Destroy id := redis_Del c (keyOf id);
  st_Touch _ id := redis_Touch c keyOf id
|}.

End Stores.

(** ** The middleware *)

Record SessionConfig := mkSC {
  CookieName : string;
  CookiePath : string;
  CookieDomain : string;
  CookieSecure : bool;
  CookieHTTPOnly : bool;
  (** net/http's numbers: 0 is unset, 2 is Lax *)
  CookieSameSite : Z;
  IdleTimeout : Z;
  AbsoluteTimeout : Z
}.

Definition minute : Z := 60 * second.

Definition session_defaults (c : SessionConfig) : SessionConfig :=
  mkSC (if String.eqb (CookieName c) "" then "ztatic_session" else CookieName c)
    (if String.eqb (CookiePath c) "" then "/" else CookiePath c) (CookieDomain c) (CookieSecure c) (CookieHTTPOnly c)
    (if CookieSameSite c =? 0 then 2 else CookieSameSite c) (or_default (30 * minute) (IdleTimeout c))
    (or_default (8 * 60 * minute) (AbsoluteTimeout c)).

Record Cookie := mkCookie {
  ck_Name : string; ck_Value : string; ck_Path : string; ck_Domain : string; ck_MaxAge : Z;
  ck_HttpOnly : bool; ck_Secure : bool; ck_SameSite : Z
}.

Definition session_cookie (c : SessionConfig) (value : string) (maxAge : Z) : Cookie :=
  mkCookie (CookieName c) value (CookiePath c) (CookieDomain c) maxAge (CookieHTTPOnly c) (CookieSecure c) (CookieSameSite c).

Section Middleware.
Context {S : Type} (store : Store S) (cfg : SessionConfig).

(** The session of a request, from the value of its cookie. *)
Definition load_session (now : Z) (cookie : option string) (rand : result bytes) (st : S) : S * WebSession :=
  let fresh := NewSession now (IdleTimeout cfg) rand in
  match cookie with
  | Some v =>
      if String.eqb v "" then (st, fresh)
      else
        match st_Get store now v st with
        | (st, Ok loaded) =>
            if (0 <? AbsoluteTimeout cfg) && (AbsoluteTimeout cfg <? now - CreatedAt loaded)
            then (st_Destroy store (ws_ID loaded) st, fresh)
            else (st, ws_Touch now (IdleTimeout cfg) loaded)
        | (st, Err _) => (st, fresh)
        end
  | None => (st, fresh)
  end.

(** commitSession: the store after it, and the cookie set, if one is. *)
Definition commitSession (now : Z) (rand : result bytes) (sess : WebSession) (st : S) : S * option Cookie :=
  if isDestroyed sess then (st_Destroy store (ws_ID sess) st, Some (session_cookie cfg "" (-1)))
  else
    let st := if negb (String.eqb (oldID sess) "") && negb (String.eqb (oldID sess) (ws_ID sess))
              then st_Destroy store (oldID sess) st else st in
    if isModified sess || isNew sess then
      let '(st, saved, _) := st_Save store now rand sess (IdleTimeout cfg) st in
      (st, Some (session_cookie cfg (ws_ID saved) (whole_seconds (IdleTimeout cfg))))
    else (fst (st_Touch store now (ws_ID sess) (IdleTimeout cfg) st), None).

(** A request: its cookie, the random bytes for a new session and for the
    store, when it begins and when its response does, and what the handler
    does before the response begins.  What it does to the session after that
    is not stored. *)
Record web_request := mkWReq {
  wr_start : Z;
  wr_commit : Z;
  wr_cookie : option string;
  wr_rand : result bytes;
  wr_store_rand : result bytes;
  wr_ops : list session_op
}.

Definition serve_request (r : web_request) (st : S) : S * WebSession * option Cookie :=
  let '(st, sess) := load_session (wr_start r) (wr_cookie r) (wr_rand r) st in
  let '(st, set) := commitSession (wr_commit r) (wr_store_rand r) (apply_ops sess (wr_ops r)) st in
  (st, sess, set).

Definition serve_requests : S -> list web_request -> S := foldl (fun st r => fst (fst (serve_request r st))).

End Middleware.
