(* ===== verification/WebSessionProps.v ===== *)
(** * Properties of web sessions

    A session carries its values from request to request, whatever others
    do; a session in the memory store that was left, by logging out or by
    regenerating its identifier, cannot be entered again, unless one request
    does both; no session lives longer than the absolute limit.  The
    stateless store breaks the second too. *)

From S2P Require Import Prelude GoStrings GoData CryptoPrims NetGuard Tokens TokensProps WebSession.

#[local] Open Scope string_scope.
#[local] Open Scope list_scope.
#[local] Open Scope Z_scope.

(** ** Operations on one session *)

Definition drawn_id (rand : result bytes) (id : string) : Prop := GenerateSessionID rand = Ok id.

Definition op_draws (o : session_op) (id : string) : Prop :=
  match o with OpRegenerate rand => drawn_id rand id | _ => False end.

(** A regeneration that works. *)
Definition regenerates (o : session_op) : bool :=
  match o with OpRegenerate rand => match GenerateSessionID rand with Ok _ => true | Err _ => false end | _ => false end.

Definition destroys (o : session_op) : bool := match o with OpDestroy => true | _ => false end.

Lemma apply_op_created s o : CreatedAt (apply_op s o) = CreatedAt s.
Proof.
  destruct o; cbn; try done.
  - unfold ws_Delete. by destruct (Values s !! key).
  - unfold RegenerateID. by destruct (GenerateSessionID rand).
  - unfold Flashes. by destruct (FlashesMap s !! key).
Qed.

Lemma apply_op_destroyed s o : isDestroyed (apply_op s o) = isDestroyed s || destroys o.
Proof.
  destruct o; cbn; rewrite ?orb_false_r, ?orb_true_r; try done.
  - unfold ws_Delete. by destruct (Values s !! key).
  - unfold RegenerateID. by destruct (GenerateSessionID rand).
  - unfold Flashes. by destruct (FlashesMap s !! key).
Qed.

(** An operation keeps the identifier, or notes it and draws another. *)
Lemma apply_op_id s o :
  (regenerates o = false /\ ws_ID (apply_op s o) = ws_ID s /\ oldID (apply_op s o) = oldID s /\ isNew (apply_op s o) = isNew s) \/
  (regenerates o = true /\ op_draws o (ws_ID (apply_op s o)) /\ isNew (apply_op s o) = true /\
   oldID (apply_op s o) = if String.eqb (oldID s) "" then ws_ID s else oldID s).
Proof.
  destruct o; cbn; try (by left).
  - left. unfold ws_Delete. by destruct (Values s !! key).
  - unfold RegenerateID, drawn_id. destruct (GenerateSessionID rand); [by right|by left].
  - left. unfold Flashes. by destruct (FlashesMap s !! key).
Qed.

Lemma apply_ops_created ops : forall s, CreatedAt (apply_ops s ops) = CreatedAt s.
Proof. induction ops as [|o ops IH]; intros s; [done|]. cbn. fold apply_ops. rewrite IH. apply apply_op_created. Qed.

Lemma apply_ops_destroyed ops : forall s, isDestroyed (apply_ops s ops) = isDestroyed s || existsb destroys ops.
Proof.
  induction ops as [|o ops IH]; intros s; cbn; [by rewrite orb_false_r|]. fold apply_ops.
  by rewrite IH, apply_op_destroyed, orb_assoc.
Qed.

(** Over all operations: the identifier a handler started with, or noted and another drawn. *)
Lemma apply_ops_id ops : forall s, oldID s = "" -> ws_ID s <> "" ->
  let s' := apply_ops s ops in
  (existsb regenerates ops = false /\ ws_ID s' = ws_ID s /\ oldID s' = "" /\ isNew s' = isNew s) \/
  (existsb regenerates ops = true /\ Exists (fun o => op_draws o (ws_ID s')) ops /\ oldID s' = ws_ID s /\ isNew s' = true).
Proof.
  assert (forall ops s, oldID s <> "" -> isNew s = true ->
    let s' := apply_ops s ops in oldID s' = oldID s /\ isNew s' = true /\
      (ws_ID s' = ws_ID s \/ Exists (fun o => op_draws o (ws_ID s')) ops)) as Hkeep.
  { clear ops. intros ops. induction ops as [|o ops IH]; intros s Ho Hn; [by auto|]. cbn. fold apply_ops.
    destruct (apply_op_id s o) as [(_ & Hid & Hold & Hnew)|(_ & Hid & Hnew & Hold)].
    - destruct (IH (apply_op s o)) as (H1 & H2 & H3); [by rewrite Hold|by rewrite Hnew|]. rewrite H1, Hold.
      do 2 (split; [done|]). destruct H3 as [H3|H3]; [left; by rewrite H3|right; by right].
    - destruct (String.eqb_spec (oldID s) "") as [|_]; [done|].
      destruct (IH (apply_op s o)) as (H1 & H2 & H3); [by rewrite Hold|done|]. rewrite H1, Hold.
      do 2 (split; [done|]). right. destruct H3 as [H3|H3]; [left; by rewrite H3|by right]. }
  induction ops as [|o ops IH]; intros s Ho Hne; [by left|]. cbn. fold apply_ops.
  destruct (apply_op_id s o) as [(Hr & Hid & Hold & Hnew)|(Hr & Hid & Hnew & Hold)]; rewrite Hr; cbn [orb].
  - destruct (IH (apply_op s o)) as [(H1 & H2 & H3 & H4)|(H1 & H2 & H3 & H4)]; [by rewrite Hold|by rewrite Hid| |].
    + left. rewrite H1, H2, H3, H4, Hid, Hnew. by split_and!.
    + right. rewrite H1, H3, H4, Hid. split_and!; try done. by right.
  - right. rewrite Ho in Hold. cbn in Hold. destruct (Hkeep ops (apply_op s o)) as (H1 & H2 & H3); [by rewrite Hold|done|].
    rewrite H1, H2, Hold. split_and!; try done. destruct H3 as [H3|H3]; [left; by rewrite H3|by right].
Qed.

(** ** The store in memory *)

Abbreviation sessions := (gmap string WebSession).

Definition ms_ok (m : sessions) : Prop := forall id s, m !! id = Some s -> ws_ID s = id /\ plain_copy s = s /\ id <> "".

Section MemoryFacts.
Context (cfg : SessionConfig).

Abbreviation entered := (load_session MemoryStore cfg).
Abbreviation serve := (serve_request MemoryStore cfg).
Abbreviation serves := (serve_requests MemoryStore cfg).

(** The stored session a cookie leads to. *)
Definition live (now : Z) (s : WebSession) : Prop := now <= ws_ExpiresAt s /\ now - CreatedAt s <= AbsoluteTimeout cfg.

(** The identifiers a request may draw; the generator does not fail. *)
Definition draws_id (r : web_request) (id : string) : Prop := drawn_id (wr_rand r) id \/ Exists (fun o => op_draws o id) (wr_ops r).

Definition draws_well (r : web_request) : Prop :=
  (exists id, drawn_id (wr_rand r) id) /\ forall id, draws_id r id -> id <> "".

(** The two ways a request gets its session. *)
Lemma load_cases now cookie rand m : ms_ok m -> 0 < AbsoluteTimeout cfg ->
  let '(m', sess) := entered now cookie rand m in
  (exists v s, cookie = Some v /\ m !! v = Some s /\ live now s /\ m' = m /\ sess = ws_Touch now (IdleTimeout cfg) s) \/
  ((m' = m \/ exists v, cookie = Some v /\ m' = delete v m) /\ sess = NewSession now (IdleTimeout cfg) rand /\
   forall v s, cookie = Some v -> m !! v = Some s -> ~ live now s).
Proof.
  intros Hok Habs. unfold load_session. destruct cookie as [v|]; [|right; split_and!; auto; congruence].
  destruct (String.eqb_spec v "") as [->|Hv].
  { right. split_and!; auto. intros v s [= <-] Hl. by destruct (Hok _ _ Hl) as (_ & _ & []). }
  cbn [st_Get MemoryStore]. unfold memory_Get. destruct (m !! v) as [s|] eqn:Hl.
  2:{ right. split_and!; auto. intros v' s [= <-] Hl'. congruence. }
  destruct (Hok _ _ Hl) as (Hid & Hcopy & _). destruct (Z.ltb_spec (ws_ExpiresAt s) now) as [He|He].
  { right. split_and!; [right; eauto|done|]. intros v' s' [= <-] Hl' [Hlive _]. rewrite Hl in Hl'. injection Hl' as <-. lia. }
  rewrite Hcopy. destruct (Z.ltb_spec 0 (AbsoluteTimeout cfg)); [|lia]. cbn [andb].
  destruct (Z.ltb_spec (AbsoluteTimeout cfg) (now - CreatedAt s)) as [Ha|Ha].
  - right. cbn [st_Destroy MemoryStore]. rewrite Hid. split_and!; [right; eauto|done|].
    intros v' s' [= <-] Hl' [_ Hlive]. rewrite Hl in Hl'. injection Hl' as <-. lia.
  - left. exists v, s. by split_and!.
Qed.

(** A session at the beginning of its request. *)
Definition starting (s : WebSession) : Prop := oldID s = "" /\ ws_ID s <> "" /\ isDestroyed s = false.

Definition saved_as (now : Z) (s : WebSession) : WebSession := set_expiry (now + IdleTimeout cfg) (plain_copy s).

(** What a commit does to the store, on every branch. *)
Lemma commit_cases now rand s m : 
  let '(m', set) := commitSession MemoryStore cfg now rand s m in
  let m1 := if negb (String.eqb (oldID s) "") && negb (String.eqb (oldID s) (ws_ID s)) then delete (oldID s) m else m in
  (isDestroyed s = true -> m' = delete (ws_ID s) m /\ set = Some (session_cookie cfg "" (-1))) /\
  (isDestroyed s = false -> isModified s || isNew s = true ->
   m' = <[ws_ID s := saved_as now s]> m1 /\ set = Some (session_cookie cfg (ws_ID s) (whole_seconds (IdleTimeout cfg)))) /\
  (isDestroyed s = false -> isModified s || isNew s = false ->
   m' = fst (memory_Touch now (ws_ID s) (IdleTimeout cfg) m1) /\ set = None).
Proof.
  unfold commitSession. destruct (isDestroyed s); [by split_and!|]. cbn [st_Destroy st_Save st_Touch MemoryStore].
  destruct (isModified s || isNew s); by split_and!.
Qed.

(** Only the session's own entry and drawn ones change. *)
Lemma commit_frame now rand s ops m id : starting s -> id <> ws_ID s -> ~ Exists (fun o => op_draws o id) ops ->
  fst (commitSession MemoryStore cfg now rand (apply_ops s ops) m) !! id = m !! id.
Proof.
  intros (Hold & Hne & _) Hid Hnot.
  pose proof (commit_cases now rand (apply_ops s ops) m) as Hc.
  destruct (commitSession _ _ _ _ _ _) as [m' set]. cbn [fst].
  set (s' := apply_ops s ops) in *.
  assert (id <> ws_ID s' /\ (oldID s' = "" \/ oldID s' = ws_ID s)) as [Hid' Hold'].
  { destruct (apply_ops_id ops s Hold Hne) as [(_ & H1 & H2 & _)|(_ & H1 & H2 & _)]; fold s' in H1, H2.
    - rewrite H1. auto.
    - split; [|by right]. by intros ->. }
  set (m1 := if _ && _ then _ else _) in Hc.
  assert (m1 !! id = m !! id) as Hm1.
  { unfold m1. destruct Hold' as [->| ->]; [done|]. case_match; [|done]. by rewrite lookup_delete_ne. }
  destruct Hc as (Hd & Hs & Ht). destruct (isDestroyed s'); [|destruct (isModified s' || isNew s')].
  - destruct (Hd eq_refl) as [-> _]. by rewrite lookup_delete_ne.
  - destruct (Hs eq_refl eq_refl) as [-> _]. by rewrite lookup_insert_ne.
  - destruct (Ht eq_refl eq_refl) as [-> _]. unfold memory_Touch.
    destruct (m1 !! ws_ID s'); cbn [fst]; [by rewrite lookup_insert_ne|done].
Qed.

Lemma ms_ok_delete id m : ms_ok m -> ms_ok (delete id m).
Proof. intros Hok id' s Hl. apply lookup_delete_Some in Hl as [_ Hl]. by apply Hok. Qed.

Lemma ms_ok_commit now rand s ops m : starting s -> ms_ok m -> (forall id, Exists (fun o => op_draws o id) ops -> id <> "") ->
  ms_ok (fst (commitSession MemoryStore cfg now rand (apply_ops s ops) m)).
Proof.
  intros (Hold & Hne & _) Hok Hdraw.
  pose proof (commit_cases now rand (apply_ops s ops) m) as Hc.
  destruct (commitSession _ _ _ _ _ _) as [m' set]. cbn [fst]. set (s' := apply_ops s ops) in *.
  assert (ws_ID s' <> "") as Hne'.
  { destruct (apply_ops_id ops s Hold Hne) as [(_ & H1 & _)|(_ & H1 & _)]; fold s' in H1; [by rewrite H1|by apply Hdraw]. }
  set (m1 := if _ && _ then _ else _) in Hc.
  assert (ms_ok m1) as Hok1 by (unfold m1; case_match; [by apply ms_ok_delete|done]).
  destruct Hc as (Hd & Hs & Ht). destruct (isDestroyed s'); [|destruct (isModified s' || isNew s')].
  - destruct (Hd eq_refl) as [-> _]. by apply ms_ok_delete.
  - destruct (Hs eq_refl eq_refl) as [-> _]. intros id x Hl. apply lookup_insert_Some in Hl as [[<- <-]|[_ Hl]]; [done|by apply Hok1].
  - destruct (Ht eq_refl eq_refl) as [-> _]. unfold memory_Touch. destruct (m1 !! ws_ID s') as [x|] eqn:Hx; [|done]. cbn [fst].
    destruct (Hok1 _ _ Hx) as (Hi & Hp & Hn). intros id y Hl. apply lookup_insert_Some in Hl as [[<- <-]|[_ Hl]]; [|by apply Hok1].
    split_and!; [done| |done]. destruct x. unfold plain_copy in *. cbn in *. by injection Hp as <- <- <- <-.
Qed.

(** ** Requests *)

Lemma new_starting now rand : (exists id, drawn_id rand id /\ id <> "") -> starting (NewSession now (IdleTimeout cfg) rand).
Proof. intros (id & Hid & Hne). unfold starting, NewSession. unfold drawn_id in Hid. cbn. by rewrite Hid. Qed.

Lemma live_starting m now v s : ms_ok m -> m !! v = Some s -> starting (ws_Touch now (IdleTimeout cfg) s).
Proof.
  intros Hok Hl. destruct (Hok _ _ Hl) as (Hid & Hp & Hne). unfold starting. cbn. rewrite Hid.
  rewrite <- Hp. by cbn.
Qed.

Lemma load_starting now r m : ms_ok m -> 0 < AbsoluteTimeout cfg -> draws_well r ->
  let '(m', sess) := entered now (wr_cookie r) (wr_rand r) m in ms_ok m' /\ starting sess.
Proof.
  intros Hok Habs [[id Hid] Hw]. pose proof (load_cases now (wr_cookie r) (wr_rand r) m Hok Habs) as Hc.
  destruct (entered _ _ _ _) as [m' sess]. destruct Hc as [(v & s & _ & Hl & _ & -> & ->)|([->|(v & _ & ->)] & -> & _)].
  - split; [done|]. by eapply live_starting.
  - split; [done|]. apply new_starting. exists id. split; [done|]. apply Hw. by left.
  - split; [by apply ms_ok_delete|]. apply new_starting. exists id. split; [done|]. apply Hw. by left.
Qed.

Lemma serve_ok r m : ms_ok m -> 0 < AbsoluteTimeout cfg -> draws_well r -> ms_ok (fst (fst (serve r m))).
Proof.
  intros Hok Habs Hw. unfold serve_request. pose proof (load_starting (wr_start r) r m Hok Habs Hw) as Hl.
  destruct (entered _ _ _ _) as [m' sess]. destruct Hl as [Hok' Hst].
  pose proof (ms_ok_commit (wr_commit r) (wr_store_rand r) sess (wr_ops r) m' Hst Hok') as Hc.
  destruct (commitSession _ _ _ _ _ _) as [m2 set]. apply Hc. intros id Hid. apply Hw. by right.
Qed.

(** A request leaves the sessions it neither presents nor draws as they are,
    and those that are not there it does not bring back. *)
Lemma serve_frame r m id : ms_ok m -> 0 < AbsoluteTimeout cfg -> draws_well r -> ~ draws_id r id ->
  wr_cookie r <> Some id \/ m !! id = None -> fst (fst (serve r m)) !! id = m !! id.
Proof.
  intros Hok Habs Hw Hnot Hother. unfold serve_request.
  pose proof (load_cases (wr_start r) (wr_cookie r) (wr_rand r) m Hok Habs) as Hc.
  pose proof (load_starting (wr_start r) r m Hok Habs Hw) as Hst.
  destruct (entered _ _ _ _) as [m' sess]. destruct Hst as [_ Hst].
  assert (m' !! id = m !! id /\ id <> ws_ID sess) as [Hm Hid].
  { destruct Hc as [(v & s & Hv & Hl & _ & -> & ->)|(Hm & -> & _)].
    - split; [done|]. cbn. destruct (Hok _ _ Hl) as (-> & _ & _). intros ->. destruct Hother; congruence.
    - split; [|intros ->; apply Hnot; left; destruct Hw as [[i Hi] _]; unfold drawn_id in *; cbn; by rewrite Hi].
      destruct Hm as [->|(v & Hv & ->)]; [done|]. destruct (decide (v = id)) as [->|]; [|by rewrite lookup_delete_ne].
      rewrite lookup_delete_eq. destruct Hother; congruence. }
  pose proof (commit_frame (wr_commit r) (wr_store_rand r) sess (wr_ops r) m' id Hst Hid) as Hf.
  destruct (commitSession _ _ _ _ _ _) as [m2 set]. cbn [fst] in *. rewrite Hf, Hm; [done|].
  intros Hex. apply Hnot. by right.
Qed.

(** Requests that draw well, and not [id]. *)
Definition others (id : string) (rs : list web_request) : Prop := Forall (fun r => draws_well r /\ ~ draws_id r id) rs.

Lemma serves_ok rs : 0 < AbsoluteTimeout cfg -> Forall draws_well rs -> forall m, ms_ok m -> ms_ok (serves m rs).
Proof. intros Habs. induction 1 as [|r rs Hw _ IH]; intros m Hok; [done|]. by apply IH, serve_ok. Qed.

Lemma serves_gone rs id : 0 < AbsoluteTimeout cfg -> others id rs -> forall m, ms_ok m -> m !! id = None -> serves m rs !! id = None.
Proof.
  intros Habs. induction 1 as [|r rs [Hw Hnot] _ IH]; intros m Hok Hn; [done|]. apply IH; [by apply serve_ok|].
  rewrite serve_frame; auto.
Qed.

Lemma serves_frame rs id : 0 < AbsoluteTimeout cfg -> others id rs -> Forall (fun r => wr_cookie r <> Some id) rs ->
  forall m, ms_ok m -> serves m rs !! id = m !! id.
Proof.
  intros Habs Ho Hc. induction Ho as [|r rs [Hw Hnot] _ IH]; intros m Hok; [done|]. apply Forall_cons in Hc as [Hc Hcs].
  etrans; [apply IH; [done|by apply serve_ok]|]. apply serve_frame; auto.
Qed.

(** The stores requests lead to. *)
Definition reached (m : sessions) : Prop := exists rs, Forall draws_well rs /\ m = serves ∅ rs.

Lemma reached_ok m : 0 < AbsoluteTimeout cfg -> reached m -> ms_ok m.
Proof.
  intros Habs (rs & Hrs & ->). apply serves_ok; [done|done|]. intros id s Hl. by rewrite lookup_empty in Hl.
Qed.

Lemma load_live now v s rand m : ms_ok m -> 0 < AbsoluteTimeout cfg -> m !! v = Some s -> live now s ->
  entered now (Some v) rand m = (m, ws_Touch now (IdleTimeout cfg) s).
Proof.
  intros Hok Habs Hl Hlive. pose proof (load_cases now (Some v) rand m Hok Habs) as Hc.
  destruct (entered _ _ _ _) as [m' sess]. destruct Hc as [(v' & s' & [= <-] & Hl' & _ & -> & ->)|(_ & _ & Hn)].
  - rewrite Hl in Hl'. by injection Hl' as ->.
  - by destruct (Hn v s eq_refl Hl).
Qed.

Lemma load_gone now v rand m : ms_ok m -> 0 < AbsoluteTimeout cfg -> m !! v = None ->
  snd (entered now (Some v) rand m) = NewSession now (IdleTimeout cfg) rand.
Proof.
  intros Hok Habs Hl. pose proof (load_cases now (Some v) rand m Hok Habs) as Hc.
  destruct (entered _ _ _ _) as [m' sess]. destruct Hc as [(v' & s' & [= <-] & Hl' & _)|(_ & -> & _)]; [congruence|done].
Qed.

(** A request that ends its session or gives it another identifier, not both,
    takes the old one out of the store. *)
Lemma left_slot_empty m r v s :
  0 < AbsoluteTimeout cfg -> reached m -> draws_well r -> ~ draws_id r v ->
  wr_cookie r = Some v -> m !! v = Some s -> live (wr_start r) s ->
  xorb (existsb destroys (wr_ops r)) (existsb regenerates (wr_ops r)) = true ->
  fst (fst (serve r m)) !! v = None.
Proof.
  intros Habs Hre Hw Hnot Hck Hl Hlive Hleft. apply reached_ok in Hre as Hok; [|done].
  unfold serve_request. rewrite Hck, (load_live _ _ _ _ _ Hok Habs Hl Hlive).
  pose proof (live_starting m (wr_start r) v s Hok Hl) as (Hold & Hne & Hdes).
  set (sess := ws_Touch _ _ s) in *.
  pose proof (commit_cases (wr_commit r) (wr_store_rand r) (apply_ops sess (wr_ops r)) m) as Hc.
  destruct (commitSession _ _ _ _ _ _) as [m' set]. cbn [fst]. set (s' := apply_ops sess (wr_ops r)) in *.
  assert (ws_ID sess = v) as Hv by (cbn; by destruct (Hok _ _ Hl)).
  assert (isDestroyed s' = existsb destroys (wr_ops r)) as Hd by (unfold s'; by rewrite apply_ops_destroyed, Hdes).
  destruct (apply_ops_id (wr_ops r) sess Hold Hne) as [(Hr & Hi & _ & _)|(Hr & Hi & Ho & Hn)]; fold s' in Hi.
  - rewrite Hr in Hleft. destruct Hc as [Hc _]. destruct Hc as [-> _]; [rewrite Hd; by destruct (existsb destroys _)|].
    by rewrite Hi, Hv, lookup_delete_eq.
  - rewrite Hr in Hleft. fold s' in Ho, Hn. destruct Hc as (_ & Hc & _).
    destruct Hc as [-> _]; [rewrite Hd; by destruct (existsb destroys _)|by rewrite Hn, orb_true_r|].
    assert (ws_ID s' <> v) as Hidv by (intros <-; apply Hnot; by right).
    rewrite lookup_insert_ne by done. rewrite Ho, Hv.
    destruct (String.eqb_spec v "") as [He|_]; [by rewrite <- Hv in He|]. destruct (String.eqb_spec v (ws_ID s')); [congruence|].
    cbn [negb andb]. apply lookup_delete_eq.
Qed.

(** Giving a session another identifier and then ending it, in one request,
    ends nothing: only the new identifier, which was never stored, is
    deleted, and the old cookie stays good. *)
Theorem regenerated_then_destroyed_lives m r v s :
  0 < AbsoluteTimeout cfg -> reached m -> draws_well r -> ~ draws_id r v ->
  wr_cookie r = Some v -> m !! v = Some s -> live (wr_start r) s ->
  existsb destroys (wr_ops r) = true -> existsb regenerates (wr_ops r) = true ->
  let '(m', _, set) := serve r m in
  set = Some (session_cookie cfg "" (-1)) /\
  forall now rand, live now s -> entered now (Some v) rand m' = (m', ws_Touch now (IdleTimeout cfg) s).
Proof.
  intros Habs Hre Hw Hnot Hck Hl Hlive Hd Hr. apply reached_ok in Hre as Hok; [|done].
  pose proof (serve_ok r m Hok Habs Hw) as Hok1. unfold serve_request in *.
  rewrite Hck, (load_live _ _ _ _ _ Hok Habs Hl Hlive) in *.
  pose proof (live_starting m (wr_start r) v s Hok Hl) as (Hold & Hne & Hdes).
  set (sess := ws_Touch _ _ s) in *.
  pose proof (commit_cases (wr_commit r) (wr_store_rand r) (apply_ops sess (wr_ops r)) m) as Hc.
  destruct (commitSession _ _ _ _ _ _) as [m' set]. cbn [fst] in Hok1. destruct Hc as [Hc _].
  destruct Hc as [-> ->]; [by rewrite apply_ops_destroyed, Hd, orb_true_r|]. split; [done|].
  destruct (apply_ops_id (wr_ops r) sess Hold Hne) as [(Hr' & _)|(_ & Hi & _)]; [by rewrite Hr in Hr'|].
  intros now rand Hlv. apply load_live; [done|done| |done]. rewrite lookup_delete_ne; [done|].
  intros He. apply Hnot. right. by rewrite <- He.
Qed.

Lemma apply_op_unmodified s o : isModified (apply_op s o) = true \/ apply_op s o = s.
Proof.
  destruct o; cbn; try (by left).
  - unfold ws_Delete. destruct (Values s !! key); auto.
  - unfold RegenerateID. destruct (GenerateSessionID rand); auto.
  - unfold Flashes. destruct (FlashesMap s !! key); auto.
Qed.

Lemma apply_ops_unmodified ops : forall s, isModified (apply_ops s ops) = true \/ apply_ops s ops = s.
Proof.
  induction ops as [|o ops IH]; intros s; [by right|]. cbn. fold apply_ops.
  destruct (apply_op_unmodified s o) as [Hm| ->]; [|apply IH].
  destruct (IH (apply_op s o)) as [Hm'|Heq]; [by left|]. left. by rewrite Heq.
Qed.

(** What the store holds after a request that does not end its session. *)
Lemma serve_stores m r : 0 < AbsoluteTimeout cfg -> ms_ok m -> draws_well r -> existsb destroys (wr_ops r) = false ->
  let '(m', sess, set) := serve r m in
  let final := apply_ops sess (wr_ops r) in
  (set = Some (session_cookie cfg (ws_ID final) (whole_seconds (IdleTimeout cfg))) \/
   set = None /\ wr_cookie r = Some (ws_ID final)) /\
  exists x, m' !! ws_ID final = Some x /\ Values x = Values final /\ FlashesMap x = FlashesMap final /\
    CreatedAt x = CreatedAt sess /\ ws_ExpiresAt x = wr_commit r + IdleTimeout cfg.
Proof.
  intros Habs Hok Hw Hd. unfold serve_request.
  pose proof (load_cases (wr_start r) (wr_cookie r) (wr_rand r) m Hok Habs) as Hc.
  pose proof (load_starting (wr_start r) r m Hok Habs Hw) as Hst.
  destruct (entered _ _ _ _) as [m1 sess]. destruct Hst as [Hok1 (Hold & Hne & Hdes)].
  pose proof (commit_cases (wr_commit r) (wr_store_rand r) (apply_ops sess (wr_ops r)) m1) as Hcm.
  destruct (commitSession _ _ _ _ _ _) as [m2 set]. set (s' := apply_ops sess (wr_ops r)) in *.
  assert (isDestroyed s' = false) as Hd' by (unfold s'; by rewrite apply_ops_destroyed, Hdes, Hd).
  assert (CreatedAt s' = CreatedAt sess) as Hcr by apply apply_ops_created.
  destruct Hcm as (_ & Hs & Ht). destruct (isModified s' || isNew s') eqn:Hm.
  - destruct (Hs Hd' eq_refl) as [-> ->]. split; [by left|]. exists (saved_as (wr_commit r) s').
    rewrite lookup_insert_eq. by split_and!.
  - destruct (Ht Hd' eq_refl) as [-> ->]. apply orb_false_iff in Hm as [Hm Hn].
    destruct (apply_ops_unmodified (wr_ops r) sess) as [Hm'|Heq]; [fold s' in Hm'; congruence|fold s' in Heq].
    destruct Hc as [(v & s & Hv & Hl & _ & -> & Hse)|(_ & Hse & _)].
    2:{ rewrite Heq, Hse in Hn. done. }
    destruct (Hok _ _ Hl) as (Hid & Hpc & _).
    assert (ws_ID s' = v) as Hi by (rewrite Heq, Hse; exact Hid).
    assert (oldID s' = "") as Ho by (rewrite Heq; exact Hold).
    rewrite Hi, Ho. cbn [String.eqb negb andb]. split; [by right|]. unfold memory_Touch. rewrite Hl. cbn [fst].
    exists (set_expiry (wr_commit r + IdleTimeout cfg) s). rewrite lookup_insert_eq. split; [done|].
    by rewrite Heq, Hse.
Qed.

Lemma apply_ops_values ops : forall s s', Values s = Values s' -> Values (apply_ops s ops) = Values (apply_ops s' ops).
Proof.
  induction ops as [|o ops IH]; intros s s' Hv; [done|]. cbn. fold apply_ops. apply IH. destruct o; cbn; rewrite ?Hv; try done.
  - unfold ws_Delete. rewrite Hv. destruct (Values s' !! key); cbn; by rewrite ?Hv.
  - unfold RegenerateID. by destruct (GenerateSessionID rand).
  - unfold Flashes. by destruct (FlashesMap s !! key), (FlashesMap s' !! key).
Qed.

(** Without either, the session stays under its cookie with what the handler
    left in it. *)
Lemma kept_session m r v s :
  0 < AbsoluteTimeout cfg -> reached m -> draws_well r ->
  wr_cookie r = Some v -> m !! v = Some s -> live (wr_start r) s ->
  existsb destroys (wr_ops r) = false -> existsb regenerates (wr_ops r) = false ->
  exists x, fst (fst (serve r m)) !! v = Some x /\ Values x = Values (apply_ops s (wr_ops r)).
Proof.
  intros Habs Hre Hw Hck Hl Hlive Hd Hr. apply reached_ok in Hre as Hok; [|done].
  pose proof (serve_stores m r Habs Hok Hw Hd) as Hs. unfold serve_request in *.
  rewrite Hck, (load_live _ _ _ _ _ Hok Habs Hl Hlive) in *.
  pose proof (live_starting m (wr_start r) v s Hok Hl) as (Hold & Hne & _).
  destruct (commitSession _ _ _ _ _ _) as [m' set]. destruct Hs as (_ & x & Hx & Hv & _). exists x.
  destruct (apply_ops_id (wr_ops r) _ Hold Hne) as [(_ & Hi & _)|(Hr' & _)]; [|by rewrite Hr in Hr'].
  cbn [fst]. rewrite Hi in Hx. cbn in Hx. destruct (Hok _ _ Hl) as (Hid & _). rewrite Hid in Hx. split; [done|].
  rewrite Hv. apply apply_ops_values. by cbn.
Qed.

(** C29: When a session in the memory store is left for good.  After a request
    that ends its session or gives it another identifier, one of the two, the
    old cookie leads to no session but a new and empty one, whatever requests
    follow (others never draw the old identifier).  After a request that does
    both, the browser is told to drop its cookie, but the old session stays:
    the old cookie enters it, unchanged, as long as it is live. *)
Theorem left_session_is_dead m r v s :
  0 < AbsoluteTimeout cfg -> reached m -> draws_well r -> ~ draws_id r v ->
  wr_cookie r = Some v -> m !! v = Some s -> live (wr_start r) s ->
  let '(m', _, set) := serve r m in
  match existsb destroys (wr_ops r), existsb regenerates (wr_ops r) with
  | true, false | false, true =>
      forall rs now rand, others v rs ->
        snd (entered now (Some v) rand (serves m' rs)) = NewSession now (IdleTimeout cfg) rand
  | true, true =>
      set = Some (session_cookie cfg "" (-1)) /\
      forall now rand, live now s -> entered now (Some v) rand m' = (m', ws_Touch now (IdleTimeout cfg) s)
  | false, false => exists x, m' !! v = Some x /\ Values x = Values (apply_ops s (wr_ops r))
  end.
Proof.
  intros Habs Hre Hw Hnot Hck Hl Hlive. apply reached_ok in Hre as Hok; [|done].
  pose proof (serve_ok r m Hok Habs Hw) as Hok1. pose proof (left_slot_empty m r v s Habs Hre Hw Hnot Hck Hl Hlive) as Hgone.
  pose proof (regenerated_then_destroyed_lives m r v s Habs Hre Hw Hnot Hck Hl Hlive) as Hboth.
  pose proof (kept_session m r v s Habs Hre Hw Hck Hl Hlive) as Hkept.
  destruct (serve r m) as [[m' sess] set]. cbn [fst] in *.
  destruct (existsb destroys (wr_ops r)), (existsb regenerates (wr_ops r)); [by apply Hboth| | |by apply Hkept].
  all: intros rs now rand Hrs; apply load_gone; [apply serves_ok; [done| |done]; eapply Forall_impl; [exact Hrs|by intros ? []]|done|];
    apply serves_gone; [done|done|done|by apply Hgone].
Qed.

(** A session carries its contents from request to request: what a handler
    leaves in its session, values, messages and the time it was created, is what the
    next handler finds that is sent the cookie of the response, within the idle and the
    absolute limit, whatever requests of others came between. *)
Theorem session_round_trip m r rs t rand :
  0 < AbsoluteTimeout cfg -> reached m -> draws_well r -> existsb destroys (wr_ops r) = false ->
  let '(m', sess, set) := serve r m in
  let final := apply_ops sess (wr_ops r) in
  let id := ws_ID final in
  others id rs -> Forall (fun r => wr_cookie r <> Some id) rs ->
  t <= wr_commit r + IdleTimeout cfg -> t - CreatedAt sess <= AbsoluteTimeout cfg ->
  (set = Some (session_cookie cfg id (whole_seconds (IdleTimeout cfg))) \/ set = None /\ wr_cookie r = Some id) /\
  let next := snd (entered t (Some id) rand (serves m' rs)) in
  ws_ID next = id /\ Values next = Values final /\ FlashesMap next = FlashesMap final /\ CreatedAt next = CreatedAt sess.
Proof.
  intros Habs Hre Hw Hd. apply reached_ok in Hre as Hok; [|done].
  pose proof (serve_stores m r Habs Hok Hw Hd) as Hst. pose proof (serve_ok r m Hok Habs Hw) as Hok1.
  destruct (serve r m) as [[m' sess] set]. cbv zeta in *. cbn [fst] in Hok1. set (final := apply_ops sess (wr_ops r)) in *.
  destruct Hst as (Hset & x & Hx & Hv & Hf & Hc & He). intros Ho Hcs Ht Ha. split; [exact Hset|].
  assert (ms_ok (serves m' rs)) as Hok2.
  { apply serves_ok; [done| |done]. eapply Forall_impl; [exact Ho|by intros ? []]. }
  assert (serves m' rs !! ws_ID final = Some x) as Hl by by rewrite serves_frame.
  rewrite (load_live t (ws_ID final) x rand _ Hok2 Habs Hl); [|split; [by rewrite He|by rewrite Hc]].
  cbn. destruct (Hok2 _ _ Hl) as (Hid & _ & _). by rewrite Hid.
Qed.

(** A stored session was created by the last request, or was there before. *)
Lemma serve_born m r id s : 0 < AbsoluteTimeout cfg -> ms_ok m -> fst (fst (serve r m)) !! id = Some s ->
  CreatedAt s = wr_start r \/ exists id0 s0, m !! id0 = Some s0 /\ CreatedAt s = CreatedAt s0.
Proof.
  intros Habs Hok Hl. unfold serve_request in Hl.
  pose proof (load_cases (wr_start r) (wr_cookie r) (wr_rand r) m Hok Habs) as Hc.
  destruct (entered _ _ _ _) as [m1 sess].
  pose proof (commit_cases (wr_commit r) (wr_store_rand r) (apply_ops sess (wr_ops r)) m1) as Hcm.
  destruct (commitSession _ _ _ _ _ _) as [m2 set]. cbn [fst] in Hl.
  assert (CreatedAt (apply_ops sess (wr_ops r)) = wr_start r \/
    exists id1 s1, m !! id1 = Some s1 /\ CreatedAt (apply_ops sess (wr_ops r)) = CreatedAt s1) as Hsess.
  { rewrite apply_ops_created. destruct Hc as [(v & x & _ & Hl1 & _ & _ & ->)|(_ & -> & _)]; [right; eauto|by left]. }
  set (s' := apply_ops sess (wr_ops r)) in *. set (mm := if _ && _ then _ else _) in Hcm.
  assert (forall id1 s1, m1 !! id1 = Some s1 -> m !! id1 = Some s1) as Hsub.
  { intros id1 s1 Hl1. destruct Hc as [(v & x & _ & _ & _ & -> & _)|([->|(v & _ & ->)] & _)]; [done|done|].
    by apply lookup_delete_Some in Hl1 as [_ Hl1]. }
  assert (forall id1 s1, mm !! id1 = Some s1 -> m !! id1 = Some s1) as Hsub2.
  { intros id1 s1 Hl1. apply Hsub. unfold mm in Hl1. case_match; [by apply lookup_delete_Some in Hl1 as [_ Hl1]|done]. }
  destruct Hcm as (Hd & Hs & Ht). destruct (isDestroyed s'); [|destruct (isModified s' || isNew s')].
  - destruct (Hd eq_refl) as [-> _]. apply lookup_delete_Some in Hl as [_ Hl]. right. eauto.
  - destruct (Hs eq_refl eq_refl) as [-> _]. apply lookup_insert_Some in Hl as [[_ <-]|[_ Hl]]; [exact Hsess|right; eauto].
  - destruct (Ht eq_refl eq_refl) as [-> _]. unfold memory_Touch in Hl.
    destruct (mm !! ws_ID s') as [x|] eqn:Hx; cbn [fst] in Hl; [|right; eauto].
    apply lookup_insert_Some in Hl as [[_ <-]|[_ Hl]]; right; eauto.
Qed.

Lemma serves_born rs : 0 < AbsoluteTimeout cfg -> Forall draws_well rs -> forall m, ms_ok m ->
  forall id s, serves m rs !! id = Some s ->
  (exists r0, r0 ∈ rs /\ CreatedAt s = wr_start r0) \/ exists id0 s0, m !! id0 = Some s0 /\ CreatedAt s = CreatedAt s0.
Proof.
  intros Habs. induction 1 as [|r rs Hw _ IH]; intros m Hok id s Hl; [by right; eauto|].
  destruct (IH (fst (fst (serve r m))) (serve_ok r m Hok Habs Hw) id s Hl) as [(r0 & Hin & Hr0)|(id0 & s0 & Hs0 & ->)].
  { left. exists r0. split; [by right|done]. }
  destruct (serve_born m r id0 s0 Habs Hok Hs0) as [Hr|Hr]; [|by right].
  left. exists r. split; [by left|done].
Qed.

(** No handler gets a session older than the absolute limit, however often
    it was used; the time it is measured from is that of the request that
    created it. *)
Theorem session_ceiling rs r : 0 < AbsoluteTimeout cfg -> Forall draws_well rs ->
  let sess := snd (entered (wr_start r) (wr_cookie r) (wr_rand r) (serves ∅ rs)) in
  wr_start r - CreatedAt sess <= AbsoluteTimeout cfg /\
  (CreatedAt sess = wr_start r /\ Values sess = ∅ \/ exists r0, r0 ∈ rs /\ CreatedAt sess = wr_start r0).
Proof.
  intros Habs Hws.
  assert (ms_ok (∅ : sessions)) as Hok0 by (intros id s Hl; by rewrite lookup_empty in Hl).
  pose proof (load_cases (wr_start r) (wr_cookie r) (wr_rand r) (serves ∅ rs) (serves_ok rs Habs Hws _ Hok0) Habs) as Hc.
  destruct (entered _ _ _ _) as [m1 sess]. cbn [snd]. destruct Hc as [(v & x & _ & Hl & [_ Hlive] & _ & ->)|(_ & -> & _)].
  - cbn. split; [exact Hlive|]. right. destruct (serves_born rs Habs Hws ∅ Hok0 _ _ Hl) as [Hb|(? & ? & He & _)]; [done|].
    by rewrite lookup_empty in He.
  - cbn. split; [lia|]. by left.
Qed.

End MemoryFacts.

(** ** The session in the cookie *)

Section CookieFacts.
Context `{CryptoLaws} `{SessionCodec}.

(** Sessions that encoding/json reads back. *)
Definition codec_safe (s : WebSession) : Prop :=
  exists b, marshal_session s = Ok b /\ unmarshal_session b = Some (plain_copy s) /\ Forall is_byte b /\ b <> [].

(** What was put into a cookie is read back until it expires, whatever else
    happens: neither ending the session nor using it changes that. *)
Theorem cookie_session_round_trip key now rand s0 ttl s t rs cfg st :
  aes_key_ok key = true -> good_nonce rand -> (forall k n p, Forall is_byte p -> Forall is_byte (gcm_seal k n p)) ->
  codec_safe (set_expiry (now + ttl) s0) -> cookie_Save key now rand s0 ttl = (s, None) ->
  let again := st_Get (CookieStore key) t (ws_ID s) (serve_requests (CookieStore key) cfg st rs) in
  snd again = if now + ttl <? t then Err ErrSessionExpired else Ok (plain_copy (set_expiry (now + ttl) s0)).
Proof.
  intros Hk (n & -> & Hn & Hnb) Hseal (b & Hm & Hu & Hb & Hne) Hsave. unfold cookie_Save in Hsave. rewrite Hm in Hsave.
  cbn [rbind] in Hsave. unfold Encrypt in Hsave. apply zlen_pos in Hne as Hpos.
  destruct (Z.eqb_spec (zlen b) 0); [lia|]. cbn [rbind] in Hsave. injection Hsave as <-. cbn [ws_ID CookieStore st_Get snd].
  assert (String.eqb (RawURLEncode (n ++ gcm_seal key n b)) "" = false) as Hv.
  { apply String.eqb_neq, ciphertext_nonempty; [done|]. apply Forall_app. split; auto. }
  unfold cookie_Get. rewrite Hv, Decrypt_Encrypt by done.
  rewrite Hu. cbn [plain_copy set_expiry ws_ExpiresAt]. by destruct (now + ttl <? t).
Qed.

End CookieFacts.

(** ** Witnesses *)

Definition toy_session_config : SessionConfig := session_defaults (mkSC "" "" "" false true 0 0 0).

Definition toy_rand (n : Z) : result bytes := Ok (replicate 32 n).
Definition toy_id (n : Z) : string := RawURLEncode (replicate 32 n).

(** A visit with session [c] at second [t]. *)
Definition visit (t : Z) (c : option Z) (n : Z) (ops : list session_op) : web_request :=
  mkWReq (t * second) (t * second + 5) (toy_id <$> c) (toy_rand n) (toy_rand (n + 100)) ops.

Definition first_visit : web_request := visit 10 None 1 [OpSet "user" (AInt 7)].

Definition after_first : sessions := serve_requests MemoryStore toy_session_config ∅ [first_visit].

Definition logged_in : WebSession :=
  mkWS (toy_id 1) {["user" := AInt 7]} (10 * second) (10 * second) (1810 * second + 5) ∅ "" false false false.

Lemma after_first_eq : after_first !! toy_id 1 = Some logged_in.
Proof. by vm_compute. Qed.

(** What the visits below draw. *)
Lemma visit_draws t c n ops id : draws_id (visit t c n ops) id -> existsb regenerates ops = false -> id = toy_id n.
Proof.
  intros [Hd|Hd] Hn; [by injection Hd as <-|]. exfalso. cbn [visit wr_ops] in Hd.
  induction Hd as [o ops Ho|o ops _ IH]; cbn in Hn; apply orb_false_iff in Hn as [Hn Hns]; [|by apply IH].
  destruct o; try done. cbn in Ho, Hn. unfold drawn_id in Ho. by rewrite Ho in Hn.
Qed.

Lemma visit_well t c n ops : existsb regenerates ops = false -> toy_id n <> "" -> draws_well (visit t c n ops).
Proof.
  intros Hr Hn. split; [by eexists|]. intros id Hd. by rewrite (visit_draws _ _ _ _ _ Hd Hr).
Qed.

Lemma toy_reached : reached toy_session_config after_first.
Proof. exists [first_visit]. split; [|done]. constructor; [|done]. by apply visit_well. Qed.

Lemma toy_live t : t <= 1000 -> live toy_session_config (t * second) logged_in.
Proof. intros Ht. unfold live, second. cbn. unfold or_default, minute, second. cbn. lia. Qed.

Definition logout : web_request := visit 20 (Some 1) 2 [OpDestroy].

Lemma toy_others n id : id <> toy_id n -> toy_id n <> "" -> others id [visit 30 (Some 3) n []].
Proof.
  intros Hid Hn. constructor; [|done]. split; [by apply visit_well|]. intros Hd. apply Hid. by apply (visit_draws _ _ _ _ _ Hd).
Qed.

Lemma left_session_is_dead_witness :
  snd (load_session MemoryStore toy_session_config (40 * second) (Some (toy_id 1)) (toy_rand 5)
         (serve_requests MemoryStore toy_session_config (fst (fst (serve_request MemoryStore toy_session_config logout after_first)))
            [visit 30 (Some 3) 3 []])) = NewSession (40 * second) (IdleTimeout toy_session_config) (toy_rand 5).
Proof.
  pose proof (left_session_is_dead toy_session_config after_first logout (toy_id 1) logged_in) as H.
  destruct (serve_request MemoryStore toy_session_config logout after_first) as [[m' sess] set]. apply H.
  - reflexivity.
  - apply toy_reached.
  - apply visit_well; [reflexivity|by vm_compute].
  - intros Hd. apply visit_draws in Hd; [|reflexivity]. by vm_compute in Hd.
  - reflexivity.
  - apply after_first_eq.
  - apply (toy_live 20). lia.
  - apply toy_others; by vm_compute.
Defined.

Lemma regenerated_then_destroyed_lives_witness :
  let r := visit 20 (Some 1) 2 [OpRegenerate (toy_rand 4); OpDestroy] in
  let '(m', _, set) := serve_request MemoryStore toy_session_config r after_first in
  set = Some (session_cookie toy_session_config "" (-1)) /\
  snd (load_session MemoryStore toy_session_config (30 * second) (Some (toy_id 1)) (toy_rand 6) m')
    = ws_Touch (30 * second) (IdleTimeout toy_session_config) logged_in.
Proof.
  intros r.
  assert (forall id, draws_id r id -> id = toy_id 2 \/ id = toy_id 4) as Hdr.
  { intros id [Hd|Hd]; [left; by injection Hd as <-|right]. apply Exists_cons in Hd as [Hd|Hd]; [by injection Hd as <-|].
    apply Exists_cons in Hd as [[]|Hd]. by apply Exists_nil in Hd. }
  pose proof (regenerated_then_destroyed_lives toy_session_config after_first r (toy_id 1) logged_in) as Ht.
  destruct (serve_request MemoryStore toy_session_config r after_first) as [[m' sess] set].
  destruct Ht as [Hset Hload].
  - reflexivity.
  - apply toy_reached.
  - split; [by eexists|]. intros id Hd. destruct (Hdr id Hd) as [->| ->]; by vm_compute.
  - intros Hd. destruct (Hdr _ Hd) as [He|He]; by vm_compute in He.
  - reflexivity.
  - apply after_first_eq.
  - apply (toy_live 20). lia.
  - reflexivity.
  - reflexivity.
  - split; [exact Hset|]. rewrite (Hload (30 * second) (toy_rand 6) (toy_live 30 ltac:(lia))). reflexivity.
Defined.

Lemma session_round_trip_witness :
  let '(m', _, _) := serve_request MemoryStore toy_session_config (visit 20 (Some 1) 2 [OpSet "cart" (AStr "book"); OpFlash "note" (AStr "saved")]) after_first in
  let next := snd (load_session MemoryStore toy_session_config (100 * second) (Some (toy_id 1)) (toy_rand 6)
                     (serve_requests MemoryStore toy_session_config m' [visit 30 (Some 3) 3 []])) in
  GetInt "user" next = 7 /\ GetString "cart" next = "book" /\ snd (Flashes "note" next) = [AStr "saved"].
Proof.
  set (r := visit 20 (Some 1) 2 [OpSet "cart" (AStr "book"); OpFlash "note" (AStr "saved")]).
  assert (serve_request MemoryStore toy_session_config r after_first
    = (fst (fst (serve_request MemoryStore toy_session_config r after_first)),
       ws_Touch (20 * second) (IdleTimeout toy_session_config) logged_in,
       snd (serve_request MemoryStore toy_session_config r after_first))) as Heq by (vm_compute; reflexivity).
  pose proof (session_round_trip toy_session_config after_first r [visit 30 (Some 3) 3 []] (100 * second) (toy_rand 6) eq_refl toy_reached
    (visit_well 20 (Some 1) 2 [OpSet "cart" (AStr "book"); OpFlash "note" (AStr "saved")] eq_refl ltac:(by vm_compute)) eq_refl) as Ht.
  rewrite Heq in Ht |- *. cbv zeta in Ht |- *.
  destruct Ht as (_ & _ & Hv & Hf & _).
  - apply toy_others; by vm_compute.
  - constructor; [|done]. by vm_compute.
  - by vm_compute.
  - by vm_compute.
  - assert (ws_ID (apply_ops (ws_Touch (20 * second) (IdleTimeout toy_session_config) logged_in) (wr_ops r)) = toy_id 1)
      as Hid by reflexivity.
    rewrite Hid in Hv, Hf. unfold GetInt, GetString, ws_Get, Flashes. rewrite Hv, Hf. split; [|split]; vm_compute; reflexivity.
Defined.
