(* ===== verification/Pattern.v ===== *)
(** * Whether a regular expression matches somewhere

    [MatchString] of Go's package regexp, for expressions with word
    boundaries and without captures: there the preferences of the repetitions
    do not matter.  A position is the character before it, if there is one,
    and the text behind it.  [Match] is what an expression means and [pm] the
    search, which decides it.  Characters are bytes, and a class that
    excludes ASCII characters matches the bytes of a longer encoding one by
    one; where a letter matches without regard to case, the two encodings
    that Go folds to a letter of ASCII are among its spellings. *)

From S2P Require Import Prelude GoStrings.

#[local] Open Scope go_scope.
#[local] Open Scope string_scope.
#[local] Open Scope list_scope.
#[local] Open Scope Z_scope.

Inductive pat :=
| PEps
| PChr (p : Ascii.ascii -> bool)
| PSeq (r1 r2 : pat)
| PAlt (r1 r2 : pat)
| PStar (r : pat)
| PWordb.

(** [\w], on ASCII. *)
Definition is_word (a : Ascii.ascii) : bool :=
  ascii_in "a" "z" a || ascii_in "A" "Z" a || ascii_in "0" "9" a || Ascii.eqb a "_".

Definition word_before (prev : option Ascii.ascii) : bool := match prev with Some a => is_word a | None => false end.
Definition word_after (s : string) : bool := match s with String a _ => is_word a | EmptyString => false end.

(** [\b] *)
Definition boundary (prev : option Ascii.ascii) (s : string) : bool := xorb (word_before prev) (word_after s).

(** ** What an expression means *)

Inductive Match : pat -> option Ascii.ascii -> string -> option Ascii.ascii -> string -> Prop :=
| M_eps p s : Match PEps p s p s
| M_chr f p a s : f a = true -> Match (PChr f) p (String a s) (Some a) s
| M_seq r1 r2 p s p1 s1 p2 s2 : Match r1 p s p1 s1 -> Match r2 p1 s1 p2 s2 -> Match (PSeq r1 r2) p s p2 s2
| M_alt_l r1 r2 p s p' s' : Match r1 p s p' s' -> Match (PAlt r1 r2) p s p' s'
| M_alt_r r1 r2 p s p' s' : Match r2 p s p' s' -> Match (PAlt r1 r2) p s p' s'
| M_star_nil r p s : Match (PStar r) p s p s
| M_star_more r p s p1 s1 p2 s2 : Match r p s p1 s1 -> Match (PStar r) p1 s1 p2 s2 -> Match (PStar r) p s p2 s2
| M_wordb p s : boundary p s = true -> Match PWordb p s p s.

(** Somewhere in the text behind a position. *)
Inductive Occurs (r : pat) : option Ascii.ascii -> string -> Prop :=
| Occurs_here p s p' s' : Match r p s p' s' -> Occurs r p s
| Occurs_later p a s : Occurs r (Some a) s -> Occurs r p (String a s).

(** ** The search *)

(** Tests that do not evaluate their second argument in vain. *)
Notation "a ||| b" := (if a then true else b) (at level 50, left associativity, only parsing) : go_scope.
Notation "a &&& b" := (if a then b else false) (at level 40, left associativity, only parsing) : go_scope.

(** Rounds of a repetition; a round that consumes nothing is not counted. *)
Fixpoint rounds (step : option Ascii.ascii -> string -> (option Ascii.ascii -> string -> bool) -> bool)
    (k : option Ascii.ascii -> string -> bool) (n : nat) (p : option Ascii.ascii) (s : string) : bool :=
  k p s |||
  match n with
  | O => false
  | S n' => step p s (fun p' s' => (String.length s' <? String.length s)%nat &&& rounds step k n' p' s')
  end.

Fixpoint pm (r : pat) (p : option Ascii.ascii) (s : string) (k : option Ascii.ascii -> string -> bool) : bool :=
  match r with
  | PEps => k p s
  | PChr f => match s with String a s' => f a &&& k (Some a) s' | EmptyString => false end
  | PSeq r1 r2 => pm r1 p s (fun p' s' => pm r2 p' s' k)
  | PAlt r1 r2 => pm r1 p s k ||| pm r2 p s k
  | PStar r => rounds (pm r) k (String.length s) p s
  | PWordb => boundary p s &&& k p s
  end.

Fixpoint occurs (r : pat) (p : option Ascii.ascii) (s : string) : bool :=
  pm r p s (fun _ _ => true) |||
  match s with String a s' => occurs r (Some a) s' | EmptyString => false end.

Definition MatchString (r : pat) (s : string) : bool := occurs r None s.

Lemma lazy_or (a b : bool) : (if a then true else b) = true <-> a = true \/ b = true.
Proof. apply orb_true_iff. Qed.

Lemma lazy_and (a b : bool) : (if a then b else false) = true <-> a = true /\ b = true.
Proof. apply andb_true_iff. Qed.

(** ** The search decides the meaning *)

(** Two positions of one text. *)
Inductive ahead : option Ascii.ascii -> string -> option Ascii.ascii -> string -> Prop :=
| ahead_here p s : ahead p s p s
| ahead_more p a s p' s' : ahead (Some a) s p' s' -> ahead p (String a s) p' s'.

Lemma ahead_trans p s p1 s1 p2 s2 : ahead p s p1 s1 -> ahead p1 s1 p2 s2 -> ahead p s p2 s2.
Proof. induction 1; [done|]. intros Ha. by apply ahead_more, IHahead. Qed.

Lemma ahead_length p s p' s' : ahead p s p' s' ->
  (p = p' /\ s = s') \/ (String.length s' < String.length s)%nat.
Proof. induction 1 as [|p a s p' s' _ [[_ <-]|IH]]; cbn; [by left|right; lia|right; lia]. Qed.

Lemma Match_ahead r p s p' s' : Match r p s p' s' -> ahead p s p' s'.
Proof. induction 1; eauto using ahead, ahead_trans. Qed.

Lemma rounds_spec r step k :
  (forall p s k', step p s k' = true <-> exists p' s', Match r p s p' s' /\ k' p' s' = true) ->
  forall n p s, (String.length s <= n)%nat ->
    rounds step k n p s = true <-> exists p' s', Match (PStar r) p s p' s' /\ k p' s' = true.
Proof.
  intros Hstep n. induction n as [|n IH]; intros p s Hn; cbn [rounds]; rewrite lazy_or.
  - split.
    + intros [Hk|]; [|done]. eauto using Match.
    + intros (p' & s' & Hm & Hk). left. apply Match_ahead, ahead_length in Hm as [[-> ->]|Hlt]; [done|lia].
  - rewrite Hstep. split.
    + intros [Hk|(p1 & s1 & Hm & [Hlt Hr]%lazy_and)]; [by eauto using Match|].
      apply Nat.ltb_lt in Hlt. apply IH in Hr as (p2 & s2 & Hs & Hk); [|lia]. eauto 6 using Match.
    + intros (p2 & s2 & Hm & Hk). remember (PStar r) as q eqn:Hq. revert Hn.
      induction Hm as [| | | | |r' p s|r' p s p1 s1 p2 s2 H1 _ H2 IH2|]; try done; intros Hn; [by left|].
      injection Hq as ->. pose proof (Match_ahead _ _ _ _ _ H1) as [[-> ->]|Hlt]%ahead_length; [by apply IH2|].
      right. exists p1, s1. split; [done|]. apply lazy_and. split; [by apply Nat.ltb_lt|].
      apply IH; [lia|]. eauto.
Qed.

Lemma pm_spec r p s k : pm r p s k = true <-> exists p' s', Match r p s p' s' /\ k p' s' = true.
Proof.
  revert p s k. induction r as [|f|r1 IH1 r2 IH2|r1 IH1 r2 IH2|r IH|]; intros p s k; cbn [pm].
  - split; [eauto using Match|]. intros (p' & s' & Hm & Hk). by inversion Hm; subst.
  - split.
    + destruct s as [|a s]; [done|]. intros [Hf Hk]%lazy_and. eauto using Match.
    + intros (p' & s' & Hm & Hk). inversion Hm; subst. by apply lazy_and.
  - rewrite IH1. setoid_rewrite IH2. split.
    + intros (p1 & s1 & H1 & p2 & s2 & H2 & Hk). eauto using Match.
    + intros (p2 & s2 & Hm & Hk). inversion Hm; subst. eauto 7.
  - rewrite lazy_or, IH1, IH2. split.
    + intros [(p' & s' & Hm & Hk)|(p' & s' & Hm & Hk)]; eauto using Match.
    + intros (p' & s' & Hm & Hk). inversion Hm; subst; eauto.
  - by apply rounds_spec.
  - rewrite lazy_and. split; [intros []; eauto using Match|].
    intros (p' & s' & Hm & Hk). by inversion Hm; subst.
Qed.

Lemma occurs_spec r p s : occurs r p s = true <-> Occurs r p s.
Proof.
  revert p. induction s as [|a s IH]; intros p; cbn [occurs]; rewrite lazy_or, pm_spec.
  - split; [intros [(p' & s' & Hm & _)|]; [by eapply Occurs_here|done]|].
    intros Ho. inversion Ho; subst. left. eauto.
  - rewrite IH. split; [intros [(p' & s' & Hm & _)|]; [by eapply Occurs_here|by apply Occurs_later]|].
    intros Ho. inversion Ho; subst; [left|right]; eauto.
Qed.

Lemma Occurs_app r p s t u v : ahead p (s +:+ t) u v -> Occurs r u v -> Occurs r p (s +:+ t).
Proof.
  intros Ha Ho. induction Ha; [done|]. by apply Occurs_later, IHHa.
Qed.

(** ** Shorthands *)

Definition PLit1 (a : Ascii.ascii) : pat := PChr (Ascii.eqb a).

Fixpoint PCat (l : list pat) : pat := match l with [] => PEps | [r] => r | r :: l' => PSeq r (PCat l') end.
Fixpoint PAny (l : list pat) : pat := match l with [] => PChr (fun _ => false) | [r] => r | r :: l' => PAlt r (PAny l') end.
Definition PPlus (r : pat) : pat := PSeq r (PStar r).
Definition POpt (r : pat) : pat := PAlt r PEps.

(** U+017F and U+212A, which fold to [s] and [k]. *)
Definition long_s : pat := PSeq (PLit1 (ascii_of_byte 197)) (PLit1 (ascii_of_byte 191)).
Definition kelvin : pat := PCat [PLit1 (ascii_of_byte 226); PLit1 (ascii_of_byte 132); PLit1 (ascii_of_byte 170)].

(** A character under [(?i)]. *)
Definition chr_ci (a : Ascii.ascii) : pat :=
  let same := PChr (fun b => Ascii.eqb (lower_ascii a) (lower_ascii b)) in
  if Ascii.eqb (lower_ascii a) "s" then PAlt same long_s
  else if Ascii.eqb (lower_ascii a) "k" then PAlt same kelvin
  else same.

Fixpoint lit_ci (s : string) : pat :=
  match s with
  | EmptyString => PEps
  | String a EmptyString => chr_ci a
  | String a s' => PSeq (chr_ci a) (lit_ci s')
  end.

(** [\w] under [(?i)], [\s], [\d], and [.], which leaves out the newline. *)
Definition word_ci : pat := PAlt (PChr is_word) (PAlt long_s kelvin).
Definition re_space (a : Ascii.ascii) : bool :=
  let b := byte_of_ascii a in (b =? 32) || (b =? 9) || (b =? 10) || (b =? 12) || (b =? 13).
Definition spaces : pat := PStar (PChr re_space).
Definition spaces1 : pat := PPlus (PChr re_space).
Definition digits1 : pat := PPlus (PChr is_digit).
Definition dot : pat := PChr (fun a => negb (Ascii.eqb a newline)).
