(* ===== verification/Waf.v ===== *)
(** * The web application firewall and its neighbours (security/web)

    waf.go: the expressions for injected markup and SQL, the repeated
    decoding in front of them, and the two middlewares, of which the engine
    mounts [WAFWithConfigPtr].  headers.go: the security headers with the
    nonce of a request.  config.go and cmd/hornetz/main.go: the paths that
    are exempt from the token against forged requests.  upload/middleware.go:
    the limit of an upload route, which runs inside the firewall.  A body is
    what can be read of it and how reading ends. *)

From S2P Require Import Prelude GoStrings Regex GoURL GoData Pattern.

#[local] Open Scope go_scope.
#[local] Open Scope string_scope.
#[local] Open Scope list_scope.
#[local] Open Scope Z_scope.

(** ** The expressions *)

Definition quote : pat := PLit1 (ascii_of_byte 39).
Definition or_and : pat := PAny [lit_ci "or"; lit_ci "and"].

Definition sqliPatterns : list pat := [
  PCat [PWordb; lit_ci "union"; spaces; POpt (PAny [PSeq (lit_ci "all") spaces1; PSeq (lit_ci "distinct") spaces1]); lit_ci "select"; PWordb];
  PCat [PAlt (PSeq (PLit1 ";") spaces) (PCat [PWordb; PAny [lit_ci "union"; lit_ci "select"]; PWordb; PStar dot]);
        PWordb;
        PAny [PCat [lit_ci "drop"; spaces1; PAny [lit_ci "table"; lit_ci "database"]];
              PCat [lit_ci "truncate"; spaces1; lit_ci "table"]; PCat [lit_ci "alter"; spaces1; lit_ci "table"]];
        PWordb];
  PCat [PWordb; PAny [lit_ci "exec"; lit_ci "execute"]; spaces;
        PAny [PSeq (lit_ci "xp_") (PPlus word_ci); PSeq (lit_ci "sp_") (PPlus word_ci); lit_ci "immediate"; lit_ci "master.";
              PSeq (PLit1 "(") (POpt (PLit1 "@")); PSeq (PLit1 "@") (PPlus word_ci)]];
  PCat [PWordb;
        PAny [PCat [lit_ci "waitfor"; spaces1; lit_ci "delay"]; PCat [lit_ci "pg_sleep"; spaces; PLit1 "("];
              PCat [lit_ci "sleep"; spaces; PLit1 "("]];
        PWordb];
  PAlt (PCat [quote; spaces; or_and; spaces; POpt quote; digits1; POpt quote; spaces; PLit1 "="; spaces; POpt quote; digits1; POpt quote])
       (PCat [quote; spaces; or_and; spaces; quote; PPlus word_ci; quote; spaces; PLit1 "="; spaces; quote; PPlus word_ci; quote]);
  PAny [PCat [quote; spaces; or_and; spaces; PStar dot; lit_ci "--"]; PCat [quote; spaces; lit_ci "--"];
        PCat [PLit1 ";"; spaces; lit_ci "--"]]].

Definition not_gt : pat := PChr (fun a => negb (Ascii.eqb a ">")).

Definition event_name : pat :=
  PAny [lit_ci "load"; lit_ci "error"; lit_ci "click"; lit_ci "dblclick"; PSeq (lit_ci "mouse") (PPlus word_ci);
        PSeq (lit_ci "key") (PPlus word_ci); PSeq (lit_ci "focus") (PStar word_ci); lit_ci "blur"; lit_ci "change";
        lit_ci "submit"; lit_ci "input"; PSeq (lit_ci "pointer") (PPlus word_ci); PSeq (lit_ci "drag") (PPlus word_ci);
        PSeq (lit_ci "touch") (PPlus word_ci)].

Definition xssPatterns : list pat := [
  PCat [PLit1 "<"; spaces; lit_ci "script"; PWordb; PStar not_gt; PLit1 ">"];
  PCat [PLit1 "<"; spaces; PLit1 "/"; spaces; lit_ci "script"; spaces; PLit1 ">"];
  PCat [lit_ci "javascript"; spaces; PLit1 ":"];
  PCat [PWordb; lit_ci "on"; event_name; spaces; PLit1 "="];
  PCat [PLit1 "<"; spaces; PAny [lit_ci "iframe"; lit_ci "object"; lit_ci "embed"]; PWordb; PStar not_gt; PLit1 ">"]].

Definition sqlCommentPattern : regex := Seq (Lit "/*") (Seq (Lazy (Chr (fun _ => true))) (Lit "*/")).

(** [ReplaceAllString]: an expression that does not match the empty string. *)
Fixpoint replace_all (fuel : nat) (r : regex) (by_ s : string) : string :=
  match fuel with
  | O => s
  | S n => match find r s with
           | Some m => m_prefix m +:+ by_ +:+ replace_all n r by_ (m_suffix m)
           | None => s
           end
  end.

Definition without_comments (by_ s : string) : string := replace_all (String.length s) sqlCommentPattern by_ s.

(** ** Decoding *)

Definition isHex (c : Ascii.ascii) : bool := ascii_in "0" "9" c || ascii_in "a" "f" c || ascii_in "A" "F" c.

Definition unhex_digit (c : Ascii.ascii) : Z :=
  if ascii_in "0" "9" c then byte_of_ascii c - 48
  else if ascii_in "a" "f" c then byte_of_ascii c - 97 + 10
  else if ascii_in "A" "F" c then byte_of_ascii c - 65 + 10
  else 0.

Fixpoint resilientQueryUnescape (s : string) : string :=
  match s with
  | EmptyString => EmptyString
  | String c s' =>
      if Ascii.eqb c "%" then
        match s' with
        | String a (String b rest) =>
            if isHex a && isHex b
            then String (ascii_of_byte (Z.lor (Z.shiftl (unhex_digit a) 4) (unhex_digit b))) (resilientQueryUnescape rest)
            else String c (resilientQueryUnescape s')
        | _ => String c (resilientQueryUnescape s')
        end
      else if Ascii.eqb c "+" then String " " (resilientQueryUnescape s')
      else String c (resilientQueryUnescape s')
  end.

Fixpoint unescape_rounds (i : nat) (prev : string) : string :=
  match i with
  | O => prev
  | S i' => let decoded := resilientQueryUnescape prev in
            if String.eqb decoded prev then prev else unescape_rounds i' decoded
  end.

Definition recursiveQueryUnescape (input : string) : string := unescape_rounds 5 input.

(** ** The verdict on a text *)

Definition isMalicious (input0 : string) : bool :=
  if String.eqb input0 "" then false
  else
    let input := recursiveQueryUnescape input0 in
    existsb (fun p => MatchString p input) xssPatterns |||
    let inputCommentsSpaced := without_comments " " input in
    let inputCommentsCollapsed := without_comments "" input in
    existsb (fun p => MatchString p input ||| MatchString p inputCommentsSpaced ||| MatchString p inputCommentsCollapsed)
      sqliPatterns.

(** ** Requests *)

(** The bytes that can be read, and the error reading ends with, if not at
    the end of the body. *)
Record body := mkBody { b_data : bytes; b_err : option gerror }.

(** The keys of the request's context that the firewall looks at. *)
Record context := mkCtx { ztatic_upload_max_body : option Z; ztatic_upload_route : bool }.

Record request := mkReq {
  r_uri : string;
  r_path : string;
  ContentLength : Z;
  ContentType : string;
  r_body : option body;
  r_ctx : context
}.

Definition set_body (r : request) (b : option body) : request :=
  mkReq (r_uri r) (r_path r) (ContentLength r) (ContentType r) b (r_ctx r).
Definition set_ctx (r : request) (c : context) : request :=
  mkReq (r_uri r) (r_path r) (ContentLength r) (ContentType r) (r_body r) c.

Inductive verdict := Next (r : request) | Deny (status : Z) (msg : string).

Definition violation : string := "Forbidden: Security policy violation".
Definition too_large : string := "Payload Too Large: Security inspection limit exceeded".

(** [io.ReadAll(io.LimitReader(body, n))]: what was read and what remains,
    or the remaining body and the error. *)
Definition read_up_to (n : Z) (b : body) : body * result bytes :=
  if n <=? 0 then (b, Ok [])
  else
    let got := ztake n (b_data b) in
    let rest := mkBody (zdrop n (b_data b)) (b_err b) in
    if zlen got <? n then match b_err b with Some er => (rest, Err er) | None => (rest, Ok got) end
    else (rest, Ok got).

(** Reading the body up to the limit, and the text in it. *)
Definition inspect_body (maxBody : Z) (r : request) (b : body) : verdict :=
  match read_up_to (i64 (maxBody + 1)) b with
  | (rest, Err _) => Next (set_body r (Some rest))
  | (rest, Ok bodyBytes) =>
      if maxBody <? zlen bodyBytes then Deny 413 too_large
      else if (0 <? zlen bodyBytes) && isMalicious (string_of_bytes bodyBytes) then Deny 403 violation
      else Next (set_body r (Some (mkBody (bodyBytes ++ b_data rest) (b_err rest))))
  end.

Definition maxWAFBodySize : Z := 128 * 1024.

Definition waf_override (r : request) (maxBody : Z) : Z :=
  match ztatic_upload_max_body (r_ctx r) with Some o => if 0 <? o then o else maxBody | None => maxBody end.

Definition isMultipart (r : request) : bool := HasPrefix (ContentType r) "multipart/form-data".
Definition isOctetStream (r : request) : bool := HasPrefix (ContentType r) "application/octet-stream".

(** WAFWithConfig: the limit is one variable of the middleware, which a
    request with a limit of its own assigns. *)
Definition waf (maxBody0 : Z) (r : request) : Z * verdict :=
  if isMalicious (r_uri r) then (maxBody0, Deny 403 violation)
  else
    match r_body r with
    | Some b =>
        if ContentLength r =? 0 then (maxBody0, Next r)
        else
          let maxBody := waf_override r maxBody0 in
          let isUploadPath := HasPrefix (r_path r) "/upload/" || String.eqb (r_path r) "/upload"
                              || HasPrefix (r_path r) "/api/upload" in
          let isUploadRoute := ztatic_upload_route (r_ctx r) || isUploadPath in
          (maxBody,
           if isUploadRoute && (isOctetStream r || isMultipart r) then Next r
           else if maxBody <? ContentLength r then Deny 413 too_large
           else inspect_body maxBody r b)
    | None => (maxBody0, Next r)
    end.

Definition waf_limit (cfg_MaxBodySize : Z) : Z := if cfg_MaxBodySize <=? 0 then maxWAFBodySize else cfg_MaxBodySize.

(** WAFWithConfig on a sequence of requests. *)
Fixpoint WAFWithConfig (maxBody : Z) (rs : list request) : list verdict :=
  match rs with
  | [] => []
  | r :: rs' => let '(maxBody', v) := waf maxBody r in v :: WAFWithConfig maxBody' rs'
  end.

(** WAFWithConfigPtr: the limit is read anew for each request. *)
Definition WAFWithConfigPtr (cfg_MaxBodySize : Z) (r : request) : verdict :=
  if isMalicious (r_uri r) then Deny 403 violation
  else
    match r_body r with
    | Some b =>
        if ContentLength r =? 0 then Next r
        else
          let maxBody := waf_override r (waf_limit cfg_MaxBodySize) in
          let isUploadPath := HasPrefix (r_path r) "/upload/" || String.eqb (r_path r) "/upload" in
          if ztatic_upload_route (r_ctx r) || isMultipart r || isOctetStream r || isUploadPath then Next r
          else if maxBody <? ContentLength r then Deny 413 too_large
          else inspect_body maxBody r b
    | None => Next r
    end.

(** ** The limit of an upload route *)

(** [http.MaxBytesReader]: reading past the limit is an error. *)
Definition max_bytes_reader (n : Z) (b : body) : body :=
  if zlen (b_data b) <=? n then b else mkBody (ztake n (b_data b)) (Some (ErrMsg "http: request body too large")).

Definition RouteLimit (maxBytes : Z) (r : request) : verdict :=
  let r := set_ctx r (mkCtx (Some maxBytes) true) in
  if maxBytes <? ContentLength r
  then Deny 413 ("Request payload exceeds limit of " +:+ FormatInt maxBytes +:+ " bytes")
  else Next (set_body r (max_bytes_reader maxBytes <$> r_body r)).

(** A middleware inside another. *)
Definition and_then (v : verdict) (f : request -> verdict) : verdict :=
  match v with Next r => f r | Deny s m => Deny s m end.

(** The engine of main.go: the firewall is mounted on the engine, the limit
    on the group of the upload routes, inside it. *)
Definition drive_waf_limit : Z := 50 * 1024 * 1024.
Definition drive_upload (r : request) : verdict :=
  and_then (WAFWithConfigPtr drive_waf_limit r) (RouteLimit (50 * 1024 * 1024)).

(** ** Security headers *)

Record HeaderConfig := mkHC {
  XSSProtection : string;
  ContentTypeOptions : string;
  FrameOptions : string;
  ContentSecurityPolicy : string;
  StrictTransportSecurity : string;
  EnableCSPNonce : bool;
  ReferrerPolicy : string
}.

Fixpoint ReplaceAll_from (fuel : nat) (old new s : string) : string :=
  match fuel with
  | O => s
  | S n =>
      if HasPrefix s old then new +:+ ReplaceAll_from n old new (drop_str (String.length old) s)
      else match s with String a s' => String a (ReplaceAll_from n old new s') | EmptyString => "" end
  end.

(** [strings.ReplaceAll] and [strings.Replace(.., 1)], of a text that is not
    empty. *)
Definition ReplaceAll (s old new : string) : string := ReplaceAll_from (S (String.length s)) old new s.

Fixpoint ReplaceFirst (s old new : string) : string :=
  if HasPrefix s old then new +:+ drop_str (String.length old) s
  else match s with String a s' => String a (ReplaceFirst s' old new) | EmptyString => "" end.

(** The policy with the nonce of 16 random bytes, [None] if there are none. *)
Definition policy_with (cfg : HeaderConfig) (nonce : option string) : string :=
  let csp := ContentSecurityPolicy cfg in
  match (if EnableCSPNonce cfg then nonce else None) with
  | None => csp
  | Some nonce =>
      let source := "script-src 'nonce-" +:+ nonce +:+ "'" in
      if str_contains csp "{NONCE}" then ReplaceAll csp "{NONCE}" nonce
      else if str_contains csp "script-src" then ReplaceFirst csp "script-src" source
      else if negb (String.eqb csp "") then csp +:+ "; " +:+ source
      else csp
  end.

Definition header_if (name value : string) : list (string * string) := if String.eqb value "" then [] else [(name, value)].

(** The headers set, in their order. *)
Definition SecureHeaders (cfg : HeaderConfig) (nonce : option string) : list (string * string) :=
  header_if "X-XSS-Protection" (XSSProtection cfg) ++
  header_if "X-Content-Type-Options" (ContentTypeOptions cfg) ++
  header_if "X-Frame-Options" (FrameOptions cfg) ++
  header_if "Strict-Transport-Security" (StrictTransportSecurity cfg) ++
  header_if "Referrer-Policy" (ReferrerPolicy cfg) ++
  header_if "Content-Security-Policy" (policy_with cfg nonce).

Definition DefaultHeaderConfig : HeaderConfig :=
  mkHC "1; mode=block" "nosniff" "SAMEORIGIN"
    "default-src 'self'; font-src 'self' data: https:; style-src 'self' 'unsafe-inline' https:; script-src 'self' 'unsafe-eval' https:; img-src 'self' data: blob: https:; connect-src 'self' ws: wss:;"
    "max-age=31536000; includeSubDomains" true "no-referrer-when-downgrade".

(** ** Tokens against forged requests: the exempt paths *)

Definition under_dir (path dir : string) : bool := String.eqb path dir || HasPrefix path (dir +:+ "/").

(** DefaultCSRFConfig *)
Definition default_csrf_skips (path : string) : bool :=
  if under_dir path "/docs" then true
  else if under_dir path "/api/files" || under_dir path "/api/folders" || under_dir path "/api/downloads" then false
  else under_dir path "/api" || HasPrefix path "/v1/" || HasPrefix path "/v2/" || HasPrefix path "/rest/".

(** The drive's own. *)
Definition drive_csrf_skips (path : string) : bool := under_dir path "/docs".

(** The routes main.go mounts behind it that change something; a segment that
    begins with a colon stands for any. *)
Definition drive_routes : list (string * list string) := [
  ("PATCH", ["api"; "files"; ":id"]); ("PATCH", ["api"; "files"; ":id"; "move"]); ("POST", ["api"; "files"; "move-batch"]);
  ("POST", ["api"; "folders"]); ("DELETE", ["api"; "folders"; ":id"]); ("PATCH", ["api"; "folders"; ":id"]);
  ("DELETE", ["api"; "files"; "trash"; "empty"]); ("DELETE", ["api"; "files"; ":id"]); ("POST", ["api"; "files"; ":id"; "restore"]);
  ("POST", ["api"; "files"; ":id"; "star"]); ("POST", ["api"; "vault"; "lock"]); ("POST", ["api"; "downloads"]);
  ("POST", ["api"; "downloads"; "batch"]); ("DELETE", ["api"; "downloads"; ":id"]); ("DELETE", ["api"; "downloads"; ":id"; "dismiss"]);
  ("POST", ["api"; "downloads"; "parse"]); ("POST", ["api"; "reconcile"; "tree-diff"]); ("POST", ["api"; "purge"]); ("POST", ["login"]);
  ("POST", ["upload"; "init"]); ("POST", ["upload"; "verify-pow"]); ("PUT", ["upload"; ":session_id"]); ("DELETE", ["upload"; ":session_id"])].

(** The path of a route with the parameters given. *)
Fixpoint route_path (segs : list string) (params : list string) : string :=
  match segs with
  | [] => ""
  | seg :: rest =>
      if HasPrefix seg ":"
      then match params with v :: params' => "/" +:+ v +:+ route_path rest params' | [] => "/" +:+ route_path rest [] end
      else "/" +:+ seg +:+ route_path rest params
  end.

(** ** Theorems about the firewall, the headers and the exempt paths (Waf) *)

(** ** Decoding undoes encodings *)

(** One layer of encoding: every character is written as it is, except the
    percent and plus signs, as a plus if it is a space, or as an escape. *)
Inductive layer : string -> string -> Prop :=
| layer_end : layer "" ""
| layer_plain a t s : a <> "%"%char -> a <> "+"%char -> layer t s -> layer (String a t) (String a s)
| layer_plus t s : layer t s -> layer (String " " t) (String "+" s)
| layer_escape a h l t s :
    isHex h = true -> isHex l = true -> byte_of_ascii a = 16 * unhex_digit h + unhex_digit l ->
    layer t s -> layer (String a t) (String "%" (String h (String l s))).

(** At most [n] layers. *)
Fixpoint layers (n : nat) (t s : string) : Prop :=
  t = s \/ match n with O => False | S n' => exists u, layers n' t u /\ layer u s end.

(** What decoding leaves alone. *)
Definition stable (t : string) : Prop := resilientQueryUnescape t = t.

Lemma unhex_digit_range c : isHex c = true -> 0 <= unhex_digit c < 16.
Proof. destruct c as [[] [] [] [] [] [] [] []]; vm_compute; intros; first [done|split; congruence]. Qed.

Lemma nibbles h l : 0 <= h < 16 -> 0 <= l < 16 -> Z.lor (Z.shiftl h 4) l = 16 * h + l.
Proof.
  intros Hh Hl. rewrite Z.shiftl_mul_pow2 by lia. change (2 ^ 4) with 16.
  cut (forallb (fun h => forallb (fun l => Z.lor (h * 16) l =? 16 * h + l) (map Z.of_nat (seq 0 16))) (map Z.of_nat (seq 0 16)) = true).
  - rewrite List.forallb_forall. intros Hf. specialize (Hf h). rewrite List.forallb_forall in Hf. apply Z.eqb_eq.
    apply Hf; apply in_map_iff; [exists (Z.to_nat h)|exists (Z.to_nat l)]; (split; [lia|apply in_seq; lia]).
  - vm_compute. reflexivity.
Qed.

Lemma unescape_layer t s : layer t s -> resilientQueryUnescape s = t.
Proof.
  induction 1 as [|a t s Hp Hq _ IH|t s _ IH|a h l t s Hh Hl Ha _ IH]; cbn; [done| |by rewrite IH|].
  - destruct (Ascii.eqb_spec a "%"); [done|]. destruct (Ascii.eqb_spec a "+"); [done|]. by rewrite IH.
  - rewrite Hh, Hl, IH. cbn. f_equal. rewrite nibbles by (by apply unhex_digit_range). by rewrite <- Ha, ascii_byte_id.
Qed.

Lemma layers_stable n t s : stable t -> layers n t s -> stable s -> s = t.
Proof.
  revert s. induction n as [|n IH]; intros s Ht; cbn; [by intros [->|[]]|].
  intros [->|(u & Hu & Hl)] Hs; [done|]. apply unescape_layer in Hl. unfold stable in Hs. rewrite Hs in Hl. subst u.
  by apply IH.
Qed.

Lemma rounds_layers n t s : stable t -> layers n t s -> unescape_rounds n s = t.
Proof.
  revert s. induction n as [|n IH]; intros s Ht Hl; cbn; [by destruct Hl as [->|[]]|].
  destruct (String.eqb_spec (resilientQueryUnescape s) s) as [Hs|Hs].
  - by apply (layers_stable (S n)).
  - destruct Hl as [->|(u & Hu & Hl)]; [by destruct Hs|]. apply unescape_layer in Hl. rewrite Hl. by apply IH.
Qed.

(** ** What counts as an attack *)

(** Markup as such, SQL also where its comments are cut out or are spaces. *)
Definition attack (t : string) : Prop :=
  Exists (fun p => Occurs p None t) xssPatterns \/
  Exists (fun p => Occurs p None t \/ Occurs p None (without_comments " " t) \/ Occurs p None (without_comments "" t)) sqliPatterns.

Lemma existsb_Exists {A} (f : A -> bool) (Q : A -> Prop) l :
  (forall x, f x = true <-> Q x) -> existsb f l = true <-> Exists Q l.
Proof.
  intros Hf. rewrite Exists_exists. setoid_rewrite list_elem_of_In. rewrite existsb_exists. by setoid_rewrite Hf.
Qed.

Lemma isMalicious_spec s : isMalicious s = true <-> attack (recursiveQueryUnescape s).
Proof.
  unfold isMalicious. destruct (String.eqb_spec s "") as [->|_].
  - split; [done|]. unfold attack. rewrite <- (existsb_Exists (fun p => MatchString p "")) by (intros; apply occurs_spec).
    rewrite <- (existsb_Exists (fun p => MatchString p "" ||| MatchString p "" ||| MatchString p "")).
    + intros [He|He]; vm_compute in He; discriminate.
    + intros p. rewrite !lazy_or. unfold MatchString. rewrite !occurs_spec. tauto.
  - rewrite lazy_or. unfold attack. cbv zeta. f_equiv; apply existsb_Exists; intros p; rewrite ?lazy_or;
      unfold MatchString; rewrite !occurs_spec; tauto.
Qed.

Lemma layered_attack t s : stable t -> layers 5 t s -> isMalicious s = true <-> attack t.
Proof. intros Ht Hl. rewrite isMalicious_spec. unfold recursiveQueryUnescape. by rewrite (rounds_layers 5 t s Ht Hl). Qed.

(** ** The decision on a request *)

Definition limit (cfg : Z) (r : request) : Z := waf_override r (waf_limit cfg).

(** Bodies that go by uninspected. *)
Definition exempt (r : request) : bool :=
  ztatic_upload_route (r_ctx r) || isMultipart r || isOctetStream r || (HasPrefix (r_path r) "/upload/" || String.eqb (r_path r) "/upload").

(** The body that is inspected, if one is. *)
Definition inspected (r : request) : option body :=
  match r_body r with
  | Some b => if (ContentLength r =? 0) || exempt r then None else Some b
  | None => None
  end.

Lemma waf_limit_pos cfg r : 0 < limit cfg r.
Proof.
  unfold limit, waf_override, waf_limit, maxWAFBodySize. destruct (ztatic_upload_max_body _) as [o|]; [|by destruct (Z.leb_spec cfg 0)].
  destruct (Z.ltb_spec 0 o); [done|]. by destruct (Z.leb_spec cfg 0).
Qed.

Lemma waf_unfold cfg r :
  WAFWithConfigPtr cfg r =
    if isMalicious (r_uri r) then Deny 403 violation
    else match inspected r with
         | None => Next r
         | Some b => if limit cfg r <? ContentLength r then Deny 413 too_large else inspect_body (limit cfg r) r b
         end.
Proof.
  unfold WAFWithConfigPtr, inspected, exempt. destruct (isMalicious _); [done|]. destruct (r_body r) as [b|]; [|done].
  destruct (ContentLength r =? 0); [done|]. cbn [orb]. by destruct (ztatic_upload_route _ || _ || _ || _).
Qed.

Lemma set_body_same r b : r_body r = Some b -> set_body r (Some b) = r.
Proof. destruct r; cbn. by intros ->. Qed.

Lemma inspected_body r b : inspected r = Some b -> r_body r = Some b.
Proof. unfold inspected. destruct (r_body r); [|done]. by destruct (_ || _). Qed.

(** Whatever the firewall lets in has been read up to the limit: it arrives
    as it came, or reading it failed. *)
Lemma inspect_body_cases m r b : r_body r = Some b -> 0 < m < max_int64 ->
  inspect_body m r b =
    match (if zlen (b_data b) <=? m then b_err b else None) with
    | Some _ => Next (set_body r (Some (mkBody [] (b_err b))))
    | None => if m <? zlen (b_data b) then Deny 413 too_large
              else if (0 <? zlen (b_data b)) && isMalicious (string_of_bytes (b_data b)) then Deny 403 violation
              else Next r
    end.
Proof.
  intros Hb Hm. unfold inspect_body, read_up_to. rewrite i64_id by (unfold in_i64, max_int64 in *; lia).
  destruct (Z.leb_spec (m + 1) 0); [lia|]. rewrite zlen_ztake. pose proof (zlen_nonneg (b_data b)) as Hn.
  destruct (Z.leb_spec (zlen (b_data b)) m) as [Hle|Hgt].
  - rewrite ztake_all, zdrop_all by lia. destruct (Z.ltb_spec (Z.min (Z.max 0 (m + 1)) (zlen (b_data b))) (m + 1)); [|lia].
    destruct (b_err b) as [er|] eqn:He; [done|]. destruct (Z.ltb_spec m (zlen (b_data b))); [lia|]. cbn [b_data].
    rewrite app_nil_r. destruct (_ && _); [done|]. f_equal. cbn [b_err]. apply set_body_same. rewrite Hb. destruct b; cbn in *. by subst.
  - destruct (Z.ltb_spec (Z.min (Z.max 0 (m + 1)) (zlen (b_data b))) (m + 1)); [lia|]. rewrite zlen_ztake.
    destruct (Z.ltb_spec m (Z.min (Z.max 0 (m + 1)) (zlen (b_data b)))); [|lia]. by destruct (Z.ltb_spec m (zlen (b_data b))); [|lia].
Qed.

(** C30: The firewall's decision.  For a request whose body can be read it is
    one of three: the request is passed on unchanged and neither its URI nor
    an inspected body holds an attack; it is refused as a violation and one
    of them does; it is refused as too large and the inspected body is longer
    than the limit.  The text an attack is looked for in is the plain one
    under at most five layers of URL encoding, however each character was
    written in each layer. *)
Theorem waf_decides cfg r :
  limit cfg r < max_int64 -> (forall b, r_body r = Some b -> b_err b = None) ->
  let uri := recursiveQueryUnescape (r_uri r) in
  let text b := recursiveQueryUnescape (string_of_bytes (b_data b)) in
  (match WAFWithConfigPtr cfg r with
   | Next r' => r' = r /\ ~ attack uri /\
       (forall b, inspected r = Some b -> ~ attack (text b) /\ zlen (b_data b) <= limit cfg r /\ ContentLength r <= limit cfg r)
   | Deny 403 _ => attack uri \/ exists b, inspected r = Some b /\ attack (text b)
   | Deny 413 _ => exists b, inspected r = Some b /\ (limit cfg r < ContentLength r \/ limit cfg r < zlen (b_data b))
   | Deny _ _ => False
   end) /\
  forall t s, stable t -> layers 5 t s -> recursiveQueryUnescape s = t.
Proof.
  intros Hlim Herr uri text. split; [|intros t s; unfold recursiveQueryUnescape; apply rounds_layers].
  rewrite waf_unfold. pose proof (isMalicious_spec (r_uri r)) as Hu. destruct (isMalicious (r_uri r)); [left; by apply Hu|].
  assert (~ attack uri) as Hna by (intros Ha; by apply Hu in Ha).
  destruct (inspected r) as [b|] eqn:Hi; [|by repeat split]. pose proof (inspected_body _ _ Hi) as Hb.
  destruct (Z.ltb_spec (limit cfg r) (ContentLength r)) as [Hc|Hc]; [eauto|].
  rewrite (inspect_body_cases _ _ _ Hb (conj (waf_limit_pos cfg r) Hlim)), (Herr _ Hb).
  replace (if zlen (b_data b) <=? limit cfg r then None else None) with (@None gerror) by by destruct (_ <=? _).
  destruct (Z.ltb_spec (limit cfg r) (zlen (b_data b))) as [Hz|Hz]; [eauto|].
  pose proof (isMalicious_spec (string_of_bytes (b_data b))) as Hs.
  destruct (isMalicious (string_of_bytes (b_data b))) eqn:Hm; [|rewrite andb_false_r; split_and!; [done|done|]].
  - assert (0 < zlen (b_data b)) as Hp.
    { destruct (b_data b); [vm_compute in Hm; discriminate|]. rewrite zlen_cons. pose proof (zlen_nonneg l). lia. }
    destruct (Z.ltb_spec 0 (zlen (b_data b))); [|lia]. cbn. right. exists b. split; [done|]. by apply Hs.
  - intros b' [= <-]. split_and!; [|done|done]. intros Ha. by apply Hs in Ha.
Qed.

Definition plain_ctx : context := mkCtx None false.

(** Two layers around a script, and a body that is none of the firewall's
    business. *)
Definition a_script : string := "/?q=<script>".
Definition a_script_encoded : string := "/?q=%253Cscr%69pt%3E".
Definition a_request (uri body : string) : request :=
  mkReq uri "/api/files" (slen body) "application/json" (Some (mkBody (bytes_of_string body) None)) plain_ctx.

Lemma a_script_layers : layers 5 a_script a_script_encoded.
Proof.
  right. exists "/?q=%3Cscript>". split; [right; exists a_script; split; [by left|]|]; unfold a_script;
    repeat first [apply layer_end | apply layer_plain; [done|done|] | apply layer_escape; [done|done|vm_compute; reflexivity|]].
Qed.

Example waf_decides_witness :
  (exists msg, WAFWithConfigPtr drive_waf_limit (a_request a_script_encoded "") = Deny 403 msg) /\
  WAFWithConfigPtr drive_waf_limit (a_request "/api/files" "{}") = Next (a_request "/api/files" "{}") /\
  recursiveQueryUnescape a_script_encoded = a_script.
Proof.
  split; [exists violation; vm_compute; reflexivity|].
  assert (forall b, r_body (a_request "/api/files" "{}") = Some b -> b_err b = None) as Hr by (by intros b [= <-]).
  pose proof (waf_decides drive_waf_limit (a_request "/api/files" "{}") ltac:(vm_compute; reflexivity) Hr) as [_ Hd].
  split; [vm_compute; reflexivity|]. exact (Hd a_script a_script_encoded ltac:(vm_compute; reflexivity) a_script_layers).
Defined.

(** ** Where the firewall does not look *)

(** A body that cannot be read to its end is passed on as it remains, which is
    empty, and was not inspected. *)
Theorem unreadable_body_passes cfg r b er :
  limit cfg r < max_int64 -> isMalicious (r_uri r) = false -> inspected r = Some b -> b_err b = Some er ->
  ContentLength r <= limit cfg r -> zlen (b_data b) <= limit cfg r ->
  WAFWithConfigPtr cfg r = Next (set_body r (Some (mkBody [] (Some er)))).
Proof.
  intros Hlim Hu Hi He Hc Hz. rewrite waf_unfold, Hu, Hi. destruct (Z.ltb_spec (limit cfg r) (ContentLength r)); [lia|].
  rewrite (inspect_body_cases _ _ _ (inspected_body _ _ Hi) (conj (waf_limit_pos cfg r) Hlim)).
  destruct (Z.leb_spec (zlen (b_data b)) (limit cfg r)); [|lia]. by rewrite He.
Qed.

(** The boundary behind the bracket needs a letter or a digit there. *)
Example spaced_sleep_passes :
  isMalicious "/q?id=1%20or%20sleep(5)" = true /\ isMalicious "/q?id=1%20or%20sleep(%205)" = false /\
  isMalicious "/q?id=1%20or%20pg_sleep('5')" = false.
Proof. vm_compute. by split_and!. Qed.

(** WAFWithConfig: the limit of one upload is that of all later requests. *)
Theorem limit_of_one_upload_stays m o r rs b :
  isMalicious (r_uri r) = false -> r_body r = Some b -> ContentLength r <> 0 ->
  ztatic_upload_max_body (r_ctx r) = Some o -> 0 < o ->
  WAFWithConfig m (r :: rs) = snd (waf m r) :: WAFWithConfig o rs.
Proof.
  intros Hu Hb Hc Ho Hpos. cbn [WAFWithConfig]. unfold waf, waf_override. rewrite Hu, Hb, Ho.
  destruct (Z.eqb_spec (ContentLength r) 0); [done|]. by destruct (Z.ltb_spec 0 o); [|lia].
Qed.

(** The limit of an upload route is set inside the firewall, which has decided
    by then: a body between the two limits is refused although the route
    allows it. *)
Theorem route_limit_comes_too_late cfg n r :
  r_ctx r = plain_ctx -> isMalicious (r_uri r) = false -> inspected r <> None ->
  waf_limit cfg < ContentLength r <= n ->
  and_then (WAFWithConfigPtr cfg r) (RouteLimit n) = Deny 413 too_large /\
  exists r', RouteLimit n r = Next r'.
Proof.
  intros Hctx Hu Hi Hc. rewrite waf_unfold, Hu. destruct (inspected r) as [b|]; [|done]. unfold limit, waf_override. rewrite Hctx. cbn.
  destruct (Z.ltb_spec (waf_limit cfg) (ContentLength r)); [|lia]. split; [done|].
  unfold RouteLimit. cbn. destruct (Z.ltb_spec n (ContentLength r)); [lia|]. eauto.
Qed.

Lemma max_bytes_len n b : 0 <= n -> zlen (b_data (max_bytes_reader n b)) <= n.
Proof.
  intros Hn. unfold max_bytes_reader. destruct (Z.leb_spec (zlen (b_data b)) n); [done|]. cbn [b_data]. rewrite zlen_ztake. lia.
Qed.

(** The uploads of the drive: a chunk that reaches its handler is not longer
    than 50 MB and is what was sent, and no chunk is refused for what is in
    it. *)
Theorem drive_chunks_are_bounded r b : r_body r = Some b -> HasPrefix (r_path r) "/upload/" = true ->
  match drive_upload r with
  | Next r' => exists b', r_body r' = Some b' /\ zlen (b_data b') <= drive_waf_limit /\
                 b_data b' `prefix_of` b_data b /\ (b_err b' = None -> b' = b)
  | Deny 403 _ => isMalicious (r_uri r) = true
  | Deny _ _ => drive_waf_limit < ContentLength r
  end.
Proof.
  intros Hb Hp. unfold drive_upload. rewrite waf_unfold. unfold inspected, exempt. rewrite Hb, Hp, !orb_true_r.
  destruct (isMalicious _); [done|]. cbn [and_then]. unfold RouteLimit, drive_waf_limit. cbn [ContentLength set_ctx r_body].
  destruct (Z.ltb_spec (50 * 1024 * 1024) (ContentLength r)); [done|]. rewrite Hb. cbn.
  eexists. split; [done|]. split; [by apply max_bytes_len|].
  unfold max_bytes_reader. destruct (Z.leb_spec (zlen (b_data b)) (50 * 1024 * 1024)) as [Hle|Hle]; [by split|].
  cbn [b_data b_err]. split; [|done]. exists (zdrop (50 * 1024 * 1024) (b_data b)). by rewrite ztake_zdrop.
Qed.

Example drive_chunks_are_bounded_witness :
  let b := mkBody (bytes_of_string "<script>") None in
  let r := mkReq "/upload/s1" "/upload/s1" (-1) "application/json" (Some b) plain_ctx in
  exists r', drive_upload r = Next r' /\ r_body r' = Some b.
Proof.
  cbv zeta. set (b := mkBody _ _). set (r := mkReq _ _ _ _ _ _).
  pose proof (drive_chunks_are_bounded r b eq_refl eq_refl) as H.
  assert (exists r', drive_upload r = Next r' /\ r_body r' = Some b) as Hr by (eexists; split; vm_compute; reflexivity).
  destruct Hr as (r' & Hr & Hb). rewrite Hr in H. exists r'. split; [exact Hr|].
  destruct H as (b' & Hb' & _ & _ & He). rewrite Hb' in *. exact Hb.
Defined.

(** ** Headers *)

(** The default policy admits the scripts that carry the nonce, and eval. *)
Theorem default_policy nonce :
  policy_with DefaultHeaderConfig (Some nonce) =
    "default-src 'self'; font-src 'self' data: https:; style-src 'self' 'unsafe-inline' https:; script-src 'nonce-"
    +:+ nonce +:+ "' 'self' 'unsafe-eval' https:; img-src 'self' data: blob: https:; connect-src 'self' ws: wss:;".
Proof.
  exact (f_equal (fun t =>
    "default-src 'self'; font-src 'self' data: https:; style-src 'self' 'unsafe-inline' https:; script-src 'nonce-" +:+ t)
    (str_app_assoc nonce "'" " 'self' 'unsafe-eval' https:; img-src 'self' data: blob: https:; connect-src 'self' ws: wss:;")).
Qed.

(** A directive whose name only begins like the one for scripts is torn. *)
Example longer_directive_is_torn :
  policy_with (mkHC "" "" "" "script-src-elem 'self'" "" true "") (Some "n") = "script-src 'nonce-n'-elem 'self'".
Proof. reflexivity. Qed.

(** ** Tokens *)

(** Every route of the drive that changes something asks for the token,
    whatever its parameters are. *)
Theorem drive_routes_are_checked route params : route ∈ drive_routes -> drive_csrf_skips (route_path (snd route) params) = false.
Proof.
  revert route. unfold drive_routes.
  apply (Forall_forall (fun route => drive_csrf_skips (route_path (snd route) params) = false)).
  repeat (apply Forall_cons; split; [reflexivity|]). by apply Forall_nil.
Qed.

Example drive_routes_are_checked_witness : drive_csrf_skips "/api/files/../docs/x" = false.
Proof. exact (drive_routes_are_checked ("DELETE", ["api"; "files"; ":id"]) ["../docs/x"] ltac:(vm_compute; set_solver)). Defined.

(** The framework's own default leaves the ones beside files, folders and
    downloads without it. *)
Example default_skips_purge :
  default_csrf_skips "/api/purge" = true /\ default_csrf_skips "/api/vault/lock" = true /\ default_csrf_skips "/api/files/7" = false.
Proof. done. Qed.
