(* ===== verification/Realtime.v ===== *)
(** * Messages to open pages (realtime, fullstack/turbo.go)

    The broker in memory (broker.go) with its channels, publishing both as
    one operation and as the separate steps that run beside those of other
    goroutines; the fragment that is published (turbo.go); the handlers that
    write messages to a page, as server-sent events (sse.go) and over a web
    socket (websocket.go), as loops over what their [select] is woken by;
    and who may listen to what in the drive (cmd/hornetz/main.go).
    Components are rendered by an argument. *)

From S2P Require Import Prelude GoStrings GoURL NetGuard Svg.

#[local] Open Scope go_scope.
#[local] Open Scope string_scope.
#[local] Open Scope list_scope.
#[local] Open Scope Z_scope.

(** ** Fragments *)

Record TurboStreamItem := mkItem { Action : string; Target : string; Component : option (result string) }.

(** The component of an item stands for what rendering it gives. *)
Definition RenderStreamToString (stream : TurboStreamItem) : result string :=
  let q := String (ascii_of_byte 34) "" in
  let open_ := "<turbo-stream action=" +:+ q +:+ EscapeString (Action stream) +:+ q +:+ " target=" +:+ q
               +:+ EscapeString (Target stream) +:+ q +:+ "><template>" in
  let? inner := match Component stream with None => Ok "" | Some r => r end in
  Ok (open_ +:+ inner +:+ "</template></turbo-stream>").

(** ** The broker *)

Definition ErrTopicEmpty : gerror := ErrMsg "ztatic/realtime: topic cannot be empty".

(** A channel: its capacity, what is in its buffer, whether it is closed. *)
Record channel := mkChan { c_cap : nat; c_buf : list string; c_closed : bool }.

(** Channels are named in the order in which they are made. *)
Record broker := mkBroker { subscribers : gmap string (gset nat); chans : gmap nat channel; next_chan : nat }.

Definition NewMemoryBroker : broker := mkBroker ∅ ∅ 0.

Definition make_chan (c : channel) (b : broker) : broker * nat :=
  (mkBroker (subscribers b) (<[next_chan b := c]> (chans b)) (S (next_chan b)), next_chan b).

Definition Subscribe (topic : string) (b : broker) : broker * nat :=
  if String.eqb topic "" then make_chan (mkChan 0 [] true) b
  else
    let '(b, ch) := make_chan (mkChan 64 [] false) b in
    (mkBroker (<[topic := {[ch]} ∪ default ∅ (subscribers b !! topic)]> (subscribers b)) (chans b) (next_chan b), ch).

(** The function Subscribe returns; that of the empty topic does nothing. *)
Definition unsubscribe (topic : string) (ch : nat) (b : broker) : broker :=
  if String.eqb topic "" then b
  else
    match subscribers b !! topic with
    | None => b
    | Some subs =>
        let subs := subs ∖ {[ch]} in
        mkBroker (if bool_decide (subs = ∅) then delete topic (subscribers b) else <[topic := subs]> (subscribers b))
          (chans b) (next_chan b)
    end.

(** A send that does not wait: on a closed channel it panics, on a full one it
    is given up. *)
Inductive sent := Sent (b : broker) | Full | SendPanic.

Definition try_send (msg : string) (ch : nat) (b : broker) : sent :=
  match chans b !! ch with
  | None => Full
  | Some c =>
      if c_closed c then SendPanic
      else if (length (c_buf c) <? c_cap c)%nat
      then Sent (mkBroker (subscribers b) (<[ch := mkChan (c_cap c) (c_buf c ++ [msg]) false]> (chans b)) (next_chan b))
      else Full
  end.

(** The channels Publish sends to, as it has copied them under the lock. *)
Definition snapshot (topic : string) (b : broker) : list nat := elements (default ∅ (subscribers b !! topic)).

Definition send_to (msg : string) (b : broker) (ch : nat) : broker :=
  match try_send msg ch b with Sent b' => b' | Full | SendPanic => b end.

Definition Publish (topic : string) (item : TurboStreamItem) (b : broker) : broker * option gerror :=
  if String.eqb topic "" then (b, Some ErrTopicEmpty)
  else
    match RenderStreamToString item with
    | Err er => (b, Some er)
    | Ok htmlFragment => (foldl (send_to htmlFragment) b (snapshot topic b), None)
    end.

(** The head of a channel: a message, the end, or nothing yet. *)
Inductive recv_result := Got (msg : string) | Ended | Nothing.

Definition receive (ch : nat) (b : broker) : broker * recv_result :=
  match chans b !! ch with
  | Some (mkChan cap (m :: rest) closed) =>
      (mkBroker (subscribers b) (<[ch := mkChan cap rest closed]> (chans b)) (next_chan b), Got m)
  | Some (mkChan _ [] true) => (b, Ended)
  | _ => (b, Nothing)
  end.

(** ** Goroutines beside each other

    A publisher holds the lock only while it copies the channels; then it
    sends to one after the other, in the order of a map.  [p_left] are those
    still to be sent to. *)
Record publisher := mkPub { p_topic : string; p_msg : string; p_left : gset nat }.

Record machine := mkMachine { m_broker : broker; m_pubs : list publisher; m_panic : bool }.

Inductive event :=
| ESubscribe (topic : string)
| EUnsubscribe (topic : string) (ch : nat)
| EPublish (topic : string) (item : TurboStreamItem)
| ESend (i : nat) (ch : nat)
| EReceive (ch : nat).

Definition with_broker (m : machine) (b : broker) : machine := mkMachine b (m_pubs m) (m_panic m).

(** What cannot happen in a state changes nothing. *)
Definition step (m : machine) (e : event) : machine :=
  match e with
  | ESubscribe topic => with_broker m (fst (Subscribe topic (m_broker m)))
  | EUnsubscribe topic ch => with_broker m (unsubscribe topic ch (m_broker m))
  | EPublish topic item =>
      if String.eqb topic "" then m
      else
        match RenderStreamToString item with
        | Err _ => m
        | Ok msg => mkMachine (m_broker m) (m_pubs m ++ [mkPub topic msg (list_to_set (snapshot topic (m_broker m)))]) (m_panic m)
        end
  | ESend i ch =>
      match m_pubs m !! i with
      | Some p =>
          if bool_decide (ch ∈ p_left p) then
            let pubs := <[i := mkPub (p_topic p) (p_msg p) (p_left p ∖ {[ch]})]> (m_pubs m) in
            match try_send (p_msg p) ch (m_broker m) with
            | Sent b => mkMachine b pubs (m_panic m)
            | Full => mkMachine (m_broker m) pubs (m_panic m)
            | SendPanic => mkMachine (m_broker m) pubs true
            end
          else m
      | None => m
      end
  | EReceive ch => with_broker m (fst (receive ch (m_broker m)))
  end.

Definition run : machine -> list event -> machine := foldl step.
Definition start : machine := mkMachine NewMemoryBroker [] false.

(** ** Server-sent events *)

Definition nl : string := String newline "".

Definition sse_frame (msg : string) : string :=
  "event: message" +:+ nl +:+ foldr (fun line rest => "data: " +:+ line +:+ nl +:+ rest) nl (split_on newline msg).

Definition keepalive : string := ": keepalive" +:+ nl +:+ nl.

(** What the loop is woken by. *)
Inductive wake := Done | Tick | Stream (msg : option string).

(** What the loop writes, until the client is gone, a write fails, or the
    stream ends; [fails n] if the write after [n] others does. *)
Fixpoint sse_loop (fails : nat -> bool) (n : nat) (ws : list wake) : list string :=
  match ws with
  | [] | Done :: _ | Stream None :: _ => []
  | Tick :: ws' => if fails n then [] else keepalive :: sse_loop fails (S n) ws'
  | Stream (Some msg) :: ws' => if fails n then [] else sse_frame msg :: sse_loop fails (S n) ws'
  end.

(** The answer to a request for events, and the subscription it holds. *)
Inductive sse_start := SseError (status : Z) (msg : string) | Streaming (b : broker) (ch : nat).

Definition AuthorizedSSEHandler (authorizer : option (string -> bool)) (topic : string) (b : broker) : sse_start :=
  if String.eqb topic "" then SseError 400 "Missing 'topic' query parameter"
  else if match authorizer with Some f => negb (f topic) | None => false end
  then SseError 403 "Forbidden: unauthorized topic subscription"
  else let '(b, ch) := Subscribe topic b in Streaming b ch.

Definition SSEHandler : string -> broker -> sse_start := AuthorizedSSEHandler None.

(** ** The drive's topics *)

Definition nest_topic (userID : Z) : string := "nest:user_" +:+ FormatInt userID.

Definition sseAuthorizer (userID : Z) (topic : string) : bool :=
  if HasPrefix topic "nest:user_" then String.eqb topic (nest_topic userID) else true.

(** [app.GET("/sse", ...)] for a user that is signed in. *)
Definition drive_sse (userID : Z) (topic : string) (b : broker) : sse_start :=
  AuthorizedSSEHandler (Some (sseAuthorizer userID)) topic b.

(** ** Web sockets *)

Definition DefaultCheckOrigin (origin host : string) : bool :=
  if String.eqb origin "" then true
  else match Parse origin with None => false | Some u => EqualFold (u_Host u) host end.

Definition check_allowed (AllowedOrigins : list string) (origin host : string) : bool :=
  if String.eqb origin "" then true
  else
    match Parse origin with
    | None => false
    | Some u =>
        EqualFold (u_Host u) host ||
        existsb (fun allowed => EqualFold (u_Host u) allowed || EqualFold origin allowed) AllowedOrigins
    end.

(** The check of the upgrader. *)
Definition checkOrigin (CheckOrigin : option (string -> string -> bool)) (AllowedOrigins : list string)
  : string -> string -> bool :=
  match CheckOrigin with
  | Some f => f
  | None => if (0 <? zlen AllowedOrigins) then check_allowed AllowedOrigins else DefaultCheckOrigin
  end.

Inductive ws_message := TextMessage (msg : string) | PingMessage | CloseMessage.

(** What the loop writes; an ended stream is told to the client. *)
Fixpoint ws_loop (fails : nat -> bool) (n : nat) (ws : list wake) : list ws_message :=
  match ws with
  | [] | Done :: _ => []
  | Tick :: ws' => if fails n then [] else PingMessage :: ws_loop fails (S n) ws'
  | Stream None :: _ => if fails n then [] else [CloseMessage]
  | Stream (Some msg) :: ws' => if fails n then [] else TextMessage msg :: ws_loop fails (S n) ws'
  end.

Inductive ws_start := WsError (status : Z) (msg : string) | WsStreaming (b : broker) (ch : nat).

(** The upgrader refuses an origin with 403; its other checks are left out. *)
Definition WebSocketHandler (check : string -> string -> bool) (origin host topic : string) (b : broker) : ws_start :=
  if String.eqb topic "" then WsError 400 "Missing 'topic' query parameter"
  else if negb (check origin host) then WsError 403 "websocket: request origin not allowed by Upgrader.CheckOrigin"
  else let '(b, ch) := Subscribe topic b in WsStreaming b ch.
