(* ===== verification/RealtimeProps.v ===== *)
(** * Theorems about messages to open pages (Realtime)

    Topics are kept apart under every interleaving of publishers, readers and
    clients that come and go, and no goroutine sends on a closed channel; a
    reader that keeps up misses nothing; a page reads from the stream of
    events what was published, if it has no carriage returns. *)

From S2P Require Import Prelude GoStrings GoURL NetGuard Svg Realtime.

#[local] Open Scope go_scope.
#[local] Open Scope string_scope.
#[local] Open Scope list_scope.
#[local] Open Scope Z_scope.

(** ** Topics are kept apart *)

(** The topics of the channels, in the order in which they were made. *)
Definition made (e : event) : option string := match e with ESubscribe topic => Some topic | _ => None end.
Definition topics (evs : list event) : list string := omap made evs.

Definition published (evs : list event) (topic msg : string) : Prop :=
  exists item, EPublish topic item ∈ evs /\ RenderStreamToString item = Ok msg.

(** A channel one may send to: open, of the topic, with room for 64. *)
Definition serves_topic (evs : list event) (cs : gmap nat channel) (topic : string) (ch : nat) : Prop :=
  topics evs !! ch = Some topic /\ exists buf, cs !! ch = Some (mkChan 64 buf false).

Definition chan_ok (evs : list event) (ch : nat) (c : channel) : Prop :=
  (length (c_buf c) <= c_cap c <= 64)%nat /\
  (forall msg, msg ∈ c_buf c -> exists topic, topics evs !! ch = Some topic /\ published evs topic msg).

Record machine_ok (evs : list event) (m : machine) : Prop := {
  ok_next : next_chan (m_broker m) = length (topics evs);
  ok_chans : map_Forall (chan_ok evs) (chans (m_broker m));
  ok_subs : map_Forall (fun topic subs => topic <> "" /\ set_Forall (serves_topic evs (chans (m_broker m)) topic) subs)
              (subscribers (m_broker m));
  ok_pubs : Forall (fun p => published evs (p_topic p) (p_msg p) /\
                             set_Forall (serves_topic evs (chans (m_broker m)) (p_topic p)) (p_left p)) (m_pubs m);
  ok_quiet : m_panic m = false;
  ok_below : forall ch, is_Some (chans (m_broker m) !! ch) -> (ch < next_chan (m_broker m))%nat
}.

Lemma published_more evs e topic msg : published evs topic msg -> published (evs ++ [e]) topic msg.
Proof. intros (item & Hi & Hr). exists item. split; [set_solver|done]. Qed.

Lemma topics_more evs e ch topic : topics evs !! ch = Some topic -> topics (evs ++ [e]) !! ch = Some topic.
Proof. unfold topics. rewrite omap_app. apply lookup_app_l_Some. Qed.

Lemma chan_ok_more evs e ch c : chan_ok evs ch c -> chan_ok (evs ++ [e]) ch c.
Proof.
  intros [Hl Hm]. split; [done|]. intros msg Hin. destruct (Hm msg Hin) as (topic & Ht & Hp).
  eauto using topics_more, published_more.
Qed.

Lemma serves_more evs e cs topic ch : serves_topic evs cs topic ch -> serves_topic (evs ++ [e]) cs topic ch.
Proof. intros [Ht Hc]. split; [by apply topics_more|done]. Qed.

(** What holds of a state holds of it after any event that changes nothing. *)
Lemma machine_ok_more evs e m : made e = None -> machine_ok evs m -> machine_ok (evs ++ [e]) m.
Proof.
  intros He [H1 H2 H3 H4 H5 H6]. split; [| | | |done|done].
  - rewrite H1. unfold topics. rewrite omap_app. cbn. rewrite He. by rewrite app_nil_r.
  - eapply map_Forall_impl; [exact H2|]. intros. by apply chan_ok_more.
  - eapply map_Forall_impl; [exact H3|]. intros topic subs [Hn Hs]. split; [done|]. intros ch Hch. by apply serves_more, Hs.
  - eapply Forall_impl; [exact H4|]. intros p [Hp Hs]. split; [by apply published_more|]. intros ch Hch. by apply serves_more, Hs.
Qed.

(** Changing the contents of one open channel. *)
Lemma serves_update evs cs topic ch x buf : serves_topic evs cs topic ch ->
  serves_topic evs (<[x := mkChan 64 buf false]> cs) topic ch.
Proof.
  intros [Ht (b & Hc)]. split; [done|]. destruct (decide (x = ch)) as [->|Hne].
  - rewrite lookup_insert_eq. eauto.
  - rewrite lookup_insert_ne by done. eauto.
Qed.

Lemma machine_ok_update evs m ch buf b : machine_ok evs m ->
  chans (m_broker m) !! ch = Some (mkChan 64 b false) -> chan_ok evs ch (mkChan 64 buf false) ->
  machine_ok evs (with_broker m (mkBroker (subscribers (m_broker m)) (<[ch := mkChan 64 buf false]> (chans (m_broker m))) (next_chan (m_broker m)))).
Proof.
  intros [H1 H2 H3 H4 H5 H6] Hc Hok. split; cbn; [done|by apply map_Forall_insert_2| | |done|].
  - eapply map_Forall_impl; [exact H3|]. intros topic subs [Hn Hs]. split; [done|]. intros x Hx. by apply serves_update, Hs.
  - eapply Forall_impl; [exact H4|]. intros p [Hp Hs]. split; [done|]. intros x Hx. by apply serves_update, Hs.
  - intros x Hx. destruct (decide (ch = x)) as [->|Hne]; [by apply H6|]. rewrite lookup_insert_ne in Hx by done. by apply H6.
Qed.

Lemma machine_ok_pubs evs m pubs : machine_ok evs m ->
  Forall (fun p => published evs (p_topic p) (p_msg p) /\ set_Forall (serves_topic evs (chans (m_broker m)) (p_topic p)) (p_left p)) pubs ->
  machine_ok evs (mkMachine (m_broker m) pubs (m_panic m)).
Proof. intros [] Hp. by split. Qed.

Lemma snapshot_set topic b : list_to_set (snapshot topic b) =@{gset nat} default ∅ (subscribers b !! topic).
Proof. unfold snapshot. by rewrite list_to_set_elements_L. Qed.

Lemma topics_snoc evs topic : topics (evs ++ [ESubscribe topic]) = topics evs ++ [topic].
Proof. unfold topics. by rewrite omap_app. Qed.

Lemma next_is_new evs m : machine_ok evs m -> chans (m_broker m) !! next_chan (m_broker m) = None.
Proof. intros Hm. destruct (chans _ !! _) eqn:Hc; [|done]. pose proof (ok_below _ _ Hm _ (mk_is_Some _ _ Hc)). lia. Qed.

Lemma step_subscribe evs m topic : machine_ok evs m -> machine_ok (evs ++ [ESubscribe topic]) (step m (ESubscribe topic)).
Proof.
  intros Hm. pose proof (next_is_new _ _ Hm) as Hnew. destruct Hm as [H1 H2 H3 H4 H5 H6].
  set (n := next_chan (m_broker m)) in *.
  assert (forall c, chan_ok (evs ++ [ESubscribe topic]) n c -> map_Forall (chan_ok (evs ++ [ESubscribe topic])) (<[n := c]> (chans (m_broker m)))) as Hch.
  { intros c Hc. apply map_Forall_insert_2; [done|]. eapply map_Forall_impl; [exact H2|]. intros. by apply chan_ok_more. }
  assert (forall c t x, serves_topic evs (chans (m_broker m)) t x ->
            serves_topic (evs ++ [ESubscribe topic]) (<[n := c]> (chans (m_broker m))) t x) as Hse.
  { intros c t x [Ht (b & Hx)]. split; [by apply topics_more|]. rewrite lookup_insert_ne; [by exists b|]. intros <-. congruence. }
  assert (forall c, Forall (fun p => published (evs ++ [ESubscribe topic]) (p_topic p) (p_msg p) /\
      set_Forall (serves_topic (evs ++ [ESubscribe topic]) (<[n := c]> (chans (m_broker m))) (p_topic p)) (p_left p)) (m_pubs m)) as Hp.
  { intros c. eapply Forall_impl; [exact H4|]. intros p [Hp Hs]. split; [by apply published_more|]. intros x Hx. by apply Hse, Hs. }
  assert (forall c, chan_ok (evs ++ [ESubscribe topic]) n c -> c_buf c = [] -> True) as _ by done.
  assert (forall (c : channel) x, is_Some (<[n := c]> (chans (m_broker m)) !! x) -> (x < S n)%nat) as Hb.
  { intros c x Hx. destruct (decide (n = x)) as [->|Hne]; [lia|]. rewrite lookup_insert_ne in Hx by done. apply H6 in Hx. unfold n. lia. }
  assert (map_Forall (fun t subs => t <> "" /\ set_Forall (serves_topic (evs ++ [ESubscribe topic]) (<[n := mkChan 64 [] false]> (chans (m_broker m))) t) subs)
            (subscribers (m_broker m))) as Hs64.
  { eapply map_Forall_impl; [exact H3|]. intros t subs [Hn Hs]. split; [done|]. intros x Hx. by apply Hse, Hs. }
  cbn [step]. unfold Subscribe. destruct (String.eqb_spec topic "") as [->|Hne].
  - split; cbn; fold n; [by rewrite topics_snoc, length_app, H1; cbn; lia|apply Hch; by split; cbn; [lia|intros ? ?%not_elem_of_nil]| |apply Hp|done|apply Hb].
    eapply map_Forall_impl; [exact H3|]. intros t subs [Hn Hs]. split; [done|]. intros x Hx. by apply Hse, Hs.
  - split; cbn; fold n; [by rewrite topics_snoc, length_app, H1; cbn; lia|apply Hch; by split; cbn; [lia|intros ? ?%not_elem_of_nil]| |apply Hp|done|apply Hb].
    apply map_Forall_insert_2; [|exact Hs64]. split; [done|]. apply set_Forall_union.
    + apply set_Forall_singleton. split; [|rewrite lookup_insert_eq; eauto].
      rewrite topics_snoc. rewrite H1. by rewrite lookup_app_r, Nat.sub_diag by lia.
    + destruct (subscribers (m_broker m) !! topic) as [subs|] eqn:Hl; [|intros x Hx; cbn in Hx; set_solver]. by apply (Hs64 _ _ Hl).
Qed.

Lemma step_unsubscribe evs m topic ch : machine_ok evs m -> machine_ok evs (step m (EUnsubscribe topic ch)).
Proof.
  intros [H1 H2 H3 H4 H5 H6]. cbn [step]. unfold unsubscribe. destruct (String.eqb_spec topic ""); [by split|].
  destruct (subscribers _ !! topic) as [subs|] eqn:Hl; [|by split]. split; cbn; [done|done| |done|done|done].
  destruct (bool_decide _); [by apply map_Forall_delete|]. apply map_Forall_insert_2; [|done].
  split; [done|]. intros x Hx. destruct (H3 _ _ Hl) as [_ Hs]. apply Hs. set_solver.
Qed.

Lemma step_publish evs m topic item : machine_ok evs m ->
  machine_ok (evs ++ [EPublish topic item]) (step m (EPublish topic item)).
Proof.
  intros Hm. pose proof (machine_ok_more _ (EPublish topic item) _ eq_refl Hm) as Hm'. cbn [step].
  destruct (String.eqb_spec topic ""); [done|]. destruct (RenderStreamToString item) as [msg|er] eqn:Hr; [|done].
  apply machine_ok_pubs; [done|]. apply Forall_app. split; [by apply Hm'|]. apply Forall_singleton. cbn [p_topic p_msg p_left].
  split; [exists item; split; [set_solver|done]|]. rewrite snapshot_set.
  destruct (subscribers (m_broker m) !! topic) as [subs|] eqn:Hl; [|intros x Hx; cbn in Hx; set_solver].
  cbn. by apply (ok_subs _ _ Hm' _ _ Hl).
Qed.

Lemma step_send evs m i ch : machine_ok evs m -> machine_ok evs (step m (ESend i ch)).
Proof.
  intros Hm. cbn [step]. destruct (m_pubs m !! i) as [p|] eqn:Hi; [|done]. case_bool_decide as Hin; [|done].
  destruct (proj1 (Forall_lookup _ _) (ok_pubs _ _ Hm) _ _ Hi) as [Hpub Hleft].
  destruct (Hleft _ Hin) as [Htop (buf & Hc)].
  assert (machine_ok evs (mkMachine (m_broker m) (<[i := mkPub (p_topic p) (p_msg p) (p_left p ∖ {[ch]})]> (m_pubs m)) (m_panic m))) as Hm'.
  { apply machine_ok_pubs; [done|]. apply Forall_insert; [apply (ok_pubs _ _ Hm)|]. cbn [p_topic p_msg p_left]. split; [done|]. intros x Hx. apply Hleft. set_solver. }
  unfold try_send. rewrite Hc. cbn [c_closed c_buf c_cap]. destruct (Nat.ltb_spec (length buf) 64) as [Hlt|]; [|exact Hm'].
  refine (machine_ok_update evs _ ch (buf ++ [p_msg p]) buf Hm' Hc _). split; cbn [c_buf c_cap]; [rewrite length_app; cbn; lia|].
  destruct (ok_chans _ _ Hm _ _ Hc) as [_ Hmsgs]. intros msg [Hmsg|Hmsg]%elem_of_app; [by apply Hmsgs|].
  apply list_elem_of_singleton in Hmsg as ->. eauto.
Qed.

Lemma step_receive evs m ch : machine_ok evs m -> machine_ok evs (step m (EReceive ch)).
Proof.
  intros Hm. cbn [step]. unfold receive. destruct (chans (m_broker m) !! ch) as [c|] eqn:Hc; [|by destruct m].
  assert (machine_ok evs (with_broker m (m_broker m))) as Hs by by destruct m.
  destruct c as [cap [|msg rest] closed]; [by destruct closed|]. cbn [fst].
  destruct Hm as [H1 H2 H3 H4 H5 H6]. pose proof (H2 _ _ Hc) as [Hlen Hmsgs]. cbn [c_buf c_cap] in *.
  assert (forall t x, serves_topic evs (chans (m_broker m)) t x ->
            serves_topic evs (<[ch := mkChan cap rest closed]> (chans (m_broker m))) t x) as Hse.
  { intros t x [Ht (b & Hx)]. split; [done|]. destruct (decide (ch = x)) as [->|]; [|rewrite lookup_insert_ne by done; eauto].
    rewrite Hc in Hx. injection Hx as -> <- ->. rewrite lookup_insert_eq. eauto. }
  split; cbn; [done| | | |done|].
  - apply map_Forall_insert_2; [|done]. split; cbn [c_buf c_cap]; [cbn in Hlen; lia|]. intros x Hx. apply Hmsgs. by apply list_elem_of_further.
  - eapply map_Forall_impl; [exact H3|]. intros t subs [Hn Hsub]. split; [done|]. intros x Hx. by apply Hse, Hsub.
  - eapply Forall_impl; [exact H4|]. intros p [Hp Hsub]. split; [done|]. intros x Hx. by apply Hse, Hsub.
  - intros x Hx. destruct (decide (ch = x)) as [->|Hne]; [by apply H6|]. rewrite lookup_insert_ne in Hx by done. by apply H6.
Qed.

Lemma run_ok evs : machine_ok evs (run start evs).
Proof.
  induction evs as [|e evs IH] using rev_ind.
  - split; cbn; [done|apply map_Forall_empty|apply map_Forall_empty|by apply Forall_nil|done|]. intros ch [? Hc]. by rewrite lookup_empty in Hc.
  - unfold run. rewrite foldl_snoc. fold (run start evs). destruct e as [topic|topic ch|topic item|i ch|ch].
    + by apply step_subscribe.
    + by apply machine_ok_more, step_unsubscribe.
    + by apply step_publish.
    + by apply machine_ok_more, step_send.
    + by apply machine_ok_more, step_receive.
Qed.

Lemma nest_topic_inj u v : nest_topic u = nest_topic v -> u = v.
Proof.
  unfold nest_topic. intros He%app_inj_r. pose proof (parse_FormatInt u) as Hu. rewrite He, parse_FormatInt in Hu. congruence.
Qed.

(** C31: Messages stay in their topic.  Whatever publishers, readers and
    clients that come and go do, and in whatever order their steps run: no
    goroutine sends on a closed channel, no reader holds more than 64
    messages, and what a reader receives was published under the topic it
    subscribed to.  In the drive a user is let in to the topic of no other
    user, so a message for one user's pages reaches only that user. *)
Theorem messages_stay_in_topic evs ch :
  let m := run start evs in
  m_panic m = false /\
  (forall c, chans (m_broker m) !! ch = Some c -> (length (c_buf c) <= 64)%nat) /\
  (forall b msg, receive ch (m_broker m) = (b, Got msg) ->
     exists topic item, topics evs !! ch = Some topic /\ EPublish topic item ∈ evs /\ RenderStreamToString item = Ok msg) /\
  forall u v b b', drive_sse u (nest_topic v) b = Streaming b' ch <-> u = v /\ Subscribe (nest_topic v) b = (b', ch).
Proof.
  intros m. pose proof (run_ok evs) as Hm. fold m in Hm. split; [apply (ok_quiet _ _ Hm)|].
  split; [intros c Hc; destruct (ok_chans _ _ Hm _ _ Hc); lia|]. split.
  - intros b msg. unfold receive. destruct (chans (m_broker m) !! ch) as [[cap [|x rest] closed]|] eqn:Hc; [by destruct closed| |done].
    intros [= <- <-]. destruct (ok_chans _ _ Hm _ _ Hc) as [_ Hmsgs].
    destruct (Hmsgs x) as (topic & Ht & item & Hi & Hr); [cbn; set_solver|]. eauto.
  - intros u v b b'. unfold drive_sse, AuthorizedSSEHandler, sseAuthorizer.
    replace (HasPrefix (nest_topic v) "nest:user_") with true by (symmetry; apply HasPrefix_app).
    change (String.eqb (nest_topic v) "") with false. cbn iota. destruct (String.eqb_spec (nest_topic v) (nest_topic u)) as [He|Hne]; cbn [negb].
    + destruct (Subscribe (nest_topic v) b) as [b1 ch1]. apply nest_topic_inj in He.
      split; [intros [= <- <-]; done|intros [_ [= <- <-]]; done].
    + split; [done|]. intros [-> _]. done.
Qed.

Definition an_item (text : string) : TurboStreamItem := mkItem "update" "storage-refresh" (Some (Ok text)).
Definition some_traffic : list event :=
  [ESubscribe "nest:user_1"; ESubscribe "nest:user_2"; EPublish "nest:user_2" (an_item "<b>7</b>"); ESend 0 0; ESend 0 1].

Example messages_stay_in_topic_witness :
  let m := run start some_traffic in
  (exists topic item msg, EPublish topic item ∈ some_traffic /\ RenderStreamToString item = Ok msg /\ topics some_traffic !! 1%nat = Some topic /\
     snd (receive 1 (m_broker m)) = Got msg) /\
  snd (receive 0 (m_broker m)) = Nothing.
Proof.
  cbv zeta. split; [|vm_compute; reflexivity].
  destruct (messages_stay_in_topic some_traffic 1) as (_ & _ & Hget & _).
  destruct (receive 1 (m_broker (run start some_traffic))) as [b r] eqn:Hr.
  assert (exists msg, r = Got msg) as [msg ->] by (vm_compute in Hr; injection Hr as _ <-; eauto).
  destruct (Hget _ _ eq_refl) as (topic & item & Ht & Hi & Hm). exists topic, item, msg. exact (conj Hi (conj Hm (conj Ht eq_refl))).
Defined.

(** ** A reader that keeps up misses nothing *)

(** Operations that run one after the other. *)
Inductive op := OSubscribe (topic : string) | OUnsubscribe (topic : string) (ch : nat) | OPublish (topic : string) (item : TurboStreamItem)
              | OReceive (ch : nat).

(** The broker after an operation, and what a reader of [me] received. *)
Definition apply_op (me : nat) (b : broker) (o : op) : broker * list string :=
  match o with
  | OSubscribe topic => (fst (Subscribe topic b), [])
  | OUnsubscribe topic ch => (unsubscribe topic ch b, [])
  | OPublish topic item => (fst (Publish topic item b), [])
  | OReceive ch => let '(b, r) := receive ch b in (b, match r with Got msg => if Nat.eqb ch me then [msg] else [] | _ => [] end)
  end.

Fixpoint apply_all (me : nat) (b : broker) (os : list op) : broker * list string :=
  match os with
  | [] => (b, [])
  | o :: os' => let '(b1, got) := apply_op me b o in let '(b2, more) := apply_all me b1 os' in (b2, got ++ more)
  end.

(** What is published under a topic. *)
Definition to_topic (topic : string) (o : op) : list string :=
  match o with
  | OPublish t item => if String.eqb t topic then match RenderStreamToString item with Ok msg => [msg] | Err _ => [] end else []
  | _ => []
  end.
Definition all_published (topic : string) (os : list op) : list string := concat (map (to_topic topic) os).

Definition buffer (b : broker) (ch : nat) : list string := match chans b !! ch with Some c => c_buf c | None => [] end.

(** Open channels with room for 64, each of one topic. *)
Record broker_ok (b : broker) : Prop := {
  bo_subs : forall t subs ch, subscribers b !! t = Some subs -> ch ∈ subs ->
    exists buf, chans b !! ch = Some (mkChan 64 buf false) /\ (length buf <= 64)%nat;
  bo_one : forall t t' subs subs' ch, subscribers b !! t = Some subs -> subscribers b !! t' = Some subs' ->
    ch ∈ subs -> ch ∈ subs' -> t = t';
  bo_below : forall ch, is_Some (chans b !! ch) -> (ch < next_chan b)%nat;
  bo_named : subscribers b !! "" = None
}.

Definition listens (b : broker) (t : string) (ch : nat) : Prop := exists subs, subscribers b !! t = Some subs /\ ch ∈ subs.

Lemma send_to_subs msg b ch : subscribers (send_to msg b ch) = subscribers b /\ next_chan (send_to msg b ch) = next_chan b.
Proof.
  unfold send_to, try_send. destruct (chans b !! ch) as [c|]; [|done]. destruct (c_closed c); [done|]. by destruct (_ <? _)%nat.
Qed.

(** Sending to a channel once: its message joins the buffer if there is room. *)
Definition joined (buf : list string) (msg : string) : list string := if (length buf <? 64)%nat then buf ++ [msg] else buf.

Lemma joined_length buf msg : (length buf <= 64)%nat -> (length (joined buf msg) <= 64)%nat.
Proof. unfold joined. destruct (Nat.ltb_spec (length buf) 64); [|done]. rewrite length_app. cbn. lia. Qed.

Lemma send_to_chans msg b ch buf x : chans b !! ch = Some (mkChan 64 buf false) ->
  chans (send_to msg b ch) !! x = if decide (x = ch) then Some (mkChan 64 (joined buf msg) false) else chans b !! x.
Proof.
  intros Hc. unfold send_to, try_send, joined. rewrite Hc. cbn [c_closed c_buf c_cap].
  destruct (length buf <? 64)%nat; cbn; case_decide as Hx; subst; [by rewrite lookup_insert_eq|by rewrite lookup_insert_ne|done|done].
Qed.

Lemma send_all msg l : forall b, NoDup l -> (forall ch, ch ∈ l -> exists buf, chans b !! ch = Some (mkChan 64 buf false)) ->
  let b' := foldl (send_to msg) b l in
  subscribers b' = subscribers b /\ next_chan b' = next_chan b /\
  forall x, chans b' !! x = match chans b !! x with
                            | Some (mkChan cap buf closed) => Some (mkChan cap (if decide (x ∈ l) then joined buf msg else buf) closed)
                            | None => None end.
Proof.
  induction l as [|ch l IH]; intros b Hnd Hl; cbn [foldl].
  - split_and!; [done|done|]. intros x. destruct (chans b !! x) as [[]|]; [|done]. by rewrite decide_False by apply not_elem_of_nil.
  - apply NoDup_cons in Hnd as [Hnot Hnd]. destruct (Hl ch) as (buf & Hc); [set_solver|].
    pose proof (fun x => send_to_chans msg b ch buf x Hc) as Hs. destruct (send_to_subs msg b ch) as [H1 H2].
    destruct (IH (send_to msg b ch) Hnd) as (I1 & I2 & I3).
    { intros x Hx. rewrite Hs. case_decide; [eauto|]. apply Hl. set_solver. }
    rewrite I1, I2. split_and!; [done|done|]. intros x. rewrite I3, Hs. case_decide as Hx; [subst x|].
    + rewrite Hc. rewrite decide_False by done. by rewrite decide_True by set_solver.
    + destruct (chans b !! x) as [[cap bf cl]|]; [|done]. do 2 f_equal. destruct (decide (x ∈ l)); [by rewrite decide_True by set_solver|].
      by rewrite decide_False by set_solver.
Qed.

Lemma snapshot_elem t b ch : ch ∈ snapshot t b <-> listens b t ch.
Proof.
  unfold snapshot, listens. rewrite elem_of_elements. destruct (subscribers b !! t) as [s|]; cbn; [|set_solver].
  split; [eauto|]. by intros (? & [= <-] & ?).
Qed.

Lemma buffer_listens b topic me : broker_ok b -> listens b topic me ->
  chans b !! me = Some (mkChan 64 (buffer b me) false) /\ (length (buffer b me) <= 64)%nat /\ (me < next_chan b)%nat.
Proof.
  intros Hb (subs & Hs & Hin). destruct (bo_subs _ Hb _ _ _ Hs Hin) as (buf & Hc & Hl). unfold buffer. rewrite Hc.
  split_and!; [done|done|]. apply (bo_below _ Hb). by rewrite Hc.
Qed.

(** What an operation does for a listener. *)
Definition serves_well (topic : string) (me : nat) (b : broker) (o : op) (r : broker * list string) : Prop :=
  broker_ok (fst r) /\ listens (fst r) topic me /\
  exists kept, kept `sublist_of` to_topic topic o /\ ((length (buffer b me) < 64)%nat -> kept = to_topic topic o) /\
    snd r ++ buffer (fst r) me = buffer b me ++ kept.

Lemma serves_well_idle topic me b o b' : broker_ok b' -> listens b' topic me -> chans b' !! me = chans b !! me -> to_topic topic o = [] ->
  serves_well topic me b o (b', []).
Proof.
  intros Hb Hl Hc Ht. split; [done|]. split; [done|]. exists []. rewrite Ht, app_nil_r. split; [done|]. split; [done|].
  cbn. unfold buffer. by rewrite Hc.
Qed.

Lemma subscribe_serves topic me b t : broker_ok b -> listens b topic me ->
  serves_well topic me b (OSubscribe t) (fst (Subscribe t b), []).
Proof.
  intros Hb Hl. pose proof (buffer_listens _ _ _ Hb Hl) as (Hc & _ & Hlt).
  assert (forall c ch, ch <> next_chan b -> <[next_chan b := c]> (chans b) !! ch = chans b !! ch) as Hne by (intros; by rewrite lookup_insert_ne).
  assert (forall c ch, is_Some (<[next_chan b := c]> (chans b) !! ch) -> (ch < S (next_chan b))%nat) as Hbel.
  { intros c ch Hs. destruct (decide (ch = next_chan b)) as [->|Hn]; [lia|]. rewrite Hne in Hs by done. apply (bo_below _ Hb) in Hs. lia. }
  assert (forall s subs ch, subscribers b !! s = Some subs -> ch ∈ subs -> ch <> next_chan b) as Hold.
  { intros s subs ch Hs Hin ->. destruct (bo_subs _ Hb _ _ _ Hs Hin) as (buf & Hcn & _).
    pose proof (bo_below _ Hb _ (mk_is_Some _ _ Hcn)). lia. }
  unfold Subscribe. destruct (String.eqb_spec t "") as [->|Ht]; cbn.
  - apply serves_well_idle; [|done|cbn; apply Hne; lia|done]. split; cbn; [|by apply (bo_one _ Hb)|by apply Hbel|by apply (bo_named _ Hb)].
    intros s subs ch Hs Hin. rewrite Hne by by apply (Hold s subs). by apply (bo_subs _ Hb _ _ _ Hs Hin).
  - assert (forall s subs ch, <[t := {[next_chan b]} ∪ default ∅ (subscribers b !! t)]> (subscribers b) !! s = Some subs -> ch ∈ subs ->
              (ch = next_chan b /\ s = t) \/ (exists subs0, subscribers b !! s = Some subs0 /\ ch ∈ subs0)) as Hcase.
    { intros s subs ch [[<- <-]|[Hn Hs]]%lookup_insert_Some Hin; [|by right; eauto].
      apply elem_of_union in Hin as [->%elem_of_singleton|Hin]; [by left|]. right.
      destruct (subscribers b !! t) as [s0|]; [eauto|]. cbn in Hin. set_solver. }
    apply serves_well_idle; [|destruct Hl as (s0 & Hs0 & Hin0)|cbn; apply Hne; lia|done].
    + split; cbn; [| |by apply Hbel|by rewrite lookup_insert_ne by done; apply (bo_named _ Hb)].
      * intros s subs ch Hs Hin. destruct (Hcase _ _ _ Hs Hin) as [[-> _]|(s0 & Hs0 & Hin0)]; [rewrite lookup_insert_eq; exists []; cbn; split; [done|lia]|].
        rewrite Hne by by apply (Hold s s0). by apply (bo_subs _ Hb _ _ _ Hs0 Hin0).
      * intros s s' subs subs' ch Hs Hs' Hin Hin'. destruct (Hcase _ _ _ Hs Hin) as [[-> ->]|(s0 & Hs0 & Hin0)];
          destruct (Hcase _ _ _ Hs' Hin') as [[He ->]|(s1 & Hs1 & Hin1)]; [done| | |by eapply (bo_one _ Hb)].
        -- by destruct (Hold _ _ _ Hs1 Hin1).
        -- by destruct (Hold _ _ _ Hs0 Hin0).
    + destruct (decide (t = topic)) as [->|Hn]; [|exists s0; cbn; by rewrite lookup_insert_ne].
      eexists. cbn. rewrite lookup_insert_eq, Hs0. split; [done|]. set_solver.
Qed.

Lemma unsubscribe_serves topic me b t ch : broker_ok b -> listens b topic me -> OUnsubscribe t ch <> OUnsubscribe topic me ->
  serves_well topic me b (OUnsubscribe t ch) (unsubscribe t ch b, []).
Proof.
  intros Hb Hl Hne. unfold unsubscribe. destruct (String.eqb_spec t ""); [by apply serves_well_idle|].
  destruct (subscribers b !! t) as [subs|] eqn:Hs; [|by apply serves_well_idle]. set (subs' := subs ∖ {[ch]}).
  set (m := if bool_decide (subs' = ∅) then _ else _).
  assert (forall s ss, m !! s = Some ss -> exists ss0, subscribers b !! s = Some ss0 /\ ss ⊆ ss0) as Hsub.
  { intros s ss. unfold m. case_bool_decide; [intros [_ ?]%lookup_delete_Some; eauto|].
    intros [[<- <-]|[_ ?]]%lookup_insert_Some; [exists subs; split; [done|set_solver]|eauto]. }
  apply serves_well_idle; [|destruct Hl as (s0 & Hs0 & Hin0)|done|done].
  - split; cbn.
    + intros s ss x Hx Hin. destruct (Hsub _ _ Hx) as (ss0 & H0 & Hle). by apply (bo_subs _ Hb _ _ _ H0 (Hle _ Hin)).
    + intros s s' ss ss' x Hx Hx' Hin Hin'. destruct (Hsub _ _ Hx) as (s1 & H1 & L1), (Hsub _ _ Hx') as (s2 & H2 & L2).
      by apply (bo_one _ Hb _ _ _ _ x H1 H2); [apply L1|apply L2].
    + apply (bo_below _ Hb).
    + destruct (m !! "") as [ss|] eqn:Hm; [|done]. destruct (Hsub _ _ Hm) as (? & H0 & _). by rewrite (bo_named _ Hb) in H0.
  - unfold listens. cbn. unfold m. destruct (decide (t = topic)) as [->|Hn].
    + rewrite Hs in Hs0. injection Hs0 as ->. assert (me ∈ subs') as Hin by (unfold subs'; set_solver).
      case_bool_decide as He; [set_solver|]. rewrite lookup_insert_eq. eauto.
    + case_bool_decide; [rewrite lookup_delete_ne by done|rewrite lookup_insert_ne by done]; eauto.
Qed.

Lemma publish_serves topic me b t item : broker_ok b -> listens b topic me ->
  serves_well topic me b (OPublish t item) (fst (Publish t item b), []).
Proof.
  intros Hb Hl. pose proof (buffer_listens _ _ _ Hb Hl) as (Hc & Hlen & _).
  assert (topic <> "") as Hne by (intros ->; destruct Hl as (? & Hn & _); by rewrite (bo_named _ Hb) in Hn).
  assert (forall ch, ch ∈ snapshot t b -> exists buf, chans b !! ch = Some (mkChan 64 buf false)) as Hopen.
  { intros ch (subs & Hs & Hin)%snapshot_elem. destruct (bo_subs _ Hb _ _ _ Hs Hin) as (buf & Hx & _). eauto. }
  unfold Publish. destruct (String.eqb_spec t "") as [->|Ht].
  { apply serves_well_idle; [done|done|done|]. unfold to_topic. destruct (String.eqb_spec "" topic); [congruence|done]. }
  destruct (RenderStreamToString item) as [msg|er] eqn:Hr; 
    [|apply serves_well_idle; [done|done|done|]; unfold to_topic; rewrite Hr; by destruct (String.eqb _ _)].
  cbn [fst]. destruct (send_all msg (snapshot t b) b (NoDup_elements _) Hopen) as (H1 & H2 & H3). set (b' := foldl _ _ _) in *.
  split; [|split]; cbn [fst snd].
  - split; rewrite ?H1, ?H2; [|apply (bo_one _ Hb)| |apply (bo_named _ Hb)].
    + intros s subs ch Hs Hin. destruct (bo_subs _ Hb _ _ _ Hs Hin) as (buf & Hx & Hle). rewrite H3, Hx. eexists. split; [done|].
      destruct (decide _); [by apply joined_length|done].
    + intros ch Hs. apply (bo_below _ Hb). rewrite H3 in Hs. by destruct (chans b !! ch); [|by destruct Hs].
  - unfold listens. rewrite H1. done.
  - unfold buffer at 2. rewrite H3, Hc. cbn [c_buf app]. unfold to_topic. rewrite Hr. destruct (String.eqb_spec t topic) as [->|Hn].
    + rewrite decide_True by by apply snapshot_elem. unfold joined. destruct (Nat.ltb_spec (length (buffer b me)) 64).
      * exists [msg]. by split_and!.
      * exists []. rewrite app_nil_r. split_and!; [apply sublist_nil_l|lia|done].
    + exists []. rewrite app_nil_r. rewrite decide_False; [by split_and!|]. intros (s & Hs & Hin)%snapshot_elem.
      destruct Hl as (s0 & Hs0 & Hin0). by destruct Hn; eapply (bo_one _ Hb).
Qed.

Lemma receive_serves topic me b ch : broker_ok b -> listens b topic me ->
  serves_well topic me b (OReceive ch) (apply_op me b (OReceive ch)).
Proof.
  intros Hb Hl. pose proof (buffer_listens _ _ _ Hb Hl) as (Hc & Hlen & _). cbn [apply_op]. unfold receive.
  destruct (chans b !! ch) as [[cap [|m rest] closed]|] eqn:Hch; [destruct closed; by apply serves_well_idle| |by apply serves_well_idle].
  set (b' := mkBroker _ _ _).
  assert (broker_ok b') as Hb'.
  { split; cbn; [|apply (bo_one _ Hb)| |apply (bo_named _ Hb)].
    - intros s subs x Hs Hin. destruct (bo_subs _ Hb _ _ _ Hs Hin) as (buf & Hx & Hle). destruct (decide (ch = x)) as [->|Hn].
      + rewrite lookup_insert_eq. rewrite Hch in Hx. injection Hx as -> <- ->. exists rest. split; [done|]. cbn in Hle. lia.
      + rewrite lookup_insert_ne by done. eauto.
    - intros x Hx. apply (bo_below _ Hb). destruct (decide (ch = x)) as [->|Hn]; [by rewrite Hch|]. by rewrite lookup_insert_ne in Hx. }
  split; [done|]. split; [done|]. exists []. rewrite app_nil_r. split; [done|]. split; [done|]. cbn [fst snd].
  destruct (Nat.eqb_spec ch me) as [->|Hn].
  - unfold b', buffer. cbn. by rewrite lookup_insert_eq, Hch.
  - unfold b', buffer. cbn. by rewrite lookup_insert_ne by done.
Qed.

(** The reader's buffer has room before each operation. *)
Fixpoint keeps_up (me : nat) (b : broker) (os : list op) : bool :=
  match os with
  | [] => true
  | o :: os' => (length (buffer b me) <? 64)%nat && keeps_up me (fst (apply_op me b o)) os'
  end.

(** A reader gets the messages of its topic in the order in which they were
    published, none twice, and none from elsewhere, and if its buffer has room
    before each operation it misses none. *)
Theorem reader_gets_topic_in_order b topic me os :
  broker_ok b -> listens b topic me -> OUnsubscribe topic me ∉ os ->
  let '(b', got) := apply_all me b os in
  got ++ buffer b' me `sublist_of` buffer b me ++ all_published topic os /\
  (keeps_up me b os = true -> got ++ buffer b' me = buffer b me ++ all_published topic os).
Proof.
  intros Hb Hl. revert b Hb Hl. induction os as [|o os IH]; intros b Hb Hl Hnot; cbn [apply_all].
  - unfold all_published. cbn. rewrite app_nil_r. done.
  - apply not_elem_of_cons in Hnot as [Hne Hnot].
    assert (serves_well topic me b o (apply_op me b o)) as (Hb1 & Hl1 & kept & Hsub & Hfull & He).
    { destruct o; [by apply subscribe_serves|by apply unsubscribe_serves|by apply publish_serves|by apply receive_serves]. }
    cbn [keeps_up]. destruct (apply_op me b o) as [b1 got1] eqn:Ho. cbn [fst snd] in *.
    specialize (IH b1 Hb1 Hl1 Hnot). destruct (apply_all me b1 os) as [b2 got2]. destruct IH as [IH1 IH2].
    rewrite <- app_assoc. unfold all_published in *. cbn [map concat]. rewrite (app_assoc (buffer b me)). split.
    + etrans; [by apply sublist_app; [done|exact IH1]|]. rewrite app_assoc, He. by apply sublist_app; [apply sublist_app|].
    + intros [Hlt%Nat.ltb_lt Hk]%andb_true_iff. rewrite (IH2 Hk), app_assoc, He. by rewrite (Hfull Hlt).
Qed.

(** ** What a page reads *)

(** The reading of an event stream that the HTML standard prescribes: lines
    end with a line feed, a carriage return or both; a line that begins with a
    colon is a comment; data lines are joined, one space after the colon being
    dropped; an empty line delivers the data, if any line has given some.
    Identifiers and times of reconnection are left out. *)
Fixpoint es_lines (s : string) : string * list string :=
  match s with
  | EmptyString => ("", [])
  | String c s' =>
      if Ascii.eqb c newline then let '(l, ls) := es_lines s' in ("", l :: ls)
      else if Ascii.eqb c carriage_return then
        match s' with
        | String d s2 => if Ascii.eqb d newline then let '(l, ls) := es_lines s2 in ("", l :: ls)
                         else let '(l, ls) := es_lines s' in ("", l :: ls)
        | EmptyString => ("", [""])
        end
      else let '(l, ls) := es_lines s' in (String c l, ls)
  end.

Record es_state := mkES { es_type : string; es_data : string; es_out : list (string * string) }.

Definition es_field (line : string) : string * string :=
  let '(f, v, _) := Cut ":" line in (f, match v with String c v' => if Ascii.eqb c " " then v' else v | EmptyString => "" end).

Definition es_line (st : es_state) (line : string) : es_state :=
  if String.eqb line "" then
    if String.eqb (es_data st) "" then mkES "" "" (es_out st)
    else mkES "" "" (es_out st ++ [(if String.eqb (es_type st) "" then "message" else es_type st, TrimSuffix (es_data st) nl)])
  else
    match es_field line with
    | (f, v) => if String.eqb f "event" then mkES v (es_data st) (es_out st)
                else if String.eqb f "data" then mkES (es_type st) (es_data st +:+ v +:+ nl) (es_out st)
                else st
    end.

(** The last line is not complete. *)
Definition event_source (s : string) : list (string * string) :=
  let '(l, ls) := es_lines s in es_out (foldl es_line (mkES "" "" []) (removelast (l :: ls))).

Definition no_cr (s : string) : bool := without carriage_return s.

(** Without carriage returns lines are what lies between line feeds. *)
Lemma es_lines_split s : no_cr s = true -> (let '(l, ls) := es_lines s in l :: ls) = split_on newline s.
Proof.
  induction s as [|c s IH]; [done|]. unfold no_cr, without in *. cbn [string_forallb]. intros [Hc Hs]%andb_true_iff. specialize (IH Hs).
  cbn [es_lines split_on]. destruct (Ascii.eqb_spec c newline) as [->|Hn].
  - destruct (es_lines s). by rewrite IH.
  - destruct (Ascii.eqb c carriage_return); [done|]. destruct (es_lines s) as [l ls]. by rewrite <- IH.
Qed.

Definition es_run (st : es_state) (s : string) : es_state := foldl es_line st (removelast (split_on newline s)).

Lemma removelast_split_app s t : removelast (split_on newline (s +:+ nl +:+ t)) = split_on newline s ++ removelast (split_on newline t).
Proof.
  unfold nl. change (s +:+ String newline "" +:+ t) with (s +:+ String newline t). rewrite split_app.
  apply removelast_app. apply split_on_ne.
Qed.

Lemma es_run_line st line t : without newline line = true -> es_run st (line +:+ nl +:+ t) = es_run (es_line st line) t.
Proof. intros Hl. unfold es_run. rewrite removelast_split_app, split_without by done. done. Qed.

Lemma split_without_each sep s : Forall (fun l => without sep l = true) (split_on sep s).
Proof.
  induction s as [|c s IH]; cbn; [by apply Forall_singleton|]. destruct (Ascii.eqb_spec c sep) as [->|Hn].
  - by apply Forall_cons.
  - destruct (split_on sep s) as [|l ls]; [apply Forall_singleton; unfold without; cbn|apply Forall_cons in IH as [Hl Hls]; apply Forall_cons; split; [|done]; unfold without in *; cbn; rewrite Hl];
      by destruct (Ascii.eqb_spec c sep).
Qed.

Definition with_nl (l : string) : string := l +:+ nl.
Definition joined_lines (ls : list string) : string := foldr (fun l rest => l +:+ nl +:+ rest) "" ls.

Lemma split_join_lines s : joined_lines (split_on newline s) = s +:+ nl.
Proof.
  induction s as [|c s IH]; [done|]. cbn [split_on]. destruct (Ascii.eqb_spec c newline) as [->|Hn].
  - cbn [joined_lines foldr]. fold (joined_lines (split_on newline s)). by rewrite IH.
  - pose proof (split_on_ne newline s). destruct (split_on newline s) as [|l ls]; [done|].
    cbn [joined_lines foldr] in *. exact (f_equal (String c) IH).
Qed.

Lemma es_data_lines ls : forall ty data out t, Forall (fun l => without newline l = true) ls ->
  es_run (mkES ty data out) (foldr (fun line rest => "data: " +:+ line +:+ nl +:+ rest) (nl +:+ t) ls)
  = es_run (mkES ty (data +:+ joined_lines ls) out) (nl +:+ t).
Proof.
  induction ls as [|l ls IH]; intros ty data out t Hls; cbn [foldr joined_lines]; [by rewrite str_app_nil_r|].
  apply Forall_cons in Hls as [Hl Hls]. rewrite <- (str_app_assoc "data: " l). rewrite es_run_line by (unfold without in *; by cbn).
  change (es_line (mkES ty data out) ("data: " +:+ l)) with (mkES ty (data +:+ l +:+ nl) out).
  rewrite IH by done. by rewrite !str_app_assoc.
Qed.

Lemma es_frame out msg t :
  es_run (mkES "" "" out) (sse_frame msg +:+ t) = es_run (mkES "" "" (out ++ [("message", msg)])) t.
Proof.
  unfold sse_frame. rewrite !str_app_assoc, es_run_line by done.
  change (es_line (mkES "" "" out) "event: message") with (mkES "message" "" out).
  replace (foldr (fun line rest => "data: " +:+ line +:+ nl +:+ rest) nl (split_on newline msg) +:+ t)
    with (foldr (fun line rest => "data: " +:+ line +:+ nl +:+ rest) (nl +:+ t) (split_on newline msg))
    by (induction (split_on newline msg) as [|l ls IH]; cbn [foldr]; [done|]; by rewrite IH, !str_app_assoc).
  rewrite es_data_lines by apply split_without_each. rewrite split_join_lines, string_app_nil.
  rewrite <- (string_app_nil (nl +:+ t)), es_run_line by done.
  unfold es_line. cbn [String.eqb es_data es_type es_out]. destruct (String.eqb_spec (msg +:+ nl) "") as [He|_].
  { destruct msg; done. }
  change (String.eqb "message" "") with false. by rewrite TrimSuffix_app.
Qed.

Lemma es_keepalive out t : es_run (mkES "" "" out) (keepalive +:+ t) = es_run (mkES "" "" out) t.
Proof.
  unfold keepalive. rewrite !str_app_assoc, es_run_line by done. change (es_line _ ": keepalive") with (mkES "" "" out).
  rewrite <- (string_app_nil (nl +:+ t)), es_run_line by done. done.
Qed.

(** The messages that reach the loop before it ends. *)
Fixpoint delivered (ws : list wake) : list string :=
  match ws with
  | [] | Done :: _ | Stream None :: _ => []
  | Tick :: ws' => delivered ws'
  | Stream (Some msg) :: ws' => msg :: delivered ws'
  end.

Definition text_of (writes : list string) : string := foldr (fun w rest => w +:+ rest) "" writes.

Lemma without_frame msg : no_cr msg = true -> no_cr (sse_frame msg) = true.
Proof.
  intros Hm. unfold sse_frame, no_cr in *. rewrite !without_app. cbn [andb].
  assert (Forall (fun l => without carriage_return l = true) (split_on newline msg)) as Hls by by apply forallb_split.
  change (without carriage_return "event: message") with true. change (without carriage_return nl) with true. cbn [andb].
  induction Hls as [|l ls Hl _ IH]; cbn [foldr]; [done|]. by rewrite !without_app, Hl, IH.
Qed.

Lemma es_loop ws : forall n out t,
  es_run (mkES "" "" out) (text_of (sse_loop (fun _ => false) n ws) +:+ t) =
  es_run (mkES "" "" (out ++ map (pair "message") (delivered ws))) t.
Proof.
  induction ws as [|[| |[msg|]] ws IH]; intros n out t; cbn [sse_loop delivered map text_of foldr]; rewrite ?app_nil_r; [done|done| | |done].
  - fold (text_of (sse_loop (fun _ => false) (S n) ws)). by rewrite str_app_assoc, es_keepalive, IH.
  - fold (text_of (sse_loop (fun _ => false) (S n) ws)). by rewrite str_app_assoc, es_frame, IH, <- app_assoc.
Qed.

Lemma without_loop ws : forall n, forallb no_cr (delivered ws) = true ->
  no_cr (text_of (sse_loop (fun _ => false) n ws)) = true.
Proof.
  induction ws as [|[| |[msg|]] ws IH]; intros n; cbn [sse_loop delivered text_of foldr forallb]; [done|done| | |done];
    fold (text_of (sse_loop (fun _ => false) (S n) ws)).
  - intros Hd. unfold no_cr. rewrite without_app. by apply IH.
  - intros [Hm Hd]%andb_true_iff. pose proof (without_frame _ Hm) as Hf. unfold no_cr in *. rewrite without_app, Hf. by apply IH.
Qed.

(** A page reads what was published.  From the bytes the handler writes,
    messages of any number of lines with heartbeats between them, a client
    that reads event streams by the standard gets every message the loop was
    given, whole and in order, provided that none contains a carriage return.
    A failing write ends the stream, so that a client has then read the first
    ones. *)
Theorem page_reads_what_was_published ws fails :
  forallb no_cr (delivered ws) = true ->
  event_source (text_of (sse_loop (fun _ => false) 0 ws)) = map (pair "message") (delivered ws) /\
  sse_loop fails 0 ws `prefix_of` sse_loop (fun _ => false) 0 ws.
Proof.
  intros Hcr. split.
  - pose proof (without_loop ws 0 Hcr) as Hno. pose proof (es_loop ws 0 [] "") as Hl. rewrite str_app_nil_r in Hl.
    unfold event_source. pose proof (es_lines_split _ Hno) as Hs. destruct (es_lines _) as [l ls]. rewrite Hs.
    unfold es_run in Hl. by rewrite Hl.
  - generalize 0%nat at 1 2 as n. clear Hcr. induction ws as [|[| |[msg|]] ws IH]; intros n; cbn [sse_loop]; try done;
      destruct (fails n); try apply prefix_nil; by apply prefix_cons.
Qed.

Example page_reads_what_was_published_witness :
  event_source (text_of (sse_loop (fun _ => false) 0 [Stream (Some ("<p>a" +:+ nl +:+ "b</p>")); Tick; Stream (Some ""); Done])) =
    [("message", "<p>a" +:+ nl +:+ "b</p>"); ("message", "")].
Proof.
  destruct (page_reads_what_was_published [Stream (Some ("<p>a" +:+ nl +:+ "b</p>")); Tick; Stream (Some ""); Done] (fun _ => false) eq_refl) as [He _].
  exact He.
Defined.

(** A carriage return ends a line for the client but not for the handler:
    what follows it is lost, or read as a message of its own. *)
Example carriage_return_splits_message :
  let cr := String carriage_return "" in
  event_source (sse_frame ("a" +:+ cr +:+ "b")) = [("message", "a")] /\
  event_source (sse_frame ("a" +:+ cr +:+ cr +:+ "data: b")) = [("message", "a"); ("message", "b")].
Proof. vm_compute. done. Qed.

(** ** Web sockets *)

(** Whoever sends no origin, or one that is allowed, may listen to any topic,
    that of another user included: there is no authorizer. *)
Theorem web_socket_has_no_authorizer check origin host topic b :
  topic <> "" -> check origin host = true -> exists b' ch, WebSocketHandler check origin host topic b = WsStreaming b' ch.
Proof.
  intros Hn Hc. unfold WebSocketHandler. destruct (String.eqb_spec topic ""); [done|]. rewrite Hc. cbn.
  destruct (Subscribe topic b) as [b' ch]. eauto.
Qed.

Example web_socket_has_no_authorizer_witness :
  exists b' ch, WebSocketHandler DefaultCheckOrigin "" "drive" "nest:user_2" NewMemoryBroker = WsStreaming b' ch.
Proof. exact (web_socket_has_no_authorizer DefaultCheckOrigin "" "drive" "nest:user_2" NewMemoryBroker ltac:(done) eq_refl). Defined.

(** The origin of a page elsewhere is refused, that of a sandboxed page too. *)
Example foreign_origins_are_refused :
  DefaultCheckOrigin "https://evil.example" "drive.local:8071" = false /\ DefaultCheckOrigin "null" "drive.local:8071" = false /\
  DefaultCheckOrigin "http://Drive.local:8071" "drive.local:8071" = true.
Proof. vm_compute. done. Qed.
