(* ===== verification/Tx.v ===== *)
(** * Transactions (data/tx.go, data/db.go)

    Work inside a transaction is a tree: a statement and what follows its
    result, a nested transaction and what follows its result, or the end, with
    success, an error or a panic.  [run] executes it as WithTransaction does,
    nested transactions by savepoints; [denote] is what a transaction means:
    a part that fails has done nothing.  Errors of going back to a savepoint
    are ignored, so what a part did can stay; [means] says what a transaction
    means where given parts are kept, and [lost_rollbacks] which those can be.
    The database is an interface of SQL texts, whose laws are the documented
    behaviour of statements and savepoints.  Rebind rewrites placeholders for
    PostgreSQL. *)

From S2P Require Import Prelude GoStrings.

#[local] Open Scope go_scope.
#[local] Open Scope string_scope.
#[local] Open Scope list_scope.
#[local] Open Scope Z_scope.

(** ** Identifiers *)

Definition identifier_char (a : Ascii.ascii) : bool :=
  ascii_in "a" "z" a || ascii_in "A" "Z" a || ascii_in "0" "9" a || Ascii.eqb a "_" || Ascii.eqb a ".".

(** Letters, digits, underscores and dots, or nothing. *)
Definition cleanIdentifier (s : string) : string :=
  let s := TrimSpace s in if string_forallb identifier_char s then s else "".

(** ** Work *)

Inductive outcome := Success | Failed (er : gerror) | Panic.

Inductive work :=
| Return (o : outcome)
| Do (sql : string) (k : result unit -> work)
| Nest (w : work) (k : result unit -> work).

(** ** The database

    [state] is an open transaction.  Its contents are all that its statements
    depend on; a database that refuses statements after an error has that in
    its contents, and going back to a savepoint takes it back too. *)
Class TxDB := {
  state : Type;
  contents : Type;
  cur : state -> contents;
  points : state -> list (string * contents);
  exec : string -> state -> state * result unit;
  effect : string -> contents -> contents * result unit;
  can_save : contents -> result unit;
  begin : contents -> result state;
  commit : state -> result contents
}.

Definition control (sql : string) : bool :=
  HasPrefix sql "SAVEPOINT " || HasPrefix sql "ROLLBACK TO " || HasPrefix sql "RELEASE SAVEPOINT ".

Class TxLaws (db : TxDB) := {
  do_law : forall sql st, control sql = false ->
    let '(st', r) := exec sql st in effect sql (cur st) = (cur st', r) /\ points st' = points st;
  save_law : forall n st, string_forallb identifier_char n = true ->
    let '(st', r) := exec ("SAVEPOINT " +:+ n) st in
    r = can_save (cur st) /\ cur st' = cur st /\
    points st' = match r with Ok _ => (n, cur st) :: points st | Err _ => points st end;
  back_law : forall n st l1 d l2, string_forallb identifier_char n = true ->
    points st = l1 ++ (n, d) :: l2 -> n ∉ l1.*1 ->
    let '(st', r) := exec ("ROLLBACK TO " +:+ n) st in
    let restored := cur st' = d /\ points st' = (n, d) :: l2 in
    match r with Ok _ => restored | Err _ => restored \/ cur st' = cur st /\ points st' = points st end;
  release_law : forall n st l1 d l2, string_forallb identifier_char n = true ->
    points st = l1 ++ (n, d) :: l2 -> n ∉ l1.*1 ->
    let '(st', r) := exec ("RELEASE SAVEPOINT " +:+ n) st in
    cur st' = cur st /\ points st' = match r with Ok _ => l2 | Err _ => points st end;
  begin_law : forall c st, begin c = Ok st -> cur st = c /\ points st = [];
  commit_law : forall st c, commit st = Ok c -> c = cur st
}.

Section Tx.
Context `{TxDB}.

(** ** Savepoints *)

Definition invalid_name : gerror := ErrMsg "ztatic/data: invalid savepoint name".

Definition on_savepoint (verb name : string) (st : state) : state * result unit :=
  let clean := cleanIdentifier name in
  if String.eqb clean "" then (st, Err invalid_name) else exec (verb +:+ clean) st.

Definition Savepoint : string -> state -> state * result unit := on_savepoint "SAVEPOINT ".
Definition RollbackTo : string -> state -> state * result unit := on_savepoint "ROLLBACK TO ".
Definition ReleaseSavepoint : string -> state -> state * result unit := on_savepoint "RELEASE SAVEPOINT ".

Definition sp_name (spID : Z) : string := "sp_ztatic_" +:+ FormatInt spID.

(** [fresh n] is the number this transaction draws from the program's counter
    at its [n]-th savepoint; the error of a refused savepoint is wrapped. *)
Section Run.
Context (fresh : nat -> Z) (wrap : string -> gerror -> gerror).

Fixpoint run (w : work) (i : nat) (st : state) : outcome * nat * state :=
  match w with
  | Return o => (o, i, st)
  | Do sql k => let '(st', r) := exec sql st in run (k r) i st'
  | Nest w k =>
      let spName := sp_name (fresh i) in
      match Savepoint spName st with
      | (st1, Err er) => run (k (Err (wrap spName er))) (S i) st1
      | (st1, Ok _) =>
          match run w (S i) st1 with
          | (Panic, i', st2) => (Panic, i', fst (RollbackTo spName st2))
          | (Failed er, i', st2) => run (k (Err er)) i' (fst (RollbackTo spName st2))
          | (Success, i', st2) => run (k (Ok tt)) i' (fst (ReleaseSavepoint spName st2))
          end
      end
  end.

(** WithTransaction outside any transaction: the committed contents after it.
    What is rolled back was never committed. *)
Definition WithTransaction (c : contents) (w : work) : outcome * contents :=
  match begin c with
  | Err er => (Failed er, c)
  | Ok st =>
      match run w 0 st with
      | (Success, _, st') => match commit st' with Ok c' => (Success, c') | Err er => (Failed er, c) end
      | (o, _, _) => (o, c)
      end
  end.

(** DBEngine.Transaction does the same, and TransactionCtx calls it. *)
Definition Transaction : contents -> work -> outcome * contents := WithTransaction.
Definition TransactionCtx : contents -> work -> outcome * contents := WithTransaction.

(** ** What a transaction means *)

(** The names only occur in the error of a refused savepoint. *)
Fixpoint denote (w : work) (i : nat) (c : contents) : outcome * nat * contents :=
  match w with
  | Return o => (o, i, c)
  | Do sql k => let '(c', r) := effect sql c in denote (k r) i c'
  | Nest w k =>
      match can_save c with
      | Err er => denote (k (Err (wrap (sp_name (fresh i)) er))) (S i) c
      | Ok _ =>
          match denote w (S i) c with
          | (Panic, i', _) => (Panic, i', c)
          | (Failed er, i', _) => denote (k (Err er)) i' c
          | (Success, i', c') => denote (k (Ok tt)) i' c'
          end
      end
  end.

(** The savepoints a run could not go back to. *)
Fixpoint lost_rollbacks (w : work) (i : nat) (st : state) : list nat :=
  match w with
  | Return _ => []
  | Do sql k => let '(st', r) := exec sql st in lost_rollbacks (k r) i st'
  | Nest w k =>
      let spName := sp_name (fresh i) in
      let lost st2 := match snd (RollbackTo spName st2) with Err _ => [i] | Ok _ => [] end in
      match Savepoint spName st with
      | (st1, Err er) => lost_rollbacks (k (Err (wrap spName er))) (S i) st1
      | (st1, Ok _) =>
          lost_rollbacks w (S i) st1 ++
          match run w (S i) st1 with
          | (Panic, _, st2) => lost st2
          | (Failed er, i', st2) => lost st2 ++ lost_rollbacks (k (Err er)) i' (fst (RollbackTo spName st2))
          | (Success, i', st2) => lost_rollbacks (k (Ok tt)) i' (fst (ReleaseSavepoint spName st2))
          end
      end
  end.

Definition failed_rollbacks (c : contents) (w : work) : list nat :=
  match begin c with Err _ => [] | Ok st => lost_rollbacks w 0 st end.

(** The meaning where what the failed parts of [kept] did stays. *)
Inductive means : work -> nat -> contents -> list nat -> outcome -> nat -> contents -> Prop :=
| means_return o i c : means (Return o) i c [] o i c
| means_do sql k i c c1 r kept o j c' :
    effect sql c = (c1, r) -> means (k r) i c1 kept o j c' -> means (Do sql k) i c kept o j c'
| means_refused w k i c er kept o j c' :
    can_save c = Err er -> means (k (Err (wrap (sp_name (fresh i)) er))) (S i) c kept o j c' ->
    means (Nest w k) i c kept o j c'
| means_panic w k i c u kept j x (stays : bool) :
    can_save c = Ok u -> means w (S i) c kept Panic j x ->
    means (Nest w k) i c (if stays then kept ++ [i] else kept) Panic j (if stays then x else c)
| means_failed w k i c u kept1 er i' x (stays : bool) kept2 o j c' :
    can_save c = Ok u -> means w (S i) c kept1 (Failed er) i' x ->
    means (k (Err er)) i' (if stays then x else c) kept2 o j c' ->
    means (Nest w k) i c (kept1 ++ (if stays then [i] else []) ++ kept2) o j c'
| means_done w k i c u kept1 i' x kept2 o j c' :
    can_save c = Ok u -> means w (S i) c kept1 Success i' x -> means (k (Ok tt)) i' x kept2 o j c' ->
    means (Nest w k) i c (kept1 ++ kept2) o j c'.

End Run.
End Tx.

(** ** Rebind *)

Definition single_quote : Ascii.ascii := ascii_of_byte 39.

Fixpoint rebind_from (query : string) (paramIdx : Z) (inString : bool) : string :=
  match query with
  | EmptyString => ""
  | String ch rest =>
      if Ascii.eqb ch single_quote then String ch (rebind_from rest paramIdx (negb inString))
      else if Ascii.eqb ch "?" && negb inString
      then "$" +:+ FormatInt paramIdx +:+ rebind_from rest (paramIdx + 1) inString
      else String ch (rebind_from rest paramIdx inString)
  end.

(** Of an engine that is there. *)
Definition Rebind (Dialect DriverName query : string) : string :=
  if negb (String.eqb Dialect "postgres") && negb (String.eqb DriverName "postgres") && negb (str_contains (ToLower Dialect) "postgres")
  then query
  else rebind_from query 1 false.

(** ** Theorems about transactions (Tx) *)

(** ** Names of savepoints *)

Lemma clean_idle s : string_forallb identifier_char s = true -> cleanIdentifier s = s.
Proof.
  intros Hs. unfold cleanIdentifier. rewrite TrimSpace_spaceless, Hs; [done|]. unfold spaceless.
  induction s as [|a s IH]; [done|]. cbn in *. apply andb_true_iff in Hs as [Ha Hs]. rewrite (IH Hs), andb_true_r.
  revert Ha. by destruct a as [[] [] [] [] [] [] [] []].
Qed.

Lemma clean_plain s : string_forallb identifier_char (cleanIdentifier s) = true.
Proof. unfold cleanIdentifier. by destruct (string_forallb identifier_char (TrimSpace s)) eqn:He. Qed.

Lemma FormatInt_plain z : 0 <= z -> string_forallb identifier_char (FormatInt z) = true.
Proof.
  intros Hz. unfold FormatInt. destruct (Z.ltb_spec z 0); [lia|]. pose proof (FormatNat_digits z Hz) as Hd.
  induction (FormatNat z) as [|a s IH]; [done|]. cbn in *. apply andb_true_iff in Hd as [Ha Hs]. rewrite (IH Hs), andb_true_r.
  revert Ha. by destruct a as [[] [] [] [] [] [] [] []].
Qed.

Lemma sp_name_plain z : 0 <= z -> string_forallb identifier_char (sp_name z) = true.
Proof. intros Hz. unfold sp_name. rewrite string_forallb_app, FormatInt_plain by done. done. Qed.

Lemma sp_name_inj x y : sp_name x = sp_name y -> x = y.
Proof.
  unfold sp_name. intros He%app_inj_r. pose proof (parse_FormatInt x) as Hx. rewrite He, parse_FormatInt in Hx. congruence.
Qed.

Section Refinement.
Context `{Db : TxDB} `{Laws : !TxLaws Db} (fresh : nat -> Z) (wrap : string -> gerror -> gerror).
Hypothesis fresh_pos : forall n, 0 <= fresh n.
Hypothesis fresh_inj : Inj (=) (=) fresh.

Lemma on_savepoint_plain verb n st : string_forallb identifier_char n = true -> n <> "" -> on_savepoint verb n st = exec (verb +:+ n) st.
Proof. intros Hn Hne. unfold on_savepoint. rewrite clean_idle by done. by destruct (String.eqb_spec n ""). Qed.

Lemma on_sp verb n st : on_savepoint verb (sp_name (fresh n)) st = exec (verb +:+ sp_name (fresh n)) st.
Proof. apply on_savepoint_plain; [by apply sp_name_plain|done]. Qed.

(** The statements of the work itself leave savepoints alone. *)
Fixpoint plain (w : work) : Prop :=
  match w with
  | Return _ => True
  | Do sql k => control sql = false /\ forall r, plain (k r)
  | Nest w k => plain w /\ forall r, plain (k r)
  end.

(** Names drawn from [i] on and before [j]. *)
Definition drawn (i j : nat) (n : string) : Prop := exists m, (i <= m < j)%nat /\ n = sp_name (fresh m).

Lemma drawn_weaken i j i' j' n : (i' <= i)%nat -> (j <= j')%nat -> drawn i j n -> drawn i' j' n.
Proof. intros ? ? (m & ? & ->). exists m. split; [lia|done]. Qed.

Lemma not_drawn i j m : (m < i)%nat -> ~ drawn i j (sp_name (fresh m)).
Proof. intros Hm (m' & Hb & He%sp_name_inj%fresh_inj). lia. Qed.

(** Savepoints that remain after a part are those from before it and some of
    those it made. *)
Definition grown (i j : nat) (st st' : state) : Prop :=
  (i <= j)%nat /\ exists more, points st' = more ++ points st /\ Forall (fun p => drawn i j p.1) more.

Lemma grown_refl i st st' : points st' = points st -> grown i i st st'.
Proof. intros Hp. split; [lia|]. exists []. by rewrite Hp. Qed.

Lemma grown_trans i j k st1 st2 st3 : grown i j st1 st2 -> grown j k st2 st3 -> grown i k st1 st3.
Proof.
  intros [Hij (m1 & H1 & F1)] [Hjk (m2 & H2 & F2)]. split; [lia|]. exists (m2 ++ m1). rewrite H2, H1, app_assoc. split; [done|].
  apply Forall_app. split; (eapply Forall_impl; [eassumption|]; intros ? Hx; cbn in Hx |- *; eapply drawn_weaken; [..|exact Hx]; lia).
Qed.

Lemma fst_not_drawn (more : list (string * contents)) i j m : (m < i)%nat -> Forall (fun p => drawn i j p.1) more -> sp_name (fresh m) ∉ more.*1.
Proof.
  intros Hm Hf Hin. apply list_elem_of_fmap in Hin as (p & He & Hp). rewrite Forall_forall in Hf. apply Hf in Hp. rewrite <- He in Hp.
  by apply not_drawn in Hp.
Qed.

Lemma grown_inside i j st st' (more : list (string * contents)) :
  (S i <= j)%nat -> points st' = more ++ (sp_name (fresh i), cur st) :: points st ->
  Forall (fun p => drawn (S i) j p.1) more -> grown i j st st'.
Proof.
  intros Hij Hp Hf. split; [lia|]. exists (more ++ [(sp_name (fresh i), cur st)]).
  rewrite Hp, <- app_assoc. split; [done|]. apply Forall_app. split.
  - eapply Forall_impl; [exact Hf|]. intros ? Hx. cbn in Hx |- *. eapply drawn_weaken; [..|exact Hx]; lia.
  - apply Forall_singleton. exists i. split; [lia|done].
Qed.

Lemma grown_back i j st st' :
  (S i <= j)%nat -> points st' = (sp_name (fresh i), cur st) :: points st -> grown i j st st'.
Proof. intros Hij Hp. by apply (grown_inside i j st st' []). Qed.

(** [denote] is the meaning where nothing is kept. *)
Lemma means_denote w i c kept o j c' :
  means fresh wrap w i c kept o j c' -> kept = [] -> denote fresh wrap w i c = (o, j, c').
Proof.
  induction 1 as [| |? ? ? ? ? ? ? ? ? Hs _ IH|? ? ? ? ? ? ? ? stays Hs _ IH
    |? ? ? ? ? ? ? ? ? stays ? ? ? ? Hs _ IH1 _ IH2|? ? ? ? ? ? ? ? ? ? ? ? Hs _ IH1 _ IH2]; intros Hk; cbn [denote].
  - done.
  - rewrite H. auto.
  - rewrite Hs. auto.
  - destruct stays; [by destruct kept|]. rewrite Hs, IH; done.
  - apply app_nil in Hk as [-> [Hst ->]%app_nil]. destruct stays; [done|]. rewrite Hs, IH1; auto.
  - apply app_nil in Hk as [-> ->]. rewrite Hs, IH1; auto.
Qed.

Lemma denote_means w : forall i c,
  let '(o, j, c') := denote fresh wrap w i c in means fresh wrap w i c [] o j c'.
Proof.
  induction w as [o|sql k IH|w IHw k IHk]; intros i c; cbn [denote].
  - constructor.
  - destruct (effect sql c) as [c1 r] eqn:He. specialize (IH r i c1). destruct (denote _ _ _ _ _) as [[o j] c'].
    by econstructor.
  - destruct (can_save c) as [u|er] eqn:Hs.
    2: { specialize (IHk (Err (wrap (sp_name (fresh i)) er)) (S i) c). destruct (denote _ _ _ _ _) as [[o j] c'].
         by econstructor. }
    specialize (IHw (S i) c). destruct (denote fresh wrap w (S i) c) as [[o j] x]. destruct o as [|er|].
    + specialize (IHk (Ok tt) j x). destruct (denote _ _ _ _ _) as [[o' j'] c'].
      by apply (means_done _ _ w k i c u [] j x []).
    + specialize (IHk (Err er) j c). destruct (denote _ _ _ _ _) as [[o' j'] c'].
      by apply (means_failed _ _ w k i c u [] er j x false []).
    + by apply (means_panic _ _ w k i c u [] j x false).
Qed.

Lemma run_means w : forall i st, plain w ->
  let '(o, j, st') := run fresh wrap w i st in grown i j st st' /\
  exists kept, means fresh wrap w i (cur st) kept o j (cur st') /\ kept ⊆ lost_rollbacks fresh wrap w i st.
Proof.
  induction w as [o|sql k IH|w IHw k IHk]; intros i st Hp; cbn [run lost_rollbacks].
  - split; [by apply grown_refl|]. exists []. split; [constructor|done].
  - destruct Hp as [Hc Hk]. pose proof (do_law sql st Hc) as Hd. destruct (exec sql st) as [st1 r]. destruct Hd as [Hef Hpts].
    specialize (IH r i st1 (Hk r)). destruct (run _ _ _ _ _) as [[o j] st']. destruct IH as (Hg & kept & Hm & Hsub).
    split; [eapply grown_trans; [by apply grown_refl|done]|]. exists kept. split; [by econstructor|done].
  - destruct Hp as [Hw Hk]. unfold Savepoint, RollbackTo, ReleaseSavepoint. rewrite on_sp.
    pose proof (sp_name_plain (fresh i) (fresh_pos i)) as Hn. pose proof (save_law (sp_name (fresh i)) st Hn) as Hs.
    destruct (exec _ st) as [st1 [u|er]]; destruct Hs as (Hr & Hcur & Hpts); symmetry in Hr.
    2: { specialize (IHk (Err (wrap (sp_name (fresh i)) er)) (S i) st1 (Hk _)). destruct (run _ _ _ _ _) as [[o j] st'].
         rewrite Hcur in IHk. destruct IHk as (Hg & kept & Hm & Hsub).
         split; [eapply grown_trans; [split; [|by exists []]|exact Hg]; lia|]. exists kept. split; [by econstructor|done]. }
    specialize (IHw (S i) st1 Hw). destruct (run fresh wrap w (S i) st1) as [[o j] st2]. rewrite Hcur in IHw.
    destruct IHw as ([Hij (more & Hmore & Hdr)] & kept & Hmw & Hsub).
    assert (sp_name (fresh i) ∉ more.*1) as Hnot by (eapply fst_not_drawn; [|done]; lia). rewrite Hpts in Hmore.
    rewrite !on_sp. pose proof (back_law _ st2 _ _ _ Hn Hmore Hnot) as Hb. pose proof (release_law _ st2 _ _ _ Hn Hmore Hnot) as Hl.
    destruct (exec ("ROLLBACK TO " +:+ _) st2) as [st3 r3]. destruct (exec ("RELEASE SAVEPOINT " +:+ _) st2) as [st4 r4].
    cbn [fst snd].
    assert (exists stays : bool, cur st3 = (if stays then cur st2 else cur st) /\ grown i j st st3 /\
      (if stays then [i] else []) ⊆ match r3 with Ok _ => [] | Err _ => [i] end) as (stays & Hst & Hg3 & Hin).
    { destruct r3; [|destruct Hb as [Hb|Hb]].
      - exists false. destruct Hb as [Hb1 Hb2]. split; [done|]. split; [by eapply grown_back|set_solver].
      - exists false. destruct Hb as [Hb1 Hb2]. split; [done|]. split; [by eapply grown_back|set_solver].
      - exists true. destruct Hb as [Hb1 Hb2]. split; [done|]. split; [|done]. eapply grown_inside; [exact Hij|by rewrite Hb2|done]. }
    assert (grown i j st st4 /\ cur st4 = cur st2) as [Hg4 Hc4].
    { destruct Hl as [Hl1 Hl2]. split; [|done]. destruct r4.
      - split; [lia|]. by exists [].
      - eapply grown_inside; [exact Hij|by rewrite Hl2|done]. }
    destruct o as [|er|].
    + specialize (IHk (Ok tt) j st4 (Hk _)). destruct (run _ _ _ _ st4) as [[o' j'] st']. rewrite Hc4 in IHk.
      destruct IHk as (Hg & kept' & Hm & Hsub'). split; [exact (grown_trans _ _ _ _ _ _ Hg4 Hg)|].
      exists (kept ++ kept'). split; [by eapply means_done|set_solver].
    + specialize (IHk (Err er) j st3 (Hk _)). destruct (run _ _ _ _ st3) as [[o' j'] st']. rewrite Hst in IHk.
      destruct IHk as (Hg & kept' & Hm & Hsub'). split; [exact (grown_trans _ _ _ _ _ _ Hg3 Hg)|].
      exists (kept ++ (if stays then [i] else []) ++ kept'). split; [by eapply means_failed|set_solver].
    + split; [done|]. exists (if stays then kept ++ [i] else kept). rewrite Hst. split; [by eapply means_panic|].
      destruct stays; set_solver.
Qed.

(** C32: Transactions are all or nothing, at every depth.  Whatever fails, a
    transaction that does not succeed leaves the contents from before.  One
    that succeeds leaves what the work means when every nested transaction
    that fails, or panics, has done nothing; only where going back to a
    savepoint answered an error, which the code ignores, may the work of that
    nested transaction stay and be committed with the rest. *)
Theorem transaction_refines_meaning c w : plain w ->
  let '(o, c') := WithTransaction fresh wrap c w in
  (o <> Success -> c' = c) /\
  exists kept om j cm,
    means fresh wrap w 0 c kept om j cm /\ kept ⊆ failed_rollbacks fresh wrap c w /\
    (failed_rollbacks fresh wrap c w = [] -> denote fresh wrap w 0 c = (om, j, cm)) /\
    match o with
    | Success => om = Success /\ c' = cm
    | Failed er => om = Failed er \/ begin c = Err er \/ exists st, om = Success /\ commit st = Err er /\ cur st = cm
    | Panic => om = Panic
    end.
Proof.
  intros Hp. unfold WithTransaction, failed_rollbacks. destruct (begin c) as [st|er] eqn:Hb.
  - destruct (begin_law _ _ Hb) as [Hc _]. pose proof (run_means w 0 st Hp) as Hr. rewrite Hc in Hr.
    destruct (run fresh wrap w 0 st) as [[o j] st']. destruct Hr as (_ & kept & Hm & Hsub).
    assert (lost_rollbacks fresh wrap w 0 st = [] -> denote fresh wrap w 0 c = (o, j, cur st')) as Hd.
    { intros He. apply (means_denote _ _ _ _ _ _ _ Hm). rewrite He in Hsub. by apply list_nil_subseteq in Hsub. }
    destruct o as [|er|]; [destruct (commit st') as [c'|er] eqn:Hcm|..];
      (split; [done|]; exists kept; eexists _, _, _; do 3 (split; [done|])).
    + split; [done|]. by apply commit_law.
    + right. right. by exists st'.
    + by left.
    + done.
  - split; [done|]. pose proof (denote_means w 0 c) as Hm. destruct (denote fresh wrap w 0 c) as [[om j] cm].
    exists [], om, j, cm. do 3 (split; [done|]). by right; left.
Qed.

End Refinement.

(** ** A database for examples *)

(** Its contents are the statements that succeeded; ["bad"] does not.  After
    ["cancel"] there is no way back to a savepoint. *)
Definition toy_effect (sql : string) (c : list string) : list string * result unit :=
  if String.eqb sql "bad" then (c, Err (ErrMsg "syntax")) else (c ++ [sql], Ok tt).

Fixpoint from_point (n : string) (ps : list (string * list string)) : option (list string * list (string * list string)) :=
  match ps with
  | [] => None
  | (m, d) :: rest => if String.eqb m n then Some (d, rest) else from_point n rest
  end.

Definition toy_exec (sql : string) (st : list string * list (string * list string)) : (list string * list (string * list string)) * result unit :=
  let '(c, ps) := st in
  if HasPrefix sql "SAVEPOINT " then ((c, (drop_str 10 sql, c) :: ps), Ok tt)
  else if HasPrefix sql "ROLLBACK TO " then
    if bool_decide ("cancel" ∈ c) then (st, Err (ErrMsg "context canceled")) else
    match from_point (drop_str 12 sql) ps with
    | Some (d, rest) => ((d, (drop_str 12 sql, d) :: rest), Ok tt)
    | None => (st, Err (ErrMsg "no such savepoint"))
    end
  else if HasPrefix sql "RELEASE SAVEPOINT " then
    match from_point (drop_str 18 sql) ps with
    | Some (_, rest) => ((c, rest), Ok tt)
    | None => (st, Err (ErrMsg "no such savepoint"))
    end
  else let '(c', r) := toy_effect sql c in ((c', ps), r).

#[local] Instance toy_db : TxDB := {|
  state := list string * list (string * list string);
  contents := list string;
  cur := fst;
  points := snd;
  exec := toy_exec;
  effect := toy_effect;
  can_save _ := Ok tt;
  begin c := Ok (c, []);
  commit st := Ok (fst st)
|}.

Lemma from_point_split n l1 d l2 : n ∉ l1.*1 -> from_point n (l1 ++ (n, d) :: l2) = Some (d, l2).
Proof.
  induction l1 as [|[m x] l1 IH]; cbn; intros Hn; [by rewrite String.eqb_refl|].
  apply not_elem_of_cons in Hn as [Hne Hn]. destruct (String.eqb_spec m n) as [->|]; [done|]. by apply IH.
Qed.

#[local] Instance toy_laws : TxLaws toy_db.
Proof.
  pose proof (fun n => drop_str_app "SAVEPOINT " n : drop_str 10 ("SAVEPOINT " +:+ n) = n) as Hs.
  pose proof (fun n => drop_str_app "ROLLBACK TO " n : drop_str 12 ("ROLLBACK TO " +:+ n) = n) as Hb.
  pose proof (fun n => drop_str_app "RELEASE SAVEPOINT " n : drop_str 18 ("RELEASE SAVEPOINT " +:+ n) = n) as Hr.
  split; cbn.
  - intros sql [c ps] Hc. unfold control in Hc. apply orb_false_iff in Hc as [[H1 H2]%orb_false_iff H3]. unfold toy_exec.
    rewrite H1, H2, H3. cbn [fst snd]. by destruct (toy_effect sql c) as [c' r].
  - intros n [c ps] _. unfold toy_exec. rewrite HasPrefix_app, Hs. done.
  - intros n [c ps] l1 d l2 _ Hp Hn. cbn in Hp. subst ps. unfold toy_exec.
    change (HasPrefix ("ROLLBACK TO " +:+ n) "SAVEPOINT ") with false. rewrite HasPrefix_app. cbn iota.
    case_bool_decide; [by right|]. rewrite Hb, from_point_split by done. done.
  - intros n [c ps] l1 d l2 _ Hp Hn. cbn in Hp. subst ps. unfold toy_exec.
    change (HasPrefix ("RELEASE SAVEPOINT " +:+ n) "SAVEPOINT ") with false.
    change (HasPrefix ("RELEASE SAVEPOINT " +:+ n) "ROLLBACK TO ") with false. rewrite HasPrefix_app. cbn iota.
    rewrite Hr, from_point_split by done. done.
  - by intros c st [= <-].
  - by intros st c [= <-].
Qed.

(** A transaction that continues after a part of it has failed. *)
Definition some_work : work :=
  Do "a" (fun _ => Nest (Do "b" (fun _ => Nest (Do "c" (fun _ => Return Success)) (fun _ => Do "bad" (fun r =>
    match r with Ok _ => Return Success | Err er => Return (Failed er) end))))
    (fun _ => Do "d" (fun _ => Return Success))).

Example transaction_refines_meaning_witness :
  WithTransaction Z.of_nat (fun _ er => er) (["z"] : contents) some_work = (Success, ["z"; "a"; "d"]) /\
  ["z"; "a"; "d"] = snd (denote Z.of_nat (fun _ er => er) some_work 0 (["z"] : contents)).
Proof.
  assert (Inj (=) (=) Z.of_nat) as Hi by (intros ? ?; lia).
  assert (plain some_work) as Hp.
  { split; [reflexivity|]. intros _. split; [|intros _; split; [reflexivity|done]]. split; [reflexivity|]. intros _.
    split; [split; [reflexivity|done]|]. intros _. split; [reflexivity|]. by intros []. }
  split; [vm_compute; reflexivity|].
  destruct (transaction_refines_meaning (Db := toy_db) Z.of_nat (fun _ er => er) ltac:(lia) Hi ["z"] some_work Hp)
    as (_ & kept & om & j & cm & _ & _ & Hd & _ & Hc).
  rewrite Hd; [exact Hc|vm_compute; reflexivity].
Defined.

(** The work of a part that failed is committed when going back fails. *)
Definition cancelled_work : work :=
  Nest (Do "cancel" (fun _ => Return (Failed (ErrMsg "timeout")))) (fun _ => Do "d" (fun _ => Return Success)).

Example lost_rollback_is_committed :
  WithTransaction Z.of_nat (fun _ er => er) (["z"] : contents) cancelled_work = (Success, ["z"; "cancel"; "d"]) /\
  failed_rollbacks Z.of_nat (fun _ er => er) (["z"] : contents) cancelled_work = [0%nat] /\
  snd (denote Z.of_nat (fun _ er => er) cancelled_work 0 (["z"] : contents)) = ["z"; "d"].
Proof. by vm_compute. Qed.

(** ** Rebind *)

(** Reading a text without placeholders: inside or outside a literal after it. *)
Fixpoint quiet (inString : bool) (t : string) : option bool :=
  match t with
  | EmptyString => Some inString
  | String ch t' =>
      if Ascii.eqb ch single_quote then quiet (negb inString) t'
      else if Ascii.eqb ch "?" && negb inString then None
      else quiet inString t'
  end.

Fixpoint marked (ts : list string) : string :=
  match ts with [] => "" | [t] => t | t :: ts' => t +:+ "?" +:+ marked ts' end.
Fixpoint numbered (i : Z) (ts : list string) : string :=
  match ts with [] => "" | [t] => t | t :: ts' => t +:+ "$" +:+ FormatInt i +:+ numbered (i + 1) ts' end.

Lemma rebind_quiet t : forall b b' rest i, quiet b t = Some b' -> rebind_from (t +:+ rest) i b = t +:+ rebind_from rest i b'.
Proof.
  induction t as [|ch t IH]; intros b b' rest i; [by intros [= ->]|]. rewrite string_app_cons. cbn [quiet rebind_from].
  destruct (Ascii.eqb ch single_quote); [intros Hq; by rewrite (IH _ _ _ _ Hq), string_app_cons|].
  destruct (Ascii.eqb ch "?" && negb b); [done|]. intros Hq. by rewrite (IH _ _ _ _ Hq), string_app_cons.
Qed.

(** The placeholders between texts of whole literals are numbered from one;
    the texts, with the question marks in their literals, stay. *)
Theorem rebind_numbers_placeholders ts : Forall (fun t => quiet false t = Some false) ts ->
  rebind_from (marked ts) 1 false = numbered 1 ts.
Proof.
  generalize 1. intros i Hts. revert i. induction Hts as [|t ts Ht Hts IH]; intros i; [done|]. destruct ts as [|u ts].
  - cbn. rewrite <- (str_app_nil_r t) at 1. by rewrite (rebind_quiet _ _ _ _ _ Ht), str_app_nil_r.
  - change (marked (t :: u :: ts)) with (t +:+ String "?" (marked (u :: ts))). rewrite (rebind_quiet _ _ _ _ _ Ht).
    cbn [rebind_from]. change (Ascii.eqb "?" single_quote) with false. change (Ascii.eqb "?" "?" && negb false) with true. cbn iota.
    by rewrite IH.
Qed.

Example rebind_numbers_placeholders_witness :
  Rebind "postgres" "postgres" "SELECT '?' WHERE a = ? AND b = ?" = "SELECT '?' WHERE a = $1 AND b = $2".
Proof.
  exact (rebind_numbers_placeholders ["SELECT '?' WHERE a = "; " AND b = "; ""] ltac:(repeat constructor)).
Defined.

(** A literal with a placeholder sign in a comment or a quoted name is not one. *)
Example rebind_counts_comments : Rebind "postgres" "" "SELECT 1 -- ok?" = "SELECT 1 -- ok$1".
Proof. reflexivity. Qed.

(** Statements for the driver pgx are built with numbered placeholders, but
    those that are rebound keep their question marks. *)
Example rebind_forgets_pgx : Rebind "pgx" "pgx" "SELECT 1 WHERE a = ?" = "SELECT 1 WHERE a = ?".
Proof. reflexivity. Qed.
