(* ===== verification/Paging.v ===== *)
(** * Pages, cursors and queries (response/pagination.go, response/cursor.go,
      data/query.go, data/pagination.go)

    The parameters of a page and of a cursor from a request's query, their
    arithmetic, links to other pages, the options of queries as the calls they
    make on the builder of statements, and the two paginated selections over
    a database.  The builder and the database are arguments: a statement is
    the list of calls on its builder.  The quotient of two float64 numbers is
    written out; encoding/json is a codec. *)

From S2P Require Import Prelude GoStrings GoURL GoData NetGuard Tx.

#[local] Open Scope go_scope.
#[local] Open Scope string_scope.
#[local] Open Scope list_scope.
#[local] Open Scope Z_scope.

(** ** float64 *)

(** [n/d] to the nearest integer, ties to even. *)
Definition nearest (n d : Z) : Z :=
  let q := n / d in
  let r := n mod d in
  if 2 * r <? d then q else if d <? 2 * r then q + 1 else if Z.even q then q else q + 1.

(** The float64 of an integer, as mantissa and exponent, and its value. *)
Definition float_of_int (n : Z) : Z * Z :=
  let e := Z.max 0 (Z.log2 (Z.abs n) - 52) in (Z.sgn n * nearest (Z.abs n) (2 ^ e), e).
Definition float_value (f : Z * Z) : Z := fst f * 2 ^ snd f.

(** [math.Ceil(x / y)] for positive float64 integers: the quotient is rounded
    to 53 digits. *)
Definition ceil_div (n d : Z) : Z := (n + d - 1) / d.
Definition float_ceil_quotient (x y : Z) : Z :=
  if x <? y then 1
  else
    let s := 52 - Z.log2 (x / y) in
    if 0 <=? s then ceil_div (nearest (x * 2 ^ s) y) (2 ^ s)
    else nearest x (y * 2 ^ (- s)) * 2 ^ (- s).

(** ** Pages *)

Record PageParams := mkPage { Page : Z; PerPage : Z; Sort : string; Order : string }.

Definition Offset (p : PageParams) : Z := if Page p <=? 1 then 0 else i64 ((Page p - 1) * PerPage p).
Definition Limit (p : PageParams) : Z := if PerPage p <=? 0 then 20 else PerPage p.

Record PaginationMeta := mkPMeta { pm_Page : Z; pm_PerPage : Z; TotalItems : Z; TotalPages : Z; HasNext : bool; HasPrev : bool }.

Definition WithTotal (p : PageParams) (total : Z) : PaginationMeta :=
  let limit := Limit p in
  let totalPages :=
    if (0 <? limit) && (0 <? total)
    then float_ceil_quotient (float_value (float_of_int total)) (float_value (float_of_int limit)) else 0 in
  let page := if Page p <? 1 then 1 else Page p in
  mkPMeta page limit total totalPages (page <? totalPages) ((1 <? page) && ((totalPages =? 0) || (page <=? totalPages + 1))).

(** Of several spellings of a parameter the first that is there. *)
Fixpoint first_param (q : string -> string) (names : list string) : string :=
  match names with
  | [] => ""
  | n :: ns => if String.eqb (q n) "" then first_param q ns else q n
  end.

(** The options: a number that is not positive changes nothing. *)
Definition option_size (d : Z) (o : option Z) : Z := match o with Some n => if 0 <? n then n else d | None => d end.

Definition positive_param (raw : string) (d : Z) : Z :=
  match ParseInt raw with Some v => if 0 <? v then v else d | None => d end.

Definition ExtractPagination (q : string -> string) (default_size max_size : option Z) : PageParams :=
  let defaultPageSize := option_size 20 default_size in
  let maxPageSize := option_size 100 max_size in
  let page := positive_param (first_param q ["page"; "p"]) 1 in
  let perPage := positive_param (first_param q ["per_page"; "limit"; "page_size"; "size"]) defaultPageSize in
  let perPage := if maxPageSize <? perPage then maxPageSize else perPage in
  let sort := first_param q ["sort"; "sort_by"; "order_by"] in
  let order := first_param (fun n => ToLower (TrimSpace (q n))) ["order"; "dir"; "direction"] in
  mkPage page perPage sort (if String.eqb order "desc" then "desc" else "asc").

Record Links := mkLinks { Self : string; First : string; Prev : string; Next : string; Last : string }.

(** Encode sorts the keys. *)
Definition page_url (path rawQuery : string) (perPage targetPage : Z) : string :=
  let q := ParseQuery rawQuery in
  path +:+ "?" +:+ Encode (Set_ (Set_ q "page" (FormatInt targetPage)) "per_page" (FormatInt perPage)).

Definition GenerateLinks (path rawQuery : string) (page perPage totalPages : Z) : Links :=
  let buildURL := page_url path rawQuery perPage in
  mkLinks (buildURL page) (buildURL 1) (if 1 <? page then buildURL (page - 1) else "")
    (if (0 <? totalPages) && (page <? totalPages) then buildURL (page + 1) else "")
    (if 0 <? totalPages then buildURL totalPages else "").

Definition link_value (rel url : string) : list string :=
  let q := String (ascii_of_byte 34) "" in
  if String.eqb url "" then [] else ["<" +:+ url +:+ ">; rel=" +:+ q +:+ rel +:+ q].

Definition SetLinkHeader (l : Links) : option string :=
  match link_value "first" (First l) ++ link_value "prev" (Prev l) ++ link_value "next" (Next l) ++ link_value "last" (Last l) with
  | [] => None
  | parts => Some (join_with ", " parts)
  end.

(** ** Cursors *)

Record CursorParams := mkCursor { Cursor : string; c_Limit : Z; Direction : string }.

Definition ExtractCursor (q : string -> string) (default_limit max_limit : option Z) : CursorParams :=
  let maxLimit := option_size 100 max_limit in
  let limit := positive_param (first_param q ["limit"; "per_page"]) (option_size 20 default_limit) in
  let limit := if maxLimit <? limit then maxLimit else limit in
  let direction := first_param (fun n => ToLower (TrimSpace (q n))) ["direction"; "dir"] in
  mkCursor (TrimSpace (q "cursor")) limit (if String.eqb direction "prev" then "prev" else "next").

(** encoding/json on values of any type.  Here and below an error is the one
    the library gives, without the words put before it. *)
Class JsonCodec := {
  json_marshal : any -> result bytes;
  json_unmarshal : bytes -> option any
}.

Section Json.
Context `{JsonCodec}.

Definition EncodeCursor (v : any) : result string :=
  match v with
  | ANil => Ok ""
  | _ => let? data := json_marshal v in Ok (RawURLEncode data)
  end.

(** [Ok None] is the nil of an empty cursor.  The padded encoding is tried
    where the other fails; [url_decode] is base64.URLEncoding. *)
Definition DecodeCursor (url_decode : string -> option bytes) (raw0 : string) : result (option any) :=
  let raw := TrimSpace raw0 in
  if String.eqb raw "" then Ok None
  else
    match (match RawURLDecode raw with Some d => Some d | None => url_decode raw end) with
    | None => Err (ErrMsg "response: invalid cursor encoding")
    | Some data => match json_unmarshal data with
                   | Some v => Ok (Some v)
                   | None => Err (ErrMsg "response: invalid cursor json payload")
                   end
    end.
End Json.

(** ** Queries *)

Inductive cond :=
| CEq (col : string) (v : any)
| CNotEq (col : string) (v : any)
| CGt (col : string) (v : any)
| CGtOrEq (col : string) (v : any)
| CLt (col : string) (v : any)
| CLtOrEq (col : string) (v : any)
| CLike (col pattern : string)
| CILike (col pattern : string)
| CAnd (l : list cond)
| CRaw (pred : any) (args : list any).

(** The calls on a builder. *)
Inductive call :=
| BSelect (cols : list string)
| BFrom (table : string)
| BWhere (c : cond)
| BOrderBy (clause : string)
| BLimit (n : Z)
| BOffset (n : Z)
| BJoin (kind join : string) (rest : list any)
| BGroupBy (col : string)
| BHaving (pred : any) (rest : list any)
| BFromSelect (sub : list call) (alias : string).

Definition builder := list call.
Definition QueryOption := builder -> builder.

Definition ApplyOptions (b : builder) (opts : list (option QueryOption)) : builder :=
  foldl (fun b opt => match opt with Some f => f b | None => b end) b opts.

Definition WithScope (scope : option QueryOption) : QueryOption := fun b => match scope with Some f => f b | None => b end.

Definition Where_ (pred : any) (args : list any) : QueryOption := fun b => b ++ [BWhere (CRaw pred args)].

(** A condition on a column, left out if its name is not clean. *)
Definition where_col (col : string) (c : string -> cond) : QueryOption :=
  fun b => let clean := cleanIdentifier col in if String.eqb clean "" then b else b ++ [BWhere (c clean)].

Definition WhereEq (col : string) (v : any) : QueryOption := where_col col (fun c => CEq c v).
Definition WhereNotEq (col : string) (v : any) : QueryOption := where_col col (fun c => CNotEq c v).
Definition WhereIn (col : string) (vals : any) : QueryOption := where_col col (fun c => CEq c vals).
Definition WhereNotIn (col : string) (vals : any) : QueryOption := where_col col (fun c => CNotEq c vals).
Definition WhereGt (col : string) (v : any) : QueryOption := where_col col (fun c => CGt c v).
Definition WhereGtOrEq (col : string) (v : any) : QueryOption := where_col col (fun c => CGtOrEq c v).
Definition WhereLt (col : string) (v : any) : QueryOption := where_col col (fun c => CLt c v).
Definition WhereLtOrEq (col : string) (v : any) : QueryOption := where_col col (fun c => CLtOrEq c v).
Definition WhereLike (col pattern : string) : QueryOption := where_col col (fun c => CLike c pattern).
Definition WhereILike (col pattern : string) : QueryOption := where_col col (fun c => CILike c pattern).
Definition WhereNull (col : string) : QueryOption := where_col col (fun c => CEq c ANil).
Definition WhereNotNull (col : string) : QueryOption := where_col col (fun c => CNotEq c ANil).
Definition WhereBetween (col : string) (lo hi : any) : QueryOption :=
  where_col col (fun c => CAnd [CGtOrEq c lo; CLtOrEq c hi]).

Definition order_clause (clause : string) : option string :=
  match Fields clause with
  | [] => None
  | part :: rest =>
      let cleanCol := cleanIdentifier part in
      if String.eqb cleanCol "" then None
      else
        let dir := match rest with d :: _ => if EqualFold d "DESC" then "DESC" else "ASC" | [] => "ASC" end in
        Some (cleanCol +:+ " " +:+ dir)
  end.

Definition OrderBy (clauses : list string) : QueryOption := fun b => b ++ map BOrderBy (omap order_clause clauses).
Definition OrderByAsc (col : string) : QueryOption := OrderBy [col +:+ " ASC"].
Definition OrderByDesc (col : string) : QueryOption := OrderBy [col +:+ " DESC"].
Definition Limit_ (n : Z) : QueryOption := fun b => b ++ [BLimit n].
Definition Offset_ (n : Z) : QueryOption := fun b => b ++ [BOffset n].
Definition Join_ (join : string) (rest : list any) : QueryOption := fun b => b ++ [BJoin "INNER" join rest].
Definition LeftJoin (join : string) (rest : list any) : QueryOption := fun b => b ++ [BJoin "LEFT" join rest].
Definition RightJoin (join : string) (rest : list any) : QueryOption := fun b => b ++ [BJoin "RIGHT" join rest].
Definition GroupBy (cols : list string) : QueryOption :=
  fun b => b ++ map BGroupBy (List.filter (fun c => negb (String.eqb c "")) (map cleanIdentifier cols)).
Definition Having (pred : any) (rest : list any) : QueryOption := fun b => b ++ [BHaving pred rest].

(** PageParams.Apply *)
Definition Apply (p : PageParams) : QueryOption :=
  fun b =>
    let b := b ++ [BLimit (u64 (Limit p)); BOffset (u64 (Offset p))] in
    let cleanSort := cleanIdentifier (Sort p) in
    if String.eqb (Sort p) "" || String.eqb cleanSort "" then b
    else
      let order := if String.eqb (ToUpper (TrimSpace (Order p))) "DESC" then "DESC" else "ASC" in
      b ++ [BOrderBy (cleanSort +:+ " " +:+ order)].

(** ** Selections *)

(** What RemoveLimit, RemoveOffset and RemoveColumns take from a builder. *)
Definition is_limit (c : call) : bool := match c with BLimit _ | BOffset _ => true | _ => false end.
Definition is_columns (c : call) : bool := match c with BSelect _ => true | _ => false end.

(** [to_sql] is the text squirrel makes of a builder. *)
Definition buildCountBuilder (to_sql : builder -> string) (b : builder) : builder :=
  let cleanBuilder := List.filter (fun c => negb (is_limit c)) b in
  let upperSQL := ToUpper (to_sql cleanBuilder) in
  if str_contains upperSQL " GROUP BY " || str_contains upperSQL "DISTINCT "
  then [BSelect ["COUNT(*)"]; BFromSelect cleanBuilder "count_sub"]
  else List.filter (fun c => negb (is_columns c)) cleanBuilder ++ [BSelect ["COUNT(*)"]].

Record CursorMeta := mkCMeta { cm_Cursor : string; NextCursor : string; cm_Limit : Z; HasMore : bool }.

Section Select.
Context {T : Type}.
(** The database: the rows of a statement, the number a counting statement
    gives, and the text of a statement. *)
Context (query : builder -> result (list T)) (query_count : builder -> result Z) (to_sql : builder -> string).
(** The column of a row, if the model has it. *)
Context (column : T -> string -> option any) (primary_key : string).
Context `{JsonCodec} (url_decode : string -> option bytes).

Definition PaginateSelect (b : builder) (p : PageParams) : result (list T * PaginationMeta) :=
  let? totalItems := query_count (buildCountBuilder to_sql b) in
  let? items := query (Apply p b) in
  Ok (items, WithTotal p totalItems).

(** The statement of a cursor's page. *)
Definition cursor_query (b : builder) (p : CursorParams) (cleanCol : string) (limit : Z) : builder :=
  let isDescending := negb (String.eqb (Direction p) "prev") in
  let where_ :=
    if String.eqb (Cursor p) "" then []
    else match DecodeCursor url_decode (Cursor p) with
         | Ok (Some v) => [BWhere (if isDescending then CLt cleanCol v else CGt cleanCol v)]
         | _ => []
         end in
  b ++ [BLimit (u64 (i64 (limit + 1)))] ++ where_ ++ [BOrderBy (cleanCol +:+ (if isDescending then " DESC" else " ASC"))].

Definition cursor_column (cursorCol : string) : string :=
  if String.eqb cursorCol "" then (if String.eqb primary_key "" then "id" else primary_key) else cursorCol.

Definition PaginateCursorSelect (b : builder) (p : CursorParams) (cursorCol : string) : result (list T * CursorMeta) :=
  let cleanCol := cleanIdentifier (cursor_column cursorCol) in
  let limit := if c_Limit p <=? 0 then 20 else c_Limit p in
  let? rows := query (cursor_query b p cleanCol limit) in
  let hasMore := limit <? zlen rows in
  let items := if hasMore then ztake limit rows else rows in
  let nextCursor :=
    match (if hasMore then last items else None) with
    | Some lastItem =>
        match column lastItem cleanCol with
        | Some v => match EncodeCursor v with Ok c => c | Err _ => "" end
        | None => ""
        end
    | None => ""
    end in
  Ok (items, mkCMeta (Cursor p) nextCursor limit hasMore).

End Select.
