(* ===== verification/PagingProps.v ===== *)
(** * Theorems about pages, cursors and queries (Paging) *)

From S2P Require Import Prelude GoStrings GoURL GoData NetGuard Tx Paging.

#[local] Open Scope go_scope.
#[local] Open Scope string_scope.
#[local] Open Scope list_scope.
#[local] Open Scope Z_scope.

(** ** The arithmetic of pages *)

Lemma nearest_exact k d : 0 < d -> nearest (k * d) d = k.
Proof.
  intros Hd. unfold nearest. rewrite Z.div_mul, Z.mod_mul by lia. by destruct (Z.ltb_spec (2 * 0) d); [|lia].
Qed.

Lemma nearest_bounds n d : 0 < d -> 2 * n - d <= 2 * d * nearest n d <= 2 * n + d.
Proof.
  intros Hd. unfold nearest. pose proof (Z.div_mod n d ltac:(lia)) as Hq. pose proof (Z.mod_pos_bound n d Hd).
  destruct (Z.ltb_spec (2 * (n mod d)) d); [nia|]. destruct (Z.ltb_spec d (2 * (n mod d))); [nia|]. destruct (Z.even _); nia.
Qed.

Lemma ceil_div_unique n d k : 0 < d -> d * (k - 1) < n <= d * k -> ceil_div n d = k.
Proof. intros Hd Hb. unfold ceil_div. symmetry. apply (Z.div_unique_pos _ _ _ (n + d - 1 - d * k)); lia. Qed.

Lemma ceil_div_bounds n d : 0 < d -> d * (ceil_div n d - 1) < n <= d * ceil_div n d.
Proof. intros Hd. unfold ceil_div. pose proof (Z.div_mod (n + d - 1) d ltac:(lia)). pose proof (Z.mod_pos_bound (n + d - 1) d Hd). lia. Qed.

(** A float64 holds an integer of at most 53 digits. *)
Lemma float_small n : 0 <= n < 2 ^ 53 -> float_of_int n = (n, 0).
Proof.
  intros Hn. unfold float_of_int. assert (Z.log2 (Z.abs n) <= 52) as Hl.
  { rewrite Z.abs_eq by lia. destruct (Z.eq_dec n 0) as [->|]; [done|]. assert (Z.log2 n < 53); [apply Z.log2_lt_pow2; lia|lia]. }
  rewrite Z.max_l by lia. f_equal. rewrite <- (Z.mul_1_r (Z.abs n)). change (2 ^ 0) with 1. rewrite nearest_exact by lia. lia.
Qed.

(** The quotient of two float64 integers, rounded, rounds up to the same
    integer as the exact one, below 2^53. *)
Lemma float_ceil_exact x y : 0 < x < 2 ^ 53 -> 0 < y -> float_ceil_quotient x y = ceil_div x y.
Proof.
  intros Hx Hy. unfold float_ceil_quotient. destruct (Z.ltb_spec x y) as [Hlt|Hge].
  - symmetry. apply ceil_div_unique; lia.
  - assert (1 <= x / y) as Hq by (apply Z.div_le_lower_bound; lia).
    pose proof (Z.log2_spec (x / y) ltac:(lia)) as [Hl1 Hl2]. pose proof (Z.log2_nonneg (x / y)) as Hl0. set (l := Z.log2 (x / y)) in *.
    assert (x / y < 2 ^ 53) as Hq53 by (apply Z.div_lt_upper_bound; nia).
    assert (l <= 52) as Hl52. { assert (l < 53); [|lia]. apply Z.log2_lt_pow2; lia. }
    destruct (Z.leb_spec 0 (52 - l)) as [_|]; [|lia]. set (s := 52 - l).
    pose proof (Z.pow_pos_nonneg 2 s ltac:(lia) ltac:(unfold s; lia)) as Hs.
    assert (2 ^ l * 2 ^ s = 2 ^ 52) as Hpow by (unfold s; rewrite <- Z.pow_add_r by lia; f_equal; lia).
    pose proof (nearest_bounds (x * 2 ^ s) y Hy) as Hn. set (m := nearest _ _) in *.
    pose proof (ceil_div_bounds x y Hy) as Hc. set (k := ceil_div x y) in *.
    assert (x < 2 ^ Z.succ l * y) as Hxl.
    { pose proof (Z.div_mod x y ltac:(lia)). pose proof (Z.mod_pos_bound x y Hy). nia. }
    rewrite Z.pow_succ_r in Hxl by lia.
    (* the distance of two quotients with this denominator is more than that of two floats *)
    assert (y < 2 * 2 ^ s) as Hys.
    { assert (2 ^ l * y <= x) as Hle. { pose proof (Z.div_mod x y ltac:(lia)). pose proof (Z.mod_pos_bound x y Hy). nia. }
      assert (2 ^ l * y < 2 ^ l * (2 * 2 ^ s)); [|nia]. replace (2 ^ l * (2 * 2 ^ s)) with (2 * 2 ^ 52) by lia. lia. }
    apply ceil_div_unique; [done|]. split; [nia|].
    (* rounding does not pass the integer above *)
    destruct (Z.eq_dec x (y * k)) as [He|Hne].
    + unfold m. rewrite He. replace (y * k * 2 ^ s) with (k * 2 ^ s * y) by lia. rewrite nearest_exact by done. lia.
    + nia.
Qed.

(** The pages of a listing. *)
Lemma page_holds_row p total : 0 <= total < 2 ^ 53 -> 0 < Limit p < 2 ^ 53 ->
  TotalPages (WithTotal p total) = ceil_div total (Limit p).
Proof.
  intros Ht Hl. unfold WithTotal. cbn [TotalPages]. destruct (Z.ltb_spec 0 (Limit p)); [|lia]. destruct (Z.ltb_spec 0 total) as [Hpos|Hz]; cbn [andb].
  - rewrite !float_small by lia. unfold float_value. cbn [fst snd]. rewrite !Z.mul_1_r. by apply float_ceil_exact; lia.
  - symmetry. apply ceil_div_unique; lia.
Qed.

(** What a request's parameters can be. *)
Lemma extracted_bounds q d m : 0 < option_size 100 m -> 0 < option_size 20 d ->
  let p := ExtractPagination q d m in 1 <= Page p /\ 1 <= PerPage p <= option_size 100 m /\ Limit p = PerPage p.
Proof.
  intros Hm Hd. unfold ExtractPagination. cbv zeta. cbn [Page PerPage Limit].
  assert (forall raw dflt, 0 < dflt -> 0 < positive_param raw dflt) as Hpos.
  { intros raw dflt H0. unfold positive_param. destruct (ParseInt raw) as [v|]; [|done]. by destruct (Z.ltb_spec 0 v). }
  pose proof (Hpos (first_param q ["page"; "p"]) 1 ltac:(lia)).
  pose proof (Hpos (first_param q ["per_page"; "limit"; "page_size"; "size"]) _ Hd). set (per := positive_param _ (option_size 20 d)) in *.
  unfold Limit. cbn [PerPage]. destruct (Z.ltb_spec (option_size 100 m) per).
  - destruct (Z.leb_spec (option_size 100 m) 0); lia.
  - destruct (Z.leb_spec per 0); lia.
Qed.

Lemma option_size_pos d o : 0 < d -> 0 < option_size d o.
Proof. intros Hd. unfold option_size. destruct o as [n|]; [|done]. by destruct (Z.ltb_spec 0 n). Qed.

(** C33: The arithmetic of pages.  Whatever a request asks for, its page is at
    least the first and its size between one and the configured maximum.  As
    long as the place of the page fits into 63 bits and the listing has less
    than 2^53 rows, the offset is that of the page, the number of pages,
    computed in floating point, is exact, a page up to it holds a row and one
    beyond holds none, and there is a next page exactly if rows remain. *)
Theorem page_arithmetic q d m total :
  let p := ExtractPagination q d m in
  let meta := WithTotal p total in
  1 <= Page p /\ 1 <= PerPage p <= option_size 100 m /\
  (option_size 100 m < 2 ^ 53 -> 0 <= total < 2 ^ 53 -> Page p * PerPage p < 2 ^ 63 ->
   Offset p = (Page p - 1) * PerPage p /\
   TotalPages meta = ceil_div total (PerPage p) /\
   (Page p <= TotalPages meta <-> Offset p < total) /\
   (HasNext meta = true <-> Page p * PerPage p < total) /\
   (HasPrev meta = true <-> 1 < Page p /\ (total = 0 \/ Page p <= TotalPages meta + 1))).
Proof.
  intros p meta. pose proof (option_size_pos 100 m ltac:(lia)) as Hm. pose proof (option_size_pos 20 d ltac:(lia)) as Hd.
  destruct (extracted_bounds q d m Hm Hd) as (Hp & Hper & Hl). fold p in Hp, Hper, Hl. split; [done|]. split; [done|].
  intros Hmax Ht Hfit. assert (Offset p = (Page p - 1) * PerPage p) as Ho.
  { unfold Offset. destruct (Z.leb_spec (Page p) 1); [nia|]. apply i64_id. unfold in_i64. nia. }
  assert (TotalPages meta = ceil_div total (PerPage p)) as Htp by (rewrite <- Hl; apply page_holds_row; lia).
  pose proof (ceil_div_bounds total (PerPage p) ltac:(lia)) as Hc. rewrite <- Htp in Hc.
  assert (0 <= TotalPages meta) as Htp0 by nia.
  assert (total = 0 <-> TotalPages meta = 0) as Hz by (split; nia).
  split; [done|]. split; [done|]. split; [rewrite Ho; split; nia|].
  change (HasNext meta) with ((if Page p <? 1 then 1 else Page p) <? TotalPages meta).
  change (HasPrev meta) with ((1 <? (if Page p <? 1 then 1 else Page p)) && ((TotalPages meta =? 0) || ((if Page p <? 1 then 1 else Page p) <=? TotalPages meta + 1))).
  destruct (Z.ltb_spec (Page p) 1); [lia|]. rewrite andb_true_iff, orb_true_iff, !Z.ltb_lt, Z.eqb_eq, Z.leb_le. split; [split; nia|]. by rewrite Hz.
Qed.

Definition a_query (n : string) : string := if String.eqb n "p" then "3" else if String.eqb n "limit" then "500" else "".

Example page_arithmetic_witness :
  let p := ExtractPagination a_query None None in
  Page p = 3 /\ PerPage p = 100 /\ Offset p = 200 /\ TotalPages (WithTotal p 201) = 3 /\ HasNext (WithTotal p 201) = false.
Proof.
  cbv zeta. destruct (page_arithmetic a_query None None 201) as (_ & _ & H).
  destruct (H ltac:(done) ltac:(done) ltac:(done)) as (Ho & Ht & _ & _).
  split; [reflexivity|]. split; [reflexivity|]. split; [exact Ho|]. split; [exact Ht|]. vm_compute. reflexivity.
Defined.

(** A page whose place does not fit wraps around: the rows of the first page
    of the table are read again, or the statement gets an offset of 2^64. *)
Example offset_wraps :
  let p n := ExtractPagination (fun k => if String.eqb k "page" then n else if String.eqb k "per_page" then "64" else "") None None in
  Offset (p "288230376151711745") = 0 /\ u64 (Offset (p "144115188075855873")) = 2 ^ 63.
Proof. vm_compute. done. Qed.

(** ** No text of a request becomes SQL *)

Definition plain_clause (s : string) : bool := string_forallb (fun a => identifier_char a || Ascii.eqb a " ") s.

Fixpoint cond_plain (c : cond) : bool :=
  match c with
  | CEq col _ | CNotEq col _ | CGt col _ | CGtOrEq col _ | CLt col _ | CLtOrEq col _ | CLike col _ | CILike col _ =>
      string_forallb identifier_char col && negb (String.eqb col "")
  | CAnd l => forallb cond_plain l
  | CRaw _ _ => false
  end.

(** A call whose texts are names and directions only; values are arguments of
    the statement, not part of its text. *)
Definition call_plain (c : call) : bool :=
  match c with
  | BWhere c => cond_plain c
  | BOrderBy clause => plain_clause clause
  | BGroupBy col => plain_clause col
  | BLimit _ | BOffset _ => true
  | BSelect _ | BFrom _ | BJoin _ _ _ | BHaving _ _ | BFromSelect _ _ => false
  end.

(** The options that take names and values, as a request might give them. *)
Inductive by_name : QueryOption -> Prop :=
| by_eq col v : by_name (WhereEq col v)
| by_not_eq col v : by_name (WhereNotEq col v)
| by_in col v : by_name (WhereIn col v)
| by_not_in col v : by_name (WhereNotIn col v)
| by_gt col v : by_name (WhereGt col v)
| by_gte col v : by_name (WhereGtOrEq col v)
| by_lt col v : by_name (WhereLt col v)
| by_lte col v : by_name (WhereLtOrEq col v)
| by_like col v : by_name (WhereLike col v)
| by_ilike col v : by_name (WhereILike col v)
| by_null col : by_name (WhereNull col)
| by_not_null col : by_name (WhereNotNull col)
| by_between col lo hi : by_name (WhereBetween col lo hi)
| by_order clauses : by_name (OrderBy clauses)
| by_asc col : by_name (OrderByAsc col)
| by_desc col : by_name (OrderByDesc col)
| by_group cols : by_name (GroupBy cols)
| by_limit n : by_name (Limit_ n)
| by_offset n : by_name (Offset_ n)
| by_page p : by_name (Apply p)
| by_scope o : by_name o -> by_name (WithScope (Some o)).

Lemma where_plain col c b : (forall n, string_forallb identifier_char n = true -> n <> "" -> cond_plain (c n) = true) ->
  exists more, where_col col c b = b ++ more /\ forallb call_plain more = true.
Proof.
  intros Hc. unfold where_col. destruct (String.eqb_spec (cleanIdentifier col) "") as [|Hne]; [exists []; by rewrite app_nil_r|].
  eexists. split; [done|]. cbn. rewrite Hc; [done|apply clean_plain|done].
Qed.

Lemma plain_of_identifier s : string_forallb identifier_char s = true -> plain_clause s = true.
Proof.
  unfold plain_clause. induction s as [|a s IH]; [done|]. cbn. intros [Ha Hs]%andb_true_iff. by rewrite Ha, (IH Hs).
Qed.

Lemma plain_clause_app s t : plain_clause (s +:+ t) = plain_clause s && plain_clause t.
Proof. apply string_forallb_app. Qed.

Lemma order_plain clauses : forallb call_plain (map BOrderBy (omap order_clause clauses)) = true.
Proof.
  induction clauses as [|c cs IH]; [done|]. cbn. destruct (order_clause c) as [s|] eqn:Hs; [|done]. cbn. rewrite IH, andb_true_r.
  unfold order_clause in Hs. destruct (Fields c) as [|part rest]; [done|]. destruct (String.eqb _ ""); [done|]. injection Hs as <-.
  rewrite !plain_clause_app, (plain_of_identifier _ (clean_plain part)). cbn [andb].
  destruct rest as [|d ?]; [done|]. by destruct (EqualFold d "DESC").
Qed.

Lemma group_plain cols : forallb call_plain (map BGroupBy (List.filter (fun c => negb (String.eqb c "")) (map cleanIdentifier cols))) = true.
Proof.
  induction cols as [|c cs IH]; [done|]. cbn. destruct (negb _); [|done]. cbn. by rewrite (plain_of_identifier _ (clean_plain c)), IH.
Qed.

Lemma by_name_plain o : by_name o -> forall b, exists more, o b = b ++ more /\ forallb call_plain more = true.
Proof.
  assert (forall n, string_forallb identifier_char n = true -> n <> "" -> string_forallb identifier_char n && negb (String.eqb n "") = true) as Hid.
  { intros n Hn Hne. rewrite Hn. by destruct (String.eqb_spec n ""). }
  induction 1 as [| | | | | | | | | | | |col lo hi|clauses|col|col|cols|n|n|p|o _ IH]; intros b;
    try (apply where_plain; intros; cbn; by apply Hid).
  - apply where_plain. intros n Hn Hne. cbn. by rewrite !Hid.
  - eexists. split; [done|]. apply order_plain.
  - eexists. split; [done|]. apply order_plain.
  - eexists. split; [done|]. apply order_plain.
  - eexists. split; [done|]. apply group_plain.
  - by eexists.
  - by eexists.
  - unfold Apply. destruct (_ || _); [by eexists|]. eexists. rewrite <- app_assoc. split; [done|]. cbn.
    rewrite !plain_clause_app, (plain_of_identifier _ (clean_plain (Sort p))). by destruct (String.eqb _ "DESC").
  - apply IH.
Qed.

(** Nothing a request names becomes SQL.  Options that take names of
    columns, directions and values, in any number and order, with any texts
    at all, only add calls in which every text is made of letters, digits,
    underscores, dots and single spaces, and whose values are arguments; what
    the builder held before them stays. *)
Theorem names_are_not_sql b opts : Forall (fun o => match o with Some f => by_name f | None => True end) opts ->
  exists more, ApplyOptions b opts = b ++ more /\ forallb call_plain more = true.
Proof.
  intros Ho. unfold ApplyOptions. revert b. induction Ho as [|o opts Ho Hopts IH]; intros b; cbn [foldl].
  - exists []. by rewrite app_nil_r.
  - destruct o as [f|]; [|apply IH]. destruct (by_name_plain f Ho b) as (m1 & -> & Hm1). destruct (IH (b ++ m1)) as (m2 & -> & Hm2).
    exists (m1 ++ m2). rewrite app_assoc, forallb_app, Hm1, Hm2. done.
Qed.

Definition nasty : string := "id; DROP TABLE users".

Example names_are_not_sql_witness :
  exists more, ApplyOptions [BFrom "files"] [Some (OrderBy [nasty; "name desc, 1"; "size desc"]); None; Some (WhereEq "owner_id" (AStr nasty))]
    = [BFrom "files"] ++ more /\ forallb call_plain more = true.
Proof.
  exact (names_are_not_sql [BFrom "files"] [Some (OrderBy [nasty; "name desc, 1"; "size desc"]); None; Some (WhereEq "owner_id" (AStr nasty))]
    ltac:(repeat constructor)).
Defined.

(** A condition on a name that is not clean is left out, so that the
    selection has more rows than it was to have. *)
Theorem unclean_condition_is_dropped col v b : cleanIdentifier col = "" -> WhereEq col v b = b.
Proof. intros Hc. unfold WhereEq, where_col. by rewrite Hc. Qed.

Example unclean_condition_is_dropped_witness : WhereEq "lower(email)" (AStr "a@b.c") [BFrom "users"] = [BFrom "users"].
Proof. exact (unclean_condition_is_dropped "lower(email)" (AStr "a@b.c") [BFrom "users"] eq_refl). Defined.

(** ** Walking with a cursor *)

(** encoding/json on identifiers: a number read back into a value of any type
    is a float64. *)
Class JsonNumbers (J : JsonCodec) := {
  json_numbers : forall n, 0 <= n -> exists data,
    json_marshal (AInt64 n) = Ok data /\ Forall is_byte data /\ data <> [] /\
    json_unmarshal data = Some (AFloat (fst (float_of_int n)) (snd (float_of_int n)))
}.

(** A table with one column, its identifiers, held in falling order, and the
    statements of a cursor on it. *)
Definition holds (c : cond) (id : Z) : bool :=
  match c with
  | CLt _ (AFloat m e) => id <? float_value (m, e)
  | CGt _ (AFloat m e) => float_value (m, e) <? id
  | _ => true
  end.

Fixpoint select_rows (table : list Z) (b : builder) : list Z :=
  match b with
  | [] => table
  | BWhere c :: b' => select_rows (List.filter (holds c) table) b'
  | BLimit n :: b' => ztake n (select_rows table b')
  | BOrderBy o :: b' => select_rows (if HasSuffix o " ASC" then rev table else table) b'
  | _ :: b' => select_rows table b'
  end.

Section Walk.
Context `{JN : !JsonNumbers J} (url_decode : string -> option bytes).

Definition cursor_page (table : list Z) (limit : Z) (cursor : string) : result (list Z * CursorMeta) :=
  PaginateCursorSelect (fun b => Ok (select_rows table b)) (fun id _ => Some (AInt64 id)) "id" url_decode [BFrom "files"]
    (mkCursor cursor limit "next") "".

(** Following the cursors from page to page, at most [fuel] times. *)
Fixpoint walk (table : list Z) (limit : Z) (fuel : nat) (cursor : string) : list (list Z) :=
  match fuel with
  | O => []
  | S n =>
      match cursor_page table limit cursor with
      | Ok (items, meta) => items :: (if HasMore meta then walk table limit n (NextCursor meta) else [])
      | Err _ => []
      end
  end.

Definition cursor_of (id : Z) : string := match EncodeCursor (AInt64 id) with Ok c => c | Err _ => "" end.

Definition url_digit_at (n : Z) : bool := negb (is_space (url_digit n)).

Lemma url_digit_spaceless n : 0 <= n < 64 -> is_space (url_digit n) = false.
Proof.
  intros Hn. apply negb_true_iff. apply (below_forallb 64 url_digit_at); [vm_compute; reflexivity|lia].
Qed.

Lemma RawURLEncode_spaceless b : Forall is_byte b -> spaceless (RawURLEncode b) = true.
Proof. apply RawURLEncode_all. intros n Hn. by rewrite url_digit_spaceless. Qed.

Lemma RawURLEncode_ne b : b <> [] -> RawURLEncode b <> "".
Proof. destruct b as [|x [|y [|z b]]]; done. Qed.

Lemma decode_cursor id : 0 <= id -> cursor_of id <> "" /\
  DecodeCursor url_decode (cursor_of id) = Ok (Some (AFloat (fst (float_of_int id)) (snd (float_of_int id)))).
Proof.
  intros Hid. destruct (json_numbers id Hid) as (data & Hm & Hb & Hne & Hu). unfold cursor_of, EncodeCursor. rewrite Hm. cbn [rbind].
  split; [by apply RawURLEncode_ne|]. unfold DecodeCursor. rewrite TrimSpace_spaceless by by apply RawURLEncode_spaceless.
  destruct (String.eqb_spec (RawURLEncode data) "") as [He|_]; [by apply RawURLEncode_ne in He|].
  by rewrite RawURLDecode_Encode, Hu.
Qed.

(** The page behind a cursor. *)
Lemma cursor_page_eq table limit cursor bound : 0 < limit < 2 ^ 62 ->
  (cursor = "" /\ bound = None) \/ (exists id, 0 <= id /\ cursor = cursor_of id /\ bound = Some (float_value (float_of_int id))) ->
  let rest := match bound with Some v => List.filter (fun id => id <? v) table | None => table end in
  cursor_page table limit cursor =
    Ok (if limit <? zlen (ztake (limit + 1) rest)
        then (ztake limit (ztake (limit + 1) rest),
              mkCMeta cursor (match last (ztake limit (ztake (limit + 1) rest)) with Some id => cursor_of id | None => "" end) limit true)
        else (ztake (limit + 1) rest, mkCMeta cursor "" limit false)).
Proof.
  intros Hl Hcur rest. unfold cursor_page, PaginateCursorSelect. cbn [c_Limit Cursor rbind].
  destruct (Z.leb_spec limit 0); [lia|]. change (cleanIdentifier (cursor_column "id" "")) with "id".
  assert (select_rows table (cursor_query url_decode [BFrom "files"] (mkCursor cursor limit "next") "id" limit) = ztake (limit + 1) rest) as ->.
  { unfold cursor_query. cbn [Direction Cursor]. change (negb (String.eqb "next" "prev")) with true. cbn iota.
    rewrite i64_id by (unfold in_i64; lia). unfold u64. rewrite Z.mod_small by lia. unfold rest.
    destruct Hcur as [[-> ->]|(id & Hid & -> & ->)]; [done|].
    destruct (decode_cursor id Hid) as [Hne Hdec]. rewrite Hdec. destruct (String.eqb_spec (cursor_of id) ""); [done|].
    cbn [app select_rows]. change (HasSuffix ("id" +:+ " DESC") " ASC") with false. done. }
  destruct (limit <? _); [|done]. destruct (last _); done.
Qed.

Lemma last_ztake_Some (l : list Z) n : 0 < n -> l <> [] -> exists x, last (ztake n l) = Some x /\ exists pre, ztake n l = pre ++ [x].
Proof.
  intros Hn Hl. assert (ztake n l <> []) as Hne.
  { destruct l as [|y l]; [done|]. unfold ztake. destruct (Z.to_nat n) eqn:He; [lia|done]. }
  destruct (exists_last Hne) as (pre & x & Hx). exists x. rewrite Hx, last_snoc. eauto.
Qed.

Lemma StronglySorted_filter_above (pre post : list Z) x :
  StronglySorted Z.gt (pre ++ x :: post) -> List.filter (fun id => id <? x) (pre ++ x :: post) = post.
Proof.
  intros Hs. rewrite List.filter_app. cbn. rewrite Z.ltb_irrefl.
  assert (forall l, Forall (fun y => y < x) l -> List.filter (fun id => id <? x) l = l) as Hkeep.
  { induction 1 as [|y l Hy _ IH]; [done|]. cbn. rewrite (proj2 (Z.ltb_lt y x) Hy). by rewrite IH. }
  assert (forall l, Forall (fun y => x < y) l -> List.filter (fun id => id <? x) l = []) as Hdrop.
  { induction 1 as [|y l Hy _ IH]; [done|]. cbn. destruct (Z.ltb_spec y x); [lia|done]. }
  rewrite Hdrop, Hkeep; [done| |].
  - induction pre as [|p pre IH]; [|by inversion Hs; auto]. inversion Hs as [|? ? _ Hf]; subst. eapply Forall_impl; [exact Hf|]. intros; lia.
  - clear Hkeep Hdrop. induction pre as [|p pre IH]; [done|]. inversion Hs as [|? ? Hs' Hf]; subst. apply Forall_cons. split; [|by apply IH].
    rewrite Forall_forall in Hf. specialize (Hf x). lazymatch type of Hf with ?Q -> _ => assert Q as Hin by set_solver end. specialize (Hf Hin). lia.
Qed.

Lemma walk_suffix limit table : 0 < limit < 2 ^ 62 -> StronglySorted Z.gt table -> Forall (fun id => 0 <= id < 2 ^ 53) table ->
  forall fuel done_ rest cursor, table = done_ ++ rest -> (length rest < fuel)%nat -> rest <> [] \/ done_ = [] ->
    (cursor = "" /\ done_ = []) \/ (exists pre id, done_ = pre ++ [id] /\ cursor = cursor_of id) ->
    concat (walk table limit fuel cursor) = rest.
Proof.
  intros Hl Hs Hr. induction fuel as [|fuel IH]; intros done_ rest cursor Ht Hf Hne Hc; [lia|]. cbn [walk].
  assert (exists bound, ((cursor = "" /\ bound = None) \/ (exists id, 0 <= id /\ cursor = cursor_of id /\ bound = Some (float_value (float_of_int id)))) /\
            match bound with Some v => List.filter (fun id => id <? v) table | None => table end = rest) as (bound & Hb & Hrest).
  { destruct Hc as [[-> ->]|(pre & id & -> & ->)]; [exists None; split; [by left|done]|].
    assert (0 <= id < 2 ^ 53) as Hid by (rewrite Forall_forall in Hr; apply Hr; rewrite Ht; set_solver).
    exists (Some (float_value (float_of_int id))). split; [right; exists id; split_and!; [lia|done|done]|].
    rewrite float_small by done. unfold float_value. cbn [fst snd]. rewrite Z.mul_1_r. rewrite <- app_assoc in Ht. cbn in Ht.
    subst table. by apply StronglySorted_filter_above. }
  rewrite (cursor_page_eq table limit cursor bound Hl Hb). rewrite Hrest.
  destruct (Z.ltb_spec limit (zlen (ztake (limit + 1) rest))) as [Hmore|Hfew].
  - assert (limit < zlen rest) as Hlen by (rewrite zlen_ztake in Hmore; lia).
    assert (ztake limit (ztake (limit + 1) rest) = ztake limit rest) as -> by (unfold ztake; rewrite take_take; f_equal; lia).
    destruct (last_ztake_Some rest limit ltac:(lia)) as (x & Hx & pre & Hpre). { intros Hn. rewrite Hn in Hlen. change (zlen []) with 0 in Hlen. lia. }
    rewrite Hx. cbn [HasMore NextCursor concat]. rewrite <- (ztake_zdrop limit rest) at 2. f_equal.
    apply (IH (done_ ++ ztake limit rest)).
    + by rewrite <- app_assoc, ztake_zdrop.
    + unfold zlen, zdrop in *. rewrite length_drop. lia.
    + left. intros He. assert (zlen (zdrop limit rest) = 0) as Hz by by rewrite He. rewrite zlen_zdrop in Hz. lia.
    + right. exists (done_ ++ pre), x. by rewrite Hpre, app_assoc.
  - cbn [HasMore concat]. rewrite app_nil_r. apply ztake_all. rewrite zlen_ztake in Hfew. lia.
Qed.

(** C34: A walk with cursors sees every row once.  From the first page, each
    next one asked for with the cursor the last one gave, the pages together
    are the table in its order, no row twice and none left out, and they end,
    for identifiers a float64 holds. *)
Theorem cursor_walk_sees_all table limit :
  0 < limit < 2 ^ 62 -> StronglySorted Z.gt table -> Forall (fun id => 0 <= id < 2 ^ 53) table ->
  concat (walk table limit (S (length table)) "") = table.
Proof. intros Hl Hs Hr. apply (walk_suffix limit table Hl Hs Hr _ []); [done|lia|by right|by left]. Qed.

End Walk.

(** Decimal text, and nothing else, as a codec for examples. *)
#[local] Instance decimal_codec : JsonCodec := {|
  json_marshal v := match v with AInt64 n => Ok (bytes_of_string (FormatInt n)) | _ => Err (ErrMsg "json") end;
  json_unmarshal d := match parse_int (string_of_bytes d) with
                      | Some n => Some (AFloat (fst (float_of_int n)) (snd (float_of_int n))) | None => None end
|}.

#[local] Instance decimal_numbers : JsonNumbers decimal_codec.
Proof.
  split. intros n _. exists (bytes_of_string (FormatInt n)). split; [done|]. split; [apply bytes_of_string_range|]. split.
  - intros He. apply (f_equal string_of_bytes) in He. rewrite string_bytes_id in He. pose proof (parse_FormatInt n) as Hp. by rewrite He in Hp.
  - cbn. by rewrite string_bytes_id, parse_FormatInt.
Qed.

Example cursor_walk_sees_all_witness : concat (walk (fun _ => None) [9; 7; 4; 3; 1] 2 6 "") = [9; 7; 4; 3; 1].
Proof.
  exact (cursor_walk_sees_all (fun _ => None) [9; 7; 4; 3; 1] 2 ltac:(lia) ltac:(repeat constructor; lia) ltac:(repeat constructor; lia)).
Defined.

(** Beyond 2^53 the identifier in the cursor is rounded.  Rounded up, the
    same page comes again and again; rounded down, a row is passed over. *)
Example large_identifiers_repeat :
  walk (fun _ => None) [2 ^ 53 + 3; 5] 1 3 "" = [[2 ^ 53 + 3]; [2 ^ 53 + 3]; [2 ^ 53 + 3]].
Proof. vm_compute. done. Qed.

Example large_identifiers_are_skipped :
  walk (fun _ => None) [2 ^ 53 + 1; 2 ^ 53; 5] 1 9 "" = [[2 ^ 53 + 1]; [5]].
Proof. vm_compute. done. Qed.
