(* ===== verification/GoReflect.v ===== *)
(** * Types and values as package reflect shows them

    A finite universe of Go types with the tags of their fields, values of
    those types as trees, the zero value, and the permission to set a part of
    a value.  Pointers are trees too: two pointers to one variable and types
    that contain themselves are not represented.  [dbval] are the values a
    database driver passes. *)

From S2P Require Import Prelude GoStrings GoData.

#[local] Open Scope string_scope.
#[local] Open Scope list_scope.
#[local] Open Scope Z_scope.

(** ** Types *)

Record StructField := mkField { f_Name : string; f_Exported : bool; f_Anonymous : bool; f_Tag : list (string * string) }.

(** [TString] is a type of kind string, with its name, [TInt] one of an
    integer kind of some width, [TTime] is time.Time, a structure without
    exported fields, and [TOther] any type of another kind. *)
Inductive width := W8 | W16 | W32 | W64.
Definition bits (w : width) : Z := match w with W8 => 8 | W16 => 16 | W32 => 32 | W64 => 64 end.

Inductive gotype :=
| TString (name : string)
| TInt (signed : bool) (w : width)
| TTime
| TPtr (t : gotype)
| TSlice (t : gotype)
| TArray (n : nat) (t : gotype)
| TStruct (fs : list (StructField * gotype))
| TOther (name : string).

Lemma gotype_ind' (Q : gotype -> Prop) :
  (forall n, Q (TString n)) -> (forall s n, Q (TInt s n)) -> Q TTime -> (forall t, Q t -> Q (TPtr t)) -> (forall t, Q t -> Q (TSlice t)) ->
  (forall n t, Q t -> Q (TArray n t)) -> (forall fs, Forall (fun ft => Q ft.2) fs -> Q (TStruct fs)) -> (forall n, Q (TOther n)) ->
  forall t, Q t.
Proof.
  intros Hs Hi Ht Hp Hl Ha Hf Ho. fix IH 1. intros [n|s n| |t|t|n t|fs|n];
    [apply Hs|apply Hi|exact Ht|apply Hp, IH|apply Hl, IH|apply Ha, IH|apply Hf|apply Ho].
  induction fs as [|[f t] fs IHfs]; constructor; [apply IH|exact IHfs].
Qed.

(** reflect.StructTag.Get *)
Definition tag_get (f : StructField) (key : string) : string :=
  match List.find (fun kv => String.eqb kv.1 key) (f_Tag f) with Some kv => kv.2 | None => "" end.

(** ** Values *)

Inductive goval :=
| VString (s : string)
| VInt (n : Z)
| VTime (t : Z)
| VPtr (o : option goval)
| VSlice (o : option (list goval))
| VArray (l : list goval)
| VStruct (l : list goval)
| VOther (a : any).

Fixpoint zero (t : gotype) : goval :=
  match t with
  | TString _ => VString ""
  | TInt _ _ => VInt 0
  | TTime => VTime 0
  | TPtr _ => VPtr None
  | TSlice _ => VSlice None
  | TArray n t => VArray (replicate n (zero t))
  | TStruct fs => VStruct (map (fun ft => zero ft.2) fs)
  | TOther _ => VOther ANil
  end.

(** An integer of the kind, and the conversion of one to it. *)
Definition int_fits (signed : bool) (w : width) (n : Z) : bool :=
  if signed then (- 2 ^ (bits w - 1) <=? n) && (n <? 2 ^ (bits w - 1)) else (0 <=? n) && (n <? 2 ^ bits w).
Definition int_convert (signed : bool) (w : width) (n : Z) : Z :=
  if signed then (n + 2 ^ (bits w - 1)) mod 2 ^ bits w - 2 ^ (bits w - 1) else n mod 2 ^ bits w.

(** Two lists of one length, element by element. *)
Definition forallb2 {A B} (p : A -> B -> bool) : list A -> list B -> bool :=
  fix go l1 l2 :=
    match l1, l2 with
    | [], [] => true
    | x :: l1', y :: l2' => p x y && go l1' l2'
    | _, _ => false
    end.

Fixpoint typed (t : gotype) (v : goval) : bool :=
  match t, v with
  | TString _, VString _ => true
  | TInt s w, VInt n => int_fits s w n
  | TTime, VTime _ => true
  | TPtr t, VPtr None => true
  | TPtr t, VPtr (Some v) => typed t v
  | TSlice t, VSlice None => true
  | TSlice t, VSlice (Some l) => forallb (typed t) l
  | TArray n t, VArray l => (length l =? n)%nat && forallb (typed t) l
  | TStruct fs, VStruct l => forallb2 (fun ft v => typed ft.2 v) fs l
  | TOther _, VOther _ => true
  | _, _ => false
  end.

Lemma typed_zero t : typed t (zero t) = true.
Proof.
  induction t as [n|s w| |t IH|t IH|n t IH|fs IH|n] using gotype_ind'; cbn [zero typed]; try done.
  - by destruct s, w.
  - rewrite length_replicate, Nat.eqb_refl. cbn [andb]. apply forallb_forall. intros x Hx%list_elem_of_In.
    by apply elem_of_replicate in Hx as [-> _].
  - induction IH as [|[f t] fs Ht _ IHfs]; cbn in *; [done|]. by rewrite Ht, IHfs.
Qed.

(** ** Permission to set

    A value found through a pointer or in a slice has an address; an
    unexported field taints what is found below it, an embedded one only
    itself. *)
Record flags := mkFlags { fl_Addr : bool; fl_StickyRO : bool; fl_EmbedRO : bool }.

Definition CanSet (fl : flags) : bool := fl_Addr fl && negb (fl_StickyRO fl || fl_EmbedRO fl).
Definition flags_elem (fl : flags) : flags := mkFlags true (fl_StickyRO fl) (fl_EmbedRO fl).
Definition flags_index (fl : flags) : flags := mkFlags true (fl_StickyRO fl || fl_EmbedRO fl) false.
Definition flags_array (fl : flags) : flags := mkFlags (fl_Addr fl) (fl_StickyRO fl || fl_EmbedRO fl) false.
Definition flags_field (f : StructField) (fl : flags) : flags :=
  mkFlags (fl_Addr fl) (fl_StickyRO fl || (negb (f_Exported f) && negb (f_Anonymous f)))
    (negb (f_Exported f) && f_Anonymous f).

(** ** Values of a database *)

Inductive dbval :=
| DNull
| DInt (n : Z)
| DText (s : string)
| DBytes (b : bytes)
| DTime (t : Z)
| DValue (a : any).
