(* ===== verification/Secrets.v ===== *)
(** * Secrets in structures, logs and hashes (security/crypto/binder_encrypt.go,
      security/crypto/hash.go, security/privacy)

    [ProcessStruct] encrypts or decrypts the tagged fields of a value by
    reflection, [EncryptedString] is a string that is encrypted on its way to
    the database, [HashPassword] and [VerifyPassword] store passwords, the
    masker takes secrets out of log records and [SanitizeMap] out of maps.
    AES-GCM and Argon2id are arguments. *)

From S2P Require Import Prelude GoStrings GoData CryptoPrims NetGuard Tokens GoReflect.

#[local] Open Scope go_scope.
#[local] Open Scope string_scope.
#[local] Open Scope list_scope.
#[local] Open Scope Z_scope.

(** ** Encrypting fields *)

Definition ErrUnaddressableSlice : gerror :=
  ErrMsg "ztatic/crypto: slice items must be pointers or addressable (use []*Struct or &[]Struct) for field encryption".

Definition ztaticTag : string := "ztatic".

Definition tagged (f : StructField) : bool := str_contains (tag_get f ztaticTag) "encrypt".

Definition containsEncryptTag (t : gotype) : bool :=
  match t with
  | TPtr (TStruct fs) | TStruct fs => existsb (fun ft => tagged ft.1) fs
  | _ => false
  end.

(** The kinds of fields that are descended into. *)
Definition nested (t : gotype) : bool :=
  match t with TStruct _ | TTime | TPtr _ | TSlice _ | TArray _ _ => true | _ => false end.

Definition is_pointer (t : gotype) : bool := match t with TPtr _ => true | _ => false end.

(** The loops over fields and elements stop at the first error; what was set
    before it stays set. *)
Definition fields_loop (step : StructField -> gotype -> goval -> nat -> goval * nat * option gerror) :
    list (StructField * gotype) -> list goval -> nat -> list goval * nat * option gerror :=
  fix go fs vs i :=
    match fs, vs with
    | (f, t) :: fs', v :: vs' =>
        match step f t v i with
        | (v1, i1, Some er) => (v1 :: vs', i1, Some er)
        | (v1, i1, None) => let '(vs1, i2, er) := go fs' vs' i1 in (v1 :: vs1, i2, er)
        end
    | _, _ => (vs, i, None)
    end.

Definition elems_loop (step : goval -> nat -> goval * nat * option gerror) :
    list goval -> nat -> list goval * nat * option gerror :=
  fix go vs i :=
    match vs with
    | v :: vs' =>
        match step v i with
        | (v1, i1, Some er) => (v1 :: vs', i1, Some er)
        | (v1, i1, None) => let '(vs1, i2, er) := go vs' i1 in (v1 :: vs1, i2, er)
        end
    | [] => ([], i, None)
    end.

Section Process.
(** [rand i] is the nonce the [i]-th encryption draws. *)
Context `{CryptoPrims} (cs : bytes) (rand : nat -> result bytes).

Definition process_text (isEncrypting : bool) (s : string) (i : nat) : result string * nat :=
  if isEncrypting then (Encrypt cs (rand i) (bytes_of_string s), S i)
  else ((let? b := Decrypt cs s in Ok (string_of_bytes b)), i).

Definition process_string (isEncrypting : bool) (fl : flags) (s : string) (i : nat) : goval * nat * option gerror :=
  if negb (CanSet fl) then (VString s, i, Some ErrUnaddressableSlice)
  else if String.eqb s "" then (VString s, i, None)
  else match process_text isEncrypting s i with
       | (Ok s', i') => (VString s', i', None)
       | (Err er, i') => (VString s, i', Some er)
       end.

Fixpoint processValue (isEncrypting : bool) (t : gotype) (fl : flags) (v : goval) (i : nat) : goval * nat * option gerror :=
  match t, v with
  | TPtr t', VPtr (Some x) =>
      let '(x', i', er) := processValue isEncrypting t' (flags_elem fl) x i in (VPtr (Some x'), i', er)
  | TStruct fs, VStruct vs =>
      let '(vs', i', er) :=
        fields_loop (fun f t v i =>
          if nested t then processValue isEncrypting t (flags_field f fl) v i
          else match t, v with
               | TString _, VString s => if tagged f then process_string isEncrypting (flags_field f fl) s i else (v, i, None)
               | _, _ => (v, i, None)
               end) fs vs i in
      (VStruct vs', i', er)
  | TSlice t', VSlice (Some l) =>
      let '(l', i', er) :=
        elems_loop (fun v i =>
          if negb (is_pointer t') && negb (CanSet (flags_index fl)) && containsEncryptTag t' then (v, i, Some ErrUnaddressableSlice)
          else processValue isEncrypting t' (flags_index fl) v i) l i in
      (VSlice (Some l'), i', er)
  | TArray n t', VArray l =>
      let '(l', i', er) :=
        elems_loop (fun v i =>
          if negb (is_pointer t') && negb (CanSet (flags_array fl)) && containsEncryptTag t' then (v, i, Some ErrUnaddressableSlice)
          else processValue isEncrypting t' (flags_array fl) v i) l i in
      (VArray l', i', er)
  | _, _ => (v, i, None)
  end.

(** A value that was not passed by pointer has no address. *)
Definition ProcessStruct (isEncrypting : bool) (t : gotype) (data : goval) (i : nat) : goval * nat * option gerror :=
  match t, data with
  | TPtr t', VPtr (Some x) =>
      let '(x', i', er) := processValue isEncrypting t' (mkFlags true false false) x i in (VPtr (Some x'), i', er)
  | TPtr _, VPtr None | TSlice _, VSlice None => (data, i, None)
  | _, _ => processValue isEncrypting t (mkFlags false false false) data i
  end.

End Process.

(** ** EncryptedString

    [cs] is the default cipher suite, if it was set. *)
Section EncryptedString.
Context `{CryptoPrims}.

Definition es_Value (cs : option bytes) (rand : result bytes) (es : string) : result dbval :=
  if String.eqb es "" then Ok (DText "")
  else match cs with
       | None => Err (ErrMsg "ztatic/crypto: default cipher suite is uninitialized (call app.SetCipherKey to enable field encryption)")
       | Some key => let? s := Encrypt key rand (bytes_of_string es) in Ok (DText s)
       end.

Definition es_Scan (cs : option bytes) (value : dbval) : result string :=
  let scan raw :=
    if String.eqb raw "" then Ok ""
    else match cs with
         | None => Err (ErrMsg "ztatic/crypto: default cipher suite is uninitialized (call app.SetCipherKey to decrypt field)")
         | Some key => let? b := Decrypt key raw in Ok (string_of_bytes b)
         end in
  match value with
  | DNull => Ok ""
  | DText s => scan s
  | DBytes b => scan (string_of_bytes b)
  | _ => Err (ErrMsg "ztatic/crypto: invalid scan source for EncryptedString")
  end.
End EncryptedString.

(** ** Hashes of passwords *)

(** base64.RawStdEncoding differs from RawURLEncoding in two digits. *)
Fixpoint str_map (f : Ascii.ascii -> Ascii.ascii) (s : string) : string :=
  match s with EmptyString => "" | String a s => String (f a) (str_map f s) end.

Definition std_char (a : Ascii.ascii) : Ascii.ascii := if Ascii.eqb a "-" then "+"%char else if Ascii.eqb a "_" then "/"%char else a.
Definition url_char (a : Ascii.ascii) : Ascii.ascii := if Ascii.eqb a "+" then "-"%char else if Ascii.eqb a "/" then "_"%char else a.

Definition RawStdEncode (b : bytes) : string := str_map std_char (RawURLEncode b).
Definition RawStdDecode (s : string) : option bytes :=
  if string_forallb (fun a => negb (Ascii.eqb a "-" || Ascii.eqb a "_")) s then RawURLDecode (str_map url_char s) else None.

(** fmt.Sscanf: a literal, and %d into an int or an unsigned integer of some
    width.  What follows the format is not looked at. *)
Definition scan_lit (lit s : string) : option string := if HasPrefix s lit then Some (drop_str (String.length lit) s) else None.

Fixpoint scan_spaces (s : string) : option string :=
  match s with
  | EmptyString => Some s
  | String a s' => if Ascii.eqb a newline then None else if is_space a then scan_spaces s' else Some s
  end.

Fixpoint take_digits (s : string) : string * string :=
  match s with
  | EmptyString => ("", "")
  | String a s' => if is_digit a then let '(d, r) := take_digits s' in (String a d, r) else ("", s)
  end.

Definition scan_number (s : string) : option (Z * string) :=
  let '(d, r) := take_digits s in (fun n => (n, r)) <$> parse_nat d.

Definition scan_uint (bits : Z) (s : string) : option (Z * string) :=
  s1 ← scan_spaces s; p ← scan_number s1; if p.1 <? 2 ^ bits then Some p else None.

Definition scan_int (s : string) : option (Z * string) :=
  s1 ← scan_spaces s;
  p ← match s1 with
      | String "-" s2 => (fun p => (- p.1, p.2)) <$> scan_number s2
      | String "+" s2 => scan_number s2
      | _ => scan_number s1
      end;
  if fits_int64 p.1 then Some p else None.

Record Argon2Params := mkArgon2 { Memory : Z; Iterations : Z; Parallelism : Z; SaltLength : Z; KeyLength : Z }.

Definition DefaultArgon2Params : Argon2Params := mkArgon2 (64 * 1024) 3 4 16 32.

Definition argon2_Version : Z := 19.

Definition ErrInvalidHashFormat : gerror := ErrMsg "ztatic/crypto: invalid hash format".
Definition ErrHashMismatch : gerror := ErrMsg "ztatic/crypto: password does not match hash".

Definition scan_params (s : string) : option Argon2Params :=
  s ← scan_lit "m=" s; m ← scan_uint 32 s; s ← scan_lit ",t=" m.2; t ← scan_uint 32 s;
  s ← scan_lit ",p=" t.2; p ← scan_uint 8 s; Some (mkArgon2 m.1 t.1 p.1 0 0).

(** argon2.IDKey of a password, a salt, iterations, memory, parallelism and
    the length of the key; [None] is its panic. *)
Class Argon2 := IDKey : bytes -> bytes -> Z -> Z -> Z -> Z -> option bytes.

Section Passwords.
Context `{Argon2}.

Definition HashPassword (rand : result bytes) (password : string) : option (result string) :=
  let p := DefaultArgon2Params in
  match rand with
  | Err er => Some (Err er)
  | Ok salt =>
      hash ← IDKey (bytes_of_string password) salt (Iterations p) (Memory p) (Parallelism p) (KeyLength p);
      Some (Ok ("$argon2id$v=" +:+ FormatInt argon2_Version +:+ "$m=" +:+ FormatInt (Memory p) +:+ ",t=" +:+ FormatInt (Iterations p)
        +:+ ",p=" +:+ FormatInt (Parallelism p) +:+ "$" +:+ RawStdEncode salt +:+ "$" +:+ RawStdEncode hash))
  end.

Definition VerifyPassword (password encodedHash : string) : option (result unit) :=
  match split_on "$" encodedHash with
  | [_; kind; version; params; encodedSalt; encodedKey] =>
      if negb (String.eqb kind "argon2id") then Some (Err ErrInvalidHashFormat)
      else
        match (s ← scan_lit "v=" version; scan_int s) with
        | None => Some (Err ErrInvalidHashFormat)
        | Some (v, _) =>
            if negb (v =? argon2_Version) then Some (Err ErrInvalidHashFormat)
            else
              match scan_params params, RawStdDecode encodedSalt, RawStdDecode encodedKey with
              | Some p, Some salt, Some expectedHash =>
                  actualHash ← IDKey (bytes_of_string password) salt
                    (Iterations p) (Memory p) (Parallelism p) (zlen expectedHash mod 2 ^ 32);
                  Some (if bool_decide (expectedHash = actualHash) then Ok tt else Err ErrHashMismatch)
              | _, _, _ => Some (Err ErrInvalidHashFormat)
              end
        end
  | _ => Some (Err ErrInvalidHashFormat)
  end.
End Passwords.

(** privacy.Zeroize *)
Definition Zeroize (data : bytes) : bytes := map (fun _ => 0) data.

(** ** Masked logs and maps *)

Definition RedactedString : string := "[REDACTED]".

Definition defaultSensitiveKeys : list string :=
  ["password"; "pass"; "secret"; "token"; "auth"; "authorization"; "api_key"; "apikey"; "ssn"; "credit_card"; "card_number"; "cvv"].

Definition IsSensitiveKey (key : string) : bool := existsb (str_contains (ToLower key)) defaultSensitiveKeys.

(** An attribute of log/slog: a value, a group, or a value that becomes
    another attribute when it is written (a LogValuer). *)
Inductive attr :=
| AValue (key : string) (v : any)
| AGroup (key : string) (l : list attr)
| AValuer (a : attr).

Fixpoint attr_key (a : attr) : string := match a with AValue k _ => k | AGroup k _ => k | AValuer a => attr_key a end.

Fixpoint maskAttr (a : attr) : attr :=
  if IsSensitiveKey (attr_key a) then AValue (attr_key a) (AStr RedactedString)
  else match a with AGroup k l => AGroup k (map maskAttr l) | _ => a end.

(** What a logger does to its handler before it writes a record, and what
    LogMasker passes on. *)
Inductive handler_call := WithAttrs (l : list attr) | WithGroup (name : string).

Definition mask_call (c : handler_call) : handler_call :=
  match c with WithAttrs l => WithAttrs (map maskAttr l) | WithGroup n => WithGroup n end.

Definition Handle (calls : list handler_call) (record : list attr) : list handler_call * list attr :=
  (map mask_call calls, map maskAttr record).

Fixpoint sanitize (v : any) : any :=
  match v with
  | AMap l => AMap (map (fun kv => (kv.1, if IsSensitiveKey kv.1 then AStr RedactedString else sanitize kv.2)) l)
  | AList l => AList (map sanitize l)
  | _ => v
  end.

(** SanitizeMap of a map that is not nil. *)
Definition SanitizeMap (data : list (string * any)) : list (string * any) :=
  map (fun kv => (kv.1, if IsSensitiveKey kv.1 then AStr RedactedString else sanitize kv.2)) data.

Definition sanitizeSlice (l : list any) : list any := map sanitize l.
