(* ===== verification/SecretsProps.v ===== *)
(** * Theorems about secrets (Secrets)

    Encrypted fields are read back and nothing tagged stays readable, a
    password is accepted exactly if Argon2id gives the same key, and masked
    logs and maps hold no value under a sensitive name. *)

From S2P Require Import Prelude GoStrings GoData CryptoPrims NetGuard Tokens TokensProps GoReflect Secrets.

#[local] Open Scope go_scope.
#[local] Open Scope string_scope.
#[local] Open Scope list_scope.
#[local] Open Scope Z_scope.

(** ** Encrypted fields *)

Section Fields.
Context `{CryptoLaws} (cs : bytes) (rand : nat -> result bytes).
Context (cs_ok : aes_key_ok cs = true).
Context (seal_byte' : forall k n p, Forall is_byte p -> Forall is_byte (gcm_seal k n p)).

Definition sealed_text (s s' : string) : Prop :=
  if String.eqb s "" then s' = ""
  else exists n, zlen n = NonceSize /\ Forall is_byte n /\ s' = RawURLEncode (n ++ gcm_seal cs n (bytes_of_string s)).

(** Every tagged field that is a text is sealed, and nothing else is changed;
    a text behind a pointer or in a slice is not such a field. *)
Definition all3 (p : StructField * gotype -> goval -> goval -> Prop) : list (StructField * gotype) -> list goval -> list goval -> Prop :=
  fix go fs vs ws :=
    match fs, vs, ws with
    | [], [], [] => True
    | ft :: fs', v :: vs', w :: ws' => p ft v w /\ go fs' vs' ws'
    | _, _, _ => False
    end.

Fixpoint encrypted (t : gotype) (v w : goval) : Prop :=
  match t, v, w with
  | TPtr t', VPtr (Some x), VPtr (Some y) => encrypted t' x y
  | TStruct fs, VStruct vs, VStruct ws =>
      all3 (fun ft v w =>
        if nested ft.2 then encrypted ft.2 v w
        else match ft.2, v, w with
             | TString _, VString s, VString s' => if tagged ft.1 then sealed_text s s' else s' = s
             | _, _, _ => w = v
             end) fs vs ws
  | TSlice t', VSlice (Some l), VSlice (Some l') => Forall2 (encrypted t') l l'
  | TArray _ t', VArray l, VArray l' => Forall2 (encrypted t') l l'
  | _, _, _ => w = v
  end.

(** The tagged fields of the type can be set where [fl] says how the value
    was found. *)
Fixpoint settable (t : gotype) (fl : flags) : bool :=
  match t with
  | TPtr t' => settable t' (flags_elem fl)
  | TStruct fs =>
      forallb (fun ft =>
        if nested ft.2 then settable ft.2 (flags_field ft.1 fl)
        else match ft.2 with TString _ => if tagged ft.1 then CanSet (flags_field ft.1 fl) else true | _ => true end) fs
  | TSlice t' => (is_pointer t' || CanSet (flags_index fl) || negb (containsEncryptTag t')) && settable t' (flags_index fl)
  | TArray _ t' => (is_pointer t' || CanSet (flags_array fl) || negb (containsEncryptTag t')) && settable t' (flags_array fl)
  | _ => true
  end.

(** The tagged texts of a value that are not empty, in order. *)
Definition fields_texts (g : gotype -> goval -> list string) : list (StructField * gotype) -> list goval -> list string :=
  fix go fs vs :=
    match fs, vs with
    | (f, t) :: fs', v :: vs' =>
        (if nested t then g t v
         else match t, v with
              | TString _, VString s => if tagged f && negb (String.eqb s "") then [s] else []
              | _, _ => []
              end) ++ go fs' vs'
    | _, _ => []
    end.

Fixpoint tagged_texts (t : gotype) (v : goval) : list string :=
  match t, v with
  | TPtr t', VPtr (Some x) => tagged_texts t' x
  | TStruct fs, VStruct vs => fields_texts tagged_texts fs vs
  | TSlice t', VSlice (Some l) | TArray _ t', VArray l => flat_map (tagged_texts t') l
  | _, _ => []
  end.

(** The texts of [l'] are those of [l], each sealed under a nonce of its own:
    the draws from [i] on and before [j], one after the other. *)
Fixpoint sealed_from (i : nat) (l l' : list string) (j : nat) : Prop :=
  match l, l' with
  | [], [] => j = i
  | s :: l1, s' :: l1' =>
      (exists n, rand i = Ok n /\ s' = RawURLEncode (n ++ gcm_seal cs n (bytes_of_string s))) /\ sealed_from (S i) l1 l1' j
  | _, _ => False
  end.

Lemma sealed_from_app i a a' m b b' j :
  sealed_from i a a' m -> sealed_from m b b' j -> sealed_from i (a ++ b) (a' ++ b') j.
Proof.
  revert i a'. induction a as [|s a IH]; intros i [|s' a'] Ha Hb; cbn in *; try done; [by subst m|].
  destruct Ha as [? Ha]. split; [done|]. by apply IH.
Qed.

Definition rand_ok : Prop := forall i, exists n, rand i = Ok n /\ zlen n = NonceSize /\ Forall is_byte n.

Lemma process_string_seals fl s i : rand_ok -> CanSet fl = true ->
  exists s' j, process_string cs rand true fl s i = (VString s', j, None) /\ sealed_text s s' /\
    sealed_from i (if String.eqb s "" then [] else [s]) (if String.eqb s' "" then [] else [s']) j.
Proof.
  intros Hr Hc. unfold process_string, sealed_text. rewrite Hc. cbn [negb]. destruct (String.eqb_spec s "") as [->|Hne].
  - by eexists "", i.
  - destruct (Hr i) as (n & Hn & Hl & Hb). unfold process_text, Encrypt. rewrite Hn. cbn [rbind].
    destruct (Z.eqb_spec (zlen (bytes_of_string s)) 0) as [Hz|_].
    { rewrite zlen_bytes_of_string in Hz. destruct s as [|a s]; [done|]. unfold slen in Hz. cbn in Hz. lia. }
    eexists _, _. split; [done|]. split; [by exists n|].
    destruct (String.eqb_spec (RawURLEncode (n ++ gcm_seal cs n (bytes_of_string s))) "") as [He|_]; [|by split; [exists n|]].
    exfalso. apply ciphertext_nonempty in He; [done|done|]. apply Forall_app. split; [done|]. apply seal_byte', bytes_of_string_range.
Qed.

Lemma process_string_opens fl s s' i : CanSet fl = true -> sealed_text s s' ->
  process_string cs rand false fl s' i = (VString s, i, None).
Proof.
  intros Hc. unfold process_string, sealed_text. rewrite Hc. cbn [negb]. destruct (String.eqb_spec s "") as [->|Hne]; [by intros ->|].
  intros (n & Hl & Hb & ->). pose proof (bytes_of_string_range s) as Hs.
  destruct (String.eqb_spec (RawURLEncode (n ++ gcm_seal cs n (bytes_of_string s))) "") as [He|_].
  { apply ciphertext_nonempty in He; [done|done|]. apply Forall_app. split; [done|]. by apply seal_byte'. }
  unfold process_text. rewrite Decrypt_Encrypt by done. cbn [rbind]. by rewrite string_bytes_id.
Qed.

(** The two loops. *)
Lemma elems_seal step t' l : 
  (forall v i, typed t' v = true -> exists w j, step v i = (w, j, None) /\ encrypted t' v w /\
     sealed_from i (tagged_texts t' v) (tagged_texts t' w) j) ->
  forall i, forallb (typed t') l = true -> exists ws j, elems_loop step l i = (ws, j, None) /\ Forall2 (encrypted t') l ws /\
    sealed_from i (flat_map (tagged_texts t') l) (flat_map (tagged_texts t') ws) j.
Proof.
  intros Hstep. induction l as [|v l IH]; intros i Ht; cbn [elems_loop]; [by eexists [], i|]. cbn in Ht. apply andb_true_iff in Ht as [Hv Hl].
  destruct (Hstep v i Hv) as (w & j & -> & Hw & Hn). fold (elems_loop step). destruct (IH j Hl) as (ws & k & -> & Hws & Hns).
  eexists _, _. split; [done|]. split; [by constructor|]. cbn [flat_map]. by eapply sealed_from_app.
Qed.

Lemma elems_open step t' l ws :
  (forall v w i, typed t' v = true -> encrypted t' v w -> step w i = (v, i, None)) ->
  Forall2 (encrypted t') l ws -> forallb (typed t') l = true -> forall i, elems_loop step ws i = (l, i, None).
Proof.
  intros Hstep. induction 1 as [|v w l ws Hvw _ IH]; intros Ht i; cbn [elems_loop]; [done|]. cbn in Ht. apply andb_true_iff in Ht as [Hv Hl].
  rewrite (Hstep v w i Hv Hvw). fold (elems_loop step). by rewrite IH.
Qed.

(** The test in front of an element. *)
Lemma elem_allowed t' fl : is_pointer t' || CanSet fl || negb (containsEncryptTag t') = true ->
  negb (is_pointer t') && negb (CanSet fl) && containsEncryptTag t' = false.
Proof. by destruct (is_pointer t'), (CanSet fl), (containsEncryptTag t'). Qed.

Lemma processValue_seals t : rand_ok -> forall fl v i, settable t fl = true -> typed t v = true ->
  exists w j, processValue cs rand true t fl v i = (w, j, None) /\ encrypted t v w /\
    sealed_from i (tagged_texts t v) (tagged_texts t w) j.
Proof.
  intros Hr. induction t as [n|sg n| |t' IH|t' IH|n t' IH|fs IH|n] using gotype_ind'; intros fl v i Hs Ht;
    destruct v as [s|z|z|[x|]|[l|]|l|l|a]; try done; cbn [processValue]; try (eexists _, _; split_and!; reflexivity).
  - destruct (IH (flags_elem fl) x i Hs Ht) as (w & j & -> & Hw). by eexists _, _.
  - cbn [settable] in Hs. apply andb_true_iff in Hs as [Ha Hs]. rewrite (elem_allowed _ _ Ha).
    destruct (elems_seal (fun v i => processValue cs rand true t' (flags_index fl) v i) t' l) with (i := i) as (ws & j & -> & Hws); [|done|by eexists _, _].
    intros v k Hv. by apply IH.
  - cbn [settable typed] in Hs, Ht. apply andb_true_iff in Hs as [Ha Hs]. apply andb_true_iff in Ht as [_ Ht]. rewrite (elem_allowed _ _ Ha).
    destruct (elems_seal (fun v i => processValue cs rand true t' (flags_array fl) v i) t' l) with (i := i) as (ws & j & -> & Hws); [|done|by eexists _, _].
    intros v k Hv. by apply IH.
  - cbn [settable typed encrypted] in *.
    match goal with |- context [fields_loop ?f fs l i] => set (step := f) end.
    assert (exists ws j, fields_loop step fs l i = (ws, j, None) /\ encrypted (TStruct fs) (VStruct l) (VStruct ws) /\
      sealed_from i (tagged_texts (TStruct fs) (VStruct l)) (tagged_texts (TStruct fs) (VStruct ws)) j) as (ws & j & -> & Hws); [|by eexists _, _].
    cbn [encrypted tagged_texts]. revert l i Ht. induction IH as [|[f t'] fs IHt IHfs IHrest]; intros [|v l] i Ht; try done; [by eexists [], i|].
    cbn [forallb forallb2 fst snd] in Hs, Ht. apply andb_true_iff in Hs as [Hf Hs]. apply andb_true_iff in Ht as [Hv Hl]. cbn [fields_loop]. fold (fields_loop step).
    assert (exists w j, step f t' v i = (w, j, None) /\
      (if nested t' then encrypted t' v w
       else match t', v, w with TString _, VString s, VString s' => if tagged f then sealed_text s s' else s' = s | _, _, _ => w = v end) /\
      sealed_from i (fields_texts tagged_texts [(f, t')] [v]) (fields_texts tagged_texts [(f, t')] [w]) j) as (w & j & -> & Hw & Hn).
    { unfold step. cbn [fields_texts]. rewrite !app_nil_r. destruct (nested t') eqn:Hn.
      { destruct (IHt (flags_field f fl) v i Hf Hv) as (w & j & Hp & Hw & Hwn). exists w, j.
        rewrite app_nil_r. split_and!; [exact Hp|exact Hw|exact Hwn]. }
      destruct t', v; try done; try (eexists _, _; split_and!; reflexivity).
      destruct (tagged f); [|by eexists _, _]. destruct (process_string_seals _ s i Hr Hf) as (s' & j & -> & Hs' & Hsn).
      eexists _, _. split_and!; [done..|]. cbn [andb]. rewrite app_nil_r. by destruct (String.eqb s ""), (String.eqb s' ""). }
    destruct (IHrest Hs l j Hl) as (ws & k & -> & Hws & Hns). eexists _, _. split; [done|]. split; [by split|].
    cbn [fields_texts] in *. rewrite !app_nil_r in Hn. by eapply sealed_from_app.
Qed.

Lemma processValue_opens t : forall fl v w i, settable t fl = true -> typed t v = true -> encrypted t v w ->
  processValue cs rand false t fl w i = (v, i, None).
Proof.
  induction t as [n|sg n| |t' IH|t' IH|n t' IH|fs IH|n] using gotype_ind'; intros fl v w i Hs Ht He;
    destruct v as [s|z|z|[x|]|[l|]|l|l|a]; try done; cbn [encrypted] in He; try (subst w; reflexivity);
    destruct w as [s'|z'|z'|[y|]|[l'|]|l'|l'|a']; try done; cbn [processValue].
  - by rewrite (IH _ x y i Hs Ht He).
  - cbn [settable] in Hs. apply andb_true_iff in Hs as [Ha Hs]. rewrite (elem_allowed _ _ Ha).
    rewrite (elems_open (fun v i => processValue cs rand false t' (flags_index fl) v i) t' l l'); [done| |done|done].
    intros v w k Hv Hw. by apply IH.
  - cbn [settable typed] in Hs, Ht. apply andb_true_iff in Hs as [Ha Hs]. apply andb_true_iff in Ht as [_ Ht]. rewrite (elem_allowed _ _ Ha).
    rewrite (elems_open (fun v i => processValue cs rand false t' (flags_array fl) v i) t' l l'); [done| |done|done].
    intros v w k Hv Hw. by apply IH.
  - cbn [settable typed] in Hs, Ht.
    match goal with |- context [fields_loop ?f fs l' i] => set (step := f) end.
    assert (fields_loop step fs l' i = (l, i, None)) as ->; [|done].
    revert l l' Ht He. induction IH as [|[f t'] fs IHt IHfs IHrest]; intros [|v l] [|w l'] Ht He; try done.
    cbn [forallb forallb2 fst snd] in Hs, Ht. apply andb_true_iff in Hs as [Hf Hs]. apply andb_true_iff in Ht as [Hv Hl].
    cbn [all3 fst snd] in He. destruct He as [Hw He]. cbn [fields_loop]. fold (fields_loop step).
    assert (step f t' w i = (v, i, None)) as ->.
    { unfold step. destruct (nested t') eqn:Hn; [by apply IHt|]. destruct t', v; try done; try (by subst w).
      destruct w; try done; destruct (tagged f); try done; [by apply process_string_opens|congruence]. }
    by rewrite (IHrest Hs l l' Hl He).
Qed.

(** C35: Encrypted fields are read back.  Of a value that is passed by pointer
    and whose tagged fields of a string type can be set, encrypting always
    succeeds: at any depth of structures, pointers, slices and arrays it
    seals every tagged field of a string type that is not empty, the k-th of
    them under the k-th nonce drawn, so each under a nonce of its own, and it
    changes nothing else; decrypting gives the value it was.  A tagged field
    that is a pointer to a string or a slice of strings is not of a string
    type and stays readable. *)
Theorem encrypted_fields_are_read_back t x i : rand_ok -> settable t (mkFlags true false false) = true -> typed t x = true ->
  exists y j, ProcessStruct cs rand true (TPtr t) (VPtr (Some x)) i = (VPtr (Some y), j, None) /\ encrypted t x y /\
    sealed_from i (tagged_texts t x) (tagged_texts t y) j /\
    forall k, ProcessStruct cs rand false (TPtr t) (VPtr (Some y)) k = (VPtr (Some x), k, None).
Proof.
  intros Hr Hs Ht. destruct (processValue_seals t Hr _ x i Hs Ht) as (y & j & Hp & He & Hn). exists y, j. unfold ProcessStruct.
  rewrite Hp. split_and!; [done|done|done|]. intros k. by rewrite (processValue_opens t _ x y k Hs Ht He).
Qed.
End Fields.

Module FieldExamples.
Import ToyCrypto.

Definition field (n : string) (tag : list (string * string)) : StructField := mkField n true false tag.
Definition secret : list (string * string) := [("ztatic", "encrypt")].
Definition profile : gotype :=
  TStruct [(field "ID" [], TString "string"); (field "SSN" secret, TString "string"); (field "Note" secret, TString "string");
           (field "Cards" [], TSlice (TStruct [(field "Number" secret, TString "string"); (field "Year" [], TInt true W64)]))].
Definition alice : goval :=
  VStruct [VString "u1"; VString "123-45"; VString "";
           VSlice (Some [VStruct [VString "4111"; VInt 2030]; VStruct [VString "4222"; VInt 2031]])].
Definition key : bytes := replicate 32 7.
Definition nonces (i : nat) : result bytes := Ok (replicate 12 (Z.of_nat i mod 256)).

Lemma nonces_ok : rand_ok nonces.
Proof.
  intros i. eexists. split; [done|]. split; [done|]. apply Forall_replicate. unfold is_byte. apply Z.mod_pos_bound. lia.
Qed.

Lemma toy_seal_byte k n p : Forall is_byte p -> Forall is_byte (gcm_seal k n p).
Proof. intros Hp. cbn. apply Forall_app. split; [done|]. apply Forall_replicate, checksum_range. Qed.
End FieldExamples.

Example encrypted_fields_are_read_back_witness :
  exists y j, ProcessStruct (H := ToyCrypto.toy_prims) FieldExamples.key FieldExamples.nonces true (TPtr FieldExamples.profile) (VPtr (Some FieldExamples.alice)) 0
      = (VPtr (Some y), j, None) /\ encrypted (H := ToyCrypto.toy_prims) FieldExamples.key FieldExamples.profile FieldExamples.alice y /\
    sealed_from (H := ToyCrypto.toy_prims) FieldExamples.key FieldExamples.nonces 0 ["123-45"; "4111"; "4222"]
      (tagged_texts FieldExamples.profile y) j /\
    forall k, ProcessStruct (H := ToyCrypto.toy_prims) FieldExamples.key FieldExamples.nonces false (TPtr FieldExamples.profile) (VPtr (Some y)) k
      = (VPtr (Some FieldExamples.alice), k, None).
Proof.
  exact (encrypted_fields_are_read_back (H := ToyCrypto.toy_prims) (H0 := ToyCrypto.toy_laws) FieldExamples.key FieldExamples.nonces eq_refl FieldExamples.toy_seal_byte
    FieldExamples.profile FieldExamples.alice 0 FieldExamples.nonces_ok eq_refl eq_refl).
Defined.

(** A tagged text behind a pointer, or in a slice, is left as it is, without
    an error. *)
Example tagged_pointer_stays_readable :
  let t := TPtr (TStruct [(FieldExamples.field "SSN" FieldExamples.secret, TPtr (TString "string"));
                          (FieldExamples.field "Cards" FieldExamples.secret, TSlice (TString "string"))]) in
  let v := VPtr (Some (VStruct [VPtr (Some (VString "123-45")); VSlice (Some [VString "4111"])])) in
  ProcessStruct (H := ToyCrypto.toy_prims) FieldExamples.key FieldExamples.nonces true t v 0 = (v, 0%nat, None).
Proof. reflexivity. Qed.

(** Decrypting stops at the first text that was not encrypted: what follows it
    stays sealed. *)
Example one_readable_text_stops_decryption :
  let t := TPtr (TStruct [(FieldExamples.field "Old" FieldExamples.secret, TString "string"); (FieldExamples.field "New" FieldExamples.secret, TString "string")]) in
  let sealed := match ProcessStruct (H := ToyCrypto.toy_prims) FieldExamples.key FieldExamples.nonces true
                        (TPtr (TStruct [(FieldExamples.field "New" FieldExamples.secret, TString "string")])) (VPtr (Some (VStruct [VString "b"]))) 0 with
                | (VPtr (Some (VStruct [VString s])), _, None) => s | _ => "" end in
  let v := VPtr (Some (VStruct [VString "a"; VString sealed])) in
  sealed <> "" /\ ProcessStruct (H := ToyCrypto.toy_prims) FieldExamples.key FieldExamples.nonces false t v 0 = (v, 0%nat, Some ErrDecryptionFailed).
Proof. vm_compute. done. Qed.

(** A structure that is not passed by pointer is refused. *)
Example value_is_refused :
  ProcessStruct (H := ToyCrypto.toy_prims) FieldExamples.key FieldExamples.nonces true FieldExamples.profile FieldExamples.alice 0
  = (FieldExamples.alice, 0%nat, Some ErrUnaddressableSlice).
Proof. reflexivity. Qed.

(** A string that encrypts itself is read back. *)
Theorem encrypted_string_is_read_back `{CryptoLaws} key n es :
  aes_key_ok key = true -> zlen n = NonceSize -> Forall is_byte n -> (forall k n p, Forall is_byte p -> Forall is_byte (gcm_seal k n p)) ->
  exists v, es_Value (Some key) (Ok n) es = Ok v /\ es_Scan (Some key) v = Ok es.
Proof.
  intros Hk Hn Hb Hseal. unfold es_Value, es_Scan. destruct (String.eqb_spec es "") as [->|Hne]; [by eexists|].
  unfold Encrypt. destruct (Z.eqb_spec (zlen (bytes_of_string es)) 0) as [Hz|_].
  { rewrite zlen_bytes_of_string in Hz. destruct es as [|a s]; [done|]. unfold slen in Hz. cbn in Hz. lia. }
  cbn [rbind]. eexists. split; [done|]. cbv beta iota zeta. pose proof (bytes_of_string_range es) as Hs.
  destruct (String.eqb_spec (RawURLEncode (n ++ gcm_seal key n (bytes_of_string es))) "") as [He|_].
  { apply ciphertext_nonempty in He; [done|done|]. apply Forall_app. split; [done|]. by apply Hseal. }
  rewrite Decrypt_Encrypt by done. cbn [rbind]. by rewrite string_bytes_id.
Qed.

(** ** Passwords *)

(** A digit of one alphabet is a digit of the other, and back. *)
Definition std_digit_ok (n : Z) : bool :=
  let a := std_char (url_digit n) in
  Ascii.eqb (url_char a) (url_digit n) && negb (Ascii.eqb a "-" || Ascii.eqb a "_") && negb (Ascii.eqb a "$").

Lemma std_digit n : 0 <= n < 64 -> std_digit_ok n = true.
Proof. intros Hn. apply (below_forallb 64 std_digit_ok); [by vm_compute|exact Hn]. Qed.

Lemma str_map_forallb p f s : string_forallb p (str_map f s) = string_forallb (fun a => p (f a)) s.
Proof. induction s as [|a s IH]; cbn; by rewrite ?IH. Qed.

Lemma RawStdDecode_Encode b : Forall is_byte b -> RawStdDecode (RawStdEncode b) = Some b.
Proof.
  intros Hb. unfold RawStdDecode, RawStdEncode. rewrite str_map_forallb, RawURLEncode_all; [|intros n Hn|done].
  - assert (str_map url_char (str_map std_char (RawURLEncode b)) = RawURLEncode b) as ->; [|by apply RawURLDecode_Encode].
    pose proof (RawURLEncode_all (fun a => Ascii.eqb (url_char (std_char a)) a) b) as Hall.
    assert (string_forallb (fun a => Ascii.eqb (url_char (std_char a)) a) (RawURLEncode b) = true) as Hs.
    { apply Hall; [|done]. intros n Hn. pose proof (std_digit n Hn) as Hd. unfold std_digit_ok in Hd. by destruct (Ascii.eqb (url_char _) _). }
    clear -Hs. induction (RawURLEncode b) as [|a s IH]; [done|]. cbn in *. apply andb_true_iff in Hs as [Ha Hs].
    apply Ascii.eqb_eq in Ha. by rewrite Ha, IH.
  - pose proof (std_digit n Hn) as Hd. unfold std_digit_ok in Hd. by destruct (Ascii.eqb (url_char _) _), (negb (_ || _)).
Qed.

Lemma RawStdEncode_dollarless b : Forall is_byte b -> without "$" (RawStdEncode b) = true.
Proof.
  intros Hb. unfold without, RawStdEncode. rewrite str_map_forallb. apply RawURLEncode_all; [|done]. intros n Hn.
  pose proof (std_digit n Hn) as Hd. unfold std_digit_ok in Hd. by destruct (negb (Ascii.eqb (std_char _) "$")); [|rewrite andb_false_r in Hd].
Qed.

Section Hashes.
Context `{Argon2}.

(** What VerifyPassword makes of a hash in the format HashPassword writes. *)
Lemma VerifyPassword_hash pw salt h : Forall is_byte salt -> Forall is_byte h -> zlen h = 32 ->
  VerifyPassword pw ("$argon2id$v=19$m=65536,t=3,p=4$" +:+ RawStdEncode salt +:+ "$" +:+ RawStdEncode h) =
  (actual ← IDKey (bytes_of_string pw) salt 3 65536 4 32; Some (if bool_decide (h = actual) then Ok tt else Err ErrHashMismatch)).
Proof.
  intros Hs Hh Hl. unfold VerifyPassword.
  change ("$argon2id$v=19$m=65536,t=3,p=4$" +:+ RawStdEncode salt +:+ "$" +:+ RawStdEncode h)
    with ("" +:+ String "$" ("argon2id" +:+ String "$" ("v=19" +:+ String "$" ("m=65536,t=3,p=4" +:+ String "$" (RawStdEncode salt +:+ String "$" (RawStdEncode h)))))).
  rewrite !split_app.
  rewrite !split_without by (done || by apply RawStdEncode_dollarless). cbn [app].
  change (negb (String.eqb "argon2id" "argon2id")) with false. cbn iota.
  change (s ← scan_lit "v=" "v=19"; scan_int s) with (Some (19, "")). cbn iota. change (negb (19 =? argon2_Version)) with false. cbn iota.
  change (scan_params "m=65536,t=3,p=4") with (Some (mkArgon2 65536 3 4 0 0)). rewrite !RawStdDecode_Encode by done.
  cbn [Iterations Memory Parallelism]. rewrite Hl. done.
Qed.

(** A password is accepted by the hash that was made of it, and of all
    others exactly those are that Argon2id gives the same key; a hash is
    made whenever the salt can be drawn. *)
Theorem password_is_verified pw salt :
  (forall s, exists h, IDKey s salt 3 65536 4 32 = Some h /\ zlen h = 32 /\ Forall is_byte h) -> Forall is_byte salt ->
  exists hash, HashPassword (Ok salt) pw = Some (Ok hash) /\ VerifyPassword pw hash = Some (Ok tt) /\
    forall other, VerifyPassword other hash =
      Some (if bool_decide (IDKey (bytes_of_string other) salt 3 65536 4 32 = IDKey (bytes_of_string pw) salt 3 65536 4 32)
            then Ok tt else Err ErrHashMismatch).
Proof.
  intros Ha Hs. destruct (Ha (bytes_of_string pw)) as (h & Hh & Hl & Hb). unfold HashPassword.
  change (Iterations DefaultArgon2Params) with 3. change (Memory DefaultArgon2Params) with 65536.
  change (Parallelism DefaultArgon2Params) with 4. change (KeyLength DefaultArgon2Params) with 32. rewrite Hh. cbn [mbind option_bind].
  eexists. split; [done|].
  match goal with |- context [VerifyPassword pw ?x] => change x with ("$argon2id$v=19$m=65536,t=3,p=4$" +:+ RawStdEncode salt +:+ "$" +:+ RawStdEncode h) end.
  assert (forall other, VerifyPassword other ("$argon2id$v=19$m=65536,t=3,p=4$" +:+ RawStdEncode salt +:+ "$" +:+ RawStdEncode h) =
      Some (if bool_decide (IDKey (bytes_of_string other) salt 3 65536 4 32 = Some h) then Ok tt else Err ErrHashMismatch)) as Hall.
  { intros other. rewrite VerifyPassword_hash by done. destruct (Ha (bytes_of_string other)) as (h' & -> & _ & _). cbn [mbind option_bind].
    f_equal. case_bool_decide as He; case_bool_decide as He'; congruence. }
  split; [|done]. by rewrite Hall, Hh, bool_decide_true.
Qed.
End Hashes.

(** An Argon2id for examples, which panics where the package does. *)
#[local] Instance toy_argon2 : Argon2 := fun password salt time memory threads keyLen =>
  if (1 <=? time) && (1 <=? threads) && (1 <=? keyLen)
  then Some (replicate (Z.to_nat keyLen) (ToyCrypto.checksum (password ++ salt))) else None.

Lemma toy_argon2_key : forall s salt, exists h, IDKey s salt 3 65536 4 32 = Some h /\ zlen h = 32 /\ Forall is_byte h.
Proof. intros s salt. eexists. split; [done|]. split; [done|]. apply Forall_replicate, ToyCrypto.checksum_range. Qed.

Example password_is_verified_witness :
  exists hash, HashPassword (Ok [1; 2; 3; 255]) "tr0ub4dor" = Some (Ok hash) /\ VerifyPassword "tr0ub4dor" hash = Some (Ok tt) /\
    forall other, VerifyPassword other hash =
      Some (if bool_decide (IDKey (bytes_of_string other) [1; 2; 3; 255] 3 65536 4 32 = IDKey (bytes_of_string "tr0ub4dor") [1; 2; 3; 255] 3 65536 4 32)
            then Ok tt else Err ErrHashMismatch).
Proof.
  exact (password_is_verified "tr0ub4dor" [1; 2; 3; 255] (fun s => toy_argon2_key s [1; 2; 3; 255])
    ltac:(repeat constructor; unfold is_byte; lia)).
Defined.

(** A stored hash with parameters Argon2id does not take, or without a key,
    is not refused: the check panics. *)
Example bad_parameters_panic :
  VerifyPassword "x" "$argon2id$v=19$m=65536,t=0,p=4$AAAA$AAAA" = None /\ VerifyPassword "x" "$argon2id$v=19$m=65536,t=3,p=0$AAAA$AAAA" = None /\
  VerifyPassword "x" "$argon2id$v=19$m=65536,t=3,p=4$AAAA$" = None.
Proof. vm_compute. done. Qed.

(** What follows a version or a parameter is not looked at. *)
Example trailing_text_is_ignored :
  VerifyPassword "x" "$argon2id$v=19 or 20$m=65536,t=3,p=4 or 5$AAAA$AAAA" = VerifyPassword "x" "$argon2id$v=19$m=65536,t=3,p=4$AAAA$AAAA".
Proof. vm_compute. done. Qed.

(** ** Masked logs and maps *)

Lemma attr_ind' (Q : attr -> Prop) :
  (forall k v, Q (AValue k v)) -> (forall k l, Forall Q l -> Q (AGroup k l)) -> (forall a, Q a -> Q (AValuer a)) -> forall a, Q a.
Proof.
  intros Hv Hg Hr. fix IH 1. intros [k v|k l|a]; [apply Hv|apply Hg|apply Hr, IH]. induction l; constructor; [apply IH|assumption].
Qed.

Lemma any_ind' (Q : any -> Prop) :
  Q ANil -> (forall b, Q (ABool b)) -> (forall n, Q (AInt n)) -> (forall n, Q (AInt64 n)) -> (forall m e, Q (AFloat m e)) -> (forall s, Q (AStr s)) ->
  (forall l, Forall Q l -> Q (AList l)) -> (forall l, Forall (fun kv => Q kv.2) l -> Q (AMap l)) -> forall a, Q a.
Proof.
  intros H0 H1 H2 H3 H4 H5 Hl Hm. fix IH 1. intros [|b|n|n|m e|s|l|l]; [exact H0|apply H1|apply H2|apply H3|apply H4|apply H5|apply Hl|apply Hm].
  - induction l; constructor; [apply IH|assumption].
  - induction l as [|[k v] l IHl]; constructor; [apply IH|assumption].
Qed.

(** The values of an attribute, each with the names on the way to it. *)
Fixpoint leaves (a : attr) : list (list string * any) :=
  match a with
  | AValue k v => [([k], v)]
  | AGroup k l => map (fun pv => (k :: pv.1, pv.2)) (flat_map leaves l)
  | AValuer a => leaves a
  end.

Fixpoint any_leaves (v : any) : list (list string * any) :=
  match v with
  | AMap l => flat_map (fun kv => map (fun pv => (kv.1 :: pv.1, pv.2)) (any_leaves kv.2)) l
  | AList l => flat_map any_leaves l
  | _ => [([], v)]
  end.

Fixpoint no_valuer (a : attr) : bool := match a with AValue _ _ => true | AGroup _ l => forallb no_valuer l | AValuer _ => false end.

Definition sensitive (pv : list string * any) : bool := existsb IsSensitiveKey pv.1.
Definition clean (l : list (list string * any)) : list (list string * any) := List.filter (fun pv => negb (sensitive pv)) l.

#[local] Arguments IsSensitiveKey _ : simpl never.

(** [after] shows nothing secret and everything else that [before] does. *)
Definition redacts (before after : list (list string * any)) : Prop :=
  Forall (fun pv => sensitive pv = true -> pv.2 = AStr RedactedString) after /\ clean after = clean before.

Lemma redacts_app a a' b b' : redacts a a' -> redacts b b' -> redacts (a ++ b) (a' ++ b').
Proof.
  intros [Ha1 Ha2] [Hb1 Hb2]. split; [by apply Forall_app|]. unfold clean in *. by rewrite !List.filter_app, Ha2, Hb2.
Qed.

Lemma redacts_refl l : Forall (fun pv => sensitive pv = false) l -> redacts l l.
Proof. intros Hl. split; [|done]. eapply Forall_impl; [exact Hl|]. intros pv -> ?. done. Qed.

Lemma redacts_flat_map {A} (f g : A -> list (list string * any)) l :
  Forall (fun x => redacts (f x) (g x)) l -> redacts (flat_map f l) (flat_map g l).
Proof. induction 1 as [|x l Hx _ IH]; cbn; [by split|by apply redacts_app]. Qed.

(** Below a name that is not sensitive. *)
Lemma redacts_under k a b : IsSensitiveKey k = false -> redacts a b ->
  redacts (map (fun pv => (k :: pv.1, pv.2)) a) (map (fun pv => (k :: pv.1, pv.2)) b).
Proof.
  intros Hk [Hb Hc]. split.
  - apply Forall_map. eapply Forall_impl; [exact Hb|]. intros pv Hpv. cbn. unfold sensitive in *. cbn. rewrite Hk. exact Hpv.
  - assert (forall l, clean (map (fun pv => (k :: pv.1, pv.2)) l) = map (fun pv => (k :: pv.1, pv.2)) (clean l)) as Hm; [|by rewrite !Hm, Hc].
    intros l. unfold clean. induction l as [|pv l IH]; [done|]. cbn. rewrite IH. unfold sensitive at 1 3. cbn. rewrite Hk. cbn.
    by destruct (negb (existsb _ _)).
Qed.

(** Below a sensitive name, everything is replaced. *)
Lemma redacts_all k a : IsSensitiveKey k = true -> Forall (fun pv => exists p, pv.1 = k :: p) a -> redacts a [([k], AStr RedactedString)].
Proof.
  intros Hk Ha. split; [by repeat constructor|]. assert (forall p v, sensitive (k :: p, v) = true) as Hs by (intros; unfold sensitive; cbn; by rewrite Hk).
  unfold clean. cbn [List.filter]. rewrite Hs. cbn [negb].
  induction Ha as [|[q v] a [p Hp] _ IH]; [done|]. cbn in Hp. subst q. cbn [List.filter]. rewrite Hs. exact IH.
Qed.

Lemma leaves_under a : Forall (fun pv => exists p, pv.1 = attr_key a :: p) (leaves a).
Proof.
  induction a as [k v|k l IH|a IH] using attr_ind'; cbn [leaves attr_key]; [by repeat econstructor| |exact IH].
  apply Forall_map, Forall_true. intros pv. cbn. eauto.
Qed.

Lemma maskAttr_redacts a : no_valuer a = true -> redacts (leaves a) (leaves (maskAttr a)).
Proof.
  induction a as [k v|k l IH|a IH] using attr_ind'; intros Hn; [| |done].
  - cbn [maskAttr attr_key]. destruct (IsSensitiveKey k) eqn:Hk.
    + apply redacts_all; [done|]. apply (leaves_under (AValue k v)).
    + apply redacts_refl. repeat constructor. unfold sensitive. cbn. by rewrite Hk.
  - cbn [maskAttr attr_key]. destruct (IsSensitiveKey k) eqn:Hk; [apply redacts_all; [done|]; apply (leaves_under (AGroup k l))|].
    cbn [leaves]. apply redacts_under; [done|]. rewrite flat_map_concat_map, flat_map_concat_map, map_map, <- !flat_map_concat_map.
    apply redacts_flat_map. cbn in Hn. rewrite forallb_forall in Hn. rewrite Forall_forall in *. intros x Hx.
    apply IH; [done|]. apply Hn. by apply list_elem_of_In.
Qed.

Lemma sanitize_redacts v : redacts (any_leaves v) (any_leaves (sanitize v)).
Proof.
  induction v as [|b|n|n|m e|s|l IH|l IH] using any_ind'; cbn [sanitize any_leaves]; try (apply redacts_refl; by repeat constructor).
  - rewrite !flat_map_concat_map, map_map, <- !flat_map_concat_map. by apply redacts_flat_map.
  - rewrite !flat_map_concat_map, map_map, <- !flat_map_concat_map. apply redacts_flat_map. eapply Forall_impl; [exact IH|].
    intros [k v] Hv. cbn in *. destruct (IsSensitiveKey k) eqn:Hk; [|by apply redacts_under]. cbn. apply redacts_all; [done|].
    apply Forall_map, Forall_true. intros pv. cbn. eauto.
Qed.

(** SanitizeMap: no value below a sensitive name, at any depth of maps and
    slices, is left in the copy, and all others are. *)
Theorem maps_hold_no_secret data : redacts (any_leaves (AMap data)) (any_leaves (AMap (SanitizeMap data))).
Proof. apply (sanitize_redacts (AMap data)). Qed.

Definition attrs_of (calls : list handler_call) : list attr :=
  flat_map (fun c => match c with WithAttrs l => l | WithGroup _ => [] end) calls.

Lemma masked_attrs calls : attrs_of (map mask_call calls) = map maskAttr (attrs_of calls).
Proof. unfold attrs_of. induction calls as [|[l|n] calls IH]; cbn; [done| |exact IH]. by rewrite map_app, IH. Qed.

Lemma mask_list_redacts l : forallb no_valuer l = true -> redacts (flat_map leaves l) (flat_map leaves (map maskAttr l)).
Proof.
  intros Hn. rewrite (flat_map_concat_map leaves (map _ _)), map_map, <- flat_map_concat_map. apply redacts_flat_map.
  rewrite forallb_forall in Hn. apply Forall_forall. intros a Ha. apply maskAttr_redacts, Hn. by apply list_elem_of_In.
Qed.

(** What the wrapped handler writes of a record: inside the groups that were
    opened before it, together with the attributes that were added there. *)
Fixpoint written (calls : list handler_call) (record : list attr) : list attr :=
  match calls with
  | [] => record
  | WithAttrs l :: calls' => l ++ written calls' record
  | WithGroup n :: calls' => if String.eqb n "" then written calls' record else [AGroup n (written calls' record)]
  end.

Definition opened (calls : list handler_call) : list string :=
  flat_map (fun c => match c with WithGroup n => [n] | WithAttrs _ => [] end) calls.

Lemma written_redacts calls record :
  forallb no_valuer (attrs_of calls ++ record) = true -> Forall (fun n => IsSensitiveKey n = false) (opened calls) ->
  redacts (flat_map leaves (written calls record)) (flat_map leaves (written (map mask_call calls) (map maskAttr record))).
Proof.
  induction calls as [|[l|n] calls IH]; intros Hn Ho; [by apply mask_list_redacts| |]; cbn [written map mask_call].
  - cbn [attrs_of flat_map] in Hn. rewrite <- app_assoc, forallb_app in Hn. apply andb_true_iff in Hn as [Hl Hn].
    rewrite !flat_map_app. apply redacts_app; [by apply mask_list_redacts|]. by apply IH.
  - cbn in Ho. apply Forall_cons in Ho as [Hk Ho]. destruct (String.eqb n ""); [by apply IH|].
    cbn [flat_map leaves]. rewrite !app_nil_r. apply redacts_under; [done|]. by apply IH.
Qed.

(** C36: Masked logs hold no secret.  Of the attributes a logger collected and
    those of a record, none of which is a LogValuer, no value below a
    sensitive name, its own or that of a group attribute at any depth,
    reaches the wrapped handler, and all other values do, in their order and
    under their names.  The names of groups that the logger itself opened are
    not looked at: if none of them is sensitive, the same holds of what is
    written of the record inside those groups. *)
Theorem logs_hold_no_secret calls record : forallb no_valuer (attrs_of calls ++ record) = true ->
  let '(calls', record') := Handle calls record in
  redacts (flat_map leaves (attrs_of calls ++ record)) (flat_map leaves (attrs_of calls' ++ record')) /\
  opened calls' = opened calls /\
  (Forall (fun n => IsSensitiveKey n = false) (opened calls) ->
     redacts (flat_map leaves (written calls record)) (flat_map leaves (written calls' record'))).
Proof.
  intros Hn. unfold Handle. rewrite masked_attrs, <- map_app. split; [by apply mask_list_redacts|]. split.
  - clear. unfold opened. induction calls as [|[l|n] calls IH]; [done|exact IH|]. cbn in *. by rewrite IH.
  - by apply written_redacts.
Qed.

Definition login_record : list attr :=
  [AValue "user" (AStr "john"); AGroup "request" [AValue "Password" (AStr "hunter2"); AValue "path" (AStr "/login")]; AGroup "auth" [AValue "id" (AInt 7)]].

Definition login_calls : list handler_call := [WithAttrs [AValue "api_key" (AStr "sk-1")]; WithGroup "web"].

Example logs_hold_no_secret_witness :
  redacts (flat_map leaves (written login_calls login_record))
    (flat_map leaves (written (Handle login_calls login_record).1 (Handle login_calls login_record).2)) /\
  written (Handle login_calls login_record).1 (Handle login_calls login_record).2 =
    [AValue "api_key" (AStr "[REDACTED]"); AGroup "web" [AValue "user" (AStr "john");
       AGroup "request" [AValue "Password" (AStr "[REDACTED]"); AValue "path" (AStr "/login")]; AValue "auth" (AStr "[REDACTED]")]].
Proof.
  split; [|vm_compute; reflexivity].
  destruct (logs_hold_no_secret login_calls login_record eq_refl) as (_ & _ & Hw).
  apply Hw. by repeat constructor.
Defined.

(** A LogValuer and the members of a group the logger opened itself are
    written as they are. *)
Example valuers_and_open_groups_pass :
  Handle [WithGroup "password"] [AValue "value" (AStr "hunter2"); AValuer (AGroup "user" [AValue "token" (AStr "t")])] =
  ([WithGroup "password"], [AValue "value" (AStr "hunter2"); AValuer (AGroup "user" [AValue "token" (AStr "t")])]).
Proof. reflexivity. Qed.
