(* ===== verification/Repository.v ===== *)
(** * Entities in tables (data/mapper.go, data/repository.go)

    The metadata of a structure type from the tags of its fields, the values
    an entity is stored as and the entity a row is scanned into, with
    encryption in between, and the generic repository over a database.  The
    database, its conversions and squirrel are the classes [Conversion] and
    [Database]; a statement is what was put into its builder, and an error
    comes from the builder or the database.  Of a repository the engine is
    there; a panic of reflect is the error [reflect_panic]. *)

From S2P Require Import Prelude GoStrings GoData CryptoPrims NetGuard Tokens GoReflect Secrets Tx Paging.

#[local] Open Scope go_scope.
#[local] Open Scope string_scope.
#[local] Open Scope list_scope.
#[local] Open Scope Z_scope.

(** ** Metadata *)

Record FieldInfo := mkFieldInfo {
  fi_Name : string; ColumnName : string; IndexPath : list nat; fi_Type : gotype;
  IsPrimaryKey : bool; IsAutoIncrement : bool; IsReadOnly : bool; IsEncrypted : bool
}.

Record StructMetadata := mkMeta {
  Columns : list string; md_Fields : list FieldInfo; FieldByColumn : gmap string FieldInfo;
  PrimaryKeyCol : string; PrimaryKeyField : option FieldInfo; HasEncryption : bool
}.

Definition parseTag (tag : string) : string * list string :=
  if String.eqb tag "" then ("", [])
  else match split_on "," tag with
       | p :: ps => (TrimSpace p, List.filter (fun o => negb (String.eqb o "")) (map TrimSpace ps))
       | [] => ("", [])
       end.

Definition isIntegerKind (t : gotype) : bool := match t with TInt _ _ => true | _ => false end.

Definition is_upper (a : Ascii.ascii) : bool := ascii_in "A" "Z" a.

(** Of names in ASCII. *)
Fixpoint snake_rest (s : string) : string :=
  match s with
  | EmptyString => ""
  | String a s' => if is_upper a then String "_" (String (lower_ascii a) (snake_rest s')) else String a (snake_rest s')
  end.

Definition toSnakeCase (s : string) : string :=
  match s with EmptyString => "" | String a s' => String (lower_ascii a) (snake_rest s') end.

Definition column_name (field : StructField) : string :=
  let colName := (parseTag (tag_get field "db")).1 in
  if negb (String.eqb colName "") then colName
  else
    let jsonName := (parseTag (tag_get field "json")).1 in
    if negb (String.eqb jsonName "") && negb (String.eqb jsonName "-") then jsonName else toSnakeCase (f_Name field).

Definition field_option (int : bool) (st : bool * bool * bool) (opt : string) : bool * bool * bool :=
  let '(isPK, isAuto, isReadOnly) := st in
  let o := ToLower opt in
  if String.eqb o "primarykey" || String.eqb o "pk" then (true, isAuto || int, isReadOnly)
  else if String.eqb o "autoincrement" || String.eqb o "auto" then (isPK, true, isReadOnly)
  else if String.eqb o "readonly" then (isPK, isAuto, true)
  else st.

Definition field_info (field : StructField) (ft : gotype) (currentPath : list nat) : FieldInfo :=
  let '(isPK, isAuto, isReadOnly) :=
    foldl (field_option (isIntegerKind ft)) (false, false, false) (parseTag (tag_get field "db")).2 in
  mkFieldInfo (f_Name field) (column_name field) currentPath ft isPK isAuto isReadOnly (String.eqb (tag_get field "ztatic") "encrypt").

Definition add_field (field : StructField) (ft : gotype) (currentPath : list nat) (meta : StructMetadata) : StructMetadata :=
  let fi := field_info field ft currentPath in
  let colName := ColumnName fi in
  mkMeta (Columns meta ++ [colName]) (md_Fields meta ++ [fi]) (<[colName := fi]> (FieldByColumn meta))
    (if IsPrimaryKey fi then colName else PrimaryKeyCol meta) (if IsPrimaryKey fi then Some fi else PrimaryKeyField meta)
    (HasEncryption meta || IsEncrypted fi).

(** A structure, behind pointers or not. *)
Fixpoint is_struct (t : gotype) : bool := match t with TPtr t => is_struct t | TStruct _ | TTime => true | _ => false end.

Definition indexed_fields {A} (step : nat -> StructField -> gotype -> A -> A) : list (StructField * gotype) -> nat -> A -> A :=
  fix go fs i meta :=
    match fs with
    | [] => meta
    | (field, ft) :: fs' => go fs' (S i) (step i field ft meta)
    end.

Fixpoint inspectFields (t : gotype) (parentIndices : list nat) (meta : StructMetadata) : StructMetadata :=
  match t with
  | TPtr t' => inspectFields t' parentIndices meta
  | TStruct fs =>
      indexed_fields (fun i field ft meta =>
        if negb (f_Exported field) then meta
        else
          let dbTag := tag_get field "db" in
          if f_Anonymous field && is_struct ft && negb (String.eqb dbTag "-") then inspectFields ft (parentIndices ++ [i]) meta
          else if String.eqb dbTag "-" then meta
          else add_field field ft (parentIndices ++ [i]) meta) fs 0 meta
  | _ => meta
  end.

Definition as_primary (fi : FieldInfo) : FieldInfo :=
  mkFieldInfo (fi_Name fi) (ColumnName fi) (IndexPath fi) (fi_Type fi) true
    (IsAutoIncrement fi || isIntegerKind (fi_Type fi)) (IsReadOnly fi) (IsEncrypted fi).

(** The first field called id in any case, made the primary one. *)
Fixpoint name_primary (fs : list FieldInfo) : option (list FieldInfo * FieldInfo) :=
  match fs with
  | [] => None
  | fi :: fs' =>
      if EqualFold (fi_Name fi) "id" then Some (as_primary fi :: fs', as_primary fi)
      else (fun r => (fi :: r.1, r.2)) <$> name_primary fs'
  end.

Definition empty_meta : StructMetadata := mkMeta [] [] ∅ "" None false.

Definition buildMetadata (t : gotype) : StructMetadata :=
  let meta := inspectFields t [] empty_meta in
  match PrimaryKeyField meta with
  | Some _ => meta
  | None =>
      match FieldByColumn meta !! "id" with
      | Some fi =>
          mkMeta (Columns meta) (md_Fields meta) (<["id" := as_primary fi]> (FieldByColumn meta)) "id" (Some (as_primary fi)) (HasEncryption meta)
      | None =>
          match name_primary (md_Fields meta) with
          | Some (fields, fi) =>
              mkMeta (Columns meta) fields (<[ColumnName fi := fi]> (FieldByColumn meta)) (ColumnName fi) (Some fi) (HasEncryption meta)
          | None => meta
          end
      end
  end.

Fixpoint strip_pointers (t : gotype) : gotype := match t with TPtr t => strip_pointers t | _ => t end.

(** What the cache of metadata holds for a type. *)
Definition GetMetadata (t : gotype) : StructMetadata :=
  match strip_pointers t with
  | TStruct fs => buildMetadata (TStruct fs)
  | TTime => buildMetadata TTime
  | _ => empty_meta
  end.

(** ** Fields by path *)

(** At a nil pointer the zero value of what it points to is given, whatever
    is left of the path.  [None] is a panic. *)
Fixpoint getFieldValue (t : gotype) (v : goval) (indexPath : list nat) : option (gotype * goval) :=
  match indexPath with
  | [] => Some (t, v)
  | idx :: rest =>
      match t, v with
      | TPtr t', VPtr None => Some (t', zero t')
      | TPtr (TStruct fs), VPtr (Some (VStruct vs)) | TStruct fs, VStruct vs =>
          f ← fs !! idx; x ← vs !! idx; getFieldValue f.2 x rest
      | _, _ => None
      end
  end.

(** Setting the field [resolveFieldPtr] finds, which puts structures behind
    nil pointers on its way. *)
Fixpoint setField (t : gotype) (v : goval) (indexPath : list nat) (x : goval) : option goval :=
  match indexPath with
  | [] => Some x
  | idx :: rest =>
      match t, v with
      | TPtr (TStruct fs), VPtr o =>
          match (match o with Some y => y | None => zero (TStruct fs) end) with
          | VStruct vs => f ← fs !! idx; y ← vs !! idx; y' ← setField f.2 y rest x; Some (VPtr (Some (VStruct (<[idx := y']> vs))))
          | _ => None
          end
      | TStruct fs, VStruct vs => f ← fs !! idx; y ← vs !! idx; y' ← setField f.2 y rest x; Some (VStruct (<[idx := y']> vs))
      | _, _ => None
      end
  end.

Fixpoint isZero (v : goval) : bool :=
  match v with
  | VString s => String.eqb s ""
  | VInt n | VTime n => n =? 0
  | VPtr o => match o with None => true | Some _ => false end
  | VSlice o => match o with None => true | Some _ => false end
  | VArray l | VStruct l => forallb isZero l
  | VOther a => match a with ANil | ABool false | AInt 0 | AInt64 0 | AFloat 0 _ | AStr "" => true | _ => false end
  end.

Definition reflect_panic : gerror := ErrMsg "panic: reflect".
Definition or_panic {A} (o : option A) : result A := match o with Some a => Ok a | None => Err reflect_panic end.

(** ** Statements *)

(** An argument: a value of any type, or one read from a field. *)
Inductive arg := AnyArg (a : any) | ValArg (t : gotype) (v : goval).

Inductive where_clause := WKey (col : string) (a : arg) | WRaw (pred : any) (args : list any).

Inductive statement :=
| SInsert (table : string) (cols : list string) (rows : list (list arg))
| SUpdate (table : string) (sets : list (string * arg)) (w : where_clause)
| SDelete (table : string) (w : where_clause).

(** The conversions of database/sql and the driver, on the way there and
    into a field of some type. *)
Class Conversion := {
  store_arg : arg -> result dbval;
  load : gotype -> dbval -> result goval
}.

(** A result has the identifier of the last row inserted, if the driver can
    tell, and the number of rows. *)
Record exec_result := mkResult { LastInsertId : option Z; RowsAffected : result Z }.

Class Database := {
  db : Type;
  db_exec : statement -> db -> db * result exec_result;
  db_query : builder -> db -> result (list string * list (list dbval));
  db_count : builder -> db -> result Z
}.

Definition ErrNotFound : gerror := ErrMsg "ztatic/data: record not found".
Definition sql_ErrNoRows : gerror := ErrMsg "sql: no rows in result set".

(** ** Between entities and rows *)

Section Mapping.
Context `{CryptoPrims} `{Conversion}.
(** The default cipher suite, if there is one, and the nonces. *)
Context (cs : option bytes) (rand : nat -> result bytes).

(** Only a value of type string is encrypted; where that fails it is stored
    as it is. *)
Definition stored_value (fi : FieldInfo) (ft : gotype) (v : goval) (i : nat) : arg * nat :=
  match IsEncrypted fi, cs, ft, v with
  | true, Some key, TString "string", VString str =>
      if String.eqb str "" then (ValArg ft v, i)
      else match Encrypt key (rand i) (bytes_of_string str) with
           | Ok encrypted => (ValArg ft (VString encrypted), S i)
           | Err _ => (ValArg ft v, S i)
           end
  | _, _, _, _ => (ValArg ft v, i)
  end.

Definition left_out (forInsert : bool) (t : gotype) (entity : goval) (fi : FieldInfo) : result bool :=
  if forInsert then
    if IsPrimaryKey fi && IsAutoIncrement fi then let? p := or_panic (getFieldValue t entity (IndexPath fi)) in Ok (isZero p.2) else Ok false
  else Ok (IsPrimaryKey fi || IsReadOnly fi).

Fixpoint extract_fields (forInsert : bool) (t : gotype) (entity : goval) (fields : list FieldInfo) (i : nat) : result (list (string * arg) * nat) :=
  match fields with
  | [] => Ok ([], i)
  | fi :: fields' =>
      let? out := left_out forInsert t entity fi in
      if out then extract_fields forInsert t entity fields' i
      else
        let? p := or_panic (getFieldValue t entity (IndexPath fi)) in
        let '(a, i1) := stored_value fi p.1 p.2 i in
        let? r := extract_fields forInsert t entity fields' i1 in
        Ok ((ColumnName fi, a) :: r.1, r.2)
  end.

(** Of an entity behind any number of pointers. *)
Fixpoint ExtractValues (forInsert : bool) (t : gotype) (entity : goval) (meta : StructMetadata) (i : nat) : result (list (string * arg) * nat) :=
  match t, entity with
  | TPtr t', VPtr None => Err (ErrMsg "ztatic/data: cannot extract values from nil pointer")
  | TPtr t', VPtr (Some e) => ExtractValues forInsert t' e meta i
  | TStruct _, _ | TTime, _ => extract_fields forInsert t entity (md_Fields meta) i
  | _, _ => Err (ErrMsg "ztatic/data: expected struct entity")
  end.

(** Values into the fields they are bound to; one bound to nothing is
    dropped. *)
Fixpoint scan_into (t : gotype) (bound : list (option FieldInfo * dbval)) (item : goval) : result goval :=
  match bound with
  | [] => Ok item
  | (None, _) :: bound' => scan_into t bound' item
  | (Some fi, d) :: bound' =>
      let? x := load (fi_Type fi) d in
      let? item' := or_panic (setField t item (IndexPath fi) x) in
      scan_into t bound' item'
  end.

Definition bind_columns (meta : StructMetadata) (cols : list string) : list (option FieldInfo) := map (fun c => FieldByColumn meta !! c) cols.

(** A failure to decrypt is ignored, with what was decrypted before it. *)
Definition decrypted (meta : StructMetadata) (t : gotype) (item : goval) : goval :=
  match HasEncryption meta, cs with
  | true, Some key =>
      match ProcessStruct key rand false (TPtr t) (VPtr (Some item)) 0 with
      | (VPtr (Some item'), _, _) => item'
      | _ => item
      end
  | _, _ => item
  end.

(** [columns] are those the row tells, if it can. *)
Definition ScanOne (meta : StructMetadata) (t : gotype) (columns : option (list string)) (row : result (list dbval)) : result goval :=
  let bindings := match columns with Some cols => bind_columns meta cols | None => map Some (md_Fields meta) end in
  match row with
  | Err er => Err (if bool_decide (er = sql_ErrNoRows) then ErrNotFound else er)
  | Ok vals => let? item := scan_into t (zip bindings vals) (zero t) in Ok (decrypted meta t item)
  end.

Fixpoint ScanAll (meta : StructMetadata) (t : gotype) (cols : list string) (rows : list (list dbval)) : result (list goval) :=
  match rows with
  | [] => Ok []
  | vals :: rows' =>
      let? item := scan_into t (zip (bind_columns meta cols) vals) (zero t) in
      let? items := ScanAll meta t cols rows' in
      Ok (decrypted meta t item :: items)
  end.
End Mapping.

(** ** Primary keys and timestamps *)

(** UTF-8; what is no code point becomes U+FFFD. *)
Definition utf8 (n : Z) : bytes :=
  if n <? 128 then [n]
  else if n <? 2048 then [192 + n / 64; 128 + n mod 64]
  else if n <? 65536 then [224 + n / 4096; 128 + n / 64 mod 64; 128 + n mod 64]
  else [240 + n / 262144; 128 + n / 4096 mod 64; 128 + n / 64 mod 64; 128 + n mod 64].
Definition rune_string (n : Z) : string :=
  string_of_bytes (utf8 (if (0 <=? n) && (n <? 55296) || (57344 <=? n) && (n <? 1114112) then n else 65533)).

(** reflect's conversion of an int64 or a string to the type of a key; keys
    that are no integers, strings or bytes are left out. *)
Definition convert_key (idVal : any) (t : gotype) : option goval :=
  match idVal, t with
  | AInt64 n, TInt s w => Some (VInt (int_convert s w n))
  | AInt64 n, TString _ => Some (VString (rune_string n))
  | AStr s, TString _ => Some (VString s)
  | AStr s, TSlice (TInt false W8) => Some (VSlice (Some (map VInt (bytes_of_string s))))
  | _, _ => None
  end.

(** Of an entity that is a pointer and not nil. *)
Definition SetPrimaryKeyValue (t : gotype) (entity : goval) (meta : StructMetadata) (idVal : any) : result goval :=
  match PrimaryKeyField meta with
  | None => Err (ErrMsg "ztatic/data: no primary key field found in metadata")
  | Some fi =>
      match convert_key idVal (fi_Type fi) with
      | Some x => or_panic (setField t entity (IndexPath fi) x)
      | None => Err (ErrMsg "ztatic/data: cannot convert id to primary key type")
      end
  end.

Definition GetPrimaryKeyValue (t : gotype) (entity : goval) (meta : StructMetadata) : result arg :=
  match PrimaryKeyField meta with
  | None => Err (ErrMsg "ztatic/data: no primary key field found in metadata")
  | Some fi => let? p := or_panic (getFieldValue t entity (IndexPath fi)) in Ok (ValArg p.1 p.2)
  end.

(** Value.FieldByName: the only field of the name at the least depth. *)
Definition named_fields (name : string) (lv : list (list nat * list (StructField * gotype))) : list (list nat) :=
  flat_map (fun pf => map (fun ift => pf.1 ++ [ift.1])
    (List.filter (fun ift => String.eqb (f_Name ift.2.1) name) (imap pair pf.2))) lv.

Definition embedded_fields (lv : list (list nat * list (StructField * gotype))) : list (list nat * list (StructField * gotype)) :=
  flat_map (fun pf => omap (fun ift =>
    if f_Anonymous (ift.2 : StructField * gotype).1
    then match ift.2.2 with TStruct fs | TPtr (TStruct fs) => Some (pf.1 ++ [ift.1], fs) | _ => None end else None) (imap pair pf.2)) lv.

Fixpoint field_by_name (fuel : nat) (name : string) (lv : list (list nat * list (StructField * gotype))) : option (list nat) :=
  match fuel, named_fields name lv with
  | O, _ => None
  | S _, [p] => Some p
  | S _, _ :: _ => None
  | S n, [] => match embedded_fields lv with [] => None | lv' => field_by_name n name lv' end
  end.

Fixpoint type_depth (t : gotype) : nat :=
  match t with
  | TPtr t | TSlice t | TArray _ t => S (type_depth t)
  | TStruct fs => S (foldr (fun ft d => Nat.max (type_depth ft.2) d) 0%nat fs)
  | _ => 1
  end.

Definition FieldByName (t : gotype) (name : string) : option (list nat) :=
  match t with TStruct fs => field_by_name (type_depth t) name [([], fs)] | _ => None end.

(** A path through a nil pointer to an embedded structure panics. *)
Fixpoint through_nil (v : goval) (path : list nat) : bool :=
  match path with
  | [] => false
  | idx :: rest =>
      match v with
      | VPtr None => true
      | VPtr (Some (VStruct vs)) | VStruct vs => match vs !! idx with Some x => through_nil x rest | None => false end
      | _ => false
      end
  end.

Definition populateDefaultTimestamps (now : Z) (t : gotype) (entity : goval) : result goval :=
  match FieldByName t "CreatedAt" with
  | None => Ok entity
  | Some path =>
      if through_nil entity path then Err reflect_panic
      else match getFieldValue t entity path with
           | Some (TTime, VTime 0) => or_panic (setField t entity path (VTime now))
           | _ => Ok entity
           end
  end.

(** ** The repository *)

Record BaseRepository := mkRepo { TableName : string; PrimaryKey : string; Metadata : StructMetadata; r_Type : gotype }.

Definition NewBaseRepository (t : gotype) (tableName : string) : BaseRepository :=
  let meta := GetMetadata t in mkRepo tableName (PrimaryKeyCol meta) meta t.

Definition primaryKeyCol (r : BaseRepository) : string :=
  if negb (String.eqb (PrimaryKey r) "") then PrimaryKey r
  else if negb (String.eqb (PrimaryKeyCol (Metadata r)) "") then PrimaryKeyCol (Metadata r) else "id".

Definition SelectBuilder (r : BaseRepository) : builder :=
  [BSelect (match Columns (Metadata r) with [] => ["*"] | cols => cols end); BFrom (TableName r)].

Definition entity_is_nil : gerror := ErrMsg "ztatic/data: entity is nil".

Section Repository.
Context `{CryptoPrims} `{Conversion} `{Database}.
(** The default cipher suite, the nonces and the clock. *)
Context (cs : option bytes) (rand : nat -> result bytes) (now : Z).
(** What PaginateSelect and PaginateCursorSelect are given. *)
Context (to_sql : builder -> string) `{JsonCodec} (url_decode : string -> option bytes) (to_any : gotype -> goval -> any).

Implicit Types (r : BaseRepository) (st : db).

Definition GetByID r (id : any) st : result goval :=
  let? p := db_query (SelectBuilder r ++ [BWhere (CEq (primaryKeyCol r) id); BLimit 1]) st in
  match p.2 with
  | [] => Err ErrNotFound
  | vals :: _ => ScanOne cs rand (Metadata r) (r_Type r) (Some p.1) (Ok vals)
  end.

(** The suite of the repository, or the default one. *)
Definition process_model (isEncrypting : bool) (CipherSuite : option bytes) (missing : string) r (entity : goval) (i : nat) : goval * option gerror :=
  match (match CipherSuite with Some key => Some key | None => cs end) with
  | None => (entity, Some (ErrMsg missing))
  | Some key =>
      match ProcessStruct key rand isEncrypting (TPtr (r_Type r)) (VPtr (Some entity)) i with
      | (VPtr (Some e), _, er) => (e, er)
      | (_, _, er) => (entity, er)
      end
  end.

Definition EncryptModel (CipherSuite : option bytes) r (entity : goval) (i : nat) : goval * option gerror :=
  process_model true CipherSuite
    "ztatic/data: cipher suite is uninitialized for model encryption; call app.SetCipherKey(...)" r entity i.

Definition DecryptModel (CipherSuite : option bytes) r (entity : goval) : goval * option gerror :=
  process_model false CipherSuite
    "ztatic/data: cipher suite is uninitialized for model decryption; call app.SetCipherKey(...)" r entity 0.

(** [scanFn] scans a row, or the error of one that is not there. *)
Definition QueryByID (CipherSuite : option bytes) r (id : any) (scanFn : result (list dbval) -> result goval) st : result goval :=
  let row :=
    match db_query [BSelect ["*"]; BFrom (TableName r); BWhere (CEq (primaryKeyCol r) id)] st with
    | Err er => Err er
    | Ok (_, []) => Err sql_ErrNoRows
    | Ok (_, vals :: _) => Ok vals
    end in
  match scanFn row with
  | Err er => Err (if bool_decide (er = sql_ErrNoRows) then ErrNotFound else er)
  | Ok entity => Ok (DecryptModel CipherSuite r entity).1
  end.

Definition select_all r st (b : builder) : result (list goval) :=
  let? p := db_query b st in ScanAll cs rand (Metadata r) (r_Type r) p.1 p.2.

Definition Find r (opts : list (option QueryOption)) st : result (list goval) := select_all r st (ApplyOptions (SelectBuilder r) opts).

Definition FindOne r (opts : list (option QueryOption)) st : result goval :=
  let? items := Find r (opts ++ [Some (Limit_ 1)]) st in
  match items with [] => Err ErrNotFound | item :: _ => Ok item end.

Definition FindPaginated r (p : PageParams) (opts : list (option QueryOption)) st : result (list goval * PaginationMeta) :=
  PaginateSelect (select_all r st) (fun b => db_count b st) to_sql (ApplyOptions (SelectBuilder r) opts) p.

Definition extractColumnValue r (entity : goval) (colName : string) : option any :=
  fi ← FieldByColumn (Metadata r) !! colName; p ← getFieldValue (r_Type r) entity (IndexPath fi); Some (to_any p.1 p.2).

Definition FindCursor r (p : CursorParams) (cursorCol : string) (opts : list (option QueryOption)) st : result (list goval * CursorMeta) :=
  PaginateCursorSelect (select_all r st) (extractColumnValue r) (PrimaryKeyCol (Metadata r)) url_decode
    (ApplyOptions (SelectBuilder r) opts) p cursorCol.

(** The entity is changed in place: the timestamp also where storing fails. *)
Definition Insert r (entity : option goval) (i : nat) st : option goval * db * result unit :=
  match entity with
  | None => (None, st, Err entity_is_nil)
  | Some e0 =>
      match populateDefaultTimestamps now (r_Type r) e0 with
      | Err er => (Some e0, st, Err er)
      | Ok e =>
          match ExtractValues cs rand true (r_Type r) e (Metadata r) i with
          | Err er => (Some e, st, Err er)
          | Ok (vals, _) =>
              match db_exec (SInsert (TableName r) vals.*1 [vals.*2]) st with
              | (st', Err er) => (Some e, st', Err er)
              | (st', Ok res) =>
                  let e' :=
                    match PrimaryKeyField (Metadata r), LastInsertId res with
                    | Some fi, Some id =>
                        if IsAutoIncrement fi && (0 <? id)
                        then match SetPrimaryKeyValue (r_Type r) e (Metadata r) (AInt64 id) with Ok e' => e' | Err _ => e end
                        else e
                    | _, _ => e
                    end in
                  (Some e', st', Ok tt)
              end
          end
      end
  end.

Fixpoint stamped r (entities : list goval) : result (list goval) :=
  match entities with
  | [] => Ok []
  | e :: es =>
      let? e' := populateDefaultTimestamps now (r_Type r) e in
      let? es' := stamped r es in Ok (e' :: es')
  end.

Fixpoint extract_rows r (entities : list goval) (i : nat) : result (list (list arg)) :=
  match entities with
  | [] => Ok []
  | e :: es =>
      let? p := ExtractValues cs rand true (r_Type r) e (Metadata r) i in
      let? rows := extract_rows r es p.2 in
      Ok (p.1.*2 :: rows)
  end.

(** The columns are those of the first entity, of entities that are not nil. *)
Definition InsertMany r (entities : list goval) (i : nat) st : db * result unit :=
  match entities with
  | [] => (st, Ok tt)
  | _ =>
      match (let? es := stamped r entities in
             let? first := match es with e :: _ => ExtractValues cs rand true (r_Type r) e (Metadata r) i | [] => Ok ([], i) end in
             let? rows := extract_rows r es first.2 in Ok (first.1.*1, rows)) with
      | Err er => (st, Err er)
      | Ok (cols, rows) =>
          let '(st', res) := db_exec (SInsert (TableName r) cols rows) st in
          (st', let? _ := res in Ok tt)
      end
  end.

(** The result of a statement that is to change a record. *)
Definition changed_record (p : db * result exec_result) : db * result unit :=
  (p.1, let? res := p.2 in let? rows := RowsAffected res in if rows =? 0 then Err ErrNotFound else Ok tt).

Definition Save r (entity : option goval) (i : nat) st : db * result unit :=
  match entity with
  | None => (st, Err entity_is_nil)
  | Some e =>
      match (let? pkVal := GetPrimaryKeyValue (r_Type r) e (Metadata r) in
             let? p := ExtractValues cs rand false (r_Type r) e (Metadata r) i in Ok (pkVal, p.1)) with
      | Err er => (st, Err er)
      | Ok (pkVal, sets) => changed_record (db_exec (SUpdate (TableName r) sets (WKey (primaryKeyCol r) pkVal)) st)
      end
  end.

(** [values] in the order the map is walked in. *)
Definition UpdateColumns r (id : any) (values : list (string * any)) st : db * result unit :=
  match values with
  | [] => (st, Ok tt)
  | _ =>
      let sets := omap (fun cv => let clean := cleanIdentifier cv.1 in if String.eqb clean "" then None else Some (clean, AnyArg cv.2)) values in
      changed_record (db_exec (SUpdate (TableName r) sets (WKey (primaryKeyCol r) (AnyArg id))) st)
  end.

Definition DeleteByID r (id : any) st : db * result unit :=
  changed_record (db_exec (SDelete (TableName r) (WKey (primaryKeyCol r) (AnyArg id))) st).

Definition DeleteWhere r (pred : any) (args : list any) st : db * result Z :=
  let '(st', res) := db_exec (SDelete (TableName r) (WRaw pred args)) st in
  (st', let? x := res in RowsAffected x).

Definition Count r (opts : list (option QueryOption)) st : result Z :=
  db_count (ApplyOptions [BSelect ["COUNT(*)"]; BFrom (TableName r)] opts) st.

Definition Exists r (opts : list (option QueryOption)) st : result bool := let? count := Count r opts st in Ok (0 <? count).

(** ** As a resource of the web framework *)

Inductive failure := HTTPError (code : Z) (msg : string) | OtherError (er : gerror).

Definition not_found (er : gerror) : failure :=
  if bool_decide (er = ErrNotFound) then HTTPError 404 "ztatic/data: record not found" else OtherError er.

Definition as_resource {A} (x : result A) : failure + A := match x with Ok a => inr a | Err er => inl (not_found er) end.

Definition payload_is_nil : failure := HTTPError 400 "ztatic/data: payload cannot be nil".

Definition FindAll r st : result (list goval) := Find r [] st.

Definition FindByID r (id : string) st : failure + goval := as_resource (GetByID r (AStr id) st).

Definition Create r (item : option goval) (i : nat) st : db * (failure + goval) :=
  match item with
  | None => (st, inl payload_is_nil)
  | Some e =>
      match Insert r (Some e) i st with
      | (Some e', st', Ok _) => (st', inr e')
      | (_, st', Err er) => (st', inl (OtherError er))
      | (None, st', Ok _) => (st', inr e)
      end
  end.

(** A key that cannot be set is ignored. *)
Definition Update r (id : string) (item : option goval) (i : nat) st : db * (failure + goval) :=
  match item with
  | None => (st, inl payload_is_nil)
  | Some e0 =>
      let e := match SetPrimaryKeyValue (r_Type r) e0 (Metadata r) (AStr id) with Ok e => e | Err _ => e0 end in
      let '(st', res) := Save r (Some e) i st in
      (st', as_resource (let? _ := res in Ok e))
  end.

Definition Delete r (id : string) st : db * (failure + unit) :=
  let '(st', res) := DeleteByID r (AStr id) st in (st', as_resource res).

Definition FindAllPaginated r (p : PageParams) st : result (list goval * Z) :=
  let? x := FindPaginated r p [] st in Ok (x.1, TotalItems x.2).
End Repository.
