(* ===== verification/RepositoryProps.v ===== *)
(** * Theorems about entities in tables (Repository)

    The fields a structure type is mapped by, the row an entity becomes and
    the entity a row becomes, and what the repository's operations do to a
    table. *)

From S2P Require Import Prelude GoStrings GoData CryptoPrims NetGuard Tokens TokensProps GoReflect Secrets SecretsProps Tx Paging Repository.

#[local] Open Scope go_scope.
#[local] Open Scope string_scope.
#[local] Open Scope list_scope.
#[local] Open Scope Z_scope.

(** ** The mapped fields *)

(** What inspectFields does with a field. *)
Inductive role := Skip | Embed | Leaf.

Definition field_role (f : StructField) (ft : gotype) : role :=
  if negb (f_Exported f) then Skip
  else if f_Anonymous f && is_struct ft && negb (String.eqb (tag_get f "db") "-") then Embed
  else if String.eqb (tag_get f "db") "-" then Skip else Leaf.

Abbreviation mleaf := (list nat * (StructField * gotype))%type.

Definition at_index (i : nat) {A} (x : list nat * A) : list nat * A := (i :: x.1, x.2).

Definition mapped_fields (m : gotype -> list mleaf) : list (StructField * gotype) -> nat -> list mleaf :=
  fix go fs i :=
    match fs with
    | [] => []
    | (f, ft) :: fs' =>
        match field_role f ft with
        | Skip => []
        | Embed => map (at_index i) (m ft)
        | Leaf => [([i], (f, ft))]
        end ++ go fs' (S i)
    end.

Fixpoint mapped (t : gotype) : list mleaf :=
  match t with
  | TPtr t' => mapped t'
  | TStruct fs => mapped_fields mapped fs 0
  | _ => []
  end.

Definition add_leaf (p : list nat) (m : StructMetadata) (x : mleaf) : StructMetadata := add_field x.2.1 x.2.2 (p ++ x.1) m.

Lemma foldl_below p i (l : list mleaf) m : foldl (add_leaf p) m (map (at_index i) l) = foldl (add_leaf (p ++ [i])) m l.
Proof.
  revert m. induction l as [|x l IH]; intros m; [done|]. cbn [map foldl]. rewrite IH. f_equal. unfold add_leaf, at_index. cbn. by rewrite <- app_assoc.
Qed.

(** inspectFields adds the mapped fields, one by one. *)
Lemma inspect_mapped t : forall p meta, inspectFields t p meta = foldl (add_leaf p) meta (mapped t).
Proof.
  induction t as [n|s w| |t IH|t IH|n t IH|fs IH|n] using gotype_ind'; intros p meta; cbn [inspectFields mapped]; try done.
  generalize 0%nat. revert meta. induction IH as [|[f ft] fs Hft _ IHfs]; intros meta i; [done|].
  cbn [indexed_fields mapped_fields]. fold (mapped_fields mapped). rewrite foldl_app.
  match goal with |- indexed_fields ?g fs (S i) _ = _ => fold (indexed_fields g) in IHfs |- * end.
  rewrite IHfs. f_equal. unfold field_role. destruct (f_Exported f); cbn [negb]; [|done].
  destruct (f_Anonymous f && is_struct ft && negb (String.eqb (tag_get f "db") "-")).
  - by rewrite foldl_below, <- Hft.
  - by destruct (String.eqb (tag_get f "db") "-").
Qed.

(** ** Entities as lists of mapped values *)

Definition leaves_loop (g : gotype -> goval -> list goval) : list (StructField * gotype) -> list goval -> list goval :=
  fix go fs vs :=
    match fs, vs with
    | (f, ft) :: fs', v :: vs' =>
        match field_role f ft with Skip => [] | Embed => g ft v | Leaf => [v] end ++ go fs' vs'
    | _, _ => []
    end.

Fixpoint leaf_values (t : gotype) (v : goval) : list goval :=
  match t, v with
  | TStruct fs, VStruct vs => leaves_loop leaf_values fs vs
  | _, _ => []
  end.

Definition mcount (t : gotype) : nat := length (mapped t).

Definition place_loop (g : gotype -> list (option goval) -> goval) : list (StructField * gotype) -> list (option goval) -> list goval :=
  fix go fs ws :=
    match fs with
    | [] => []
    | (f, ft) :: fs' =>
        match field_role f ft with
        | Skip => zero ft :: go fs' ws
        | Embed => g ft (take (mcount ft) ws) :: go fs' (drop (mcount ft) ws)
        | Leaf => default (zero ft) (mjoin (head ws)) :: go fs' (tail ws)
        end
    end.

(** The entity with these mapped values, everything else being zero. *)
Fixpoint place (t : gotype) (ws : list (option goval)) : goval :=
  match t with
  | TStruct fs => VStruct (place_loop place fs ws)
  | _ => zero t
  end.

(** What a table holds of an entity. *)
Definition held (t : gotype) (v : goval) : goval := place t (map Some (leaf_values t v)).

(** No structure is embedded by pointer. *)
Fixpoint direct (t : gotype) : bool :=
  match t with
  | TStruct fs =>
      forallb (fun ft => match field_role ft.1 ft.2 with Embed => negb (is_pointer ft.2) && direct ft.2 | _ => true end) fs
  | _ => true
  end.

Fixpoint set_all (t : gotype) (items : list (list nat * option goval)) (v : goval) : option goval :=
  match items with
  | [] => Some v
  | (p, None) :: items' => set_all t items' v
  | (p, Some x) :: items' => v' ← setField t v p x; set_all t items' v'
  end.

Lemma set_all_app t l1 l2 v : set_all t (l1 ++ l2) v = (v' ← set_all t l1 v; set_all t l2 v').
Proof. revert v. induction l1 as [|[p [x|]] l1 IH]; intros v; cbn; [done| |by apply IH]. destruct (setField t v p x) as [v'|]; cbn; [apply IH|done]. Qed.

Lemma set_all_below fs i f items : forall vs y, fs !! i = Some f -> vs !! i = Some y ->
  set_all (TStruct fs) (map (at_index i) items) (VStruct vs) = (y' ← set_all f.2 items y; Some (VStruct (<[i := y']> vs))).
Proof.
  induction items as [|[p [x|]] items IH]; intros vs y Hf Hy; cbn [map set_all at_index fst snd].
  - cbn. by rewrite list_insert_id.
  - cbn [setField]. rewrite Hf, Hy. cbn. destruct (setField f.2 y p x) as [y'|]; cbn; [|done].
    assert (i < length vs)%nat by (by eapply lookup_lt_Some).
    rewrite (IH _ y'); [|done|by rewrite list_lookup_insert_eq]. destruct (set_all f.2 items y'); cbn; [|done]. by rewrite list_insert_insert_eq.
  - cbn. by apply IH.
Qed.

Lemma zip_below {B} i (l : list mleaf) (ws : list B) : zip (map (at_index i) l).*1 ws = map (at_index i) (zip l.*1 ws).
Proof. revert ws. induction l as [|[p x] l IH]; intros [|w ws]; cbn; [done..|]. by rewrite <- IH. Qed.

(** Scanning the mapped values into a zero entity places them. *)
Lemma set_all_place t : direct t = true -> forall ws, length ws = mcount t -> is_pointer t = false ->
  set_all t (zip (mapped t).*1 ws) (zero t) = Some (place t ws).
Proof.
  induction t as [n|s w| |t IH|t IH|n t IH|fs IH|n] using gotype_ind'; intros Hd ws Hl Hp; cbn [mapped place]; try done.
  unfold mcount in Hl. cbn [mapped zero] in *. clear Hp.
  assert (forall pre done_ ws, length done_ = length pre -> length ws = length (mapped_fields mapped fs (length pre)) ->
    set_all (TStruct (pre ++ fs)) (zip (mapped_fields mapped fs (length pre)).*1 ws) (VStruct (done_ ++ map (fun ft => zero ft.2) fs))
      = Some (VStruct (done_ ++ place_loop place fs ws))) as Hg; [|exact (Hg [] [] ws eq_refl Hl)].
  clear ws Hl. cbn [direct] in Hd.
  induction IH as [|[f ft] fs Hft _ IHfs]; intros pre done_ ws Hdone Hws; cbn [mapped_fields place_loop map snd].
  { cbn. by destruct ws. }
  cbn [forallb fst snd] in Hd. apply andb_true_iff in Hd as [Hf Hd]. specialize (IHfs Hd). cbn [mapped_fields] in Hws.
  fold (mapped_fields mapped) in *. fold (place_loop place). cbn [snd] in Hft.
  assert ((pre ++ (f, ft) :: fs) !! length pre = Some (f, ft)) as Hlk by (by rewrite list_lookup_middle).
  assert (forall y l, (done_ ++ y :: l) !! length pre = Some y) as Hlv by (intros; by rewrite list_lookup_middle).
  assert (forall y y' l, <[length pre := y']> (done_ ++ y :: l) = (done_ ++ [y']) ++ l) as Hins.
  { intros y y' l. rewrite <- Hdone, insert_app_r_alt, Nat.sub_diag by lia. cbn. by rewrite <- app_assoc. }
  pose proof (fun done_ ws => IHfs (pre ++ [(f, ft)]) done_ ws) as Hrest. rewrite length_app, Nat.add_1_r, <- app_assoc in Hrest. cbn [app] in Hrest.
  assert (forall y, length (done_ ++ [y]) = S (length pre)) as Hlen by (intros; rewrite length_app; cbn; lia).
  destruct (field_role f ft) eqn:Hrole; cbn [app] in *.
  - specialize (Hrest (done_ ++ [zero ft]) ws (Hlen _) Hws). rewrite <- !app_assoc in Hrest. exact Hrest.
  - apply andb_true_iff in Hf as [Hnp Hdir]. apply negb_true_iff in Hnp. rewrite length_app, length_map in Hws.
    rewrite fmap_app. rewrite <- (take_drop (mcount ft) ws) at 1. unfold mcount.
    rewrite zip_with_app by (rewrite length_fmap, length_map, length_take; lia).
    rewrite set_all_app, zip_below, (set_all_below _ _ (f, ft) _ _ (zero ft)) by done. cbn [snd].
    assert (length (take (length (mapped ft)) ws) = mcount ft) as Hlt by (rewrite length_take; unfold mcount; lia).
    rewrite (Hft Hdir _ Hlt Hnp). cbn [mbind option_bind]. rewrite Hins, Hrest; [|done|].
    + by rewrite <- app_assoc.
    + rewrite length_drop. lia.
  - destruct ws as [|w ws]; [done|]. cbn [fmap list_fmap zip zip_with fst]. cbn [head tail mjoin option_join default].
    assert (set_all (TStruct (pre ++ (f, ft) :: fs)) [([length pre], w)] (VStruct (done_ ++ zero ft :: map (fun ft => zero ft.2) fs)) =
      Some (VStruct ((done_ ++ [default (zero ft) w]) ++ map (fun ft => zero ft.2) fs))) as H1.
    { destruct w as [w|]; cbn [set_all]; [|by rewrite <- app_assoc]. cbn [setField]. rewrite Hlk, Hlv. cbn. by rewrite Hins. }
    change (([length pre], w) :: ?l) with ([([length pre], w)] ++ l). rewrite set_all_app, H1. cbn [mbind option_bind].
    rewrite Hrest; [|done|by injection Hws]. rewrite <- app_assoc. by destruct w.
Qed.

(** The mapped values are those at the mapped paths. *)
Definition at_path (t : gotype) (v : goval) (x : mleaf) (u : goval) : Prop :=
  typed x.2.2 u = true /\ getFieldValue t v x.1 = Some (x.2.2, u).

Lemma leaf_values_at t : direct t = true -> forall v, is_pointer t = false -> typed t v = true ->
  Forall2 (at_path t v) (mapped t) (leaf_values t v).
Proof.
  induction t as [n|s w| |t IH|t IH|n t IH|fs IH|n] using gotype_ind'; intros Hd v Hp Ht; try done; try (by destruct v).
  destruct v as [| | | | | |vs|]; try done. cbn [mapped leaf_values].
  cbn [direct typed] in Hd, Ht.
  assert (forall pre prev fs' vs', (pre ++ fs') = fs -> prev ++ vs' = vs -> length pre = length prev ->
    Forall (fun ft => direct ft.2 = true -> forall v, is_pointer ft.2 = false -> typed ft.2 v = true -> Forall2 (at_path ft.2 v) (mapped ft.2) (leaf_values ft.2 v)) fs' ->
    forallb (fun ft => match field_role ft.1 ft.2 with Embed => negb (is_pointer ft.2) && direct ft.2 | _ => true end) fs' = true ->
    forallb2 (fun ft v => typed ft.2 v) fs' vs' = true ->
    Forall2 (at_path (TStruct fs) (VStruct vs)) (mapped_fields mapped fs' (length pre)) (leaves_loop leaf_values fs' vs')) as Hg;
    [|exact (Hg [] [] fs vs eq_refl eq_refl eq_refl IH Hd Ht)].
  clear IH Hd Ht. intros pre prev fs' vs' Hfs Hvs Hlen IH. revert pre prev vs' Hfs Hvs Hlen.
  induction IH as [|[f ft] fs' Hft _ IHfs]; intros pre prev vs' Hfs Hvs Hlen Hd Ht; [by constructor|].
  destruct vs' as [|v vs']; [done|]. cbn [forallb forallb2 fst snd] in Hd, Ht. apply andb_true_iff in Hd as [Hf Hd]. apply andb_true_iff in Ht as [Hv Ht].
  cbn [mapped_fields leaves_loop]. fold (mapped_fields mapped). fold (leaves_loop leaf_values). cbn [snd] in Hft.
  apply Forall2_app.
  - assert (fs !! length pre = Some (f, ft)) as Hlk by (rewrite <- Hfs; by rewrite list_lookup_middle).
    assert (vs !! length pre = Some v) as Hlv by (rewrite <- Hvs, Hlen; by rewrite list_lookup_middle).
    destruct (field_role f ft); [constructor| |].
    + apply andb_true_iff in Hf as [Hnp Hdir]. apply negb_true_iff in Hnp. specialize (Hft Hdir v Hnp Hv).
      apply Forall2_fmap_l. eapply Forall2_impl; [exact Hft|]. intros [p x] u [Htu Hg]. split; [done|]. cbn in *. rewrite Hlk, Hlv. exact Hg.
    + repeat constructor; cbn; [exact Hv|]. rewrite Hlk, Hlv. done.
  - specialize (IHfs (pre ++ [(f, ft)]) (prev ++ [v]) vs'). rewrite length_app, Nat.add_1_r in IHfs. apply IHfs; [by rewrite <- app_assoc| | |done|done].
    + by rewrite <- app_assoc.
    + rewrite length_app. cbn. lia.
Qed.

(** ** Placing related values *)

Definition or_zero (t : gotype) (o : option goval) : goval := default (zero t) o.

(** The fields of an entity are found from their places in the list. *)
Lemma place_typed t : forall ws, Forall2 (fun (x : mleaf) o => typed x.2.2 (or_zero x.2.2 o) = true) (mapped t) ws -> is_pointer t = false ->
  typed t (place t ws) = true.
Proof.
  induction t as [n|s w| |t IH|t IH|n t IH|fs IH|n] using gotype_ind'; intros ws Hw Hp; cbn [place]; try apply typed_zero.
  cbn [mapped typed] in *. clear Hp. revert ws Hw. generalize 0%nat. induction IH as [|[f ft] fs Hft _ IHfs]; intros i ws Hw; [done|].
  cbn [mapped_fields place_loop forallb2] in *. fold (mapped_fields mapped) in Hw. fold (place_loop place). cbn [snd] in Hft.
  destruct (field_role f ft) eqn:Hr.
  - cbn [forallb2 snd]. rewrite typed_zero. cbn [andb]. by apply (IHfs (S i)).
  - apply Forall2_app_inv_l in Hw as (w1 & w2 & H1 & H2 & ->). apply Forall2_fmap_l in H1. pose proof (Forall2_length _ _ _ H1) as Hl. unfold mcount.
    rewrite Hl, take_app_length, drop_app_length. cbn [forallb2 snd]. apply andb_true_iff. split; [|by apply (IHfs (S i))].
    destruct (is_pointer ft) eqn:Hp; [by destruct ft|by apply Hft].
  - cbn [app] in Hw. apply Forall2_cons_inv_l in Hw as (w & w2 & H1 & H2 & ->). cbn [head tail mjoin option_join forallb2 snd]. apply andb_true_iff.
    split; [|by apply (IHfs (S i))]. cbn in H1. by destruct w.
Qed.

Section Related.
Context `{CryptoPrims} (key : bytes).

(** A mapped value and what of it was sealed. *)
Definition leaf_rel (f : StructField) (ft : gotype) (v w : goval) : Prop :=
  if nested ft then encrypted key ft v w
  else match ft, v, w with
       | TString _, VString s, VString s' => if tagged f then sealed_text key s s' else s' = s
       | _, _, _ => w = v
       end.

Lemma encrypted_zero t : encrypted key t (zero t) (zero t).
Proof.
  induction t as [n|s w| |t IH|t IH|n t IH|fs IH|n] using gotype_ind'; cbn [zero encrypted]; try done.
  - induction n; cbn; by constructor.
  - induction IH as [|[f ft] fs Hft _ IHfs]; cbn [map all3]; [done|]. split; [|exact IHfs]. cbn [fst snd] in *.
    destruct (nested ft) eqn:Hn; [exact Hft|]. destruct ft; try done. cbn. by destruct (tagged f).
Qed.

Lemma leaf_rel_zero f ft : leaf_rel f ft (zero ft) (zero ft).
Proof.
  unfold leaf_rel. destruct (nested ft) eqn:Hn; [apply encrypted_zero|]. destruct ft; try done. cbn. by destruct (tagged f).
Qed.

Lemma Forall3_below {B C} (R : mleaf -> B -> C -> Prop) i l : forall vs ws,
  Forall3 R (map (at_index i) l) vs ws -> Forall3 (fun x => R (at_index i x)) l vs ws.
Proof. induction l as [|x l IH]; intros vs ws Hr; inversion Hr; subst; constructor; auto. Qed.

Lemma place_encrypted t : forall vs ws, Forall3 (fun (x : mleaf) v w => leaf_rel x.2.1 x.2.2 (or_zero x.2.2 v) (or_zero x.2.2 w)) (mapped t) vs ws ->
  is_pointer t = false -> encrypted key t (place t vs) (place t ws).
Proof.
  induction t as [n|s w| |t IH|t IH|n t IH|fs IH|n] using gotype_ind'; intros vs ws Hw Hp; cbn [place]; try apply encrypted_zero.
  cbn [mapped encrypted] in *. clear Hp. revert vs ws Hw. generalize 0%nat. induction IH as [|[f ft] fs Hft _ IHfs]; intros i vs ws Hw; [done|].
  cbn [mapped_fields place_loop all3] in *. fold (mapped_fields mapped) in Hw. fold (place_loop place). cbn [snd] in Hft.
  destruct (field_role f ft) eqn:Hr.
  - cbn [all3 fst snd]. split; [apply leaf_rel_zero|]. by apply (IHfs (S i)).
  - apply Forall3_app_inv_l in Hw as (v1 & v2 & w1 & w2 & -> & -> & H1 & H2).
    apply Forall3_below in H1. pose proof (Forall3_length_lm _ _ _ _ H1) as Hlm. pose proof (Forall3_length_lr _ _ _ _ H1) as Hlr. unfold mcount.
    rewrite Hlr, take_app_length, drop_app_length, <- Hlr, Hlm, take_app_length, drop_app_length. cbn [all3 fst snd]. split; [|by apply (IHfs (S i))].
    assert (nested ft = true) as -> by (unfold field_role in Hr; destruct (f_Exported f), (f_Anonymous f), ft; cbn in Hr; try done; by destruct (String.eqb _ _)).
    destruct (is_pointer ft) eqn:Hp; [by destruct ft|by apply Hft].
  - cbn [app] in Hw. apply Forall3_cons_inv_l in Hw as (v & v2 & w & w2 & -> & -> & H1 & H2).
    cbn [head tail mjoin option_join all3 fst snd]. split; [|by apply (IHfs (S i))]. cbn in H1. by destruct v, w.
Qed.
End Related.

(** ** Metadata *)

Definition infos (l : list mleaf) : list FieldInfo := map (fun x => field_info x.2.1 x.2.2 x.1) l.

(** The parts of a field's information reading and writing look at. *)
Definition same_leaf (fi : FieldInfo) (x : mleaf) : Prop :=
  IndexPath fi = x.1 /\ fi_Type fi = x.2.2 /\ IsEncrypted fi = String.eqb (tag_get x.2.1 "ztatic") "encrypt".

Lemma info_same x : same_leaf (field_info x.2.1 x.2.2 x.1) x.
Proof. unfold same_leaf, field_info. by destruct (foldl _ _ _) as [[? ?] ?]. Qed.

Definition by_column (l : list FieldInfo) (m : gmap string FieldInfo) : gmap string FieldInfo :=
  foldl (fun m fi => <[ColumnName fi := fi]> m) m l.

Lemma by_column_other l m c : c ∉ map ColumnName l -> by_column l m !! c = m !! c.
Proof.
  revert m. induction l as [|fi l IH]; intros m Hc; [done|]. cbn [map by_column foldl] in *. apply not_elem_of_cons in Hc as [Hne Hc].
  etransitivity; [exact (IH _ Hc)|]. by rewrite lookup_insert_ne.
Qed.

Lemma by_column_lookup l m fi : NoDup (map ColumnName l) -> fi ∈ l -> by_column l m !! ColumnName fi = Some fi.
Proof.
  revert m. induction l as [|f l IH]; intros m Hnd Hin; [by apply elem_of_nil in Hin|]. cbn [map by_column foldl] in *.
  apply NoDup_cons in Hnd as [Hnot Hnd]. apply elem_of_cons in Hin as [->|Hin]; [|exact (IH _ Hnd Hin)].
  etransitivity; [by apply (by_column_other l)|]. by rewrite lookup_insert_eq.
Qed.

Lemma foldl_add_leaf l m :
  let m' := foldl (add_leaf []) m l in
  md_Fields m' = md_Fields m ++ infos l /\ Columns m' = Columns m ++ map ColumnName (infos l) /\
  FieldByColumn m' = by_column (infos l) (FieldByColumn m) /\ HasEncryption m' = HasEncryption m || existsb IsEncrypted (infos l).
Proof.
  revert m. induction l as [|x l IH]; intros m; cbn [foldl infos map existsb].
  - rewrite !app_nil_r, orb_false_r. done.
  - destruct (IH (add_leaf [] m x)) as (-> & -> & -> & ->). cbn [add_leaf add_field md_Fields Columns FieldByColumn HasEncryption].
    rewrite <- !app_assoc, <- orb_assoc. done.
Qed.

Lemma primary_same fi x : same_leaf fi x -> same_leaf (as_primary fi) x.
Proof. by intros (? & ? & ?). Qed.

Lemma name_primary_same fs fs' fi ms : name_primary fs = Some (fs', fi) -> Forall2 same_leaf fs ms ->
  Forall2 same_leaf fs' ms /\ map ColumnName fs' = map ColumnName fs /\ existsb IsEncrypted fs' = existsb IsEncrypted fs /\
  (exists f0, f0 ∈ fs /\ fi = as_primary f0) /\ forall g, g ∈ fs' -> exists g0, g0 ∈ fs /\ (g = g0 \/ g = as_primary g0).
Proof.
  revert fs' ms. induction fs as [|f fs IH]; intros fs' ms Hn Hs; [done|]. cbn in Hn. apply Forall2_cons_inv_l in Hs as (x & ms' & Hx & Hs & ->).
  destruct (EqualFold (fi_Name f) "id").
  - injection Hn as <- <-. split_and!; [by constructor|done|done| |].
    + exists f. split; [by left|done].
    + intros g [->|Hg]%elem_of_cons; [exists f; split; [by left|by right]|exists g; split; [by right|by left]].
  - destruct (name_primary fs) as [[fs2 f2]|]; [|done]. injection Hn as <- <-.
    destruct (IH fs2 ms' eq_refl Hs) as (H1 & H2 & H3 & (f0 & H4 & H5) & H6).
    split_and!; [by constructor|by cbn; rewrite H2|by cbn; rewrite H3| |].
    + exists f0. split; [by right|done].
    + intros g [->|Hg]%elem_of_cons; [exists f; split; [by left|by left]|]. destruct (H6 g Hg) as (g0 & Hg0 & He). exists g0. split; [by right|done].
Qed.

(** What is known of the metadata of a structure whose columns differ. *)
Record describes (t : gotype) (meta : StructMetadata) : Prop := {
  fields_same : Forall2 same_leaf (md_Fields meta) (mapped t);
  columns_same : Columns meta = map ColumnName (md_Fields meta);
  column_found : forall fi, fi ∈ md_Fields meta -> exists fi', FieldByColumn meta !! ColumnName fi = Some fi' /\ IndexPath fi' = IndexPath fi /\ fi_Type fi' = fi_Type fi;
  encryption_seen : HasEncryption meta = existsb IsEncrypted (md_Fields meta)
}.

Lemma infos_same l : Forall2 same_leaf (infos l) l.
Proof. induction l as [|x l IH]; constructor; [apply info_same|exact IH]. Qed.

Lemma metadata_describes t : NoDup (Columns (buildMetadata t)) -> describes t (buildMetadata t).
Proof.
  unfold buildMetadata. rewrite inspect_mapped. destruct (foldl_add_leaf (mapped t) empty_meta) as (Hf & Hc & Hb & He). cbn [app orb empty_meta] in *.
  set (meta := foldl (add_leaf []) empty_meta (mapped t)) in *. cbn in Hf, Hc, Hb, He.
  assert (forall fi, NoDup (Columns meta) -> fi ∈ md_Fields meta -> FieldByColumn meta !! ColumnName fi = Some fi) as Hlk.
  { intros fi Hnd Hin. rewrite Hb. apply by_column_lookup; [by rewrite <- Hc|by rewrite <- Hf]. }
  pose proof (infos_same (mapped t)) as Hs. rewrite <- Hf in Hs, Hc, He.
  destruct (PrimaryKeyField meta) as [pk|].
  { intros Hnd. split; try done. intros fi Hin. exists fi. split; [by apply Hlk|done]. }
  destruct (FieldByColumn meta !! "id") as [fid|] eqn:Hid.
  - cbn [Columns]. intros Hnd. split; cbn [md_Fields Columns FieldByColumn HasEncryption]; try done. intros fi Hin. specialize (Hlk fi Hnd Hin).
    destruct (decide (ColumnName fi = "id")) as [Heq|Hne]; [|exists fi; split; [by rewrite lookup_insert_ne|done]].
    rewrite Heq in Hlk |- *. rewrite Hid in Hlk. injection Hlk as ->. exists (as_primary fi). split; [by rewrite lookup_insert_eq|done].
  - destruct (name_primary (md_Fields meta)) as [[fs' fi]|] eqn:Hn.
    2: { intros Hnd. split; try done. intros f Hin. exists f. split; [by apply Hlk|done]. }
    destruct (name_primary_same _ _ _ _ Hn Hs) as (H1 & H2 & H3 & (f0 & H4 & ->) & H6). cbn [Columns]. intros Hnd.
    split; cbn [md_Fields Columns FieldByColumn HasEncryption]; [done|by rewrite H2|intros g Hg|by rewrite H3].
    destruct (H6 g Hg) as (g0 & Hin & Hcase).
    assert (ColumnName g = ColumnName g0 /\ IndexPath g = IndexPath g0 /\ fi_Type g = fi_Type g0) as (Hcn & Hip & Hty) by (by destruct Hcase as [->| ->]).
    rewrite Hcn, Hip, Hty. change (ColumnName (as_primary f0)) with (ColumnName f0). pose proof (Hlk g0 Hnd Hin) as Hg0. pose proof (Hlk f0 Hnd H4) as Hf0.
    destruct (decide (ColumnName g0 = ColumnName f0)) as [Heq|Hne]; [|exists g0; split; [by rewrite lookup_insert_ne|done]].
    rewrite Heq in Hg0 |- *. rewrite Hf0 in Hg0. injection Hg0 as ->. exists (as_primary g0). split; [by rewrite lookup_insert_eq|done].
Qed.

(** ** Rows *)

(** Conversions that give back what was stored, of a value of its type. *)
Class ConversionLaws (C : Conversion) := {
  load_store : forall t v d, typed t v = true -> store_arg (ValArg t v) = Ok d -> load t d = Ok v
}.

(** Nothing in the type is tagged. *)
Fixpoint untagged (t : gotype) : bool :=
  match t with
  | TPtr t | TSlice t | TArray _ t => untagged t
  | TStruct fs => forallb (fun ft => negb (tagged ft.1) && untagged ft.2) fs
  | _ => true
  end.

(** Tags that mean the same to the mapper and to ProcessStruct. *)
Definition plain_leaf (x : mleaf) : bool :=
  if nested x.2.2 then untagged x.2.2
  else match x.2.2 with
       | TString n => if tagged x.2.1 then String.eqb (tag_get x.2.1 "ztatic") "encrypt" && String.eqb n "string" else true
       | _ => true
       end.

(** The columns and arguments of the fields that are not left out. *)
Fixpoint kept (fields : list FieldInfo) (os : list (option goval)) : list (string * arg) :=
  match fields, os with
  | fi :: fields', Some w :: os' => (ColumnName fi, ValArg (fi_Type fi) w) :: kept fields' os'
  | _ :: fields', None :: os' => kept fields' os'
  | _, _ => []
  end.

(** A key that is left out while it is zero is an integer. *)
Definition auto_is_int (fi : FieldInfo) : bool := if IsPrimaryKey fi && IsAutoIncrement fi then isIntegerKind (fi_Type fi) else true.

Section Rows.
Context `{CryptoLaws} `{CL : !ConversionLaws C} (key : bytes) (rand : nat -> result bytes).
Context (key_ok : aes_key_ok key = true) (rand_is_ok : rand_ok rand).
Context (seal_byte' : forall k n p, Forall is_byte p -> Forall is_byte (gcm_seal k n p)).

(** How a mapped value goes into a row: sealed where it is tagged, as it is
    elsewhere, or not at all where it is zero. *)
Definition stored_as (x : mleaf) (u : goval) (o : option goval) : Prop :=
  leaf_rel key x.2.1 x.2.2 u (or_zero x.2.2 o) /\ typed x.2.2 (or_zero x.2.2 o) = true /\
  (String.eqb (tag_get x.2.1 "ztatic") "encrypt" = false -> or_zero x.2.2 o = u).

(** Left out is a key that the database generates and that is still zero. *)
Definition omitted (fi : FieldInfo) (u : goval) (o : option goval) : Prop :=
  o = None <-> IsPrimaryKey fi = true /\ IsAutoIncrement fi = true /\ u = VInt 0.

Lemma encrypted_refl t : forall v, untagged t = true -> typed t v = true -> encrypted key t v v.
Proof.
  induction t as [n|s w| |t IH|t IH|n t IH|fs IH|n] using gotype_ind'; intros v Hu Ht; destruct v as [s'|z|z|[x|]|[l|]|l|l|a]; try done;
    cbn [encrypted untagged typed] in *.
  - by apply IH.
  - rewrite forallb_forall in Ht. apply Forall_Forall2_diag, Forall_forall.
    intros x Hx%list_elem_of_In. apply IH; auto.
  - apply andb_true_iff in Ht as [_ Ht]. rewrite forallb_forall in Ht. apply Forall_Forall2_diag, Forall_forall.
    intros x Hx%list_elem_of_In. apply IH; auto.
  - revert l Ht. induction IH as [|[f ft] fs Hft _ IHfs]; intros [|v l] Ht; try done. cbn [forallb forallb2 all3 fst snd] in *.
    apply andb_true_iff in Hu as [[Hf Hu1]%andb_true_iff Hu]. apply andb_true_iff in Ht as [Hv Ht]. split; [|by apply IHfs].
    destruct (nested ft) eqn:Hn; [by apply Hft|]. destruct ft, v; try done. apply negb_true_iff in Hf. by rewrite Hf.
Qed.

Lemma stored_value_ok x fi u i : same_leaf fi x -> plain_leaf x = true -> typed x.2.2 u = true ->
  exists w j, stored_value (Some key) rand fi x.2.2 u i = (ValArg x.2.2 w, j) /\ stored_as x u (Some w).
Proof.
  destruct x as [p [f ft]]. intros (_ & _ & Henc) Hp Ht. unfold stored_as, leaf_rel, plain_leaf in *. cbn [fst snd or_zero default] in *.
  assert (forall w : goval, w = u -> (if nested ft then encrypted key ft u w else
    match ft, u, w with TString _, VString s, VString s' => if tagged f then sealed_text key s s' else s' = s | _, _, _ => w = u end) \/ (exists n, ft = TString n /\ tagged f = true)) as Hsame.
  { intros w ->. destruct (nested ft) eqn:Hn; [left; by apply encrypted_refl|]. destruct ft as [n|sg wd| |t|t|n t|fs|n]; try (left; by destruct u).
    destruct (tagged f) eqn:Htag; [right; by exists n|left]. by destruct u. }
  assert ((exists n s, ft = TString n /\ u = VString s /\ tagged f = true) \/
    (stored_value (Some key) rand fi ft u i = (ValArg ft u, i) /\ (nested ft = true \/ (forall n, ft = TString n -> tagged f = false)))) as [(n & s & -> & -> & Htag)|[Hst Hcase]].
  { destruct (nested ft) eqn:Hn.
    - right. split; [|by left]. unfold stored_value. by destruct (IsEncrypted fi), ft.
    - destruct ft as [n|sg wd| |t|t|n t|fs|n]; try done; try (right; split; [unfold stored_value; by destruct (IsEncrypted fi)|by right]).
      destruct (tagged f) eqn:Htag; [left; destruct u; try done; by eexists _, _|right]. split; [|by right].
      unfold stored_value. rewrite Henc. destruct (String.eqb_spec (tag_get f "ztatic") "encrypt") as [He|_]; [|done].
      unfold tagged, ztaticTag in Htag. rewrite He in Htag. done. }
  - cbn [nested] in *. rewrite Htag in Hp |- *. apply andb_true_iff in Hp as [Hexact Hname]. apply String.eqb_eq in Hname as ->.
    unfold stored_value. rewrite Henc, Hexact. destruct (process_string_seals key rand seal_byte' (mkFlags true false false) s i rand_is_ok eq_refl) as (s' & j & Hps & Hs & _).
    unfold process_string, process_text in Hps. cbn [CanSet fl_Addr fl_StickyRO fl_EmbedRO andb orb negb] in Hps.
    destruct (String.eqb s "") eqn:Hemp.
    + injection Hps as <- <-. eexists _, _. split; [done|]. split_and!; [done|done|]. done.
    + destruct (Encrypt key (rand i) (bytes_of_string s)) as [enc|er]; [|done]. injection Hps as -> <-. eexists _, _. split; [done|].
      split_and!; [done|done|]. done.
  - exists u, i. split; [done|]. split_and!; [|done|done]. destruct (Hsame u eq_refl) as [Hok|(n & -> & Htag)]; [exact Hok|].
    destruct Hcase as [Hc|Hc]; [done|]. rewrite (Hc n eq_refl) in Htag. done.
Qed.
Lemma extract_stores t e fields : forall ms us i, Forall2 same_leaf fields ms -> Forall2 (at_path t e) ms us ->
  Forall (fun x => plain_leaf x = true) ms -> forallb auto_is_int fields = true ->
  exists os j, extract_fields (Some key) rand true t e fields i = Ok (kept fields os, j) /\ Forall3 stored_as ms us os /\
    Forall3 omitted fields us os.
Proof.
  induction fields as [|fi fields IH]; intros ms us i Hs Hu Hp Ha.
  { apply Forall2_nil_inv_l in Hs as ->. apply Forall2_nil_inv_l in Hu as ->. exists [], i. split; [done|split; constructor]. }
  apply Forall2_cons_inv_l in Hs as (x & ms' & Hx & Hs & ->). apply Forall2_cons_inv_l in Hu as (u & us' & [Ht Hg] & Hu & ->).
  apply Forall_cons in Hp as [Hpx Hp]. cbn [forallb] in Ha. apply andb_true_iff in Ha as [Hai Ha]. pose proof Hx as (Hpath & Hty & _).
  cbn [extract_fields]. rewrite Hpath, Hg. unfold left_out. rewrite Hpath, Hg. cbn [or_panic rbind fst snd].
  assert ((if IsPrimaryKey fi && IsAutoIncrement fi then Ok (isZero u) else Ok false) = Ok (IsPrimaryKey fi && IsAutoIncrement fi && isZero u)) as ->
    by by destruct (IsPrimaryKey fi && IsAutoIncrement fi). cbn [rbind].
  destruct (IsPrimaryKey fi && IsAutoIncrement fi && isZero u) eqn:Hout.
  - destruct (IH ms' us' i Hs Hu Hp Ha) as (os & j & -> & Hos & Hom). exists (None :: os), j. split; [done|].
    apply andb_true_iff in Hout as [Hauto Hz]. unfold auto_is_int in Hai. rewrite Hauto, Hty in Hai.
    destruct x as [p [f ft]]. cbn [fst snd] in *. destruct ft; try done. destruct u; try done. cbn in Hz. apply Z.eqb_eq in Hz as ->.
    apply andb_true_iff in Hauto as [Hpk Hau]. split; (constructor; [|done]); [|by split].
    split_and!; [apply leaf_rel_zero|apply typed_zero|done].
  - destruct (stored_value_ok x fi u i Hx Hpx Ht) as (w & k & -> & Hw). destruct (IH ms' us' k Hs Hu Hp Ha) as (os & j & -> & Hos & Hom).
    cbn [rbind fst snd]. exists (Some w :: os), j. cbn [kept]. rewrite Hty. split; [done|]. split; [by constructor|].
    constructor; [|done]. split; [done|]. intros (Hpk & Hau & ->). rewrite Hpk, Hau in Hout. done.
Qed.

Lemma scan_kept t meta fields : forall ms us os ds item, Forall2 same_leaf fields ms -> Forall3 stored_as ms us os ->
  (forall fi, fi ∈ fields -> exists fi', FieldByColumn meta !! ColumnName fi = Some fi' /\ IndexPath fi' = IndexPath fi /\ fi_Type fi' = fi_Type fi) ->
  Forall2 (fun ca d => store_arg ca.2 = Ok d) (kept fields os) ds ->
  scan_into t (zip (bind_columns meta (kept fields os).*1) ds) item = or_panic (set_all t (zip ms.*1 os) item).
Proof.
  induction fields as [|fi fields IH]; intros ms us os ds item Hs Ho Hc Hd.
  { apply Forall2_nil_inv_l in Hs as ->. by inversion Ho. }
  apply Forall2_cons_inv_l in Hs as (x & ms' & Hx & Hs & ->). apply Forall3_cons_inv_l in Ho as (u & us' & o & os' & -> & -> & Hxo & Ho).
  assert (forall fi, fi ∈ fields -> exists fi', FieldByColumn meta !! ColumnName fi = Some fi' /\ IndexPath fi' = IndexPath fi /\ fi_Type fi' = fi_Type fi) as Hc'
    by (intros g Hg; apply Hc; by right).
  destruct x as [p [f ft]]. destruct Hx as (Hpath & Hty & _). cbn [fst snd] in *. destruct o as [w|]; cbn [kept] in *.
  - apply Forall2_cons_inv_l in Hd as (d & ds' & Hd1 & Hd & ->). destruct (Hc fi) as (fi' & Hlk & Hp' & Ht'); [by left|].
    cbn [fmap list_fmap bind_columns map zip zip_with fst scan_into set_all]. rewrite Hlk. rewrite Ht', Hp', Hpath.
    destruct Hxo as (_ & Htw & _). change (typed ft w = true) in Htw. cbn [snd] in Hd1. rewrite Hty in Hd1 |- *. rewrite (load_store _ _ _ Htw Hd1). cbn [rbind].
    destruct (setField t item p w) as [item'|]; [|done]. cbn [or_panic rbind mbind option_bind]. by apply (IH ms' us').
  - cbn [fmap list_fmap zip zip_with fst set_all]. by apply (IH ms' us').
Qed.

(** Where nothing is sealed, what is stored is what was there. *)
Lemma place_unsealed t : forall us os, Forall3 stored_as (mapped t) us os ->
  Forall (fun x => String.eqb (tag_get x.2.1 "ztatic") "encrypt" = false) (mapped t) -> is_pointer t = false -> place t os = place t (map Some us).
Proof.
  induction t as [n|s w| |t IH|t IH|n t IH|fs IH|n] using gotype_ind'; intros us os Ho He Hp; try done. cbn [place mapped] in *. f_equal. clear Hp.
  revert us os Ho He. generalize 0%nat. induction IH as [|[f ft] fs Hft _ IHfs]; intros i us os Ho He; [done|].
  cbn [mapped_fields place_loop] in *. fold (mapped_fields mapped) in Ho, He. fold (place_loop place). cbn [snd] in Hft.
  apply Forall_app in He as [He1 He2]. destruct (field_role f ft).
  - f_equal. by apply (IHfs (S i)).
  - apply Forall3_app_inv_l in Ho as (u1 & u2 & o1 & o2 & -> & -> & H1 & H2). apply Forall3_below in H1.
    pose proof (Forall3_length_lm _ _ _ _ H1) as Hlm. pose proof (Forall3_length_lr _ _ _ _ H1) as Hlr. unfold mcount. rewrite map_app.
    rewrite Hlr, take_app_length, drop_app_length, <- Hlr, Hlm, <- (length_map Some u1), take_app_length, drop_app_length.
    f_equal; [|by apply (IHfs (S i))]. destruct (is_pointer ft) eqn:Hp; [by destruct ft|]. apply Hft; [exact H1| |done]. by apply Forall_fmap in He1.
  - cbn [app] in Ho. apply Forall3_cons_inv_l in Ho as (u & us' & o & os' & -> & -> & (_ & _ & H1) & H2). cbn [map head tail mjoin option_join default].
    apply Forall_cons in He1 as [He1 _]. f_equal; [|by apply (IHfs (S i))]. rewrite <- (H1 He1). by destruct o.
Qed.
Lemma stored_item fs us os : Forall3 stored_as (mapped (TStruct fs)) us os -> Forall2 (fun x u => typed x.2.2 u = true) (mapped (TStruct fs)) us ->
  typed (TStruct fs) (place (TStruct fs) (map Some us)) = true /\ encrypted key (TStruct fs) (place (TStruct fs) (map Some us)) (place (TStruct fs) os).
Proof.
  intros Ho Hu. split.
  - apply place_typed; [|done]. apply Forall2_fmap_r. eapply Forall2_impl; [exact Hu|]. done.
  - apply place_encrypted; [|done]. revert us os Ho Hu. induction (mapped (TStruct fs)) as [|x ms IH]; intros us os Ho Hu; inversion Ho as [|? ? ? ? ? ? (Hr & _ & _)]; subst; cbn [map].
    + constructor.
    + apply Forall2_cons in Hu as [_ Hu]. constructor; [exact Hr|by apply IH].
Qed.

(** C37: What is stored of an entity is read back.  With a default cipher, from
    an entity of a structure type whose columns differ, that embeds no
    structure by pointer, whose tagged fields are of the type string itself,
    exactly tagged and settable, and whose generated key is an integer,
    extracting the values for an insertion always succeeds, stores every
    tagged text sealed and everything else as it is, leaves out a field
    exactly if it is the generated key and still zero, and a row of these
    values is scanned into the entity, with its secrets decrypted, embedded
    structures included; only its fields without a column are zero. *)
Theorem stored_entity_is_read_back fs e i :
  let t := TStruct fs in let meta := GetMetadata t in
  NoDup (Columns meta) -> direct t = true -> Forall (fun x => plain_leaf x = true) (mapped t) -> forallb auto_is_int (md_Fields meta) = true ->
  settable t (mkFlags true false false) = true -> typed t e = true ->
  exists os j, ExtractValues (Some key) rand true t e meta i = Ok (kept (md_Fields meta) os, j) /\ Forall3 stored_as (mapped t) (leaf_values t e) os /\
    Forall3 omitted (md_Fields meta) (leaf_values t e) os /\
    forall ds, Forall2 (fun ca d => store_arg ca.2 = Ok d) (kept (md_Fields meta) os) ds ->
      ScanAll (Some key) rand meta t (kept (md_Fields meta) os).*1 [ds] = Ok [held t e].
Proof.
  intros t meta Hnd Hd Hp Ha Hset Ht. assert (describes t meta) as [Hs _ Hc Henc] by exact (metadata_describes t Hnd). pose proof (leaf_values_at t Hd e eq_refl Ht) as Hu.
  destruct (extract_stores t e _ _ _ i Hs Hu Hp Ha) as (os & j & Hex & Hos & Hom). exists os, j. split; [exact Hex|]. split; [exact Hos|]. split; [exact Hom|].
  intros ds Hds. cbn [ScanAll]. rewrite (scan_kept t meta _ _ _ _ ds (zero t) Hs Hos Hc Hds).
  assert (length os = mcount t) as Hl by (symmetry; exact (Forall3_length_lr _ _ _ _ Hos)).
  rewrite (set_all_place t Hd os Hl eq_refl). cbn [or_panic rbind]. do 2 f_equal. unfold decrypted. destruct (HasEncryption meta) eqn:Hhas.
  - assert (Forall2 (fun x u => typed x.2.2 u = true) (mapped t) (leaf_values t e)) as Htyp by (eapply Forall2_impl; [exact Hu|]; by intros ? ? []).
    destruct (stored_item fs _ _ Hos Htyp) as [Hheld Hsealed].
    assert (ProcessStruct key rand false (TPtr t) (VPtr (Some (place t os))) 0 = (VPtr (Some (held t e)), 0%nat, None)) as ->; [|done].
    pose proof (processValue_opens key rand key_ok seal_byte' (TStruct fs) _ _ _ 0%nat Hset Hheld Hsealed) as Hopen.
    unfold ProcessStruct. fold t in Hopen. by rewrite Hopen.
  - apply (place_unsealed t); [exact Hos| |done]. symmetry in Henc.
    clear -Hs Henc. induction Hs as [|fi x fields ms (_ & _ & Hx) _ IH]; [constructor|]. cbn in Henc. apply orb_false_iff in Henc as [H1 H2].
    constructor; [by rewrite <- Hx|by apply IH].
Qed.
End Rows.

(** ** A database for examples *)
Module TableExamples.
Import ToyCrypto FieldExamples.

Fixpoint store_val (v : goval) : result dbval :=
  match v with
  | VString s => Ok (DText s)
  | VInt n => Ok (DInt n)
  | VTime z => Ok (DTime z)
  | VOther a => Ok (DValue a)
  | VPtr None => Ok DNull
  | VPtr (Some (VPtr _)) => Err (ErrMsg "unsupported type")
  | VPtr (Some x) => store_val x
  | _ => Err (ErrMsg "unsupported type")
  end.

Definition store_any (a : any) : dbval :=
  match a with ANil => DNull | AInt n | AInt64 n => DInt n | AStr s => DText s | _ => DValue a end.

Fixpoint load_val (t : gotype) (d : dbval) : result goval :=
  match t, d with
  | TString _, DText s => Ok (VString s)
  | TInt _ _, DInt n => Ok (VInt n)
  | TTime, DTime z => Ok (VTime z)
  | TOther _, DValue a => Ok (VOther a)
  | TPtr _, DNull => Ok (VPtr None)
  | TPtr t', _ => let? x := load_val t' d in Ok (VPtr (Some x))
  | _, _ => Err (ErrMsg "unsupported Scan")
  end.

#[export] Instance toy_conversion : Conversion := {|
  store_arg a := match a with AnyArg a => Ok (store_any a) | ValArg _ v => store_val v end;
  load := load_val
|}.

#[export] Instance toy_conversion_laws : ConversionLaws toy_conversion.
Proof.
  split. cbn. intros t. induction t as [n|s w| |t IH|t IH|n t IH|fs IH|n] using gotype_ind'; intros v d Ht Hs;
    destruct v as [s'|z|z|[x|]|[l|]|l|l|a]; try done; try (by injection Hs as <-).
  assert (store_val x = Ok d /\ d <> DNull) as [Hx Hd].
  { cbn in Hs. destruct x as [s'|z|z|[x|]|o|l|l|a]; try done; split; try done; by injection Hs as <-. }
  cbn [load_val]. rewrite (IH x d Ht Hx). by destruct d.
Qed.

(** One table, with a key the database generates, a whole number. *)
Abbreviation table := (list (gmap string dbval)).

Definition has_key (k : dbval) (r : gmap string dbval) : bool :=
  match r !! "id", k with
  | Some (DInt n), DInt m => n =? m
  | Some (DInt n), DText s => bool_decide (ParseInt s = Some n)
  | _, _ => false
  end.

Definition key_number (r : gmap string dbval) : Z := match r !! "id" with Some (DInt n) => n | _ => 0 end.

Definition toy_row (cols : list string) (args : list arg) : result (gmap string dbval) :=
  foldr (fun ca acc => let? d := store_arg ca.2 in let? r := acc in Ok (<[ca.1 := d]> r)) (Ok ∅) (zip cols args).

Definition toy_insert (cols : list string) (args : list arg) (st : table) : table * result exec_result :=
  match toy_row cols args with
  | Err er => (st, Err er)
  | Ok r =>
      let r := match r !! "id" with Some _ => r | None => <["id" := DInt (1 + foldr (fun r m => Z.max (key_number r) m) 0 st)]> r end in
      if existsb (has_key (DInt (key_number r))) st then (st, Err (ErrMsg "UNIQUE constraint failed"))
      else (st ++ [r], Ok (mkResult (Some (key_number r)) (Ok 1)))
  end.

Definition toy_exec (s : statement) (st : table) : table * result exec_result :=
  match s with
  | SInsert _ cols [args] => toy_insert cols args st
  | SUpdate _ sets (WKey _ a) =>
      match toy_row sets.*1 sets.*2, store_arg a with
      | Ok changes, Ok k =>
          (map (fun r => if has_key k r then changes ∪ r else r) st, Ok (mkResult None (Ok (zlen (List.filter (has_key k) st)))))
      | _, _ => (st, Err (ErrMsg "update"))
      end
  | SDelete _ (WKey _ a) =>
      match store_arg a with
      | Ok k => (List.filter (fun r => negb (has_key k r)) st, Ok (mkResult None (Ok (zlen (List.filter (has_key k) st)))))
      | _ => (st, Err (ErrMsg "delete"))
      end
  | _ => (st, Err (ErrMsg "not in the examples"))
  end.

Definition toy_select (b : builder) (st : table) : result (list string * list (list dbval)) :=
  let cols := match b with BSelect cols :: _ => cols | _ => [] end in
  let rows := foldl (fun rows c => match c with BWhere (CEq _ a) => List.filter (has_key (store_any a)) rows | BLimit n => ztake n rows | _ => rows end) st b in
  Ok (cols, map (fun r => map (fun c => default DNull (r !! c)) cols) rows).

#[export] Instance toy_database : Database := {|
  db := table;
  db_exec := toy_exec;
  db_query := toy_select;
  db_count b st := Ok (zlen st)
|}.

(** An entity with a generated key, secrets, an ignored field and an embedded
    structure, one with only the conventional name of a key. *)
Definition audit_fields : gotype := TStruct [(field "CreatedAt" [("db", "created_at")], TTime); (field "UpdatedAt" [("db", "updated_at")], TTime)].
Definition article_fields : list (StructField * gotype) :=
  [(field "ID" [("db", "id,primarykey")], TInt true W64); (field "Title" [("db", "title")], TString "string");
   (field "SecretKey" [("db", "secret_key"); ("ztatic", "encrypt")], TString "string");
   (field "OtherSecret" [("ztatic", "encrypt")], TString "string");
   (field "Ignored" [("db", "-")], TString "string"); (mkField "AuditFields" true true [], audit_fields)].
Definition articles : BaseRepository := NewBaseRepository (TStruct article_fields) "articles".
Definition article (id : Z) (title secret other : string) (created : Z) : goval :=
  VStruct [VInt id; VString title; VString secret; VString other; VString ""; VStruct [VTime created; VTime 0]].

Definition insert (e : goval) (st : table) := Insert (Some key) nonces 99 articles (Some e) 0 st.

Definition plain_fields : list (StructField * gotype) := [(field "ID" [("db", "id")], TInt true W64); (field "Name" [], TString "string")].
Definition plains : BaseRepository := NewBaseRepository (TStruct plain_fields) "plains".
End TableExamples.

Import ToyCrypto TableExamples FieldExamples.

Example stored_entity_is_read_back_witness :
  let t := TStruct article_fields in let meta := GetMetadata t in let e := article 0 "Go" "s3cret" "" 7 in
  Columns meta = ["id"; "title"; "secret_key"; "other_secret"; "created_at"; "updated_at"] /\
  exists os j, ExtractValues (Some key) nonces true t e meta 0 = Ok (kept (md_Fields meta) os, j) /\ Forall3 (stored_as key) (mapped t) (leaf_values t e) os /\
    Forall3 omitted (md_Fields meta) (leaf_values t e) os /\
    forall ds, Forall2 (fun ca d => store_arg ca.2 = Ok d) (kept (md_Fields meta) os) ds ->
      ScanAll (Some key) nonces meta t (kept (md_Fields meta) os).*1 [ds] = Ok [held t e].
Proof.
  split; [vm_compute; reflexivity|].
  refine (stored_entity_is_read_back key nonces eq_refl nonces_ok toy_seal_byte article_fields (article 0 "Go" "s3cret" "" 7) 0 _ eq_refl _ eq_refl eq_refl eq_refl).
  - apply (bool_decide_unpack _). vm_compute. exact I.
  - apply (bool_decide_unpack _). vm_compute. exact I.
Defined.

(** Inserting generates the key and the timestamp; the row holds no secret
    in the clear; reading decrypts it. *)
Example insert_then_get :
  let '(e, st, r) := insert (article 0 "Go" "s3cret" "x" 0) [] in
  r = Ok tt /\ e = Some (article 1 "Go" "s3cret" "x" 99) /\ GetByID (Some key) nonces articles (AInt64 1) st = Ok (article 1 "Go" "s3cret" "x" 99) /\
  map (fun r : gmap string dbval => match r !! "secret_key" with Some (DText s) => String.eqb s "s3cret" | _ => true end) st = [false] /\
  GetByID (Some key) nonces articles (AInt64 2) st = Err ErrNotFound /\
  (DeleteByID articles (AInt64 1) st).2 = Ok tt /\ (DeleteByID articles (AInt64 2) st).2 = Err ErrNotFound.
Proof. vm_compute. done. Qed.

(** A key that is found by the name of its column alone is not left out: the first entity
    is stored under 0, the second collides with it. *)
Example conventional_key_collides :
  let e := VStruct [VInt 0; VString "a"] in
  let '(e1, st1, r1) := Insert None nonces 99 plains (Some e) 0 [] in
  let '(_, st2, r2) := Insert None nonces 99 plains (Some e) 0 st1 in
  IsAutoIncrement <$> PrimaryKeyField (Metadata plains) = Some true /\ r1 = Ok tt /\ e1 = Some e /\ map key_number st1 = [0] /\
  st2 = st1 /\ r2 = Err (ErrMsg "UNIQUE constraint failed").
Proof. vm_compute. done. Qed.

(** Columns that are set one by one are stored in the clear, and when the
    entity is read the secrets behind them stay sealed. *)
Example update_columns_does_not_encrypt :
  let '(_, st, _) := insert (article 0 "Go" "s3cret" "x" 0) [] in
  let '(st', r) := UpdateColumns articles (AInt64 1) [("secret_key", AStr "n3w")] st in
  r = Ok tt /\ map (fun r => r !! "secret_key") st' = [Some (DText "n3w")] /\
  match GetByID (Some key) nonces articles (AInt64 1) st' with
  | Ok (VStruct [_; _; VString s; VString o; _; _]) => s = "n3w" /\ o <> "x"
  | _ => False
  end.
Proof. vm_compute. done. Qed.

(** A request to change the first record changes the second if its body says
    so, since the text of the path cannot be converted to an integer key. *)
Example update_follows_the_body :
  let '(_, st1, _) := insert (article 0 "one" "" "" 1) [] in
  let '(_, st, _) := insert (article 0 "two" "" "" 1) st1 in
  let '(st', r) := Update (Some key) nonces articles "1" (Some (article 2 "changed" "" "" 1)) 0 st in
  r = inr (article 2 "changed" "" "" 1) /\ map (fun r => r !! "title") st' = [Some (DText "one"); Some (DText "changed")].
Proof. vm_compute. done. Qed.

(** The field of a nil embedded pointer is extracted as the zero of the whole
    structure, which no database takes. *)
Example nil_embedded_pointer_is_extracted_whole :
  let t := TStruct [(mkField "Audit" true true [], TPtr audit_fields)] in
  ExtractValues None nonces true t (VStruct [VPtr None]) (GetMetadata t) 0 =
    Ok ([("created_at", ValArg audit_fields (zero audit_fields)); ("updated_at", ValArg audit_fields (zero audit_fields))], 0%nat).
Proof. reflexivity. Qed.

(** A tagged field of a type of its own is stored in the clear. *)
Example named_strings_are_stored_in_clear :
  let t := TStruct [(field "SSN" [("ztatic", "encrypt")], TString "SSN")] in
  ExtractValues (Some key) nonces true t (VStruct [VString "123"]) (GetMetadata t) 0 = Ok ([("s_s_n", ValArg (TString "SSN") (VString "123"))], 0%nat).
Proof. reflexivity. Qed.

(** Without a cipher suite, or without randomness, secrets are stored in the
    clear and no error is reported. *)
Example secrets_without_key_are_stored_in_clear :
  let fs := [(field "Pin" [("ztatic", "encrypt")], TString "string")] in let t := TStruct fs in
  let stored cs rand := ExtractValues cs rand true t (VStruct [VString "0000"]) (GetMetadata t) 0 in
  (let? p := stored None nonces in Ok p.1) = Ok [("pin", ValArg (TString "string") (VString "0000"))] /\
  (let? p := stored (Some key) (fun _ => Err (ErrMsg "entropy")) in Ok p.1) = Ok [("pin", ValArg (TString "string") (VString "0000"))].
Proof. vm_compute. done. Qed.

(** Initials in the name of a field are torn apart in its column. *)
Example initials_are_torn : toSnakeCase "UserID" = "user_i_d" /\ toSnakeCase "CreatedAt" = "created_at".
Proof. done. Qed.
