(* ===== verification/Uploads.v ===== *)
(** * Generic uploads (upload/)

    sanitizer.go: names and storage keys.  storage/: the storage on disk
    (local.go), the one in memory (memory.go) and serving (serve.go).
    validator.go: what is accepted.  scanner/: the heuristic scanner, the
    client of a daemon, and chains of scanners.  manager.go and config.go
    compose them.  The detection of types, the decoders of images and the
    reader of archives are arguments; a file that is read is its contents and
    the place from which reading fails. *)

From S2P Require Import Prelude GoStrings CryptoPrims FileInfo GoURL NetGuard Pattern.

#[local] Open Scope go_scope.
#[local] Open Scope string_scope.
#[local] Open Scope list_scope.
#[local] Open Scope Z_scope.

(** ** Names *)

(** [[a-zA-Z0-9._-]] *)
Definition name_char (a : Ascii.ascii) : bool :=
  ascii_in "a" "z" a || ascii_in "A" "Z" a || is_digit a || char_in "._-" a.

(** The encodings of the spaces beyond ASCII that two bytes after a lead
    byte tell apart. *)
Definition wide_space (a b c : Z) : bool :=
  (a =? 225) && (b =? 154) && (c =? 128)
  || (a =? 226) && (b =? 128) && ((128 <=? c) && (c <=? 138) || (c =? 168) || (c =? 169) || (c =? 175))
  || (a =? 226) && (b =? 129) && (c =? 159)
  || (a =? 227) && (b =? 128) && (c =? 128).

(** The mapping of runes: spaces become underscores and controls go.  A lead
    byte of UTF-8 is no other byte, so the bytes of a rune that changes are
    found from the left.  A byte that belongs to no rune is kept, where Go
    writes the three bytes of U+FFFD: no later step tells them apart. *)
Fixpoint normalize_spaces (s : string) : string :=
  match s with
  | EmptyString => EmptyString
  | String a s' =>
      let x := byte_of_ascii a in
      if is_space a then String "_" (normalize_spaces s')
      else if (x <? 32) || (x =? 127) then normalize_spaces s'
      else
        match s' with
        | String b s2 =>
            let y := byte_of_ascii b in
            if (x =? 194) && ((y =? 133) || (y =? 160)) then String "_" (normalize_spaces s2)
            else if (x =? 194) && ((128 <=? y) && (y <=? 159)) then normalize_spaces s2
            else match s2 with
                 | String c s3 =>
                     if wide_space x y (byte_of_ascii c) then String "_" (normalize_spaces s3)
                     else String a (normalize_spaces s')
                 | EmptyString => String a (normalize_spaces s')
                 end
        | EmptyString => String a EmptyString
        end
  end.

(** Each run of characters that satisfy [p] becomes [by_]; [inside] tells
    that the run has begun. *)
Fixpoint replace_runs (p : Ascii.ascii -> bool) (by_ : string) (inside : bool) (s : string) : string :=
  match s with
  | EmptyString => EmptyString
  | String a s' =>
      if p a then (if inside then "" else by_) +:+ replace_runs p by_ true s'
      else String a (replace_runs p by_ false s')
  end.

Definition invalidFilenameChars (by_ s : string) : string := replace_runs (fun a => negb (name_char a)) by_ false s.
Definition multipleUnderscores (s : string) : string := replace_runs (Ascii.eqb "_") "_" false s.

Definition device_names : pat :=
  PAny [lit_ci "con"; lit_ci "prn"; lit_ci "aux"; lit_ci "nul";
        PSeq (lit_ci "com") (PChr (ascii_in "1" "9")); PSeq (lit_ci "lpt") (PChr (ascii_in "1" "9"))].

(** Anchored at both ends. *)
Definition windowsReservedNames (s : string) : bool :=
  pm (PSeq device_names (POpt (PSeq (PLit1 ".") (PStar dot)))) None s (fun _ rest => String.eqb rest "").

(** The directories, the leading separators and dots, and the spaces. *)
Definition bare_name (filename : string) : string :=
  normalize_spaces (trim_left_of "/\." (Base (replace_char "\" "/" (replace_char (ascii_of_byte 0) "" filename)))).

Definition clean_base (base : string) : string := Trim (multipleUnderscores (invalidFilenameChars "_" base)) "._-".
Definition clean_ext (ext : string) : string :=
  let e := Trim (ToLower (invalidFilenameChars "" ext)) ". " in
  if String.eqb e "" then "" else "." +:+ e.
Definition safe_base (b : string) : string :=
  let b := if String.eqb b "" then "upload" else b in
  let b := if windowsReservedNames b then "safe_" +:+ b else b in
  if (100 <? String.length b)%nat then String.substring 0 100 b else b.

Definition SanitizeFilename (filename : string) : string :=
  if String.eqb filename "" then "unnamed_file"
  else
    let name := bare_name filename in
    let ext := Ext name in
    let r := safe_base (clean_base (TrimSuffix name ext)) +:+ clean_ext ext in
    if String.eqb r "" || String.eqb r "." then "upload" else r.

Definition file_extension (filename : string) : string := ToLower (Ext (SanitizeFilename filename)).

(** ** Storage keys *)

Inductive NamingStrategy := StrategyUUID | StrategyULID | StrategySHA256 | StrategyOriginalSanitized.

#[export] Instance NamingStrategy_eq_dec : EqDecision NamingStrategy.
Proof. solve_decision. Defined.

(** [fmt.Sprintf("%013x", n)] of a non-negative integer below 16^13. *)
Fixpoint hex_number (width : nat) (n : Z) : string :=
  match width with O => "" | S w => hex_number w (n / 16) +:+ String (hex_digit (n mod 16)) "" end.

Section Keys.
Context {CP : CryptoPrims}.
(** What [rand.Read] fills a buffer of so many bytes with, and the clock in
    milliseconds. *)
Variables (rand : Z -> bytes) (now_ms : Z).

Definition randomHex (n : Z) : string := EncodeToString (rand n).

Definition uuid_bytes : bytes :=
  let u := rand 16 in
  <[8%nat := Z.lor (Z.land (nth 8 u 0) 63) 128]> (<[6%nat := Z.lor (Z.land (nth 6 u 0) 15) 64]> u).
Definition randomUUID : string :=
  let u := uuid_bytes in
  let part i n := EncodeToString (take n (drop i u)) in
  part 0%nat 4%nat +:+ "-" +:+ part 4%nat 2%nat +:+ "-" +:+ part 6%nat 2%nat +:+ "-" +:+ part 8%nat 2%nat
  +:+ "-" +:+ part 10%nat 6%nat.

Definition first_chars (n : nat) (s : string) : string :=
  if (n <? String.length s)%nat then String.substring 0 n s else s.

Definition GenerateStorageKey (strategy : NamingStrategy) (originalFilename : string) (content : bytes)
    (customFn : option (string -> bytes -> string)) : string :=
  match customFn with
  | Some f => f originalFilename content
  | None =>
      let ext := file_extension originalFilename in
      match strategy with
      | StrategySHA256 =>
          if 0 <? zlen content then EncodeToString (sha256 content) +:+ ext else randomHex 32 +:+ ext
      | StrategyULID => hex_number 13 now_ms +:+ "_" +:+ randomHex 8 +:+ ext
      | StrategyOriginalSanitized =>
          first_chars 40 (TrimSuffix (SanitizeFilename originalFilename) ext) +:+ "_" +:+ randomHex 6 +:+ ext
      | StrategyUUID => randomUUID +:+ ext
      end
  end.

End Keys.

(** ** Storages (storage/storage.go) *)

Record StorageRecord := mkRecord {
  r_Key : string;
  r_OriginalName : string;
  r_Size : Z;
  r_MIME : string;
  r_Extension : string;
  r_SHA256 : string;
  r_Metadata : list (string * string);
  r_CreatedAt : Z
}.

Record SaveOptions := mkSaveOptions {
  o_OriginalName : string;
  o_MIME : string;
  o_Extension : string;
  o_SHA256 : string;
  o_Metadata : list (string * string)
}.

Record URLOptions := mkURLOptions { o_Download : bool; o_Filename : string }.

(** What a reader gives before it ends, and the error it ends with. *)
Record reader := mkStream { st_data : bytes; st_err : option gerror }.

Definition new_record (key : string) (opts : SaveOptions) (size now : Z) : StorageRecord :=
  mkRecord key (o_OriginalName opts) size (o_MIME opts) (o_Extension opts) (o_SHA256 opts) (o_Metadata opts) now.

Definition ErrFileNotFound : gerror := ErrMsg "storage: file not found".
Definition ErrPathTraversal : gerror := ErrMsg "storage: path traversal detected".

(** The interface; a [call] is what the surroundings contribute to one call:
    the clock, random bytes and the operations that fail. *)
Class Storage := {
  store : Type;
  call : Type;
  content : Type;
  call_time : call -> Z;
  Save : call -> store -> string -> reader -> SaveOptions -> store * result StorageRecord;
  Open : call -> store -> string -> result (content * StorageRecord);
  Delete : call -> store -> string -> store * result ();
  Exists : call -> store -> string -> result bool;
  Stat : call -> store -> string -> result StorageRecord;
  URL : store -> string -> URLOptions -> string
}.

(** ** The storage in memory (storage/memory.go) *)

Record MemoryStorage := mkMemory { m_data : gmap string bytes; m_records : gmap string StorageRecord; m_baseURL : string }.

Definition NewMemoryStorage : MemoryStorage := mkMemory ∅ ∅ "/files".

Definition memory_save (now : Z) (s : MemoryStorage) (key : string) (r : reader) (opts : SaveOptions)
  : MemoryStorage * result StorageRecord :=
  match st_err r with
  | Some _ => (s, Err (ErrMsg "storage: failed to read stream"))
  | None =>
      let rec := new_record key opts (zlen (st_data r)) now in
      (mkMemory (<[key := st_data r]> (m_data s)) (<[key := rec]> (m_records s)) (m_baseURL s), Ok rec)
  end.

(** A key has its record whenever it has data; the record that is missing is
    a nil pointer, which is not read here. *)
Definition memory_open (s : MemoryStorage) (key : string) : result (bytes * StorageRecord) :=
  match m_data s !! key, m_records s !! key with
  | Some buf, Some rec => Ok (buf, rec)
  | _, _ => Err ErrFileNotFound
  end.

Definition memory_delete (s : MemoryStorage) (key : string) : MemoryStorage * result () :=
  (mkMemory (delete key (m_data s)) (delete key (m_records s)) (m_baseURL s), Ok ()).

Definition memory_stat (s : MemoryStorage) (key : string) : result StorageRecord :=
  match m_records s !! key with Some rec => Ok rec | None => Err ErrFileNotFound end.

#[export] Instance memory_storage : Storage := {|
  store := MemoryStorage; call := Z; content := bytes; call_time now := now;
  Save := memory_save;
  Open _ := memory_open;
  Delete _ := memory_delete;
  Exists _ s key := Ok (bool_decide (is_Some (m_data s !! key)));
  Stat _ := memory_stat;
  URL s key _ := m_baseURL s +:+ "/" +:+ key
|}.

(** ** Paths of the storage on disk (storage/local.go) *)

Record LocalConfig := mkLocal { RootDir : string; BaseURL : string; ShardDepth : Z; FileMode : Z; DirMode : Z }.

Definition path_elems (p : string) : list string := List.filter (fun e => negb (String.eqb e "")) (split_on slash p).

Definition IsAbs (p : string) : bool := HasPrefix p "/".
(** [filepath.Abs] in a working directory. *)
Definition Abs (cwd p : string) : string := if IsAbs p then Clean p else Join [cwd; p].
(** [filepath.Dir] *)
Definition Dir (p : string) : string :=
  match removelast (split_on slash p) with [] => "." | es => Clean (join_with "/" es +:+ "/") end.

Fixpoint strip_common (b t : list string) : list string * list string :=
  match b, t with
  | x :: b', y :: t' => if String.eqb x y then strip_common b' t' else (b, t)
  | _, _ => (b, t)
  end.

(** [filepath.Rel] of two rooted paths. *)
Definition Rel (base targ : string) : string :=
  let base := Clean base in
  let targ := Clean targ in
  if String.eqb targ base then "."
  else let '(b, t) := strip_common (path_elems base) (path_elems targ) in
       join_with "/" (replicate (length b) ".." ++ t).

Definition shard_parts (depth : Z) (baseName : string) : list string :=
  map (fun i => slice baseName (i * 2) (i * 2 + 2)) (seq 0 (Z.to_nat depth)).

Definition subDirs (depth : Z) (baseName : string) : string :=
  if (0 <? depth) && (i64 (depth * 2) <=? slen baseName) then Join (shard_parts depth baseName) else "".

Definition cleanKey (key : string) : string := trim_left_of "/" (Clean key).

Definition resolvePath (s : LocalConfig) (key : string) : result string :=
  let ck := cleanKey key in
  if HasPrefix ck ".." || str_contains ck "/../" then Err ErrPathTraversal
  else
    let absPath := Clean (Join [RootDir s; subDirs (ShardDepth s) (Base ck); ck]) in
    if HasPrefix (Rel (RootDir s) absPath) ".." then Err ErrPathTraversal else Ok absPath.

(** ** The disk *)

(** Files with their times of modification, and directories; the root of the
    tree is always one. *)
Record disk := mkDisk { files : gmap string (bytes * Z); dirs : gset string }.

Definition dir_at (d : disk) (p : string) : bool := String.eqb p "/" || bool_decide (p ∈ dirs d).
Definition is_file (d : disk) (p : string) : bool := bool_decide (is_Some (files d !! p)).

(** The directories above and including a rooted path, from the top. *)
Definition dir_path (es : list string) : string := "/" +:+ join_with "/" es.
Definition ancestors (p : string) : list string :=
  let es := path_elems p in map (fun n => dir_path (take n es)) (seq 1 (length es)).

(** What [os.Stat] finds; a file on the way is an error of its own, which
    [os.IsNotExist] does not recognise. *)
Inductive stat_entry := EFile (data : bytes) (mtime : Z) | EDir | ENone | ENotDir.

Definition entry_at (d : disk) (p : string) : stat_entry :=
  match files d !! p with
  | Some (b, t) => EFile b t
  | None => if dir_at d p then EDir
            else if existsb (is_file d) (ancestors (Dir p)) then ENotDir else ENone
  end.

(** Which operations of one call fail.  A directory, a write or the sidecar
    may be left half done: [f_dirs] directories are made, [f_write] and
    [f_meta] bytes are written. *)
Record faults := mkFaults {
  f_now : Z;
  f_suffix : bytes;
  f_dirs : option nat;
  f_create : bool;
  f_write : option Z;
  f_close : bool;
  f_rename : bool;
  f_remove : bool;
  f_remove_meta : bool;
  f_open : bool;
  f_stat : bool;
  f_read_meta : bool;
  f_create_meta : bool;
  f_meta : option Z
}.

Definition no_faults (now : Z) (suffix : bytes) : faults :=
  mkFaults now suffix None false None false false false false false false false false None.

Definition failed (op : string) : gerror := ErrMsg ("storage: " +:+ op).

(** [os.MkdirAll]: from the top, until a file is in the way. *)
Fixpoint make_dirs (limit : option nat) (d : disk) (ps : list string) : disk * bool :=
  match ps with
  | [] => (d, true)
  | p :: ps' =>
      if is_file d p then (d, false)
      else if dir_at d p then make_dirs limit d ps'
      else match limit with
           | Some O => (d, false)
           | _ => make_dirs (pred <$> limit) (mkDisk (files d) ({[p]} ∪ dirs d)) ps'
           end
  end.
Definition MkdirAll (fl : faults) (d : disk) (p : string) : disk * bool := make_dirs (f_dirs fl) d (ancestors p).

(** A file can be made or truncated here. *)
Definition can_create (d : disk) (p : string) : bool := dir_at d (Dir p) && negb (dir_at d p).

Definition write_file (d : disk) (p : string) (b : bytes) (now : Z) : disk := mkDisk (<[p := (b, now)]> (files d)) (dirs d).

Definition has_children (d : disk) (p : string) : bool :=
  existsb (fun q => String.eqb (Dir q) p) ((map_to_list (files d)).*1 ++ elements (dirs d)).

(** [os.Remove], of a file or an empty directory; [false] with any error but
    that nothing is there. *)
Definition Remove (fails : bool) (d : disk) (p : string) : disk * bool :=
  if fails then (d, false)
  else match entry_at d p with
       | EFile _ _ => (mkDisk (delete p (files d)) (dirs d), true)
       | EDir => if String.eqb p "/" || has_children d p then (d, false)
                 else (mkDisk (files d) (dirs d ∖ {[p]}), true)
       | ENone => (d, true)
       | ENotDir => (d, false)
       end.

(** [os.Rename] of a file, which replaces a file but no directory. *)
Definition Rename (d : disk) (src dst : string) : option disk :=
  match files d !! src with
  | Some f => if can_create d dst then Some (mkDisk (<[dst := f]> (delete src (files d))) (dirs d)) else None
  | None => None
  end.

(** encoding/json on records. *)
Class RecordCodec := {
  marshal_record : StorageRecord -> option bytes;
  unmarshal_record : bytes -> option StorageRecord
}.

(** ** The storage on disk *)

Record LocalStorage := mkLocalStorage { l_cfg : LocalConfig; l_disk : disk }.

Definition NewLocalStorageWithConfig (fl : faults) (cwd : option string) (d : disk) (cfg : LocalConfig)
  : disk * result LocalConfig :=
  if String.eqb (RootDir cfg) "" then (d, Err (failed "root directory cannot be empty"))
  else
    match (if IsAbs (Clean (RootDir cfg)) then Some "/" else cwd) with
    | None => (d, Err (failed "invalid root directory"))
    | Some wd =>
        let cfg := mkLocal (Abs wd (Clean (RootDir cfg))) (BaseURL cfg) (Z.max 0 (ShardDepth cfg))
                     (if FileMode cfg =? 0 then 384 else FileMode cfg) (if DirMode cfg =? 0 then 448 else DirMode cfg) in
        match MkdirAll fl d (RootDir cfg) with
        | (d, true) => (d, Ok cfg)
        | (d, false) => (d, Err (failed "failed to create root directory"))
        end
    end.

Definition NewLocalStorage (fl : faults) (cwd : option string) (d : disk) (rootDir : string) : disk * result LocalConfig :=
  NewLocalStorageWithConfig fl cwd d (mkLocal rootDir "" 0 0 0).

Definition sidecar_path (target : string) : string := target +:+ ".meta.json".
Definition tmp_path (fl : faults) (target : string) : string := target +:+ ".tmp." +:+ EncodeToString (f_suffix fl).

Section Local.
Context {RC : RecordCodec}.
(** The size a directory reports. *)
Variable dir_size : Z.

(** The temporary file with the contents of the stream. *)
Definition write_tmp (fl : faults) (d : disk) (tmp : string) (r : reader) : disk * result Z :=
  if f_create fl || negb (can_create d tmp) then (d, Err (failed "failed to open temp file"))
  else
    match f_write fl, st_err r with
    | None, None =>
        let d1 := write_file d tmp (st_data r) (f_now fl) in
        if f_close fl then (fst (Remove (f_remove fl) d1 tmp), Err (failed "close temp file failed"))
        else (d1, Ok (zlen (st_data r)))
    | limit, _ =>
        let d1 := write_file d tmp (match limit with Some n => ztake n (st_data r) | None => st_data r end) (f_now fl) in
        (fst (Remove (f_remove fl) d1 tmp), Err (failed "write failed"))
    end.

Definition writeMeta (fl : faults) (cfg : LocalConfig) (d : disk) (key : string) (record : StorageRecord) : disk :=
  match resolvePath cfg key, marshal_record record with
  | Ok target, Some data =>
      if f_create_meta fl || negb (can_create d (sidecar_path target)) then d
      else write_file d (sidecar_path target) (match f_meta fl with Some n => ztake n data | None => data end) (f_now fl)
  | _, _ => d
  end.

Definition local_save_disk (fl : faults) (cfg : LocalConfig) (d : disk) (key : string) (r : reader) (opts : SaveOptions)
  : disk * result StorageRecord :=
  match resolvePath cfg key with
  | Err e => (d, Err e)
  | Ok target =>
      match MkdirAll fl d (Dir target) with
      | (d1, false) => (d1, Err (failed "failed to create directory"))
      | (d1, true) =>
          let tmp := tmp_path fl target in
          match write_tmp fl d1 tmp r with
          | (d2, Err e) => (d2, Err e)
          | (d2, Ok written) =>
              match (if f_rename fl then None else Rename d2 tmp target) with
              | None => (fst (Remove (f_remove fl) d2 tmp), Err (failed "atomic rename failed"))
              | Some d3 =>
                  let record := new_record key opts written (f_now fl) in
                  (writeMeta fl cfg d3 key record, Ok record)
              end
          end
      end
  end.

Definition local_stat_disk (fl : faults) (cfg : LocalConfig) (d : disk) (key : string) : result StorageRecord :=
  let? target := resolvePath cfg key in
  let meta := match files d !! sidecar_path target with
              | Some (data, _) => if f_read_meta fl then None else unmarshal_record data
              | None => None
              end in
  match meta with
  | Some rec => Ok rec
  | None =>
      let plain size mtime := Ok (mkRecord key "" size "" (Ext key) "" [] mtime) in
      if f_stat fl then Err (failed "stat")
      else match entry_at d target with
           | EFile data mtime => plain (zlen data) mtime
           | EDir => plain dir_size 0
           | ENone => Err ErrFileNotFound
           | ENotDir => Err (failed "stat")
           end
  end.

(** A handle on a file, or ([None]) on a directory, whose reads fail. *)
Definition local_open_disk (fl : faults) (cfg : LocalConfig) (d : disk) (key : string) : result (option bytes * StorageRecord) :=
  let? target := resolvePath cfg key in
  let? handle :=
    match entry_at d target with
    | EFile data _ => if f_open fl then Err (failed "open") else Ok (Some data)
    | EDir => if f_open fl then Err (failed "open") else Ok None
    | ENone => Err ErrFileNotFound
    | ENotDir => Err (failed "open")
    end in
  let? record := local_stat_disk fl cfg d key in
  Ok (handle, record).

Definition local_delete_disk (fl : faults) (cfg : LocalConfig) (d : disk) (key : string) : disk * result () :=
  match resolvePath cfg key with
  | Err e => (d, Err e)
  | Ok target =>
      let d1 := fst (Remove (f_remove_meta fl) d (sidecar_path target)) in
      match Remove (f_remove fl) d1 target with
      | (d2, true) => (d2, Ok ())
      | (d2, false) => (d2, Err (failed "remove"))
      end
  end.

Definition local_exists (fl : faults) (cfg : LocalConfig) (d : disk) (key : string) : result bool :=
  let? target := resolvePath cfg key in
  if f_stat fl then Err (failed "stat")
  else match entry_at d target with
       | EFile _ _ | EDir => Ok true
       | ENone => Ok false
       | ENotDir => Err (failed "stat")
       end.

Definition local_url (cfg : LocalConfig) (key : string) (opts : URLOptions) : string :=
  let base := trim_right_of "/" (BaseURL cfg) in
  let base := if String.eqb base "" then "/files" else base in
  base +:+ "/" +:+ key +:+
  (if o_Download opts then "?download=true" +:+ (if String.eqb (o_Filename opts) "" then "" else "&filename=" +:+ o_Filename opts)
   else "").

Definition on_local {A} (s : LocalStorage) (r : disk * A) : LocalStorage * A := (mkLocalStorage (l_cfg s) (fst r), snd r).

#[export] Instance local_storage : Storage := {|
  store := LocalStorage; call := faults; content := option bytes; call_time := f_now;
  Save fl s key r opts := on_local s (local_save_disk fl (l_cfg s) (l_disk s) key r opts);
  Open fl s := local_open_disk fl (l_cfg s) (l_disk s);
  Delete fl s key := on_local s (local_delete_disk fl (l_cfg s) (l_disk s) key);
  Exists fl s := local_exists fl (l_cfg s) (l_disk s);
  Stat fl s := local_stat_disk fl (l_cfg s) (l_disk s);
  URL s := local_url (l_cfg s)
|}.

End Local.

(** ** Serving (storage/serve.go) *)

Record ServeConfig := mkServe { s_Inline : bool; s_Filename : string; s_CacheControl : string; s_CustomCSP : string }.

Definition ServeOption : Type := ServeConfig -> ServeConfig.
Definition WithInline : ServeOption := fun c => mkServe true (s_Filename c) (s_CacheControl c) (s_CustomCSP c).
Definition WithDownload : ServeOption := fun c => mkServe false (s_Filename c) (s_CacheControl c) (s_CustomCSP c).
Definition WithFilename (name : string) : ServeOption := fun c => mkServe (s_Inline c) name (s_CacheControl c) (s_CustomCSP c).
(** A duration in whole seconds. *)
Definition WithCacheMaxAge (seconds : Z) : ServeOption :=
  fun c => mkServe (s_Inline c) (s_Filename c) ("public, max-age=" +:+ FormatInt seconds +:+ ", immutable") (s_CustomCSP c).

(** What is refused, and the error behind an internal one. *)
Inductive decision (A : Type) :=
| Accepted (a : A)
| Rejected (code : string) (status : Z) (message : string).
Arguments Accepted {A} a.
Arguments Rejected {A} code status message.

Definition vbind {A B} (m : decision A) (f : A -> decision B) : decision B :=
  match m with Accepted a => f a | Rejected c s t => Rejected c s t end.
Notation "'accept!' x := m 'in' k" := (vbind m (fun x => k)) (at level 10, x pattern, m at level 100, k at level 200) : go_scope.
(** A check that rejects. *)
Definition unless (bad : bool) (code : string) (status : Z) (message : string) : decision () :=
  if bad then Rejected code status message else Accepted ().

Definition BadRequest {A} (m : string) : decision A := Rejected "BAD_REQUEST" 400 m.
Definition Internal {A} (m : string) : decision A := Rejected "INTERNAL_ERROR" 500 m.

Definition double_quote : string := String (ascii_of_byte 34) "".
Definition quoted (s : string) : string := double_quote +:+ s +:+ double_quote.

(** The headers that are set, in order, and what http.ServeContent gets: the
    name and the time, which is [None] where the clock is used. *)
Record served_file (C : Type) := mkServed { sv_headers : list (string * string); sv_name : string; sv_mtime : option Z; sv_content : C }.
Arguments mkServed {C} sv_headers sv_name sv_mtime sv_content.
Arguments sv_headers {C} _.
Arguments sv_name {C} _.

Definition sandboxed (contentType : string) : bool :=
  str_contains contentType "svg" || str_contains contentType "html" || str_contains contentType "xml".

Definition serve_headers (cfg : ServeConfig) (contentType downloadName sha : string) : list (string * string) :=
  [("X-Content-Type-Options", "nosniff"); ("Content-Type", contentType)]
  ++ (if s_Inline cfg then
        ("Content-Disposition", "inline; filename=" +:+ quoted downloadName)
        :: (if sandboxed contentType then
              [("Content-Security-Policy", if String.eqb (s_CustomCSP cfg) "" then "default-src 'none'; sandbox" else s_CustomCSP cfg)]
            else [])
      else [("Content-Disposition", "attachment; filename=" +:+ quoted downloadName)])
  ++ (if String.eqb (s_CacheControl cfg) "" then [] else [("Cache-Control", s_CacheControl cfg)])
  ++ (if String.eqb sha "" then [] else [("ETag", quoted sha)]).

Section Serve.
Context {ST : Storage}.
(** mime.TypeByExtension, and Go's zero time. *)
Variables (TypeByExtension : string -> string) (zero_time : Z).

Definition ServeHTTP (c : call) (s : store) (key : string) (opts : list ServeOption) : decision (served_file content) :=
  let cfg := foldl (fun cfg opt => opt cfg) (mkServe false "" "public, max-age=86400" "") opts in
  match Open c s key with
  | Err e =>
      if decide (e = ErrFileNotFound) then Rejected "NOT_FOUND" 404 "File not found"
      else if decide (e = ErrPathTraversal) then Rejected "FORBIDDEN" 403 "Access denied"
      else Internal "Failed to open file"
  | Ok (reader, record) =>
      let contentType :=
        if String.eqb (r_MIME record) "" then
          let t := TypeByExtension (Ext key) in if String.eqb t "" then "application/octet-stream" else t
        else r_MIME record in
      let name := if String.eqb (s_Filename cfg) "" then r_OriginalName record else s_Filename cfg in
      let name := if String.eqb name "" then Base key else name in
      let name := replace_char (ascii_of_byte 34) "_" name in
      Accepted (mkServed (serve_headers cfg contentType name (r_SHA256 record)) name
                  (if r_CreatedAt record =? zero_time then None else Some (r_CreatedAt record)) reader)
  end.

End Serve.

(** ** Files that are read *)

(** The contents, and the place from which reading fails. *)
Record ReaderAt := mkReaderAt { ra_data : bytes; ra_fault : option Z }.

Definition readable (r : ReaderAt) : bytes := match ra_fault r with Some n => ztake n (ra_data r) | None => ra_data r end.

Definition read_fault : gerror := ErrMsg "read".

(** [r.ReadAt] into a buffer of [n] bytes: what is read, and the error. *)
Definition read_at (r : ReaderAt) (n off : Z) : bytes * option gerror :=
  let got := ztake n (zdrop off (readable r)) in
  (got, if zlen got <? n then Some (match ra_fault r with Some _ => read_fault | None => EOF end) else None).

(** The buffer itself, which was made of zeros. *)
Definition filled (n : Z) (got : bytes) : bytes := got ++ replicate (Z.to_nat (n - zlen got)) 0.

(** [io.NewSectionReader(r, 0, size)] as a stream. *)
Definition section (r : ReaderAt) (size : Z) : reader :=
  let '(got, err) := read_at r size 0 in
  mkStream got (match err with Some EOF => None | e => e end).

(** ** Configuration (config.go) *)

Definition KB : Z := 1024.
Definition MB : Z := 1024 * KB.

Record Dimensions := mkDimensions { MaxWidth : Z; MaxHeight : Z; MinWidth : Z; MinHeight : Z }.

(** What a scanner is told about a file. *)
Record FileInfo := mkFileInfo { i_Filename : string; i_Size : Z; i_MIME : string; i_Extension : string; i_SHA256 : string }.
(** The details of a result, which only describe it, are left out. *)
Record ScanResult := mkScan { Clean_ : bool; ThreatName : string; ScannerName : string }.
Definition Scanner : Type := ReaderAt -> Z -> FileInfo -> result (option ScanResult).

(** The scanner and the storage are arguments of the manager instead; the
    time limit of an upload ends a context that no storage reads. *)
Record UploadConfig := mkUploadConfig {
  MaxFileSize : Z;
  MinFileSize : Z;
  MaxMemory : Z;
  AllowedMIMEs : list string;
  AllowedExtensions : list string;
  ImageDimensions : option Dimensions;
  Naming : NamingStrategy;
  CustomNamingFunc : option (string -> bytes -> string);
  FailClosedScanner : bool;
  UploadTimeout : Z
}.

Definition ImageExtensions : list string := [".jpg"; ".jpeg"; ".png"; ".gif"; ".webp"; ".svg"; ".bmp"; ".ico"].
Definition ImageMIMEs : list string :=
  ["image/jpeg"; "image/png"; "image/gif"; "image/webp"; "image/svg+xml"; "image/bmp"; "image/x-icon"; "image/vnd.microsoft.icon"].

Definition DefaultConfig : UploadConfig :=
  mkUploadConfig (10 * MB) 1 (32 * MB) ImageMIMEs ImageExtensions None StrategyUUID None true (60 * 10 ^ 9).

(** ** Validation (validator.go) *)

Definition set_allowed (c : UploadConfig) (mimes exts : list string) : UploadConfig :=
  mkUploadConfig (MaxFileSize c) (MinFileSize c) (MaxMemory c) mimes exts (ImageDimensions c) (Naming c)
    (CustomNamingFunc c) (FailClosedScanner c) (UploadTimeout c).
Definition set_sizes (c : UploadConfig) (max min : Z) : UploadConfig :=
  mkUploadConfig max min (MaxMemory c) (AllowedMIMEs c) (AllowedExtensions c) (ImageDimensions c) (Naming c)
    (CustomNamingFunc c) (FailClosedScanner c) (UploadTimeout c).
Definition set_dimensions (c : UploadConfig) (d : Dimensions) : UploadConfig :=
  mkUploadConfig (MaxFileSize c) (MinFileSize c) (MaxMemory c) (AllowedMIMEs c) (AllowedExtensions c) (Some d) (Naming c)
    (CustomNamingFunc c) (FailClosedScanner c) (UploadTimeout c).

Definition MaxBytes (v : UploadConfig) (max : Z) : UploadConfig := set_sizes v max (MinFileSize v).
Definition MinBytes (v : UploadConfig) (min : Z) : UploadConfig := set_sizes v (MaxFileSize v) min.
Definition with_mimes (v : UploadConfig) (mimes : list string) : UploadConfig := set_allowed v mimes (AllowedExtensions v).
Definition normal_extension (ext : string) : string :=
  let e := ToLower (TrimSpace ext) in
  if negb (String.eqb e "") && negb (HasPrefix e ".") then "." +:+ e else e.
Definition with_extensions (v : UploadConfig) (exts : list string) : UploadConfig :=
  set_allowed v (AllowedMIMEs v) (map normal_extension exts).
Definition dimensions_of (v : UploadConfig) : Dimensions := match ImageDimensions v with Some d => d | None => mkDimensions 0 0 0 0 end.
Definition MaxDimensions (v : UploadConfig) (w h : Z) : UploadConfig :=
  set_dimensions v (mkDimensions w h (MinWidth (dimensions_of v)) (MinHeight (dimensions_of v))).
Definition MinDimensions (v : UploadConfig) (w h : Z) : UploadConfig :=
  set_dimensions v (mkDimensions (MaxWidth (dimensions_of v)) (MaxHeight (dimensions_of v)) w h).

Record ValidationResult := mkValid { v_MIME : string; v_Extension : string; v_Size : Z; v_SHA256 : string; v_Width : Z; v_Height : Z }.

Definition raster_exts : list string := [".jpg"; ".jpeg"; ".png"; ".gif"; ".webp"].

Definition checkMIMEExtensionConsistency (ext detectedMIME : string) : decision () :=
  if String.eqb ext "" || String.eqb detectedMIME "" then Accepted ()
  else unless (is_one_of raster_exts ext
               && (HasPrefix detectedMIME "application/x-"
                   || is_one_of ["text/html"; "text/javascript"; "application/javascript"] detectedMIME))
         "MIME_EXTENSION_MISMATCH" 400 ("File with extension " +:+ ext +:+ " has incompatible MIME type " +:+ detectedMIME).

Definition over_limit (cfg : UploadConfig) (size : Z) : decision () :=
  unless ((0 <? MaxFileSize cfg) && (MaxFileSize cfg <? size)) "FILE_TOO_LARGE" 413
    ("File size (" +:+ FormatInt size +:+ " bytes) exceeds maximum limit of " +:+ FormatInt (MaxFileSize cfg) +:+ " bytes").
Definition too_small (cfg : UploadConfig) (size : Z) : decision () :=
  unless ((0 <? MinFileSize cfg) && (size <? MinFileSize cfg)) "FILE_TOO_SMALL" 400
    ("File size (" +:+ FormatInt size +:+ " bytes) is smaller than minimum required limit of " +:+ FormatInt (MinFileSize cfg) +:+ " bytes").

Definition check_dimensions (d : Dimensions) (width height : Z) : decision () :=
  let px n := " (" +:+ FormatInt n +:+ "px)" in
  let over what n m := "Image " +:+ what +:+ px n +:+ " exceeds maximum allowed" +:+ px m in
  let below what n m := "Image " +:+ what +:+ px n +:+ " is below minimum required" +:+ px m in
  accept! _ := unless ((0 <? MaxWidth d) && (MaxWidth d <? width)) "BAD_REQUEST" 400 (over "width" width (MaxWidth d)) in
  accept! _ := unless ((0 <? MaxHeight d) && (MaxHeight d <? height)) "BAD_REQUEST" 400 (over "height" height (MaxHeight d)) in
  accept! _ := unless ((0 <? MinWidth d) && (width <? MinWidth d)) "BAD_REQUEST" 400 (below "width" width (MinWidth d)) in
  unless ((0 <? MinHeight d) && (height <? MinHeight d)) "BAD_REQUEST" 400 (below "height" height (MinHeight d)).

Section Validate.
Context {CP : CryptoPrims}.
(** The type that the library mimetype detects, as its text and its method
    [Is]; image.DecodeConfig: width and height. *)
Variables (Detect : bytes -> string) (Is : bytes -> string -> bool) (DecodeConfig : reader -> option (Z * Z)).

Definition allowed_mime (cfg : UploadConfig) (sniffed : bytes) : bool :=
  existsb (fun allowed => EqualFold allowed (Detect sniffed) || Is sniffed allowed) (AllowedMIMEs cfg).
(** An extension is of ASCII letters, and the folding is symmetric. *)
Definition allowed_extension (cfg : UploadConfig) (ext : string) : bool :=
  existsb (fun allowed => EqualFold allowed ext) (AllowedExtensions cfg).

Definition image_size (cfg : UploadConfig) (r : ReaderAt) (size : Z) (mime : string) : decision (Z * Z) :=
  if HasPrefix mime "image/" && negb (String.eqb mime "image/svg+xml") then
    match DecodeConfig (section r size) with
    | None => Accepted (0, 0)
    | Some (w, h) =>
        accept! _ := match ImageDimensions cfg with Some d => check_dimensions d w h | None => Accepted () end in
        Accepted (w, h)
    end
  else Accepted (0, 0).

(** A size is not negative. *)
Definition ValidateReader (cfg : UploadConfig) (r : ReaderAt) (size : Z) (filename : string) : decision ValidationResult :=
  accept! _ := over_limit cfg size in
  accept! _ := too_small cfg size in
  let sniffSize := Z.min 4096 size in
  let '(got, err) := read_at r sniffSize 0 in
  if bool_decide (err = Some read_fault) then Internal "Failed to read file signature"
  else
    let sniffBuf := filled sniffSize got in
    let detectedMIME := Detect sniffBuf in
    accept! _ := unless (negb (bool_decide (AllowedMIMEs cfg = [])) && negb (allowed_mime cfg sniffBuf))
                   "UNSUPPORTED_MEDIA_TYPE" 415 ("Unsupported file MIME type: " +:+ detectedMIME) in
    let ext := file_extension filename in
    accept! _ := unless (negb (bool_decide (AllowedExtensions cfg = [])) && negb (allowed_extension cfg ext))
                   "UNSUPPORTED_EXTENSION" 400 ("Unsupported file extension: " +:+ ext) in
    accept! _ := checkMIMEExtensionConsistency ext detectedMIME in
    accept! (width, height) := image_size cfg r size detectedMIME in
    match st_err (section r size) with
    | Some _ => Internal "Failed to compute file hash"
    | None => Accepted (mkValid detectedMIME ext size (EncodeToString (sha256 (st_data (section r size)))) width height)
    end.

(** A part of a form: [None] for its contents when opening fails, and
    whether it can be read at an offset. *)
Record FileHeader := mkHeader { h_Filename : string; h_Size : Z; h_file : option ReaderAt; h_seekable : bool }.

(** [io.ReadAll] of a file that only streams. *)
Definition ReadAll (r : ReaderAt) : option bytes := match ra_fault r with Some _ => None | None => Some (ra_data r) end.

Definition ValidateFileHeader (cfg : UploadConfig) (fh : option FileHeader) : decision ValidationResult :=
  match fh with
  | None => BadRequest "Missing uploaded file"
  | Some fh =>
      accept! _ := over_limit cfg (h_Size fh) in
      match h_file fh with
      | None => BadRequest "Failed to open uploaded file"
      | Some file =>
          if h_seekable fh then ValidateReader cfg file (h_Size fh) (h_Filename fh)
          else match ReadAll file with
               | None => Internal "Failed to read file buffer"
               | Some buf => ValidateReader cfg (mkReaderAt buf None) (zlen buf) (h_Filename fh)
               end
      end
  end.

End Validate.

(** ** The heuristic scanner (scanner/heuristic.go) *)

Definition tag_rest : pat := PCat [PWordb; PStar (PChr (fun a => negb (Ascii.eqb a ">"))); PLit1 ">"].

Definition svgScriptPatterns : list pat := [
  PCat [PLit1 "<"; spaces; lit_ci "script"; tag_rest];
  PCat [PLit1 "<"; spaces; PLit1 "/"; spaces; lit_ci "script"; spaces; PLit1 ">"];
  PCat [lit_ci "javascript"; spaces; PLit1 ":"];
  lit_ci "data:text/html";
  PCat [PWordb; lit_ci "on";
        PAny [lit_ci "load"; lit_ci "error"; lit_ci "click"; lit_ci "focus"; lit_ci "blur";
              PSeq (lit_ci "mouse") (PPlus word_ci); PSeq (lit_ci "key") (PPlus word_ci)];
        spaces; PLit1 "="];
  PCat [PLit1 "<"; spaces; PAny [lit_ci "iframe"; lit_ci "object"; lit_ci "embed"; lit_ci "applet"]; tag_rest];
  lit_ci "<!ENTITY"].

Definition webShellPatterns : list pat := [lit_ci "<?php"; lit_ci "<?="; lit_ci "<%@"; lit_ci "<jsp:"].

Definition found (pats : list pat) (b : bytes) : bool :=
  let s := string_of_bytes b in existsb (fun r => MatchString r s) pats.

(** The ratio is a quotient of integers; no configuration holds another. *)
Record HeuristicConfig := mkHeuristic {
  BlockExecutables : bool;
  BlockSVGScripts : bool;
  BlockWebShells : bool;
  BlockZipSlip : bool;
  MaxZipRatio : Z * Z;
  DisallowOfficeMacros : bool
}.

Definition DefaultHeuristicConfig : HeuristicConfig := mkHeuristic true true true true (100, 1) true.

Definition NewHeuristicScannerWithConfig (c : HeuristicConfig) : HeuristicConfig :=
  if fst (MaxZipRatio c) <=? 0
  then mkHeuristic (BlockExecutables c) (BlockSVGScripts c) (BlockWebShells c) (BlockZipSlip c) (100, 1) (DisallowOfficeMacros c)
  else c.

Definition starts (buf sig : bytes) : bool := bool_decide (take (length sig) buf = sig).

Definition checkExecutableHeaders (buf : bytes) : string :=
  if zlen buf <? 4 then ""
  else if starts buf [77; 90] then "Executable.PE.Windows"
  else if starts buf [127; 69; 76; 70] then "Executable.ELF.Linux"
  else if starts buf [254; 237; 250; 206] || starts buf [254; 237; 250; 207]
          || starts buf [206; 250; 237; 254] || starts buf [207; 250; 237; 254] then "Executable.MachO.macOS"
  else if starts buf [202; 254; 186; 190] then "Executable.JavaClass"
  else if starts buf [35; 33] then "Executable.Script.Shebang"
  else "".

Definition isAllowedExecutableType (ext mime : string) : bool :=
  is_one_of [".exe"; ".bin"; ".sh"] ext || is_one_of ["application/x-executable"; "application/x-msdownload"] mime.
Definition isScriptExtension (ext : string) : bool :=
  is_one_of [".php"; ".asp"; ".aspx"; ".jsp"; ".sh"; ".bat"; ".ps1"] ext.

(** [float64(a) / float64(b) > n / d] for [0 < b], with the quotient rounded
    to 53 bits. *)
Definition ratio_exceeds (a b : Z) (limit : Z * Z) : bool :=
  let '(n, d) := limit in
  let a := float64_of_int a in
  let b := float64_of_int b in
  if a =? 0 then n <? 0
  else
    let e := Z.log2 a - Z.log2 b - 52 in
    let e := if a * 2 ^ Z.max 0 (- (e + 52)) <? b * 2 ^ Z.max 0 (e + 52) then e - 1 else e in
    let q := round_half_even (a * 2 ^ Z.max 0 (- e)) (b * 2 ^ Z.max 0 e) in
    n * 2 ^ Z.max 0 (- e) <? q * 2 ^ Z.max 0 e * d.

Definition zip_slip (name : string) : bool := str_contains name ".." || HasPrefix name "/" || HasPrefix name "\".
Definition office_macro (name : string) : bool :=
  str_contains (ToLower name) "vbaproject.bin" || str_contains (ToLower name) "vba_project".

(** The entries in order: a threat, or the sum of their sizes. *)
Fixpoint zip_walk (c : HeuristicConfig) (entries : list (string * Z)) (total : Z) : string + Z :=
  match entries with
  | [] => inr total
  | (name, uncompressed) :: es =>
      if BlockZipSlip c && zip_slip name then inl "Archive.ZipSlip.PathTraversal"
      else if DisallowOfficeMacros c && office_macro name then inl "Office.MaliciousMacro.VBA"
      else zip_walk c es (u64 (total + uncompressed))
  end.

Section Heuristic.
(** archive/zip: the names and sizes of the entries in the directory of an
    archive, unless it cannot be read. *)
Variable zip_entries : ReaderAt -> Z -> option (list (string * Z)).

Definition zip_threat (c : HeuristicConfig) (r : ReaderAt) (size : Z) : option string :=
  match zip_entries r size with
  | None => None
  | Some entries =>
      match zip_walk c entries 0 with
      | inl threat => Some threat
      | inr total =>
          if (0 <? fst (MaxZipRatio c)) && (1024 <? size) && ratio_exceeds total size (MaxZipRatio c) && (50 * MB <? total)
          then Some "Archive.DecompressionBomb.ZipBomb" else None
      end
  end.

(** The beginning of a file, up to a limit, with zeros where reading failed. *)
Definition inspected_part (r : ReaderAt) (size limit : Z) : bytes :=
  let n := Z.min limit size in filled n (fst (read_at r n 0)).

Definition svg_like (ext mime : string) : bool := String.eqb ext ".svg" || str_contains mime "svg" || str_contains mime "xml".
Definition is_zip (ext mime : string) : bool :=
  is_one_of [".zip"; ".docx"; ".xlsx"; ".pptx"] ext || str_contains mime "zip".

(** The four inspections; the first threat ends the scan. *)
Definition threat (c : HeuristicConfig) (r : ReaderAt) (size : Z) (ext mime : string) : option string :=
  let executable := checkExecutableHeaders (inspected_part r size 4096) in
  if BlockExecutables c && negb (isAllowedExecutableType ext mime) && negb (String.eqb executable "") then Some executable
  else if BlockWebShells c && negb (isScriptExtension ext) && found webShellPatterns (inspected_part r size (64 * 1024))
  then Some "Embedded.WebShell.ScriptTag"
  else if BlockSVGScripts c && svg_like ext mime && found svgScriptPatterns (inspected_part r size (512 * 1024))
  then Some "Script.Injection.SVG_XML"
  else if is_zip ext mime then zip_threat c r size
  else None.

Definition heuristic_scan (c : HeuristicConfig) : Scanner := fun r size info =>
  if size <=? 0 then Ok (Some (mkScan true "" "Heuristic"))
  else if bool_decide (snd (read_at r (Z.min 4096 size) 0) = Some read_fault) then Err read_fault
  else match threat c r size (ToLower (i_Extension info)) (ToLower (i_MIME info)) with
       | Some t => Ok (Some (mkScan false t "Heuristic"))
       | None => Ok (Some (mkScan true "" "Heuristic"))
       end.

End Heuristic.

(** ** Chains of scanners (scanner/multi.go, noop.go) *)

Definition noop_scan : Scanner := fun _ _ _ => Ok (Some (mkScan true "" "Noop")).

Definition NewMultiScanner (scanners : list (option Scanner)) : list Scanner := omap id scanners.

(** [cancelled i]: the context has ended before scanner [i]. *)
Fixpoint multi_from (cancelled : nat -> bool) (i : nat) (scanners : list Scanner) : Scanner := fun r size info =>
  match scanners with
  | [] => Ok (Some (mkScan true "" "MultiScanner"))
  | sc :: rest =>
      if cancelled i then Err (ErrMsg "context")
      else let? res := sc r size info in
           match res with
           | Some s => if Clean_ s then multi_from cancelled (S i) rest r size info else Ok res
           | None => multi_from cancelled (S i) rest r size info
           end
  end.
Definition multi_scan (cancelled : nat -> bool) (scanners : list Scanner) : Scanner := multi_from cancelled 0 scanners.

(** ** The client of clamd (scanner/clamav.go) *)

Record ClamAVConfig := mkClam { Network : string; Address : string; Timeout : Z; ChunkSize : Z }.

Definition DefaultClamAVConfig : ClamAVConfig := mkClam "tcp" "127.0.0.1:3310" (10 * 10 ^ 9) (32 * 1024).

Definition NewClamAVScannerWithConfig (c : ClamAVConfig) : ClamAVConfig :=
  mkClam (if String.eqb (Network c) "" then "tcp" else Network c)
    (if String.eqb (Address c) "" then "127.0.0.1:3310" else Address c)
    (if Timeout c <=? 0 then 10 * 10 ^ 9 else Timeout c)
    (if ChunkSize c <=? 0 then 32 * 1024 else ChunkSize c).

Definition NewClamAVScanner (address : string) : ClamAVConfig :=
  let d := DefaultClamAVConfig in
  NewClamAVScannerWithConfig
    (if String.eqb address "" then d
     else mkClam (if HasPrefix address "/" then "unix" else Network d) address (Timeout d) (ChunkSize d)).

(** A connection: whether it opens, how many writes succeed, when the context
    ends (by the offset reached), and what the two reads of the answer give
    with the error they end with. *)
Record connection := mkConn {
  c_dials : bool;
  c_writes : option nat;
  c_done : Z -> bool;
  c_reply : string * option gerror;
  c_reply_line : string * option gerror
}.

Definition writable (conn : connection) (sent : list bytes) : bool :=
  match c_writes conn with Some n => (length sent <? n)%nat | None => true end.

Definition clam_error (what : string) : gerror := ErrMsg ("clamav " +:+ what).

(** Each round sends one chunk behind its length; what was sent is kept, also
    when a write fails. *)
Fixpoint send_chunks (fuel : nat) (conn : connection) (r : ReaderAt) (chunk size offset : Z) (sent : list bytes)
  : list bytes * result () :=
  match fuel with
  | O => (sent, Ok ())
  | S fuel' =>
      if negb (offset <? size) then (sent, Ok ())
      else if c_done conn offset then (sent, Err (clam_error "context"))
      else
        let '(got, err) := read_at r (Z.min chunk (size - offset)) offset in
        let n := zlen got in
        let header := be_put 4 (u32 n) in
        if (0 <? n) && negb (writable conn sent) then (sent, Err (clam_error "chunk length write error"))
        else if (0 <? n) && negb (writable conn (sent ++ [header])) then (sent ++ [header], Err (clam_error "chunk data write error"))
        else
          let sent := if 0 <? n then sent ++ [header; got] else sent in
          match err with
          | None => send_chunks fuel' conn r chunk size (if 0 <? n then offset + n else offset) sent
          | Some EOF => (sent, Ok ())
          | Some e => (sent, Err e)
          end
  end.

Definition trim_reply (s : string) : string :=
  trim_right_of (String (ascii_of_byte 0) (String carriage_return (String newline ""))) s.

Definition parse_reply (resp : string) : result (option ScanResult) :=
  if HasSuffix resp "OK" then Ok (Some (mkScan true "" "ClamAV"))
  else if HasSuffix resp "FOUND"
  then Ok (Some (mkScan false (TrimSuffix (TrimPrefix resp "stream: ") " FOUND") "ClamAV"))
  else Err (clam_error ("scan error: " +:+ resp)).

Definition at_end (err : option gerror) : bool := match err with None | Some EOF => true | _ => false end.

Definition read_reply (conn : connection) : result string :=
  if at_end (snd (c_reply conn)) then Ok (trim_reply (fst (c_reply conn)))
  else if at_end (snd (c_reply_line conn)) then Ok (trim_reply (fst (c_reply_line conn)))
  else Err (clam_error "response read error").

Definition instream : bytes := bytes_of_string "zINSTREAM" ++ [0].

(** What is sent, write by write, and the result. *)
Definition clam_session (c : ClamAVConfig) (conn : connection) (r : ReaderAt) (size : Z)
  : list bytes * result (option ScanResult) :=
  if negb (c_dials conn) then ([], Err (clam_error "connection failed"))
  else if negb (writable conn []) then ([], Err (clam_error "instream command failed"))
  else
    match send_chunks (S (Z.to_nat size)) conn r (ChunkSize c) size 0 [instream] with
    | (sent, Err e) => (sent, Err e)
    | (sent, Ok _) =>
        if negb (writable conn sent) then (sent, Err (clam_error "stream terminator write error"))
        else (sent ++ [be_put 4 0], let? resp := read_reply conn in parse_reply resp)
    end.

Definition clam_scan (c : ClamAVConfig) (conn : connection) : Scanner := fun r size _ => snd (clam_session c conn r size).

Definition Ping (conn : connection) : result () :=
  if negb (c_dials conn) then Err (clam_error "connection failed")
  else if negb (writable conn []) then Err (clam_error "ping write error")
  else if negb (at_end (snd (c_reply conn))) then Err (clam_error "ping read error")
  else if String.eqb (trim_reply (fst (c_reply conn))) "PONG" then Ok () else Err (clam_error "unexpected ping response").

(** ** The manager (manager.go) *)

Definition NewUploadManager (cfg : UploadConfig) : UploadConfig :=
  mkUploadConfig (if MaxFileSize cfg <=? 0 then 10 * MB else MaxFileSize cfg) (MinFileSize cfg)
    (if MaxMemory cfg <=? 0 then 32 * MB else MaxMemory cfg) (AllowedMIMEs cfg) (AllowedExtensions cfg)
    (ImageDimensions cfg) (Naming cfg) (CustomNamingFunc cfg) (FailClosedScanner cfg)
    (if UploadTimeout cfg <=? 0 then 60 * 10 ^ 9 else UploadTimeout cfg).

Record ProcessedFile := mkProcessed {
  p_Key : string;
  p_OriginalName : string;
  p_Size : Z;
  p_MIME : string;
  p_Extension : string;
  p_SHA256 : string;
  p_Width : Z;
  p_Height : Z;
  p_URL : string;
  p_CreatedAt : Z
}.

Definition malware_code : string := "MALWARE_DETECTED".

Definition NewMalwareError {A} (scannerName threatName : string) : decision A :=
  Rejected malware_code 403 ("Malware detected by " +:+ scannerName +:+ ": " +:+ threatName).

Section Manager.
Context {CP : CryptoPrims} {ST : Storage}.
Variables (Detect : bytes -> string) (Is : bytes -> string -> bool) (DecodeConfig : reader -> option (Z * Z)).
Variables (cfg : UploadConfig) (scanner : option Scanner).

(** What one upload meets: its random bytes, the clock in milliseconds and
    its call of the storage. *)
Record occasion := mkOccasion { oc_rand : Z -> bytes; oc_ms : Z; oc_call : call }.

Definition scanned (r : ReaderAt) (size : Z) (info : FileInfo) : decision () :=
  match scanner with
  | None => Accepted ()
  | Some scan =>
      match scan r size info with
      | Err _ => if FailClosedScanner cfg then Internal "Security scanner failed" else Accepted ()
      | Ok (Some res) => if Clean_ res then Accepted () else NewMalwareError (ScannerName res) (ThreatName res)
      | Ok None => Accepted ()
      end
  end.

Definition sampleContent (r : ReaderAt) (size : Z) : bytes :=
  if bool_decide (Naming cfg = StrategySHA256) && (size <=? 2 * MB) then filled size (fst (read_at r size 0)) else [].

Definition storage_key (oc : occasion) (r : ReaderAt) (size : Z) (originalFilename : string) : string :=
  GenerateStorageKey (oc_rand oc) (oc_ms oc) (Naming cfg) originalFilename (sampleContent r size) (CustomNamingFunc cfg).

Definition save_options (originalFilename : string) (v : ValidationResult) : SaveOptions :=
  mkSaveOptions (SanitizeFilename originalFilename) (v_MIME v) (v_Extension v) (v_SHA256 v) [].

Definition processed (v : ValidationResult) (rec : StorageRecord) (url : string) : ProcessedFile :=
  mkProcessed (r_Key rec) (r_OriginalName rec) (r_Size rec) (r_MIME rec) (r_Extension rec) (r_SHA256 rec)
    (v_Width v) (v_Height v) url (r_CreatedAt rec).

Definition ProcessReader (oc : occasion) (s : store) (r : ReaderAt) (size : Z) (originalFilename : string)
  : store * decision ProcessedFile :=
  match (accept! valRes := ValidateReader Detect Is DecodeConfig cfg r size originalFilename in
         accept! _ := scanned r size (mkFileInfo originalFilename size (v_MIME valRes) (v_Extension valRes) (v_SHA256 valRes)) in
         Accepted valRes) with
  | Rejected c st m => (s, Rejected c st m)
  | Accepted valRes =>
      let key := storage_key oc r size originalFilename in
      match Save (oc_call oc) s key (section r size) (save_options originalFilename valRes) with
      | (s', Err _) => (s', Internal "Failed to save file to storage")
      | (s', Ok record) =>
          (s', Accepted (processed valRes record (URL s' key (mkURLOptions false (r_OriginalName record)))))
      end
  end.

Definition ProcessFileHeader (oc : occasion) (s : store) (fh : option FileHeader) : store * decision ProcessedFile :=
  match fh with
  | None => (s, BadRequest "Missing uploaded file")
  | Some fh =>
      match h_file fh with
      | None => (s, BadRequest "Failed to open file header")
      | Some file =>
          if h_seekable fh then ProcessReader oc s file (h_Size fh) (h_Filename fh)
          else match ReadAll file with
               | None => (s, Internal "Failed to read file content")
               | Some buf => ProcessReader oc s (mkReaderAt buf None) (zlen buf) (h_Filename fh)
               end
      end
  end.

(** The last component is what the audit entry of the request gets to name:
    the file in which malware was found. *)
Definition blocked {A} (v : decision A) (fh : FileHeader) : option string :=
  match v with Rejected c _ _ => if String.eqb c malware_code then Some (h_Filename fh) else None | Accepted _ => None end.

Definition Process (oc : occasion) (s : store) (FormFile : result FileHeader) : store * decision ProcessedFile * option string :=
  match FormFile with
  | Err _ => (s, BadRequest "Failed to retrieve file from form field", None)
  | Ok fh => let '(s', v) := ProcessFileHeader oc s (Some fh) in (s', v, blocked v fh)
  end.

(** The files of a field, each with the occasion of its upload. *)
Fixpoint process_all (s : store) (fhs : list (occasion * FileHeader)) : store * decision (list ProcessedFile) * option string :=
  match fhs with
  | [] => (s, Accepted [], None)
  | (oc, fh) :: rest =>
      match ProcessFileHeader oc s (Some fh) with
      | (s', Rejected c st m) => (s', Rejected c st m, blocked (A := ()) (Rejected c st m) fh)
      | (s', Accepted p) =>
          match process_all s' rest with
          | (s'', Accepted ps, b) => (s'', Accepted (p :: ps), b)
          | (s'', Rejected c st m, b) => (s'', Rejected c st m, b)
          end
      end
  end.

Definition ProcessMultiple (s : store) (MultipartForm : result (list (occasion * FileHeader)))
  : store * decision (list ProcessedFile) * option string :=
  match MultipartForm with
  | Err _ => (s, BadRequest "Failed to parse multipart form", None)
  | Ok [] => (s, BadRequest "No files found under field", None)
  | Ok fhs => process_all s fhs
  end.

End Manager.
