(* ===== verification/UploadsProps.v ===== *)
(** * What the generic uploads guarantee

    Names and keys; paths on disk, which stay below the root and apart; the
    laws of a storage, which the one in memory and the one on disk satisfy;
    the manager over any storage with these laws; the stream to a daemon and
    the inspections. *)

From S2P Require Import Prelude GoStrings CryptoPrims FileInfo GoURL NetGuard Pattern Uploads.

#[local] Open Scope go_scope.
#[local] Open Scope string_scope.
#[local] Open Scope list_scope.
#[local] Open Scope Z_scope.

(** ** Characters of a name *)

Lemma forallb_weaken (p q : Ascii.ascii -> bool) s :
  (forall a, p a = true -> q a = true) -> string_forallb p s = true -> string_forallb q s = true.
Proof.
  intros Hpq. induction s as [|a s IH]; [done|]. cbn. intros [Ha Hs]%andb_true_iff.
  by rewrite (Hpq a Ha), IH.
Qed.

Lemma forallb_substring p n m s : string_forallb p s = true -> string_forallb p (String.substring n m s) = true.
Proof.
  revert n m. induction s as [|a s IH]; intros n m; [by destruct n, m|].
  cbn [string_forallb]. intros [Ha Hs]%andb_true_iff. destruct n as [|n]; [|by apply IH].
  destruct m as [|m]; [done|]. cbn. by rewrite Ha, IH.
Qed.

Lemma forallb_runs p q by_ inside s :
  string_forallb q by_ = true -> (forall a, p a = false -> q a = true) -> string_forallb q (replace_runs p by_ inside s) = true.
Proof.
  intros Hby Hq. revert inside. induction s as [|a s IH]; intros inside; [done|]. cbn.
  destruct (p a) eqn:Hp; [|by cbn; rewrite (Hq a Hp), IH].
  rewrite string_forallb_app, IH. by destruct inside; [|rewrite Hby].
Qed.

Lemma forallb_runs_keep p q by_ inside s :
  string_forallb q by_ = true -> string_forallb q s = true -> string_forallb q (replace_runs p by_ inside s) = true.
Proof.
  intros Hby. revert inside. induction s as [|a s IH]; intros inside; [done|]. cbn.
  intros [Ha Hs]%andb_true_iff. destruct (p a); [|by cbn; rewrite Ha, IH].
  rewrite string_forallb_app, IH by done. by destruct inside; [|rewrite Hby].
Qed.

Lemma forallb_trim_left_of p cs s : string_forallb p s = true -> string_forallb p (trim_left_of cs s) = true.
Proof.
  induction s as [|a s IH]; [done|]. cbn. intros [Ha Hs]%andb_true_iff.
  destruct (char_in cs a); [by apply IH|]. cbn. by rewrite Ha.
Qed.

Lemma forallb_trim_right_of p cs s : string_forallb p s = true -> string_forallb p (trim_right_of cs s) = true.
Proof.
  induction s as [|a s IH]; [done|]. cbn. intros [Ha Hs]%andb_true_iff. specialize (IH Hs).
  destruct (trim_right_of cs s); [destruct (char_in cs a); [done|]; cbn; by rewrite Ha|].
  cbn in *. by rewrite Ha.
Qed.

Lemma forallb_Trim p cs s : string_forallb p s = true -> string_forallb p (Trim s cs) = true.
Proof. intros H. by apply forallb_trim_right_of, forallb_trim_left_of. Qed.

(** The last character that stays is none of the set; neither is the first. *)
Lemma trim_left_of_head cs s a t : trim_left_of cs s = String a t -> char_in cs a = false.
Proof.
  induction s as [|b s IH]; [done|]. cbn. destruct (char_in cs b) eqn:Hb; [done|]. by intros [= <- <-].
Qed.

Lemma trim_right_of_head cs s a t : trim_right_of cs s = String a t -> exists t', s = String a t'.
Proof.
  destruct s as [|b s]; [done|]. cbn. destruct (trim_right_of cs s); [destruct (char_in cs b); [done|]|];
    intros [= -> _]; by eexists.
Qed.

Lemma Trim_head cs s a t : Trim s cs = String a t -> char_in cs a = false.
Proof. intros [t' Ht]%trim_right_of_head. by eapply trim_left_of_head. Qed.

Definition alnum (a : Ascii.ascii) : bool := ascii_in "a" "z" a || ascii_in "A" "Z" a || is_digit a.

(** A name of letters, digits, dots, underscores and hyphens that starts with
    a letter or a digit. *)
Definition plain (n : string) : bool :=
  match n with String a n' => alnum a && string_forallb name_char n' | EmptyString => false end.

Lemma alnum_name a : alnum a = true -> name_char a = true.
Proof. unfold alnum, name_char. intros H. by rewrite H. Qed.

Lemma plain_chars n : plain n = true -> string_forallb name_char n = true.
Proof. destruct n as [|a n]; [done|]. cbn. intros [Ha%alnum_name ->]%andb_true_iff. by rewrite Ha. Qed.

Lemma plain_app n t : plain n = true -> string_forallb name_char t = true -> plain (n +:+ t) = true.
Proof.
  destruct n as [|a n]; [done|]. rewrite string_app_cons. cbn. intros [-> Hn]%andb_true_iff Ht.
  by rewrite string_forallb_app, Hn.
Qed.

Lemma name_char_lower a : name_char a = true -> name_char (lower_ascii a) = true.
Proof. destruct a as [[] [] [] [] [] [] [] []]; vm_compute; done. Qed.

Lemma ToLower_name s : string_forallb name_char s = true -> string_forallb name_char (ToLower s) = true.
Proof.
  induction s as [|a s IH]; [done|]. cbn. intros [Ha Hs]%andb_true_iff. by rewrite name_char_lower, IH.
Qed.

Lemma substring_head n a s : (0 < n)%nat -> exists t, String.substring 0 n (String a s) = String a t.
Proof. destruct n; [lia|]. by eexists. Qed.

Lemma plain_first n s : (0 < n)%nat -> plain s = true -> plain (first_chars n s) = true.
Proof.
  intros Hn Hs. unfold first_chars. destruct (_ <? _)%nat; [|done].
  pose proof (forallb_substring _ 0 n _ (plain_chars _ Hs)) as Hc.
  destruct s as [|a s]; [done|]. cbn in Hs. apply andb_true_iff in Hs as [Ha _].
  destruct (substring_head n a s Hn) as [t Ht]. rewrite Ht in Hc |- *. cbn in *.
  rewrite Ha. by apply andb_true_iff in Hc as [_ ->].
Qed.

Lemma clean_base_chars b : string_forallb name_char (clean_base b) = true.
Proof.
  apply forallb_Trim, forallb_runs_keep; [done|]. apply forallb_runs; [done|].
  intros a Ha. by apply negb_false_iff.
Qed.

Lemma clean_base_plain b : clean_base b = "" \/ plain (clean_base b) = true.
Proof.
  pose proof (clean_base_chars b) as Hc. unfold clean_base in *. destruct (Trim _ _) as [|a t] eqn:Ht; [by left|right].
  apply Trim_head in Ht. cbn [string_forallb plain] in Hc |- *. apply andb_true_iff in Hc as [Ha ->]. rewrite andb_true_r.
  unfold name_char in Ha. rewrite Ht, orb_false_r in Ha. done.
Qed.

Lemma clean_ext_chars e : string_forallb name_char (clean_ext e) = true.
Proof.
  unfold clean_ext. destruct (String.eqb _ ""); [done|]. rewrite string_forallb_app. cbn.
  apply forallb_Trim, ToLower_name, forallb_runs; [done|]. intros a Ha. by apply negb_false_iff.
Qed.

Lemma clean_ext_dot e : clean_ext e = "" \/ exists e', clean_ext e = "." +:+ e'.
Proof. unfold clean_ext. destruct (String.eqb _ ""); [by left|]. right. by eexists. Qed.

Lemma safe_base_plain b : b = "" \/ plain b = true -> plain (safe_base b) = true.
Proof.
  intros Hb. unfold safe_base.
  assert (plain (if String.eqb b "" then "upload" else b) = true) as Hp
    by (destruct Hb as [->|Hb]; [done|]; by destruct (String.eqb b "")).
  set (b1 := if String.eqb b "" then _ else _) in *. clearbody b1.
  assert (plain (if windowsReservedNames b1 then "safe_" +:+ b1 else b1) = true) as H2
    by (destruct (windowsReservedNames b1); [apply plain_app; [done|by apply plain_chars]|done]).
  apply (plain_first 100 _); [lia|done].
Qed.

Lemma sanitized_form f : SanitizeFilename f = "unnamed_file" \/
  exists b e, SanitizeFilename f = safe_base (clean_base b) +:+ clean_ext e.
Proof.
  unfold SanitizeFilename. destruct (String.eqb f ""); [by left|]. right.
  set (b := TrimSuffix _ _). set (e := Ext (bare_name f)). exists b, e.
  pose proof (safe_base_plain _ (clean_base_plain b)) as Hp.
  destruct (safe_base (clean_base b)) as [|a t]; [done|].
  rewrite string_app_cons. destruct (String.eqb_spec (String a (t +:+ clean_ext e)) "."); [|done].
  cbn in Hp. by simplify_eq.
Qed.

Lemma sanitized_plain f : plain (SanitizeFilename f) = true.
Proof.
  destruct (sanitized_form f) as [->|(b & e & ->)]; [done|].
  apply plain_app; [apply safe_base_plain, clean_base_plain|apply clean_ext_chars].
Qed.

(** ** Names of devices *)

(** Without repetitions and boundaries, and with characters that satisfy [f]. *)
Fixpoint spells (f : Ascii.ascii -> Prop) (r : pat) : Prop :=
  match r with
  | PEps => True
  | PChr c => forall a, c a = true -> f a
  | PSeq r1 r2 | PAlt r1 r2 => spells f r1 /\ spells f r2
  | PStar _ | PWordb => False
  end.

Fixpoint width (r : pat) : nat :=
  match r with PChr _ => 1 | PSeq r1 r2 => width r1 + width r2 | PAlt r1 r2 => Nat.max (width r1) (width r2) | _ => 0 end.

Fixpoint every (f : Ascii.ascii -> Prop) (s : string) : Prop :=
  match s with String a s' => f a /\ every f s' | EmptyString => True end.

Lemma every_app f s t : every f s -> every f t -> every f (s +:+ t).
Proof. induction s as [|a s IH]; [done|]. rewrite string_app_cons. cbn. intros [? ?] ?. split; [done|by apply IH]. Qed.

(** Such an expression matches a short word, whatever stands around it. *)
Lemma Match_word f r p s p' s' : Match r p s p' s' -> spells f r ->
  exists d, s = d +:+ s' /\ (String.length d <= width r)%nat /\ every f d /\ (forall q t, exists q', Match r q (d +:+ t) q' t).
Proof.
  induction 1 as [p s|c p a s Ha|r1 r2 p s p1 s1 p2 s2 _ IH1 _ IH2|r1 r2 p s p' s' _ IH|r1 r2 p s p' s' _ IH| | |];
    cbn [spells width]; intros Hs; try done.
  - exists "". split_and!; [done|cbn; lia|done|]. intros q t. exists q. apply M_eps.
  - exists (String a ""). split_and!; [done|cbn; lia|by split; [apply Hs|]|]. intros q t. eexists. by apply M_chr.
  - destruct Hs as [H1 H2]. destruct (IH1 H1) as (d1 & -> & Hl1 & Hf1 & Hd1), (IH2 H2) as (d2 & -> & Hl2 & Hf2 & Hd2).
    exists (d1 +:+ d2). rewrite str_app_assoc, length_str_app. split_and!; [done|lia|by apply every_app|].
    intros q t. rewrite str_app_assoc. destruct (Hd1 q (d2 +:+ t)) as [q1 Hq1], (Hd2 q1 t) as [q2 Hq2].
    exists q2. by eapply M_seq.
  - destruct (IH (proj1 Hs)) as (d & -> & Hl & Hf & Hd). exists d. split_and!; [done|lia|done|].
    intros q t. destruct (Hd q t) as [q' Hq]. exists q'. by apply M_alt_l.
  - destruct (IH (proj2 Hs)) as (d & -> & Hl & Hf & Hd). exists d. split_and!; [done|lia|done|].
    intros q t. destruct (Hd q t) as [q' Hq]. exists q'. by apply M_alt_r.
Qed.

Lemma devices_spell : spells (fun a => a <> "."%char) device_names.
Proof. repeat split; intros a Ha ->; by vm_compute in Ha. Qed.

Definition device (d : string) : Prop :=
  (String.length d <= 4)%nat /\ every (fun a => a <> "."%char) d /\ forall q t, exists q', Match device_names q (d +:+ t) q' t.

(** A name is reserved when a device stands before its first dot; names have
    no newlines. *)
Lemma reserved_spec s : string_forallb name_char s = true ->
  windowsReservedNames s = true <-> exists d, device d /\ (s = d \/ exists t, s = d +:+ "." +:+ t).
Proof.
  intros Hs. unfold windowsReservedNames. rewrite pm_spec. split.
  - intros (p' & s' & Hm & He%String.eqb_eq). subst s'. inversion Hm as [| |r1 r2 p1 s1 p2 s2 p3 s3 Hd Ho| | | | |]; subst.
    destruct (Match_word _ _ _ _ _ _ Hd devices_spell) as (d & -> & Hl & Hf & Ht).
    exists d. split; [by split_and!|].
    inversion Ho as [| | |r1 r2 p1 s1 p4 s4 Hdot|r1 r2 p1 s1 p4 s4 He| | |]; subst.
    + right. inversion Hdot as [| |r1 r2 p1 s1 p4 s4 p5 s5 Hc Hr| | | | |]; subst.
      inversion Hc as [|c p1 a s6 Ha| | | | | |]; subst. apply Ascii.eqb_eq in Ha as <-. by exists s4.
    + left. inversion He; subst. apply str_app_nil_r.
  - intros (d & (_ & _ & Hd) & [->|[t ->]]).
    + destruct (Hd None "") as [q Hq]. rewrite str_app_nil_r in Hq. exists q, "". split; [|done].
      eapply M_seq; [exact Hq|]. apply M_alt_r, M_eps.
    + destruct (Hd None ("." +:+ t)) as [q Hq].
      assert (forall p, exists p', Match (PStar dot) p t p' "") as Hdots.
      { rewrite !string_forallb_app in Hs. apply andb_true_iff in Hs as [_ [_ Hs]%andb_true_iff].
        clear -Hs. induction t as [|a t IH]; intros p; [eexists; apply M_star_nil|]. cbn in Hs.
        apply andb_true_iff in Hs as [Ha Ht]. destruct (IH Ht (Some a)) as [p' Hp']. exists p'.
        eapply M_star_more; [|exact Hp']. apply M_chr. apply negb_true_iff, Ascii.eqb_neq. by intros ->. }
      destruct (Hdots (Some "."%char)) as [p' Hp']. exists p', "". split; [|done].
      eapply M_seq; [exact Hq|]. apply M_alt_l. eapply M_seq; [|exact Hp']. by apply M_chr.
Qed.

Lemma word_prefix d u d2 t : every (fun a => a <> "."%char) d -> every (fun a => a <> "."%char) d2 ->
  (u = "" \/ exists u', u = "." +:+ u') -> (t = "" \/ exists t', t = "." +:+ t') -> d +:+ u = d2 +:+ t -> d = d2.
Proof.
  revert d2. induction d as [|a d IH]; intros [|b d2]; cbn; [done| | |];
    rewrite ?string_app_cons, ?string_app_nil; intros H1 H2 Hu Ht He.
  - destruct Hu as [->|[u' ->]]; [done|]. rewrite string_app_cons in He. simplify_eq. by destruct H2.
  - destruct Ht as [->|[t' ->]]; [done|]. rewrite string_app_cons in He. simplify_eq. by destruct H1.
  - injection He as -> He. f_equal. apply (IH d2); [by destruct H1|by destruct H2|done|done|done].
Qed.

(** Nothing becomes reserved by cutting a name short or by an extension. *)
Lemma reserved_cut n s : (4 < n)%nat -> string_forallb name_char s = true ->
  windowsReservedNames (first_chars n s) = true -> windowsReservedNames s = true.
Proof.
  intros Hn Hs. unfold first_chars. destruct (Nat.ltb_spec n (String.length s)) as [Hlt|]; [|done].
  intros (d & Hd & Hc)%reserved_spec; [|by apply forallb_substring]. apply reserved_spec; [done|].
  exists d. split; [done|]. right. pose proof (take_drop_str n s ltac:(lia)) as Hs'.
  destruct Hc as [Hc|[t Hc]]; rewrite Hc in Hs'.
  - destruct Hd as [Hl _]. rewrite <- Hc in Hl.
    assert (String.length (String.substring 0 n s) = n); [|lia].
    clear -Hlt. revert n Hlt. induction s as [|a s IH]; intros n Hn; [cbn in Hn; lia|].
    destruct n; [done|]. cbn in *. f_equal. apply IH. lia.
  - rewrite !str_app_assoc in Hs'. eexists. symmetry. exact Hs'.
Qed.

Lemma reserved_ext b e : string_forallb name_char b = true -> string_forallb name_char e = true ->
  e = "" \/ (exists e', e = "." +:+ e') -> windowsReservedNames (b +:+ e) = true -> windowsReservedNames b = true.
Proof.
  intros Hb He Hdot (d & Hd & Hc)%reserved_spec; [|by rewrite string_forallb_app, Hb, He].
  apply reserved_spec; [done|]. exists d. split; [done|].
  assert (exists b1 u, b = b1 +:+ u /\ every (fun a => a <> "."%char) b1 /\ (u = "" \/ exists u', u = "." +:+ u')) as (b1 & u & -> & Hb1 & Hu).
  { clear. induction b as [|a b (b1 & u & -> & Hb1 & Hu)]; [exists "", ""; split_and!; [done|done|by left]|].
    destruct (decide (a = "."%char)) as [->|Ha]; [exists "", ("." +:+ b1 +:+ u); split_and!; [done|done|right; by eexists]|].
    exists (String a b1), u. split_and!; [done|done|done]. }
  assert (b1 = d) as ->.
  { rewrite str_app_assoc in Hc. destruct Hd as (_ & Hd & _).
    assert ((u +:+ e) = "" \/ exists u', (u +:+ e) = "." +:+ u') as Hue.
    { destruct Hu as [->|[u' ->]]; [destruct Hdot as [->|[e' ->]]; [by left|right; by eexists]|].
      right. rewrite str_app_assoc. by eexists. }
    destruct Hc as [Hc|[t Hc]]; [|eapply (word_prefix _ _ _ ("." +:+ t)); eauto].
    apply (word_prefix _ _ _ "" Hb1 Hd Hue); [by left|]. by rewrite str_app_nil_r. }
  destruct Hu as [->|[u' ->]]; [left; by rewrite str_app_nil_r|right; by eexists].
Qed.

Lemma safe_base_unreserved b : string_forallb name_char b = true -> windowsReservedNames (safe_base b) = false.
Proof.
  intros Hb. unfold safe_base. set (b1 := if String.eqb b "" then _ else _).
  assert (string_forallb name_char b1 = true) as H1 by (unfold b1; by destruct (String.eqb b "")).
  apply not_true_iff_false. intros Hr. change (if (100 <? _)%nat then _ else ?x) with (first_chars 100 x) in Hr.
  destruct (windowsReservedNames b1) eqn:Hb1.
  - apply reserved_cut in Hr; [by rewrite string_app_cons in Hr|lia|]. by rewrite string_forallb_app, H1.
  - apply reserved_cut in Hr; [congruence|lia|done].
Qed.

Lemma sanitized_unreserved f : windowsReservedNames (SanitizeFilename f) = false.
Proof.
  destruct (sanitized_form f) as [->|(b & e & ->)]; [reflexivity|].
  apply not_true_iff_false. intros Hr. apply reserved_ext in Hr; [| |apply clean_ext_chars|apply clean_ext_dot].
  - rewrite safe_base_unreserved in Hr; [done|apply clean_base_chars].
  - apply plain_chars, safe_base_plain, clean_base_plain.
Qed.

(** ** Paths *)

Abbreviation simple e := (simple_name e = true).

Lemma simple_spec e : simple e <-> no_slash e = true /\ e <> "" /\ e <> "." /\ e <> "..".
Proof. unfold simple_name. rewrite !andb_true_iff, !negb_true_iff, !String.eqb_neq. tauto. Qed.

Lemma clean_simple rooted st es : Forall (fun e => simple e) es -> foldl (clean_step rooted) st es = rev es ++ st.
Proof.
  intros Hes. revert st. induction Hes as [|e es He _ IH]; intros st; [done|]. cbn [foldl rev].
  rewrite IH, <- app_assoc. f_equal. apply simple_spec in He as (_ & H1 & H2 & H3). unfold clean_step.
  apply String.eqb_neq in H1, H2, H3. by rewrite H1, H2, H3.
Qed.

Lemma split_no_slashes s : Forall (fun e => no_slash e = true) (split_on slash s).
Proof.
  induction s as [|a s IH]; [by repeat constructor|]. cbn [split_on].
  destruct (Ascii.eqb a slash) eqn:Ha; [by constructor|].
  destruct (split_on slash s); [by repeat constructor; cbn; rewrite Ha|].
  apply Forall_cons in IH as [Hw IH]. constructor; [|done]. unfold no_slash, without in *. cbn. by rewrite Ha.
Qed.

Lemma rooted_stack st es : Forall (fun e => simple e) st -> Forall (fun e => no_slash e = true) es ->
  Forall (fun e => simple e) (foldl (clean_step true) st es).
Proof.
  intros Hst Hes. revert st Hst. induction Hes as [|e es He _ IH]; intros st Hst; [done|]. cbn [foldl]. apply IH.
  unfold clean_step. destruct (String.eqb_spec e ""), (String.eqb_spec e "."); cbn; try done.
  destruct (String.eqb_spec e ".."); [|by constructor; [apply simple_spec|]].
  destruct Hst as [|t st Ht Hst]; [done|]. destruct (String.eqb_spec t ".."); [|done]. subst. by vm_compute in Ht.
Qed.

Lemma split_join es : es <> [] -> Forall (fun e => no_slash e = true) es -> split_on slash (join_with "/" es) = es.
Proof.
  intros Hne Hes. induction Hes as [|e es He Hes IH]; [done|]. destruct es as [|e2 es]; [by apply split_no_slash|].
  change (join_with "/" (e :: e2 :: es)) with (e +:+ String slash (join_with "/" (e2 :: es))).
  rewrite split_app, split_no_slash, IH by done. done.
Qed.

Lemma path_elems_app s t : path_elems (s +:+ String slash t) = path_elems s ++ path_elems t.
Proof. unfold path_elems. by rewrite split_app, List.filter_app. Qed.

Lemma simples_no_slash es : Forall (fun e => simple e) es -> Forall (fun e => no_slash e = true) es.
Proof. intros Hes. eapply Forall_impl; [exact Hes|]. by intros e (? & _)%simple_spec. Qed.

Lemma filter_simple es : Forall (fun e => simple e) es -> List.filter (fun e => negb (String.eqb e "")) es = es.
Proof.
  induction 1 as [|e es He _ IH]; [done|]. cbn. apply simple_spec in He as (_ & H1 & _).
  apply String.eqb_neq in H1. by rewrite H1, IH.
Qed.

Lemma path_elems_join es : Forall (fun e => simple e) es -> path_elems (join_with "/" es) = es.
Proof.
  intros Hes. destruct es as [|e es]; [done|]. unfold path_elems.
  rewrite split_join; [by apply filter_simple|done|by apply simples_no_slash].
Qed.

Lemma path_elems_dir es : Forall (fun e => simple e) es -> path_elems (dir_path es) = es.
Proof. intros Hes. unfold dir_path. change ("/" +:+ ?x) with ("" +:+ String slash x). by rewrite path_elems_app, path_elems_join. Qed.

Lemma dir_path_inj a b : Forall (fun e => simple e) a -> Forall (fun e => simple e) b -> dir_path a = dir_path b -> a = b.
Proof. intros Ha Hb He%(f_equal path_elems). by rewrite !path_elems_dir in He. Qed.

(** Empty elements change nothing. *)
Lemma clean_filter rooted st es :
  foldl (clean_step rooted) st (List.filter (fun e => negb (String.eqb e "")) es) = foldl (clean_step rooted) st es.
Proof.
  revert st. induction es as [|e es IH]; intros st; [done|]. cbn. destruct (String.eqb e "") eqn:He; cbn; [|by rewrite IH].
  rewrite IH. f_equal. unfold clean_step. by rewrite He.
Qed.

Definition stack_of (es : list string) : list string := rev (foldl (clean_step true) [] es).

Lemma Clean_rooted p : HasPrefix p "/" = true -> Clean p = dir_path (stack_of (path_elems p)).
Proof. intros Hp. unfold Clean. rewrite Hp. unfold clean_elems, stack_of, path_elems. by rewrite clean_filter. Qed.

Lemma stack_simple p : Forall (fun e => simple e) (stack_of (path_elems p)).
Proof.
  unfold stack_of. apply Forall_rev. unfold path_elems. rewrite clean_filter.
  apply rooted_stack; [constructor|apply split_no_slashes].
Qed.

Lemma stack_of_simple es : Forall (fun e => simple e) es -> stack_of es = es.
Proof. intros Hes. unfold stack_of. rewrite clean_simple, app_nil_r by done. apply rev_involutive. Qed.

Lemma dir_path_rooted es : HasPrefix (dir_path es) "/" = true.
Proof. apply HasPrefix_app. Qed.

Lemma Clean_dir es : Forall (fun e => simple e) es -> Clean (dir_path es) = dir_path es.
Proof. intros Hes. rewrite Clean_rooted by apply dir_path_rooted. by rewrite path_elems_dir, stack_of_simple. Qed.

Lemma Clean_Join_rooted root sub ck : HasPrefix root "/" = true ->
  Clean (Join [root; sub; ck]) = dir_path (stack_of (path_elems root ++ path_elems sub ++ path_elems ck)).
Proof.
  intros Hr. destruct root as [|a root]; [done|]. unfold Join. cbn [List.filter].
  change (String.eqb (String a root) "") with false. cbn [negb].
  assert (forall q, HasPrefix q "/" = true -> Clean (Clean q) = dir_path (stack_of (path_elems q))) as Hq.
  { intros q Hq. rewrite (Clean_rooted q Hq). apply Clean_dir, stack_simple. }
  assert (forall t, HasPrefix (String a root +:+ t) "/" = true) as Ht by (intros t; by rewrite prefix_slash_app).
  destruct (String.eqb_spec sub "") as [->|], (String.eqb_spec ck "") as [->|]; cbn [negb List.filter].
  - change (join_with "/" [?x]) with x. by rewrite Hq, !app_nil_r.
  - change (join_with "/" [?x; ?y]) with (x +:+ String slash y). by rewrite Hq, path_elems_app.
  - change (join_with "/" [?x; ?y]) with (x +:+ String slash y). by rewrite Hq, path_elems_app, !app_nil_r.
  - change (join_with "/" [?x; ?y; ?z]) with (x +:+ String slash (y +:+ String slash z)).
    by rewrite Hq, !path_elems_app.
Qed.

(** ** Where a key leads *)

(** The elements of a key, of which [Clean] makes the rest. *)
Definition leads (key : string) (K : list string) : Prop :=
  Forall (fun e => simple e) K /\
  (K <> [] /\ cleanKey key = join_with "/" K \/ K = [] /\ (cleanKey key = "" \/ cleanKey key = ".")).

Lemma trim_slash_join K : Forall (fun e => simple e) K -> trim_left_of "/" (join_with "/" K) = join_with "/" K.
Proof.
  destruct 1 as [|e K He _]; [done|]. apply simple_spec in He as (Hs & He & _). destruct e as [|a e]; [done|].
  assert (exists t, join_with "/" (String a e :: K) = String a t) as [t ->] by (destruct K; by eexists).
  cbn [trim_left_of]. unfold no_slash, without in Hs. cbn in Hs. apply andb_true_iff in Hs as [Ha _].
  apply negb_true_iff in Ha. change (char_in "/" a) with (Ascii.eqb a slash || false). by rewrite Ha.
Qed.

(** Without a leading slash, the elements that leave stay in front. *)
Lemma free_stack es : Forall (fun e => no_slash e = true) es ->
  exists n K, clean_elems false es = replicate n ".." ++ K /\ Forall (fun e => simple e) K.
Proof.
  intros Hes. unfold clean_elems.
  cut (forall st m J, st = J ++ replicate m ".." -> Forall (fun e => simple e) J ->
         exists n K, foldl (clean_step false) st es = K ++ replicate n ".." /\ Forall (fun e => simple e) K).
  { intros Hc. destruct (Hc [] 0%nat [] eq_refl ltac:(constructor)) as (n & K & HK & Hs). exists n, (rev K). rewrite HK.
    split; [|by apply Forall_rev]. rewrite rev_app_distr. f_equal. clear. induction n as [|n IH]; [done|]. cbn.
    rewrite IH. clear. induction n as [|n IH]; [done|]. cbn. by rewrite IH. }
  induction Hes as [|e es He _ IH]; intros st m J -> HJ; [by exists m, J|]. cbn [foldl].
  unfold clean_step at 2. destruct (String.eqb_spec e ""), (String.eqb_spec e "."); cbn [orb]; try by eapply IH.
  destruct (String.eqb_spec e "..") as [->|]; [|eapply (IH _ m (e :: J)); [done|by constructor; [apply simple_spec|]]].
  destruct HJ as [|t J Ht HJ]; cbn [app].
  - destruct m as [|m]; [by eapply (IH _ 1%nat [])|by eapply (IH _ (S (S m)) [])].
  - destruct (String.eqb_spec t ".."); [subst; by vm_compute in Ht|by eapply IH].
Qed.

Lemma join_dots n K : HasPrefix (join_with "/" (replicate (S n) ".." ++ K)) ".." = true.
Proof. cbn [replicate app]. destruct (replicate n ".." ++ K); [done|]. apply (HasPrefix_app ".."). Qed.

Lemma key_leads key : HasPrefix (cleanKey key) ".." = false -> exists K, leads key K.
Proof.
  intros Hp. unfold leads, cleanKey in *. destruct (HasPrefix key "/") eqn:Hr.
  - rewrite Clean_rooted in Hp |- * by done. pose proof (stack_simple key) as Hs. exists (stack_of (path_elems key)).
    split; [done|]. change (trim_left_of "/" (dir_path ?x)) with (trim_left_of "/" (join_with "/" x)).
    rewrite trim_slash_join by done. destruct (stack_of _); [right; split; [done|by left]|by left].
  - unfold Clean in *. rewrite Hr in *. destruct (free_stack _ (split_no_slashes key)) as (n & K & HK & Hs). rewrite HK in *.
    destruct n as [|n].
    + exists K. split; [done|]. cbn [replicate app] in *. destruct (String.eqb_spec (join_with "/" K) "") as [He|He].
      * right. split; [|by right]. destruct K as [|e K]; [done|]. apply Forall_cons in Hs as [Hs _].
        apply simple_spec in Hs as (_ & Hs & _). destruct e; [done|]. by destruct K.
      * left. rewrite trim_slash_join by done. split; [|done]. by intros ->.
    + exfalso. pose proof (join_dots n K) as Hd. destruct (String.eqb_spec (join_with "/" (replicate (S n) ".." ++ K)) "") as [He|_];
        [by rewrite He in Hd|].
      apply HasPrefix_inv in Hd as [r Hd]. rewrite Hd in Hp. change (trim_left_of "/" (".." +:+ r)) with (".." +:+ r) in Hp.
      by rewrite HasPrefix_app in Hp.
Qed.

Lemma leads_elems key K : leads key K -> forall st, foldl (clean_step true) st (path_elems (cleanKey key)) = rev K ++ st.
Proof.
  intros [Hs [[_ ->]|[-> [-> | ->]]]] st; [|done|done]. rewrite path_elems_join by done. by apply clean_simple.
Qed.

Lemma last_indep {A} (l : list A) d d' : l <> [] -> List.last l d = List.last l d'.
Proof. induction l as [|x [|y l] IH]; [done|done|]. intros _. by apply IH. Qed.

Lemma leads_base key K : leads key K -> K <> [] -> Base (cleanKey key) = List.last K "".
Proof.
  intros [Hs [[_ ->]|[-> _]]] Hne; [|done]. unfold Base. destruct (String.eqb_spec (join_with "/" K) "") as [He|_].
  - pose proof (path_elems_join K Hs) as Hj. rewrite He in Hj. by subst.
  - change (List.filter _ _) with (path_elems (join_with "/" K)). rewrite path_elems_join by done. by destruct K.
Qed.

(** A configuration as [NewLocalStorageWithConfig] makes it. *)
Definition rooted (cfg : LocalConfig) (R : list string) : Prop := RootDir cfg = dir_path R /\ Forall (fun e => simple e) R.

(** The directory of the shards, which may have left the root. *)
Definition shard_dir (cfg : LocalConfig) (R : list string) (base : string) : list string :=
  rev (foldl (clean_step true) (rev R) (path_elems (subDirs (ShardDepth cfg) base))).

Lemma strip_common_nil b t t' : strip_common b t = ([], t') -> t = b ++ t'.
Proof.
  revert t. induction b as [|x b IH]; intros t; cbn; [by destruct t; intros [= <-]|].
  destruct t as [|y t]; [done|]. destruct (String.eqb_spec x y) as [<-|]; [|done]. intros H. cbn. by rewrite (IH _ H).
Qed.

Lemma Rel_inside R P : Forall (fun e => simple e) R -> Forall (fun e => simple e) P ->
  HasPrefix (Rel (dir_path R) (dir_path P)) ".." = false -> exists es, P = R ++ es.
Proof.
  intros HR HP. unfold Rel. rewrite !Clean_dir, !path_elems_dir by done.
  destruct (String.eqb_spec (dir_path P) (dir_path R)) as [He%dir_path_inj|_]; [|done|done|].
  { exists []. by rewrite app_nil_r. }
  destruct (strip_common R P) as [b t] eqn:Hc. destruct b as [|x b]; [intros _; exists t; by apply strip_common_nil|].
  cbn [length]. by rewrite join_dots.
Qed.

Lemma path_elems_no_slash p : Forall (fun e => no_slash e = true) (path_elems p).
Proof.
  apply List.Forall_forall. intros e [He _]%List.filter_In. revert e He. apply List.Forall_forall, split_no_slashes.
Qed.

Lemma resolve_inv cfg R key p : rooted cfg R -> resolvePath cfg key = Ok p ->
  exists K es, leads key K /\ p = dir_path (R ++ es) /\ Forall (fun e => simple e) (R ++ es) /\
    R ++ es = shard_dir cfg R (Base (cleanKey key)) ++ K.
Proof.
  intros [Hroot HR] Hp. unfold resolvePath in Hp. destruct (HasPrefix (cleanKey key) "..") eqn:Hk; [done|].
  destruct (str_contains _ _); [done|]. cbn [orb] in Hp.
  rewrite Clean_Join_rooted in Hp by (rewrite Hroot; apply dir_path_rooted).
  destruct (key_leads key Hk) as [K HK].
  assert (stack_of (path_elems (RootDir cfg) ++ path_elems (subDirs (ShardDepth cfg) (Base (cleanKey key))) ++ path_elems (cleanKey key))
          = shard_dir cfg R (Base (cleanKey key)) ++ K) as HS.
  { unfold stack_of, shard_dir. rewrite !foldl_app, Hroot, path_elems_dir, (clean_simple true [] R), app_nil_r by done.
    rewrite (leads_elems key K HK), rev_app_distr, rev_involutive. done. }
  rewrite HS in Hp.
  assert (Forall (fun e => simple e) (shard_dir cfg R (Base (cleanKey key)) ++ K)) as HP.
  { apply Forall_app. split; [apply Forall_rev, rooted_stack; [by apply Forall_rev|apply path_elems_no_slash]|].
    by destruct HK. }
  destruct (HasPrefix (Rel _ _) "..") eqn:Hrel; [done|]. injection Hp as <-.
  rewrite Hroot in Hrel. destruct (Rel_inside _ _ HR HP Hrel) as [es Hes]. exists K, es. rewrite <- Hes. by split_and!.
Qed.

Lemma new_is_rooted fl cwd d cfg0 d' cfg :
  NewLocalStorageWithConfig fl cwd d cfg0 = (d', Ok cfg) -> (forall w, cwd = Some w -> IsAbs w = true) ->
  rooted cfg (path_elems (RootDir cfg)).
Proof.
  unfold NewLocalStorageWithConfig. destruct (String.eqb (RootDir cfg0) ""); [done|].
  destruct (if IsAbs _ then _ else _) as [wd|] eqn:Hwd; [|done]. destruct (MkdirAll _ _ _) as [d1 []]; [|done].
  intros [= <- <-] Hcwd. cbn [RootDir].
  assert (exists q, HasPrefix q "/" = true /\ Abs wd (Clean (RootDir cfg0)) = Clean q) as (q & Hq & ->).
  { unfold Abs. destruct (IsAbs (Clean (RootDir cfg0))) eqn:Ha; [by eexists|].
    specialize (Hcwd _ Hwd). unfold Join, IsAbs in *. destruct wd as [|a wd]; [done|]. cbn [List.filter].
    change (String.eqb (String a wd) "") with false. cbn [negb].
    destruct (negb (String.eqb (Clean (RootDir cfg0)) "")); eexists; (split; [|reflexivity]); [|done].
    change (join_with "/" [?x; ?y]) with (x +:+ String slash y). by rewrite prefix_slash_app. }
  rewrite Clean_rooted by done. pose proof (stack_simple q) as Hs. by rewrite path_elems_dir.
Qed.

(** A key that names something below the root. *)
Definition proper_key (key : string) : bool := negb (is_one_of [""; "."] (cleanKey key)).

Lemma proper_leads key K : leads key K -> proper_key key = true -> K <> [].
Proof. intros [_ [[? _]|[-> [He|He]]]] Hp; [done| |]; unfold proper_key in Hp; by rewrite He in Hp. Qed.

Lemma last_app_ne {A} (a b : list A) d : b <> [] -> List.last (a ++ b) d = List.last b d.
Proof.
  intros Hb. induction a as [|x a IH]; [done|]. cbn [app]. rewrite <- IH.
  destruct (a ++ b) eqn:He; [by apply app_eq_nil in He as [_ ->]|done].
Qed.

(** Files of different keys are different, as a file lies behind the shards of
    its own base name. *)
Lemma resolve_inj cfg R k1 k2 p : rooted cfg R -> proper_key k1 = true -> proper_key k2 = true ->
  resolvePath cfg k1 = Ok p -> resolvePath cfg k2 = Ok p -> cleanKey k1 = cleanKey k2.
Proof.
  intros HR H1 H2 (K1 & es1 & Hk1 & -> & Hs1 & He1)%(resolve_inv _ _ _ _ HR) (K2 & es2 & Hk2 & Hd & Hs2 & He2)%(resolve_inv _ _ _ _ HR).
  apply dir_path_inj in Hd; [|done|done]. rewrite He1, He2 in Hd.
  pose proof (proper_leads _ _ Hk1 H1) as Hn1. pose proof (proper_leads _ _ Hk2 H2) as Hn2.
  assert (Base (cleanKey k1) = Base (cleanKey k2)) as Hb.
  { rewrite (leads_base _ _ Hk1 Hn1), (leads_base _ _ Hk2 Hn2).
    rewrite <- (last_app_ne (shard_dir cfg R (Base (cleanKey k1))) K1 "" Hn1), Hd. by rewrite last_app_ne. }
  rewrite Hb in Hd. apply app_inv_head in Hd as ->.
  destruct Hk1 as [_ [[_ ->]|[? _]]]; [|done]. by destruct Hk2 as [_ [[_ ->]|[? _]]].
Qed.

Lemma resolve_last cfg R key p : rooted cfg R -> proper_key key = true -> resolvePath cfg key = Ok p ->
  List.last (path_elems p) "" = Base (cleanKey key).
Proof.
  intros HR Hp (K & es & Hk & -> & Hs & He)%(resolve_inv _ _ _ _ HR). rewrite path_elems_dir by done.
  pose proof (proper_leads _ _ Hk Hp) as Hn. by rewrite (leads_base _ _ Hk Hn), He, last_app_ne.
Qed.

(** C39: In a storage that was opened on a directory, a key leads to a path
    that is in clean form and lies at or below that directory, without any
    "..", and two proper keys lead to the same path only when cleaning makes
    them the same key. *)
Theorem paths_stay_inside_and_apart fl cwd d cfg0 d' cfg key p :
  NewLocalStorageWithConfig fl cwd d cfg0 = (d', Ok cfg) -> (forall w, cwd = Some w -> IsAbs w = true) ->
  resolvePath cfg key = Ok p ->
  (exists below, path_elems p = path_elems (RootDir cfg) ++ below /\ Forall (fun e => simple e) below) /\ Clean p = p /\
  (forall key', proper_key key = true -> proper_key key' = true -> resolvePath cfg key' = Ok p -> cleanKey key' = cleanKey key).
Proof.
  intros Hnew Hcwd Hp. pose proof (new_is_rooted _ _ _ _ _ _ Hnew Hcwd) as HR.
  destruct (resolve_inv _ _ _ _ HR Hp) as (K & es & Hk & -> & Hs & He). split_and!.
  - exists es. rewrite path_elems_dir by done. split; [done|]. by apply Forall_app in Hs as [_ Hs].
  - by apply Clean_dir.
  - intros key' H1 H2 Hp'. by eapply resolve_inj.
Qed.

Definition no_disk : disk := mkDisk ∅ ∅.

Lemma paths_stay_inside_and_apart_witness :
  exists cfg p, NewLocalStorageWithConfig (no_faults 0 []) (Some "/srv") no_disk (mkLocal "up" "" 2 0 0) =
    (mkDisk ∅ {["/srv/up"; "/srv"]}, Ok cfg) /\ resolvePath cfg "x/./abcd" = Ok p /\ p = "/srv/up/ab/cd/x/abcd" /\ Clean p = p.
Proof.
  pose (cfg := mkLocal "/srv/up" "" 2 384 448).
  assert (NewLocalStorageWithConfig (no_faults 0 []) (Some "/srv") no_disk (mkLocal "up" "" 2 0 0)
          = (mkDisk ∅ {["/srv/up"; "/srv"]}, Ok cfg)) as H1 by (vm_compute; reflexivity).
  assert (resolvePath cfg "x/./abcd" = Ok "/srv/up/ab/cd/x/abcd") as H2 by (vm_compute; reflexivity).
  exists cfg, "/srv/up/ab/cd/x/abcd". split; [exact H1|]. split; [exact H2|]. split; [reflexivity|].
  refine (proj1 (proj2 (paths_stay_inside_and_apart _ _ _ _ _ _ _ _ H1 _ H2))). by intros w [= <-].
Defined.

(** The comment says "strictly inside", but these lead to the root itself. *)
Example some_keys_are_the_root :
  let cfg := mkLocal "/srv/up" "" 2 384 448 in
  map (resolvePath cfg) [""; "."; "/"; "a/.."] = [Ok "/srv/up"; Ok "/srv/up"; Ok "/srv/up"; Ok "/srv/up"] /\
  forall now b, files (fst (local_delete_disk (no_faults now b) cfg (mkDisk ∅ {["/srv/up"; "/srv"]}) "")) = ∅ /\
                dirs (fst (local_delete_disk (no_faults now b) cfg (mkDisk ∅ {["/srv/up"; "/srv"]}) "")) = {["/srv"]}.
Proof. split; [by vm_compute|]. intros now b. split; by vm_compute. Qed.

(** ** What a storage promises

    The contents by key, what a handle reads, and the keys that a call on
    another key leaves alone. *)
Class StorageLaws (ST : Storage) := {
  contents : store -> string -> option bytes;
  reads : content -> option bytes;
  apart : call -> store -> string -> string -> Prop;
  save_stores c s key r opts s' rec : Save c s key r opts = (s', Ok rec) ->
    st_err r = None /\ contents s' key = Some (st_data r) /\ rec = new_record key opts (zlen (st_data r)) (call_time c);
  save_fails c s key r opts s' e : Save c s key r opts = (s', Err e) -> contents s' key = contents s key;
  save_frame c s key r opts key' : apart c s key key' -> contents (fst (Save c s key r opts)) key' = contents s key';
  open_reads c s key h rec : Open c s key = Ok (h, rec) -> reads h = contents s key;
  delete_removes c s key s' : Delete c s key = (s', Ok ()) -> contents s' key = None;
  delete_frame c s key key' : apart c s key key' -> contents (fst (Delete c s key)) key' = contents s key';
  exists_sees c s key b : Exists c s key = Ok b -> b = false -> contents s key = None
}.

#[export] Instance memory_laws : StorageLaws memory_storage.
Proof.
  refine (Build_StorageLaws memory_storage (fun s key => m_data s !! key) Some (fun _ _ key key' => key' <> key)
            _ _ _ _ _ _ _); cbn.
  - intros now s key r opts s' rec. unfold memory_save. destruct (st_err r); [done|]. intros [= <- <-]. cbn.
    by rewrite lookup_insert_eq.
  - intros now s key r opts s' e. unfold memory_save. by destruct (st_err r); [intros [= <- _]|].
  - intros now s key r opts key' Hne. unfold memory_save. destruct (st_err r); [done|]. cbn. by rewrite lookup_insert_ne.
  - intros _ s key h rec. unfold memory_open. destruct (m_data s !! key), (m_records s !! key); try done. by intros [= <- _].
  - intros _ s key s' [= <-]. cbn. apply lookup_delete_eq.
  - intros _ s key key' Hne. by apply lookup_delete_ne.
  - intros _ s key b [= <-] Hb%bool_decide_eq_false. by apply eq_None_not_Some.
Defined.

(** ** The storage on disk keeps the laws *)

Lemma longer_ne p t : t <> "" -> p +:+ t <> p.
Proof. intros Ht He%(f_equal String.length). rewrite length_str_app in He. destruct t; [done|]. cbn in He. lia. Qed.

Lemma meta_ne p : sidecar_path p <> p.
Proof. by apply longer_ne. Qed.
Lemma tmp_ne fl p : tmp_path fl p <> p.
Proof. by apply longer_ne. Qed.

Lemma make_dirs_files l d ps : files (fst (make_dirs l d ps)) = files d.
Proof.
  revert l d. induction ps as [|p ps IH]; intros l d; [done|]. cbn. destruct (is_file d p); [done|].
  destruct (dir_at d p); [apply IH|]. destruct l as [[|n]|]; [done| |]; by rewrite IH.
Qed.

Lemma Remove_files b d p q : q <> p -> files (fst (Remove b d p)) !! q = files d !! q.
Proof.
  intros Hne. unfold Remove. destruct b; [done|]. destruct (entry_at d p); [|by destruct (_ || _)|done|done].
  by apply lookup_delete_ne.
Qed.

Lemma Remove_gone b d p d' : Remove b d p = (d', true) -> files d' !! p = None.
Proof.
  unfold Remove. destruct b; [done|]. unfold entry_at. destruct (files d !! p) as [[x t]|] eqn:Hp.
  - intros [= <-]. apply lookup_delete_eq.
  - destruct (dir_at d p); [destruct (_ || _); [done|]; by intros [= <-]|]. destruct (existsb _ _); [done|]. by intros [= <-].
Qed.

Lemma write_tmp_files fl d tmp r q : q <> tmp -> files (fst (write_tmp fl d tmp r)) !! q = files d !! q.
Proof.
  intros Hne. unfold write_tmp. destruct (_ || _); [done|].
  destruct (f_write fl), (st_err r); cbn [fst]; try (rewrite Remove_files by done; by apply lookup_insert_ne).
  destruct (f_close fl); cbn [fst]; [rewrite Remove_files by done|]; by apply lookup_insert_ne.
Qed.

Lemma write_tmp_ok fl d tmp r d' n : write_tmp fl d tmp r = (d', Ok n) ->
  st_err r = None /\ n = zlen (st_data r) /\ files d' !! tmp = Some (st_data r, f_now fl).
Proof.
  unfold write_tmp. destruct (_ || _); [done|]. destruct (f_write fl), (st_err r); try done.
  destruct (f_close fl); [done|]. intros [= <- <-]. split_and!; [done|done|]. apply lookup_insert_eq.
Qed.

Lemma Rename_files d src dst d' f : Rename d src dst = Some d' -> files d !! src = Some f ->
  files d' !! dst = Some f /\ forall q, q <> src -> q <> dst -> files d' !! q = files d !! q.
Proof.
  unfold Rename. intros Hr Hf. rewrite Hf in Hr. destruct (can_create d dst); [|done]. injection Hr as <-. cbn.
  split; [apply lookup_insert_eq|]. intros q H1 H2. by rewrite lookup_insert_ne, lookup_delete_ne.
Qed.

Lemma writeMeta_files `{RecordCodec} fl cfg d key rec p q : resolvePath cfg key = Ok p -> q <> sidecar_path p ->
  files (writeMeta fl cfg d key rec) !! q = files d !! q.
Proof.
  intros Hp Hne. unfold writeMeta. rewrite Hp. destruct (marshal_record rec); [|done]. destruct (_ || _); [done|].
  by apply lookup_insert_ne.
Qed.

(** Saving touches the file, its temporary file and its sidecar only. *)
Lemma save_files `{RecordCodec} fl cfg d key r opts p q : resolvePath cfg key = Ok p ->
  q <> p -> q <> sidecar_path p -> q <> tmp_path fl p ->
  files (fst (local_save_disk fl cfg d key r opts)) !! q = files d !! q.
Proof.
  intros Hp H1 H2 H3. unfold local_save_disk. rewrite Hp.
  pose proof (make_dirs_files (f_dirs fl) d (ancestors (Dir p))) as Hd. unfold MkdirAll.
  destruct (make_dirs _ _ _) as [d1 []]; cbn in Hd; [|by cbn; rewrite Hd].
  pose proof (write_tmp_files fl d1 (tmp_path fl p) r q H3) as Hw.
  destruct (write_tmp _ _ _ _) as [d2 [n|e]] eqn:Ht; cbn in Hw; [|by cbn; rewrite Hw, Hd].
  destruct (write_tmp_ok _ _ _ _ _ _ Ht) as (_ & _ & Hf).
  destruct (if f_rename fl then _ else _) as [d3|] eqn:Hr; cbn [fst]; [|by rewrite Remove_files, Hw, Hd].
  destruct (f_rename fl); [done|]. rewrite (writeMeta_files _ _ _ _ _ _ _ Hp) by done.
  destruct (Rename_files _ _ _ _ _ Hr Hf) as [_ Hq]. by rewrite Hq, Hw, Hd.
Qed.

Lemma save_target `{RecordCodec} fl cfg d key r opts d' rec p : resolvePath cfg key = Ok p ->
  local_save_disk fl cfg d key r opts = (d', Ok rec) ->
  st_err r = None /\ files d' !! p = Some (st_data r, f_now fl) /\ rec = new_record key opts (zlen (st_data r)) (f_now fl).
Proof.
  intros Hp. unfold local_save_disk. rewrite Hp. destruct (MkdirAll _ _ _) as [d1 []]; [|done].
  destruct (write_tmp _ _ _ _) as [d2 [n|e]] eqn:Ht; [|done]. destruct (write_tmp_ok _ _ _ _ _ _ Ht) as (Hr & -> & Hf).
  destruct (if f_rename fl then _ else _) as [d3|] eqn:Hrn; [|done]. destruct (f_rename fl); [done|].
  intros [= <- <-]. split_and!; [done| |done]. pose proof (meta_ne p).
  rewrite (writeMeta_files _ _ _ _ _ _ _ Hp) by done. by destruct (Rename_files _ _ _ _ _ Hrn Hf).
Qed.

Lemma save_failed `{RecordCodec} fl cfg d key r opts d' e p : resolvePath cfg key = Ok p ->
  local_save_disk fl cfg d key r opts = (d', Err e) -> files d' !! p = files d !! p.
Proof.
  intros Hp. unfold local_save_disk. rewrite Hp.
  pose proof (make_dirs_files (f_dirs fl) d (ancestors (Dir p))) as Hd. unfold MkdirAll.
  destruct (make_dirs _ _ _) as [d1 []]; cbn in Hd; [|by intros [= <- _]; rewrite Hd].
  pose proof (write_tmp_files fl d1 (tmp_path fl p) r p (not_eq_sym (tmp_ne fl p))) as Hw.
  destruct (write_tmp _ _ _ _) as [d2 [n|e2]] eqn:Ht; cbn in Hw; [|by intros [= <- _]; rewrite Hw, Hd].
  destruct (if f_rename fl then _ else _) as [d3|]; [done|]. intros [= <- _].
  rewrite Remove_files by (pose proof (tmp_ne fl p); congruence). by rewrite Hw, Hd.
Qed.

Definition disk_contents (s : LocalStorage) (key : string) : option bytes :=
  match resolvePath (l_cfg s) key with Ok p => fst <$> files (l_disk s) !! p | Err _ => None end.

(** The paths that a call on a key may write. *)
Definition touched (fl : faults) (p : string) : list string := [p; sidecar_path p; tmp_path fl p].

Definition disk_apart (fl : faults) (s : LocalStorage) (key key' : string) : Prop :=
  forall p p', resolvePath (l_cfg s) key = Ok p -> resolvePath (l_cfg s) key' = Ok p' -> p' ∉ touched fl p.

Lemma untouched fl p q : q ∉ touched fl p -> q <> p /\ q <> sidecar_path p /\ q <> tmp_path fl p.
Proof. unfold touched. rewrite !not_elem_of_cons. tauto. Qed.

#[export] Instance local_laws `{RC : RecordCodec} dir_size : StorageLaws (local_storage dir_size).
Proof.
  refine (Build_StorageLaws (local_storage dir_size) disk_contents (fun h => h) disk_apart _ _ _ _ _ _ _); cbn;
    unfold disk_contents, disk_apart, on_local.
  - intros fl s key r opts s' rec. destruct (local_save_disk _ _ _ _ _ _) as [d' res] eqn:Hs. cbn. intros [= <- ->].
    destruct (resolvePath (l_cfg s) key) as [p|e] eqn:Hp; [|by unfold local_save_disk in Hs; rewrite Hp in Hs].
    destruct (save_target _ _ _ _ _ _ _ _ _ Hp Hs) as (H1 & H2 & H3). cbn. by rewrite Hp, H2.
  - intros fl s key r opts s' e. destruct (local_save_disk _ _ _ _ _ _) as [d' res] eqn:Hs. cbn. intros [= <- ->]. cbn.
    destruct (resolvePath (l_cfg s) key) as [p|] eqn:Hp; [|done]. by rewrite (save_failed _ _ _ _ _ _ _ _ _ Hp Hs).
  - intros fl s key r opts key' Ha. cbn [l_cfg l_disk]. destruct (resolvePath (l_cfg s) key') as [p'|] eqn:Hp'; [|done].
    destruct (resolvePath (l_cfg s) key) as [p|] eqn:Hp; [|by unfold local_save_disk; rewrite Hp].
    destruct (untouched _ _ _ (Ha p p' eq_refl eq_refl)) as (H1 & H2 & H3). by rewrite (save_files _ _ _ _ _ _ _ _ Hp H1 H2 H3).
  - intros fl s key h rec. unfold local_open_disk, entry_at. destruct (resolvePath _ _) as [p|]; [|done]. cbn.
    destruct (files (l_disk s) !! p) as [[b t]|]; cbn; [|destruct (dir_at _ _); cbn; [|by destruct (existsb _ _)]];
      (destruct (f_open fl); [done|]; cbn; destruct (local_stat_disk _ _ _ _ _); [|done]; by intros [= <- _]).
  - intros fl s key s'. unfold local_delete_disk. destruct (resolvePath _ _) as [p|] eqn:Hp; [|done].
    destruct (Remove (f_remove fl) _ p) as [d2 []] eqn:Hr; [|done]. intros [= <-]. cbn. by rewrite Hp, (Remove_gone _ _ _ _ Hr).
  - intros fl s key key' Ha. cbn [l_cfg l_disk]. destruct (resolvePath (l_cfg s) key') as [p'|] eqn:Hp'; [|done].
    unfold local_delete_disk. destruct (resolvePath (l_cfg s) key) as [p|] eqn:Hp; [|done].
    destruct (untouched _ _ _ (Ha p p' eq_refl eq_refl)) as (H1 & H2 & _).
    pose proof (eq_trans (Remove_files (f_remove fl) (fst (Remove (f_remove_meta fl) (l_disk s) (sidecar_path p))) p p' H1)
                  (Remove_files (f_remove_meta fl) (l_disk s) (sidecar_path p) p' H2)) as Hf.
    by destruct (Remove (f_remove fl) _ p) as [d2 []]; cbn in *; rewrite Hf.
  - intros fl s key b. unfold local_exists, entry_at. destruct (resolvePath _ _) as [p|]; [|done]. cbn.
    destruct (f_stat fl); [done|]. destruct (files (l_disk s) !! p) as [[x t]|]; [by intros [= <-]|done].
Defined.

(** ** Keys that never meet *)

Lemma split_ends p t : no_slash t = true -> exists es e, split_on slash p = es ++ [e] /\ split_on slash (p +:+ t) = es ++ [e +:+ t].
Proof.
  intros Ht. induction p as [|a p (es & e & H1 & H2)].
  - exists [], "". split; [done|]. by apply split_no_slash.
  - rewrite string_app_cons. cbn [split_on]. rewrite H1, H2. destruct (Ascii.eqb a slash); [by exists ("" :: es), e|].
    destruct es as [|x es]; cbn; [by exists [], (String a e)|by exists (String a x :: es), e].
Qed.

Lemma last_ends p t : no_slash t = true -> t <> "" -> exists e, List.last (path_elems (p +:+ t)) "" = e +:+ t.
Proof.
  intros Ht Hne. destruct (split_ends p t Ht) as (es & e & _ & Hs). unfold path_elems. rewrite Hs, List.filter_app. cbn.
  destruct (String.eqb_spec (e +:+ t) "") as [He|_]; [by destruct e, t|]. exists e. cbn. by rewrite last_app_ne.
Qed.

Lemma Dir_ends p t : no_slash t = true -> Dir (p +:+ t) = Dir p.
Proof. intros Ht. destruct (split_ends p t Ht) as (es & e & H1 & H2). unfold Dir. by rewrite H1, H2, !removelast_last. Qed.

(** A key whose base name is that of no sidecar and no temporary file. *)
Definition ordinary_key (key : string) : bool :=
  proper_key key && negb (HasSuffix (Base (cleanKey key)) ".meta.json") && negb (str_contains (Base (cleanKey key)) ".tmp.").

Lemma hex_without c b : hex_val c = None -> Forall is_byte b -> without c (EncodeToString b) = true.
Proof.
  intros Hc. assert (forall n, 0 <= n < 16 -> Ascii.eqb (hex_digit n) c = false) as Hd.
  { intros n Hn%hex_val_digit. apply Ascii.eqb_neq. intros He. rewrite He in Hn. congruence. }
  induction 1 as [|x b Hx _ IH]; [done|]. cbn [EncodeToString]. rewrite without_app, IH, andb_true_r.
  unfold is_byte in Hx. unfold hex_byte, without. cbn [string_forallb]. rewrite !Hd; [done| |];
    [pose proof (Z.mod_pos_bound x 16); lia|]. split; [apply Z.div_pos|apply Z.div_lt_upper_bound]; lia.
Qed.

Lemma str_contains_app e sub t : str_contains (e +:+ sub +:+ t) sub = true.
Proof.
  induction e as [|a e IH].
  - rewrite string_app_nil. destruct (sub +:+ t) eqn:He; cbn [str_contains]; rewrite <- ?He, ?HasPrefix_app; [|done].
    by destruct sub.
  - rewrite string_app_cons. cbn [str_contains]. by rewrite IH, orb_true_r.
Qed.

Lemma ordinary_untouched cfg R fl key key' p p' : rooted cfg R -> Forall is_byte (f_suffix fl) ->
  proper_key key = true -> ordinary_key key' = true -> cleanKey key' <> cleanKey key ->
  resolvePath cfg key = Ok p -> resolvePath cfg key' = Ok p' -> p' ∉ touched fl p.
Proof.
  intros HR Hb Hk Ho Hne Hp Hp'. unfold ordinary_key in Ho.
  apply andb_true_iff in Ho as [[Hk' Hm%negb_true_iff]%andb_true_iff Ht%negb_true_iff].
  rewrite <- (resolve_last _ _ _ _ HR Hk' Hp') in Hm, Ht.
  unfold touched. rewrite !not_elem_of_cons. split_and!; [| | |by apply not_elem_of_nil]; intros ->.
  - apply Hne. by eapply resolve_inj.
  - unfold sidecar_path in Hm. destruct (last_ends p ".meta.json" eq_refl ltac:(done)) as [e He]. rewrite He in Hm.
    by rewrite HasSuffix_app in Hm.
  - unfold tmp_path in Ht. destruct (last_ends p (".tmp." +:+ EncodeToString (f_suffix fl))) as [e He]; [|done|].
    + rewrite no_slash_app. by apply hex_without.
    + rewrite He in Ht. by rewrite str_contains_app in Ht.
Qed.

Lemma last_without c s : without c s = true -> last (bytes_of_string s) <> Some (byte_of_ascii c).
Proof.
  unfold without. induction s as [|a s IH]; [done|]. cbn [string_forallb]. intros [Ha Hs]%andb_true_iff. specialize (IH Hs).
  change (bytes_of_string (String a s)) with (byte_of_ascii a :: bytes_of_string s). destruct (bytes_of_string s) eqn:Hb; [|exact IH].
  cbn. intros [= He]. apply (f_equal ascii_of_byte) in He. rewrite !ascii_byte_id in He. subst.
  by rewrite Ascii.eqb_refl in Ha.
Qed.

(** A sidecar ends in a letter that is no hexadecimal digit. *)
Lemma meta_tmp_ne fl p q : Forall is_byte (f_suffix fl) -> sidecar_path p <> tmp_path fl q.
Proof.
  intros Hb. unfold sidecar_path, tmp_path. set (t := ".tmp." +:+ EncodeToString (f_suffix fl)).
  assert (without "n" t = true) as Ht by (unfold t; rewrite without_app; by apply hex_without).
  destruct (last (bytes_of_string t)) as [y|] eqn:Hy; [|by apply last_None in Hy].
  apply (suffix_ne _ _ _ _ (byte_of_ascii "n") y); [reflexivity|done|]. intros <-. by apply last_without in Ht.
Qed.

(** ** Saving and opening on disk *)

Lemma Rename_dirs d src dst d' : Rename d src dst = Some d' -> dirs d' = dirs d.
Proof. unfold Rename. destruct (files d !! src); [|done]. destruct (can_create d dst); [|done]. by intros [= <-]. Qed.

(** The temporary file and the sidecar lie in the directory of the file. *)
Lemma save_meta `{RecordCodec} fl cfg d key r opts d' rec p b : resolvePath cfg key = Ok p -> Forall is_byte (f_suffix fl) ->
  local_save_disk fl cfg d key r opts = (d', Ok rec) -> marshal_record rec = Some b ->
  f_create_meta fl = false -> f_meta fl = None -> dir_at d' (sidecar_path p) = false ->
  files d' !! sidecar_path p = Some (b, f_now fl).
Proof.
  intros Hp Hby Hs Hm Hc Hl Hd. unfold local_save_disk in Hs. rewrite Hp in Hs. destruct (MkdirAll _ _ _) as [d1 []]; [|done].
  unfold write_tmp in Hs. destruct (f_create fl || negb (can_create d1 (tmp_path fl p))) eqn:Hcan; [done|].
  apply orb_false_iff in Hcan as [_ Hcan%negb_false_iff]. unfold can_create, tmp_path in Hcan.
  rewrite Dir_ends in Hcan by (rewrite no_slash_app; by apply hex_without). apply andb_true_iff in Hcan as [Hdir _].
  destruct (f_write fl), (st_err r); try done. destruct (f_close fl); [done|].
  destruct (if f_rename fl then _ else _) as [d3|] eqn:Hr; [|done]. destruct (f_rename fl); [done|].
  apply Rename_dirs in Hr. injection Hs as <- <-.
  assert (dirs (writeMeta fl cfg d3 key (new_record key opts (zlen (st_data r)) (f_now fl))) = dirs d3) as Hdirs.
  { unfold writeMeta. rewrite Hp, Hm. by destruct (_ || _). }
  unfold dir_at in Hd. rewrite Hdirs in Hd. unfold writeMeta. rewrite Hp, Hm, Hc, Hl. unfold can_create.
  rewrite (Dir_ends p ".meta.json" eq_refl : Dir (sidecar_path p) = Dir p). unfold dir_at in Hdir |- *. rewrite Hr in Hd |- *. cbn [write_file dirs] in Hd |- *.
  rewrite Hdir, Hd. cbn. apply lookup_insert_eq.
Qed.

Lemma open_same `{RecordCodec} dir_size fl cfg d d' key p : resolvePath cfg key = Ok p ->
  files d' !! p = files d !! p -> files d' !! sidecar_path p = files d !! sidecar_path p -> is_Some (files d !! p) ->
  local_open_disk dir_size fl cfg d' key = local_open_disk dir_size fl cfg d key.
Proof.
  intros Hp H1 H2 [[x t] Hx]. unfold local_open_disk, local_stat_disk, entry_at. rewrite Hp. cbn. by rewrite H1, H2, Hx.
Qed.

Lemma ordinary_proper key : ordinary_key key = true -> proper_key key = true.
Proof. unfold ordinary_key. by destruct (proper_key key). Qed.

(** C40: After a file was saved on disk under a key and its sidecar written,
    opening the key gives its bytes and the record that saving returned; the
    record holds the size, the options and the time; and every file of
    another key, unless it has the name of a sidecar or a temporary file,
    opens as before. *)
Theorem saved_file_is_opened {RC : RecordCodec} dir_size fl0 cwd d0 cfg0 d1 cfg fl d key r opts d' rec p b fl' :
  NewLocalStorageWithConfig fl0 cwd d0 cfg0 = (d1, Ok cfg) -> (forall w, cwd = Some w -> IsAbs w = true) ->
  Forall is_byte (f_suffix fl) -> ordinary_key key = true -> resolvePath cfg key = Ok p ->
  local_save_disk fl cfg d key r opts = (d', Ok rec) ->
  marshal_record rec = Some b -> unmarshal_record b = Some rec ->
  f_create_meta fl = false -> f_meta fl = None -> dir_at d' (sidecar_path p) = false ->
  f_open fl' = false -> f_read_meta fl' = false ->
  local_open_disk dir_size fl' cfg d' key = Ok (Some (st_data r), rec) /\
  rec = new_record key opts (zlen (st_data r)) (f_now fl) /\
  forall key' p', ordinary_key key' = true -> cleanKey key' <> cleanKey key ->
    resolvePath cfg key' = Ok p' -> is_Some (files d !! p') ->
    local_open_disk dir_size fl' cfg d' key' = local_open_disk dir_size fl' cfg d key'.
Proof.
  intros Hnew Hcwd Hby Hk Hp Hs Hm Hu Hc Hl Hd Ho Hr. pose proof (new_is_rooted _ _ _ _ _ _ Hnew Hcwd) as HR.
  destruct (save_target _ _ _ _ _ _ _ _ _ Hp Hs) as (He & Hf & Hrec).
  pose proof (save_meta _ _ _ _ _ _ _ _ _ _ Hp Hby Hs Hm Hc Hl Hd) as Hmeta. split_and!; [|done|].
  - unfold local_open_disk, local_stat_disk, entry_at. rewrite Hp. cbn. by rewrite Hf, Ho, Hmeta, Hr, Hu.
  - intros key' p' Hk' Hne Hp' Hx. pose proof (ordinary_proper _ Hk) as Hpr. pose proof (ordinary_proper _ Hk') as Hpr'.
    destruct (untouched _ _ _ (ordinary_untouched _ _ _ _ _ _ _ HR Hby Hpr Hk' Hne Hp Hp')) as (H1 & H2 & H3).
    destruct (untouched _ _ _ (ordinary_untouched _ _ _ _ _ _ _ HR Hby Hpr' Hk (not_eq_sym Hne) Hp' Hp)) as (_ & H4 & _).
    apply (open_same _ _ _ _ _ _ _ Hp'); [| |done].
    + pose proof (save_files fl cfg d key r opts p p' Hp H1 H2 H3) as Hsame. by rewrite Hs in Hsame.
    + pose proof (save_files fl cfg d key r opts p (sidecar_path p') Hp (not_eq_sym H4)) as Hsame. rewrite Hs in Hsame.
      apply Hsame; [|by apply meta_tmp_ne]. by intros He2%str_app_inj_l.
Qed.

(** Records as texts behind their lengths, for the examples; metadata is left
    to the real codec. *)
Definition put_text (s : string) : bytes := let b := bytes_of_string s in zlen b :: b.
Definition get_text (b : bytes) : option (string * bytes) :=
  match b with n :: b' => Some (string_of_bytes (ztake n b'), zdrop n b') | [] => None end.

#[local] Instance toy_record_codec : RecordCodec := {|
  marshal_record r :=
    if bool_decide (r_Metadata r = [])
    then Some (r_Size r :: r_CreatedAt r :: concat (map put_text [r_Key r; r_OriginalName r; r_MIME r; r_Extension r; r_SHA256 r]))
    else None;
  unmarshal_record b :=
    match b with
    | size :: time :: b =>
        '(k, b) ← get_text b; '(o, b) ← get_text b; '(m, b) ← get_text b; '(e, b) ← get_text b; '(s, b) ← get_text b;
        if bool_decide (b = []) then Some (mkRecord k o size m e s [] time) else None
    | _ => None
    end
|}.

Definition plain_options : SaveOptions := mkSaveOptions "a.png" "image/png" ".png" "" [].
Definition sent (b : bytes) : reader := mkStream b None.

Lemma saved_file_is_opened_witness :
  let root := mkDisk ∅ {["/up"]} in
  let cfg := mkLocal "/up" "" 0 384 448 in
  let d' := fst (local_save_disk (no_faults 7 [171]) cfg root "k.png" (sent [1; 2; 3]) plain_options) in
  NewLocalStorage (no_faults 0 []) None no_disk "/up" = (root, Ok cfg) /\
  local_open_disk 4096 (no_faults 8 []) cfg d' "k.png" = Ok (Some [1; 2; 3], mkRecord "k.png" "a.png" 3 "image/png" ".png" "" [] 7).
Proof.
  intros root cfg d'. assert (NewLocalStorage (no_faults 0 []) None no_disk "/up" = (root, Ok cfg)) as H1 by (vm_compute; reflexivity).
  split; [exact H1|].
  refine (proj1 (saved_file_is_opened 4096 (no_faults 0 []) None no_disk (mkLocal "/up" "" 0 0 0) root cfg (no_faults 7 [171]) root
            "k.png" (sent [1; 2; 3]) plain_options d' (mkRecord "k.png" "a.png" 3 "image/png" ".png" "" [] 7) "/up/k.png"
            (match marshal_record (mkRecord "k.png" "a.png" 3 "image/png" ".png" "" [] 7) with Some b => b | None => [] end)
            (no_faults 8 []) H1 _ _ _ _ _ _ _ _ _ _ _ _));
    try (vm_compute; reflexivity); [by intros w|by repeat constructor].
Defined.

(** Errors of writing and removing a sidecar are ignored, and [Stat] prefers
    the sidecar: a file that was replaced keeps the old record, and one that
    was deleted keeps it too. *)
Example old_record_survives :
  let cfg := mkLocal "/up" "" 0 384 448 in
  let root := mkDisk ∅ {["/up"]} in
  let no_meta := mkFaults 9 [1] None false None false false false true false false false true None in
  let d1 := fst (local_save_disk (no_faults 7 [171]) cfg root "k.png" (sent [1; 2; 3]) plain_options) in
  let '(d2, saved) := local_save_disk no_meta cfg d1 "k.png" (sent [5]) plain_options in
  let '(d3, deleted) := local_delete_disk no_meta cfg d2 "k.png" in
  saved = Ok (mkRecord "k.png" "a.png" 1 "image/png" ".png" "" [] 9) /\
  local_open_disk 4096 (no_faults 8 []) cfg d2 "k.png" = Ok (Some [5], mkRecord "k.png" "a.png" 3 "image/png" ".png" "" [] 7) /\
  deleted = Ok () /\ local_exists (no_faults 8 []) cfg d3 "k.png" = Ok false /\
  local_stat_disk 4096 (no_faults 8 []) cfg d3 "k.png" = Ok (mkRecord "k.png" "a.png" 3 "image/png" ".png" "" [] 7).
Proof. vm_compute. by split_and!. Qed.

(** A key may have the name of another key's sidecar, and then replaces it. *)
Example sidecar_is_a_key :
  let cfg := mkLocal "/up" "" 2 384 448 in
  resolvePath cfg "abcd.meta.json" = Ok "/up/ab/cd/abcd.meta.json" /\
  sidecar_path <$> match resolvePath cfg "abcd" with Ok p => Some p | Err _ => None end = Some "/up/ab/cd/abcd.meta.json".
Proof. by vm_compute. Qed.

(** A shard that is ".." leads out of the root, and the key is refused. *)
Example dots_in_a_name_are_refused :
  SanitizeFilename "ab....cd.png" = "ab....cd.png" /\
  resolvePath (mkLocal "/up" "" 3 384 448) "ab....cd.png" = Err ErrPathTraversal.
Proof. by vm_compute. Qed.

(** ** What is accepted *)

Lemma vbind_accepted {A B} (m : decision A) (f : A -> decision B) b :
  vbind m f = Accepted b -> exists a, m = Accepted a /\ f a = Accepted b.
Proof. destruct m as [a|]; [|done]. intros H. by exists a. Qed.

Lemma unless_accepted bad c st m u : unless bad c st m = Accepted u -> bad = false.
Proof. by destruct bad. Qed.

(** Goes through the checks of an accepted result. *)
Ltac passed :=
  repeat match goal with
  | H : vbind _ _ = Accepted _ |- _ => apply vbind_accepted in H as (? & ? & H)
  | H : unless _ _ _ _ = Accepted _ |- _ => apply unless_accepted in H
  | H : Accepted _ = Accepted _ |- _ => injection H as H
  end.

Lemma bounded max size : (0 <? max) && (max <? size) = false -> 0 < max -> size <= max.
Proof. intros [H|H]%andb_false_iff Hm; [apply Z.ltb_ge in H|apply Z.ltb_ge in H]; lia. Qed.

Lemma bounded_below min size : (0 <? min) && (size <? min) = false -> 0 < min -> min <= size.
Proof. intros [H|H]%andb_false_iff Hm; [apply Z.ltb_ge in H|apply Z.ltb_ge in H]; lia. Qed.

Lemma listed {A} `{EqDecision A} (l : list A) b : negb (bool_decide (l = [])) && negb b = false -> l <> [] -> b = true.
Proof. intros [H%negb_false_iff%bool_decide_eq_true|H%negb_false_iff]%andb_false_iff Hl; done. Qed.

Section Checks.
Context {CP : CryptoPrims}.
Variables (Detect : bytes -> string) (Is : bytes -> string -> bool) (DecodeConfig : reader -> option (Z * Z)).

(** An image whose pixels can be counted. *)
Definition raster_image (mime : string) : Prop := HasPrefix mime "image/" = true /\ mime <> "image/svg+xml".

(** Bounds that are not positive are none. *)
Definition within (d : Dimensions) (w h : Z) : Prop :=
  (0 < MaxWidth d -> w <= MaxWidth d) /\ (0 < MaxHeight d -> h <= MaxHeight d) /\
  (0 < MinWidth d -> MinWidth d <= w) /\ (0 < MinHeight d -> MinHeight d <= h).

(** The checks that a file of a size and a name passed; what was sniffed is
    the beginning of the file. *)
Record checked (cfg : UploadConfig) (r : ReaderAt) (size : Z) (name : string) (v : ValidationResult) : Prop := mkChecked {
  ck_size : v_Size v = size;
  ck_max : 0 < MaxFileSize cfg -> size <= MaxFileSize cfg;
  ck_min : 0 < MinFileSize cfg -> MinFileSize cfg <= size;
  ck_mime : v_MIME v = Detect (inspected_part r size 4096);
  ck_mimes : AllowedMIMEs cfg <> [] ->
    exists a, a ∈ AllowedMIMEs cfg /\ (EqualFold a (v_MIME v) = true \/ Is (inspected_part r size 4096) a = true);
  ck_ext : v_Extension v = file_extension name;
  ck_exts : AllowedExtensions cfg <> [] -> exists a, a ∈ AllowedExtensions cfg /\ EqualFold a (v_Extension v) = true;
  ck_spoof : v_Extension v ∈ [".jpg"; ".jpeg"; ".png"; ".gif"; ".webp"] ->
    HasPrefix (v_MIME v) "application/x-" = false /\
    v_MIME v ∉ ["text/html"; "text/javascript"; "application/javascript"];
  ck_pixels w h : raster_image (v_MIME v) -> DecodeConfig (section r size) = Some (w, h) ->
    v_Width v = w /\ v_Height v = h /\ forall d, ImageDimensions cfg = Some d -> within d w h;
  ck_no_pixels : ~ raster_image (v_MIME v) \/ DecodeConfig (section r size) = None -> v_Width v = 0 /\ v_Height v = 0;
  ck_read : st_err (section r size) = None;
  ck_hash : v_SHA256 v = EncodeToString (sha256 (st_data (section r size)))
}.

Lemma raster_test mime : HasPrefix mime "image/" && negb (String.eqb mime "image/svg+xml") = true <-> raster_image mime.
Proof. unfold raster_image. rewrite andb_true_iff, negb_true_iff, String.eqb_neq. done. Qed.

Lemma dimensions_within d w h u : check_dimensions d w h = Accepted u -> within d w h.
Proof.
  unfold check_dimensions. intros H. apply vbind_accepted in H as (_ & H1%unless_accepted & H).
  apply vbind_accepted in H as (_ & H2%unless_accepted & H). apply vbind_accepted in H as (_ & H3%unless_accepted & H4%unless_accepted).
  unfold within. split_and!; intros; first [by apply bounded|by apply bounded_below].
Qed.

Lemma image_size_accepted cfg r size mime w h : image_size DecodeConfig cfg r size mime = Accepted (w, h) ->
  (forall w' h', raster_image mime -> DecodeConfig (section r size) = Some (w', h') ->
     w = w' /\ h = h' /\ forall d, ImageDimensions cfg = Some d -> within d w' h') /\
  (~ raster_image mime \/ DecodeConfig (section r size) = None -> w = 0 /\ h = 0).
Proof.
  unfold image_size. destruct (_ && _) eqn:Hr.
  - apply raster_test in Hr. destruct (DecodeConfig _) as [[w1 h1]|].
    + intros H. apply vbind_accepted in H as (u & Hc & H). injection H as <- <-. split; [|by intros [?|?]].
      intros w' h' _ [= <- <-]. do 2 (split; [done|]). intros d Hd. rewrite Hd in Hc. by eapply dimensions_within.
    + intros [= <- <-]. by split.
  - intros [= <- <-]. split; [|done]. intros w' h' Hm%raster_test. congruence.
Qed.

Lemma is_one_of_false l s : is_one_of l s = false -> s ∉ l.
Proof.
  unfold is_one_of. induction l as [|x l IH]; intros H; [apply not_elem_of_nil|].
  cbn in H. apply orb_false_iff in H as [Hx%String.eqb_neq H]. apply not_elem_of_cons. split; [done|by apply IH].
Qed.

Lemma consistent ext mime u : checkMIMEExtensionConsistency ext mime = Accepted u ->
  ext ∈ [".jpg"; ".jpeg"; ".png"; ".gif"; ".webp"] ->
  HasPrefix mime "application/x-" = false /\ mime ∉ ["text/html"; "text/javascript"; "application/javascript"].
Proof.
  unfold checkMIMEExtensionConsistency. intros H Hin.
  destruct (String.eqb_spec ext "") as [->|_]; [set_solver|].
  destruct (String.eqb_spec mime "") as [->|_]; [split; [done|set_solver]|].
  cbn [orb] in H. apply unless_accepted, andb_false_iff in H as [H|H].
  - unfold raster_exts in H. apply is_one_of_false in H. done.
  - apply orb_false_iff in H as [H1 H2]. split; [done|]. by apply is_one_of_false.
Qed.

Lemma validated cfg r size name v :
  ValidateReader Detect Is DecodeConfig cfg r size name = Accepted v -> checked cfg r size name v.
Proof.
  intros H. unfold ValidateReader, over_limit, too_small in H. apply vbind_accepted in H as (_ & H1%unless_accepted & H).
  apply vbind_accepted in H as (_ & H2%unless_accepted & H).
  destruct (read_at r (Z.min 4096 size) 0) as [got err] eqn:Hr. destruct (bool_decide _); [done|].
  assert (filled (Z.min 4096 size) got = inspected_part r size 4096) as Hi by (unfold inspected_part; by rewrite Hr).
  rewrite Hi in H. apply vbind_accepted in H as (_ & H3%unless_accepted & H).
  apply vbind_accepted in H as (_ & H4%unless_accepted & H). apply vbind_accepted in H as ([] & H5 & H).
  apply vbind_accepted in H as ([w h] & H6 & H). destruct (st_err (section r size)) eqn:He; [done|]. injection H as <-.
  destruct (image_size_accepted _ _ _ _ _ _ H6) as [Hd Hno].
  constructor; cbn; [done|by apply bounded|by apply bounded_below|done| |done| |by apply (consistent _ _ ())|done|done|done|done].
  - intros Hl. apply (listed _ _ H3) in Hl. apply existsb_exists in Hl as (a & Ha%list_elem_of_In & Hor).
    exists a. split; [done|]. by apply orb_true_iff in Hor.
  - intros Hl. apply (listed _ _ H4) in Hl. apply existsb_exists in Hl as (a & Ha%list_elem_of_In & Hx). by exists a.
Qed.

End Checks.

(** What the scanner of a manager said to a file that was accepted. *)
Definition scanner_agreed (cfg : UploadConfig) (scanner : option Scanner) (r : ReaderAt) (size : Z) (info : FileInfo) : Prop :=
  match scanner with
  | None => True
  | Some scan =>
      match scan r size info with
      | Ok (Some res) => Clean_ res = true
      | Ok None => True
      | Err _ => FailClosedScanner cfg = false
      end
  end.

Lemma scanned_agreed cfg scanner r size info u : scanned cfg scanner r size info = Accepted u -> scanner_agreed cfg scanner r size info.
Proof.
  unfold scanned, scanner_agreed. destruct scanner as [scan|]; [|done].
  destruct (scan r size info) as [[res|]|e]; [by destruct (Clean_ res)|done|by destruct (FailClosedScanner cfg)].
Qed.

(** C38: The manager over any storage that keeps its laws.  An upload that is
    accepted passed every check: its size is within the limits, its type and
    its extension are listed where there are lists, no picture extension
    covers a page, a script or a program, and an image that decodes has its
    dimensions told and within all four bounds.  Its scanner, if there is
    one, found it clean, or failed while the configuration lets the upload
    pass in that case.  Its bytes are what the storage holds under the
    generated key, and the answer tells their number, their hash and the
    sanitized name.  An upload that is
    rejected leaves the contents under that key as they were.  Either way the
    contents of keys apart from it do not change. *)
Theorem stored_upload_was_checked {CP : CryptoPrims} {ST : Storage} {SL : StorageLaws ST}
    Detect Is DecodeConfig cfg scanner oc s r size name :
  let key := storage_key cfg oc r size name in
  let data := st_data (section r size) in
  let '(s', v) := ProcessReader Detect Is DecodeConfig cfg scanner oc s r size name in
  match v with
  | Accepted p =>
      contents s' key = Some data /\ p_Key p = key /\ p_Size p = zlen data /\
      p_SHA256 p = EncodeToString (sha256 data) /\ p_OriginalName p = SanitizeFilename name /\
      exists res, checked Detect Is DecodeConfig cfg r size name res /\ p_MIME p = v_MIME res /\ p_Extension p = v_Extension res /\
        p_Width p = v_Width res /\ p_Height p = v_Height res /\
        scanner_agreed cfg scanner r size (mkFileInfo name size (p_MIME p) (p_Extension p) (p_SHA256 p))
  | Rejected _ _ _ => contents s' key = contents s key
  end /\
  forall key', apart (oc_call oc) s key key' -> contents s' key' = contents s key'.
Proof.
  cbv zeta. unfold ProcessReader. destruct (vbind _ _) as [res|] eqn:Hv; [|done].
  apply vbind_accepted in Hv as (res' & Hv & H). apply vbind_accepted in H as (u & Hscan & H). injection H as ->.
  pose proof (validated _ _ _ _ _ _ _ _ Hv) as Hc. apply scanned_agreed in Hscan.
  destruct (Save _ _ _ _ _) as [s' [rec|e]] eqn:Hs; (split; [|intros key' Ha; pose proof (save_frame _ _ _ (section r size) (save_options name res) _ Ha) as Hf; rewrite Hs in Hf; exact Hf]).
  - destruct (save_stores _ _ _ _ _ _ _ Hs) as (_ & Hd & ->). cbn. rewrite (ck_hash _ _ _ _ _ _ _ _ Hc) in *.
    split_and!; [done|done|done|done|done|]. by exists res.
  - by apply (save_fails _ _ _ _ _ _ _ Hs).
Qed.

(** A small image for the examples: the library calls it by its first bytes. *)
Definition toy_detect (b : bytes) : string := if starts b [137; 80] then "image/png" else "application/octet-stream".
Definition toy_is (b : bytes) (s : string) : bool := String.eqb (toy_detect b) s.
Definition toy_occasion : occasion (ST := memory_storage) := mkOccasion (fun n => replicate (Z.to_nat n) 171) 5 (9 : call (Storage := memory_storage)).

Lemma stored_upload_was_checked_witness :
  let r := mkReaderAt [137; 80; 78; 71] None in
  let out := ProcessReader (CP := ToyCrypto.toy_prims) (ST := memory_storage) toy_detect toy_is (fun _ => Some (3, 2)) DefaultConfig (Some noop_scan) toy_occasion
               NewMemoryStorage r 4 "../Cat.PNG" in
  (match snd out with Accepted p => p_OriginalName p = "Cat.png" /\ p_Key p = "abababab-abab-4bab-abab-abababababab.png" | _ => False end) /\
  contents (fst out) "abababab-abab-4bab-abab-abababababab.png" = Some [137; 80; 78; 71].
Proof.
  intros r out. split; [vm_compute; split; reflexivity|].
  pose proof (stored_upload_was_checked (CP := ToyCrypto.toy_prims) (ST := memory_storage) toy_detect toy_is (fun _ => Some (3, 2)) DefaultConfig (Some noop_scan)
                toy_occasion NewMemoryStorage r 4 "../Cat.PNG") as H. cbv zeta in H.
  assert (exists p, out = (fst out, Accepted p)) as [p Hp] by (eexists; vm_compute; reflexivity).
  change (ProcessReader _ _ _ _ _ _ _ _ _ _) with out in H. rewrite Hp in H. destruct H as [[H _] _].
  refine (eq_trans _ H). vm_compute. reflexivity.
Defined.

(** The same manager with a storage on disk, whose laws are the instance. *)
Example upload_on_disk :
  let st := local_storage 4096 in
  let s := mkLocalStorage (mkLocal "/up" "" 2 384 448) (mkDisk ∅ {["/up"]}) in
  let '(s', v) := ProcessReader (CP := ToyCrypto.toy_prims) (ST := st) toy_detect toy_is (fun _ => None) DefaultConfig None
                    (mkOccasion (ST := st) (fun n => replicate (Z.to_nat n) 171) 5 (no_faults 9 [1])) s (mkReaderAt [137; 80] None) 2 "a.png" in
  (match v with Accepted p => p_URL p = "/files/abababab-abab-4bab-abab-abababababab.png" | _ => False end) /\
  fst <$> files (l_disk s') !! "/up/ab/ab/abababab-abab-4bab-abab-abababababab.png" = Some [137; 80].
Proof. vm_compute. by split. Qed.

(** ** The stream to the daemon *)

(** How clamd reads a stream: lengths of four bytes with so many bytes behind
    each, up to a length of zero. *)
Fixpoint receive (fuel : nat) (w : bytes) : option bytes :=
  match fuel with
  | O => None
  | S fuel' =>
      let n := be_get (ztake 4 w) in
      let rest := zdrop 4 w in
      if zlen w <? 4 then None
      else if n =? 0 then if bool_decide (rest = []) then Some [] else None
      else if zlen rest <? n then None
      else (fun d => ztake n rest ++ d) <$> receive fuel' (zdrop n rest)
  end.

(** A connection on which every write succeeds. *)
Definition steady (conn : connection) : Prop := c_dials conn = true /\ c_writes conn = None /\ forall o, c_done conn o = false.

Lemma receive_chunk fuel b w : 0 < zlen b < 2 ^ 32 ->
  receive (S fuel) (be_put 4 (u32 (zlen b)) ++ b ++ w) = (fun d => b ++ d) <$> receive fuel w.
Proof.
  intros Hb. cbn [receive]. rewrite ztake_app_eq, zdrop_app_eq by (by rewrite zlen_be_put).
  rewrite be_get_put. unfold u32. change (256 ^ Z.of_nat 4) with (2 ^ 32). rewrite !Z.mod_small by (rewrite ?Z.mod_small; lia).
  rewrite !zlen_app, zlen_be_put, ztake_app_len, zdrop_app_len. pose proof (zlen_nonneg w).
  destruct (Z.ltb_spec (Z.of_nat 4 + (zlen b + zlen w)) 4); [lia|]. destruct (Z.eqb_spec (zlen b) 0); [lia|].
  destruct (Z.ltb_spec (zlen b + zlen w) (zlen b)); [lia|]. done.
Qed.

Lemma ReadAt_inside r n off : ra_fault r = None -> 0 <= n -> 0 <= off -> off + n <= zlen (ra_data r) ->
  read_at r n off = (ztake n (zdrop off (ra_data r)), None).
Proof.
  intros Hf Hn Ho Hle. unfold read_at, readable. rewrite Hf, zlen_ztake, zlen_zdrop.
  by rewrite (proj2 (Z.ltb_ge _ _)) by lia.
Qed.

Lemma ztake_split {A} n m (l : list A) : 0 <= n <= m -> ztake m l = ztake n l ++ ztake (m - n) (zdrop n l).
Proof. intros H. unfold ztake, zdrop. rewrite take_take_drop. f_equal. lia. Qed.

Lemma send_chunks_spec conn r chunk size rest f d : steady conn -> ra_fault r = None -> 0 < chunk < 2 ^ 32 ->
  size <= zlen (ra_data r) -> receive f rest = Some d ->
  forall fuel offset sent, 0 <= offset -> size - offset < Z.of_nat fuel ->
  exists w f', send_chunks fuel conn r chunk size offset sent = (sent ++ w, Ok ()) /\
    receive f' (concat w ++ rest) = Some (ztake (size - offset) (zdrop offset (ra_data r)) ++ d).
Proof.
  intros (_ & Hw & Hc) Hf Hch Hsize Hrest. induction fuel as [|fuel IH]; intros offset sent Ho Hfuel.
  { exists [], f. rewrite app_nil_r. split; [done|]. cbn. rewrite Hrest. unfold ztake.
    by replace (Z.to_nat (size - offset)) with 0%nat by lia. }
  cbn [send_chunks]. destruct (Z.ltb_spec offset size) as [Hlt|Hge]; cbn [negb].
  2:{ exists [], f. rewrite app_nil_r. split; [done|]. cbn. rewrite Hrest. unfold ztake.
      by replace (Z.to_nat (size - offset)) with 0%nat by lia. }
  rewrite Hc. set (n := Z.min chunk (size - offset)). rewrite ReadAt_inside by (done || lia). unfold writable. rewrite Hw.
  set (got := ztake n (zdrop offset (ra_data r))).
  assert (zlen got = n) as Hn by (unfold got; rewrite zlen_ztake, zlen_zdrop; lia).
  destruct (Z.ltb_spec 0 (zlen got)); [|lia]. cbn [negb andb]. rewrite Hn.
  destruct (IH (offset + n) (sent ++ [be_put 4 (u32 n); got]) ltac:(lia) ltac:(lia)) as (w & f' & Hs & Hr).
  exists (be_put 4 (u32 n) :: got :: w), (S f'). rewrite Hs, <- app_assoc. split; [done|].
  cbn [concat]. rewrite <- Hn at 1. rewrite <- !app_assoc, receive_chunk by lia. rewrite Hr. cbn. f_equal.
  rewrite app_assoc. f_equal. unfold got. rewrite (ztake_split n (size - offset)), zdrop_zdrop by lia.
  do 2 f_equal. lia.
Qed.

(** The daemon receives exactly the bytes that are stored, whatever the size
    of the chunks, and the answer alone decides the result. *)
Theorem daemon_receives_the_file c conn r size : steady conn -> ra_fault r = None -> 0 < ChunkSize c < 2 ^ 32 ->
  0 <= size <= zlen (ra_data r) ->
  exists w fuel, clam_session c conn r size = (instream :: w, let? resp := read_reply conn in parse_reply resp) /\
    receive fuel (concat w) = Some (st_data (section r size)).
Proof.
  intros Hc Hf Hch Hs. destruct (send_chunks_spec conn r (ChunkSize c) size (be_put 4 0) 1 [] Hc Hf Hch ltac:(lia) eq_refl
    (S (Z.to_nat size)) 0 [instream] ltac:(lia) ltac:(lia)) as (w & f & Hw & Hr).
  exists (w ++ [be_put 4 0]), f. destruct Hc as (Hd & Hall & _). unfold clam_session, writable. rewrite Hd, Hw, Hall. cbn [negb].
  split; [done|]. rewrite concat_app. cbn [concat]. rewrite app_nil_r, Hr. f_equal.
  unfold section. rewrite ReadAt_inside by (done || lia). cbn [st_data]. by rewrite app_nil_r, Z.sub_0_r.
Qed.

Lemma daemon_receives_the_file_witness :
  let conn := mkConn true None (fun _ => false) ("stream: OK", Some EOF) ("", None) in
  exists w fuel, clam_session (mkClam "tcp" "" 1 2) conn (mkReaderAt [1; 2; 3; 4; 5] None) 5 = (instream :: w, Ok (Some (mkScan true "" "ClamAV"))) /\
    receive fuel (concat w) = Some [1; 2; 3; 4; 5].
Proof.
  intros conn. apply (daemon_receives_the_file (mkClam "tcp" "" 1 2) conn (mkReaderAt [1; 2; 3; 4; 5] None) 5);
    [by split_and!|done|by split|by split].
Defined.

(** ** The inspections *)

Lemma not_found pats b : found pats b = false -> forall r, r ∈ pats -> ~ Occurs r None (string_of_bytes b).
Proof.
  intros Hf r Hr Ho%occurs_spec. unfold found in Hf. apply not_true_iff_false in Hf. apply Hf.
  apply existsb_exists. exists r. split; [by apply list_elem_of_In|done].
Qed.

Lemma zip_walk_clean c entries total n : zip_walk c entries total = inr n ->
  forall name size, (name, size) ∈ entries ->
    (BlockZipSlip c = true -> zip_slip name = false) /\ (DisallowOfficeMacros c = true -> office_macro name = false).
Proof.
  revert total. induction entries as [|[nm sz] es IH]; intros total Hw name size Hin; [by apply not_elem_of_nil in Hin|].
  cbn in Hw. destruct (BlockZipSlip c && zip_slip nm) eqn:H1; [done|]. destruct (DisallowOfficeMacros c && office_macro nm) eqn:H2; [done|].
  apply elem_of_cons in Hin as [[= -> ->]|Hin]; [|by eapply IH].
  split; intros H; [by rewrite H in H1|by rewrite H in H2].
Qed.

(** A file that the heuristic scanner calls clean holds none of the patterns
    in the part that is inspected, and starts like no program; an archive
    has no entry that climbs and no macros. *)
Theorem clean_files_were_inspected zip_entries c r size info res :
  heuristic_scan zip_entries c r size info = Ok (Some res) -> Clean_ res = true -> 0 < size ->
  let ext := ToLower (i_Extension info) in
  let mime := ToLower (i_MIME info) in
  (BlockExecutables c = true -> isAllowedExecutableType ext mime = false -> checkExecutableHeaders (inspected_part r size 4096) = "") /\
  (BlockWebShells c = true -> isScriptExtension ext = false ->
     forall p, p ∈ webShellPatterns -> ~ Occurs p None (string_of_bytes (inspected_part r size (64 * 1024)))) /\
  (BlockSVGScripts c = true -> svg_like ext mime = true ->
     forall p, p ∈ svgScriptPatterns -> ~ Occurs p None (string_of_bytes (inspected_part r size (512 * 1024)))) /\
  (is_zip ext mime = true -> forall entries, zip_entries r size = Some entries -> forall name n, (name, n) ∈ entries ->
     (BlockZipSlip c = true -> zip_slip name = false) /\ (DisallowOfficeMacros c = true -> office_macro name = false)).
Proof.
  intros Hs Hclean Hsize. cbv zeta. unfold heuristic_scan in Hs. destruct (Z.leb_spec size 0); [lia|].
  destruct (bool_decide _); [done|]. destruct (threat _ _ _ _ _ _) eqn:Ht; [injection Hs as <-; done|]. clear Hs Hclean.
  unfold threat in Ht. destruct (BlockExecutables c && _ && _) eqn:H1; [done|].
  destruct (BlockWebShells c && _ && _) eqn:H2; [done|]. destruct (BlockSVGScripts c && _ && _) eqn:H3; [done|]. split_and!.
  - intros Hb He. rewrite Hb, He in H1. cbn in H1. by apply negb_false_iff, String.eqb_eq in H1.
  - intros Hb He. rewrite Hb, He in H2. by apply not_found.
  - intros Hb He. rewrite Hb, He in H3. by apply not_found.
  - intros Hz entries He. rewrite Hz in Ht. unfold zip_threat in Ht. rewrite He in Ht.
    destruct (zip_walk c entries 0) eqn:Hw; [done|]. by eapply zip_walk_clean.
Qed.

Lemma clean_files_were_inspected_witness :
  let r := mkReaderAt (bytes_of_string "<svg></svg>") None in
  let info := mkFileInfo "a.svg" 11 "image/svg+xml" ".svg" "" in
  ~ Occurs (lit_ci "<!ENTITY") None (string_of_bytes (inspected_part r 11 (512 * 1024))).
Proof.
  intros r info.
  refine (proj1 (proj2 (proj2 (clean_files_were_inspected (fun _ _ => None) DefaultHeuristicConfig r 11 info (mkScan true "" "Heuristic") _ _ _))) _ _ _ _);
    [vm_compute; reflexivity|reflexivity|lia|reflexivity|vm_compute; reflexivity|].
  apply list_elem_of_In. cbn. tauto.
Defined.

(** The sizes of entries are added as 64-bit integers: two entries of 2^63
    bytes count as nothing. *)
Example sizes_of_entries_wrap :
  let bomb size := heuristic_scan (fun _ _ => Some [("a", size); ("b", size)]) DefaultHeuristicConfig
                     (mkReaderAt (replicate 2000 1) None) 2000 (mkFileInfo "a.zip" 2000 "application/zip" ".zip" "") in
  bomb (2 ^ 62) = Ok (Some (mkScan false "Archive.DecompressionBomb.ZipBomb" "Heuristic")) /\
  bomb (2 ^ 63) = Ok (Some (mkScan true "" "Heuristic")).
Proof. vm_compute. by split. Qed.

(** Defaults that the comments promise are not set: a scanner that fails lets
    the file pass, and nothing is too small; the storage has no shards. *)
Example defaults_are_open :
  let cfg := NewUploadManager (mkUploadConfig 0 0 0 [] [] None StrategyUUID None false 0) in
  FailClosedScanner cfg = false /\ MinFileSize cfg = 0 /\
  (let '(s, v) := ProcessReader (CP := ToyCrypto.toy_prims) (ST := memory_storage) toy_detect toy_is (fun _ => None) cfg
                    (Some (fun _ _ _ => Err read_fault)) toy_occasion NewMemoryStorage (mkReaderAt [] None) 0 "x.sh" in
   match v with Accepted p => p_Size p = 0 | _ => False end) /\
  ShardDepth <$> match snd (NewLocalStorage (no_faults 0 []) None no_disk "/up") with Ok c => Some c | Err _ => None end = Some 0.
Proof. vm_compute. by split_and!. Qed.

(** The type is compared as a whole, and the library's text for a page has a
    parameter; an image that is not decoded has no dimensions to check. *)
Example pages_pass_as_images :
  checkMIMEExtensionConsistency ".png" "text/html; charset=utf-8" = Accepted () /\
  image_size (fun _ => None) (MaxDimensions DefaultConfig 10 10) (mkReaderAt [] None) 0 "image/webp" = Accepted (0, 0).
Proof. by vm_compute. Qed.

(** The first file of a form stays stored when the second is refused. *)
Example first_file_stays :
  let h := mkHeader "a.png" 2 (Some (mkReaderAt [137; 80] None)) true in
  let '(s, v, _) := ProcessMultiple (CP := ToyCrypto.toy_prims) (ST := memory_storage) toy_detect toy_is (fun _ => None) DefaultConfig None
                      NewMemoryStorage (Ok [(toy_occasion, h); (toy_occasion, mkHeader "b.exe" 2 (Some (mkReaderAt [77; 90] None)) true)]) in
  (match v with Rejected c _ _ => c = "UNSUPPORTED_MEDIA_TYPE" | _ => False end) /\ size (m_data s) = 1%nat.
Proof. vm_compute. by split. Qed.

(** ** Names and keys that are generated *)

Lemma plain_simple n : plain n = true -> no_slash n = true /\ simple n.
Proof.
  intros Hp. pose proof (plain_chars _ Hp) as Hc.
  assert (no_slash n = true) as Hs.
  { eapply forallb_weaken; [|exact Hc]. intros a Ha. apply negb_true_iff, Ascii.eqb_neq. by intros ->. }
  split; [done|]. apply simple_spec. split_and!; [done| | |]; intros ->; done.
Qed.

(** Whatever a client calls its file, the sanitized name is made of letters,
    digits, dots, underscores and hyphens, starts with a letter or a digit,
    is a single element of a path, and is the name of no device. *)
Theorem sanitized_names_are_plain f :
  plain (SanitizeFilename f) = true /\ simple_name (SanitizeFilename f) = true /\ windowsReservedNames (SanitizeFilename f) = false.
Proof.
  pose proof (sanitized_plain f) as Hp. split_and!; [done| |apply sanitized_unreserved].
  by destruct (plain_simple _ Hp).
Qed.

Fixpoint dots (s : string) : nat :=
  match s with String a s' => (if Ascii.eqb a "." then 1 else 0) + dots s' | EmptyString => 0 end.

Lemma dots_app s t : dots (s +:+ t) = (dots s + dots t)%nat.
Proof. induction s as [|a s IH]; [done|]. rewrite string_app_cons. cbn. rewrite IH. lia. Qed.

Lemma dots_without s : without "." s = true -> dots s = 0%nat.
Proof.
  unfold without. induction s as [|a s IH]; [done|]. cbn. intros [Ha%negb_true_iff Hs]%andb_true_iff. by rewrite Ha, IH.
Qed.

Lemma dots_contains s sub : str_contains s sub = true -> (dots sub <= dots s)%nat.
Proof.
  induction s as [|a s IH]; cbn [str_contains]; intros [H|H]%orb_true_iff.
  - apply HasPrefix_inv in H as [r H]. rewrite H, dots_app. lia.
  - done.
  - apply HasPrefix_inv in H as [r H]. rewrite H, dots_app. lia.
  - cbn. specialize (IH H). lia.
Qed.

Lemma lower_dot a : Ascii.eqb (lower_ascii a) "." = Ascii.eqb a ".".
Proof. by destruct a as [[] [] [] [] [] [] [] []]. Qed.

Lemma dots_lower s : dots (ToLower s) = dots s.
Proof. induction s as [|a s IH]; [done|]. cbn. by rewrite lower_dot, IH. Qed.

Lemma split_without_sep c s : Forall (fun e => without c e = true) (split_on c s).
Proof.
  induction s as [|a s IH]; [by repeat constructor|]. cbn [split_on]. destruct (Ascii.eqb a c) eqn:Ha; [by constructor|].
  destruct (split_on c s); [by repeat constructor; unfold without; cbn; rewrite Ha|].
  apply Forall_cons in IH as [Hw IH]. constructor; [|done]. unfold without in *. cbn. by rewrite Ha.
Qed.

Lemma Ext_dots n : (dots (Ext n) <= 1)%nat.
Proof.
  unfold Ext. destruct (rev (split_on "." (last_elem n))) as [|e [|e2 l]] eqn:Hr; [cbn; lia|cbn; lia|]. rewrite dots_app.
  pose proof (split_without_sep "." (last_elem n)) as Hs. apply Forall_rev in Hs. rewrite Hr in Hs.
  apply Forall_cons in Hs as [He _]. rewrite (dots_without e He). cbn. lia.
Qed.

Lemma extension_chars f : string_forallb name_char (file_extension f) = true.
Proof. apply ToLower_name, forallb_ext_str; [done|]. apply plain_chars, sanitized_plain. Qed.

Lemma plain_key n : plain n = true -> (dots n <= 1)%nat -> ordinary_key n = true.
Proof.
  intros Hp Hd. destruct (plain_simple _ Hp) as [Hs Hn]. pose proof Hn as (_ & Hne & Hdot & Hdd)%simple_spec.
  assert (HasPrefix n "/" = false) as Hr.
  { destruct n as [|a n]; [done|]. unfold no_slash, without in Hs. cbn [string_forallb] in Hs. apply andb_true_iff in Hs as [Ha _].
    apply negb_true_iff in Ha. rewrite Ascii.eqb_sym in Ha. change (Ascii.eqb slash a && HasPrefix n "" = false). by rewrite Ha. }
  assert (cleanKey n = n) as Hc.
  { unfold cleanKey, Clean. rewrite Hr, split_no_slash by done. unfold clean_elems. rewrite clean_simple by (by repeat constructor).
    cbn [rev app]. change (join_with "/" [n]) with n. apply String.eqb_neq in Hne. rewrite Hne.
    by apply (trim_slash_join [n]); repeat constructor. }
  assert (Base n = n) as Hb.
  { unfold Base. apply String.eqb_neq in Hne. rewrite Hne, split_no_slash by done. cbn. by rewrite Hne. }
  unfold ordinary_key, proper_key. rewrite Hc, Hb. unfold is_one_of. cbn.
  apply String.eqb_neq in Hne, Hdot. rewrite Hne, Hdot. cbn. apply andb_true_iff. split; apply negb_true_iff, not_true_iff_false.
  - intros [r ->]%HasSuffix_inv. rewrite dots_app in Hd. cbn in Hd. lia.
  - intros Ht%dots_contains. cbn in Ht. lia.
Qed.

Lemma hex_digit_alnum n : 0 <= n < 16 -> alnum (hex_digit n) = true /\ Ascii.eqb (hex_digit n) "." = false.
Proof.
  intros Hn. assert (In n (map Z.of_nat (seq 0 16))) as Hin
    by (apply in_map_iff; exists (Z.to_nat n); split; [lia|apply in_seq; lia]).
  cbn in Hin. repeat (destruct Hin as [<-|Hin]; [by split|]). done.
Qed.

Lemma hex_alnum b : Forall is_byte b -> string_forallb alnum (EncodeToString b) = true.
Proof.
  induction 1 as [|x b Hx _ IH]; [done|]. cbn [EncodeToString]. rewrite string_forallb_app, IH, andb_true_r.
  unfold is_byte in Hx. unfold hex_byte. cbn [string_forallb].
  destruct (hex_digit_alnum (x / 16)) as [-> _]; [split; [apply Z.div_pos|apply Z.div_lt_upper_bound]; lia|].
  destruct (hex_digit_alnum (x mod 16)) as [-> _]; [pose proof (Z.mod_pos_bound x 16); lia|done].
Qed.

Lemma hex_number_alnum w n : string_forallb alnum (hex_number w n) = true.
Proof.
  revert n. induction w as [|w IH]; intros n; [done|]. cbn [hex_number]. rewrite string_forallb_app, IH. cbn.
  destruct (hex_digit_alnum (n mod 16)) as [-> _]; [pose proof (Z.mod_pos_bound n 16); lia|done].
Qed.

Definition dashed (a : Ascii.ascii) : bool := alnum a || char_in "_-" a.

Lemma dashed_dots s : string_forallb dashed s = true -> dots s = 0%nat /\ string_forallb name_char s = true.
Proof.
  intros Hs. split.
  - apply dots_without. eapply forallb_weaken; [|exact Hs]. intros a Ha. apply negb_true_iff, Ascii.eqb_neq. by intros ->.
  - eapply forallb_weaken; [|exact Hs]. unfold dashed. intros a [Ha|Ha]%orb_true_iff; [by apply alnum_name|].
    assert (char_in "._-" a = true) as Hc by (unfold char_in in *; cbn in *; by rewrite Ha, orb_true_r).
    unfold name_char. by rewrite Hc, orb_true_r.
Qed.

Lemma alnum_dashed s : string_forallb alnum s = true -> string_forallb dashed s = true.
Proof. apply forallb_weaken. unfold dashed. by intros a ->. Qed.

Lemma Ext_lower_dots f : (dots (file_extension f) <= 1)%nat.
Proof. unfold file_extension. rewrite dots_lower. apply Ext_dots. Qed.

(** Behind letters, digits and dashes, the extension brings the only dot. *)
Lemma tagged_key a u f : alnum a = true -> string_forallb dashed u = true -> ordinary_key (String a u +:+ file_extension f) = true.
Proof.
  intros Ha Hu. destruct (dashed_dots u Hu) as [Hd Hc]. apply plain_key.
  - apply plain_app; [cbn; by rewrite Ha|apply extension_chars].
  - rewrite dots_app. pose proof (Ext_lower_dots f). cbn. rewrite Hd.
    destruct (Ascii.eqb_spec a "."); [by subst|lia].
Qed.

Lemma tagged_hex b rest f : Forall is_byte b -> b <> [] -> string_forallb dashed rest = true ->
  ordinary_key ((EncodeToString b +:+ rest) +:+ file_extension f) = true.
Proof.
  intros Hb Hne Hr. pose proof (hex_alnum b Hb) as Hh. destruct b as [|x b]; [done|].
  destruct (EncodeToString (x :: b)) as [|a u] eqn:He; [done|]. cbn in Hh. apply andb_true_iff in Hh as [Ha Hu].
  rewrite string_app_cons. apply tagged_key; [done|]. rewrite string_forallb_app, Hr. by rewrite alnum_dashed.
Qed.

Section GeneratedKeys.
Context {CP : CryptoPrims} {CL : CryptoLaws}.
Variables (rand : Z -> bytes) (now_ms : Z).
(** [rand.Read] fills the buffer. *)
Hypothesis rand_fills : forall n, 0 < n -> zlen (rand n) = n /\ Forall is_byte (rand n).

Lemma or_byte x m t : is_byte x -> 0 <= m < 256 -> 0 <= t < 256 -> is_byte (Z.lor (Z.land x m) t).
Proof.
  unfold is_byte. intros Hx Hm Ht.
  assert (0 <= Z.land x m) by (apply Z.land_nonneg; lia). assert (0 <= Z.lor (Z.land x m) t) by (apply Z.lor_nonneg; lia).
  split; [done|]. destruct (Z.eq_dec (Z.lor (Z.land x m) t) 0) as [->|Hz]; [lia|].
  apply (Z.log2_lt_pow2 _ 8); [lia|]. rewrite Z.log2_lor by lia.
  assert (forall y, 0 <= y < 256 -> Z.log2 y < 8) as Hl.
  { intros y Hy. destruct (Z.eq_dec y 0) as [->|]; [done|]. apply Z.log2_lt_pow2; lia. }
  apply Z.max_lub_lt; [|by apply Hl]. pose proof (Z.log2_land x m). specialize (Hl m Hm). lia.
Qed.

Lemma uuid_is_bytes : Forall is_byte (uuid_bytes rand) /\ length (uuid_bytes rand) = 16%nat.
Proof.
  destruct (rand_fills 16 ltac:(lia)) as [Hl Hb]. unfold zlen in Hl.
  assert (forall i, is_byte (nth i (rand 16) 0)) as Hn.
  { intros i. destruct (nth_in_or_default i (rand 16) 0) as [Hin| ->]; [|unfold is_byte; lia].
    by apply (proj1 (List.Forall_forall _ _) Hb). }
  unfold uuid_bytes. rewrite !length_insert. split; [|lia].
  apply Forall_insert; [apply Forall_insert; [done|]|]; apply or_byte; auto; lia.
Qed.

(** The keys made of random bytes, of the clock or of the hash of the content
    are ordinary: they name a file below the root, and neither a sidecar nor
    a temporary file of another key. *)
Theorem generated_keys_are_ordinary strategy name content : strategy <> StrategyOriginalSanitized ->
  ordinary_key (GenerateStorageKey rand now_ms strategy name content None) = true.
Proof.
  intros Hst. assert (forall n, 0 < n -> Forall is_byte (rand n) /\ rand n <> []) as Hr.
  { intros n Hn. destruct (rand_fills n Hn) as [Hl Hb]. split; [done|]. intros He. rewrite He, zlen_nil in Hl. lia. }
  unfold GenerateStorageKey, randomHex. destruct strategy; [| | |done].
  - unfold randomUUID. destruct uuid_is_bytes as [Hb Hl]. set (u := uuid_bytes rand) in *.
    assert (forall i n, Forall is_byte (take n (drop i u))) as Hp by (intros; by apply Forall_take, Forall_drop).
    apply tagged_hex; [apply Hp| |].
    + intros He%(f_equal length). rewrite length_take, length_drop, Hl in He. done.
    + rewrite !string_forallb_app. repeat (apply andb_true_iff; split); try done; by apply alnum_dashed, hex_alnum.
  - destruct (hex_number 13 now_ms) as [|a u] eqn:He; [by destruct (hex_number 12 (now_ms / 16)) eqn:H2; cbn [hex_number] in He, H2; rewrite H2 in He|].
    pose proof (hex_number_alnum 13 now_ms) as Hh. rewrite He in Hh. cbn in Hh. apply andb_true_iff in Hh as [Ha Hu].
    rewrite <- !str_app_assoc, string_app_cons. apply tagged_key; [done|]. rewrite !string_forallb_app.
    repeat (apply andb_true_iff; split); try done; apply alnum_dashed; [done|]. apply hex_alnum, Hr. lia.
  - destruct (Z.ltb_spec 0 (zlen content)).
    + rewrite <- (str_app_nil_r (EncodeToString _)). apply tagged_hex; [apply sha256_byte| |done].
      intros He. pose proof (sha256_len content) as Hl. rewrite He in Hl. done.
    + rewrite <- (str_app_nil_r (EncodeToString _)). by apply tagged_hex; [apply Hr..|].
Qed.

End GeneratedKeys.
